(* ===== verification/_CoqProject ===== *)
-Q . S2P
Prelude.v
CircuitBreaker.v
SlidingLog.v
Retry.v
Bulkhead.v
RateLimiting.v
Resilience.v
Db.v
Contracts.v
Incidents.v
Messaging.v
NotificationDelivery.v
Notifications.v
NotificationConsumer.v
OutboxPublisher.v
IncidentLifecycle.v
IncidentRaces.v
ContractDrift.v
AbuseDetection.v
JobQueue.v
LruCache.v
Cache.v
Network.v
Encodings.v
SourceRegistry.v
Observations.v
ObservationRoutes.v
ObservationQueries.v
Fetch.v
Jwt.v
InternalAuth.v
UserAuth.v
Users.v
AuditTrail.v
BackgroundWorkers.v
Scheduler.v
Probes.v
ReadModels.v
Scorecards.v
Insights.v
Reporting.v
Executive.v
Subscriptions.v
Transformations.v
EventStore.v
ObjectStore.v
Analytics.v
Application.v
TriageAgent.v
Streaming.v
LimitedRoutes.v
ContractVersions.v
McpClient.v
Dashboard.v
ReadRoutes.v
VectorSearch.v
Scrapers.v
ServiceBoundaries.v
Telemetry.v
Catalogue.v
Migrations.v
SchemaDrift.v
Analysis.v
Releases.v
AgentEvals.v
AccountScripts.v
CiChecks.v
DocsQuality.v
GeneratedSecrets.v
DatabaseSession.v
