(* ===== verification/Prelude.v ===== *)
(** * API Observatory: verification library

    The program polls external APIs, records what they answer, opens incidents when
    they fail, are slow or drift from their contract, notifies people, reports on all of
    this and offers it to a dashboard, to agents and to semantic search.  This library
    models the Python of its services: the platform primitives, the tables and the
    transactions on them, the pipeline from an observation to a settled notification,
    authentication, the read models, the workers and the scheduler, the clients, and the
    checks that guard the repository.  All paths below are relative to [src/]; those
    without a service belong to [services/ingestor].

    ** The parts and how they interact

    The platform primitives come first and know nothing of the rest:

    - [CircuitBreaker.v] (libs/platform/circuit_breaker.py): Module [Breaker] is the
      class-based breaker, [Decorated] the decorator's.  The awaited operation runs
      outside the lock, so entering and leaving are separate steps that interleave.
    - [SlidingLog.v]: the abstract log of times within a window that several
      components implement; [Retry.v] and [RateLimiting.v] refine it.
    - [Retry.v] (libs/platform/retry.py): Modules [Budget], [Backoff], [Idempotency].
    - [Bulkhead.v] (libs/platform/bulkhead.py): [AsyncBulkhead] as a transition
      system over tasks that run, wait, have been notified or were cancelled.
    - [RateLimiting.v] (rate_limiting_advanced.py, rate_limiting_token_bucket.py):
      [TokenBucket], [SlidingWindow], the Redis script [Lua] and the [Enforcement] that
      falls back on the process.
    - [Resilience.v] (libs/platform/resilience.py): bulkhead, retry and breaker
      composed around one outbound call.
    - [Telemetry.v] (libs/platform/llm_metrics.py, tracing.py, core/logging.py,
      sentry.py): usage counters, log records, the logging set-up, the set-up flags.

    The pipeline works on tables ([Db.v]): rows by primary key with a sequence,
    unique indexes and row locks.

    - [Incidents.v] (repositories/incidents.py, api/routes/incidents.py, models):
      the incident table, the health policy, the tenant-scoped endpoints.
    - [Contracts.v] (libs/contracts/events.py, core/utils.py): the event schemas.
    - [Messaging.v] (repositories/messaging.py): outbox with leases, inbox.
    - [Notifications.v] (notifications.py): channels and provider adapters.
    - [NotificationDelivery.v] (repositories/notification_delivery.py): the durable
      state of deliveries.
    - [NotificationConsumer.v] (notification_delivery_consumer.py and _worker.py):
      intake of broker values, delivery passes, offsets.
    - [OutboxPublisher.v] (notification_outbox_publisher.py).
    - [IncidentLifecycle.v] (incident_lifecycle.py, core/incident_notifications.py):
      a health sample with the incidents and requests it causes, in one transaction.
    - [IncidentRaces.v] (the same files): the reads and the writes of these transactions
      apart, in any interleaving of sessions, as they are made without locks.
    - [ContractDrift.v] (repositories/contract_drift.py, its routes and schemas):
      flat schemas, comparison, candidate confirmation, baselines, reports.
    - [AbuseDetection.v] (core/security/abuse_detection.py, its repository).
    - [JobQueue.v] (jobs/queue.py): commands behind a type class, the priority queue.

    A health sample or a snapshot writes incidents ([Incidents.v]) and, in the same
    transaction, requests into the outbox ([IncidentLifecycle.v] on [Messaging.v]);
    the publisher moves them to the broker; the consumer takes them into the inbox,
    creates one delivery per channel, calls the providers ([Notifications.v]) through
    the composed resilience, records each outcome, and dead-letters into the outbox.

    Observations and their sources:

    - [LruCache.v], [Cache.v] (cache.py): the linked LRU with its abstract list, and the
      Redis cache, list pages and lock on the interface [RedisOps]/[RedisLaws].
    - [Network.v]: addresses, URLs and Base64; [Encodings.v]: Base64 read back, the texts
      of JSON and of moments; [SourceRegistry.v]
      (repositories/source_registry.py, core/auth_headers.py, its routes): profiles, the
      URL check and the probe.
    - [Observations.v], [ObservationQueries.v], [ObservationRoutes.v],
      [LimitedRoutes.v] (repositories/observations_*.py, api/routes/observations.py and
      observations_v2.py, jobs/ingestion.py): the table, cursor pages, endpoints, limits.
    - [Fetch.v] (fetch.py) and [Scrapers.v] (scrapers/): fetching with retries and the
      filters that remember URLs, behind the class [UrlSeenStrategy] with its laws
      [RemembersUrls]; both Bloom filters are instances.
    - [Transformations.v] (transformations/strategies.py, decorators.py, factory.py),
      [EventStore.v] (storage/events.py), [ObjectStore.v] (storage/minios3.py,
      watermark.py).

    Identity: [Jwt.v] (the interface of PyJWT and its laws), [InternalAuth.v]
    (libs/platform/auth.py), [UserAuth.v] (core/auth.py, core/tenant.py and the policy),
    [Users.v] (repositories/users.py, api/routes/auth.py), [AuditTrail.v]
    (repositories/security_audit.py: the chain of hashes).

    Work in the background: [BackgroundWorkers.v] (core/background_workers.py: the pool
    as a transition system), [Scheduler.v] (core/scheduler.py and libs/platform/
    job_types.py on the interface [Engine]), [Probes.v] (jobs/probes.py: registry,
    breaker, incidents and baselines together), [Streaming.v] (events.py, pubsub.py, api/
    routes/ws.py), [Application.v] (main.py, core/config.py, services_lifecycle.py).

    Read models: [ReadModels.v] has what they share; [Scorecards.v], [Insights.v],
    [Subscriptions.v], [Reporting.v], [Executive.v] (the repositories of these names),
    [Analytics.v] (api/routes/analytics.py) and [ReadRoutes.v] (their endpoints).

    Around the ingestor: [TriageAgent.v] (agent/, on an interface of LangGraph) and
    [AgentEvals.v] (agent/evals/: the checks of recorded outputs), [Analysis.v] (the
    endpoints of api/routes/observations.py that ask a language model, the stream among
    them, and those that show a session), [VectorSearch.v] (services/inference/ with
    vector_search.py and its routes: both ends of the wire), [McpClient.v]
    (services/mcp/), [Dashboard.v] (services/dashboard/core).

    The schema of the databases: [Catalogue.v] is the interface of a database that the
    operations of a migration change, with its laws, and a reference database that obeys
    them; [Migrations.v] has every revision of alembic/versions/ and of
    services/inference/alembic/versions/ on that interface; [SchemaDrift.v] compares what
    they build with what the models declare (models/), with the filters of env.py and the
    validation script.  [DatabaseSession.v] (core/database.py) puts the two together with
    [UserAuth.v]: the settings of a request's transactions, on connections that requests
    share, and the row-level security that the migrations install.

    The repository's own tools: [ContractVersions.v] (scripts/bump_contracts_version.py),
    [ServiceBoundaries.v], [CiChecks.v] and [DocsQuality.v] (the checks of scripts/ci/),
    [Releases.v] (publishing, promotion and deployment, scripts/ci/), [AccountScripts.v]
    (scripts/seed_admin.py, create_admin.py, register_mcp_service_user.py, against the
    handlers of [Users.v]) and [GeneratedSecrets.v] (scripts/tools/).

    ** What the theorems show

    Each file has its definitions first, then its theorems, then witnesses that apply
    them to concrete values.  The groups are:

    - protection: the breakers stay on their state diagram and recover; the class
      and the decorator agree for sequential callers; the bulkhead respects its
      bounds under every interleaving and loses no wake-up; the token bucket bounds
      the rate over any interval; the Redis script and the local bucket agree; the
      sliding window and the retry budget are exactly the sliding log; the retry
      loops settle, and their delays are bounded; a composed call makes at most two
      attempts;
    - the pipeline: no two incidents with one active key however transactions overlap,
      and, without stale acknowledgements, one active incident per scope, source and
      trigger; only forward transitions; tenant isolation; requests of an incident at
      least the cooldown apart unless reports that are due overlap; the outbox is idempotent in its keys and a claim exclusive; the
      deliveries keep their invariant and follow their life cycle; a delivery pass
      and a publisher pass settle everything that they claim and return; an offset is
      committed only for a processed record;
    - contract drift: a flat schema and a comparison say exactly what the payloads
      show; a confirmed streak raises one event, whose observation may collide with another
      of the same moment; the baselines of a source are a
      chain with one active end; acceptance promotes the candidate or changes nothing;
    - abuse detection and jobs: thresholds, order of the rules, the workflow of a signal;
      the order of dequeuing, each command run at most once; the pool keeps its invariant
      under every interleaving and drains; registered jobs are the scheduled ones;
    - observations: rows and responses are well typed, listings scoped, cursor pages stable
      and complete, with cursors that decode to what they encode, the two batch implementations agree, the upsert exact; the URL
      check refuses exactly the listed ranges and guards every probe; the LRU refines its list;
      the lock is exclusive; the filters have no false negatives, and a scraper returns
      no URL twice;
    - identity: tokens round-trip and only signed ones are accepted; the tenant of a
      request is the token's; accounts keep their invariant; a deletion keeps an admin unless
      another deletion comes between its check and its write; the audit
      chain is linked and tampering shows;
    - storage: an event is claimed at most once; a backup reads back;
    - read models: scores and shares are in range, totals add up, each listed row agrees
      with the single query; pages hold what their bounds say;
    - agent and clients: a run of the agent is decided once, and notifies once, while its
      reviews do not overlap; one login serves all waiting
      callers; a session never outlives its token; pages tile a listing;
    - semantic search: what is indexed through lost requests and answers is in the store
      once, a search returns the nearest, both ends of the wire agree;
    - analysis and evaluation: a stream is read back piece by piece unless a piece breaks
      its line; an evaluated case passes exactly when it is acceptable;
    - migrations: the revisions form one line, a downgrade undoes its upgrade on any
      database but for six revisions, what the migrations build differs from what the
      models declare in a listed way, so that an observation cannot be inserted there;
    - row-level security: what a session sees is a matter of its own tenant and role, a
      transaction runs as if the other tenants' rows were not there, but for the keys that
      hidden rows hold in a unique index, and the endpoints answer as without it but for the administrators that the policies forget;
    - releases: what was published reaches the deployment, and the lock is replaced as a
      whole or not at all;
    - accounts: seeding and registering again change nothing, and the promotion script
      promotes nobody;
    - repository checks: a changelog gains one release, a bump is a single step, the
      boundary check is exact on absolute imports (and blind to others), the manifest,
      marker and documentation checks pass exactly for what they should, with the files
      they do not look at named, and generated secrets read back.

    Components that are stateful have a well-formedness invariant, preserved by every
    operation and therefore true of every reachable state; the theorems are stated
    about reachable states or about states that satisfy it.

    ** Conventions

    - A [float] is a rational: comparisons are exact and IEEE rounding is not
      modelled.  A [datetime] or [timedelta] is a whole number of microseconds.
      Strings have 8-bit characters; [lower], [upper] and [strip] are those of
      Latin-1.  A Python [int] is [Z]: there is no overflow to model, save where a column
      of the database has a width.
    - A call that can raise returns [result]; an [async] operation is one step, or
      several where another task can run in between (bulkhead, breakers, delivery and
      publishing loops, probes, whose [others] argument is what the others do meanwhile;
      the pool, the stream and the login, where the occurrences are a list of steps).
    - A transaction is a function on tables that either commits or leaves no trace.  As
      one step it is faithful where the code locks the rows it reads, or a unique index
      decides.  Where the code checks without a lock and writes later, a property of
      overlapping requests is stated of steps: [IncidentRaces.v], the parts of a deletion
      in [Users.v], the flights of [TriageAgent.v], the appends of [AuditTrail.v]; each
      says which overlaps it excludes, and a lemma shows what these do.  The other
      theorems about the incidents, and those of [ContractDrift.v] and [Probes.v], are
      about transactions one after the other.
    - Clocks and fresh identifiers are arguments, one per reading.
    - Fuel occurs where a loop is not structural: the delivery and publisher passes
      run at most their batch limit of rounds, the retry loops their attempts,
      draining the job queue one round per queued command, the walk over a syntax tree
      one per node; theorems prove that this fuel is enough, so that the functions return.
    - Parameters stand for code outside the repository.  Classes with laws: Redis,
      PyJWT, APScheduler, the MinIO client, LangGraph, the database that migrations
      change, its cast to [integer], the texts of JSON and of moments.  Whether a database
      enforces the foreign keys of the accounts is a class too: the models declare them,
      the migrations do not create them.  Arguments: the Casbin policy and
      role manager, schema dumping and validation of pydantic, digests and
      hashes, password hashing, HTTP exchanges, DNS, the broker client, git, docker, the AWS
      command, uv and pip-audit, the embedding and language models, vector distance and JSONB containment, collation,
      the text of dates and floats, the parsing of HTML, the browser, and what executing
      a command does.

    ** Not modelled

    The tabular transforms of [transformations/tabular.py] (they are calls of Polars and
    Pandas frames); the panels, the adapter and the asynchronous client of the dashboard,
    and the MCP server's tool declarations; metric declarations, log formatters and what
    OpenTelemetry and Sentry do; the semaphores of the scrapers; the construction
    of SQLAlchemy's engines and the offline mode of the migrations; the load tests and
    the labs on partitions and load balancing, which are I/O on third-party clients; the
    retention lab, which imports an archive model and counters that do not exist.  What
    a file leaves out of its component is said at its top. *)

From Stdlib Require Export QArith Qround Qminmax Lqa ZArith Lia.
From Stdlib Require Export Ascii.
From stdpp Require Export base gmap sets strings pretty sorting numbers.
From stdpp Require Export list.

#[global] Open Scope Z_scope.
#[global] Set Default Goal Selector "!".

(** ** Python values

    [float] values (clock readings of [time.monotonic] and [time.time],
    durations, token counts, scores) are rationals: the arithmetic is exact and
    IEEE rounding is not modelled.  A [datetime] or [timedelta] is a whole
    number of microseconds, which is Python's own resolution, as an integer. *)

Abbreviation datetime := Z (only parsing).
Abbreviation timedelta := Z (only parsing).

(** [timedelta(seconds=n)]. *)
Definition seconds (n : Z) : timedelta := n * 1000000.

(** [timedelta(days=n)]. *)
Definition days (n : Z) : timedelta := seconds (n * 86400).

Definition Qltb (a b : Q) : bool := negb (Qle_bool b a).

(** [round(x, n)] for [n] digits: Python rounds half to even. *)
Definition round_half_even (q : Q) : Z :=
  let lo := Qfloor q in
  let d := (q - inject_Z lo)%Q in
  if Qltb d (1 # 2) then lo
  else if Qltb (1 # 2) d then lo + 1
  else if Z.even lo then lo else lo + 1.

Definition py_round (digits : nat) (q : Q) : Q :=
  let scale := Z.pow 10 (Z.of_nat digits) in
  (round_half_even (q * inject_Z scale) # Z.to_pos scale)%Q.

(** [s[:n]] on strings. *)
Definition str_take (n : nat) (s : string) : string := String.substring 0 n s.

(** Truthiness of a [str] and of a [str | None]. *)
Definition str_truthy (s : string) : bool :=
  match s with EmptyString => false | _ => true end.

Definition opt_str_truthy (s : option string) : bool :=
  match s with Some s => str_truthy s | None => false end.

(** [str(n)] on integers. *)
Definition str_of_Z (z : Z) : string := pretty z.

(** *** [str] methods, on the characters below 256 *)

Definition is_space (c : ascii) : bool :=
  let n := nat_of_ascii c in
  ((9 <=? n) && (n <=? 13) || (28 <=? n) && (n <=? 32))%nat || (n =? 133)%nat || (n =? 160)%nat.

(** Upper-case letters whose lower case is 32 further on. *)
Definition is_upper (c : ascii) : bool :=
  let n := nat_of_ascii c in
  ((65 <=? n) && (n <=? 90) || (192 <=? n) && (n <=? 222) && negb (n =? 215))%nat.

(** Lower-case letters with an upper case 32 before. *)
Definition is_lower (c : ascii) : bool :=
  let n := nat_of_ascii c in
  ((97 <=? n) && (n <=? 122) || (224 <=? n) && (n <=? 254) && negb (n =? 247))%nat.

Fixpoint map_chars (f : ascii -> ascii) (s : string) : string :=
  match s with EmptyString => EmptyString | String c s => String (f c) (map_chars f s) end.

Definition lower : string -> string :=
  map_chars (fun c => if is_upper c then ascii_of_nat (nat_of_ascii c + 32) else c).
Definition upper : string -> string :=
  map_chars (fun c => if is_lower c then ascii_of_nat (nat_of_ascii c - 32) else c).

Fixpoint lstrip (s : string) : string :=
  match s with
  | String c s' => if is_space c then lstrip s' else s
  | EmptyString => EmptyString
  end.

Fixpoint rstrip (s : string) : string :=
  match s with
  | EmptyString => EmptyString
  | String c s' =>
      match rstrip s' with
      | EmptyString => if is_space c then EmptyString else String c EmptyString
      | t => String c t
      end
  end.

Definition strip (s : string) : string := rstrip (lstrip s).

(** [s.split(sep)] for a one-character separator. *)
Fixpoint split_on (sep : ascii) (s : string) : list string :=
  match s with
  | EmptyString => [EmptyString]
  | String c s' =>
      match split_on sep s' with
      | w :: ws => if Ascii.eqb c sep then EmptyString :: w :: ws else String c w :: ws
      | [] => [String c EmptyString]
      end
  end.

(** [t in s]. *)
Fixpoint contains (t s : string) : bool :=
  String.prefix t s || match s with EmptyString => false | String _ s => contains t s end.

(** [a or b] on optional values that are never falsy otherwise. *)
Definition or_else {A} (o : option A) (d : A) : A :=
  match o with Some a => a | None => d end.

(** A JSON value as Python decodes it; a [dict] keeps its insertion order. *)
Inductive json :=
| JNull
| JBool (b : bool)
| JInt (z : Z)
| JFloat (q : Q)
| JStr (s : string)
| JList (l : list json)
| JObj (l : list (string * json)).

(** [d.get(k)], [None] where the key is absent. *)
Fixpoint json_member (k : string) (l : list (string * json)) : option json :=
  match l with [] => None | (k', v) :: l => if String.eqb k k' then Some v else json_member k l end.

Definition json_opt {A} (f : A -> json) (o : option A) : json :=
  match o with Some a => f a | None => JNull end.

Fixpoint no_colon (s : string) : bool :=
  match s with
  | EmptyString => true
  | String c s => negb (Ascii.eqb c ":"%char) && no_colon s
  end.

(** ** Results: a Python call that returns or raises *)

Inductive result (E A : Type) : Type :=
| Ok (a : A)
| Raise (e : E).
Arguments Ok {E A} a.
Arguments Raise {E A} e.

Definition bind_result {E A B} (m : result E A) (k : A -> result E B) : result E B :=
  match m with Ok a => k a | Raise e => Raise e end.

Definition is_ok {E A} (m : result E A) : bool :=
  match m with Ok _ => true | Raise _ => false end.

Declare Scope py_scope.
Delimit Scope py_scope with py.
Notation "'try:' x <- m ;; k" := (bind_result m (fun x => k))
  (at level 100, x binder, m at next level, right associativity) : py_scope.

(** ** Lists

    [while q and p(q[0]): q.popleft()]. *)
Fixpoint drop_while {A} (p : A -> bool) (l : list A) : list A :=
  match l with
  | [] => []
  | x :: l' => if p x then drop_while p l' else l
  end.

(** Number of elements for which a test holds. *)
Definition count {A} (p : A -> bool) (l : list A) : nat := length (List.filter p l).

(** ** Generic lemmas *)

(** On a list where the test, once false, stays false, dropping the prefix is
    filtering. *)
Lemma drop_while_filter {A} (R : A -> A -> Prop) (p : A -> bool) (l : list A) :
  StronglySorted R l -> (forall x y, R x y -> p x = false -> p y = false) ->
  drop_while p l = List.filter (fun x => negb (p x)) l.
Proof.
  intros Hs Hp. induction Hs as [|x l Hs IH Hx]; simpl; [done |].
  destruct (p x) eqn:E; simpl; [done |]. f_equal.
  clear IH Hs. induction Hx as [|y l Hy _ IHl]; simpl; [done |].
  rewrite (Hp x y Hy E). simpl. by f_equal.
Qed.

Lemma StronglySorted_filter {A} (R : A -> A -> Prop) (p : A -> bool) (l : list A) :
  StronglySorted R l -> StronglySorted R (List.filter p l).
Proof.
  induction 1 as [|x l Hs IH Hx]; simpl; [constructor |].
  destruct (p x); [|done]. constructor; [done |].
  rewrite List.Forall_forall in *. intros y [Hy _]%List.filter_In. by apply Hx.
Qed.

Lemma StronglySorted_snoc {A} (R : A -> A -> Prop) (l : list A) (x : A) :
  StronglySorted R l -> Forall (fun y => R y x) l -> StronglySorted R (l ++ [x]).
Proof.
  induction 1 as [|y l Hs IH Hy]; intros Hx; simpl.
  - by repeat constructor.
  - inversion Hx; subst. constructor; [by apply IH |].
    apply Forall_app; split; [done | by constructor].
Qed.

Lemma filter_filter {A} (p q : A -> bool) (l : list A) :
  List.filter p (List.filter q l) = List.filter (fun x => q x && p x) l.
Proof.
  induction l as [|x l IH]; simpl; [done |].
  destruct (q x); simpl; [by rewrite IH | done].
Qed.

Lemma count_app {A} (p : A -> bool) (l1 l2 : list A) :
  count p (l1 ++ l2) = (count p l1 + count p l2)%nat.
Proof. unfold count. by rewrite List.filter_app, length_app. Qed.

Lemma count_le {A} (p q : A -> bool) (l : list A) :
  (forall x, In x l -> p x = true -> q x = true) -> (count p l <= count q l)%nat.
Proof.
  unfold count. induction l as [|x l IH]; intros H; simpl; [done |].
  assert (length (List.filter p l) <= length (List.filter q l))%nat
    by (apply IH; intros y Hy; apply H; by right).
  destruct (p x) eqn:E; simpl; [rewrite (H x (or_introl eq_refl) E); simpl; lia |].
  destruct (q x); simpl; lia.
Qed.

Lemma Qltb_lt (a b : Q) : Qltb a b = true <-> (a < b)%Q.
Proof.
  unfold Qltb. destruct (Qle_bool b a) eqn:E; simpl.
  - apply Qle_bool_iff in E. split; [done | lra].
  - split; [intros _ | done]. destruct (Qlt_le_dec a b) as [|H]; [done |].
    apply Qle_bool_iff in H. congruence.
Qed.

Lemma Qltb_ge (a b : Q) : Qltb a b = false <-> (b <= a)%Q.
Proof.
  unfold Qltb. rewrite negb_false_iff. apply Qle_bool_iff.
Qed.

Lemma Qle_bool_false (a b : Q) : Qle_bool a b = false <-> (b < a)%Q.
Proof.
  rewrite <- Qltb_lt. unfold Qltb. destruct (Qle_bool a b); naive_solver.
Qed.

(** *** Concatenation of strings *)

Lemma append_cons (c : ascii) (s t : string) : String c s +:+ t = String c (s +:+ t).
Proof. reflexivity. Qed.

Lemma append_nil (t : string) : EmptyString +:+ t = t.
Proof. reflexivity. Qed.

Lemma append_nil_r (s : string) : s +:+ EmptyString = s.
Proof. induction s as [|c s IH]; [done |]. by rewrite append_cons, IH. Qed.

Lemma append_assoc (s t u : string) : (s +:+ t) +:+ u = s +:+ (t +:+ u).
Proof. induction s as [|c s IH]; [done |]. by rewrite !append_cons, IH. Qed.

(** *** Strings joined with colons *)

Lemma String_length_append (a b : string) :
  String.length (a +:+ b) = (String.length a + String.length b)%nat.
Proof. induction a as [|c a IH]; simpl; [done | by rewrite IH]. Qed.

Lemma colon_split (a b x y : string) :
  no_colon a = true -> no_colon b = true ->
  a +:+ String ":"%char x = b +:+ String ":"%char y -> a = b /\ x = y.
Proof.
  revert b. induction a as [|c a IH]; intros [|d b] Ha Hb; simpl in *; intros [= H].
  - by subst.
  - subst. done.
  - subst. by rewrite andb_false_l in Ha.
  - subst. apply andb_true_iff in Ha as [_ Ha], Hb as [_ Hb].
    by destruct (IH b Ha Hb) as [-> ->].
Qed.

Lemma pretty_N_go_no_colon x s : no_colon s = true -> no_colon (pretty_N_go x s) = true.
Proof.
  revert s. induction (N.lt_wf_0 x) as [x _ IH]; intros s Hs.
  assert (x = 0 \/ 0 < x)%N as [->|Hx] by lia; [done |].
  rewrite pretty_N_go_step by done. apply IH; [by apply N.div_lt |].
  simpl. rewrite Hs. unfold pretty_N_char. by repeat case_match.
Qed.

Lemma str_of_Z_no_colon z : no_colon (str_of_Z z) = true.
Proof.
  assert (forall p, no_colon (pretty (Npos p)) = true) as Hp.
  { intros p. unfold pretty, pretty_N. case_decide; [done |]. by apply pretty_N_go_no_colon. }
  destruct z; [done | apply Hp | apply Hp].
Qed.

Lemma pretty_N_go_length (k : nat) x s :
  (x < 10 ^ N.of_nat k)%N -> (String.length (pretty_N_go x s) <= k + String.length s)%nat.
Proof.
  revert x s. induction k as [|k IH]; intros x s Hx.
  - assert (x = 0)%N as -> by (simpl in Hx; lia). by rewrite pretty_N_go_0.
  - destruct (N.eq_dec x 0%N) as [->|Hne]; [rewrite pretty_N_go_0; lia |].
    rewrite pretty_N_go_step by lia. etrans; [apply IH |simpl; lia].
    rewrite Nat2N.inj_succ, N.pow_succ_r' in Hx. apply N.Div0.div_lt_upper_bound. lia.
Qed.

(** A positive number below [10 ^ k] is written with at most [k] digits. *)
Lemma str_of_Z_length (k : nat) z :
  0 < z < 10 ^ Z.of_nat k -> (String.length (str_of_Z z) <= k)%nat.
Proof.
  intros [Hz Hlt]. destruct z as [|p|p]; [lia | |lia].
  unfold str_of_Z, pretty, pretty_Z, pretty, pretty_positive, pretty, pretty_N.
  case_decide; [lia |]. etrans; [apply (pretty_N_go_length k) | simpl; lia].
  apply N2Z.inj_lt. rewrite N2Z.inj_pow, nat_N_Z. exact Hlt.
Qed.

Lemma str_of_Z_inj a b : str_of_Z a = str_of_Z b -> a = b.
Proof. apply (inj pretty). Qed.

(** *** Splitting and joining *)

Lemma split_on_cons sep (s : string) : exists w ws, split_on sep s = w :: ws.
Proof.
  induction s as [|c s (w & ws & E)]; simpl; [by eexists _, _ |]. rewrite E.
  destruct (Ascii.eqb c sep); by eexists _, _.
Qed.

Lemma split_on_app sep (a b : string) :
  split_on sep (a +:+ String sep b) = split_on sep a ++ split_on sep b.
Proof.
  induction a as [|c a IH]; simpl.
  - destruct (split_on_cons sep b) as (w & ws & ->). by rewrite Ascii.eqb_refl.
  - rewrite IH. destruct (split_on_cons sep a) as (w & ws & ->). simpl. by destruct (Ascii.eqb c sep).
Qed.

Fixpoint free_of (sep : ascii) (s : string) : bool :=
  match s with EmptyString => true | String c s => negb (Ascii.eqb c sep) && free_of sep s end.

Lemma split_on_free sep (a : string) : free_of sep a = true -> split_on sep a = [a].
Proof.
  induction a as [|c a IH]; simpl; [done |]. intros [Hc Ha]%andb_true_iff. rewrite IH by done.
  apply negb_true_iff in Hc. by rewrite Hc.
Qed.

Lemma split_on_concat sep (l : list string) :
  l <> [] -> Forall (fun a => free_of sep a = true) l ->
  split_on sep (String.concat (String sep EmptyString) l) = l.
Proof.
  intros Hne Hl. induction Hl as [|a l Ha Hl IH]; [done |]. destruct l as [|b l].
  - simpl. by apply split_on_free.
  - change (String.concat (String sep EmptyString) (a :: b :: l))
      with (a +:+ String sep (String.concat (String sep EmptyString) (b :: l))).
    rewrite split_on_app, IH, split_on_free by done. done.
Qed.

(** *** Substrings *)

Lemma contains_prefix p s : String.prefix p s = true -> contains p s = true.
Proof. intros H. destruct s; cbn [contains]; by rewrite H. Qed.

Lemma contains_spec (t s : string) : contains t s = true <-> exists a b, s = a +:+ t +:+ b.
Proof.
  split.
  - induction s as [|c s IH]; cbn [contains]; rewrite orb_true_iff.
    + intros [Hp|]; [|done]. destruct t; [|done]. by exists EmptyString, EmptyString.
    + intros [Hp|Hs].
      * assert (forall s, String.prefix t s = true -> exists b, s = t +:+ b) as Hpre.
        { clear. induction t as [|c t IH]; intros s Hp; [by exists s |]. destruct s as [|d s]; [done |]. simpl in Hp.
          destruct (ascii_dec c d) as [->|]; [|done]. destruct (IH s Hp) as [b ->]. by exists b. }
        destruct (Hpre _ Hp) as [b ->]. by exists EmptyString, b.
      * destruct (IH Hs) as (a & b & ->). by exists (String c a), b.
  - intros (a & b & ->). induction a as [|c a IH].
    + rewrite append_nil. assert (String.prefix t (t +:+ b) = true) as Hp.
      { clear. induction t as [|c t IH]; [by destruct b |]. rewrite append_cons. simpl. destruct (ascii_dec c c); [done | congruence]. }
      destruct (t +:+ b); cbn [contains]; by rewrite Hp.
    + rewrite append_cons. cbn [contains]. rewrite IH. apply orb_true_r.
Qed.

(** *** The order of strings *)

Lemma ascii_compare_lt a b : Ascii.compare a b = Lt <-> (N_of_ascii a < N_of_ascii b)%N.
Proof. unfold Ascii.compare. apply N.compare_lt_iff. Qed.

Lemma string_compare_lt_trans (a b c : string) :
  String.compare a b = Lt -> String.compare b c = Lt -> String.compare a c = Lt.
Proof.
  revert b c. induction a as [|x a IH]; intros [|y b] [|z c]; simpl; try done.
  destruct (Ascii.compare x y) eqn:Exy; try done.
  - apply Ascii.compare_eq_iff in Exy as ->. destruct (Ascii.compare y z); try done. apply IH.
  - intros _. destruct (Ascii.compare y z) eqn:Eyz; try done.
    + apply Ascii.compare_eq_iff in Eyz as <-. by rewrite Exy.
    + intros _. assert (Ascii.compare x z = Lt) as ->; [|done].
      rewrite ascii_compare_lt in *. lia.
Qed.

Lemma string_leb_trans (a b c : string) :
  String.leb a b = true -> String.leb b c = true -> String.leb a c = true.
Proof.
  unfold String.leb. destruct (String.compare a b) eqn:E1, (String.compare b c) eqn:E2; try done; intros _ _.
  - apply String.compare_eq_iff in E1 as ->. by rewrite E2.
  - apply String.compare_eq_iff in E1 as ->. by rewrite E2.
  - apply String.compare_eq_iff in E2 as <-. by rewrite E1.
  - by rewrite (string_compare_lt_trans a b c).
Qed.

(** A boolean test in the goal or a hypothesis, turned into its proposition. *)
Ltac bool_to_prop :=
  repeat match goal with
  | H : Qle_bool _ _ = true |- _ => apply Qle_bool_iff in H
  | H : Qle_bool _ _ = false |- _ => apply Qle_bool_false in H
  | H : Qltb _ _ = true |- _ => apply Qltb_lt in H
  | H : Qltb _ _ = false |- _ => apply Qltb_ge in H
  | H : Z.leb _ _ = true |- _ => apply Z.leb_le in H
  | H : Z.leb _ _ = false |- _ => apply Z.leb_gt in H
  | H : Z.ltb _ _ = true |- _ => apply Z.ltb_lt in H
  | H : Z.ltb _ _ = false |- _ => apply Z.ltb_ge in H
  | H : Z.eqb _ _ = true |- _ => apply Z.eqb_eq in H
  | H : Z.eqb _ _ = false |- _ => apply Z.eqb_neq in H
  | H : (_ && _) = true |- _ => apply andb_true_iff in H; destruct H
  | H : (_ || _) = false |- _ => apply orb_false_iff in H; destruct H
  | H : negb _ = true |- _ => apply negb_true_iff in H
  | H : negb _ = false |- _ => apply negb_false_iff in H
  | H : bool_decide _ = true |- _ => apply bool_decide_eq_true_1 in H
  | H : bool_decide _ = false |- _ => apply bool_decide_eq_false_1 in H
  end.

(** Split every [if] and [match] of the goal and read the tests as facts. *)
Ltac split_ifs :=
  repeat (case_match; simpl in *; try discriminate); bool_to_prop; simplify_eq/=.

Create HintDb py discriminated.
#[export] Hint Resolve Qle_refl Qlt_le_weak : py.
