(* ===== verification/CircuitBreaker.v ===== *)
(** * Circuit breakers (src/libs/platform/circuit_breaker.py)

    Both breakers of the file: the class-based [CircuitBreaker] (async context
    manager, [call], administrative operations) and the decorator's
    [_CircuitBreaker].  The lock makes each of the operations below atomic; the
    awaited operation runs outside the lock, so any number of calls can be in
    flight between an enter and its exit. *)

From S2P Require Import Prelude.

Inductive CircuitState := CLOSED | OPEN | HALF_OPEN.

#[export] Instance CircuitState_eq_dec : EqDecision CircuitState.
Proof. solve_decision. Defined.

(** ** Class-based breaker *)

Module Breaker.

(** Constructor arguments that never change. *)
Record config (Exc : Type) := Config {
  _failure_threshold : Z;
  _recovery_timeout : Q;
  _half_open_successes : Z;
  _is_failure : Exc -> bool
}.
Arguments Config {Exc}.
Arguments _failure_threshold {Exc}.
Arguments _recovery_timeout {Exc}.
Arguments _half_open_successes {Exc}.
Arguments _is_failure {Exc}.

Record breaker := Breaker {
  _state : CircuitState;
  _failure_count : Z;
  _opened_at : option Q;
  _half_open_success_count : Z
}.

Definition init : breaker := Breaker CLOSED 0 None 0.

(** [breaker.state]: the enum's value, read by the Prometheus gauge. *)
Definition state (b : breaker) : string :=
  match _state b with
  | CLOSED => "closed" | OPEN => "open" | HALF_OPEN => "half_open"
  end.

Definition is_open (b : breaker) : bool := bool_decide (_state b = OPEN).
Definition is_closed (b : breaker) : bool := bool_decide (_state b = CLOSED).

Section Operations.
Context {Exc : Type} (cfg : config Exc).

(** [__aenter__]: [None] is [CircuitOpenError]; the state is then unchanged. *)
Definition aenter (now : Q) (b : breaker) : option breaker :=
  match _state b with
  | OPEN =>
      let opened := default 0%Q (_opened_at b) in
      if Qle_bool (_recovery_timeout cfg) (now - opened)
      then Some (Breaker HALF_OPEN (_failure_count b) (_opened_at b) 0)
      else None
  | _ => Some b
  end.

Definition _observation_success (b : breaker) : breaker :=
  match _state b with
  | HALF_OPEN =>
      let n := _half_open_success_count b + 1 in
      if _half_open_successes cfg <=? n
      then Breaker CLOSED 0 None 0
      else Breaker HALF_OPEN (_failure_count b) (_opened_at b) n
  | st => Breaker st 0 (_opened_at b) (_half_open_success_count b)
  end.

Definition _observation_failure (now : Q) (b : breaker) : breaker :=
  match _state b with
  | HALF_OPEN => Breaker OPEN 0 (Some now) 0
  | st =>
      let n := _failure_count b + 1 in
      if _failure_threshold cfg <=? n
      then Breaker OPEN 0 (Some now) (_half_open_success_count b)
      else Breaker st n (_opened_at b) (_half_open_success_count b)
  end.

(** [__aexit__]: the exception, if one escaped the block; it always propagates. *)
Definition aexit (now : Q) (exc : option Exc) (b : breaker) : breaker :=
  match exc with
  | None => _observation_success b
  | Some e => if _is_failure cfg e then _observation_failure now b else b
  end.

Definition reset (b : breaker) : breaker := Breaker CLOSED 0 None 0.
Definition force_open (now : Q) (b : breaker) : breaker := Breaker OPEN 0 (Some now) 0.
Definition force_close (b : breaker) : breaker := Breaker CLOSED 0 None 0.

(** What a protected call ends with. *)
Inductive call_error := CircuitOpenError | Inner (e : Exc).

(** [call]: enter at [t0]; the coroutine ends at [t1] with [op]; [others] is
    what the tasks that ran meanwhile did to the breaker. *)
Definition call {A} (t0 t1 : Q) (others : breaker -> breaker)
    (op : result Exc A) (b : breaker) : result call_error A * breaker :=
  match aenter t0 b with
  | None => (Raise CircuitOpenError, b)
  | Some b1 =>
      let b2 := others b1 in
      match op with
      | Ok a => (Ok a, aexit t1 None b2)
      | Raise e => (Raise (Inner e), aexit t1 (Some e) b2)
      end
  end.

(** Every atomic operation on a breaker shared by any number of tasks. *)
Inductive event :=
| Enter (now : Q)
| Exit (now : Q) (exc : option Exc)
| Reset
| ForceOpen (now : Q)
| ForceClose.

Definition apply_event (b : breaker) (ev : event) : breaker :=
  match ev with
  | Enter now => default b (aenter now b)
  | Exit now exc => aexit now exc b
  | Reset => reset b
  | ForceOpen now => force_open now b
  | ForceClose => force_close b
  end.

Definition run (evs : list event) (b : breaker) : breaker := foldl apply_event b evs.

(** The diagram of the module's doc comment: the moves a call can make. *)
Inductive diagram_edge : CircuitState -> CircuitState -> Prop :=
| edge_stay s : diagram_edge s s
| edge_trip : diagram_edge CLOSED OPEN
| edge_probe : diagram_edge OPEN HALF_OPEN
| edge_recover : diagram_edge HALF_OPEN CLOSED
| edge_retrip : diagram_edge HALF_OPEN OPEN.

Definition is_admin (ev : event) : bool :=
  match ev with Enter _ | Exit _ _ => false | _ => true end.

(** Well-formed breakers: what the counters and the timestamp mean. *)
Record wf (b : breaker) : Prop := {
  wf_count_nonneg : 0 <= _failure_count b;
  wf_count_bound : _failure_count b < Z.max 1 (_failure_threshold cfg);
  wf_opened_at : _state b <> CLOSED <-> is_Some (_opened_at b);
  wf_probes_nonneg : 0 <= _half_open_success_count b;
  wf_probes_bound : _half_open_success_count b < Z.max 1 (_half_open_successes cfg)
}.

End Operations.
Arguments event : clear implicits.
Arguments call_error : clear implicits.
End Breaker.

(** ** Decorator-factory breaker *)

Module Decorated.

Record config := Config {
  name : string;
  failure_threshold : Z;
  recovery_timeout : Q
}.

Record breaker := Breaker {
  _state : CircuitState;
  _failure_count : Z;
  _last_failure_time : option Q
}.

Definition init : breaker := Breaker CLOSED 0 None.

Section Operations.
Context {Exc : Type} (cfg : config).
(** [isinstance(exc, Exception)]; a cancellation is a [BaseException] only. *)
Context (is_exception : Exc -> bool).

Definition _maybe_transition_to_half_open (now : Q) (b : breaker) : breaker :=
  match _state b with
  | OPEN =>
      let elapsed := (now - default 0%Q (_last_failure_time b))%Q in
      if Qle_bool (recovery_timeout cfg) elapsed
      then Breaker HALF_OPEN (_failure_count b) (_last_failure_time b)
      else b
  | _ => b
  end.

Definition _on_success (b : breaker) : breaker := Breaker CLOSED 0 None.

Definition _on_failure (now : Q) (b : breaker) : breaker :=
  let n := _failure_count b + 1 in
  if (failure_threshold cfg <=? n) || bool_decide (_state b = HALF_OPEN)
  then Breaker OPEN n (Some now)
  else Breaker (_state b) n (Some now).

(** The gate at the head of [call]: the new state and whether it admits. *)
Definition gate (now : Q) (b : breaker) : breaker * bool :=
  let b1 := _maybe_transition_to_half_open now b in
  (b1, negb (bool_decide (_state b1 = OPEN))).

Inductive call_error := CircuitOpenError (message : string) | Inner (e : Exc).

Definition call {A} (t0 t1 : Q) (others : breaker -> breaker)
    (op : result Exc A) (b : breaker) : result call_error A * breaker :=
  let '(b1, admitted) := gate t0 b in
  if admitted then
    let b2 := others b1 in
    match op with
    | Ok a => (Ok a, _on_success b2)
    | Raise e => (Raise (Inner e), if is_exception e then _on_failure t1 b2 else b2)
    end
  else
    (Raise (CircuitOpenError
       ("Circuit '" +:+ name cfg +:+ "' is OPEN — call rejected to protect downstream")), b1).

Inductive event :=
| Enter (now : Q)
| Success
| Failure (now : Q).

Definition apply_event (b : breaker) (ev : event) : breaker :=
  match ev with
  | Enter now => fst (gate now b)
  | Success => _on_success b
  | Failure now => _on_failure now b
  end.

Record wf (b : breaker) : Prop := {
  wf_count : 0 <= _failure_count b;
  wf_closed : _state b = CLOSED -> _failure_count b < Z.max 1 (failure_threshold cfg);
  wf_failed : _state b <> CLOSED -> is_Some (_last_failure_time b) /\ 1 <= _failure_count b
}.

End Operations.
Arguments call_error : clear implicits.
End Decorated.

(** ** Theorems: the class-based breaker *)

Module BreakerTheorems.
Import Breaker.

Section Theorems.
Context {Exc : Type} (cfg : config Exc).

Lemma breaker_init_wf : wf cfg init.
Proof. split; simpl; try lia. split; [done | by intros []]. Qed.

#[local] Hint Resolve breaker_init_wf : py.

(** The parts of [wf] after a transition: arithmetic, or the opening time. *)
Ltac solve_wf :=
  split; simpl; try done; try lia;
  split; intros; first [by eexists | by match goal with H : is_Some None |- _ => destruct H end | done].

Lemma aenter_wf now b b' : wf cfg b -> aenter cfg now b = Some b' -> wf cfg b'.
Proof.
  intros Hb E. unfold aenter in E. destruct b as [st n o p]; simpl in *.
  destruct st; simplify_eq; try done. case_match; simplify_eq.
  destruct Hb as [? ? Ho ? ?]; simpl in *.
  destruct (proj1 Ho) as [t ->]; [done |]. solve_wf.
Qed.

Lemma success_wf b : wf cfg b -> wf cfg (_observation_success cfg b).
Proof.
  intros Hb. unfold _observation_success. destruct b as [[] n o p]; simpl in *.
  - destruct Hb; split; simpl in *; try done; lia.
  - destruct Hb; split; simpl in *; try done; lia.
  - case_match; bool_to_prop; [apply breaker_init_wf |].
    destruct Hb; split; simpl in *; try done; lia.
Qed.

Lemma failure_wf now b : wf cfg b -> wf cfg (_observation_failure cfg now b).
Proof.
  intros Hb. unfold _observation_failure. destruct b as [[] n o p]; destruct Hb; simpl in *.
  - case_match; bool_to_prop; [solve_wf |]. split; simpl; try done; lia.
  - case_match; bool_to_prop; [solve_wf |]. split; simpl; try done; lia.
  - solve_wf.
Qed.

Lemma apply_event_wf b ev : wf cfg b -> wf cfg (apply_event cfg b ev).
Proof.
  intros H. destruct ev as [now|now [e|]| |now|]; simpl.
  - destruct (aenter cfg now b) eqn:E; simpl; [by eapply aenter_wf | done].
  - case_match; [by apply failure_wf | done].
  - by apply success_wf.
  - apply breaker_init_wf.
  - solve_wf.
  - apply breaker_init_wf.
Qed.

(** Whatever calls, failures, resets and forced moves any number of tasks
    interleave on one [CircuitBreaker], its failure count stays below the
    threshold, its probe count below [half_open_successes], and the opening
    time is recorded exactly while the circuit is not closed. *)
Theorem breaker_reachable_wf (evs : list (event Exc)) : wf cfg (run cfg evs init).
Proof.
  unfold run. generalize breaker_init_wf. generalize init.
  induction evs as [|ev evs IH]; intros b H; simpl; [done |].
  by apply IH, apply_event_wf.
Qed.

(** No enter or exit of a call ever moves the breaker along an edge that is
    not in the documented diagram; in particular an open circuit is never
    closed by a late success, only by [reset] or [force_close]. *)
Theorem breaker_follows_diagram (b : breaker) (ev : event Exc) :
  is_admin ev = false -> diagram_edge (_state b) (_state (apply_event cfg b ev)).
Proof.
  destruct b as [st n o p]; destruct ev as [now|now [e|]| |now|]; intros Ha; try done; simpl.
  - unfold aenter; simpl. destruct st; simpl; try constructor.
    case_match; simpl; constructor.
  - case_match; [|constructor]. unfold _observation_failure.
    destruct st; simpl; try case_match; simpl; constructor.
  - unfold _observation_success. destruct st; simpl; try case_match; simpl; constructor.
Qed.

(** Sequential callers: the breaker after each of the given calls in turn. *)
Definition calls (ops : list (Q * result Exc unit)) (b : breaker) : breaker :=
  foldl (fun b '(t, op) => snd (call cfg t t id op b)) b ops.

Lemma calls_cons t op ops b :
  calls ((t, op) :: ops) b = calls ops (snd (call cfg t t id op b)).
Proof. done. Qed.

Lemma calls_app ops1 ops2 b : calls (ops1 ++ ops2) b = calls ops2 (calls ops1 b).
Proof. unfold calls. apply foldl_app. Qed.

Lemma failing_call_closed e t b :
  _is_failure cfg e = true -> _state b = CLOSED ->
  snd (call cfg t t id (Raise e : result Exc unit) b) = _observation_failure cfg t b.
Proof.
  intros He Hs. unfold call, aenter. rewrite Hs. simpl. by rewrite He.
Qed.

Lemma failing_calls_count e ts b :
  _is_failure cfg e = true -> _state b = CLOSED ->
  _failure_count b + Z.of_nat (length ts) < _failure_threshold cfg ->
  calls (map (fun t => (t, Raise e)) ts) b =
    Breaker CLOSED (_failure_count b + Z.of_nat (length ts)) (_opened_at b)
      (_half_open_success_count b).
Proof.
  intros He. revert b. induction ts as [|t ts IH]; intros b Hs Hn.
  - simpl. destruct b; simpl in *. f_equal; [done | lia].
  - cbn [map length] in *. rewrite calls_cons, failing_call_closed by done.
    assert (_observation_failure cfg t b =
      Breaker CLOSED (_failure_count b + 1) (_opened_at b) (_half_open_success_count b)) as ->.
    { unfold _observation_failure. rewrite Hs.
      destruct (_failure_threshold cfg <=? _failure_count b + 1) eqn:E; [|done].
      bool_to_prop. lia. }
    rewrite IH; simpl; [f_equal; lia | done | lia].
Qed.

(** Starting closed, fewer than [failure_threshold] consecutive failures
    leave the circuit closed with their number recorded, and the failure that
    reaches the threshold opens it at its own time with the count reset. *)
Theorem breaker_trips_at_threshold (e : Exc) (ts : list Q) (last : Q) :
  _is_failure cfg e = true -> 1 <= _failure_threshold cfg ->
  Z.of_nat (length ts) + 1 = _failure_threshold cfg ->
  (forall k, (k <= length ts)%nat ->
     calls (map (fun t => (t, Raise e)) (take k ts)) init =
       Breaker CLOSED (Z.of_nat k) None 0) /\
  calls (map (fun t => (t, Raise e)) (ts ++ [last])) init = Breaker OPEN 0 (Some last) 0.
Proof.
  intros He Hthr Hlen. split.
  - intros k Hk. pose proof (length_take_le ts k Hk) as Hl.
    rewrite failing_calls_count, Hl; simpl; try done. rewrite Hl; lia.
  - rewrite map_app, calls_app, (failing_calls_count e ts init) by (simpl; lia || done). simpl.
    rewrite He. unfold _observation_failure; simpl.
    destruct (_failure_threshold cfg <=? _) eqn:E; [done | bool_to_prop; lia].
Qed.

(** A call is rejected with [CircuitOpenError], leaving the breaker as it
    was, exactly when the circuit is open and the recovery timeout has not
    elapsed since it opened; every other call runs its operation. *)
Theorem breaker_rejects_iff {A} (t0 t1 : Q) others (op : result Exc A) (b : breaker) :
  wf cfg b ->
  (call cfg t0 t1 others op b = (Raise CircuitOpenError, b) <->
   exists opened, _state b = OPEN /\ _opened_at b = Some opened /\
     (t0 - opened < _recovery_timeout cfg)%Q) /\
  (forall opened, _state b = OPEN -> _opened_at b = Some opened ->
     (_recovery_timeout cfg <= t0 - opened)%Q ->
     aenter cfg t0 b = Some (Breaker HALF_OPEN (_failure_count b) (Some opened) 0)).
Proof.
  intros [_ _ Ho _ _]. split.
  - unfold call, aenter. destruct b as [st n o p]; simpl in *. split.
    + destruct st; [by destruct op | | by destruct op].
      destruct (proj1 Ho) as [o' ->]; [done |]. simpl.
      destruct (Qle_bool _ _) eqn:E; [by destruct op |].
      bool_to_prop. intros _. by exists o'.
    + intros (opened & -> & -> & Hlt). simpl.
      destruct (Qle_bool _ _) eqn:E; [bool_to_prop; lra | done].
  - unfold aenter. destruct b as [st n o p]; simpl. intros opened -> -> H. simpl.
    apply Qle_bool_iff in H. by rewrite H.
Qed.

Lemma probe_success_run k t b :
  _state b = HALF_OPEN ->
  _half_open_success_count b + Z.of_nat k < _half_open_successes cfg ->
  calls (replicate k (t, Ok tt)) b =
    Breaker HALF_OPEN (_failure_count b) (_opened_at b) (_half_open_success_count b + Z.of_nat k).
Proof.
  revert b. induction k as [|k IH]; intros [st n o p] Hs Hn; simpl in Hs; subst.
  - simpl. f_equal; lia.
  - simpl in Hn. cbn [replicate]. rewrite calls_cons. simpl. unfold _observation_success; simpl.
    destruct (_half_open_successes cfg <=? p + 1) eqn:E; [bool_to_prop; lia |].
    rewrite IH; simpl; [f_equal; lia | done | lia].
Qed.

(** Once the recovery timeout has elapsed, [half_open_successes] consecutive
    successful calls bring an open circuit back to the initial closed state and
    one fewer does not; a failing probe re-opens it at the failure's time. *)
Theorem breaker_recovers (b : breaker) (opened t : Q) (k : nat) (e : Exc) :
  _state b = OPEN -> _opened_at b = Some opened ->
  (_recovery_timeout cfg <= t - opened)%Q ->
  Z.of_nat (S k) = _half_open_successes cfg -> _is_failure cfg e = true ->
  calls (replicate (S k) (t, Ok tt)) b = init /\
  (0 < k -> _state (calls (replicate k (t, Ok tt)) b) = HALF_OPEN)%nat /\
  calls [(t, Raise e)] b = Breaker OPEN 0 (Some t) 0.
Proof.
  intros Hs Ho Ht Hk He.
  assert (aenter cfg t b = Some (Breaker HALF_OPEN (_failure_count b) (Some opened) 0)) as Hen.
  { unfold aenter. rewrite Hs, Ho. simpl. apply Qle_bool_iff in Ht. by rewrite Ht. }
  assert (forall j, (0 < j)%nat -> calls (replicate j (t, Ok tt)) b =
    calls (replicate j (t, Ok tt)) (Breaker HALF_OPEN (_failure_count b) (Some opened) 0)) as Hfirst.
  { intros [|j] Hj; [lia |]. simpl replicate. rewrite !calls_cons. unfold call. by rewrite Hen. }
  split; [|split].
  - rewrite Hfirst, replicate_S_end, calls_app, probe_success_run by (simpl; lia || done).
    simpl. unfold _observation_success; simpl.
    destruct (_half_open_successes cfg <=? _) eqn:E; [done | bool_to_prop; lia].
  - intros Hj. rewrite Hfirst by done. rewrite probe_success_run; simpl; [done | done | lia].
  - rewrite calls_cons. unfold call. rewrite Hen. simpl. by rewrite He.
Qed.

End Theorems.
End BreakerTheorems.

(** ** Theorems: the decorator's breaker *)

Module DecoratedTheorems.
Import Decorated.

Section Theorems.
Context {Exc : Type} (cfg : config) (is_exception : Exc -> bool).

Lemma decorated_init_wf : wf cfg init.
Proof. split; simpl; try done; lia. Qed.

Lemma decorated_event_wf b ev : wf cfg b -> wf cfg (apply_event cfg b ev).
Proof.
  intros [Hc Hcl Hf]. destruct b as [st n l], ev as [now| |now]; simpl in *.
  - unfold _maybe_transition_to_half_open; simpl. destruct st; simpl; try done.
    destruct (Qle_bool _ _); split; simpl; try done; intros _; by apply Hf.
  - apply decorated_init_wf.
  - unfold _on_failure; simpl.
    destruct ((failure_threshold cfg <=? n + 1) || bool_decide (st = HALF_OPEN)) eqn:E.
    + split; simpl; try done; [lia |]. split; [by eexists | lia].
    + bool_to_prop. split; simpl; [lia | lia | split; [by eexists | lia]].
Qed.

(** On the decorator's breaker every interleaving of calls keeps the failure
    count below the threshold while closed and the failure time recorded
    otherwise, and enters and failures follow the documented diagram; but a
    success closes the circuit from every state: a call admitted before the
    circuit opened closes it on return with no probe, an edge the diagram does
    not have. *)
Theorem decorated_late_success_closes (b : breaker) (now : Q) :
  (forall evs, wf cfg (foldl (apply_event cfg) init evs)) /\
  (forall ev, ev = Enter now \/ ev = Failure now ->
     Breaker.diagram_edge (_state b) (_state (apply_event cfg b ev))) /\
  apply_event cfg b Success = init /\
  ~ Breaker.diagram_edge OPEN (_state (_on_success (Breaker OPEN 1 (Some now)))).
Proof.
  split; [|split; [|split; [done | inversion 1]]].
  { intros evs. generalize decorated_init_wf. generalize init.
    induction evs as [|ev evs IH]; intros d H; simpl; [done |].
    by apply IH, decorated_event_wf. }
  destruct b as [st n l]; intros ev [-> | ->]; simpl.
  - unfold _maybe_transition_to_half_open; simpl. destruct st; simpl; try constructor.
    destruct (Qle_bool _ _); simpl; constructor.
  - unfold _on_failure; simpl. destruct (_ || _); destruct st; simpl; constructor.
Qed.
End Theorems.

(** ** The two breakers agree for a caller that makes one call at a time *)

Section Agreement.
Context {Exc : Type} (cfg : config) (is_exception : Exc -> bool).

Definition class_config : Breaker.config Exc :=
  Breaker.Config (failure_threshold cfg) (recovery_timeout cfg) 1 is_exception.

(** Outcome of one call: [None] when the gate rejected it. *)
Definition outcome {A} (r : result (call_error Exc) A) : option (result Exc A) :=
  match r with
  | Ok a => Some (Ok a)
  | Raise (Inner e) => Some (Raise e)
  | Raise (CircuitOpenError _) => None
  end.

Definition class_outcome {A} (r : result (Breaker.call_error Exc) A)
    : option (result Exc A) :=
  match r with
  | Ok a => Some (Ok a)
  | Raise (Breaker.Inner e) => Some (Raise e)
  | Raise Breaker.CircuitOpenError => None
  end.

Fixpoint trace {A} (ops : list (Q * Q * result Exc A)) (b : breaker)
    : list (option (result Exc A) * CircuitState) :=
  match ops with
  | [] => []
  | (t0, t1, op) :: ops =>
      let '(r, b') := call cfg is_exception t0 t1 id op b in
      (outcome r, _state b') :: trace ops b'
  end.

Fixpoint class_trace {A} (ops : list (Q * Q * result Exc A)) (b : Breaker.breaker)
    : list (option (result Exc A) * CircuitState) :=
  match ops with
  | [] => []
  | (t0, t1, op) :: ops =>
      let '(r, b') := Breaker.call class_config t0 t1 id op b in
      (class_outcome r, Breaker._state b') :: class_trace ops b'
  end.

(** The simulation relation between the two states. *)
Definition related (b : Breaker.breaker) (d : breaker) : Prop :=
  Breaker._state b = _state d /\
  match _state d with
  | CLOSED => Breaker._failure_count b = _failure_count d
  | OPEN => Breaker._opened_at b = _last_failure_time d
  | HALF_OPEN => Breaker._half_open_success_count b = 0
  end.

Lemma related_call {A} t0 t1 (op : result Exc A) b d :
  related b d ->
  let rb := Breaker.call class_config t0 t1 id op b in
  let rd := call cfg is_exception t0 t1 id op d in
  class_outcome (fst rb) = outcome (fst rd) /\ related (snd rb) (snd rd).
Proof.
  destruct b as [sb n o p], d as [sd m l]. intros [Hs Hrel]; simpl in Hs; subst.
  unfold Breaker.call, call, Breaker.aenter, gate, _maybe_transition_to_half_open,
    class_config, Breaker.aexit, Breaker._observation_success,
    Breaker._observation_failure, _on_failure, related; simpl.
  destruct sd; simpl in Hrel; subst; simpl.
  - destruct op as [a|e]; [done |]; simpl. destruct (is_exception e); simpl; [|done].
    rewrite orb_false_r. by destruct (failure_threshold cfg <=? _).
  - destruct (Qle_bool (recovery_timeout cfg) _); simpl; [|done].
    destruct op as [a|e]; [done |]; simpl.
    destruct (is_exception e); simpl; [|done]. by rewrite orb_true_r.
  - destruct op as [a|e]; [done |]; simpl.
    destruct (is_exception e); simpl; [|done]. by rewrite orb_true_r.
Qed.

Lemma related_trace {A} (ops : list (Q * Q * result Exc A)) b d :
  related b d -> class_trace ops b = trace ops d.
Proof.
  revert b d. induction ops as [|[[t0 t1] op] ops IH]; intros b d H; simpl; [done |].
  pose proof (related_call t0 t1 op b d H) as [Ho Hr].
  destruct (Breaker.call _ _ _ _ _ _) as [rb b'], (call _ _ _ _ _ _ _) as [rd d']; simpl in *.
  rewrite Ho, (IH b' d' Hr). by destruct Hr as [-> _].
Qed.

(** For a caller that runs one call at a time, the decorator's breaker and a
    [CircuitBreaker] with one half-open success and [is_failure] set to "is an
    [Exception]" admit and reject the same calls, return the same results and
    go through the same states. *)
Theorem breakers_agree_sequentially {A} (ops : list (Q * Q * result Exc A)) :
  class_trace ops Breaker.init = trace ops init.
Proof. by apply related_trace. Qed.
End Agreement.
End DecoratedTheorems.

(** ** Witnesses *)

Module Witnesses.
Import Breaker BreakerTheorems.

(** The shared configuration of [DependencyResilience]: 3 failures, 30 seconds. *)
Definition cfg3 : config unit := Config 3 30 1 (fun _ => true).

Lemma breaker_follows_diagram_witness :
  diagram_edge OPEN HALF_OPEN.
Proof.
  exact (breaker_follows_diagram cfg3 (Breaker OPEN 0 (Some 10%Q) 0) (Enter 40) eq_refl).
Defined.

Lemma breaker_trips_at_threshold_witness :
  calls cfg3 (map (fun t => (t, Raise tt)) [1; 2; 5]%Q) init = Breaker OPEN 0 (Some 5%Q) 0.
Proof.
  exact (proj2 (breaker_trips_at_threshold cfg3 tt [1; 2]%Q 5 eq_refl
    (ltac:(vm_compute; discriminate)) eq_refl)).
Defined.

Lemma breaker_rejects_iff_witness :
  call cfg3 20 21 id (Ok tt : result unit unit) (Breaker OPEN 0 (Some 5%Q) 0) =
    (Raise CircuitOpenError, Breaker OPEN 0 (Some 5%Q) 0).
Proof.
  apply (breaker_rejects_iff cfg3 20 21 id (Ok tt) (Breaker OPEN 0 (Some 5%Q) 0)).
  - by split.
  - exists 5%Q. done.
Defined.

Lemma breaker_recovers_witness :
  calls cfg3 (replicate 1 (40%Q, Ok tt)) (Breaker OPEN 0 (Some 5%Q) 0) = init.
Proof.
  apply (breaker_recovers cfg3 (Breaker OPEN 0 (Some 5%Q) 0) 5 40 0 tt);
    try reflexivity. vm_compute; discriminate.
Defined.

Lemma decorated_late_success_closes_witness :
  Decorated.apply_event (Decorated.Config "probe" 3 30)
    (Decorated.Breaker OPEN 3 (Some 5%Q)) Decorated.Success = Decorated.init.
Proof.
  apply (DecoratedTheorems.decorated_late_success_closes
    (Decorated.Config "probe" 3 30) (Decorated.Breaker OPEN 3 (Some 5%Q)) 6).
Defined.
End Witnesses.
