(* ===== verification/SlidingLog.v ===== *)
(** * Sliding-window logs: the contract of the two rolling limiters

    [RetryBudget] (src/libs/platform/retry.py) and [SlidingWindowLimiter]
    (src/services/ingestor/rate_limiting_advanced.py) keep a queue of admission
    times, drop the prefix that left the window and admit while the queue is
    below the limit.  [SlidingLimiter] is the interface both implement; the
    theorems of this file are proved against it. *)

From S2P Require Import Prelude.

(** ** Interface *)

Class SlidingLimiter (L : Type) := {
  limit : L -> Z;
  window : L -> Q;
  log : L -> list Q;
  request : Q -> L -> bool * L
}.

(** The part of the log still inside the window at [now]. *)
Definition live `{SlidingLimiter L} (now : Q) (s : L) : list Q :=
  drop_while (fun t => Qltb t (now - window s)) (log s).

Class SlidingLimiterLaws (L : Type) `{SlidingLimiter L} := {
  request_admits (now : Q) (s : L) :
    fst (request now s) = (Z.of_nat (length (live now s)) <? limit s);
  request_log (now : Q) (s : L) :
    log (snd (request now s)) =
      if fst (request now s) then live now s ++ [now] else live now s;
  request_limit (now : Q) (s : L) : limit (snd (request now s)) = limit s;
  request_window (now : Q) (s : L) : window (snd (request now s)) = window s
}.

(** The requests of a run that were admitted. *)
Fixpoint admissions `{SlidingLimiter L} (times : list Q) (s : L) : list Q :=
  match times with
  | [] => []
  | now :: times =>
      let '(ok, s') := request now s in
      if ok then now :: admissions times s' else admissions times s'
  end.

(** ** Abstract specification

    The whole history of admissions is remembered; a request is admitted when
    the closed window that ends at it holds fewer than [n] of them. *)

Definition in_window (w now t : Q) : bool := Qle_bool (now - w) t && Qle_bool t now.

Fixpoint spec_admissions (n : Z) (w : Q) (hist times : list Q) : list Q :=
  match times with
  | [] => []
  | now :: times =>
      if Z.of_nat (count (in_window w now) hist) <? n
      then now :: spec_admissions n w (hist ++ [now]) times
      else spec_admissions n w hist times
  end.

(** ** The specification bounds every window *)

Lemma below_tail (hist times : list Q) now :
  Forall (fun h => Forall (Qle h) (now :: times)) hist ->
  Forall (fun h => Forall (Qle h) times) hist.
Proof. apply List.Forall_impl. intros h Hh. by inversion Hh. Qed.

Lemma below_head (hist times : list Q) now :
  Forall (fun h => Forall (Qle h) (now :: times)) hist -> Forall (fun h => (h <= now)%Q) hist.
Proof. apply List.Forall_impl. intros h Hh. by inversion Hh. Qed.

Lemma spec_window_bound (n : Z) (w x : Q) (times hist : list Q) :
  (0 <= w)%Q ->
  StronglySorted Qle times -> Forall (fun h => Forall (Qle h) times) hist ->
  (forall y, Z.of_nat (count (in_window w y) hist) <= Z.max 0 n) ->
  Z.of_nat (count (in_window w x) (hist ++ spec_admissions n w hist times)) <= Z.max 0 n.
Proof.
  intros Hw Hs. revert hist. induction Hs as [|now times Hs IH Hnow]; intros hist Hle Hb; simpl.
  - rewrite app_nil_r. apply Hb.
  - destruct (Z.of_nat (count (in_window w now) hist) <? n) eqn:E; bool_to_prop.
    + rewrite cons_middle, app_assoc. apply IH.
      * apply Forall_app; split; [by eapply below_tail | by repeat constructor].
      * intros y. rewrite count_app. destruct (in_window w y now) eqn:Ey.
        -- unfold count at 2. simpl. rewrite Ey. simpl.
           assert (count (in_window w y) hist <= count (in_window w now) hist)%nat; [|lia].
           apply count_le. intros h Hh. unfold in_window in *. intros Hyh. bool_to_prop.
           apply below_head in Hle. rewrite List.Forall_forall in Hle.
           specialize (Hle h Hh). simpl in Hle. apply andb_true_iff. rewrite !Qle_bool_iff. split; lra.
        -- unfold count at 2. simpl. rewrite Ey. simpl. specialize (Hb y). lia.
    + apply IH; [by eapply below_tail | done].
Qed.

(** ** Every implementation of the interface refines the specification *)

Section Refinement.
Context `{SlidingLimiterLaws L}.

(** The log holds the admissions of the history that the last prune kept. *)
Definition tracks (last : Q) (hist : list Q) (s : L) : Prop :=
  log s = List.filter (fun t => Qle_bool (last - window s) t) hist.

Lemma live_filter now last hist s :
  (last <= now)%Q -> StronglySorted Qle hist -> tracks last hist s ->
  live now s = List.filter (fun t => Qle_bool (now - window s) t) hist.
Proof.
  intros Hle Hs Ht. unfold live. rewrite Ht.
  rewrite (drop_while_filter Qle).
  - rewrite filter_filter. apply List.filter_ext. intros t. unfold Qltb. rewrite negb_involutive.
    destruct (Qle_bool (now - window s) t) eqn:E; [|by rewrite andb_false_r].
    rewrite andb_true_r. bool_to_prop. apply Qle_bool_iff. lra.
  - by apply StronglySorted_filter.
  - intros a b Hab. rewrite !Qltb_ge. lra.
Qed.

Lemma live_count now last hist s :
  (last <= now)%Q -> StronglySorted Qle hist -> Forall (fun t => (t <= now)%Q) hist ->
  tracks last hist s -> length (live now s) = count (in_window (window s) now) hist.
Proof.
  intros Hle Hs Hnow Ht. rewrite (live_filter now last hist) by done.
  unfold count. f_equal. apply List.filter_ext_in. intros t Hin.
  rewrite List.Forall_forall in Hnow. specialize (Hnow t Hin).
  unfold in_window. apply Qle_bool_iff in Hnow. by rewrite Hnow, andb_true_r.
Qed.

Lemma request_tracks now last hist s :
  (0 <= window s)%Q ->
  (last <= now)%Q -> StronglySorted Qle hist -> tracks last hist s ->
  tracks now (if fst (request now s) then hist ++ [now] else hist) (snd (request now s)).
Proof.
  intros Hw Hle Hs Ht. unfold tracks. rewrite request_log, request_window.
  rewrite (live_filter now last hist) by done.
  destruct (fst (request now s)); [|done].
  rewrite List.filter_app. simpl.
  assert (Qle_bool (now - window s) now = true) as -> by (apply Qle_bool_iff; lra). done.
Qed.

Lemma admissions_refine_from times last hist s :
  (0 <= window s)%Q ->
  StronglySorted Qle times -> Forall (Qle last) times ->
  StronglySorted Qle hist -> Forall (fun t => Forall (Qle t) times) hist ->
  tracks last hist s ->
  admissions times s = spec_admissions (limit s) (window s) hist times.
Proof.
  intros Hw Hts. revert last hist s Hw.
  induction Hts as [|now times Hts IH Hnow]; intros last hist s Hw Hlast Hh Hht Htr; [done |].
  simpl. inversion Hlast as [|? ? Hl _]; subst.
  assert (Forall (fun t => (t <= now)%Q) hist) as Hhn.
  { by eapply below_head. }
  assert (Forall (fun t => Forall (Qle t) times) hist) as Htl.
  { by eapply below_tail. }
  pose proof (request_tracks now last hist s Hw Hl Hh Htr) as Htr'.
  pose proof (request_admits now s) as Hok.
  pose proof (request_limit now s) as Hlim. pose proof (request_window now s) as Hwin.
  rewrite (live_count now last hist) in Hok by done.
  destruct (request now s) as [ok s']; simpl in *. rewrite <- Hok.
  rewrite <- Hlim, <- Hwin. rewrite <- Hwin in Hw.
  destruct ok.
  - f_equal. apply (IH now); try done.
    + by apply StronglySorted_snoc.
    + apply Forall_app; split; [done | by repeat constructor].
  - by apply (IH now).
Qed.

Lemma admissions_refine times s :
  (0 <= window s)%Q -> StronglySorted Qle times -> log s = [] ->
  admissions times s = spec_admissions (limit s) (window s) [] times.
Proof.
  intros Hw Hs Hlog. destruct times as [|now times]; [done |].
  apply (admissions_refine_from _ now); try done.
  - inversion Hs; subst. constructor; [apply Qle_refl | done].
  - constructor.
Qed.

Lemma admissions_window_bound times s x :
  (0 <= window s)%Q -> StronglySorted Qle times -> log s = [] ->
  Z.of_nat (count (in_window (window s) x) (admissions times s)) <= Z.max 0 (limit s).
Proof.
  intros Hw Hs Hlog. rewrite admissions_refine by done.
  apply (spec_window_bound _ _ _ _ []); try done. unfold count; simpl; lia.
Qed.
End Refinement.
