(* ===== verification/Retry.v ===== *)
(** * Retries (src/libs/platform/retry.py)

    The sliding-window [RetryBudget], the [exponential_backoff] wrapper and the
    in-memory [IdempotencyKeyTracker].  Clock readings are arguments of the
    operations that take them; [random.SystemRandom().uniform] is a sampled
    function of the attempt. *)

From S2P Require Import Prelude SlidingLog.
#[local] Open Scope py_scope.

Inductive ValueError := value_error (message : string).

(** ** Retry budget *)

Module Budget.

Record RetryBudget := Budget {
  max_retry_tokens : Z;
  window_seconds : Q;
  _timestamps : list Q
}.

Definition new (max_tokens : Z) (window : Q) : result ValueError RetryBudget :=
  if max_tokens <=? 0 then Raise (value_error "max_retry_tokens must be > 0")
  else if Qle_bool window 0 then Raise (value_error "window_seconds must be > 0")
  else Ok (Budget max_tokens window []).

Definition _prune_expired (now : Q) (b : RetryBudget) : RetryBudget :=
  Budget (max_retry_tokens b) (window_seconds b)
    (drop_while (fun t => Qltb (window_seconds b) (now - t)) (_timestamps b)).

Definition consume_retry (now : Q) (b : RetryBudget) : bool * RetryBudget :=
  let b := _prune_expired now b in
  if max_retry_tokens b <=? Z.of_nat (length (_timestamps b)) then (false, b)
  else (true, Budget (max_retry_tokens b) (window_seconds b) (_timestamps b ++ [now])).

Definition tokens_used (now : Q) (b : RetryBudget) : Z * RetryBudget :=
  let b := _prune_expired now b in (Z.of_nat (length (_timestamps b)), b).

(** A budget is a sliding-window limiter: its prune drops what is older than the
    window, its request is [consume_retry]. *)
#[export] Instance budget_limiter : SlidingLimiter RetryBudget := {
  limit := max_retry_tokens;
  window := window_seconds;
  log := _timestamps;
  request := consume_retry
}.

End Budget.

(** ** Backoff *)

Module Backoff.
Import Budget.

Definition _apply_jitter (uniform : Q -> Q -> Q) (base lo hi : Q) : Q :=
  (base + uniform lo hi)%Q.

Section Backoff.
Context {Exc A : Type}.
(** [isinstance(e, Exception)]: cancellation is not an [Exception]. *)
Context (is_exception : Exc -> bool).
Context (max_retries : Z) (base_delay max_delay : Q) (jitter : bool)
        (retry_if : option (Exc -> bool)).
(** The wrapped call, the clock and the random source, by attempt; [others] is
    what other users of a shared budget did before the attempt asked it. *)
Context (func : nat -> result Exc A) (clock : nat -> Q)
        (uniform : nat -> Q -> Q -> Q) (others : nat -> RetryBudget -> RetryBudget).

Inductive retry_error :=
| Inner (e : Exc)
| RetryBudgetExceededError
| AssertionError.

Inductive event := Called (attempt : nat) | Slept (delay : Q).

(** [min(base_delay * (2**attempt), max_delay)] with its optional jitter. *)
Definition capped_delay (attempt : nat) : Q :=
  Qmin (base_delay * inject_Z (2 ^ Z.of_nat attempt)) max_delay.

Definition delay_for (attempt : nat) : Q :=
  let delay := capped_delay attempt in
  if jitter then
    let amount := (delay * (1 # 5))%Q in
    _apply_jitter (uniform attempt) delay (- amount) amount
  else delay.

Definition may_retry (attempt : nat) (e : Exc) : bool :=
  (Z.of_nat attempt <? max_retries) &&
  match retry_if with None => true | Some p => p e end.

(** The [for attempt in range(max_retries + 1)] loop: [fuel] iterations left. *)
Fixpoint loop (fuel attempt : nat) (last_exception : option Exc)
    (budget : option RetryBudget)
    : result retry_error A * list event * option RetryBudget :=
  match fuel with
  | O =>
      (match last_exception with
       | None => Raise AssertionError
       | Some e => Raise (Inner e)
       end, [], budget)
  | S fuel =>
      match func attempt with
      | Ok a => (Ok a, [Called attempt], budget)
      | Raise e =>
          if negb (is_exception e) then (Raise (Inner e), [Called attempt], budget)
          else if may_retry attempt e then
            let '(allowed, budget) :=
              match budget with
              | None => (true, None)
              | Some b =>
                  let '(ok, b) := consume_retry (clock attempt) (others attempt b) in
                  (ok, Some b)
              end in
            if allowed then
              let '(r, tr, budget) := loop fuel (S attempt) (Some e) budget in
              (r, Called attempt :: Slept (delay_for attempt) :: tr, budget)
            else (Raise RetryBudgetExceededError, [Called attempt], budget)
          else (Raise (Inner e), [Called attempt], budget)
      end
  end.

Definition wrapper (budget : option RetryBudget)
    : result retry_error A * list event * option RetryBudget :=
  loop (Z.to_nat (max_retries + 1)) 0 None budget.

Definition calls_of (tr : list event) : list nat :=
  omap (fun ev => match ev with Called n => Some n | Slept _ => None end) tr.

Definition sleeps_of (tr : list event) : list Q :=
  omap (fun ev => match ev with Called _ => None | Slept d => Some d end) tr.

End Backoff.
Arguments retry_error : clear implicits.
End Backoff.

(** ** Idempotency keys *)

Module Idempotency.

Record IdempotencyKeyTracker := Tracker {
  _seen : gmap string Q;
  ttl_seconds : Q
}.

Definition is_duplicate (now : Q) (key : string) (t : IdempotencyKeyTracker)
    : bool * IdempotencyKeyTracker :=
  match _seen t !! key with
  | None => (false, t)
  | Some seen =>
      if Qltb (ttl_seconds t) (now - seen)
      then (false, Tracker (delete key (_seen t)) (ttl_seconds t))
      else (true, t)
  end.

Definition mark_seen (now : Q) (key : string) (t : IdempotencyKeyTracker)
    : IdempotencyKeyTracker :=
  Tracker (<[key := now]> (_seen t)) (ttl_seconds t).

(** The keys listed first, then deleted one by one. *)
Definition cleanup_expired (now : Q) (t : IdempotencyKeyTracker)
    : IdempotencyKeyTracker :=
  let expired :=
    omap (fun '(k, v) => if Qltb (ttl_seconds t) (now - v) then Some k else None)
      (map_to_list (_seen t)) in
  Tracker (foldr (fun k m => delete k m) (_seen t) expired) (ttl_seconds t).

(** The documented use of a tracker, with clean-ups in between: a message is
    skipped when it is a duplicate, otherwise handled and marked. *)
Inductive event := Message (now : Q) (key : string) | Cleanup (now : Q).

Definition time_of (ev : event) : Q :=
  match ev with Message now _ | Cleanup now => now end.

Definition step (t : IdempotencyKeyTracker) (ev : event)
    : bool * IdempotencyKeyTracker :=
  match ev with
  | Message now key =>
      let '(dup, t) := is_duplicate now key t in
      if dup then (false, t) else (true, mark_seen now key t)
  | Cleanup now => (false, cleanup_expired now t)
  end.

(** The times at which [key] was handled. *)
Fixpoint handled (key : string) (evs : list event) (t : IdempotencyKeyTracker)
    : list Q :=
  match evs with
  | [] => []
  | ev :: evs =>
      let '(ran, t') := step t ev in
      match ev with
      | Message now k =>
          if ran && bool_decide (k = key) then now :: handled key evs t'
          else handled key evs t'
      | Cleanup _ => handled key evs t'
      end
  end.

End Idempotency.

(** ** Theorems: retry budget *)

Module BudgetTheorems.
Import Budget.

Lemma prune_live now b : _timestamps (_prune_expired now b) = live now b.
Proof.
  unfold live, _prune_expired; simpl. induction (_timestamps b) as [|t l IH]; simpl; [done |].
  replace (Qltb (window_seconds b) (now - t)) with (Qltb t (now - window_seconds b)).
  - by rewrite IH.
  - apply eq_true_iff_eq. rewrite !Qltb_lt. split; intros; lra.
Qed.

#[export] Instance budget_limiter_laws : SlidingLimiterLaws RetryBudget.
Proof.
  split; intros now b; simpl; unfold consume_retry; rewrite prune_live; simpl;
    rewrite ?Z.ltb_antisym; destruct (_ <=? _); simpl; try done; apply prune_live.
Qed.

(** For non-decreasing clock readings, a new [RetryBudget] grants exactly the
    retries that the specification over the whole history grants (a retry is
    granted when the closed window ending at it holds fewer than
    [max_retry_tokens] grants), and no window of [window_seconds], wherever it
    ends, holds more than [max_retry_tokens] of them. *)
Theorem retry_budget_window (n : Z) (w : Q) (b : RetryBudget) (times : list Q) :
  new n w = Ok b -> StronglySorted Qle times ->
  admissions times b = spec_admissions n w [] times /\
  forall x, Z.of_nat (count (in_window w x) (admissions times b)) <= n.
Proof.
  unfold new. intros Hn Hs. destruct (n <=? 0) eqn:En; [done |].
  destruct (Qle_bool w 0) eqn:Ew; [done |]. simplify_eq. bool_to_prop.
  assert (0 <= w)%Q by lra. split.
  { pose proof (admissions_refine times (Budget n w [])) as Hr. simpl in Hr. by apply Hr. }
  intros x. pose proof (admissions_window_bound times (Budget n w []) x) as Hb.
  simpl in Hb. specialize (Hb ltac:(done) Hs eq_refl). lia.
Qed.

Lemma retry_budget_window_witness :
  admissions [1; 2; 3; 13]%Q (Budget 2 10 []) = [1; 2; 13]%Q.
Proof.
  rewrite (proj1 (retry_budget_window 2 10 (Budget 2 10 []) [1; 2; 3; 13]%Q eq_refl
    ltac:(repeat constructor; vm_compute; discriminate))).
  reflexivity.
Defined.
End BudgetTheorems.

(** ** Theorems: backoff *)

Module BackoffTheorems.
Import Budget Backoff.

Section Theorems.
Context {Exc A : Type}.
Context (is_exception : Exc -> bool).
Context (max_retries : Z) (base_delay max_delay : Q) (jitter : bool)
        (retry_if : option (Exc -> bool)).
Context (func : nat -> result Exc A) (clock : nat -> Q)
        (uniform : nat -> Q -> Q -> Q) (others : nat -> RetryBudget -> RetryBudget).

#[local] Abbreviation loop' :=
  (loop is_exception max_retries base_delay max_delay jitter retry_if func clock uniform others).
#[local] Abbreviation wrapper' :=
  (wrapper is_exception max_retries base_delay max_delay jitter retry_if func clock uniform others).
#[local] Abbreviation delay_for' := (delay_for base_delay max_delay jitter uniform).
#[local] Abbreviation may_retry' := (may_retry max_retries retry_if).

(** What the last call of a run explains of its result. *)
Definition explains (budget : option RetryBudget) (k : nat)
    (r : result (retry_error Exc) A) : Prop :=
  match func k with
  | Ok a => r = Ok a
  | Raise e =>
      r = Raise (Inner e) /\ (is_exception e = false \/ may_retry' k e = false) \/
      r = Raise RetryBudgetExceededError /\ is_exception e = true /\
        may_retry' k e = true /\ is_Some budget
  end.

(** Attempt [i] failed in a way the policy retries. *)
Definition retryable (i : nat) : Prop :=
  exists e, func i = Raise e /\ is_exception e = true /\ may_retry' i e = true.

Lemma may_retry_lt n e : may_retry' n e = true -> Z.of_nat n < max_retries.
Proof. unfold may_retry. intros H. bool_to_prop. done. Qed.

Ltac retried_before Hfirst Hall :=
  let i := fresh "i" in let Hi := fresh "Hi" in
  intros i Hi; match type of Hfirst with retryable ?n =>
    destruct (decide (i = n)) as [->|]; [exact Hfirst | apply Hall; lia] end.

Lemma explains_budget b b' k r : explains (Some b') k r -> explains (Some b) k r.
Proof.
  unfold explains. destruct (func k); [done |].
  intros [H | (? & ? & ? & _)]; [by left | right]. by repeat split.
Qed.

Lemma loop_S fuel n le budget :
  loop' (S fuel) n le budget =
    match func n with
    | Ok a => (Ok a, [Called n], budget)
    | Raise e =>
        if negb (is_exception e) then (Raise (Inner e), [Called n], budget)
        else if may_retry' n e then
          let '(allowed, budget) :=
            match budget with
            | None => (true, None)
            | Some b =>
                let '(ok, b) := consume_retry (clock n) (others n b) in (ok, Some b)
            end in
          if allowed then
            let '(r, tr, budget) := loop' fuel (S n) (Some e) budget in
            (r, Called n :: Slept (delay_for' n) :: tr, budget)
          else (Raise RetryBudgetExceededError, [Called n], budget)
        else (Raise (Inner e), [Called n], budget)
    end.
Proof. done. Qed.

(** The run that stops at its first call. *)
Ltac stops_with Ef :=
  intros [= <- <- <-]; simpl; unfold explains; rewrite Nat.add_0_r, Ef;
  repeat split; try done; try lia.

Lemma loop_shape fuel n le budget r tr budget' :
  Z.of_nat n + Z.of_nat (S fuel) = max_retries + 1 ->
  loop' (S fuel) n le budget = (r, tr, budget') ->
  let k := length (sleeps_of tr) in
  calls_of tr = seq n (S k) /\ sleeps_of tr = map delay_for' (seq n k) /\
  (k <= fuel)%nat /\ explains budget (n + k) r /\
  (forall i, (n <= i < n + k)%nat -> retryable i).
Proof.
  revert n le budget r tr budget'.
  induction fuel as [|fuel IH]; intros n le budget r tr budget' Hn; rewrite loop_S.
  all: destruct (func n) as [a|e] eqn:Ef; [stops_with Ef |].
  all: destruct (is_exception e) eqn:Ee; simpl negb; cbn iota; [|stops_with Ef; auto].
  all: destruct (may_retry' n e) eqn:Em; [|stops_with Ef; auto].
  - apply may_retry_lt in Em. lia.
  - assert (retryable n) as Hn' by (by exists e).
    destruct budget as [b|].
    + destruct (consume_retry (clock n) (others n b)) as [[] b'].
      * destruct (loop' (S fuel) (S n) (Some e) (Some b')) as [[r0 tr0] b0] eqn:El.
        intros [= <- <- <-]. apply IH in El; [|lia].
        destruct El as (Hc & Hd & Hk & Hr & Hall). simpl. rewrite Hc, Hd.
        rewrite length_map, length_seq. rewrite <- Nat.add_succ_comm.
        repeat split; try done; [lia | by eapply explains_budget | retried_before Hn' Hall].
      * stops_with Ef. right. by repeat split.
    + destruct (loop' (S fuel) (S n) (Some e) None) as [[r0 tr0] b0] eqn:El.
      intros [= <- <- <-]. apply IH in El; [|lia].
      destruct El as (Hc & Hd & Hk & Hr & Hall). simpl. rewrite Hc, Hd.
      rewrite length_map, length_seq. rewrite <- Nat.add_succ_comm.
      repeat split; try done; [lia | retried_before Hn' Hall].
Qed.

(** For every wrapped call, clock, random source and shared budget,
    [exponential_backoff] terminates having called the function once per attempt
    0..k for some k of at most [max_retries], with exactly the scheduled delay
    slept between consecutive attempts, and its result is the last call's: its
    value, its own exception when that one may not be retried, or
    [RetryBudgetExceededError] when only the budget forbids the retry. *)
Theorem backoff_shape (budget : option RetryBudget) r tr budget' :
  0 <= max_retries -> wrapper' budget = (r, tr, budget') ->
  let k := length (sleeps_of tr) in
  Z.of_nat k <= max_retries /\
  calls_of tr = seq 0 (S k) /\ sleeps_of tr = map delay_for' (seq 0 k) /\
  explains budget k r.
Proof.
  intros Hm Hw. unfold wrapper in Hw.
  replace (Z.to_nat (max_retries + 1)) with (S (Z.to_nat max_retries)) in Hw by lia.
  apply loop_shape in Hw; [|lia]. destruct Hw as (? & ? & ? & ? & ?).
  repeat split; try done; lia.
Qed.

(** With no budget, retryable failures are retried until the first attempt
    that ends otherwise: if attempts 0..m-1 fail retryably and attempt m returns
    or raises what may not be retried (as attempt [max_retries] always does), the
    wrapper ends with attempt m's outcome after exactly m delays. *)
Theorem backoff_retries_until_settled (m : nat) r tr budget' :
  0 <= max_retries -> wrapper' None = (r, tr, budget') ->
  (forall i, (i < m)%nat -> retryable i) -> ~ retryable m ->
  length (sleeps_of tr) = m /\
  r = match func m with Ok a => Ok a | Raise e => Raise (Inner e) end.
Proof.
  intros Hm Hw Hlt Hstop. unfold wrapper in Hw.
  replace (Z.to_nat (max_retries + 1)) with (S (Z.to_nat max_retries)) in Hw by lia.
  apply loop_shape in Hw; [|lia]. destruct Hw as (_ & _ & _ & Hr & Hall).
  rewrite Nat.add_0_l in *. set (k := length (sleeps_of tr)) in *.
  assert (~ retryable k) as Hk.
  { intros (e & He & Hx & Hy). unfold explains in Hr. rewrite He in Hr.
    destruct Hr as [[_ [?|?]] | (_ & _ & _ & [? ?])]; congruence. }
  assert (k = m) as Hkm.
  { destruct (lt_eq_lt_dec k m) as [[H|H]|H]; [| done |].
    - by destruct (Hk (Hlt k H)).
    - destruct Hstop. apply Hall. lia. }
  split; [done |]. rewrite Hkm in *. unfold explains in Hr.
  destruct (func m); [done |].
  by destruct Hr as [[? _] | (_ & _ & _ & [? ?])].
Qed.

Hypothesis uniform_bounds : forall n lo hi, (lo <= hi)%Q -> (lo <= uniform n lo hi <= hi)%Q.

(** A scheduled delay is the capped exponential [min(base * 2^n, max_delay)]
    exactly when jitter is off, and within 20% of it when jitter is on; so it
    never exceeds 1.2 [max_delay], but a sample above the middle of the jitter
    range exceeds [max_delay] itself once the cap is reached. *)
Theorem backoff_delay_bounds (n : nat) :
  (0 <= base_delay)%Q -> (0 <= max_delay)%Q ->
  let d := capped_delay base_delay max_delay n in
  (0 <= d <= max_delay)%Q /\
  (jitter = false -> delay_for' n = d) /\
  (d * (4 # 5) <= delay_for' n <= d * (6 # 5))%Q /\
  (jitter = true -> (max_delay <= base_delay * inject_Z (2 ^ Z.of_nat n))%Q ->
     (0 < uniform n (- (d * (1 # 5))) (d * (1 # 5)))%Q -> (max_delay < delay_for' n)%Q).
Proof.
  intros Hb Hm d.
  assert (0 <= inject_Z (2 ^ Z.of_nat n))%Q as Hp.
  { change 0%Q with (inject_Z 0). rewrite <- Zle_Qle. lia. }
  assert (0 <= d <= max_delay)%Q as Hd.
  { unfold d, capped_delay. split; [|apply Q.le_min_r].
    apply Q.min_glb; [by apply Qmult_le_0_compat | done]. }
  split; [done |]. unfold delay_for, _apply_jitter. fold d.
  split; [intros ->; done |]. split.
  - destruct jitter; [|split; lra].
    destruct (uniform_bounds n (- (d * (1 # 5))) (d * (1 # 5))) as [? ?]; [lra |]. split; lra.
  - intros -> Hcap Hu. assert (d == max_delay)%Q as Hdm.
    { unfold d, capped_delay. by apply Q.min_r. }
    lra.
Qed.

End Theorems.
End BackoffTheorems.

(** ** Theorems: idempotency keys *)

Module IdempotencyTheorems.
Import Idempotency.

Section Key.
Context (key : string).

(** What the tracker remembers of the last time [key] was handled: the time
    itself, or nothing once every later clock reading is past its TTL. *)
Definition remembers (last : option Q) (now : Q) (t : IdempotencyKeyTracker) : Prop :=
  match last with
  | None => _seen t !! key = None
  | Some s => _seen t !! key = Some s \/
      _seen t !! key = None /\ (ttl_seconds t < now - s)%Q
  end.

Lemma cleanup_lookup now t k :
  _seen (cleanup_expired now t) !! k =
    match _seen t !! k with
    | Some s => if Qltb (ttl_seconds t) (now - s) then None else Some s
    | None => None
    end.
Proof.
  unfold cleanup_expired; simpl.
  set (exp := omap _ _).
  assert (forall m, foldr (fun k m => delete k m) m exp !! k =
    if decide (k ∈ exp) then None else m !! k) as ->.
  { intros m. clearbody exp. induction exp as [|k' l IH]; cbn [foldr].
    - rewrite decide_False; [done | by intros ?%elem_of_nil].
    - destruct (decide (k = k')) as [->|Hne].
      + rewrite lookup_delete_eq. by rewrite decide_True by (by left).
      + rewrite lookup_delete_ne, IH by done.
        destruct (decide (k ∈ l)), (decide (k ∈ k' :: l)); done || set_solver. }
  assert (k ∈ exp <-> exists s, _seen t !! k = Some s /\ (ttl_seconds t < now - s)%Q) as Hin.
  { unfold exp. rewrite list_elem_of_omap. split.
    - intros ([k' s] & Hks & Heq). apply elem_of_map_to_list in Hks.
      destruct (Qltb _ _) eqn:E; simplify_eq. bool_to_prop. by exists s.
    - intros (s & Hs & Hlt). exists (k, s). rewrite elem_of_map_to_list. split; [done |].
      apply Qltb_lt in Hlt. by rewrite Hlt. }
  destruct (decide (k ∈ exp)) as [H|H].
  - apply Hin in H as (s & -> & Hlt). apply Qltb_lt in Hlt. by rewrite Hlt.
  - destruct (_seen t !! k) as [s|] eqn:E; [|done].
    destruct (Qltb _ _) eqn:El; [|done]. bool_to_prop. destruct H. apply Hin. by exists s.
Qed.

Lemma ttl_step t ev : ttl_seconds (snd (step t ev)) = ttl_seconds t.
Proof.
  destruct ev as [now k|now]; simpl; [|done]. unfold is_duplicate.
  destruct (_seen t !! k) as [s|]; simpl; [|done]. by destruct (Qltb _ _).
Qed.

Lemma remembers_later last now now' t :
  (now <= now')%Q -> remembers last now t -> remembers last now' t.
Proof. destruct last as [s|]; simpl; [|done]. intros Hle [H|[H Hs]]; [by left | right]. split; [done | lra]. Qed.

(** A message for [key] at [now]: it runs exactly when the last run is past its
    TTL, and is then the one remembered. *)
Lemma step_key now last t :
  remembers last now t ->
  let '(ran, t') := step t (Message now key) in
  ran = match last with None => true | Some s => Qltb (ttl_seconds t) (now - s) end /\
  remembers (if ran then Some now else last) now t'.
Proof.
  intros Hr. simpl. unfold is_duplicate.
  destruct (_seen t !! key) as [s'|] eqn:Es; destruct last as [s|]; simpl in Hr;
    rewrite Es in Hr; try done.
  - destruct Hr as [Hr | [? _]]; simplify_eq.
    destruct (Qltb (ttl_seconds t) (now - s)) eqn:E; simpl.
    + split; [done |]. left. by rewrite lookup_insert_eq.
    + split; [done | by left].
  - destruct Hr as [Hr | [_ Hlt]]; [done |]. simpl. apply Qltb_lt in Hlt.
    split; [done |]. left. by rewrite lookup_insert_eq.
  - simpl. split; [done |]. left. by rewrite lookup_insert_eq.
Qed.

Lemma step_other now k last t :
  k <> key -> remembers last now t -> remembers last now (snd (step t (Message now k))).
Proof.
  intros Hne. simpl. unfold is_duplicate. destruct last as [s|]; simpl;
    destruct (_seen t !! k) as [s'|] eqn:E; simpl; try (destruct (Qltb _ _); simpl);
    rewrite ?lookup_insert_ne, ?lookup_delete_ne by done; done.
Qed.

Lemma step_cleanup now last t :
  remembers last now t -> remembers last now (snd (step t (Cleanup now))).
Proof.
  destruct last as [s|]; unfold remembers; cbn [step snd]; rewrite cleanup_lookup.
  - intros [-> | [-> Hlt]]; [|by right].
    destruct (Qltb _ _) eqn:E; [right | by left]. bool_to_prop. by split.
  - by intros ->.
Qed.

(** A later run is more than the TTL after the remembered one. *)
Definition spaced (ttl : Q) (last : option Q) (times : list Q) : Prop :=
  match last with
  | None => StronglySorted (fun a b => (ttl < b - a)%Q) times
  | Some s => StronglySorted (fun a b => (ttl < b - a)%Q) (s :: times)
  end.

Lemma spaced_cons ttl last now times :
  (0 <= ttl)%Q ->
  match last with None => True | Some s => (ttl < now - s)%Q end ->
  spaced ttl (Some now) times -> spaced ttl last (now :: times).
Proof.
  intros Ht Hl Hs. destruct last as [s|]; simpl in *; [|done].
  constructor; [done |]. constructor; [done |].
  inversion Hs as [|? ? _ Hall]; subst. apply (List.Forall_impl _) with (2 := Hall).
  simpl. intros a Ha. lra.
Qed.

Lemma handled_spaced evs now last t :
  (0 <= ttl_seconds t)%Q -> StronglySorted Qle (map time_of evs) ->
  Forall (Qle now) (map time_of evs) -> remembers last now t ->
  spaced (ttl_seconds t) last (handled key evs t).
Proof.
  revert now last t. induction evs as [|ev evs IH]; intros now last t Hw Hs Hn Hr.
  { destruct last; simpl; repeat constructor. }
  inversion Hs as [|? ? Hs' Hall]; subst. inversion Hn as [|? ? Hnow _]; subst.
  cbn [handled]. pose proof (ttl_step t ev) as Httl.
  apply (remembers_later _ _ _ t Hnow) in Hr.
  destruct ev as [now' k|now']; cbn [time_of] in *.
  - destruct (decide (k = key)) as [->|Hne].
    + pose proof (step_key now' last t Hr) as Hstep.
      destruct (step t (Message now' key)) as [ran t']; simpl in Httl.
      destruct Hstep as [Hran Hr']. rewrite bool_decide_eq_true_2, andb_true_r by done.
      rewrite <- Httl in *. destruct ran.
      * apply spaced_cons; [done | | by eapply IH].
        destruct last; [|done]. symmetry in Hran. by bool_to_prop.
      * by eapply IH.
    + pose proof (step_other now' k last t Hne Hr) as Hr'.
      destruct (step t (Message now' k)) as [ran t']; simpl in *.
      rewrite bool_decide_eq_false_2, andb_false_r by done.
      rewrite <- Httl in *. by eapply IH.
  - pose proof (step_cleanup now' last t Hr) as Hr'. by apply (IH now' last (cleanup_expired now' t)).
Qed.

(** With a fresh [IdempotencyKeyTracker], a non-decreasing clock and any
    interleaving of messages under any keys with clean-ups, two handlings of one
    key are always more than [ttl_seconds] apart: within the TTL a message id is
    handled at most once, and [cleanup_expired] never lets a duplicate through. *)
Theorem idempotency_once_per_ttl (ttl : Q) (evs : list event) :
  (0 <= ttl)%Q -> StronglySorted Qle (map time_of evs) ->
  StronglySorted (fun a b => (ttl < b - a)%Q) (handled key evs (Tracker ∅ ttl)).
Proof.
  intros Ht Hs. destruct evs as [|ev evs]; [constructor |].
  apply (handled_spaced (ev :: evs) (time_of ev) None (Tracker ∅ ttl)); try done.
  - inversion Hs; subst. by constructor; [apply Qle_refl |].
Qed.

End Key.
End IdempotencyTheorems.

(** ** Witnesses *)

Module RetryWitnesses.
Import Budget Backoff Idempotency IdempotencyTheorems.

(** A call that fails twice, then succeeds; the largest jitter sample. *)
Definition flaky (n : nat) : result unit Z :=
  if (n <? 2)%nat then Raise tt else Ok 7.

Definition run_flaky :=
  wrapper (fun _ => true) 3 1 60 true None flaky (fun _ => 0%Q)
    (fun _ _ hi => hi) (fun _ b => b).

Lemma backoff_shape_witness :
  calls_of (snd (fst (run_flaky None))) = [0; 1; 2]%nat.
Proof.
  refine (proj1 (proj2 (BackoffTheorems.backoff_shape (fun _ => true) 3 1 60 true None
    flaky (fun _ => 0%Q) (fun _ _ hi => hi) (fun _ b => b) None _ _ _ _ eq_refl))).
  lia.
Defined.

Lemma backoff_retries_until_settled_witness : fst (fst (run_flaky None)) = Ok 7.
Proof.
  refine (proj2 (BackoffTheorems.backoff_retries_until_settled (fun _ => true) 3 1 60 true
    None flaky (fun _ => 0%Q) (fun _ _ hi => hi) (fun _ b => b) 2 _ _ _ _ eq_refl _ _)).
  - lia.
  - intros i Hi. exists tt. unfold flaky. apply Nat.ltb_lt in Hi. rewrite Hi.
    repeat split. unfold may_retry. apply Nat.ltb_lt in Hi.
    rewrite andb_true_r. apply Z.ltb_lt. lia.
  - by intros (e & He & _).
Defined.

Lemma backoff_delay_bounds_witness :
  (60 < delay_for 1 60 true (fun _ _ hi => hi) 6)%Q.
Proof.
  apply (BackoffTheorems.backoff_delay_bounds 1 60 true (fun _ _ hi => hi)
    (fun _ lo hi H => conj H (Qle_refl hi)) 6); try done.
Defined.

Lemma idempotency_once_per_ttl_witness :
  StronglySorted (fun a b => (10 < b - a)%Q)
    (handled "m" [Message 0 "m"; Message 5 "m"; Cleanup 11; Message 12 "m"] (Tracker ∅ 10)).
Proof.
  apply idempotency_once_per_ttl; [done |].
  repeat constructor; vm_compute; discriminate.
Defined.
End RetryWitnesses.
