(* ===== verification/Bulkhead.v ===== *)
(** * Bulkhead (src/libs/platform/bulkhead.py)

    [AsyncBulkhead.run] as a transition system.  Each critical section under the
    condition's lock is one step; a task is waiting in [condition.wait], woken
    but not yet back in its [while] loop, or running its operation.  The
    condition is the standard library's (Python 3.14): [notify(1)] wakes the
    oldest waiter, and a waiter that is cancelled passes a wake-up on. *)

From S2P Require Import Prelude.

Module AsyncBulkhead.

Record config := Config {
  name : string;
  max_concurrency : Z;
  max_queue : Z
}.

Inductive ValueError := value_error (message : string).

Definition new (nm : string) (concurrency queue : Z) : result ValueError config :=
  if concurrency <=? 0 then Raise (value_error "max_concurrency must be > 0")
  else if queue <? 0 then Raise (value_error "max_queue must be >= 0")
  else Ok (Config nm concurrency queue).

Inductive phase := Waiting | Notified | Running.

#[export] Instance phase_eq_dec : EqDecision phase.
Proof. solve_decision. Defined.

(** The two counters of the code, the tasks inside [run] in the order the
    condition queues them, and what [on_state_change] has been shown. *)
Record bulkhead := Bulkhead {
  _inflight : Z;
  _waiting : Z;
  tasks : list (nat * phase);
  observed : list (Z * Z)
}.

Definition init : bulkhead := Bulkhead 0 0 [] [].

Definition inflight (b : bulkhead) : Z := _inflight b.
Definition waiting (b : bulkhead) : Z := _waiting b.

Definition _notify_state_change (b : bulkhead) : bulkhead :=
  Bulkhead (_inflight b) (_waiting b) (tasks b)
    (observed b ++ [(_inflight b, _waiting b)]).

Definition add_inflight (d : Z) (b : bulkhead) : bulkhead :=
  _notify_state_change (Bulkhead (_inflight b + d) (_waiting b) (tasks b) (observed b)).

Definition add_waiting (d : Z) (b : bulkhead) : bulkhead :=
  _notify_state_change (Bulkhead (_inflight b) (_waiting b + d) (tasks b) (observed b)).

Definition set_tasks (f : list (nat * phase) -> list (nat * phase)) (b : bulkhead) : bulkhead :=
  Bulkhead (_inflight b) (_waiting b) (f (tasks b)) (observed b).

Fixpoint phase_of (t : nat) (ts : list (nat * phase)) : option phase :=
  match ts with
  | [] => None
  | (t', p) :: ts => if decide (t = t') then Some p else phase_of t ts
  end.

Fixpoint remove_task (t : nat) (ts : list (nat * phase)) : list (nat * phase) :=
  match ts with
  | [] => []
  | (t', p) :: ts => if decide (t = t') then ts else (t', p) :: remove_task t ts
  end.

(** [condition.notify(1)]. *)
Fixpoint notify1 (ts : list (nat * phase)) : list (nat * phase) :=
  match ts with
  | [] => []
  | (t, Waiting) :: ts => (t, Notified) :: ts
  | tp :: ts => tp :: notify1 ts
  end.

Section Steps.
Context (cfg : config).

(** The head of [run]: [None] is [BulkheadRejectedError]. *)
Definition run_enter (t : nat) (b : bulkhead) : option bulkhead :=
  if max_concurrency cfg <=? _inflight b then
    if max_queue cfg <=? _waiting b then None
    else Some (set_tasks (fun ts => ts ++ [(t, Waiting)]) (add_waiting 1 b))
  else Some (set_tasks (fun ts => ts ++ [(t, Running)]) (add_inflight 1 b)).

(** A woken waiter re-tests the [while] condition; past it, the [finally] and
    the admission. *)
Definition run_resume (t : nat) (b : bulkhead) : bulkhead :=
  let b := set_tasks (remove_task t) b in
  if max_concurrency cfg <=? _inflight b
  then set_tasks (fun ts => ts ++ [(t, Waiting)]) b
  else set_tasks (fun ts => ts ++ [(t, Running)]) (add_inflight 1 (add_waiting (-1) b)).

(** A waiter is cancelled: the condition wakes another one, the [finally] of
    [run] lowers the waiting count, and the cancellation propagates. *)
Definition run_cancel (t : nat) (b : bulkhead) : bulkhead :=
  add_waiting (-1) (set_tasks (fun ts => notify1 (remove_task t ts)) b).

(** The operation returned or raised: the outer [finally]. *)
Definition run_finish (t : nat) (b : bulkhead) : bulkhead :=
  set_tasks (fun ts => notify1 (remove_task t ts)) (add_inflight (-1) b).

Inductive step : bulkhead -> bulkhead -> Prop :=
| step_enter t b b' :
    phase_of t (tasks b) = None -> run_enter t b = Some b' -> step b b'
| step_rejected t b :
    phase_of t (tasks b) = None -> run_enter t b = None -> step b b
| step_resume t b :
    phase_of t (tasks b) = Some Notified -> step b (run_resume t b)
| step_cancel t b p :
    phase_of t (tasks b) = Some p -> p <> Running -> step b (run_cancel t b)
| step_finish t b :
    phase_of t (tasks b) = Some Running -> step b (run_finish t b).

Definition reachable : bulkhead -> Prop := rtc step init.

Definition in_phase (p : phase) (tp : nat * phase) : bool := bool_decide (tp.2 = p).

(** Number of tasks in a phase. *)
Definition tally (p : phase) (ts : list (nat * phase)) : Z :=
  Z.of_nat (count (in_phase p) ts).

Definition number (p : phase) (b : bulkhead) : Z := tally p (tasks b).

Definition bounded (counts : Z * Z) : Prop :=
  0 <= counts.1 <= max_concurrency cfg /\ 0 <= counts.2 <= max_queue cfg.

Record wf (b : bulkhead) : Prop := {
  wf_inflight : _inflight b = number Running b;
  wf_waiting : _waiting b = number Waiting b + number Notified b;
  wf_bounds : bounded (_inflight b, _waiting b);
  wf_observed : Forall bounded (observed b);
  wf_ids : NoDup (map fst (tasks b));
  wf_wakeups : 0 < number Waiting b -> max_concurrency cfg <= _inflight b + number Notified b
}.
End Steps.
End AsyncBulkhead.

(** ** Theorems *)

Module BulkheadTheorems.
Import AsyncBulkhead.

Definition weigh (p q : phase) : Z := if decide (p = q) then 1 else 0.

Lemma tally_nonneg p ts : 0 <= tally p ts.
Proof. unfold tally. lia. Qed.

Lemma tally_cons p t q ts : tally p ((t, q) :: ts) = weigh q p + tally p ts.
Proof.
  unfold tally, count, weigh; simpl. unfold in_phase at 1; simpl. case_bool_decide as E.
  - rewrite decide_True by done. simpl. lia.
  - by rewrite decide_False by done.
Qed.

Lemma tally_app p ts t q : tally p (ts ++ [(t, q)]) = tally p ts + weigh q p.
Proof.
  induction ts as [|[t' q'] ts IH]; simpl; rewrite !tally_cons; [|rewrite IH; lia].
  unfold tally, count; simpl; lia.
Qed.

Lemma tally_remove t ts q p :
  phase_of t ts = Some q -> tally p (remove_task t ts) = tally p ts - weigh q p.
Proof.
  induction ts as [|[t' q'] ts IH]; simpl; [done |]. case_decide as E.
  - intros [= ->]. rewrite tally_cons. lia.
  - intros Hq. rewrite !tally_cons, IH by done. lia.
Qed.

(** What a wake-up does to the number of tasks in each phase. *)
Lemma tally_notify ts :
  tally Running (notify1 ts) = tally Running ts /\
  tally Waiting (notify1 ts) = tally Waiting ts - Z.min 1 (tally Waiting ts) /\
  tally Notified (notify1 ts) = tally Notified ts + Z.min 1 (tally Waiting ts).
Proof.
  induction ts as [|[t []] ts IH]; [done | | |]; cbn [notify1];
    rewrite !tally_cons; unfold weigh; simpl;
    pose proof (tally_nonneg Waiting ts); lia.
Qed.

Lemma phase_of_None t ts : phase_of t ts = None <-> t ∉ map fst ts.
Proof.
  induction ts as [|[t' p] ts IH]; simpl; [split; [by intros _ ?%elem_of_nil | done] |].
  rewrite not_elem_of_cons, <- IH. case_decide; naive_solver.
Qed.

Lemma phase_of_tally p ts :
  NoDup (map fst ts) -> 0 < tally p ts -> exists t, phase_of t ts = Some p.
Proof.
  induction ts as [|[t q] ts IH]; simpl; [by unfold tally, count |].
  rewrite NoDup_cons. intros [Hn Hd] Ht. rewrite tally_cons in Ht. unfold weigh in Ht.
  destruct (decide (q = p)) as [->|Hne].
  - exists t. by rewrite decide_True.
  - destruct (IH Hd Ht) as [t' Ht']. exists t'. rewrite decide_False; [done |].
    intros ->. apply phase_of_None in Hn. congruence.
Qed.

Lemma remove_task_ids t ts :
  NoDup (map fst ts) -> NoDup (map fst (remove_task t ts)) /\ t ∉ map fst (remove_task t ts).
Proof.
  induction ts as [|[t' p] ts IH]; simpl.
  - intros _. split; [constructor | by intros ?%elem_of_nil].
  - rewrite NoDup_cons. intros [Hn Hd]. case_decide as E; [by subst |]. simpl.
    destruct (IH Hd) as [IH1 IH2]. rewrite NoDup_cons, not_elem_of_cons.
    split; [split; [|done] | done].
    assert (map fst (remove_task t ts) ⊆ map fst ts) as Hsub; [|set_solver].
    clear. induction ts as [|[t' p] ts IH]; simpl; [done |]. case_decide; set_solver.
Qed.

Lemma notify1_ids ts : map fst (notify1 ts) = map fst ts.
Proof. induction ts as [|[t []] ts IH]; simpl; congruence. Qed.

Lemma snoc_ids (t : nat) (p : phase) (ts : list (nat * phase)) :
  NoDup (map fst ts) -> t ∉ map fst ts -> NoDup (map fst (ts ++ [(t, p)])).
Proof.
  intros Hd Hn. rewrite map_app. simpl. rewrite NoDup_app. split; [done |].
  split; [set_solver | apply NoDup_singleton].
Qed.

Section Theorems.
Context (cfg : config).

Lemma init_bulkhead_wf : 1 <= max_concurrency cfg -> 0 <= max_queue cfg -> wf cfg init.
Proof.
  intros Hc Hq. split; unfold number, tally, count, bounded; simpl; try lia; constructor.
Qed.

(** The shape of every transition: from facts on the counters to [wf]. *)
Lemma wf_intro i w ts o :
  i = tally Running ts -> w = tally Waiting ts + tally Notified ts ->
  i <= max_concurrency cfg -> w <= max_queue cfg -> Forall (bounded cfg) o ->
  NoDup (map fst ts) ->
  (0 < tally Waiting ts -> max_concurrency cfg <= i + tally Notified ts) ->
  wf cfg (Bulkhead i w ts o).
Proof.
  intros -> -> Hi Hw Ho Hd Hwake. pose proof (tally_nonneg Running ts).
  pose proof (tally_nonneg Waiting ts). pose proof (tally_nonneg Notified ts).
  split; unfold number, bounded; simpl; try done; lia.
Qed.

Ltac ids_distinct :=
  rewrite ?notify1_ids;
  try apply snoc_ids; try (by apply remove_task_ids); try (by apply phase_of_None); done.

Ltac observed_bounded :=
  match goal with
  | |- NoDup _ => ids_distinct
  | |- _ => repeat (apply Forall_app; split); try done; repeat constructor; simpl; lia
  end.

Lemma bulkhead_step_wf b b' : wf cfg b -> step cfg b b' -> wf cfg b'.
Proof.
  intros [Hr Hw [[Hi0 Hi] [Hw0 Hq]] Ho Hd Hwake] Hstep; simpl in *.
  destruct b as [i w ts o]; unfold number in *; simpl in *.
  inversion Hstep as [t ? ? Hp He | t ? Hp He | t ? Hp | t ? p Hp Hne | t ? Hp]; subst; simpl in Hp;
    pose proof (tally_nonneg Running ts); pose proof (tally_nonneg Waiting ts);
    pose proof (tally_nonneg Notified ts).
  - unfold run_enter in He; simpl in He.
    destruct (max_concurrency cfg <=? _) eqn:Ec; [destruct (max_queue cfg <=? _) eqn:Eq |];
      simplify_eq; bool_to_prop; apply wf_intro; rewrite ?tally_app; unfold weigh; simpl;
      try lia; observed_bounded.
  - split; try done; by unfold bounded.
  - unfold run_resume, add_waiting, add_inflight, _notify_state_change, set_tasks; simpl.
    destruct (max_concurrency cfg <=? _) eqn:Ec; bool_to_prop;
      pose proof (tally_remove t ts Notified Running Hp);
      pose proof (tally_remove t ts Notified Waiting Hp);
      pose proof (tally_remove t ts Notified Notified Hp);
      unfold weigh in *; simpl in *; pose proof (tally_nonneg Notified (remove_task t ts));
      apply wf_intro; rewrite ?tally_app; unfold weigh; simpl; try lia; observed_bounded.
  - unfold run_cancel, add_waiting, add_inflight, _notify_state_change, set_tasks; simpl.
    pose proof (tally_notify (remove_task t ts)) as (Hn1 & Hn2 & Hn3).
    rewrite !(tally_remove t ts p) in * by done.
    assert (tally p ts >= 1).
    { pose proof (tally_remove t ts p p Hp) as Ht. unfold weigh in Ht.
      rewrite decide_True in Ht by done. pose proof (tally_nonneg p (remove_task t ts)). lia. }
    destruct p; [| | done]; unfold weigh in *; simpl in *; apply wf_intro; try lia;
      observed_bounded.
  - unfold run_finish, add_waiting, add_inflight, _notify_state_change, set_tasks; simpl.
    pose proof (tally_notify (remove_task t ts)) as (Hn1 & Hn2 & Hn3).
    rewrite !(tally_remove t ts Running) in * by done.
    pose proof (tally_nonneg Running (remove_task t ts)).
    rewrite (tally_remove t ts Running) in * by done.
    unfold weigh in *; simpl in *; apply wf_intro; try lia; observed_bounded.
Qed.

Lemma bulkhead_reachable_wf b :
  1 <= max_concurrency cfg -> 0 <= max_queue cfg -> reachable cfg b -> wf cfg b.
Proof.
  intros Hc Hq. unfold reachable. generalize (init_bulkhead_wf Hc Hq). generalize init.
  intros b0 H0 Hr. induction Hr as [|b0 b1 b2 Hs _ IH]; [done |].
  by eapply IH, bulkhead_step_wf.
Qed.
End Theorems.

(** C40: for every configuration the constructor accepts and every interleaving
    of entering, woken, cancelled and finishing tasks, [_inflight] is the number
    of running operations and never exceeds [max_concurrency], [_waiting] is the
    number of queued tasks and never exceeds [max_queue], and every pair shown
    to [on_state_change] is within those bounds. *)
Theorem bulkhead_bounds nm c q cfg b :
  new nm c q = Ok cfg -> reachable cfg b -> wf cfg b.
Proof.
  unfold new. intros Hn. destruct (c <=? 0) eqn:Ec; [done |].
  destruct (q <? 0) eqn:Eq; [done |]. simplify_eq. bool_to_prop.
  apply bulkhead_reachable_wf; simpl; lia.
Qed.

(** No wake-up is lost: in every reachable state with a queued task, either
    a task has been woken and can resume, or an operation is running whose end
    will wake one, even when waiters are cancelled. *)
Theorem bulkhead_no_lost_wakeup nm c q cfg b :
  new nm c q = Ok cfg -> reachable cfg b -> 0 < waiting b ->
  (exists t, phase_of t (tasks b) = Some Notified) \/
  (number Running b = max_concurrency cfg /\
   exists t, phase_of t (tasks b) = Some Running).
Proof.
  unfold new. intros Hn Hr Hpos. destruct (c <=? 0) eqn:Ec; [done |].
  destruct (q <? 0) eqn:Eq; [done |]. simplify_eq. bool_to_prop.
  apply bulkhead_reachable_wf in Hr as [Hi Hw [[_ Hmax] _] _ Hd Hwake]; simpl in *; try lia.
  unfold waiting, number in *. pose proof (tally_nonneg Notified (tasks b)).
  destruct (decide (0 < tally Notified (tasks b))) as [H0|H0].
  - left. by apply phase_of_tally.
  - right. split; [lia |]. apply phase_of_tally; [done | lia].
Qed.

(** A call is rejected exactly when [max_concurrency] operations are in
    flight and [max_queue] callers already wait; otherwise the caller runs at
    once when a slot is free and is queued when none is. *)
Theorem bulkhead_rejects_iff cfg t b :
  (run_enter cfg t b = None <->
   max_concurrency cfg <= inflight b /\ max_queue cfg <= waiting b) /\
  (inflight b < max_concurrency cfg ->
   exists b', run_enter cfg t b = Some b' /\ tasks b' = tasks b ++ [(t, Running)] /\
     inflight b' = inflight b + 1 /\ waiting b' = waiting b) /\
  (max_concurrency cfg <= inflight b -> waiting b < max_queue cfg ->
   exists b', run_enter cfg t b = Some b' /\ tasks b' = tasks b ++ [(t, Waiting)] /\
     inflight b' = inflight b /\ waiting b' = waiting b + 1).
Proof.
  unfold run_enter, inflight, waiting.
  destruct (max_concurrency cfg <=? _) eqn:Ec; [destruct (max_queue cfg <=? _) eqn:Eq |];
    bool_to_prop; (split; [split; [try done | try (intros; lia)]|]); split; intros; try lia;
    by eexists.
Qed.

(** ** Witnesses *)

Definition one_slot : config := Config "probe" 1 1.

(** One operation running, one task queued behind it. *)
Definition one_queued : bulkhead :=
  Bulkhead 1 1 [(0%nat, Running); (1%nat, Waiting)] [(1, 0); (1, 1)].

Lemma one_queued_reachable : reachable one_slot one_queued.
Proof.
  eapply rtc_l; [eapply (step_enter one_slot 0); reflexivity |].
  eapply rtc_l; [eapply (step_enter one_slot 1); reflexivity |]. apply rtc_refl.
Qed.

Lemma bulkhead_bounds_witness : wf one_slot one_queued.
Proof. exact (bulkhead_bounds "probe" 1 1 one_slot one_queued eq_refl one_queued_reachable). Defined.

Lemma bulkhead_no_lost_wakeup_witness :
  (exists t, phase_of t (tasks one_queued) = Some Notified) \/
  (number Running one_queued = 1 /\ exists t, phase_of t (tasks one_queued) = Some Running).
Proof.
  exact (bulkhead_no_lost_wakeup "probe" 1 1 one_slot one_queued eq_refl
    one_queued_reachable eq_refl).
Defined.

Lemma bulkhead_rejects_iff_witness : run_enter one_slot 2 one_queued = None.
Proof. apply (bulkhead_rejects_iff one_slot 2 one_queued). by vm_compute. Defined.
End BulkheadTheorems.
