(* ===== verification/RateLimiting.v ===== *)
(** * Rate limiting (src/services/ingestor/rate_limiting_advanced.py and
      rate_limiting_token_bucket.py)

    The two in-memory limiters, the token-bucket Lua script that Redis runs
    atomically, and the v1 enforcement that picks between them.  Every clock
    reading ([time.monotonic], Redis [TIME]) is an argument. *)

From S2P Require Import Prelude SlidingLog.
#[local] Open Scope py_scope.

Inductive ZeroDivisionError := zero_division.

(** [max(0.0, base_value + offset)], the offset drawn from the jitter range. *)
Definition apply_jitter (uniform : Q -> Q -> Q) (base lo hi : Q) : Q :=
  Qmax 0 (base + uniform lo hi).

(** ** Token bucket *)

Module TokenBucket.

Record TokenBucketLimiter := Limiter {
  capacity : Z;
  refill_per_second : Q;
  _buckets : gmap string (Q * Q)
}.

Definition new (capacity : Z) (refill : Q) : TokenBucketLimiter :=
  Limiter capacity refill ∅.

(** [min(float(capacity), current + elapsed * refill_per_second)]. *)
Definition refilled (capacity : Z) (refill current elapsed : Q) : Q :=
  Qmin (inject_Z capacity) (current + elapsed * refill).

(** [consume]: [t_default] is the reading of the [defaultdict] factory, used when
    the key is new; [now] the reading that follows. *)
Definition consume (key : string) (tokens : Z) (t_default now : Q)
    (l : TokenBucketLimiter) : (bool * Q) * TokenBucketLimiter :=
  let '(current, last_refill) :=
    default (inject_Z (capacity l), t_default) (_buckets l !! key) in
  let elapsed := (now - last_refill)%Q in
  let current := refilled (capacity l) (refill_per_second l) current elapsed in
  if Qle_bool (inject_Z tokens) current then
    let current := (current - inject_Z tokens)%Q in
    ((true, current),
     Limiter (capacity l) (refill_per_second l) (<[key := (current, now)]> (_buckets l)))
  else
    ((false, current),
     Limiter (capacity l) (refill_per_second l) (<[key := (current, now)]> (_buckets l))).

Definition seconds_until_token (uniform : Q -> Q -> Q) (key : string) (lo hi : Q)
    (t_default now : Q) (l : TokenBucketLimiter) : result ZeroDivisionError Q :=
  let '(current, last_refill) :=
    default (inject_Z (capacity l), t_default) (_buckets l !! key) in
  let elapsed := (now - last_refill)%Q in
  let current := refilled (capacity l) (refill_per_second l) current elapsed in
  let deficit := (1 - current)%Q in
  if Qle_bool deficit 0 then Ok 0%Q
  else if Qeq_bool (refill_per_second l) 0 then Raise zero_division
  else Ok (apply_jitter uniform (deficit / refill_per_second l) lo hi).

(** One request: its key, the factory's reading and the request's. *)
Definition request : Type := string * Q * Q.

(** How many requests for [key] a run of one-token requests admits. *)
Fixpoint admitted (key : string) (reqs : list request) (l : TokenBucketLimiter) : Z :=
  match reqs with
  | [] => 0
  | (k, t_default, now) :: reqs =>
      let '((ok, _), l') := consume k 1 t_default now l in
      (if ok && bool_decide (k = key) then 1 else 0) + admitted key reqs l'
  end.

(** The limiter after a run of one-token requests. *)
Definition run (reqs : list request) (l : TokenBucketLimiter) : TokenBucketLimiter :=
  foldl (fun l '(k, t_default, now) => snd (consume k 1 t_default now l)) l reqs.

Definition time_of (r : request) : Q := r.2.

(** The clock does not go back: over the run, nor inside one request. *)
Definition monotonic (reqs : list request) : Prop :=
  StronglySorted Qle (map time_of reqs) /\
  Forall (fun r : request => (r.1.2 <= r.2)%Q) reqs.

End TokenBucket.

(** ** Sliding window *)

Module SlidingWindow.

Record SlidingWindowLimiter := Limiter {
  limit : Z;
  window_seconds : Z;
  _windows : gmap string (list Q)
}.

Definition is_allowed (key : string) (now : Q) (l : SlidingWindowLimiter)
    : (bool * Z) * SlidingWindowLimiter :=
  let window := default [] (_windows l !! key) in
  let cutoff := (now - inject_Z (window_seconds l))%Q in
  let window := drop_while (fun t => Qltb t cutoff) window in
  let current_count := Z.of_nat (length window) in
  if current_count <? limit l then
    ((true, limit l - current_count - 1),
     Limiter (limit l) (window_seconds l) (<[key := window ++ [now]]> (_windows l)))
  else
    ((false, 0),
     Limiter (limit l) (window_seconds l) (<[key := window]> (_windows l))).

Definition reset_in (uniform : Q -> Q -> Q) (key : string) (lo hi now : Q)
    (l : SlidingWindowLimiter) : Q :=
  match default [] (_windows l !! key) with
  | [] => 0
  | oldest :: _ =>
      let reset_at := (oldest + inject_Z (window_seconds l))%Q in
      apply_jitter uniform (Qmax 0 (reset_at - now)) lo hi
  end.

(** The requests of one key see a sliding-window log. *)
Definition key_limiter (key : string) : SlidingLimiter SlidingWindowLimiter := {|
  SlidingLog.limit := limit;
  SlidingLog.window l := inject_Z (window_seconds l);
  SlidingLog.log l := default [] (_windows l !! key);
  SlidingLog.request now l := let '((ok, _), l') := is_allowed key now l in (ok, l')
|}.

(** The requests of a run over all keys that were admitted for [key]. *)
Fixpoint allowed_times (key : string) (reqs : list (string * Q))
    (l : SlidingWindowLimiter) : list Q :=
  match reqs with
  | [] => []
  | (k, now) :: reqs =>
      let '((ok, _), l') := is_allowed k now l in
      if ok && bool_decide (k = key) then now :: allowed_times key reqs l'
      else allowed_times key reqs l'
  end.

End SlidingWindow.

(** ** The Redis script *)

Module Lua.

(** A hash with its fields [tokens] and [last] and the time its key expires. *)
Record hash := Hash { tokens : Q; last : Q; expires_at : Q }.

(** Redis drops a key whose expiry has passed. *)
Definition lookup (key : string) (now : Q) (db : gmap string hash) : option hash :=
  match db !! key with
  | Some h => if Qle_bool (expires_at h) now then None else Some h
  | None => None
  end.

(** The script: allowed, remaining tokens and retry-after, before Redis turns the
    reply's numbers into integers. *)
Definition script (key : string) (capacity : Z) (refill : Q) (ttl : Z) (now : Q)
    (db : gmap string hash) : (Z * Q * Z) * gmap string hash :=
  let h := lookup key now db in
  let tokens0 := match h with Some h => tokens h | None => inject_Z capacity end in
  let last0 := match h with Some h => last h | None => now end in
  let tokens1 := Qmin (inject_Z capacity) (tokens0 + Qmax 0 (now - last0) * refill) in
  let '(allowed, tokens2) :=
    if Qle_bool 1 tokens1 then (1, (tokens1 - 1)%Q) else (0, tokens1) in
  let retry_after :=
    if allowed =? 0 then Qceiling ((1 - tokens2) / refill) else 0 in
  ((allowed, tokens2, retry_after),
   <[key := Hash tokens2 now (now + inject_Z ttl)]> db).

(** The reply a client reads: Lua numbers are truncated to integers. *)
Definition reply (r : Z * Q * Z) : Z * Z * Z :=
  let '(allowed, tokens, retry_after) := r in (allowed, Qfloor tokens, retry_after).

End Lua.

(** ** Enforcement *)

Module Enforcement.
Import TokenBucket.

Definition V1_TOKEN_BUCKET_CAPACITY : Z := 1000.
Definition V1_TOKEN_BUCKET_REFILL_PER_SEC : Q := 1000 # 60.

Definition ttl_seconds : Z :=
  Z.max 1 (Qceiling (inject_Z V1_TOKEN_BUCKET_CAPACITY / V1_TOKEN_BUCKET_REFILL_PER_SEC * 2)).

Definition _rate_limit_headers (remaining : Q) (retry_after : option Z)
    : list (string * string) :=
  [("X-RateLimit-Strategy", "token-bucket");
   ("X-RateLimit-Limit", str_of_Z V1_TOKEN_BUCKET_CAPACITY);
   ("X-RateLimit-Remaining", str_of_Z (Z.max 0 (Qfloor remaining)))] ++
  match retry_after with
  | Some r => [("Retry-After", str_of_Z (Z.max 1 r))]
  | None => []
  end.

(** The state both backends keep. *)
Record world := World {
  _local_bucket : TokenBucketLimiter;
  redis : gmap string Lua.hash
}.

Definition initial : world :=
  World (TokenBucket.new V1_TOKEN_BUCKET_CAPACITY V1_TOKEN_BUCKET_REFILL_PER_SEC) ∅.

(** What [get_redis_client] and the evaluation of the script come to. *)
Inductive backend := NoClient | RedisError | Redis (now : Q).

Inductive error :=
| HTTPException (status_code : Z) (detail : string) (headers : list (string * string))
| Unhandled (e : ZeroDivisionError).

(** Clock readings of the local path: the default factory, [consume], and the two
    of [seconds_until_token]. *)
Record clocks := Clocks { c_default : Q; c_consume : Q; c_default' : Q; c_wait : Q }.

(** With the default jitter range [0, 0] the offset is 0. *)
Definition no_jitter (lo hi : Q) : Q := 0.

Definition consume_local (key : string) (c : clocks) (w : world)
    : result error (bool * Q * option Z) * world :=
  let '((allowed, remaining), l) :=
    consume key 1 (c_default c) (c_consume c) (_local_bucket w) in
  let w := World l (redis w) in
  if allowed then (Ok (allowed, remaining, None), w)
  else
    match seconds_until_token no_jitter key 0 0 (c_default' c) (c_wait c) l with
    | Ok s => (Ok (allowed, remaining, Some (Qceiling s)), w)
    | Raise e => (Raise (Unhandled e), w)
    end.

(** [retry_after or None]. *)
Definition or_none (r : option Z) : option Z :=
  match r with Some 0 => None | r => r end.

Definition _consume (cache_enabled : bool) (b : backend) (key : string) (c : clocks)
    (w : world) : result error (bool * Q * option Z) * world :=
  if negb cache_enabled then consume_local key c w
  else
    match b with
    | NoClient => (Raise (HTTPException 503 "Rate limiter is unavailable" []), w)
    | RedisError =>
        let '(r, w) := consume_local key c w in
        (try: x <- r ;; let '(allowed, remaining, retry) := x in
           Ok (allowed, remaining, or_none retry), w)
    | Redis now =>
        let '(r, db) := Lua.script ("rate-limit:v1:" +:+ key) V1_TOKEN_BUCKET_CAPACITY
          V1_TOKEN_BUCKET_REFILL_PER_SEC ttl_seconds now (redis w) in
        let '(allowed, remaining, retry_after) := Lua.reply r in
        (Ok (negb (allowed =? 0), inject_Z remaining, or_none (Some retry_after)),
         World (_local_bucket w) db)
    end.

(** The bucket of an authenticated caller, by tenant and subject. *)
Definition v1_key (tenant_id : option Z) (sub : option string) : string :=
  "tenant:" +:+ match tenant_id with Some t => str_of_Z t | None => "global" end +:+
  ":subject:" +:+ default "unknown" sub.

Definition public_key (client_host : option string) : string :=
  "ip:" +:+ default "unknown" client_host.

(** The shared tail of both dependencies: the headers to send, or the 429. *)
Definition enforce (cache_enabled : bool) (b : backend) (key : string) (c : clocks)
    (w : world) : result error (list (string * string)) * world :=
  let '(r, w) := _consume cache_enabled b key c w in
  (try: x <- r ;;
     let '(allowed, remaining, retry_after) := x in
     let headers := _rate_limit_headers remaining retry_after in
     if negb allowed then Raise (HTTPException 429 "Rate limit exceeded" headers)
     else Ok headers, w).

Definition enforce_v1_token_bucket cache_enabled b (tenant_id : option Z)
    (sub : option string) c w :=
  enforce cache_enabled b (v1_key tenant_id sub) c w.

Definition enforce_public_v1_token_bucket cache_enabled b (client_host : option string) c w :=
  enforce cache_enabled b (public_key client_host) c w.

End Enforcement.

(** ** Theorems: token bucket *)

Module TokenBucketTheorems.
Import TokenBucket.

Lemma Qmin_cases a b : (Qmin a b == a /\ a <= b)%Q \/ (Qmin a b == b /\ b <= a)%Q.
Proof. destruct (Q.min_spec a b) as [[? ->]|[? ->]]; [left | right]; split; lra. Qed.

Ltac qmin_cases :=
  repeat match goal with
  | |- context [Qmin ?a ?b] => destruct (Qmin_cases a b) as [[-> ?]|[-> ?]]
  | H : context [Qmin ?a ?b] |- _ =>
      destruct (Qmin_cases a b) as [[?E ?]|[?E ?]]; rewrite E in H
  end.

Section Bucket.
Context (key : string).

(** What the bucket of [key] would hold if asked at [now]. *)
Definition level (now : Q) (l : TokenBucketLimiter) : Q :=
  match _buckets l !! key with
  | Some (current, last) => refilled (capacity l) (refill_per_second l) current (now - last)
  | None => inject_Z (capacity l)
  end.

Definition sane (now : Q) (l : TokenBucketLimiter) : Prop :=
  0 <= capacity l /\ (0 <= refill_per_second l)%Q /\
  forall current last, _buckets l !! key = Some (current, last) ->
    (0 <= current <= inject_Z (capacity l))%Q /\ (last <= now)%Q.

Lemma level_nonneg now l : sane now l -> (0 <= level now l)%Q.
Proof.
  intros (Hc & Hr & Hb). rewrite Zle_Qle in Hc. unfold level.
  destruct (_buckets l !! key) as [[c t]|] eqn:E; [|done].
  destruct (Hb c t eq_refl) as [[H0 H1] H2]. unfold refilled.
  assert (0 <= (now - t) * refill_per_second l)%Q by (apply Qmult_le_0_compat; lra).
  qmin_cases; unfold inject_Z in *; lra.
Qed.

Lemma level_grows a b l :
  sane a l -> (a <= b)%Q -> (level b l <= level a l + refill_per_second l * (b - a))%Q.
Proof.
  intros (Hc & Hr & Hb) Hab. unfold level.
  assert (0 <= refill_per_second l * (b - a))%Q by (apply Qmult_le_0_compat; lra).
  destruct (_buckets l !! key) as [[c t]|] eqn:E; [|lra]. unfold refilled.
  assert ((b - t) * refill_per_second l ==
    (a - t) * refill_per_second l + refill_per_second l * (b - a))%Q by ring.
  qmin_cases; lra.
Qed.

Lemma level_capacity now l : (level now l <= inject_Z (capacity l))%Q.
Proof.
  unfold level. destruct (_buckets l !! key) as [[c t]|]; [apply Q.le_min_l | lra].
Qed.

(** What [consume] reads is the level. *)
Lemma consume_level k td now l ok cur l' :
  sane now l -> k = key -> (td <= now)%Q -> consume k 1 td now l = ((ok, cur), l') ->
  (level now l' == level now l - (if ok then 1 else 0))%Q /\ (cur == level now l')%Q /\
  ok = Qle_bool 1 (level now l) /\ sane now l' /\
  capacity l' = capacity l /\ refill_per_second l' = refill_per_second l.
Proof.
  intros Hs -> Htd.
  pose proof (level_nonneg now l Hs) as Hl0. pose proof (level_capacity now l) as Hlc.
  destruct Hs as (Hc & Hr & Hb).
  set (v := level now l) in *.
  unfold consume. destruct (default _ (_buckets l !! key)) as [c0 t0] eqn:E0.
  set (cur0 := refilled _ _ _ _).
  assert (cur0 == v)%Q as Hv.
  { unfold cur0, v, level. destruct (_buckets l !! key) as [[c t]|]; simplify_eq/=; [done |].
    unfold refilled.
    assert (0 <= (now - t0) * refill_per_second l)%Q by (apply Qmult_le_0_compat; lra).
    qmin_cases; lra. }
  assert (Qle_bool (inject_Z 1) cur0 = Qle_bool 1 v) as Hok by (by rewrite Hv).
  rewrite Hok. clearbody v. revert Hok Hv. generalize cur0. clear cur0. intros cur0 Hok Hv.
  destruct (Qle_bool 1 v) eqn:E; intros [= <- <- <-]; bool_to_prop;
    unfold sane, level; simpl; rewrite lookup_insert_eq; unfold refilled.
  - split; [|split; [|split; [done |]]].
    + assert ((now - now) * refill_per_second l == 0)%Q as -> by ring.
      unfold inject_Z at 2. qmin_cases; unfold inject_Z in *; lra.
    + assert ((now - now) * refill_per_second l == 0)%Q as -> by ring.
      unfold inject_Z at 1 3. qmin_cases; unfold inject_Z in *; lra.
    + repeat split; try done; intros; simplify_eq; unfold inject_Z in *; lra.
  - split; [|split; [|split; [done |]]].
    + assert ((now - now) * refill_per_second l == 0)%Q as -> by ring. qmin_cases; lra.
    + assert ((now - now) * refill_per_second l == 0)%Q as -> by ring. qmin_cases; lra.
    + repeat split; try done; intros; simplify_eq; lra.
Qed.

Lemma consume_other k td now l :
  k <> key -> _buckets (snd (consume k 1 td now l)) !! key = _buckets l !! key /\
  capacity (snd (consume k 1 td now l)) = capacity l /\
  refill_per_second (snd (consume k 1 td now l)) = refill_per_second l.
Proof.
  intros Hne. unfold consume. destruct (default _ _) as [c t].
  destruct (Qle_bool _ _); simpl; by rewrite lookup_insert_ne.
Qed.

Lemma sane_later a b l : sane a l -> (a <= b)%Q -> sane b l.
Proof.
  intros (Hc & Hr & Hb) Hab. split; [done |]. split; [done |].
  intros c t H. destruct (Hb c t H). split; [done | lra].
Qed.

Lemma consume_sane k td now l :
  sane now l -> (td <= now)%Q ->
  sane now (snd (consume k 1 td now l)) /\
  capacity (snd (consume k 1 td now l)) = capacity l /\
  refill_per_second (snd (consume k 1 td now l)) = refill_per_second l.
Proof.
  intros Hs Htd. destruct (decide (k = key)) as [Hk|Hne].
  - destruct (consume k 1 td now l) as [[ok cur] l'] eqn:E.
    destruct (consume_level k td now l ok cur l' Hs Hk Htd E) as (_ & _ & _ & ? & ? & ?). done.
  - destruct (consume_other k td now l Hne) as (Hl & Hcap & Href).
    split; [|done]. unfold sane. by rewrite Hl, Hcap, Href.
Qed.

Lemma run_sane reqs a l :
  sane a l -> monotonic reqs -> Forall (Qle a) (map time_of reqs) ->
  exists b, sane b (run reqs l) /\ (forall t, Forall (fun x => (x <= t)%Q) (a :: map time_of reqs) -> (b <= t)%Q) /\
    capacity (run reqs l) = capacity l /\ refill_per_second (run reqs l) = refill_per_second l.
Proof.
  revert a l. induction reqs as [|[[k td] now] reqs IH]; intros a l Hs [Hm Htd] Ha; simpl in *.
  { exists a. split; [done |]. split; [|done]. intros t Ht. by inversion Ht. }
  inversion Hm as [|? ? Hm' Hall]; subst. inversion Htd as [|? ? Htd0 Htd']; subst.
  inversion Ha as [|? ? Ha0 _]; subst. simpl in *.
  destruct (consume_sane k td now l) as (Hs' & Hcap & Href); [by eapply sane_later | done |].
  destruct (IH now (snd (consume k 1 td now l))) as (b & Hb & Hbt & Hc & Hr); [done | done | done |].
  exists b. rewrite Hc, Hr. split; [done |]. split; [|done].
  intros t Ht. apply Hbt. inversion Ht; subst. done.
Qed.

(** Admissions plus what is left never exceed what there was plus the refill. *)
Lemma admitted_level reqs a b l :
  sane a l -> monotonic reqs -> Forall (fun t => (a <= t <= b)%Q) (map time_of reqs) ->
  (a <= b)%Q ->
  (inject_Z (admitted key reqs l) <= level a l + refill_per_second l * (b - a))%Q.
Proof.
  revert a l. induction reqs as [|[[k td] now] reqs IH]; intros a l Hs [Hm Htd] Hab Hle; simpl in *.
  { pose proof (level_nonneg a l Hs). destruct Hs as (_ & Hr & _).
    assert (0 <= refill_per_second l * (b - a))%Q by (apply Qmult_le_0_compat; lra).
    unfold inject_Z. lra. }
  inversion Hm as [|? ? Hm' Hall]; subst. inversion Htd as [|? ? Htd0 Htd']; subst.
  inversion Hab as [|? ? [Ha0 Hb0] Hab']; subst. simpl in *.
  pose proof (sane_later a now l Hs Ha0) as Hsn.
  pose proof (level_grows a now l Hs Ha0) as Hgrow.
  assert (Forall (fun t => (now <= t <= b)%Q) (map time_of reqs)) as Hnb.
  { rewrite List.Forall_forall in *. intros t Ht. specialize (Hall t Ht).
    specialize (Hab' t Ht). simpl in *. lra. }
  assert (refill_per_second l * (b - a) ==
    refill_per_second l * (now - a) + refill_per_second l * (b - now))%Q as -> by ring.
  destruct (consume_sane k td now l Hsn Htd0) as (Hs' & Hcap & Href).
  pose proof (IH now _ Hs' (conj Hm' Htd') Hnb Hb0) as Hi. rewrite Href in Hi.
  destruct (consume k 1 td now l) as [[ok cur] l'] eqn:E; simpl in *.
  destruct (decide (k = key)) as [->|Hne].
  - rewrite bool_decide_eq_true_2, andb_true_r by done.
    destruct (consume_level key td now l ok cur l' Hsn eq_refl Htd0 E) as (Hlev & _).
    rewrite Hlev in Hi. rewrite inject_Z_plus.
    destruct ok; unfold inject_Z at 1; lra.
  - rewrite bool_decide_eq_false_2, andb_false_r by done. rewrite Z.add_0_l.
    assert (level now l' = level now l) as Hll.
    { pose proof (consume_other k td now l Hne) as (Hl & Hc & Hr). rewrite E in Hl, Hc, Hr.
      unfold level. simpl in *. by rewrite Hl, Hc, Hr. }
    rewrite Hll in Hi. lra.
Qed.

Lemma burst_admitted t n l :
  sane t l -> admitted key (replicate n (key, t, t)) l =
    Z.min (Z.of_nat n) (Qfloor (level t l)).
Proof.
  revert l. induction n as [|n IH]; intros l Hs; cbn [replicate admitted].
  - pose proof (level_nonneg t l Hs) as H. apply Qfloor_resp_le in H.
    change (Qfloor 0) with 0 in H. lia.
  - destruct (consume key 1 t t l) as [[ok cur] l'] eqn:E.
    destruct (consume_level key t t l ok cur l' Hs eq_refl (Qle_refl t) E)
      as (Hlev & _ & Hok & Hs' & _ & _).
    rewrite bool_decide_eq_true_2, andb_true_r by done. rewrite IH by done.
    pose proof (level_nonneg t l Hs) as H0. apply Qfloor_resp_le in H0.
    change (Qfloor 0) with 0 in H0.
    pose proof (Qfloor_le (level t l)) as Hf1. pose proof (Qlt_floor (level t l)) as Hf2.
    pose proof (Qfloor_le (level t l')) as Hg1. pose proof (Qlt_floor (level t l')) as Hg2.
    rewrite Hlev in Hg1 at 2. rewrite Hlev in Hg2 at 1.
    set (x := Qfloor (level t l)) in *. set (y := Qfloor (level t l')) in *.
    clearbody x y. rewrite inject_Z_plus in Hf2, Hg2.
    change (inject_Z 1) with 1%Q in *.
    destruct ok; symmetry in Hok; bool_to_prop.
    + assert (inject_Z y < inject_Z x)%Q as Hyx by lra. rewrite <- Zlt_Qlt in Hyx.
      assert (inject_Z x < inject_Z (y + 2))%Q as Hxy.
      { rewrite inject_Z_plus. change (inject_Z 2) with 2%Q. lra. }
      rewrite <- Zlt_Qlt in Hxy. lia.
    + assert (inject_Z x < inject_Z 1)%Q as Hx1 by (change (inject_Z 1) with 1%Q; lra).
      rewrite <- Zlt_Qlt in Hx1.
      pose proof (level_nonneg t l' Hs') as H0'.
      assert (inject_Z (-1) < inject_Z y)%Q as Hy0.
      { change (inject_Z (-1)) with (-1)%Q. lra. }
      assert (inject_Z y < inject_Z 1)%Q as Hy1 by (change (inject_Z 1) with 1%Q; lra).
      rewrite <- Zlt_Qlt in Hy0, Hy1. lia.
Qed.
End Bucket.

Lemma new_sane key a cap refill : 0 <= cap -> (0 <= refill)%Q -> sane key a (new cap refill).
Proof. intros Hc Hr. split; [done |]. split; [done |]. intros c t. simpl. by rewrite lookup_empty. Qed.

(** C32: after any earlier traffic on any keys, the one-token requests of one key
    admitted in a period [a, b] number at most [capacity] plus the refill of that
    period, whatever the other keys do; and a fresh bucket is not stricter than
    its burst: n requests at one instant are admitted up to [capacity]. *)
Theorem token_bucket_rate_bound (key : string) (cap : Z) (refill a b : Q)
    (before reqs : list request) :
  0 <= cap -> (0 <= refill)%Q -> monotonic (before ++ reqs) ->
  Forall (fun t => (a <= t <= b)%Q) (map time_of reqs) -> (a <= b)%Q ->
  Forall (fun t => (t <= a)%Q) (map time_of before) ->
  (inject_Z (admitted key reqs (run before (new cap refill))) <=
     inject_Z cap + refill * (b - a))%Q /\
  forall n, admitted key (replicate n (key, a, a)) (new cap refill) = Z.min (Z.of_nat n) cap.
Proof.
  intros Hc Hr [Hm Htd] Hab Hle Hbef. rewrite map_app in Hm.
  apply Forall_app in Htd as [Htd1 Htd2].
  assert (StronglySorted Qle (map time_of before) /\ StronglySorted Qle (map time_of reqs))
    as [Hm1 Hm2].
  { split; [by eapply StronglySorted_app_1_l | by eapply StronglySorted_app_1_r]. }
  split.
  - assert (exists a0, Forall (Qle a0) (map time_of before) /\ (a0 <= a)%Q) as (a0 & Ha0 & Hle0).
    { destruct (map time_of before) as [|t ts]; [exists a; split; [constructor | lra] |].
      inversion Hm1; subst. inversion Hbef; subst. exists t.
      split; [constructor; [lra | done] | done]. }
    destruct (run_sane key before a0 (new cap refill)) as (c & Hs & Hct & Hcap & Href);
      [by apply new_sane | done | done |].
    assert (c <= a)%Q as Hca by (apply Hct; by constructor).
    pose proof (sane_later key c a _ Hs Hca) as Hsa.
    pose proof (admitted_level key reqs a b _ Hsa (conj Hm2 Htd2) Hab Hle) as H.
    pose proof (level_capacity key a (run before (new cap refill))) as Hl.
    rewrite Hcap in Hl. rewrite Href in H. simpl in *. lra.
  - intros n. rewrite burst_admitted by (by apply new_sane).
    unfold level; simpl. by rewrite lookup_empty, Qfloor_Z.
Qed.

Lemma token_bucket_rate_bound_witness :
  (inject_Z (admitted "k" [("k", 1, 1); ("k", 1, 1); ("k", 2, 2)] (run [] (new 1 (1 # 2)))) <=
     1 + (1 # 2) * (2 - 1))%Q.
Proof.
  apply (token_bucket_rate_bound "k" 1 (1 # 2) 1 2 []); try done.
  - split; repeat constructor; vm_compute; discriminate.
  - repeat constructor; vm_compute; discriminate.
Defined.
End TokenBucketTheorems.

(** ** Theorems: the two backends enforce one policy *)

Module EnforcementTheorems.
#[local] Arguments Qfloor x : simpl never.
#[local] Arguments Qceiling x : simpl never.
Import TokenBucket Enforcement.
Import TokenBucketTheorems.

Definition at_time (now : Q) : clocks := Clocks now now now now.

(** What a caller sees of one consumption, with the remaining tokens floored as
    [_rate_limit_headers] does. *)
Definition view (r : result error (bool * Q * option Z)) : option (bool * Z * option Z) :=
  match r with
  | Ok (allowed, remaining, retry) => Some (allowed, Qfloor remaining, retry)
  | Raise _ => None
  end.

Fixpoint answers (cache_enabled : bool) (reqs : list (string * Q)) (w : world)
    : list (option (bool * Z * option Z)) :=
  match reqs with
  | [] => []
  | (key, now) :: reqs =>
      let '(r, w) := _consume cache_enabled (Redis now) key (at_time now) w in
      view r :: answers cache_enabled reqs w
  end.

Definition redis_key (key : string) : string := "rate-limit:v1:" +:+ key.

Lemma redis_key_inj k k' : redis_key k = redis_key k' -> k = k'.
Proof. unfold redis_key. simpl. by intros [=]. Qed.

(** The bucket of [key] is the same in both stores. *)
Definition same_bucket (now : Q) (key : string) (l : gmap string (Q * Q))
    (db : gmap string Lua.hash) : Prop :=
  match l !! key, db !! redis_key key with
  | None, None => True
  | Some (c, t), Some h =>
      (Lua.tokens h == c)%Q /\ (Lua.last h == t)%Q /\
      (Lua.expires_at h == t + inject_Z ttl_seconds)%Q /\
      (0 <= c)%Q /\ (t <= now)%Q
  | _, _ => False
  end.

Record same_store (now : Q) (wl wr : world) : Prop := {
  same_capacity : capacity (_local_bucket wl) = V1_TOKEN_BUCKET_CAPACITY;
  same_refill : refill_per_second (_local_bucket wl) = V1_TOKEN_BUCKET_REFILL_PER_SEC;
  same_buckets : forall key, same_bucket now key (_buckets (_local_bucket wl)) (redis wr)
}.

Lemma same_store_later a b wl wr : (a <= b)%Q -> same_store a wl wr -> same_store b wl wr.
Proof.
  intros Hab [Hc Hr Hb]. split; [done | done |]. intros key. specialize (Hb key).
  unfold same_bucket in *. destruct (_ !! key) as [[c t]|], (_ !! redis_key key); try done.
  destruct Hb as (? & ? & ? & ? & ?). repeat split; try done. lra.
Qed.

Lemma ceiling_pos q : (0 < q)%Q -> 1 <= Qceiling q.
Proof.
  intros H. pose proof (Qle_ceiling q) as Hc.
  assert (inject_Z 0 < inject_Z (Qceiling q))%Q as Hlt by (change (inject_Z 0) with 0%Q; lra).
  rewrite <- Zlt_Qlt in Hlt. lia.
Qed.

(** The tokens both backends compute for a request at [now]. *)
Lemma same_tokens now key wl wr :
  same_store now wl wr ->
  let '(c, t) := default (inject_Z V1_TOKEN_BUCKET_CAPACITY, now)
                   (_buckets (_local_bucket wl) !! key) in
  let h := Lua.lookup (redis_key key) now (redis wr) in
  let tokens0 := match h with Some h => Lua.tokens h | None => inject_Z V1_TOKEN_BUCKET_CAPACITY end in
  let last0 := match h with Some h => Lua.last h | None => now end in
  (refilled V1_TOKEN_BUCKET_CAPACITY V1_TOKEN_BUCKET_REFILL_PER_SEC c (now - t) ==
   Qmin (inject_Z V1_TOKEN_BUCKET_CAPACITY)
     (tokens0 + Qmax 0 (now - last0) * V1_TOKEN_BUCKET_REFILL_PER_SEC))%Q /\
  (0 <= refilled V1_TOKEN_BUCKET_CAPACITY V1_TOKEN_BUCKET_REFILL_PER_SEC c (now - t))%Q.
Proof.
  intros [_ _ Hb]. specialize (Hb key). unfold same_bucket in Hb. unfold Lua.lookup.
  destruct (_buckets (_local_bucket wl) !! key) as [[c t]|], (redis wr !! redis_key key) as [h|];
    try done; simpl.
  - destruct Hb as (Htk & Hl & He & Hc & Ht).
    change (inject_Z ttl_seconds) with 120%Q in He. unfold refilled.
    change (inject_Z V1_TOKEN_BUCKET_CAPACITY) with 1000%Q.
    unfold V1_TOKEN_BUCKET_REFILL_PER_SEC.
    destruct (Qle_bool (Lua.expires_at h) now) eqn:E; bool_to_prop; simpl.
    + rewrite (Q.max_l 0 (now - now)) by lra. qmin_cases; split; lra.
    + rewrite (Q.max_r 0 (now - Lua.last h)) by lra. rewrite Htk, Hl. qmin_cases; split; lra.
  - unfold refilled. change (inject_Z V1_TOKEN_BUCKET_CAPACITY) with 1000%Q.
    unfold V1_TOKEN_BUCKET_REFILL_PER_SEC.
    rewrite (Q.max_l 0 (now - now)) by lra. qmin_cases; split; lra.
Qed.

(** Writing the same tokens at the same time under one key of both stores. *)
Lemma same_store_insert now key l db wl wr c c' :
  same_store now wl wr -> _local_bucket wl = l -> redis wr = db ->
  (c' == c)%Q -> (0 <= c)%Q ->
  same_store now
    (World (Limiter (capacity l) (refill_per_second l) (<[key := (c, now)]> (_buckets l))) (redis wl))
    (World (_local_bucket wr)
       (<[redis_key key := Lua.Hash c' now (now + inject_Z ttl_seconds)]> db)).
Proof.
  intros [Hcap Href Hb] <- <- Hcc Hc. split; simpl; [done | done |].
  intros k. specialize (Hb k). unfold same_bucket in *.
  destruct (decide (k = key)) as [->|Hne].
  - rewrite !lookup_insert_eq. simpl. repeat split; try done; lra.
  - rewrite !lookup_insert_ne; [done | intros H; by apply redis_key_inj in H | done].
Qed.

Lemma same_step now key wl wr :
  same_store now wl wr ->
  let '(rl, wl') := _consume false (Redis now) key (at_time now) wl in
  let '(rr, wr') := _consume true (Redis now) key (at_time now) wr in
  view rl = view rr /\ same_store now wl' wr'.
Proof.
  intros Hs. pose proof (same_tokens now key wl wr Hs) as Htok.
  unfold _consume. simpl negb. cbn iota.
  unfold consume_local, consume, Lua.script. simpl c_default. simpl c_consume.
  rewrite (same_capacity _ _ _ Hs), (same_refill _ _ _ Hs).
  fold (redis_key key).
  destruct (default _ (_buckets (_local_bucket wl) !! key)) as [c t].
  destruct Htok as [Heq Hpos]. revert Heq Hpos.
  set (cur := refilled _ _ c (now - t)). set (tok := Qmin _ _). clearbody cur tok.
  intros Heq Hpos.
  assert (Qle_bool (inject_Z 1) cur = Qle_bool 1 tok) as -> by (by rewrite Heq).
  destruct (Qle_bool 1 tok) eqn:E; bool_to_prop.
  - simpl. split.
    + rewrite Qfloor_Z. f_equal. f_equal. f_equal. apply Qfloor_comp. rewrite Heq. done.
    + rewrite <- (same_capacity _ _ _ Hs), <- (same_refill _ _ _ Hs).
      apply same_store_insert; try done; change (inject_Z 1) with 1%Q; lra.
  - unfold seconds_until_token. simpl. rewrite lookup_insert_eq. simpl.
    assert (refilled V1_TOKEN_BUCKET_CAPACITY V1_TOKEN_BUCKET_REFILL_PER_SEC cur (now - now) == cur)%Q
      as Hre.
    { unfold refilled. change (inject_Z V1_TOKEN_BUCKET_CAPACITY) with 1000%Q.
      assert ((now - now) * V1_TOKEN_BUCKET_REFILL_PER_SEC == 0)%Q as -> by ring.
      qmin_cases; lra. }
    set (re := refilled _ _ cur (now - now)) in *. clearbody re.
    destruct (Qle_bool (1 - re) 0) eqn:Ed; bool_to_prop; [lra |].
    change (Qeq_bool V1_TOKEN_BUCKET_REFILL_PER_SEC 0) with false. cbn iota. simpl.
    set (wait := apply_jitter _ _ _ _).
    assert (wait == (1 - tok) / V1_TOKEN_BUCKET_REFILL_PER_SEC)%Q as Hw.
    { unfold wait, apply_jitter, no_jitter. rewrite Q.max_r; [rewrite Hre, Heq; ring |].
      unfold V1_TOKEN_BUCKET_REFILL_PER_SEC, Qdiv.
      change (/ (1000 # 60))%Q with (60 # 1000)%Q. lra. }
    assert (0 < (1 - tok) / V1_TOKEN_BUCKET_REFILL_PER_SEC)%Q as Hp.
    { unfold V1_TOKEN_BUCKET_REFILL_PER_SEC, Qdiv.
      change (/ (1000 # 60))%Q with (60 # 1000)%Q. lra. }
    apply ceiling_pos in Hp. rewrite (Qceiling_comp _ _ Hw).
    set (r := Qceiling _) in *. clearbody r. split.
    + f_equal. rewrite Qfloor_Z, (Qfloor_comp _ _ Heq). destruct r; simpl; done || lia.
    + rewrite <- (same_capacity _ _ _ Hs), <- (same_refill _ _ _ Hs).
      apply same_store_insert; try done; lra.
Qed.

(** C33: for the same requests at non-decreasing times the Redis script, with its
    key expiry, and the in-process bucket give the same answers: the same
    requests admitted, the same floored remaining tokens and the same
    [Retry-After]; the expiry never resets a bucket that is not full anyway. *)
Theorem redis_matches_local (reqs : list (string * Q)) :
  StronglySorted Qle (map snd reqs) ->
  answers true reqs initial = answers false reqs initial.
Proof.
  assert (forall a wl wr, same_store a wl wr -> StronglySorted Qle (map snd reqs) ->
    Forall (Qle a) (map snd reqs) -> answers true reqs wr = answers false reqs wl) as Hgen.
  { induction reqs as [|[key now] reqs IH]; intros a wl wr Hs Hm Ha; [done |].
    inversion Hm as [|? ? Hm' Hall]; subst. inversion Ha as [|? ? Ha0 _]; subst.
    apply (same_store_later a now) in Hs; [|done]. pose proof (same_step now key wl wr Hs) as H.
    cbn [answers]. destruct (_consume false _ _ _ wl) as [rl wl'].
    destruct (_consume true _ _ _ wr) as [rr wr']. destruct H as [-> Hs'].
    f_equal. by apply (IH now). }
  intros Hm. destruct reqs as [|[key now] reqs]; [done |].
  apply (Hgen now); [|done|].
  - split; [done | done |]. intros k. unfold same_bucket. simpl. by rewrite !lookup_empty.
  - inversion Hm; subst. constructor; [apply Qle_refl | done].
Qed.

(** The enforcement answers 429 exactly when the bucket has no token, with a
    [Retry-After] of at least one second, and otherwise returns the headers of
    an admitted request; the backend being unreachable is a 503 only when no
    client exists at all. *)
Theorem enforce_outcome (cache : bool) (b : backend) (key : string) (c : clocks) (w : world) :
  match fst (_consume cache b key c w) with
  | Ok (true, remaining, retry) =>
      fst (enforce cache b key c w) = Ok (_rate_limit_headers remaining retry)
  | Ok (false, remaining, retry) =>
      fst (enforce cache b key c w) =
        Raise (HTTPException 429 "Rate limit exceeded" (_rate_limit_headers remaining retry)) /\
      forall r, retry = Some r -> exists s, 1 <= s /\
        In ("Retry-After", str_of_Z s) (_rate_limit_headers remaining retry)
  | Raise e => fst (enforce cache b key c w) = Raise e /\
      (e = HTTPException 503 "Rate limiter is unavailable" [] <-> cache = true /\ b = NoClient)
  end /\
  snd (enforce cache b key c w) = snd (_consume cache b key c w).
Proof.
  assert (forall r : result error (bool * Q * option Z), forall e,
    r = Raise e -> fst (consume_local key c w) = r -> exists z, e = Unhandled z) as Hloc.
  { unfold consume_local. intros r e ->. destruct (consume _ _ _ _ _) as [[[] rem] l]; simpl; [done |].
    destruct (seconds_until_token _ _ _ _ _ _ _) as [s|z]; simpl; [done |].
    intros [= <-]. by eexists. }
  unfold enforce. destruct (_consume cache b key c w) as [[[[[] rem] retry]|e] w'] eqn:E; simpl;
    (split; [|done]); [done | |].
  - split; [done |]. intros r ->. exists (Z.max 1 r). split; [lia |].
    simpl. do 3 right. by left.
  - split; [done |]. unfold _consume in E. destruct cache; simpl in E.
    + destruct b as [| |now]; simplify_eq; [done | |].
      * destruct (consume_local key c w) as [r0 w0] eqn:El.
        assert (fst (consume_local key c w) = r0) as Hr0 by (by rewrite El). clear El.
        destruct r0 as [[[al rem] retry]|e0]; simpl in E; simplify_eq.
        destruct (Hloc (Raise e) e) as [z ->]; [done | done |].
        split; [done | by intros [_ ?]].
      * destruct (Lua.script _ _ _ _ _ _) as [[[al rem] retry] db]. done.
    + destruct (Hloc (Raise e) e) as [z ->]; [done | by rewrite E |].
      split; [done | by intros []].
Qed.

Lemma redis_matches_local_witness :
  answers true [("k", 0); ("k", 1); ("j", 500)]%Q initial =
  answers false [("k", 0); ("k", 1); ("j", 500)]%Q initial.
Proof. apply redis_matches_local. repeat constructor; vm_compute; discriminate. Defined.
End EnforcementTheorems.

(** ** Theorems: sliding window *)

Module SlidingWindowTheorems.
Import SlidingWindow.

Section Key.
Context (key : string).
#[local] Existing Instance key_limiter.

#[local] Instance key_limiter_laws : @SlidingLimiterLaws _ (key_limiter key).
Proof.
  split; intros now l; simpl; unfold is_allowed, live; simpl;
    destruct (_ <? _); simpl; try done; by rewrite lookup_insert_eq.
Qed.

(** Requests of other keys do not touch this one's window. *)
Lemma other_key k now l :
  k <> key ->
  let l' := snd (is_allowed k now l) in
  _windows l' !! key = _windows l !! key /\ limit l' = limit l /\
  window_seconds l' = window_seconds l.
Proof.
  intros Hne. unfold is_allowed. destruct (_ <? _); simpl; by rewrite lookup_insert_ne.
Qed.

Definition same_key_state (l l' : SlidingWindowLimiter) : Prop :=
  _windows l !! key = _windows l' !! key /\ limit l = limit l' /\
  window_seconds l = window_seconds l'.

Lemma same_key_request now l l' :
  same_key_state l l' ->
  fst (is_allowed key now l) = fst (is_allowed key now l') /\
  same_key_state (snd (is_allowed key now l)) (snd (is_allowed key now l')).
Proof.
  intros (Hw & Hl & Hs). unfold is_allowed. rewrite Hw, Hl, Hs.
  destruct (_ <? _); (split; [done |]); unfold same_key_state; simpl;
    by rewrite !lookup_insert_eq.
Qed.

(** The admissions for one key among the traffic of all are those of its own
    requests alone. *)
Lemma allowed_times_alone reqs l l' :
  same_key_state l l' ->
  allowed_times key reqs l =
    @admissions _ (key_limiter key) (omap (fun '(k, t) => if decide (k = key) then Some t else None) reqs) l'.
Proof.
  revert l l'. induction reqs as [|[k now] reqs IH]; intros l l' H; cbn [allowed_times omap list_omap]; [done |].
  destruct (decide (k = key)) as [->|Hne].
  - destruct (same_key_request now l l' H) as [Hf Hs]. cbn [admissions]. simpl SlidingLog.request.
    destruct (is_allowed key now l) as [[ok n] l1], (is_allowed key now l') as [[ok' n'] l1'].
    simpl in Hf, Hs. simplify_eq. rewrite bool_decide_eq_true_2, andb_true_r by done.
    destruct ok'; [f_equal |]; by apply IH.
  - destruct (other_key k now l Hne) as (Hw & Hl & Hs).
    destruct (is_allowed k now l) as [[ok n] l1]. simpl in Hw, Hl, Hs.
    rewrite bool_decide_eq_false_2, andb_false_r by done. apply IH.
    destruct H as (H1 & H2 & H3). split; [by rewrite Hw | split; congruence].
Qed.
End Key.

(** C5: Among any traffic at non-decreasing times, the requests of one key that a
    fresh [SlidingWindowLimiter] allows are exactly those its own earlier
    allowed requests in the closed window ending at it number less than
    [limit], and every window of [window_seconds], wherever it ends, holds at
    most [limit] of them: no boundary burst. *)
Theorem sliding_window_exact (key : string) (lim secs : Z) (reqs : list (string * Q)) :
  0 <= lim -> 0 <= secs -> StronglySorted Qle (map snd reqs) ->
  let own := omap (fun '(k, t) => if decide (k = key) then Some t else None) reqs in
  let allowed := allowed_times key reqs (Limiter lim secs ∅) in
  allowed = spec_admissions lim (inject_Z secs) [] own /\
  forall x, Z.of_nat (count (in_window (inject_Z secs) x) allowed) <= lim.
Proof.
  intros Hl Hs Hm own allowed.
  assert (StronglySorted Qle own) as Hown.
  { unfold own. clear -Hm. induction reqs as [|[k t] reqs IH]; simpl; [constructor |].
    inversion Hm as [|? ? Hm' Hall]; subst. destruct (decide (k = key)); [|by apply IH].
    constructor; [by apply IH |]. rewrite List.Forall_forall in *. intros x Hx.
    apply Hall. apply list_elem_of_In, list_elem_of_omap in Hx as ([k' t'] & Hin & Heq).
    destruct (decide (k' = key)); simplify_eq. apply in_map_iff. exists (key, x).
    split; [done | by apply list_elem_of_In]. }
  assert (0 <= inject_Z secs)%Q as Hq by (change 0%Q with (inject_Z 0); by rewrite <- Zle_Qle).
  assert (allowed = @admissions _ (key_limiter key) own (Limiter lim secs ∅)) as ->
    by (by apply allowed_times_alone).
  pose proof (key_limiter_laws key) as Hlaws. split.
  - pose proof (@admissions_refine _ (key_limiter key) Hlaws own (Limiter lim secs ∅)) as Hr.
    simpl in Hr. by apply Hr.
  - intros x. pose proof (@admissions_window_bound _ (key_limiter key) Hlaws own (Limiter lim secs ∅) x) as Hb.
    simpl in Hb. rewrite lookup_empty in Hb. specialize (Hb Hq Hown eq_refl). lia.
Qed.

Lemma sliding_window_exact_witness :
  allowed_times "k" [("k", 59); ("j", 60); ("k", 61); ("k", 120)]%Q (Limiter 1 60 ∅) = [59; 120]%Q.
Proof.
  rewrite (proj1 (sliding_window_exact "k" 1 60 [("k", 59); ("j", 60); ("k", 61); ("k", 120)]%Q
    ltac:(done) ltac:(done) ltac:(repeat constructor; vm_compute; discriminate))).
  reflexivity.
Defined.
End SlidingWindowTheorems.
