(* ===== verification/Resilience.v ===== *)
(** * Composed resilience (src/libs/platform/resilience.py)

    One outbound call goes through the bulkhead, then a retry wrapper of two
    attempts, each attempt through the circuit breaker.  The breaker and the
    retry wrapper are those of [CircuitBreaker.v] and [Retry.v]. *)

From S2P Require Import Prelude CircuitBreaker Retry Bulkhead.

Inductive py_value := PyInt (n : Z) | PyOther.

(** What the classifier reads of an exception: whether it is an
    [httpx.TransportError], its [status_code] attribute and the one of its
    [response], each [None] when absent or [None]. *)
Record error := Error {
  is_transport : bool;
  status_code : option py_value;
  response_status_code : option py_value;
  is_exception : bool
}.

Definition is_transient_downstream_error (e : error) : bool :=
  if is_transport e then true
  else
    let code := match status_code e with
                | None => response_status_code e
                | c => c
                end in
    match code with
    | Some (PyInt n) => (n =? 429) || (500 <=? n)
    | _ => false
    end.

Definition breaker_config : Breaker.config error :=
  Breaker.Config 3 30 1 is_transient_downstream_error.

(** [CircuitOpenError] is a [RuntimeError] with neither attribute. *)
Definition attempt_error := Breaker.call_error error.

Definition attempt_is_exception (e : attempt_error) : bool :=
  match e with Breaker.CircuitOpenError => true | Breaker.Inner e => is_exception e end.

Definition attempt_is_transient (e : attempt_error) : bool :=
  match e with
  | Breaker.CircuitOpenError => false
  | Breaker.Inner e => is_transient_downstream_error e
  end.

Inductive KeyError := key_error (key : string).

(** [{"closed": 0, "open": 1, "half_open": 2}[self.breaker.state]]. *)
Definition state_value (b : Breaker.breaker) : result KeyError Z :=
  let m : gmap string Z := {["closed" := 0; "open" := 1; "half_open" := 2]} in
  match m !! Breaker.state b with
  | Some v => Ok v
  | None => Raise (key_error (Breaker.state b))
  end.

(** The three gauges and the counter of one dependency. *)
Record metrics := Metrics {
  circuit_breaker_state : Z;
  bulkhead_inflight : Z;
  bulkhead_waiting : Z;
  bulkhead_rejected_total : Z
}.

Record DependencyResilience := Dependency {
  name : string;
  breaker : Breaker.breaker;
  bulkhead_config : AsyncBulkhead.config;
  bulkhead : AsyncBulkhead.bulkhead;
  _retry_budget : option Budget.RetryBudget;
  dependency_metrics : metrics
}.

Definition _observe (d : DependencyResilience) : result KeyError DependencyResilience :=
  bind_result (state_value (breaker d)) (fun v =>
    Ok (Dependency (name d) (breaker d) (bulkhead_config d) (bulkhead d) (_retry_budget d)
      (Metrics v (AsyncBulkhead.inflight (bulkhead d)) (AsyncBulkhead.waiting (bulkhead d))
        (bulkhead_rejected_total (dependency_metrics d))))).

Section Call.
Context {A : Type}.
(** By attempt: the outcome of the operation, the clock when it enters and ends,
    the clock the budget reads, the jitter sample, and what other tasks do to
    the shared breaker and budget meanwhile. *)
Context (operation : nat -> result error A) (t_enter t_end t_budget : nat -> Q)
        (uniform : nat -> Q -> Q -> Q)
        (others_breaker : nat -> Breaker.breaker -> Breaker.breaker)
        (others_budget : nat -> Budget.RetryBudget -> Budget.RetryBudget).

(** Attempt [n] of [breaker_protected_operation]. *)
Definition attempt (n : nat) (b : Breaker.breaker) : result attempt_error A * Breaker.breaker :=
  Breaker.call breaker_config (t_enter n) (t_end n) (others_breaker n) (operation n) b.

(** The breaker before attempt [n], all earlier ones having been made. *)
Fixpoint breaker_at (n : nat) (b : Breaker.breaker) : Breaker.breaker :=
  match n with O => b | S n => snd (attempt n (breaker_at n b)) end.

Definition _call_with_breaker (b : Breaker.breaker) (budget : option Budget.RetryBudget)
    : result (Backoff.retry_error attempt_error) A * list Backoff.event *
      Breaker.breaker * option Budget.RetryBudget :=
  let '(r, tr, budget) :=
    Backoff.wrapper attempt_is_exception 1 (1 # 4) (1 # 4) true (Some attempt_is_transient)
      (fun n => fst (attempt n (breaker_at n b))) t_budget uniform others_budget budget in
  (r, tr, breaker_at (length (Backoff.calls_of tr)) b, budget).

(** The attempts whose operation the breaker let run. *)
Definition operations_run (b : Breaker.breaker) (tr : list Backoff.event) : list nat :=
  List.filter (fun n => bool_decide (is_Some (Breaker.aenter breaker_config (t_enter n) (breaker_at n b))))
    (Backoff.calls_of tr).

Inductive call_error :=
| BulkheadRejectedError
| Downstream (e : Backoff.retry_error attempt_error)
| GaugeError (e : KeyError).

(** [call] by task [t]; [wait] stands for the steps of other tasks until a queued
    caller is admitted.  The [finally] observes whatever happened. *)
Definition call (t : nat) (wait : AsyncBulkhead.bulkhead -> AsyncBulkhead.bulkhead)
    (d : DependencyResilience) : result call_error A * DependencyResilience :=
  let finish (r : result call_error A) (d : DependencyResilience) :=
    match _observe d with
    | Ok d => (r, d)
    | Raise e => (Raise (GaugeError e), d)
    end in
  match AsyncBulkhead.run_enter (bulkhead_config d) t (bulkhead d) with
  | None =>
      let m := dependency_metrics d in
      finish (Raise BulkheadRejectedError)
        (Dependency (name d) (breaker d) (bulkhead_config d) (bulkhead d) (_retry_budget d)
          (Metrics (circuit_breaker_state m) (bulkhead_inflight m) (bulkhead_waiting m)
            (bulkhead_rejected_total m + 1)))
  | Some bh =>
      let bh := match AsyncBulkhead.phase_of t (AsyncBulkhead.tasks bh) with
                | Some AsyncBulkhead.Running => bh
                | _ => wait bh
                end in
      let '(r, _, b, budget) := _call_with_breaker (breaker d) (_retry_budget d) in
      finish (match r with Ok a => Ok a | Raise e => Raise (Downstream e) end)
        (Dependency (name d) b (bulkhead_config d) (AsyncBulkhead.run_finish t bh) budget
          (dependency_metrics d))
  end.

End Call.
Arguments call_error : clear implicits.

(** ** Theorems *)

Module ResilienceTheorems.

Lemma state_value_total b : exists v, state_value b = Ok v.
Proof. unfold state_value, Breaker.state. destruct (Breaker._state b); by eexists. Qed.

Section Call.
Context {A : Type}.
Context (operation : nat -> result error A) (t_enter t_end t_budget : nat -> Q)
        (uniform : nat -> Q -> Q -> Q)
        (others_breaker : nat -> Breaker.breaker -> Breaker.breaker)
        (others_budget : nat -> Budget.RetryBudget -> Budget.RetryBudget).

#[local] Abbreviation attempt' := (attempt operation t_enter t_end others_breaker).
#[local] Abbreviation run' b budget :=
  (_call_with_breaker operation t_enter t_end t_budget uniform others_breaker others_budget b budget).

(** With no retry budget, the composed call makes a second attempt exactly
    when the first one ran the operation and it failed with a transient
    exception, and returns the last attempt's outcome and breaker; a circuit
    that is open is neither retried nor lets the operation run; and the gauge
    lookup never fails. *)
Theorem resilience_two_attempts (b : Breaker.breaker) r tr b' budget' :
  run' b None = (r, tr, b', budget') ->
  (let (r0, b1) := attempt' 0%nat b in
   match r0 with
   | Ok a => r = Ok a /\ b' = b1
   | Raise Breaker.CircuitOpenError =>
       r = Raise (Backoff.Inner Breaker.CircuitOpenError) /\ b' = b1 /\ b1 = b /\
       operations_run operation t_enter t_end others_breaker b tr = []
   | Raise (Breaker.Inner e) =>
       if is_exception e && is_transient_downstream_error e then
         let (r1, b2) := attempt' 1%nat b1 in
         r = match r1 with Ok a => Ok a | Raise e => Raise (Backoff.Inner e) end /\ b' = b2
       else r = Raise (Backoff.Inner (Breaker.Inner e)) /\ b' = b1
   end) /\
  (length (operations_run operation t_enter t_end others_breaker b tr) <= 2)%nat /\
  exists v, state_value b' = Ok v.
Proof.
  intros H. split; [|split; [|apply state_value_total]].
  - unfold _call_with_breaker, Backoff.wrapper in H.
    change (Z.to_nat (1 + 1)) with 2%nat in H. rewrite BackoffTheorems.loop_S in H.
    cbn [breaker_at] in H.
    destruct (attempt' 0%nat b) as [r0 b1] eqn:E0. rewrite ?E0 in H. simpl fst in H.
    destruct r0 as [a|[|e]]; simpl in H.
    + simplify_eq. simpl. by rewrite ?E0.
    + simplify_eq. simpl. rewrite ?E0. simpl.
      unfold attempt, Breaker.call in E0.
      destruct (Breaker.aenter breaker_config (t_enter 0%nat) b) eqn:Ea; [by destruct (operation 0%nat) |].
      simplify_eq. repeat split. unfold operations_run. simpl. rewrite Ea. done.
    + destruct (is_exception e); simpl in H; [|simplify_eq; simpl; by rewrite ?E0].
      change (Backoff.may_retry 1 (Some attempt_is_transient) 0 (Breaker.Inner e))
        with (is_transient_downstream_error e) in H.
      destruct (is_transient_downstream_error e); simpl in H; [|simplify_eq; simpl; by rewrite ?E0].
      rewrite ?E0 in H. simpl in H.
      destruct (attempt' 1%nat b1) as [r1 b2] eqn:E1. rewrite ?E1 in H. simpl in H.
      destruct r1 as [a|e1]; simpl in H.
      * simplify_eq. simpl. rewrite ?E0. simpl. by rewrite ?E1.
      * destruct (attempt_is_exception e1); simpl in H; simplify_eq; simpl; rewrite ?E0; simpl; by rewrite ?E1.
  - unfold _call_with_breaker in H.
    destruct (Backoff.wrapper _ _ _ _ _ _ _ _ _ _ _) as [[r0 tr0] bg] eqn:E. simplify_eq.
    pose proof (BackoffTheorems.loop_shape attempt_is_exception 1 (1 # 4) (1 # 4) true
      (Some attempt_is_transient) (fun n => fst (attempt' n (breaker_at operation t_enter t_end others_breaker n b)))
      t_budget uniform others_budget 1 0 None None _ _ _ eq_refl E) as (Hc & _ & Hk & _).
    unfold operations_run.
    etrans; [apply List.filter_length_le |]. rewrite Hc, length_seq. lia.
Qed.
End Call.

(** A dependency that answers 503 once, then succeeds. *)
Definition unavailable : error := Error false (Some (PyInt 503)) None true.
Definition answers_503_once (n : nat) : result error Z :=
  match n with O => Raise unavailable | _ => Ok 1 end.

Lemma resilience_two_attempts_witness :
  exists v, state_value (Breaker.Breaker CLOSED 0 None 0) = Ok v.
Proof.
  refine (proj2 (proj2 (resilience_two_attempts answers_503_once (fun _ => 0%Q) (fun _ => 0%Q)
    (fun _ => 0%Q) (fun _ _ _ => 0%Q) (fun _ b => b) (fun _ b => b) Breaker.init _ _ _ _ eq_refl))).
Defined.
End ResilienceTheorems.
