(* ===== verification/Db.v ===== *)
(** * Database tables

    What the repositories use of the relational store through the ORM: a table
    is its rows in primary-key order with the sequence that hands out the keys.
    A transaction is a function on tables; one that raises is rolled back by its
    caller, so it leaves no table behind.  Running a transaction as one step is
    faithful where it reads under row locks ([with_for_update]), or writes without
    having read, or where a unique index decides; rows that other transactions have
    locked are an argument of the operations that skip them.  Where the code reads
    without a lock and writes later, the read and the write are apart:
    [IncidentRaces], the deletion of [Users], the reviews of [TriageAgent], the
    appends of [AuditTrail].  Rows that tie under an ORDER BY come in primary-key
    order. *)

From S2P Require Import Prelude.

Record table (R : Type) := Table { rows : list (Z * R); next_id : Z }.
Arguments Table {R}.
Arguments rows {R}.
Arguments next_id {R}.

Inductive IntegrityError := integrity_error.

(** ** Stable sorting for ORDER BY *)

Section Sort.
Context {A : Type} (le : A -> A -> bool).

Fixpoint insert_by (x : A) (l : list A) : list A :=
  match l with
  | [] => [x]
  | y :: l' => if le x y then x :: l else y :: insert_by x l'
  end.

Definition order_by (l : list A) : list A := foldr insert_by [] l.
End Sort.

Section Table.
Context {R : Type}.
Implicit Types (t : table R) (r : R).

Definition empty_table : table R := Table [] 1.

Definition ids t : list Z := map fst (rows t).

Fixpoint lookup_row (i : Z) (l : list (Z * R)) : option R :=
  match l with
  | [] => None
  | (j, r) :: l => if i =? j then Some r else lookup_row i l
  end.

(** [db.get(Model, i)]. *)
Definition get (i : Z) t : option R := lookup_row i (rows t).

(** [select(Model).where(p)], in primary-key order. *)
Definition select (p : R -> bool) t : list (Z * R) :=
  List.filter (fun x => p x.2) (rows t).

(** [select(Model).where(p).with_for_update(skip_locked=True).limit(limit)]. *)
Definition select_for_update (locked : Z -> bool) (p : R -> bool) (limit : nat) t : list (Z * R) :=
  take limit (List.filter (fun x => negb (locked x.1)) (select p t)).

(** [db.scalar(select(Model).where(p))]. *)
Definition scalar (p : R -> bool) t : option (Z * R) := head (select p t).

(** An ORM object changed and flushed. *)
Definition update (i : Z) (f : R -> R) t : table R :=
  Table (map (fun x => (x.1, if i =? x.1 then f x.2 else x.2)) (rows t)) (next_id t).

Definition update_all (keys : list Z) (f : R -> R) t : table R :=
  foldl (fun t i => update i f t) t keys.

(** [db.add(row); db.flush()]. *)
Definition insert r t : Z * table R :=
  (next_id t, Table (rows t ++ [(next_id t, r)]) (next_id t + 1)).

(** The same under a unique index: [taken] holds of the rows that conflict. *)
Definition insert_unique (taken : R -> bool) r t : result IntegrityError (Z * table R) :=
  match scalar taken t with
  | Some _ => Raise integrity_error
  | None => Ok (insert r t)
  end.

(** [insert ... on_conflict_do_nothing ... returning]: a conflict still consumes a
    sequence value. *)
Definition insert_or_nothing (taken : R -> bool) r t : option Z * table R :=
  match scalar taken t with
  | Some _ => (None, Table (rows t) (next_id t + 1))
  | None => let '(i, t) := insert r t in (Some i, t)
  end.

(** Primary keys increase and stay below the sequence. *)
Definition wf_table t : Prop :=
  StronglySorted Z.lt (ids t) /\ Forall (fun i => i < next_id t) (ids t).

(** A property of every row. *)
Definition every (P : Z -> R -> Prop) t : Prop := forall i r, get i t = Some r -> P i r.

(** A unique index on a nullable column. *)
Definition unique {K} (f : R -> option K) t : Prop :=
  forall i j r s k, get i t = Some r -> get j t = Some s -> f r = Some k -> f s = Some k -> i = j.

End Table.
Arguments empty_table : clear implicits.

(** ** Lemmas *)

Section SortLemmas.
Context {A : Type} (le : A -> A -> bool).

Lemma insert_by_perm x l : insert_by le x l ≡ₚ x :: l.
Proof.
  induction l as [|y l IH]; simpl; [done |]. destruct (le x y); [done |].
  rewrite IH. by constructor.
Qed.

Lemma order_by_perm l : order_by le l ≡ₚ l.
Proof. induction l as [|x l IH]; simpl; [done |]. by rewrite insert_by_perm, IH. Qed.

Lemma order_by_length l : length (order_by le l) = length l.
Proof. by rewrite order_by_perm. Qed.

Lemma order_by_sorted l :
  (forall x y, le x y = true \/ le y x = true) ->
  (forall x y z, le x y = true -> le y z = true -> le x z = true) ->
  StronglySorted (fun x y => le x y = true) (order_by le l).
Proof.
  intros Htot Htr. induction l as [|x l IH]; simpl; [constructor |].
  induction IH as [|y l' Hs IH Hy]; simpl; [by repeat constructor |].
  destruct (le x y) eqn:E.
  - constructor; [by constructor |]. constructor; [done |].
    eapply Forall_impl; [exact Hy |]. intros z Hz. by apply (Htr _ y).
  - constructor; [done |]. rewrite insert_by_perm. constructor; [|done].
    destruct (Htot x y) as [|]; [congruence | done].
Qed.
End SortLemmas.

Section TableLemmas.
Context {R : Type}.
Implicit Types (t : table R) (r : R).

Lemma lookup_row_In i r (l : list (Z * R)) :
  StronglySorted Z.lt (map fst l) -> In (i, r) l <-> lookup_row i l = Some r.
Proof.
  induction l as [|[j s] l IH]; simpl; intros Hs; [split; done |].
  apply StronglySorted_inv in Hs as [Hs Hlt]. rewrite Forall_forall in Hlt.
  destruct (Z.eqb_spec i j) as [->|Hne].
  - split; [|intros [= ->]; by left]. intros [[= ->]|Hin]; [done |].
    enough (j < j) by lia. apply Hlt, list_elem_of_fmap. exists (j, r).
    split; [done | by apply list_elem_of_In].
  - rewrite <- IH by done. split; [intros [[= -> ->]|]; done | by right].
Qed.

Lemma lookup_row_id i r (l : list (Z * R)) : lookup_row i l = Some r -> In i (map fst l).
Proof.
  induction l as [|[j s] l IH]; simpl; [done |].
  destruct (Z.eqb_spec i j); [by left | intros; right; by apply IH].
Qed.

Lemma select_spec p t i r :
  wf_table t -> In (i, r) (select p t) <-> get i t = Some r /\ p r = true.
Proof. intros [Hs _]. unfold select. rewrite List.filter_In, lookup_row_In by done. reflexivity. Qed.

Lemma select_nil p t : wf_table t -> select p t = [] <-> every (fun _ r => p r = false) t.
Proof.
  intros Hwf. split.
  - intros Hnil i r Hg. destruct (p r) eqn:E; [|done].
    assert (In (i, r) (select p t)) as Hin by (by apply select_spec).
    by rewrite Hnil in Hin.
  - intros He. destruct (select p t) as [|[i r] l] eqn:E; [done |].
    assert (In (i, r) (select p t)) as Hin by (rewrite E; by left).
    apply select_spec in Hin as [Hg Hp]; [|done]. rewrite (He _ _ Hg) in Hp. done.
Qed.

Lemma scalar_Some p t i r : wf_table t -> scalar p t = Some (i, r) -> get i t = Some r /\ p r = true.
Proof.
  intros Hwf H. apply select_spec; [done |]. unfold scalar in H.
  destruct (select p t); simplify_eq/=. by left.
Qed.

Lemma scalar_None p t : wf_table t -> scalar p t = None <-> every (fun _ r => p r = false) t.
Proof.
  intros Hwf. rewrite <- select_nil by done. unfold scalar. by destruct (select p t).
Qed.

(** A unique index makes [scalar] a lookup. *)
Lemma scalar_unique {K} `{EqDecision K} (f : R -> option K) k t i r :
  wf_table t -> unique f t -> get i t = Some r -> f r = Some k ->
  scalar (fun r => bool_decide (f r = Some k)) t = Some (i, r).
Proof.
  intros Hwf Hu Hg Hk. destruct (scalar _ t) as [[j s]|] eqn:E.
  - apply scalar_Some in E as [Hj Hs]; [|done]. bool_to_prop.
    rewrite (Hu j i s r k) in * by done. by simplify_eq.
  - rewrite scalar_None in E by done. specialize (E i r Hg). simpl in E. bool_to_prop. done.
Qed.

Lemma ids_update i f t : ids (update i f t) = ids t.
Proof. unfold ids, update. simpl. rewrite map_map. done. Qed.

Lemma wf_update i f t : wf_table t -> wf_table (update i f t).
Proof. unfold wf_table. by rewrite ids_update. Qed.

Lemma wf_insert r t : wf_table t -> wf_table (snd (insert r t)).
Proof.
  intros [Hs Hlt]. unfold wf_table, insert, ids. simpl. rewrite map_app. simpl. split.
  - by apply StronglySorted_snoc.
  - apply Forall_app; split; [|by constructor; [lia |]].
    eapply Forall_impl; [exact Hlt | simpl; lia].
Qed.

Lemma wf_burn t : wf_table t -> wf_table (Table (rows t) (next_id t + 1)).
Proof.
  intros [Hs Hlt]. split; [done |]. eapply Forall_impl; [exact Hlt | simpl; lia].
Qed.

Lemma wf_empty : wf_table (empty_table R).
Proof. split; constructor. Qed.

Lemma get_update i f t j :
  get j (update i f t) = if i =? j then f <$> get j t else get j t.
Proof.
  unfold get, update. simpl. induction (rows t) as [|[k r] l IH]; simpl; [by destruct (i =? j) |].
  destruct (Z.eqb_spec j k) as [->|]; [by destruct (i =? k) | done].
Qed.

Lemma update_update i (f g : R -> R) t :
  update i f (update i g t) = update i (fun r => f (g r)) t.
Proof.
  unfold update. simpl. f_equal. rewrite map_map. apply map_ext. intros [j r]. simpl. by destruct (i =? j).
Qed.

Lemma lookup_row_app i (l : list (Z * R)) x :
  lookup_row i (l ++ [x]) =
  match lookup_row i l with Some r => Some r | None => if i =? x.1 then Some x.2 else None end.
Proof.
  induction l as [|[k r] l IH]; simpl; [by destruct x |]. by destruct (i =? k).
Qed.

Lemma get_insert r t j :
  wf_table t -> get j (snd (insert r t)) = if j =? next_id t then Some r else get j t.
Proof.
  intros [_ Hlt]. unfold get, insert. simpl. rewrite lookup_row_app. simpl.
  destruct (Z.eqb_spec j (next_id t)) as [->|]; [|by destruct (lookup_row j (rows t))].
  destruct (lookup_row (next_id t) (rows t)) eqn:E; [|done].
  apply lookup_row_id in E. rewrite Forall_forall in Hlt.
  specialize (Hlt (next_id t)). setoid_rewrite list_elem_of_In in Hlt. specialize (Hlt E). lia.
Qed.

Lemma get_lt i r t : wf_table t -> get i t = Some r -> i < next_id t.
Proof.
  intros [_ Hlt] H%lookup_row_id. rewrite Forall_forall in Hlt. apply Hlt. by apply list_elem_of_In.
Qed.

Lemma every_update (P : Z -> R -> Prop) i f t :
  every P t -> (forall r, get i t = Some r -> P i r -> P i (f r)) -> every P (update i f t).
Proof.
  intros He Hf j r. rewrite get_update. destruct (Z.eqb_spec i j) as [->|]; [|by apply He].
  destruct (get j t) as [s|] eqn:E; simpl; intros [= <-]. apply Hf; [done | by apply He].
Qed.

Lemma every_insert (P : Z -> R -> Prop) r t :
  wf_table t -> every P t -> P (next_id t) r -> every P (snd (insert r t)).
Proof.
  intros Hwf He Hr j s. rewrite get_insert by done.
  destruct (Z.eqb_spec j (next_id t)) as [->|]; [by intros [= <-] | by apply He].
Qed.

Lemma unique_update {K} (f : R -> option K) i g t :
  unique f t -> (forall r, get i t = Some r -> f (g r) = f r \/ f (g r) = None) ->
  unique f (update i g t).
Proof.
  intros Hu Hg.
  assert (forall a r k, get a (update i g t) = Some r -> f r = Some k ->
    exists r0, get a t = Some r0 /\ f r0 = Some k) as Hback.
  { intros a r k. rewrite get_update. destruct (Z.eqb_spec i a) as [->|]; [|by eexists].
    destruct (get a t) as [r0|]; simpl; intros [= <-] Hk. exists r0. split; [done |].
    destruct (Hg r0 eq_refl) as [H|H]; congruence. }
  intros a b r s k Ha Hb Hr Hs. destruct (Hback a r k) as (? & ? & ?); [done.. |].
  destruct (Hback b s k) as (? & ? & ?); [done.. |]. by eapply Hu.
Qed.

Lemma unique_insert {K} (f : R -> option K) r t :
  wf_table t -> unique f t ->
  (forall k, f r = Some k -> every (fun _ s => f s <> Some k) t) ->
  unique f (snd (insert r t)).
Proof.
  intros Hwf Hu Hr a b ra rb k. rewrite !get_insert by done.
  destruct (Z.eqb_spec a (next_id t)) as [->|], (Z.eqb_spec b (next_id t)) as [->|];
    intros; simplify_eq; try done.
  - exfalso. by eapply Hr.
  - exfalso. by eapply Hr.
  - by eapply Hu.
Qed.

Lemma wf_update_all keys f t : wf_table t -> wf_table (update_all keys f t).
Proof.
  revert t. induction keys as [|i keys IH]; intros t Hwf; [done |]. by apply IH, wf_update.
Qed.

Lemma get_update_all keys f t j :
  NoDup keys ->
  get j (update_all keys f t) = if decide (j ∈ keys) then f <$> get j t else get j t.
Proof.
  revert t. induction keys as [|i keys IH]; intros t Hnd; [by rewrite decide_False by set_solver |].
  change (update_all (i :: keys) f t) with (update_all keys f (update i f t)).
  apply NoDup_cons in Hnd as [Hi Hnd]. rewrite IH, get_update by done.
  destruct (Z.eqb_spec i j) as [->|]; repeat case_decide; set_solver.
Qed.

Lemma every_update_all (P : Z -> R -> Prop) keys f t :
  every P t -> (forall i r, P i r -> P i (f r)) -> every P (update_all keys f t).
Proof.
  intros He Hf. revert t He. induction keys as [|i keys IH]; intros t He; [done |].
  apply IH, every_update; [done | by auto].
Qed.

Lemma unique_update_all {K} (g : R -> option K) keys f t :
  unique g t -> (forall r, g (f r) = g r) -> unique g (update_all keys f t).
Proof.
  intros Hu Hf. revert t Hu. induction keys as [|i keys IH]; intros t Hu; [done |].
  apply IH, unique_update; [done | by auto].
Qed.

Lemma StronglySorted_lt_NoDup (l : list Z) : StronglySorted Z.lt l -> NoDup l.
Proof.
  induction 1 as [|x l Hs IH Hx]; constructor; [|done].
  intros Hin. rewrite Forall_forall in Hx. specialize (Hx x Hin). lia.
Qed.

Lemma sorted_filter (q : Z * R -> bool) (l : list (Z * R)) :
  StronglySorted Z.lt (map fst l) -> StronglySorted Z.lt (map fst (List.filter q l)).
Proof.
  induction l as [|x l IH]; simpl; [done |]. intros [Hs Hx]%StronglySorted_inv.
  destruct (q x); [|by apply IH]. simpl. constructor; [by apply IH |].
  rewrite Forall_forall in *. intros y (z & -> & Hz)%list_elem_of_fmap. apply Hx.
  apply list_elem_of_fmap. exists z. split; [done |].
  apply list_elem_of_In in Hz. apply List.filter_In in Hz as [Hz _]. by apply list_elem_of_In.
Qed.

Lemma select_sorted p t : wf_table t -> StronglySorted Z.lt (map fst (select p t)).
Proof. intros [Hs _]. by apply sorted_filter. Qed.

Lemma select_for_update_NoDup locked p n t :
  wf_table t -> NoDup (map fst (select_for_update locked p n t)).
Proof.
  intros Hwf. unfold select_for_update. set (l := List.filter _ _).
  assert (NoDup (map fst l)) as Hnd by (by apply StronglySorted_lt_NoDup, sorted_filter, select_sorted).
  rewrite <- (take_drop n l), map_app in Hnd. apply NoDup_app in Hnd as [Hnd _]. exact Hnd.
Qed.

Lemma select_for_update_spec locked p n t i r :
  wf_table t -> (i, r) ∈ select_for_update locked p n t ->
  get i t = Some r /\ p r = true /\ locked i = false.
Proof.
  intros Hwf Hin. eapply elem_of_sublist in Hin; [|apply sublist_take].
  apply list_elem_of_In, List.filter_In in Hin as [Hin Hl]. apply negb_true_iff in Hl.
  by apply select_spec in Hin as [? ?].
Qed.

(** Nothing is left over when fewer rows than the limit were taken. *)
Lemma select_for_update_complete locked p n t i r :
  wf_table t -> get i t = Some r -> p r = true -> locked i = false ->
  (length (select_for_update locked p n t) < n)%nat -> (i, r) ∈ select_for_update locked p n t.
Proof.
  intros Hwf Hg Hp Hl Hlen. unfold select_for_update in *. rewrite length_take in Hlen.
  rewrite take_ge by lia. apply list_elem_of_In, List.filter_In. split; [by apply select_spec |].
  simpl. by rewrite Hl.
Qed.

(** The row found stays the one found when it is changed, or inserted. *)
Lemma scalar_update p i r f t :
  wf_table t -> scalar p t = Some (i, r) -> p (f r) = true -> scalar p (update i f t) = Some (i, f r).
Proof.
  intros [Hs _] H Hp. unfold scalar, select, update, ids in *. simpl.
  induction (rows t) as [|[j s] l IH]; simpl in *; [done |].
  apply StronglySorted_inv in Hs as [Hs Hlt]. destruct (p s) eqn:E; simpl in H.
  - injection H as -> ->. rewrite Z.eqb_refl, Hp. done.
  - destruct (Z.eqb_spec i j) as [->|].
    + exfalso. destruct (List.filter _ l) as [|x l'] eqn:Ef; [done |]. simpl in H. injection H as ->.
      assert (In (j, r) l) as Hin by (eapply proj1, List.filter_In; rewrite Ef; by left).
      rewrite Forall_forall in Hlt. enough (j < j) by lia. apply Hlt, list_elem_of_fmap.
      exists (j, r). split; [done | by apply list_elem_of_In].
    + rewrite E. by apply IH.
Qed.

Lemma scalar_insert p r t :
  scalar p t = None -> p r = true -> scalar p (insert r t).2 = Some (next_id t, r).
Proof.
  unfold scalar, select, insert. simpl. intros H Hp. rewrite List.filter_app. simpl. rewrite Hp.
  by destruct (List.filter _ (rows t)).
Qed.

(** [insert_or_nothing] by cases. *)
Lemma insert_or_nothing_cases taken r t :
  wf_table t ->
  (exists i s, scalar taken t = Some (i, s) /\
     insert_or_nothing taken r t = (None, Table (rows t) (next_id t + 1))) \/
  (every (fun _ s => taken s = false) t /\
     insert_or_nothing taken r t = (Some (next_id t), (insert r t).2)).
Proof.
  intros Hwf. unfold insert_or_nothing. destruct (scalar taken t) as [[i s]|] eqn:E.
  - left. by eexists _, _.
  - right. split; [by apply scalar_None | done].
Qed.

Lemma unique_empty {K} (f : R -> option K) : unique f (empty_table R).
Proof. intros ????? H. done. Qed.

Lemma every_empty (P : Z -> R -> Prop) : every P (empty_table R).
Proof. intros ?? H. done. Qed.
End TableLemmas.

#[export] Hint Resolve wf_update wf_insert wf_burn wf_empty unique_empty every_empty : py.
