(* ===== verification/Contracts.v ===== *)
(** * Event contracts (libs/contracts/events.py)

    The versioned notification events with the checks their schema declares: a
    constructor that validates returns [Raise ValidationError] when one fails.
    Timestamps are UTC instants; [_require_utc] is the reading of an aware one. *)

From S2P Require Import Prelude.

Module Events.

Definition EVENT_NOTIFICATION_DELIVERY_REQUESTED_V1 : string := "notification.delivery_requested.v1".
Definition EVENT_NOTIFICATION_DELIVERY_DEAD_LETTERED_V1 : string := "notification.delivery_dead_lettered.v1".
Definition TOPIC_NOTIFICATION_DELIVERY_REQUESTS_V1 : string := "notifications.delivery.requests.v1".
Definition TOPIC_NOTIFICATION_DELIVERY_DLQ_V1 : string := "notifications.delivery.dlq.v1".

Inductive NotificationChannel := slack | telegram | webhook | email.

#[global] Instance channel_eq_dec : EqDecision NotificationChannel.
Proof. solve_decision. Defined.

Definition channel_name (c : NotificationChannel) : string :=
  match c with slack => "slack" | telegram => "telegram" | webhook => "webhook" | email => "email" end.

Definition NotificationTriggerType : list string := ["availability"; "latency"; "drift"].

Inductive NotificationErrorCategory :=
| malformed | configuration | unsupported | transport | rate_limit | provider | unknown.

Definition category_name (c : NotificationErrorCategory) : string :=
  match c with
  | malformed => "malformed" | configuration => "configuration" | unsupported => "unsupported"
  | transport => "transport" | rate_limit => "rate_limit" | provider => "provider"
  | unknown => "unknown"
  end.

(** [datetime] with or without an offset from UTC, both in microseconds. *)
Record stamp := Stamp { wall : Z; utcoffset : option Z }.

Inductive ValidationError := validation_error.

Definition _require_utc (v : stamp) : result ValidationError datetime :=
  match utcoffset v with
  | None => Raise validation_error
  | Some off => Ok (wall v - off)
  end.

(** [_aware_utc] of core/utils.py. *)
Definition _aware_utc (v : stamp) : stamp :=
  match utcoffset v with
  | None => Stamp (wall v) (Some 0)
  | Some off => Stamp (wall v - off) (Some 0)
  end.

Record NotificationDeliveryRequestedPayloadV1 := RequestedPayload {
  incident_id : Z;
  source_id : Z;
  tenant_id : option Z;
  severity : string;
  summary : string;
  trigger_type : string;
  occurrence_count : Z;
  guidance : string;
  channels : list NotificationChannel
}.

Record NotificationDeliveryRequestedV1 := Requested {
  message_id : string;
  occurred_at : datetime;
  payload : NotificationDeliveryRequestedPayloadV1
}.

Definition length_between (lo hi : Z) (s : string) : bool :=
  (lo <=? Z.of_nat (String.length s)) && (Z.of_nat (String.length s) <=? hi).

Definition tenant_ok (t : option Z) : bool :=
  match t with None => true | Some t => 1 <=? t end.

Definition channels_are_unique (l : list NotificationChannel) : bool := bool_decide (NoDup l).

Definition valid_requested_payload (p : NotificationDeliveryRequestedPayloadV1) : bool :=
  (1 <=? incident_id p) && (1 <=? source_id p) && tenant_ok (tenant_id p) &&
  length_between 1 32 (severity p) && length_between 1 1024 (summary p) &&
  bool_decide (trigger_type p ∈ NotificationTriggerType) && (1 <=? occurrence_count p) &&
  length_between 1 2048 (guidance p) &&
  ((1 <=? Z.of_nat (length (channels p))) && (Z.of_nat (length (channels p)) <=? 4)) &&
  channels_are_unique (channels p).

Definition valid_requested (e : NotificationDeliveryRequestedV1) : bool :=
  valid_requested_payload (payload e) && length_between 1 255 (message_id e).

Definition make_requested (message : string) (at_ : stamp)
    (p : NotificationDeliveryRequestedPayloadV1) : result ValidationError NotificationDeliveryRequestedV1 :=
  if valid_requested_payload p && length_between 1 255 message then
    bind_result (_require_utc at_) (fun t => Ok (Requested message t p))
  else Raise validation_error.

Record NotificationDeliveryDeadLetteredPayloadV1 := DeadLetteredPayload {
  delivery_id : Z;
  request_message_id : string;
  dead_incident_id : Z;
  dead_source_id : Z;
  dead_tenant_id : option Z;
  channel : NotificationChannel;
  attempt_count : Z;
  error_category : NotificationErrorCategory;
  error_code : option string;
  first_attempt_at : datetime;
  last_attempt_at : datetime
}.

Record NotificationDeliveryDeadLetteredV1 := DeadLettered {
  dead_message_id : string;
  dead_occurred_at : datetime;
  dead_payload : NotificationDeliveryDeadLetteredPayloadV1
}.

Definition attempt_timestamps_are_ordered (p : NotificationDeliveryDeadLetteredPayloadV1) : bool :=
  first_attempt_at p <=? last_attempt_at p.

Definition valid_dead_payload (p : NotificationDeliveryDeadLetteredPayloadV1) : bool :=
  (1 <=? delivery_id p) && length_between 1 255 (request_message_id p) &&
  (1 <=? dead_incident_id p) && (1 <=? dead_source_id p) && tenant_ok (dead_tenant_id p) &&
  ((1 <=? attempt_count p) && (attempt_count p <=? 3)) &&
  match error_code p with None => true | Some c => length_between 0 64 c end &&
  attempt_timestamps_are_ordered p.

Definition make_dead_lettered (message : string) (at_ : datetime)
    (p : NotificationDeliveryDeadLetteredPayloadV1)
    : result ValidationError NotificationDeliveryDeadLetteredV1 :=
  if valid_dead_payload p && length_between 1 255 message then Ok (DeadLettered message at_ p)
  else Raise validation_error.

End Events.
