(* ===== verification/Incidents.v ===== *)
(** * Dependency incidents (repositories/incidents.py, api/routes/incidents.py)

    The incident table, the operations that open, deduplicate, acknowledge and
    resolve incidents, the health policy that drives them and the endpoints with
    their tenant scope.  [now] is the reading of [_utcnow]; [format_g] is the
    formatting of a float in a summary.  A transition names its incident by
    primary key, as the code shares the ORM object.

    An operation here is its read and its write with no other commit in between.
    The code takes no lock, so two of them can overlap: [IncidentRaces.v] has the
    read and the write apart, shows that they compose to the operations of this file
    when nothing intervenes, and what holds when something does. *)

From S2P Require Import Prelude Db.

Module Incidents.

Inductive status := open | acknowledged | resolved.

#[global] Instance status_eq_dec : EqDecision status.
Proof. solve_decision. Defined.

Definition ACTIVE_INCIDENT_STATUSES : list status := [open; acknowledged].

Record SourceProfile := Source {
  source_pk : Z;
  source_name : string;
  source_tenant_id : option Z;
  latency_threshold_ms : option Q;
  incident_failure_threshold : Z;
  incident_cooldown_seconds : Z
}.

Record ProviderHealthSample := Sample {
  sample_source_id : Z;
  sampled_at : datetime;
  latency_ms : Q;
  is_success : bool;
  http_status : option Z;
  error_message : option string
}.

Record DependencyIncident := Incident {
  source_id : Z;
  tenant_id : option Z;
  trigger_type : string;
  fingerprint : string;
  active_key : option string;
  incident_status : status;
  severity : string;
  summary : string;
  guidance : string;
  trigger_details : json;
  occurrence_count : Z;
  first_seen_at : datetime;
  last_seen_at : datetime;
  acknowledged_at : option datetime;
  acknowledged_by : option string;
  resolved_at : option datetime;
  resolved_by : option string;
  last_notification_at : option datetime
}.

Record IncidentTransition := Transition {
  incident : Z;
  transition : string;
  should_notify : bool
}.

(** The tenant scope, source and trigger joined with colons. *)
Definition key_of (tenant : option Z) (source : Z) (trigger : string) : string :=
  let tenant_scope := match tenant with Some t => str_of_Z t | None => "global" end in
  tenant_scope +:+ String ":" (str_of_Z source +:+ String ":" trigger).

Definition _fingerprint (source : SourceProfile) (trigger_type : string) : string :=
  key_of (source_tenant_id source) (source_pk source) trigger_type.

Definition _guidance (trigger_type : string) : string :=
  if decide (trigger_type = "availability") then
    "Confirm the failure from an independent request, inspect status/error and dependency traces, pause risky retries, then verify consecutive recovery probes."
  else if decide (trigger_type = "latency") then
    "Compare dependency latency with application and database spans, check saturation and timeout budgets, then verify recovery below the configured threshold."
  else
    "Review removed and type-changed fields, compare the provider contract, identify affected consumers, and use a compatibility or rollback plan before resolving.".

Definition _notification_due (now : datetime) (i : DependencyIncident) (cooldown : Z) : bool :=
  match last_notification_at i with
  | None => true
  | Some t => seconds cooldown <=? now - t
  end.

Definition has_active_key (fp : string) (i : DependencyIncident) : bool :=
  bool_decide (active_key i = Some fp).

(** The updates of one row. *)
Definition deduplicate (now : datetime) (sev summ : string) (details : json)
    (i : DependencyIncident) : DependencyIncident :=
  Incident (source_id i) (tenant_id i) (trigger_type i) (fingerprint i) (active_key i)
    (incident_status i) sev summ (guidance i) details (occurrence_count i + 1)
    (first_seen_at i) now (acknowledged_at i) (acknowledged_by i) (resolved_at i)
    (resolved_by i) (last_notification_at i).

(** [seen] is the new [last_seen_at], which only a recovery changes. *)
Definition set_resolved (now : datetime) (seen : option datetime) (actor : string)
    (i : DependencyIncident) : DependencyIncident :=
  Incident (source_id i) (tenant_id i) (trigger_type i) (fingerprint i) None
    resolved (severity i) (summary i) (guidance i) (trigger_details i) (occurrence_count i)
    (first_seen_at i) (or_else seen (last_seen_at i)) (acknowledged_at i) (acknowledged_by i)
    (Some now) (Some actor) (last_notification_at i).

Definition set_acknowledged (now : datetime) (actor : string)
    (i : DependencyIncident) : DependencyIncident :=
  Incident (source_id i) (tenant_id i) (trigger_type i) (fingerprint i) (active_key i)
    acknowledged (severity i) (summary i) (guidance i) (trigger_details i)
    (occurrence_count i) (first_seen_at i) (last_seen_at i) (Some now) (Some actor)
    (resolved_at i) (resolved_by i) (last_notification_at i).

Definition set_notified (t : datetime) (i : DependencyIncident) : DependencyIncident :=
  Incident (source_id i) (tenant_id i) (trigger_type i) (fingerprint i) (active_key i)
    (incident_status i) (severity i) (summary i) (guidance i) (trigger_details i)
    (occurrence_count i) (first_seen_at i) (last_seen_at i) (acknowledged_at i)
    (acknowledged_by i) (resolved_at i) (resolved_by i) (Some t).

Definition incidents := table DependencyIncident.

Definition open_or_update_incident (now : datetime) (source : SourceProfile)
    (trigger sev summ : string) (details : json) (t : incidents)
    : result IntegrityError (IncidentTransition * incidents) :=
  let fp := _fingerprint source trigger in
  match scalar (has_active_key fp) t with
  | None =>
      let row := Incident (source_pk source) (source_tenant_id source) trigger fp (Some fp)
        open sev summ (_guidance trigger) details 1 now now None None None None None in
      bind_result (insert_unique (has_active_key fp) row t) (fun '(i, t) =>
        Ok (Transition i "opened" true, t))
  | Some (i, row) =>
      let row := deduplicate now sev summ details row in
      Ok (Transition i "deduplicated" (_notification_due now row (incident_cooldown_seconds source)),
          update i (deduplicate now sev summ details) t)
  end.

Definition resolve_active_incident (now : datetime) (source : SourceProfile)
    (trigger actor : string) (t : incidents) : option IncidentTransition * incidents :=
  match scalar (has_active_key (_fingerprint source trigger)) t with
  | None => (None, t)
  | Some (i, _) =>
      (Some (Transition i "resolved" false), update i (set_resolved now (Some now) actor) t)
  end.

Section Reconcile.
Context (format_g : Q -> string) (now : datetime) (source : SourceProfile)
        (sample_id : Z) (sample : ProviderHealthSample).

Definition newest_first (x y : Z * ProviderHealthSample) : bool := sampled_at y.2 <=? sampled_at x.2.

(** The newest samples of the source, [threshold] of them at most. *)
Definition recent (samples : table ProviderHealthSample) : list ProviderHealthSample :=
  take (Z.to_nat (incident_failure_threshold source))
    (map snd (order_by newest_first
      (select (fun s => sample_source_id s =? source_pk source) samples))).

Definition consecutive_failures (rec : list ProviderHealthSample) : bool :=
  (incident_failure_threshold source <=? Z.of_nat (length rec)) &&
  forallb (fun s => negb (is_success s)) rec.

Definition consecutive_slow (limit : Q) (rec : list ProviderHealthSample) : bool :=
  (incident_failure_threshold source <=? Z.of_nat (length rec)) &&
  forallb (fun s => is_success s && Qle_bool limit (latency_ms s)) rec.

Definition availability_summary : string :=
  str_of_Z (incident_failure_threshold source) +:+ " consecutive probes failed for " +:+
  source_name source +:+ ".".

Definition latency_summary (limit : Q) : string :=
  str_of_Z (incident_failure_threshold source) +:+ " consecutive probes for " +:+
  source_name source +:+ " exceeded " +:+ format_g limit +:+ " ms.".

Definition recover (trigger : string) (t : incidents) : list IncidentTransition * incidents :=
  let '(tr, t) := resolve_active_incident now source trigger "health-probe-recovery" t in
  (option_list tr, t).

Definition reconcile_availability (rec : list ProviderHealthSample) (t : incidents)
    : result IntegrityError (list IncidentTransition * incidents) :=
  if consecutive_failures rec then
    bind_result (open_or_update_incident now source "availability" "critical" availability_summary
      (JObj [("latest_sample_id", JInt sample_id);
             ("http_status", json_opt JInt (http_status sample));
             ("error_message", json_opt JStr (error_message sample));
             ("threshold", JInt (incident_failure_threshold source))]) t)
      (fun '(tr, t) => Ok ([tr], t))
  else if is_success sample then Ok (recover "availability" t)
  else Ok ([], t).

Definition reconcile_latency (rec : list ProviderHealthSample) (t : incidents)
    : result IntegrityError (list IncidentTransition * incidents) :=
  match latency_threshold_ms source with
  | None => Ok ([], t)
  | Some limit =>
      if consecutive_slow limit rec then
        bind_result (open_or_update_incident now source "latency" "warning" (latency_summary limit)
          (JObj [("latest_sample_id", JInt sample_id); ("latency_ms", JFloat (latency_ms sample));
                 ("threshold_ms", JFloat limit);
                 ("consecutive_threshold", JInt (incident_failure_threshold source))]) t)
          (fun '(tr, t) => Ok ([tr], t))
      else if is_success sample && Qltb (latency_ms sample) limit then Ok (recover "latency" t)
      else Ok ([], t)
  end.

Definition reconcile_health_incidents (samples : table ProviderHealthSample) (t : incidents)
    : result IntegrityError (list IncidentTransition * incidents) :=
  let rec := recent samples in
  bind_result (reconcile_availability rec t) (fun '(trs, t) =>
  bind_result (reconcile_latency rec t) (fun '(trs', t) => Ok (trs ++ trs', t))).

End Reconcile.

(** ** Queries *)

Definition newest_seen (x y : Z * DependencyIncident) : bool := last_seen_at y.2 <=? last_seen_at x.2.

Definition in_scope (tenant : option Z) (admin : bool) (i : DependencyIncident) : bool :=
  admin || bool_decide (tenant_id i = tenant).

Definition matches {A} `{EqDecision A} (filter : option A) (value : A) : bool :=
  match filter with None => true | Some a => bool_decide (value = a) end.

Definition list_incidents (tenant : option Z) (admin : bool) (st : option status)
    (src : option Z) (offset limit : nat) (t : incidents)
    : list (Z * DependencyIncident) * nat :=
  let base := select (fun i => in_scope tenant admin i && matches st (incident_status i) &&
                               matches src (source_id i)) t in
  (take limit (drop offset (order_by newest_seen base)), length base).

Definition get_incident (i : Z) (tenant : option Z) (admin : bool) (t : incidents)
    : option DependencyIncident :=
  match get i t with
  | Some row => if in_scope tenant admin row then Some row else None
  | None => None
  end.

Inductive ValueError := value_error (message : string).

Definition acknowledge_incident (now : datetime) (actor : string) (i : Z)
    (row : DependencyIncident) (t : incidents) : result ValueError incidents :=
  if decide (incident_status row = open) then Ok (update i (set_acknowledged now actor) t)
  else Raise (value_error "Only an open incident can be acknowledged.").

Definition resolve_incident (now : datetime) (actor : string) (i : Z)
    (row : DependencyIncident) (t : incidents) : result ValueError incidents :=
  if decide (incident_status row ∈ ACTIVE_INCIDENT_STATUSES)
  then Ok (update i (set_resolved now None actor) t)
  else Raise (value_error "Only an active incident can be resolved.").

Definition mark_notification_attempted (now : datetime) (i : Z) (t : incidents) : incidents :=
  update i (set_notified now) t.

(** ** Endpoints *)

Inductive HTTPException := HTTP (code : Z) (detail : string).

Record claims := Claims { sub : option string; claim_tenant_id : option Z }.

Section Routes.
(** [enforcer.get_roles_for_user_in_domain] of the Casbin policy. *)
Context (get_roles_for_user_in_domain : string -> string -> list string).

Definition _roles (c : claims) : list string :=
  let domain := match claim_tenant_id c with Some t => str_of_Z t | None => "*" end in
  get_roles_for_user_in_domain (or_else (sub c) EmptyString) domain.

Definition _scope (c : claims) : result HTTPException (option Z * bool) :=
  let admin := bool_decide ("admin" ∈ _roles c) in
  match claim_tenant_id c with
  | None => if admin then Ok (None, true)
            else Raise (HTTP 403 "A tenant-scoped identity is required.")
  | Some t => Ok (Some t, admin)
  end.

Definition _actor (c : claims) : string :=
  match sub c with
  | Some s => if str_truthy s then s else "unknown"
  | None => "unknown"
  end.

Definition get_incidents (c : claims) (st : option status) (src : option Z)
    (offset limit : nat) (t : incidents)
    : result HTTPException (list (Z * DependencyIncident) * nat) :=
  bind_result (_scope c) (fun '(tenant, admin) =>
    Ok (list_incidents tenant admin st src offset limit t)).

Definition get_incident_by_id (i : Z) (c : claims) (t : incidents)
    : result HTTPException DependencyIncident :=
  bind_result (_scope c) (fun '(tenant, admin) =>
  match get_incident i tenant admin t with
  | None => Raise (HTTP 404 "Incident not found.")
  | Some row => Ok row
  end).

(** [acknowledge_incident_by_id] and [resolve_incident_by_id] differ in the
    transition they apply. *)
Definition transition_by_id (apply : Z -> DependencyIncident -> incidents -> result ValueError incidents)
    (i : Z) (c : claims) (t : incidents) : result HTTPException (option DependencyIncident * incidents) :=
  bind_result (_scope c) (fun '(tenant, admin) =>
  match get_incident i tenant admin t with
  | None => Raise (HTTP 404 "Incident not found.")
  | Some row =>
      match apply i row t with
      | Raise (value_error message) => Raise (HTTP 409 message)
      | Ok t => Ok (get i t, t)
      end
  end).

Definition acknowledge_incident_by_id (now : datetime) (i : Z) (c : claims) (t : incidents) :=
  transition_by_id (acknowledge_incident now (_actor c)) i c t.

Definition resolve_incident_by_id (now : datetime) (i : Z) (c : claims) (t : incidents) :=
  transition_by_id (resolve_incident now (_actor c)) i c t.

End Routes.

(** ** Steps: every way the code changes the table, one transaction after another *)

Inductive step : incidents -> incidents -> Prop :=
| step_open now source trigger sev summ details t tr t' :
    open_or_update_incident now source trigger sev summ details t = Ok (tr, t') -> step t t'
| step_recover now source trigger actor t :
    step t (snd (resolve_active_incident now source trigger actor t))
| step_acknowledge now actor i row t t' :
    get i t = Some row -> acknowledge_incident now actor i row t = Ok t' -> step t t'
| step_resolve now actor i row t t' :
    get i t = Some row -> resolve_incident now actor i row t = Ok t' -> step t t'
| step_notified now i t : step t (mark_notification_attempted now i t).

Definition is_active (s : status) : bool := bool_decide (s ∈ ACTIVE_INCIDENT_STATUSES).

(** The invariant of one row: the active key is the fingerprint while the
    incident is active and absent afterwards. *)
Record wf_incident (i : DependencyIncident) : Prop := {
  wf_fingerprint : fingerprint i = key_of (tenant_id i) (source_id i) (trigger_type i);
  wf_active_key : active_key i = if is_active (incident_status i) then Some (fingerprint i) else None;
  wf_count : 1 <= occurrence_count i;
  wf_resolved : is_Some (resolved_at i) <-> incident_status i = resolved
}.

Record wf (t : incidents) : Prop := {
  wf_keys : wf_table t;
  wf_rows : every (fun _ => wf_incident) t;
  wf_active : unique active_key t
}.

(** The active incident of a tenant scope, source and trigger. *)
Definition active (source : SourceProfile) (trigger : string) (t : incidents) : bool :=
  match scalar (has_active_key (_fingerprint source trigger)) t with Some _ => true | None => false end.

End Incidents.

(** ** Theorems *)

Module IncidentTheorems.
Import Incidents.

Lemma scope_no_colon (tenant : option Z) :
  no_colon (match tenant with Some t => str_of_Z t | None => "global" end) = true.
Proof. destruct tenant; [apply str_of_Z_no_colon | done]. Qed.

Lemma str_of_Z_not_global z : str_of_Z z <> "global".
Proof.
  intros H. assert (forall x s, (exists c s', s = String c s' /\ c <> "g"%char) \/ (0 < x)%N ->
    exists c s', pretty_N_go x s = String c s' /\ c <> "g"%char) as Hgo.
  { intros x. induction (N.lt_wf_0 x) as [x _ IH]; intros s Hs.
    assert (x = 0 \/ 0 < x)%N as [->|Hx] by lia; [destruct Hs as [|]; [done | lia] |].
    rewrite pretty_N_go_step by done. apply IH; [by apply N.div_lt |].
    left. eexists _, _. split; [done |]. unfold pretty_N_char. by repeat case_match. }
  destruct z as [|p|p]; [done | |done].
  unfold str_of_Z, pretty, pretty_Z, pretty, pretty_positive, pretty, pretty_N in H.
  case_decide; [done |].
  destruct (Hgo (N.pos p) "") as (c & s' & E & Hc); [right; lia |].
  rewrite E in H. simplify_eq.
Qed.

(** The deduplication key determines the tenant scope, the source and the
    trigger: two scopes never share an incident. *)
Theorem fingerprint_injective (t1 t2 : option Z) (s1 s2 : Z) (g1 g2 : string) :
  key_of t1 s1 g1 = key_of t2 s2 g2 <-> t1 = t2 /\ s1 = s2 /\ g1 = g2.
Proof.
  split; [|by intros (-> & -> & ->)]. unfold key_of. intros H.
  apply colon_split in H as [Ht H]; [|apply scope_no_colon..].
  apply colon_split in H as [Hs ->]; [|apply str_of_Z_no_colon..].
  apply str_of_Z_inj in Hs as ->. repeat split.
  destruct t1 as [t1|], t2 as [t2|]; [by apply str_of_Z_inj in Ht as -> | | |done].
  - by apply str_of_Z_not_global in Ht.
  - symmetry in Ht. by apply str_of_Z_not_global in Ht.
Qed.

Lemma wf_no_incidents : wf (empty_table _).
Proof. split; auto with py. Qed.

Lemma active_row source trigger t i row :
  wf t -> scalar (has_active_key (_fingerprint source trigger)) t = Some (i, row) ->
  get i t = Some row /\ active_key row = Some (_fingerprint source trigger) /\
  wf_incident row /\ is_active (incident_status row) = true.
Proof.
  intros [Hk Hr _] H. apply scalar_Some in H as [Hg H]; [|done].
  unfold has_active_key in H. bool_to_prop. pose proof (Hr _ _ Hg) as Hrow.
  repeat split; try done; try apply Hrow.
  pose proof (wf_active_key _ Hrow) as Ha. rewrite H in Ha.
  by destruct (is_active (incident_status row)).
Qed.

(** A well-formed table is kept by any update that keeps rows well formed and
    does not take a key. *)
Lemma wf_update_row i f t :
  wf t -> (forall r, get i t = Some r -> wf_incident r -> wf_incident (f r)) ->
  (forall r, get i t = Some r -> active_key (f r) = active_key r \/ active_key (f r) = None) ->
  wf (update i f t).
Proof.
  intros [Hk Hr Hu] Hf Ha. split; [by apply wf_update | by apply every_update | by apply unique_update].
Qed.

Lemma wf_deduplicate now sev summ d r : wf_incident r -> wf_incident (deduplicate now sev summ d r).
Proof. intros [? ? ? ?]. split; simpl; [done.. | lia | done]. Qed.

Lemma wf_set_resolved now seen actor r : wf_incident r -> wf_incident (set_resolved now seen actor r).
Proof. intros [? ? ? ?]. split; simpl; try done. Qed.

Lemma wf_set_acknowledged now actor r :
  incident_status r = open -> wf_incident r -> wf_incident (set_acknowledged now actor r).
Proof.
  intros Ho [? Ha ? Hr]. split; simpl; try done.
  - by rewrite Ha, Ho.
  - rewrite Hr, Ho. done.
Qed.

Lemma wf_set_notified now r : wf_incident r -> wf_incident (set_notified now r).
Proof. intros [? ? ? ?]. by split. Qed.

(** Opening inserts only when no active row has the key, so the unique index is
    never violated. *)
Lemma open_or_update_total now source trigger sev summ d t :
  wf t -> exists tr t', open_or_update_incident now source trigger sev summ d t = Ok (tr, t') /\
    wf t' /\ is_Some (scalar (has_active_key (_fingerprint source trigger)) t').
Proof.
  intros Hwf. unfold open_or_update_incident, insert_unique.
  destruct (scalar _ t) as [[i row]|] eqn:E; simpl.
  - eexists _, _. split; [done |].
    destruct (active_row _ _ _ _ _ Hwf E) as (Hg & Hk & _).
    assert (wf (update i (deduplicate now sev summ d) t)) as Hwf'.
    { apply wf_update_row; [done | by intros; apply wf_deduplicate | by left]. }
    split; [done |].
    eexists. apply (scalar_unique active_key); [apply Hwf' | apply Hwf' | |].
    + by rewrite get_update, Z.eqb_refl, Hg.
    + done.
  - eexists _, _. split; [done |]. destruct Hwf as [Hk Hr Hu].
    set (row := Incident _ _ _ _ _ _ _ _ _ _ _ _ _ _ _ _ _ _).
    change (Table _ _) with (insert row t).2.
    assert (wf (insert row t).2) as Hwf'.
    { split; [by apply wf_insert | |].
      - apply every_insert; [done.. |]. split; simpl; try done.
      - apply unique_insert; [done.. |]. simpl. intros k [= <-] i r Hg He.
        pose proof (proj1 (scalar_None _ _ Hk) E i r Hg) as Hn. simpl in Hn.
        unfold has_active_key in Hn. bool_to_prop. done. }
    split; [done |]. eexists. apply (scalar_unique active_key _ _ (next_id t) row); [apply Hwf' | apply Hwf' | |done].
    by rewrite get_insert, Z.eqb_refl by done.
Qed.

Lemma resolve_active_wf now source trigger actor t :
  wf t -> wf (resolve_active_incident now source trigger actor t).2 /\
  scalar (has_active_key (_fingerprint source trigger))
    (resolve_active_incident now source trigger actor t).2 = None.
Proof.
  intros Hwf. unfold resolve_active_incident.
  destruct (scalar _ t) as [[i row]|] eqn:E; [|done]. simpl.
  destruct (active_row _ _ _ _ _ Hwf E) as (Hg & Hk & _).
  split.
  - apply wf_update_row; [done | by intros; apply wf_set_resolved | by right].
  - apply scalar_None; [apply wf_update, Hwf |]. intros j r.
    rewrite get_update. unfold has_active_key.
    destruct (Z.eqb_spec i j) as [->|Hne].
    + rewrite Hg. intros [= <-]. done.
    + intros Hj. apply bool_decide_eq_false. intros Hkj.
      apply Hne. eapply (wf_active _ Hwf i j row r); done.
Qed.

Lemma incident_step_wf t t' : wf t -> step t t' -> wf t'.
Proof.
  intros Hwf Hs. destruct Hs as [now source trigger sev summ d t tr t' H|now source trigger actor t
    |now actor i row t t' Hg H|now actor i row t t' Hg H|now i t].
  - destruct (open_or_update_total now source trigger sev summ d t Hwf) as (? & ? & E & ? & _).
    congruence.
  - by apply resolve_active_wf.
  - unfold acknowledge_incident in H. case_decide; simplify_eq.
    apply wf_update_row; [done | |by left]. intros r Hr. simplify_eq.
    by apply wf_set_acknowledged.
  - unfold resolve_incident in H. case_decide; simplify_eq.
    apply wf_update_row; [done | by intros; apply wf_set_resolved | by right].
  - apply wf_update_row; [done | by intros; apply wf_set_notified | by left].
Qed.

Lemma incident_reachable_wf t : rtc step (empty_table _) t -> wf t.
Proof.
  intros H. cut (forall a b, rtc step a b -> wf a -> wf b).
  { intros Hc. apply (Hc _ _ H), wf_no_incidents. }
  clear. induction 1 as [|a b c Hs _ IH]; [done |]. intros Ha. by eapply IH, incident_step_wf.
Qed.

(** What one step does to an existing incident. *)
Inductive row_step : DependencyIncident -> DependencyIncident -> Prop :=
| row_deduplicated now sev summ d r :
    is_active (incident_status r) = true -> row_step r (deduplicate now sev summ d r)
| row_acknowledged now actor r :
    incident_status r = open -> row_step r (set_acknowledged now actor r)
| row_resolved now seen actor r :
    is_active (incident_status r) = true -> row_step r (set_resolved now seen actor r)
| row_notified now r : row_step r (set_notified now r).

Lemma step_row t t' i r :
  wf t -> step t t' -> get i t = Some r ->
  exists r', get i t' = Some r' /\ (r' = r \/ row_step r r').
Proof.
  intros Hwf Hs Hg.
  assert (forall j row f, get j t = Some row -> row_step row (f row) ->
    exists r', get i (update j f t) = Some r' /\ (r' = r \/ row_step r r')) as Hup.
  { intros j row f Hj Hf. rewrite get_update. destruct (Z.eqb_spec j i) as [->|]; [|exists r; auto].
    assert (row = r) as -> by congruence. rewrite Hg. eexists. split; [done | by right]. }
  destruct Hs as [now source trigger sev summ d t tr t2 H|now source trigger actor t
    |now actor j row t t2 Hj H|now actor j row t t2 Hj H|now j t].
  - unfold open_or_update_incident, insert_unique in H.
    destruct (scalar _ t) as [[j row]|] eqn:E; simpl in H; simplify_eq.
    + destruct (active_row _ _ _ _ _ Hwf E) as (Hj & _ & _ & Hact). apply (Hup j row); [done |].
      by constructor.
    + exists r. set (new := Incident _ _ _ _ _ _ _ _ _ _ _ _ _ _ _ _ _ _).
      change (Table _ _) with (insert new t).2. rewrite get_insert by apply Hwf.
      apply get_lt in Hg as Hlt; [|apply Hwf]. destruct (Z.eqb_spec i (next_id t)); [lia | auto].
  - unfold resolve_active_incident. destruct (scalar _ t) as [[j row]|] eqn:E; simpl; [|exists r; auto].
    destruct (active_row _ _ _ _ _ Hwf E) as (Hj & _ & _ & Hact). apply (Hup j row); [done |].
    by constructor.
  - unfold acknowledge_incident in H. case_decide as Ho; simplify_eq.
    apply (Hup j row); [done | by constructor].
  - unfold resolve_incident in H. case_decide as Ho; simplify_eq.
    apply (Hup j row); [done |]. constructor. by apply bool_decide_eq_true.
  - unfold mark_notification_attempted. rewrite get_update.
    destruct (j =? i); [|exists r; auto]. rewrite Hg. eexists. split; [done |]. right. constructor.
Qed.

(** Open, then acknowledged, then resolved. *)
Definition rank (s : status) : Z :=
  match s with open => 0 | acknowledged => 1 | resolved => 2 end.

Lemma row_step_forward r r' :
  row_step r r' ->
  rank (incident_status r) <= rank (incident_status r') /\
  occurrence_count r <= occurrence_count r' /\ fingerprint r' = fingerprint r /\
  (incident_status r = resolved -> incident_status r' = resolved /\
     resolved_at r' = resolved_at r /\ resolved_by r' = resolved_by r /\
     occurrence_count r' = occurrence_count r).
Proof.
  intros Hs. destruct Hs as [now sev summ d r H|now actor r H|now seen actor r H|now r]; simpl.
  - do 2 (split; [lia |]). split; [done |]. intros Hr. by rewrite Hr in H.
  - rewrite H. do 2 (split; [simpl; lia |]). by split.
  - split; [destruct (incident_status r); simpl; lia |]. split; [lia |]. split; [done |].
    intros Hr. by rewrite Hr in H.
  - do 2 (split; [lia |]). by split.
Qed.

(** While no transactions overlap, incidents are never lost and only move forward: from open to acknowledged
    to resolved, never back; their occurrences only grow, and a resolved incident
    is final: no operation reopens it, changes who resolved it or counts another
    occurrence of it. *)
Theorem incident_lifecycle t t' i r :
  wf t -> rtc step t t' -> get i t = Some r ->
  exists r', get i t' = Some r' /\
    rank (incident_status r) <= rank (incident_status r') /\
    occurrence_count r <= occurrence_count r' /\ fingerprint r' = fingerprint r /\
    (incident_status r = resolved -> incident_status r' = resolved /\
       resolved_at r' = resolved_at r /\ resolved_by r' = resolved_by r /\
       occurrence_count r' = occurrence_count r).
Proof.
  intros Hwf Hr Hg. revert r Hwf Hg. induction Hr as [t|t t1 t' Hs _ IH]; intros r Hwf Hg.
  { exists r. split; [done |]. do 2 (split; [lia |]). by split. }
  destruct (step_row t t1 i r Hwf Hs Hg) as (r1 & Hg1 & H1).
  destruct (IH r1 (incident_step_wf _ _ Hwf Hs) Hg1) as (r' & Hg' & H2 & H3 & H4 & H5).
  exists r'. split; [done |]. destruct H1 as [->|H1]; [done |].
  destruct (row_step_forward _ _ H1) as (A1 & A2 & A3 & A4).
  split; [lia |]. split; [lia |]. split; [congruence |]. intros Hres.
  destruct (A4 Hres) as (B1 & B2 & B3 & B4). destruct (H5 B1) as (? & ? & ? & ?).
  repeat split; congruence.
Qed.

(** What each operation does to the set of active keys. *)
Definition has_active (fp : string) (t : incidents) : Prop :=
  exists i r, get i t = Some r /\ active_key r = Some fp.

Lemma active_spec source trigger t :
  wf t -> active source trigger t = true <-> has_active (_fingerprint source trigger) t.
Proof.
  intros Hwf. unfold active. destruct (scalar _ t) as [[i r]|] eqn:E; split; try done.
  - intros _. destruct (active_row _ _ _ _ _ Hwf E) as (? & ? & _). by exists i, r.
  - intros (i & r & Hg & Hk). apply scalar_None with (1 := wf_keys _ Hwf) in E.
    specialize (E i r Hg). simpl in E. unfold has_active_key in E. bool_to_prop. done.
Qed.

Lemma open_or_update_active now source trigger sev summ d t tr t' fp :
  wf t -> open_or_update_incident now source trigger sev summ d t = Ok (tr, t') ->
  has_active fp t' <-> fp = _fingerprint source trigger \/ has_active fp t.
Proof.
  intros Hwf. unfold open_or_update_incident, insert_unique, has_active.
  destruct (scalar _ t) as [[i row]|] eqn:E; simpl; intros; simplify_eq.
  - destruct (active_row _ _ _ _ _ Hwf E) as (Hg & Hk & _).
    setoid_rewrite get_update. split.
    + intros (j & r & Hj & Hr). right. destruct (Z.eqb_spec i j) as [->|]; [|by exists j, r].
      rewrite Hg in Hj. simplify_eq/=. by exists j, row.
    + intros [->|(j & r & Hj & Hr)].
      * exists i. rewrite Z.eqb_refl, Hg. by eexists.
      * exists j. destruct (Z.eqb_spec i j) as [->|]; [|by exists r].
        rewrite Hj. by eexists.
  - set (row := Incident _ _ _ _ _ _ _ _ _ _ _ _ _ _ _ _ _ _).
    change (Table _ _) with (insert row t).2. setoid_rewrite get_insert; [|apply Hwf..].
    split.
    + intros (j & r & Hj & Hr). destruct (Z.eqb_spec j (next_id t)); simplify_eq/=; [by left |].
      right. by exists j, r.
    + intros [->|(j & r & Hj & Hr)]; [exists (next_id t), row; by rewrite Z.eqb_refl |].
      exists j, r. apply get_lt in Hj as Hlt; [|apply Hwf].
      destruct (Z.eqb_spec j (next_id t)); [lia | done].
Qed.

Lemma resolve_active_active now source trigger actor t fp :
  wf t -> has_active fp (resolve_active_incident now source trigger actor t).2 <->
    fp <> _fingerprint source trigger /\ has_active fp t.
Proof.
  intros Hwf. unfold resolve_active_incident.
  destruct (scalar _ t) as [[i row]|] eqn:E; simpl.
  - destruct (active_row _ _ _ _ _ Hwf E) as (Hg & Hk & _). unfold has_active.
    setoid_rewrite get_update. split.
    + intros (j & r & Hj & Hr). destruct (Z.eqb_spec i j) as [->|Hne].
      * rewrite Hg in Hj. by simplify_eq/=.
      * split; [|by exists j, r]. intros ->. apply Hne. by eapply (wf_active _ Hwf i j row r).
    + intros (Hne & j & r & Hj & Hr). exists j, r. destruct (Z.eqb_spec i j) as [->|]; [|done].
      simplify_eq.
  - apply scalar_None in E; [|apply Hwf]. split; [|tauto]. intros H. split; [|done].
    intros ->. destruct H as (j & r & Hj & Hr). specialize (E j r Hj). simpl in E.
    unfold has_active_key in E. bool_to_prop. done.
Qed.

Lemma open_active now source trigger sev summ d t tr t' source' trigger' :
  wf t -> open_or_update_incident now source trigger sev summ d t = Ok (tr, t') ->
  active source' trigger' t' =
    bool_decide (_fingerprint source' trigger' = _fingerprint source trigger) || active source' trigger' t.
Proof.
  intros Hwf H. destruct (open_or_update_total now source trigger sev summ d t Hwf) as (? & ? & E & Hwf' & _).
  rewrite H in E. simplify_eq. apply eq_bool_prop_intro.
  rewrite !Is_true_true, orb_true_iff, bool_decide_eq_true, !active_spec by done.
  by eapply open_or_update_active.
Qed.

Lemma recover_active now source trigger t source' trigger' :
  wf t -> active source' trigger' (recover now source trigger t).2 =
    negb (bool_decide (_fingerprint source' trigger' = _fingerprint source trigger)) &&
    active source' trigger' t.
Proof.
  intros Hwf. pose proof (resolve_active_wf now source trigger "health-probe-recovery" t Hwf) as [Hwf' _].
  unfold recover. destruct (resolve_active_incident _ _ _ _ _) as [tr t'] eqn:E. simpl in *.
  apply eq_bool_prop_intro.
  rewrite !Is_true_true, andb_true_iff, negb_true_iff, bool_decide_eq_false, !active_spec by done.
  pose proof (resolve_active_active now source trigger "health-probe-recovery" t
    (_fingerprint source' trigger') Hwf) as H. by rewrite E in H.
Qed.

Lemma other_trigger source g1 g2 :
  g1 <> g2 -> bool_decide (_fingerprint source g1 = _fingerprint source g2) = false.
Proof.
  intros Hne. apply bool_decide_eq_false. intros H.
  unfold _fingerprint, key_of in H.
  apply colon_split in H as [_ H]; [|apply scope_no_colon..].
  by apply colon_split in H as [_ ->]; [|apply str_of_Z_no_colon..].
Qed.

Lemma same_trigger source g : bool_decide (_fingerprint source g = _fingerprint source g) = true.
Proof. by apply bool_decide_eq_true. Qed.

Section Policy.
Context (format_g : Q -> string) (now : datetime) (source : SourceProfile)
        (sample_id : Z) (sample : ProviderHealthSample).

Lemma reconcile_availability_spec rec t :
  wf t -> exists trs t', reconcile_availability now source sample_id sample rec t = Ok (trs, t') /\
    wf t' /\ active source "latency" t' = active source "latency" t /\
    active source "availability" t' =
      consecutive_failures source rec || (active source "availability" t && negb (is_success sample)).
Proof.
  intros Hwf. unfold reconcile_availability. destruct (consecutive_failures source rec).
  - set (d := JObj _).
    destruct (open_or_update_total now source "availability" "critical" (availability_summary source) d t Hwf)
      as (tr & t' & E & Hwf' & _). rewrite E. simpl. eexists _, _. split; [done |].
    rewrite !(open_active _ _ _ _ _ _ _ _ _ _ _ Hwf E), same_trigger, other_trigger by done. done.
  - destruct (is_success sample).
    + pose proof (resolve_active_wf now source "availability" "health-probe-recovery" t Hwf) as [Hwf' _].
      destruct (recover now source "availability" t) as [trs t'] eqn:E. eexists _, _. split; [done |].
      pose proof (recover_active now source "availability" t source) as H. rewrite E in H. simpl in H.
      rewrite !H, same_trigger, other_trigger, andb_false_r by done. simpl.
      unfold recover in E. destruct (resolve_active_incident _ _ _ _ _). by simplify_eq/=.
    + eexists _, _. split; [done |]. by rewrite andb_true_r.
Qed.

Lemma reconcile_latency_spec rec t :
  wf t -> exists trs t', reconcile_latency format_g now source sample_id sample rec t = Ok (trs, t') /\
    wf t' /\ active source "availability" t' = active source "availability" t /\
    active source "latency" t' =
      match latency_threshold_ms source with
      | None => active source "latency" t
      | Some limit => consecutive_slow source limit rec ||
          (active source "latency" t && negb (is_success sample && Qltb (latency_ms sample) limit))
      end.
Proof.
  intros Hwf. unfold reconcile_latency.
  destruct (latency_threshold_ms source) as [limit|]; [|by eexists _, _].
  destruct (consecutive_slow source limit rec).
  - set (d := JObj _).
    destruct (open_or_update_total now source "latency" "warning" (latency_summary format_g source limit) d t Hwf)
      as (tr & t' & E & Hwf' & _). rewrite E. simpl. eexists _, _. split; [done |].
    rewrite !(open_active _ _ _ _ _ _ _ _ _ _ _ Hwf E), same_trigger, other_trigger by done. done.
  - destruct (is_success sample && Qltb (latency_ms sample) limit).
    + pose proof (resolve_active_wf now source "latency" "health-probe-recovery" t Hwf) as [Hwf' _].
      destruct (recover now source "latency" t) as [trs t'] eqn:E. eexists _, _. split; [done |].
      pose proof (recover_active now source "latency" t source) as H. rewrite E in H. simpl in H.
      rewrite !H, same_trigger, other_trigger, andb_false_r by done. simpl.
      unfold recover in E. destruct (resolve_active_incident _ _ _ _ _). by simplify_eq/=.
    + eexists _, _. split; [done |]. by rewrite andb_true_r.
Qed.

(** After a health sample, a source has an active availability incident
    exactly when its last [incident_failure_threshold] samples all failed, or it
    had one and this sample failed; it has an active latency incident exactly
    when the last samples were all successful and slow, or it had one and this
    sample is not a fast success.  Reconciling never fails. *)
Theorem reconcile_policy samples t :
  wf t ->
  let rec := recent source samples in
  exists trs t',
    reconcile_health_incidents format_g now source sample_id sample samples t = Ok (trs, t') /\ wf t' /\
    active source "availability" t' =
      consecutive_failures source rec || (active source "availability" t && negb (is_success sample)) /\
    active source "latency" t' =
      match latency_threshold_ms source with
      | None => active source "latency" t
      | Some limit => consecutive_slow source limit rec ||
          (active source "latency" t && negb (is_success sample && Qltb (latency_ms sample) limit))
      end.
Proof.
  intros Hwf rec. unfold reconcile_health_incidents. fold rec.
  destruct (reconcile_availability_spec rec t Hwf) as (tr1 & t1 & E1 & Hwf1 & Hl1 & Ha1).
  destruct (reconcile_latency_spec rec t1 Hwf1) as (tr2 & t2 & E2 & Hwf2 & Ha2 & Hl2).
  rewrite E1. simpl. rewrite E2. simpl. eexists _, _. split; [done |]. split; [done |].
  rewrite Ha2, Hl2, Ha1, Hl1. done.
Qed.
End Policy.

Lemma get_incident_spec i tenant admin t row :
  get_incident i tenant admin t = Some row ->
  get i t = Some row /\ (admin = true \/ tenant_id row = tenant).
Proof.
  unfold get_incident, in_scope. destruct (get i t) as [r|]; [|done].
  destruct (admin || _) eqn:E; [|done]. intros [= ->]. split; [done |].
  apply orb_true_iff in E as [|]; bool_to_prop; auto.
Qed.

Lemma list_incidents_In tenant admin st src offset limit t i row :
  wf_table t -> In (i, row) (list_incidents tenant admin st src offset limit t).1 ->
  get i t = Some row /\ (admin = true \/ tenant_id row = tenant).
Proof.
  intros Hk Hin. simpl in Hin.
  assert (In (i, row) (select (fun i => in_scope tenant admin i && matches st (incident_status i) &&
    matches src (source_id i)) t)) as Hin'.
  { apply list_elem_of_In. rewrite <- (order_by_perm newest_seen).
    apply list_elem_of_In in Hin. eapply elem_of_submseteq; [exact Hin |].
    etrans; [apply sublist_submseteq, sublist_take | apply sublist_submseteq, sublist_drop]. }
  apply select_spec in Hin' as [Hg Hp]; [|done]. split; [done |]. bool_to_prop.
  unfold in_scope in *. destruct admin; [by left | right]. simpl in *. by bool_to_prop.
Qed.

Lemma acknowledge_updates now actor i row t t' :
  acknowledge_incident now actor i row t = Ok t' -> exists f, t' = update i f t.
Proof. unfold acknowledge_incident. case_decide; intros; simplify_eq. by eexists. Qed.

Lemma resolve_updates now actor i row t t' :
  resolve_incident now actor i row t = Ok t' -> exists f, t' = update i f t.
Proof. unfold resolve_incident. case_decide; intros; simplify_eq. by eexists. Qed.

(** An endpoint that updates the row it fetched changes no row out of scope. *)
Lemma transition_by_id_scope roles apply i c t r t' j :
  "admin" ∉ _roles roles c ->
  (forall row t2, apply i row t = Ok t2 -> exists f, t2 = update i f t) ->
  transition_by_id roles apply i c t = Ok (r, t') -> get j t' <> get j t ->
  exists row, get j t = Some row /\ tenant_id row = claim_tenant_id c.
Proof.
  intros Hna Hap H Hj. unfold transition_by_id, _scope in H.
  rewrite bool_decide_eq_false_2 in H by done.
  destruct (claim_tenant_id c) as [ta|]; simplify_eq/=.
  destruct (get_incident _ _ _ _) as [row|] eqn:Eg; simplify_eq/=.
  destruct (get_incident_spec _ _ _ _ _ Eg) as [Hg [|Ht]]; [done |].
  destruct (apply i row t) as [t2|[]] eqn:Ea; simplify_eq/=.
  destruct (Hap _ _ Ea) as [f ->]. rewrite get_update in Hj.
  destruct (Z.eqb_spec i j) as [->|]; [|done]. by exists row.
Qed.

(** C15: a caller who is not an administrator never sees or changes an incident
    outside the tenant of their claims, whatever incident id they ask for; and
    without a tenant they are refused. *)
Theorem tenant_isolation roles (c : claims) (t : incidents) :
  wf_table t -> "admin" ∉ _roles roles c ->
  (forall st src offset limit l n i row,
     get_incidents roles c st src offset limit t = Ok (l, n) -> In (i, row) l ->
     tenant_id row = claim_tenant_id c) /\
  (forall i row, get_incident_by_id roles i c t = Ok row -> tenant_id row = claim_tenant_id c) /\
  (forall now i r t' j,
     acknowledge_incident_by_id roles now i c t = Ok (r, t') \/
     resolve_incident_by_id roles now i c t = Ok (r, t') ->
     get j t' <> get j t -> exists row, get j t = Some row /\ tenant_id row = claim_tenant_id c) /\
  (claim_tenant_id c = None -> forall i,
     get_incident_by_id roles i c t = Raise (HTTP 403 "A tenant-scoped identity is required.")).
Proof.
  intros Hk Hna.
  assert (forall ta ad, _scope roles c = Ok (ta, ad) -> ta = claim_tenant_id c /\ ad = false) as Hsc.
  { intros ta ad. unfold _scope. rewrite bool_decide_eq_false_2 by done.
    destruct (claim_tenant_id c); intros; by simplify_eq. }
  repeat split.
  - intros st src offset limit l n i row H Hin. unfold get_incidents in H.
    destruct (_scope roles c) as [[ta ad]|] eqn:E; simplify_eq/=.
    destruct (Hsc ta ad eq_refl) as [-> ->].
    by destruct (list_incidents_In _ _ _ _ _ _ _ _ _ Hk Hin) as [_ [|]].
  - intros i row H. unfold get_incident_by_id in H.
    destruct (_scope roles c) as [[ta ad]|] eqn:E; simplify_eq/=.
    destruct (Hsc ta ad eq_refl) as [-> ->].
    destruct (get_incident _ _ _ _) eqn:Eg; simplify_eq/=.
    by destruct (get_incident_spec _ _ _ _ _ Eg) as [_ [|]].
  - intros now i r t' j [H|H] Hj; eapply transition_by_id_scope in H; try done.
    + intros row t2. apply acknowledge_updates.
    + intros row t2. apply resolve_updates.
  - intros Hn i. unfold get_incident_by_id, _scope. rewrite Hn, bool_decide_eq_false_2 by done. done.
Qed.
End IncidentTheorems.

(** ** Witnesses *)

Module IncidentWitnesses.
Import Incidents IncidentTheorems.

Definition api : SourceProfile := Source 3 "api" (Some 7) (Some (250#1)%Q) 2 900.
Definition failed (at_ : datetime) : ProviderHealthSample :=
  Sample 3 at_ 12 false (Some 503) (Some "unavailable").
Definition two_failures : table ProviderHealthSample :=
  (insert (failed 20) (insert (failed 10) (empty_table _)).2).2.

Definition outage : incidents :=
  match reconcile_health_incidents (fun _ => "250") 30 api 2 (failed 20) two_failures (empty_table _) with
  | Ok (_, t) => t
  | Raise _ => empty_table _
  end.

Definition recovered : incidents := (recover 40 api "availability" outage).2.

Lemma outage_reachable : rtc step (empty_table _) outage.
Proof.
  apply rtc_once.
  apply (step_open 30 api "availability" "critical" (availability_summary api)
    (JObj [("latest_sample_id", JInt 2); ("http_status", JInt 503);
           ("error_message", JStr "unavailable"); ("threshold", JInt 2)])
    (empty_table _) (Transition 1 "opened" true)).
  vm_compute. reflexivity.
Qed.

Lemma recovered_reachable : rtc step outage recovered.
Proof. apply rtc_once. exact (step_recover 40 api "availability" "health-probe-recovery" outage). Qed.

Lemma incident_lifecycle_witness :
  exists row, get 1 (mark_notification_attempted 60 1 recovered) = Some row /\
    incident_status row = resolved.
Proof.
  assert (exists row, get 1 recovered = Some row /\ incident_status row = resolved) as (row & Hg & Hs).
  { eexists. split; [vm_compute; reflexivity | reflexivity]. }
  destruct (incident_lifecycle recovered (mark_notification_attempted 60 1 recovered) 1 row)
    as (r' & H1 & _ & _ & _ & H2).
  - apply (incident_reachable_wf recovered). etransitivity; [exact outage_reachable | exact recovered_reachable].
  - apply rtc_once. apply step_notified.
  - exact Hg.
  - exists r'. exact (conj H1 (proj1 (H2 Hs))).
Defined.

Lemma reconcile_policy_witness :
  exists trs t', reconcile_health_incidents (fun _ => "250") 30 api 2 (failed 20) two_failures (empty_table _)
    = Ok (trs, t') /\ active api "availability" t' = true.
Proof.
  destruct (reconcile_policy (fun _ => "250") 30 api 2 (failed 20) two_failures (empty_table _) wf_no_incidents)
    as (trs & t' & H & _ & Ha & _).
  exists trs, t'. split; [exact H |]. rewrite Ha. reflexivity.
Defined.

(** A caller of tenant 8 asks for the incident of tenant 7. *)
Lemma tenant_isolation_witness :
  "admin" ∉ _roles (fun _ _ => ["user"]) (Claims (Some "bob") (Some 8)) /\
  forall row, get_incident_by_id (fun _ _ => ["user"]) 1 (Claims (Some "bob") (Some 8)) outage = Ok row ->
    tenant_id row = Some 8.
Proof.
  assert ("admin" ∉ _roles (fun _ _ => ["user"]) (Claims (Some "bob") (Some 8))) as Hna.
  { simpl. set_solver. }
  split; [exact Hna |].
  exact (proj1 (proj2 (tenant_isolation (fun _ _ => ["user"]) (Claims (Some "bob") (Some 8)) outage
    (wf_keys _ (incident_reachable_wf _ outage_reachable)) Hna)) 1).
Defined.
End IncidentWitnesses.
