(* ===== verification/Messaging.v ===== *)
(** * Outbox and inbox (repositories/messaging.py, models/events.py)

    The transactional outbox with its leases, and the inbox that deduplicates
    consumption.  [P] is the type of JSON payloads.  [now] and [token] are the
    arguments the callers pass, or the clock and the fresh UUID otherwise;
    [locked] holds of the rows that another transaction has locked. *)

From S2P Require Import Prelude Db.

Module Messaging.

Inductive RuntimeError := runtime_error (message : string).

Section Payload.
Context {P : Type}.

Record OutboxEvent := Outbox {
  aggregate_type : string;
  aggregate_id : string;
  event_type : string;
  payload : P;
  idempotency_key : string;
  tenant_id : option Z;
  published_at : option datetime;
  publish_attempts : Z;
  last_error : option string;
  next_attempt_at : option datetime;
  lease_expires_at : option datetime;
  claim_token : option string;
  deleted_at : option datetime
}.

Definition outbox := table OutboxEvent.

Definition has_key (key : string) (e : OutboxEvent) : bool := bool_decide (idempotency_key e = key).

Definition add_outbox_event (agg agg_id typ : string) (p : P) (key : string)
    (tenant : option Z) (t : outbox) : result RuntimeError (Z * outbox) :=
  let row := Outbox agg agg_id typ p key tenant None 0 None None None None None in
  match insert_or_nothing (has_key key) row t with
  | (Some i, t) => Ok (i, t)
  | (None, t) =>
      match scalar (has_key key) t with
      | Some (i, _) => Ok (i, t)
      | None => Raise (runtime_error "Outbox idempotency conflict did not return an existing row.")
      end
  end.

Definition is_none {A} (o : option A) : bool := match o with None => true | Some _ => false end.

(** [column IS NULL OR column <= now]. *)
Definition null_or_past (now : datetime) (o : option datetime) : bool :=
  match o with None => true | Some t => t <=? now end.

Definition pending (e : OutboxEvent) : bool := is_none (published_at e) && is_none (deleted_at e).

Definition list_pending_outbox_events (limit : nat) (t : outbox) : list (Z * OutboxEvent) :=
  take limit (select pending t).

Definition claimable (now : datetime) (event_types : option (list string)) (e : OutboxEvent) : bool :=
  pending e && null_or_past now (next_attempt_at e) && null_or_past now (lease_expires_at e) &&
  match event_types with None => true | Some l => bool_decide (event_type e ∈ l) end.

Definition set_claimed (token : string) (lease : datetime) (e : OutboxEvent) : OutboxEvent :=
  Outbox (aggregate_type e) (aggregate_id e) (event_type e) (payload e) (idempotency_key e)
    (tenant_id e) (published_at e) (publish_attempts e + 1) (last_error e) (next_attempt_at e)
    (Some lease) (Some token) (deleted_at e).

(** The primary keys of the rows claimed: unlocked claimable rows, in order. *)
Definition claim_pending_outbox_events (locked : Z -> bool) (limit : nat) (token : string)
    (lease_seconds : Z) (now : datetime) (event_types : option (list string)) (t : outbox)
    : list Z * outbox :=
  if decide (event_types = Some []) then ([], t)
  else
    let keys := map fst (select_for_update locked (claimable now event_types) limit t) in
    (keys, update_all keys (set_claimed token (now + seconds lease_seconds)) t).

(** The row of [event_id], when it has the claim token asked for. *)
Definition claimed_row (event_id : Z) (token : option string) (t : outbox) : option OutboxEvent :=
  match get event_id t with
  | None => None
  | Some e =>
      match token with
      | None => Some e
      | Some _ => if decide (claim_token e = token) then Some e else None
      end
  end.

Definition set_outcome (published : option datetime) (error : option string)
    (next : option datetime) (e : OutboxEvent) : OutboxEvent :=
  Outbox (aggregate_type e) (aggregate_id e) (event_type e) (payload e) (idempotency_key e)
    (tenant_id e) published (publish_attempts e) error next None None (deleted_at e).

(** [None] when the row is not the caller's; the row's new content otherwise. *)
Definition mark_outbox_published (event_id : Z) (published : datetime) (token : option string)
    (t : outbox) : option OutboxEvent * outbox :=
  match claimed_row event_id token t with
  | None => (None, t)
  | Some _ =>
      let t := update event_id (set_outcome (Some published) None None) t in (get event_id t, t)
  end.

Definition mark_outbox_publish_failed (event_id : Z) (error : string) (next : option datetime)
    (token : option string) (t : outbox) : option OutboxEvent * outbox :=
  match claimed_row event_id token t with
  | None => (None, t)
  | Some _ =>
      let t := update event_id (set_outcome None (Some (str_take 512 error)) next) t in
      (get event_id t, t)
  end.

(** ** Inbox *)

Inductive inbox_status := processing | completed | completed_with_dead_letters | inbox_dead_letter.

#[global] Instance inbox_status_eq_dec : EqDecision inbox_status.
Proof. solve_decision. Defined.

Record InboxConsumption := Inbox {
  consumer_name : string;
  message_id : string;
  inbox_event_type : string;
  inbox_payload : P;
  status : inbox_status;
  inbox_lease_expires_at : option datetime;
  processed_at : option datetime;
  last_error_category : option string;
  last_error_code : option string;
  last_error_detail : option string
}.

Definition inbox := table InboxConsumption.

Definition same_message (consumer message : string) (r : InboxConsumption) : bool :=
  bool_decide (consumer_name r = consumer) && bool_decide (message_id r = message).

(** A rolled-back insert still consumed a sequence value. *)
Definition try_observation_inbox_consumption (consumer message typ : string) (p : P)
    (now : datetime) (t : inbox) : bool * inbox :=
  let row := Inbox consumer message typ p completed None (Some now) None None None in
  match insert_unique (same_message consumer message) row t with
  | Ok (_, t) => (true, t)
  | Raise _ => (false, Table (rows t) (next_id t + 1))
  end.

(** ** Steps of the other publishers of the same outbox *)

(** What workers other than the holder of [token] on row [i] do before [expiry]. *)
Inductive other_step (i : Z) (token : string) (expiry : datetime) : outbox -> outbox -> Prop :=
| other_add agg agg_id typ p key tenant t j t' :
    add_outbox_event agg agg_id typ p key tenant t = Ok (j, t') -> other_step i token expiry t t'
| other_claim locked limit token' lease now types t :
    now < expiry ->
    other_step i token expiry t (claim_pending_outbox_events locked limit token' lease now types t).2
| other_published j now token' t :
    j <> i \/ token' <> token ->
    other_step i token expiry t (mark_outbox_published j now (Some token') t).2
| other_failed j error next token' t :
    j <> i \/ token' <> token ->
    other_step i token expiry t (mark_outbox_publish_failed j error next (Some token') t).2.

Record wf_outbox (t : outbox) : Prop := {
  outbox_keys : wf_table t;
  outbox_unique : unique (fun e => Some (idempotency_key e)) t
}.

(** Any operation on the outbox, whoever runs it. *)
Inductive step : outbox -> outbox -> Prop :=
| step_add agg agg_id typ p key tenant t j t' :
    add_outbox_event agg agg_id typ p key tenant t = Ok (j, t') -> step t t'
| step_claim locked limit token lease now types t :
    step t (claim_pending_outbox_events locked limit token lease now types t).2
| step_published j now token t : step t (mark_outbox_published j now token t).2
| step_failed j error next token t : step t (mark_outbox_publish_failed j error next token t).2.

End Payload.
Arguments OutboxEvent : clear implicits.
Arguments InboxConsumption : clear implicits.
Arguments outbox : clear implicits.
Arguments inbox : clear implicits.

End Messaging.

(** ** Theorems *)

Module MessagingTheorems.
Import Messaging.

Section Payload.
Context {P : Type}.
Implicit Types (t : outbox P) (e : OutboxEvent P).

Lemma wf_outbox_update i f t :
  wf_outbox t -> (forall e, idempotency_key (f e) = idempotency_key e) -> wf_outbox (update i f t).
Proof.
  intros [Hk Hu] Hf. split; [by apply wf_update |]. apply unique_update; [done |].
  intros e _. left. by rewrite Hf.
Qed.

Lemma wf_outbox_claim locked limit token lease now types t :
  wf_outbox t -> wf_outbox (claim_pending_outbox_events locked limit token lease now types t).2.
Proof.
  intros [Hk Hu]. unfold claim_pending_outbox_events. case_decide; [done |]. simpl.
  split; [by apply wf_update_all | by apply unique_update_all].
Qed.

Lemma wf_outbox_mark_published i now token t :
  wf_outbox t -> wf_outbox (mark_outbox_published i now token t).2.
Proof.
  intros Hwf. unfold mark_outbox_published. destruct (claimed_row i token t); [|done].
  by apply wf_outbox_update.
Qed.

Lemma wf_outbox_mark_failed i error next token t :
  wf_outbox t -> wf_outbox (mark_outbox_publish_failed i error next token t).2.
Proof.
  intros Hwf. unfold mark_outbox_publish_failed. destruct (claimed_row i token t); [|done].
  by apply wf_outbox_update.
Qed.

Lemma has_key_unique key t i e :
  wf_outbox t -> get i t = Some e -> idempotency_key e = key -> scalar (has_key key) t = Some (i, e).
Proof.
  intros [Hk Hu] Hg He. destruct (scalar (has_key key) t) as [[j s]|] eqn:E.
  - apply scalar_Some in E as [Hj Hs]; [|done]. unfold has_key in Hs. bool_to_prop.
    assert (j = i) as -> by (by apply (Hu j i s e key); [| |f_equal|f_equal]). by simplify_eq.
  - rewrite scalar_None in E by done. specialize (E i e Hg). simpl in E.
    unfold has_key in E. by bool_to_prop.
Qed.

(** The specification of [add_outbox_event]: the row that already has the key, or
    a new one. *)
Lemma add_outbox_event_spec agg agg_id typ p key tenant t :
  wf_outbox t -> exists i t', add_outbox_event agg agg_id typ p key tenant t = Ok (i, t') /\
    wf_outbox t' /\
    ((exists e, get i t = Some e /\ idempotency_key e = key /\ forall j, get j t' = get j t) \/
     (every (fun _ e => idempotency_key e <> key) t /\ get i t = None /\
      forall j, get j t' = if j =? i then
        Some (Outbox agg agg_id typ p key tenant None 0 None None None None None) else get j t)).
Proof.
  intros Hwf. destruct Hwf as [Hk Hu] eqn:Ewf. clear Ewf. unfold add_outbox_event.
  set (row := Outbox _ _ _ _ _ _ _ _ _ _ _ _ _).
  destruct (insert_or_nothing_cases (has_key key) row t Hk) as [(i & e & Es & ->)|[He ->]].
  - assert (scalar (has_key key) (Table (rows t) (next_id t + 1)) = Some (i, e)) as -> by done.
    eexists _, _. split; [done |]. split; [split; [by apply wf_burn | done] |].
    apply scalar_Some in Es as [Hg Hh]; [|done]. unfold has_key in Hh. bool_to_prop.
    left. by exists e.
  - eexists _, _. split; [done |]. split.
    + split; [by apply wf_insert |]. apply unique_insert; [done.. |].
      intros k [= <-] j e Hj. specialize (He j e Hj). simpl in He. unfold has_key in He.
      bool_to_prop. intros [= ?]. done.
    + right. split; [|split; [|intros j; by apply get_insert]].
      2: { destruct (get _ t) eqn:Hg; [|done]. apply get_lt in Hg; [lia | done]. }
      intros j e Hj. specialize (He j e Hj). simpl in He. unfold has_key in He. by bool_to_prop.
Qed.

Lemma add_outbox_event_wf agg agg_id typ p key tenant t i t' :
  wf_outbox t -> add_outbox_event agg agg_id typ p key tenant t = Ok (i, t') -> wf_outbox t'.
Proof.
  intros Hwf E. destruct (add_outbox_event_spec agg agg_id typ p key tenant t Hwf) as (? & ? & E' & ? & _).
  congruence.
Qed.

Lemma outbox_step_wf t t' : wf_outbox t -> step t t' -> wf_outbox t'.
Proof.
  intros Hwf Hs. destruct Hs as [agg agg_id typ p key tenant t j t' E|? ? ? ? ? ? t|? ? ? t|? ? ? ? t].
  2: by apply wf_outbox_claim.
  2: by apply wf_outbox_mark_published.
  2: by apply wf_outbox_mark_failed.
  by eapply add_outbox_event_wf.
Qed.

(** In every state the outbox can reach, adding an event never fails; it
    creates a row exactly when no row has its idempotency key, and otherwise
    returns the existing one and changes nothing, so that adding an event twice
    is adding it once. *)
Theorem outbox_add_idempotent t agg agg_id typ p key tenant :
  rtc step (empty_table _) t ->
  exists i t', add_outbox_event agg agg_id typ p key tenant t = Ok (i, t') /\
    (exists e, get i t' = Some e /\ idempotency_key e = key) /\
    (forall j e, get j t = Some e -> get j t' = Some e) /\
    (get i t = None <-> every (fun _ e => idempotency_key e <> key) t) /\
    forall agg2 agg_id2 typ2 p2 tenant2, exists t2,
      add_outbox_event agg2 agg_id2 typ2 p2 key tenant2 t' = Ok (i, t2) /\
      forall j, get j t2 = get j t'.
Proof.
  intros Hr. assert (wf_outbox t) as Hwf.
  { cut (forall a b, rtc (@step P) a b -> wf_outbox a -> wf_outbox b).
    - intros Hc. apply (Hc _ _ Hr). split; auto with py.
    - clear. induction 1 as [|a b c Hs _ IH]; [done |]. intros Ha. by eapply IH, outbox_step_wf. }
  destruct (add_outbox_event_spec agg agg_id typ p key tenant t Hwf) as (i & t' & E & Hwf' & Hcase).
  exists i, t'. split; [done |].
  assert (exists e, get i t' = Some e /\ idempotency_key e = key) as (e & Hi & He).
  { destruct Hcase as [(e & Hg & He & Hsame)|(_ & _ & Hnew)]; [exists e; by rewrite Hsame |].
    rewrite Hnew, Z.eqb_refl. by eexists. }
  split; [by exists e |]. split; [|split].
  - intros j s Hj. destruct Hcase as [(? & _ & _ & Hsame)|(_ & Hnone & Hnew)]; [by rewrite Hsame |].
    rewrite Hnew. destruct (Z.eqb_spec j i) as [->|]; [congruence | done].
  - destruct Hcase as [(s & Hg & Hs & _)|(He' & Hnone & _)]; [|done].
    split; [by rewrite Hg | intros Hall]. by destruct (Hall i s Hg).
  - intros agg2 agg_id2 typ2 p2 tenant2.
    destruct (add_outbox_event_spec agg2 agg_id2 typ2 p2 key tenant2 t' Hwf') as (i2 & t2 & E2 & _ & Hc2).
    destruct Hc2 as [(s & Hg & Hs & Hsame)|[Hall _]]; [|by destruct (Hall i e Hi)].
    assert (i2 = i) as -> by (apply (outbox_unique _ Hwf' i2 i s e key); [done | done | by f_equal | by f_equal]).
    by exists t2.
Qed.

(** ** Leases *)

Lemma claim_spec locked limit token lease now types t i :
  wf_table t -> i ∈ (claim_pending_outbox_events locked limit token lease now types t).1 ->
  exists e, get i t = Some e /\ claimable now types e = true /\
    get i (claim_pending_outbox_events locked limit token lease now types t).2 =
      Some (set_claimed token (now + seconds lease) e).
Proof.
  intros Hwf. unfold claim_pending_outbox_events. case_decide; [set_solver |]. simpl. intros Hi.
  pose proof (select_for_update_NoDup locked (claimable now types) limit t Hwf) as Hnd.
  rewrite get_update_all, decide_True by done.
  apply list_elem_of_fmap in Hi as ([j e] & -> & Hin).
  apply select_for_update_spec in Hin as (Hg & Hc & _); [|done]. exists e. simpl. by rewrite Hg.
Qed.

(** Rows outside the claim are untouched. *)
Lemma claim_frame locked limit token lease now types t j :
  wf_table t -> j ∉ (claim_pending_outbox_events locked limit token lease now types t).1 ->
  get j (claim_pending_outbox_events locked limit token lease now types t).2 = get j t.
Proof.
  intros Hwf. unfold claim_pending_outbox_events. case_decide; [done |]. simpl. intros Hj.
  pose proof (select_for_update_NoDup locked (claimable now types) limit t Hwf) as Hnd.
  by rewrite get_update_all, decide_False by done.
Qed.

(** A row with a live lease is not claimable. *)
Lemma leased_not_claimed locked limit token lease now types t i e expiry :
  wf_table t -> get i t = Some e -> lease_expires_at e = Some expiry -> now < expiry ->
  i ∉ (claim_pending_outbox_events locked limit token lease now types t).1.
Proof.
  intros Hwf Hg He Hlt Hin. apply claim_spec in Hin as (e' & Hg' & Hc & _); [|done].
  simplify_eq. unfold claimable in Hc. bool_to_prop. rewrite He in *. simpl in *. bool_to_prop. lia.
Qed.

Lemma other_step_frame i token expiry t t' e :
  wf_outbox t -> get i t = Some e -> lease_expires_at e = Some expiry -> claim_token e = Some token ->
  other_step i token expiry t t' -> wf_outbox t' /\ get i t' = Some e.
Proof.
  intros Hwf Hg He Ht Hs.
  assert (forall j token', j <> i \/ token' <> token -> j = i -> claimed_row j (Some token') t = None) as Hother.
  { intros j token' [Hne|Hne] ->; [done |]. unfold claimed_row. rewrite Hg.
    rewrite decide_False; [done | congruence]. }
  destruct Hs as [agg agg_id typ p key tenant t j t' E|locked limit token' lease now types t Hlt
    |j now token' t Hne|j error next token' t Hne].
  - destruct (add_outbox_event_spec agg agg_id typ p key tenant t Hwf) as (j' & t2 & E' & Hwf' & Hc).
    rewrite E in E'. simplify_eq. split; [done |].
    destruct Hc as [(_ & _ & _ & Hsame)|(_ & Hnone & Hnew)]; [by rewrite Hsame |].
    rewrite Hnew. destruct (Z.eqb_spec i j') as [->|]; [congruence | done].
  - split; [by apply wf_outbox_claim |]. rewrite claim_frame; [done | apply Hwf |].
    eapply leased_not_claimed; [apply Hwf | done..].
  - split; [by apply wf_outbox_mark_published |]. unfold mark_outbox_published.
    destruct (claimed_row j (Some token') t) eqn:Ec; [|done]. simpl.
    rewrite get_update. destruct (Z.eqb_spec j i) as [Hj|]; [|done]. by rewrite Hother in Ec.
  - split; [by apply wf_outbox_mark_failed |]. unfold mark_outbox_publish_failed.
    destruct (claimed_row j (Some token') t) eqn:Ec; [|done]. simpl.
    rewrite get_update. destruct (Z.eqb_spec j i) as [Hj|]; [|done]. by rewrite Hother in Ec.
Qed.


(** An inbox message is consumed once per consumer: the first attempt records
    it and succeeds, every later one is told so and changes no row, and other
    consumers and messages are not affected. *)
Theorem inbox_consumes_once consumer message typ (p : P) now (t : inbox P) :
  wf_table t ->
  let '(first, t1) := try_observation_inbox_consumption consumer message typ p now t in
  wf_table t1 /\
  (first = true <-> every (fun _ r => same_message consumer message r = false) t) /\
  (forall i r, get i t = Some r -> get i t1 = Some r) /\
  (forall typ2 p2 now2, exists u,
     try_observation_inbox_consumption consumer message typ2 p2 now2 t1 = (false, u) /\
     forall i, get i u = get i t1).
Proof.
  intros Hwf. unfold try_observation_inbox_consumption at 1, insert_unique.
  destruct (scalar (same_message consumer message) t) as [[i r]|] eqn:E.
  - split; [by apply wf_burn |]. split; [|split; [done |]].
    + split; [done |]. intros He. apply scalar_Some in E as [Hg Hs]; [|done].
      specialize (He i r Hg). simpl in He. congruence.
    + intros. eexists. unfold try_observation_inbox_consumption, insert_unique.
      change (scalar _ (Table _ _)) with (scalar (same_message consumer message) t).
      by rewrite E.
  - set (row := Inbox _ _ _ _ _ _ _ _ _ _). change (insert row t) with (next_id t, (insert row t).2).
    cbv iota beta. assert (wf_table (insert row t).2) as Hwf1 by (by apply wf_insert).
    split; [done |]. split; [|split].
    + split; [|done]. intros _. by apply scalar_None.
    + intros i r Hg. rewrite get_insert by done. apply get_lt in Hg as Hlt; [|done].
      destruct (Z.eqb_spec i (next_id t)); [lia | done].
    + intros. unfold try_observation_inbox_consumption, insert_unique.
      destruct (scalar (same_message consumer message) (insert row t).2) as [[i r]|] eqn:E2.
      * by eexists.
      * exfalso. pose proof (proj1 (scalar_None _ _ Hwf1) E2 (next_id t) row) as Hn.
        rewrite get_insert, Z.eqb_refl in Hn by done. specialize (Hn eq_refl). simpl in Hn.
        unfold same_message in Hn. simpl in Hn. by rewrite !bool_decide_eq_true_2 in Hn.
Qed.
End Payload.

(** ** Witnesses *)

Definition one_event : outbox Z :=
  (insert (Outbox "incident" "1" "e" 7 "k1" None None 0 None None None None None) (empty_table _)).2.

Lemma one_event_reachable : rtc step (empty_table _) one_event.
Proof. apply rtc_once. apply (step_add "incident" "1" "e" 7 "k1" None _ 1). reflexivity. Qed.

Lemma outbox_add_idempotent_witness :
  exists i t', add_outbox_event "incident" "2" "f" 8 "k1" None one_event = Ok (i, t').
Proof.
  destruct (outbox_add_idempotent one_event "incident" "2" "f" 8 "k1" None one_event_reachable)
    as (i & t' & H & _). exists i, t'. exact H.
Defined.


Lemma inbox_consumes_once_witness :
  (try_observation_inbox_consumption "c" "m" "t" 0 0 (empty_table _)).1 = true.
Proof.
  pose proof (inbox_consumes_once "c" "m" "t" 0 0 (empty_table _) wf_empty) as H.
  cbn in H. exact (proj2 (proj1 (proj2 H)) (fun i r (E : None = Some r) => match E with end)).
Defined.
End MessagingTheorems.
