(* ===== verification/NotificationDelivery.v ===== *)
(** * Notification deliveries (repositories/notification_delivery.py)

    The durable state of one notification request: its inbox row, one delivery
    per channel with its lease, attempts and outcome, and the dead-letter events
    of the outbox.  [P] is the type of JSON payloads and [dump_request],
    [dump_dead] are [model_dump] of the two event types. *)

From S2P Require Import Prelude Db Contracts Messaging.

Module Delivery.
Import Events.

Definition CONSUMER_NAME : string := "notification-delivery-v1".
Definition MAX_DELIVERY_ATTEMPTS : Z := 3.

Inductive delivery_status := pending | processing | retry_scheduled | delivered | dead_letter.

#[global] Instance delivery_status_eq_dec : EqDecision delivery_status.
Proof. solve_decision. Defined.

Record NotificationDelivery := Row {
  inbox_consumption_id : Z;
  message_id : string;
  incident_id : Z;
  source_id : Z;
  tenant_id : option Z;
  event_type : string;
  severity : string;
  channel : NotificationChannel;
  status : delivery_status;
  attempt_count : Z;
  next_attempt_at : option datetime;
  lease_expires_at : option datetime;
  claim_token : option string;
  first_attempt_at : option datetime;
  last_attempt_at : option datetime;
  delivered_at : option datetime;
  dead_lettered_at : option datetime;
  provider_reference : option string;
  last_error_category : option NotificationErrorCategory;
  last_error_code : option string;
  last_error_detail : option string;
  deleted_at : option datetime
}.

Definition _INBOX_TERMINAL_STATUSES : list Messaging.inbox_status :=
  [Messaging.completed; Messaging.completed_with_dead_letters; Messaging.inbox_dead_letter].
Definition _DELIVERY_TERMINAL_STATUSES : list delivery_status := [delivered; dead_letter].

Inductive error :=
| RuntimeError (message : string)
| ValueError (message : string)
| ValidationFailed.

Section Payload.
Context {P : Type} (dump_request : NotificationDeliveryRequestedV1 -> P)
        (dump_dead : NotificationDeliveryDeadLetteredV1 -> P).

Record store := Store {
  inboxes : Messaging.inbox P;
  deliveries : table NotificationDelivery;
  events : Messaging.outbox P
}.

(** ** Intake *)

Definition claimed_inbox (e : NotificationDeliveryRequestedV1) (lease : datetime)
    : Messaging.InboxConsumption P :=
  Messaging.Inbox CONSUMER_NAME (Events.message_id e) EVENT_NOTIFICATION_DELIVERY_REQUESTED_V1
    (dump_request e) Messaging.processing (Some lease) None None None None.

Definition claim_notification_request (e : NotificationDeliveryRequestedV1) (lease_seconds : Z)
    (now : datetime) (s : store) : result error ((Z * bool) * store) :=
  let lease := now + seconds lease_seconds in
  let mine := Messaging.same_message CONSUMER_NAME (Events.message_id e) in
  match insert_or_nothing mine (claimed_inbox e lease) (inboxes s) with
  | (Some i, t) => Ok ((i, true), Store t (deliveries s) (events s))
  | (None, t) =>
      match scalar mine t with
      | None => Raise (RuntimeError "Inbox conflict did not return an existing row.")
      | Some (i, row) =>
          if decide (Messaging.status row ∈ _INBOX_TERMINAL_STATUSES)
          then Ok ((i, false), Store t (deliveries s) (events s))
          else if match Messaging.inbox_lease_expires_at row with
                  | Some l => now <? l | None => false end
          then Ok ((i, false), Store t (deliveries s) (events s))
          else Ok ((i, true),
                   Store (update i (fun _ => claimed_inbox e lease) t) (deliveries s) (events s))
      end
  end.

Definition same_channel (message : string) (c : NotificationChannel) (d : NotificationDelivery) : bool :=
  bool_decide (message_id d = message) && bool_decide (channel d = c).

Definition new_delivery (inbox_id : Z) (e : NotificationDeliveryRequestedV1)
    (c : NotificationChannel) : NotificationDelivery :=
  let p := Events.payload e in
  Row inbox_id (Events.message_id e) (Events.incident_id p) (Events.source_id p)
    (Events.tenant_id p) EVENT_NOTIFICATION_DELIVERY_REQUESTED_V1 (Events.severity p) c
    pending 0 None None None None None None None None None None None None.

(** Alphabetical order of the channel names. *)
Definition by_channel (x y : Z * NotificationDelivery) : bool :=
  match String.compare (channel_name (channel x.2)) (channel_name (channel y.2)) with
  | Gt => false | _ => true end.

Definition add_channel_deliveries (inbox_id : Z) (e : NotificationDeliveryRequestedV1) (s : store)
    : list (Z * NotificationDelivery) * store :=
  let t := fold_left (fun t c =>
      snd (insert_or_nothing (same_channel (Events.message_id e) c) (new_delivery inbox_id e c) t))
    (Events.channels (Events.payload e)) (deliveries s) in
  (order_by by_channel (select (fun d => bool_decide (message_id d = Events.message_id e)) t),
   Store (inboxes s) t (events s)).

(** ** Claiming due work *)

Definition due_unclaimed_work (now : datetime) (d : NotificationDelivery) : bool :=
  (attempt_count d <? MAX_DELIVERY_ATTEMPTS) &&
  (bool_decide (status d = pending) ||
   bool_decide (status d = retry_scheduled) &&
   match next_attempt_at d with Some t => t <=? now | None => false end) &&
  Messaging.null_or_past now (lease_expires_at d).

Definition abandoned_work (now : datetime) (d : NotificationDelivery) : bool :=
  bool_decide (status d = processing) &&
  match lease_expires_at d with Some t => t <=? now | None => false end.

Definition claimable (now : datetime) (d : NotificationDelivery) : bool :=
  Messaging.is_none (deleted_at d) && (due_unclaimed_work now d || abandoned_work now d).

Definition set_claimed (token : string) (lease now : datetime) (d : NotificationDelivery)
    : NotificationDelivery :=
  let is_abandoned_attempt := bool_decide (status d = processing) in
  Row (inbox_consumption_id d) (message_id d) (incident_id d) (source_id d) (tenant_id d)
    (event_type d) (severity d) (channel d) processing
    (if is_abandoned_attempt then attempt_count d else attempt_count d + 1)
    None (Some lease) (Some token) (Some (or_else (first_attempt_at d) now)) (Some now)
    (delivered_at d) (dead_lettered_at d) (provider_reference d) (last_error_category d)
    (last_error_code d) (last_error_detail d) (deleted_at d).

Definition claim_due_deliveries (locked : Z -> bool) (limit : nat) (token : string)
    (lease_seconds : Z) (now : datetime) (s : store) : list Z * store :=
  let keys := map fst (select_for_update locked (claimable now) limit (deliveries s)) in
  (keys, Store (inboxes s)
     (update_all keys (set_claimed token (now + seconds lease_seconds) now) (deliveries s)) (events s)).

(** ** Outcomes *)

Definition _get_claimed_delivery (i : Z) (token : string) (s : store) : option NotificationDelivery :=
  match get i (deliveries s) with
  | Some d => if decide (status d = processing /\ claim_token d = Some token) then Some d else None
  | None => None
  end.

Definition set_delivered (now : datetime) (reference : option string) (d : NotificationDelivery)
    : NotificationDelivery :=
  Row (inbox_consumption_id d) (message_id d) (incident_id d) (source_id d) (tenant_id d)
    (event_type d) (severity d) (channel d) delivered (attempt_count d) None None None
    (first_attempt_at d) (last_attempt_at d) (Some now) (dead_lettered_at d)
    (str_take 255 <$> reference) None None None (deleted_at d).

Definition set_retry (next : datetime) (cat : NotificationErrorCategory) (code : option string)
    (detail : string) (d : NotificationDelivery) : NotificationDelivery :=
  Row (inbox_consumption_id d) (message_id d) (incident_id d) (source_id d) (tenant_id d)
    (event_type d) (severity d) (channel d) retry_scheduled (attempt_count d) (Some next) None None
    (first_attempt_at d) (last_attempt_at d) (delivered_at d) (dead_lettered_at d)
    (provider_reference d) (Some cat) (str_take 64 <$> code) (Some (str_take 512 detail)) (deleted_at d).

Definition set_dead (now : datetime) (cat : NotificationErrorCategory) (code : option string)
    (detail : string) (d : NotificationDelivery) : NotificationDelivery :=
  Row (inbox_consumption_id d) (message_id d) (incident_id d) (source_id d) (tenant_id d)
    (event_type d) (severity d) (channel d) dead_letter (attempt_count d) None None None
    (Some (or_else (first_attempt_at d) now)) (Some (or_else (last_attempt_at d) now))
    (delivered_at d) (Some now) (provider_reference d) (Some cat) (str_take 64 <$> code)
    (Some (str_take 512 detail)) (deleted_at d).

Definition set_inbox_status (st : Messaging.inbox_status) (done_at : option datetime)
    (r : Messaging.InboxConsumption P) : Messaging.InboxConsumption P :=
  let lease := match done_at with Some _ => None | None => Messaging.inbox_lease_expires_at r end in
  let processed := match done_at with Some t => Some t | None => Messaging.processed_at r end in
  Messaging.Inbox (Messaging.consumer_name r) (Messaging.message_id r)
    (Messaging.inbox_event_type r) (Messaging.inbox_payload r) st lease processed
    (Messaging.last_error_category r) (Messaging.last_error_code r) (Messaging.last_error_detail r).

Definition inbox_outcome (statuses : list delivery_status) : Messaging.inbox_status :=
  if forallb (fun st => bool_decide (st = delivered)) statuses then Messaging.completed
  else if forallb (fun st => bool_decide (st = dead_letter)) statuses then Messaging.inbox_dead_letter
  else Messaging.completed_with_dead_letters.

Definition statuses_of (inbox_id : Z) (t : table NotificationDelivery) : list delivery_status :=
  map (fun x => status x.2)
    (select (fun d => (inbox_consumption_id d =? inbox_id) && Messaging.is_none (deleted_at d)) t).

Definition _refresh_inbox_status (inbox_id : Z) (now : datetime) (s : store) : result error store :=
  match get inbox_id (inboxes s) with
  | None => Raise (RuntimeError ("Inbox consumption " +:+ str_of_Z inbox_id +:+ " is missing."))
  | Some _ =>
      let statuses := statuses_of inbox_id (deliveries s) in
      let f := if bool_decide (statuses = []) ||
                  negb (forallb (fun st => bool_decide (st ∈ _DELIVERY_TERMINAL_STATUSES)) statuses)
               then set_inbox_status Messaging.processing None
               else set_inbox_status (inbox_outcome statuses) (Some now) in
      Ok (Store (update inbox_id f (inboxes s)) (deliveries s) (events s))
  end.

Definition with_deliveries (t : table NotificationDelivery) (s : store) : store :=
  Store (inboxes s) t (events s).

Definition mark_delivery_delivered (i : Z) (token : string) (reference : option string)
    (now : datetime) (s : store) : result error (option NotificationDelivery * store) :=
  match _get_claimed_delivery i token s with
  | None => Ok (None, s)
  | Some d =>
      let s := with_deliveries (update i (set_delivered now reference) (deliveries s)) s in
      bind_result (_refresh_inbox_status (inbox_consumption_id d) now s) (fun s =>
        Ok (get i (deliveries s), s))
  end.

Definition schedule_delivery_retry (i : Z) (token : string) (next : datetime)
    (cat : NotificationErrorCategory) (code : option string) (detail : string) (s : store)
    : result error (option NotificationDelivery * store) :=
  match _get_claimed_delivery i token s with
  | None => Ok (None, s)
  | Some d =>
      if MAX_DELIVERY_ATTEMPTS <=? attempt_count d
      then Raise (ValueError "Delivery attempt budget is exhausted.")
      else
        let s := with_deliveries (update i (set_retry next cat code detail) (deliveries s)) s in
        Ok (get i (deliveries s), s)
  end.

Definition dlq_key (i : Z) : string := "notification-delivery-dlq:" +:+ str_of_Z i.

Definition dead_event (i : Z) (now : datetime) (cat : NotificationErrorCategory)
    (code : option string) (d : NotificationDelivery)
    : result ValidationError NotificationDeliveryDeadLetteredV1 :=
  make_dead_lettered (dlq_key i) now
    (DeadLetteredPayload i (message_id d) (incident_id d) (source_id d) (tenant_id d) (channel d)
      (attempt_count d) cat (str_take 64 <$> code)
      (or_else (first_attempt_at d) now) (or_else (last_attempt_at d) now)).

Definition dead_letter_delivery (i : Z) (token : string) (cat : NotificationErrorCategory)
    (code : option string) (detail : string) (now : datetime) (s : store)
    : result error (option (NotificationDelivery * Z) * store) :=
  match _get_claimed_delivery i token s with
  | None => Ok (None, s)
  | Some d =>
      let t := update i (set_dead now cat code detail) (deliveries s) in
      match dead_event i now cat code d with
      | Raise _ => Raise ValidationFailed
      | Ok ev =>
          match Messaging.add_outbox_event "notification_delivery" (str_of_Z i)
                  EVENT_NOTIFICATION_DELIVERY_DEAD_LETTERED_V1 (dump_dead ev) (dlq_key i)
                  (tenant_id d) (events s) with
          | Raise (Messaging.runtime_error m) => Raise (RuntimeError m)
          | Ok (o, evs) =>
              bind_result (_refresh_inbox_status (inbox_consumption_id d) now
                (Store (inboxes s) t evs)) (fun s =>
              Ok ((fun d => (d, o)) <$> get i (deliveries s), s))
          end
      end
  end.

(** ** Steps: every transaction on the store, and the publisher's on the outbox *)

Definition has_event (key : string) (t : Messaging.outbox P) : Prop :=
  exists j e, get j t = Some e /\ Messaging.idempotency_key e = key.

Inductive step : store -> store -> Prop :=
| step_claim_request e lease now s r s' :
    claim_notification_request e lease now s = Ok (r, s') -> step s s'
| step_add_deliveries inbox_id e s : step s (add_channel_deliveries inbox_id e s).2
| step_claim_due locked limit token lease now s :
    step s (claim_due_deliveries locked limit token lease now s).2
| step_delivered i token ref now s r s' :
    mark_delivery_delivered i token ref now s = Ok (r, s') -> step s s'
| step_retry i token next cat code detail s r s' :
    schedule_delivery_retry i token next cat code detail s = Ok (r, s') -> step s s'
| step_dead i token cat code detail now s r s' :
    dead_letter_delivery i token cat code detail now s = Ok (r, s') -> step s s'
| step_outbox s t :
    Messaging.step (events s) t -> (forall i, has_event (dlq_key i) t -> has_event (dlq_key i) (events s)) ->
    step s (Store (inboxes s) (deliveries s) t).

Definition init : store := Store (empty_table _) (empty_table _) (empty_table _).

Definition terminal (d : NotificationDelivery) : bool :=
  bool_decide (status d ∈ _DELIVERY_TERMINAL_STATUSES).

(** The shape of a delivery in each status. *)
Definition wf_delivery (d : NotificationDelivery) : Prop :=
  match status d with
  | pending => attempt_count d = 0 /\ claim_token d = None /\ lease_expires_at d = None
  | processing => 1 <= attempt_count d <= MAX_DELIVERY_ATTEMPTS /\ is_Some (claim_token d) /\
      is_Some (lease_expires_at d) /\ is_Some (first_attempt_at d) /\ is_Some (last_attempt_at d)
  | retry_scheduled => 1 <= attempt_count d < MAX_DELIVERY_ATTEMPTS /\ claim_token d = None /\
      lease_expires_at d = None /\ is_Some (next_attempt_at d)
  | delivered => 1 <= attempt_count d <= MAX_DELIVERY_ATTEMPTS /\ claim_token d = None /\
      is_Some (delivered_at d) /\ last_error_detail d = None
  | dead_letter => 1 <= attempt_count d <= MAX_DELIVERY_ATTEMPTS /\ claim_token d = None /\
      is_Some (dead_lettered_at d) /\ is_Some (last_error_detail d)
  end.

Record wf (s : store) : Prop := {
  wf_inboxes : wf_table (inboxes s);
  wf_deliveries : wf_table (deliveries s);
  wf_events : Messaging.wf_outbox (events s);
  wf_each : every (fun _ => wf_delivery) (deliveries s);
  wf_channels : unique (fun d => Some (message_id d, channel d)) (deliveries s);
  wf_dlq : forall i, has_event (dlq_key i) (events s) <->
    exists d, get i (deliveries s) = Some d /\ status d = dead_letter
}.

End Payload.
Arguments store : clear implicits.
End Delivery.

(** ** Theorems *)

Module DeliveryTheorems.
Import Events Delivery.

Section Payload.
Context {P : Type} (dump_request : NotificationDeliveryRequestedV1 -> P)
        (dump_dead : NotificationDeliveryDeadLetteredV1 -> P).
#[local] Abbreviation step := (step dump_request dump_dead).
Implicit Types (s : store P) (d : NotificationDelivery).

Lemma dlq_key_inj i j : dlq_key i = dlq_key j -> i = j.
Proof. unfold dlq_key. intros H. apply str_of_Z_inj. by simplify_eq. Qed.

Lemma get_claimed_spec i token s d :
  _get_claimed_delivery i token s = Some d ->
  get i (deliveries s) = Some d /\ status d = processing /\ claim_token d = Some token.
Proof.
  unfold _get_claimed_delivery. destruct (get i (deliveries s)) as [d'|]; [|done].
  case_decide as H; [|done]. intros [= ->]. tauto.
Qed.

Lemma refresh_spec inbox_id now s s' :
  _refresh_inbox_status inbox_id now s = Ok s' ->
  deliveries s' = deliveries s /\ events s' = events s /\
  (wf_table (inboxes s) -> wf_table (inboxes s')).
Proof.
  unfold _refresh_inbox_status. destruct (get inbox_id (inboxes s)); [|done].
  intros [= <-]. split; [done |]. split; [done |]. by apply wf_update.
Qed.

(** Adding the requested channels keeps every delivery and creates pending ones. *)
Lemma add_channels_spec inbox_id e (l : list NotificationChannel) t :
  wf_table t -> every (fun _ => wf_delivery) t ->
  unique (fun d => Some (message_id d, channel d)) t ->
  let t' := fold_left (fun t c =>
    snd (insert_or_nothing (same_channel (Events.message_id e) c) (new_delivery inbox_id e c) t)) l t in
  wf_table t' /\ every (fun _ => wf_delivery) t' /\
  unique (fun d => Some (message_id d, channel d)) t' /\
  (forall i d, get i t = Some d -> get i t' = Some d) /\
  (forall i d, get i t' = Some d -> get i t = Some d \/ get i t = None /\ next_id t <= i /\ exists c, d = new_delivery inbox_id e c) /\
  next_id t' = next_id t + Z.of_nat (length l) /\
  (forall c, c ∈ l -> exists i d, get i t' = Some d /\ message_id d = Events.message_id e /\ channel d = c).
Proof.
  revert t. induction l as [|c l IH]; intros t Hk Hr Hu; simpl.
  { split; [done |]. split; [done |]. split; [done |]. split; [done |].
    split; [by left |]. split; [lia | intros c Hc; set_solver]. }
  destruct (insert_or_nothing_cases (same_channel (Events.message_id e) c) (new_delivery inbox_id e c) t Hk)
    as [(i & d & Es & ->)|[Hnone ->]]; simpl snd.
  - destruct (IH (Table (rows t) (next_id t + 1)) (wf_burn _ Hk) Hr Hu) as (H1 & H2 & H3 & H4 & H5 & Hn & H6).
    do 4 (split; [assumption |]). split; [|split; [rewrite Hn; simpl; lia |]].
    { intros j r Hg. apply H5 in Hg as [Hg|(Hg & Hle & Hc)]; [by left | right]. simpl in Hle. split; [done |]. split; [lia | done]. } intros c' [->|Hc']%elem_of_cons; [|by apply H6].
    apply scalar_Some in Es as [Hg Hs]; [|done]. unfold same_channel in Hs. bool_to_prop.
    exists i, d. split; [by apply H4 | done].
  - assert (get (next_id t) t = None) as Hfresh.
    { destruct (get (next_id t) t) eqn:Hg; [|done]. apply get_lt in Hg; [lia | done]. }
    destruct (IH (insert (new_delivery inbox_id e c) t).2) as (H1 & H2 & H3 & H4 & H5 & Hn & H6).
    + by apply wf_insert.
    + by apply every_insert.
    + apply unique_insert; [done.. |]. intros k [= <-] i d Hg [= Hm Hc].
      specialize (Hnone i d Hg). simpl in Hnone. unfold same_channel in Hnone.
      by rewrite !bool_decide_eq_true_2 in Hnone.
    + split; [done |]. split; [done |]. split; [done |]. split; [|split; [|split]].
      * intros i d Hg. apply H4. rewrite get_insert by done.
        destruct (Z.eqb_spec i (next_id t)) as [->|]; [congruence | done].
      * intros i d Hg. apply H5 in Hg as [Hg|(Hg & Hle & Hc)]; rewrite get_insert in Hg by done;
          destruct (Z.eqb_spec i (next_id t)) as [->|]; simplify_eq; [|by left|].
        -- right. split; [done |]. split; [lia | by exists c].
        -- right. simpl in Hle. split; [done |]. split; [lia | done].
      * etrans; [exact Hn |]. simpl. lia.
      * intros c' [->|Hc']%elem_of_cons; [|by apply H6].
        exists (next_id t), (new_delivery inbox_id e c). split; [|done]. apply H4.
        by rewrite get_insert, Z.eqb_refl.
Qed.

(** An update that keeps the delivery's identity and does not make or unmake a
    dead letter. *)
Lemma wf_update_delivery i f s d :
  wf s -> get i (deliveries s) = Some d -> wf_delivery (f d) ->
  (message_id (f d), channel (f d)) = (message_id d, channel d) ->
  (status (f d) = dead_letter <-> status d = dead_letter) ->
  wf (with_deliveries (update i f (deliveries s)) s).
Proof.
  intros [Hi Hd He Hr Hu Hq] Hg Hf Hid Hst. split; simpl; [done | by apply wf_update | done | | |].
  - apply every_update; [done |]. intros r Hr'. by simplify_eq.
  - apply unique_update; [done |]. intros r Hr'. simplify_eq. left. congruence.
  - intros j. rewrite Hq, get_update. destruct (Z.eqb_spec i j) as [->|]; [|done].
    rewrite Hg. simpl. split; intros (r & [= <-] & ?); eexists; (split; [done |]); tauto.
Qed.

Lemma wf_refresh inbox_id now s s' :
  wf s -> _refresh_inbox_status inbox_id now s = Ok s' -> wf s'.
Proof.
  intros [Hi Hd He Hr Hu Hq] H. apply refresh_spec in H as (Ed & Ee & Hi').
  split; rewrite ?Ed, ?Ee; try done. by apply Hi'.
Qed.

Lemma wf_set_claimed token lease now d :
  wf_delivery d -> claimable now d = true -> wf_delivery (set_claimed token lease now d).
Proof.
  unfold wf_delivery, claimable, due_unclaimed_work, abandoned_work, set_claimed, MAX_DELIVERY_ATTEMPTS.
  simpl. intros Hd Hc. destruct (status d) eqn:Es; simpl in *; bool_to_prop.
  - repeat split; try by eexists. all: lia.
  - repeat split; try by eexists. all: lia.
  - repeat split; try by eexists. all: lia.
  - rewrite ?andb_false_r in *. done.
  - rewrite ?andb_false_r in *. done.
Qed.

Lemma claimable_live now d : claimable now d = true -> terminal d = false.
Proof.
  unfold claimable, due_unclaimed_work, abandoned_work, terminal.
  destruct (status d); simpl; rewrite ?andb_false_r; done.
Qed.

Lemma claim_due_get locked limit token lease now s i :
  wf_table (deliveries s) ->
  let '(keys, s') := claim_due_deliveries locked limit token lease now s in
  NoDup keys /\ (length keys <= limit)%nat /\
  (i ∈ keys -> exists d, get i (deliveries s) = Some d /\ claimable now d = true /\ locked i = false /\
     get i (deliveries s') = Some (set_claimed token (now + seconds lease) now d)) /\
  (i ∉ keys -> get i (deliveries s') = get i (deliveries s)).
Proof.
  intros Hk. unfold claim_due_deliveries. simpl.
  pose proof (select_for_update_NoDup locked (claimable now) limit _ Hk) as Hnd.
  split; [done |]. split; [|split].
  - rewrite length_map. unfold select_for_update. rewrite length_take. lia.
  - intros Hi. rewrite get_update_all, decide_True by done.
    apply list_elem_of_fmap in Hi as ([j d] & -> & Hin).
    apply select_for_update_spec in Hin as (Hg & Hc & Hl); [|done]. exists d. simpl. by rewrite Hg.
  - intros Hi. by rewrite get_update_all, decide_False by done.
Qed.

Lemma wf_claim_due locked limit token lease now s :
  wf s -> wf (claim_due_deliveries locked limit token lease now s).2.
Proof.
  intros [Hi Hd He Hr Hu Hq].
  assert (forall i d', get i (deliveries (claim_due_deliveries locked limit token lease now s).2) = Some d' ->
    exists d, get i (deliveries s) = Some d /\ (d' = d \/
      claimable now d = true /\ d' = set_claimed token (now + seconds lease) now d)) as Hback.
  { intros i d' Hg. pose proof (claim_due_get locked limit token lease now s i Hd) as H.
    destruct (claim_due_deliveries _ _ _ _ _ _) as [keys s']. destruct H as (_ & _ & Hin & Hout).
    destruct (decide (i ∈ keys)) as [Hi'|Hi'].
    - destruct (Hin Hi') as (d & H1 & H2 & _ & H3). exists d. split; [done |]. right.
      simpl in Hg. split; [done | congruence].
    - exists d'. rewrite <- (Hout Hi'). auto. }
  split; try done.
  - by apply wf_update_all.
  - intros i d' Hg. apply Hback in Hg as (d & Hg & [->|[Hc ->]]); [by apply (Hr i) |].
    apply wf_set_claimed; [by apply (Hr i) | done].
  - by apply unique_update_all.
  - intros i. change (events _) with (events s). rewrite Hq. split.
    + intros (d & Hg & Hs). exists d. split; [|done].
      pose proof (claim_due_get locked limit token lease now s i Hd) as H.
      destruct (claim_due_deliveries _ _ _ _ _ _) as [keys s']. destruct H as (_ & _ & Hin & Hout).
      destruct (decide (i ∈ keys)) as [Hi'|Hi']; [|simpl; by rewrite Hout].
      destruct (Hin Hi') as (d2 & H1 & H2 & _). simplify_eq.
      apply claimable_live in H2. unfold terminal in H2. by rewrite Hs in H2.
    + intros (d' & Hg & Hs). apply Hback in Hg as (d & Hg & [->|[_ ->]]); [by exists d | done].
Qed.

Lemma has_event_add agg agg_id typ p key tenant t i t' key' :
  Messaging.wf_outbox t -> Messaging.add_outbox_event (P := P) agg agg_id typ p key tenant t = Ok (i, t') ->
  has_event key' t' <-> key' = key \/ has_event key' t.
Proof.
  intros Hwf E. destruct (MessagingTheorems.add_outbox_event_spec agg agg_id typ p key tenant t Hwf)
    as (i' & t2 & E' & _ & Hc). rewrite E in E'. simplify_eq. unfold has_event.
  destruct Hc as [(e & Hg & He & Hsame)|(_ & Hnone & Hnew)].
  - setoid_rewrite Hsame. split; [by right |]. intros [->|]; [by exists i', e | done].
  - setoid_rewrite Hnew. split.
    + intros (j & e & Hj & He). destruct (Z.eqb_spec j i'); simplify_eq/=; [by left | right; by exists j, e].
    + intros [->|(j & e & Hj & He)]; [exists i'; rewrite Z.eqb_refl; by eexists |].
      exists j, e. destruct (Z.eqb_spec j i') as [->|]; [congruence | done].
Qed.

Lemma has_event_update i f key (t : Messaging.outbox P) :
  (forall e, Messaging.idempotency_key (f e) = Messaging.idempotency_key e) ->
  has_event key t -> has_event key (update i f t).
Proof.
  intros Hf (j & e & Hj & He). exists j. rewrite get_update, Hj.
  destruct (i =? j); eexists; (split; [done |]); by rewrite ?Hf.
Qed.

(** No operation on the outbox removes an event. *)
Lemma has_event_step key t t' :
  Messaging.wf_outbox t -> Messaging.step (P := P) t t' -> has_event key t -> has_event key t'.
Proof.
  intros Hwf Hs. destruct Hs as [agg agg_id typ p k tenant t j t' E|locked limit token lease now types t
    |j now token t|j err next token t].
  - intros H. apply (has_event_add _ _ _ _ _ _ _ _ _ key Hwf E). by right.
  - unfold Messaging.claim_pending_outbox_events. case_decide; [done |]. simpl.
    generalize (map fst (select_for_update locked (Messaging.claimable now types) limit t)) as keys.
    intros keys. clear Hwf. revert t. induction keys as [|k keys IH]; intros t Ht; [done |].
    apply IH. by apply has_event_update.
  - unfold Messaging.mark_outbox_published. destruct (Messaging.claimed_row j token t); [|done].
    by apply has_event_update.
  - unfold Messaging.mark_outbox_publish_failed. destruct (Messaging.claimed_row j token t); [|done].
    by apply has_event_update.
Qed.

(** What a dead-lettering transaction did. *)
Lemma dead_letter_cases i token cat code detail now s r s' :
  wf s -> dead_letter_delivery dump_dead i token cat code detail now s = Ok (r, s') ->
  s' = s /\ r = None \/
  exists d, get i (deliveries s) = Some d /\ status d = processing /\ claim_token d = Some token /\
    deliveries s' = update i (set_dead now cat code detail) (deliveries s) /\
    Messaging.wf_outbox (events s') /\ wf_table (inboxes s') /\
    (forall key, has_event key (events s') <-> key = dlq_key i \/ has_event key (events s)).
Proof.
  intros Hwf. unfold dead_letter_delivery. destruct (_get_claimed_delivery i token s) as [d|] eqn:Ec.
  2: { intros [= <- <-]. by left. }
  apply get_claimed_spec in Ec as (Hg & Hst & Ht).
  destruct (dead_event i now cat code d) as [ev|]; [|done].
  destruct (Messaging.add_outbox_event _ _ _ _ _ _ _) as [[o evs]|[m]] eqn:Ea; [|done].
  destruct (_refresh_inbox_status _ _ _) as [s2|] eqn:Er; [|done]. intros [= <- <-].
  apply refresh_spec in Er as (Ed & Ee & Hi). simpl in *. right. exists d.
  do 4 (split; [done |]). rewrite Ee. split; [|split; [apply Hi, Hwf |]].
  - eapply MessagingTheorems.add_outbox_event_wf; [apply Hwf | exact Ea].
  - intros key. by apply (has_event_add _ _ _ _ _ _ _ _ _ _ (wf_events _ Hwf) Ea).
Qed.

Lemma wf_dead_letter i token cat code detail now s r s' :
  wf s -> dead_letter_delivery dump_dead i token cat code detail now s = Ok (r, s') -> wf s'.
Proof.
  intros Hwf H. destruct (dead_letter_cases _ _ _ _ _ _ _ _ _ Hwf H) as
    [[-> _]|(d & Hg & Hst & Ht & Ed & Hev & Hin & Hkeys)]; [done |].
  destruct Hwf as [Hi Hd He Hr Hu Hq]. split; rewrite ?Ed; try done.
  - by apply wf_update.
  - apply every_update; [done |]. intros r' Hr'. simplify_eq. intros Hw.
    unfold wf_delivery in *. rewrite Hst in Hw. simpl. destruct Hw as (? & ? & _).
    repeat split; try by eexists. all: lia.
  - apply unique_update; [done |]. by left.
  - intros j. rewrite Hkeys, Hq, get_update. destruct (Z.eqb_spec i j) as [->|Hne].
    + rewrite Hg. simpl. split; [by eexists | by left].
    + split; [|by right]. intros [E%dlq_key_inj|]; [congruence | done].
Qed.

Lemma claim_request_cases e lease now s i claimed s' :
  wf s -> claim_notification_request dump_request e lease now s = Ok ((i, claimed), s') ->
  deliveries s' = deliveries s /\ events s' = events s /\ wf_table (inboxes s').
Proof.
  intros [Hi _ _ _ _ _]. unfold claim_notification_request.
  set (mine := Messaging.same_message _ _).
  destruct (insert_or_nothing_cases mine (claimed_inbox dump_request e (now + seconds lease)) (inboxes s) Hi)
    as [(j & r & _ & ->)|[_ ->]].
  - destruct (scalar mine _) as [[k row]|]; [|done].
    case_decide; [intros; by simplify_eq/=; auto using wf_burn |].
    destruct (match Messaging.inbox_lease_expires_at row with Some l => now <? l | None => false end);
      intros; simplify_eq/=; auto using wf_burn, wf_update.
  - intros; simplify_eq/=. split; [done |]. split; [done |]. exact (wf_insert _ _ Hi).
Qed.

Lemma delivery_step_wf s s' : wf s -> step s s' -> wf s'.
Proof.
  intros Hwf Hs. destruct Hs as [e lease now s [i claimed] s' H|inbox_id e s|? ? ? ? ? s
    |i token ref now s r s' H|i token next cat code detail s r s' H
    |i token cat code detail now s r s' H|s t H Hdlq].
  - apply claim_request_cases in H as (Ed & Ee & Hi); [|done].
    destruct Hwf. split; rewrite ?Ed, ?Ee; done.
  - destruct Hwf as [Hi Hd He Hr Hu Hq].
    destruct (add_channels_spec inbox_id e (channels (payload e)) (deliveries s) Hd Hr Hu)
      as (H1 & H2 & H3 & H4 & H5 & _). split; simpl; try done.
    intros j. rewrite Hq. split.
    + intros (d & Hg & Hst). exists d. split; [by apply H4 | done].
    + intros (d & Hg & Hst). apply H5 in Hg as [Hg|(_ & _ & [c ->])]; [by exists d | done].
  - by apply wf_claim_due.
  - unfold mark_delivery_delivered in H. destruct (_get_claimed_delivery i token s) as [d|] eqn:Ec.
    2: { by simplify_eq. }
    apply get_claimed_spec in Ec as (Hg & Hst & Ht).
    destruct (_refresh_inbox_status _ _ _) as [s2|] eqn:Er; simplify_eq/=.
    apply (wf_refresh _ _ _ _) in Er; [done |]. apply (wf_update_delivery i _ s d); try done.
    + pose proof (wf_each _ Hwf i d Hg) as Hw. simpl in Hw. unfold wf_delivery in *. rewrite Hst in Hw.
      simpl. destruct Hw as (? & ? & _). repeat split; try by eexists. all: lia.
    + rewrite Hst. done.
  - unfold schedule_delivery_retry in H. destruct (_get_claimed_delivery i token s) as [d|] eqn:Ec.
    2: { by simplify_eq. }
    apply get_claimed_spec in Ec as (Hg & Hst & Ht).
    destruct (MAX_DELIVERY_ATTEMPTS <=? attempt_count d) eqn:Em; simplify_eq/=.
    apply (wf_update_delivery i _ s d); try done.
    + pose proof (wf_each _ Hwf i d Hg) as Hw. simpl in Hw. unfold wf_delivery in *. rewrite Hst in Hw.
      simpl. destruct Hw as (? & ? & _). bool_to_prop. repeat split; try by eexists. all: lia.
    + rewrite Hst. done.
  - by eapply wf_dead_letter.
  - destruct Hwf as [Hi Hd He Hr Hu Hq]. split; simpl; try done.
    + by eapply MessagingTheorems.outbox_step_wf.
    + intros i. rewrite <- Hq. split; [by apply Hdlq |].
      by eapply has_event_step.
Qed.

Lemma rtc_step_wf s s' : wf s -> rtc step s s' -> wf s'.
Proof. intros Hwf. induction 1 as [|a b c Hs _ IH]; [done |]. by apply IH, (delivery_step_wf a). Qed.

Lemma init_store_wf : wf (init (P := P)).
Proof.
  split; try apply wf_empty; try apply every_empty; try apply unique_empty.
  - split; [apply wf_empty | apply unique_empty].
  - intros i. split; [intros (? & ? & H & _) | intros (? & H & _)]; done.
Qed.

(** C1: whatever transactions ran in whatever order, a delivery has made at most
    three attempts and its claim, retry time and outcome fit its status; a
    message has one delivery per channel; and the outbox holds the dead-letter
    event of a delivery exactly when that delivery is dead-lettered. *)
Theorem delivery_invariant s :
  rtc step init s ->
  (forall i d, get i (deliveries s) = Some d ->
     wf_delivery d /\ 0 <= attempt_count d <= MAX_DELIVERY_ATTEMPTS) /\
  (forall i j d e, get i (deliveries s) = Some d -> get j (deliveries s) = Some e ->
     message_id d = message_id e -> channel d = channel e -> i = j) /\
  (forall i, has_event (dlq_key i) (events s) <->
     exists d, get i (deliveries s) = Some d /\ status d = dead_letter).
Proof.
  intros Hr. destruct (rtc_step_wf _ _ init_store_wf Hr) as [Hi Hd He Hw Hu Hq].
  split; [|split; [|done]].
  - intros i d Hg. specialize (Hw i d Hg). simpl in Hw. split; [done |].
    unfold wf_delivery, MAX_DELIVERY_ATTEMPTS in *. destruct (status d); lia.
  - intros i j d e H1 H2 Hm Hc. apply (Hu i j d e (message_id d, channel d)); [done.. |].
    by rewrite Hm, Hc.
Qed.

(** The life of a delivery. *)
Inductive transition : NotificationDelivery -> NotificationDelivery -> Prop :=
| t_claimed token lease now d :
    claimable now d = true -> transition d (set_claimed token lease now d)
| t_delivered now ref d : status d = processing -> transition d (set_delivered now ref d)
| t_retried next cat code detail d :
    status d = processing -> attempt_count d < MAX_DELIVERY_ATTEMPTS ->
    transition d (set_retry next cat code detail d)
| t_dead now cat code detail d :
    status d = processing -> transition d (set_dead now cat code detail d).

Lemma step_transition s s' i d :
  wf s -> step s s' -> get i (deliveries s) = Some d ->
  exists d', get i (deliveries s') = Some d' /\ (d' = d \/ transition d d').
Proof.
  intros Hwf Hs Hg. destruct Hs as [e lease now s [j claimed] s' H|inbox_id e s|locked limit token lease now s
    |j token ref now s r s' H|j token next cat code detail s r s' H
    |j token cat code detail now s r s' H|s t H Hdlq].
  - apply claim_request_cases in H as (Ed & _); [|done]. exists d. rewrite Ed. auto.
  - destruct (add_channels_spec inbox_id e (channels (payload e)) (deliveries s)
      (wf_deliveries _ Hwf) (wf_each _ Hwf) (wf_channels _ Hwf)) as (_ & _ & _ & H4 & _).
    exists d. split; [by apply H4 | by left].
  - pose proof (claim_due_get locked limit token lease now s i (wf_deliveries _ Hwf)) as H.
    destruct (claim_due_deliveries _ _ _ _ _ _) as [keys s']. destruct H as (_ & _ & Hin & Hout). simpl.
    destruct (decide (i ∈ keys)) as [Hi|Hi].
    + destruct (Hin Hi) as (d2 & H1 & H2 & _ & H3). simplify_eq. eexists. split; [done |].
      right. by constructor.
    + rewrite Hout by done. exists d. auto.
  - unfold mark_delivery_delivered in H. destruct (_get_claimed_delivery j token s) as [d2|] eqn:Ec.
    2: { simplify_eq. exists d. auto. }
    apply get_claimed_spec in Ec as (Hg2 & Hst & _).
    destruct (_refresh_inbox_status _ _ _) as [s2|] eqn:Er; simplify_eq/=.
    apply refresh_spec in Er as (-> & _). simpl. rewrite get_update.
    destruct (Z.eqb_spec j i) as [->|]; [|exists d; auto]. assert (d2 = d) as -> by congruence. rewrite Hg.
    eexists. split; [done |]. right. by constructor.
  - unfold schedule_delivery_retry in H. destruct (_get_claimed_delivery j token s) as [d2|] eqn:Ec.
    2: { simplify_eq. exists d. auto. }
    apply get_claimed_spec in Ec as (Hg2 & Hst & _).
    destruct (MAX_DELIVERY_ATTEMPTS <=? attempt_count d2) eqn:Em; simplify_eq/=. rewrite get_update.
    destruct (Z.eqb_spec j i) as [->|]; [|exists d; auto]. assert (d2 = d) as -> by congruence. rewrite Hg.
    eexists. split; [done |]. right. bool_to_prop. by constructor.
  - destruct (dead_letter_cases _ _ _ _ _ _ _ _ _ Hwf H) as [[-> _]|(d2 & Hg2 & Hst & _ & -> & _)];
      [exists d; auto |].
    rewrite get_update. destruct (Z.eqb_spec j i) as [->|]; [|exists d; auto]. assert (d2 = d) as -> by congruence. rewrite Hg.
    eexists. split; [done |]. right. by constructor.
  - exists d. auto.
Qed.

Lemma transition_live d d' : transition d d' -> terminal d = false.
Proof.
  intros Ht. destruct Ht as [token lease now d H|now ref d H|next cat code detail d H _|now cat code detail d H];
    [by eapply claimable_live | by unfold terminal; rewrite H..].
Qed.

(** C14: deliveries are never lost and move only along the documented life cycle:
    claimed when due or abandoned, then delivered, scheduled for retry while
    attempts remain, or dead-lettered, by a transaction that holds the claim; and
    a delivered or dead-lettered delivery never changes again. *)
Theorem delivery_state_machine s s' i d :
  wf s -> rtc step s s' -> get i (deliveries s) = Some d ->
  exists d', get i (deliveries s') = Some d' /\ rtc transition d d' /\
    (terminal d = true -> d' = d).
Proof.
  intros Hwf Hr Hg. revert d Hwf Hg. induction Hr as [s|s s1 s' Hs _ IH]; intros d Hwf Hg.
  { exists d. split; [done |]. split; [reflexivity | done]. }
  destruct (step_transition s s1 i d Hwf Hs Hg) as (d1 & Hg1 & H1).
  destruct (IH d1 (delivery_step_wf _ _ Hwf Hs) Hg1) as (d' & Hg' & Hr' & Ht).
  exists d'. split; [done |]. destruct H1 as [->|H1]; [done |]. split; [by eapply rtc_l |].
  intros Hterm. apply transition_live in H1. congruence.
Qed.

(** A claim pass takes due work only, at most [limit] rows, each leased to the
    token with one more attempt counted unless its last attempt was abandoned;
    when it took fewer than [limit], nothing unlocked and due is left. *)
Theorem claim_due_exact locked limit token lease now s :
  wf s ->
  let '(keys, s') := claim_due_deliveries locked limit token lease now s in
  (length keys <= limit)%nat /\
  (forall i, i ∈ keys -> exists d, get i (deliveries s) = Some d /\ claimable now d = true /\
     get i (deliveries s') = Some (set_claimed token (now + seconds lease) now d) /\
     attempt_count (set_claimed token (now + seconds lease) now d) <= MAX_DELIVERY_ATTEMPTS) /\
  (forall i, i ∉ keys -> get i (deliveries s') = get i (deliveries s)) /\
  ((length keys < limit)%nat -> forall i d, get i (deliveries s) = Some d ->
     claimable now d = true -> locked i = false -> i ∈ keys).
Proof.
  intros Hwf. pose proof (fun i => claim_due_get locked limit token lease now s i (wf_deliveries _ Hwf)) as H.
  destruct (claim_due_deliveries locked limit token lease now s) as [keys s'] eqn:E.
  split; [apply (H 0) |]. split; [|split].
  - intros i Hi. destruct (H i) as (_ & _ & Hin & _). destruct (Hin Hi) as (d & Hg & Hc & _ & Hg').
    exists d. repeat split; [done.. |].
    pose proof (wf_set_claimed token (now + seconds lease) now d (wf_each _ Hwf i d Hg) Hc) as Hw.
    unfold wf_delivery in Hw. apply Hw.
  - intros i Hi. by apply (H i).
  - intros Hlen i d Hg Hc Hl. unfold claim_due_deliveries in E. injection E as <- <-.
    rewrite length_map in Hlen. apply list_elem_of_fmap. exists (i, d). split; [done |].
    apply select_for_update_complete; [apply Hwf | done..].
Qed.

Lemma statuses_of_spec inbox_id t st :
  wf_table t -> st ∈ statuses_of inbox_id t <->
  exists i d, get i t = Some d /\ inbox_consumption_id d = inbox_id /\ deleted_at d = None /\ status d = st.
Proof.
  intros Hwf. unfold statuses_of. rewrite list_elem_of_fmap. split.
  - intros ([i d] & -> & Hin%list_elem_of_In). apply select_spec in Hin as [Hg Hp]; [|done].
    bool_to_prop. exists i, d. repeat split; try done. by destruct (deleted_at d).
  - intros (i & d & Hg & Hi & Hd & Hs). exists (i, d). split; [done |].
    apply list_elem_of_In, select_spec; [done |]. split; [done |]. by rewrite Hi, Z.eqb_refl, Hd.
Qed.

(** What the inbox row says after a refresh. *)
Definition inbox_reflects (inbox_id : Z) (now : datetime) (s : store P)
    (r : Messaging.InboxConsumption P) : Prop :=
  let sts := statuses_of inbox_id (deliveries s) in
  (Messaging.status r = Messaging.processing <-> sts = [] \/ exists st, st ∈ sts /\ st ∉ _DELIVERY_TERMINAL_STATUSES) /\
  (Messaging.status r = Messaging.completed <-> sts <> [] /\ forall st, st ∈ sts -> st = delivered) /\
  (Messaging.status r = Messaging.inbox_dead_letter <-> sts <> [] /\ forall st, st ∈ sts -> st = dead_letter) /\
  (Messaging.status r <> Messaging.processing ->
     Messaging.processed_at r = Some now /\ Messaging.inbox_lease_expires_at r = None).

Lemma refresh_reflects inbox_id now s row :
  get inbox_id (inboxes s) = Some row ->
  exists s' r, _refresh_inbox_status inbox_id now s = Ok s' /\
    deliveries s' = deliveries s /\ get inbox_id (inboxes s') = Some r /\ inbox_reflects inbox_id now s r.
Proof.
  intros Hg. unfold _refresh_inbox_status. rewrite Hg.
  eexists _, _. split; [done |]. split; [done |]. simpl. rewrite get_update, Z.eqb_refl, Hg.
  split; [done |]. unfold inbox_reflects.
  set (sts := statuses_of inbox_id (deliveries s)).
  destruct (bool_decide (sts = [])) eqn:En; bool_to_prop; simpl.
  { rewrite En. split; [split; [by left | done] |]. split; [split; [done | by intros []] |].
    split; [split; [done | by intros []] | done]. }
  destruct (forallb _ sts) eqn:Et; simpl.
  - rewrite forallb_forall in Et.
    assert (forall st, st ∈ sts -> st = delivered \/ st = dead_letter) as Hterm.
    { intros st Hst%list_elem_of_In. specialize (Et st Hst). bool_to_prop. set_solver. }
    assert (exists st, st ∈ sts) as [st0 Hst0] by (destruct sts as [|st0 l]; [done | exists st0; by left]).
    unfold inbox_outcome.
    destruct (forallb (fun st => bool_decide (st = delivered)) sts) eqn:Ed;
      [|destruct (forallb (fun st => bool_decide (st = dead_letter)) sts) eqn:Ex].
    + rewrite forallb_forall in Ed.
      assert (forall st, st ∈ sts -> st = delivered) as Hall.
      { intros st Hst%list_elem_of_In. specialize (Ed st Hst). by bool_to_prop. }
      split; [split; [done |] |]. { intros [|(st & Hst & Hn)]; [done |]. destruct Hn. rewrite (Hall st Hst). set_solver. }
      split; [done |]. split; [|done]. split; [done |]. intros [_ Hd].
      specialize (Hd st0 Hst0). specialize (Hall st0 Hst0). congruence.
    + rewrite forallb_forall in Ex.
      assert (forall st, st ∈ sts -> st = dead_letter) as Hall.
      { intros st Hst%list_elem_of_In. specialize (Ex st Hst). by bool_to_prop. }
      split; [split; [done |] |]. { intros [|(st & Hst & Hn)]; [done |]. destruct Hn. rewrite (Hall st Hst). set_solver. }
      split; [|done]. split; [done |]. intros [_ Hd].
      specialize (Hd st0 Hst0). specialize (Hall st0 Hst0). congruence.
    + split; [split; [done |] |]. { intros [|(st & Hst & Hn)]; [done |]. destruct Hn. destruct (Hterm st Hst) as [->| ->]; set_solver. }
      split; [|split; [|done]].
      * split; [done |]. intros [_ Hall]. exfalso.
        apply not_true_iff_false in Ed. apply Ed, forallb_forall. intros st Hst%list_elem_of_In.
        apply bool_decide_eq_true. by apply Hall.
      * split; [done |]. intros [_ Hall]. exfalso.
        apply not_true_iff_false in Ex. apply Ex, forallb_forall. intros st Hst%list_elem_of_In.
        apply bool_decide_eq_true. by apply Hall.
  - assert (exists st, st ∈ sts /\ st ∉ _DELIVERY_TERMINAL_STATUSES) as (st & Hst & Hn).
    { apply not_true_iff_false in Et. rewrite forallb_forall in Et.
      destruct (list_find (fun st => st ∉ _DELIVERY_TERMINAL_STATUSES) sts) as [[k st]|] eqn:Ef.
      - apply list_find_Some in Ef as (Hk & Hn & _). exists st. split; [|done]. by eapply list_elem_of_lookup_2.
      - exfalso. apply Et. intros st Hst%list_elem_of_In. apply list_find_None in Ef.
        rewrite Forall_forall in Ef. specialize (Ef st Hst). apply bool_decide_eq_true.
        destruct (decide (st ∈ _DELIVERY_TERMINAL_STATUSES)); [done | by destruct Ef]. }
    split; [split; [|done]; right; by exists st |].
    split; [split; [done |]|split; [split; [done |] | done]];
      intros [_ Hall]; specialize (Hall st Hst); subst st; exfalso; apply Hn; set_solver.
Qed.

(** The holder of a claim records its outcome, whatever else happened, and the
    inbox row then says exactly how far the message is: completed when all its
    deliveries are delivered, dead-lettered when all are, in between when they are
    settled both ways, still processing otherwise; anyone else's report of the
    delivery changes nothing. *)
Theorem outcome_recorded s i d token row now ref :
  wf s -> get i (deliveries s) = Some d -> status d = processing -> claim_token d = Some token ->
  get (inbox_consumption_id d) (inboxes s) = Some row ->
  (exists s' r, mark_delivery_delivered i token ref now s = Ok (Some (set_delivered now ref d), s') /\
     get i (deliveries s') = Some (set_delivered now ref d) /\
     get (inbox_consumption_id d) (inboxes s') = Some r /\
     inbox_reflects (inbox_consumption_id d) now s' r) /\
  (forall token', token' <> token ->
     mark_delivery_delivered i token' ref now s = Ok (None, s) /\
     (forall next cat code detail,
        schedule_delivery_retry i token' next cat code detail s = Ok (None, s)) /\
     (forall cat code detail,
        dead_letter_delivery dump_dead i token' cat code detail now s = Ok (None, s))).
Proof.
  intros Hwf Hg Hst Ht Hin.
  assert (forall token', _get_claimed_delivery i token' s = if decide (token' = token) then Some d else None) as Hc.
  { intros token'. unfold _get_claimed_delivery. rewrite Hg, Hst, Ht.
    destruct (decide (token' = token)) as [->|]; [by rewrite decide_True |].
    rewrite decide_False; [done |]. intros [_ [= ?]]. done. }
  split.
  - unfold mark_delivery_delivered. rewrite Hc, decide_True by done.
    destruct (refresh_reflects (inbox_consumption_id d) now
      (with_deliveries (update i (set_delivered now ref) (deliveries s)) s) row Hin)
      as (s' & r & -> & Ed & Hr & Hrefl). simpl.
    assert (get i (deliveries s') = Some (set_delivered now ref d)) as Hg'.
    { rewrite Ed. simpl. by rewrite get_update, Z.eqb_refl, Hg. }
    exists s', r. rewrite Hg'. repeat (split; [done |]).
    unfold inbox_reflects in *. by rewrite Ed.
  - intros token' Hne. unfold mark_delivery_delivered, schedule_delivery_retry, dead_letter_delivery.
    rewrite Hc, decide_False by done. done.
Qed.
End Payload.
End DeliveryTheorems.

(** ** Witnesses *)

Module DeliveryWitnesses.
Import Events Delivery DeliveryTheorems.

Definition request : NotificationDeliveryRequestedV1 :=
  Requested "incident:1:notification:1" 0
    (RequestedPayload 1 3 (Some 7) "critical" "down" "availability" 1 "call" [email; slack]).

Definition dump {A} (_ : A) : string := "{}".

Definition accepted : store string :=
  match claim_notification_request dump request 30 0 init with
  | Ok ((i, _), s) => (add_channel_deliveries i request s).2
  | Raise _ => init
  end.

Definition claimed : store string := (claim_due_deliveries (fun _ => false) 1 "worker" 30 0 accepted).2.

Lemma claimed_reachable : rtc (step dump dump) init claimed.
Proof.
  eapply rtc_l; [apply (step_claim_request dump dump request 30 0 init (1, true)); vm_compute; reflexivity |].
  eapply rtc_l; [apply (step_add_deliveries dump dump 1 request) |].
  apply rtc_once. exact (step_claim_due dump dump (fun _ => false) 1 "worker" 30 0 accepted).
Qed.

Lemma delivery_invariant_witness :
  (exists d, get 1 (deliveries claimed) = Some d) /\
  forall i d, get i (deliveries claimed) = Some d -> 0 <= attempt_count d <= MAX_DELIVERY_ATTEMPTS.
Proof.
  split; [eexists; vm_compute; reflexivity |].
  exact (fun i d H => proj2 (proj1 (delivery_invariant dump dump claimed claimed_reachable) i d H)).
Defined.

Lemma delivery_state_machine_witness :
  exists d', get 2 (deliveries claimed) = Some d' /\ status d' = pending.
Proof.
  assert (exists d, get 2 (deliveries accepted) = Some d) as [d Hd].
  { eexists. vm_compute. reflexivity. }
  destruct (delivery_state_machine dump dump claimed claimed 2
    (or_else (get 2 (deliveries claimed)) d)) as (d' & H1 & _ & _).
  - apply (rtc_step_wf dump dump init claimed); [apply init_store_wf | apply claimed_reachable].
  - reflexivity.
  - vm_compute. reflexivity.
  - exists d'. split; [exact H1 |]. vm_compute in H1. injection H1 as <-. reflexivity.
Defined.

Lemma claim_due_exact_witness :
  (length (claim_due_deliveries (fun _ => false) 1 "worker" 30 0 accepted).1 <= 1)%nat.
Proof.
  exact (proj1 (claim_due_exact (fun _ => false) 1 "worker" 30 0 accepted
    (rtc_step_wf dump dump init accepted init_store_wf
      (rtc_l _ _ _ _ (step_claim_request dump dump request 30 0 init (1, true) _ eq_refl)
        (rtc_once _ _ (step_add_deliveries dump dump 1 request _)))))).
Defined.

Lemma outcome_recorded_witness :
  exists s', (match mark_delivery_delivered 1 "worker" None 5 claimed with
              | Ok (Some d, s) => Some (status d, s) | _ => None end) = Some (delivered, s').
Proof.
  assert (exists d row, get 1 (deliveries claimed) = Some d /\ status d = processing /\
    claim_token d = Some "worker" /\ get (inbox_consumption_id d) (inboxes claimed) = Some row)
    as (d & row & Hg & Hs & Ht & Hr).
  { eexists _, _. repeat split; vm_compute; reflexivity. }
  destruct (outcome_recorded dump claimed 1 d "worker" row 5 None
    (rtc_step_wf dump dump init claimed init_store_wf claimed_reachable) Hg Hs Ht Hr) as [(s' & r & E & _) _].
  exists s'. rewrite E. reflexivity.
Defined.
End DeliveryWitnesses.
