(* ===== verification/Notifications.v ===== *)
(** * Notification dispatch (notifications.py)

    The channels an event is sent to and the provider adapters up to the HTTP
    request they make.  [post] is the HTTP client, by attempt; [resilience_call]
    the composed resilience of [Resilience.v] around an operation given by
    attempt; [repr] is [str] on the values that are not scalars. *)

From S2P Require Import Prelude Contracts.

Module Notifications.
Import Events.

Inductive exception :=
| NotificationProviderError (category : NotificationErrorCategory) (code : option string) (retryable : bool)
(** A [ValueError] or an instance of a subclass, by the name of its type *)
| ValueError (type_name message : string)
| OtherException (type_name message : string).

Inductive delivery_mode := direct | broker.

#[global] Instance delivery_mode_eq_dec : EqDecision delivery_mode.
Proof. solve_decision. Defined.

Record Settings := {
  notifications_enabled : bool;
  notification_delivery_mode : delivery_mode;
  broker_enabled : bool;
  notification_default_channels : string;
  notification_slack_webhook_url : option string;
  notification_telegram_bot_token : option string;
  notification_telegram_chat_id : option string;
  notification_webhook_url : option string;
  notification_email_provider : string;
  notification_resend_api_key : option string;
  notification_email_from : option string;
  notification_email_to : option string
}.

Definition channel_of_name (s : string) : option NotificationChannel :=
  if decide (s = "slack") then Some slack else if decide (s = "telegram") then Some telegram
  else if decide (s = "webhook") then Some webhook else if decide (s = "email") then Some email
  else None.

Definition _parse_channels (raw : string) : list NotificationChannel :=
  let values := map (fun v => lower (strip v))
    (List.filter (fun v => str_truthy (strip v)) (split_on ","%char raw)) in
  omap channel_of_name values.

Definition configured_notification_channels (cfg : Settings) : list NotificationChannel :=
  _parse_channels (notification_default_channels cfg).

Definition _email_recipients (cfg : Settings) : list string :=
  match notification_email_to cfg with
  | None => []
  | Some s => map strip (List.filter (fun x => str_truthy (strip x)) (split_on ","%char s))
  end.

(** ** Provider adapters *)

Section Adapters.
Context (cfg : Settings) (repr : json -> string)
        (post : string -> list (string * string) -> json -> result exception unit).

Definition py_str (v : json) : string :=
  match v with
  | JNull => "None"
  | JInt z => str_of_Z z
  | JStr s => s
  | JBool true => "True"
  | JBool false => "False"
  | _ => repr v
  end.

Definition newline : string := String (ascii_of_nat 10) EmptyString.
Definition title (event severity : string) : string := "[" +:+ upper severity +:+ "] " +:+ event.

(** [if not setting: raise ValueError(message)]. *)
Definition require_setting (s : option string) (message : string) : result exception string :=
  match s with
  | Some v => if str_truthy v then Ok v else Raise (ValueError "ValueError" message)
  | None => Raise (ValueError "ValueError" message)
  end.

Definition slack_color (severity : string) : string :=
  if decide (severity = "critical") then "danger"
  else if decide (severity = "warning") then "warning" else "good".

Definition _send_slack (event message severity : string) (context : list (string * json))
    : result exception string :=
  bind_result (require_setting (notification_slack_webhook_url cfg)
                 "notification_slack_webhook_url is not configured") (fun url =>
  bind_result (post url [] (JObj [("attachments", JList [JObj [
      ("color", JStr (slack_color severity)); ("title", JStr (title event severity));
      ("text", JStr message);
      ("fields", JList (map (fun '(k, v) => JObj [("title", JStr k); ("value", JStr (py_str v));
                                                   ("short", JBool true)]) context))]])])) (fun _ =>
  Ok "slack webhook delivered")).

Definition join (sep : string) (l : list string) : string := String.concat sep l.

Definition _send_telegram (event message severity : string) (context : list (string * json))
    : result exception string :=
  let missing := "notification_telegram_bot_token or notification_telegram_chat_id missing" in
  bind_result (require_setting (notification_telegram_bot_token cfg) missing) (fun token =>
  bind_result (require_setting (notification_telegram_chat_id cfg) missing) (fun chat =>
  let text := join newline ([title event severity; message] ++
                            map (fun '(k, v) => k +:+ ": " +:+ py_str v) context) in
  bind_result (post ("https://api.telegram.org/bot" +:+ token +:+ "/sendMessage") []
                 (JObj [("chat_id", JStr chat); ("text", JStr text)])) (fun _ =>
  Ok "telegram message delivered"))).

Definition _send_webhook (event message severity : string) (context : list (string * json))
    : result exception string :=
  bind_result (require_setting (notification_webhook_url cfg)
                 "notification_webhook_url is not configured") (fun url =>
  bind_result (post url [] (JObj [("event", JStr event); ("severity", JStr severity);
                                  ("message", JStr message); ("context", JObj context)])) (fun _ =>
  Ok "webhook delivered")).

Definition _send_email (event message severity : string) (context : list (string * json))
    : result exception string :=
  if decide (lower (strip (notification_email_provider cfg)) <> "resend")
  then Raise (ValueError "ValueError" "Only resend provider is supported in this baseline")
  else
  bind_result (require_setting (notification_resend_api_key cfg)
                 "notification_resend_api_key is not configured") (fun key =>
  bind_result (require_setting (notification_email_from cfg)
                 "notification_email_from is not configured") (fun from =>
  match _email_recipients cfg with
  | [] => Raise (ValueError "ValueError" "notification_email_to is not configured")
  | recipients =>
      let context_lines := join newline (map (fun '(k, v) => "- " +:+ k +:+ ": " +:+ py_str v) context) in
      let body := message +:+ newline +:+ newline +:+ "Severity: " +:+ severity +:+ newline +:+
                  "Event: " +:+ event +:+ newline +:+ newline +:+ "Context:" +:+ newline +:+
                  context_lines +:+ newline in
      bind_result (post "https://api.resend.com/emails"
          [("Authorization", "Bearer " +:+ key); ("Content-Type", "application/json")]
          (JObj [("from", JStr from); ("to", JList (map JStr recipients));
                 ("subject", JStr (title event severity)); ("text", JStr body)])) (fun _ =>
      Ok "resend email delivered")
  end)).

(** The last [raise] is unreachable for a channel of the enumeration. *)
Definition _dispatch_to_channel_unprotected (channel : NotificationChannel)
    (event message severity : string) (context : list (string * json)) : result exception string :=
  match channel with
  | slack => _send_slack event message severity context
  | telegram => _send_telegram event message severity context
  | webhook => _send_webhook event message severity context
  | email => _send_email event message severity context
  end.

End Adapters.

(** ** Dispatch *)

Definition exception_message (e : exception) : string :=
  match e with
  | NotificationProviderError c _ _ => category_name c
  | ValueError _ m => m
  | OtherException _ m => m
  end.

Record channel_result := ChannelResult {
  result_channel : NotificationChannel;
  result_status : string;
  result_detail : string
}.

Record dispatch_result := DispatchResult {
  dispatched_event : string;
  dispatched_severity : string;
  sent : nat;
  failed : nat;
  results : list channel_result
}.

Section Dispatch.
Context (cfg : Settings) (repr : json -> string)
        (post : nat -> string -> list (string * string) -> json -> result exception unit)
        (resilience_call : (nat -> result exception string) -> result exception string).

Definition _dispatch_to_channel (channel : NotificationChannel) (event message severity : string)
    (context : list (string * json)) : result exception string :=
  resilience_call (fun attempt =>
    _dispatch_to_channel_unprotected cfg repr (post attempt) channel event message severity context).

Definition dispatch_notification_event (event message severity : string)
    (context : list (string * json)) (channels : list NotificationChannel) : dispatch_result :=
  if negb (notifications_enabled cfg) then DispatchResult event severity 0 0 []
  else
    let selected := match channels with [] => configured_notification_channels cfg | l => l end in
    let rs := map (fun c =>
        match _dispatch_to_channel c event message severity context with
        | Ok detail => ChannelResult c "sent" detail
        | Raise e => ChannelResult c "failed" (exception_message e)
        end) selected in
    DispatchResult event severity
      (count (fun r => bool_decide (result_status r = "sent")) rs)
      (count (fun r => bool_decide (result_status r = "failed")) rs) rs.

Definition deliver_notification_channel (channel : NotificationChannel)
    (r : NotificationDeliveryRequestedV1) : result exception string :=
  let p := Events.payload r in
  _dispatch_to_channel channel ("dependency_incident." +:+ Events.trigger_type p)
    (Events.summary p) (Events.severity p)
    [("incident_id", JInt (Events.incident_id p)); ("source_id", JInt (Events.source_id p));
     ("tenant_id", json_opt JInt (Events.tenant_id p));
     ("occurrence_count", JInt (Events.occurrence_count p));
     ("guidance", JStr (Events.guidance p))].

End Dispatch.
End Notifications.
