(* ===== verification/NotificationConsumer.v ===== *)
(** * Notification consumer and worker (notification_delivery_consumer.py,
      notification_delivery_worker.py)

    The orchestration over the repository of [NotificationDelivery.v]: intake of
    one broker value, a bounded delivery pass that commits every outcome, and
    one poll of the worker with its offset commits.  An operation returns its
    result, or the exception it raises, with the store its commits left behind.
    [model_validate] is the schema validation of a stored or received payload,
    [loads] the JSON decoding of a broker value, [others] what other workers do
    to the store while the provider of a delivery is called. *)

From S2P Require Import Prelude Db Contracts Messaging NotificationDelivery Notifications.

Module Consumer.
Import Events Delivery.

Inductive failure :=
| Repository (e : Delivery.error)
| InvalidRequest (message : string)
| MissingInbox (message : string)
| NoClaimToken
| RetryDelayUndefined
| CancelledError.

Record NotificationRequestResult := RequestResult {
  inbox_id : Z;
  was_claimed : bool;
  delivery_count : nat
}.

Record NotificationDeliveryBatchResult := BatchResult {
  claimed : Z;
  delivered : Z;
  retried : Z;
  dead_lettered : Z;
  claim_conflicts : Z
}.

(** What calling the provider gives. *)
Inductive provider_outcome :=
| Returned (reference : option string)
| Raised (e : Notifications.exception)
| Cancelled.

Definition notification_retry_delay (randint : Z -> Z -> Z) (attempt_count : Z)
    : result failure timedelta :=
  if attempt_count =? 1 then Ok (seconds (randint 25 35))
  else if attempt_count =? 2 then Ok (seconds (randint 270 330))
  else Raise RetryDelayUndefined.

Definition exception_name (e : Notifications.exception) : string :=
  match e with
  | Notifications.NotificationProviderError _ _ _ => "NotificationProviderError"
  | Notifications.ValueError name _ => name
  | Notifications.OtherException name _ => name
  end.

Definition _classify_provider_error (e : Notifications.exception)
    : NotificationErrorCategory * option string * bool :=
  match e with
  | Notifications.NotificationProviderError category code retryable => (category, code, retryable)
  | Notifications.ValueError _ _ => (configuration, Some (exception_name e), false)
  | Notifications.OtherException _ _ => (unknown, Some (exception_name e), true)
  end.

Definition _safe_error_detail (e : Notifications.exception) : string :=
  exception_name e +:+ ": notification provider call failed".

Section Payload.
Context {P : Type} (dump_request : NotificationDeliveryRequestedV1 -> P)
        (dump_dead : NotificationDeliveryDeadLetteredV1 -> P)
        (model_validate : P -> option NotificationDeliveryRequestedV1).

Definition lift {A} (r : result Delivery.error (A * store P)) (s : store P)
    : result failure A * store P :=
  match r with
  | Ok (a, s) => (Ok a, s)
  | Raise e => (Raise (Repository e), s)
  end.

(** A broker value is an event already or a decoded dictionary. *)
Definition raw_event : Type := NotificationDeliveryRequestedV1 + P.

Definition validate_notification_request (raw : raw_event)
    : result failure NotificationDeliveryRequestedV1 :=
  match raw with
  | inl e => Ok e
  | inr p =>
      match model_validate p with
      | Some e => Ok e
      | None => Raise (InvalidRequest "Invalid notification delivery request event.")
      end
  end.

Definition accept_notification_request (now : datetime) (raw : raw_event) (s : store P)
    : result failure NotificationRequestResult * store P :=
  match validate_notification_request raw with
  | Raise e => (Raise e, s)
  | Ok event =>
      match lift (claim_notification_request dump_request event 30 now s) s with
      | (Raise e, s) => (Raise e, s)
      | (Ok (i, false), s) => (Ok (RequestResult i false 0), s)
      | (Ok (i, true), s) =>
          let '(rows, s) := add_channel_deliveries i event s in
          (Ok (RequestResult i true (length rows)), s)
      end
  end.

Definition _delivery_request (d : NotificationDelivery) (s : store P)
    : result failure NotificationDeliveryRequestedV1 :=
  match get (inbox_consumption_id d) (inboxes s) with
  | None => Raise (MissingInbox ("Inbox consumption " +:+ str_of_Z (inbox_consumption_id d) +:+ " is missing."))
  | Some row => validate_notification_request (inr (Messaging.inbox_payload row))
  end.

Section Pass.
(** [now] is the optional argument of the pass and [clock] what each outcome reads
    otherwise. *)
Context (deliver : Z -> NotificationDelivery -> NotificationDeliveryRequestedV1 -> provider_outcome)
        (retry_delay : Z -> result failure timedelta)
        (now : option datetime) (clock : Z -> datetime)
        (others : Z -> store P -> store P).

(** How one outcome counts. *)
Inductive settled := Delivered | Retried | DeadLettered | Conflict.

Definition settled_if {A} (r : option A) (k : settled) : settled :=
  match r with Some _ => k | None => Conflict end.

(** The body of the loop for the claimed row [d] of key [i]. *)
Definition deliver_one (i : Z) (d : NotificationDelivery) (s : store P)
    : result failure settled * store P :=
  match claim_token d with
  | None => (Raise NoClaimToken, s)
  | Some token =>
  match _delivery_request d s with
  | Raise e => (Raise e, s)
  | Ok request =>
  let s := others i s in
  match deliver i d request with
  | Cancelled => (Raise CancelledError, s)
  | Returned reference =>
      match lift (mark_delivery_delivered i token reference (or_else now (clock i)) s) s with
      | (Raise e, s) => (Raise e, s)
      | (Ok r, s) => (Ok (settled_if r Delivered), s)
      end
  | Raised e =>
      let '(category, code, retryable) := _classify_provider_error e in
      if retryable && (attempt_count d <? MAX_DELIVERY_ATTEMPTS) then
        let last := or_else (last_attempt_at d) (or_else now (clock i)) in
        match retry_delay (attempt_count d) with
        | Raise e => (Raise e, s)
        | Ok delay =>
            match lift (schedule_delivery_retry i token (last + delay) category code
                          (_safe_error_detail e) s) s with
            | (Raise e, s) => (Raise e, s)
            | (Ok r, s) => (Ok (settled_if r Retried), s)
            end
        end
      else
        match lift (dead_letter_delivery dump_dead i token category code
                      (_safe_error_detail e) (or_else now (clock i)) s) s with
        | (Raise e, s) => (Raise e, s)
        | (Ok r, s) => (Ok (settled_if r DeadLettered), s)
        end
  end end end.

Definition tally (k : settled) (b : NotificationDeliveryBatchResult) : NotificationDeliveryBatchResult :=
  match k with
  | Delivered => BatchResult (claimed b) (delivered b + 1) (retried b) (dead_lettered b) (claim_conflicts b)
  | Retried => BatchResult (claimed b) (delivered b) (retried b + 1) (dead_lettered b) (claim_conflicts b)
  | DeadLettered => BatchResult (claimed b) (delivered b) (retried b) (dead_lettered b + 1) (claim_conflicts b)
  | Conflict => BatchResult (claimed b) (delivered b) (retried b) (dead_lettered b) (claim_conflicts b + 1)
  end.

(** The claimed rows as the session read them, then the loop. *)
Fixpoint deliver_loop (rows : list (Z * NotificationDelivery))
    (b : NotificationDeliveryBatchResult) (s : store P)
    : result failure NotificationDeliveryBatchResult * store P :=
  match rows with
  | [] => (Ok b, s)
  | (i, d) :: rows =>
      match deliver_one i d s with
      | (Raise e, s) => (Raise e, s)
      | (Ok k, s) => deliver_loop rows (tally k b) s
      end
  end.

Definition claimed_rows (keys : list Z) (s : store P) : list (Z * NotificationDelivery) :=
  omap (fun i => (fun d => (i, d)) <$> get i (deliveries s)) keys.

Definition deliver_due_notifications (locked : Z -> bool) (limit : nat) (token : string)
    (claim_time : datetime) (s : store P)
    : result failure NotificationDeliveryBatchResult * store P :=
  let '(keys, s) := claim_due_deliveries locked limit token 30 (or_else now claim_time) s in
  deliver_loop (claimed_rows keys s) (BatchResult (Z.of_nat (length keys)) 0 0 0 0) s.

End Pass.

(** ** The worker *)

Inductive loaded := NotJson | NotObject | JsonObject (p : P).

Section Worker.
Context (loads : list Byte.byte -> loaded).

Definition _decode_notification_request (value : option (list Byte.byte)) : result failure P :=
  match value with
  | None => Raise (InvalidRequest "Notification broker value is empty.")
  | Some bytes =>
      match loads bytes with
      | NotJson => Raise (InvalidRequest "Notification broker value is not valid JSON.")
      | NotObject => Raise (InvalidRequest "Notification broker value must be a JSON object.")
      | JsonObject p => Ok p
      end
  end.

(** What one delivery pass reads from outside. *)
Record pass := Pass {
  pass_deliver : Z -> NotificationDelivery -> NotificationDeliveryRequestedV1 -> provider_outcome;
  pass_randint : Z -> Z -> Z;
  pass_clock : Z -> datetime;
  pass_others : Z -> store P -> store P;
  pass_locked : Z -> bool;
  pass_token : string;
  pass_claim_time : datetime
}.

Definition run_pass (ps : pass) (limit : nat) (s : store P)
    : result failure NotificationDeliveryBatchResult * store P :=
  deliver_due_notifications (pass_deliver ps) (notification_retry_delay (pass_randint ps)) None
    (pass_clock ps) (pass_others ps) (pass_locked ps) limit (pass_token ps) (pass_claim_time ps) s.

Definition process_notification_record (accept_time : datetime) (ps : pass)
    (value : option (list Byte.byte)) (s : store P) : result failure unit * store P :=
  match _decode_notification_request value with
  | Raise e => (Raise e, s)
  | Ok p =>
      match accept_notification_request accept_time (inr p) s with
      | (Raise e, s) => (Raise e, s)
      | (Ok _, s) =>
          match run_pass ps 1 s with
          | (Raise e, s) => (Raise e, s)
          | (Ok _, s) => (Ok tt, s)
          end
      end
  end.

(** A broker record: its partition, offset, value and the pass that handles it. *)
Record consumer_record := Record_ {
  partition : Z;
  offset : Z;
  value : option (list Byte.byte);
  accept_time : datetime;
  record_pass : pass
}.

(** The records of one poll in order, with the offsets committed on the way. *)
Fixpoint process_records (records : list consumer_record) (s : store P)
    : result failure unit * store P * list (Z * Z) :=
  match records with
  | [] => (Ok tt, s, [])
  | r :: records =>
      match process_notification_record (accept_time r) (record_pass r) (value r) s with
      | (Raise e, s) => (Raise e, s, [])
      | (Ok _, s) =>
          let '(res, s, commits) := process_records records s in
          (res, s, (partition r, offset r + 1) :: commits)
      end
  end.

(** One iteration of the worker's loop. *)
Definition poll (max_records : nat) (records : list consumer_record) (final : pass) (s : store P)
    : result failure unit * store P * list (Z * Z) :=
  match process_records records s with
  | (Raise e, s, commits) => (Raise e, s, commits)
  | (Ok _, s, commits) =>
      match run_pass final max_records s with
      | (Raise e, s) => (Raise e, s, commits)
      | (Ok _, s) => (Ok tt, s, commits)
      end
  end.

(** The guards of [run_notification_delivery_worker]. *)
Definition worker_arguments_ok (poll_timeout_ms max_records_per_poll : Z) : result failure unit :=
  if negb ((1 <=? poll_timeout_ms) && (poll_timeout_ms <=? 60000))
  then Raise (InvalidRequest "poll_timeout_ms must be between 1 and 60000")
  else if negb ((1 <=? max_records_per_poll) && (max_records_per_poll <=? 100))
  then Raise (InvalidRequest "max_records_per_poll must be between 1 and 100")
  else Ok tt.

End Worker.
End Payload.
End Consumer.

(** ** Theorems *)

Module ConsumerTheorems.
Import Events Delivery Consumer DeliveryTheorems.

Lemma length_str_take n s : (String.length (str_take n s) <= n)%nat.
Proof.
  unfold str_take. revert n. induction s as [|c s IH]; intros [|n]; simpl; try lia.
  specialize (IH n). lia.
Qed.

Lemma retry_delay_defined randint n :
  (forall lo hi, lo <= hi -> lo <= randint lo hi <= hi) -> 1 <= n < MAX_DELIVERY_ATTEMPTS ->
  exists d, notification_retry_delay randint n = Ok d /\ seconds 25 <= d <= seconds 330.
Proof.
  unfold MAX_DELIVERY_ATTEMPTS, notification_retry_delay, seconds. intros Hr Hn.
  assert (n = 1 \/ n = 2) as [->| ->] by lia; simpl; eexists; (split; [done |]).
  - specialize (Hr 25 35). lia.
  - specialize (Hr 270 330). lia.
Qed.

Section Payload.
Context {P : Type} (dump_request : NotificationDeliveryRequestedV1 -> P)
        (dump_dead : NotificationDeliveryDeadLetteredV1 -> P)
        (model_validate : P -> option NotificationDeliveryRequestedV1).
Implicit Types (s : store P) (d : NotificationDelivery).

(** The contents a delivery got from its request, which its dead-letter event
    carries on, its key within the column's range, and its attempt times in
    order. *)
Definition content_ok (i : Z) d : bool :=
  (1 <=? i) && (i <=? 2147483647) && length_between 1 255 (message_id d) && (1 <=? incident_id d) &&
  (1 <=? source_id d) && tenant_ok (tenant_id d) &&
  match first_attempt_at d, last_attempt_at d with
  | Some f, Some l => f <=? l
  | None, None => true
  | _, _ => false
  end.

(** The request of the delivery can be read back from the inbox. *)
Definition request_readable (x : Z) s : Prop :=
  exists row e, get x (inboxes s) = Some row /\ model_validate (Messaging.inbox_payload row) = Some e.

Definition sound s : Prop :=
  forall i d, get i (deliveries s) = Some d ->
    content_ok i d = true /\ request_readable (inbox_consumption_id d) s.

(** Row [i] is claimed for [token], and its content is sound. *)
Record ready (token : string) (i : Z) d s : Prop := {
  ready_row : get i (deliveries s) = Some d;
  ready_status : status d = processing;
  ready_token : claim_token d = Some token;
  ready_times : is_Some (first_attempt_at d) /\ is_Some (last_attempt_at d);
  ready_content : content_ok i d = true;
  ready_request : request_readable (inbox_consumption_id d) s
}.

(** A transaction on delivery [i] keeps the other deliveries and the inbox's
    payloads. *)
Record only (i : Z) s s' : Prop := {
  only_rows : forall j, j <> i -> get j (deliveries s') = get j (deliveries s);
  only_inbox : forall x, request_readable x s -> request_readable x s'
}.

Lemma only_refl i s : only i s s.
Proof. by split. Qed.

Lemma refresh_only i f x now s s' :
  _refresh_inbox_status x now s = Ok s' ->
  forall s0, deliveries s = update i f (deliveries s0) -> inboxes s = inboxes s0 -> only i s0 s'.
Proof.
  intros H s0 Hd Hi. split.
  - intros j Hj. apply refresh_spec in H as (-> & _). rewrite Hd, get_update.
    destruct (Z.eqb_spec i j); [congruence | done].
  - intros y (row & e & Hg & Hv). unfold _refresh_inbox_status in H. rewrite Hi in H.
    destruct (get x (inboxes s0)) as [r|] eqn:Ex; [|done]. injection H as <-.
    unfold request_readable. simpl. rewrite get_update. rewrite Hg.
    destruct (x =? y); simpl; [|by eexists _, _].
    eexists _, e. split; [done |]. by destruct (bool_decide _ || _).
Qed.

Lemma refresh_total x now s :
  request_readable x s -> exists s', _refresh_inbox_status x now s = Ok s'.
Proof.
  intros (row & e & Hg & _). destruct (refresh_reflects x now s row Hg) as (s' & _ & H & _). by exists s'.
Qed.

Lemma ready_claimed token i d s : ready token i d s -> _get_claimed_delivery i token s = Some d.
Proof.
  intros [Hg Hs Ht _ _ _]. unfold _get_claimed_delivery. rewrite Hg. by rewrite decide_True.
Qed.

Lemma dead_event_valid token i d s now cat code :
  wf s -> ready token i d s -> exists ev, dead_event i now cat code d = Ok ev.
Proof.
  intros Hwf [Hg Hs Ht [[f Hf] [l Hl]] Hc _]. unfold dead_event, make_dead_lettered.
  pose proof (wf_each _ Hwf i d Hg) as Hw. simpl in Hw. unfold wf_delivery in Hw. rewrite Hs in Hw.
  destruct Hw as [Ha _]. unfold MAX_DELIVERY_ATTEMPTS in Ha.
  assert (String.length (dlq_key i) <= 255)%nat as Hlen.
  { unfold content_ok in Hc. bool_to_prop.
    assert (0 < i < 10 ^ Z.of_nat 10) as Hi by (change (10 ^ Z.of_nat 10) with 10000000000; lia).
    apply str_of_Z_length in Hi as Hdl. unfold dlq_key.
    rewrite String_length_append. change (String.length "notification-delivery-dlq:") with 26%nat. lia. }
  unfold content_ok in Hc. rewrite Hf, Hl in Hc. unfold valid_dead_payload. simpl.
  rewrite Hf, Hl. simpl. unfold attempt_timestamps_are_ordered. simpl. bool_to_prop.
  rewrite !(proj2 (Z.leb_le _ _)) by lia.
  repeat match goal with H : ?b = true |- context [?b] => rewrite H end. simpl.
  assert (match str_take 64 <$> code with Some c => length_between 0 64 c | None => true end = true) as ->.
  { destruct code as [c|]; [|done]. simpl. unfold length_between.
    pose proof (length_str_take 64 c). rewrite !(proj2 (Z.leb_le _ _)) by lia. done. }
  assert (length_between 1 255 (dlq_key i) = true) as ->.
  { unfold length_between. rewrite !(proj2 (Z.leb_le _ _)); [done | lia |].
    assert (0 < String.length (dlq_key i))%nat by (unfold dlq_key; rewrite String_length_append; simpl; lia). lia. }
  simpl. by eexists.
Qed.

(** The three outcomes of a delivery that its worker holds. *)

Lemma delivered_ready token i d s t ref :
  wf s -> ready token i d s ->
  exists s', mark_delivery_delivered i token ref t s = Ok (Some (set_delivered t ref d), s') /\
    wf s' /\ only i s s' /\ get i (deliveries s') = Some (set_delivered t ref d).
Proof.
  intros Hwf Hrd. pose proof (ready_claimed _ _ _ _ Hrd) as Hcl.
  destruct Hrd as [Hg Hst Ht Htm Hc (row & req & Hin & Hv)].
  unfold mark_delivery_delivered. rewrite Hcl. set (s1 := with_deliveries _ s).
  assert (wf s1) as Hwf1.
  { apply (wf_update_delivery i _ s d); try done; [|by rewrite Hst].
    pose proof (wf_each _ Hwf i d Hg) as Hw. simpl in Hw. unfold wf_delivery in *. rewrite Hst in Hw.
    simpl. destruct Hw as (? & ? & _). repeat split; try by eexists. all: lia. }
  destruct (refresh_total (inbox_consumption_id d) t s1) as [s' Hs']; [by exists row, req |].
  rewrite Hs'. simpl. exists s'. pose proof (refresh_spec _ _ _ _ Hs') as (Edel & _).
  assert (get i (deliveries s') = Some (set_delivered t ref d)) as Hg'.
  { rewrite Edel. simpl. by rewrite get_update, Z.eqb_refl, Hg. }
  rewrite Hg'. split; [done |]. split; [by apply (wf_refresh _ _ _ _ Hwf1 Hs') |].
  split; [|done]. by apply (refresh_only i _ _ _ _ _ Hs' s eq_refl eq_refl).
Qed.

Lemma retried_ready token i d s next cat code detail :
  wf s -> ready token i d s -> attempt_count d < MAX_DELIVERY_ATTEMPTS ->
  exists s', schedule_delivery_retry i token next cat code detail s =
      Ok (Some (set_retry next cat code detail d), s') /\
    wf s' /\ only i s s' /\ get i (deliveries s') = Some (set_retry next cat code detail d).
Proof.
  intros Hwf Hrd Ha. pose proof (ready_claimed _ _ _ _ Hrd) as Hcl. destruct Hrd as [Hg Hst Ht Htm Hc _].
  unfold schedule_delivery_retry. rewrite Hcl.
  destruct (MAX_DELIVERY_ATTEMPTS <=? attempt_count d) eqn:Em; bool_to_prop; [lia |].
  simpl. rewrite get_update, Z.eqb_refl, Hg. simpl. eexists. split; [done |].
  split; [|split; [|simpl; by rewrite get_update, Z.eqb_refl, Hg]].
  - pose proof (wf_each _ Hwf i d Hg) as Hw. simpl in Hw. unfold wf_delivery in Hw. rewrite Hst in Hw.
    destruct Hw as ([H1 _] & _). apply (wf_update_delivery i _ s d); [done | done | | done | by rewrite Hst].
    unfold wf_delivery. simpl. unfold MAX_DELIVERY_ATTEMPTS in *. repeat split; try by eexists. all: lia.
  - split; [|done]. intros j Hj. simpl. rewrite get_update. destruct (Z.eqb_spec i j); [congruence | done].
Qed.

Lemma dead_lettered_ready token i d s t cat code detail :
  wf s -> ready token i d s -> (exists ev, dead_event i t cat code d = Ok ev) ->
  exists o s', dead_letter_delivery dump_dead i token cat code detail t s =
      Ok (Some (set_dead t cat code detail d, o), s') /\
    wf s' /\ only i s s' /\ get i (deliveries s') = Some (set_dead t cat code detail d).
Proof.
  intros Hwf Hrd [ev Hev]. pose proof (ready_claimed _ _ _ _ Hrd) as Hcl.
  destruct Hrd as [Hg Hst Ht Htm Hc (row & req & Hin & Hv)].
  destruct (MessagingTheorems.add_outbox_event_spec "notification_delivery" (str_of_Z i)
    EVENT_NOTIFICATION_DELIVERY_DEAD_LETTERED_V1 (dump_dead ev) (dlq_key i) (tenant_id d)
    (events s) (wf_events _ Hwf)) as (o & evs & Ea & _).
  destruct (refresh_total (inbox_consumption_id d) t
    (Store (inboxes s) (update i (set_dead t cat code detail) (deliveries s)) evs)) as [s' Hs'];
    [by exists row, req |].
  pose proof (refresh_spec _ _ _ _ Hs') as (Edel & _).
  assert (get i (deliveries s') = Some (set_dead t cat code detail d)) as Hg'.
  { rewrite Edel. simpl. by rewrite get_update, Z.eqb_refl, Hg. }
  assert (dead_letter_delivery dump_dead i token cat code detail t s =
    Ok (Some (set_dead t cat code detail d, o), s')) as E.
  { unfold dead_letter_delivery. rewrite Hcl, Hev, Ea, Hs'. simpl. by rewrite Hg'. }
  exists o, s'. split; [done |]. split; [by apply (wf_dead_letter _ _ _ _ _ _ _ _ _ _ Hwf E) |].
  split; [|done]. by apply (refresh_only i _ _ _ _ _ Hs' s eq_refl eq_refl).
Qed.

Section Pass.
Context (deliver : Z -> NotificationDelivery -> NotificationDeliveryRequestedV1 -> provider_outcome)
        (randint : Z -> Z -> Z) (now : option datetime) (clock : Z -> datetime).
Hypothesis randint_range : forall lo hi, lo <= hi -> lo <= randint lo hi <= hi.

(** Whether a failed attempt is retried. *)
Definition retries (e : Notifications.exception) d : bool :=
  (_classify_provider_error e).2 && (attempt_count d <? MAX_DELIVERY_ATTEMPTS).

(** What the policy makes of the provider's answer for delivery [i]: how it counts,
    and the row it leaves; a retry waits between 25 seconds and five and a half
    minutes from the attempt. *)
Definition settles (i : Z) d (o : provider_outcome) (k : settled) (d' : NotificationDelivery) : Prop :=
  match o with
  | Cancelled => False
  | Returned ref => k = Delivered /\ d' = set_delivered (or_else now (clock i)) ref d
  | Raised e =>
      let '(cat, code, _) := _classify_provider_error e in
      if retries e d then
        k = Retried /\ exists delay, seconds 25 <= delay <= seconds 330 /\
          d' = set_retry (or_else (last_attempt_at d) (or_else now (clock i)) + delay)
                 cat code (_safe_error_detail e) d
      else k = DeadLettered /\
        d' = set_dead (or_else now (clock i)) cat code (_safe_error_detail e) d
  end.

#[local] Abbreviation deliver_one' :=
  (deliver_one dump_dead model_validate deliver (notification_retry_delay randint) now clock (fun _ s => s)).

Lemma deliver_one_spec token i d s :
  wf s -> ready token i d s -> (forall r, deliver i d r <> Cancelled) ->
  exists r k d' s', model_validate r.1 = Some r.2 /\ deliver_one' i d s = (Ok k, s') /\
    settles i d (deliver i d r.2) k d' /\
    wf s' /\ only i s s' /\ get i (deliveries s') = Some d'.
Proof.
  intros Hwf Hrd Hnc. pose proof (dead_event_valid token i d s (or_else now (clock i))) as Hdead.
  pose proof Hrd as [Hg Hst Ht Htm Hc (row & req & Hin & Hv)].
  exists (Messaging.inbox_payload row, req).
  unfold deliver_one. rewrite Ht. unfold _delivery_request. rewrite Hin. simpl. rewrite Hv.
  specialize (Hnc req). destruct (deliver i d req) as [ref|e|] eqn:Ed; [| |done].
  - destruct (delivered_ready token i d s (or_else now (clock i)) ref Hwf Hrd) as (s' & E & ? & ? & ?).
    rewrite E. simpl. exists Delivered, (set_delivered (or_else now (clock i)) ref d), s'. by repeat (split; [done |]).
  - simpl. unfold retries. destruct (_classify_provider_error e) as [[cat code] retryable] eqn:Ecl. simpl.
    destruct (retryable && (attempt_count d <? MAX_DELIVERY_ATTEMPTS)) eqn:Er.
    + apply andb_true_iff in Er as [_ Ha]. bool_to_prop.
      pose proof (wf_each _ Hwf i d Hg) as Hw. simpl in Hw. unfold wf_delivery in Hw. rewrite Hst in Hw.
      destruct Hw as ([H1 _] & _).
      destruct (retry_delay_defined randint (attempt_count d) randint_range ltac:(lia)) as (delay & -> & Hdl).
      destruct (retried_ready token i d s (or_else (last_attempt_at d) (or_else now (clock i)) + delay) cat code
        (_safe_error_detail e) Hwf Hrd Ha) as (s' & E & ? & ? & ?).
      rewrite E. simpl. eexists Retried, _, s'. split; [done |]. split; [done |].
      split; [by split; [|exists delay] | split; [done | by split]].
    + destruct (dead_lettered_ready token i d s (or_else now (clock i)) cat code (_safe_error_detail e) Hwf Hrd
        (Hdead cat code Hwf Hrd)) as (o & s' & E & ? & ? & ?).
      rewrite E. simpl. eexists DeadLettered, _, s'. split; [done |]. split; [done |]. by split.
Qed.

Lemma settles_content i d o k d' :
  settles i d o k d' -> is_Some (first_attempt_at d) -> is_Some (last_attempt_at d) ->
  content_ok i d' = content_ok i d /\ inbox_consumption_id d' = inbox_consumption_id d /\
  (k = Delivered \/ k = Retried \/ k = DeadLettered).
Proof.
  intros Hs [f Hf] [l Hl]. destruct o as [ref|e|]; simpl in Hs; [| |done].
  - destruct Hs as [-> ->]. tauto.
  - destruct (_classify_provider_error e) as [[cat code] retryable]. destruct (retries e d).
    + destruct Hs as [-> (delay & _ & ->)]. tauto.
    + destruct Hs as [-> ->]. unfold content_ok. simpl. rewrite Hf, Hl. simpl. tauto.
Qed.

Lemma ready_only token i j d s s' : i <> j -> only i s s' -> ready token j d s -> ready token j d s'.
Proof. intros Hne [Hr Hx] []. split; try done; [by rewrite Hr | by apply Hx]. Qed.

#[local] Abbreviation deliver_loop' :=
  (deliver_loop dump_dead model_validate deliver (notification_retry_delay randint) now clock (fun _ s => s)).

(** The request a delivery was made for, and what became of the row. *)
Definition settled_row (s' : store P) (x : Z * NotificationDelivery) : Prop :=
  exists p req k d', model_validate p = Some req /\ settles x.1 x.2 (deliver x.1 x.2 req) k d' /\
    get x.1 (deliveries s') = Some d'.

Lemma deliver_loop_spec token rows b s :
  wf s -> NoDup (map fst rows) -> (forall i d, (i, d) ∈ rows -> ready token i d s) ->
  (forall i d r, deliver i d r <> Cancelled) ->
  exists b' s', deliver_loop' rows b s = (Ok b', s') /\ wf s' /\
    claimed b' = claimed b /\ claim_conflicts b' = claim_conflicts b /\
    delivered b' + retried b' + dead_lettered b' =
      delivered b + retried b + dead_lettered b + Z.of_nat (length rows) /\
    (forall x, x ∈ rows -> settled_row s' x) /\
    (forall j, j ∉ map fst rows -> get j (deliveries s') = get j (deliveries s)) /\
    (forall x, request_readable x s -> request_readable x s').
Proof.
  intros Hwf Hnd Hrd Hnc. revert b s Hwf Hrd. induction rows as [|[i d] rows IH]; intros b s Hwf Hrd.
  { exists b, s. simpl. do 4 (split; [done |]). split; [lia |]. split; [|done]. intros x Hx. set_solver. }
  simpl in Hnd. apply NoDup_cons in Hnd as [Hi Hnd].
  destruct (deliver_one_spec token i d s Hwf (Hrd i d ltac:(by left)) (Hnc i d))
    as ([p req] & k & d' & s1 & Hv & E1 & Hset & Hwf1 & Honly & Hg1).
  assert (forall j e, (j, e) ∈ rows -> i <> j) as Hne.
  { intros j e Hj ->. apply Hi. apply list_elem_of_fmap. by exists (j, e). }
  destruct (IH Hnd (tally k b) s1 Hwf1) as (b' & s' & E2 & Hwf' & Hc & Hcc & Hsum & Hrows & Hframe & Hread).
  { intros j e Hj. eapply (ready_only token i); [by eapply Hne | done |]. apply Hrd. by right. }
  destruct (settles_content _ _ _ _ _ Hset) as (_ & _ & Hk);
    [apply (ready_times _ _ _ _ (Hrd i d ltac:(by left))).. |].
  exists b', s'. cbn [deliver_loop length map fst snd]. rewrite E1. split; [done |]. split; [done |].
  split; [rewrite Hc; by destruct k |].
  split; [rewrite Hcc; by destruct Hk as [->|[->| ->]] |].
  split; [rewrite Hsum; destruct Hk as [->|[->| ->]]; cbn [tally delivered retried dead_lettered]; lia |].
  split; [|split].
  - intros x [->|Hx]%elem_of_cons; [|by apply Hrows].
    exists p, req, k, d'. split; [done |]. split; [done |]. simpl. by rewrite Hframe.
  - intros j Hj. rewrite Hframe by set_solver. apply (only_rows _ _ _ Honly). set_solver.
  - intros x Hx. by apply Hread, (only_inbox _ _ _ Honly).
Qed.

Lemma claimed_rows_keys keys s :
  (forall i, i ∈ keys -> is_Some (get i (deliveries s))) -> map fst (claimed_rows keys s) = keys.
Proof.
  unfold claimed_rows. induction keys as [|i keys IH]; intros Hk; [done |]. csimpl.
  destruct (Hk i ltac:(by left)) as [d ->]. csimpl. f_equal. apply IH. intros j Hj. apply Hk. by right.
Qed.

(** What a claim leaves for the pass: the rows claimed, in order, each ready to be
    delivered; the other rows and the requests are as before. *)
Lemma claimed_ready locked limit token t s keys s1 :
  wf s -> sound s ->
  (forall i d f, get i (deliveries s) = Some d -> first_attempt_at d = Some f -> f <= t) ->
  claim_due_deliveries locked limit token 30 t s = (keys, s1) ->
  (forall x, request_readable x s -> request_readable x s1) /\
  (forall i, i ∈ keys -> exists d, get i (deliveries s) = Some d /\
     (i, set_claimed token (t + seconds 30) t d) ∈ claimed_rows keys s1 /\
     get i (deliveries s1) = Some (set_claimed token (t + seconds 30) t d)) /\
  map fst (claimed_rows keys s1) = keys /\
  (forall i d, (i, d) ∈ claimed_rows keys s1 -> ready token i d s1) /\
  (forall i, i ∉ keys -> get i (deliveries s1) = get i (deliveries s)).
Proof.
  intros Hwf Hsound Htime Eclaim.
  pose proof (fun i => claim_due_get locked limit token 30 t s i (wf_deliveries _ Hwf)) as Hget.
  rewrite Eclaim in Hget.
  assert (forall x, request_readable x s -> request_readable x s1) as Hread1.
  { intros x Hx. unfold claim_due_deliveries in Eclaim. by injection Eclaim as _ <-. }
  assert (forall i, i ∈ keys -> exists d0, get i (deliveries s) = Some d0 /\
    get i (deliveries s1) = Some (set_claimed token (t + seconds 30) t d0)) as Hkeys.
  { intros i Hi. destruct (Hget i) as (_ & _ & Hin & _). destruct (Hin Hi) as (d & Hg & _ & _ & Hg').
    by exists d. }
  split; [done |]. split; [|split; [|split]].
  - intros i Hi. destruct (Hkeys i Hi) as (d0 & Hg0 & Hg1). exists d0. split; [done |]. split; [|done].
    apply list_elem_of_omap. exists i. by rewrite Hg1.
  - apply claimed_rows_keys. intros i Hi. destruct (Hkeys i Hi) as (d0 & _ & ->). by eexists.
  - intros i d Hin. unfold claimed_rows in Hin. apply list_elem_of_omap in Hin as (j & Hj & Hm).
    destruct (get j (deliveries s1)) eqn:Hg; simpl in Hm; simplify_eq.
    destruct (Hkeys i Hj) as (d0 & Hg0 & Hg1).
    rewrite Hg in Hg1. injection Hg1 as ->. destruct (Hsound i d0 Hg0) as [Hc Hr].
    split; [done | done | done | by split; eexists | | by apply Hread1].
    assert (or_else (first_attempt_at d0) t <= t) as Hf.
    { destruct (first_attempt_at d0) as [f|] eqn:Ef; simpl; [by eapply Htime | lia]. }
    unfold content_ok in *. simpl. apply andb_true_iff in Hc as [Hc _]. rewrite Hc. simpl.
    by apply Z.leb_le.
  - intros i Hi. destruct (Hget i) as (_ & _ & _ & Hout). by apply Hout.
Qed.


End Pass.

Section Intake.
(** What the schema library documents: validation succeeds on valid content only,
    and reads back what serialisation wrote. *)
Hypothesis validate_valid : forall p e, model_validate p = Some e -> valid_requested e = true.
Hypothesis validate_dump : forall e, valid_requested e = true -> model_validate (dump_request e) = Some e.

(** Whether the inbox row refuses a new claim: settled, or leased beyond [now]. *)
Definition refuses (now : datetime) (r : Messaging.InboxConsumption P) : bool :=
  bool_decide (Messaging.status r ∈ _INBOX_TERMINAL_STATUSES) ||
  match Messaging.inbox_lease_expires_at r with Some l => now <? l | None => false end.

Lemma claim_request_eq e lease now s :
  let mine := Messaging.same_message CONSUMER_NAME (Events.message_id e) in
  let row := claimed_inbox dump_request e (now + seconds lease) in
  claim_notification_request dump_request e lease now s =
  match scalar mine (inboxes s) with
  | None => Ok ((next_id (inboxes s), true), Store (insert row (inboxes s)).2 (deliveries s) (events s))
  | Some (i, r) =>
      let t := Table (rows (inboxes s)) (next_id (inboxes s) + 1) in
      if refuses now r then Ok ((i, false), Store t (deliveries s) (events s))
      else Ok ((i, true), Store (update i (fun _ => row) t) (deliveries s) (events s))
  end.
Proof.
  intros mine row. unfold claim_notification_request, insert_or_nothing. fold mine row.
  destruct (scalar mine (inboxes s)) as [[i r]|] eqn:E; [|done].
  change (scalar mine (Table _ _)) with (scalar mine (inboxes s)). rewrite E. unfold refuses.
  case_decide as Hd; [by rewrite bool_decide_eq_true_2 | by rewrite bool_decide_eq_false_2].
Qed.

(** What claiming a valid request does to the inbox: the row claimed is the one
    the message is then found by, leased, and its request can be read back. *)
Lemma claim_request_spec e lease now s :
  wf s -> valid_requested e = true ->
  exists i c s', claim_notification_request dump_request e lease now s = Ok ((i, c), s') /\
    wf s' /\ deliveries s' = deliveries s /\
    (forall x, request_readable x s -> request_readable x s') /\
    (c = true -> request_readable i s' /\
       scalar (Messaging.same_message CONSUMER_NAME (Events.message_id e)) (inboxes s') =
         Some (i, claimed_inbox dump_request e (now + seconds lease))).
Proof.
  intros Hwf Hv. set (mine := Messaging.same_message CONSUMER_NAME (Events.message_id e)).
  set (row := claimed_inbox dump_request e (now + seconds lease)).
  assert (mine row = true) as Hmine.
  { unfold mine, Messaging.same_message. simpl. by rewrite !bool_decide_eq_true_2. }
  assert (model_validate (Messaging.inbox_payload row) = Some e) as Hrow by (by apply validate_dump).
  assert (forall i t, get i t = Some row -> scalar mine t = Some (i, row) ->
    claim_notification_request dump_request e lease now s = Ok ((i, true), Store t (deliveries s) (events s)) ->
    (forall x, request_readable x s -> request_readable x (Store t (deliveries s) (events s))) ->
    exists i c s', claim_notification_request dump_request e lease now s = Ok ((i, c), s') /\
      wf s' /\ deliveries s' = deliveries s /\ (forall x, request_readable x s -> request_readable x s') /\
      (c = true -> request_readable i s' /\ scalar mine (inboxes s') = Some (i, row))) as Hclaimed.
  { intros i t Hg Hs E Hx. exists i, true, (Store t (deliveries s) (events s)). split; [done |].
    split; [by apply (delivery_step_wf dump_request dump_dead s _ Hwf), (step_claim_request _ _ _ _ _ _ _ _ E) |].
    split; [done |]. split; [done |]. intros _. split; [|done]. by exists row, e. }
  pose proof (wf_inboxes _ Hwf) as Hi. pose proof (claim_request_eq e lease now s) as Heq.
  cbv zeta in Heq. fold mine row in Heq. destruct (scalar mine (inboxes s)) as [[i r]|] eqn:Es; rewrite ?Es in Heq.
  - set (t := Table (rows (inboxes s)) (next_id (inboxes s) + 1)) in *.
    assert (wf_table t) as Ht by (by apply wf_burn).
    destruct (refuses now r) eqn:Er; rewrite ?Er in Heq.
    + rewrite Heq. exists i, false. eexists. split; [done |].
      split; [destruct Hwf; by split |]. split; [done |]. split; [intros x Hx; exact Hx | done].
    + apply scalar_Some in Es as Hg; [|done]. destruct Hg as [Hg _].
      eapply Hclaimed; [| |done|].
      * rewrite get_update, Z.eqb_refl. change (get i t) with (get i (inboxes s)). by rewrite Hg.
      * by apply (scalar_update mine i r (fun _ => row)).
      * intros x (r' & e' & Hg' & Hv'). unfold request_readable. simpl. rewrite get_update.
        change (get x t) with (get x (inboxes s)). rewrite Hg'.
        destruct (i =? x); [by exists row, e | by exists r', e'].
  - eapply Hclaimed; [| |done|].
    + by rewrite get_insert, Z.eqb_refl.
    + by apply scalar_insert.
    + intros x (r' & e' & Hg' & Hv'). exists r', e'. split; [|done].
      change (get x (insert row (inboxes s)).2 = Some r'). rewrite get_insert by done.
      apply get_lt in Hg' as Hlt; [|done]. destruct (Z.eqb_spec x (next_id (inboxes s))); [lia | done].
Qed.

(** A valid broker value is accepted whatever the state: the deliveries there
    are stay as they are, and, when the message was claimed, each requested channel
    has its delivery; a redelivery during the lease claims nothing and changes no
    delivery; the store stays sound.  An invalid value changes nothing. *)
Theorem accept_materializes now p s :
  wf s -> sound s -> 1 <= next_id (deliveries s) -> next_id (deliveries s) + 4 <= 2147483648 ->
  match model_validate p with
  | None => accept_notification_request dump_request model_validate now (inr p) s =
      (Raise (InvalidRequest "Invalid notification delivery request event."), s)
  | Some e => exists r s',
      accept_notification_request dump_request model_validate now (inr p) s = (Ok r, s') /\
      wf s' /\ sound s' /\
      (forall i d, get i (deliveries s) = Some d -> get i (deliveries s') = Some d) /\
      (was_claimed r = false -> deliveries s' = deliveries s) /\
      (was_claimed r = true ->
         (forall c, c ∈ channels (payload e) -> exists i d, get i (deliveries s') = Some d /\
            message_id d = Events.message_id e /\ channel d = c) /\
         forall now2, now2 < now + seconds 30 -> exists r2 s2,
           accept_notification_request dump_request model_validate now2 (inr p) s' = (Ok r2, s2) /\
           was_claimed r2 = false /\ deliveries s2 = deliveries s')
  end.
Proof.
  intros Hwf Hsound Hlo Hhi. unfold accept_notification_request. simpl.
  destruct (model_validate p) as [e|] eqn:Ev; [|done].
  pose proof (validate_valid _ _ Ev) as Hve.
  destruct (claim_request_spec e 30 now s Hwf Hve) as (i & c & s1 & E1 & Hwf1 & Hd1 & Hread & Hclaim).
  rewrite E1. simpl. destruct c.
  2: { eexists _, s1. split; [done |]. split; [done |]. split.
       - intros j d Hg. rewrite Hd1 in Hg. destruct (Hsound j d Hg) as [Hc Hr]. split; [done | by apply Hread].
       - split; [by rewrite Hd1 | done]. }
  destruct (Hclaim eq_refl) as [Hri Hmine].
  destruct (add_channels_spec i e (channels (payload e)) (deliveries s1) (wf_deliveries _ Hwf1)
    (wf_each _ Hwf1) (wf_channels _ Hwf1)) as (A1 & A2 & A3 & A4 & A5 & A6 & A7).
  unfold add_channel_deliveries.
  set (t := fold_left _ (channels (payload e)) (deliveries s1)) in *.
  pose proof (delivery_step_wf dump_request dump_dead _ _ Hwf1 (step_add_deliveries dump_request dump_dead i e s1)) as Hwf2.
  change (add_channel_deliveries i e s1).2 with (Store (inboxes s1) t (events s1)) in Hwf2.
  eexists _, _. split; [done |]. split; [done |]. split; [|split; [|split; [done |]]].
  - intros j d Hg. simpl in Hg. destruct (A5 j d Hg) as [Hg0|(_ & Hle & [ch ->])].
    + rewrite Hd1 in Hg0. destruct (Hsound j d Hg0) as [Hc Hr]. split; [done | by apply Hread].
    + split; [|done]. apply get_lt in Hg as Hlt; [|done].
      assert (length (channels (payload e)) <= 4)%nat as Hch.
      { unfold valid_requested, valid_requested_payload in Hve. bool_to_prop. lia. }
      unfold content_ok, new_delivery. simpl. unfold valid_requested, valid_requested_payload in Hve.
      bool_to_prop. rewrite Hd1 in *. rewrite !(proj2 (Z.leb_le _ _)) by lia.
      repeat match goal with H : ?b = true |- context [?b] => rewrite H end. done.
  - intros j d Hg. simpl. apply A4. by rewrite Hd1.
  - intros _. split; [done |]. intros now2 Hlt. unfold accept_notification_request. simpl. rewrite ?Ev.
    rewrite claim_request_eq. simpl. rewrite Hmine. unfold refuses. simpl.
    rewrite (proj2 (Z.ltb_lt _ _)) by done. simpl. eexists _, _. done.
Qed.

End Intake.

(** The worker's own order of commits: a record's offset is committed once it was
    processed, so the commits are those of a prefix of the records. *)
Lemma process_records_prefix loads records s :
  exists k, (k <= length records)%nat /\
    (process_records dump_request dump_dead model_validate loads records s).2 =
      map (fun r => (partition r, offset r + 1)) (take k records) /\
    ((process_records dump_request dump_dead model_validate loads records s).1.1 = Ok tt <->
       k = length records).
Proof.
  revert s. induction records as [|r records IH]; intros s; simpl; [by exists 0%nat |].
  destruct (process_notification_record _ _ _ _ _ _ _ s) as [[[]|e] s1].
  - destruct (IH s1) as (k & Hk & Hc & Hok).
    destruct (process_records _ _ _ _ records s1) as [[res s2] commits]. simpl in *.
    exists (S k). split; [lia |]. split; [simpl; by rewrite Hc |]. rewrite Hok. lia.
  - exists 0%nat. split; [lia |]. split; [done |]. simpl. split; [done | lia].
Qed.

Lemma undecodable_fails loads accept_time ps value s :
  match _decode_notification_request loads value with
  | Ok p => model_validate p = None
  | Raise _ => True
  end ->
  exists e, process_notification_record dump_request dump_dead model_validate loads accept_time ps value s
    = (Raise e, s).
Proof.
  unfold process_notification_record. destruct (_decode_notification_request loads value) as [p|e].
  - intros Hn. unfold accept_notification_request. simpl. rewrite Hn. by eexists.
  - intros _. by eexists.
Qed.


End Payload.

(** ** Witnesses *)

(** Payloads kept as the events they serialise. *)
Definition payloads : Type := NotificationDeliveryRequestedV1 + NotificationDeliveryDeadLetteredV1.
Definition validate (p : payloads) : option NotificationDeliveryRequestedV1 :=
  match p with
  | inl e => if valid_requested e then Some e else None
  | inr _ => None
  end.

Lemma validate_valid_inl p e : validate p = Some e -> valid_requested e = true.
Proof. destruct p as [x|]; simpl; [|done]. destruct (valid_requested x) eqn:E; by intros [= <-]. Qed.

Lemma validate_inl e : valid_requested e = true -> validate (inl e) = Some e.
Proof. simpl. by intros ->. Qed.

Definition two_channels : NotificationDeliveryRequestedV1 := DeliveryWitnesses.request.

Definition timeout_error (i : Z) (d : NotificationDelivery) (r : NotificationDeliveryRequestedV1)
    : provider_outcome := Raised (Notifications.OtherException "ReadTimeout" "timed out").

Definition intake : store payloads :=
  (accept_notification_request inl validate 0 (inr (inl two_channels)) init).2.

Lemma init_sound : sound validate init.
Proof. intros i d H. discriminate H. Qed.

Lemma intake_ok : wf intake /\ sound validate intake.
Proof.
  pose proof (accept_materializes inl inr validate validate_valid_inl validate_inl 0 (inl two_channels) init
    init_store_wf init_sound ltac:(reflexivity) ltac:(simpl; lia)) as H.
  assert (validate (inl two_channels) = Some two_channels) as Hv by (vm_compute; reflexivity).
  rewrite Hv in H. destruct H as (r & s' & E & Hwf & Hs & _). unfold intake. rewrite E. done.
Qed.

Lemma accept_materializes_witness :
  exists s', (accept_notification_request inl validate 0 (inr (inl two_channels)) init).2 = s' /\ wf s'.
Proof.
  pose proof (accept_materializes inl inr validate validate_valid_inl validate_inl 0 (inl two_channels) init
    init_store_wf init_sound ltac:(reflexivity) ltac:(simpl; lia)) as H.
  assert (validate (inl two_channels) = Some two_channels) as Hv by (vm_compute; reflexivity).
  rewrite Hv in H. destruct H as (r & s' & E & Hwf & _). exists s'. rewrite E. split; [reflexivity | exact Hwf].
Defined.


(** A poll of one record that holds no value. *)
Definition empty_record : consumer_record (P := payloads) :=
  Record_ 0 41 None 0 (Pass timeout_error (fun lo _ => lo) (fun _ => 0) (fun _ s => s) (fun _ => false) "w" 0).


(** The offset of a record is committed while a delivery of it is still pending:
    the pass that follows the intake of a record takes one delivery only. *)
Example offset_committed_while_pending :
  let ps := Pass timeout_error (fun lo _ => lo) (fun _ => 0) (fun _ s => s) (fun _ => false) "w" 0 in
  let '(res, s, commits) := process_records inl inr validate (fun _ => JsonObject (inl two_channels))
    [Record_ 0 41 (Some []) 0 ps] init in
  res = Ok tt /\ commits = [(0, 42)] /\ (status <$> get 2 (deliveries s)) = Some pending.
Proof. vm_compute. repeat split. Qed.

(** Attempts that end in a crash are not counted: the provider was called three
    times here, the row says once. *)
Example abandoned_attempts_not_counted :
  let crash (t : Z) s := (deliver_due_notifications inr validate (fun _ _ _ => Cancelled)
    (notification_retry_delay (fun lo _ => lo)) None (fun _ => t) (fun _ s => s) (fun _ => false) 1 "w" t s).2 in
  attempt_count <$> get 1 (deliveries (crash (seconds 120) (crash (seconds 60) (crash 0 intake)))) = Some 1.
Proof. vm_compute. reflexivity. Qed.

(** A client error of a provider is retried like a timeout. *)
Example http_status_errors_are_retried (message : string) :
  _classify_provider_error (Notifications.OtherException "HTTPStatusError" message) =
  (unknown, Some "HTTPStatusError", true).
Proof. reflexivity. Qed.
End ConsumerTheorems.
