(* ===== verification/OutboxPublisher.v ===== *)
(** * Notification outbox publisher (notification_outbox_publisher.py)

    One bounded pass over the outbox of [Messaging.v]: claim, publish each event
    to its topic, record the outcome.  [publish] is the broker client with its
    timeout, and [dumps] the JSON encoding of a payload; both give the name of the
    exception they raise.  [others] is what other workers do to the outbox while
    an event is being published. *)

From S2P Require Import Prelude Db Contracts Messaging Notifications.

Module Publisher.
Import Events Messaging.

Inductive error := ValueError (message : string).

Definition _NOTIFICATION_TOPICS : list (string * string) :=
  [(EVENT_NOTIFICATION_DELIVERY_REQUESTED_V1, TOPIC_NOTIFICATION_DELIVERY_REQUESTS_V1);
   (EVENT_NOTIFICATION_DELIVERY_DEAD_LETTERED_V1, TOPIC_NOTIFICATION_DELIVERY_DLQ_V1)].
Definition _OUTBOX_EVENT_TYPES : list string := map fst _NOTIFICATION_TOPICS.
Definition _RETRY_BASE_SECONDS : Z := 5.
Definition _RETRY_MAX_SECONDS : Z := 300.
Definition _MAX_BATCH_SIZE : Z := 100.

Record OutboxPublishBatchResult := BatchResult {
  claimed : Z;
  published : Z;
  failed : Z;
  claim_conflicts : Z
}.

Definition notification_outbox_publisher_enabled (cfg : Notifications.Settings) : bool :=
  Notifications.notifications_enabled cfg &&
  bool_decide (Notifications.notification_delivery_mode cfg = Notifications.broker) &&
  Notifications.broker_enabled cfg.

Fixpoint assoc (k : string) (l : list (string * string)) : option string :=
  match l with
  | [] => None
  | (k', v) :: l => if decide (k = k') then Some v else assoc k l
  end.

Definition notification_outbox_topic (event_type : string) : result error string :=
  match assoc event_type _NOTIFICATION_TOPICS with
  | Some topic => Ok topic
  | None => Raise (ValueError ("Unsupported notification outbox event: " +:+ event_type))
  end.

Definition outbox_retry_delay_seconds (publish_attempts : Z) : result error Z :=
  if publish_attempts <? 1 then Raise (ValueError "publish_attempts must be at least one")
  else Ok (Z.min (_RETRY_BASE_SECONDS * 2 ^ Z.min (publish_attempts - 1) 30) _RETRY_MAX_SECONDS).

Section Publish.
Context {P : Type} (dumps : P -> result string (list Byte.byte))
        (publish : Z -> string -> list Byte.byte -> result string unit)
        (others : Z -> outbox P -> outbox P).

(** The [try] block: the name of the exception it ends with. *)
Definition try_publish (i : Z) (e : OutboxEvent P) : result string unit :=
  match notification_outbox_topic (event_type e) with
  | Raise _ => Raise "ValueError"
  | Ok topic => bind_result (dumps (payload e)) (publish i topic)
  end.

Inductive outcome := Published | Failed | Conflict | FailedConflict.

(** The body of the loop for the claimed event [e] of key [i]. *)
Definition publish_one (token : string) (now : datetime) (i : Z) (e : OutboxEvent P) (t : outbox P)
    : result error outcome * outbox P :=
  let t' := others i t in
  match try_publish i e with
  | Raise name =>
      match outbox_retry_delay_seconds (publish_attempts e) with
      | Raise err => (Raise err, t')
      | Ok delay =>
          let '(updated, t) := mark_outbox_publish_failed i (name +:+ ": publish failed")
                                 (Some (now + seconds delay)) (Some token) t' in
          (Ok (match updated with Some _ => Failed | None => FailedConflict end), t)
      end
  | Ok _ =>
      let '(updated, t) := mark_outbox_published i now (Some token) t' in
      (Ok (match updated with Some _ => Published | None => Conflict end), t)
  end.

Definition tally (o : outcome) (b : OutboxPublishBatchResult) : OutboxPublishBatchResult :=
  match o with
  | Published => BatchResult (claimed b) (published b + 1) (failed b) (claim_conflicts b)
  | Failed => BatchResult (claimed b) (published b) (failed b + 1) (claim_conflicts b)
  | Conflict => BatchResult (claimed b) (published b) (failed b) (claim_conflicts b + 1)
  | FailedConflict => BatchResult (claimed b) (published b) (failed b + 1) (claim_conflicts b + 1)
  end.

Fixpoint publish_loop (token : string) (now : datetime) (events : list (Z * OutboxEvent P))
    (b : OutboxPublishBatchResult) (t : outbox P) : result error OutboxPublishBatchResult * outbox P :=
  match events with
  | [] => (Ok b, t)
  | (i, e) :: events =>
      match publish_one token now i e t with
      | (Raise err, t) => (Raise err, t)
      | (Ok o, t) => publish_loop token now events (tally o b) t
      end
  end.

Definition claimed_events (keys : list Z) (t : outbox P) : list (Z * OutboxEvent P) :=
  omap (fun i => (fun e => (i, e)) <$> get i t) keys.

Definition publish_notification_outbox_batch (locked : Z -> bool) (limit lease_seconds : Z)
    (publish_timeout_seconds : Q) (token : string) (now : datetime) (t : outbox P)
    : result error OutboxPublishBatchResult * outbox P :=
  if negb ((1 <=? limit) && (limit <=? _MAX_BATCH_SIZE))
  then (Raise (ValueError ("limit must be between 1 and " +:+ str_of_Z _MAX_BATCH_SIZE)), t)
  else if lease_seconds <? 1 then (Raise (ValueError "lease_seconds must be positive"), t)
  else if negb (Qltb 0 publish_timeout_seconds && Qle_bool publish_timeout_seconds 60)
  then (Raise (ValueError "publish_timeout_seconds must be between 0 and 60"), t)
  else
    let '(keys, t) := claim_pending_outbox_events locked (Z.to_nat limit) token lease_seconds now
                        (Some _OUTBOX_EVENT_TYPES) t in
    publish_loop token now (claimed_events keys t)
      (BatchResult (Z.of_nat (length keys)) 0 0 0) t.

End Publish.
End Publisher.

(** ** Theorems *)

Module PublisherTheorems.
Import Events Messaging MessagingTheorems Publisher.

(** The backoff doubles from five seconds to its five-minute cap, reached at the
    seventh attempt. *)
Lemma retry_delay_bounds n :
  1 <= n -> exists d, outbox_retry_delay_seconds n = Ok d /\ 5 <= d <= 300 /\ (7 <= n -> d = 300) /\
    forall m d', n <= m -> outbox_retry_delay_seconds m = Ok d' -> d <= d'.
Proof.
  intros Hn. unfold outbox_retry_delay_seconds, _RETRY_BASE_SECONDS, _RETRY_MAX_SECONDS.
  rewrite (proj2 (Z.ltb_ge _ _)) by lia. eexists. split; [done |].
  assert (1 <= 2 ^ Z.min (n - 1) 30) by (pose proof (Z.pow_pos_nonneg 2 (Z.min (n - 1) 30)); lia).
  split; [lia |]. split.
  - intros H7. assert (2 ^ 6 <= 2 ^ Z.min (n - 1) 30) by (apply Z.pow_le_mono_r; lia). lia.
  - intros m d' Hm. rewrite (proj2 (Z.ltb_ge _ _)) by lia. intros [= <-].
    assert (2 ^ Z.min (n - 1) 30 <= 2 ^ Z.min (m - 1) 30) by (apply Z.pow_le_mono_r; lia). lia.
Qed.

Lemma topic_of_claimed (l : string) :
  l ∈ _OUTBOX_EVENT_TYPES -> exists topic, notification_outbox_topic l = Ok topic.
Proof.
  intros [->|[->|H]%elem_of_cons]%elem_of_cons; [by eexists | by eexists |]. by apply not_elem_of_nil in H.
Qed.

Section Publish.
Context {P : Type} (dumps : P -> result string (list Byte.byte))
        (publish : Z -> string -> list Byte.byte -> result string unit).
Implicit Types (t : outbox P) (e : OutboxEvent P).

(** What the event's row becomes. *)
Definition row_after (now : datetime) (i : Z) e (e' : OutboxEvent P) : Prop :=
  match try_publish dumps publish i e with
  | Ok _ => e' = set_outcome (Some now) None None e
  | Raise name => exists delay, 5 <= delay <= 300 /\
      outbox_retry_delay_seconds (publish_attempts e) = Ok delay /\
      e' = set_outcome None (Some (str_take 512 (name +:+ ": publish failed")))
             (Some (now + seconds delay)) e
  end.

Definition owned (token : string) (i : Z) e t : Prop :=
  get i t = Some e /\ claim_token e = Some token /\ 1 <= publish_attempts e.

Definition ok_outcome (o : outcome) : Prop := o = Published \/ o = Failed.

Lemma publish_one_spec token now i e t :
  wf_outbox t -> owned token i e t ->
  exists o t' e', publish_one dumps publish (fun _ t => t) token now i e t = (Ok o, t') /\
    wf_outbox t' /\ get i t' = Some e' /\ row_after now i e e' /\
    (o = Published <-> is_ok (try_publish dumps publish i e) = true) /\ ok_outcome o /\
    (forall j, j <> i -> get j t' = get j t).
Proof.
  intros Hwf (Hg & Ht & Ha). unfold publish_one, row_after.
  assert (claimed_row i (Some token) t = Some e) as Hc.
  { unfold claimed_row. rewrite Hg. by rewrite decide_True. }
  assert (forall (f : OutboxEvent P -> OutboxEvent P) j, j <> i -> get j (update i f t) = get j t) as Hother.
  { intros f j Hj. rewrite get_update. destruct (Z.eqb_spec i j); [congruence | done]. }
  destruct (try_publish dumps publish i e) as [u|name] eqn:Et.
  - unfold mark_outbox_published. rewrite Hc. cbv zeta. rewrite get_update, Z.eqb_refl, Hg.
    eexists Published, _, _. split; [done |].
    split; [by apply wf_outbox_update |]. split; [by rewrite get_update, Z.eqb_refl, Hg |].
    split; [done |]. split; [done |]. split; [by left | apply Hother].
  - destruct (retry_delay_bounds (publish_attempts e) Ha) as (d & Hd & Hb & _). rewrite Hd.
    unfold mark_outbox_publish_failed. rewrite Hc. cbv zeta. rewrite get_update, Z.eqb_refl, Hg.
    eexists Failed, _, _. split; [done |].
    split; [by apply wf_outbox_update |]. split; [by rewrite get_update, Z.eqb_refl, Hg |].
    split; [by exists d |]. split; [done |]. split; [by right | apply Hother].
Qed.

Lemma publish_loop_spec token now events b t :
  wf_outbox t -> NoDup (map fst events) -> (forall i e, (i, e) ∈ events -> owned token i e t) ->
  exists b' t', publish_loop dumps publish (fun _ t => t) token now events b t = (Ok b', t') /\
    wf_outbox t' /\ claimed b' = claimed b /\ claim_conflicts b' = claim_conflicts b /\
    published b' = published b +
      Z.of_nat (count (fun x => is_ok (try_publish dumps publish x.1 x.2)) events) /\
    published b' + failed b' = published b + failed b + Z.of_nat (length events) /\
    (forall i e, (i, e) ∈ events -> exists e', get i t' = Some e' /\ row_after now i e e') /\
    (forall j, j ∉ map fst events -> get j t' = get j t).
Proof.
  intros Hwf Hnd Hown. revert b t Hwf Hown. induction events as [|[i e] events IH]; intros b t Hwf Hown.
  { exists b, t. unfold count. simpl. do 4 (split; [done |]). split; [lia |]. split; [lia |]. split; [|done].
    intros i e H. by apply not_elem_of_nil in H. }
  simpl in Hnd. apply NoDup_cons in Hnd as [Hi Hnd].
  destruct (publish_one_spec token now i e t Hwf (Hown i e ltac:(by left)))
    as (o & t1 & e1 & E1 & Hwf1 & Hg1 & Hrow1 & Hpub & Hok & Hframe1).
  assert (forall j f, (j, f) ∈ events -> j <> i) as Hne.
  { intros j f Hj ->. apply Hi, list_elem_of_fmap. by exists (i, f). }
  destruct (IH Hnd (tally o b) t1 Hwf1) as (b' & t' & E2 & Hwf' & Hc & Hcc & Hp & Hsum & Hrows & Hframe).
  { intros j f Hj. destruct (Hown j f ltac:(by right)) as (H1 & H2 & H3). split; [|done].
    rewrite Hframe1; [done | by eapply Hne]. }
  exists b', t'. cbn [publish_loop length map fst snd]. rewrite E1. split; [done |]. split; [done |].
  split; [rewrite Hc; by destruct o |]. split; [rewrite Hcc; by destruct Hok as [->| ->] |].
  split.
  { rewrite Hp. unfold count. cbn [List.filter fst snd].
    destruct (is_ok (try_publish dumps publish i e)) eqn:Ei; simpl length;
      destruct Hok as [->| ->]; cbn [tally published]; try lia; exfalso;
      [by destruct Hpub as [_ Hpub]; specialize (Hpub eq_refl) | by destruct Hpub as [Hpub _]; specialize (Hpub eq_refl)]. }
  split; [rewrite Hsum; destruct Hok as [->| ->]; cbn [tally published failed]; lia |].
  split.
  - intros j f [[= -> ->]|Hj]%elem_of_cons; [|by apply Hrows].
    exists e1. split; [|done]. by rewrite Hframe.
  - intros j Hj. rewrite Hframe by set_solver. apply Hframe1. set_solver.
Qed.

Lemma claimed_events_spec keys t :
  (forall i, i ∈ keys -> is_Some (get i t)) -> map fst (claimed_events keys t) = keys /\
  forall i e, (i, e) ∈ claimed_events keys t <-> i ∈ keys /\ get i t = Some e.
Proof.
  intros Hk. split.
  - unfold claimed_events. induction keys as [|i keys IH]; [done |]. csimpl.
    destruct (Hk i ltac:(by left)) as [e ->]. csimpl. f_equal. apply IH. intros j Hj. apply Hk. by right.
  - intros i e. unfold claimed_events. rewrite list_elem_of_omap. split.
    + intros (j & Hj & Hm). destruct (get j t) eqn:Eg; simpl in Hm; by simplify_eq.
    + intros [Hi Hg]. exists i. by rewrite Hg.
Qed.

(** A publisher pass with valid arguments always returns; it claims only
    notification events, at most [limit] of them; each is published exactly when
    its topic was resolved and the broker took it, and is otherwise rescheduled
    5 to 300 seconds later with its error; no claim conflicts, the counts add up,
    and no other event changes. *)
Theorem publisher_batch_settles locked limit lease timeout token now t :
  wf_outbox t -> every (fun _ e => 0 <= publish_attempts e) t ->
  1 <= limit <= _MAX_BATCH_SIZE -> 1 <= lease -> (0 < timeout)%Q -> (timeout <= 60)%Q ->
  let keys := (claim_pending_outbox_events locked (Z.to_nat limit) token lease now (Some _OUTBOX_EVENT_TYPES) t).1 in
  exists b t',
    publish_notification_outbox_batch dumps publish (fun _ t => t) locked limit lease timeout token now t
      = (Ok b, t') /\ wf_outbox t' /\
    claimed b = Z.of_nat (length keys) /\ claimed b <= limit /\ claim_conflicts b = 0 /\
    published b + failed b = claimed b /\
    (forall i, i ∈ keys -> exists e e', get i t = Some e /\ pending e = true /\
       event_type e ∈ _OUTBOX_EVENT_TYPES /\ get i t' = Some e' /\
       row_after now i (set_claimed token (now + seconds lease) e) e') /\
    (forall j, j ∉ keys -> get j t' = get j t).
Proof.
  intros Hwf Hatt Hlim Hlease Ht0 Ht1.
  unfold publish_notification_outbox_batch.
  rewrite !(proj2 (Z.leb_le _ _)), (proj2 (Z.ltb_ge _ _)), (proj2 (Qltb_lt _ _)) by (lia || done).
  rewrite (proj2 (Qle_bool_iff _ _)) by done. simpl negb. cbv iota.
  pose proof (wf_outbox_claim locked (Z.to_nat limit) token lease now (Some _OUTBOX_EVENT_TYPES) t Hwf) as Hwf1.
  pose proof (claim_spec locked (Z.to_nat limit) token lease now (Some _OUTBOX_EVENT_TYPES) t) as Hspec.
  pose proof (claim_frame locked (Z.to_nat limit) token lease now (Some _OUTBOX_EVENT_TYPES) t) as Hframe0.
  assert (NoDup (claim_pending_outbox_events locked (Z.to_nat limit) token lease now (Some _OUTBOX_EVENT_TYPES) t).1 /\
    (length (claim_pending_outbox_events locked (Z.to_nat limit) token lease now (Some _OUTBOX_EVENT_TYPES) t).1 <= Z.to_nat limit)%nat)
    as [Hnd Hlen].
  { unfold claim_pending_outbox_events. case_decide; [split; [constructor | simpl; lia] |]. simpl.
    split; [apply select_for_update_NoDup, Hwf |]. rewrite length_map. unfold select_for_update.
    rewrite length_take. lia. }
  destruct (claim_pending_outbox_events _ _ _ _ _ _ t) as [keys t1]. simpl in *.
  destruct (claimed_events_spec keys t1) as [Hfst Hin].
  { intros i Hi. destruct (Hspec i (outbox_keys _ Hwf) Hi) as (e & _ & _ & ->). by eexists. }
  destruct (publish_loop_spec token now (claimed_events keys t1)
    (BatchResult (Z.of_nat (length keys)) 0 0 0) t1 Hwf1) as
    (b & t' & E & Hwf' & Hc & Hcc & _ & Hsum & Hrows & Hframe); [by rewrite Hfst | |].
  { intros i e Hie. apply Hin in Hie as [Hi Hg].
    destruct (Hspec i (outbox_keys _ Hwf) Hi) as (e0 & Hg0 & _ & Hg1). rewrite Hg in Hg1. simplify_eq.
    split; [done |]. split; [done |]. simpl. specialize (Hatt i e0 Hg0). simpl in Hatt. lia. }
  rewrite Hfst in Hframe. assert (length (claimed_events keys t1) = length keys) as Hl
    by (by rewrite <- Hfst at 2; rewrite length_map).
  exists b, t'. split; [done |]. split; [done |]. split; [done |]. simpl in *.
  split; [lia |]. split; [done |]. split; [lia |]. split.
  - intros i Hi. destruct (Hspec i (outbox_keys _ Hwf) Hi) as (e & Hg & Hcl & Hg1).
    destruct (Hrows i (set_claimed token (now + seconds lease) e)) as (e' & Hg' & Hrow); [by apply Hin |].
    exists e, e'. unfold claimable in Hcl. by bool_to_prop.
  - intros j Hj. rewrite Hframe by done. by apply Hframe0; [apply Hwf |].
Qed.
End Publish.

(** An outbox with one request; the broker is down. *)
Definition one_request : outbox unit :=
  (insert (Outbox "dependency_incident" "1" EVENT_NOTIFICATION_DELIVERY_REQUESTED_V1 tt "k" None None 0
     None None None None None) (empty_table _)).2.

Lemma publisher_batch_settles_witness :
  exists b t', publish_notification_outbox_batch (fun _ => Ok []) (fun _ _ _ => Raise "TimeoutError")
    (fun _ t => t) (fun _ => false) 10 120 10 "me" 0 one_request = (Ok b, t') /\ published b + failed b = 1.
Proof.
  destruct (publisher_batch_settles (fun _ => Ok []) (fun _ _ _ => Raise "TimeoutError") (fun _ => false)
    10 120 10 "me" 0 one_request) as (b & t' & E & _ & Hc & _ & _ & Hs & _).
  - split; [apply wf_insert, wf_empty |].
    apply unique_insert; [apply wf_empty | apply unique_empty | intros k _ i r H; discriminate H].
  - apply every_insert; [apply wf_empty | apply every_empty | simpl; lia].
  - unfold _MAX_BATCH_SIZE. lia.
  - lia.
  - reflexivity.
  - vm_compute. discriminate.
  - exists b, t'. split; [exact E |]. rewrite Hs, Hc. reflexivity.
Defined.
End PublisherTheorems.
