(* ===== verification/IncidentLifecycle.v ===== *)
(** * Incident lifecycle (incident_lifecycle.py, core/incident_notifications.py)

    A health sample, the incidents it opens or resolves and the notification
    requests they ask for, in one transaction; then the direct dispatch after the
    commit.  [P] is the type of JSON payloads and [dump_request] is [model_dump]
    of a request.  A call that raises leaves the world as it was: the session is
    closed without a commit.  What overlapping transactions make of the cooldown is
    in [IncidentRaces.v]. *)

From S2P Require Import Prelude Db Contracts Incidents Messaging Notifications.

Module Lifecycle.
Import Incidents Notifications.

Inductive error :=
| SourceNotFound
| NoChannels (message : string)
| InvalidEvent
| Conflict (e : IntegrityError)
| OutboxError (e : Messaging.RuntimeError).

Definition _notification_message_id (i occurrence : Z) : string :=
  "incident:" +:+ str_of_Z i +:+ String ":" ("notification:" +:+ str_of_Z occurrence).

Definition request_key (message_id : string) : string := "notification-request:" +:+ message_id.

Definition request_payload (i : Z) (row : DependencyIncident) (channels : list Events.NotificationChannel)
    : Events.NotificationDeliveryRequestedPayloadV1 :=
  Events.RequestedPayload i (source_id row) (tenant_id row) (severity row) (summary row)
    (trigger_type row) (occurrence_count row) (guidance row) channels.

Section Lifecycle.
Context {P : Type} (dump_request : Events.NotificationDeliveryRequestedV1 -> P) (cfg : Settings).

(** The incident rows and the outbox of one transaction. *)
Definition state : Type := incidents * Messaging.outbox P.

(** One transition of the loop. *)
Definition enqueue_one (channels : list Events.NotificationChannel) (tr : IncidentTransition) (s : state)
    : result error state :=
  if negb (should_notify tr) then Ok s
  else
    let '(t, out) := s in
    match get (incident tr) t with
    | None => Ok s (* a transition names a row of the session *)
    | Some row =>
        let message_id := _notification_message_id (incident tr) (occurrence_count row) in
        match Events.make_requested message_id (Events._aware_utc (Events.Stamp (last_seen_at row) None))
                (request_payload (incident tr) row channels) with
        | Raise _ => Raise InvalidEvent
        | Ok event =>
            match Messaging.add_outbox_event "dependency_incident" (str_of_Z (incident tr))
                    Events.EVENT_NOTIFICATION_DELIVERY_REQUESTED_V1 (dump_request event)
                    (request_key message_id) (tenant_id row) out with
            | Raise e => Raise (OutboxError e)
            | Ok (_, out) => Ok (update (incident tr) (set_notified (last_seen_at row)) t, out)
            end
        end
    end.

Fixpoint enqueue_all (channels : list Events.NotificationChannel) (trs : list IncidentTransition) (s : state)
    : result error state :=
  match trs with
  | [] => Ok s
  | tr :: trs => bind_result (enqueue_one channels tr s) (enqueue_all channels trs)
  end.

Definition broker_delivery : bool :=
  bool_decide (notification_delivery_mode cfg = broker) && notifications_enabled cfg.

Definition enqueue_incident_notification_requests (trs : list IncidentTransition) (s : state)
    : result error state :=
  if negb broker_delivery then Ok s
  else match configured_notification_channels cfg with
       | [] => Raise (NoChannels "Broker notification delivery requires at least one valid default channel.")
       | channels => enqueue_all channels trs s
       end.

(** What the dispatch after the commit did: the metric increments, and the
    incidents sent to the direct dispatcher. *)
Record dispatched := Dispatched {
  transition_counts : list (string * string);
  direct : list (Z * string * list (string * json))
}.

Definition dispatch_context (i : Z) (row : DependencyIncident) : list (string * json) :=
  [("incident_id", JInt i); ("source_id", JInt (source_id row)); ("tenant_id", json_opt JInt (tenant_id row));
   ("trigger_type", JStr (trigger_type row)); ("occurrence_count", JInt (occurrence_count row));
   ("guidance", JStr (guidance row))].

(** [clock i] is when the attempt on incident [i] is marked. *)
Fixpoint _dispatch_transitions (clock : Z -> datetime) (trs : list IncidentTransition) (t : incidents)
    : dispatched * incidents :=
  match trs with
  | [] => (Dispatched [] [], t)
  | tr :: trs =>
      match get (incident tr) t with
      | None => _dispatch_transitions clock trs t
      | Some row =>
          let metric := (trigger_type row, transition tr) in
          if negb (should_notify tr) || bool_decide (notification_delivery_mode cfg = broker) then
            let '(d, t) := _dispatch_transitions clock trs t in
            (Dispatched (metric :: transition_counts d) (direct d), t)
          else
            let t := mark_notification_attempted (clock (incident tr)) (incident tr) t in
            let '(d, t) := _dispatch_transitions clock trs t in
            (Dispatched (metric :: transition_counts d)
               ((incident tr, summary row, dispatch_context (incident tr) row) :: direct d), t)
      end
  end.

(** ** Recording a health sample *)

Record world := World {
  sources : table (SourceProfile * option datetime);
  samples : table ProviderHealthSample;
  rows_of_incidents : incidents;
  outbox : Messaging.outbox P
}.

Record HealthSampleCreate := SampleCreate {
  create_source_id : Z;
  create_sampled_at : Events.stamp;
  create_latency_ms : Q;
  create_is_success : bool;
  create_http_status : option Z;
  create_error_message : option string
}.

(** [sampled_at.replace(tzinfo=None)] keeps the wall clock. *)
Definition sample_of (p : HealthSampleCreate) : ProviderHealthSample :=
  Sample (create_source_id p) (Events.wall (create_sampled_at p)) (create_latency_ms p)
    (create_is_success p) (create_http_status p) (create_error_message p).

(** [format_g] formats a float; [now] is the clock inside the transaction. *)
Definition record_health_sample (format_g : Q -> string) (now : datetime) (clock : Z -> datetime)
    (p : HealthSampleCreate) (w : world) : result error (Z * dispatched) * world :=
  match get (create_source_id p) (sources w) with
  | Some (source, None) =>
      let '(i, smps) := insert (sample_of p) (samples w) in
      match reconcile_health_incidents format_g now source i (sample_of p) smps (rows_of_incidents w) with
      | Raise e => (Raise (Conflict e), w)
      | Ok (trs, t) =>
          match enqueue_incident_notification_requests trs (t, outbox w) with
          | Raise e => (Raise e, w)
          | Ok (t, out) =>
              let '(d, t) := _dispatch_transitions clock trs t in
              (Ok (i, d), World (sources w) smps t out)
          end
      end
  | _ => (Raise SourceNotFound, w)
  end.

(** ** A report of one trigger *)

(** An occurrence reported and its request enqueued, in one transaction. *)
Definition report (now : datetime) (source : SourceProfile) (trigger sev summ : string) (details : json)
    (s : state) : result error (IncidentTransition * state) :=
  match open_or_update_incident now source trigger sev summ details s.1 with
  | Raise e => Raise (Conflict e)
  | Ok (tr, t) =>
      bind_result (enqueue_incident_notification_requests [tr] (t, s.2)) (fun s => Ok (tr, s))
  end.

End Lifecycle.
Arguments world : clear implicits.
End Lifecycle.

(** ** Theorems *)

Module LifecycleTheorems.
Import Incidents IncidentTheorems Notifications Lifecycle.

(** Each value of the setting that is kept names one of the four channels; names
    are kept as often as they are written. *)
Lemma parse_channels_app a b :
  _parse_channels (a +:+ String ","%char b) = _parse_channels a ++ _parse_channels b.
Proof.
  unfold _parse_channels. by rewrite split_on_app, List.filter_app, map_app, omap_app.
Qed.

Section Lifecycle.
Context {P : Type} (dump_request : Events.NotificationDeliveryRequestedV1 -> P) (cfg : Settings).

(** In broker mode a channel configured twice, such as [slack,slack], makes
    every health sample that has an incident to notify fail: the sample, the
    incident and the request are all rolled back. *)
Theorem duplicate_channels_lose_evidence format_g now clock p (w : world P) source trs t :
  broker_delivery cfg = true -> ~ NoDup (configured_notification_channels cfg) ->
  get (create_source_id p) (sources w) = Some (source, None) ->
  reconcile_health_incidents format_g now source (next_id (samples w)) (sample_of p)
    (insert (sample_of p) (samples w)).2 (rows_of_incidents w) = Ok (trs, t) ->
  (exists tr, tr ∈ trs /\ should_notify tr = true) ->
  (forall tr, tr ∈ trs -> is_Some (get (incident tr) t)) ->
  exists e, record_health_sample dump_request cfg format_g now clock p w = (Raise e, w).
Proof.
  intros Hb Hdup Hsrc Hrec (tr & Htr & Hn) Hrows. unfold record_health_sample. rewrite Hsrc.
  change (insert (sample_of p) (samples w)) with (next_id (samples w), (insert (sample_of p) (samples w)).2).
  cbv iota beta.
  rewrite Hrec. unfold enqueue_incident_notification_requests. rewrite Hb. simpl negb. cbv iota.
  set (chs := configured_notification_channels cfg) in *.
  assert (forall trs s, (exists tr, tr ∈ trs /\ should_notify tr = true) ->
    (forall tr, tr ∈ trs -> is_Some (get (incident tr) s.1)) ->
    exists e, enqueue_all dump_request chs trs s = Raise e) as Hfail.
  { clear - Hdup. induction trs as [|x trs IH]; intros [t out] (tr & Hin & Hn) Hrows.
    { by apply not_elem_of_nil in Hin. }
    simpl. destruct (should_notify x) eqn:Ex.
    - unfold enqueue_one at 1. rewrite Ex. simpl negb. cbv iota.
      destruct (Hrows x ltac:(by left)) as [row Hrow]. simpl in Hrow. rewrite Hrow.
      assert (forall m at_, Events.make_requested m at_ (request_payload (incident x) row chs) =
        Raise Events.validation_error) as Hinv.
      { intros m at_. unfold Events.make_requested.
        assert (Events.valid_requested_payload (request_payload (incident x) row chs) = false) as ->; [|done].
        apply not_true_iff_false. intros Hv. apply Hdup. unfold Events.valid_requested_payload in Hv.
        apply andb_true_iff in Hv as [_ Hv]. unfold Events.channels_are_unique in Hv.
        by apply bool_decide_eq_true in Hv. }
      rewrite Hinv. by eexists.
    - assert (enqueue_one dump_request chs x (t, out) = Ok (t, out)) as ->
        by (unfold enqueue_one; by rewrite Ex).
      simpl. apply IH.
      + apply elem_of_cons in Hin as [->|Hin]; [congruence | by exists tr].
      + intros y Hy. apply Hrows. by right. }
  destruct chs as [|c chs'] eqn:Echs; [by destruct Hdup; constructor |].
  destruct (Hfail trs (t, outbox w)) as [e ->]; [by exists tr | done | by exists e].
Qed.

(** What enqueuing one transition does to the incidents. *)
Lemma enqueue_single tr row t out t2 out2 :
  get (incident tr) t = Some row ->
  enqueue_incident_notification_requests dump_request cfg [tr] (t, out) = Ok (t2, out2) ->
  t2 = if broker_delivery cfg && should_notify tr
       then update (incident tr) (set_notified (last_seen_at row)) t else t.
Proof.
  intros Hg H. unfold enqueue_incident_notification_requests in H.
  destruct (broker_delivery cfg); simpl in H; [|by simplify_eq].
  destruct (configured_notification_channels cfg) as [|c chs]; [done |].
  unfold enqueue_all, enqueue_one in H.
  destruct (should_notify tr); simpl in H; [|by simplify_eq].
  rewrite Hg in H. destruct (Events.make_requested _ _ _); [|done].
  destruct (Messaging.add_outbox_event _ _ _ _ _ _ _) as [[k out1]|]; [|done]. simpl in H. by simplify_eq.
Qed.

End Lifecycle.

(** ** Witnesses *)

Definition broker_with (channels : string) : Settings := {|
  notifications_enabled := true; notification_delivery_mode := broker; broker_enabled := true;
  notification_default_channels := channels; notification_slack_webhook_url := None;
  notification_telegram_bot_token := None; notification_telegram_chat_id := None;
  notification_webhook_url := None; notification_email_provider := "resend";
  notification_resend_api_key := None; notification_email_from := None; notification_email_to := None |}.

Definition api : SourceProfile := IncidentWitnesses.api.

Definition one_failure : world unit :=
  World (insert (api, None) (Table [] 3)).2
    (insert (IncidentWitnesses.failed 10) (empty_table _)).2 (empty_table _) (empty_table _).

Definition second_failure : HealthSampleCreate :=
  SampleCreate 3 (Events.Stamp 20 (Some 0)) 12 false (Some 503) (Some "unavailable").

(** The second failure of a source, which opens an incident, is lost. *)
Lemma duplicate_channels_lose_evidence_witness :
  exists e, record_health_sample (fun _ => tt) (broker_with "slack, slack") (fun _ => EmptyString) 30
    (fun _ => 31) second_failure one_failure = (Raise e, one_failure).
Proof.
  destruct (reconcile_health_incidents (fun _ => EmptyString) 30 api (next_id (samples one_failure))
    (sample_of second_failure) (insert (sample_of second_failure) (samples one_failure)).2
    (rows_of_incidents one_failure)) as [[trs t]|] eqn:E; [|vm_compute in E; discriminate E].
  apply (duplicate_channels_lose_evidence (fun _ => tt) (broker_with "slack, slack") (fun _ => EmptyString) 30
    (fun _ => 31) second_failure one_failure api trs t).
  - reflexivity.
  - vm_compute. intros H. apply NoDup_cons in H as [H _]. apply H. left.
  - reflexivity.
  - exact E.
  - exists (Transition 1 "opened" true). vm_compute in E. injection E as <- <-. split; [left | reflexivity].
  - vm_compute in E. injection E as <- <-. intros tr Htr. apply elem_of_cons in Htr as [->|Htr].
    + vm_compute. eexists. reflexivity.
    + apply not_elem_of_nil in Htr. destruct Htr.
Defined.
End LifecycleTheorems.
