(* ===== verification/IncidentRaces.v ===== *)
(** * Incidents under overlapping transactions

    The operations of [Incidents.v] with the read and the write of a transaction
    apart, as repositories/incidents.py runs them: a row is selected without a lock,
    under READ COMMITTED, and what was made of it is written when the session
    commits, after any number of other commits.  The ORM writes the columns that
    differ from what it loaded, and inserts a new incident under the unique index of
    [active_key]; an insert or update that is not committed keeps the others on the
    same key or row waiting, so the writes of one commit are a step.  A session
    loads a row at most once, and keeps what it made of it.

    [same_details] is the comparison of two JSON documents by which the ORM decides
    whether [trigger_details] changed. *)

From S2P Require Import Prelude Db Contracts Incidents Messaging Notifications IncidentLifecycle.

Module Races.
Import Incidents Notifications.

Section Races.
Context {P : Type} (dump_request : Events.NotificationDeliveryRequestedV1 -> P) (cfg : Settings)
        (same_details : json -> json -> bool).

Abbreviation db := (Lifecycle.state (P := P)).

(** What a session has done with an incident and not committed: a row it added, or
    the row [i] as it loaded it and as it left it, with the transition and whether it
    should notify. *)
Inductive work :=
| Opening (row : DependencyIncident)
| Changing (i : Z) (loaded new : DependencyIncident) (tr : option (string * bool)).

(** ** Reads *)

Definition read_report (now : datetime) (source : SourceProfile) (trigger sev summ : string)
    (details : json) (t : incidents) : work :=
  let fp := _fingerprint source trigger in
  match scalar (has_active_key fp) t with
  | None => Opening (Incident (source_pk source) (source_tenant_id source) trigger fp (Some fp)
              open sev summ (_guidance trigger) details 1 now now None None None None None)
  | Some (i, row) =>
      let new := deduplicate now sev summ details row in
      Changing i row new (Some ("deduplicated",
        _notification_due now new (incident_cooldown_seconds source)))
  end.

Definition read_recovery (now : datetime) (source : SourceProfile) (trigger actor : string)
    (t : incidents) : option work :=
  match scalar (has_active_key (_fingerprint source trigger)) t with
  | None => None
  | Some (i, row) => Some (Changing i row (set_resolved now (Some now) actor row)
                             (Some ("resolved", false)))
  end.

(** The operators' endpoints, on the row that [get_incident] found. *)
Definition read_acknowledge (now : datetime) (actor : string) (i : Z) (row : DependencyIncident)
    : result Incidents.ValueError work :=
  if decide (incident_status row = open) then Ok (Changing i row (set_acknowledged now actor row) None)
  else Raise (value_error "Only an open incident can be acknowledged.").

Definition read_resolve (now : datetime) (actor : string) (i : Z) (row : DependencyIncident)
    : result Incidents.ValueError work :=
  if decide (incident_status row ∈ ACTIVE_INCIDENT_STATUSES)
  then Ok (Changing i row (set_resolved now None actor row) None)
  else Raise (value_error "Only an active incident can be resolved.").

(** [mark_notification_attempted], on the row as the session still holds it. *)
Definition read_attempt (now : datetime) (i : Z) (row : DependencyIncident) : work :=
  Changing i row (set_notified now row) None.

(** ** Writes *)

(** A column of the row that an UPDATE leaves. *)
Definition column {A} `{EqDecision A} (f : DependencyIncident -> A)
    (loaded new cur : DependencyIncident) : A :=
  if decide (f loaded = f new) then f cur else f new.

Definition merge (loaded new cur : DependencyIncident) : DependencyIncident :=
  let col {A} `{EqDecision A} (f : DependencyIncident -> A) := column f loaded new cur in
  Incident (col source_id) (col tenant_id) (col trigger_type) (col fingerprint) (col active_key)
    (col incident_status) (col severity) (col summary) (col guidance)
    (if same_details (trigger_details loaded) (trigger_details new)
     then trigger_details cur else trigger_details new)
    (col occurrence_count) (col first_seen_at) (col last_seen_at) (col acknowledged_at)
    (col acknowledged_by) (col resolved_at) (col resolved_by) (col last_notification_at).

(** Whether a row holds the key that a new one asks for; NULLs never collide. *)
Definition collides (row r : DependencyIncident) : bool :=
  match active_key row with Some k => has_active_key k r | None => false end.

(** The request that a transition asks for, with the time it reports. *)
Definition request_of (tr : IncidentTransition) (row : DependencyIncident) : option (Z * datetime) :=
  if Lifecycle.broker_delivery cfg && should_notify tr then Some (incident tr, last_seen_at row) else None.

(** One piece of work written, with the notification request it asks for: the
    request is made of the row as the session sees it. *)
Definition write (w : work) (d : db) : result Lifecycle.error (option (Z * datetime) * db) :=
  match w with
  | Opening row =>
      match insert_unique (collides row) row d.1 with
      | Raise e => Raise (Lifecycle.Conflict e)
      | Ok (i, t) =>
          let tr := Transition i "opened" true in
          bind_result (Lifecycle.enqueue_incident_notification_requests dump_request cfg [tr] (t, d.2))
            (fun d => Ok (request_of tr row, d))
      end
  | Changing i loaded new None => Ok (None, (update i (merge loaded new) d.1, d.2))
  | Changing i loaded new (Some (name, notify)) =>
      let tr := Transition i name notify in
      let mine := update i (fun _ => new) d.1 in
      bind_result (Lifecycle.enqueue_incident_notification_requests dump_request cfg [tr] (mine, d.2))
        (fun '(mine, out) =>
           match get i mine with
           | Some final => Ok (request_of tr new, (update i (merge loaded final) d.1, out))
           | None => Ok (None, d) (* the row of a session exists *)
           end)
  end.

(** A commit: the requests it sent, in order. *)
Fixpoint commit (ws : list work) (d : db) : result Lifecycle.error (list (Z * datetime) * db) :=
  match ws with
  | [] => Ok ([], d)
  | w :: ws =>
      bind_result (write w d) (fun '(r, d) =>
      bind_result (commit ws d) (fun '(rs, d) => Ok (option_list r ++ rs, d)))
  end.

(** ** Interleavings *)

Record state := State { committed : db; sessions : list (list work) }.

Section Steps.
(** What is asked of a report when it is read, and of a write when it is made. *)
Context (reads : SourceProfile -> work -> Prop) (writes : work -> incidents -> Prop).

Fixpoint allowed (ws : list work) (d : db) : Prop :=
  match ws with
  | [] => True
  | w :: ws => writes w d.1 /\ forall r d', write w d = Ok (r, d') -> allowed ws d'
  end.

(** One step of one session, or of the publisher, with the requests it sends. *)
Inductive step : state -> list (Z * datetime) -> state -> Prop :=
| step_begin d ss : step (State d ss) [] (State d (ss ++ [[]]))
| step_report now source trigger sev summ details d before ws after w :
    w = read_report now source trigger sev summ details d.1 -> reads source w ->
    step (State d (before ++ ws :: after)) [] (State d (before ++ (ws ++ [w]) :: after))
| step_recover now source trigger actor d before ws after w :
    read_recovery now source trigger actor d.1 = Some w ->
    step (State d (before ++ ws :: after)) [] (State d (before ++ (ws ++ [w]) :: after))
| step_acknowledge now actor i row d before ws after w :
    get i d.1 = Some row -> read_acknowledge now actor i row = Ok w ->
    step (State d (before ++ ws :: after)) [] (State d (before ++ (ws ++ [w]) :: after))
| step_resolve now actor i row d before ws after w :
    get i d.1 = Some row -> read_resolve now actor i row = Ok w ->
    step (State d (before ++ ws :: after)) [] (State d (before ++ (ws ++ [w]) :: after))
| step_attempt now i row d before ws after :
    notification_delivery_mode cfg <> broker -> is_Some (get i d.1) ->
    step (State d (before ++ ws :: after)) [] (State d (before ++ (ws ++ [read_attempt now i row]) :: after))
| step_commit before ws after d rs d' :
    allowed ws d -> commit ws d = Ok (rs, d') ->
    step (State d (before ++ ws :: after)) rs (State d' (before ++ after))
| step_rollback before ws after d :
    step (State d (before ++ ws :: after)) [] (State d (before ++ after))
| step_outbox t out out' ss :
    Messaging.step out out' -> step (State (t, out) ss) [] (State (t, out') ss).

(** A run, with the requests sent along it. *)
Inductive run : state -> list (Z * datetime) -> state -> Prop :=
| run_nil s : run s [] s
| run_step s rs s1 rs' s2 : step s rs s1 -> run s1 rs' s2 -> run s (rs ++ rs') s2.
End Steps.

Definition any_read (_ : SourceProfile) (_ : work) : Prop := True.
Definition any_write (_ : work) (_ : incidents) : Prop := True.

(** An acknowledgement written on an incident that was resolved since it was read. *)
Definition reopens (w : work) (t : incidents) : bool :=
  match w with
  | Changing i loaded new _ =>
      bool_decide (incident_status new = acknowledged /\ incident_status loaded <> acknowledged) &&
      match get i t with Some cur => bool_decide (incident_status cur = resolved) | None => false end
  | Opening _ => false
  end.

Definition no_reopening (w : work) (t : incidents) : Prop := reopens w t = false.

(** Reports of incident [i] by sources whose cooldown is at least [cooldown]. *)
Definition cools (i cooldown : Z) (source : SourceProfile) (w : work) : Prop :=
  match w with
  | Changing j _ _ _ => j = i -> cooldown <= incident_cooldown_seconds source
  | Opening _ => True
  end.

(** A change of incident [i] written while the time of its last notification is what
    it was when the row was read. *)
Definition unnotified_since_read (i : Z) (w : work) (t : incidents) : Prop :=
  match w with
  | Changing j loaded _ _ =>
      j = i -> forall cur, get i t = Some cur -> last_notification_at cur = last_notification_at loaded
  | Opening _ => True
  end.

(** The times of the requests for incident [i]. *)
Definition times (i : Z) (rs : list (Z * datetime)) : list datetime :=
  omap (fun '(j, t) => if j =? i then Some t else None) rs.

End Races.
Arguments state : clear implicits.
Arguments State {P}.
Arguments committed {P}.
Arguments sessions {P}.
End Races.

(** ** Theorems *)

Module RaceTheorems.
Import Incidents IncidentTheorems Notifications Lifecycle LifecycleTheorems Races.

Section Races.
Context {P : Type} (dump_request : Events.NotificationDeliveryRequestedV1 -> P) (cfg : Settings)
        (same_details : json -> json -> bool).

Abbreviation write := (write dump_request cfg same_details).
Abbreviation commit := (commit dump_request cfg same_details).
Abbreviation merge := (merge same_details).
Implicit Types (d : Lifecycle.state (P := P)) (t : incidents).

(** *** One write *)

Lemma column_same {A} `{EqDecision A} (f : DependencyIncident -> A) loaded new cur :
  f new = f loaded -> column f loaded new cur = f cur.
Proof. intros E. unfold column. by rewrite decide_True. Qed.

Lemma column_current {A} `{EqDecision A} (f : DependencyIncident -> A) loaded new :
  column f loaded new loaded = f new.
Proof. unfold column. by case_decide. Qed.

(** The row that a change leaves in its session. *)
Definition final (tr : option (string * bool)) (new : DependencyIncident) : DependencyIncident :=
  match tr with
  | Some (_, notify) => if broker_delivery cfg && notify then set_notified (last_seen_at new) new else new
  | None => new
  end.

Definition sends (tr : option (string * bool)) : bool :=
  match tr with Some (_, notify) => broker_delivery cfg && notify | None => false end.

Lemma write_change i loaded new tr d r d' cur :
  get i d.1 = Some cur -> write (Changing i loaded new tr) d = Ok (r, d') ->
  d'.1 = update i (merge loaded (final tr new)) d.1 /\
  r = (if sends tr then Some (i, last_seen_at new) else None).
Proof.
  destruct d as [t out]. simpl. intros Hg H. destruct tr as [[name notify]|]; [|by simplify_eq/=].
  simpl in H. assert (get i (update i (fun _ => new) t) = Some new) as Hm by by rewrite get_update, Z.eqb_refl, Hg.
  destruct (enqueue_incident_notification_requests _ _ _ _) as [[mine out']|] eqn:E; [|done].
  simpl in H. apply (enqueue_single _ _ _ new) in E as ->; [|done]. simpl in H. unfold request_of in H.
  unfold final, sends. simpl in *. destruct (broker_delivery cfg && notify).
  - rewrite get_update, Z.eqb_refl, Hm in H. by simplify_eq/=.
  - rewrite Hm in H. by simplify_eq/=.
Qed.

Lemma write_open row d r d' :
  wf_table d.1 -> write (Opening row) d = Ok (r, d') ->
  every (fun _ s => collides row s = false) d.1 /\
  d'.1 = (insert (final (Some ("opened", true)) row) d.1).2 /\
  r = (if sends (Some ("opened", true)) then Some (next_id d.1, last_seen_at row) else None).
Proof.
  destruct d as [t out]. simpl. intros Hwf H. unfold insert_unique in H.
  destruct (scalar (collides row) t) eqn:Es; [done |]. rewrite scalar_None in Es by done. split; [done |].
  simpl in H. change (Table _ _) with (insert row t).2 in H.
  destruct (enqueue_incident_notification_requests _ _ _ _) as [[mine out']|] eqn:E; [|done].
  simpl in H. simplify_eq. apply (enqueue_single _ _ _ row) in E as ->.
  - unfold request_of, final, sends. simpl. destruct (broker_delivery cfg); simpl; [|done]. split; [|done].
    unfold update, insert. simpl. f_equal. rewrite map_app. simpl. rewrite Z.eqb_refl. f_equal.
    rewrite <- (map_id (rows t)) at 2. apply map_ext_in. intros [j x] Hin. simpl.
    destruct (Z.eqb_spec (next_id t) j) as [<-|]; [|done]. destruct Hwf as [_ Hlt].
    rewrite List.Forall_forall in Hlt. specialize (Hlt (next_id t) (in_map fst _ _ Hin)). lia.
  - by rewrite get_insert, Z.eqb_refl.
Qed.

(** *** Transactions that nothing overlaps *)

Lemma update_ext {R} i (f g : R -> R) (tb : table R) :
  wf_table tb -> (forall r, get i tb = Some r -> f r = g r) -> update i f tb = update i g tb.
Proof.
  intros [Hs _] H. unfold update. f_equal. apply map_ext_in. intros [j r] Hin. simpl.
  destruct (Z.eqb_spec i j) as [->|]; [|done]. f_equal. apply H. by apply lookup_row_In.
Qed.

Lemma merge_current loaded new :
  (forall a b, same_details a b = true -> a = b) -> merge loaded new loaded = new.
Proof.
  intros Hsame. unfold Races.merge. rewrite !column_current.
  destruct (same_details _ _) eqn:E; [apply Hsame in E; rewrite E |]; by destruct new.
Qed.

(** The operators' transactions, and [mark_notification_attempted]. *)
Lemma undisturbed_change i row f t out :
  (forall a b, same_details a b = true -> a = b) -> wf_table t -> get i t = Some row ->
  write (Changing i row (f row) None) (t, out) = Ok (None, (update i f t, out)).
Proof.
  intros Hsame Hwf Hg. simpl. do 3 f_equal. apply update_ext; [done |]. intros r Hr. simplify_eq.
  by apply merge_current.
Qed.

(** A report read and written with no commit in between is the transaction of
    [IncidentLifecycle.v]. *)
Theorem undisturbed_report now source trigger sev summ details d :
  (forall a b, same_details a b = true -> a = b) -> wf_table d.1 ->
  match write (read_report now source trigger sev summ details d.1) d,
        report dump_request cfg now source trigger sev summ details d with
  | Ok (_, d1), Ok (_, d2) => d1 = d2
  | Raise e1, Raise e2 => e1 = e2
  | _, _ => False
  end.
Proof.
  destruct d as [t out]. intros Hsame Hwf. simpl in Hwf. unfold report, open_or_update_incident, read_report.
  simpl fst. simpl snd.
  destruct (scalar _ t) as [[i row]|] eqn:E.
  - apply scalar_Some in E as [Hg _]; [|done]. cbv zeta beta iota. set (new := deduplicate _ _ _ _ row).
    set (tr := Transition i _ _). simpl.
    assert (update i (fun _ => new) t = update i (deduplicate now sev summ details) t) as ->
      by (apply update_ext; [done |]; intros r Hr; by simplify_eq).
    set (t1 := update i _ t).
    assert (get i t1 = Some new) as Hg1 by (unfold t1; by rewrite get_update, Z.eqb_refl, Hg).
    destruct (enqueue_incident_notification_requests _ _ _ _) as [[mine out']|] eqn:En; [|done].
    simpl. apply (enqueue_single _ _ _ new) in En as ->; [|done]. simpl.
    destruct (broker_delivery cfg && _).
    + rewrite get_update, Z.eqb_refl, Hg1. simpl. f_equal. unfold t1. rewrite update_update.
      apply update_ext; [done |]. intros r Hr. simplify_eq. by rewrite merge_current.
    + rewrite Hg1. f_equal. apply update_ext; [done |]. intros r Hr. simplify_eq. by rewrite merge_current.
  - cbv zeta. simpl. unfold insert_unique. set (row := Incident _ _ _ _ _ _ _ _ _ _ _ _ _ _ _ _ _ _).
    assert (scalar (collides row) t = None) as -> by exact E. rewrite E. simpl.
    by destruct (enqueue_incident_notification_requests _ _ _ _) as [[mine out']|].
Qed.

(** *** The active key, whatever overlaps *)

(** The invariant of a row; the last part holds while no acknowledgement reopens. *)
Record row_ok (calm : bool) (r : DependencyIncident) : Prop := {
  ok_fingerprint : fingerprint r = key_of (tenant_id r) (source_id r) (trigger_type r);
  ok_key : forall k, active_key r = Some k -> k = fingerprint r /\ is_active (incident_status r) = true;
  ok_active : calm = true -> is_active (incident_status r) = true -> active_key r = Some (fingerprint r)
}.

Definition same_incident (r r' : DependencyIncident) : Prop :=
  source_id r' = source_id r /\ tenant_id r' = tenant_id r /\ trigger_type r' = trigger_type r /\
  fingerprint r' = fingerprint r.

(** What a session makes of the status and the key of a row that is now [cur]. *)
Inductive turns (loaded new cur : DependencyIncident) : Prop :=
| turns_not : active_key new = active_key loaded -> incident_status new = incident_status loaded ->
    turns loaded new cur
| turns_acknowledged : active_key new = active_key loaded -> incident_status loaded = open ->
    incident_status new = acknowledged -> turns loaded new cur
| turns_resolved : active_key new = None -> incident_status new = resolved ->
    incident_status loaded <> resolved -> (active_key loaded = None -> active_key cur = None) ->
    turns loaded new cur.

Definition work_ok (calm : bool) (t : incidents) (w : work) : Prop :=
  match w with
  | Opening row => row_ok calm row /\ is_Some (active_key row)
  | Changing i loaded new _ =>
      same_incident loaded new /\ exists cur, get i t = Some cur /\ turns loaded new cur
  end.

Record table_ok (calm : bool) (t : incidents) : Prop := {
  ok_keys : wf_table t;
  ok_rows : every (fun _ => row_ok calm) t;
  ok_unique : unique active_key t
}.

(** No row is lost and no key comes back. *)
Definition evolves (t t' : incidents) : Prop :=
  forall i cur, get i t = Some cur ->
    exists cur', get i t' = Some cur' /\ (active_key cur = None -> active_key cur' = None).

#[local] Instance evolves_preorder : PreOrder evolves.
Proof.
  split; [intros t i cur H; eauto |]. intros t1 t2 t3 H12 H23 i cur H.
  destruct (H12 i cur H) as (c2 & H2 & E2). destruct (H23 i c2 H2) as (c3 & H3 & E3). eauto.
Qed.

Lemma work_ok_evolves calm t t' w : evolves t t' -> work_ok calm t w -> work_ok calm t' w.
Proof.
  intros He. destruct w as [row|i loaded new tr]; [done |]. intros (Hs & cur & Hg & Ht). split; [done |].
  destruct (He i cur Hg) as (cur' & Hg' & Hk). exists cur'. split; [done |].
  destruct Ht as [E1 E2|E1 E2 E3|E1 E2 E3 E4]; [by apply turns_not | by apply turns_acknowledged |].
  apply turns_resolved; auto.
Qed.

Lemma turns_final tr loaded new cur : turns loaded new cur -> turns loaded (final tr new) cur.
Proof.
  unfold final. destruct tr as [[name b]|]; [|done]. destruct (broker_delivery cfg && b); [|done].
  intros [E1 E2|E1 E2 E3|E1 E2 E3 E4]; [by apply turns_not | by apply turns_acknowledged | by apply turns_resolved].
Qed.

Lemma same_final tr loaded new : same_incident loaded new -> same_incident loaded (final tr new).
Proof. unfold final. destruct tr as [[name b]|]; [|done]. by destruct (broker_delivery cfg && b). Qed.

Lemma final_status tr new : incident_status (final tr new) = incident_status new.
Proof. unfold final. destruct tr as [[name b]|]; [|done]. by destruct (broker_delivery cfg && b). Qed.

(** The key and the status of a row that a change is merged into. *)
Lemma merge_turns loaded new cur :
  turns loaded new cur ->
  let m := merge loaded new cur in
  (active_key m = active_key cur /\
    (incident_status m = incident_status cur \/
     incident_status m = acknowledged /\ incident_status loaded = open /\ incident_status new = acknowledged)) \/
  (active_key m = None /\ incident_status m = resolved).
Proof.
  intros Ht. simpl. unfold column. destruct Ht as [E1 E2|E1 E2 E3|E1 E2 E3 E4].
  - left. rewrite E1, E2. by rewrite !decide_True by done; auto.
  - left. rewrite E1, E2, E3. rewrite decide_True by done. split; [done |]. right. by rewrite decide_False.
  - right. rewrite E1, E2. rewrite (decide_False (P := incident_status loaded = resolved)) by done.
    split; [|done]. case_decide; auto.
Qed.

Lemma merge_ok calm loaded new cur :
  same_incident loaded new -> turns loaded new cur -> row_ok calm cur ->
  (calm = true -> incident_status loaded = open -> incident_status new = acknowledged ->
     incident_status cur <> resolved) ->
  row_ok calm (merge loaded new cur) /\
  (active_key (merge loaded new cur) = active_key cur \/ active_key (merge loaded new cur) = None).
Proof.
  intros (S1 & S2 & S3 & S4) Ht [Hf Hk Ha] Hcalm. pose proof (merge_turns loaded new cur Ht) as Hm.
  assert (fingerprint (merge loaded new cur) = fingerprint cur) as Efp by by apply column_same.
  split; [split|].
  - simpl. by rewrite !column_same by done.
  - intros k Hmk. rewrite Efp. destruct Hm as [[E1 E2]|[E1 _]]; [|congruence]. rewrite E1 in Hmk.
    destruct (Hk k Hmk) as [-> Hact]. split; [done |].
    destruct E2 as [->|(-> & _)]; [done | reflexivity].
  - intros Hc Hact. rewrite Efp. destruct Hm as [[E1 E2]|[_ E2]]; [|by rewrite E2 in Hact].
    rewrite E1. apply Ha; [done |]. destruct E2 as [E2|(_ & E3 & E4)]; [by rewrite E2 in Hact |].
    specialize (Hcalm Hc E3 E4). by destruct (incident_status cur).
  - destruct Hm as [[E1 _]|[E1 _]]; auto.
Qed.

Lemma write_ok calm w d r d' :
  table_ok calm d.1 -> work_ok calm d.1 w -> (calm = true -> no_reopening w d.1) ->
  write w d = Ok (r, d') -> table_ok calm d'.1 /\ evolves d.1 d'.1.
Proof.
  intros [Hk Hr Hu] Hw Hcalm H. destruct w as [row|i loaded new tr].
  - apply write_open in H as (Hfree & -> & _); [|done]. destruct Hw as [Hrow [k Hkey]].
    set (row' := final _ row). assert (row_ok calm row') as Hrow'.
    { unfold row', final. destruct (_ && _); [|done]. by destruct Hrow. }
    assert (active_key row' = Some k) as Hkey'.
    { unfold row', final. by destruct (_ && _). }
    split; [split|].
    + by apply wf_insert.
    + by apply every_insert.
    + apply unique_insert; [done.. |]. intros k' Hk' j s Hj E. rewrite Hkey' in Hk'. injection Hk' as <-.
      specialize (Hfree j s Hj). simpl in Hfree. unfold collides, has_active_key in Hfree. rewrite Hkey in Hfree.
      by bool_to_prop.
    + intros j cur Hj. exists cur. split; [|done]. rewrite get_insert by done.
      apply get_lt in Hj as Hlt; [|done]. destruct (Z.eqb_spec j (next_id d.1)); [lia | done].
  - destruct Hw as (Hs & cur & Hg & Ht). apply (write_change _ _ _ _ _ _ _ cur) in H as [-> _]; [|done].
    apply (same_final tr) in Hs. apply (turns_final tr) in Ht.
    destruct (merge_ok calm loaded (final tr new) cur Hs Ht (Hr i cur Hg)) as [Hok Hkey].
    { intros Hc E1 E2. specialize (Hcalm Hc). unfold no_reopening, reopens in Hcalm. rewrite Hg in Hcalm.
      rewrite final_status in E2. intros E3. apply not_true_iff_false in Hcalm. apply Hcalm.
      apply andb_true_iff. split; apply bool_decide_eq_true; [by rewrite E1, E2 | done]. }
    split; [split|].
    + by apply wf_update.
    + apply every_update; [done |]. intros r0 Hr0 _. by simplify_eq.
    + apply unique_update; [done |]. intros r0 Hr0. by simplify_eq.
    + intros j c Hj. rewrite get_update. destruct (Z.eqb_spec i j) as [->|]; [|eauto].
      rewrite Hj. eexists. split; [done |]. simplify_eq. destruct Hkey; congruence.
Qed.

Lemma commit_ok calm ws : forall d rs d',
  table_ok calm d.1 -> Forall (work_ok calm d.1) ws ->
  allowed dump_request cfg same_details (fun w t => calm = true -> no_reopening w t) ws d ->
  commit ws d = Ok (rs, d') -> table_ok calm d'.1 /\ evolves d.1 d'.1.
Proof.
  induction ws as [|w ws IH]; intros d rs d' Hok Hws Hall H; [by simplify_eq/= |].
  simpl in H, Hall. destruct Hall as [Hw Hall]. apply Forall_cons in Hws as [Hwok Hws].
  destruct (write w d) as [[r d1]|] eqn:Ew; [|done]. simpl in H.
  destruct (commit ws d1) as [[rs' d2]|] eqn:Ec; [|done]. simpl in H. injection H as <- <-.
  destruct (write_ok calm w d r d1 Hok Hwok Hw Ew) as [Hok1 He1].
  destruct (IH d1 rs' d2 Hok1) as [Hok2 He2]; [|by apply (Hall r)|done|].
  - eapply Forall_impl; [exact Hws |]. intros x. by apply work_ok_evolves.
  - split; [done | by transitivity d1.1].
Qed.

Definition state_ok (calm : bool) (s : state P) : Prop :=
  table_ok calm (committed s).1 /\ Forall (Forall (work_ok calm (committed s).1)) (sessions s).

Lemma add_work {A} (Q : A -> Prop) before ws after w :
  Forall (Forall Q) (before ++ ws :: after) -> Q w -> Forall (Forall Q) (before ++ (ws ++ [w]) :: after).
Proof.
  rewrite !Forall_app, !Forall_cons, Forall_app. intros (Hb & Hws & Ha) Hw. repeat split; try done.
  by constructor.
Qed.

Lemma drop_session {A} (Q : A -> Prop) before ws after :
  Forall Q (before ++ ws :: after) -> Q ws /\ Forall Q (before ++ after).
Proof. rewrite !Forall_app, Forall_cons. tauto. Qed.

Lemma read_report_ok calm now source trigger sev summ details t :
  table_ok calm t -> work_ok calm t (read_report now source trigger sev summ details t).
Proof.
  intros [Hk Hr Hu]. unfold read_report. destruct (scalar _ t) as [[i row]|] eqn:E; simpl.
  - apply scalar_Some in E as [Hg _]; [|done]. split; [done |]. exists row. split; [done |]. by apply turns_not.
  - split; [|by eexists]. split; simpl; [done | by intros k [= <-] | done].
Qed.

Lemma read_recovery_ok calm now source trigger actor t w :
  table_ok calm t -> read_recovery now source trigger actor t = Some w -> work_ok calm t w.
Proof.
  intros [Hk Hr Hu] H. unfold read_recovery in H. destruct (scalar _ t) as [[i row]|] eqn:E; [|done].
  injection H as <-. apply scalar_Some in E as [Hg Hkey]; [|done]. unfold has_active_key in Hkey. bool_to_prop.
  split; [done |]. exists row. split; [done |]. apply turns_resolved; [done..| |done].
  destruct (ok_key _ _ (Hr i row Hg) _ Hkey) as [_ Hact]. by destruct (incident_status row).
Qed.

Lemma step_state_ok calm (s s' : state P) rs reads :
  state_ok calm s ->
  step dump_request cfg same_details reads (fun w t => calm = true -> no_reopening w t) s rs s' -> state_ok calm s'.
Proof.
  intros [Ht Hss] Hs. destruct Hs as [d ss|now source trigger sev summ details d before ws after w -> _
    |now source trigger actor d before ws after w Hw|now actor i row d before ws after w Hg Hw
    |now actor i row d before ws after w Hg Hw|now i row d before ws after _ [cur Hg]|before ws after d rs d' Hall Hc
    |before ws after d|t out out' ss _]; (split; [try exact Ht |]); simpl in *.
  - apply Forall_app. split; [done |]. by repeat constructor.
  - apply add_work; [done |]. by apply read_report_ok.
  - apply add_work; [done |]. by eapply read_recovery_ok.
  - apply add_work; [done |]. unfold read_acknowledge in Hw. case_decide; simplify_eq.
    split; [done |]. exists row. split; [done |]. by apply turns_acknowledged.
  - apply add_work; [done |]. unfold read_resolve in Hw. case_decide as Ha; simplify_eq.
    split; [done |]. exists row. split; [done |]. apply turns_resolved; [done..| |done].
    intros E. rewrite E in Ha. unfold ACTIVE_INCIDENT_STATUSES in Ha. set_solver.
  - apply add_work; [done |]. split; [done |]. exists cur. split; [done |]. by apply turns_not.
  - apply drop_session in Hss as [Hws _]. by eapply commit_ok.
  - apply drop_session in Hss as [Hws Hrest]. destruct (commit_ok calm ws d rs d') as [_ He]; [done..|].
    eapply Forall_impl; [exact Hrest |]. intros l Hl. eapply Forall_impl; [exact Hl |].
    intros w. by apply work_ok_evolves.
  - by apply drop_session in Hss as [_ ?].
  - done.
Qed.

Lemma allowed_mono (W1 W2 : work -> incidents -> Prop) ws : forall d,
  (forall w t, W1 w t -> W2 w t) ->
  allowed dump_request cfg same_details W1 ws d -> allowed dump_request cfg same_details W2 ws d.
Proof.
  induction ws as [|w ws IH]; intros d HW H; [done |]. destruct H as [Hw H]. split; [by apply HW |].
  intros r d' E. apply IH; [done |]. by apply (H r d').
Qed.

Lemma step_mono reads (W1 W2 : work -> incidents -> Prop) (s s' : state P) rs :
  (forall w t, W1 w t -> W2 w t) ->
  step dump_request cfg same_details reads W1 s rs s' -> step dump_request cfg same_details reads W2 s rs s'.
Proof. intros HW Hs. destruct Hs; try (by econstructor). econstructor; [|done]. by eapply allowed_mono. Qed.

Lemma run_state_ok calm reads writes (s s' : state P) rs :
  (forall w t, writes w t -> calm = true -> no_reopening w t) ->
  state_ok calm s -> run dump_request cfg same_details reads writes s rs s' -> state_ok calm s'.
Proof.
  intros HW Hok Hr. induction Hr as [s|s rs s1 rs' s2 Hs _ IH]; [done |].
  apply IH. eapply step_state_ok; [exact Hok |]. eapply step_mono; [exact HW | exact Hs].
Qed.

Lemma start_ok calm out : state_ok calm (State (empty_table _, out) []).
Proof. split; [split |]; simpl; auto with py. Qed.

(** C3: However the transactions of health probes, contract observations and
    operators overlap, with every read unlocked and every write at its commit: two
    incidents never hold the same active key, a key that is held is the one of the
    incident's tenant scope, source and trigger, and its incident is active; of
    overlapping reports that all found no active incident and open one, a commit after
    the first one fails with the IntegrityError of the unique index.  While no
    acknowledgement is written on an incident resolved since it was read, every
    tenant scope, source and trigger has at most one active incident, and no
    resolved incident is active. *)
Theorem one_active_incident out (s : state P) rs :
  run dump_request cfg same_details any_read any_write (State (empty_table _, out) []) rs s ->
  let t := (committed s).1 in
  (forall i j r r' k, get i t = Some r -> get j t = Some r' ->
     active_key r = Some k -> active_key r' = Some k -> i = j) /\
  (forall i r k, get i t = Some r -> active_key r = Some k ->
     k = key_of (tenant_id r) (source_id r) (trigger_type r) /\ is_active (incident_status r) = true) /\
  (forall i r k row, get i t = Some r -> active_key r = Some k -> active_key row = Some k ->
     write (Opening row) (committed s) = Raise (Conflict integrity_error)) /\
  (run dump_request cfg same_details any_read no_reopening (State (empty_table _, out) []) rs s ->
   forall i j r r', get i t = Some r -> get j t = Some r' ->
     is_active (incident_status r) = true -> is_active (incident_status r') = true ->
     tenant_id r = tenant_id r' -> source_id r = source_id r' -> trigger_type r = trigger_type r' -> i = j).
Proof.
  intros Hr t.
  destruct (run_state_ok false any_read any_write _ _ _ ltac:(done) (start_ok false out) Hr) as [[Hk Hrow Hu] _].
  split; [|split; [|split]].
  - intros i j r r' k Hi Hj Er Er'. exact (Hu i j r r' k Hi Hj Er Er').
  - intros i r k Hi Ek. destruct (ok_key _ _ (Hrow i r Hi) k Ek) as [-> Ha]. split; [|done].
    exact (ok_fingerprint _ _ (Hrow i r Hi)).
  - intros i r k row Hi Er Erow. simpl. unfold insert_unique, collides. rewrite Erow.
    unfold has_active_key. by rewrite (scalar_unique active_key _ _ i r Hk Hu Hi Er).
  - intros Hcalm i j r r' Hi Hj Ar Ar' E1 E2 E3.
    destruct (run_state_ok true any_read no_reopening _ _ _ ltac:(done) (start_ok true out) Hcalm) as [[_ Hrow' _] _].
    destruct (Hrow' i r Hi) as [F1 _ A1]. destruct (Hrow' j r' Hj) as [F2 _ A2].
    apply (Hu i j r r' (fingerprint r) Hi Hj (A1 eq_refl Ar)). rewrite (A2 eq_refl Ar'), F1, F2.
    by rewrite E1, E2, E3.
Qed.

(** *** The cooldown of notifications *)

(** Times at least the cooldown apart, after the last notification [o] and leaving
    [o'] as the last one. *)
Inductive spaced (gap : Z) : option datetime -> list datetime -> option datetime -> Prop :=
| spaced_nil o : spaced gap o [] o
| spaced_cons o x ts o' :
    (forall l, o = Some l -> l + gap <= x) -> spaced gap (Some x) ts o' -> spaced gap o (x :: ts) o'.

Lemma spaced_app gap o1 o2 o3 a b : spaced gap o1 a o2 -> spaced gap o2 b o3 -> spaced gap o1 (a ++ b) o3.
Proof. induction 1; intros Hb; [done |]. simpl. constructor; auto. Qed.

Lemma spaced_sorted gap o ts o' :
  spaced gap o ts o' ->
  (forall l x ts', o = Some l -> ts = x :: ts' -> l + gap <= x) /\ Sorted (fun a b => a + gap <= b) ts.
Proof.
  induction 1 as [o|o x ts o' Hx _ [IH1 IH2]]; [by split |]. split.
  - intros l y ts' Ho [= <- _]. auto.
  - constructor; [done |]. destruct ts as [|y ts]; constructor. by apply (IH1 x y ts).
Qed.

Lemma times_app i a b : times i (a ++ b) = times i a ++ times i b.
Proof. apply omap_app. Qed.

Definition last_notified (i : Z) (t : incidents) : option datetime := get i t ≫= last_notification_at.

(** What a session holds of incident [i] while notifications go through the broker. *)
Definition due_ok (i cooldown : Z) (t : incidents) (w : work) : Prop :=
  match w with
  | Opening _ => True
  | Changing j loaded new tr =>
      is_Some (get j t) /\
      (j = i -> last_notification_at new = last_notification_at loaded /\
         (sends tr = true -> forall l, last_notification_at loaded = Some l ->
            l + seconds cooldown <= last_seen_at new))
  end.

Definition keeps_rows (t t' : incidents) : Prop := forall j, is_Some (get j t) -> is_Some (get j t').

Lemma due_ok_keeps i cooldown t t' w : keeps_rows t t' -> due_ok i cooldown t w -> due_ok i cooldown t' w.
Proof. intros Hk. destruct w; [done |]. intros [H1 H2]. split; [by apply Hk | done]. Qed.

Lemma write_spaced i cooldown w d r d' :
  broker_delivery cfg = true -> wf_table d.1 -> due_ok i cooldown d.1 w ->
  unnotified_since_read i w d.1 -> write w d = Ok (r, d') ->
  wf_table d'.1 /\ keeps_rows d.1 d'.1 /\
  spaced (seconds cooldown) (last_notified i d.1) (times i (option_list r)) (last_notified i d'.1).
Proof.
  intros Hb Hwf Hw Hcur H. destruct w as [row|j loaded new tr].
  - apply write_open in H as (_ & -> & ->); [|done]. unfold sends, final. rewrite Hb. simpl andb. cbv iota.
    split; [by apply wf_insert |]. split.
    + intros j [x Hj]. rewrite get_insert by done. destruct (j =? next_id d.1); [by eexists | by exists x].
    + unfold last_notified. rewrite get_insert by done. unfold times. simpl.
      destruct (Z.eqb_spec (next_id d.1) i) as [<-|Hne].
      * rewrite Z.eqb_refl. destruct (get (next_id d.1) d.1) eqn:E; [apply get_lt in E; [lia | done] |]. simpl.
        constructor; [done | constructor].
      * destruct (Z.eqb_spec i (next_id d.1)); [congruence | constructor].
  - destruct Hw as [[cur Hg] Hw]. apply (write_change _ _ _ _ _ _ _ cur) in H as [-> ->]; [|done].
    split; [by apply wf_update |]. split.
    + intros k [x Hk]. rewrite get_update, Hk. destruct (j =? k); by eexists.
    + unfold last_notified. rewrite get_update. destruct (Z.eqb_spec j i) as [->|Hne].
      * destruct (Hw eq_refl) as [Hsame Hdue]. specialize (Hcur eq_refl cur Hg). rewrite Hg. simpl.
        unfold final, sends in *. destruct tr as [[name b]|]; simpl in *.
        { rewrite Hb in *. destruct b; simpl in *.
          - unfold times. simpl. rewrite Z.eqb_refl.
            assert (column last_notification_at loaded (set_notified (last_seen_at new) new) cur =
              Some (last_seen_at new)) as ->.
            { unfold column. simpl. case_decide; congruence. }
            constructor; [|constructor]. intros l Hl. apply Hdue; congruence.
          - rewrite column_same by done. constructor. }
        rewrite column_same by done. constructor.
      * destruct (sends tr); unfold times; simpl; [|constructor].
        destruct (Z.eqb_spec j i); [done | constructor].
Qed.

Lemma commit_spaced i cooldown ws : forall d rs d',
  broker_delivery cfg = true -> wf_table d.1 -> Forall (due_ok i cooldown d.1) ws ->
  allowed dump_request cfg same_details (unnotified_since_read i) ws d -> commit ws d = Ok (rs, d') ->
  wf_table d'.1 /\ keeps_rows d.1 d'.1 /\
  spaced (seconds cooldown) (last_notified i d.1) (times i rs) (last_notified i d'.1).
Proof.
  induction ws as [|w ws IH]; intros d rs d' Hb Hwf Hws Hall H.
  { simplify_eq/=. split; [done |]. split; [by intros j | constructor]. }
  simpl in H, Hall. destruct Hall as [Hw Hall]. apply Forall_cons in Hws as [Hwok Hws].
  destruct (write w d) as [[r d1]|] eqn:Ew; [|done]. simpl in H.
  destruct (commit ws d1) as [[rs' d2]|] eqn:Ec; [|done]. simpl in H. injection H as <- <-.
  destruct (write_spaced i cooldown w d r d1 Hb Hwf Hwok Hw Ew) as (Hwf1 & Hk1 & Hs1).
  destruct (IH d1 rs' d2 Hb Hwf1) as (Hwf2 & Hk2 & Hs2); [|by apply (Hall r)|done|].
  - eapply Forall_impl; [exact Hws |]. intros x. by apply due_ok_keeps.
  - split; [done |]. split; [intros j Hj; by apply Hk2, Hk1 |]. rewrite times_app. by eapply spaced_app.
Qed.

Definition cooling (i cooldown : Z) (s : state P) : Prop :=
  wf_table (committed s).1 /\ Forall (Forall (due_ok i cooldown (committed s).1)) (sessions s).

Lemma read_report_due i cooldown now source trigger sev summ details t :
  wf_table t -> cools i cooldown source (read_report now source trigger sev summ details t) ->
  due_ok i cooldown t (read_report now source trigger sev summ details t).
Proof.
  intros Hwf. unfold read_report. destruct (scalar _ t) as [[j row]|] eqn:E; [|done]. simpl. intros Hc.
  apply scalar_Some in E as [Hg _]; [|done]. split; [by eexists |]. intros Hj. specialize (Hc Hj). split; [done |].
  intros Hsend l Hl. apply andb_true_iff in Hsend as [_ Hdue]. unfold _notification_due in Hdue. simpl in Hdue.
  rewrite Hl in Hdue. bool_to_prop. unfold seconds in *. lia.
Qed.

Lemma step_spaced i cooldown (s s' : state P) rs :
  broker_delivery cfg = true -> cooling i cooldown s ->
  step dump_request cfg same_details (cools i cooldown) (unnotified_since_read i) s rs s' ->
  cooling i cooldown s' /\
  spaced (seconds cooldown) (last_notified i (committed s).1) (times i rs) (last_notified i (committed s').1).
Proof.
  intros Hb [Ht Hss] Hs. destruct Hs as [d ss|now source trigger sev summ details d before ws after w -> Hr
    |now source trigger actor d before ws after w Hw|now actor j row d before ws after w Hg Hw
    |now actor j row d before ws after w Hg Hw|now j row d before ws after Hmode _|before ws after d rs d' Hall Hc
    |before ws after d|t out out' ss _]; simpl in *.
  7: { apply drop_session in Hss as [Hws Hrest].
    destruct (commit_spaced i cooldown ws d rs d') as (Hwf & Hk & Hsp); [done..|]. split; [split |]; [done | |done].
    eapply Forall_impl; [exact Hrest |]. intros l Hl. eapply Forall_impl; [exact Hl |].
    intros w. by apply due_ok_keeps. }
  all: split; [split; [exact Ht |] | constructor].
  - apply Forall_app. split; [done |]. by repeat constructor.
  - apply add_work; [done |]. by apply read_report_due.
  - apply add_work; [done |]. unfold read_recovery in Hw. destruct (scalar _ _) as [[j row]|] eqn:E; [|done].
    injection Hw as <-. apply scalar_Some in E as [Hg _]; [|done]. split; [by eexists |]. intros _. split; [done |].
    simpl. by rewrite andb_false_r.
  - apply add_work; [done |]. unfold read_acknowledge in Hw. case_decide; simplify_eq. split; [by eexists | done].
  - apply add_work; [done |]. unfold read_resolve in Hw. case_decide; simplify_eq. split; [by eexists | done].
  - exfalso. apply Hmode. unfold broker_delivery in Hb. by bool_to_prop.
  - by apply drop_session in Hss as [_ ?].
  - done.
Qed.

Lemma commit_silent ws : forall d rs d',
  broker_delivery cfg = false -> commit ws d = Ok (rs, d') -> rs = [].
Proof.
  induction ws as [|w ws IH]; intros d rs d' Hb H; [by simplify_eq/= |]. simpl in H.
  destruct (write w d) as [[r d1]|] eqn:Ew; [|done]. simpl in H.
  destruct (commit ws d1) as [[rs' d2]|] eqn:Ec; [|done]. simpl in H. injection H as <- <-.
  rewrite (IH d1 rs' d2 Hb Ec), app_nil_r.
  assert (r = None) as ->; [|done]. destruct w as [row|i loaded new [[name b]|]]; simpl in Ew; [| |by simplify_eq].
  - destruct (insert_unique _ _ _) as [[j t]|]; [|done]. destruct (enqueue_incident_notification_requests _ _ _ _); [|done].
    simpl in Ew. unfold request_of in Ew. rewrite Hb in Ew. by simplify_eq/=.
  - destruct (enqueue_incident_notification_requests _ _ _ _) as [[mine out]|]; [|done]. simpl in Ew.
    unfold request_of in Ew. rewrite Hb in Ew. destruct (get i mine); by simplify_eq/=.
Qed.

Lemma run_spaced i cooldown (s s' : state P) rs :
  cooling i cooldown s ->
  run dump_request cfg same_details (cools i cooldown) (unnotified_since_read i) s rs s' ->
  broker_delivery cfg = true ->
  spaced (seconds cooldown) (last_notified i (committed s).1) (times i rs) (last_notified i (committed s').1).
Proof.
  intros Hc Hr Hb. induction Hr as [s|s rs s1 rs' s2 Hs _ IH]; [constructor |].
  destruct (step_spaced i cooldown s s1 rs Hb Hc Hs) as [Hc1 Hsp]. rewrite times_app.
  eapply spaced_app; [exact Hsp |]. by apply IH.
Qed.

Lemma run_silent reads writes (s s' : state P) rs :
  run dump_request cfg same_details reads writes s rs s' -> broker_delivery cfg = false -> rs = [].
Proof.
  intros Hr Hb. induction Hr as [s|s rs s1 rs' s2 Hs _ ->]; [done |]. rewrite app_nil_r.
  destruct Hs; try done. by eapply commit_silent.
Qed.

End Races.
End RaceTheorems.

(** ** Witnesses *)

Module RaceWitnesses.
Import Incidents IncidentTheorems Lifecycle LifecycleTheorems Races RaceTheorems.

Abbreviation event := Events.NotificationDeliveryRequestedV1.

Definition email : Notifications.Settings := broker_with " Email".
Definition never (_ _ : json) : bool := false.
Definition start : state event := State (empty_table _, empty_table _) [].
Definition read_drift (now : datetime) (s : Lifecycle.state (P := event)) : work :=
  read_report now api "drift" "critical" "fields removed" (JObj []) s.1.

(** A step of the session between [before] and [after]. *)
Ltac begins := eapply run_step; [apply step_begin | simpl app].
Ltac reports now before after :=
  eapply run_step;
    [eapply (step_report _ _ _ _ _ now api "drift" "critical" "fields removed" (JObj []) _ before _ after);
      [vm_compute; reflexivity | first [exact I | vm_compute; lia | vm_compute; intros; discriminate]]
    | simpl app].
Ltac commits before after :=
  eapply run_step;
    [eapply (step_commit _ _ _ _ _ before _ after); [|vm_compute; reflexivity] | simpl app].

(** Two first reports overlap, the loser rolls back; then an acknowledgement and
    another report. *)
Lemma overlapping_opens :
  exists rs s, (forall writes : work -> incidents -> Prop, (forall w t, no_reopening w t -> writes w t) ->
      run (fun r => r) email never any_read writes start rs s) /\
    map (fun x => (x.1, incident_status x.2, occurrence_count x.2)) (rows (committed s).1) = [(1, acknowledged, 2)].
Proof.
  eexists _, _. split.
  - intros writes Hw. begins. begins. reports 0 (@nil (list work)) [@nil work].
    match goal with |- run _ _ _ _ _ (State _ [?a; _]) _ _ => reports 5 [a] (@nil (list work)) end.
    match goal with |- run _ _ _ _ _ (State _ [_; ?b]) _ _ => commits (@nil (list work)) [b] end;
      [split; [by apply Hw | done] |].
    eapply run_step; [apply (step_rollback _ _ _ _ _ [] _ []) | simpl app].
    begins. eapply run_step; [eapply (step_acknowledge _ _ _ _ _ 20 "ops" 1 _ _ [] _ []); vm_compute; reflexivity | simpl app].
    commits (@nil (list work)) (@nil (list work)); [split; [by apply Hw | done] |].
    begins. reports 30 (@nil (list work)) (@nil (list work)).
    commits (@nil (list work)) (@nil (list work)); [split; [by apply Hw | done] |].
    apply run_nil.
  - vm_compute. reflexivity.
Qed.

Lemma one_active_incident_witness :
  exists rs s, run (fun r => r) email never any_read no_reopening start rs s /\
    map (fun x => (x.1, incident_status x.2, occurrence_count x.2)) (rows (committed s).1) = [(1, acknowledged, 2)] /\
    forall i j r r', get i (committed s).1 = Some r -> get j (committed s).1 = Some r' ->
      is_active (incident_status r) = true -> is_active (incident_status r') = true ->
      tenant_id r = tenant_id r' -> source_id r = source_id r' -> trigger_type r = trigger_type r' -> i = j.
Proof.
  destruct overlapping_opens as (rs & s & Hrun & Hrows). exists rs, s.
  assert (run (fun r => r) email never any_read no_reopening start rs s) as Hcalm by (apply Hrun; auto).
  split; [exact Hcalm |]. split; [exact Hrows |].
  apply (one_active_incident (fun r => r) email never (empty_table _) s rs); [|exact Hcalm].
  apply Hrun. intros w t _. exact I.
Defined.

(** An operator acknowledges an incident that recovers before the acknowledgement
    commits: the incident is acknowledged again, without its key, and the next
    report opens a second one. *)
Lemma stale_acknowledgement_reopens :
  exists rs s r1 r2, run (fun r => r) email never any_read any_write start rs s /\
    get 1 (committed s).1 = Some r1 /\ get 2 (committed s).1 = Some r2 /\
    incident_status r1 = acknowledged /\ is_Some (resolved_at r1) /\ active_key r1 = None /\
    incident_status r2 = open /\ fingerprint r1 = fingerprint r2.
Proof.
  eexists _, _, _, _. split.
  - begins. reports 0 (@nil (list work)) (@nil (list work)).
    commits (@nil (list work)) (@nil (list work)); [repeat split |].
    begins. begins.
    eapply run_step; [eapply (step_acknowledge _ _ _ _ _ 20 "ops" 1 _ _ [] _ [[]]); vm_compute; reflexivity | simpl app].
    match goal with |- run _ _ _ _ _ (State _ [?a; _]) _ _ =>
      eapply run_step; [eapply (step_recover _ _ _ _ _ 30 api "drift" "health-probe-recovery" _ [a] _ []);
        vm_compute; reflexivity | simpl app];
      commits [a] (@nil (list work)); [repeat split |] end.
    commits (@nil (list work)) (@nil (list work)); [repeat split |].
    begins. reports 1000 (@nil (list work)) (@nil (list work)).
    commits (@nil (list work)) (@nil (list work)); [repeat split |].
    apply run_nil.
  - split; [vm_compute; reflexivity |]. split; [vm_compute; reflexivity |]. vm_compute.
    repeat split; by eexists.
Qed.

(** Reports of which the second falls within the cooldown and overlaps an
    acknowledgement. *)
Lemma spaced_reports :
  exists rs s, run (fun r => r) email never (cools 1 900) (unnotified_since_read 1) start rs s /\
    rs = [(1, 0); (1, seconds 900)].
Proof.
  eexists _, _. split.
  - begins. reports 0 (@nil (list work)) (@nil (list work)).
    commits (@nil (list work)) (@nil (list work)); [by split |].
    begins. begins.
    eapply run_step; [eapply (step_acknowledge _ _ _ _ _ 20 "ops" 1 _ _ [] _ [[]]); vm_compute; reflexivity | simpl app].
    match goal with |- run _ _ _ _ _ (State _ [?a; _]) _ _ =>
      reports (seconds 899) [a] (@nil (list work)); commits [a] (@nil (list work)) end;
      [split; [vm_compute; intros _ ? [= <-]; reflexivity | done] |].
    commits (@nil (list work)) (@nil (list work));
      [split; [vm_compute; intros _ ? [= <-]; reflexivity | done] |].
    begins. reports (seconds 900) (@nil (list work)) (@nil (list work)).
    commits (@nil (list work)) (@nil (list work));
      [split; [vm_compute; intros _ ? [= <-]; reflexivity | done] |].
    apply run_nil.
  - vm_compute. reflexivity.
Qed.


(** Two due reports overlap, and the one that reads first commits last: their
    requests are the same message, which the outbox takes once, from the later
    report, but the row keeps the earlier time.  The next request is sent 890
    seconds after it, with a cooldown of 900. *)
Lemma overlapping_reports_cut_the_cooldown :
  exists rs s, run (fun r => r) email never (cools 1 900) any_write start rs s /\
    map (fun x => Events.occurred_at (Messaging.payload x.2)) (rows (committed s).2) =
      [0; seconds 1010; seconds 1900].
Proof.
  eexists _, _. split.
  - begins. reports 0 (@nil (list work)) (@nil (list work)).
    commits (@nil (list work)) (@nil (list work)); [by split |].
    begins. begins. reports (seconds 1000) (@nil (list work)) [@nil work].
    match goal with |- run _ _ _ _ _ (State _ [?a; _]) _ _ =>
      reports (seconds 1010) [a] (@nil (list work)); commits [a] (@nil (list work)) end; [by split |].
    commits (@nil (list work)) (@nil (list work)); [by split |].
    begins. reports (seconds 1900) (@nil (list work)) (@nil (list work)).
    commits (@nil (list work)) (@nil (list work)); [by split |].
    apply run_nil.
  - vm_compute. reflexivity.
Qed.
End RaceWitnesses.
