(* ===== verification/ContractDrift.v ===== *)
(** * Contract drift (repositories/contract_drift.py)

    Observed payloads flattened to the types seen at each path, the comparison
    with the accepted baseline, the candidate that must be confirmed before an
    event is raised, and the acceptance of a candidate as the next baseline.
    [sha256_json] is the digest of the canonical JSON of a payload and
    [sha256_flat] that of a flat schema. *)

From S2P Require Import Prelude Db Contracts Incidents Messaging Notifications IncidentLifecycle.

Module Drift.

(** ** Flat schemas *)

Definition _ARRAY_INSPECTION_LIMIT : nat := 20.
Definition _TYPE_UNION_SEPARATOR : ascii := "|"%char.

Abbreviation flat_schema := (gmap string string).

Definition _value_type (v : json) : string :=
  match v with
  | JNull => "null"
  | JBool _ => "boolean"
  | JInt _ | JFloat _ => "number"
  | JStr _ => "string"
  | JList _ => "array"
  | JObj _ => "object"
  end.

(** [sorted(set(l))] on strings. *)
Definition sorted_set (l : list string) : list string := order_by String.leb (remove_dups l).

Definition split_types (u : string) : list string := split_on _TYPE_UNION_SEPARATOR u.
Definition join_types (l : list string) : string :=
  String.concat (String _TYPE_UNION_SEPARATOR EmptyString) l.

Definition _merge_value_types (existing observed : string) : string :=
  join_types (sorted_set (split_types existing ++ split_types observed)).

(** The paths of [observed] added to [target]; an empty type is falsy. *)
Definition _merge_flat_schema (target observed : flat_schema) : flat_schema :=
  union_with (fun existing value_type =>
    Some (if str_truthy existing then _merge_value_types existing value_type else value_type))
    target observed.

Fixpoint _flatten_value (v : json) (path : string) : flat_schema :=
  let flat : flat_schema := {[path := _value_type v]} in
  match v with
  | JObj l =>
      (fix fields l flat :=
         match l with
         | [] => flat
         | (key, child) :: l =>
             fields l (_merge_flat_schema flat (_flatten_value child (path +:+ "." +:+ key)))
         end) l flat
  | JList l =>
      (fix elements n l flat :=
         match n, l with
         | S n, element :: l =>
             elements n l (_merge_flat_schema flat (_flatten_value element (path +:+ "[]")))
         | _, _ => flat
         end) _ARRAY_INSPECTION_LIMIT l flat
  | _ => flat
  end.

Definition payload := list (string * json).

Definition _flatten_schema (p : payload) (prefix : string) : flat_schema :=
  foldl (fun flat '(key, value) =>
    let path := if str_truthy prefix then prefix +:+ "." +:+ key else key in
    _merge_flat_schema flat (_flatten_value value path)) ∅ p.

(** ** Comparison *)

Fixpoint startswith (s prefix : string) : bool :=
  match prefix, s with
  | EmptyString, _ => true
  | String c p, String d s => Ascii.eqb c d && startswith s p
  | String _ _, EmptyString => false
  end.

Definition keys (m : flat_schema) : list string := map fst (map_to_list m).

Definition _is_below_inconclusive_array (path : string) (m : flat_schema) : bool :=
  existsb (fun '(array_path, value_type) =>
    bool_decide ("array" ∈ split_types value_type) &&
    negb (existsb (fun candidate => startswith candidate (array_path +:+ "[]")) (keys m)) &&
    startswith path (array_path +:+ "[]")) (map_to_list m).

(** Added and removed paths, and the paths whose types changed with both types,
    each in sorted order. *)
Definition diff : Type := list string * list string * list (string * (string * string)).

Definition _diff_contract (previous current : flat_schema) : diff :=
  let added := order_by String.leb (List.filter (fun k => bool_decide (previous !! k = None)) (keys current)) in
  let removed := order_by String.leb (List.filter (fun k =>
      bool_decide (current !! k = None) && negb (_is_below_inconclusive_array k current)) (keys previous)) in
  let type_changed := omap (fun k =>
      match previous !! k, current !! k with
      | Some a, Some b => if decide (a = b) then None else Some (k, (a, b))
      | _, _ => None
      end) (order_by String.leb (keys previous)) in
  (added, removed, type_changed).

Definition CONTRACT_COMPATIBILITY_MIN_SCORE : Q := 0.
Definition CONTRACT_COMPATIBILITY_MAX_SCORE : Q := 100.
Definition CONTRACT_PENALTY_ADDED_FIELD : Q := 2.
Definition CONTRACT_PENALTY_REMOVED_FIELD : Q := 20.
Definition CONTRACT_PENALTY_TYPE_CHANGE : Q := 15.
Definition CONTRACT_BASELINE_CONFIRMATION_POLLS : Z := 3.

Definition len {A} (l : list A) : Q := inject_Z (Z.of_nat (length l)).

Definition _compatibility_score (d : diff) : Q :=
  let '(added, removed, changed) := d in
  let score := (CONTRACT_COMPATIBILITY_MAX_SCORE - len added * CONTRACT_PENALTY_ADDED_FIELD
                - len removed * CONTRACT_PENALTY_REMOVED_FIELD
                - len changed * CONTRACT_PENALTY_TYPE_CHANGE)%Q in
  Qmax CONTRACT_COMPATIBILITY_MIN_SCORE (py_round 2 score).

Definition is_nil {A} (l : list A) : bool := match l with [] => true | _ => false end.

Definition _event_type (d : diff) : string :=
  let '(added, removed, changed) := d in
  if negb (is_nil removed) || negb (is_nil changed) then "breaking"
  else if negb (is_nil added) then "non_breaking" else "none".

Definition _severity (event_type : string) (score : Q) : string :=
  if decide (event_type = "none") then "none"
  else if Qle_bool 90 score then "low"
  else if Qle_bool 75 score then "medium"
  else if Qle_bool 50 score then "high"
  else "critical".

Definition part {A} (label : string) (l : list A) : list string :=
  match l with [] => [] | _ => [label +:+ "=" +:+ str_of_Z (Z.of_nat (length l))] end.

Definition _summary (event_type : string) (d : diff) : string :=
  let '(added, removed, changed) := d in
  if decide (event_type = "none") then "No schema drift detected."
  else event_type +:+ " drift detected (" +:+
       String.concat ", " (part "added" added ++ part "removed" removed ++ part "type_changed" changed) +:+
       ").".

Definition _requires_incident_response (event_type severity : string) : bool :=
  bool_decide (severity = "critical") || bool_decide (event_type = "breaking").

Definition no_drift (d : diff) : bool :=
  let '(added, removed, changed) := d in is_nil added && is_nil removed && is_nil changed.

(** ** Tables *)

Record ContractSnapshot := Snapshot {
  snap_source_id : Z;
  schema_version : option string;
  payload_schema : payload;
  schema_fingerprint : string;
  compatibility_score : Q;
  snapshot_note : option string;
  snap_created_at : datetime
}.

Inductive baseline_status := baseline_active | superseded.

#[global] Instance baseline_status_eq_dec : EqDecision baseline_status.
Proof. solve_decision. Defined.

(** The candidate of a baseline. *)
Record candidate := Candidate {
  candidate_snapshot_id : option Z;
  candidate_schema_fingerprint : option string;
  candidate_observation_count : Z;
  candidate_drift_event_id : option Z;
  candidate_first_seen_at : option datetime;
  candidate_last_seen_at : option datetime
}.

Record ContractBaseline := Baseline {
  base_source_id : Z;
  base_tenant_id : option Z;
  baseline_snapshot_id : Z;
  promoted_from_baseline_id : option Z;
  version : Z;
  baseline_state : baseline_status;
  base_active_key : option string;
  accepted_by : string;
  accepted_at : datetime;
  acceptance_note : option string;
  superseded_at : option datetime;
  base_candidate : candidate;
  base_deleted_at : option datetime
}.

Record DriftEvent := Drift {
  drift_source_id : Z;
  previous_snapshot_id : Z;
  current_snapshot_id : Z;
  event_type : string;
  drift_severity : string;
  drift_diff : diff;
  drift_score : Q;
  drift_summary : string;
  drift_created_at : datetime
}.

(** The observation that records a drift for triage, and its agent run. *)
Record Observation := Observed {
  obs_source_id : Z;
  obs_timestamp : datetime;
  obs_raw_data : json;
  obs_tags : list string;
  obs_tenant_id : option Z
}.

Record AgentRun := Run { run_observation_id : Z; run_status : string }.

Definition no_candidate : candidate := Candidate None None 0 None None None.

Definition with_candidate (c : candidate) (b : ContractBaseline) : ContractBaseline :=
  Baseline (base_source_id b) (base_tenant_id b) (baseline_snapshot_id b) (promoted_from_baseline_id b)
    (version b) (baseline_state b) (base_active_key b) (accepted_by b) (accepted_at b)
    (acceptance_note b) (superseded_at b) c (base_deleted_at b).

Definition _clear_candidate (b : ContractBaseline) : ContractBaseline := with_candidate no_candidate b.

Definition supersede (now : datetime) (b : ContractBaseline) : ContractBaseline :=
  Baseline (base_source_id b) (base_tenant_id b) (baseline_snapshot_id b) (promoted_from_baseline_id b)
    (version b) superseded None (accepted_by b) (accepted_at b)
    (acceptance_note b) (Some now) (base_candidate b) (base_deleted_at b).

Definition source_key (source_id : Z) : string := "source:" +:+ str_of_Z source_id.

Definition is_active_baseline (source_id : Z) (b : ContractBaseline) : bool :=
  (base_source_id b =? source_id) && bool_decide (baseline_state b = baseline_active) &&
  Messaging.is_none (base_deleted_at b).

Definition get_active_contract_baseline (source_id : Z) (t : table ContractBaseline)
    : option (Z * ContractBaseline) := scalar (is_active_baseline source_id) t.

(** The candidate after an observation of a drifting structure, before any event;
    [snapshot_id] and [now] are those of the observation. *)
Definition observe_candidate (fingerprint : string) (snapshot_id : Z) (now : datetime) (c : candidate)
    : candidate :=
  if decide (candidate_schema_fingerprint c = Some fingerprint) then
    Candidate (Some snapshot_id) (candidate_schema_fingerprint c) (candidate_observation_count c + 1)
      (candidate_drift_event_id c) (candidate_first_seen_at c) (Some now)
  else Candidate (Some snapshot_id) (Some fingerprint) 1 None (Some now) (Some now).

(** Whether this observation confirms the candidate and is the one to raise its event. *)
Definition raises_event (c : candidate) : bool :=
  (CONTRACT_BASELINE_CONFIRMATION_POLLS <=? candidate_observation_count c) &&
  Messaging.is_none (candidate_drift_event_id c).

Definition set_event (drift_id : Z) (c : candidate) : candidate :=
  Candidate (candidate_snapshot_id c) (candidate_schema_fingerprint c) (candidate_observation_count c)
    (Some drift_id) (candidate_first_seen_at c) (candidate_last_seen_at c).

(** ** Operations *)

Inductive error :=
| ValueError (message : string)
| RuntimeError (message : string)
| Conflict (e : IntegrityError)
| Enqueue (e : Lifecycle.error).

Definition accept_contract_baseline (now : datetime) (actor : string) (note : option string)
    (selected : option Z) (i : Z) (b : ContractBaseline) (snapshots : table ContractSnapshot)
    (t : table ContractBaseline) : result error (Z * table ContractBaseline) :=
  (* [candidate_snapshot_id or baseline.candidate_snapshot_id]: zero is falsy *)
  let chosen := match selected with
                | Some 0 | None => candidate_snapshot_id (base_candidate b)
                | Some s => Some s
                end in
  match chosen, candidate_snapshot_id (base_candidate b) with
  | Some s, Some c =>
      if negb (s =? c) then Raise (ValueError "The selected snapshot is not the current contract candidate.")
      else match get s snapshots with
      | Some snap =>
          if negb (snap_source_id snap =? base_source_id b)
          then Raise (ValueError "The candidate snapshot is unavailable.")
          else
            let t := update i (supersede now) t in
            let promoted := Baseline (base_source_id b) (base_tenant_id b) s (Some i) (version b + 1)
              baseline_active (Some (source_key (base_source_id b))) actor now note None no_candidate None in
            match insert_unique (fun r =>
                bool_decide (base_active_key r = base_active_key promoted) ||
                (base_source_id r =? base_source_id promoted) && (version r =? version promoted))
              promoted t with
            | Raise e => Raise (Conflict e)
            | Ok r => Ok r
            end
      | None => Raise (ValueError "The candidate snapshot is unavailable.")
      end
  | _, _ => Raise (ValueError "No candidate contract is available for acceptance.")
  end.

Section Create.
Context {P : Type} (dump_request : Events.NotificationDeliveryRequestedV1 -> P)
        (cfg : Notifications.Settings)
        (sha256_json : payload -> string) (sha256_flat : flat_schema -> string).

Record world := World {
  sources : table (Incidents.SourceProfile * option datetime);
  snapshots : table ContractSnapshot;
  baselines : table ContractBaseline;
  drift_events : table DriftEvent;
  observations : table Observation;
  agent_runs : table AgentRun;
  incidents : Incidents.incidents;
  outbox : Messaging.outbox P
}.

Record ContractSnapshotCreate := Create {
  create_source_id : Z;
  create_payload : payload;
  create_version : option string;
  create_note : option string
}.

Definition diff_json (d : diff) : list (string * json) :=
  let '(_, removed, changed) := d in
  [("removed_fields", JList (map JStr removed));
   ("type_changed_fields", JObj (map (fun '(k, (a, b)) =>
      (k, JObj [("from_type", JStr a); ("to_type", JStr b)])) changed))].

(** The unique constraint of the observations on source and timestamp
    ([uq_observations_source_timestamp], models/observations.py). *)
Definition same_moment (source_id : Z) (now : datetime) (o : Observation) : bool :=
  (obs_source_id o =? source_id) && (obs_timestamp o =? now).

(** The event of a confirmed candidate with what it asks for: the incident, the
    observation and the agent run, when the drift requires a response.  The insert of
    the observation violates its constraint when the source has one of that moment. *)
Definition raise_drift (now : datetime) (source : Incidents.SourceProfile) (previous snapshot_id : Z)
    (d : diff) (score : Q) (w : world)
    : result error (Z * list Incidents.IncidentTransition * option Z * world) :=
  let typ := _event_type d in
  let sev := _severity typ score in
  let ev := Drift (Incidents.source_pk source) previous snapshot_id typ sev d score (_summary typ d) now in
  let '(i, evs) := insert ev (drift_events w) in
  if negb (_requires_incident_response typ sev) then
    Ok (i, [], None, World (sources w) (snapshots w) (baselines w) evs (observations w) (agent_runs w)
                       (incidents w) (outbox w))
  else
    match Incidents.open_or_update_incident now source "drift" sev (_summary typ d)
        (JObj ([("drift_event_id", JInt i); ("event_type", JStr typ); ("compatibility_score", JFloat score)]
               ++ diff_json d)) (incidents w) with
    | Raise e => Raise (Conflict e)
    | Ok (tr, inc) =>
        let raw := JObj ([("drift_event_id", JInt i); ("event_type", JStr typ); ("severity", JStr sev);
                          ("added_fields", JList (map JStr d.1.1))] ++ diff_json d ++
                         [("compatibility_score", JFloat score); ("summary", JStr (_summary typ d))]) in
        match insert_unique (same_moment (Incidents.source_pk source) now)
                (Observed (Incidents.source_pk source) now raw ["incident"; sev]
                   (Incidents.source_tenant_id source)) (observations w) with
        | Raise e => Raise (Conflict e)
        | Ok (o, obs) =>
            let '(a, runs) := insert (Run o "pending") (agent_runs w) in
            Ok (i, [tr], Some a, World (sources w) (snapshots w) (baselines w) evs obs runs inc (outbox w))
        end
    end.

(** What happens after the commit: the event published, the agent run started and
    the transitions dispatched. *)
Record effects := Effects {
  published : option Z;
  agent_run : option Z;
  dispatched : list Incidents.IncidentTransition
}.

Definition set_score (score : Q) (s : ContractSnapshot) : ContractSnapshot :=
  Snapshot (snap_source_id s) (schema_version s) (payload_schema s) (schema_fingerprint s) score
    (snapshot_note s) (snap_created_at s).

Definition set_baseline (bi : Z) (f : ContractBaseline -> ContractBaseline) (w : world) : world :=
  World (sources w) (snapshots w) (update bi f (baselines w)) (drift_events w)
    (observations w) (agent_runs w) (incidents w) (outbox w).

(** The end of an observation that was compared with a baseline: the notification
    requests are enqueued and the transaction commits. *)
Definition finish (i : Z) (drift : option Z) (trs : list Incidents.IncidentTransition) (run : option Z)
    (w : world) : result error (option (Z * option Z * effects) * world) :=
  match Lifecycle.enqueue_incident_notification_requests dump_request cfg trs (incidents w, outbox w) with
  | Raise e => Raise (Enqueue e)
  | Ok (inc, out) =>
      Ok (Some (i, drift, Effects drift run trs),
          World (sources w) (snapshots w) (baselines w) (drift_events w) (observations w)
            (agent_runs w) inc out)
  end.

(** [None] when the source is missing; the snapshot, the drift event and the
    effects otherwise.  The transitions are dispatched by [IncidentLifecycle.v]. *)
Definition create_contract_snapshot (now : datetime) (p : ContractSnapshotCreate) (w : world)
    : result error (option (Z * option Z * effects) * world) :=
  match get (create_source_id p) (sources w) with
  | Some (source, None) =>
      let row := Snapshot (create_source_id p) (create_version p) (create_payload p)
        (sha256_json (create_payload p)) CONTRACT_COMPATIBILITY_MAX_SCORE (create_note p) now in
      let '(i, snaps) := insert row (snapshots w) in
      match get_active_contract_baseline (create_source_id p) (baselines w) with
      | None =>
          let b := Baseline (create_source_id p) (Incidents.source_tenant_id source) i None 1 baseline_active
            (Some (source_key (create_source_id p))) "system:first-observation" now
            (Some "Initial observed contract baseline.") None no_candidate None in
          match insert_unique (fun r => bool_decide (base_active_key r = base_active_key b) ||
              (base_source_id r =? base_source_id b) && (version r =? version b)) b (baselines w) with
          | Raise e => Raise (Conflict e)
          | Ok (_, bs) =>
              Ok (Some (i, None, Effects None None []),
                  World (sources w) snaps bs (drift_events w) (observations w) (agent_runs w)
                    (incidents w) (outbox w))
          end
      | Some (bi, b) =>
          match get (baseline_snapshot_id b) snaps with
          | None => Raise (RuntimeError ("Accepted baseline snapshot " +:+ str_of_Z (baseline_snapshot_id b)
                                         +:+ " is missing."))
          | Some base =>
              let current := _flatten_schema (create_payload p) EmptyString in
              let d := _diff_contract (_flatten_schema (payload_schema base) EmptyString) current in
              let score := _compatibility_score d in
              let snaps := update i (set_score score) snaps in
              let w1 := World (sources w) snaps (baselines w) (drift_events w) (observations w)
                (agent_runs w) (incidents w) (outbox w) in
              if no_drift d then finish i None [] None (set_baseline bi _clear_candidate w1)
              else
                let c := observe_candidate (sha256_flat current) i now (base_candidate b) in
                if raises_event c then
                  bind_result (raise_drift now source (baseline_snapshot_id b) i d score w1)
                    (fun '(e, trs, run, w2) =>
                       finish i (Some e) trs run (set_baseline bi (with_candidate (set_event e c)) w2))
                else finish i None [] None (set_baseline bi (with_candidate c) w1)
          end
      end
  | _ => Ok (None, w)
  end.

(** ** Queries *)

Definition newest_snapshot (x y : Z * ContractSnapshot) : bool := snap_created_at y.2 <=? snap_created_at x.2.

Definition get_source_snapshots (source_id : Z) (offset limit : nat) (t : table ContractSnapshot)
    : list (Z * ContractSnapshot) * nat :=
  let base := select (fun s => snap_source_id s =? source_id) t in
  (take limit (drop offset (order_by newest_snapshot base)), length base).

Definition newest_drift (x y : Z * DriftEvent) : bool := drift_created_at y.2 <=? drift_created_at x.2.

Definition get_source_drift_events (source_id : Z) (offset limit : nat) (t : table DriftEvent)
    : list (Z * DriftEvent) * nat :=
  let base := select (fun e => drift_source_id e =? source_id) t in
  (take limit (drop offset (order_by newest_drift base)), length base).

Record CompatibilityReportResponse := Report {
  report_source_id : Z;
  latest_snapshot_id : option Z;
  report_previous_snapshot_id : option Z;
  report_score : Q;
  drift_detected : bool;
  report_event_type : option string;
  report_severity : option string;
  report_diff : diff
}.

Definition no_diff : diff := ([], [], []).

Definition get_compatibility_report (source_id : Z) (w : world) : result error CompatibilityReportResponse :=
  match head (order_by newest_snapshot (select (fun s => snap_source_id s =? source_id) (snapshots w))) with
  | None => Ok (Report source_id None None CONTRACT_COMPATIBILITY_MAX_SCORE false None None no_diff)
  | Some (i, latest) =>
      match get_active_contract_baseline source_id (baselines w) with
      | None => Ok (Report source_id (Some i) None (compatibility_score latest) false None None no_diff)
      | Some (_, b) =>
          match get (baseline_snapshot_id b) (snapshots w) with
          | None => Raise (RuntimeError ("Accepted baseline snapshot " +:+ str_of_Z (baseline_snapshot_id b)
                                         +:+ " is missing."))
          | Some base =>
              let d := _diff_contract (_flatten_schema (payload_schema base) EmptyString)
                         (_flatten_schema (payload_schema latest) EmptyString) in
              let typ := _event_type d in
              let score := _compatibility_score d in
              let drift := negb (bool_decide (typ = "none")) in
              Ok (Report source_id (Some i) (Some (baseline_snapshot_id b)) score drift
                    (if drift then Some typ else None)
                    (if drift then Some (_severity typ score) else None) d)
          end
      end
  end.

(** ** Endpoints (api/routes/contract_drift.py) *)

(** What an endpoint answers when it does not succeed: an HTTP error of its own, or
    an exception that it does not handle. *)
Inductive route_error :=
| Http (e : Incidents.HTTPException)
| Unhandled (e : error).

Definition not_found (detail : string) : route_error := Http (Incidents.HTTP 404 detail).

Definition get_source_profile (source_id : Z) (w : world) : option Incidents.SourceProfile :=
  match get source_id (sources w) with
  | Some (source, None) => Some source
  | _ => None
  end.

Section Routes.
(** [enforcer.get_roles_for_user_in_domain] of the Casbin policy. *)
Context (get_roles_for_user_in_domain : string -> string -> list string).

Definition _require_scoped_source (source_id : Z) (c : Incidents.claims) (w : world)
    : result route_error unit :=
  match get_source_profile source_id w with
  | None => Raise (not_found "Source not found.")
  | Some source =>
      if bool_decide ("admin" ∈ Incidents._roles get_roles_for_user_in_domain c) then Ok tt
      else match Incidents.claim_tenant_id c with
           | None => Raise (Http (Incidents.HTTP 403 "A tenant-scoped identity is required."))
           | Some t => if decide (Incidents.source_tenant_id source = Some t) then Ok tt
                       else Raise (not_found "Source not found.")
           end
  end.

Definition ingest_snapshot (now : datetime) (p : ContractSnapshotCreate) (w : world)
    : result route_error (Z * option Z * effects * world) :=
  match create_contract_snapshot now p w with
  | Raise e => Raise (Unhandled e)
  | Ok (None, _) => Raise (not_found "Source not found.")
  | Ok (Some r, w) => Ok (r, w)
  end.

Definition get_baseline (source_id : Z) (c : Incidents.claims) (w : world)
    : result route_error (Z * ContractBaseline) :=
  bind_result (_require_scoped_source source_id c w) (fun _ =>
  match get_active_contract_baseline source_id (baselines w) with
  | None => Raise (not_found "Contract baseline not established.")
  | Some b => Ok b
  end).

Definition with_baselines (bs : table ContractBaseline) (w : world) : world :=
  World (sources w) (snapshots w) bs (drift_events w) (observations w) (agent_runs w)
    (incidents w) (outbox w).

Definition accept_baseline (now : datetime) (source_id : Z) (note : option string) (selected : option Z)
    (c : Incidents.claims) (w : world) : result route_error (Z * world) :=
  bind_result (_require_scoped_source source_id c w) (fun _ =>
  match get_active_contract_baseline source_id (baselines w) with
  | None => Raise (not_found "Contract baseline not established.")
  | Some (i, b) =>
      match accept_contract_baseline now (Incidents._actor c) note selected i b (snapshots w) (baselines w) with
      | Raise (ValueError message) => Raise (Http (Incidents.HTTP 409 message))
      | Raise e => Raise (Unhandled e)
      | Ok (j, bs) => Ok (j, with_baselines bs w)
      end
  end).

Definition list_snapshots (source_id : Z) (offset limit : nat) (w : world)
    : result route_error (list (Z * ContractSnapshot) * nat) :=
  match get_source_profile source_id w with
  | None => Raise (not_found "Source not found.")
  | Some _ => Ok (get_source_snapshots source_id offset limit (snapshots w))
  end.

Definition list_drift_events (source_id : Z) (offset limit : nat) (w : world)
    : result route_error (list (Z * DriftEvent) * nat) :=
  match get_source_profile source_id w with
  | None => Raise (not_found "Source not found.")
  | Some _ => Ok (get_source_drift_events source_id offset limit (drift_events w))
  end.

Definition compatibility_report (source_id : Z) (w : world) : result route_error CompatibilityReportResponse :=
  match get_source_profile source_id w with
  | None => Raise (not_found "Source not found.")
  | Some _ => match get_compatibility_report source_id w with
              | Raise e => Raise (Unhandled e)
              | Ok r => Ok r
              end
  end.
End Routes.

(** ** Sequences of observations *)

(** The drift event that each of a sequence of successful observations raised. *)
Fixpoint observe_all (calls : list (datetime * ContractSnapshotCreate)) (w : world)
    : result error (list (option Z) * world) :=
  match calls with
  | [] => Ok ([], w)
  | (now, p) :: calls =>
      bind_result (create_contract_snapshot now p w) (fun '(r, w) =>
      bind_result (observe_all calls w) (fun '(rest, w) =>
        Ok (match r with Some (_, drift, _) => drift | None => None end :: rest, w)))
  end.

(** ** Steps: every way the code changes the baselines *)

(** An observation, an acceptance, and the transactions on the other tables. *)
Inductive contract_step : world -> world -> Prop :=
| step_observe now p w r w' : create_contract_snapshot now p w = Ok (r, w') -> contract_step w w'
| step_accept roles now source_id note selected c w j w' :
    accept_baseline roles now source_id note selected c w = Ok (j, w') -> contract_step w w'
| step_other w w' : baselines w' = baselines w -> contract_step w w'.

End Create.
Arguments world : clear implicits.
End Drift.

(** ** Theorems: flat schemas *)

Module FlattenTheorems.
Import Drift.

(** The reference: which types a payload shows at which paths, the elements of an
    array being observed up to the inspection limit. *)
Inductive observed : json -> string -> string -> string -> Prop :=
| observed_here v path : observed v path path (_value_type v)
| observed_field l path key child p ty :
    In (key, child) l -> observed child (path +:+ "." +:+ key) p ty -> observed (JObj l) path p ty
| observed_element l path element p ty :
    In element (take _ARRAY_INSPECTION_LIMIT l) -> observed element (path +:+ "[]") p ty ->
    observed (JList l) path p ty.

Definition observed_payload (p : payload) (path ty : string) : Prop :=
  exists key value, In (key, value) p /\ observed value key path ty.

Definition leb_prop (a b : string) : Prop := String.leb a b = true.

#[local] Instance leb_trans : Transitive leb_prop.
Proof. intros a b c. apply string_leb_trans. Qed.

#[local] Instance leb_antisym : AntiSymm (=) leb_prop.
Proof. intros a b Ha Hb. by apply String.leb_antisym. Qed.

(** A canonical list of types: not empty, sorted, without repetition, and each free
    of the separator. *)
Record canonical (l : list string) : Prop := {
  canonical_ne : l <> [];
  canonical_sorted : StronglySorted leb_prop l;
  canonical_nodup : NoDup l;
  canonical_clean : Forall (fun a => free_of _TYPE_UNION_SEPARATOR a = true /\ str_truthy a = true) l
}.

(** A flat schema holds, at each path, the canonical union of the types of [T]. *)
Definition represents (m : flat_schema) (T : string -> string -> Prop) : Prop :=
  forall p, match m !! p with
            | Some u => exists l, canonical l /\ u = join_types l /\ forall ty, ty ∈ l <-> T p ty
            | None => forall ty, ~ T p ty
            end.

Lemma sorted_set_spec l :
  StronglySorted leb_prop (sorted_set l) /\ NoDup (sorted_set l) /\ forall a, a ∈ sorted_set l <-> a ∈ l.
Proof.
  unfold sorted_set. split; [|split].
  - apply order_by_sorted; [apply String.leb_total | apply string_leb_trans].
  - rewrite order_by_perm. apply NoDup_remove_dups.
  - intros a. rewrite order_by_perm. apply elem_of_remove_dups.
Qed.

Lemma split_join l : canonical l -> split_types (join_types l) = l.
Proof.
  intros [Hne _ _ Hc]. unfold split_types, join_types. apply split_on_concat; [done |].
  eapply Forall_impl; [exact Hc |]. by intros a [].
Qed.

Lemma join_truthy l : canonical l -> str_truthy (join_types l) = true.
Proof.
  intros [Hne _ _ Hc]. destruct l as [|a l]; [done |]. apply Forall_cons in Hc as [[_ Ha] _].
  unfold join_types. destruct l; simpl; by destruct a.
Qed.

Lemma canonical_merge l1 l2 : canonical l1 -> canonical l2 -> canonical (sorted_set (l1 ++ l2)).
Proof.
  intros H1 H2. destruct (sorted_set_spec (l1 ++ l2)) as (Hs & Hn & Hi). split; [| done | done |].
  - destruct l1 as [|a l1]; [by destruct H1 |]. intros E.
    assert (a ∈ sorted_set ((a :: l1) ++ l2)) as Ha by (apply Hi; left). rewrite E in Ha.
    by apply not_elem_of_nil in Ha.
  - apply Forall_forall. intros a Ha%Hi%elem_of_app.
    destruct Ha as [Ha|Ha]; [pose proof (canonical_clean _ H1) as Hc | pose proof (canonical_clean _ H2) as Hc];
      rewrite Forall_forall in Hc; by apply Hc.
Qed.

Lemma canonical_unique l1 l2 :
  canonical l1 -> canonical l2 -> (forall a, a ∈ l1 <-> a ∈ l2) -> l1 = l2.
Proof.
  intros H1 H2 H. apply (StronglySorted_unique leb_prop); [apply H1 | apply H2 |].
  apply NoDup_Permutation; [apply H1 | apply H2 | done].
Qed.

Lemma represents_merge m1 m2 T1 T2 :
  represents m1 T1 -> represents m2 T2 ->
  represents (_merge_flat_schema m1 m2) (fun p ty => T1 p ty \/ T2 p ty).
Proof.
  intros H1 H2 p. specialize (H1 p). specialize (H2 p). unfold _merge_flat_schema.
  rewrite lookup_union_with. destruct (m1 !! p) as [u1|], (m2 !! p) as [u2|]; simpl.
  - destruct H1 as (l1 & C1 & -> & I1), H2 as (l2 & C2 & -> & I2).
    rewrite (join_truthy l1) by done. unfold _merge_value_types. rewrite !split_join by done.
    exists (sorted_set (l1 ++ l2)). split; [by apply canonical_merge |]. split; [done |].
    intros ty. destruct (sorted_set_spec (l1 ++ l2)) as (_ & _ & ->). rewrite elem_of_app, I1, I2. done.
  - destruct H1 as (l1 & C1 & -> & I1). exists l1. split; [done |]. split; [done |].
    intros ty. rewrite I1. split; [by left | intros [|H]; [done | by apply H2 in H]].
  - destruct H2 as (l2 & C2 & -> & I2). exists l2. split; [done |]. split; [done |].
    intros ty. rewrite I2. split; [by right | intros [H|]; [by apply H1 in H | done]].
  - intros ty [H|H]; [by apply H1 in H | by apply H2 in H].
Qed.

Lemma represents_ext m T T' : (forall p ty, T p ty <-> T' p ty) -> represents m T -> represents m T'.
Proof.
  intros HT H p. specialize (H p). destruct (m !! p) as [u|].
  - destruct H as (l & C & -> & I). exists l. split; [done |]. split; [done |]. intros ty. by rewrite I.
  - intros ty. by rewrite <- HT.
Qed.

Lemma canonical_value_type v : canonical [_value_type v].
Proof. split; [done | by repeat constructor | by apply NoDup_singleton |]. constructor; [by destruct v | constructor]. Qed.

Lemma represents_here v path :
  represents {[path := _value_type v]} (fun p ty => p = path /\ ty = _value_type v).
Proof.
  intros p. destruct (decide (p = path)) as [->|Hne].
  - rewrite lookup_singleton_eq. exists [_value_type v]. split; [apply canonical_value_type |].
    split; [done |]. intros ty. rewrite list_elem_of_singleton. tauto.
  - rewrite lookup_singleton_ne by done. by intros ty [].
Qed.

(** Induction on JSON values through lists and objects. *)
Lemma json_nested_ind (Q : json -> Prop) :
  Q JNull -> (forall b, Q (JBool b)) -> (forall z, Q (JInt z)) -> (forall q, Q (JFloat q)) ->
  (forall s, Q (JStr s)) -> (forall l, (forall v, In v l -> Q v) -> Q (JList l)) ->
  (forall l, (forall k v, In (k, v) l -> Q v) -> Q (JObj l)) -> forall v, Q v.
Proof.
  intros H1 H2 H3 H4 H5 H6 H7. fix IH 1. intros [|b|z|q|s|l|l].
  - exact H1.
  - exact (H2 b).
  - exact (H3 z).
  - exact (H4 q).
  - exact (H5 s).
  - apply H6. induction l as [|v l IHl]; intros w Hw; [destruct Hw |].
    destruct Hw as [<-|Hw]; [apply IH | exact (IHl w Hw)].
  - apply H7. induction l as [|[k v] l IHl]; intros k' w Hw; [destruct Hw |].
    destruct Hw as [Hw|Hw]; [|exact (IHl k' w Hw)].
    replace w with v by congruence. apply IH.
Qed.

Lemma observed_leaf v path p ty :
  match v with JObj _ | JList _ => False | _ => True end ->
  observed v path p ty <-> p = path /\ ty = _value_type v.
Proof.
  intros Hv. split; [|intros [-> ->]; constructor]. intros H. by inversion H; subst.
Qed.

Lemma flatten_value_represents v : forall path, represents (_flatten_value v path) (observed v path).
Proof.
  induction v as [|b|z|q|s|l IH|l IH] using json_nested_ind; intros path;
    try (eapply represents_ext; [|apply represents_here]; intros p ty; symmetry; by apply observed_leaf).
  - cbn [_flatten_value].
    assert (forall n l' flat T, (forall x, In x l' -> In x l) -> represents flat T ->
      represents ((fix elements n l flat := match n, l with
         | S n, element :: l => elements n l (_merge_flat_schema flat (_flatten_value element (path +:+ "[]")))
         | _, _ => flat end) n l' flat)
        (fun p ty => T p ty \/ exists x, In x (take n l') /\ observed x (path +:+ "[]") p ty)) as Hgo.
    { induction n as [|n IHn]; intros l' flat T Hin Hflat.
      - eapply represents_ext; [|exact Hflat]. intros p ty. split; [by left | intros [|(x & [] & _)]; done].
      - destruct l' as [|x l'].
        + eapply represents_ext; [|exact Hflat]. intros p ty. split; [by left | intros [|(x & [] & _)]; done].
        + eapply represents_ext; [|apply IHn].
          2: { intros y Hy. apply Hin. by right. }
          2: { apply represents_merge; [exact Hflat | apply IH, Hin; by left]. }
          intros p ty. simpl. split.
          * intros [[H|H]|(y & Hy & H)]; [by left | right; exists x; auto | right; exists y; auto].
          * intros [H|(y & [<-|Hy] & H)]; [by left; left | by left; right | right; by exists y]. }
    eapply represents_ext; [|apply Hgo; [done | apply represents_here]].
    intros p ty. split.
    + intros [[-> ->]|(x & Hx & H)]; [constructor | by econstructor].
    + inversion 1; subst; [by left | right; by eexists].
  - cbn [_flatten_value].
    assert (forall l' flat T, (forall k x, In (k, x) l' -> In (k, x) l) -> represents flat T ->
      represents ((fix fields l flat := match l with
         | [] => flat
         | (key, child) :: l => fields l (_merge_flat_schema flat (_flatten_value child (path +:+ "." +:+ key)))
         end) l' flat)
        (fun p ty => T p ty \/ exists k x, In (k, x) l' /\ observed x (path +:+ "." +:+ k) p ty)) as Hgo.
    { induction l' as [|[k x] l' IHl]; intros flat T Hin Hflat.
      - eapply represents_ext; [|exact Hflat]. intros p ty. split; [by left | intros [|(k & x & [] & _)]; done].
      - eapply represents_ext; [|apply IHl].
        2: { intros k' y Hy. apply Hin. by right. }
        2: { apply represents_merge; [exact Hflat | apply (IH k), Hin; by left]. }
        intros p ty. split.
        + intros [[H|H]|(k' & y & Hy & H)]; [by left | right; exists k, x; split; [by left | done]
            | right; exists k', y; split; [by right | done]].
        + intros [H|(k' & y & [Hy|Hy] & H)]; [by left; left | | right; by exists k', y].
          injection Hy as <- <-. by left; right. }
    eapply represents_ext; [|apply Hgo; [done | apply represents_here]].
    intros p ty. split.
    + intros [[-> ->]|(k & x & Hx & H)]; [constructor | by econstructor].
    + inversion 1; subst; [by left | right; by eexists _, _].
Qed.

Lemma fold_represents prefix p : forall flat T,
  represents flat T ->
  represents (foldl (fun flat '(key, value) =>
      let path := if str_truthy prefix then prefix +:+ "." +:+ key else key in
      _merge_flat_schema flat (_flatten_value value path)) flat p)
    (fun path ty => T path ty \/ exists key value, In (key, value) p /\
       observed value (if str_truthy prefix then prefix +:+ "." +:+ key else key) path ty).
Proof.
  induction p as [|[k v] p IHp]; intros flat T Hflat; simpl.
  - eapply represents_ext; [|exact Hflat]. intros q ty. split; [by left | intros [|(k & x & [] & _)]; done].
  - eapply represents_ext; [|apply IHp, represents_merge; [exact Hflat | apply flatten_value_represents]].
    intros q ty. split.
    + intros [[H|H]|(k' & y & Hy & H)]; [by left | right; exists k, v; split; [by left | done]
        | right; exists k', y; split; [by right | done]].
    + intros [H|(k' & y & [Hy|Hy] & H)]; [by left; left | | right; by exists k', y].
      injection Hy as <- <-. by left; right.
Qed.

Lemma flatten_schema_represents p :
  represents (_flatten_schema p EmptyString) (observed_payload p).
Proof.
  unfold _flatten_schema. eapply represents_ext; [|apply fold_represents with (T := fun _ _ => False)].
  - intros path ty. simpl. split; [intros [[]|(k & v & Hin & H)]; by exists k, v | by right].
  - intros q. rewrite lookup_empty. intros ty [].
Qed.

(** The flat schema of a payload holds exactly what the payload shows: a
    path is present when some value is observed there, and its entry is the
    sorted, duplicate-free union of the JSON types observed there, joined by the
    separator; array elements count up to the inspection limit, in whatever order
    they and the object fields come. *)
Theorem flatten_schema_exact (p : payload) (path : string) :
  match _flatten_schema p EmptyString !! path with
  | Some u => exists l, canonical l /\ u = join_types l /\ forall ty, ty ∈ l <-> observed_payload p path ty
  | None => forall ty, ~ observed_payload p path ty
  end.
Proof. apply flatten_schema_represents. Qed.

(** ** Theorems: the comparison *)

Definition shows (p : payload) (path : string) : Prop := exists ty, observed_payload p path ty.

Lemma represents_shows p path : shows p path <-> is_Some (_flatten_schema p EmptyString !! path).
Proof.
  pose proof (flatten_schema_represents p path) as H.
  destruct (_flatten_schema p EmptyString !! path) as [u|].
  - destruct H as (l & C & -> & I). split; [done |]. intros _.
    destruct l as [|ty l]; [by destruct C |]. exists ty. apply I. left.
  - split; [intros [ty Hty]; by apply H in Hty | by intros []].
Qed.

Lemma represents_types p q path u v :
  _flatten_schema p EmptyString !! path = Some u -> _flatten_schema q EmptyString !! path = Some v ->
  u = v <-> forall ty, observed_payload p path ty <-> observed_payload q path ty.
Proof.
  intros Hu Hv. pose proof (flatten_schema_represents p path) as Hp. rewrite Hu in Hp.
  pose proof (flatten_schema_represents q path) as Hq. rewrite Hv in Hq.
  destruct Hp as (l1 & C1 & -> & I1), Hq as (l2 & C2 & -> & I2). split.
  - intros E ty. rewrite <- I1, <- I2. apply (f_equal split_types) in E.
    rewrite !split_join in E by done. by rewrite E.
  - intros H. f_equal. apply canonical_unique; [done | done |]. intros a. by rewrite I1, I2.
Qed.

Lemma elem_of_keys (m : flat_schema) k : k ∈ keys m <-> is_Some (m !! k).
Proof.
  unfold keys. rewrite list_elem_of_fmap. split.
  - intros ([k' v] & -> & H). apply elem_of_map_to_list in H. by exists v.
  - intros [v H]. exists (k, v). split; [done |]. by apply elem_of_map_to_list.
Qed.

Lemma elem_of_filter_list {A} (f : A -> bool) x l : x ∈ List.filter f l <-> x ∈ l /\ f x = true.
Proof. rewrite !list_elem_of_In. apply filter_In. Qed.

(** A path below an array that the payload shows without any inspected element. *)
Definition below_inconclusive (q : payload) (path : string) : Prop :=
  exists array_path, observed_payload q array_path "array" /\
    (forall c, shows q c -> startswith c (array_path +:+ "[]") = false) /\
    startswith path (array_path +:+ "[]") = true.

Lemma below_inconclusive_spec q path :
  _is_below_inconclusive_array path (_flatten_schema q EmptyString) = true <-> below_inconclusive q path.
Proof.
  unfold _is_below_inconclusive_array, below_inconclusive. rewrite existsb_exists. split.
  - intros ([a u] & Hin & H). rewrite <- list_elem_of_In, elem_of_map_to_list in Hin.
    rewrite !andb_true_iff, negb_true_iff, bool_decide_eq_true in H. destruct H as [[Ha Hc] Hp].
    exists a. split; [|split; [|exact Hp]].
    + pose proof (flatten_schema_represents q a) as H. rewrite Hin in H.
      destruct H as (l & C & -> & I). rewrite split_join in Ha by done. by apply I.
    + intros c Hs. apply represents_shows, elem_of_keys, list_elem_of_In in Hs.
      destruct (startswith c _) eqn:E; [|done]. rewrite <- Hc. symmetry. apply existsb_exists. eauto.
  - intros (a & Ha & Hc & Hp). assert (shows q a) as [u Hu]%represents_shows by (by exists "array").
    exists (a, u). split; [by apply list_elem_of_In, elem_of_map_to_list |].
    pose proof (flatten_schema_represents q a) as H. rewrite Hu in H. destruct H as (l & C & -> & I).
    rewrite !andb_true_iff, negb_true_iff, bool_decide_eq_true. split; [split; [|] | done].
    + rewrite split_join by done. by apply I.
    + destruct (existsb _ _) eqn:E; [|done]. apply existsb_exists in E as (c & Hin & Hs).
      rewrite <- Hs. apply Hc, represents_shows, elem_of_keys. by apply list_elem_of_In.
Qed.

Lemma keys_nodup (m : flat_schema) : NoDup (keys m).
Proof. apply NoDup_fst_map_to_list. Qed.

Lemma not_shows p k : bool_decide (_flatten_schema p EmptyString !! k = None) = true <-> ~ shows p k.
Proof. rewrite represents_shows, bool_decide_eq_true. apply eq_None_not_Some. Qed.

Lemma order_keys_elem (l : list string) k : k ∈ order_by String.leb l <-> k ∈ l.
Proof. by rewrite order_by_perm. Qed.

(** The paths of an [omap] that pairs each key with a value. *)
Lemma omap_keys {B} (f : string -> option (string * B)) l k :
  (forall a r, f a = Some r -> r.1 = a) -> k ∈ (omap f l).*1 <-> k ∈ l /\ is_Some (f k).
Proof.
  intros Hf. rewrite list_elem_of_fmap. split.
  - intros ([k' v] & -> & (a & Ha & E)%list_elem_of_omap). pose proof (Hf _ _ E) as Hk. simpl in *. subst a. eauto.
  - intros [Hk [[k' v] E]]. pose proof (Hf _ _ E) as Hk'. simpl in Hk'. subst k'.
    exists (k, v). split; [done |]. apply list_elem_of_omap. eauto.
Qed.

Lemma omap_keys_nodup {B} (f : string -> option (string * B)) l :
  (forall a r, f a = Some r -> r.1 = a) -> NoDup l -> NoDup (omap f l).*1.
Proof.
  intros Hf. induction 1 as [|a l Ha Hl IH]; simpl; [constructor |].
  destruct (f a) as [r|] eqn:E; [|done]. simpl. constructor; [|done].
  rewrite (Hf _ _ E). by intros [Hin _]%omap_keys.
Qed.

(** The changes between two payloads, in the terms of what they show. *)
Definition added_path (p q : payload) (k : string) : Prop := shows q k /\ ~ shows p k.
Definition removed_path (p q : payload) (k : string) : Prop :=
  shows p k /\ ~ shows q k /\ ~ below_inconclusive q k.
Definition changed_path (p q : payload) (k : string) : Prop :=
  shows p k /\ shows q k /\ ~ forall ty, observed_payload p k ty <-> observed_payload q k ty.

Definition diff_payloads (p q : payload) : diff :=
  _diff_contract (_flatten_schema p EmptyString) (_flatten_schema q EmptyString).

Lemma diff_added p q k : k ∈ (diff_payloads p q).1.1 <-> added_path p q k.
Proof.
  unfold added_path. simpl. rewrite order_keys_elem, elem_of_filter_list, elem_of_keys, not_shows.
  by rewrite <- represents_shows.
Qed.

Lemma diff_removed p q k : k ∈ (diff_payloads p q).1.2 <-> removed_path p q k.
Proof.
  unfold removed_path. simpl. rewrite order_keys_elem, elem_of_filter_list, elem_of_keys.
  rewrite andb_true_iff, not_shows, negb_true_iff, <- represents_shows, <- below_inconclusive_spec.
  by rewrite not_true_iff_false.
Qed.

Lemma diff_changed p q k : k ∈ (diff_payloads p q).2.*1 <-> changed_path p q k.
Proof.
  unfold changed_path. simpl. rewrite omap_keys.
  2: { intros a r. repeat case_match; by intros [= <-]. }
  rewrite order_keys_elem, elem_of_keys, <- represents_shows, (represents_shows q k).
  split; intros [Hp H]; (split; [done |]).
  - destruct (_flatten_schema p EmptyString !! k) as [u|] eqn:Eu; [|by destruct H].
    destruct (_flatten_schema q EmptyString !! k) as [v|] eqn:Ev; [|by destruct H].
    split; [done |]. rewrite <- (represents_types p q k u v) by done. by destruct (decide (u = v)) in H; [destruct H |].
  - destruct H as [[v Ev] H]. apply represents_shows in Hp as [u Eu]. rewrite Eu, Ev.
    rewrite <- (represents_types p q k u v) in H by done. by rewrite decide_False.
Qed.

Lemma diff_nodup p q :
  NoDup (diff_payloads p q).1.1 /\ NoDup (diff_payloads p q).1.2 /\ NoDup (diff_payloads p q).2.*1.
Proof.
  simpl. split; [|split].
  - rewrite order_by_perm. apply NoDup_ListNoDup, List.NoDup_filter, NoDup_ListNoDup, keys_nodup.
  - rewrite order_by_perm. apply NoDup_ListNoDup, List.NoDup_filter, NoDup_ListNoDup, keys_nodup.
  - apply omap_keys_nodup; [intros a r; repeat case_match; by intros [= <-] |].
    rewrite order_by_perm. apply keys_nodup.
Qed.

Lemma is_nil_spec {A} (l : list A) : is_nil l = true <-> forall x, ~ x ∈ l.
Proof.
  destruct l as [|a l]; simpl; split; [by intros _ x ?%elem_of_nil | done | done |].
  intros H. destruct (H a). left.
Qed.

Lemma is_nil_fmap {A B} (f : A -> B) l : is_nil (f <$> l) = is_nil l.
Proof. by destruct l. Qed.

(** C39: The comparison of two payloads reports, each once, the paths that only the
    second shows, the paths that only the first shows and that are not below an
    array of the second whose elements were not seen, and the paths whose observed
    types differ; the verdict is breaking exactly when something was removed or
    changed, and the comparison is empty exactly when the two payloads show the
    same, up to uninspected arrays. *)
Theorem contract_diff_exact (p q : payload) :
  let d := _diff_contract (_flatten_schema p EmptyString) (_flatten_schema q EmptyString) in
  (forall k, k ∈ d.1.1 <-> added_path p q k) /\
  (forall k, k ∈ d.1.2 <-> removed_path p q k) /\
  (forall k, k ∈ d.2.*1 <-> changed_path p q k) /\
  NoDup d.1.1 /\ NoDup d.1.2 /\ NoDup d.2.*1 /\
  (_event_type d = "breaking" <-> exists k, removed_path p q k \/ changed_path p q k) /\
  (no_drift d = true <-> forall k, ~ added_path p q k /\ ~ removed_path p q k /\ ~ changed_path p q k).
Proof.
  fold (diff_payloads p q). intros d. split; [apply diff_added |]. split; [apply diff_removed |]. split; [apply diff_changed |].
  destruct (diff_nodup p q) as (Ha & Hr & Hc). split; [done |]. split; [done |]. split; [done |].
  pose proof (is_nil_spec d.1.1) as Na. pose proof (is_nil_spec d.1.2) as Nr.
  pose proof (is_nil_spec d.2.*1) as Nc. rewrite is_nil_fmap in Nc.
  setoid_rewrite <- (diff_added p q). setoid_rewrite <- (diff_removed p q).
  setoid_rewrite <- (diff_changed p q).
  subst d. destruct (diff_payloads p q) as [[a r] c]. simpl in *. split.
  - destruct r as [|x r]; [destruct c as [|y c] |]; simpl.
    + split; [by destruct (negb (is_nil a)) | by intros [k [?%elem_of_nil|?%elem_of_nil]]].
    + split; [intros _; exists y.1; right; left | done].
    + split; [intros _; exists x; left; left | done].
  - rewrite !andb_true_iff, Na, Nr, Nc. split; [naive_solver |]. intros H. split; [split|]; intros k; apply H.
Qed.
End FlattenTheorems.

(** ** Theorems: baselines *)

Module BaselineTheorems.
Import Drift.

Lemma source_key_inj a b : source_key a = source_key b -> a = b.
Proof. unfold source_key. simpl. intros H. injection H as H. by apply str_of_Z_inj. Qed.

(** What holds of the baselines: keys and states agree, there is at most one active
    baseline per source, a version is used once per source, and every superseded
    baseline is older than an active one of its source and was the origin of its
    successor. *)
Record wf_baseline (r : ContractBaseline) : Prop := {
  baseline_key : base_active_key r =
    if decide (baseline_state r = baseline_active) then Some (source_key (base_source_id r)) else None;
  baseline_kept : base_deleted_at r = None;
  baseline_end : superseded_at r = None <-> baseline_state r = baseline_active
}.

Definition slot (r : ContractBaseline) : option (Z * Z) := Some (base_source_id r, version r).

(** The origin of a baseline. *)
Definition origin (t : table ContractBaseline) (r : ContractBaseline) : Prop :=
  match promoted_from_baseline_id r with
  | None => version r = 1
  | Some k => exists p, get k t = Some p /\ base_source_id p = base_source_id r /\
                        baseline_state p = superseded /\ version p + 1 = version r
  end.

Record wf_baselines (t : table ContractBaseline) : Prop := {
  wfb_table : wf_table t;
  wfb_rows : every (fun _ r => wf_baseline r) t;
  wfb_active : unique base_active_key t;
  wfb_slot : unique slot t;
  wfb_origin : every (fun _ r => origin t r) t;
  wfb_current : every (fun _ r => exists j a, get j t = Some a /\ baseline_state a = baseline_active /\
                         base_source_id a = base_source_id r /\ version r <= version a) t
}.

Lemma active_baseline_spec source_id t i b :
  wf_table t -> get_active_contract_baseline source_id t = Some (i, b) ->
  get i t = Some b /\ base_source_id b = source_id /\ baseline_state b = baseline_active.
Proof.
  intros Hwf [Hg Hp]%scalar_Some; [|done]. unfold is_active_baseline in Hp. bool_to_prop.
  by repeat split.
Qed.

Lemma no_active_baseline source_id t :
  wf_baselines t -> get_active_contract_baseline source_id t = None ->
  every (fun _ r => base_source_id r <> source_id) t.
Proof.
  intros Hwf H i r Hg Hs. unfold get_active_contract_baseline in H. rewrite scalar_None in H by apply Hwf.
  destruct (wfb_current _ Hwf i r Hg) as (j & a & Ha & Hst & Hsrc & _).
  specialize (H j a Ha). simpl in H. unfold is_active_baseline in H.
  rewrite (baseline_kept _ (wfb_rows _ Hwf j a Ha)), Hst, Hsrc, Hs, Z.eqb_refl in H. done.
Qed.

(** Two active baselines of one source are the same row. *)
Lemma active_unique t i j a b :
  wf_baselines t -> get i t = Some a -> get j t = Some b ->
  baseline_state a = baseline_active -> baseline_state b = baseline_active ->
  base_source_id a = base_source_id b -> i = j.
Proof.
  intros Hwf Ha Hb Sa Sb E.
  apply (wfb_active _ Hwf i j a b (source_key (base_source_id a))); [done | done | |].
  - rewrite (baseline_key _ (wfb_rows _ Hwf i a Ha)). by rewrite decide_True.
  - rewrite (baseline_key _ (wfb_rows _ Hwf j b Hb)). by rewrite decide_True, E.
Qed.

(** Versions of a source stay below that of its active baseline. *)
Lemma version_le_active t i j a r :
  wf_baselines t -> get i t = Some a -> baseline_state a = baseline_active -> get j t = Some r ->
  base_source_id r = base_source_id a -> version r <= version a.
Proof.
  intros Hwf Ha Sa Hr E. destruct (wfb_current _ Hwf j r Hr) as (k & a' & Ha' & Sa' & E' & Hle).
  assert (k = i) as -> by (eapply active_unique; eauto; congruence). congruence.
Qed.

(** A change of the candidate is invisible to the rest of the row. *)
Lemma get_with_candidate i c t j :
  get j (update i (with_candidate c) t) = None /\ get j t = None \/
  exists r c', get j t = Some r /\ get j (update i (with_candidate c) t) = Some (with_candidate c' r).
Proof.
  rewrite get_update. destruct (get j t) as [r|] eqn:E.
  - right. exists r. destruct (i =? j); [by exists c |]. exists (base_candidate r). by destruct r.
  - left. by destruct (i =? j).
Qed.

Ltac from_candidate H r c :=
  match type of H with
  | get ?j (update ?i (with_candidate ?c0) ?t) = Some _ =>
      let E := fresh "E" in
      destruct (get_with_candidate i c0 t j) as [[E _]|(r & c & ? & E)]; rewrite E in H; [done | simplify_eq]
  end.

Lemma with_candidate_get i c t j r :
  get j t = Some r -> exists c', get j (update i (with_candidate c) t) = Some (with_candidate c' r).
Proof.
  intros H. destruct (get_with_candidate i c t j) as [[_ E]|(r' & c' & E & H')]; [congruence |].
  exists c'. congruence.
Qed.

Lemma wf_candidate i c t : wf_baselines t -> wf_baselines (update i (with_candidate c) t).
Proof.
  intros Hwf. split.
  - apply wf_update, Hwf.
  - intros j r Hr. from_candidate Hr r0 c0. destruct (wfb_rows _ Hwf j r0); [done |]. by split.
  - intros a b ra rb k Ha Hb. from_candidate Ha r1 c1. from_candidate Hb r2 c2. simpl. by apply Hwf.
  - intros a b ra rb k Ha Hb. from_candidate Ha r1 c1. from_candidate Hb r2 c2.
    by apply (wfb_slot _ Hwf a b r1 r2).
  - intros j r Hr. from_candidate Hr r0 c0. pose proof (wfb_origin _ Hwf j r0 H) as Ho.
    unfold origin in *. simpl. destruct (promoted_from_baseline_id r0) as [k|]; [|done].
    destruct Ho as (q & Hq & ?). destruct (with_candidate_get i c t k q Hq) as [c' Hc']. eauto.
  - intros j r Hr. from_candidate Hr r0 c0.
    destruct (wfb_current _ Hwf j r0 H) as (k & a & Ha & ?).
    destruct (with_candidate_get i c t k a Ha) as [c' Hc']. eauto.
Qed.

(** The rows that a new baseline [r] would conflict with. *)
Definition taken (r x : ContractBaseline) : bool :=
  bool_decide (base_active_key x = base_active_key r) ||
  (base_source_id x =? base_source_id r) && (version x =? version r).

(** A new baseline as the code writes it. *)
Record fresh_baseline (r : ContractBaseline) : Prop := {
  fresh_active : baseline_state r = baseline_active;
  fresh_key : base_active_key r = Some (source_key (base_source_id r));
  fresh_kept : base_deleted_at r = None;
  fresh_end : superseded_at r = None
}.

Lemma fresh_wf r : fresh_baseline r -> wf_baseline r.
Proof. intros [Hs Hk Hd He]. split; [by rewrite decide_True | done | done]. Qed.

Lemma wf_first t r :
  wf_baselines t -> fresh_baseline r -> version r = 1 -> promoted_from_baseline_id r = None ->
  every (fun _ x => base_source_id x <> base_source_id r) t -> wf_baselines (insert r t).2.
Proof.
  intros Hwf Hf Hv Hp Hne. pose proof (wfb_table _ Hwf) as Ht.
  assert (forall j x, get j t = Some x -> get j (insert r t).2 = Some x) as Hkeep.
  { intros j x Hx. rewrite get_insert by done. destruct (Z.eqb_spec j (next_id t)); [|done].
    apply get_lt in Hx; [lia | done]. }
  split.
  - by apply wf_insert.
  - apply every_insert; [done | apply Hwf | by apply fresh_wf].
  - apply unique_insert; [done | apply Hwf |]. intros k Hk j x Hx Hk'.
    rewrite (fresh_key _ Hf) in Hk. rewrite (baseline_key _ (wfb_rows _ Hwf j x Hx)) in Hk'.
    case_decide; [|done]. apply (Hne j x Hx), source_key_inj. congruence.
  - apply unique_insert; [done | apply Hwf |]. intros k Hk j x Hx Hk'.
    apply (Hne j x Hx). unfold slot in *. congruence.
  - intros j x. rewrite get_insert by done. destruct (Z.eqb_spec j (next_id t)).
    + intros [= <-]. unfold origin. by rewrite Hp.
    + intros Hx. pose proof (wfb_origin _ Hwf j x Hx) as Ho. unfold origin in *.
      destruct (promoted_from_baseline_id x); [|done]. destruct Ho as (q & Hq & ?). eauto.
  - intros j x. rewrite get_insert by done. destruct (Z.eqb_spec j (next_id t)).
    + intros [= <-]. exists (next_id t), r. rewrite get_insert, Z.eqb_refl by done.
      repeat split; [apply Hf | lia].
    + intros Hx. destruct (wfb_current _ Hwf j x Hx) as (k & a & Ha & ?). eauto.
Qed.

Section Promote.
Context (now : datetime) (i : Z) (b r : ContractBaseline) (t : table ContractBaseline)
  (Hwf : wf_baselines t) (Hb : get i t = Some b) (Sb : baseline_state b = baseline_active)
  (Hf : fresh_baseline r) (Hsrc : base_source_id r = base_source_id b) (Hv : version r = version b + 1)
  (Hp : promoted_from_baseline_id r = Some i).

Lemma get_superseded j :
  get j (update i (supersede now) t) = if i =? j then Some (supersede now b) else get j t.
Proof. rewrite get_update. destruct (Z.eqb_spec i j) as [->|]; [by rewrite Hb | done]. Qed.

(** Seen through [supersede], a row keeps its source, version and origin. *)
Lemma superseded_row j x :
  get j (update i (supersede now) t) = Some x ->
  exists x0, get j t = Some x0 /\ base_source_id x = base_source_id x0 /\ version x = version x0 /\
             promoted_from_baseline_id x = promoted_from_baseline_id x0 /\
             (x = x0 /\ j <> i \/ x = supersede now x0 /\ j = i).
Proof.
  rewrite get_superseded. destruct (Z.eqb_spec i j) as [<-|Hne]; intros Hx.
  - injection Hx as <-. exists b. repeat split; [done |]. by right.
  - exists x. repeat split; [done |]. left. by split.
Qed.

Lemma no_conflict : scalar (taken r) (update i (supersede now) t) = None.
Proof.
  apply scalar_None; [apply wf_update, Hwf |]. intros j x Hx.
  destruct (superseded_row j x Hx) as (x0 & Hx0 & E1 & E2 & _ & Hcase). unfold taken.
  apply orb_false_iff. split.
  - apply bool_decide_eq_false. rewrite (fresh_key _ Hf). intros Hk.
    destruct Hcase as [[-> Hne]|[-> ->]]; [|done].
    rewrite (baseline_key _ (wfb_rows _ Hwf j x0 Hx0)) in Hk. case_decide as Hst; [|done].
    apply Hne. apply (active_unique t j i x0 b Hwf Hx0 Hb Hst Sb).
    injection Hk as Hk%str_of_Z_inj. congruence.
  - rewrite E1, E2, Hsrc, Hv. destruct (Z.eqb_spec (base_source_id x0) (base_source_id b)); [|done].
    pose proof (version_le_active t i j b x0 Hwf Hb Sb Hx0). simpl. apply Z.eqb_neq. lia.
Qed.

Lemma wf_promote : wf_baselines (insert r (update i (supersede now) t)).2.
Proof.
  set (t1 := update i (supersede now) t) in *.
  assert (wf_table t1) as Ht1 by (apply wf_update, Hwf).
  pose proof no_conflict as Hn. rewrite scalar_None in Hn by done.
  assert (forall j x, get j t1 = Some x -> get j (insert r t1).2 = Some x) as Hkeep.
  { intros j x Hx. rewrite get_insert by done. destruct (Z.eqb_spec j (next_id t1)); [|done].
    apply get_lt in Hx; [lia | done]. }
  assert (get (next_id t1) (insert r t1).2 = Some r) as Hnew by (by rewrite get_insert, Z.eqb_refl).
  split.
  - by apply wf_insert.
  - apply every_insert; [done | | by apply fresh_wf]. intros j x Hx.
    destruct (superseded_row j x Hx) as (x0 & Hx0 & E1 & _ & _ & [[-> _]|[-> _]]); [by apply (wfb_rows _ Hwf j)|].
    destruct (wfb_rows _ Hwf j x0 Hx0). by split.
  - apply unique_insert; [done | |].
    + apply unique_update; [apply Hwf |]. intros x Hx. by right.
    + intros k Hk j x Hx Hk'. specialize (Hn j x Hx). unfold taken in Hn. bool_to_prop. congruence.
  - apply unique_insert; [done | |].
    + apply unique_update; [apply Hwf |]. intros x Hx. by left.
    + intros k Hk j x Hx Hk'. specialize (Hn j x Hx). unfold taken, slot in *.
      assert (base_source_id x = base_source_id r /\ version x = version r) as [E1 E2] by (split; congruence).
      rewrite E1, E2, !Z.eqb_refl, orb_true_r in Hn. done.
  - assert (forall x, promoted_from_baseline_id x = Some i -> base_source_id x = base_source_id b ->
      version x = version b + 1 -> origin (insert r t1).2 x) as Hself.
    { intros x Ex E1 E2. unfold origin. rewrite Ex. exists (supersede now b).
      split; [apply Hkeep; unfold t1; by rewrite get_superseded, Z.eqb_refl |].
      by rewrite E1, E2. }
    intros j x. rewrite get_insert by done. destruct (Z.eqb_spec j (next_id t1)) as [->|Hj].
    + intros [= <-]. by apply Hself.
    + intros Hx. destruct (superseded_row j x Hx) as (x0 & Hx0 & E1 & E2 & E3 & _).
      pose proof (wfb_origin _ Hwf j x0 Hx0) as Ho. unfold origin in *. rewrite E3, E2, E1.
      destruct (promoted_from_baseline_id x0) as [k|]; [|done]. destruct Ho as (q & Hq & Q1 & Q2 & Q3).
      exists q. split; [|done]. apply Hkeep. unfold t1. rewrite get_superseded.
      destruct (Z.eqb_spec i k) as [<-|]; [congruence | done].
  - assert (forall x, base_source_id x = base_source_id b -> version x <= version r ->
      exists j a, get j (insert r t1).2 = Some a /\ baseline_state a = baseline_active /\
        base_source_id a = base_source_id x /\ version x <= version a) as Hcur.
    { intros x E Hle. exists (next_id t1), r. split; [done |]. split; [apply Hf |]. split; [congruence | done]. }
    intros j x. rewrite get_insert by done. destruct (Z.eqb_spec j (next_id t1)) as [->|Hj].
    + intros [= <-]. by apply Hcur.
    + intros Hx. destruct (superseded_row j x Hx) as (x0 & Hx0 & E1 & E2 & _).
      destruct (decide (base_source_id x0 = base_source_id b)) as [E|Hne].
      * apply Hcur; [congruence |]. pose proof (version_le_active t i j b x0 Hwf Hb Sb Hx0 E). lia.
      * destruct (wfb_current _ Hwf j x0 Hx0) as (k & a & Ha & Sa & Ea & Hle). exists k, a.
        split; [|rewrite E1, E2; done]. apply Hkeep. unfold t1. rewrite get_superseded.
        destruct (Z.eqb_spec i k) as [<-|]; [congruence | done].
Qed.
End Promote.

Lemma active_found source_id t i b :
  wf_baselines t -> get i t = Some b -> baseline_state b = baseline_active -> base_source_id b = source_id ->
  get_active_contract_baseline source_id t = Some (i, b).
Proof.
  intros Hwf Hg Hs Hsrc. destruct (get_active_contract_baseline source_id t) as [[j a]|] eqn:E.
  - apply active_baseline_spec in E as (Ha & E1 & E2); [|apply Hwf].
    assert (j = i) as -> by (eapply active_unique; eauto; congruence). congruence.
  - by destruct (no_active_baseline source_id t Hwf E i b Hg).
Qed.

(** The baseline that an acceptance of snapshot [s] promotes. *)
Definition promotion (now : datetime) (actor : string) (note : option string) (s i : Z) (b : ContractBaseline) :=
  Baseline (base_source_id b) (base_tenant_id b) s (Some i) (version b + 1) baseline_active
    (Some (source_key (base_source_id b))) actor now note None no_candidate None.

(** The candidate that the request can accept. *)
Definition acceptable (selected : option Z) (b : ContractBaseline) (snapshots : table ContractSnapshot) (s : Z) : Prop :=
  candidate_snapshot_id (base_candidate b) = Some s /\
  (selected = None \/ selected = Some 0 \/ selected = Some s) /\
  exists snap, get s snapshots = Some snap /\ snap_source_id snap = base_source_id b.

Lemma accept_spec now actor note selected source_id i b snaps t :
  wf_baselines t -> get_active_contract_baseline source_id t = Some (i, b) ->
  (exists s, acceptable selected b snaps s /\
     accept_contract_baseline now actor note selected i b snaps t =
       Ok (insert (promotion now actor note s i b) (update i (supersede now) t))) \/
  ((forall s, ~ acceptable selected b snaps s) /\
     exists m, accept_contract_baseline now actor note selected i b snaps t = Raise (ValueError m)).
Proof.
  intros Hwf Hact. apply active_baseline_spec in Hact as (Hg & _ & Hst); [|apply Hwf].
  unfold accept_contract_baseline, acceptable.
  destruct (candidate_snapshot_id (base_candidate b)) as [c|] eqn:Ec.
  2: { right. split; [by intros s [H _] |]. eexists. destruct selected as [[| |]|]; done. }
  set (chosen := match selected with Some 0 | None => Some c | Some s => Some s end).
  assert (exists s, chosen = Some s /\ (s = c <-> selected = None \/ selected = Some 0 \/ selected = Some c)) as (s & -> & Hs).
  { unfold chosen. destruct selected as [z|]; [|exists c; tauto].
    destruct z; eexists; (split; [reflexivity |]); split; intros H; try tauto; try (right; right; congruence);
      destruct H as [?|[?|?]]; congruence. }
  destruct (Z.eqb_spec s c) as [Heq|Hne]; simpl.
  2: { right. split; [|by eexists]. intros s' ([= <-] & H & _). tauto. }
  assert (selected = None \/ selected = Some 0 \/ selected = Some c) as Hsel by tauto. clear Hs. subst s.
  destruct (get c snaps) as [snap|] eqn:Esnap.
  2: { right. split; [|by eexists]. intros s' ([= <-] & _ & snap & H & _). congruence. }
  destruct (Z.eqb_spec (snap_source_id snap) (base_source_id b)) as [Hsrc|Hne]; simpl.
  2: { right. split; [|by eexists]. intros s' ([= <-] & _ & snap' & H & H'). congruence. }
  left. exists c. split; [by eauto |]. unfold insert_unique.
  pose proof (no_conflict now i b (promotion now actor note c i b) t Hwf Hg Hst) as Hn.
  unfold taken in Hn. simpl in Hn. rewrite Hn by done. done.
Qed.

Section Steps.
Context {P : Type} (dump_request : Events.NotificationDeliveryRequestedV1 -> P) (cfg : Notifications.Settings)
        (sha256_json : payload -> string) (sha256_flat : flat_schema -> string).

Lemma promotion_wf now actor note s i b t :
  wf_baselines t -> get i t = Some b -> baseline_state b = baseline_active ->
  wf_baselines (insert (promotion now actor note s i b) (update i (supersede now) t)).2.
Proof. intros Hwf Hg Hs. by apply (wf_promote now i b). Qed.

Lemma finish_baselines i drift trs run (w : world P) r w' :
  finish dump_request cfg i drift trs run w = Ok (r, w') -> baselines w' = baselines w.
Proof. unfold finish. case_match; [case_match | done]. by intros [= _ <-]. Qed.

Lemma raise_drift_baselines now source previous i d score (w : world P) r :
  raise_drift now source previous i d score w = Ok r -> baselines r.2 = baselines w.
Proof.
  unfold raise_drift. simpl. destruct (negb _); [by intros [= <-] |].
  destruct (Incidents.open_or_update_incident _ _ _ _ _ _ _) as [[tr inc]|]; [|done].
  destruct (insert_unique _ _ _) as [[o obs]|]; [|done]. by intros [= <-].
Qed.

(** The baselines after an observation. *)
Lemma create_baselines now p (w : world P) r w' :
  create_contract_snapshot dump_request cfg sha256_json sha256_flat now p w = Ok (r, w') ->
  baselines w' = baselines w \/
  (exists i b c, get_active_contract_baseline (create_source_id p) (baselines w) = Some (i, b) /\
     baselines w' = update i (with_candidate c) (baselines w)) \/
  (exists b, get_active_contract_baseline (create_source_id p) (baselines w) = None /\
     fresh_baseline b /\ version b = 1 /\ promoted_from_baseline_id b = None /\
     base_source_id b = create_source_id p /\ baselines w' = (insert b (baselines w)).2).
Proof.
  unfold create_contract_snapshot. intros H.
  destruct (get _ (sources w)) as [[source [d|]]|]; [by simplify_eq; left | | by simplify_eq; left].
  destruct (insert _ (snapshots w)) as [i snaps].
  destruct (get_active_contract_baseline _ _) as [[bi b]|] eqn:Eb.
  - right. left. destruct (get _ snaps) as [base|]; [|done]. exists bi, b.
    destruct (no_drift _).
    + exists no_candidate. split; [done |]. by apply finish_baselines in H.
    + destruct (raises_event _).
      * destruct (raise_drift _ _ _ _ _ _ _) as [[[[e trs] run] w2]|] eqn:Er; [|done].
        apply finish_baselines in H. apply raise_drift_baselines in Er. simpl in Er.
        eexists. split; [done |]. rewrite H. simpl. by rewrite Er.
      * apply finish_baselines in H. eexists. split; [done |]. exact H.
  - right. right. unfold insert_unique in H. destruct (scalar _ (baselines w)); [done |].
    eexists. split; [done |]. simplify_eq/=. by repeat split.
Qed.

Lemma contract_step_wf (w w' : world P) :
  wf_baselines (baselines w) -> contract_step dump_request cfg sha256_json sha256_flat w w' ->
  wf_baselines (baselines w').
Proof.
  intros Hwf Hs. inversion Hs as [? ? ? ? ? H|? ? ? ? ? ? ? ? ? H|? ? H]; subst.
  - apply create_baselines in H as [->|[(i & b & c & _ & ->)|(b & Hn & Hf & Hv & Hp & Hsrc & ->)]]; [done | |].
    + by apply wf_candidate.
    + apply wf_first; [done.. |]. rewrite Hsrc. by apply no_active_baseline.
  - unfold accept_baseline in H. destruct (_require_scoped_source _ _ _ _); [|done]. simpl in H.
    destruct (get_active_contract_baseline _ _) as [[i b]|] eqn:E; [|done].
    destruct (accept_spec now (Incidents._actor c) note selected source_id i b (snapshots w) _ Hwf E)
      as [(s & _ & Ha)|(_ & m & Ha)]; rewrite Ha in H; [|done].
    apply active_baseline_spec in E as (Hg & _ & Hst); [|apply Hwf].
    simpl in H. injection H as _ <-. by apply (promotion_wf now (Incidents._actor c) note s i b).
  - by rewrite H.
Qed.

Lemma contract_reachable_wf (w w' : world P) :
  baselines w = empty_table _ -> rtc (contract_step dump_request cfg sha256_json sha256_flat) w w' ->
  wf_baselines (baselines w').
Proof.
  intros H0 Hr. assert (wf_baselines (baselines w)) as Hwf.
  { rewrite H0. split; auto with py; by intros ?? H. }
  clear H0. induction Hr as [|w1 w2 w3 Hs _ IH]; [done |]. by apply IH, (contract_step_wf w1).
Qed.

(** C10: Whatever is observed and accepted, a source with a baseline has exactly one
    active baseline and no other of its baselines has a higher version; no version
    is used twice, and every baseline that is not the first observation continues
    the superseded baseline whose version precedes its own, so that the history of
    a source is a chain without gaps. *)
Theorem baseline_history (w w' : world P) :
  baselines w = empty_table _ -> rtc (contract_step dump_request cfg sha256_json sha256_flat) w w' ->
  (forall i r, get i (baselines w') = Some r ->
     exists j a, get j (baselines w') = Some a /\ baseline_state a = baseline_active /\
       base_source_id a = base_source_id r /\ version r <= version a /\
       (forall k b, get k (baselines w') = Some b -> baseline_state b = baseline_active ->
          base_source_id b = base_source_id r -> k = j)) /\
  (forall i j r s, get i (baselines w') = Some r -> get j (baselines w') = Some s ->
     base_source_id r = base_source_id s -> version r = version s -> i = j) /\
  (forall i r, get i (baselines w') = Some r -> origin (baselines w') r).
Proof.
  intros H0 Hr. pose proof (contract_reachable_wf _ _ H0 Hr) as Hwf. split; [|split].
  - intros i r Hg. destruct (wfb_current _ Hwf i r Hg) as (j & a & Ha & Sa & Ea & Hle).
    exists j, a. repeat (split; [done |]). intros k b Hk Sb Eb.
    eapply active_unique; eauto. congruence.
  - intros i j r s Hi Hj E1 E2. apply (wfb_slot _ Hwf i j r s (base_source_id r, version r)); [done | done | done |].
    unfold slot. congruence.
  - apply (wfb_origin _ Hwf).
Qed.

(** The acceptance of a candidate never fails on the unique indexes: it promotes
    exactly the current candidate of the active baseline, when the request names no
    other and its snapshot exists and belongs to the source; the promoted baseline
    is then the active one, one version up and without a candidate, the old one is
    kept as superseded and no other baseline changes.  Otherwise the request is
    refused with a conflict and the baselines are left alone. *)
Theorem accept_promotes roles now source_id note selected c (w w' : world P) :
  baselines w = empty_table _ -> rtc (contract_step dump_request cfg sha256_json sha256_flat) w w' ->
  _require_scoped_source roles source_id c w' = Ok tt ->
  match get_active_contract_baseline source_id (baselines w') with
  | None => accept_baseline roles now source_id note selected c w' =
              Raise (not_found "Contract baseline not established.")
  | Some (i, b) =>
      (exists s j w2, acceptable selected b (snapshots w') s /\
         accept_baseline roles now source_id note selected c w' = Ok (j, w2) /\
         get_active_contract_baseline source_id (baselines w2) =
           Some (j, promotion now (Incidents._actor c) note s i b) /\
         get i (baselines w2) = Some (supersede now b) /\
         (forall k, k <> i -> k <> j -> get k (baselines w2) = get k (baselines w'))) \/
      ((forall s, ~ acceptable selected b (snapshots w') s) /\
         exists m, accept_baseline roles now source_id note selected c w' = Raise (Http (Incidents.HTTP 409 m)))
  end.
Proof.
  intros H0 Hr Hreq. pose proof (contract_reachable_wf _ _ H0 Hr) as Hwf. unfold accept_baseline.
  rewrite Hreq. simpl. destruct (get_active_contract_baseline _ _) as [[i b]|] eqn:E; [|done].
  destruct (accept_spec now (Incidents._actor c) note selected source_id i b (snapshots w') _ Hwf E)
    as [(s & Hacc & Ha)|(Hno & m & Ha)]; rewrite Ha; [left | right; split; [done | by exists m]].
  apply active_baseline_spec in E as (Hg & Hsrc & Hst); [|apply Hwf].
  set (r := promotion _ _ _ _ _ _) in *. set (t1 := update i (supersede now) (baselines w')) in *.
  assert (wf_table t1) as Ht1 by apply wf_update, Hwf.
  exists s, (next_id t1), (with_baselines (insert r t1).2 w').
  assert (wf_baselines (insert r t1).2) as Hwf2 by by apply promotion_wf.
  split; [done |]. split; [done |]. unfold with_baselines. cbn [baselines]. split; [|split].
  - apply active_found; [done | by rewrite get_insert, Z.eqb_refl | done | done].
  - rewrite get_insert by done.
    assert (get i t1 = Some (supersede now b)) as Hi by (unfold t1; by rewrite get_update, Z.eqb_refl, Hg).
    destruct (Z.eqb_spec i (next_id t1)) as [Heq|]; [|done]. apply get_lt in Hi; [lia | done].
  - intros k Hk Hkj. rewrite get_insert by done.
    destruct (Z.eqb_spec k (next_id t1)); [done |]. unfold t1. rewrite get_update.
    destruct (Z.eqb_spec i k); [congruence | done].
Qed.
End Steps.
End BaselineTheorems.

(** ** Theorems: the confirmation of a candidate *)

Module ConfirmationTheorems.
Import Drift BaselineTheorems.

Section Confirmation.
Context {P : Type} (dump_request : Events.NotificationDeliveryRequestedV1 -> P) (cfg : Notifications.Settings)
        (sha256_json : payload -> string) (sha256_flat : flat_schema -> string)
        (source_id : Z) (source : Incidents.SourceProfile) (baseline_flat current_flat : flat_schema).

Abbreviation create := (create_contract_snapshot dump_request cfg sha256_json sha256_flat).

(** The candidate after [n] consecutive observations of [current_flat]. *)
Definition seen (n : Z) (c : candidate) : Prop :=
  if n =? 0 then candidate_schema_fingerprint c <> Some (sha256_flat current_flat)
  else candidate_schema_fingerprint c = Some (sha256_flat current_flat) /\
       candidate_observation_count c = n /\
       (is_Some (candidate_drift_event_id c) <-> CONTRACT_BASELINE_CONFIRMATION_POLLS <= n).

(** A live source whose active baseline accepted [baseline_flat] and has seen
    [current_flat] [n] times in a row. *)
Record streak (n : Z) (w : world P) : Prop := {
  streak_source : get source_id (sources w) = Some (source, None);
  streak_baselines : wf_table (baselines w);
  streak_snapshots : wf_table (snapshots w);
  streak_candidate : exists i b base,
    get_active_contract_baseline source_id (baselines w) = Some (i, b) /\
    get (baseline_snapshot_id b) (snapshots w) = Some base /\
    _flatten_schema (payload_schema base) EmptyString = baseline_flat /\ seen n (base_candidate b)
}.

(** An observation of the drifting structure. *)
Definition observes (p : ContractSnapshotCreate) : Prop :=
  create_source_id p = source_id /\ _flatten_schema (create_payload p) EmptyString = current_flat.

Lemma finish_spec i drift trs run (w : world P) r w' :
  finish dump_request cfg i drift trs run w = Ok (r, w') ->
  r = Some (i, drift, Effects drift run trs) /\ sources w' = sources w /\ snapshots w' = snapshots w /\
  baselines w' = baselines w /\ drift_events w' = drift_events w /\ observations w' = observations w.
Proof. unfold finish. case_match; [case_match | done]. by intros [= <- <-]. Qed.

(** Whether the drift asks for an incident, and so for an observation of its own. *)
Definition responds : bool :=
  let d := _diff_contract baseline_flat current_flat in
  _requires_incident_response (_event_type d) (_severity (_event_type d) (_compatibility_score d)).

(** No observation of the source has that moment, when the drift needs one. *)
Definition free (now : datetime) (w : world P) : Prop :=
  responds = true -> scalar (same_moment (Incidents.source_pk source) now) (observations w) = None.

Lemma raise_drift_spec now src previous i d score (w : world P) e trs run w' :
  raise_drift now src previous i d score w = Ok (e, trs, run, w') ->
  sources w' = sources w /\ snapshots w' = snapshots w /\ baselines w' = baselines w /\
  (exists ev, (e, drift_events w') = insert ev (drift_events w)) /\
  (_requires_incident_response (_event_type d) (_severity (_event_type d) score) = true ->
   scalar (same_moment (Incidents.source_pk src) now) (observations w) = None).
Proof.
  unfold raise_drift. simpl. destruct (_requires_incident_response _ _); simpl;
    [|intros [= <- <- <- <-]; simpl; naive_solver].
  destruct (Incidents.open_or_update_incident _ _ _ _ _ _ _) as [[tr inc]|]; [|done].
  unfold insert_unique. destruct (scalar _ (observations w)); [done |].
  intros [= <- <- <- <-]. simpl. eauto 10.
Qed.

Lemma observe_seen n snapshot now c :
  0 <= n -> seen n c ->
  let c' := observe_candidate (sha256_flat current_flat) snapshot now c in
  candidate_schema_fingerprint c' = Some (sha256_flat current_flat) /\
  candidate_observation_count c' = n + 1 /\
  (raises_event c' = true <-> n + 1 = CONTRACT_BASELINE_CONFIRMATION_POLLS) /\
  (is_Some (candidate_drift_event_id c') <-> CONTRACT_BASELINE_CONFIRMATION_POLLS <= n).
Proof.
  intros Hn Hs. unfold seen in Hs. unfold observe_candidate, raises_event.
  change CONTRACT_BASELINE_CONFIRMATION_POLLS with 3 in *.
  destruct (Z.eqb_spec n 0) as [->|Hne].
  - rewrite decide_False by done. simpl. repeat split; done.
  - destruct Hs as (E & Hc & He). rewrite decide_True by done. simpl.
    split; [done |]. split; [lia |]. split; [|done]. rewrite andb_true_iff, Z.leb_le, Hc.
    unfold Messaging.is_none. destruct (candidate_drift_event_id c) as [d|].
    + assert (3 <= n) by (apply He; by eexists). split; [by intros [_ ?] | lia].
    + assert (~ 3 <= n) by (intros H; apply He in H; by destruct H). split; [lia | intros; split; [lia | done]].
Qed.

(** The world after an observation of a structure that drifts, with its candidate
    and, when it is confirmed, its event. *)
Lemma scalar_set_candidate i b c (t : table ContractBaseline) :
  wf_table t -> get_active_contract_baseline source_id t = Some (i, b) ->
  get_active_contract_baseline source_id (update i (with_candidate c) t) = Some (i, with_candidate c b).
Proof.
  intros Hwf H. apply scalar_update; [done | exact H |].
  apply scalar_Some in H as [_ H]; [|done]. exact H.
Qed.

Lemma observe_step n now p (w w' : world P) r :
  0 <= n -> streak n w -> observes p -> no_drift (_diff_contract baseline_flat current_flat) = false ->
  create now p w = Ok (r, w') ->
  streak (n + 1) w' /\
  exists i drift eff, r = Some (i, drift, eff) /\
    (is_Some drift <-> n + 1 = CONTRACT_BASELINE_CONFIRMATION_POLLS) /\
    length (rows (drift_events w')) = (length (rows (drift_events w)) + match drift with Some _ => 1 | None => 0 end)%nat /\
    (n + 1 = CONTRACT_BASELINE_CONFIRMATION_POLLS -> free now w) /\
    (n + 1 <> CONTRACT_BASELINE_CONFIRMATION_POLLS -> observations w' = observations w).
Proof.
  intros Hn [Hsrc Hbs Hss (bi & b & base & Hact & Hbase & Hflat & Hseen)] [Hp Hcur] Hdrift H.
  unfold create_contract_snapshot in H. rewrite Hp, Hsrc, Hact in H.
  set (row := Snapshot _ _ _ _ _ _ _) in H.
  change (insert row (snapshots w)) with (next_id (snapshots w), (insert row (snapshots w)).2) in H.
  cbv iota beta in H. set (snaps := (insert row (snapshots w)).2) in H.
  assert (wf_table snaps) as Hss1 by by apply wf_insert.
  assert (get (baseline_snapshot_id b) snaps = Some base) as Hb1.
  { unfold snaps. rewrite get_insert by done. destruct (Z.eqb_spec (baseline_snapshot_id b) (next_id (snapshots w))) as [E|]; [|done].
    apply get_lt in Hbase; [lia | done]. }
  rewrite Hb1, Hcur, Hflat in H. unfold free, responds. set (d := _diff_contract _ _) in *. clearbody d.
  rewrite Hdrift in H. cbv beta iota zeta in H.
  destruct (observe_seen n (next_id (snapshots w)) now (base_candidate b) Hn Hseen) as (Hfp & Hcount & Hraise & Hev).
  set (c := observe_candidate _ _ _ _) in *. set (score := _compatibility_score _) in *.
  assert (forall c' w2, sources w2 = sources w -> baselines w2 = update bi (with_candidate c') (baselines w) ->
    snapshots w2 = update (next_id (snapshots w)) (set_score score) snaps -> seen (n + 1) c' -> streak (n + 1) w2)
    as Hstreak.
  { intros c' w2 E1 E2 E3 Hc'. split.
    - by rewrite E1.
    - rewrite E2. by apply wf_update.
    - rewrite E3. by apply wf_update.
    - exists bi, (with_candidate c' b). rewrite E2, E3. simpl. rewrite get_update, Hb1.
      exists (if next_id (snapshots w) =? baseline_snapshot_id b then set_score score base else base).
      split; [by apply scalar_set_candidate |].
      destruct (next_id (snapshots w) =? baseline_snapshot_id b); by repeat split. }
  assert (forall ev, seen (n + 1) (Candidate (candidate_snapshot_id c) (candidate_schema_fingerprint c)
      (candidate_observation_count c) ev (candidate_first_seen_at c) (candidate_last_seen_at c)) <->
      (is_Some ev <-> 3 <= n + 1)) as Hnext.
  { intros ev. unfold seen. destruct (Z.eqb_spec (n + 1) 0); [lia |]. simpl.
    change CONTRACT_BASELINE_CONFIRMATION_POLLS with 3. tauto. }
  change CONTRACT_BASELINE_CONFIRMATION_POLLS with 3 in *.
  destruct (raises_event c) eqn:Er.
  - destruct (raise_drift _ _ _ _ _ _ _) as [[[[e trs] run] w2]|] eqn:Erd; [|done]. simpl in H.
    apply raise_drift_spec in Erd as (E1 & E2 & E3 & (ev & Eev) & Efree).
    apply finish_spec in H as (-> & F1 & F2 & F3 & F4 & F5). simpl in *.
    assert (n + 1 = 3) as H3 by by apply Hraise. split.
    + apply (Hstreak (set_event e c)); [congruence | by rewrite F3, E3 | congruence |].
      unfold set_event. apply Hnext. split; [lia | by eexists].
    + eexists _, _, _. split; [done |]. split; [split; [done | by eexists] |].
      rewrite F4. injection Eev as _ ->. simpl. split; [by rewrite length_app |]. split; [|done].
      intros _. exact Efree.
  - apply finish_spec in H as (-> & F1 & F2 & F3 & F4 & F5). simpl in *.
    assert (n + 1 <> 3) as H3 by (intros E; apply Hraise in E; congruence). split.
    + apply (Hstreak c); [done | done | done |].
      replace c with (Candidate (candidate_snapshot_id c) (candidate_schema_fingerprint c)
        (candidate_observation_count c) (candidate_drift_event_id c) (candidate_first_seen_at c)
        (candidate_last_seen_at c)) by by destruct c.
      apply Hnext. rewrite Hev. lia.
    + eexists _, _, _. split; [done |]. split; [split; [by intros [] | lia] |].
      split; [rewrite F4; lia |]. split; [done |]. intros _. exact F5.
Qed.

Lemma finish_direct i drift trs run (w : world P) :
  Lifecycle.broker_delivery cfg = false -> Incidents.wf (incidents w) ->
  exists r w', finish dump_request cfg i drift trs run w = Ok (r, w') /\ Incidents.wf (incidents w').
Proof.
  intros Hb Hwf. unfold finish, Lifecycle.enqueue_incident_notification_requests. rewrite Hb. simpl. eauto.
Qed.

Lemma raise_drift_total now src previous i d score (w : world P) :
  Incidents.wf (incidents w) ->
  (_requires_incident_response (_event_type d) (_severity (_event_type d) score) = true ->
   scalar (same_moment (Incidents.source_pk src) now) (observations w) = None) ->
  exists e trs run w', raise_drift now src previous i d score w = Ok (e, trs, run, w') /\
    Incidents.wf (incidents w').
Proof.
  intros Hwf Hfree. unfold raise_drift. simpl.
  destruct (_requires_incident_response _ _); simpl; [|eexists _, _, _, _; by split].
  destruct (IncidentTheorems.open_or_update_total now src "drift" (_severity (_event_type d) score)
    (_summary (_event_type d) d) (JObj ([("drift_event_id", JInt (next_id (drift_events w)));
       ("event_type", JStr (_event_type d)); ("compatibility_score", JFloat score)] ++ diff_json d))
    (incidents w) Hwf) as (tr & t & Ho & Ht & _).
  simpl in Ho. rewrite Ho. unfold insert_unique. rewrite (Hfree eq_refl). eexists _, _, _, _. by split.
Qed.

Lemma observe_total n now p (w : world P) :
  0 <= n -> Lifecycle.broker_delivery cfg = false -> Incidents.wf (incidents w) -> streak n w -> observes p ->
  (n + 1 = CONTRACT_BASELINE_CONFIRMATION_POLLS -> free now w) ->
  exists r w', create now p w = Ok (r, w') /\ Incidents.wf (incidents w').
Proof.
  intros Hn Hb Hwf [Hsrc Hbs Hss (bi & b & base & Hact & Hbase & Hflat & Hseen)] [Hp Hcur] Hfree.
  unfold create_contract_snapshot. rewrite Hp, Hsrc, Hact.
  set (row := Snapshot _ _ _ _ _ _ _).
  change (insert row (snapshots w)) with (next_id (snapshots w), (insert row (snapshots w)).2).
  cbv iota beta. set (snaps := (insert row (snapshots w)).2).
  assert (get (baseline_snapshot_id b) snaps = Some base) as ->.
  { unfold snaps. rewrite get_insert by done. destruct (Z.eqb_spec (baseline_snapshot_id b) (next_id (snapshots w))) as [E|]; [|done].
    apply get_lt in Hbase; [lia | done]. }
  rewrite Hcur, Hflat. unfold free, responds in Hfree.
  set (d := _diff_contract _ _) in *. clearbody d. cbv beta iota zeta.
  destruct (no_drift d); [by apply finish_direct |].
  destruct (raises_event _) eqn:Er; [|by apply finish_direct].
  apply (observe_seen n _ now _ Hn Hseen) in Er.
  set (w1 := World _ _ _ _ _ _ _ _).
  destruct (raise_drift_total now source (baseline_snapshot_id b) (next_id (snapshots w)) d (_compatibility_score d) w1 Hwf (Hfree Er))
    as (e & trs & run & w2 & -> & Hwf2). simpl. by apply finish_direct.
Qed.

(** The moment of the observation that confirms the candidate is free. *)
Definition confirmed_free (n : Z) (calls : list (datetime * ContractSnapshotCreate)) (w : world P) : Prop :=
  forall k now p, calls !! k = Some (now, p) ->
    n + Z.of_nat k + 1 = CONTRACT_BASELINE_CONFIRMATION_POLLS -> free now w.

Lemma confirmed_free_cons n now p calls (w w' : world P) :
  (n + 1 <> CONTRACT_BASELINE_CONFIRMATION_POLLS -> observations w' = observations w) ->
  (confirmed_free n ((now, p) :: calls) w <->
   (n + 1 = CONTRACT_BASELINE_CONFIRMATION_POLLS -> free now w) /\ confirmed_free (n + 1) calls w').
Proof.
  intros Hobs.
  assert (forall k now0, n + 1 + Z.of_nat k + 1 = CONTRACT_BASELINE_CONFIRMATION_POLLS -> free now0 w <-> free now0 w')
    as Hsame by (intros k now0 E; unfold free; rewrite Hobs by lia; done).
  split.
  - intros H. split; [intros E; apply (H 0%nat now p eq_refl); lia |].
    intros k now' p' Hk E. apply (Hsame k now' E), (H (S k) now' p' Hk). lia.
  - intros [H0 H] [|k] now' p' Hk E; simpl in Hk; [injection Hk as <- <-; apply H0; lia |].
    assert (n + 1 + Z.of_nat k + 1 = CONTRACT_BASELINE_CONFIRMATION_POLLS) as E' by lia.
    apply (Hsame k now' E'), (H k now' p' Hk E').
Qed.

Lemma observe_all_streak calls : forall n (w w' : world P) outs,
  0 <= n -> streak n w -> Forall (fun call => observes call.2) calls ->
  no_drift (_diff_contract baseline_flat current_flat) = false ->
  observe_all dump_request cfg sha256_json sha256_flat calls w = Ok (outs, w') ->
  streak (n + Z.of_nat (length calls)) w' /\
  length outs = length calls /\
  (forall k o, outs !! k = Some o -> is_Some o <-> n + Z.of_nat k + 1 = CONTRACT_BASELINE_CONFIRMATION_POLLS) /\
  length (rows (drift_events w')) = (length (rows (drift_events w)) + length (omap id outs))%nat /\
  confirmed_free n calls w.
Proof.
  induction calls as [|[now p] calls IH]; intros n w w' outs Hn Hs Hall Hdrift H.
  - simpl in H. injection H as <- <-. simpl. rewrite Z.add_0_r.
    split; [done |]. split; [done |]. split; [done |]. split; [lia |]. by intros k now p Hk.
  - apply Forall_cons in Hall as [Hp Hall]. simpl in H.
    destruct (create now p w) as [[r w1]|] eqn:Ec; [|done]. simpl in H.
    destruct (observe_step n now p w w1 r Hn Hs Hp Hdrift Ec) as (Hs1 & i & drift & eff & -> & Hd & Hlen & Hfree & Hobs).
    destruct (observe_all _ _ _ _ calls w1) as [[rest w2]|] eqn:Eo; [|done]. simpl in H. injection H as <- <-.
    destruct (IH (n + 1) w1 w2 rest ltac:(lia) Hs1 Hall Hdrift Eo) as (Hs2 & L1 & L2 & L3 & L4).
    replace (n + Z.of_nat (length ((now, p) :: calls))) with (n + 1 + Z.of_nat (length calls)) by (simpl; lia).
    split; [done |]. split; [simpl; by rewrite L1 |]. split.
    + intros [|k] o Hk; simpl in Hk.
      * injection Hk as <-. rewrite Hd. simpl. rewrite Z.add_0_r. done.
      * rewrite (L2 k o Hk), Nat2Z.inj_succ. lia.
    + change (omap id (drift :: rest))
        with (match drift with Some e => e :: omap id rest | None => omap id rest end).
      split; [rewrite L3, Hlen; destruct drift; simpl length; lia |].
      by apply (confirmed_free_cons n now p calls w w1).
Qed.

Lemma observe_all_total calls : forall n (w : world P),
  0 <= n -> Lifecycle.broker_delivery cfg = false -> Incidents.wf (incidents w) -> streak n w ->
  Forall (fun call => observes call.2) calls ->
  no_drift (_diff_contract baseline_flat current_flat) = false -> confirmed_free n calls w ->
  exists outs w', observe_all dump_request cfg sha256_json sha256_flat calls w = Ok (outs, w').
Proof.
  induction calls as [|[now p] calls IH]; intros n w Hn Hb Hwf Hs Hall Hdrift Hfree; [by eexists _, _ |].
  apply Forall_cons in Hall as [Hp Hall]. simpl.
  destruct (observe_total n now p w Hn Hb Hwf Hs Hp) as (r & w1 & Ec & Hwf1).
  { intros E. apply (Hfree 0%nat now p eq_refl). lia. }
  rewrite Ec. simpl.
  destruct (observe_step n now p w w1 r Hn Hs Hp Hdrift Ec) as (Hs1 & i & drift & eff & _ & _ & _ & _ & Hobs).
  apply (confirmed_free_cons n now p calls w w1 Hobs) in Hfree as [_ Hfree].
  destruct (IH (n + 1) w1 ltac:(lia) Hb Hwf1 Hs1 Hall Hdrift Hfree) as (outs & w2 & ->). simpl. by eexists _, _.
Qed.

(** A list of which at most one entry, at a known place, is set. *)
Lemma count_single {A} (l : list (option A)) : forall k,
  (forall j o, l !! j = Some o -> is_Some o <-> j = k) ->
  length (omap id l) = if decide (k < length l)%nat then 1%nat else 0%nat.
Proof.
  induction l as [|o l IH]; intros k Hl; [by rewrite decide_False by (simpl; lia) |].
  change (omap id (o :: l)) with (match o with Some e => e :: omap id l | None => omap id l end).
  cbn [length].
  assert (is_Some o <-> 0%nat = k) as H0 by by apply (Hl 0%nat).
  assert (forall j o', l !! j = Some o' -> is_Some o' <-> S j = k) as Hr by (intros j o' Hj; by apply (Hl (S j))).
  destruct k as [|k].
  - destruct (proj2 H0 eq_refl) as [d ->]. simpl.
    rewrite (IH (length l)); [repeat case_decide; lia |].
    intros j o' Hj. rewrite (Hr j o' Hj). apply lookup_lt_Some in Hj. lia.
  - destruct o as [d|]; [assert (0%nat = S k) by (apply H0; by eexists); lia |].
    rewrite (IH k); [repeat case_decide; lia |]. intros j o' Hj. rewrite (Hr j o' Hj). lia.
Qed.

(** C7: On the tables the models declare, a source whose payloads keep showing one
    structure that drifts from its baseline gets exactly one drift event, at the
    observation that confirms the candidate: none before, and none after however long
    the streak goes on, nor when a different structure had been the candidate before.
    With direct delivery of notifications the observations all succeed exactly when
    the unique constraint of the observations lets the drift record its own: when the
    drift asks for no incident, or the source has no observation of the very moment of
    the confirming call. *)
Theorem confirmed_drift_raised_once calls (w : world P) :
  streak 0 w -> Forall (fun call => observes call.2) calls ->
  no_drift (_diff_contract baseline_flat current_flat) = false ->
  (forall outs w', observe_all dump_request cfg sha256_json sha256_flat calls w = Ok (outs, w') ->
     length outs = length calls /\
     (forall k o, outs !! k = Some o -> is_Some o <-> Z.of_nat k + 1 = CONTRACT_BASELINE_CONFIRMATION_POLLS) /\
     length (rows (drift_events w')) = (length (rows (drift_events w)) +
       if (CONTRACT_BASELINE_CONFIRMATION_POLLS <=? Z.of_nat (length calls))%Z then 1 else 0)%nat) /\
  (Lifecycle.broker_delivery cfg = false -> Incidents.wf (incidents w) ->
     (exists outs w', observe_all dump_request cfg sha256_json sha256_flat calls w = Ok (outs, w')) <->
     (forall now p, calls !! 2%nat = Some (now, p) -> responds = true ->
        scalar (same_moment (Incidents.source_pk source) now) (observations w) = None)).
Proof.
  intros Hs Hall Hdrift. split.
  - intros outs w' H.
    destruct (observe_all_streak calls 0 w w' outs ltac:(lia) Hs Hall Hdrift H) as (_ & L1 & L2 & L3 & _).
    split; [done |]. split; [exact L2 |]. rewrite L3. f_equal.
    clear - L1 L2. change CONTRACT_BASELINE_CONFIRMATION_POLLS with 3 in *.
    rewrite (count_single outs 2) by (intros j o Hj; rewrite (L2 j o Hj); lia). rewrite L1.
    destruct (Z.leb_spec 3 (Z.of_nat (length calls))); case_decide; lia.
  - intros Hb Hwf. split.
    + intros (outs & w' & H) now p Hk.
      destruct (observe_all_streak calls 0 w w' outs ltac:(lia) Hs Hall Hdrift H) as (_ & _ & _ & _ & L4).
      exact (L4 2%nat now p Hk eq_refl).
    + intros Hfree. apply (observe_all_total calls 0 w); [lia | done.. |].
      intros k now p Hk E. change CONTRACT_BASELINE_CONFIRMATION_POLLS with 3 in E.
      assert (k = 2%nat) as -> by lia. exact (Hfree now p Hk).
Qed.
End Confirmation.
End ConfirmationTheorems.

(** ** Witnesses *)

Module DriftWitnesses.
Import Drift BaselineTheorems ConfirmationTheorems.

Definition direct : Notifications.Settings := {|
  Notifications.notifications_enabled := true; Notifications.notification_delivery_mode := Notifications.direct;
  Notifications.broker_enabled := false;
  Notifications.notification_default_channels := "slack"; Notifications.notification_slack_webhook_url := None;
  Notifications.notification_telegram_bot_token := None; Notifications.notification_telegram_chat_id := None;
  Notifications.notification_webhook_url := None; Notifications.notification_email_provider := "resend";
  Notifications.notification_resend_api_key := None; Notifications.notification_email_from := None;
  Notifications.notification_email_to := None |}.

(** Injective stand-ins for the digests. *)
Definition render_flat (m : flat_schema) : string :=
  String.concat ";" (map (fun '(k, v) => k +:+ "=" +:+ v) (map_to_list m)).
Definition render_json (p : payload) : string := render_flat (_flatten_schema p EmptyString).

Definition api : Incidents.SourceProfile := IncidentWitnesses.api.
Definition original : payload := [("id", JInt 1); ("tags", JList [JStr "a"; JNull]); ("name", JStr "x")].
Definition renamed : payload := [("id", JInt 2); ("tags", JList []); ("title", JStr "x")].

Definition start : world unit :=
  World (insert (api, None) (Table [] 3)).2 (empty_table _) (empty_table _) (empty_table _) (empty_table _)
    (empty_table _) (empty_table _) (empty_table _).

Definition observe := create_contract_snapshot (P := unit) (fun _ => tt) direct render_json render_flat.
Definition observed_world (now : datetime) (p : payload) (w : world unit) : world unit :=
  match observe now (Create 3 p None None) w with Ok (_, w) => w | Raise _ => w end.

Definition first : world unit := observed_world 10 original start.
Definition second : world unit := observed_world 20 renamed first.

Example drift_of_rename :
  let d := _diff_contract (_flatten_schema original EmptyString) (_flatten_schema renamed EmptyString) in
  d = (["title"], ["name"], []) /\ _event_type d = "breaking" /\
  _severity (_event_type d) (_compatibility_score d) = "medium" /\
  _summary (_event_type d) d = "breaking drift detected (added=1, removed=1).".
Proof. vm_compute. by repeat split. Qed.

Definition admin_roles (_ _ : string) : list string := ["admin"].
Definition operator : Incidents.claims := Incidents.Claims (Some "ops") None.

Definition accepted : world unit :=
  match accept_baseline admin_roles 30 3 None None operator second with Ok (_, w) => w | Raise _ => second end.

Lemma second_reachable :
  rtc (contract_step (P := unit) (fun _ => tt) direct render_json render_flat) start second.
Proof.
  eapply rtc_l; [|apply rtc_once].
  - apply (step_observe _ _ _ _ 10 (Create 3 original None None) start (Some (1, None, Effects None None [])) first).
    vm_compute. reflexivity.
  - apply (step_observe _ _ _ _ 20 (Create 3 renamed None None) first (Some (2, None, Effects None None [])) second).
    vm_compute. reflexivity.
Qed.

Lemma accepted_reachable :
  rtc (contract_step (P := unit) (fun _ => tt) direct render_json render_flat) start accepted.
Proof.
  eapply rtc_r; [apply second_reachable |].
  apply (step_accept _ _ _ _ admin_roles 30 3 None None operator second 2 accepted). vm_compute. reflexivity.
Qed.

Lemma baseline_history_witness :
  map (fun x => (version x.2, baseline_state x.2)) (rows (baselines accepted)) =
    [(1, superseded); (2, baseline_active)] /\
  forall i r, get i (baselines accepted) = Some r -> origin (baselines accepted) r.
Proof.
  split; [vm_compute; reflexivity |].
  exact (proj2 (proj2 (baseline_history (P := unit) (fun _ => tt) direct render_json render_flat start accepted
    eq_refl accepted_reachable))).
Defined.

Lemma accept_promotes_witness :
  exists s j w2, candidate_snapshot_id (base_candidate (match get 1 (baselines second) with Some b => b | None =>
      promotion 0 EmptyString None 0 0 (Baseline 0 None 0 None 0 superseded None EmptyString 0 None None no_candidate None) end)) = Some s /\
    accept_baseline admin_roles 30 3 None None operator second = Ok (j, w2).
Proof.
  pose proof (accept_promotes (P := unit) (fun _ => tt) direct render_json render_flat admin_roles 30 3 None None
    operator start second eq_refl second_reachable) as H.
  assert (_require_scoped_source admin_roles 3 operator second = Ok tt) as Hreq by (vm_compute; reflexivity).
  specialize (H Hreq).
  destruct (get_active_contract_baseline 3 (baselines second)) as [[i b]|] eqn:E; [|vm_compute in E; discriminate E].
  destruct H as [(s & j & w2 & Hs & Ha & _)|(Hno & _)].
  - exists s, j, w2. split; [|exact Ha]. vm_compute in E. injection E as <- <-. exact (proj1 Hs).
  - exfalso. apply (Hno 2). vm_compute in E. injection E as <- <-. split; [reflexivity |].
    split; [left; reflexivity | eexists; split; [vm_compute; reflexivity | vm_compute; reflexivity]].
Defined.

Definition polls : list (datetime * ContractSnapshotCreate) :=
  map (fun now => (now, Create 3 renamed None None)) [20; 30; 40; 50].

Lemma confirmed_drift_raised_once_witness :
  exists outs w', observe_all (P := unit) (fun _ => tt) direct render_json render_flat polls first = Ok (outs, w') /\
    outs = [None; None; Some 1; None] /\ length (rows (drift_events w')) = 1%nat.
Proof.
  destruct (confirmed_drift_raised_once (P := unit) (fun _ => tt) direct render_json render_flat 3 api
    (_flatten_schema original EmptyString) (_flatten_schema renamed EmptyString) polls first) as [Hone Htotal].
  - split; [vm_compute; reflexivity | vm_compute; split; repeat constructor .. |].
    exists 1. eexists _, _. split; [vm_compute; reflexivity |]. split; [vm_compute; reflexivity |].
    split; [vm_compute; reflexivity | vm_compute; discriminate].
  - unfold polls. simpl map. repeat (apply Forall_cons; split; [split; reflexivity |]). apply Forall_nil. exact I.
  - vm_compute. reflexivity.
  - destruct Htotal as [_ Htotal]; [reflexivity | |].
    { split; [vm_compute; split; constructor | by intros ?? ? | by intros ????? ?]. }
    destruct Htotal as (outs & w' & H); [by intros now p _ _; vm_compute |].
    exists outs, w'. split; [exact H |]. destruct (Hone outs w' H) as (_ & _ & Hn). split; [|exact Hn].
    vm_compute in H. injection H as <- _. reflexivity.
Defined.
End DriftWitnesses.
