(* ===== verification/AbuseDetection.v ===== *)
(** * Abuse detection (core/security/abuse_detection.py, repositories/abuse_detection.py)

    The two detectors, which are pure, the workflow of the signals they raise and
    the summary of the open ones.  The signals are the rows of [security_events]
    whose category is [abuse]; the audit trail shares the table and is not
    written here. *)

From S2P Require Import Prelude Db.

Module Abuse.

(** ** Constants *)

Definition ABUSE_SIGNAL_NOISY_SOURCE : string := "noisy_source".
Definition ABUSE_SIGNAL_SUSPICIOUS_KEY : string := "suspicious_key".
Definition ABUSE_ACTOR_API_KEY : string := "api_key".
Definition ABUSE_ACTOR_SOURCE_ID : string := "source_id".
Definition ABUSE_SEVERITY_LOW : string := "low".
Definition ABUSE_SEVERITY_MEDIUM : string := "medium".
Definition ABUSE_SEVERITY_HIGH : string := "high".
Definition ABUSE_SEVERITY_CRITICAL : string := "critical".
Definition ABUSE_RULE_QUOTA_EXCEEDED : string := "quota_exceeded".
Definition ABUSE_RULE_AUTH_FAILURE_SPIKE : string := "auth_failure_spike".
Definition ABUSE_RULE_MULTI_IP_KEY : string := "multi_ip_key".
Definition ABUSE_RULE_ERROR_RATE_SPIKE : string := "error_rate_spike".
Definition ABUSE_ACTION_LOGGED : string := "logged".
Definition ABUSE_ACTION_ALERTED : string := "alerted".

Definition ABUSE_NOISY_SOURCE_MULTIPLIER_MEDIUM : Q := 2.
Definition ABUSE_NOISY_SOURCE_MULTIPLIER_HIGH : Q := 5.
Definition ABUSE_NOISY_SOURCE_MULTIPLIER_CRITICAL : Q := 10.
Definition ABUSE_NOISY_SOURCE_DEFAULT_QUOTA : Z := 60.
Definition ABUSE_KEY_AUTH_FAILURE_THRESHOLD_MEDIUM : Z := 5.
Definition ABUSE_KEY_AUTH_FAILURE_THRESHOLD_HIGH : Z := 20.
Definition ABUSE_KEY_DISTINCT_IP_THRESHOLD_MEDIUM : Z := 5.
Definition ABUSE_KEY_DISTINCT_IP_THRESHOLD_HIGH : Z := 10.
Definition ABUSE_KEY_ERROR_RATE_THRESHOLD_MEDIUM : Q := 1 # 2.
Definition ABUSE_KEY_ERROR_RATE_THRESHOLD_HIGH : Q := 9 # 10.
Definition ABUSE_ACTOR_ID_MAX_LEN : nat := 255.
Definition ABUSE_NOTES_MAX_LEN : nat := 1024.

(** ** The payload of a signal *)

Record AbuseSignalCreate := Signal {
  signal_type : string;
  actor_type : string;
  actor_id : string;
  severity : string;
  detection_rule : string;
  evidence : json;
  action_taken : string;
  tenant_id : option Z;
  ip_address : option string;
  notes : option string
}.

Inductive ValidationError := validation_error.

Definition length_between (lo hi : nat) (s : string) : bool :=
  ((lo <=? String.length s) && (String.length s <=? hi))%nat.

Definition optional {A} (valid : A -> bool) (o : option A) : bool :=
  match o with Some a => valid a | None => true end.

Definition valid_signal (p : AbuseSignalCreate) : bool :=
  length_between 1 64 (signal_type p) && length_between 1 32 (actor_type p) &&
  length_between 1 ABUSE_ACTOR_ID_MAX_LEN (actor_id p) && length_between 1 16 (severity p) &&
  length_between 1 64 (detection_rule p) && length_between 1 32 (action_taken p) &&
  optional (fun t => 1 <=? t) (tenant_id p) && optional (length_between 0 64) (ip_address p) &&
  optional (length_between 0 ABUSE_NOTES_MAX_LEN) (notes p).

Definition make_signal (p : AbuseSignalCreate) : result ValidationError (option AbuseSignalCreate) :=
  if valid_signal p then Ok (Some p) else Raise validation_error.

(** ** The detectors *)

Definition evaluate_source_noise (source_name : string) (request_count window_seconds : Z)
    (quota_per_minute : option Z) (tenant : option Z) (ip : option string)
    : result ValidationError (option AbuseSignalCreate) :=
  let effective_quota := or_else quota_per_minute ABUSE_NOISY_SOURCE_DEFAULT_QUOTA in
  let expected := (inject_Z effective_quota * (inject_Z window_seconds / 60))%Q in
  if Qle_bool expected 0 then Ok None
  else
    let ratio := (inject_Z request_count / expected)%Q in
    let signal severity action :=
      make_signal (Signal ABUSE_SIGNAL_NOISY_SOURCE ABUSE_ACTOR_SOURCE_ID source_name severity
        ABUSE_RULE_QUOTA_EXCEEDED
        (JObj [("request_count", JInt request_count); ("expected_for_window", JFloat (py_round 2 expected));
               ("ratio", JFloat (py_round 3 ratio)); ("window_seconds", JInt window_seconds);
               ("quota_per_minute", JInt effective_quota)])
        action tenant ip None) in
    if Qle_bool ABUSE_NOISY_SOURCE_MULTIPLIER_CRITICAL ratio
    then signal ABUSE_SEVERITY_CRITICAL ABUSE_ACTION_ALERTED
    else if Qle_bool ABUSE_NOISY_SOURCE_MULTIPLIER_HIGH ratio
    then signal ABUSE_SEVERITY_HIGH ABUSE_ACTION_ALERTED
    else if Qle_bool ABUSE_NOISY_SOURCE_MULTIPLIER_MEDIUM ratio
    then signal ABUSE_SEVERITY_MEDIUM ABUSE_ACTION_LOGGED
    else Ok None.

Definition key_signal (key_prefix severity rule : string) (ev : list (string * json)) (action : string)
    (tenant : option Z) : result ValidationError (option AbuseSignalCreate) :=
  make_signal (Signal ABUSE_SIGNAL_SUSPICIOUS_KEY ABUSE_ACTOR_API_KEY key_prefix severity rule (JObj ev)
    action tenant None None).

Definition evaluate_key_suspicion (key_prefix : string) (window_seconds auth_failure_count distinct_ip_count : Z)
    (error_rate : Q) (total_requests : Z) (tenant : option Z)
    : result ValidationError (option AbuseSignalCreate) :=
  let auth threshold := [("auth_failure_count", JInt auth_failure_count); ("threshold", JInt threshold);
                         ("window_seconds", JInt window_seconds)] in
  let ips threshold := [("distinct_ip_count", JInt distinct_ip_count); ("threshold", JInt threshold);
                        ("window_seconds", JInt window_seconds)] in
  let errors threshold := [("error_rate", JFloat (py_round 4 error_rate)); ("threshold", JFloat threshold);
                           ("total_requests", JInt total_requests); ("window_seconds", JInt window_seconds)] in
  if ABUSE_KEY_AUTH_FAILURE_THRESHOLD_HIGH <=? auth_failure_count then
    key_signal key_prefix ABUSE_SEVERITY_HIGH ABUSE_RULE_AUTH_FAILURE_SPIKE
      (auth ABUSE_KEY_AUTH_FAILURE_THRESHOLD_HIGH) ABUSE_ACTION_ALERTED tenant
  else if ABUSE_KEY_AUTH_FAILURE_THRESHOLD_MEDIUM <=? auth_failure_count then
    key_signal key_prefix ABUSE_SEVERITY_MEDIUM ABUSE_RULE_AUTH_FAILURE_SPIKE
      (auth ABUSE_KEY_AUTH_FAILURE_THRESHOLD_MEDIUM) ABUSE_ACTION_LOGGED tenant
  else if ABUSE_KEY_DISTINCT_IP_THRESHOLD_HIGH <=? distinct_ip_count then
    key_signal key_prefix ABUSE_SEVERITY_HIGH ABUSE_RULE_MULTI_IP_KEY
      (ips ABUSE_KEY_DISTINCT_IP_THRESHOLD_HIGH) ABUSE_ACTION_ALERTED tenant
  else if ABUSE_KEY_DISTINCT_IP_THRESHOLD_MEDIUM <=? distinct_ip_count then
    key_signal key_prefix ABUSE_SEVERITY_MEDIUM ABUSE_RULE_MULTI_IP_KEY
      (ips ABUSE_KEY_DISTINCT_IP_THRESHOLD_MEDIUM) ABUSE_ACTION_LOGGED tenant
  else if (0 <? total_requests) && Qle_bool ABUSE_KEY_ERROR_RATE_THRESHOLD_HIGH error_rate then
    key_signal key_prefix ABUSE_SEVERITY_HIGH ABUSE_RULE_ERROR_RATE_SPIKE
      (errors ABUSE_KEY_ERROR_RATE_THRESHOLD_HIGH) ABUSE_ACTION_ALERTED tenant
  else if (0 <? total_requests) && Qle_bool ABUSE_KEY_ERROR_RATE_THRESHOLD_MEDIUM error_rate then
    key_signal key_prefix ABUSE_SEVERITY_MEDIUM ABUSE_RULE_ERROR_RATE_SPIKE
      (errors ABUSE_KEY_ERROR_RATE_THRESHOLD_MEDIUM) ABUSE_ACTION_LOGGED tenant
  else Ok None.

Definition SEVERITY_RANK : list (string * Z) :=
  [(ABUSE_SEVERITY_LOW, 0); (ABUSE_SEVERITY_MEDIUM, 1); (ABUSE_SEVERITY_HIGH, 2); (ABUSE_SEVERITY_CRITICAL, 3)].

Definition rank_of (s : string) : option Z :=
  option_map snd (List.find (fun x => String.eqb x.1 s) SEVERITY_RANK).

Definition is_high_or_above (severity : string) : bool :=
  or_else (rank_of ABUSE_SEVERITY_HIGH) 0 <=? or_else (rank_of severity) (-1).

(** ** The signals *)

Inductive category := abuse | audit.

#[global] Instance category_eq_dec : EqDecision category.
Proof. solve_decision. Defined.

(** The columns of [security_events] that the abuse workflow uses; an audit event
    leaves those of the signal null. *)
Record SecurityEvent := Event {
  event_category : category;
  signal : option AbuseSignalCreate;
  row_notes : option string;
  resolved_at : option datetime;
  resolved_by : option string;
  created_at : datetime
}.

Definition events := table SecurityEvent.

Definition create_signal (now : datetime) (p : AbuseSignalCreate) (t : events) : Z * events :=
  insert (Event abuse (Some p) (notes p) None None now) t.

Definition is_abuse (e : SecurityEvent) : bool := bool_decide (event_category e = abuse).
Definition is_open (e : SecurityEvent) : bool := match resolved_at e with None => true | Some _ => false end.

Definition set_resolved (now : datetime) (by_ : string) (note : option string) (e : SecurityEvent) : SecurityEvent :=
  Event (event_category e) (signal e) (match note with Some _ => note | None => row_notes e end)
    (Some now) (Some by_) (created_at e).

(** The row found under a condition, by primary key. *)
Definition find_event (i : Z) (p : SecurityEvent -> bool) (t : events) : option SecurityEvent :=
  match get i t with
  | Some e => if is_abuse e && p e then Some e else None
  | None => None
  end.

Definition resolve_signal (now : datetime) (i : Z) (by_ : string) (note : option string) (t : events)
    : option SecurityEvent * events :=
  match find_event i (fun _ => true) t with
  | Some e => if is_open e then (Some (set_resolved now by_ note e), update i (set_resolved now by_ note) t)
              else (None, t)
  | None => (None, t)
  end.

Definition event_tenant (e : SecurityEvent) : option Z :=
  match signal e with Some p => tenant_id p | None => None end.

Definition in_tenant (tenant : option Z) (e : SecurityEvent) : bool :=
  match tenant with Some _ => bool_decide (event_tenant e = tenant) | None => true end.

Definition get_signal (i : Z) (tenant : option Z) (t : events) : option SecurityEvent :=
  find_event i (in_tenant tenant) t.

(** A filter on a column of the signal; [None] when it is not asked for. *)
Definition column_is (column : AbuseSignalCreate -> string) (wanted : option string) (e : SecurityEvent) : bool :=
  match wanted with
  | None => true
  | Some _ => bool_decide (option_map column (signal e) = wanted)
  end.

Definition resolution_is (wanted : option bool) (e : SecurityEvent) : bool :=
  match wanted with
  | None => true
  | Some true => negb (is_open e)
  | Some false => is_open e
  end.

Definition newest (x y : Z * SecurityEvent) : bool := created_at y.2 <=? created_at x.2.

Definition list_signals (tenant : option Z) (typ sev actor : option string) (resolved : option bool)
    (page page_size : nat) (offset limit : option nat) (t : events) : list (Z * SecurityEvent) * nat :=
  let rows := select (fun e => is_abuse e && in_tenant tenant e && column_is signal_type typ e &&
      column_is severity sev e && column_is actor_type actor e && resolution_is resolved e) t in
  let effective_page_size := or_else limit page_size in
  let effective_offset := or_else offset ((page - 1) * effective_page_size)%nat in
  (take effective_page_size (drop effective_offset (order_by newest rows)), length rows).

(** ** The summary *)

(** [group by key], the groups in the order in which their first row comes. *)
Definition group_by {K A} `{EqDecision K} (key : A -> K) (l : list A) : list (K * list A) :=
  map (fun k => (k, List.filter (fun a => bool_decide (key a = k)) l)) (reverse (remove_dups (map key (reverse l)))).

(** [max] of a text column, in its lexicographic order, over the rows where it is
    not null. *)
Definition sql_max (l : list string) : option string :=
  foldr (fun s m => match m with None => Some s | Some b => Some (if String.leb s b then b else s) end) None l.

Record AbuseTopActor := Actor {
  top_actor_type : option string;
  top_actor_id : option string;
  signal_count : nat;
  latest_severity : option string
}.

Record AbuseSummaryResponse := Summary {
  open_count : nat;
  resolved_count : nat;
  by_severity : list (option string * nat);
  top_actors : list AbuseTopActor
}.

Definition most_signals (x y : AbuseTopActor) : bool := (signal_count y <=? signal_count x)%nat.

Definition get_summary (tenant : option Z) (t : events) : AbuseSummaryResponse :=
  let base resolved := map snd (select (fun e => is_abuse e && in_tenant tenant e &&
                                                 resolution_is (Some resolved) e) t) in
  let open := base false in
  Summary (length open) (length (base true))
    (map (fun g => (g.1, length g.2)) (group_by (fun e => option_map severity (signal e)) open))
    (take 10 (order_by most_signals (map (fun g =>
       Actor g.1.1 g.1.2 (length g.2) (sql_max (omap (fun e => option_map severity (signal e)) g.2)))
       (group_by (fun e => (option_map actor_type (signal e), option_map actor_id (signal e))) open)))).

(** ** Fail-open persistence *)

Section Observation.
(** Whether the database accepts the row ([None]: it raised). *)
Context (persist : AbuseSignalCreate -> events -> option (Z * events)).

Definition record_signal (r : result ValidationError (option AbuseSignalCreate)) (t : events)
    : result ValidationError bool * events :=
  match r with
  | Raise e => (Raise e, t)
  | Ok None => (Ok false, t)
  | Ok (Some p) => match persist p t with
                   | Some (_, t) => (Ok true, t)
                   | None => (Ok false, t)
                   end
  end.

Definition observation_source_noise (source_name : string) (request_count window_seconds : Z)
    (quota_per_minute : option Z) (tenant : option Z) (ip : option string) :=
  record_signal (evaluate_source_noise source_name request_count window_seconds quota_per_minute tenant ip).

Definition observation_key_suspicion (key_prefix : string) (window_seconds auth_failure_count distinct_ip_count : Z)
    (error_rate : Q) (total_requests : Z) (tenant : option Z) :=
  record_signal (evaluate_key_suspicion key_prefix window_seconds auth_failure_count distinct_ip_count
    error_rate total_requests tenant).
End Observation.
End Abuse.

(** ** Theorems *)

Module AbuseTheorems.
Import Abuse.

(** What the schema asks of the fields that come from the caller. *)
Definition valid_actor (name : string) (tenant : option Z) (ip : option string) : bool :=
  length_between 1 ABUSE_ACTOR_ID_MAX_LEN name && optional (fun t => 1 <=? t) tenant &&
  optional (length_between 0 64) ip.

Lemma make_signal_valid typ actor name sev rule ev action tenant ip :
  length_between 1 64 typ && length_between 1 32 actor && length_between 1 16 sev &&
  length_between 1 64 rule && length_between 1 32 action = true ->
  valid_actor name tenant ip = true ->
  let p := Signal typ actor name sev rule ev action tenant ip None in make_signal p = Ok (Some p).
Proof.
  intros H1 H2 p. unfold make_signal, valid_signal. subst p. simpl. unfold valid_actor in H2.
  bool_to_prop. repeat match goal with H : _ = true |- _ => rewrite H; clear H end. done.
Qed.

Lemma sixtieth (a b : Q) : (a / 60 <= b)%Q <-> (a <= 60 * b)%Q.
Proof. unfold Qdiv. change (/ 60)%Q with (1 # 60)%Q. split; intros; lra. Qed.

(** [k] times the prorated quota against the request count, without fractions. *)
Lemma ratio_at_least k count quota window :
  0 < quota * window ->
  Qle_bool (inject_Z k) (inject_Z count / (inject_Z quota * (inject_Z window / 60))) =
  (k * (quota * window) <=? 60 * count).
Proof.
  intros Hpos. apply eq_bool_prop_intro. rewrite !Is_true_true, Qle_bool_iff, Z.leb_le.
  assert (inject_Z quota * (inject_Z window / 60) == inject_Z (quota * window) / 60)%Q as ->
    by (rewrite inject_Z_mult; field).
  assert (0 < inject_Z (quota * window) / 60)%Q as Hq.
  { apply Qlt_shift_div_l; [done |]. rewrite Qmult_0_l. by rewrite (Zlt_Qlt 0) in Hpos. }
  set (x := inject_Z (quota * window)) in *.
  assert (inject_Z k * (x / 60) == inject_Z (k * (quota * window)) / 60)%Q as E
    by (rewrite inject_Z_mult; unfold x; field).
  rewrite (Zle_Qle (k * (quota * window))), (inject_Z_mult 60). change (inject_Z 60) with 60%Q.
  split; intros H.
  - apply (Qmult_le_r _ _ _ Hq) in H. rewrite E in H.
    assert (inject_Z count / (x / 60) * (x / 60) == inject_Z count)%Q as Hd.
    { field. intros E0. rewrite E0 in Hq. vm_compute in Hq. discriminate Hq. }
    rewrite Hd in H. clear - H. by apply sixtieth.
  - apply Qle_shift_div_l; [done |]. rewrite E. by apply sixtieth.
Qed.

Lemma budget_positive quota window :
  Qle_bool (inject_Z quota * (inject_Z window / 60)) 0 = (quota * window <=? 0).
Proof.
  apply eq_bool_prop_intro. rewrite !Is_true_true, Qle_bool_iff, Z.leb_le.
  assert (inject_Z quota * (inject_Z window / 60) == inject_Z (quota * window) / 60)%Q as ->
    by (rewrite inject_Z_mult; field).
  by rewrite sixtieth, Qmult_0_r, (Zle_Qle _ 0).
Qed.

(** A source is reported exactly when its requests reach twice its quota
    prorated to the window, with the severity of the highest multiple (2, 5 or 10)
    that they reach; alerting starts at 5.  A source whose quota or window is zero or
    less is never reported. *)
Theorem source_noise_levels name count window quota tenant ip :
  valid_actor name tenant ip = true ->
  let budget := or_else quota ABUSE_NOISY_SOURCE_DEFAULT_QUOTA * window in
  exists r, evaluate_source_noise name count window quota tenant ip = Ok r /\
    (budget <= 0 -> r = None) /\
    (0 < budget ->
      option_map (fun p => (severity p, action_taken p)) r =
        if 10 * budget <=? 60 * count then Some ("critical", "alerted")
        else if 5 * budget <=? 60 * count then Some ("high", "alerted")
        else if 2 * budget <=? 60 * count then Some ("medium", "logged") else None).
Proof.
  intros Hv budget. unfold evaluate_source_noise. set (q := or_else _ _) in *.
  destruct (Qle_bool (inject_Z q * (inject_Z window / 60)) 0) eqn:E.
  - exists None. rewrite budget_positive in E. fold budget in E. bool_to_prop. repeat split; intros; lia.
  - rewrite budget_positive in E. fold budget in E. assert (0 < budget) as Hb by (bool_to_prop; lia).
    cbv zeta. unfold ABUSE_NOISY_SOURCE_MULTIPLIER_CRITICAL, ABUSE_NOISY_SOURCE_MULTIPLIER_HIGH,
      ABUSE_NOISY_SOURCE_MULTIPLIER_MEDIUM.
    change 10%Q with (inject_Z 10). change 5%Q with (inject_Z 5). change 2%Q with (inject_Z 2).
    rewrite !ratio_at_least by done. fold budget.
    destruct (10 * budget <=? 60 * count); [|destruct (5 * budget <=? 60 * count);
      [|destruct (2 * budget <=? 60 * count); [|exists None; by repeat split; intros; try lia]]];
      (rewrite make_signal_valid by done; eexists; split; [done |]; split; [lia | done]).
Qed.

(** The reference: what each of the three rules finds on its own, in the order in
    which the detector looks at them. *)
Definition level (medium high : bool) : option string :=
  if high then Some "high" else if medium then Some "medium" else None.

Definition findings (auth ips : Z) (rate : Q) (total : Z) : list (string * string) :=
  omap (fun '(rule, l) => option_map (pair rule) l)
    [("auth_failure_spike", level (5 <=? auth) (20 <=? auth));
     ("multi_ip_key", level (5 <=? ips) (10 <=? ips));
     ("error_rate_spike", level ((0 <? total) && Qle_bool (1 # 2) rate) ((0 <? total) && Qle_bool (9 # 10) rate))].

(** A key is reported exactly when some rule fires, and then with the first rule
    that fires; a rule that comes later is not reported even when it is the worse
    finding, so a medium spike of authentication failures hides that the key is
    shared by ten addresses. *)
Theorem key_suspicion_first_rule key window auth ips rate total tenant :
  valid_actor key tenant None = true ->
  (exists r, evaluate_key_suspicion key window auth ips rate total tenant = Ok r /\
     option_map (fun p => (detection_rule p, severity p)) r = head (findings auth ips rate total)) /\
  (5 <= auth < 20 -> 10 <= ips ->
     ("multi_ip_key", "high") ∈ findings auth ips rate total /\
     exists p, evaluate_key_suspicion key window auth ips rate total tenant = Ok (Some p) /\
       severity p = "medium" /\ is_high_or_above (severity p) = false).
Proof.
  intros Hv.
  assert (forall sev rule ev action, length_between 1 16 sev && length_between 1 64 rule &&
    length_between 1 32 action = true -> exists p, key_signal key sev rule ev action tenant = Ok (Some p) /\
    detection_rule p = rule /\ severity p = sev) as Hsig.
  { intros sev rule ev action H. unfold key_signal. rewrite make_signal_valid; [by eexists | | done].
    bool_to_prop. by repeat match goal with H : _ = true |- _ => rewrite H; clear H end. }
  split.
  - unfold evaluate_key_suspicion, findings, level. cbv zeta.
    unfold ABUSE_KEY_AUTH_FAILURE_THRESHOLD_HIGH, ABUSE_KEY_AUTH_FAILURE_THRESHOLD_MEDIUM,
      ABUSE_KEY_DISTINCT_IP_THRESHOLD_HIGH, ABUSE_KEY_DISTINCT_IP_THRESHOLD_MEDIUM,
      ABUSE_KEY_ERROR_RATE_THRESHOLD_HIGH, ABUSE_KEY_ERROR_RATE_THRESHOLD_MEDIUM.
    repeat match goal with |- context [if ?b then key_signal _ _ _ _ _ _ else _] => destruct b end;
      try (match goal with |- context [key_signal key ?sev ?rule ?ev ?action tenant] =>
        destruct (Hsig sev rule ev action eq_refl) as (p & -> & Hr & Hs) end;
        exists (Some p); split; [done |]; simpl; by rewrite Hr, Hs).
    by exists None.
  - intros Ha Hi. split.
    + unfold findings, level. replace (20 <=? auth) with false by (symmetry; apply Z.leb_gt; lia).
      replace (5 <=? auth) with true by (symmetry; apply Z.leb_le; lia).
      replace (10 <=? ips) with true by (symmetry; apply Z.leb_le; lia). simpl. right. left.
    + unfold evaluate_key_suspicion. cbv zeta.
      replace (ABUSE_KEY_AUTH_FAILURE_THRESHOLD_HIGH <=? auth) with false
        by (symmetry; apply Z.leb_gt; unfold ABUSE_KEY_AUTH_FAILURE_THRESHOLD_HIGH; lia).
      replace (ABUSE_KEY_AUTH_FAILURE_THRESHOLD_MEDIUM <=? auth) with true
        by (symmetry; apply Z.leb_le; unfold ABUSE_KEY_AUTH_FAILURE_THRESHOLD_MEDIUM; lia).
      match goal with |- context [key_signal key ?sev ?rule ?ev ?action tenant] =>
        destruct (Hsig sev rule ev action eq_refl) as (p & -> & _ & Hs) end.
      exists p. by rewrite Hs.
Qed.

Lemma source_noise_levels_witness :
  exists r, evaluate_source_noise "feed" 250 30 (Some 100) None None = Ok r /\
    option_map (fun p => (severity p, action_taken p)) r = Some ("high", "alerted").
Proof.
  destruct (source_noise_levels "feed" 250 30 (Some 100) None None eq_refl) as (r & Hr & _ & H).
  exists r. split; [exact Hr |]. rewrite (H eq_refl). reflexivity.
Defined.

Lemma key_suspicion_first_rule_witness :
  exists p, evaluate_key_suspicion "ak_1" 60 5 12 0 0 (Some 7) = Ok (Some p) /\ severity p = "medium".
Proof.
  destruct (key_suspicion_first_rule "ak_1" 60 5 12 0 0 (Some 7) eq_refl) as [_ H].
  destruct (H ltac:(lia) ltac:(lia)) as (_ & p & Hp & Hs & _). exists p. split; [exact Hp | exact Hs].
Defined.

(** ** The workflow and its counts *)

Lemma lookup_update_length (p : SecurityEvent -> bool) i f (l : list (Z * SecurityEvent)) e :
  StronglySorted Z.lt (map fst l) -> lookup_row i l = Some e ->
  (length (List.filter (fun x => p x.2) (map (fun x => (x.1, if (i =? x.1)%Z then f x.2 else x.2)) l)) +
     (if p e then 1 else 0) =
   length (List.filter (fun x => p x.2) l) + (if p (f e) then 1 else 0))%nat.
Proof.
  induction l as [|[j r] l IH]; simpl; [done |]. intros [Hs Hlt]%StronglySorted_inv Hl.
  destruct (Z.eqb_spec i j) as [->|Hne].
  - injection Hl as ->.
    assert (map (fun x => (x.1, if (j =? x.1)%Z then f x.2 else x.2)) l = l) as ->.
    { clear - Hlt. induction l as [|[k r] l IH]; simpl in *; [done |]. apply Forall_cons in Hlt as [Hk Hlt].
      rewrite IH by done. destruct (Z.eqb_spec j k); [lia | done]. }
    destruct (p (f e)), (p e); simpl; lia.
  - specialize (IH Hs Hl). destruct (p r); simpl; lia.
Qed.

Lemma select_update_length (p : SecurityEvent -> bool) i f (t : events) e :
  wf_table t -> get i t = Some e ->
  (length (select p (update i f t)) + (if p e then 1 else 0) =
   length (select p t) + (if p (f e) then 1 else 0))%nat.
Proof. intros [Hs _] Hg. by apply lookup_update_length. Qed.

Section Groups.
Context {K A : Type} `{EqDecision K} (key : A -> K).
Implicit Types (l : list A).

Definition group (l : list A) (k : K) : list A := List.filter (fun a => bool_decide (key a = k)) l.

Lemma group_keys_nodup l : NoDup (reverse (remove_dups (map key (reverse l)))).
Proof. rewrite reverse_Permutation. apply NoDup_remove_dups. Qed.

Lemma elem_of_group_keys l k : k ∈ reverse (remove_dups (map key (reverse l))) <-> exists a, a ∈ l /\ key a = k.
Proof.
  rewrite elem_of_reverse, elem_of_remove_dups, list_elem_of_fmap. setoid_rewrite elem_of_reverse. naive_solver.
Qed.

Lemma group_cons a l k : length (group (a :: l) k) = (length (group l k) + if decide (key a = k) then 1 else 0)%nat.
Proof. unfold group. simpl. case_bool_decide; case_decide; simpl; lia || done. Qed.

Lemma sum_groups l ks :
  NoDup ks -> (forall a, a ∈ l -> key a ∈ ks) -> sum_list (map (fun k => length (group l k)) ks) = length l.
Proof.
  intros Hnd. induction l as [|a l IH]; intros Hin.
  - clear. by induction ks as [|k ks IH].
  - change (length (a :: l)) with (S (length l)). rewrite <- IH by (intros b Hb; apply Hin; by right).
    assert (key a ∈ ks) as Ha by (apply Hin; left). clear - Hnd Ha.
    induction Hnd as [|k ks Hk Hnd IH]; [by apply not_elem_of_nil in Ha |].
    assert (forall l, sum_list (map (fun k => length (group l k)) (k :: ks)) =
      (length (group l k) + sum_list (map (fun k => length (group l k)) ks))%nat) as E by done.
    rewrite !E, !group_cons.
    apply elem_of_cons in Ha as [<-|Ha].
    + rewrite decide_True by done.
      assert (map (fun k => length (group (a :: l) k)) ks = map (fun k => length (group l k)) ks) as ->; [|lia].
      apply map_ext_in. intros k' Hk'. rewrite group_cons, decide_False; [lia |].
      intros E2. apply Hk. rewrite E2. by apply list_elem_of_In.
    + rewrite IH by done. case_decide; [congruence | lia].
Qed.

Lemma group_by_total l : sum_list (map (fun g => length g.2) (group_by key l)) = length l.
Proof.
  unfold group_by. rewrite map_map. apply sum_groups; [apply group_keys_nodup |].
  intros a Ha. apply elem_of_group_keys. by exists a.
Qed.
End Groups.

Definition total (tenant : option Z) (t : events) : nat :=
  (list_signals tenant None None None None 1 50 None None t).2.

Lemma filter_split {A} (p q r : A -> bool) l :
  (forall x, p x = q x || r x) -> (forall x, q x && r x = false) ->
  length (List.filter p l) = (length (List.filter q l) + length (List.filter r l))%nat.
Proof.
  intros H1 H2. induction l as [|x l IH]; simpl; [done |]. rewrite H1. specialize (H2 x).
  destruct (q x), (r x); simpl in *; congruence || lia.
Qed.

Lemma summary_counts tenant t :
  (open_count (get_summary tenant t) + resolved_count (get_summary tenant t) = total tenant t)%nat.
Proof.
  unfold total, list_signals, get_summary. simpl. rewrite !length_map. unfold select. symmetry.
  apply filter_split; intros [i e]; simpl; destruct (is_abuse e), (in_tenant tenant e), (is_open e); reflexivity.
Qed.

Definition in_state (tenant : option Z) (resolved : bool) (e : SecurityEvent) : bool :=
  is_abuse e && in_tenant tenant e && resolution_is (Some resolved) e.

Lemma open_count_spec tenant t : open_count (get_summary tenant t) = length (select (in_state tenant false) t).
Proof. apply length_map. Qed.

Lemma resolved_count_spec tenant t :
  resolved_count (get_summary tenant t) = length (select (in_state tenant true) t).
Proof. apply length_map. Qed.

(** The summary of a tenant counts every signal once, as open or resolved, and
    the open ones by severity add up; resolving an open signal moves it from the one
    count to the other, for its tenant and for the whole, and a signal that was
    resolved is never resolved again: the second resolution is refused and changes
    nothing. *)
Theorem resolution_once tenant now i by_ note (t t' : events) e :
  wf_table t -> resolve_signal now i by_ note t = (Some e, t') -> in_tenant tenant e = true ->
  let s := get_summary tenant t in let s' := get_summary tenant t' in
  (open_count s + resolved_count s = total tenant t)%nat /\
  sum_list (map snd (by_severity s)) = open_count s /\
  (open_count s' + 1 = open_count s)%nat /\ resolved_count s' = (resolved_count s + 1)%nat /\
  get_signal i tenant t' = Some e /\ resolved_by e = Some by_ /\
  (forall later other n, resolve_signal later i other n t' = (None, t')).
Proof.
  intros Hwf Hres Htenant s s'. split; [apply summary_counts |]. split.
  { unfold s, get_summary. simpl. rewrite map_map. simpl. rewrite group_by_total. done. }
  unfold resolve_signal, find_event in Hres.
  destruct (get i t) as [e0|] eqn:Hg; [|done]. rewrite andb_true_r in Hres.
  destruct (is_abuse e0) eqn:Ha; [|done]. destruct (is_open e0) eqn:Ho; [|done].
  injection Hres as <- <-.
  assert (in_tenant tenant e0 = true) as Ht0 by exact Htenant.
  set (f := set_resolved now by_ note) in *.
  assert (get i (update i f t) = Some (f e0)) as Hg' by (by rewrite get_update, Z.eqb_refl, Hg).
  assert (is_abuse (f e0) = true) as Ha' by exact Ha.
  pose proof (select_update_length (in_state tenant false) i f t e0 Hwf Hg) as H1.
  pose proof (select_update_length (in_state tenant true) i f t e0 Hwf Hg) as H2.
  unfold in_state in H1 at 2 4. unfold in_state in H2 at 2 4.
  rewrite Ha, Ha', Ht0, Htenant in H1, H2. cbn [resolution_is andb negb] in H1, H2.
  rewrite Ho in H1, H2. change (is_open (f e0)) with false in H1, H2. cbn [negb] in H1, H2.
  unfold s, s'. rewrite !open_count_spec, !resolved_count_spec.
  split; [lia |]. split; [lia |]. split; [|split; [done |]].
  - unfold get_signal, find_event. rewrite Hg', Ha', Htenant. done.
  - intros later other n. unfold resolve_signal, find_event. rewrite Hg', Ha'. done.
Qed.

Definition noisy : AbuseSignalCreate :=
  Signal "noisy_source" "source_id" "feed" "critical" "quota_exceeded" (JObj []) "alerted" (Some 7) None None.
Definition quiet : AbuseSignalCreate :=
  Signal "noisy_source" "source_id" "feed" "low" "quota_exceeded" (JObj []) "logged" (Some 7) None None.
Definition two_signals : events := (create_signal 2 quiet (create_signal 1 noisy (empty_table _)).2).2.

(** The severity shown for an actor is the last one in the alphabet: a critical
    signal next to a low one shows as low. *)
Example severity_of_top_actor :
  top_actors (get_summary None two_signals) = [Actor (Some "source_id") (Some "feed") 2 (Some "low")].
Proof. vm_compute. reflexivity. Qed.

Lemma resolution_once_witness :
  exists e t', resolve_signal 5 1 "ops" None two_signals = (Some e, t') /\
    open_count (get_summary (Some 7) t') = 1%nat /\ resolve_signal 6 1 "eve" None t' = (None, t').
Proof.
  destruct (resolve_signal 5 1 "ops" None two_signals) as [[e|] t'] eqn:E; [|vm_compute in E; discriminate E].
  exists e, t'. split; [reflexivity |].
  assert (wf_table two_signals) as Hwf by (vm_compute; split; repeat constructor).
  assert (in_tenant (Some 7) e = true) as Ht.
  { vm_compute in E. injection E as <- _. reflexivity. }
  destruct (resolution_once (Some 7) 5 1 "ops" None two_signals t' e Hwf E Ht) as (_ & _ & Hopen & _ & _ & _ & Hagain).
  split; [|apply Hagain]. change (open_count (get_summary (Some 7) two_signals)) with 2%nat in Hopen. lia.
Defined.
End AbuseTheorems.
