(* ===== verification/JobQueue.v ===== *)
(** * The ingestion job queue (jobs/queue.py)

    Commands behind an interface, the priority queue whose entries move up when
    their deadline comes near, and the loop that drains it.  [heapq] is modelled by
    its contract: the heap is the collection of its entries, [heap[0]] and
    [heappop] are the least of them.  Entries are compared as Python compares
    tuples; counters are unique, so that the comparison never reaches a command.
    [clock i] is what [datetime.now] reads when entry [i] is looked at. *)

From S2P Require Import Prelude Db.

Module JobQueue.

Definition PRIORITY_CRITICAL : Z := 1.
Definition PRIORITY_NORMAL : Z := 5.

(** ** Commands *)

Class IngestionCommand (C : Type) := {
  priority : C -> Z;
  deadline : C -> option datetime;
  name : C -> string
}.

Section Commands.
(** An [ObservationRequest], of which the queue only reads the source. *)
Context {Request : Type} (source : Request -> string).

Record SingleObservationIngestCommand := Single {
  request : Request;
  single_priority : Z;
  single_deadline : option datetime;
  idempotency_key : option string
}.

Record BatchIngestCommand := Batch {
  requests : list Request;
  batch_priority : Z;
  batch_deadline : option datetime;
  idempotency_key_prefix : option string
}.

Definition single_name (c : SingleObservationIngestCommand) : string := "single_ingest:" +:+ source (request c).

Definition batch_name (c : BatchIngestCommand) : string :=
  "batch_ingest:" +:+ String.concat "," (order_by String.leb (remove_dups (map source (requests c)))) +:+
  "[" +:+ str_of_Z (Z.of_nat (length (requests c))) +:+ "]".

#[global] Instance single_command : IngestionCommand SingleObservationIngestCommand :=
  {| priority := single_priority; deadline := single_deadline; name := single_name |}.
#[global] Instance batch_command : IngestionCommand BatchIngestCommand :=
  {| priority := batch_priority; deadline := batch_deadline; name := batch_name |}.
End Commands.

(** ** The queue *)

Section Queue.
Context {C : Type} `{IngestionCommand C}.

(** Effective priority, counter, command. *)
Definition entry : Type := Z * Z * C.
Definition entry_key (e : entry) : Z * Z := e.1.

(** [a < b] on the keys of two entries. *)
Definition key_lt (a b : Z * Z) : bool := (a.1 <? b.1) || (a.1 =? b.1) && (a.2 <? b.2).

Record PriorityJobQueue := Queue {
  _heap : list entry;
  _counter : Z;
  _deadline_boost_secs : Z
}.

Definition empty_queue (boost : Z) : PriorityJobQueue := Queue [] 0 boost.

Definition _effective_priority (boost : Z) (now : datetime) (cmd : C) : Z :=
  match deadline cmd with
  | Some d => if d - now <=? seconds boost then PRIORITY_CRITICAL else priority cmd
  | None => priority cmd
  end.

Definition enqueue (now : datetime) (cmd : C) (q : PriorityJobQueue) : PriorityJobQueue :=
  let effective := _effective_priority (_deadline_boost_secs q) now cmd in
  Queue ((effective, _counter q, cmd) :: _heap q) (_counter q + 1) (_deadline_boost_secs q).

(** [heapq.heappop]. *)
Fixpoint heappop (l : list entry) : option (entry * list entry) :=
  match l with
  | [] => None
  | x :: l =>
      match heappop l with
      | None => Some (x, [])
      | Some (y, r) => if key_lt (entry_key y) (entry_key x) then Some (y, x :: r) else Some (x, l)
      end
  end.

Definition peek (q : PriorityJobQueue) : option C := option_map (fun x => x.1.2) (heappop (_heap q)).

Definition _rebalance (clock : Z -> datetime) (q : PriorityJobQueue) : PriorityJobQueue :=
  Queue (map (fun '(_, ctr, cmd) => (_effective_priority (_deadline_boost_secs q) (clock ctr) cmd, ctr, cmd)) (_heap q))
    (_counter q) (_deadline_boost_secs q).

Definition dequeue (clock : Z -> datetime) (q : PriorityJobQueue) : option C * PriorityJobQueue :=
  match _heap q with
  | [] => (None, q)
  | _ =>
      let q := _rebalance clock q in
      match heappop (_heap q) with
      | None => (None, q)
      | Some ((_, _, cmd), rest) => (Some cmd, Queue rest (_counter q) (_deadline_boost_secs q))
      end
  end.

Definition size (q : PriorityJobQueue) : nat := length (_heap q).

(** ** Execution *)

Section Run.
(** What executing a command answers, and what it does to the rest of the system;
    it does not touch the queue. *)
Context {S E R : Type} (execute : C -> S -> result E R * S).

(** The result, the queue and the state; [None] when the queue is empty. *)
Definition run_next (clock : Z -> datetime) (q : PriorityJobQueue) (s : S)
    : result E (option R) * PriorityJobQueue * S :=
  match dequeue clock q with
  | (None, q) => (Ok None, q, s)
  | (Some cmd, q) =>
      match execute cmd s with
      | (Ok r, s) => (Ok (Some r), q, s)
      | (Raise e, s) => (Raise e, q, s)
      end
  end.

(** [clocks n] are the clock readings of round [n]; [None] when [fuel] rounds are not
    enough. *)
Fixpoint drain (fuel : nat) (clocks : nat -> Z -> datetime) (q : PriorityJobQueue) (s : S)
    : option (result E (list R) * PriorityJobQueue * S) :=
  match _heap q, fuel with
  | [], _ => Some (Ok [], q, s)
  | _, 0%nat => None
  | _, Datatypes.S fuel =>
      match run_next (clocks 0%nat) q s with
      | (Raise e, q, s) => Some (Raise e, q, s)
      | (Ok r, q, s) =>
          match drain fuel (fun n => clocks (Datatypes.S n)) q s with
          | None => None
          | Some (Raise e, q, s) => Some (Raise e, q, s)
          | Some (Ok rs, q, s) => Some (Ok (match r with Some r => r :: rs | None => rs end), q, s)
          end
      end
  end.

(** The reference: commands executed one after the other up to the first failure,
    with those that were started. *)
Fixpoint run_all (cmds : list C) (s : S) : result E (list R) * S * list C :=
  match cmds with
  | [] => (Ok [], s, [])
  | c :: cmds =>
      match execute c s with
      | (Raise e, s) => (Raise e, s, [c])
      | (Ok r, s) =>
          match run_all cmds s with
          | (Raise e, s, l) => (Raise e, s, c :: l)
          | (Ok rs, s, l) => (Ok (r :: rs), s, c :: l)
          end
      end
  end.
End Run.

(** Every queue that the operations can make. *)
Inductive queue_step : PriorityJobQueue -> PriorityJobQueue -> Prop :=
| step_enqueue now cmd q : queue_step q (enqueue now cmd q)
| step_dequeue clock q : queue_step q (dequeue clock q).2.
End Queue.
Arguments entry : clear implicits.
Arguments PriorityJobQueue : clear implicits.
End JobQueue.

(** ** Theorems *)

Module JobQueueTheorems.
Import JobQueue.

Section Queue.
Context {C : Type} `{IngestionCommand C}.
Implicit Types (l : list (entry C)) (q : PriorityJobQueue C).

Definition counter_of (e : entry C) : Z := e.1.2.
Definition command_of (e : entry C) : C := e.2.
Definition commands q : list C := map command_of (_heap q).

(** No two entries share a counter, and the next counter is new. *)
Record wf_queue q : Prop := {
  wf_counters : NoDup (map counter_of (_heap q));
  wf_next : Forall (fun e => counter_of e < _counter q) (_heap q)
}.

Lemma key_lt_irrefl a : key_lt a a = false.
Proof. unfold key_lt. rewrite !Z.ltb_irrefl, andb_false_r. done. Qed.

Lemma key_lt_false_trans a b c : key_lt a b = false -> key_lt b c = false -> key_lt a c = false.
Proof. unfold key_lt. intros. bool_to_prop. lia. Qed.

Lemma heappop_None l : heappop l = None <-> l = [].
Proof. destruct l as [|x l]; simpl; [done |]. split; [|done]. destruct (heappop l) as [[y r]|]; [|done]. by case_match. Qed.

Lemma heappop_spec l y r :
  heappop l = Some (y, r) -> l ≡ₚ y :: r /\ Forall (fun x => key_lt (entry_key x) (entry_key y) = false) r.
Proof.
  revert y r. induction l as [|x l IH]; simpl; intros y r Hp; [done |].
  destruct (heappop l) as [[z r']|] eqn:E.
  - destruct (IH z r' eq_refl) as [Hperm Hle]. destruct (key_lt (entry_key z) (entry_key x)) eqn:Ez; injection Hp as <- <-.
    + split; [rewrite Hperm; by constructor |]. constructor; [|done].
      unfold key_lt in *. bool_to_prop. lia.
    + split; [done |]. rewrite Hperm. constructor; [done |].
      eapply Forall_impl; [exact Hle |]. intros w Hw. exact (key_lt_false_trans _ _ _ Hw Ez).
  - injection Hp as <- <-. apply heappop_None in E as ->. by split.
Qed.

Definition rebalanced (clock : Z -> datetime) (boost : Z) (e : entry C) : entry C :=
  (_effective_priority boost (clock (counter_of e)) (command_of e), counter_of e, command_of e).

Lemma rebalance_map clock q :
  _heap (_rebalance clock q) = map (rebalanced clock (_deadline_boost_secs q)) (_heap q).
Proof. unfold _rebalance. simpl. apply map_ext. by intros [[p c] cmd]. Qed.

(** What an entry is apart from its priority. *)
Definition ticket (e : entry C) : Z * C := (counter_of e, command_of e).

(** The entry that [dequeue] takes. *)
Lemma dequeue_spec clock q :
  wf_queue q ->
  match _heap q with
  | [] => dequeue clock q = (None, q)
  | _ => exists e rest q', _heap q ≡ₚ e :: rest /\ dequeue clock q = (Some (command_of e), q') /\
           map ticket (_heap q') ≡ₚ map ticket rest /\ _counter q' = _counter q /\
           _deadline_boost_secs q' = _deadline_boost_secs q /\
           Forall (fun x => key_lt (entry_key (rebalanced clock (_deadline_boost_secs q) e))
                                   (entry_key (rebalanced clock (_deadline_boost_secs q) x)) = true) rest
  end.
Proof.
  intros [Hnd _]. unfold dequeue. destruct (_heap q) as [|x l] eqn:Eh; [done |]. rewrite <- Eh in *.
  set (f := rebalanced clock (_deadline_boost_secs q)).
  destruct (heappop (_heap (_rebalance clock q))) as [[e' r]|] eqn:Ep.
  2: { rewrite heappop_None, rebalance_map, Eh in Ep. done. }
  apply heappop_spec in Ep as [Hperm Hle]. rewrite rebalance_map in Hperm. fold f in Hperm.
  symmetry in Hperm. apply Permutation_map_inv in Hperm as (l' & El & Hl).
  destruct l' as [|e rest]; [done |]. simpl in El. injection El as -> ->.
  exists e, rest. eexists. split; [done |]. split; [reflexivity |]. simpl. split.
  { rewrite map_map. by apply Permutation_refl'. }
  split; [done |]. split; [done |].
  rewrite Hl in Hnd. simpl in Hnd. apply NoDup_cons in Hnd as [Hnew _].
  rewrite Forall_forall in *. intros y Hy.
  assert (key_lt (entry_key (f y)) (entry_key (f e)) = false) as Hf.
  { apply Hle. apply list_elem_of_fmap. by exists y. }
  assert (counter_of y <> counter_of e) as Hne.
  { intros E. apply Hnew, list_elem_of_fmap. by exists y. }
  unfold key_lt in *. subst f. simpl in *. bool_to_prop. lia.
Qed.

Lemma wf_dequeue clock q : wf_queue q -> wf_queue (dequeue clock q).2.
Proof.
  intros Hwf. pose proof (dequeue_spec clock q Hwf) as Hd.
  destruct (_heap q) as [|x l] eqn:Eh; [by rewrite Hd |]. rewrite <- Eh in Hd. clear x l Eh.
  destruct Hd as (e & rest & q' & Hperm & -> & Ht & Hc & _ & _). destruct Hwf as [Hnd Hlt].
  rewrite Hperm in Hnd, Hlt. apply Forall_cons in Hlt as [_ Hlt]. simpl in Hnd. apply NoDup_cons in Hnd as [_ Hnd].
  assert (map counter_of (_heap q') ≡ₚ map counter_of rest) as Hcs.
  { change counter_of with (fun e => (ticket e).1). by rewrite <- !(map_map ticket fst), Ht. }
  split.
  - by rewrite Hcs.
  - simpl. rewrite Hc. rewrite Forall_forall in *. intros x Hx.
    assert (counter_of x ∈ map counter_of rest) as Hin by (rewrite <- Hcs; apply list_elem_of_fmap; by exists x).
    apply list_elem_of_fmap in Hin as (y & -> & Hy). by apply Hlt.
Qed.

Lemma wf_enqueue now cmd q : wf_queue q -> wf_queue (enqueue now cmd q).
Proof.
  intros [Hnd Hlt]. split; simpl.
  - constructor; [|done]. intros Hin. apply list_elem_of_fmap in Hin as (e & Ee & He).
    rewrite Forall_forall in Hlt. specialize (Hlt e He). unfold counter_of in *. simpl in *. lia.
  - constructor; [unfold counter_of; simpl; lia |]. eapply Forall_impl; [exact Hlt |]. simpl. lia.
Qed.

Lemma queue_reachable_wf boost q : rtc queue_step (empty_queue boost) q -> wf_queue q.
Proof.
  intros Hr. assert (wf_queue (empty_queue boost)) as Hwf by (split; constructor).
  remember (empty_queue boost) as q0 eqn:E0. clear E0.
  induction Hr as [|q1 q2 q3 Hs _ IH]; [done |]. apply IH.
  inversion Hs; subst; [by apply wf_enqueue | by apply wf_dequeue].
Qed.

(** Whatever was enqueued and dequeued before, [dequeue] of a queue that is not
    empty takes one entry, and it is the first by effective priority at the time of
    the call, and among equals the one enqueued first; every other command stays
    queued, with its place among its equals.  An empty queue answers [None]. *)
Theorem dequeue_takes_first boost clock q :
  rtc queue_step (empty_queue boost) q ->
  match _heap q with
  | [] => dequeue clock q = (None, q)
  | _ => exists e rest q', _heap q ≡ₚ e :: rest /\ dequeue clock q = (Some (command_of e), q') /\
           map ticket (_heap q') ≡ₚ map ticket rest /\
           forall x, x ∈ rest ->
             let p y := _effective_priority (_deadline_boost_secs q) (clock (counter_of y)) (command_of y) in
             p e < p x \/ p e = p x /\ counter_of e < counter_of x
  end.
Proof.
  intros Hr. apply queue_reachable_wf in Hr. pose proof (dequeue_spec clock q Hr) as Hd.
  destruct (_heap q) as [|x l]; [done |]. destruct Hd as (e & rest & q' & Hp & Hd & Ht & _ & _ & Hlt).
  exists e, rest, q'. repeat (split; [done |]). intros y Hy. rewrite Forall_forall in Hlt.
  specialize (Hlt y Hy). unfold key_lt in Hlt. simpl in *. bool_to_prop. lia.
Qed.

Section Drain.
Context {S E R : Type} (execute : C -> S -> result E R * S).

Lemma drain_spec fuel : forall clocks q s,
  wf_queue q -> (size q <= fuel)%nat ->
  exists r q' s' done, drain execute fuel clocks q s = Some (r, q', s') /\
    run_all execute done s = (r, s', done) /\ commands q ≡ₚ done ++ commands q' /\
    (is_ok r = true -> _heap q' = []).
Proof.
  induction fuel as [|fuel IH]; intros clocks q s Hwf Hsize.
  - unfold size in Hsize. destruct (_heap q) eqn:Eh; [|simpl in Hsize; lia].
    exists (Ok []), q, s, []. simpl. rewrite Eh. by repeat split.
  - cbn [drain]. pose proof (dequeue_spec (clocks 0%nat) q Hwf) as Hd. pose proof (wf_dequeue (clocks 0%nat) q Hwf) as Hwf1.
    destruct (_heap q) as [|x l] eqn:Eh; [exists (Ok []), q, s, []; by repeat split |].
    rewrite <- Eh in Hd. destruct Hd as (e & rest & q1 & Hperm & Hd & Ht & _).
    assert (commands q ≡ₚ command_of e :: commands q1) as Hcmds.
    { unfold commands. rewrite Hperm. simpl. constructor. change command_of with (fun e => (ticket e).2).
      by rewrite <- !(map_map ticket snd), Ht. }
    assert (size q1 <= fuel)%nat as Hsize1.
    { apply Permutation_length in Hcmds. unfold commands, size in *. simpl in Hcmds.
      rewrite !length_map in Hcmds. lia. }
    rewrite Hd in Hwf1. simpl in Hwf1. unfold run_next. rewrite Hd.
    destruct (execute (command_of e) s) as [[a|err] s1] eqn:Ex.
    + destruct (IH (fun n => clocks (Datatypes.S n)) q1 s1 Hwf1 Hsize1) as (r & q' & s' & done & -> & Hrun & Hp & Hempty).
      destruct r as [rs|err]; eexists _, _, _, (command_of e :: done); (split; [reflexivity |]);
        simpl; rewrite Ex, Hrun; (split; [done |]); split; [by rewrite Hcmds, Hp | done | by rewrite Hcmds, Hp | done].
    + eexists _, _, _, [command_of e]. split; [reflexivity |]. simpl. rewrite Ex. by repeat split.
Qed.

(** Draining a queue returns: it runs its commands one after the other, each at
    most once, until the queue is empty or one of them raises; then the commands
    that were not started are still queued, and the one that raised is not. *)
Theorem drain_runs_each_once boost clocks q s :
  rtc queue_step (empty_queue boost) q ->
  exists r q' s' done, drain execute (size q) clocks q s = Some (r, q', s') /\
    run_all execute done s = (r, s', done) /\ commands q ≡ₚ done ++ commands q' /\
    (is_ok r = true -> _heap q' = []).
Proof. intros Hr. apply drain_spec; [by eapply queue_reachable_wf | lia]. Qed.
End Drain.
End Queue.

(** ** Witnesses *)

Definition job := SingleObservationIngestCommand (Request := string).
#[local] Instance job_command : IngestionCommand job := single_command (fun s => s).

Definition normal : job := Single "a" 5 None None.
Definition low_soon : job := Single "b" 7 (Some (seconds 100)) None.
Definition two_jobs : PriorityJobQueue job :=
  enqueue 0 normal (enqueue 0 low_soon (empty_queue 30)).

Lemma two_jobs_reachable : rtc queue_step (empty_queue 30) two_jobs.
Proof. eapply rtc_l; [apply (step_enqueue 0 low_soon) |]. apply rtc_once, (step_enqueue 0 normal). Qed.

(** The deadline of the low-priority job comes within the boost. *)
Lemma dequeue_takes_first_witness :
  (dequeue (fun _ => 0) two_jobs).1 = Some normal /\ (dequeue (fun _ => seconds 70) two_jobs).1 = Some low_soon /\
  exists e q', dequeue (fun _ => seconds 70) two_jobs = (Some (command_of e), q').
Proof.
  split; [vm_compute; reflexivity |]. split; [vm_compute; reflexivity |].
  destruct (dequeue_takes_first 30 (fun _ => seconds 70) two_jobs two_jobs_reachable) as (e & rest & q' & _ & Hd & _).
  exists e, q'. exact Hd.
Defined.

Definition failing (c : job) (log : list string) : result string string * list string :=
  if decide (request c = "a") then (Raise "boom", log) else (Ok (request c), request c :: log).

Lemma drain_runs_each_once_witness :
  exists r q' s' done, drain failing 2 (fun _ _ => 0) two_jobs [] = Some (r, q', s') /\
    run_all failing done [] = (r, s', done) /\ commands two_jobs ≡ₚ done ++ commands q'.
Proof.
  destruct (drain_runs_each_once failing 30 (fun _ _ => 0) two_jobs [] two_jobs_reachable)
    as (r & q' & s' & done & Hd & Hr & Hp & _).
  exists r, q', s', done. split; [exact Hd |]. split; [exact Hr | exact Hp].
Defined.
End JobQueueTheorems.
