(* ===== verification/LruCache.v ===== *)
(** * The in-process LRU cache

    [services/ingestor/cache.py], [_LruNode] and [LruObservationCache]: a
    dictionary from keys to the nodes of a doubly linked list with two sentinels,
    modelled with its nodes in a store, every assignment to [prev] and [next]
    written out.  Module [Spec] is the abstract cache, a list of entries with the
    most recently used first; [Lru] is the code; the theorems show that the code
    refines the list, that it never holds more than its capacity, and that it
    holds exactly the most recently used keys. *)

From S2P Require Import Prelude.

(** ** The abstract cache *)

Module Spec.
Section spec.
Context {V : Type}.

(** Entries, the most recently used first. *)
Record cache := Cache {
  capacity : Z;
  entries : list (Z * option V);
  hits : Z;
  misses : Z
}.

Definition init (capacity : Z) : cache := Cache capacity [] 0 0.

Definition lookup (k : Z) (l : list (Z * option V)) : option (option V) :=
  snd <$> List.find (fun e => k =? fst e) l.

Definition remove (k : Z) (l : list (Z * option V)) : list (Z * option V) :=
  List.filter (fun e => negb (k =? fst e)) l.

Definition get (k : Z) (c : cache) : option V * cache :=
  match lookup k (entries c) with
  | None => (None, Cache (capacity c) (entries c) (hits c) (misses c + 1))
  | Some v => (v, Cache (capacity c) ((k, v) :: remove k (entries c)) (hits c + 1) (misses c))
  end.

Definition put (k : Z) (v : option V) (c : cache) : cache :=
  let l := (k, v) :: remove k (entries c) in
  let l' := match lookup k (entries c) with
            | Some _ => l
            | None => if capacity c <? Z.of_nat (length l) then removelast l else l
            end in
  Cache (capacity c) l' (hits c) (misses c).

Definition invalidate (k : Z) (c : cache) : cache :=
  Cache (capacity c) (remove k (entries c)) (hits c) (misses c).

Definition clear (c : cache) : cache := init (capacity c).

End spec.
Arguments cache : clear implicits.
End Spec.

(** ** The code *)

Module Lru.

(** A node's address. *)
Abbreviation loc := nat (only parsing).

Section lru.
Context {V : Type}.

(** [_LruNode]. *)
Record node := Node {
  key : Z;
  value : option V;
  prev : option loc;
  next : option loc
}.

(** [LruObservationCache], with the store its nodes live in; [nnodes] is the next
    free address. *)
Record cache := Cache {
  capacity : Z;
  map : gmap Z loc;
  head : loc;
  tail : loc;
  heap : gmap loc node;
  nnodes : loc;
  hits : Z;
  misses : Z
}.

(** Attribute reads and writes; an address outside the store does not occur. *)
Definition get_prev (h : gmap loc node) (p : loc) : option loc := h !! p ≫= prev.
Definition get_next (h : gmap loc node) (p : loc) : option loc := h !! p ≫= next.

Definition set_prev (p : loc) (o : option loc) (h : gmap loc node) : gmap loc node :=
  alter (fun n => Node (key n) (value n) o (next n)) p h.
Definition set_next (p : loc) (o : option loc) (h : gmap loc node) : gmap loc node :=
  alter (fun n => Node (key n) (value n) (prev n) o) p h.
Definition set_value (p : loc) (v : option V) (h : gmap loc node) : gmap loc node :=
  alter (fun n => Node (key n) v (prev n) (next n)) p h.

Definition with_heap (h : gmap loc node) (c : cache) : cache :=
  Cache (capacity c) (map c) (head c) (tail c) h (nnodes c) (hits c) (misses c).

Definition with_map (m : gmap Z loc) (c : cache) : cache :=
  Cache (capacity c) m (head c) (tail c) (heap c) (nnodes c) (hits c) (misses c).

(** [_LruNode(key, value)]. *)
Definition new_node (k : Z) (v : option V) (c : cache) : loc * cache :=
  (nnodes c,
   Cache (capacity c) (map c) (head c) (tail c)
         (<[nnodes c := Node k v None None]> (heap c)) (S (nnodes c)) (hits c) (misses c)).

(** [__init__]: the two sentinels, linked to each other. *)
Definition init (capacity : Z) : cache :=
  let h := <[0%nat := Node (-1) None None None]> (<[1%nat := Node (-2) None None None]> ∅) in
  let h := set_next 0%nat (Some 1%nat) h in
  let h := set_prev 1%nat (Some 0%nat) h in
  Cache capacity ∅ 0 1 h 2 0 0.

(** [_remove]. *)
Definition _remove (p : loc) (h : gmap loc node) : gmap loc node :=
  let prv := get_prev h p in
  let nxt := get_next h p in
  let h := match prv with Some a => set_next a nxt h | None => h end in
  match nxt with Some b => set_prev b prv h | None => h end.

(** [_prepend]. *)
Definition _prepend (hd p : loc) (h : gmap loc node) : gmap loc node :=
  let h := set_prev p (Some hd) h in
  let h := set_next p (get_next h hd) h in
  let h := match get_next h hd with Some b => set_prev b (Some p) h | None => h end in
  set_next hd (Some p) h.

(** Reading a node's value. *)
Definition node_value (h : gmap loc node) (p : loc) : option V := h !! p ≫= value.

Definition get (k : Z) (c : cache) : option V * cache :=
  match map c !! k with
  | None => (None, Cache (capacity c) (map c) (head c) (tail c) (heap c) (nnodes c)
                         (hits c) (misses c + 1))
  | Some p =>
      let h := _prepend (head c) p (_remove p (heap c)) in
      (node_value h p,
       Cache (capacity c) (map c) (head c) (tail c) h (nnodes c) (hits c + 1) (misses c))
  end.

(** The eviction at the end of [put]: the node before the tail sentinel. *)
Definition evict (c : cache) : cache :=
  match get_prev (heap c) (tail c) with
  | Some lru =>
      if decide (lru = head c) then c
      else
        let c' := with_heap (_remove lru (heap c)) c in
        match heap c' !! lru with
        | Some n => with_map (delete (key n) (map c')) c'
        | None => c'
        end
  | None => c
  end.

Definition put (k : Z) (v : option V) (c : cache) : cache :=
  match map c !! k with
  | Some p => with_heap (_prepend (head c) p (_remove p (set_value p v (heap c)))) c
  | None =>
      let '(p, c) := new_node k v c in
      let c := with_map (<[k := p]> (map c)) c in
      let c := with_heap (_prepend (head c) p (heap c)) c in
      if capacity c <? Z.of_nat (size (map c)) then evict c else c
  end.

Definition invalidate (k : Z) (c : cache) : cache :=
  match map c !! k with
  | None => c
  | Some p => with_heap (_remove p (heap c)) (with_map (delete k (map c)) c)
  end.

Definition clear (c : cache) : cache :=
  let h := set_next (head c) (Some (tail c)) (heap c) in
  let h := set_prev (tail c) (Some (head c)) h in
  Cache (capacity c) ∅ (head c) (tail c) h (nnodes c) 0 0.

(** [size] and [hit_ratio]. *)
Definition size_ (c : cache) : Z := Z.of_nat (size (map c)).

Definition hit_ratio (c : cache) : Q :=
  let total := hits c + misses c in
  if total =? 0 then 0%Q else (inject_Z (hits c) / inject_Z total)%Q.

End lru.
Arguments node : clear implicits.
Arguments cache : clear implicits.
End Lru.

(** ** The representation relation *)

Module Rep.
Import Lru.
Section rep.
Context {V : Type}.

(** Each node's [next] is its successor on the path, and the successor's [prev]
    leads back. *)
Fixpoint linked (h : gmap loc (node V)) (path : list loc) : Prop :=
  match path with
  | a :: (b :: _) as t => get_next h a = Some b /\ get_prev h b = Some a /\ linked h t
  | _ => True
  end.

Definition data (h : gmap loc (node V)) (p : loc) : option (Z * option V) :=
  (fun n => (key n, value n)) <$> h !! p.

(** Between the sentinels the store holds exactly the entries [es], each with its
    node's address. *)
Record chain (h : gmap loc (node V)) (hd tl : loc) (es : list (loc * (Z * option V))) : Prop := {
  chain_linked : linked h (hd :: es.*1 ++ [tl]);
  chain_nodup : NoDup (hd :: es.*1 ++ [tl]);
  chain_data : Forall (fun e => data h e.1 = Some e.2) es
}.

(** The dictionary is an index of the entries. *)
Definition indexed (m : gmap Z loc) (es : list (loc * (Z * option V))) : Prop :=
  forall k p, m !! k = Some p <-> exists v, (p, (k, v)) ∈ es.

(** The cache holds the entries [es], and the dictionary indexes them. *)
Record holds (c : cache V) (es : list (loc * (Z * option V))) : Prop := {
  holds_chain : chain (heap c) (head c) (tail c) es;
  holds_keys : NoDup (es.*2.*1);
  holds_map : indexed (map c) es;
  holds_fresh : forall p, (nnodes c <= p)%nat -> heap c !! p = None
}.

Definition represents (c : cache V) (s : Spec.cache V) : Prop :=
  exists es, holds c es /\
    s = Spec.Cache (capacity c) es.*2 (hits c) (misses c).

End rep.
End Rep.

(** ** The proof that the code refines the list *)

Module RepFacts.
Import Lru Rep.
Section facts.
Context {V : Type}.
Implicit Types (h : gmap loc (node V)) (es : list (loc * (Z * option V))).
Implicit Types (c : cache V) (s : Spec.cache V).

Lemma get_next_is_some h p q : get_next h p = Some q -> is_Some (h !! p).
Proof. unfold get_next. destruct (h !! p); simpl; [by eexists | done]. Qed.

Lemma get_prev_is_some h p q : get_prev h p = Some q -> is_Some (h !! p).
Proof. unfold get_prev. destruct (h !! p); simpl; [by eexists | done]. Qed.

Lemma next_set_next h p o q :
  is_Some (h !! p) -> get_next (set_next p o h) q = if decide (q = p) then o else get_next h q.
Proof.
  intros [n Hn]. unfold get_next, set_next. destruct (decide (q = p)) as [->|Hq].
  - by rewrite lookup_alter_eq, Hn.
  - by rewrite lookup_alter_ne.
Qed.

Lemma prev_set_prev h p o q :
  is_Some (h !! p) -> get_prev (set_prev p o h) q = if decide (q = p) then o else get_prev h q.
Proof.
  intros [n Hn]. unfold get_prev, set_prev. destruct (decide (q = p)) as [->|Hq].
  - by rewrite lookup_alter_eq, Hn.
  - by rewrite lookup_alter_ne.
Qed.

Lemma next_set_prev h p o q : get_next (set_prev p o h) q = get_next h q.
Proof.
  unfold get_next, set_prev. destruct (decide (q = p)) as [->|Hq];
    [rewrite lookup_alter_eq; by destruct (h !! p) | by rewrite lookup_alter_ne].
Qed.

Lemma prev_set_next h p o q : get_prev (set_next p o h) q = get_prev h q.
Proof.
  unfold get_prev, set_next. destruct (decide (q = p)) as [->|Hq];
    [rewrite lookup_alter_eq; by destruct (h !! p) | by rewrite lookup_alter_ne].
Qed.

Lemma next_set_value h p v q : get_next (set_value p v h) q = get_next h q.
Proof.
  unfold get_next, set_value. destruct (decide (q = p)) as [->|Hq];
    [rewrite lookup_alter_eq; by destruct (h !! p) | by rewrite lookup_alter_ne].
Qed.

Lemma prev_set_value h p v q : get_prev (set_value p v h) q = get_prev h q.
Proof.
  unfold get_prev, set_value. destruct (decide (q = p)) as [->|Hq];
    [rewrite lookup_alter_eq; by destruct (h !! p) | by rewrite lookup_alter_ne].
Qed.

Lemma data_set_next h p o q : data (set_next p o h) q = data h q.
Proof.
  unfold data, set_next. destruct (decide (q = p)) as [->|Hq];
    [rewrite lookup_alter_eq; by destruct (h !! p) | by rewrite lookup_alter_ne].
Qed.

Lemma data_set_prev h p o q : data (set_prev p o h) q = data h q.
Proof.
  unfold data, set_prev. destruct (decide (q = p)) as [->|Hq];
    [rewrite lookup_alter_eq; by destruct (h !! p) | by rewrite lookup_alter_ne].
Qed.

Lemma is_some_data h p : is_Some (h !! p) <-> is_Some (data h p).
Proof. unfold data. by rewrite fmap_is_Some. Qed.

Lemma node_value_data h p : node_value h p = data h p ≫= snd.
Proof. unfold node_value, data. by destruct (h !! p). Qed.

Lemma data_remove h p q : data (_remove p h) q = data h q.
Proof.
  unfold _remove. repeat case_match; by rewrite ?data_set_prev, ?data_set_next.
Qed.

Lemma data_prepend h hd p q : data (_prepend hd p h) q = data h q.
Proof.
  unfold _prepend. repeat case_match; by rewrite ?data_set_next, ?data_set_prev, ?data_set_next, ?data_set_prev.
Qed.

Lemma linked_app h xs a ys :
  linked h (xs ++ a :: ys) <-> linked h (xs ++ [a]) /\ linked h (a :: ys).
Proof.
  induction xs as [|x [|y xs] IH]; [simpl; tauto | simpl; tauto |].
  change (linked h (x :: y :: xs ++ a :: ys) <-> linked h (x :: y :: xs ++ [a]) /\ linked h (a :: ys)).
  cbn [linked]. change (y :: xs ++ a :: ys) with ((y :: xs) ++ a :: ys).
  change (y :: xs ++ [a]) with ((y :: xs) ++ [a]). rewrite IH. tauto.
Qed.

(** The links of a path only depend on the [next] of all but its last node and on
    the [prev] of all but its first. *)
Lemma linked_frame h h' path :
  (forall a, a ∈ removelast path -> get_next h' a = get_next h a) ->
  (forall b, b ∈ List.tl path -> get_prev h' b = get_prev h b) ->
  linked h path -> linked h' path.
Proof.
  induction path as [|a [|b path] IH]; intros Hn Hp; [done | done |].
  intros (H1 & H2 & H3). cbn [linked]. split_and!.
  - rewrite Hn; [done |]. by left.
  - rewrite Hp; [done |]. by left.
  - apply IH; [| |done].
    + intros x Hx. apply Hn. by right.
    + intros x Hx. apply Hp. by right.
Qed.

(** Every node of a path with at least two nodes is in the store. *)
Lemma linked_is_some h path q :
  linked h path -> (2 <= length path)%nat -> q ∈ path -> is_Some (h !! q).
Proof.
  induction path as [|a [|b path] IH]; simpl; [lia | lia |].
  intros (Hn & Hp & Hl) _ [->|Hq]%elem_of_cons; [by eapply get_next_is_some |].
  destruct path as [|d path]; [|apply IH; [done | simpl; lia | done]].
  apply list_elem_of_singleton in Hq as ->. by eapply get_prev_is_some.
Qed.

Lemma in_removelast {A} (x : A) (l : list A) : x ∈ removelast l -> x ∈ l.
Proof.
  induction l as [|y [|z l] IH]; [done | by intros ?%elem_of_nil |].
  intros [->|H]%elem_of_cons; [by left |]. right. by apply IH.
Qed.

Lemma in_tl {A} (x : A) (l : list A) : x ∈ List.tl l -> x ∈ l.
Proof. destruct l; [done |]. by right. Qed.

(** Splicing the node [p] out of the path. *)
Lemma linked_remove h xs a p b ys :
  linked h (xs ++ a :: p :: b :: ys) -> NoDup (xs ++ a :: p :: b :: ys) ->
  linked (_remove p h) (xs ++ a :: b :: ys).
Proof.
  intros Hl Hnd. pose proof Hl as Hl0.
  apply linked_app in Hl as [Hx (Hna & Hpp & Hnp & Hpb & Hy)].
  change (linked h (b :: ys)) in Hy.
  apply NoDup_app in Hnd as (_ & Hdis & [Ha [Hp [Hb Hys]%NoDup_cons]%NoDup_cons]%NoDup_cons).
  assert (is_Some (h !! a)) as Hsa by (by eapply get_next_is_some).
  assert (is_Some (set_next a (Some b) h !! b)) as Hsb.
  { apply is_some_data. rewrite data_set_next. apply is_some_data.
    by eapply get_prev_is_some. }
  assert (forall q, get_next (_remove p h) q = if decide (q = a) then Some b else get_next h q) as Hn.
  { intros q. unfold _remove. by rewrite Hpp, Hnp, next_set_prev, next_set_next. }
  assert (forall q, get_prev (_remove p h) q = if decide (q = b) then Some a else get_prev h q) as Hp'.
  { intros q. unfold _remove. by rewrite Hpp, Hnp, prev_set_prev, prev_set_next. }
  apply linked_app. split.
  - revert Hx. apply linked_frame.
    + intros x Hi. rewrite removelast_last in Hi. rewrite Hn. case_decide; [|done]. subst.
      exfalso. apply (Hdis a Hi). by left.
    + intros x Hi%in_tl. rewrite Hp'. case_decide; [|done]. subst.
      apply elem_of_app in Hi as [Hi|Hi%list_elem_of_singleton].
      * exfalso. apply (Hdis b Hi). do 2 right. by left.
      * exfalso. apply Ha. rewrite Hi. right. by left.
  - simpl. rewrite Hn, Hp', !decide_True by done. split_and!; [done | done |].
    change (linked (_remove p h) (b :: ys)). revert Hy. apply linked_frame.
    + intros x Hi%in_removelast. rewrite Hn. case_decide; [|done]. subst.
      exfalso. apply Ha. by right.
    + intros x Hi. rewrite Hp'. case_decide; [|done]. by subst.
Qed.

Lemma linked_prepend h hd p b ys :
  linked h (hd :: b :: ys) -> NoDup (p :: hd :: b :: ys) -> is_Some (h !! p) ->
  linked (_prepend hd p h) (hd :: p :: b :: ys).
Proof.
  intros (Hh & Hb & Hl) Hnd Hp. change (linked h (b :: ys)) in Hl.
  apply NoDup_cons in Hnd as [Hp1 [Hh1 [Hb1 Hys]%NoDup_cons]%NoDup_cons].
  assert (hd <> p /\ b <> p /\ hd <> b) as (N1 & N2 & N3).
  { split_and!; intros ->; [apply Hp1 | apply Hp1 | apply Hh1]; set_solver. }
  set (h1 := set_prev p (Some hd) h). set (h2 := set_next p (get_next h1 hd) h1).
  assert (forall q, is_Some (h2 !! q) <-> is_Some (h !! q)) as Hs.
  { intros q. by rewrite !is_some_data; unfold h2, h1; rewrite data_set_next, data_set_prev. }
  assert (is_Some (h1 !! p)) as Hs1.
  { apply is_some_data. unfold h1. rewrite data_set_prev. by apply is_some_data. }
  assert (forall q, get_next h2 q = if decide (q = p) then Some b else get_next h q) as Hn2.
  { intros q. unfold h2. rewrite next_set_next by done. unfold h1. by rewrite !next_set_prev, Hh. }
  assert (_prepend hd p h = set_next hd (Some p) (set_prev b (Some p) h2)) as Heq.
  { unfold _prepend. fold h1. fold h2. by rewrite Hn2, decide_False, Hh by done. }
  assert (is_Some (set_prev b (Some p) h2 !! hd)) as Hs2.
  { apply is_some_data. rewrite data_set_prev. apply is_some_data, Hs.
    by eapply get_next_is_some. }
  assert (forall q, get_next (_prepend hd p h) q =
            if decide (q = hd) then Some p else if decide (q = p) then Some b else get_next h q) as Hn.
  { intros q. by rewrite Heq, next_set_next, next_set_prev, Hn2 by done. }
  assert (forall q, get_prev (_prepend hd p h) q =
            if decide (q = b) then Some p else if decide (q = p) then Some hd else get_prev h q) as Hq.
  { intros q. rewrite Heq, prev_set_next, prev_set_prev by (apply Hs; by eapply get_prev_is_some).
    unfold h2, h1. by rewrite prev_set_next, prev_set_prev. }
  refine (conj _ (conj _ (conj _ (conj _ _)))).
  - by rewrite Hn, decide_True.
  - by rewrite Hq, decide_False, decide_True by congruence.
  - by rewrite Hn, decide_False, decide_True by congruence.
  - by rewrite Hq, decide_True.
  - change (linked (_prepend hd p h) (b :: ys)). revert Hl. apply linked_frame.
    + intros x Hx%in_removelast. rewrite Hn, !decide_False; [done | set_solver | set_solver].
    + intros x Hx. simpl in Hx. rewrite Hq, !decide_False; [done | set_solver | set_solver].
Qed.

(** Unlinking one node and prepending one, on whole chains. *)
Lemma chain_remove h hd tl es1 p e es2 :
  chain h hd tl (es1 ++ (p, e) :: es2) -> chain (_remove p h) hd tl (es1 ++ es2).
Proof.
  intros [Hl Hnd Hd]. rewrite fmap_app, fmap_cons in Hl, Hnd. cbn [fst] in Hl, Hnd.
  rewrite <- app_assoc in Hl, Hnd. cbn [app] in Hl, Hnd.
  destruct (exists_last (l := hd :: es1.*1)) as (xs & a & Ea); [done |].
  assert (exists b ys, es2.*1 ++ [tl] = b :: ys) as (b & ys & Eb) by (destruct (es2.*1); eauto).
  rewrite Eb in Hl, Hnd. rewrite app_comm_cons in Hl, Hnd. rewrite Ea in Hl, Hnd.
  rewrite <- app_assoc in Hl, Hnd. cbn [app] in Hl, Hnd.
  split.
  - rewrite fmap_app, <- app_assoc, app_comm_cons, Ea, Eb, <- app_assoc. by apply linked_remove.
  - rewrite fmap_app, <- app_assoc, app_comm_cons, Ea, Eb, <- app_assoc. simpl.
    eapply sublist_NoDup; [exact Hnd |]. apply sublist_app; [done |].
    apply sublist_skip. by apply sublist_cons.
  - apply Forall_app in Hd as [Hd1 Hd2]. apply Forall_cons in Hd2 as [_ Hd2].
    apply Forall_app; split; eapply Forall_impl; try done; intros ? ?; by rewrite data_remove.
Qed.

Lemma chain_prepend h hd tl es p e :
  chain h hd tl es -> data h p = Some e -> p ∉ hd :: es.*1 ++ [tl] ->
  chain (_prepend hd p h) hd tl ((p, e) :: es).
Proof.
  intros [Hl Hnd Hd] Hp Hin. split.
  - assert (exists b ys, es.*1 ++ [tl] = b :: ys) as (b & ys & Eb) by (destruct (es.*1); eauto).
    rewrite fmap_cons. simpl app. rewrite Eb in *. apply linked_prepend; [done | |].
    + by apply NoDup_cons.
    + apply is_some_data. by eexists.
  - rewrite fmap_cons. simpl. apply NoDup_cons in Hnd as [Hh Hnd].
    apply NoDup_cons; split; [set_solver |]. apply NoDup_cons; split; [set_solver | done].
  - constructor; [by rewrite data_prepend |].
    eapply Forall_impl; [done |]. intros ? ?. by rewrite data_prepend.
Qed.

Lemma chain_address h hd tl es1 p e es2 :
  chain h hd tl (es1 ++ (p, e) :: es2) -> p ∉ hd :: (es1 ++ es2).*1 ++ [tl].
Proof.
  intros [_ Hnd _]. apply NoDup_cons in Hnd as [Hh Hnd].
  rewrite fmap_app, fmap_cons, <- app_assoc in Hnd, Hh. cbn [fst app] in Hnd, Hh.
  apply NoDup_app in Hnd as (_ & Hdis & [Hp _]%NoDup_cons).
  rewrite fmap_app, <- app_assoc. intros [->|[Hin|Hin]%elem_of_app]%elem_of_cons; [| |done].
  - apply Hh, elem_of_app. right. by left.
  - apply (Hdis p Hin). by left.
Qed.

(** *** The dictionary as an index of the entries *)

Lemma indexed_size m es : indexed m es -> NoDup (es.*2.*1) -> size m = length es.
Proof.
  intros Hm Hk. set (f := fun e : loc * (Z * option V) => (e.2.1, e.1)).
  assert ((f <$> es).*1 = es.*2.*1) as Hf.
  { by rewrite <- !list_fmap_compose. }
  assert (m = list_to_map (f <$> es)) as ->.
  { apply map_eq. intros k. apply option_eq. intros p. rewrite (Hm k p).
    rewrite <- elem_of_list_to_map by by rewrite Hf.
    rewrite list_elem_of_fmap. split.
    - intros [v Hv]. by exists (p, (k, v)).
    - intros ([p' [k' v]] & [= -> ->] & Hv). by exists v. }
  rewrite map_size_list_to_map by by rewrite Hf. by rewrite length_fmap.
Qed.

Lemma indexed_split m es k p :
  indexed m es -> m !! k = Some p -> exists v es1 es2, es = es1 ++ (p, (k, v)) :: es2.
Proof. intros Hm [v Hv]%Hm. exists v. by apply list_elem_of_split. Qed.

Lemma key_in es p k v : (p, (k, v)) ∈ es -> k ∈ es.*2.*1.
Proof.
  intros H. apply list_elem_of_fmap. exists (k, v). split; [done |].
  apply list_elem_of_fmap. by exists (p, (k, v)).
Qed.

Lemma indexed_delete m es1 p k v es2 :
  indexed m (es1 ++ (p, (k, v)) :: es2) -> NoDup ((es1 ++ (p, (k, v)) :: es2).*2.*1) ->
  indexed (delete k m) (es1 ++ es2).
Proof.
  intros Hm Hk k' p'. rewrite !fmap_app in Hk. apply NoDup_app in Hk as (_ & Hd & [Hk2 _]%NoDup_cons).
  assert (forall p'' v'', (p'', (k, v'')) ∈ es1 ++ es2 -> False) as Hno.
  { intros p'' v'' [Hin|Hin]%elem_of_app.
    - apply (Hd k); [by eapply key_in | by left].
    - apply Hk2. by eapply key_in. }
  rewrite lookup_delete_Some, (Hm k' p'). split.
  - intros [Hne [v' Hv]]. exists v'. apply elem_of_app.
    apply elem_of_app in Hv as [Hv|[[= -> -> ->]|Hv]%elem_of_cons]; [by left | done | by right].
  - intros [v' Hv]. split; [intros <-; by eapply Hno |]. exists v'. set_solver.
Qed.

Lemma indexed_move m es1 p k v v' es2 :
  indexed m (es1 ++ (p, (k, v)) :: es2) -> indexed m ((p, (k, v')) :: es1 ++ es2).
Proof.
  intros Hm k' p'. rewrite (Hm k' p'). split; intros [w Hw].
  - apply elem_of_app in Hw as [Hw|[[= -> -> ->]|Hw]%elem_of_cons];
      [exists w | exists v' | exists w]; set_solver.
  - apply elem_of_cons in Hw as [[= -> -> ->]|[Hw|Hw]%elem_of_app];
      [exists v | exists w | exists w]; set_solver.
Qed.

Lemma indexed_insert m es p k v :
  indexed m es -> m !! k = None -> indexed (<[k := p]> m) ((p, (k, v)) :: es).
Proof.
  intros Hm Hk k' p'. rewrite lookup_insert_Some, (Hm k' p'). split.
  - intros [[-> ->]|[Hne [w Hw]]]; [exists v | exists w]; set_solver.
  - intros [w [[= -> -> ->]|Hw]%elem_of_cons]; [by left |]. right. split; [|by exists w].
    intros <-. assert (m !! k = Some p') as Hs by (apply Hm; by exists w). congruence.
Qed.

Lemma keys_absent m es k : indexed m es -> m !! k = None -> k ∉ es.*2.*1.
Proof.
  intros Hm Hk ([k' v] & Hke & ([p e] & He & Hin)%list_elem_of_fmap)%list_elem_of_fmap.
  simpl in *. subst. assert (m !! k' = Some p) as Hs by (apply Hm; by exists v). congruence.
Qed.

Lemma keys_middle es1 p k v es2 :
  NoDup ((es1 ++ (p, (k, v)) :: es2).*2.*1) <->
  NoDup (((p, (k, v)) :: es1 ++ es2).*2.*1).
Proof. by rewrite <- Permutation_middle. Qed.

(** *** The list operations on the entries *)

Lemma spec_absent (l : list (Z * option V)) k :
  k ∉ l.*1 -> Spec.lookup k l = None /\ Spec.remove k l = l.
Proof.
  unfold Spec.lookup, Spec.remove. induction l as [|[k' v] l IH]; [done |]. simpl.
  intros [Hne Hin]%not_elem_of_cons. destruct (Z.eqb_spec k k'); [done |].
  destruct (IH Hin) as [H1 H2]. simpl. by rewrite H2.
Qed.

Lemma spec_present (l1 : list (Z * option V)) k v l2 :
  NoDup ((l1 ++ (k, v) :: l2).*1) ->
  Spec.lookup k (l1 ++ (k, v) :: l2) = Some v /\ Spec.remove k (l1 ++ (k, v) :: l2) = l1 ++ l2.
Proof.
  unfold Spec.lookup, Spec.remove. induction l1 as [|[k' v'] l1 IH]; simpl.
  - intros [Hk _]%NoDup_cons. rewrite Z.eqb_refl. simpl. split; [done |].
    apply (spec_absent _ _ Hk).
  - intros [Hk Hnd]%NoDup_cons. destruct (Z.eqb_spec k k') as [->|Hne].
    + exfalso. apply Hk. rewrite fmap_app. apply elem_of_app. right. by left.
    + destruct (IH Hnd) as [H1 H2]. simpl. by rewrite H2.
Qed.

(** *** The operations *)

(** Moving an entry to the front, with a new value if it is replaced. *)
Lemma holds_move c c' h es1 p k v v' es2 :
  holds c (es1 ++ (p, (k, v)) :: es2) ->
  chain h (head c) (tail c) (es1 ++ (p, (k, v')) :: es2) ->
  (forall q, heap c !! q = None -> h !! q = None) ->
  map c' = map c -> head c' = head c -> tail c' = tail c -> nnodes c' = nnodes c ->
  heap c' = _prepend (head c) p (_remove p h) ->
  holds c' ((p, (k, v')) :: es1 ++ es2).
Proof.
  intros [_ Hk Hm Hf] Hc Hdom E1 E2 E3 E4 E5. split.
  - rewrite E2, E3, E5. pose proof Hc as [_ Hnd Hd].
    apply chain_prepend; [by eapply chain_remove | |].
    + rewrite data_remove. rewrite Forall_app, Forall_cons in Hd. tauto.
    + by eapply chain_address.
  - by apply keys_middle in Hk.
  - rewrite E1. by eapply indexed_move.
  - intros q Hq. rewrite E4 in Hq. apply eq_None_not_Some. rewrite E5, is_some_data.
    rewrite data_prepend, data_remove, <- is_some_data. apply eq_None_not_Some, Hdom. by apply Hf.
Qed.

Lemma get_represents c s k :
  represents c s ->
  fst (get k c) = fst (Spec.get k s) /\ represents (snd (get k c)) (snd (Spec.get k s)).
Proof.
  intros (es & Hh & ->). unfold get, Spec.get. simpl. destruct (map c !! k) as [p|] eqn:E.
  - pose proof Hh as [Hc Hk Hm Hf].
    destruct (indexed_split _ _ _ _ Hm E) as (v & es1 & es2 & ->).
    rewrite !fmap_app, !fmap_cons in Hk |- *. simpl in Hk |- *.
    destruct (spec_present _ _ _ _ Hk) as [-> ->]. simpl. split.
    + rewrite node_value_data, data_prepend, data_remove.
      destruct Hc as [_ _ Hd]. apply Forall_app in Hd as [_ [Hd _]%Forall_cons].
      simpl in Hd. by rewrite Hd.
    + exists ((p, (k, v)) :: es1 ++ es2). split; [|by rewrite fmap_cons, fmap_app].
      by eapply (holds_move c _ (heap c)).
  - destruct (spec_absent es.*2 k) as [-> _]; [by eapply keys_absent, E; apply (holds_map _ _ Hh) |].
    split; [done |]. exists es. split; [|done]. by destruct Hh.
Qed.

Lemma data_set_value h p v q k w :
  data h p = Some (k, w) -> data (set_value p v h) q = if decide (q = p) then Some (k, v) else data h q.
Proof.
  unfold data, set_value. intros Hp. destruct (decide (q = p)) as [->|Hq].
  - rewrite lookup_alter_eq. destruct (h !! p); simplify_eq/=. done.
  - by rewrite lookup_alter_ne.
Qed.

Lemma chain_set_value h hd tl es1 p k w es2 v :
  chain h hd tl (es1 ++ (p, (k, w)) :: es2) ->
  chain (set_value p v h) hd tl (es1 ++ (p, (k, v)) :: es2).
Proof.
  intros Hc. pose proof Hc as [Hl Hnd Hd]. rewrite !fmap_app, !fmap_cons in Hl, Hnd. cbn [fst] in Hl, Hnd. split.
  - by rewrite fmap_app, fmap_cons; simpl fst; revert Hl; apply linked_frame;
      intros q _; [apply next_set_value | apply prev_set_value].
  - by rewrite fmap_app, fmap_cons.
  - apply Forall_app in Hd as [Hd1 [Hdp Hd2]%Forall_cons]. simpl in Hdp.
    assert (forall e, e ∈ es1 ++ es2 -> e.1 <> p) as Hne.
    { intros e He <-. apply chain_address in Hc. apply Hc. right. apply elem_of_app. left.
      by apply list_elem_of_fmap_2. }
    rewrite Forall_app, Forall_cons, !Forall_forall in *. split_and!.
    + intros e He. rewrite (data_set_value _ _ _ _ _ _ Hdp), decide_False by (apply Hne; set_solver). auto.
    + simpl. by rewrite (data_set_value _ _ _ _ _ _ Hdp), decide_True.
    + intros e He. rewrite (data_set_value _ _ _ _ _ _ Hdp), decide_False by (apply Hne; set_solver). auto.
Qed.

(** A new node is linked in behind the head sentinel. *)
Lemma holds_insert c es k v :
  holds c es -> map c !! k = None ->
  let c1 := with_map (<[k := nnodes c]> (map c)) (snd (new_node k v c)) in
  holds (with_heap (_prepend (head c) (nnodes c) (heap c1)) c1) ((nnodes c, (k, v)) :: es).
Proof.
  intros [[Hl Hnd Hd] Hk Hm Hf] E c1.
  assert (forall q, is_Some (heap c !! q) -> q <> nnodes c) as Hfr.
  { intros q [n Hq] ->. rewrite Hf in Hq; [done | lia]. }
  set (h := heap c1) in *. assert (forall q, q <> nnodes c -> h !! q = heap c !! q) as Hh.
  { intros q Hq. unfold h. simpl. by rewrite lookup_insert_ne. }
  assert (forall q, q ∈ head c :: es.*1 ++ [tail c] -> is_Some (heap c !! q)) as Hin.
  { intros q. apply linked_is_some; [done |]. simpl. rewrite length_app. simpl. lia. }
  assert (chain h (head c) (tail c) es) as Hc.
  { split; [| done |].
    - revert Hl. apply linked_frame; intros q Hq; unfold get_next, get_prev; rewrite Hh; try done;
        apply Hfr, Hin; first [by apply in_removelast | by apply in_tl].
    - eapply Forall_impl; [exact Hd |]. intros e He. unfold data. rewrite Hh; [done |].
      apply Hfr, is_some_data. rewrite He. by eexists. }
  split.
  - simpl. apply chain_prepend; [done | |].
    + unfold data, h. simpl. by rewrite lookup_insert_eq.
    + intros Hp%Hin. by apply Hfr in Hp.
  - simpl. constructor; [by eapply keys_absent, E | done].
  - simpl. by apply indexed_insert.
  - simpl. intros q Hq. apply eq_None_not_Some. rewrite is_some_data, data_prepend, <- is_some_data.
    rewrite Hh by lia. apply eq_None_not_Some, Hf. lia.
Qed.

Lemma holds_remove c es1 p k v es2 :
  holds c (es1 ++ (p, (k, v)) :: es2) ->
  holds (with_heap (_remove p (heap c)) (with_map (delete k (map c)) c)) (es1 ++ es2).
Proof.
  intros [Hc Hk Hm Hf]. split; simpl.
  - by eapply chain_remove.
  - apply keys_middle in Hk. rewrite !fmap_cons in Hk. by apply NoDup_cons in Hk as [_ Hk].
  - by eapply indexed_delete.
  - intros q Hq. apply eq_None_not_Some. rewrite is_some_data, data_remove, <- is_some_data.
    by apply eq_None_not_Some, Hf.
Qed.

(** The node before the tail sentinel is the last entry. *)
Lemma chain_last h hd tl es p e :
  chain h hd tl (es ++ [(p, e)]) -> get_prev h tl = Some p /\ p <> hd.
Proof.
  intros [Hl Hnd _]. rewrite fmap_app in Hl, Hnd. cbn in Hnd.
  rewrite <- app_assoc in Hl, Hnd. cbn [fmap list_fmap fst app] in Hl. split.
  - rewrite app_comm_cons in Hl. apply linked_app in Hl as [_ Hl]. apply Hl.
  - apply NoDup_cons in Hnd as [Hin _]. intros ->. apply Hin, elem_of_app. right. by left.
Qed.

Lemma holds_evict c es p e : holds c (es ++ [(p, e)]) -> holds (evict c) es.
Proof.
  intros Hh. pose proof Hh as [Hc _ _ _]. destruct (chain_last _ _ _ _ _ _ Hc) as [Hp Hne].
  destruct e as [k v]. unfold evict. rewrite Hp, decide_False by done. simpl.
  assert (data (_remove p (heap c)) p = Some (k, v)) as Hd.
  { rewrite data_remove. destruct Hc as [_ _ Hd].
    by apply Forall_app in Hd as [_ [Hd _]%Forall_cons]. }
  unfold data in Hd. destruct (_remove p (heap c) !! p) as [n|]; simplify_eq/=.
  apply holds_remove in Hh. by rewrite app_nil_r in Hh.
Qed.

Lemma evict_fields c :
  capacity (evict c) = capacity c /\ hits (evict c) = hits c /\ misses (evict c) = misses c.
Proof. unfold evict. by repeat case_match. Qed.

(** What [put] has built before it looks at the capacity. *)
Definition inserted k v c : cache V :=
  let c1 := with_map (<[k := nnodes c]> (map c)) (snd (new_node k v c)) in
  with_heap (_prepend (head c) (nnodes c) (heap c1)) c1.

Lemma put_absent c k v :
  map c !! k = None ->
  put k v c = if capacity c <? Z.of_nat (size (map (inserted k v c)))
              then evict (inserted k v c) else inserted k v c.
Proof. intros E. unfold put. by rewrite E. Qed.

Lemma put_represents c s k v : represents c s -> represents (put k v c) (Spec.put k v s).
Proof.
  intros (es & Hh & ->). pose proof Hh as [Hc Hk Hm Hf].
  unfold Spec.put. cbn [Spec.entries Spec.capacity Spec.hits Spec.misses].
  destruct (map c !! k) as [p|] eqn:E.
  - unfold put. rewrite E. destruct (indexed_split _ _ _ _ Hm E) as (w & es1 & es2 & ->).
    rewrite !fmap_app, !fmap_cons in Hk |- *. simpl in Hk |- *.
    destruct (spec_present _ _ _ _ Hk) as [-> ->]. simpl.
    exists ((p, (k, v)) :: es1 ++ es2). split; [|by rewrite fmap_cons, fmap_app].
    eapply (holds_move c _ (set_value p v (heap c))); try done; [by eapply chain_set_value |].
    intros q Hq. unfold set_value. rewrite lookup_alter_None. done.
  - destruct (spec_absent es.*2 k) as [-> ->]; [by eapply keys_absent |].
    rewrite put_absent by done. pose proof (holds_insert c es k v Hh E) as Hi.
    change (holds (inserted k v c) ((nnodes c, (k, v)) :: es)) in Hi.
    rewrite (indexed_size _ _ (holds_map _ _ Hi) (holds_keys _ _ Hi)).
    change ((k, v) :: es.*2) with (((nnodes c, (k, v)) :: es).*2). rewrite length_fmap.
    case_match; [|by eexists].
    destruct (exists_last (l := (nnodes c, (k, v)) :: es)) as (es' & [p e] & Es); [done |].
    rewrite Es in Hi |- *. exists es'. split; [by apply holds_evict in Hi |].
    rewrite fmap_app. cbn [fmap list_fmap]. rewrite removelast_last.
    by destruct (evict_fields (inserted k v c)) as (-> & -> & ->).
Qed.

Lemma invalidate_represents c s k :
  represents c s -> represents (invalidate k c) (Spec.invalidate k s).
Proof.
  intros (es & Hh & ->). pose proof Hh as [Hc Hk Hm Hf]. unfold invalidate, Spec.invalidate. simpl.
  destruct (map c !! k) as [p|] eqn:E.
  - destruct (indexed_split _ _ _ _ Hm E) as (w & es1 & es2 & ->).
    exists (es1 ++ es2). split; [by eapply holds_remove |]. simpl. f_equal.
    rewrite !fmap_app, !fmap_cons in Hk |- *. simpl in Hk |- *. destruct (spec_present _ _ _ _ Hk) as [_ ->]. by rewrite fmap_app.
  - assert (k ∉ es.*2.*1) as Hka by (by eapply keys_absent).
    destruct (spec_absent _ _ Hka) as [_ ->]. by exists es.
Qed.

Lemma clear_represents c s : represents c s -> represents (clear c) (Spec.clear s).
Proof.
  intros (es & [[Hl Hnd Hd] Hk Hm Hf] & ->). exists []. split; [|done].
  assert (forall q, q = head c \/ q = tail c -> is_Some (heap c !! q)) as Hs.
  { intros q Hq. apply (linked_is_some _ _ _ Hl); [simpl; rewrite length_app; simpl; lia |].
    destruct Hq as [-> | ->]; [by left |]. right. apply elem_of_app. right. by left. }
  assert (head c <> tail c) as Hne.
  { intros E. apply NoDup_cons in Hnd as [Hin _]. rewrite E in Hin. apply Hin, elem_of_app. right. by left. }
  split; simpl.
  - split; [| |constructor]; simpl.
    + split_and!; [| |done].
      * by rewrite next_set_prev, next_set_next, decide_True by auto.
      * rewrite prev_set_prev, decide_True; [done | done |].
        apply is_some_data. rewrite data_set_next. apply is_some_data. auto.
    + apply NoDup_cons; split; [|by apply NoDup_singleton]. by intros ?%list_elem_of_singleton.
  - constructor.
  - intros k p. rewrite lookup_empty. split; [done |]. by intros [v ?%elem_of_nil].
  - intros q Hq. apply eq_None_not_Some. rewrite is_some_data, data_set_prev, data_set_next, <- is_some_data.
    by apply eq_None_not_Some, Hf.
Qed.

Lemma init_represents n : represents (init n) (Spec.init n : Spec.cache V).
Proof.
  exists []. split; [|done]. split; simpl.
  - split; [by vm_compute | | constructor]. simpl.
    apply NoDup_cons; split; [|by apply NoDup_singleton]. by intros ?%list_elem_of_singleton.
  - constructor.
  - intros k p. rewrite lookup_empty. split; [done |]. by intros [v ?%elem_of_nil].
  - intros q Hq. apply eq_None_not_Some. rewrite is_some_data, data_set_prev, data_set_next, <- is_some_data.
    rewrite !lookup_insert_ne by lia. rewrite lookup_empty. by intros [? ?].
Qed.

End facts.
End RepFacts.

(** ** Histories of operations *)

Module History.
Section history.
Context {V : Type}.

Inductive op :=
| Get (k : Z)
| Put (k : Z) (v : option V)
| Invalidate (k : Z)
| Clear.

(** One call on the code and on the abstract cache; only [get] answers. *)
Definition step (o : op) (c : Lru.cache V) : option (option V) * Lru.cache V :=
  match o with
  | Get k => let '(r, c') := Lru.get k c in (Some r, c')
  | Put k v => (None, Lru.put k v c)
  | Invalidate k => (None, Lru.invalidate k c)
  | Clear => (None, Lru.clear c)
  end.

Definition spec_step (o : op) (s : Spec.cache V) : option (option V) * Spec.cache V :=
  match o with
  | Get k => let '(r, s') := Spec.get k s in (Some r, s')
  | Put k v => (None, Spec.put k v s)
  | Invalidate k => (None, Spec.invalidate k s)
  | Clear => (None, Spec.clear s)
  end.

Fixpoint run (ops : list op) (c : Lru.cache V) : list (option (option V)) * Lru.cache V :=
  match ops with
  | [] => ([], c)
  | o :: ops => let '(r, c) := step o c in let '(rs, c) := run ops c in (r :: rs, c)
  end.

Fixpoint spec_run (ops : list op) (s : Spec.cache V) : list (option (option V)) * Spec.cache V :=
  match ops with
  | [] => ([], s)
  | o :: ops => let '(r, s) := spec_step o s in let '(rs, s) := spec_run ops s in (r :: rs, s)
  end.

(** What a cache of [n] entries should remember: every key in the order of its last
    use, and its last value.  A miss is not a use; invalidating a key forgets what
    was evicted, so that nothing comes back in its place. *)
Record ideal := Ideal { recent : list Z; latest : Z -> option V }.

Definition use (k : Z) (l : list Z) : list Z := k :: filter (fun k' => k <> k') l.

Definition ideal_step (n : nat) (o : op) (i : ideal) : ideal :=
  match o with
  | Get k => if decide (k ∈ take n (recent i)) then Ideal (use k (recent i)) (latest i) else i
  | Put k v => Ideal (use k (recent i)) (fun k' => if decide (k' = k) then v else latest i k')
  | Invalidate k => Ideal (filter (fun k' => k <> k') (take n (recent i))) (latest i)
  | Clear => Ideal [] (latest i)
  end.

Definition ideal_run (n : nat) (ops : list op) : ideal :=
  fold_left (fun i o => ideal_step n o i) ops (Ideal [] (fun _ => None)).

End history.
Arguments op : clear implicits.
Arguments ideal : clear implicits.
End History.

Module Facts.
Import History RepFacts.
Section facts.
Context {V : Type}.

Lemma step_represents (o : op V) c s :
  Rep.represents c s ->
  fst (step o c) = fst (spec_step o s) /\ Rep.represents (snd (step o c)) (snd (spec_step o s)).
Proof.
  intros H. destruct o; simpl.
  - pose proof (get_represents _ _ k H) as [H1 H2].
    destruct (Lru.get k c), (Spec.get k s). simpl in *. by subst.
  - split; [done | by apply put_represents].
  - split; [done | by apply invalidate_represents].
  - split; [done | by apply clear_represents].
Qed.

Lemma run_represents (ops : list (op V)) c s :
  Rep.represents c s ->
  fst (run ops c) = fst (spec_run ops s) /\ Rep.represents (snd (run ops c)) (snd (spec_run ops s)).
Proof.
  revert c s. induction ops as [|o ops IH]; intros c s H; [done |]. simpl.
  destruct (step_represents o _ _ H) as [H1 H2].
  destruct (step o c) as [r c'], (spec_step o s) as [r' s']. simpl in *. subst.
  destruct (IH _ _ H2) as [H3 H4].
  destruct (run ops c') as [rs c''], (spec_run ops s') as [rs' s'']. simpl in *. by subst.
Qed.

Lemma represents_size c (s : Spec.cache V) :
  Rep.represents c s -> Lru.size_ c = Z.of_nat (length (Spec.entries s)).
Proof.
  intros (es & [_ Hk Hm _] & ->). unfold Lru.size_. simpl.
  by rewrite (indexed_size _ _ Hm Hk), length_fmap.
Qed.

(** *** Most recent first *)

Lemma lookup_tagged (f : Z -> option V) k ks :
  Spec.lookup k ((fun k => (k, f k)) <$> ks) = if decide (k ∈ ks) then Some (f k) else None.
Proof.
  unfold Spec.lookup. induction ks as [|k' ks IH]; [done |].
  rewrite fmap_cons. cbn [List.find fst].
  destruct (Z.eqb_spec k k') as [->|Hne].
  - cbn. rewrite decide_True; [done | by left].
  - rewrite IH. do 2 case_decide; try done; exfalso; set_solver.
Qed.

Lemma remove_tagged (f : Z -> option V) k ks :
  Spec.remove k ((fun k => (k, f k)) <$> ks) = (fun k => (k, f k)) <$> filter (fun k' => k <> k') ks.
Proof.
  unfold Spec.remove. induction ks as [|k' ks IH]; [done |].
  rewrite fmap_cons. cbn [List.filter fst].
  destruct (Z.eqb_spec k k') as [->|Hne]; cbn [negb].
  - rewrite filter_cons_False by naive_solver. done.
  - rewrite filter_cons_True by done. simpl. by rewrite IH.
Qed.

Lemma filter_ne_id k (l : list Z) : k ∉ l -> filter (fun k' => k <> k') l = l.
Proof.
  induction l as [|k' l IH]; [done |]. intros [Hne Hin]%not_elem_of_cons.
  rewrite filter_cons_True by done. by rewrite IH.
Qed.

Lemma take_use_in n k (l : list Z) :
  NoDup l -> k ∈ take n l -> take n (use k l) = use k (take n l).
Proof.
  unfold use. intros Hnd Hin. apply list_elem_of_split in Hin as (l1 & l2 & E).
  assert (exists l2', l = l1 ++ k :: l2') as [l3 ->].
  { exists (l2 ++ drop n l). rewrite <- (take_drop n l) at 1. by rewrite E, <- app_assoc. }
  assert (length l1 < n)%nat as Hn.
  { apply (f_equal length) in E. rewrite length_app, length_take in E. simpl in E. lia. }
  apply NoDup_app in Hnd as (_ & Hd & [Hk Hl3]%NoDup_cons).
  assert (k ∉ l1) as Hl1 by (intros H; apply (Hd k H); by left).
  assert (exists m, n = (length l1 + S m)%nat) as [m ->] by (exists (n - length l1 - 1)%nat; lia).
  rewrite take_app_add, !filter_app. simpl take.
  rewrite !filter_cons_False, !filter_ne_id by naive_solver.
  assert (k ∉ take m l3) as Hm by (intros H; apply Hk; rewrite <- (take_drop m l3); set_solver).
  rewrite (filter_ne_id _ _ Hm), Nat.add_succ_r. cbn [take]. by rewrite take_app_add.
Qed.

Lemma take_use_out n k (l : list Z) :
  k ∉ take n l -> take n (use k l) = take n (k :: take n l).
Proof.
  unfold use. intros Hk. destruct n as [|n]; [done |]. cbn [take]. f_equal.
  rewrite <- (take_drop (S n) l) at 1. rewrite filter_app, filter_ne_id by done.
  destruct (decide (S n <= length l)%nat).
  - rewrite take_app_le; [done |]. rewrite length_take. lia.
  - by rewrite drop_ge, app_nil_r by lia.
Qed.

Definition agree (n : nat) (i : ideal V) (s : Spec.cache V) : Prop :=
  NoDup (recent i) /\ Spec.capacity s = Z.of_nat n /\
  Spec.entries s = (fun k => (k, latest i k)) <$> take n (recent i).

Lemma NoDup_use k l : NoDup l -> NoDup (use k l).
Proof.
  intros H. constructor; [|by apply NoDup_filter]. intros [Hk _]%list_elem_of_filter. done.
Qed.

Lemma tagged_update (f : Z -> option V) k v (ks : list Z) :
  k ∉ ks ->
  (fun k' => (k', if decide (k' = k) then v else f k')) <$> ks = (fun k' => (k', f k')) <$> ks.
Proof.
  intros Hk. apply list_fmap_ext. intros j x Hx. rewrite decide_False; [done |].
  intros ->. apply Hk. by eapply list_elem_of_lookup_2.
Qed.

Lemma get_agree n i s k :
  agree n i s ->
  fst (Spec.get k s) = (if decide (k ∈ take n (recent i)) then latest i k else None) /\
  agree n (ideal_step n (Get k) i) (snd (Spec.get k s)).
Proof.
  intros (Hnd & Hc & He). unfold Spec.get, ideal_step. rewrite He, lookup_tagged.
  case_decide as Hk; [|by split]. split; [done |]. split_and!; [by apply NoDup_use | done |].
  simpl. rewrite remove_tagged, take_use_in by done. unfold use.
  by rewrite fmap_cons.
Qed.

Lemma put_agree n i s k v :
  agree n i s -> agree n (ideal_step n (Put k v) i) (Spec.put k v s).
Proof.
  intros (Hnd & Hc & He). unfold Spec.put, ideal_step. rewrite He, lookup_tagged, remove_tagged.
  assert (NoDup (take n (recent i))) as Hnt.
  { eapply sublist_NoDup; [exact Hnd |]. apply sublist_take. }
  split_and!; [by apply NoDup_use | done |]. cbn [Spec.entries latest recent].
  assert (k ∉ filter (fun k' => k <> k') (take n (recent i))) as Hkf by (intros [? _]%list_elem_of_filter; done).
  case_decide as Hk.
  - rewrite take_use_in by done. unfold use. rewrite fmap_cons, decide_True by done.
    by rewrite tagged_update.
  - rewrite filter_ne_id in * by done. rewrite take_use_out by done.
    rewrite Hc. cbn [length]. rewrite length_fmap, length_take.
    set (g := fun k' => (k', if decide (k' = k) then v else latest i k')).
    assert ((k, v) :: ((fun k' => (k', latest i k')) <$> take n (recent i)) = g <$> (k :: take n (recent i))) as ->.
    { rewrite fmap_cons. unfold g at 1. rewrite decide_True by done. f_equal.
      unfold g. by rewrite tagged_update. }
    case_match eqn:E.
    + apply Z.ltb_lt in E. assert (n <= length (recent i))%nat as Hn by lia.
      rewrite removelast_firstn_len, length_fmap, <- fmap_take. f_equal. f_equal. simpl.
      rewrite length_take. lia.
    + apply Z.ltb_ge in E. rewrite !take_ge by (simpl; rewrite ?length_take; lia). done.
Qed.

Lemma step_agree n i s o :
  agree n i s -> agree n (ideal_step n o i) (snd (spec_step o s)).
Proof.
  intros H. destruct o as [k|k v|k|].
  - pose proof (get_agree n i s k H) as [_ H']. simpl. by destruct (Spec.get k s).
  - by apply put_agree.
  - destruct H as (Hnd & Hc & He). split_and!; [ | done |]; simpl.
    + apply NoDup_filter. eapply sublist_NoDup; [exact Hnd |]. apply sublist_take.
    + rewrite He, remove_tagged. f_equal. symmetry. apply take_ge.
      etrans; [apply length_filter |]. rewrite length_take. lia.
  - destruct H as (Hnd & Hc & He). split_and!; [apply NoDup_nil_2 | done | by simpl; rewrite take_nil].
Qed.

Lemma run_agree n (ops : list (op V)) i s :
  agree n i s -> agree n (fold_left (fun i o => ideal_step n o i) ops i) (snd (spec_run ops s)).
Proof.
  revert i s. induction ops as [|o ops IH]; intros i s H; [done |]. simpl.
  apply (step_agree n i s o) in H. destruct (spec_step o s) as [r s']. apply IH in H. simpl in H.
  by destruct (spec_run ops s').
Qed.

(** Entries stay within the capacity. *)
Definition within (s : Spec.cache V) : Prop := Z.of_nat (length (Spec.entries s)) <= Z.max 0 (Spec.capacity s).

Lemma length_remove k (l : list (Z * option V)) : (length (Spec.remove k l) <= length l)%nat.
Proof. apply List.filter_length_le. Qed.

Lemma length_remove_found k v (l : list (Z * option V)) :
  Spec.lookup k l = Some v -> (length (Spec.remove k l) < length l)%nat.
Proof.
  unfold Spec.lookup, Spec.remove. induction l as [|x l IH]; [done |]. cbn. destruct (k =? x.1); cbn.
  - intros _. pose proof (length_remove k l). unfold Spec.remove in *. lia.
  - intros H. specialize (IH H). lia.
Qed.

Lemma spec_step_within o (s : Spec.cache V) :
  within s -> within (spec_step o s).2 /\ Spec.capacity (spec_step o s).2 = Spec.capacity s.
Proof.
  unfold within. intros Hs. pose proof (fun k => length_remove k (Spec.entries s)) as Hr.
  pose proof (fun k v => length_remove_found k v (Spec.entries s)) as Hf.
  destruct o as [k|k v|k|]; cbn [spec_step].
  - unfold Spec.get. specialize (Hf k). destruct (Spec.lookup k (Spec.entries s)) as [v|]; cbn; [|done].
    specialize (Hf v eq_refl). split; [lia | done].
  - unfold Spec.put. specialize (Hr k). specialize (Hf k). destruct (Spec.lookup k (Spec.entries s)) as [w|]; cbn [snd Spec.entries Spec.capacity length].
    + specialize (Hf w eq_refl). split; [lia | done].
    + split; [|done]. destruct (Z.ltb_spec (Spec.capacity s) (Z.of_nat (S (length (Spec.remove k (Spec.entries s)))))).
      * rewrite List.removelast_firstn_len, List.length_firstn. cbn. lia.
      * cbn [length]. lia.
  - cbn. specialize (Hr k). split; [lia | done].
  - cbn. split; [lia | done].
Qed.

Lemma spec_run_within (ops : list (op V)) (s : Spec.cache V) :
  within s -> within (spec_run ops s).2 /\ Spec.capacity (spec_run ops s).2 = Spec.capacity s.
Proof.
  revert s. induction ops as [|o ops IH]; intros s Hs; [done |]. cbn [spec_run].
  destruct (spec_step_within o s Hs) as [Hw Hc]. destruct (spec_step o s) as [r s'].
  destruct (IH s' Hw) as [Hw' Hc']. destruct (spec_run ops s') as [rs s'']. cbn in *. by rewrite Hc', Hc.
Qed.

Lemma run_both n (ops : list (op V)) :
  exists s, Rep.represents (snd (run ops (Lru.init (Z.of_nat n)))) s /\ agree n (ideal_run n ops) s.
Proof.
  exists (snd (spec_run ops (Spec.init (Z.of_nat n)))). split.
  - apply run_represents, init_represents.
  - apply run_agree. split_and!; [apply NoDup_nil_2 | done | by simpl; rewrite take_nil].
Qed.

End facts.
End Facts.

(** ** Theorems *)

Module Theorems.
Import History RepFacts Facts.
Section theorems.
Context {V : Type}.

(** C8: The pointer structure refines the list: for every capacity and every
    sequence of lookups, insertions, invalidations and flushes, the cache with its
    doubly linked nodes gives the answers of the abstract list, counts the same
    hits and misses, holds as many entries, and never more than its capacity (none for
    a negative one). *)
Theorem lru_refines (n : Z) (ops : list (op V)) :
  let '(answers, c) := run ops (Lru.init n) in
  let '(answers', s) := spec_run ops (Spec.init n) in
  answers = answers' /\ Lru.hits c = Spec.hits s /\ Lru.misses c = Spec.misses s /\
  Lru.size_ c = Z.of_nat (length (Spec.entries s)) /\ Lru.size_ c <= Z.max 0 n.
Proof.
  destruct (run_represents ops _ _ (init_represents n)) as [H1 H2].
  destruct (spec_run_within ops (Spec.init n)) as [Hw Hc]; [unfold within; cbn; lia |].
  destruct (run ops (Lru.init n)) as [rs c], (spec_run ops (Spec.init n)) as [rs' s]. simpl in *.
  split; [done |]. pose proof (represents_size _ _ H2) as Hs. unfold within in Hw. rewrite Hc in Hw. cbn in Hw.
  rewrite Hs. by destruct H2 as (es & _ & ->).
Qed.

(** A cache of capacity [n] holds exactly the [n] keys used last, with their
    last values: after any history a lookup answers the key's last value if the key
    is among them and misses otherwise, and the size is the number of such keys,
    never above the capacity. *)
Theorem lru_keeps_most_recent (n : nat) (ops : list (op V)) (k : Z) :
  let c := snd (run ops (Lru.init (Z.of_nat n))) in
  let kept := take n (recent (ideal_run n ops)) in
  fst (Lru.get k c) = (if decide (k ∈ kept) then latest (ideal_run n ops) k else None) /\
  Lru.size_ c = Z.of_nat (length kept) /\ Lru.size_ c <= Z.of_nat n.
Proof.
  intros c kept. destruct (run_both n ops) as (s & Hr & Ha).
  destruct (get_represents _ _ k Hr) as [Hg _]. destruct (get_agree _ _ _ k Ha) as [Hk _].
  fold c in Hr, Hg. rewrite Hg, Hk, (represents_size _ _ Hr). destruct Ha as (_ & _ & ->).
  rewrite length_fmap. fold kept. split_and!; [done | done |].
  unfold kept. rewrite length_take. lia.
Qed.

End theorems.
End Theorems.
