(* ===== verification/Cache.v ===== *)
(** * The Redis cache, its list pages, the distributed lock and the LRU proxy

    [services/ingestor/cache.py] without the LRU structure, which is [LruCache.v].
    Redis is outside the repository: the class [RedisOps] has the commands the
    module sends, any of which may raise, and [RedisLaws] their documented
    behaviour in terms of the value that is live under a key at a time.  The JSON
    serialisation of pydantic is a pair of parameters. *)

From S2P Require Import Prelude LruCache.

(** ** Redis *)

Class RedisOps (R : Type) := {
  (** [GET key] *)
  redis_get : string -> datetime -> R -> result string (option string) * R;
  (** [SETEX key ttl value] and [SET key value EX ttl] *)
  redis_setex : string -> Z -> string -> datetime -> R -> result string unit * R;
  (** [SET key value NX EX ttl]: whether it was set *)
  redis_set_nx : string -> string -> Z -> datetime -> R -> result string bool * R;
  (** [DEL key ...] *)
  redis_delete : list string -> datetime -> R -> result string unit * R;
  (** [SCAN MATCH pattern], to its end *)
  redis_scan : string -> datetime -> R -> result string (list string) * R
}.

(** A pattern without special characters before a final star. *)
Definition glob_special (c : ascii) : bool :=
  existsb (Ascii.eqb c) ["*"; "?"; "["; "]"; "\"]%char.

Fixpoint plain (s : string) : bool :=
  match s with
  | EmptyString => true
  | String c s => negb (glob_special c) && plain s
  end.

(** A value set at [now] for [ttl] seconds, seen at [t]. *)
Definition set_value (now : datetime) (ttl : Z) (v : string) (t : datetime) : option string :=
  if t <? now + seconds ttl then Some v else None.

Class RedisLaws (R : Type) `{RedisOps R} := {
  (** The value under a key at a time. *)
  live : R -> datetime -> string -> option string;
  get_live k now r o r' :
    redis_get k now r = (Ok o, r') -> o = live r now k;
  get_same k now r x r' :
    redis_get k now r = (x, r') -> forall t k', now <= t -> live r' t k' = live r t k';
  setex_live k ttl v now r r' :
    redis_setex k ttl v now r = (Ok tt, r') ->
    forall t k', now <= t -> live r' t k' = if decide (k' = k) then set_value now ttl v t else live r t k';
  set_nx_live k v ttl now r b r' :
    redis_set_nx k v ttl now r = (Ok b, r') ->
    b = bool_decide (live r now k = None) /\
    forall t k', now <= t ->
      live r' t k' = if b && bool_decide (k' = k) then set_value now ttl v t else live r t k';
  delete_live ks now r r' :
    redis_delete ks now r = (Ok tt, r') ->
    forall t k', now <= t -> live r' t k' = if decide (k' ∈ ks) then None else live r t k';
  scan_same p now r x r' :
    redis_scan p now r = (x, r') -> forall t k', now <= t -> live r' t k' = live r t k';
  scan_prefix p now r ks r' :
    plain p = true -> redis_scan (p +:+ "*") now r = (Ok ks, r') ->
    forall k, k ∈ ks <-> is_Some (live r now k) /\ String.prefix p k = true
}.

(** ** The module *)

Module Cache.

(** [constants.py]. *)
Definition CACHE_KEY_OBSERVATION (observation_id : Z) : string :=
  "dp:observation:" +:+ str_of_Z observation_id.
Definition CACHE_TTL_OBSERVATION : Z := 3600.
Definition CACHE_KEY_LIST_PREFIX : string := "dp:observations:list".
Definition CACHE_TTL_LIST : Z := 30.
Definition CACHE_LIST_MAX_SKIP : Z := 500.
Definition CACHE_LIST_MAX_LIMIT : Z := 50.
Definition CACHE_LOCK_PREFIX : string := "dp:lock".
Definition CACHE_LOCK_DEFAULT_TTL_SECONDS : Z := 300.

Definition _list_cache_key (source : string) (skip limit : Z) : string :=
  CACHE_KEY_LIST_PREFIX +:+ String ":" (source +:+ String ":" (str_of_Z skip +:+ String ":" (str_of_Z limit))).

Definition _should_skip_list_cache (skip limit : Z) : bool :=
  (CACHE_LIST_MAX_SKIP <? skip) || (CACHE_LIST_MAX_LIMIT <? limit).

Section cache.
Context {R : Type} `{RedisOps R}.

(** [ObservationResponse] and a list page, with [model_dump_json],
    [model_validate_json], [json.dumps] and [json.loads]: each may raise. *)
Context {V L : Type}.
Context (dump_json : V -> result string string) (validate_json : string -> result string V).
Context (dumps : L -> result string string) (loads : string -> result string L).

(** The module's globals: [_client] ([None] before [connect_cache]), [_lru], and the
    counter [cache_errors_total]. *)
Record state := State {
  _client : option R;
  _lru : Lru.cache V;
  cache_errors_total : Z
}.

Definition with_client (r : R) (s : state) : state := State (Some r) (_lru s) (cache_errors_total s).
Definition with_lru (l : Lru.cache V) (s : state) : state := State (_client s) l (cache_errors_total s).
Definition error_counted (s : state) : state := State (_client s) (_lru s) (cache_errors_total s + 1).

Definition connect_cache (r : R) (s : state) : state := with_client r s.
Definition disconnect_cache (s : state) : state := State None (_lru s) (cache_errors_total s).

Definition get_observation (now : datetime) (observation_id : Z) (s : state) : option V * state :=
  match _client s with
  | None => (None, s)
  | Some r =>
      let '(x, r) := redis_get (CACHE_KEY_OBSERVATION observation_id) now r in
      let s := with_client r s in
      match x with
      | Raise _ => (None, error_counted s)
      | Ok None => (None, s)
      | Ok (Some cached_json) =>
          match validate_json cached_json with
          | Ok v => (Some v, s)
          | Raise _ => (None, error_counted s)
          end
      end
  end.

Definition set_observation (now : datetime) (observation_id : Z) (observation : V) (ttl : Z) (s : state) : state :=
  match _client s with
  | None => s
  | Some r =>
      match dump_json observation with
      | Raise _ => error_counted s
      | Ok json_data =>
          let '(x, r) := redis_setex (CACHE_KEY_OBSERVATION observation_id) ttl json_data now r in
          let s := with_client r s in
          match x with Ok _ => s | Raise _ => error_counted s end
      end
  end.

Definition invalidate_observation (now : datetime) (observation_id : Z) (s : state) : state :=
  match _client s with
  | None => s
  | Some r =>
      let '(x, r) := redis_delete [CACHE_KEY_OBSERVATION observation_id] now r in
      let s := with_client r s in
      match x with Ok _ => s | Raise _ => error_counted s end
  end.

(** The list pages; their errors are logged only. *)
Definition get_observations_list (now : datetime) (source : string) (skip limit : Z) (s : state) : option L * state :=
  match _client s with
  | None => (None, s)
  | Some r =>
      if _should_skip_list_cache skip limit then (None, s)
      else
        let '(x, r) := redis_get (_list_cache_key source skip limit) now r in
        let s := with_client r s in
        match x with
        | Ok (Some raw) => (match loads raw with Ok l => Some l | Raise _ => None end, s)
        | _ => (None, s)
        end
  end.

Definition set_observations_list (now : datetime) (source : string) (skip limit : Z) (data : L) (s : state) : state :=
  match _client s with
  | None => s
  | Some r =>
      if _should_skip_list_cache skip limit then s
      else
        match dumps data with
        | Raise _ => s
        | Ok raw =>
            let '(_, r) := redis_setex (_list_cache_key source skip limit) CACHE_TTL_LIST raw now r in
            with_client r s
        end
  end.

(** The prefix of the pattern that [SCAN] gets, before its star. *)
Definition list_pattern (source : string) : string :=
  CACHE_KEY_LIST_PREFIX +:+ String ":" (source +:+ ":").

Definition invalidate_observations_list_by_source (now : datetime) (source : string) (s : state) : state :=
  match _client s with
  | None => s
  | Some r =>
      let '(x, r) := redis_scan (list_pattern source +:+ "*") now r in
      match x with
      | Raise _ => with_client r s
      | Ok [] => with_client r s
      | Ok keys => let '(_, r) := redis_delete keys now r in with_client r s
      end
  end.

(** [redis_lock]: entering the context, which may raise, and leaving it. *)
Definition lock_key (name : string) : string := CACHE_LOCK_PREFIX +:+ String ":" name.

(** Where the generator stopped: [yield True] without a client, or after [SET]. *)
Inductive ticket := NoClient | Locked (acquired : bool).

Definition yields (t : ticket) : bool :=
  match t with NoClient => true | Locked acquired => acquired end.

Definition lock_enter (now : datetime) (name : string) (ttl_seconds : Z) (s : state) : result string ticket * state :=
  match _client s with
  | None => (Ok NoClient, s)
  | Some r =>
      let '(x, r) := redis_set_nx (lock_key name) "1" ttl_seconds now r in
      (match x with Ok b => Ok (Locked b) | Raise e => Raise e end, with_client r s)
  end.

(** The [finally]: an exception of [DEL], or of the missing client, is logged. *)
Definition lock_exit (now : datetime) (name : string) (t : ticket) (s : state) : state :=
  match t, _client s with
  | Locked true, Some r => let '(_, r) := redis_delete [lock_key name] now r in with_client r s
  | _, _ => s
  end.

(** The proxy over both layers. *)
Definition get_observation_with_lru (now : datetime) (observation_id : Z) (s : state) : option V * state :=
  let '(cached, l) := Lru.get observation_id (_lru s) in
  let s := with_lru l s in
  match cached with
  | Some v => (Some v, s)
  | None =>
      let '(cache_result, s) := get_observation now observation_id s in
      match cache_result with
      | Some v => (Some v, with_lru (Lru.put observation_id (Some v) (_lru s)) s)
      | None => (None, s)
      end
  end.

Definition invalidate_observation_all_layers (now : datetime) (observation_id : Z) (s : state) : state :=
  invalidate_observation now observation_id (with_lru (Lru.invalidate observation_id (_lru s)) s).

End cache.
Arguments state : clear implicits.
End Cache.

(** ** Tasks that take one lock *)

Module Lock.
Import Cache.
Section lock.
Context {R : Type} `{RedisLaws R} {V : Type} (name : string) (ttl_seconds : Z).

(** The clock, the module's state, and the tasks inside the [async with] body with
    the time at which they entered. *)
Record world := World {
  clock : datetime;
  cache : Cache.state R V;
  holders : list (nat * datetime)
}.

(** Nobody has stayed in the body for longer than the lock lives. *)
Definition timely (now : datetime) (l : list (nat * datetime)) : Prop :=
  Forall (fun h => now < snd h + seconds ttl_seconds) l.

Inductive step : world -> world -> Prop :=
| Enter task now t s' w :
    clock w <= now -> timely now (holders w) ->
    lock_enter now name ttl_seconds (cache w) = (Ok t, s') ->
    step w (World now s' (if yields t then (task, now) :: holders w else holders w))
| Exit task since now w :
    clock w <= now -> timely now (holders w) -> (task, since) ∈ holders w ->
    step w (World now (lock_exit now name (Locked true) (cache w))
                  (filter (fun h => h <> (task, since)) (holders w)))
(** What else the process does with Redis, none of it with this lock. *)
| Others now s' r r' w :
    clock w <= now -> timely now (holders w) ->
    _client (cache w) = Some r -> _client s' = Some r' ->
    (forall t, now <= t -> live r' t (lock_key name) = live r t (lock_key name)) ->
    step w (World now s' (holders w)).

End lock.
Arguments world : clear implicits.
End Lock.

(** ** An in-memory Redis *)

Module MemRedis.

Record store := Store { entries : gmap string (string * datetime); down : bool }.

Definition read (r : store) (t : datetime) (k : string) : option string :=
  match entries r !! k with
  | Some (v, expiry) => if t <? expiry then Some v else None
  | None => None
  end.

Definition answer {A} (r : store) (a : A) (r' : store) : result string A * store :=
  if down r then (Raise "connection refused", r) else (Ok a, r').

Definition write (k : string) (ttl : Z) (v : string) (now : datetime) (r : store) : store :=
  Store (<[k := (v, now + seconds ttl)]> (entries r)) (down r).

(** The part of a pattern before a final star. *)
Fixpoint before_star (p : string) : string :=
  match p with
  | EmptyString => EmptyString
  | String c EmptyString => EmptyString
  | String c p => String c (before_star p)
  end.

#[export] Instance ops : RedisOps store := {
  redis_get k now r := answer r (read r now k) r;
  redis_setex k ttl v now r := answer r tt (write k ttl v now r);
  redis_set_nx k v ttl now r :=
    match read r now k with
    | Some _ => answer r false r
    | None => answer r true (write k ttl v now r)
    end;
  redis_delete ks now r := answer r tt (Store (filter (fun e => e.1 ∉ ks) (entries r)) (down r));
  redis_scan p now r :=
    answer r (List.filter (fun k => String.prefix (before_star p) k && bool_decide (is_Some (read r now k)))
                (map_to_list (entries r)).*1) r
}.

End MemRedis.

(** ** Lemmas *)

Module MemRedisFacts.
Import MemRedis.

Lemma before_star_snoc p : before_star (p +:+ "*") = p.
Proof.
  induction p as [|c p IH]; [done |]. simpl. destruct (p +:+ "*") eqn:E; [by destruct p |].
  by rewrite IH.
Qed.

Lemma read_write k ttl v now r t k' :
  read (write k ttl v now r) t k' = if decide (k' = k) then set_value now ttl v t else read r t k'.
Proof.
  unfold read, write, set_value. simpl. case_decide; subst.
  - by rewrite lookup_insert_eq.
  - by rewrite lookup_insert_ne.
Qed.

#[export] Instance laws : RedisLaws store.
Proof.
  refine {| live := read |}; simpl; unfold answer.
  - intros k now r o r'. by destruct (down r); intros [=].
  - intros k now r x r'. by destruct (down r); intros [=]; subst.
  - intros k ttl v now r r'. destruct (down r); intros [=]; subst. intros t k' _. apply read_write.
  - intros k v ttl now r b r'. destruct (read r now k) eqn:E; destruct (down r); intros [=]; subst.
    + by rewrite bool_decide_false.
    + split; [by rewrite bool_decide_true |]. intros t k' _. rewrite read_write. simpl.
      by repeat case_bool_decide; repeat case_decide.
  - intros ks now r r'. destruct (down r); intros [=]; subst. intros t k' _. unfold read. simpl.
    case_decide as Hk.
    + rewrite map_lookup_filter_None_2; [done |]. right. intros x _. simpl. by intros ?.
    + destruct (entries r !! k') as [x|] eqn:E.
      * by rewrite (map_lookup_filter_Some_2 _ _ _ x).
      * rewrite map_lookup_filter_None_2; [done | by left].
  - intros p now r x r'. by destruct (down r); intros [=]; subst.
  - intros p now r ks r' Hp. destruct (down r); intros [= <- <-]. intros k.
    rewrite list_elem_of_In, List.filter_In, <- list_elem_of_In, before_star_snoc, andb_true_iff, bool_decide_eq_true.
    split; [tauto |]. intros [Hk ?]. split; [|done]. apply list_elem_of_fmap.
    unfold read in Hk. destruct (entries r !! k) as [e|] eqn:E; [|by destruct Hk].
    exists (k, e). split; [done |]. by apply elem_of_map_to_list.
Defined.

End MemRedisFacts.

Module CacheFacts.
Import Cache.

Lemma append_inj (p a b : string) : p +:+ a = p +:+ b -> a = b.
Proof. induction p as [|c p IH]; simpl; [done |]. intros [= E]. auto. Qed.

Lemma no_colon_app (a x : string) : no_colon (a +:+ String ":" x) = false.
Proof. induction a as [|c a IH]; simpl; [done |]. by rewrite IH, andb_false_r. Qed.

(** Splitting at the last colon. *)
Lemma last_colon (a b x y : string) :
  no_colon x = true -> no_colon y = true ->
  a +:+ String ":" x = b +:+ String ":" y -> a = b /\ x = y.
Proof.
  intros Hx Hy. revert b. induction a as [|c a IH]; intros [|d b]; simpl.
  - by intros [= ->].
  - intros [= <- ->]. by rewrite no_colon_app in Hx.
  - intros [= -> <-]. by rewrite no_colon_app in Hy.
  - intros [= -> E]. by destruct (IH b E) as [-> ->].
Qed.

Lemma append_colon_assoc (a b c : string) :
  a +:+ String ":" (b +:+ String ":" c) = (a +:+ String ":" b) +:+ String ":" c.
Proof. induction a as [|d a IH]; [done | exact (f_equal (String d) IH)]. Qed.

Lemma list_cache_key_inj s1 o1 n1 s2 o2 n2 :
  _list_cache_key s1 o1 n1 = _list_cache_key s2 o2 n2 -> s1 = s2 /\ o1 = o2 /\ n1 = n2.
Proof.
  unfold _list_cache_key. intros E%append_inj. injection E as E. rewrite !append_colon_assoc in E.
  apply last_colon in E as [E ->%str_of_Z_inj]; [|apply str_of_Z_no_colon..].
  by apply last_colon in E as [-> ->%str_of_Z_inj]; [|apply str_of_Z_no_colon..].
Qed.

Lemma observation_key_inj i j : CACHE_KEY_OBSERVATION i = CACHE_KEY_OBSERVATION j -> i = j.
Proof. by intros ->%append_inj%str_of_Z_inj. Qed.

Lemma prefix_app (p a : string) : String.prefix p (p +:+ a) = true.
Proof. induction p as [|c p IH]; simpl; [by destruct a |]. by destruct (ascii_dec c c). Qed.

Lemma prefix_app_same (q p a : string) : String.prefix (q +:+ p) (q +:+ a) = String.prefix p a.
Proof. induction q as [|c q IH]; simpl; [done |]. by destruct (ascii_dec c c). Qed.

Lemma append_assoc_colon (a b : string) : a +:+ String ":" b = (a +:+ ":") +:+ b.
Proof. induction a as [|d a IH]; [done | exact (f_equal (String d) IH)]. Qed.

(** A page's key starts with the pattern of the sources whose name the page's own
    extends up to a colon. *)
Lemma list_key_prefix source source' skip limit :
  String.prefix (list_pattern source) (_list_cache_key source' skip limit) =
  String.prefix (source +:+ ":") (source' +:+ String ":" (str_of_Z skip +:+ String ":" (str_of_Z limit))).
Proof. unfold list_pattern, _list_cache_key. rewrite prefix_app_same. reflexivity. Qed.

Lemma prefix_cons c d a b :
  String.prefix (String c a) (String d b) = if ascii_dec c d then String.prefix a b else false.
Proof. reflexivity. Qed.

Lemma prefix_empty a : String.prefix "" a = true.
Proof. by destruct a. Qed.

Lemma no_colon_prefix (a b x : string) :
  no_colon a = true -> no_colon b = true ->
  String.prefix (a +:+ ":") (b +:+ String ":" x) = bool_decide (a = b).
Proof.
  revert b. induction a as [|c a IH]; intros [|d b]; simpl no_colon.
  - intros _ _. by destruct x.
  - intros _ [Hd _]%andb_true_iff. rewrite bool_decide_false by done.
    change (String.prefix (String ":" "") (String d (b +:+ String ":" x)) = false).
    rewrite prefix_cons. destruct (ascii_dec ":" d) as [<-|]; done.
  - intros [Hc _]%andb_true_iff _. rewrite bool_decide_false by done.
    change (String.prefix (String c (a +:+ ":")) (String ":" x) = false).
    rewrite prefix_cons. destruct (ascii_dec c ":") as [->|]; done.
  - intros [Hc Ha]%andb_true_iff [Hd Hb]%andb_true_iff.
    change (String.prefix (String c (a +:+ ":")) (String d (b +:+ String ":" x)) = bool_decide (String c a = String d b)).
    rewrite prefix_cons. destruct (ascii_dec c d) as [->|Hne].
    + rewrite IH by done. apply bool_decide_ext. naive_solver.
    + rewrite bool_decide_false; [done |]. by intros [= ? ?].
Qed.

Lemma plain_app a b : plain (a +:+ b) = plain a && plain b.
Proof. induction a as [|c a IH]; simpl; [done |]. by rewrite IH, andb_assoc. Qed.

Section facts.
Context {R : Type} `{RedisLaws R} {V : Type}.
Implicit Types (s : state R V).

(** What the value under a key is to the module; nothing without a client. *)
Definition stored s (t : datetime) (k : string) : option string :=
  match _client s with Some r => live r t k | None => None end.

Lemma stored_with_client s r t k : stored (with_client r s) t k = live r t k.
Proof. done. Qed.

End facts.
End CacheFacts.

Module CacheTheorems.
Import Cache CacheFacts.

Section lock.
Import Lock.
Context {R : Type} `{RedisLaws R} {V : Type} (name : string) (ttl_seconds : Z).
Implicit Types (w : world R V).

(** Somebody is inside, and the lock is live for as long as they may stay. *)
Definition guarded w : Prop :=
  exists r, _client (cache w) = Some r /\
  (holders w = [] \/
   exists h, holders w = [h] /\
     forall t, clock w <= t -> t < snd h + seconds ttl_seconds ->
       is_Some (live r t (lock_key name))).

Lemma guarded_step w w' : guarded w -> step name ttl_seconds w w' -> guarded w'.
Proof.
  intros (r & Hr & Hg) Hs. destruct Hs as [task now t s' w Hc Ht He | task since now w Hc Ht Hin | now s' r1 r2 w Hc Ht H1 H2 Hl].
  - unfold lock_enter in He. rewrite Hr in He.
    destruct (redis_set_nx _ _ _ _ _) as [[b|e] r'] eqn:E; simplify_eq.
    destruct (set_nx_live _ _ _ _ _ _ _ E) as [Hb Hlive]. exists r'. split; [done |]. simpl.
    destruct b; simpl.
    + right. destruct Hg as [->|(h & Eh & Hh)].
      * exists (task, now). split; [done |]. intros t Hnow Hlt. rewrite Hlive by done. simpl.
        rewrite bool_decide_true by done. unfold set_value. simpl in Hlt.
        rewrite (proj2 (Z.ltb_lt _ _) Hlt). by eexists.
      * exfalso. symmetry in Hb. apply bool_decide_eq_true in Hb. rewrite Eh in Ht. apply Forall_inv in Ht.
        destruct (Hh now Hc Ht) as [x Hx]. congruence.
    + destruct Hg as [->|(h & Eh & Hh)]; [by left |]. right. exists h. split; [done |].
      intros t Hnow Hlt. rewrite Hlive by done. simpl. apply Hh; [lia | done].
  - destruct Hg as [E|(h & E & _)]; rewrite E in Hin; [by apply elem_of_nil in Hin |].
    apply list_elem_of_singleton in Hin as <-. unfold lock_exit. simpl. rewrite Hr.
    destruct (redis_delete _ _ _) as [x r'] eqn:Ed. exists r'. split; [done |]. left. simpl. rewrite E.
    by rewrite filter_cons_False by naive_solver.
  - exists r2. split; [done |]. simpl. assert (r1 = r) as -> by congruence.
    destruct Hg as [?|(h & E & Hh)]; [by left |]. right. exists h. split; [done |].
    intros t Hnow Hlt. rewrite Hl by done. apply Hh; [lia | done].
Qed.

(** C30: The lock excludes: as long as every task leaves the body within the
    lock's lifetime, no two tasks are ever inside together, whatever else is done
    with Redis and whichever calls fail. *)
Theorem lock_exclusive w0 w :
  is_Some (_client (cache w0)) -> holders w0 = [] ->
  rtc (step name ttl_seconds) w0 w -> (length (holders w) <= 1)%nat.
Proof.
  intros [r Hr] Hnone Hs. assert (guarded w) as (r' & _ & Hw).
  { assert (guarded w0) as Hg by (exists r; split; [done | by left]).
    clear Hr Hnone. induction Hs as [|x y z Hxy _ IH]; [done |]. by eapply IH, guarded_step. }
  destruct Hw as [-> | (h & -> & _)]; simpl; lia.
Qed.

(** Without an owner in the lock's value, a task that outlives the lifetime
    removes the lock of its successor: [A] enters, its lock expires, [B] enters,
    [A] leaves, and [C] enters too while [B] is inside and within its lifetime. *)
Theorem late_release_breaks_exclusion (t0 t1 t2 t3 : datetime) (s0 s1 s2 s4 : state R V) (b c : bool) :
  0 < ttl_seconds -> t0 + seconds ttl_seconds <= t1 -> t1 <= t2 -> t2 <= t3 ->
  lock_enter t0 name ttl_seconds s0 = (Ok (Locked true), s1) ->
  lock_enter t1 name ttl_seconds s1 = (Ok (Locked b), s2) ->
  (exists r r', _client s2 = Some r /\ redis_delete [lock_key name] t2 r = (Ok tt, r')) ->
  lock_enter t3 name ttl_seconds (lock_exit t2 name (Locked true) s2) = (Ok (Locked c), s4) ->
  b = true /\ c = true.
Proof.
  intros Hpos H1 H2 H3 E0 E1 (r2 & r3 & Hr2 & Ed) E3.
  unfold lock_enter in E0. destruct (_client s0) as [r0|] eqn:Hr0; [|done].
  destruct (redis_set_nx _ _ _ _ r0) as [[b0|e] r1] eqn:Ea; simplify_eq.
  destruct (set_nx_live _ _ _ _ _ _ _ Ea) as [_ Ha].
  unfold lock_enter in E1. simpl in E1.
  destruct (redis_set_nx _ _ _ _ r1) as [[b1|e] r1'] eqn:Eb; simplify_eq.
  destruct (set_nx_live _ _ _ _ _ _ _ Eb) as [-> _].
  split.
  - assert (0 < seconds ttl_seconds) by (unfold seconds; lia).
    apply bool_decide_eq_true. rewrite Ha by lia. simpl. rewrite bool_decide_true by done.
    unfold set_value. by rewrite (proj2 (Z.ltb_ge _ _)) by lia.
  - unfold lock_exit in E3. simpl in Hr2. injection Hr2 as <-. simpl in E3. rewrite Ed in E3.
    unfold lock_enter in E3. simpl in E3.
    destruct (redis_set_nx _ _ _ _ r3) as [[b3|e] r4] eqn:Ec; simplify_eq.
    destruct (set_nx_live _ _ _ _ _ _ _ Ec) as [-> _]. apply bool_decide_eq_true.
    rewrite (delete_live _ _ _ _ Ed) by done. rewrite decide_True; [done |]. by left.
Qed.

End lock.

Section pages.
Context {R : Type} `{RedisLaws R} {V : Type}.
Implicit Types (s : state R V).

(** Invalidating a source drops every page of that source and no page of
    another: for sources without colons and glob characters, when Redis answers,
    the source's pages are gone and every other source's are as they were. *)
Theorem source_pages_invalidated now t source source' skip limit s r keys r1 r2 :
  no_colon source = true -> plain source = true -> no_colon source' = true -> now <= t ->
  _client s = Some r ->
  redis_scan (list_pattern source +:+ "*") now r = (Ok keys, r1) ->
  redis_delete keys now r1 = (Ok tt, r2) ->
  stored (invalidate_observations_list_by_source now source s) t (_list_cache_key source' skip limit) =
  if decide (source' = source /\ is_Some (live r now (_list_cache_key source' skip limit))) then None
  else live r t (_list_cache_key source' skip limit).
Proof.
  intros Hc Hp Hc' Ht Hr Es Ed. unfold invalidate_observations_list_by_source. rewrite Hr, Es.
  assert (plain (list_pattern source) = true) as Hpl.
  { unfold list_pattern. rewrite plain_app. simpl. by rewrite plain_app, Hp. }
  pose proof (scan_prefix _ _ _ _ _ Hpl Es (_list_cache_key source' skip limit)) as Hin.
  rewrite list_key_prefix, no_colon_prefix, bool_decide_eq_true in Hin by done.
  pose proof (scan_same _ _ _ _ _ Es t (_list_cache_key source' skip limit) Ht) as Hs.
  assert (stored (with_client r2 s) t (_list_cache_key source' skip limit) =
          if decide (_list_cache_key source' skip limit ∈ keys) then None
          else live r t (_list_cache_key source' skip limit)) as Hd.
  { rewrite stored_with_client, (delete_live _ _ _ _ Ed) by done. by rewrite Hs. }
  destruct keys as [|k keys].
  - clear Hd. rewrite stored_with_client, Hs. case_decide as Hx; [|done]. destruct Hx as [-> Hx].
    exfalso. apply (elem_of_nil (_list_cache_key source skip limit)), Hin. by split.
  - rewrite Ed, Hd. repeat case_decide; try done; naive_solver.
Qed.

End pages.
End CacheTheorems.

(** ** Witnesses *)

Module CacheWitnesses.
Import Cache CacheFacts CacheTheorems MemRedis MemRedisFacts.

Definition fresh : state store Z := State (Some (Store ∅ false)) (Lru.init 256) 0.

Definition job : string := "rollup".

Definition enter (now : datetime) (s : state store Z) : state store Z :=
  snd (lock_enter now job 300 s).

Lemma lock_exclusive_witness :
  exists w : Lock.world store Z, Lock.holders w = [(1%nat, 0)] /\ (length (Lock.holders w) <= 1)%nat.
Proof.
  exists (Lock.World 5 (enter 5 (enter 0 fresh)) [(1%nat, 0)]). split; [done |].
  eapply (lock_exclusive job 300 (Lock.World 0 fresh [])); [by eexists | done |].
  eapply rtc_l; [apply (Lock.Enter job 300 1 0 (Locked true) (enter 0 fresh)) |]; [done | by constructor | by vm_compute |].
  eapply rtc_l; [apply (Lock.Enter job 300 2 5 (Locked false) (enter 5 (enter 0 fresh))) |];
    [done | by repeat constructor | by vm_compute |].
  apply rtc_refl.
Defined.

Lemma late_release_breaks_exclusion_witness :
  exists b c, fst (lock_enter (seconds 301) job 300 (enter 0 fresh)) = Ok (Locked b) /\ b = true /\ c = true.
Proof.
  exists true, true. split; [by vm_compute |].
  set (s2 := enter (seconds 301) (enter 0 fresh)).
  apply (late_release_breaks_exclusion job 300 0 (seconds 301) (seconds 302) (seconds 303)
           fresh (enter 0 fresh) s2 (enter (seconds 303) (lock_exit (seconds 302) job (Locked true) s2)));
    try by vm_compute.
  eexists _, _. split; reflexivity.
Defined.

Definition page (source : string) : string := _list_cache_key source 0 20.

Definition two_pages : store :=
  Store (<[page "alpha" := ("[1]", seconds 30)]> (<[page "beta" := ("[3]", seconds 30)]> ∅)) false.

Definition one_page : store := snd (redis_delete [page "alpha"] (seconds 1) two_pages).

Definition invalidated : state store Z :=
  invalidate_observations_list_by_source (seconds 1) "alpha" (State (Some two_pages) (Lru.init 256) 0).

Lemma source_pages_invalidated_witness :
  stored invalidated (seconds 2) (page "alpha") = None /\
  stored invalidated (seconds 2) (page "beta") = Some "[3]".
Proof.
  assert (redis_scan (list_pattern "alpha" +:+ "*") (seconds 1) two_pages = (Ok [page "alpha"], two_pages)) as Es.
  { unfold redis_scan, ops, answer. cbn [down two_pages]. f_equal. }
  unfold invalidated, page. split.
  - rewrite (source_pages_invalidated (seconds 1) (seconds 2) "alpha" "alpha" 0 20 _ two_pages
               [page "alpha"] two_pages one_page); try reflexivity; try done.
  - rewrite (source_pages_invalidated (seconds 1) (seconds 2) "alpha" "beta" 0 20 _ two_pages
               [page "alpha"] two_pages one_page); try reflexivity; try done.
Defined.

End CacheWitnesses.
