(* ===== verification/Network.v ===== *)
(** * Addresses, URLs and Base64

    What the program uses of the Python modules [ipaddress], [urllib.parse] and
    [base64]: the classification of addresses, [urlsplit] up to the host and port,
    and the encoding of bytes. *)

From S2P Require Import Prelude.

(** ** [ipaddress] (Python 3.14) *)

Module Ip.

(** An address as an integer of 32 or 128 bits. *)
Inductive address := V4 (n : Z) | V6 (n : Z).

#[global] Instance address_eq_dec : EqDecision address.
Proof. solve_decision. Defined.

(** The address [a.b.c.d]. *)
Definition quad (a b c d : Z) : Z := ((a * 256 + b) * 256 + c) * 256 + d.

(** [n in ip_network(prefix/len)] for [width]-bit addresses. *)
Definition in_network (width : Z) (n : Z) (net : Z * Z) : bool :=
  let '(prefix, len) := net in
  Z.shiftr n (width - len) =? Z.shiftr prefix (width - len).

Definition in_any (width : Z) (nets : list (Z * Z)) (n : Z) : bool :=
  existsb (in_network width n) nets.

Definition v4_private : list (Z * Z) :=
  [(quad 0 0 0 0, 8); (quad 10 0 0 0, 8); (quad 127 0 0 0, 8); (quad 169 254 0 0, 16);
   (quad 172 16 0 0, 12); (quad 192 0 0 0, 24); (quad 192 0 0 170, 31); (quad 192 0 2 0, 24);
   (quad 192 168 0 0, 16); (quad 198 18 0 0, 15); (quad 198 51 100 0, 24);
   (quad 203 0 113 0, 24); (quad 240 0 0 0, 4); (quad 255 255 255 255, 32)].
Definition v4_private_exceptions : list (Z * Z) := [(quad 192 0 0 9, 32); (quad 192 0 0 10, 32)].

(** The 16-bit groups of an IPv6 prefix, from the left. *)
Definition groups (l : list Z) : Z :=
  foldl (fun n g => n * 65536 + g) 0 (l ++ replicate (8 - length l) 0).

Definition v6_private : list (Z * Z) :=
  [(1, 128); (0, 128); (groups [0; 0; 0; 0; 0; 65535], 96); (groups [100; 65435; 1], 48);
   (groups [256], 64); (groups [8193], 23); (groups [8193; 3512], 32); (groups [8194], 16);
   (groups [16383], 20); (groups [64512], 7); (groups [65152], 10)].
Definition v6_private_exceptions : list (Z * Z) :=
  [(groups [8193; 1; 0; 0; 0; 0; 0; 1], 128); (groups [8193; 1; 0; 0; 0; 0; 0; 2], 128);
   (groups [8193; 3], 32); (groups [8193; 4; 274], 48); (groups [8193; 32], 28); (groups [8193; 48], 28)].
Definition v6_reserved : list (Z * Z) :=
  [(0, 8); (groups [256], 8); (groups [512], 7); (groups [1024], 6); (groups [2048], 5);
   (groups [4096], 4); (groups [16384], 3); (groups [24576], 3); (groups [32768], 3);
   (groups [40960], 3); (groups [49152], 3); (groups [57344], 4); (groups [61440], 5);
   (groups [63488], 6); (groups [65024], 9)].

(** An IPv4 address mapped into IPv6 is classified as the IPv4 address. *)
Definition normal (a : address) : address :=
  match a with
  | V6 n => if Z.shiftr n 32 =? 65535 then V4 (Z.land n (Z.ones 32)) else a
  | V4 _ => a
  end.

Definition is_private (a : address) : bool :=
  match normal a with
  | V4 n => in_any 32 v4_private n && negb (in_any 32 v4_private_exceptions n)
  | V6 n => in_any 128 v6_private n && negb (in_any 128 v6_private_exceptions n)
  end.
Definition is_loopback (a : address) : bool :=
  match normal a with V4 n => in_network 32 n (quad 127 0 0 0, 8) | V6 n => n =? 1 end.
Definition is_link_local (a : address) : bool :=
  match normal a with
  | V4 n => in_network 32 n (quad 169 254 0 0, 16)
  | V6 n => in_network 128 n (groups [65152], 10)
  end.
Definition is_multicast (a : address) : bool :=
  match normal a with
  | V4 n => in_network 32 n (quad 224 0 0 0, 4)
  | V6 n => in_network 128 n (groups [65280], 8)
  end.
Definition is_reserved (a : address) : bool :=
  match normal a with
  | V4 n => in_network 32 n (quad 240 0 0 0, 4)
  | V6 n => in_any 128 v6_reserved n
  end.
Definition is_unspecified (a : address) : bool :=
  match normal a with V4 n => n =? 0 | V6 n => n =? 0 end.

(** Membership is being between the first and the last address of the network. *)
Lemma in_network_range width n prefix len :
  0 <= len <= width -> (2 ^ (width - len) | prefix) ->
  in_network width n (prefix, len) = (prefix <=? n) && (n <? prefix + 2 ^ (width - len)).
Proof.
  intros Hl [q ->]. unfold in_network. rewrite !Z.shiftr_div_pow2 by lia.
  set (p := 2 ^ (width - len)). assert (0 < p) by (apply Z.pow_pos_nonneg; lia).
  rewrite Z.div_mul by lia. apply eq_true_iff_eq.
  rewrite Z.eqb_eq, andb_true_iff, Z.leb_le, Z.ltb_lt. split.
  - intros <-. pose proof (Z.div_mod n p). pose proof (Z.mod_pos_bound n p). nia.
  - intros [H1 H2]. symmetry. apply (Z.div_unique_pos n p q (n - q * p)); lia.
Qed.

End Ip.

(** ** [urllib.parse.urlsplit] *)

Module Url.

(** The part of a string before the first character of a class, and the rest. *)
Fixpoint break (p : ascii -> bool) (s : string) : string * string :=
  match s with
  | EmptyString => (EmptyString, EmptyString)
  | String c s' => if p c then (EmptyString, s) else let '(a, b) := break p s' in (String c a, b)
  end.

Definition one_of (l : list ascii) (c : ascii) : bool := existsb (Ascii.eqb c) l.

Definition drop1 (s : string) : string :=
  match s with EmptyString => EmptyString | String _ s => s end.

(** [s.partition(c)]: before, whether found, after. *)
Definition partition (c : ascii) (s : string) : string * bool * string :=
  let '(a, b) := break (Ascii.eqb c) s in (a, str_truthy b, drop1 b).

(** [s.rpartition(c)[2]]. *)
Fixpoint after_last (c : ascii) (s : string) : string :=
  match s with
  | EmptyString => EmptyString
  | String d s' =>
      if Ascii.eqb c d && negb (existsb (Ascii.eqb c) (String.list_ascii_of_string s')) then s'
      else if existsb (Ascii.eqb c) (String.list_ascii_of_string s') then after_last c s' else s
  end.

Definition str_filter (p : ascii -> bool) (s : string) : string :=
  String.string_of_list_ascii (List.filter p (String.list_ascii_of_string s)).

Fixpoint lstrip_while (p : ascii -> bool) (s : string) : string :=
  match s with
  | String c s' => if p c then lstrip_while p s' else s
  | EmptyString => EmptyString
  end.

Definition is_digit (c : ascii) : bool :=
  let n := nat_of_ascii c in (48 <=? n)%nat && (n <=? 57)%nat.
Definition is_alpha (c : ascii) : bool :=
  let n := nat_of_ascii c in ((65 <=? n) && (n <=? 90) || (97 <=? n) && (n <=? 122))%nat.
Definition scheme_char (c : ascii) : bool :=
  is_alpha c || is_digit c || one_of ["+"; "-"; "."]%char c.

Definition all_chars (p : ascii -> bool) (s : string) : bool :=
  forallb p (String.list_ascii_of_string s).

Definition has_char (c : ascii) (s : string) : bool :=
  existsb (Ascii.eqb c) (String.list_ascii_of_string s).

(** [int(s)] for a string of digits. *)
Definition digits_value (s : string) : Z :=
  foldl (fun n c => n * 10 + (Z.of_nat (nat_of_ascii c) - 48)) 0 (String.list_ascii_of_string s).

Inductive ValueError := value_error (message : string).

(** [SplitResult], with what its [hostname] and [port] properties are computed
    from; the path, query and fragment are not used. *)
Record split_result := Split {
  scheme : string;
  netloc : string
}.

Section urlsplit.
(** Whether a bracketed host is an IPv6 or IPvFuture literal. *)
Context (bracketed_host : string -> bool).

Definition check_netloc (netloc : string) : bool :=
  let opened := has_char "[" netloc in
  let closed := has_char "]" netloc in
  if xorb opened closed then false
  else if opened then
    let host_and_port := after_last "@" netloc in
    let '(before, have_open, bracketed) := partition "[" host_and_port in
    if have_open then
      let '(hostname, _, port) := partition "]" bracketed in
      negb (str_truthy before) && (negb (str_truthy port) || String.prefix ":" port) && bracketed_host hostname
    else let '(hostname, _, _) := partition ":" host_and_port in bracketed_host hostname
  else true.

Definition urlsplit (url : string) : result ValueError split_result :=
  let url := lstrip_while (fun c => (nat_of_ascii c <=? 32)%nat) url in
  let url := str_filter (fun c => negb (one_of ["009"; "010"; "013"]%char c)) url in
  let '(before, found, after) := partition ":" url in
  let is_scheme := found && match before with String c _ => is_alpha c | EmptyString => false end
                   && all_chars scheme_char before in
  let '(scheme, rest) := if is_scheme then (lower before, after) else (EmptyString, url) in
  if String.prefix "//" rest then
    let '(netloc, _) := break (one_of ["/"; "?"; "#"]%char) (drop1 (drop1 rest)) in
    if check_netloc netloc then Ok (Split scheme netloc)
    else Raise (value_error "Invalid IPv6 URL")
  else Ok (Split scheme EmptyString).

(** [_hostinfo]: host and port texts. *)
Definition hostinfo (u : split_result) : string * option string :=
  let h := after_last "@" (netloc u) in
  let '(_, have_open, bracketed) := partition "[" h in
  let '(host, port) :=
    if have_open then
      let '(host, _, port) := partition "]" bracketed in
      let '(_, _, port) := partition ":" port in (host, port)
    else let '(host, _, port) := partition ":" h in (host, port) in
  (host, if str_truthy port then Some port else None).

Definition hostname (u : split_result) : option string :=
  let '(host, _) := hostinfo u in
  if str_truthy host then
    let '(name, percent, zone) := partition "%" host in
    Some (lower name +:+ (if percent then String "%" zone else EmptyString))
  else None.

Definition port (u : split_result) : result ValueError (option Z) :=
  match snd (hostinfo u) with
  | None => Ok None
  | Some p =>
      if all_chars is_digit p then
        if digits_value p <=? 65535 then Ok (Some (digits_value p))
        else Raise (value_error "Port out of range 0-65535")
      else Raise (value_error "Port could not be cast to integer value")
  end.

End urlsplit.

Example urlsplit_example :
  bind_result (urlsplit (fun _ => true) "https://user:pw@API.Example.com:8443/v1?q=1") (fun u =>
    bind_result (port u) (fun p => Ok (scheme u, hostname u, p)))
  = Ok ("https", Some "api.example.com", Some 8443).
Proof. reflexivity. Qed.

End Url.

(** ** [base64.b64encode] *)

Module Base64.

Definition alphabet : string := "ABCDEFGHIJKLMNOPQRSTUVWXYZabcdefghijklmnopqrstuvwxyz0123456789+/".

Definition digit (n : Z) : ascii :=
  or_else (String.get (Z.to_nat n) alphabet) "="%char.

Definition byte (c : ascii) : Z := Z.of_nat (nat_of_ascii c).

(** Three bytes make four digits; a shorter last group is padded. *)
Fixpoint encode (l : list Z) : list ascii :=
  match l with
  | a :: b :: c :: l =>
      digit (Z.shiftr a 2)
      :: digit (Z.lor (Z.shiftl (Z.land a 3) 4) (Z.shiftr b 4))
      :: digit (Z.lor (Z.shiftl (Z.land b 15) 2) (Z.shiftr c 6))
      :: digit (Z.land c 63) :: encode l
  | [a; b] =>
      [digit (Z.shiftr a 2); digit (Z.lor (Z.shiftl (Z.land a 3) 4) (Z.shiftr b 4));
       digit (Z.shiftl (Z.land b 15) 2); "="%char]
  | [a] => [digit (Z.shiftr a 2); digit (Z.shiftl (Z.land a 3) 4); "="%char; "="%char]
  | [] => []
  end.

(** [s.encode()] in UTF-8, for characters below 256. *)
Definition utf8 (s : string) : list Z :=
  flat_map (fun c => let n := byte c in
              if n <? 128 then [n] else [Z.lor 192 (Z.shiftr n 6); Z.lor 128 (Z.land n 63)])
    (String.list_ascii_of_string s).

Definition b64encode (s : string) : string := String.string_of_list_ascii (encode (utf8 s)).

Example b64encode_example : b64encode "user:s3cret" = "dXNlcjpzM2NyZXQ=".
Proof. reflexivity. Qed.

End Base64.
