(* ===== verification/Encodings.v ===== *)
(** * JSON, Base64 and ISO texts

    What the program uses of the modules [json], [base64] and [datetime] to put values into
    texts and to read them back: [base64.b64decode] with UTF-8 is modelled and proved to take
    back the encoding of [Network]; the text of JSON ([JsonText]) and of a moment ([IsoText])
    are classes, whose laws are the documented round trips.  [SampleJson] and [SampleIso]
    satisfy the laws. *)

From S2P Require Import Prelude Network.

(** ** JSON text *)

(** [json.dumps] with the layout that the caller fixes ([indent] or [separators]) and
    [json.loads]; [None] where [loads] raises.  The text is ASCII ([ensure_ascii]), that of
    an object has a brace, and [loads] ignores white space at the end. *)
Class JsonText := { dumps : json -> string; loads : string -> option json }.

Fixpoint ascii_only (s : string) : bool :=
  match s with EmptyString => true | String c s => (nat_of_ascii c <? 128)%nat && ascii_only s end.

Fixpoint has_char (c : ascii) (s : string) : bool :=
  match s with EmptyString => false | String d s => Ascii.eqb d c || has_char c s end.

Definition newline : string := String "010" EmptyString.

(** A Python value: no [dict] has a key twice. *)
Fixpoint python_value (j : json) : bool :=
  match j with
  | JList l => forallb python_value l
  | JObj d => bool_decide (NoDup d.*1) && forallb (fun '(_, v) => python_value v) d
  | _ => true
  end.

Class JsonTextLaws `{JsonText} := {
  loads_dumps : forall j, python_value j = true -> loads (dumps j) = Some j;
  loads_dumps_line : forall j, python_value j = true -> loads (dumps j +:+ newline) = Some j;
  dumps_ascii : forall j, ascii_only (dumps j) = true;
  dumps_brace : forall o, has_char "{" (dumps (JObj o)) = true
}.

(** ** [base64.b64decode] *)

Module Base64Decode.

Fixpoint index_of (c : ascii) (s : string) : option Z :=
  match s with
  | EmptyString => None
  | String d s => if Ascii.eqb c d then Some 0 else Z.succ <$> index_of c s
  end.

Definition value (c : ascii) : option Z := index_of c Base64.alphabet.

(** The scanner of [binascii.a2b_base64], not strict: characters outside the alphabet are
    skipped, and the padding that completes a group of four ends the data.  [quad] is the
    place in the group, [pads] the padding seen since the last digit, [left] the bits
    kept.  [None] where the group at the end is not complete. *)
Fixpoint scan (quad pads : nat) (left : Z) (l : list ascii) : option (list Z) :=
  match l with
  | [] => match quad with O => Some [] | _ => None end
  | c :: l =>
      if Ascii.eqb c "=" then
        if (2 <=? quad)%nat then if (4 <=? quad + S pads)%nat then Some [] else scan quad (S pads) left l
        else scan quad pads left l
      else
        match value c with
        | None => scan quad pads left l
        | Some v =>
            match quad with
            | 0%nat => scan 1 0 v l
            | 1%nat => cons (Z.lor (Z.shiftl left 2) (Z.shiftr v 4)) <$> scan 2 0 (Z.land v 15) l
            | 2%nat => cons (Z.lor (Z.shiftl left 4) (Z.shiftr v 2)) <$> scan 3 0 (Z.land v 3) l
            | _ => cons (Z.lor (Z.shiftl left 6) v) <$> scan 0 0 0 l
            end
        end
  end.

(** [base64.b64decode] of a string; [None] for a [ValueError]: a character that is not
    ASCII, or wrong padding. *)
Definition b64decode (s : string) : option (list Z) :=
  if ascii_only s then scan 0 0 0 (String.list_ascii_of_string s) else None.

(** [bytes.decode("utf-8")] into characters below 256; [None] where it raises or another
    character occurs. *)
Fixpoint utf8_decode (l : list Z) : option string :=
  match l with
  | [] => Some EmptyString
  | a :: l =>
      if a <? 128 then s ← utf8_decode l; Some (String (ascii_of_nat (Z.to_nat a)) s)
      else match l with
           | b :: l =>
               if ((194 <=? a) && (a <=? 195)) && ((128 <=? b) && (b <=? 191))
               then s ← utf8_decode l; Some (String (ascii_of_nat (Z.to_nat (Z.lor (Z.shiftl (Z.land a 3) 6) (Z.land b 63)))) s)
               else None
           | [] => None
           end
  end.

End Base64Decode.
(** ** ISO timestamps *)

(** [datetime.isoformat] and [datetime.fromisoformat] of moments with a zone; [None] where
    it raises a [ValueError].  The text of a moment is not empty and reads back. *)
Class IsoText := { isoformat : datetime -> string; fromisoformat : string -> option datetime }.

Class IsoTextLaws `{IsoText} := {
  isoformat_text : forall t, str_truthy (isoformat t) = true;
  fromisoformat_isoformat : forall t, fromisoformat (isoformat t) = Some t
}.

(** ** Theorems: Base64 *)

Module Base64Theorems.
Import Base64Decode.

Lemma lor_shiftl_add (x y k : Z) : 0 <= k -> 0 <= y < 2 ^ k -> Z.lor (Z.shiftl x k) y = x * 2 ^ k + y.
Proof.
  intros Hk Hy. rewrite <- Z.shiftl_mul_pow2 by done. pose proof (Z.add_lor_land (Z.shiftl x k) y) as Hadd.
  assert (Z.land (Z.shiftl x k) y = 0) as Hzero; [|lia].
  apply Z.bits_inj'. intros n Hn. rewrite Z.land_spec, Z.bits_0.
  destruct (Z.lt_ge_cases n k) as [Hlt|Hge].
  - by rewrite Z.shiftl_spec_low.
  - destruct (decide (y = 0)) as [->|Hy0]; [by rewrite Z.bits_0, andb_false_r |].
    rewrite (Z.bits_above_log2 y n); [apply andb_false_r | lia |]. apply Z.log2_lt_pow2; [lia |].
    apply Z.lt_le_trans with (2 ^ k); [lia | by apply Z.pow_le_mono_r].
Qed.

Lemma land_low (x n : Z) : 0 <= n -> Z.land x (2 ^ n - 1) = x mod 2 ^ n.
Proof. intros Hn. rewrite <- Z.land_ones by done. by rewrite Z.ones_equiv, Z.sub_1_r. Qed.

Lemma digit_value (n : Z) : 0 <= n < 64 -> value (Base64.digit n) = Some n /\ Ascii.eqb (Base64.digit n) "=" = false.
Proof.
  intros Hn.
  assert (forallb (fun k => bool_decide (value (Base64.digit (Z.of_nat k)) = Some (Z.of_nat k)) && negb (Ascii.eqb (Base64.digit (Z.of_nat k)) "=")) (seq 0 64) = true) as Hb
    by (by vm_compute).
  rewrite forallb_forall in Hb. specialize (Hb (Z.to_nat n)). rewrite Z2Nat.id in Hb by lia.
  rewrite andb_true_iff, negb_true_iff, bool_decide_eq_true in Hb. apply Hb, in_seq. lia.
Qed.

(** The digits of three bytes as numbers. *)
Lemma first_digit (a : Z) : Z.shiftr a 2 = a / 4.
Proof. by rewrite Z.shiftr_div_pow2. Qed.

Lemma second_digit (a b : Z) : 0 <= b < 256 ->
  Z.lor (Z.shiftl (Z.land a 3) 4) (Z.shiftr b 4) = (a mod 4) * 16 + b / 16.
Proof.
  intros Hb. rewrite Z.shiftr_div_pow2 by lia. rewrite lor_shiftl_add; [|lia|].
  - change 3 with (2 ^ 2 - 1). by rewrite land_low.
  - change (2 ^ 4) with 16. split; [apply Z.div_pos; lia | apply Z.div_lt_upper_bound; lia].
Qed.

Lemma third_digit (b c : Z) : 0 <= c < 256 ->
  Z.lor (Z.shiftl (Z.land b 15) 2) (Z.shiftr c 6) = (b mod 16) * 4 + c / 64.
Proof.
  intros Hc. rewrite Z.shiftr_div_pow2 by lia. rewrite lor_shiftl_add; [|lia|].
  - change 15 with (2 ^ 4 - 1). by rewrite land_low.
  - change (2 ^ 6) with 64. change (2 ^ 2) with 4. split; [apply Z.div_pos; lia | apply Z.div_lt_upper_bound; lia].
Qed.

Lemma fourth_digit (c : Z) : Z.land c 63 = c mod 64.
Proof. change 63 with (2 ^ 6 - 1). by rewrite land_low. Qed.

Lemma short_second (a : Z) : Z.shiftl (Z.land a 3) 4 = (a mod 4) * 16.
Proof. rewrite Z.shiftl_mul_pow2 by lia. change 3 with (2 ^ 2 - 1). by rewrite land_low. Qed.

Lemma short_third (b : Z) : Z.shiftl (Z.land b 15) 2 = (b mod 16) * 4.
Proof. rewrite Z.shiftl_mul_pow2 by lia. change 15 with (2 ^ 4 - 1). by rewrite land_low. Qed.

(** What the decoder makes of neighbouring digits. *)
Lemma byte1 (v1 v2 : Z) : 0 <= v2 < 64 -> Z.lor (Z.shiftl v1 2) (Z.shiftr v2 4) = v1 * 4 + v2 / 16.
Proof.
  intros Hv. rewrite Z.shiftr_div_pow2 by lia. rewrite lor_shiftl_add; [done | lia |].
  change (2 ^ 4) with 16. change (2 ^ 2) with 4. split; [apply Z.div_pos; lia | apply Z.div_lt_upper_bound; lia].
Qed.

Lemma byte2 (v2 v3 : Z) : 0 <= v3 < 64 -> Z.lor (Z.shiftl (Z.land v2 15) 4) (Z.shiftr v3 2) = v2 mod 16 * 16 + v3 / 4.
Proof.
  intros Hv. rewrite Z.shiftr_div_pow2 by lia. rewrite lor_shiftl_add; [|lia|].
  - change 15 with (2 ^ 4 - 1). by rewrite land_low.
  - change (2 ^ 2) with 4. change (2 ^ 4) with 16. split; [apply Z.div_pos; lia | apply Z.div_lt_upper_bound; lia].
Qed.

Lemma byte3 (v3 v4 : Z) : 0 <= v4 < 64 -> Z.lor (Z.shiftl (Z.land v3 3) 6) v4 = v3 mod 4 * 64 + v4.
Proof. intros Hv. rewrite lor_shiftl_add; [|lia|done]. change 3 with (2 ^ 2 - 1). by rewrite land_low. Qed.

Ltac range := Z.div_mod_to_equations; lia.

Definition bytes (l : list Z) : Prop := Forall (fun b => 0 <= b < 256) l.

(** One digit scanned. *)
Lemma scan_digit (quad pads : nat) (left v : Z) (l : list ascii) : 0 <= v < 64 ->
  scan quad pads left (Base64.digit v :: l) =
  match quad with
  | 0%nat => scan 1 0 v l
  | 1%nat => cons (Z.lor (Z.shiftl left 2) (Z.shiftr v 4)) <$> scan 2 0 (Z.land v 15) l
  | 2%nat => cons (Z.lor (Z.shiftl left 4) (Z.shiftr v 2)) <$> scan 3 0 (Z.land v 3) l
  | _ => cons (Z.lor (Z.shiftl left 6) v) <$> scan 0 0 0 l
  end.
Proof. intros [Hv He]%digit_value. cbn [scan]. by rewrite He, Hv. Qed.

(** Decoding takes back encoding, for every list of bytes. *)
Theorem decode_encode (l : list Z) : bytes l -> scan 0 0 0 (Base64.encode l) = Some l.
Proof.
  intros Hl. remember (length l) as n eqn:Hn. revert l Hl Hn.
  induction n as [n IH] using lt_wf_ind. intros l Hl Hn.
  destruct l as [|a [|b [|c l]]]; [done | | |]; repeat (apply Forall_cons in Hl as [? Hl]);
    cbn [Base64.encode]; rewrite ?first_digit, ?second_digit, ?third_digit, ?fourth_digit, ?short_second, ?short_third by done.
  - rewrite !scan_digit by range. rewrite byte1 by range. cbn. do 2 f_equal. range.
  - rewrite !scan_digit by range. rewrite byte1, byte2 by range. cbn. do 2 f_equal; [range |]. f_equal. range.
  - rewrite !scan_digit by range. rewrite (IH (length l)); [|subst n; simpl; lia | done | done].
    rewrite byte1, byte2, byte3 by range. cbn. do 2 f_equal; [range |]. f_equal; [range |]. f_equal. range.
Qed.

(** An encoded text is ASCII and has no brace. *)
Definition plain (c : ascii) : bool := (nat_of_ascii c <? 128)%nat && negb (Ascii.eqb c "{").

Lemma encode_plain (l : list Z) : bytes l -> Forall (fun c => plain c = true) (Base64.encode l).
Proof.
  assert (forall n, 0 <= n < 64 -> plain (Base64.digit n) = true) as Hd.
  { assert (forallb (fun k => plain (Base64.digit (Z.of_nat k))) (seq 0 64) = true) as Hb by (by vm_compute).
    intros n Hn. rewrite forallb_forall in Hb. specialize (Hb (Z.to_nat n)). rewrite Z2Nat.id in Hb by lia.
    apply Hb, in_seq. lia. }
  intros Hl. remember (length l) as n eqn:Hn. revert l Hl Hn.
  induction n as [n IH] using lt_wf_ind. intros l Hl Hn.
  destruct l as [|a [|b [|c l]]]; [constructor | | |]; repeat (apply Forall_cons in Hl as [? Hl]);
    cbn [Base64.encode]; rewrite ?first_digit, ?second_digit, ?third_digit, ?fourth_digit, ?short_second, ?short_third by done;
    repeat (apply Forall_cons; split; [first [done | apply Hd; range] |]); [constructor | constructor |].
  apply (IH (length l)); [subst n; simpl; lia | done | done].
Qed.

Lemma utf8_bytes (s : string) : bytes (Base64.utf8 s).
Proof.
  unfold Base64.utf8, bytes. induction s as [|c s IH]; simpl; [constructor |]. apply Forall_app. split; [|done].
  destruct c as [[] [] [] [] [] [] [] []]; vm_compute; repeat constructor; done.
Qed.

Definition utf8_char (c : ascii) : list Z :=
  let n := Base64.byte c in if n <? 128 then [n] else [Z.lor 192 (Z.shiftr n 6); Z.lor 128 (Z.land n 63)].

Lemma utf8_decode_char (c : ascii) (rest : list Z) :
  utf8_decode (utf8_char c ++ rest) = t ← utf8_decode rest; Some (String c t).
Proof. destruct c as [[] [] [] [] [] [] [] []]; reflexivity. Qed.

Lemma utf8_decode_utf8 (s : string) : utf8_decode (Base64.utf8 s) = Some s.
Proof.
  induction s as [|c s IH]; [done |]. change (Base64.utf8 (String c s)) with (utf8_char c ++ Base64.utf8 s).
  by rewrite utf8_decode_char, IH.
Qed.

Lemma plain_text (l : list ascii) : Forall (fun c => plain c = true) l ->
  ascii_only (String.string_of_list_ascii l) = true /\ has_char "{" (String.string_of_list_ascii l) = false.
Proof.
  induction 1 as [|c l Hc Hl [IH1 IH2]]; [done |]. apply andb_true_iff in Hc as [Hc1 Hc2%negb_true_iff].
  cbn [String.string_of_list_ascii ascii_only has_char]. by rewrite Hc1, Hc2, IH1, IH2.
Qed.

Lemma b64_no_brace (s : string) : has_char "{" (Base64.b64encode s) = false.
Proof. apply plain_text, encode_plain, utf8_bytes. Qed.

(** The text that is encoded is the text that is decoded. *)
Theorem b64_round_trip (s : string) :
  Base64Decode.b64decode (Base64.b64encode s) ≫= utf8_decode = Some s.
Proof.
  unfold b64decode, Base64.b64encode. destruct (plain_text _ (encode_plain _ (utf8_bytes s))) as [-> _].
  rewrite String.list_ascii_of_string_of_list_ascii, decode_encode by apply utf8_bytes. apply utf8_decode_utf8.
Qed.

End Base64Theorems.

(** ** A text for JSON that satisfies the laws

    Values are numbered and the number is written in binary, after a brace for an object. *)

Module SampleJson.

Definition leaf : Type := bool + Z + Z * positive + string.

Fixpoint to_tree (j : json) : gen_tree leaf :=
  match j with
  | JNull => GenNode 0 []
  | JBool b => GenLeaf (inl (inl (inl b)))
  | JInt z => GenLeaf (inl (inl (inr z)))
  | JFloat q => GenLeaf (inl (inr (Qnum q, Qden q)))
  | JStr s => GenLeaf (inr s)
  | JList l => GenNode 1 (map to_tree l)
  | JObj d => GenNode 2 (flat_map (fun '(k, v) => [GenLeaf (inr k); to_tree v]) d)
  end.

Fixpoint of_tree (t : gen_tree leaf) : json :=
  match t with
  | GenLeaf (inl (inl (inl b))) => JBool b
  | GenLeaf (inl (inl (inr z))) => JInt z
  | GenLeaf (inl (inr (n, d))) => JFloat (n # d)
  | GenLeaf (inr s) => JStr s
  | GenNode 1 l => JList (map of_tree l)
  | GenNode 2 l =>
      JObj ((fix pairs (l : list (gen_tree leaf)) : list (string * json) :=
               match l with
               | GenLeaf (inr k) :: t :: l => (k, of_tree t) :: pairs l
               | _ => []
               end) l)
  | GenNode _ _ => JNull
  end.

Fixpoint of_to_tree (j : json) : of_tree (to_tree j) = j.
Proof.
  destruct j as [| | |[n d]| |l|d]; simpl; try reflexivity.
  - f_equal. induction l as [|x l IH]; simpl; [reflexivity |]. f_equal; [apply of_to_tree | exact IH].
  - f_equal. induction d as [|[k v] d IH]; simpl; [reflexivity |]. f_equal; [f_equal; apply of_to_tree | exact IH].
Qed.

Fixpoint bits (p : positive) : string :=
  match p with xH => EmptyString | xO p => String "0" (bits p) | xI p => String "1" (bits p) end.

Fixpoint unbits (s : string) : positive :=
  match s with
  | String "0" s => xO (unbits s)
  | String "1" s => xI (unbits s)
  | _ => xH
  end.

Lemma unbits_bits (p : positive) : unbits (bits p) = p.
Proof. induction p as [p IH|p IH|]; cbn; by rewrite ?IH. Qed.

Lemma unbits_line (p : positive) : unbits (bits p +:+ newline) = p.
Proof. induction p as [p IH|p IH|]; cbn [bits]; rewrite ?append_cons; cbn; by rewrite ?IH. Qed.

Definition strip_brace (s : string) : string := match s with String "{" s => s | s => s end.

#[export] Instance sample_text : JsonText := {|
  dumps j := match j with JObj _ => String "{" (bits (encode (to_tree j))) | _ => bits (encode (to_tree j)) end;
  loads s := option_map of_tree (decode (unbits (strip_brace s)))
|}.

Lemma bits_ascii (p : positive) : ascii_only (bits p) = true.
Proof. by induction p. Qed.

Lemma bits_no_brace (p : positive) :
  strip_brace (bits p) = bits p /\ strip_brace (bits p +:+ newline) = bits p +:+ newline.
Proof. by destruct p. Qed.

#[export] Instance sample_laws : JsonTextLaws.
Proof.
  assert (forall j s, unbits s = encode (to_tree j) -> option_map of_tree (decode (unbits s)) = Some j) as Hd.
  { intros j s ->. rewrite decode_encode. simpl. by rewrite of_to_tree. }
  split.
  - intros j _. destruct j; cbn [loads dumps sample_text]; try (rewrite (proj1 (bits_no_brace _)); apply Hd, unbits_bits).
    cbn [strip_brace]. apply Hd, unbits_bits.
  - intros j _. destruct j; cbn [loads dumps sample_text]; try (rewrite (proj2 (bits_no_brace _)); apply Hd, unbits_line).
    rewrite append_cons. cbn [strip_brace]. apply Hd, unbits_line.
  - intros []; cbn [dumps sample_text]; first [exact (bits_ascii _) | exact (bits_ascii _ : ascii_only (String "{" (bits _)) = true)].
  - done.
Qed.

End SampleJson.

(** A text for moments: their number. *)

Module SampleIso.

Definition number (s : string) : option Z :=
  match s with
  | String "p" s => Some (Zpos (SampleJson.unbits s))
  | String "n" s => Some (Zneg (SampleJson.unbits s))
  | String "z" EmptyString => Some 0
  | _ => None
  end.

#[export] Instance sample_iso : IsoText := {|
  isoformat t := match t with
                 | Z0 => "z"
                 | Zpos p => String "p" (SampleJson.bits p)
                 | Zneg p => String "n" (SampleJson.bits p)
                 end;
  fromisoformat := number
|}.

#[export] Instance sample_iso_laws : IsoTextLaws.
Proof. split; intros []; cbn; by rewrite ?SampleJson.unbits_bits. Qed.

End SampleIso.
