(* ===== verification/SourceRegistry.v ===== *)
(** * The source registry

    [repositories/source_registry.py], [core/auth_headers.py], the request schemas
    of [api_schemas/source_registry.py] and the endpoints of
    [api/routes/source_registry.py]: the profiles of the polled APIs, the check of
    their URLs against server-side request forgery, and the live probe.

    DNS ([getaddrinfo]) and the HTTP client are parameters; each resolution may
    answer differently.  Starting and stopping the scheduler's jobs is left out. *)

From Stdlib Require Import ZifyBool.
From S2P Require Import Prelude Db Network Incidents.

Module SourceRegistry.

(** ** Constants and settings *)

Definition SOURCE_HEALTH_UNHEALTHY_THRESHOLD_MS : Q := 5000.
Definition SSRF_HTTPS_PORTS : list Z := [443].

Record Settings := SettingsOf {
  ssrf_allowed_domains : option string;
  ssrf_strict_ports : bool
}.

(** ** The URL check *)

Definition _is_forbidden_ip (addr : Ip.address) : bool :=
  Ip.is_private addr || Ip.is_loopback addr || Ip.is_link_local addr || Ip.is_multicast addr
  || Ip.is_reserved addr || Ip.is_unspecified addr.

(** The set built from the comma-separated setting. *)
Definition allowed_domains (setting : string) : list string :=
  omap (fun d => if str_truthy (strip d) then Some (lower (strip d)) else None) (split_on "," setting).

Section Validate.
Context (settings : Settings) (bracketed_host : string -> bool).

Definition value_error {A} (message : string) : result Url.ValueError A :=
  Raise (Url.value_error message).

(** [getaddrinfo(host, port)]: the address of each answer, if it has one, or
    [socket.gaierror]. *)
Definition resolver : Type := string -> Z -> result unit (list (option Ip.address)).

(** The port restriction, and the addresses the host resolves to. *)
Definition check_endpoint (getaddrinfo : resolver) (hostname : string) (port : Z) : result Url.ValueError unit :=
  if ssrf_strict_ports settings && negb (bool_decide (port ∈ SSRF_HTTPS_PORTS))
  then value_error "base_url must use HTTPS port 443."
  else match getaddrinfo hostname port with
  | Raise _ => value_error "base_url hostname could not be resolved."
  | Ok infos =>
      let resolved_ips := omap id infos in
      match resolved_ips with
      | [] => value_error "base_url hostname could not be resolved."
      | _ =>
          match List.filter _is_forbidden_ip resolved_ips with
          | [] => Ok tt
          | _ => value_error "base_url resolves to private or local IP space."
          end
      end
  end.

Definition validate_source_base_url (getaddrinfo : resolver) (base_url : string) (allow_http : bool)
    : result Url.ValueError unit :=
  bind_result (Url.urlsplit bracketed_host base_url) (fun parsed =>
  if negb (bool_decide (Url.scheme parsed ∈ ["https"; "http"]))
  then value_error "base_url must use https scheme."
  else if bool_decide (Url.scheme parsed = "http") && negb allow_http
  then value_error "base_url must use https scheme."
  else match Url.hostname parsed with
  | None => value_error "base_url must include a valid hostname."
  | Some hostname =>
      if match ssrf_allowed_domains settings with
         | Some domains => str_truthy domains && negb (bool_decide (lower hostname ∈ allowed_domains domains))
         | None => false
         end
      then value_error "base_url hostname is not in the configured SSRF allow-list."
      else bind_result (Url.port parsed) (fun p =>
      let default_port := if decide (Url.scheme parsed = "https") then 443 else 80 in
      let port := match p with Some p => if p =? 0 then default_port else p | None => default_port end in
      check_endpoint getaddrinfo hostname port)
  end).

End Validate.

(** ** Profiles *)

Record SourceProfile := Profile {
  name : string;
  base_url : string;
  health_check_path : string;
  probe_interval_seconds : Z;
  is_active : bool;
  tenant_id : option Z;
  latency_threshold_ms : option Q;
  incident_failure_threshold : Z;
  incident_cooldown_seconds : Z;
  auth_type : string;
  api_key : option string;
  auth_header_name : string;
  auth_username : option string;
  created_at : datetime;
  updated_at : option datetime;
  deleted_at : option datetime
}.

Abbreviation profiles := (table SourceProfile) (only parsing).

Record SourceProfileCreate := ProfileCreate {
  create_name : string;
  create_base_url : string;
  create_health_check_path : string;
  create_probe_interval_seconds : Z;
  create_is_active : bool;
  create_latency_threshold_ms : option Q;
  create_incident_failure_threshold : Z;
  create_incident_cooldown_seconds : Z;
  create_auth_type : string;
  create_api_key : option string;
  create_auth_header_name : string;
  create_auth_username : option string
}.

(** The field constraints and the validator of [SourceProfileCreate]. *)
Definition valid_create (p : SourceProfileCreate) : bool :=
  let len s := Z.of_nat (String.length s) in
  (1 <=? len (create_name p)) && (len (create_name p) <=? 255)
  && (len (create_base_url p) <=? 2048)
  && (1 <=? len (create_health_check_path p)) && (len (create_health_check_path p) <=? 255)
  && String.prefix "/" (create_health_check_path p)
  && (1 <=? create_probe_interval_seconds p)
  && match create_latency_threshold_ms p with Some q => Qltb 0 q | None => true end
  && (1 <=? create_incident_failure_threshold p) && (create_incident_failure_threshold p <=? 20)
  && (0 <=? create_incident_cooldown_seconds p) && (create_incident_cooldown_seconds p <=? 86400)
  && match create_api_key p with Some k => len k <=? 2048 | None => true end
  && (len (create_auth_header_name p) <=? 128)
  && match create_auth_username p with Some u => len u <=? 255 | None => true end.

(** The fields a PATCH body has set, each possibly to null ([exclude_unset]). *)
Inductive profile_field :=
| SetBaseUrl (o : option string)
| SetHealthCheckPath (o : option string)
| SetProbeIntervalSeconds (o : option Z)
| SetIsActive (o : option bool)
| SetLatencyThresholdMs (o : option Q)
| SetIncidentFailureThreshold (o : option Z)
| SetIncidentCooldownSeconds (o : option Z)
| SetAuthType (o : option string)
| SetApiKey (o : option string)
| SetAuthHeaderName (o : option string)
| SetAuthUsername (o : option string).

(** What the database makes of an assignment at commit: null in a column that is
    not nullable is an [IntegrityError]; the URL object that [model_dump] leaves in
    [base_url] is not a string and cannot be bound to a text column. *)
Inductive commit_error := NullViolation | UnsupportedType.

Definition set_field (f : profile_field) (p : SourceProfile) : result commit_error SourceProfile :=
  let 'Profile n bu hp pi ia te lt ft cd at_ ak ah au ca ua da := p in
  let required {A} (o : option A) (k : A -> SourceProfile) : result commit_error SourceProfile :=
    match o with Some a => Ok (k a) | None => Raise NullViolation end in
  match f with
  | SetBaseUrl (Some _) => Raise UnsupportedType
  | SetBaseUrl None => Raise NullViolation
  | SetHealthCheckPath o => required o (fun x => Profile n bu x pi ia te lt ft cd at_ ak ah au ca ua da)
  | SetProbeIntervalSeconds o => required o (fun x => Profile n bu hp x ia te lt ft cd at_ ak ah au ca ua da)
  | SetIsActive o => required o (fun x => Profile n bu hp pi x te lt ft cd at_ ak ah au ca ua da)
  | SetLatencyThresholdMs o => Ok (Profile n bu hp pi ia te o ft cd at_ ak ah au ca ua da)
  | SetIncidentFailureThreshold o => required o (fun x => Profile n bu hp pi ia te lt x cd at_ ak ah au ca ua da)
  | SetIncidentCooldownSeconds o => required o (fun x => Profile n bu hp pi ia te lt ft x at_ ak ah au ca ua da)
  | SetAuthType o => required o (fun x => Profile n bu hp pi ia te lt ft cd x ak ah au ca ua da)
  | SetApiKey o => Ok (Profile n bu hp pi ia te lt ft cd at_ o ah au ca ua da)
  | SetAuthHeaderName o => required o (fun x => Profile n bu hp pi ia te lt ft cd at_ ak x au ca ua da)
  | SetAuthUsername o => Ok (Profile n bu hp pi ia te lt ft cd at_ ak ah o ca ua da)
  end.

Fixpoint set_fields (patch : list profile_field) (p : SourceProfile) : result commit_error SourceProfile :=
  match patch with
  | [] => Ok p
  | f :: patch => bind_result (set_field f p) (set_fields patch)
  end.

Definition set_updated_at (now : datetime) (p : SourceProfile) : SourceProfile :=
  let 'Profile n bu hp pi ia te lt ft cd at_ ak ah au ca ua da := p in
  Profile n bu hp pi ia te lt ft cd at_ ak ah au ca (Some now) da.

Definition set_deactivated (now : datetime) (p : SourceProfile) : SourceProfile :=
  let 'Profile n bu hp pi ia te lt ft cd at_ ak ah au ca ua da := p in
  Profile n bu hp pi false te lt ft cd at_ ak ah au ca (Some now) (Some now).

(** ** The repository *)

Definition create_source_profile (now : datetime) (payload : SourceProfileCreate) (tenant_id : option Z)
    (t : profiles) : result IntegrityError (Z * profiles) :=
  let profile := Profile (create_name payload) (create_base_url payload) (create_health_check_path payload)
    (create_probe_interval_seconds payload) (create_is_active payload) tenant_id
    (create_latency_threshold_ms payload) (create_incident_failure_threshold payload)
    (create_incident_cooldown_seconds payload) (create_auth_type payload) (create_api_key payload)
    (create_auth_header_name payload) (create_auth_username payload) now (Some now) None in
  insert_unique (fun r => bool_decide (name r = create_name payload)) profile t.

Definition present (p : SourceProfile) : bool := bool_decide (deleted_at p = None).

Definition get_source_profiles (active : option bool) (offset limit : nat) (t : profiles)
    : list (Z * SourceProfile) * nat :=
  let base := select (fun p => present p && match active with
                                            | Some b => Bool.eqb (is_active p) b
                                            | None => true
                                            end) t in
  (take limit (drop offset (order_by (fun x y => created_at y.2 <=? created_at x.2) base)), length base).

Definition get_source_profile (source_id : Z) (include_deleted : bool) (t : profiles) : option SourceProfile :=
  match get source_id t with
  | Some p => if include_deleted || present p then Some p else None
  | None => None
  end.

Definition get_source_profile_by_name (source_name : string) (include_deleted : bool) (t : profiles)
    : option (Z * SourceProfile) :=
  scalar (fun p => bool_decide (name p = source_name) && (include_deleted || present p)) t.

Definition resolve_source_name (source_id : Z) (t : profiles) : string :=
  match get_source_profile source_id false t with
  | Some p => name p
  | None => "source_" +:+ str_of_Z source_id
  end.

Definition resolve_source_id_by_name (source_name : string) (t : profiles) : option Z :=
  fst <$> get_source_profile_by_name source_name false t.

Definition update_source_profile (now : datetime) (source_id : Z) (patch : list profile_field) (t : profiles)
    : result commit_error profiles :=
  match get source_id t with
  | None => Ok t
  | Some p => bind_result (set_fields patch p) (fun p => Ok (update source_id (fun _ => set_updated_at now p) t))
  end.

Definition deactivate_source_profile (now : datetime) (source_id : Z) (t : profiles) : profiles :=
  update source_id (fun p => if present p then set_deactivated now p else p) t.

Record SourceSummaryResponse := Summary {
  total_sources : Z;
  active_sources : Z;
  inactive_sources : Z;
  avg_probe_interval_seconds : option Q
}.

Definition get_source_summary (t : profiles) : SourceSummaryResponse :=
  let ps := map snd (select present t) in
  let total := Z.of_nat (length ps) in
  let active := Z.of_nat (count is_active ps) in
  let intervals := map probe_interval_seconds ps in
  Summary total active (total - active)
    (match intervals with
     | [] => None
     | _ => Some (inject_Z (foldr Z.add 0%Z intervals) / inject_Z (Z.of_nat (length intervals)))%Q
     end).

(** ** Outbound authentication (core/auth_headers.py) *)

Definition build_auth_headers (auth_type : string) (api_key : option string) (auth_header_name : string)
    (auth_username : option string) : list (string * string) :=
  match api_key with
  | Some key =>
      if bool_decide (auth_type = "none") || negb (str_truthy key) then []
      else if decide (auth_type = "bearer") then [("Authorization", "Bearer " +:+ key)]
      else if decide (auth_type = "header") then [(auth_header_name, key)]
      else if decide (auth_type = "basic") then
        [("Authorization", "Basic " +:+ Base64.b64encode (or_else auth_username "" +:+ ":" +:+ key))]
      else []
  | None => []
  end.

(** ** The probe *)

Record SourceHealthResponse := Health {
  source_id : Z;
  target_url : string;
  reachable : bool;
  status_code : option Z;
  latency_ms : Q;
  sla_breach : bool;
  error : option string
}.

(** [s.rstrip("/")] and [s.lstrip("/")]. *)
Fixpoint rstrip_slash (s : string) : string :=
  match s with
  | EmptyString => EmptyString
  | String c s' =>
      match rstrip_slash s' with
      | EmptyString => if Ascii.eqb c "/" then EmptyString else String c EmptyString
      | t => String c t
      end
  end.
Definition lstrip_slash (s : string) : string := Url.lstrip_while (Ascii.eqb "/") s.

Inductive http_method := HEAD | GET.

Record http_request := Request {
  method : http_method;
  url : string;
  headers : list (string * string)
}.

Section Probe.
Context (settings : Settings) (bracketed_host : string -> bool).
(** The HTTP client: the status code, or the text of the exception. *)
Context (send : http_request -> result string Z).

(** The target that the probe asks for. *)
Definition probe_url (profile : SourceProfile) : string :=
  rstrip_slash (base_url profile) +:+ "/" +:+ lstrip_slash (health_check_path profile).

(** The answer and the requests sent; [start] and [stop] are the readings of
    [perf_counter]. *)
Definition probe_source_health (getaddrinfo : resolver) (start stop : Q) (id : Z) (profile : SourceProfile)
    : SourceHealthResponse * list http_request :=
  let target := probe_url profile in
  let threshold := match latency_threshold_ms profile with
                   | Some t => if Qeq_bool t 0 then SOURCE_HEALTH_UNHEALTHY_THRESHOLD_MS else t
                   | None => SOURCE_HEALTH_UNHEALTHY_THRESHOLD_MS
                   end in
  let headers := build_auth_headers (auth_type profile) (api_key profile) (auth_header_name profile)
                   (auth_username profile) in
  let elapsed_ms := py_round 2 ((stop - start) * 1000) in
  let failed message sent := (Health id target false None elapsed_ms true (Some message), sent) in
  match validate_source_base_url settings bracketed_host getaddrinfo target false with
  | Raise (Url.value_error message) => failed message []
  | Ok _ =>
      let head := Request HEAD target headers in
      match send head with
      | Raise message => failed message [head]
      | Ok code =>
          if code =? 405 then
            let get := Request GET target headers in
            match send get with
            | Raise message => failed message [head; get]
            | Ok code => (Health id target true (Some code) elapsed_ms (Qltb threshold elapsed_ms) None, [head; get])
            end
          else (Health id target true (Some code) elapsed_ms (Qltb threshold elapsed_ms) None, [head])
      end
  end.

End Probe.

(** ** Endpoints *)

Inductive route_error :=
| Http (e : Incidents.HTTPException)
| Unhandled (e : commit_error).

Definition not_found : route_error := Http (Incidents.HTTP 404 "Source not found.").

Section Routes.
Context (settings : Settings) (bracketed_host : string -> bool).

Definition register_source (getaddrinfo : resolver) (now : datetime) (payload : SourceProfileCreate)
    (c : Incidents.claims) (t : profiles) : result route_error (Z * profiles) :=
  match validate_source_base_url settings bracketed_host getaddrinfo (create_base_url payload) false with
  | Raise (Url.value_error message) => Raise (Http (Incidents.HTTP 422 message))
  | Ok _ =>
      match create_source_profile now payload (Incidents.claim_tenant_id c) t with
      | Raise integrity_error => Raise (Http (Incidents.HTTP 409 "Source name already registered."))
      | Ok r => Ok r
      end
  end.

Definition get_source (id : Z) (t : profiles) : result route_error SourceProfile :=
  match get_source_profile id false t with
  | None => Raise not_found
  | Some p => Ok p
  end.

Definition patch_base_url (patch : list profile_field) : option string :=
  foldl (fun o f => match f with SetBaseUrl u => u | _ => o end) None patch.

Definition patch_source (getaddrinfo : resolver) (now : datetime) (id : Z) (patch : list profile_field)
    (t : profiles) : result route_error profiles :=
  match get_source_profile id false t with
  | None => Raise not_found
  | Some _ =>
      let checked := match patch_base_url patch with
                     | Some u => validate_source_base_url settings bracketed_host getaddrinfo u false
                     | None => Ok tt
                     end in
      match checked with
      | Raise (Url.value_error message) => Raise (Http (Incidents.HTTP 422 message))
      | Ok _ =>
          match update_source_profile now id patch t with
          | Raise e => Raise (Unhandled e)
          | Ok t => Ok t
          end
      end
  end.

Definition delete_source (now : datetime) (id : Z) (t : profiles) : result route_error profiles :=
  match get_source_profile id true t with
  | None => Raise not_found
  | Some _ => Ok (deactivate_source_profile now id t)
  end.

Definition source_health (send : http_request -> result string Z) (getaddrinfo : resolver) (start stop : Q)
    (id : Z) (t : profiles) : result route_error (SourceHealthResponse * list http_request) :=
  match get_source_profile id false t with
  | None => Raise not_found
  | Some p => Ok (probe_source_health settings bracketed_host send getaddrinfo start stop id p)
  end.

End Routes.

(** ** Steps: every way the endpoints change the table *)

Inductive step : profiles -> profiles -> Prop :=
| step_register now payload tenant t i t' :
    create_source_profile now payload tenant t = Ok (i, t') -> step t t'
| step_update now i patch t t' :
    update_source_profile now i patch t = Ok t' -> step t t'
| step_deactivate now i t : step t (deactivate_source_profile now i t).

End SourceRegistry.

(** ** Lemmas and theorems *)

Module SourceRegistryFacts.
Import SourceRegistry.

(** *** The addresses that are refused, by their first and last one *)

Definition inside (n : Z) (range : Z * Z) : bool := (range.1 <=? n) && (n <=? range.2).

Definition refused_v4 : list (Z * Z) :=
  [(Ip.quad 0 0 0 0, Ip.quad 0 255 255 255); (Ip.quad 10 0 0 0, Ip.quad 10 255 255 255);
   (Ip.quad 127 0 0 0, Ip.quad 127 255 255 255); (Ip.quad 169 254 0 0, Ip.quad 169 254 255 255);
   (Ip.quad 172 16 0 0, Ip.quad 172 31 255 255); (Ip.quad 192 0 0 0, Ip.quad 192 0 0 8);
   (Ip.quad 192 0 0 11, Ip.quad 192 0 0 255); (Ip.quad 192 0 2 0, Ip.quad 192 0 2 255);
   (Ip.quad 192 168 0 0, Ip.quad 192 168 255 255); (Ip.quad 198 18 0 0, Ip.quad 198 19 255 255);
   (Ip.quad 198 51 100 0, Ip.quad 198 51 100 255); (Ip.quad 203 0 113 0, Ip.quad 203 0 113 255);
   (Ip.quad 224 0 0 0, Ip.quad 255 255 255 255)].

(** The groups of an IPv6 address, the first ones given, the others zero or ffff. *)
Definition lowest (l : list Z) : Z := Ip.groups l.
Definition highest (l : list Z) : Z := Ip.groups (l ++ replicate (8 - length l) 65535).

(** Below 2000::, 2001::/23, 2001:db8::/32, 2002::/16, 3fff::/20, from 4000:: to febf:...:ffff
    and from ff00:: on; *)
Definition refused_v6 : list (Z * Z) :=
  [(0, highest [8191]); (lowest [8193], highest [8193; 511]); (lowest [8193; 3512], highest [8193; 3512]);
   (lowest [8194], highest [8194]); (lowest [16383], highest [16383; 4095]); (lowest [16384], highest [65215]);
   (lowest [65280], highest [65535])].

(** but for 2001:1::1, 2001:1::2, 2001:3::/32, 2001:4:112::/48, 2001:20::/28, 2001:30::/28. *)
Definition granted_v6 : list (Z * Z) :=
  [(lowest [8193; 1; 0; 0; 0; 0; 0; 1], lowest [8193; 1; 0; 0; 0; 0; 0; 2]); (lowest [8193; 3], highest [8193; 3]);
   (lowest [8193; 4; 274], highest [8193; 4; 274]); (lowest [8193; 32], highest [8193; 63])].

(** ::ffff:0.0.0.0 to ::ffff:255.255.255.255, which stand for IPv4 addresses. *)
Definition mapped : Z * Z := (lowest [0; 0; 0; 0; 0; 65535], highest [0; 0; 0; 0; 0; 65535]).

Definition public (a : Ip.address) : bool :=
  match a with
  | Ip.V4 n => negb (existsb (inside n) refused_v4)
  | Ip.V6 n =>
      if inside n mapped then negb (existsb (inside (n - mapped.1)) refused_v4)
      else negb (existsb (inside n) refused_v6) || existsb (inside n) granted_v6
  end.

Lemma forbidden_v4 n : _is_forbidden_ip (Ip.V4 n) = existsb (inside n) refused_v4.
Proof.
  unfold _is_forbidden_ip, Ip.is_private, Ip.is_loopback, Ip.is_link_local, Ip.is_multicast,
    Ip.is_reserved, Ip.is_unspecified. simpl Ip.normal. cbv iota.
  unfold Ip.in_any, Ip.v4_private, Ip.v4_private_exceptions. cbn [existsb].
  rewrite !Ip.in_network_range by first [lia | apply Z.mod_divide; [discriminate | reflexivity]].
  cbv -[Z.leb Z.ltb Z.eqb andb orb negb]. lia.
Qed.

Lemma normal_v6 n :
  Ip.normal (Ip.V6 n) = if inside n mapped then Ip.V4 (n - mapped.1) else Ip.V6 n.
Proof.
  unfold Ip.normal, inside. rewrite Z.shiftr_div_pow2, Z.land_ones by lia.
  change mapped.1 with (65535 * 2 ^ 32). change mapped.2 with (65535 * 2 ^ 32 + (2 ^ 32 - 1)).
  pose proof (Z.div_mod n (2 ^ 32)). pose proof (Z.mod_pos_bound n (2 ^ 32)).
  destruct (Z.eqb_spec (n / 2 ^ 32) 65535) as [E|E], (Z.leb_spec (65535 * 2 ^ 32) n),
    (Z.leb_spec n (65535 * 2 ^ 32 + (2 ^ 32 - 1))); cbn [andb]; try done; try (f_equal; lia); lia.
Qed.

Lemma forbidden_v6 n :
  inside n mapped = false ->
  _is_forbidden_ip (Ip.V6 n) = existsb (inside n) refused_v6 && negb (existsb (inside n) granted_v6).
Proof.
  intros Hm. pose proof (normal_v6 n) as Hn. rewrite Hm in Hn.
  unfold _is_forbidden_ip, Ip.is_private, Ip.is_loopback, Ip.is_link_local, Ip.is_multicast,
    Ip.is_reserved, Ip.is_unspecified. rewrite Hn. cbv iota.
  unfold Ip.in_any, Ip.v6_private, Ip.v6_private_exceptions, Ip.v6_reserved. cbn [existsb].
  rewrite !Ip.in_network_range by first [lia | apply Z.mod_divide; [discriminate | reflexivity]].
  cbv -[Z.leb Z.ltb Z.eqb andb orb negb]. clear Hn Hm. lia.
Qed.

Lemma forbidden_public a : _is_forbidden_ip a = negb (public a).
Proof.
  destruct a as [n|n]; cbn [public]; [by rewrite forbidden_v4, negb_involutive |].
  destruct (inside n mapped) eqn:Hm; [|by rewrite forbidden_v6, negb_orb, negb_involutive].
  rewrite negb_involutive, <- forbidden_v4. unfold _is_forbidden_ip, Ip.is_private, Ip.is_loopback, Ip.is_link_local,
    Ip.is_multicast, Ip.is_reserved, Ip.is_unspecified. by rewrite normal_v6, Hm.
Qed.

(** The addresses a URL may not resolve to are exactly these ranges; in particular the
    shared address space 100.64.0.0/10 of carriers and the site-local addresses fec0::/10
    are not refused. *)
Theorem forbidden_ranges (a : Ip.address) :
  _is_forbidden_ip a = negb (public a) /\
  (forall n, Ip.quad 100 64 0 0 <= n <= Ip.quad 100 127 255 255 -> _is_forbidden_ip (Ip.V4 n) = false) /\
  (forall n, lowest [65216] <= n <= highest [65279] -> _is_forbidden_ip (Ip.V6 n) = false).
Proof.
  split; [apply forbidden_public |]. split; intros n Hn; rewrite forbidden_public; cbn [public].
  - unfold inside. cbv -[Z.leb Z.le andb orb negb] in *. lia.
  - assert (inside n mapped = false) as -> by (unfold inside; cbv -[Z.leb Z.le andb orb negb] in *; lia).
    unfold inside. cbv -[Z.leb Z.le andb orb negb] in *. lia.
Qed.

Section facts.
Context (settings : Settings) (bracketed_host : string -> bool).

(** What an accepted URL has been checked for. *)
Definition url_checked (getaddrinfo : resolver) (url : string) (allow_http : bool) : Prop :=
  exists u host p infos,
    Url.urlsplit bracketed_host url = Ok u /\
    (Url.scheme u = "https" \/ Url.scheme u = "http" /\ allow_http = true) /\
    Url.hostname u = Some host /\ Url.port u = Ok p /\
    (forall domains, ssrf_allowed_domains settings = Some domains -> domains <> "" ->
       exists d, d ∈ split_on "," domains /\ strip d <> "" /\ lower host = lower (strip d)) /\
    let port := match p with
                | Some (Zpos _ as p) => p
                | _ => if decide (Url.scheme u = "https") then 443 else 80
                end in
    (ssrf_strict_ports settings = true -> port = 443) /\
    getaddrinfo host port = Ok infos /\ omap id infos <> [] /\
    (forall addr, Some addr ∈ infos -> public addr = true).

Lemma allowed_domains_spec domains host :
  host ∈ allowed_domains domains <-> exists d, d ∈ split_on "," domains /\ strip d <> "" /\ host = lower (strip d).
Proof.
  unfold allowed_domains. rewrite list_elem_of_omap. split.
  - intros (d & Hd & H). exists d. destruct (strip d) as [|c r] eqn:E; [done |]. cbn in H. by simplify_eq.
  - intros (d & Hd & Hne & ->). exists d. split; [done |]. by destruct (strip d).
Qed.

Lemma allow_list_check (o : option string) host :
  match o with
  | Some domains => str_truthy domains && negb (bool_decide (lower host ∈ allowed_domains domains))
  | None => false
  end = false <->
  (forall domains, o = Some domains -> domains <> "" ->
     exists d, d ∈ split_on "," domains /\ strip d <> "" /\ lower host = lower (strip d)).
Proof.
  destruct o as [d|]; [|by split].
  rewrite andb_false_iff, negb_false_iff, bool_decide_eq_true, allowed_domains_spec. split.
  - intros [Hd|Hin] domains [= <-] Hne; [by destruct d | done].
  - intros H. destruct d as [|c d]; [by left |]. right. by apply H.
Qed.

Lemma digits_value_nonneg s : 0 <= Url.digits_value s \/ Url.all_chars Url.is_digit s = false.
Proof.
  unfold Url.digits_value, Url.all_chars. set (l := String.list_ascii_of_string s). clearbody l.
  assert (forall n, 0 <= n -> forallb Url.is_digit l = true ->
    0 <= foldl (fun n c => n * 10 + (Z.of_nat (nat_of_ascii c) - 48)) n l) as H.
  { induction l as [|c l IH]; intros n Hn; simpl; [done |].
    intros [Hc Hl]%andb_true_iff. apply IH; [|done].
    unfold Url.is_digit in Hc. apply andb_true_iff in Hc as [Hc _]. apply Nat.leb_le in Hc. lia. }
  destruct (forallb Url.is_digit l) eqn:E; [left; by apply H | by right].
Qed.

Lemma port_nonneg u p : Url.port u = Ok (Some p) -> 0 <= p.
Proof.
  unfold Url.port. destruct (snd (Url.hostinfo u)) as [s|]; [|done].
  destruct (Url.all_chars Url.is_digit s) eqn:E; [|done].
  destruct (_ <=? _); intros [= <-]. destruct (digits_value_nonneg s); congruence.
Qed.

Lemma refused_nil (infos : list (option Ip.address)) :
  List.filter _is_forbidden_ip (omap id infos) = [] <->
  (forall addr, Some addr ∈ infos -> public addr = true).
Proof.
  induction infos as [|[a|] infos IH]; simpl.
  - split; [|done]. by intros _ addr ?%elem_of_nil.
  - rewrite forbidden_public. destruct (public a) eqn:E; cbn [negb].
    2: { split; [done |]. intros H. rewrite H in E; [done | by left]. }
    rewrite IH. split; [intros H addr [[= ->]|Hin]%elem_of_cons; auto |]. intros H addr Hin. apply H. by right.
  - rewrite IH. split; intros H addr; [intros [?|Hin]%elem_of_cons; [done | auto] | intros Hin; apply H; by right].
Qed.

Lemma check_endpoint_exact (getaddrinfo : resolver) host port :
  check_endpoint settings getaddrinfo host port = Ok tt <->
  (ssrf_strict_ports settings = true -> port = 443) /\
  exists infos, getaddrinfo host port = Ok infos /\ omap id infos <> [] /\
    (forall addr, Some addr ∈ infos -> public addr = true).
Proof.
  unfold check_endpoint.
  destruct (ssrf_strict_ports settings && negb (bool_decide (port ∈ SSRF_HTTPS_PORTS))) eqn:Est.
  { apply andb_true_iff in Est as [Est Hn%negb_true_iff%bool_decide_eq_false].
    split; [done |]. intros [Hp _]. exfalso. apply Hn. rewrite (Hp Est). by left. }
  assert (ssrf_strict_ports settings = true -> port = 443) as Hst.
  { intros H. rewrite H in Est. simpl in Est. apply negb_false_iff, bool_decide_eq_true in Est.
    by apply list_elem_of_singleton in Est. }
  destruct (getaddrinfo host port) as [infos|]; [|split; [done | by intros (_ & ? & ? & _)]].
  pose proof (refused_nil infos) as Hr. split.
  - intros H. split; [done |]. exists infos. split_and!; [done | by destruct (omap id infos) |].
    apply Hr. by destruct (omap id infos), (List.filter _ _).
  - intros (_ & infos' & [= <-] & Hne & Hall). apply Hr in Hall. rewrite Hall. by destruct (omap id infos).
Qed.

Lemma validate_checked (getaddrinfo : resolver) (url : string) (allow_http : bool) :
  validate_source_base_url settings bracketed_host getaddrinfo url allow_http = Ok tt <->
  url_checked getaddrinfo url allow_http.
Proof.
  unfold validate_source_base_url, url_checked.
  destruct (Url.urlsplit bracketed_host url) as [u|e]; simpl; [|split; [done | by intros (? & ? & ? & ? & ? & ?)]].
  destruct (bool_decide (Url.scheme u ∈ ["https"; "http"])) eqn:Es; simpl.
  2: { split; [done |]. intros (u' & ? & ? & ? & [= <-] & Hs & _).
       apply bool_decide_eq_false in Es. exfalso. apply Es. destruct Hs as [-> | [-> _]]; set_solver. }
  apply bool_decide_eq_true in Es.
  destruct (bool_decide (Url.scheme u = "http") && negb allow_http) eqn:Eh; simpl.
  { split; [done |]. intros (u' & ? & ? & ? & [= <-] & Hs & _).
    apply andb_true_iff in Eh as [Eh%bool_decide_eq_true Ea%negb_true_iff]. destruct Hs as [Hs | [_ Hs]]; congruence. }
  assert (Url.scheme u = "https" \/ Url.scheme u = "http" /\ allow_http = true) as Hsch.
  { apply andb_false_iff in Eh. rewrite bool_decide_eq_false, negb_false_iff in Eh. set_solver. }
  destruct (Url.hostname u) as [host|] eqn:Eho.
  2: { split; [done |]. intros (u' & ? & ? & ? & [= <-] & _ & Hn & _). congruence. }
  pose proof (allow_list_check (ssrf_allowed_domains settings) host) as Hal.
  destruct (match ssrf_allowed_domains settings with Some _ => _ | None => false end) eqn:Eal.
  { split; [done |]. intros (u' & h' & ? & ? & [= <-] & _ & Hn & _ & Hd & _).
    assert (h' = host) as -> by congruence. apply Hal in Hd. done. }
  destruct (Url.port u) as [p|e] eqn:Ep; simpl.
  2: { split; [done |]. intros (u' & ? & ? & ? & [= <-] & _ & _ & Hn & _). congruence. }
  assert (match p with
          | Some p0 => if p0 =? 0 then if decide (Url.scheme u = "https") then 443 else 80 else p0
          | None => if decide (Url.scheme u = "https") then 443 else 80
          end = match p with
                | Some (Zpos _ as p) => p
                | _ => if decide (Url.scheme u = "https") then 443 else 80
                end) as ->.
  { destruct p as [[|p|p]|]; try done. by apply port_nonneg in Ep. }
  rewrite check_endpoint_exact. split.
  - intros (Hst & infos & Hg & Hne & Hall). exists u, host, p, infos. split_and!; try done. by apply Hal.
  - intros (u' & h' & p' & infos & [= <-] & _ & Hh & Hp & _ & Hport & Hg & Hne & Hall).
    assert (h' = host) as -> by congruence. assert (p' = p) as -> by congruence.
    split; [done |]. by exists infos.
Qed.

(** C11: The URL check accepts exactly the URLs that are https (http only where
    asked for), name a host of the comma-separated allow-list if there is one (spaces
    around it and its case apart), use port 443 under strict ports, and resolve to at
    least one address, all of them outside the listed ranges of private, loopback,
    link-local, multicast, reserved and unspecified addresses. *)
Theorem url_check_exact (getaddrinfo : resolver) (url : string) (allow_http : bool) :
  validate_source_base_url settings bracketed_host getaddrinfo url allow_http = Ok tt <->
  url_checked getaddrinfo url allow_http.
Proof. apply validate_checked. Qed.

(** C23: A probe sends nothing unless the target passes the URL check at that
    moment; it sends one HEAD, and one GET with the same target and headers exactly
    when the HEAD is answered 405; a source is reachable exactly when the last
    request is answered, and breaches its SLA when it is not, or when it answers
    later than its threshold. *)
Theorem probe_is_guarded (send : http_request -> result string Z) (getaddrinfo : resolver)
    (start stop : Q) (id : Z) (p : SourceProfile) :
  let '(r, sent) := probe_source_health settings bracketed_host send getaddrinfo start stop id p in
  let hs := build_auth_headers (auth_type p) (api_key p) (auth_header_name p) (auth_username p) in
  let head := Request HEAD (probe_url p) hs in
  let get := Request GET (probe_url p) hs in
  (sent <> [] <-> url_checked getaddrinfo (probe_url p) false) /\
  (sent = [] \/ sent = [head] /\ send head <> Ok 405 \/ sent = [head; get] /\ send head = Ok 405) /\
  (match last sent with
   | Some req => match send req with
                 | Ok code => reachable r = true /\ status_code r = Some code /\ error r = None
                 | Raise message => reachable r = false /\ status_code r = None /\ error r = Some message
                 end
   | None => reachable r = false /\ status_code r = None
   end) /\
  (sla_breach r = false -> reachable r = true /\
     (latency_ms r <= match latency_threshold_ms p with
                      | Some t => if Qeq_bool t 0 then SOURCE_HEALTH_UNHEALTHY_THRESHOLD_MS else t
                      | None => SOURCE_HEALTH_UNHEALTHY_THRESHOLD_MS
                      end)%Q).
Proof.
  unfold probe_source_health. set (hs := build_auth_headers _ _ _ _).
  set (head := Request HEAD (probe_url p) hs). set (get := Request GET (probe_url p) hs).
  set (threshold := match latency_threshold_ms p with Some _ => _ | None => _ end).
  pose proof (validate_checked getaddrinfo (probe_url p) false) as Hc.
  destruct (validate_source_base_url _ _ _ _ _) as [[]|[message]] eqn:Ev.
  2: { split_and!; [split; [done |] | by left | done | done]. intros H. apply Hc in H. done. }
  assert (url_checked getaddrinfo (probe_url p) false) as Hok by by apply Hc.
  destruct (send head) as [code|message] eqn:Eh.
  2: { split_and!; [by split | right; left; by split | simpl; by rewrite Eh | done]. }
  destruct (Z.eqb_spec code 405) as [->|Hne].
  - destruct (send get) as [code|message] eqn:Eg.
    + split_and!; [by split | by right; right | simpl; by rewrite Eg |].
      intros H%Qltb_ge. by split.
    + split_and!; [by split | by right; right | simpl; by rewrite Eg | done].
  - split_and!; [by split | right; left; split; congruence | simpl; by rewrite Eh |].
    intros H%Qltb_ge. by split.
Qed.

(** *** The table *)

Definition wf (t : profiles) : Prop := wf_table t /\ unique (fun p => Some (name p)) t.

Lemma set_field_name f p p' : set_field f p = Ok p' -> name p' = name p /\ deleted_at p' = deleted_at p.
Proof. destruct p, f as [[]|[]|[]|[]|[]|[]|[]|[]|[]|[]|[]]; simpl; intros [=]; by subst. Qed.

Lemma set_fields_name patch p p' : set_fields patch p = Ok p' -> name p' = name p /\ deleted_at p' = deleted_at p.
Proof.
  revert p. induction patch as [|f patch IH]; intros p; simpl; [by intros [= ->] |].
  destruct (set_field f p) as [q|] eqn:E; simpl; [|done]. intros Hq. apply set_field_name in E as [E1 E2].
  apply IH in Hq as [H1 H2]. split; congruence.
Qed.

Lemma wf_same_name i f t : (forall p, get i t = Some p -> name (f p) = name p) -> wf t -> wf (update i f t).
Proof.
  intros Hf [Hw Hu]. split; [by apply wf_update |]. apply unique_update; [done |].
  intros p Hp. left. by rewrite (Hf p Hp).
Qed.

Lemma create_wf now payload tenant t i t' :
  wf t -> create_source_profile now payload tenant t = Ok (i, t') ->
  wf t' /\ i = next_id t /\
  (exists p, get i t' = Some p /\ name p = create_name payload /\ deleted_at p = None) /\
  (forall j, j <> i -> get j t' = get j t).
Proof.
  intros [Hw Hu]. unfold create_source_profile, insert_unique. destruct (scalar _ t) eqn:E; [done |].
  intros [= <- Ht]. set (p := Profile _ _ _ _ _ _ _ _ _ _ _ _ _ _ _ _) in Ht.
  change (snd (insert p t) = t') in Ht. subst t'. split_and!.
  - split; [by apply wf_insert |]. apply unique_insert; [done | done |].
    intros k [= <-] j r Hj [= Hn]. rewrite scalar_None in E by done. specialize (E j r Hj). simpl in E.
    rewrite bool_decide_eq_false in E. done.
  - done.
  - exists p. by rewrite get_insert, Z.eqb_refl.
  - intros j Hj. rewrite get_insert by done. by destruct (Z.eqb_spec j (next_id t)).
Qed.

Lemma table_step_wf t t' : wf t -> step t t' -> wf t'.
Proof.
  intros Hwf Hs. destruct Hs as [now payload tenant t i t' H | now i patch t t' H | now i t].
  - by eapply create_wf.
  - unfold update_source_profile in H. destruct (get i t) as [p|] eqn:E; [|congruence].
    destruct (set_fields patch p) as [q|] eqn:Eq; simplify_eq/=.
    apply wf_same_name; [|done]. intros p' Hp. assert (p' = p) as -> by congruence.
    apply set_fields_name in Eq as [Hn _]. by destruct q.
  - apply wf_same_name; [|done]. intros p _. destruct (present p); by destruct p.
Qed.

(** Source names are unique, deleted sources included: in every table the
    endpoints can produce, a registration fails with 409 exactly when the name is
    taken, and otherwise the name and the new primary key resolve to each other. *)
Theorem source_names_unique (getaddrinfo : resolver) (now : datetime) (payload : SourceProfileCreate)
    (c : Incidents.claims) (t : profiles) :
  rtc step (empty_table _) t -> url_checked getaddrinfo (create_base_url payload) false ->
  unique (fun p => Some (name p)) t /\
  match register_source settings bracketed_host getaddrinfo now payload c t with
  | Raise e => e = Http (Incidents.HTTP 409 "Source name already registered.") /\
               exists i p, get i t = Some p /\ name p = create_name payload
  | Ok (i, t') => (forall j p, get j t = Some p -> name p <> create_name payload) /\
                  resolve_source_id_by_name (create_name payload) t' = Some i /\
                  resolve_source_name i t' = create_name payload
  end.
Proof.
  intros Hr Hu%validate_checked. assert (wf t) as Hwf.
  { apply (rtc_ind_r wf (empty_table _)) with (2 := fun y z _ Hs Hw => table_step_wf y z Hw Hs) in Hr; [done |].
    split; [apply wf_empty | apply unique_empty]. }
  split; [apply Hwf |]. unfold register_source. rewrite Hu.
  destruct (create_source_profile now payload (Incidents.claim_tenant_id c) t) as [[i t']|e] eqn:Ec.
  - pose proof (create_wf _ _ _ _ _ _ Hwf Ec) as (Hwf' & -> & (p & Hp & Hn & Hd) & Hother). split_and!.
    + intros j q Hj Hnq. pose proof (get_lt _ _ _ (proj1 Hwf) Hj).
      assert (j = next_id t); [|lia]. apply (proj2 Hwf' j (next_id t) q p (create_name payload)); try congruence.
      rewrite Hother; [done | lia].
    + unfold resolve_source_id_by_name, get_source_profile_by_name.
      destruct (scalar _ t') as [[j q]|] eqn:Es; simpl.
      * apply scalar_Some in Es as [Hj Hq]; [|apply Hwf']. apply andb_true_iff in Hq as [Hq%bool_decide_eq_true _].
        f_equal. apply (proj2 Hwf' j (next_id t) q p (create_name payload)); congruence.
      * rewrite scalar_None in Es by apply Hwf'. specialize (Es _ _ Hp). simpl in Es.
        unfold present in Es. by rewrite bool_decide_true, Hd, bool_decide_true in Es.
    + unfold resolve_source_name, get_source_profile. rewrite Hp. unfold present. by rewrite Hd, bool_decide_true.
  - destruct e. split; [done |]. unfold create_source_profile, insert_unique in Ec.
    destruct (scalar _ t) as [[i p]|] eqn:Es; [|done]. apply scalar_Some in Es as [Hi Hp]; [|apply Hwf].
    exists i, p. by apply bool_decide_eq_true in Hp.
Qed.

(** A PATCH that sets the base URL never succeeds: whatever else the body
    has, the endpoint answers with an error and changes nothing. *)
Theorem patch_base_url_fails (getaddrinfo : resolver) (now : datetime) (id : Z)
    (before after : list profile_field) (u : option string) (t : profiles) :
  is_ok (patch_source settings bracketed_host getaddrinfo now id (before ++ SetBaseUrl u :: after) t) = false.
Proof.
  unfold patch_source. destruct (get_source_profile id false t) as [p|] eqn:Eg; [|done].
  destruct (match patch_base_url _ with Some _ => _ | None => _ end) as [|[message]]; [|done].
  unfold update_source_profile. unfold get_source_profile in Eg. destruct (get id t) as [q|]; [|done].
  assert (forall q, is_ok (set_fields (before ++ SetBaseUrl u :: after) q) = false) as Hf.
  { clear. induction before as [|f l IH]; intros q; simpl.
    - destruct q, u; done.
    - by destruct (set_field f q); simpl. }
  specialize (Hf q). by destruct (set_fields _ q).
Qed.

End facts.
End SourceRegistryFacts.

(** ** Witnesses *)

Module SourceRegistryWitnesses.
Import SourceRegistry SourceRegistryFacts.

Definition strict : Settings := SettingsOf (Some "api.example.com, status.example.org") true.
Definition dns : resolver := fun host port => Ok [Some (Ip.V4 (Ip.quad 93 184 216 34)); None].

Definition weather : SourceProfileCreate :=
  ProfileCreate "weather" "https://API.example.com/v1" "/health" 60 true None 2 900 "bearer" (Some "k") "Authorization" None.
Definition acme : Incidents.claims := Incidents.Claims (Some "ops") (Some 7).
Definition any_host (_ : string) : bool := true.

Definition weather_row : SourceProfile :=
  Profile "weather" "https://API.example.com/v1" "/health" 60 true (Some 7) None 2 900 "bearer" (Some "k")
    "Authorization" None 5 (Some 5) None.

Lemma source_names_unique_witness :
  register_source strict any_host dns 5 weather acme (empty_table _) = Ok (1, Table [(1, weather_row)] 2) /\
  exists e, register_source strict any_host dns 9 weather acme (Table [(1, weather_row)] 2) = Raise e /\
            e = Http (Incidents.HTTP 409 "Source name already registered.").
Proof.
  split; [by vm_compute |].
  assert (rtc step (empty_table _) (Table [(1, weather_row)] 2)) as Hr.
  { apply rtc_once, (step_register 5 weather (Some 7) _ 1). by vm_compute. }
  assert (url_checked strict any_host dns (create_base_url weather) false) as Hu by (by apply validate_checked).
  pose proof (source_names_unique strict any_host dns 9 weather acme _ Hr Hu) as [_ H].
  destruct (register_source strict any_host dns 9 weather acme _) as [[j t'']|e].
  - exfalso. destruct H as [H _]. by apply (H 1 weather_row).
  - exists e. by destruct H.
Defined.

End SourceRegistryWitnesses.
