(* ===== verification/Observations.v ===== *)
(** * Observations

    [repositories/observations_crud.py] and [observations_queries.py], the request
    and response schemas of [api_schemas/observations.py], [jobs/ingestion.py] and
    the CRUD endpoints of [api/routes/observations.py] and [observations_v2.py].

    The tenant and role of a request are the two context variables of
    [core/tenant.py], as an argument.  [compare_values] is SQLAlchemy's comparison
    of a JSON column's old and new value, which decides whether a change is written
    and [updated_at] set.  JSON text, ISO timestamps and the external API are
    parameters. *)

From S2P Require Import Prelude Db Network Incidents SourceRegistry Retry Cache.

Module Observations.
Import SourceRegistry.

(** ** Rows, requests *)

Record Observation := Obs {
  obs_source_id : Z;
  timestamp : datetime;
  raw_data : json;
  tags : list string;
  processed : bool;
  processed_at : option datetime;
  obs_tenant_id : option Z;
  obs_created_at : datetime;
  obs_updated_at : option datetime;
  obs_deleted_at : option datetime
}.

Record ObservationRequest := ObsRequest {
  req_source : string;
  req_timestamp : datetime;
  req_data : json;
  req_tags : list string
}.

Record UpdateObservationRequest := ObsUpdate {
  upd_source : option string;
  upd_timestamp : option datetime;
  upd_data : option json;
  upd_tags : option (list string)
}.

(** The constraints and validators of the two request schemas: the request as
    pydantic accepts it, or nothing. *)
Definition forbidden_sources : list string := ["localhost"; "127.0.0.1"; "::1"; "0.0.0.0"; "::"].

Definition valid_source (s : string) : bool :=
  let n := Z.of_nat (String.length s) in
  (1 <=? n) && (n <=? 255) && negb (bool_decide (lower s ∈ forbidden_sources)).

Definition valid_tags (l : list string) : bool := Z.of_nat (length l) <=? 10.

Definition parse_request (now : datetime) (r : ObservationRequest) : option ObservationRequest :=
  if valid_source (req_source r) && (req_timestamp r <=? now) && valid_tags (req_tags r)
  then Some (ObsRequest (req_source r) (req_timestamp r) (req_data r) (map lower (req_tags r)))
  else None.

Definition opt_all {A} (p : A -> bool) (o : option A) : bool :=
  match o with Some a => p a | None => true end.

Definition parse_update (now : datetime) (r : UpdateObservationRequest) : option UpdateObservationRequest :=
  if opt_all valid_source (upd_source r) && opt_all (fun t => t <=? now) (upd_timestamp r)
     && opt_all valid_tags (upd_tags r)
  then Some (ObsUpdate (upd_source r) (upd_timestamp r) (upd_data r) (map lower <$> upd_tags r))
  else None.

(** ** The repository *)

Record world := World {
  sources : table SourceProfile;
  observations : table Observation
}.

Definition with_observations (w : world) (t : table Observation) : world := World (sources w) t.

(** The context of a request: tenant and role. *)
Record context := Ctx { get_tenant_id : option Z; get_user_role : option string }.

Inductive error :=
| ValueError (message : string)
| Integrity
| AssertionError.

(** [select(SourceProfile.id).where(name == source_name)]: deleted profiles too. *)
Definition _resolve_source_id (source_name : string) (w : world) : result error Z :=
  match scalar (fun p => bool_decide (name p = source_name)) (sources w) with
  | Some (i, _) => Ok i
  | None => Raise (ValueError ("Source profile '" +:+ source_name +:+ "' not found"))
  end.

(** The unique constraint on source and timestamp; archived rows count. *)
Definition same_key (o o' : Observation) : bool :=
  (obs_source_id o' =? obs_source_id o) && (timestamp o' =? timestamp o).

Definition new_observation (now : datetime) (ctx : context) (source_id : Z) (r : ObservationRequest) : Observation :=
  Obs source_id (req_timestamp r) (req_data r) (req_tags r) false None (get_tenant_id ctx) now (Some now) None.

Definition insert_observation (o : Observation) (t : table Observation) : result error (Z * table Observation) :=
  match insert_unique (same_key o) o t with
  | Ok r => Ok r
  | Raise _ => Raise Integrity
  end.

Definition create_observation (now : datetime) (ctx : context) (r : ObservationRequest) (w : world)
    : result error (Z * Observation * world) :=
  bind_result (_resolve_source_id (req_source r) w) (fun source_id =>
  let o := new_observation now ctx source_id r in
  bind_result (insert_observation o (observations w)) (fun '(i, t) =>
  Ok (i, o, with_observations w t))).

Fixpoint resolve_all (rs : list ObservationRequest) (w : world) : result error (list Z) :=
  match rs with
  | [] => Ok []
  | r :: rs =>
      bind_result (_resolve_source_id (req_source r) w) (fun i =>
      bind_result (resolve_all rs w) (fun ks => Ok (i :: ks)))
  end.

Definition new_observations (now : datetime) (ctx : context) (source_ids : list Z)
    (rs : list ObservationRequest) : list Observation :=
  zip_with (fun i r => new_observation now ctx i r) source_ids rs.

(** One [INSERT ... VALUES ... RETURNING]: all rows or none. *)
Fixpoint distinct_keys (os : list Observation) : bool :=
  match os with
  | [] => true
  | o :: os => negb (existsb (same_key o) os) && distinct_keys os
  end.

Definition insert_values (os : list Observation) (t : table Observation)
    : result error (list (Z * Observation) * table Observation) :=
  if distinct_keys os && forallb (fun o => bool_decide (scalar (same_key o) t = None)) os then
    let numbered := imap (fun k o => (next_id t + Z.of_nat k, o)) os in
    Ok (numbered, Table (rows t ++ numbered) (next_id t + Z.of_nat (length os)))
  else Raise Integrity.

Definition create_observations_batch (now : datetime) (ctx : context) (rs : list ObservationRequest) (w : world)
    : result error (list (Z * Observation) * world) :=
  match rs with
  | [] => Ok ([], w)
  | _ =>
      bind_result (resolve_all rs w) (fun source_ids =>
      bind_result (insert_values (new_observations now ctx source_ids rs) (observations w)) (fun '(os, t) =>
      Ok (os, with_observations w t)))
  end.

(** [add_all] and [commit]: the unit of work inserts the objects one by one, and any
    failure rolls all of them back. *)
Fixpoint add_all (os : list Observation) (t : table Observation) : result error (list Z * table Observation) :=
  match os with
  | [] => Ok ([], t)
  | o :: os =>
      bind_result (insert_observation o t) (fun '(i, t) =>
      bind_result (add_all os t) (fun '(ks, t) => Ok (i :: ks, t)))
  end.

(** [refresh] reads each row back. *)
Definition refresh (t : table Observation) (i : Z) : option (Z * Observation) :=
  match get i t with Some o => Some (i, o) | None => None end.

Definition create_observations_batch_naive (now : datetime) (ctx : context) (rs : list ObservationRequest) (w : world)
    : result error (list (Z * Observation) * world) :=
  match rs with
  | [] => Ok ([], w)
  | _ =>
      bind_result (resolve_all rs w) (fun source_ids =>
      bind_result (add_all (new_observations now ctx source_ids rs) (observations w)) (fun '(ks, t) =>
      Ok (omap (refresh t) ks, with_observations w t)))
  end.

(** [_apply_tenant_filter]: the predicate it adds. *)
Definition _apply_tenant_filter (ctx : context) (o : Observation) : bool :=
  match get_user_role ctx with
  | Some role => if decide (role = "admin") then true else
                 match get_tenant_id ctx with
                 | Some t => bool_decide (obs_tenant_id o = Some t) || bool_decide (obs_tenant_id o = None)
                 | None => bool_decide (obs_tenant_id o = None)
                 end
  | None => match get_tenant_id ctx with
            | Some t => bool_decide (obs_tenant_id o = Some t) || bool_decide (obs_tenant_id o = None)
            | None => bool_decide (obs_tenant_id o = None)
            end
  end.

Definition active (o : Observation) : bool := bool_decide (obs_deleted_at o = None).

(** The optional source of a query: [if source]. *)
Definition source_filter (source : option string) (w : world) : result error (Observation -> bool) :=
  match source with
  | Some s =>
      if str_truthy s then
        bind_result (_resolve_source_id s w) (fun i => Ok (fun o => obs_source_id o =? i))
      else Ok (fun _ => true)
  | None => Ok (fun _ => true)
  end.

Definition get_observations (ctx : context) (skip limit : nat) (source : option string) (w : world)
    : result error (list (Z * Observation) * nat) :=
  bind_result (source_filter source w) (fun from_source =>
  let matching := select (fun o => active o && from_source o && _apply_tenant_filter ctx o) (observations w) in
  Ok (take limit (drop skip matching), length matching)).

(** [order_by(timestamp.desc(), id.desc())]. *)
Definition newest_first (x y : Z * Observation) : bool :=
  (timestamp y.2 <? timestamp x.2) || (timestamp y.2 =? timestamp x.2) && (y.1 <=? x.1).

Definition get_observations_by_date_range (ctx : context) (start stop : datetime) (source : option string) (w : world)
    : result error (list (Z * Observation)) :=
  bind_result (source_filter source w) (fun from_source =>
  Ok (order_by newest_first
        (select (fun o => active o && (start <=? timestamp o) && (timestamp o <? stop)
                          && from_source o && _apply_tenant_filter ctx o) (observations w)))).

(** No tenant filter here, nor in the operations below. *)
Definition get_observation (i : Z) (w : world) : option Observation :=
  match get i (observations w) with
  | Some o => if active o then Some o else None
  | None => None
  end.

(** Flushing a changed row: [updated_at] is set when a column changed. *)
Definition touched (now : datetime) (changed : bool) (o : Observation) : Observation :=
  if changed then
    Obs (obs_source_id o) (timestamp o) (raw_data o) (tags o) (processed o) (processed_at o)
        (obs_tenant_id o) (obs_created_at o) (Some now) (obs_deleted_at o)
  else o.

Definition set_processed (now : datetime) (o : Observation) : Observation :=
  touched now (negb (processed o) || bool_decide (processed_at o = None))
    (Obs (obs_source_id o) (timestamp o) (raw_data o) (tags o) true
         (Some (or_else (processed_at o) now))
         (obs_tenant_id o) (obs_created_at o) (obs_updated_at o) (obs_deleted_at o)).

Definition mark_processed (now : datetime) (i : Z) (w : world) : option Observation * world :=
  match get i (observations w) with
  | None => (None, w)
  | Some o => let o := set_processed now o in
              (Some o, with_observations w (update i (fun _ => o) (observations w)))
  end.

Section Update.
Context (compare_values : json -> json -> bool).

Definition apply_update (now : datetime) (source_id : option Z) (r : UpdateObservationRequest) (o : Observation) : Observation :=
  let changed := negb (opt_all (fun i => i =? obs_source_id o) source_id
                       && opt_all (fun t => t =? timestamp o) (upd_timestamp r)
                       && opt_all (fun d => compare_values d (raw_data o)) (upd_data r)
                       && opt_all (fun l => bool_decide (l = tags o)) (upd_tags r)) in
  touched now changed
    (Obs (or_else source_id (obs_source_id o)) (or_else (upd_timestamp r) (timestamp o))
         (or_else (upd_data r) (raw_data o)) (or_else (upd_tags r) (tags o))
         (processed o) (processed_at o) (obs_tenant_id o) (obs_created_at o) (obs_updated_at o)
         (obs_deleted_at o)).

Definition resolve_update (r : UpdateObservationRequest) (w : world) : result error (option Z) :=
  match upd_source r with
  | None => Ok None
  | Some s => bind_result (_resolve_source_id s w) (fun i => Ok (Some i))
  end.

(** A key moved onto another row's is an [IntegrityError] at commit. *)
Definition update_observation (now : datetime) (i : Z) (r : UpdateObservationRequest) (w : world)
    : result error (option Observation * world) :=
  match get i (observations w) with
  | None => Ok (None, w)
  | Some o =>
      bind_result (resolve_update r w) (fun source_id =>
      let o := apply_update now source_id r o in
      if existsb (fun x => negb (x.1 =? i) && same_key o x.2) (rows (observations w))
      then Raise Integrity
      else Ok (Some o, with_observations w (update i (fun _ => o) (observations w))))
  end.

End Update.

Definition delete_row (i : Z) (t : table Observation) : table Observation :=
  Table (List.filter (fun x => negb (x.1 =? i)) (rows t)) (next_id t).

Definition delete_observation (i : Z) (w : world) : option Observation * world :=
  match get i (observations w) with
  | None => (None, w)
  | Some o => (Some o, with_observations w (delete_row i (observations w)))
  end.

Definition set_archived (now : datetime) (o : Observation) : Observation :=
  touched now true
    (Obs (obs_source_id o) (timestamp o) (raw_data o) (tags o) (processed o) (processed_at o)
         (obs_tenant_id o) (obs_created_at o) (obs_updated_at o) (Some now)).

Definition soft_delete_observation (now : datetime) (i : Z) (w : world) : option Observation * world :=
  match get i (observations w) with
  | None => (None, w)
  | Some o =>
      if active o then
        let o := set_archived now o in
        (Some o, with_observations w (update i (fun _ => o) (observations w)))
      else (None, w)
  end.

(** The row and whether it was created. *)
Definition upsert_observation (now : datetime) (ctx : context) (r : ObservationRequest) (w : world)
    : result error (Z * Observation * bool * world) :=
  bind_result (_resolve_source_id (req_source r) w) (fun source_id =>
  let o := new_observation now ctx source_id r in
  match insert_observation o (observations w) with
  | Ok (i, t) => Ok (i, o, true, with_observations w t)
  | Raise _ =>
      match scalar (fun o' => same_key o o' && active o') (observations w) with
      | Some (i, existing) => Ok (i, existing, false, w)
      | None => Raise AssertionError
      end
  end).

End Observations.

(** ** Steps: every way the endpoints change the tables

    Requests reach the repository as pydantic has accepted them. *)

Module ObservationSteps.
Import Observations SourceRegistry.

Inductive step : world -> world -> Prop :=
| step_create now now' ctx r r' i o w w' :
    parse_request now r = Some r' -> create_observation now' ctx r' w = Ok (i, o, w') -> step w w'
| step_batch now now' ctx rs rs' os w w' :
    mapM (parse_request now) rs = Some rs' -> create_observations_batch now' ctx rs' w = Ok (os, w') -> step w w'
| step_process now i w : step w (snd (mark_processed now i w))
| step_update compare now now' i r r' o w w' :
    parse_update now r = Some r' -> update_observation compare now' i r' w = Ok (o, w') -> step w w'
| step_delete i w : step w (snd (delete_observation i w))
| step_archive now i w : step w (snd (soft_delete_observation now i w))
| step_upsert now now' ctx r r' x w w' :
    parse_request now r = Some r' -> upsert_observation now' ctx r' w = Ok (x, w') -> step w w'
| step_sources t w : SourceRegistry.step (sources w) t -> step w (World t (observations w)).

Definition empty_world : world := World (empty_table _) (empty_table _).

(** What holds of every row. *)
Definition well_typed (w : world) (i : Z) (o : Observation) : Prop :=
  is_Some (get (obs_source_id o) (sources w)) /\
  (length (tags o) <= 10)%nat /\ map lower (tags o) = tags o /\
  (processed o = true <-> is_Some (processed_at o)).

Definition key (o : Observation) : option (Z * Z) := Some (obs_source_id o, timestamp o).

Definition wf (w : world) : Prop :=
  SourceRegistryFacts.wf (sources w) /\ wf_table (observations w) /\
  unique key (observations w) /\ every (well_typed w) (observations w).

End ObservationSteps.

Module ObservationFacts.
Import SourceRegistry Observations ObservationSteps.

Lemma same_key_iff o o' : same_key o o' = true <-> key o = key o'.
Proof.
  unfold same_key, key. rewrite andb_true_iff, !Z.eqb_eq. split; [intros [-> ->]; done | by intros [= -> ->]].
Qed.

Lemma same_key_sym o o' : same_key o o' = same_key o' o.
Proof. apply eq_true_iff_eq. rewrite !same_key_iff. done. Qed.

(** *** Inserting *)

Lemma insert_observation_cases o t :
  insert_observation o t = match scalar (same_key o) t with
                           | Some _ => Raise Integrity
                           | None => Ok (next_id t, snd (insert o t))
                           end.
Proof. unfold insert_observation, insert_unique. by destruct (scalar (same_key o) t). Qed.

Lemma scalar_insert_None (p : Observation -> bool) o t :
  wf_table t -> scalar p (snd (insert o t)) = None <-> scalar p t = None /\ p o = false.
Proof.
  intros Hw. rewrite !scalar_None by (try apply wf_insert; done). split.
  - intros H. split.
    + intros i r Hi. apply (H i). rewrite get_insert by done.
      pose proof (get_lt _ _ _ Hw Hi). by destruct (Z.eqb_spec i (next_id t)); [lia |].
    + apply (H (next_id t)). by rewrite get_insert, Z.eqb_refl.
  - intros [H Ho] i r. rewrite get_insert by done. destruct (i =? next_id t); [by intros [= <-] | apply H].
Qed.

Lemma insert_key_wf o t :
  wf_table t -> unique key t -> scalar (same_key o) t = None -> unique key (snd (insert o t)).
Proof.
  intros Hw Hu Hs. apply unique_insert; [done | done |]. intros k Hk i r Hi Hr.
  rewrite scalar_None in Hs by done. specialize (Hs i r Hi). simpl in Hs.
  assert (same_key o r = true) by (apply same_key_iff; congruence). congruence.
Qed.

(** *** Batches *)

(** The rows a multi-row insert appends. *)
Definition numbered (n : Z) (os : list Observation) : list (Z * Observation) :=
  imap (fun k o => (n + Z.of_nat k, o)) os.

Lemma numbered_cons n o os : numbered n (o :: os) = (n, o) :: numbered (n + 1) os.
Proof.
  unfold numbered. rewrite imap_cons. f_equal; [f_equal; lia |].
  apply imap_ext. intros k x _. simpl. f_equal. lia.
Qed.

Lemma insertable_insert os o t :
  wf_table t ->
  forallb (fun x => bool_decide (scalar (same_key x) (snd (insert o t)) = None)) os =
  negb (existsb (same_key o) os) && forallb (fun x => bool_decide (scalar (same_key x) t = None)) os.
Proof.
  intros Hw. induction os as [|x os IH]; [done |]. cbn [forallb existsb]. rewrite IH, (same_key_sym o x), negb_orb.
  assert (bool_decide (scalar (same_key x) (snd (insert o t)) = None) =
          negb (same_key x o) && bool_decide (scalar (same_key x) t = None)) as ->.
  { apply eq_true_iff_eq. rewrite andb_true_iff, negb_true_iff, !bool_decide_eq_true, scalar_insert_None by done. tauto. }
  destruct (negb (same_key x o)), (bool_decide (scalar (same_key x) t = None)), (negb (existsb (same_key o) os)); done.
Qed.

(** The unit of work inserts what the multi-row statement inserts. *)
Lemma add_all_spec os t :
  wf_table t ->
  add_all os t =
  if distinct_keys os && forallb (fun o => bool_decide (scalar (same_key o) t = None)) os
  then Ok ((numbered (next_id t) os).*1, Table (rows t ++ numbered (next_id t) os) (next_id t + Z.of_nat (length os)))
  else Raise Integrity.
Proof.
  revert t. induction os as [|o os IH]; intros t Hw.
  { simpl. rewrite app_nil_r, Z.add_0_r. by destruct t. }
  cbn [add_all distinct_keys forallb]. rewrite insert_observation_cases.
  destruct (scalar (same_key o) t) as [x|] eqn:E.
  { simpl. rewrite andb_false_r. done. }
  cbn [bind_result bool_decide]. rewrite (bool_decide_true (None = None)) by done.
  rewrite IH by by apply wf_insert. rewrite insertable_insert by done.
  rewrite (andb_comm (negb _) (distinct_keys os)), <- andb_assoc. simpl (true && _).
  destruct (distinct_keys os && _); [|done]. cbn [bind_result]. rewrite numbered_cons.
  f_equal. f_equal. simpl. rewrite <- app_assoc. f_equal. lia.
Qed.

(** Reading back what was appended. *)
Lemma lookup_numbered os n j :
  lookup_row j (numbered n os) =
  if (n <=? j) && (j <? n + Z.of_nat (length os)) then os !! Z.to_nat (j - n) else None.
Proof.
  revert n. induction os as [|o os IH]; intros n; [rewrite lookup_nil; by destruct (_ && _) |].
  rewrite numbered_cons. simpl. destruct (Z.eqb_spec j n) as [->|Hne].
  - rewrite Z.leb_refl, Z.sub_diag. simpl. by rewrite (proj2 (Z.ltb_lt _ _)) by lia.
  - rewrite IH. destruct (Z.leb_spec (n + 1) j), (Z.leb_spec n j); simpl; try done; try lia.
    replace (Z.to_nat (j - n)) with (S (Z.to_nat (j - (n + 1)))) by lia. simpl.
    by replace (n + 1 + Z.of_nat (length os)) with (n + Z.of_nat (S (length os))) by lia.
Qed.

Lemma lookup_row_append i (l l' : list (Z * Observation)) :
  lookup_row i (l ++ l') = match lookup_row i l with Some r => Some r | None => lookup_row i l' end.
Proof. induction l as [|[k r] l IH]; simpl; [done |]. by destruct (i =? k). Qed.

Lemma refresh_numbered os t n :
  wf_table t ->
  omap (refresh (Table (rows t ++ numbered (next_id t) os) n)) (numbered (next_id t) os).*1 = numbered (next_id t) os.
Proof.
  intros Hw. assert (forall l, (forall x, x ∈ l -> x ∈ numbered (next_id t) os) ->
    omap (refresh (Table (rows t ++ numbered (next_id t) os) n)) l.*1 = l) as H; [|by apply H].
  induction l as [|[i o] l IH]; intros Hin; [done |]. simpl. unfold refresh at 1, get. simpl.
  rewrite lookup_row_append. assert ((i, o) ∈ numbered (next_id t) os) as Hio by (apply Hin; by left).
  unfold numbered in Hio. apply elem_of_lookup_imap in Hio as (k & x & [= -> ->] & Hk).
  destruct (lookup_row _ (rows t)) as [r|] eqn:E.
  { pose proof (get_lt _ _ _ Hw E). lia. }
  rewrite lookup_numbered. apply lookup_lt_Some in Hk as Hlt.
  rewrite (proj2 (Z.leb_le _ _)), (proj2 (Z.ltb_lt _ _)) by lia. simpl.
  replace (Z.to_nat _) with k by lia. rewrite Hk. f_equal. apply IH. intros y Hy. apply Hin. by right.
Qed.

(** *** The invariant *)

Lemma lower_idempotent s : lower (lower s) = lower s.
Proof.
  unfold lower. induction s as [|c s IH]; [done |]. simpl. rewrite IH. f_equal.
  by destruct c as [[] [] [] [] [] [] [] []].
Qed.

Lemma map_lower_idempotent l : map lower (map lower l) = map lower l.
Proof. rewrite map_map. apply map_ext. intros s. apply lower_idempotent. Qed.

Definition tags_ok (l : list string) : Prop := (length l <= 10)%nat /\ map lower l = l.

Lemma parse_request_tags now r r' : parse_request now r = Some r' -> tags_ok (req_tags r').
Proof.
  unfold parse_request, valid_tags. case_match eqn:E; [|done]. intros [= <-]. bool_to_prop.
  split; simpl; [rewrite length_map; lia | apply map_lower_idempotent].
Qed.

Lemma parse_update_tags now r r' l : parse_update now r = Some r' -> upd_tags r' = Some l -> tags_ok l.
Proof.
  unfold parse_update. case_match eqn:E; [|done]. intros [= <-]. simpl. bool_to_prop.
  destruct (upd_tags r) as [k|]; intros [= <-]. simpl in *. unfold valid_tags in *. bool_to_prop.
  split; [rewrite length_map; lia | apply map_lower_idempotent].
Qed.

Lemma resolve_exists s w i : wf w -> _resolve_source_id s w = Ok i -> is_Some (get i (sources w)).
Proof.
  intros [[Hw _] _]. unfold _resolve_source_id. destruct (scalar _ _) as [[j p]|] eqn:E; [|done].
  intros [= <-]. apply scalar_Some in E as [Hg _]; [by eexists | done].
Qed.

Lemma new_well_typed now ctx i r w j :
  is_Some (get i (sources w)) -> tags_ok (req_tags r) -> well_typed w j (new_observation now ctx i r).
Proof. intros Hs [Hl Ht]. split_and!; simpl; try done. Qed.

(** The part of the invariant that is about the observations. *)
Definition good (P : Observation -> Prop) (t : table Observation) : Prop :=
  wf_table t /\ unique key t /\ every (fun _ => P) t.

Lemma good_insert P o t i t' :
  good P t -> P o -> insert_observation o t = Ok (i, t') ->
  good P t' /\ i = next_id t /\ t' = snd (insert o t) /\ scalar (same_key o) t = None.
Proof.
  intros (Hw & Hu & He) Ho. rewrite insert_observation_cases. destruct (scalar _ t) eqn:E; [done |].
  intros [= <- <-]. split; [|done]. split_and!; [by apply wf_insert | by apply insert_key_wf |].
  apply (every_insert (fun _ => P)); done.
Qed.

Lemma good_add_all P os t ks t' :
  good P t -> Forall P os -> add_all os t = Ok (ks, t') -> good P t'.
Proof.
  revert t ks. induction os as [|o os IH]; intros t ks Hg HP; simpl; [by intros [= _ <-] |].
  apply Forall_cons in HP as [Ho Hos]. destruct (insert_observation o t) as [[i t1]|] eqn:E; simpl; [|done].
  destruct (add_all os t1) as [[ks1 t2]|] eqn:E2; simpl; [|done]. intros [= _ <-].
  eapply IH; [eapply good_insert | |]; done.
Qed.

Lemma good_update P i o t :
  good P t -> P o -> existsb (fun x => negb (x.1 =? i) && same_key o x.2) (rows t) = false ->
  good P (update i (fun _ => o) t).
Proof.
  intros (Hw & Hu & He) Ho Hk. split_and!; [by apply wf_update | |].
  - assert (forall j r, j <> i -> get j t = Some r -> key r <> key o) as Hd.
    { intros j r Hj Hr E. apply lookup_row_In in Hr; [|apply Hw].
      assert (existsb (fun x => negb (x.1 =? i) && same_key o x.2) (rows t) = true) as Ht; [|congruence].
      apply existsb_exists. exists (j, r). split; [done |]. simpl.
      rewrite (proj2 (Z.eqb_neq j i) Hj). simpl. by apply same_key_iff. }
    intros a b r s k. rewrite !get_update.
    destruct (Z.eqb_spec i a) as [Ha|Ha], (Z.eqb_spec i b) as [Hb|Hb]; [congruence | | | apply Hu].
    + intros Hra Hsb Er Es. destruct (get a t); simplify_eq/=. exfalso. eapply (Hd b s); congruence.
    + intros Hra Hsb Er Es. destruct (get b t); simplify_eq/=. exfalso. eapply (Hd a r); congruence.
  - apply (every_update (fun _ => P)); auto.
Qed.

Lemma same_key_update P i o o' t :
  good P t -> get i t = Some o -> key o' = key o ->
  existsb (fun x => negb (x.1 =? i) && same_key o' x.2) (rows t) = false.
Proof.
  intros (Hw & Hu & _) Hi Hk. apply not_true_iff_false. rewrite existsb_exists.
  intros ([j r] & Hin & H). simpl in H. apply andb_true_iff in H as [Hj%negb_true_iff%Z.eqb_neq Hs%same_key_iff].
  apply lookup_row_In in Hin; [|apply Hw]. apply Hj.
  apply (Hu j i r o (obs_source_id o, timestamp o)); [done | done | by rewrite <- Hs, Hk | done].
Qed.

Lemma get_delete_row i j t : get j (delete_row i t) = if j =? i then None else get j t.
Proof.
  unfold get, delete_row. simpl. induction (rows t) as [|[k r] l IH]; simpl; [by destruct (j =? i) |].
  destruct (Z.eqb_spec k i) as [->|Hk]; simpl.
  - rewrite IH. by destruct (j =? i).
  - rewrite IH. destruct (Z.eqb_spec j k) as [->|]; [|done]. by destruct (Z.eqb_spec k i).
Qed.

Lemma good_delete P i t : good P t -> good P (delete_row i t).
Proof.
  intros ([Hs Hlt] & Hu & He). split_and!.
  - unfold wf_table, ids, delete_row. simpl. split; [by apply sorted_filter |].
    rewrite Forall_forall in *. intros j Hj. apply Hlt.
    apply list_elem_of_In, in_map_iff in Hj as (x & <- & [Hx _]%List.filter_In).
    by apply list_elem_of_In, in_map.
  - intros a b r s k. rewrite !get_delete_row. destruct (a =? i), (b =? i); try done. apply Hu.
  - intros j r. rewrite get_delete_row. destruct (j =? i); [done | apply He].
Qed.

End ObservationFacts.

Module ObservationTheorems.
Import SourceRegistry Observations ObservationSteps ObservationFacts.

Definition typed (t : table SourceProfile) (o : Observation) : Prop :=
  is_Some (get (obs_source_id o) t) /\ tags_ok (tags o) /\ (processed o = true <-> is_Some (processed_at o)).

Lemma wf_good w :
  wf w <-> SourceRegistryFacts.wf (sources w) /\ good (typed (sources w)) (observations w).
Proof.
  unfold wf, good, every, well_typed, typed, tags_ok. split.
  - intros (H1 & H2 & H3 & H4). split_and!; try done. intros i o Hi.
    destruct (H4 i o Hi) as (? & ? & ? & ?). by split_and!.
  - intros (H1 & H2 & H3 & H4). split_and!; try done; intros i o Hi; destruct (H4 i o Hi) as (? & [? ?] & ?); done.
Qed.

Lemma new_typed now ctx i r t :
  is_Some (get i t) -> tags_ok (req_tags r) -> typed t (new_observation now ctx i r).
Proof. intros Hs Ht. split; [done |]. split; [done |]. simpl. split; [done | by intros [? ?]]. Qed.

Lemma key_touched now b o : key (touched now b o) = key o.
Proof. by destruct b, o. Qed.

Lemma typed_touched now b o t : typed t o -> typed t (touched now b o).
Proof. by destruct b, o. Qed.

Lemma resolve_all_exists rs w ks :
  wf w -> resolve_all rs w = Ok ks -> Forall (fun i => is_Some (get i (sources w))) ks /\ length ks = length rs.
Proof.
  intros Hw. revert ks. induction rs as [|r rs IH]; intros ks; simpl; [by intros [= <-] |].
  destruct (_resolve_source_id (req_source r) w) as [i|] eqn:E; simpl; [|done].
  destruct (resolve_all rs w) as [ks'|]; simpl; [|done]. intros [= <-].
  destruct (IH ks' eq_refl) as [H1 H2]. split; [|simpl; by rewrite H2].
  constructor; [by eapply resolve_exists | done].
Qed.

Lemma new_observations_typed now ctx ks rs t :
  Forall (fun i => is_Some (get i t)) ks -> Forall (fun r => tags_ok (req_tags r)) rs ->
  Forall (typed t) (new_observations now ctx ks rs).
Proof.
  intros Hk. revert rs. induction Hk as [|i ks Hi Hk IH]; intros [|r rs] Hr; [done | done | done |].
  apply Forall_cons in Hr as [Hr Hrs]. constructor; [by apply new_typed | by apply IH].
Qed.

(** A multi-row insert is the unit of work. *)
Lemma insert_values_add_all os t :
  wf_table t ->
  match add_all os t with
  | Ok (ks, t') => insert_values os t = Ok (numbered (next_id t) os, t') /\ ks = (numbered (next_id t) os).*1
  | Raise _ => insert_values os t = Raise Integrity
  end.
Proof. intros Hw. rewrite add_all_spec by done. unfold insert_values. by destruct (_ && _). Qed.

Lemma typed_mono t t' o : (forall i, is_Some (get i t) -> is_Some (get i t')) -> typed t o -> typed t' o.
Proof. intros H [H1 H2]. split; [by apply H | done]. Qed.

Lemma sources_kept t t' i :
  SourceRegistryFacts.wf t -> SourceRegistry.step t t' -> is_Some (get i t) -> is_Some (get i t').
Proof.
  intros Hw Hs Hi. destruct Hs as [now payload tenant t j t' H | now j patch t t' H | now j t].
  - pose proof (SourceRegistryFacts.create_wf _ _ _ _ _ _ Hw H) as (_ & _ & (p & Hp & _) & Ho).
    destruct (decide (i = j)) as [E|Hne]; [rewrite E; by eexists | by rewrite Ho].
  - unfold update_source_profile in H. destruct (get j t); [|congruence].
    destruct (set_fields patch _); simplify_eq/=. rewrite get_update. destruct (j =? i); [by apply fmap_is_Some | done].
  - unfold deactivate_source_profile. rewrite get_update. destruct (j =? i); [by apply fmap_is_Some | done].
Qed.

Lemma good_with w t :
  wf w -> (good (typed (sources w)) (observations w) -> good (typed (sources w)) t) -> wf (with_observations w t).
Proof. intros [H1 H2]%wf_good H. apply wf_good. split; [done | by apply H]. Qed.

Lemma step_create_wf now ctx r i o w w' :
  tags_ok (req_tags r) -> wf w -> create_observation now ctx r w = Ok (i, o, w') -> wf w'.
Proof.
  intros Ht Hw. unfold create_observation. destruct (_resolve_source_id _ w) as [k|] eqn:Ek; simpl; [|done].
  destruct (insert_observation _ _) as [[j t]|] eqn:Ei; simpl; [|done]. intros [= _ _ <-].
  apply good_with; [done |]. intros Hg. eapply good_insert; [done | | done].
  apply new_typed; [by eapply resolve_exists | done].
Qed.

Lemma step_batch_wf now ctx rs os w w' :
  Forall (fun r => tags_ok (req_tags r)) rs -> wf w -> create_observations_batch now ctx rs w = Ok (os, w') -> wf w'.
Proof.
  intros Ht Hw. unfold create_observations_batch. destruct rs as [|r rs]; [by intros [= _ <-] |].
  destruct (resolve_all (r :: rs) w) as [ks|] eqn:Ek; [|done]. cbn [bind_result].
  pose proof Hw as [_ Hg]%wf_good. apply (resolve_all_exists _ _ _ Hw) in Ek as [Hk _].
  pose proof (new_observations_typed now ctx ks _ _ Hk Ht) as Hty. revert Hty.
  generalize (new_observations now ctx ks (r :: rs)). intros l Hty.
  pose proof (insert_values_add_all l (observations w) (proj1 Hg)) as Hi.
  destruct (add_all l (observations w)) as [[ks' t]|] eqn:Ea.
  - destruct Hi as [-> _]. cbn [bind_result]. intros [= _ <-]. apply good_with; [done |].
    intros _. by eapply good_add_all.
  - rewrite Hi. done.
Qed.

Lemma step_same_key_wf i o o' w :
  wf w -> get i (observations w) = Some o -> key o' = key o -> typed (sources w) o' ->
  wf (with_observations w (update i (fun _ => o') (observations w))).
Proof.
  intros Hw Hi Hk Ht. apply good_with; [done |]. intros Hg.
  apply good_update; [done | done | by eapply same_key_update].
Qed.

Lemma typed_get w i o : wf w -> get i (observations w) = Some o -> typed (sources w) o.
Proof. intros [_ (_ & _ & H)]%wf_good Hi. by apply (H i). Qed.

Lemma step_update_wf compare now i r o w w' :
  (forall l, upd_tags r = Some l -> tags_ok l) -> wf w ->
  update_observation compare now i r w = Ok (o, w') -> wf w'.
Proof.
  intros Ht Hw. unfold update_observation. destruct (get i (observations w)) as [o0|] eqn:Ei; [|by intros [= _ <-]].
  unfold resolve_update. destruct (match upd_source r with Some _ => _ | None => _ end) as [k|] eqn:Ek; [|done].
  cbn [bind_result]. destruct (existsb _ _) eqn:Ex; [done |]. intros [= _ <-].
  apply good_with; [done |]. intros Hg. apply good_update; [done | | done].
  apply typed_touched. pose proof (typed_get _ _ _ Hw Ei) as (H1 & H2 & H3). split_and!; simpl; [| |done].
  - destruct (upd_source r) as [s|]; [|by simplify_eq].
    destruct (_resolve_source_id s w) eqn:Er; simplify_eq/=. by eapply resolve_exists.
  - destruct (upd_tags r); [by apply Ht | done].
Qed.

Lemma observation_step_wf w w' : wf w -> step w w' -> wf w'.
Proof.
  intros Hw Hs. destruct Hs as [now now' ctx r r' i o w w' Hp H | now now' ctx rs rs' os w w' Hp H | now i w
    | cmp now now' i r r' o w w' Hp H | i w | now i w | now now' ctx r r' x w w' Hp H | t w Hst].
  - eapply step_create_wf; [by eapply parse_request_tags | done | done].
  - eapply step_batch_wf; [| done | done]. apply mapM_Some_1 in Hp.
    clear -Hp. induction Hp; constructor; [by eapply parse_request_tags | done].
  - unfold mark_processed. destruct (get i (observations w)) as [o|] eqn:E; [|done].
    pose proof (typed_get _ _ _ Hw E) as (H1 & H2 & _).
    apply (step_same_key_wf i o); [done | done | by unfold set_processed; rewrite key_touched |].
    apply typed_touched. split_and!; simpl; [done | done | by eexists].
  - eapply step_update_wf; [| done | done]. intros l Hl. by eapply parse_update_tags.
  - unfold delete_observation. destruct (get i (observations w)); [|done].
    apply good_with; [done | apply good_delete].
  - unfold soft_delete_observation. destruct (get i (observations w)) as [o|] eqn:E; [|done].
    destruct (active o); [|done]. apply (step_same_key_wf i o); [done | done | by destruct o |].
    apply typed_touched. pose proof (typed_get _ _ _ Hw E). by destruct o.
  - unfold upsert_observation in H. destruct (_resolve_source_id _ w) as [k|] eqn:Ek; [|done]. cbn [bind_result] in H.
    destruct (insert_observation _ _) as [[j t]|] eqn:Ei; simplify_eq/=.
    + apply good_with; [done |]. intros Hg. eapply good_insert; [done | | done].
      apply new_typed; [by eapply resolve_exists | by eapply parse_request_tags].
    + by destruct (scalar _ _) as [[? ?]|]; simplify_eq/=.
  - pose proof Hw as [H1 (H2 & H3 & H4)]%wf_good. apply wf_good. simpl.
    split; [by eapply SourceRegistryFacts.table_step_wf |]. split_and!; [done | done |].
    intros j o Ho. eapply typed_mono; [|by apply (H4 j)]. intros k. by apply sources_kept.
Qed.

(** C4: Every table the endpoints can produce is well typed: no two observations
    share a source and a timestamp, each belongs to a registered source, has at most
    ten tags, all in lower case, and is processed exactly when it has a time of
    processing. *)
Theorem observations_well_typed (w : world) :
  rtc step empty_world w ->
  unique key (observations w) /\ every (well_typed w) (observations w).
Proof.
  intros Hr. assert (wf w) as (_ & _ & H); [|done].
  apply (rtc_ind_r wf empty_world) with (2 := fun y z _ Hs Hw => observation_step_wf y z Hw Hs) in Hr; [done |].
  split; [split; [apply wf_empty | apply unique_empty] |].
  split_and!; [apply wf_empty | apply unique_empty | apply every_empty].
Qed.

(** C20: The two batch implementations agree: on every request and every table of
    rows in key order, one multi-row statement and row-by-row inserts with a
    re-read each return the same rows, leave the same table, or fail alike. *)
Theorem batch_implementations_agree (now : datetime) (ctx : context) (rs : list ObservationRequest) (w : world) :
  wf_table (observations w) ->
  create_observations_batch_naive now ctx rs w = create_observations_batch now ctx rs w.
Proof.
  intros Hw. unfold create_observations_batch_naive, create_observations_batch. destruct rs as [|r rs]; [done |].
  destruct (resolve_all (r :: rs) w) as [ks|]; [|done]. cbn [bind_result].
  generalize (new_observations now ctx ks (r :: rs)). intros os.
  pose proof (insert_values_add_all os (observations w) Hw) as Hi.
  pose proof (add_all_spec os (observations w) Hw) as Ha.
  destruct (add_all os (observations w)) as [[ks' t]|e].
  - destruct Hi as [-> ->]. cbn [bind_result].
    destruct (_ && _); [|done]. injection Ha as ->. rewrite refresh_numbered; done.
  - rewrite Hi. destruct (_ && _); [done |]. by injection Ha as ->.
Qed.

Lemma reachable_wf w : rtc step empty_world w -> wf w.
Proof.
  intros Hr. apply (rtc_ind_r wf empty_world) with (2 := fun y z _ Hs Hw => observation_step_wf y z Hw Hs) in Hr; [done |].
  split; [split; [apply wf_empty | apply unique_empty] |].
  split_and!; [apply wf_empty | apply unique_empty | apply every_empty].
Qed.

Lemma new_key now ctx k r : key (new_observation now ctx k r) = Some (k, req_timestamp r).
Proof. done. Qed.

Lemma same_key_new now now' ctx ctx' k r o :
  same_key (new_observation now ctx k r) o = same_key (new_observation now' ctx' k r) o.
Proof. done. Qed.

(** The row that has a key is the one any lookup of the key finds. *)
Lemma scalar_key w (p : Observation -> bool) i o x :
  wf w -> get i (observations w) = Some o -> p o = true ->
  (forall o', p o' = true -> key o' = key o) ->
  scalar p (observations w) = Some x -> x = (i, o).
Proof.
  intros (_ & Hw & Hu & _) Hi Hp Hk Hs. destruct x as [j o']. apply scalar_Some in Hs as [Hj Hp']; [|done].
  assert (j = i) as -> by (apply (Hu j i o' o (obs_source_id o, timestamp o)); [done | done | by rewrite Hk | done]).
  congruence.
Qed.

(** An upsert creates the row exactly when no row has its source and
    timestamp, returns the row that has them when it is active, and fails when it is
    archived; a second upsert of the same request returns the same row and changes
    nothing. *)
Theorem upsert_exact (now now' : datetime) (ctx ctx' : context) (r : ObservationRequest) (k : Z) (w : world) :
  rtc step empty_world w -> _resolve_source_id (req_source r) w = Ok k ->
  match upsert_observation now ctx r w with
  | Ok (i, o, created, w') =>
      get i (observations w') = Some o /\ key o = Some (k, req_timestamp r) /\ active o = true /\
      (created = true <-> every (fun _ o' => key o' <> Some (k, req_timestamp r)) (observations w)) /\
      (created = false -> w' = w) /\
      upsert_observation now' ctx' r w' = Ok (i, o, false, w')
  | Raise e => e = AssertionError /\
      exists i o, get i (observations w) = Some o /\ key o = Some (k, req_timestamp r) /\ active o = false
  end.
Proof.
  intros Hw%reachable_wf Hk. pose proof Hw as (_ & Ht & Hu & _). unfold upsert_observation at 1.
  rewrite Hk. cbn [bind_result]. set (o := new_observation now ctx k r). rewrite insert_observation_cases.
  destruct (scalar (same_key o) (observations w)) as [[i x]|] eqn:Es.
  - apply scalar_Some in Es as Hx; [|done]. destruct Hx as [Hi Hx%same_key_iff].
    destruct (scalar (fun o' => same_key o o' && active o') (observations w)) as [[j y]|] eqn:Ea.
    + apply scalar_Some in Ea as Hy; [|done]. destruct Hy as [Hj [Hy Hact]%andb_true_iff].
      apply same_key_iff in Hy as Hyk. split_and!; [done | by rewrite <- Hyk | done | | done |].
      * split; [done |]. intros H. exfalso. by apply (H i x Hi).
      * unfold upsert_observation. rewrite Hk. cbn [bind_result]. rewrite insert_observation_cases.
        change (same_key (new_observation now' ctx' k r)) with (same_key o). rewrite Es. cbn [bind_result].
        change (fun o' => same_key (new_observation now' ctx' k r) o' && active o')
          with (fun o' => same_key o o' && active o'). by rewrite Ea.
    + split; [done |]. exists i, x. split_and!; [done | by rewrite <- Hx |].
      rewrite scalar_None in Ea by done. specialize (Ea i x Hi). simpl in Ea.
      rewrite (proj2 (same_key_iff o x) Hx) in Ea. done.
  - rewrite scalar_None in Es by done.
    assert (get (next_id (observations w)) (snd (insert o (observations w))) = Some o) as Hg
      by by rewrite get_insert, Z.eqb_refl.
    split_and!; [done | done | done | | done |].
    + split; [|done]. intros _ i x Hi Hx. specialize (Es i x Hi). simpl in Es.
      rewrite (proj2 (same_key_iff o x)) in Es; [done |]. by rewrite Hx.
    + unfold upsert_observation. set (t' := snd (insert o (observations w))).
      change (_resolve_source_id (req_source r) (with_observations w t')) with (_resolve_source_id (req_source r) w).
      rewrite Hk. cbn [bind_result]. rewrite insert_observation_cases.
      change (observations (with_observations w t')) with t'.
      change (same_key (new_observation now' ctx' k r)) with (same_key o).
      change (fun o' => same_key (new_observation now' ctx' k r) o' && active o')
        with (fun o' => same_key o o' && active o').
      pose proof (proj2 (scalar_None (same_key o) (observations w) Ht) Es) as Hn.
      rewrite (scalar_insert (same_key o) o (observations w) Hn : _ -> scalar (same_key o) t' = _) by by apply same_key_iff.
      assert (scalar (fun o' => same_key o o' && active o') (observations w) = None) as Hn2.
      { apply scalar_None; [done |]. intros i x Hi. simpl. by rewrite (Es i x Hi). }
      rewrite (scalar_insert _ o (observations w) Hn2 : _ -> scalar _ t' = _); [done |].
      by rewrite (proj2 (same_key_iff o o) eq_refl).
Qed.

Lemma StronglySorted_app_l {A} (R : A -> A -> Prop) (l1 l2 : list A) :
  StronglySorted R (l1 ++ l2) -> StronglySorted R l1 /\ StronglySorted R l2.
Proof.
  induction l1 as [|x l1 IH]; simpl; [by split; [constructor |] |].
  intros [[H1 H2]%IH Hx]%StronglySorted_inv. split; [|done]. constructor; [done |].
  by apply Forall_app in Hx as [Hx _].
Qed.

(** A listing shows a tenant its own observations and those of no tenant,
    and an administrator all of them: a page holds active rows of the requested
    source in key order, its total counts them, and consecutive pages make up
    exactly the visible rows. *)
Theorem listing_scoped (ctx : context) (source : option string) (skip limit : nat) (w : world) page total p :
  wf_table (observations w) -> source_filter source w = Ok p ->
  get_observations ctx skip limit source w = Ok (page, total) ->
  let visible o := active o && p o && _apply_tenant_filter ctx o in
  page = take limit (drop skip (select visible (observations w))) /\
  total = length (select visible (observations w)) /\ StronglySorted Z.lt (map fst page) /\
  (forall i o, In (i, o) page -> get i (observations w) = Some o /\ active o = true /\ p o = true /\
     (get_user_role ctx <> Some "admin" -> obs_tenant_id o = None \/ obs_tenant_id o = get_tenant_id ctx)).
Proof.
  intros Hw Hp. unfold get_observations. rewrite Hp. cbn [bind_result]. intros H.
  injection H as <- <-. set (visible := fun o => active o && p o && _apply_tenant_filter ctx o).
  split_and!; [done | done | |].
  - pose proof (select_sorted visible _ Hw) as Hs.
    rewrite <- (take_drop skip (select visible (observations w))), map_app in Hs.
    apply StronglySorted_app_l in Hs as [_ Hs].
    rewrite <- (take_drop limit (drop skip _)), map_app in Hs. by apply StronglySorted_app_l in Hs as [Hs _].
  - intros i o Hin. assert (In (i, o) (select visible (observations w))) as Hs.
    { rewrite <- (take_drop skip (select visible (observations w))).
      apply in_or_app. right. rewrite <- (take_drop limit (drop skip _)). apply in_or_app. by left. }
    apply select_spec in Hs as [Hg Hv]; [|done]. unfold visible in Hv.
    apply andb_true_iff in Hv as [[Ha Hpo]%andb_true_iff Hf]. split_and!; [done | done | done |].
    intros Hadm. unfold _apply_tenant_filter in Hf.
    destruct (get_user_role ctx) as [role|]; [destruct (decide (role = "admin")) as [->|]; [done |] |];
      destruct (get_tenant_id ctx); try apply orb_true_iff in Hf as [Hf|Hf];
      apply bool_decide_eq_true in Hf; auto.
Qed.

End ObservationTheorems.

(** ** Witnesses *)

Module ObservationWitnesses.
Import SourceRegistry Observations ObservationSteps ObservationFacts ObservationTheorems.
Import SourceRegistryWitnesses.

Definition reading (t : datetime) : ObservationRequest := ObsRequest "weather" t (JObj [("celsius", JInt 21)]) ["Outdoor"; "eu"].
Definition stored (tenant : option Z) (t : datetime) : Observation :=
  Obs 1 t (JObj [("celsius", JInt 21)]) ["outdoor"; "eu"] false None tenant 50 (Some 50) None.
Definition seven : context := Ctx (Some 7) (Some "user").

Definition weather_sources : table SourceProfile := Table [(1, weather_row)] 2.
Definition no_observations : world := World weather_sources (empty_table _).
Definition one_observation : world := World weather_sources (Table [(1, stored (Some 7) 40)] 2).

Lemma weather_reachable : rtc step empty_world no_observations.
Proof.
  apply rtc_once. apply (step_sources weather_sources empty_world).
  apply (step_register 5 weather (Some 7) _ 1). by vm_compute.
Qed.

Lemma one_reachable : rtc step empty_world one_observation.
Proof.
  eapply rtc_r; [exact weather_reachable |].
  eapply (step_create 45 50 seven (reading 40)); [by vm_compute | by vm_compute].
Qed.

Lemma observations_well_typed_witness :
  rtc step empty_world one_observation /\ every (well_typed one_observation) (observations one_observation).
Proof. split; [apply one_reachable | apply observations_well_typed, one_reachable]. Defined.

Lemma batch_implementations_agree_witness :
  wf_table (observations one_observation) /\
  create_observations_batch_naive 60 seven [reading 41; reading 42] one_observation =
  create_observations_batch 60 seven [reading 41; reading 42] one_observation.
Proof.
  assert (wf_table (observations one_observation)) as H.
  { split; [by repeat constructor |]. by repeat constructor. }
  split; [done |]. by apply batch_implementations_agree.
Defined.

Lemma upsert_exact_witness :
  exists i o w', upsert_observation 60 seven (ObsRequest "weather" 40 JNull []) one_observation = Ok (i, o, false, w') /\
    get i (observations w') = Some o /\ key o = Some (1, 40).
Proof.
  pose proof (upsert_exact 60 61 seven seven (ObsRequest "weather" 40 JNull []) 1 one_observation
                one_reachable eq_refl) as H.
  exists 1, (stored (Some 7) 40), one_observation. split; [reflexivity |].
  change (upsert_observation 60 seven (ObsRequest "weather" 40 JNull []) one_observation)
    with (@Ok error _ (1, stored (Some 7) 40, false, one_observation)) in H.
  by destruct H as (H1 & H2 & _).
Defined.

(** An upsert of a key that was archived long before fails, with no race involved. *)
Example upsert_after_archiving_fails :
  upsert_observation 60 seven (ObsRequest "weather" 40 JNull []) (snd (soft_delete_observation 55 1 one_observation))
  = Raise AssertionError.
Proof. reflexivity. Qed.

(** A request of another tenant reads, updates and archives a tenant's observation
    by its key, though no listing shows it. *)
Example by_id_ignores_tenant :
  get_observations (Ctx (Some 8) (Some "user")) 0 10 None one_observation = Ok ([], 0%nat) /\
  get_observation 1 one_observation = Some (stored (Some 7) 40) /\
  fst (soft_delete_observation 55 1 one_observation) <> None.
Proof. by vm_compute. Qed.

Lemma listing_scoped_witness :
  exists page, get_observations seven 0 10 (Some "weather") one_observation = Ok (page, 1%nat) /\
    StronglySorted Z.lt (map fst page).
Proof.
  exists [(1, stored (Some 7) 40)]. split; [reflexivity |].
  eapply (listing_scoped seven (Some "weather") 0 10 one_observation _ 1 (fun o => obs_source_id o =? 1));
    [split; by repeat constructor | reflexivity | reflexivity].
Defined.

End ObservationWitnesses.
