(* ===== verification/ObservationRoutes.v ===== *)
(** * Observation endpoints and ingestion

    The CRUD endpoints of [api/routes/observations.py], the upsert endpoint of
    [observations_v2.py] and [jobs/ingestion.py], on the repository of
    [Observations.v] and the cache of [Cache.v].

    A response is validated from the attributes of what the endpoint has at hand:
    [ObservationResponse.model_validate] takes each declared field from the object
    and raises when a required one is missing.  Authentication has happened before
    the endpoint runs; publishing the creation event never fails and is left out, as
    are the vector search and the language model ([Analysis.v]). *)

From S2P Require Import Prelude Db Incidents SourceRegistry Retry LruCache Cache Observations.

Module ObservationRoutes.
Import SourceRegistry Observations.

(** ** Responses *)

Inductive value :=
| VInt (z : Z)
| VStr (s : string)
| VBool (b : bool)
| VTime (o : option datetime)
| VJson (j : json)
| VTags (l : list string).

(** The fields of [ObservationResponse]; only the last two have a default. *)
Definition required_fields : list string :=
  ["id"; "source"; "timestamp"; "raw_data"; "tags"; "processed"; "created_at"].
Definition optional_fields : list string := ["updated_at"; "deleted_at"].

Abbreviation ObservationResponse := (list (string * value)) (only parsing).

Inductive ValidationError := missing (field : string).

(** The value of an attribute or key, the last one given. *)
Fixpoint attr (f : string) (obj : list (string * value)) : option value :=
  match obj with
  | [] => None
  | (g, v) :: obj => if decide (f = g) then Some v else attr f obj
  end.

Fixpoint take_fields (fs : list string) (obj : list (string * value)) : result ValidationError ObservationResponse :=
  match fs with
  | [] => Ok []
  | f :: fs =>
      match attr f obj with
      | None => Raise (missing f)
      | Some v => bind_result (take_fields fs obj) (fun r => Ok ((f, v) :: r))
      end
  end.

Definition model_validate (obj : list (string * value)) : result ValidationError ObservationResponse :=
  bind_result (take_fields required_fields obj) (fun r =>
  Ok (r ++ map (fun f => (f, or_else (attr f obj) (VTime None))) optional_fields)).

(** The columns of the mapped class [Observation]. *)
Definition attributes (x : Z * Observation) : list (string * value) :=
  let '(i, o) := x in
  [("id", VInt i); ("source_id", VInt (obs_source_id o)); ("timestamp", VTime (Some (timestamp o)));
   ("raw_data", VJson (raw_data o)); ("tags", VTags (tags o)); ("processed", VBool (processed o));
   ("processed_at", VTime (processed_at o));
   ("tenant_id", match obs_tenant_id o with Some t => VInt t | None => VTime None end);
   ("created_at", VTime (Some (obs_created_at o))); ("updated_at", VTime (obs_updated_at o));
   ("deleted_at", VTime (obs_deleted_at o))].

(** The dictionary that [create_observation_endpoint] builds. *)
Definition created_fields (source_name : string) (x : Z * Observation) : list (string * value) :=
  let '(i, o) := x in
  [("id", VInt i); ("source", VStr source_name); ("timestamp", VTime (Some (timestamp o)));
   ("raw_data", VJson (raw_data o)); ("tags", VTags (tags o)); ("processed", VBool (processed o));
   ("created_at", VTime (Some (obs_created_at o))); ("updated_at", VTime (obs_updated_at o));
   ("deleted_at", VTime (obs_deleted_at o))].

(** ** Endpoints *)

Inductive route_error :=
| Http (e : Incidents.HTTPException)
| Unhandled (e : error)
| Invalid (e : ValidationError).

Definition not_found : route_error := Http (Incidents.HTTP 404 "Observation not found").

Definition lift {A} (r : result error A) : result route_error A :=
  match r with Ok a => Ok a | Raise e => Raise (Unhandled e) end.

Definition respond (obj : list (string * value)) : result route_error ObservationResponse :=
  match model_validate obj with Ok r => Ok r | Raise e => Raise (Invalid e) end.

Section Routes.
Context {R : Type} `{RedisOps R}.
Context (dump_json : ObservationResponse -> result string string).
Context (validate_json : string -> result string ObservationResponse).
Context (compare_values : json -> json -> bool).

(** What the endpoints change: the tables and the cache. *)
Record app := App {
  db : world;
  cache : Cache.state R ObservationResponse
}.

Definition with_db (w : world) (a : app) : app := App w (cache a).
Definition with_cache (c : Cache.state R ObservationResponse) (a : app) : app := App (db a) c.

Definition create_observation_endpoint (now : datetime) (ctx : context) (body : ObservationRequest) (a : app)
    : result route_error ObservationResponse * app :=
  match create_observation now ctx body (db a) with
  | Raise e => (Raise (Unhandled e), a)
  | Ok (i, o, w) =>
      let source_name := resolve_source_name (obs_source_id o) (sources w) in
      (respond (created_fields source_name (i, o)), with_db w a)
  end.

(** [impl] is ["optimized"] or ["naive"]; the answer is the number of rows. *)
Definition create_observations_batch_endpoint (now : datetime) (ctx : context) (impl : string)
    (body : list ObservationRequest) (a : app) : result route_error (nat * string) * app :=
  let impl_fn := if decide (impl = "optimized") then create_observations_batch
                 else create_observations_batch_naive in
  match impl_fn now ctx body (db a) with
  | Raise e => (Raise (Unhandled e), a)
  | Ok (os, w) => (Ok (length os, impl), with_db w a)
  end.

Fixpoint respond_all (xs : list (Z * Observation)) : result route_error (list ObservationResponse) :=
  match xs with
  | [] => Ok []
  | x :: xs =>
      bind_result (respond (attributes x)) (fun r =>
      bind_result (respond_all xs) (fun rs => Ok (r :: rs)))
  end.

(** The page with its total and [has_more]. *)
Definition list_observations (ctx : context) (skip limit : nat) (source : option string) (a : app)
    : result route_error (list ObservationResponse * nat * bool) :=
  bind_result (lift (get_observations ctx skip limit source (db a))) (fun '(observations, total) =>
  bind_result (respond_all observations) (fun rs =>
  Ok (rs, total, (skip + limit <? total)%nat))).

Definition get_observation_endpoint (now : datetime) (i : Z) (a : app) : result route_error ObservationResponse * app :=
  let '(cached, c) := Cache.get_observation_with_lru validate_json now i (cache a) in
  let a := with_cache c a in
  match cached with
  | Some r => (Ok r, a)
  | None =>
      match Observations.get_observation i (db a) with
      | None => (Raise not_found, a)
      | Some o =>
          match respond (attributes (i, o)) with
          | Raise e => (Raise e, a)
          | Ok r =>
              (Ok r, with_cache (Cache.set_observation dump_json now i r Cache.CACHE_TTL_OBSERVATION (cache a)) a)
          end
      end
  end.

Definition update_observation_endpoint (now : datetime) (i : Z) (body : UpdateObservationRequest) (a : app)
    : result route_error ObservationResponse * app :=
  match update_observation compare_values now i body (db a) with
  | Raise e => (Raise (Unhandled e), a)
  | Ok (None, _) => (Raise not_found, a)
  | Ok (Some o, w) => (respond (attributes (i, o)), with_db w a)
  end.

Definition process_observation (now : datetime) (i : Z) (a : app) : result route_error ObservationResponse * app :=
  match mark_processed now i (db a) with
  | (None, _) => (Raise not_found, a)
  | (Some o, w) =>
      (respond (attributes (i, o)),
       with_cache (Cache.invalidate_observation_all_layers now i (cache a)) (with_db w a))
  end.

(** [archive_observation] and its session-authenticated copy. *)
Definition archive_observation (now : datetime) (i : Z) (a : app) : result route_error ObservationResponse * app :=
  match soft_delete_observation now i (db a) with
  | (None, _) => (Raise (Http (Incidents.HTTP 404 "Observation not found or already archived")), a)
  | (Some o, w) => (respond (attributes (i, o)), with_db w a)
  end.

(** [delete_observation] and its session-authenticated copy. *)
Definition delete_observation_endpoint (now : datetime) (i : Z) (a : app) : result route_error unit * app :=
  match delete_observation i (db a) with
  | (None, _) => (Raise not_found, a)
  | (Some _, w) => (Ok tt, with_cache (Cache.invalidate_observation_all_layers now i (cache a)) (with_db w a))
  end.

(** The status code, the response and whether the row was created. *)
Definition upsert_observation_endpoint (now : datetime) (ctx : context) (strict : bool)
    (payload : ObservationRequest) (a : app) : result route_error (Z * ObservationResponse * bool) * app :=
  match upsert_observation now ctx payload (db a) with
  | Raise e => (Raise (Unhandled e), a)
  | Ok (i, o, created, w) =>
      let a := with_db w a in
      if negb created && strict
      then (Raise (Http (Incidents.HTTP 409 "conflict")), a)
      else (bind_result (respond (attributes (i, o))) (fun r => Ok (if created then 201 else 200, r, created)), a)
  end.

End Routes.
Arguments app : clear implicits.

(** ** Ingestion (jobs/ingestion.py) *)

Record batch_result := BatchResult { inserted : Z; errors : Z; first_error : option error }.

(** The module's [_dedup_tracker] with the tables. *)
Record ingestion := Ingestion {
  _dedup_tracker : Idempotency.IdempotencyKeyTracker;
  idb : world
}.

(** [t] is the wall clock in seconds that the tracker reads. *)
Definition ingest_api_single (t : Q) (now : datetime) (ctx : context) (r : ObservationRequest)
    (idempotency_key : option string) (s : ingestion) : result error (option (Z * Observation)) * ingestion :=
  let create (s : ingestion) :=
    match create_observation now ctx r (idb s) with
    | Raise e => (Raise e, s)
    | Ok (i, o, w) => (Ok (Some (i, o)), Ingestion (_dedup_tracker s) w)
    end in
  match idempotency_key with
  | Some key =>
      if str_truthy key then
        let '(duplicate, tracker) := Idempotency.is_duplicate t key (_dedup_tracker s) in
        if duplicate then (Ok None, Ingestion tracker (idb s))
        else create (Ingestion (Idempotency.mark_seen t key tracker) (idb s))
      else create s
  | None => create s
  end.

Definition batch_key (prefix : option string) (rs : list ObservationRequest) : option string :=
  match prefix with
  | Some p => if str_truthy p then Some (p +:+ ":" +:+ str_of_Z (Z.of_nat (length rs))) else None
  | None => None
  end.

(** [first_error] is the text of an exception; the text of the duplicate answer is
    written as one too. *)
Definition ingest_api_batch (t : Q) (now : datetime) (ctx : context) (rs : list ObservationRequest)
    (idempotency_key_prefix : option string) (s : ingestion) : batch_result * ingestion :=
  let create (s : ingestion) :=
    match create_observations_batch now ctx rs (idb s) with
    | Raise e => (BatchResult 0 (Z.of_nat (length rs)) (Some e), s)
    | Ok (os, w) => (BatchResult (Z.of_nat (length os)) 0 None, Ingestion (_dedup_tracker s) w)
    end in
  match batch_key idempotency_key_prefix rs with
  | Some key =>
      let '(duplicate, tracker) := Idempotency.is_duplicate t key (_dedup_tracker s) in
      if duplicate
      then (BatchResult 0 0 (Some (ValueError "Batch already processed (duplicate key)")), Ingestion tracker (idb s))
      else create (Ingestion (Idempotency.mark_seen t key tracker) (idb s))
  | None => create s
  end.

End ObservationRoutes.

(** ** Theorems *)

Module ObservationRouteTheorems.
Import SourceRegistry Observations ObservationRoutes.

(** A row has no attribute for the required field [source]. *)
Lemma row_lacks_source x : model_validate (attributes x) = Raise (missing "source").
Proof. by destruct x. Qed.

Lemma respond_row x : respond (attributes x) = Raise (Invalid (missing "source")).
Proof. unfold respond. by rewrite row_lacks_source. Qed.

Lemma respond_created name x : exists r, respond (created_fields name x) = Ok r /\ attr "source" r = Some (VStr name).
Proof. destruct x as [i o]. by eexists. Qed.

Section facts.
Context {R : Type} `{RedisOps R}.
Context (dump_json : list (string * value) -> result string string).
Context (validate_json : string -> result string (list (string * value))).
Context (compare_values : json -> json -> bool).
Implicit Types (a : app R).

(** Every endpoint that answers with a stored observation fails, because its
    response is validated from the row, which has a [source_id] and no [source]: a
    read that is not served from the cache raises, as does a page with a row on it;
    an update, a processing, an archiving and an upsert raise after their change is
    committed.  Only the creation, which names the source itself, answers. *)
Theorem responses_from_rows_fail (now : datetime) (ctx : context) (i : Z) (body : ObservationRequest)
    (patch : UpdateObservationRequest) (strict : bool) (skip limit : nat) (source : option string) (a : app R) :
  let failed {A} (r : result route_error A) := r = Raise (Invalid (missing "source")) in
  (forall o, get_observation i (db a) = Some o ->
     fst (Cache.get_observation_with_lru validate_json now i (cache a)) = None ->
     failed (fst (get_observation_endpoint dump_json validate_json now i a))) /\
  (forall x xs n, get_observations ctx skip limit source (db a) = Ok (x :: xs, n) ->
     failed (list_observations ctx skip limit source a)) /\
  (forall o w, update_observation compare_values now i patch (db a) = Ok (Some o, w) ->
     failed (fst (update_observation_endpoint compare_values now i patch a)) /\
     db (snd (update_observation_endpoint compare_values now i patch a)) = w) /\
  (forall o w, mark_processed now i (db a) = (Some o, w) ->
     failed (fst (process_observation now i a)) /\ db (snd (process_observation now i a)) = w) /\
  (forall o w, soft_delete_observation now i (db a) = (Some o, w) ->
     failed (fst (archive_observation now i a)) /\ db (snd (archive_observation now i a)) = w) /\
  (forall j o created w, upsert_observation now ctx body (db a) = Ok (j, o, created, w) ->
     is_ok (fst (upsert_observation_endpoint now ctx strict body a)) = false /\
     db (snd (upsert_observation_endpoint now ctx strict body a)) = w) /\
  (forall j o w, create_observation now ctx body (db a) = Ok (j, o, w) ->
     is_ok (fst (create_observation_endpoint now ctx body a)) = true /\
     db (snd (create_observation_endpoint now ctx body a)) = w).
Proof.
  intros failed. unfold failed. split_and!.
  - intros o Ho Hc. unfold get_observation_endpoint.
    destruct (Cache.get_observation_with_lru validate_json now i (cache a)) as [r c]. simpl in Hc. subst r.
    cbv iota beta zeta. change (db (with_cache c a)) with (db a). by rewrite Ho, respond_row.
  - intros x xs n Hl. unfold list_observations. rewrite Hl. cbn [lift bind_result respond_all].
    by rewrite respond_row.
  - intros o w Hu. unfold update_observation_endpoint. by rewrite Hu, respond_row.
  - intros o w Hu. unfold process_observation. by rewrite Hu, respond_row.
  - intros o w Hu. unfold archive_observation. by rewrite Hu, respond_row.
  - intros j o created w Hu. unfold upsert_observation_endpoint. rewrite Hu.
    destruct (negb created && strict); [done |]. by rewrite respond_row.
  - intros j o w Hu. unfold create_observation_endpoint. rewrite Hu.
    destruct (respond_created (resolve_source_name (obs_source_id o) (sources w)) (j, o)) as (r & -> & _). done.
Qed.

End facts.

(** An idempotency key is spent before the write: when the ingestion of a
    request fails, every retry with the same key within the tracker's lifetime is
    answered as a duplicate and writes nothing. *)
Theorem failed_ingestion_is_not_retried (t t' : Q) (now now' : datetime) (ctx ctx' : context)
    (r r' : ObservationRequest) (key : string) (s : ingestion) (e : error) :
  key <> "" -> (t <= t')%Q -> (t' - t <= Idempotency.ttl_seconds (_dedup_tracker s))%Q ->
  fst (ingest_api_single t now ctx r (Some key) s) = Raise e ->
  let s' := snd (ingest_api_single t now ctx r (Some key) s) in
  idb s' = idb s /\
  fst (ingest_api_single t' now' ctx' r' (Some key) s') = Ok None /\
  idb (snd (ingest_api_single t' now' ctx' r' (Some key) s')) = idb s.
Proof.
  intros Hk Ht Httl He. assert (str_truthy key = true) as Htr by by destruct key.
  assert (Idempotency.ttl_seconds (snd (Idempotency.is_duplicate t key (_dedup_tracker s)))
          = Idempotency.ttl_seconds (_dedup_tracker s)) as Hs.
  { unfold Idempotency.is_duplicate. by repeat case_match. }
  unfold ingest_api_single in *. rewrite Htr in *.
  destruct (Idempotency.is_duplicate t key (_dedup_tracker s)) as [[] tracker]; [done |].
  simpl in He, Hs |- *. destruct (create_observation now ctx r (idb s)) as [[[i o] w]|e']; [done |].
  simpl in He |- *. split; [done |].
  unfold Idempotency.is_duplicate at 1 2. simpl. rewrite !lookup_insert_eq, Hs.
  assert (Qltb (Idempotency.ttl_seconds (_dedup_tracker s)) (t' - t) = false) as -> by by apply Qltb_ge.
  done.
Qed.

Import (hints, coercions) MemRedis.

(** One stored observation, an empty cache and a Redis that answers. *)
Definition small_app : app MemRedis.store :=
  App ObservationWitnesses.one_observation
      (Cache.State (Some (MemRedis.Store ∅ false)) (Lru.init 256) 0).

Lemma responses_from_rows_fail_witness :
  get_observation 1 (db small_app) = Some (ObservationWitnesses.stored (Some 7) 40) /\
  fst (get_observation_endpoint (fun _ => Ok "") (fun _ => Ok []) 60 1 small_app)
  = Raise (Invalid (missing "source")).
Proof.
  split; [reflexivity |].
  apply (responses_from_rows_fail (fun _ => Ok "") (fun _ => Ok []) (fun _ _ => true) 60
           ObservationWitnesses.seven 1 (ObsRequest "weather" 40 JNull []) (ObsUpdate None None None None)
           false 0 10 None small_app) with (ObservationWitnesses.stored (Some 7) 40); reflexivity.
Defined.

Definition quake : ObservationRequest := ObsRequest "usgs" 10 JNull [].
Definition nobody : context := Ctx None None.
Definition empty_ingestion : ingestion :=
  Ingestion (Idempotency.Tracker ∅ 3600) (World (empty_table _) (empty_table _)).

Lemma failed_ingestion_is_not_retried_witness :
  exists e, fst (ingest_api_single 0 5 nobody quake (Some "k1") empty_ingestion) = Raise e /\
    fst (ingest_api_single 60 6 nobody quake (Some "k1")
           (snd (ingest_api_single 0 5 nobody quake (Some "k1") empty_ingestion))) = Ok None.
Proof.
  eexists. split; [by vm_compute |].
  eapply (failed_ingestion_is_not_retried 0 60 5 6 nobody nobody quake quake "k1" empty_ingestion);
    [done | done | done | by vm_compute].
Defined.

End ObservationRouteTheorems.
