(* ===== verification/ObservationQueries.v ===== *)
(** * Cursor pagination, tag counts and enrichment

    [repositories/observations_queries.py].  A cursor is the Base64 text of a JSON object
    with the key and the time of a row: [_encode_cursor] and [_decode_cursor] are modelled
    with the Base64 and UTF-8 of [Encodings], and the round trip is proved from the laws of
    the text of JSON and of ISO timestamps.  The external API that enriches an observation
    is a parameter, by the URL asked for. *)

From S2P Require Import Prelude Db Network Encodings SourceRegistry Observations.

Module ObservationQueries.
Import SourceRegistry Observations.

(** ** Cursors *)

(** What is not caught: a cursor that is no object or whose timestamp is no string,
    and a comparison of a column with null or a value of another type. *)
Inductive query_error := AttributeError | TypeError | ArgumentError.

Section Cursor.
Context {text : JsonText} {iso : IsoText}.

Definition _encode_cursor (observation_id : Z) (timestamp : option datetime) : string :=
  let cursor_data := [("id", JInt observation_id);
                      ("timestamp", match timestamp with Some t => JStr (isoformat t) | None => JNull end)] in
  Base64.b64encode (dumps (JObj cursor_data)).

(** [data.get(key)]. *)
Fixpoint json_get (k : string) (l : list (string * json)) : json :=
  match l with
  | [] => JNull
  | (k', v) :: l => if decide (k = k') then v else json_get k l
  end.

(** Truthiness of a JSON value. *)
Definition json_truthy (j : json) : bool :=
  match j with
  | JNull => false
  | JBool b => b
  | JInt z => negb (z =? 0)
  | JFloat q => negb (Qeq_bool q 0)
  | JStr s => str_truthy s
  | JList l => match l with [] => false | _ => true end
  | JObj l => match l with [] => false | _ => true end
  end.

Definition _decode_cursor (cursor : option string) : result query_error (option (json * option datetime)) :=
  match cursor with
  | None => Ok None
  | Some s =>
      if negb (str_truthy s) then Ok None
      else match (Base64Decode.b64decode s ≫= Base64Decode.utf8_decode) ≫= loads with
      | None => Ok None
      | Some (JObj data) =>
          let observation_id := json_get "id" data in
          let ts_str := json_get "timestamp" data in
          if json_truthy ts_str then
            match ts_str with
            | JStr t => match fromisoformat t with
                        | Some t => Ok (Some (observation_id, Some t))
                        | None => Ok None
                        end
            | _ => Raise TypeError
            end
          else Ok (Some (observation_id, None))
      | Some _ => Raise AttributeError
      end
  end.

(** [order_by(timestamp, id)]. *)
Definition oldest_first (x y : Z * Observation) : bool :=
  (timestamp x.2 <? timestamp y.2) || (timestamp x.2 =? timestamp y.2) && (x.1 <=? y.1).

(** The condition a cursor adds. *)
Definition after_cursor (cursor : option (json * option datetime)) : result query_error (Z * Observation -> bool) :=
  match cursor with
  | None => Ok (fun _ => true)
  | Some (JInt last_id, Some last_timestamp) =>
      Ok (fun x => (last_timestamp <? timestamp x.2)
                   || (timestamp x.2 =? last_timestamp) && (last_id <? x.1))
  | Some _ => Raise ArgumentError
  end.

(** An unknown source adds no condition. *)
Definition source_condition (source : option string) (w : world) : Observation -> bool :=
  match source with
  | Some s =>
      if str_truthy s then
        match resolve_source_id_by_name s (sources w) with
        | Some i => fun o => obs_source_id o =? i
        | None => fun _ => true
        end
      else fun _ => true
  | None => fun _ => true
  end.

(** The observations of a page, the next cursor and [has_more]. *)
Definition get_observations_cursor_paginated (cursor : option string) (limit : nat) (source : option string)
    (w : world) : result query_error (list (Z * Observation) * option string * bool) :=
  bind_result (_decode_cursor cursor) (fun cursor_data =>
  bind_result (after_cursor cursor_data) (fun after =>
  let matching := List.filter after (select (fun o => active o && source_condition source w o) (observations w)) in
  let observations_all := take (limit + 1) (order_by oldest_first matching) in
  let has_more := (limit <? length observations_all)%nat in
  let page := take limit observations_all in
  let next_cursor := match last page with
                     | Some (i, o) => if has_more then Some (_encode_cursor i (Some (timestamp o))) else None
                     | None => None
                     end in
  Ok (page, next_cursor, has_more))).

(** A client that follows the cursors; page by page the tables are those of [ws].
    The rows read, and whether the last page was reached. *)
Fixpoint follow (limit : nat) (source : option string) (cursor : option string) (ws : list world)
    : list (Z * Observation) * bool :=
  match ws with
  | [] => ([], false)
  | w :: ws =>
      match get_observations_cursor_paginated cursor limit source w with
      | Raise _ => ([], false)
      | Ok (page, _, false) => (page, true)
      | Ok (page, next, true) => let '(rest, fin) := follow limit source next ws in (page ++ rest, fin)
      end
  end.

End Cursor.

(** ** Tag counts *)

Record tag_count := TagCount {
  tc_id : Z;
  tc_source : string;
  tc_timestamp : datetime;
  tc_count : nat
}.

(** [order_by(id.desc()).limit(limit)]. *)
Definition latest (limit : nat) (w : world) : list (Z * Observation) :=
  take limit (order_by (fun x y => y.1 <=? x.1) (select active (observations w))).

Definition get_observations_with_tag_counts_naive (limit : nat) (w : world) : list tag_count :=
  map (fun x => TagCount x.1 (resolve_source_name (obs_source_id x.2) (sources w))
                  (timestamp x.2) (length (tags x.2))) (latest limit w).

(** The names of the distinct sources first; [source_name_map[id]] raises on a
    missing key. *)
Definition source_name_map (xs : list (Z * Observation)) (w : world) : gmap Z string :=
  let source_ids := list_to_set (C := gset Z) (map (fun x => obs_source_id x.2) xs) in
  set_to_map (fun i => (i, resolve_source_name i (sources w))) source_ids.

Definition get_observations_with_tag_counts (limit : nat) (w : world) : option (list tag_count) :=
  let rows := latest limit w in
  let names := source_name_map rows w in
  mapM (fun x => name ← names !! obs_source_id x.2; Some (TagCount x.1 name (timestamp x.2) (length (tags x.2)))) rows.

(** ** Enrichment *)

Record EnrichedObservation := Enriched {
  enr_id : Z;
  enr_source : string;
  external_title : json;
  external_body : json;
  enriched : bool;
  enr_error : option string
}.

Section Enrich.
(** [fetch_with_retry(url, max_retries=2)]: the decoded body, or the text of the
    exception. *)
Context (fetch_with_retry : string -> result string json).

Definition post_url (observation_id : Z) : string :=
  let post_id := if observation_id mod 100 =? 0 then 1 else observation_id mod 100 in
  "https://jsonplaceholder.typicode.com/posts/" +:+ str_of_Z post_id.

(** [str | None] of the response schema. *)
Definition str_or_null (j : json) : bool :=
  match j with JNull | JStr _ => true | _ => false end.

(** [enrich_one]; a body that is no object raises at [.get], and a title or body that
    is no string at the validation, inside the [try]. *)
Definition enrich_one (found : list (Z * Observation)) (w : world) (i : Z) : EnrichedObservation :=
  match lookup_row i found with
  | None => Enriched i "unknown" JNull JNull false (Some ("Observation " +:+ str_of_Z i +:+ " not found"))
  | Some o =>
      let source := resolve_source_name (obs_source_id o) (sources w) in
      match fetch_with_retry (post_url i) with
      | Raise message => Enriched i source JNull JNull false (Some message)
      | Ok (JObj data) =>
          if str_or_null (json_get "title" data) && str_or_null (json_get "body" data)
          then Enriched i source (json_get "title" data) (json_get "body" data) true None
          else Enriched i source JNull JNull false (Some "Input should be a valid string")
      | Ok _ => Enriched i source JNull JNull false (Some "object has no attribute 'get'")
      end
  end.

(** The tasks of the group are independent and none raises: the results are those of
    the tasks, in the order of the request. *)
Definition enrich_observations_concurrent (observation_ids : list Z) (w : world) : list EnrichedObservation :=
  let found := List.filter (fun x => active x.2 && bool_decide (x.1 ∈ observation_ids)) (rows (observations w)) in
  map (enrich_one found w) observation_ids.

(** The counts of [EnrichResponse]. *)
Definition enrich_counts (results : list EnrichedObservation) : Z * Z :=
  let enriched_count := Z.of_nat (count enriched results) in
  (enriched_count, Z.of_nat (length results) - enriched_count).

End Enrich.

End ObservationQueries.

(** ** Lemmas *)

Module QueryFacts.
Import SourceRegistry Observations ObservationQueries.

(** Strictly before in the order of the pages. *)
Definition before (x y : Z * Observation) : Prop :=
  timestamp x.2 < timestamp y.2 \/ timestamp x.2 = timestamp y.2 /\ x.1 < y.1.

Lemma before_trans x y z : before x y -> before y z -> before x z.
Proof. unfold before. lia. Qed.

Lemma before_irrefl x : ~ before x x.
Proof. unfold before. lia. Qed.

Lemma oldest_first_total x y : oldest_first x y = true \/ oldest_first y x = true.
Proof. unfold oldest_first. rewrite !orb_true_iff, !andb_true_iff, !Z.ltb_lt, !Z.eqb_eq, !Z.leb_le. lia. Qed.

Lemma oldest_first_trans x y z :
  oldest_first x y = true -> oldest_first y z = true -> oldest_first x z = true.
Proof. unfold oldest_first. rewrite !orb_true_iff, !andb_true_iff, !Z.ltb_lt, !Z.eqb_eq, !Z.leb_le. lia. Qed.

Lemma oldest_first_before x y : oldest_first x y = true -> x.1 <> y.1 -> before x y.
Proof. unfold oldest_first, before. rewrite orb_true_iff, andb_true_iff, Z.ltb_lt, Z.eqb_eq, Z.leb_le. lia. Qed.

Lemma sorted_before (l : list (Z * Observation)) :
  NoDup (map fst l) -> StronglySorted (fun x y => oldest_first x y = true) l -> StronglySorted before l.
Proof.
  intros Hnd Hs. induction Hs as [|x l Hs IH Hx]; [constructor |].
  apply NoDup_cons in Hnd as [Hin Hnd]. constructor; [by apply IH |].
  rewrite Forall_forall in *. intros y Hy. apply oldest_first_before; [by apply Hx |].
  intros E. apply Hin. rewrite E. apply list_elem_of_In, in_map. by apply list_elem_of_In.
Qed.

(** A cursor decodes to the position it was made of. *)
Lemma cursor_round_trip {text : JsonText} {iso : IsoText} {text_laws : JsonTextLaws} {iso_laws : IsoTextLaws} (i : Z) (t : option datetime) :
  _decode_cursor (Some (_encode_cursor i t)) = Ok (Some (JInt i, t)).
Proof.
  unfold _decode_cursor, _encode_cursor. set (data := [_; _]).
  assert (python_value (JObj data) = true) as Hv by by destruct t.
  assert (dumps (JObj data) <> "") as Hd.
  { pose proof (dumps_brace data) as Hb. by intros Hn; rewrite Hn in Hb. }
  pose proof (Base64Theorems.b64_round_trip (dumps (JObj data))) as Hr.
  assert (str_truthy (Base64.b64encode (dumps (JObj data))) = true) as ->.
  { destruct (Base64.b64encode _) eqn:E; [|done]. cbn in Hr. congruence. }
  rewrite Hr. cbn [negb mbind option_bind]. rewrite (loads_dumps _ Hv). subst data.
  destruct t as [t|]; [|done].
  replace (json_get "timestamp" _) with (JStr (isoformat t)) by reflexivity.
  change (json_truthy (JStr (isoformat t))) with (str_truthy (isoformat t)).
  by rewrite isoformat_text, fromisoformat_isoformat.
Qed.

Section follow.
Context {text : JsonText} {iso : IsoText} (source : option string) (limit : nat).

Definition visible (w : world) (o : Observation) : bool := active o && source_condition source w o.

(** The position a cursor stands for. *)
Definition after_pos (pos : option (Z * datetime)) (x : Z * Observation) : bool :=
  match pos with
  | None => true
  | Some (i, t) => (t <? timestamp x.2) || (timestamp x.2 =? t) && (i <? x.1)
  end.

Definition cursor_data (pos : option (Z * datetime)) : option (json * option datetime) :=
  match pos with None => None | Some (i, t) => Some (JInt i, Some t) end.

(** The rows still to be read. *)
Definition remaining (pos : option (Z * datetime)) (w : world) : list (Z * Observation) :=
  order_by oldest_first (List.filter (after_pos pos) (select (visible w) (observations w))).

Definition position (x : Z * Observation) : option (Z * datetime) := Some (x.1, timestamp x.2).

Lemma paginated_page cursor pos w :
  _decode_cursor cursor = Ok (cursor_data pos) ->
  get_observations_cursor_paginated cursor limit source w =
  Ok (take limit (remaining pos w),
      match last (take limit (remaining pos w)) with
      | Some (i, o) => if (limit <? length (remaining pos w))%nat then Some (_encode_cursor i (Some (timestamp o))) else None
      | None => None
      end,
      (limit <? length (remaining pos w))%nat).
Proof.
  intros Hd. unfold get_observations_cursor_paginated. rewrite Hd. cbn [bind_result].
  assert (after_cursor (cursor_data pos) = Ok (after_pos pos)) as -> by by destruct pos as [[i t]|].
  cbn [bind_result]. fold (visible w). fold (remaining pos w).
  rewrite take_take, length_take, Nat.min_l by lia.
  assert ((limit <? (limit + 1) `min` length (remaining pos w)) = (limit <? length (remaining pos w)))%nat as ->; [|done].
  apply eq_true_iff_eq. rewrite !Nat.ltb_lt. lia.
Qed.

Lemma remaining_In pos w x :
  In x (remaining pos w) <-> In x (rows (observations w)) /\ visible w x.2 = true /\ after_pos pos x = true.
Proof.
  unfold remaining. rewrite <- !list_elem_of_In, order_by_perm, !list_elem_of_In, List.filter_In.
  unfold select. rewrite List.filter_In. tauto.
Qed.

Lemma remaining_sorted pos w : wf_table (observations w) -> StronglySorted before (remaining pos w).
Proof.
  intros Hw. apply sorted_before.
  - unfold remaining. rewrite order_by_perm. apply StronglySorted_lt_NoDup, sorted_filter. by apply select_sorted.
  - apply order_by_sorted; [apply oldest_first_total | apply oldest_first_trans].
Qed.

Lemma after_position x y : after_pos (position x) y = true <-> before x y.
Proof. unfold after_pos, position, before. rewrite orb_true_iff, andb_true_iff, !Z.ltb_lt, Z.eqb_eq. lia. Qed.

Lemma after_before pos x y : after_pos pos x = true -> before x y -> after_pos pos y = true.
Proof.
  destruct pos as [[i t]|]; [|done]. unfold after_pos, before.
  rewrite !orb_true_iff, !andb_true_iff, !Z.ltb_lt, !Z.eqb_eq. lia.
Qed.

(** A sorted list cut after one of its rows. *)
Lemma cut_sorted (l : list (Z * Observation)) x :
  StronglySorted before l -> last (take limit l) = Some x ->
  (forall y, In y (take limit l) -> y = x \/ before y x) /\ (forall y, In y (drop limit l) -> before x y).
Proof.
  intros Hs Hx. apply last_Some in Hx as [l1 E].
  rewrite <- (take_drop limit l), E, <- app_assoc in Hs. simpl in Hs.
  rewrite E. revert Hs. generalize (drop limit l). clear E. intros l2. induction l1 as [|z l1 IH]; simpl.
  - intros [_ Hx]%StronglySorted_inv. split; [intros y [->|[]]; by left |].
    rewrite Forall_forall in Hx. intros y Hy. by apply Hx, list_elem_of_In.
  - intros [Hs Hz]%StronglySorted_inv. destruct (IH Hs) as [H1 H2]. split; [|done].
    intros y [->|Hy]; [|by apply H1]. right. rewrite Forall_forall in Hz. apply Hz, elem_of_app. right. by left.
Qed.

Lemma StronglySorted_app_before (l1 l2 : list (Z * Observation)) :
  StronglySorted before l1 -> StronglySorted before l2 ->
  (forall x y, In x l1 -> In y l2 -> before x y) -> StronglySorted before (l1 ++ l2).
Proof.
  intros H1 H2 H. induction H1 as [|x l1 H1 IH Hx]; [done |]. simpl. constructor.
  - apply IH. intros a b Ha. apply H. by right.
  - apply Forall_app; split; [done |]. apply Forall_forall. intros y Hy. apply H; [by left | by apply list_elem_of_In].
Qed.

(** What one traversal from a position reads. *)
Definition reads (pos : option (Z * datetime)) (ws : list world) (res : list (Z * Observation) * bool) : Prop :=
  StronglySorted before res.1 /\
  (forall x, In x res.1 -> after_pos pos x = true /\ exists w, w ∈ ws /\ In x (rows (observations w)) /\ visible w x.2 = true) /\
  (res.2 = true -> forall x, after_pos pos x = true ->
     (forall w, w ∈ ws -> In x (rows (observations w)) /\ visible w x.2 = true) -> In x res.1).

End follow.
End QueryFacts.

Module QueryTheorems.
Import SourceRegistry Observations ObservationQueries QueryFacts.

Section follow.
Context {text : JsonText} {iso : IsoText} {text_laws : JsonTextLaws} {iso_laws : IsoTextLaws} (source : option string) (limit : nat) (Hlimit : (0 < limit)%nat).

(** The page of a position, with what follows it. *)
Lemma follow_cons cursor pos w ws :
  _decode_cursor cursor = Ok (cursor_data pos) ->
  (length (remaining source pos w) <= limit)%nat /\
    follow limit source cursor (w :: ws) = (remaining source pos w, true) \/
  exists x, last (take limit (remaining source pos w)) = Some x /\
    follow limit source cursor (w :: ws) =
      (take limit (remaining source pos w) ++ (follow limit source (Some (_encode_cursor x.1 (Some (timestamp x.2)))) ws).1,
       (follow limit source (Some (_encode_cursor x.1 (Some (timestamp x.2)))) ws).2).
Proof.
  intros Hd. cbn [follow]. rewrite (paginated_page source limit cursor pos w Hd).
  destruct (limit <? length (remaining source pos w))%nat eqn:E; [apply Nat.ltb_lt in E | apply Nat.ltb_ge in E].
  - right. destruct (last (take limit (remaining source pos w))) as [[i o]|] eqn:El.
    + exists (i, o). split; [done |]. simpl. by destruct (follow limit source _ ws).
    + exfalso. apply last_None in El. apply (f_equal length) in El. rewrite length_take in El. simpl in El. lia.
  - left. split; [done |]. by rewrite take_ge.
Qed.

Lemma follow_reads cursor pos ws :
  (forall w, w ∈ ws -> wf_table (observations w)) ->
  _decode_cursor cursor = Ok (cursor_data pos) ->
  reads source pos ws (follow limit source cursor ws).
Proof.
  revert cursor pos. induction ws as [|w ws IH]; intros cursor pos Hws Hd.
  { split_and!; [constructor | done | done]. }
  pose proof (Hws w) as Hw. specialize (Hw ltac:(by left)).
  pose proof (remaining_sorted source pos w Hw) as Hs.
  destruct (follow_cons cursor pos w ws Hd) as [[Hlen ->] | (x & Hx & ->)].
  - split_and!; [done | |].
    + intros y (H1 & H2 & H3)%remaining_In. split; [done |]. exists w. split; [by left | done].
    + intros _ y Ha Hy. apply remaining_In. destruct (Hy w) as [? ?]; [by left |]. done.
  - destruct (cut_sorted limit _ _ Hs Hx) as [Hle Hgt].
    assert (In x (take limit (remaining source pos w))) as Hxin.
    { apply last_Some in Hx as [l ->]. apply in_or_app. right. by left. }
    assert (forall y, In y (take limit (remaining source pos w)) -> In y (remaining source pos w)) as Hsub.
    { intros y Hy. rewrite <- (take_drop limit). apply in_or_app. by left. }
    pose proof (Hsub x Hxin) as (Hxr & _ & Hxa)%remaining_In.
    destruct (IH (Some (_encode_cursor x.1 (Some (timestamp x.2)))) (position x)) as (I1 & I2 & I3).
    { intros w' Hw'. apply Hws. by right. }
    { apply cursor_round_trip. }
    set (rest := follow limit source _ ws) in *. split_and!; simpl.
    + apply StronglySorted_app_before; [| done |].
      * rewrite <- (take_drop limit) in Hs. by apply ObservationTheorems.StronglySorted_app_l in Hs as [Hs _].
      * intros a b Ha Hb. apply I2 in Hb as [Hb%after_position _].
        destruct (Hle a Ha) as [->|H]; [done |]. by eapply before_trans.
    + intros y [Hy|Hy]%in_app_or.
      * apply Hsub, remaining_In in Hy as (H1 & H2 & H3). split; [done |]. exists w. split; [by left | done].
      * apply I2 in Hy as [Ha (w' & Hw' & Hy)]. split; [by eapply after_before, after_position |].
        exists w'. split; [by right | done].
    + intros Hfin y Ha Hy. assert (In y (remaining source pos w)) as Hin.
      { apply remaining_In. destruct (Hy w) as [? ?]; [by left |]. done. }
      apply in_or_app. rewrite <- (take_drop limit) in Hin. apply in_app_or in Hin as [Hin|Hin]; [by left |].
      right. apply I3; [done | by apply after_position, Hgt |]. intros w' Hw'. apply Hy. by right.
Qed.

Lemma follow_finishes cursor pos w n :
  wf_table (observations w) -> _decode_cursor cursor = Ok (cursor_data pos) ->
  (length (remaining source pos w) < n)%nat ->
  (follow limit source cursor (replicate n w)).2 = true.
Proof.
  intros Hw. revert cursor pos. induction n as [|n IH]; intros cursor pos Hd Hn; [lia |].
  cbn [replicate]. destruct (follow_cons cursor pos w (replicate n w) Hd) as [[_ ->] | (x & Hx & ->)]; [done |].
  cbn [snd]. pose proof (remaining_sorted source pos w Hw) as Hs. destruct (cut_sorted limit _ _ Hs Hx) as [Hle _].
  assert (In x (take limit (remaining source pos w))) as Hxin.
  { apply last_Some in Hx as [l ->]. apply in_or_app. right. by left. }
  assert (In x (remaining source pos w)) as (Hxr & _ & Hxa)%remaining_In.
  { rewrite <- (take_drop limit). apply in_or_app. by left. }
  apply (IH _ (position x)); [apply cursor_round_trip |].
  assert (length (x :: remaining source (position x) w) <= length (remaining source pos w))%nat as Hl; [|simpl in Hl; lia].
  apply submseteq_length, NoDup_submseteq.
  - constructor.
    + intros Hin%list_elem_of_In%remaining_In. destruct Hin as (_ & _ & Hb%after_position). by apply before_irrefl in Hb.
    + apply (NoDup_fmap_1 fst). unfold remaining. rewrite order_by_perm.
      apply StronglySorted_lt_NoDup, sorted_filter. by apply select_sorted.
  - intros y [->|Hy%list_elem_of_In]%elem_of_cons; apply list_elem_of_In.
    + rewrite <- (take_drop limit). apply in_or_app. by left.
    + apply remaining_In in Hy as (H1 & H2 & H3). apply remaining_In. split_and!; [done | done |].
      by eapply after_before, after_position.
Qed.

End follow.


(** On tables that do not change, following the cursors ends, after at most one
    page more than there are rows, and reads exactly the active rows of the source. *)
Theorem cursor_pages_complete {text : JsonText} {iso : IsoText} {text_laws : JsonTextLaws} {iso_laws : IsoTextLaws} (limit : nat) (source : option string) (w : world) (x : Z * Observation) :
  (0 < limit)%nat -> wf_table (observations w) ->
  let n := length (select (visible source w) (observations w)) in
  let '(read, finished) := follow limit source None (replicate (S n) w) in
  finished = true /\ (In x read <-> In x (select (visible source w) (observations w))).
Proof.
  intros Hl Hw n.
  assert (length (remaining source None w) = n) as Hn.
  { unfold remaining. rewrite order_by_length. unfold n. f_equal. simpl.
    induction (select _ _) as [|y l IH]; [done |]. simpl. by rewrite IH. }
  pose proof (follow_finishes source limit Hl None None w (S n) Hw eq_refl) as Hf.
  rewrite Hn in Hf. specialize (Hf ltac:(lia)).
  assert (forall w', w' ∈ replicate (S n) w -> w' = w) as Hrep by (intros w' H; by apply elem_of_replicate in H as [-> _]).
  destruct (follow_reads source limit Hl None None (replicate (S n) w)) as (_ & H2 & H3).
  { intros w' ->%Hrep. done. }
  { done. }
  destruct (follow limit source None (replicate (S n) w)) as [read finished]. simpl in Hf, H2, H3. subst.
  split; [done |]. unfold select. rewrite List.filter_In. split.
  - intros [_ (w' & ->%Hrep & Hx & Hv)]%H2. done.
  - intros [Hx Hv]. apply H3; [done | done |]. intros w' ->%Hrep. done.
Qed.

(** The optimised tag counts are the naive ones: resolving each distinct source
    once and looking it up gives, for every observation, the name that resolving it
    again would. *)
Theorem tag_counts_agree (limit : nat) (w : world) :
  get_observations_with_tag_counts limit w = Some (get_observations_with_tag_counts_naive limit w).
Proof.
  unfold get_observations_with_tag_counts, get_observations_with_tag_counts_naive.
  set (l := latest limit w). set (m := source_name_map l w).
  assert (forall x, x ∈ l -> m !! obs_source_id x.2 = Some (resolve_source_name (obs_source_id x.2) (sources w))) as Hm.
  { intros x Hx. unfold m, source_name_map. apply lookup_set_to_map; [by intros ?? _ _ |].
    exists (obs_source_id x.2). split; [|done]. apply elem_of_list_to_set, list_elem_of_In, (in_map (fun x => obs_source_id x.2)).
    by apply list_elem_of_In. }
  clearbody m. apply mapM_Some. assert (forall l', (forall x, x ∈ l' -> x ∈ l) -> Forall2 (fun x y =>
    (name ← m !! obs_source_id x.2; Some (TagCount x.1 name (timestamp x.2) (length (tags x.2)))) = Some y) l'
    (map (fun x => TagCount x.1 (resolve_source_name (obs_source_id x.2) (sources w)) (timestamp x.2) (length (tags x.2))) l')) as H;
    [|by apply H].
  induction l' as [|x l' IH]; intros Hsub; [constructor |]. simpl. constructor.
  - rewrite Hm by (apply Hsub; by left). done.
  - apply IH. intros y Hy. apply Hsub. by right.
Qed.

End QueryTheorems.

(** ** Witnesses *)

Module QueryWitnesses.
Import SourceRegistry Observations ObservationQueries QueryFacts QueryTheorems ObservationWitnesses.

Import SampleJson SampleIso.

Definition two : world :=
  World weather_sources (Table [(1, stored (Some 7) 30); (2, stored (Some 7) 10)] 3).
Definition three : world :=
  World weather_sources (Table [(1, stored (Some 7) 30); (2, stored (Some 7) 10); (3, stored None 20)] 4).

Lemma two_wf : wf_table (observations two).
Proof.
  split; by repeat constructor.
Qed.

Lemma three_wf : wf_table (observations three).
Proof.
  split; by repeat constructor.
Qed.


Lemma cursor_pages_complete_witness :
  (follow 2 None None (replicate 4 three)).2 = true /\
  In (3, stored None 20) (follow 2 None None (replicate 4 three)).1.
Proof.
  pose proof (cursor_pages_complete 2 None three (3, stored None 20) ltac:(lia) three_wf) as H.
  cbv zeta in H. change (S (length (select (visible None three) (observations three)))) with 4%nat in H.
  destruct (follow 2 None None (replicate 4 three)) as [read fin].
  destruct H as [-> H]. split; [done |]. apply H. vm_compute. tauto.
Defined.

(** A source that no active profile has is no filter: everything is listed. *)
Example unknown_source_lists_everything :
  follow 5 (Some "nowhere") None [three] = follow 5 None None [three].
Proof. reflexivity. Qed.

End QueryWitnesses.
