(* ===== verification/Fetch.v ===== *)
(** * Fetching from the external API

    [services/ingestor/fetch.py]: one request, the retry loop, the strategies that
    remember fetched URLs (with the Bloom filter down to its bits), the fetch that
    skips seen URLs, and the HTTP clients kept per event loop.

    The HTTP exchange, the two digests and the logarithm are parameters. *)

From S2P Require Import Prelude.

Module Fetch.

(** ** One request *)

(** What [client.get] and [response.json()] come to. *)
Inductive exchange :=
| TimeoutException
| TransportError (message : string)
| Response (status_code : Z) (body : option json).

Inductive fetch_error :=
| Simulated
| Timeout
| HTTPError (message : string)
| HTTPStatusError (status_code : Z)
| JSONDecodeError
| UnknownError.

(** [simulated] is whether the injected failure fires: [simulate_failures] and a
    random number below ten that is zero.  [raise_for_status] raises for every
    status that is not a success. *)
Definition fetch_from_external_api (simulated : bool) (e : exchange) : result fetch_error json :=
  if simulated then Raise Simulated
  else match e with
  | TimeoutException => Raise Timeout
  | TransportError message => Raise (HTTPError message)
  | Response status_code body =>
      if (200 <=? status_code) && (status_code <=? 299) then
        match body with Some j => Ok j | None => Raise JSONDecodeError end
      else Raise (HTTPStatusError status_code)
  end.

(** ** The retry loop

    [attempts k] is the outcome of attempt [k]; the result comes with the number of
    attempts made and the seconds slept between them. *)
Record fetched := Fetched {
  outcome : result fetch_error json;
  attempts_made : nat;
  slept : list Z
}.

Fixpoint attempt_loop (attempts : nat -> result fetch_error json) (max_retries : Z) (attempt : nat) (fuel : nat)
    (last_exception : option fetch_error) (sleeps : list Z) : fetched :=
  match fuel with
  | O => Fetched (match last_exception with Some e => Raise e | None => Raise UnknownError end) attempt sleeps
  | S fuel =>
      match attempts attempt with
      | Ok j => Fetched (Ok j) (S attempt) sleeps
      | Raise e =>
          let sleeps := if Z.of_nat attempt <? max_retries - 1 then sleeps ++ [2 ^ Z.of_nat attempt] else sleeps in
          attempt_loop attempts max_retries (S attempt) fuel (Some e) sleeps
      end
  end.

(** [range(max_retries)] is the loop's fuel. *)
Definition fetch_with_retry (attempts : nat -> result fetch_error json) (max_retries : Z) : fetched :=
  attempt_loop attempts max_retries 0 (Z.to_nat max_retries) None [].

End Fetch.

(** ** Strategies that remember URLs *)

Module UrlSeen.

Inductive strategy_error := ZeroDivisionError | IndexError.

(** [UrlSeenStrategy]. *)
Class UrlSeenStrategy (S : Type) := {
  is_seen : string -> S -> result strategy_error bool;
  mark_seen : string -> S -> result strategy_error S;
  reset : S -> S;
  strategy_name : string
}.

(** What a strategy that deduplicates promises on its usable states: a marked URL is
    seen from then on, and neither operation raises. *)
Class RemembersUrls (S : Type) `{UrlSeenStrategy S} (usable : S -> Prop) := {
  seen_answers u s : usable s -> exists b, is_seen u s = Ok b;
  mark_succeeds u s : usable s -> exists s', mark_seen u s = Ok s' /\ usable s' /\ is_seen u s' = Ok true;
  seen_persists u v s s' : usable s -> is_seen u s = Ok true -> mark_seen v s = Ok s' -> is_seen u s' = Ok true
}.

(** *** The Bloom filter *)

Module Bloom.

Record BitArrayBloomFilter := Filter {
  _capacity : Z;
  _fp_rate : Q;
  _m : Z;
  _k : Z;
  _bits : list Z;
  _count : Z
}.

Section Bloom.
(** [math.log], and the first eight bytes of the SHA-256 and BLAKE2b digests. *)
Context (log : Q -> Q) (sha256 blake2b : string -> Z).

Definition _optimal_m (n : Z) (p : Q) : Z :=
  Qceiling (- inject_Z n * log p / (log 2 * log 2))%Q.

Definition _optimal_k (m n : Z) : Z :=
  Z.max 1 (round_half_even (inject_Z m / inject_Z n * log 2)%Q).

(** [bytearray(math.ceil(m / 8))]. *)
Definition zero_bytes (m : Z) : list Z := replicate (Z.to_nat ((m + 7) / 8)) 0.

(** A logarithm out of its domain, an empty capacity, a negative size. *)
Inductive init_error := MathDomainError | DivisionByZero | NegativeCount.

Definition init (capacity : Z) (fp_rate : Q) : result init_error BitArrayBloomFilter :=
  let m := _optimal_m capacity fp_rate in
  if Qle_bool fp_rate 0 then Raise MathDomainError
  else if capacity =? 0 then Raise DivisionByZero
  else if (m + 7) / 8 <? 0 then Raise NegativeCount
  else Ok (Filter capacity fp_rate m (_optimal_k m capacity) (zero_bytes m) 0).

Definition _hash_pair (url : string) : Z * Z := (sha256 url, blake2b url).

(** [% self._m] raises when there are no bits. *)
Definition _positions (url : string) (f : BitArrayBloomFilter) : result strategy_error (list Z) :=
  let '(h1, h2) := _hash_pair url in
  if _m f =? 0 then Raise ZeroDivisionError
  else Ok (map (fun i => (h1 + Z.of_nat i * h2) mod _m f) (seq 0 (Z.to_nat (_k f)))).

(** [l[i]] for a Python index: a negative one counts from the end. *)
Definition py_index (l : list Z) (i : Z) : option nat :=
  let n := Z.of_nat (length l) in
  if (0 <=? i) && (i <? n) then Some (Z.to_nat i)
  else if (- n <=? i) && (i <? 0) then Some (Z.to_nat (n + i))
  else None.

Definition _get_bit (bits : list Z) (pos : Z) : result strategy_error bool :=
  match py_index bits (pos / 8) with
  | None => Raise IndexError
  | Some i => Ok (negb (Z.land (or_else (bits !! i) 0) (Z.shiftl 1 (pos mod 8)) =? 0))
  end.

Definition _set_bit (bits : list Z) (pos : Z) : result strategy_error (list Z) :=
  match py_index bits (pos / 8) with
  | None => Raise IndexError
  | Some i => Ok (alter (fun byte => Z.lor byte (Z.shiftl 1 (pos mod 8))) i bits)
  end.

(** [all] stops at the first bit that is clear. *)
Fixpoint all_bits (bits : list Z) (ps : list Z) : result strategy_error bool :=
  match ps with
  | [] => Ok true
  | p :: ps => match _get_bit bits p with
               | Ok true => all_bits bits ps
               | Ok false => Ok false
               | Raise e => Raise e
               end
  end.

Fixpoint set_bits (bits : list Z) (ps : list Z) : result strategy_error (list Z) :=
  match ps with
  | [] => Ok bits
  | p :: ps => bind_result (_set_bit bits p) (fun bits => set_bits bits ps)
  end.

Definition bloom_is_seen (url : string) (f : BitArrayBloomFilter) : result strategy_error bool :=
  bind_result (_positions url f) (fun ps => all_bits (_bits f) ps).

Definition bloom_mark_seen (url : string) (f : BitArrayBloomFilter) : result strategy_error BitArrayBloomFilter :=
  bind_result (_positions url f) (fun ps =>
  bind_result (set_bits (_bits f) ps) (fun bits =>
  Ok (Filter (_capacity f) (_fp_rate f) (_m f) (_k f) bits (_count f + 1)))).

Definition bloom_reset (f : BitArrayBloomFilter) : BitArrayBloomFilter :=
  Filter (_capacity f) (_fp_rate f) (_m f) (_k f) (replicate (length (_bits f)) 0) 0.

(** [bin(b).count("1")]. *)
Definition ones (b : Z) : Z :=
  Z.of_nat (count (fun i => Z.testbit b (Z.of_nat i)) (seq 0 8)).

Definition fill_ratio (f : BitArrayBloomFilter) : Q :=
  (inject_Z (foldr (fun b n => (ones b + n)%Z) 0%Z (_bits f)) / inject_Z (_m f))%Q.

Definition item_count (f : BitArrayBloomFilter) : Z := _count f.

End Bloom.
End Bloom.

(** *** The exact filter and the disabled one *)

Record InMemorySetFilter := SetFilter { _seen : gset string }.

#[export] Instance in_memory_set : UrlSeenStrategy InMemorySetFilter := {
  is_seen u s := Ok (bool_decide (u ∈ _seen s));
  mark_seen u s := Ok (SetFilter ({[u]} ∪ _seen s));
  reset s := SetFilter ∅;
  strategy_name := "in_memory_set"
}.

Inductive NoOpFilter := NoOp.

#[export] Instance no_op : UrlSeenStrategy NoOpFilter := {
  is_seen u s := Ok false;
  mark_seen u s := Ok s;
  reset s := s;
  strategy_name := "no_op"
}.

Definition bloom_strategy (sha256 blake2b : string -> Z) : UrlSeenStrategy Bloom.BitArrayBloomFilter := {|
  is_seen := Bloom.bloom_is_seen sha256 blake2b;
  mark_seen := Bloom.bloom_mark_seen sha256 blake2b;
  reset := Bloom.bloom_reset;
  strategy_name := "bloom_filter"
|}.

(** ** Fetching unseen URLs *)

Section Dedup.
Context {S : Type} `{UrlSeenStrategy S}.

Inductive dedup_error := Strategy (e : strategy_error) | FetchFailed (e : Fetch.fetch_error).

(** [None] when the URL was seen; the filter is marked after a success only.
    [fetch] is [fetch_with_retry] on this URL. *)
Definition fetch_dedup (fetch : Fetch.fetched) (url : string) (s : S) : result dedup_error (option json) * S :=
  match is_seen url s with
  | Raise e => (Raise (Strategy e), s)
  | Ok true => (Ok None, s)
  | Ok false =>
      match Fetch.outcome fetch with
      | Raise e => (Raise (FetchFailed e), s)
      | Ok j => match mark_seen url s with
                | Raise e => (Raise (Strategy e), s)
                | Ok s => (Ok (Some j), s)
                end
      end
  end.

(** A run over many URLs, each with what fetching it would give. *)
Fixpoint fetch_run (calls : list (string * Fetch.fetched)) (s : S) : list (result dedup_error (option json)) * S :=
  match calls with
  | [] => ([], s)
  | (url, fetch) :: calls =>
      let '(r, s) := fetch_dedup fetch url s in
      let '(rs, s) := fetch_run calls s in (r :: rs, s)
  end.

(** The calls for a URL that fetched it. *)
Definition fetches (url : string) (calls : list (string * Fetch.fetched))
    (rs : list (result dedup_error (option json))) : nat :=
  count (fun x => bool_decide (x.1.1 = url) && match x.2 with Ok (Some _) => true | _ => false end) (zip calls rs).

End Dedup.

End UrlSeen.

(** ** HTTP clients *)

Module HttpClients.

(** [_http_clients]: event loops to their clients, both by identity; [fresh] is the
    next client, and [closed] are those closed so far. *)
Record registry := Registry {
  _http_clients : gmap nat nat;
  fresh : nat;
  closed : list nat
}.

Definition get_http_client (loop : nat) (r : registry) : nat * registry :=
  match _http_clients r !! loop with
  | Some client => (client, r)
  | None => (fresh r, Registry (<[loop := fresh r]> (_http_clients r)) (S (fresh r)) (closed r))
  end.

(** [None]: called without a running loop. *)
Definition close_http_client (loop : option nat) (r : registry) : registry :=
  match loop with
  | None => r
  | Some loop =>
      match _http_clients r !! loop with
      | None => r
      | Some client => Registry (delete loop (_http_clients r)) (fresh r) (closed r ++ [client])
      end
  end.

(** Whichever loop a client belongs to, it is taken out of the map and [aclose] is
    tried once; errors are swallowed. *)
Definition close_all_http_clients (r : registry) : registry :=
  fold_left (fun r loop => close_http_client (Some loop) r) (map_to_list (_http_clients r)).*1 r.

End HttpClients.

(** ** Theorems: the retry loop *)

Module FetchTheorems.
Import Fetch.

(** The delays after the first [k] failures. *)
Definition delays (k : nat) : list Z := map (fun i => 2 ^ Z.of_nat i) (seq 0 k).

Lemma delays_total k : foldr Z.add 0 (delays k) = 2 ^ Z.of_nat k - 1.
Proof.
  unfold delays. induction k as [|k IH]; [done |].
  rewrite seq_S, map_app, foldr_app. cbn [map foldr Nat.add].
  assert (forall l a, foldr Z.add a l = foldr Z.add 0 l + a) as H.
  { intros l a. induction l as [|x l IHl]; simpl; [done | lia]. }
  rewrite H, IH, Nat2Z.inj_succ, Z.pow_succ_r; lia.
Qed.

(** The loop from attempt [a] on, with [fuel] attempts left and the delays of the
    first [a] failures behind it. *)
Lemma attempt_loop_shape attempts n a fuel last :
  (a + fuel = n)%nat ->
  attempt_loop attempts (Z.of_nat n) a fuel last (delays (Nat.min a (n - 1))) =
  match List.find (fun k => is_ok (attempts k)) (seq a fuel) with
  | Some k => Fetched (attempts k) (S k) (delays k)
  | None => Fetched (match fuel with
                     | O => match last with Some e => Raise e | None => Raise UnknownError end
                     | S f => attempts (a + f)%nat
                     end) n (delays (n - 1))
  end.
Proof.
  revert a last. induction fuel as [|fuel IH]; intros a last Hn.
  - cbn [attempt_loop seq List.find]. replace (Nat.min a (n - 1)) with (n - 1)%nat by lia. f_equal. lia.
  - cbn [attempt_loop seq List.find].
    destruct (attempts a) as [j|e] eqn:E; cbn [is_ok].
    + rewrite E. by replace (Nat.min a (n - 1)) with a by lia.
    + replace (if Z.of_nat a <? Z.of_nat n - 1 then delays (Nat.min a (n - 1)) ++ [2 ^ Z.of_nat a]
               else delays (Nat.min a (n - 1))) with (delays (Nat.min (S a) (n - 1))).
      2: { destruct (Z.ltb_spec (Z.of_nat a) (Z.of_nat n - 1)).
           - replace (Nat.min a (n - 1)) with a by lia. replace (Nat.min (S a) (n - 1)) with (S a) by lia.
             unfold delays. by rewrite seq_S, map_app.
           - f_equal. lia. }
      rewrite IH by lia. destruct (List.find _ _); [reflexivity |]. f_equal.
      destruct fuel; [by rewrite Nat.add_0_r, E | by rewrite Nat.add_succ_comm].
Qed.

(** The retried fetch stops at the first attempt that succeeds and returns its
    answer, and fails with the error of the last attempt when none of the
    [max_retries] attempts does (with the unknown error when there is none to make);
    before attempt [k + 1] it has slept 1, 2, 4, ... seconds, [2 ^ k - 1] in all, and it
    never sleeps after the last one. *)
Theorem fetch_retry_shape attempts max_retries :
  let n := Z.to_nat max_retries in
  fetch_with_retry attempts max_retries =
    match List.find (fun k => is_ok (attempts k)) (seq 0 n) with
    | Some k => Fetched (attempts k) (S k) (delays k)
    | None => Fetched (match n with O => Raise UnknownError | S k => attempts k end) n (delays (n - 1))
    end /\
  (attempts_made (fetch_with_retry attempts max_retries) <= n)%nat /\
  foldr Z.add 0 (slept (fetch_with_retry attempts max_retries)) =
    2 ^ Z.of_nat (attempts_made (fetch_with_retry attempts max_retries) - 1) - 1.
Proof.
  intros n.
  assert (fetch_with_retry attempts max_retries =
    match List.find (fun k => is_ok (attempts k)) (seq 0 n) with
    | Some k => Fetched (attempts k) (S k) (delays k)
    | None => Fetched (match n with O => Raise UnknownError | S k => attempts k end) n (delays (n - 1))
    end) as E.
  { destruct (Z_le_gt_dec 0 max_retries) as [Hz|Hz].
    - pose proof (attempt_loop_shape attempts n 0 n None) as H.
      unfold fetch_with_retry. replace max_retries with (Z.of_nat n) at 1 by lia. fold n. apply H. lia.
    - unfold fetch_with_retry, n. by replace (Z.to_nat max_retries) with 0%nat by lia. }
  split; [done |]. rewrite E. destruct (List.find _ _) as [k|] eqn:F; cbn [attempts_made slept]; rewrite delays_total.
  - apply List.find_some in F as [Hk%in_seq _]. split; [lia |]. by replace (S k - 1)%nat with k by lia.
  - split; [lia | done].
Qed.

End FetchTheorems.

(** ** Theorems: remembered URLs *)

Module UrlSeenTheorems.
Import UrlSeen Bloom.

#[export] Instance set_remembers : RemembersUrls InMemorySetFilter (fun _ => True).
Proof.
  split.
  - intros u s _. eexists. reflexivity.
  - intros u s _. eexists. split; [done |]. split; [done |]. simpl. f_equal. apply bool_decide_eq_true. set_solver.
  - intros u v s s' _ [= Hu%bool_decide_eq_true_1] [= <-]. simpl. f_equal. apply bool_decide_eq_true. set_solver.
Qed.

Section Once.
Context {S : Type} {strategy : UrlSeenStrategy S} {usable : S -> Prop} {laws : RemembersUrls S usable}.

(** A call fetches its URL only when it was unseen, and then it is seen. *)
Lemma fetch_dedup_step url v fetch (s : S) :
  usable s ->
  let '(r, s') := fetch_dedup fetch v s in
  usable s' /\ (is_seen url s = Ok true -> is_seen url s' = Ok true) /\
  (match r with Ok (Some _) => is_seen v s = Ok false /\ is_seen v s' = Ok true | _ => s' = s end).
Proof.
  intros Hu. unfold fetch_dedup. destruct (is_seen v s) as [[|]|e] eqn:Ev; [done | |done].
  destruct (Fetch.outcome fetch) as [j|e]; [|done].
  destruct (mark_succeeds v s Hu) as (s' & Em & Hu' & Hv). rewrite Em. split_and!; [done | |done ..].
  intros Hs. exact (seen_persists url v s s' Hu Hs Em).
Qed.

Lemma fetches_seen url calls (s : S) :
  usable s -> is_seen url s = Ok true -> fetches url calls (fetch_run calls s).1 = 0%nat.
Proof.
  revert s. induction calls as [|[v fetch] calls IH]; intros s Hs Hu; [done |]. cbn [fetch_run].
  pose proof (fetch_dedup_step url v fetch s Hs) as Hd.
  destruct (fetch_dedup fetch v s) as [r s']. destruct Hd as (Hs' & Hp & Hr). specialize (IH s' Hs' (Hp Hu)).
  destruct (fetch_run calls s') as [rs s'']. cbn [fst] in *. unfold fetches, count in *. cbn.
  destruct (decide (v = url)) as [Hv|Hv].
  - subst v. destruct r as [[j|]|e]; [destruct Hr; congruence | |]; rewrite andb_false_r; apply IH.
  - rewrite bool_decide_false by done. apply IH.
Qed.

(** With a strategy that remembers marked URLs, a sequence of calls, whatever
    they answer and however often a URL occurs, fetches each URL successfully at most
    once, and never one that was seen before it; none of them fails in the strategy. *)
Theorem dedup_fetches_once url calls (s : S) :
  usable s ->
  (fetches url calls (fetch_run calls s).1 <= 1)%nat /\
  (is_seen url s = Ok true -> fetches url calls (fetch_run calls s).1 = 0%nat) /\
  usable (fetch_run calls s).2.
Proof.
  intros Hs. split; [|split; [by apply fetches_seen |]]; revert s Hs;
    induction calls as [|[v fetch] calls IH]; intros s Hs; [cbn; lia | |done |];
    cbn [fetch_run]; pose proof (fetch_dedup_step url v fetch s Hs) as Hd;
    destruct (fetch_dedup fetch v s) as [r s']; destruct Hd as (Hs' & Hp & Hr);
    pose proof (fetches_seen url calls s' Hs') as Hseen; specialize (IH s' Hs');
    destruct (fetch_run calls s') as [rs s'']; [|done].
  cbn [fst] in *. unfold fetches, count in *. cbn.
  destruct (decide (v = url)) as [Hv|Hv]; [|rewrite bool_decide_false by done; apply IH].
  subst v. destruct r as [[j|]|e]; [|rewrite andb_false_r; apply IH ..].
  rewrite bool_decide_true by done. cbn. destruct Hr as [_ Hr]. by rewrite Hseen.
Qed.

End Once.

End UrlSeenTheorems.

(** ** Theorems: the Bloom filter *)

Module BloomTheorems.
Import UrlSeen Bloom.

(** A filter with its bits: at least one, rounded up to whole bytes. *)
Definition valid (f : BitArrayBloomFilter) : Prop :=
  0 < _m f /\ 0 < _k f /\ length (_bits f) = Z.to_nat ((_m f + 7) / 8) /\ Forall (fun b => 0 <= b < 256) (_bits f).

(** Bit [pos] of the array. *)
Definition bit (bits : list Z) (pos : Z) : bool :=
  Z.testbit (or_else (bits !! Z.to_nat (pos / 8)) 0) (pos mod 8).

Definition in_range (bits : list Z) (pos : Z) : Prop := 0 <= pos < 8 * Z.of_nat (length bits).

Lemma land_shift b i : 0 <= i -> negb (Z.land b (Z.shiftl 1 i) =? 0) = Z.testbit b i.
Proof.
  intros Hi. rewrite Z.shiftl_1_l. destruct (Z.testbit b i) eqn:E.
  - apply negb_true_iff, Z.eqb_neq. intros H0.
    assert (Z.testbit (Z.land b (2 ^ i)) i = true) as H by (rewrite Z.land_spec, Z.pow2_bits_true, E by done; done).
    rewrite H0, Z.bits_0 in H. done.
  - apply negb_false_iff, Z.eqb_eq. apply Z.bits_inj'. intros j Hj.
    rewrite Z.land_spec, Z.bits_0, Z.pow2_bits_eqb by done.
    destruct (Z.eqb_spec i j) as [<-|]; [by rewrite E | by rewrite andb_false_r].
Qed.

Lemma py_index_in_range bits pos : in_range bits pos -> py_index bits (pos / 8) = Some (Z.to_nat (pos / 8)).
Proof.
  intros H. unfold py_index, in_range in *.
  assert (0 <= pos / 8 < Z.of_nat (length bits)) by (split; [apply Z.div_pos | apply Z.div_lt_upper_bound]; lia).
  by replace ((0 <=? pos / 8) && (pos / 8 <? Z.of_nat (length bits))) with true by lia.
Qed.

Lemma get_bit_in_range bits pos : in_range bits pos -> _get_bit bits pos = Ok (bit bits pos).
Proof.
  intros H. unfold _get_bit. rewrite py_index_in_range by done.
  rewrite land_shift by (apply Z.mod_pos_bound; lia). done.
Qed.

Lemma shift_byte pos : 0 <= Z.shiftl 1 (pos mod 8) < 256.
Proof.
  pose proof (Z.mod_pos_bound pos 8 ltac:(lia)). rewrite Z.shiftl_1_l. split; [apply Z.pow_nonneg; lia |].
  change 256 with (2 ^ 8). apply Z.pow_lt_mono_r; lia.
Qed.

Lemma lor_byte a b : 0 <= a < 256 -> 0 <= b < 256 -> 0 <= Z.lor a b < 256.
Proof.
  intros Ha Hb. split; [apply Z.lor_nonneg; lia |]. change 256 with (2 ^ 8) in *.
  destruct (Z.eq_dec (Z.lor a b) 0) as [->|Hne]; [lia |].
  apply Z.log2_lt_pow2; [|rewrite Z.log2_lor by lia; apply Z.max_lub_lt].
  - assert (0 <= Z.lor a b) by (apply Z.lor_nonneg; lia). lia.
  - destruct (Z.eq_dec a 0) as [->|]; [done | apply Z.log2_lt_pow2; lia].
  - destruct (Z.eq_dec b 0) as [->|]; [done | apply Z.log2_lt_pow2; lia].
Qed.

(** Setting a bit sets that bit and no other. *)
Lemma set_bit_in_range bits pos :
  in_range bits pos -> Forall (fun b => 0 <= b < 256) bits ->
  exists bits', _set_bit bits pos = Ok bits' /\ length bits' = length bits /\
    Forall (fun b => 0 <= b < 256) bits' /\
    forall q, 0 <= q -> bit bits' q = bit bits q || (q =? pos).
Proof.
  intros H Hb. unfold _set_bit. rewrite py_index_in_range by done. eexists. split; [done |].
  split; [apply length_alter |]. split.
  { apply Forall_alter; [done |]. intros b _ ?. apply lor_byte; [done | apply shift_byte]. }
  intros q Hq. unfold bit. unfold in_range in H.
  destruct (decide (q / 8 = pos / 8)) as [E|E].
  - rewrite E, list_lookup_alter_eq.
    destruct (lookup_lt_is_Some_2 bits (Z.to_nat (pos / 8))) as [b Eb].
    { apply Nat2Z.inj_lt. rewrite Z2Nat.id by (apply Z.div_pos; lia). apply Z.div_lt_upper_bound; lia. }
    rewrite Eb. cbn. pose proof (Z.mod_pos_bound q 8 ltac:(lia)). pose proof (Z.mod_pos_bound pos 8 ltac:(lia)).
    rewrite Z.lor_spec, Z.shiftl_1_l, Z.pow2_bits_eqb by lia. f_equal.
    pose proof (Z.div_mod q 8). pose proof (Z.div_mod pos 8).
    destruct (Z.eqb_spec q pos), (Z.eqb_spec (pos mod 8) (q mod 8)); [done | congruence | lia | done].
  - rewrite list_lookup_alter_ne.
    + destruct (Z.eqb_spec q pos) as [->|]; [done | by rewrite orb_false_r].
    + intros ?. apply E. apply Z2Nat.inj; [apply Z.div_pos; lia .. | done].
Qed.

Lemma set_bits_in_range ps bits :
  Forall (in_range bits) ps -> Forall (fun b => 0 <= b < 256) bits ->
  exists bits', set_bits bits ps = Ok bits' /\ length bits' = length bits /\
    Forall (fun b => 0 <= b < 256) bits' /\
    forall q, 0 <= q -> bit bits' q = bit bits q || bool_decide (q ∈ ps).
Proof.
  revert bits. induction ps as [|p ps IH]; intros bits Hps Hb.
  { exists bits. split_and!; [done ..|]. intros q _. rewrite bool_decide_false by set_solver. by rewrite orb_false_r. }
  apply Forall_cons in Hps as [Hp Hps].
  destruct (set_bit_in_range bits p Hp Hb) as (bits1 & E1 & L1 & B1 & V1).
  destruct (IH bits1) as (bits2 & E2 & L2 & B2 & V2); [|done |].
  { eapply Forall_impl; [done |]. intros q. unfold in_range. by rewrite L1. }
  exists bits2. cbn [set_bits]. rewrite E1. cbn [bind_result]. rewrite E2. split; [done |]. split; [congruence |].
  split; [done |]. intros q Hq. rewrite V2, V1, <- orb_assoc by done. f_equal.
  destruct (Z.eqb_spec q p) as [->|]; cbn.
  - rewrite bool_decide_true by (apply elem_of_list_here || set_solver). done.
  - apply bool_decide_ext. rewrite elem_of_cons. naive_solver.
Qed.

Lemma all_bits_in_range ps bits :
  Forall (in_range bits) ps -> all_bits bits ps = Ok (forallb (bit bits) ps).
Proof.
  induction 1 as [|p ps Hp _ IH]; [done |]. cbn [all_bits forallb].
  rewrite get_bit_in_range by done. destruct (bit bits p); [apply IH | done].
Qed.

Section Filter.
Context (log : Q -> Q) (sha256 blake2b : string -> Z).

#[local] Instance bloom : UrlSeenStrategy BitArrayBloomFilter := bloom_strategy sha256 blake2b.

(** The bits that a URL is recorded in. *)
Definition probes (f : BitArrayBloomFilter) (url : string) : list Z :=
  map (fun i => (sha256 url + Z.of_nat i * blake2b url) mod _m f) (seq 0 (Z.to_nat (_k f))).

Lemma positions_probes url f : valid f -> _positions sha256 blake2b url f = Ok (probes f url).
Proof. intros (Hm & _). unfold _positions. cbn. by replace (_m f =? 0) with false by lia. Qed.

Lemma probes_in_range url f : valid f -> Forall (in_range (_bits f)) (probes f url).
Proof.
  intros (Hm & _ & Hl & _). apply Forall_forall. intros p (i & <- & _)%list_elem_of_In%in_map_iff.
  unfold in_range. rewrite Hl. pose proof (Z.mod_pos_bound (sha256 url + Z.of_nat i * blake2b url) (_m f) Hm).
  rewrite Z2Nat.id by (apply Z.div_pos; lia). pose proof (Z.div_mod (_m f + 7) 8). 
  pose proof (Z.mod_pos_bound (_m f + 7) 8). lia.
Qed.

Lemma bloom_seen_valid url f :
  valid f -> bloom_is_seen sha256 blake2b url f = Ok (forallb (bit (_bits f)) (probes f url)).
Proof.
  intros Hf. unfold bloom_is_seen. rewrite positions_probes by done. by apply all_bits_in_range, probes_in_range.
Qed.

Lemma bloom_mark_valid url f :
  valid f -> exists f', bloom_mark_seen sha256 blake2b url f = Ok f' /\ valid f' /\
    (forall v, probes f' v = probes f v) /\ _count f' = _count f + 1 /\
    forall q, 0 <= q -> bit (_bits f') q = bit (_bits f) q || bool_decide (q ∈ probes f url).
Proof.
  intros Hf. unfold bloom_mark_seen. rewrite positions_probes by done.
  destruct (set_bits_in_range (probes f url) (_bits f)) as (bits & E & L & B & V);
    [by apply probes_in_range | apply Hf |].
  cbn [bind_result]. rewrite E. eexists. split; [done |]. unfold valid in *. cbn. rewrite L. naive_solver.
Qed.

Lemma probes_nonneg f url p : valid f -> p ∈ probes f url -> 0 <= p.
Proof. intros Hf Hp. pose proof (probes_in_range url f Hf) as H. rewrite Forall_forall in H. by destruct (H p Hp). Qed.

#[export] Instance bloom_remembers : RemembersUrls BitArrayBloomFilter valid.
Proof.
  split.
  - intros u f Hf. eexists. by apply bloom_seen_valid.
  - intros u f Hf. destruct (bloom_mark_valid u f Hf) as (f' & E & Hf' & Hp & _ & V).
    exists f'. split; [done |]. split; [done |]. cbn. rewrite bloom_seen_valid, Hp by done. f_equal.
    apply forallb_forall. intros p Hq%list_elem_of_In. rewrite V by (apply (probes_nonneg f u p Hf Hq)).
    by rewrite bool_decide_true, orb_true_r.
  - intros u v f f' Hf. cbn. destruct (bloom_mark_valid v f Hf) as (f1 & E & Hf1 & Hp & _ & V).
    rewrite bloom_seen_valid, E by done. intros [= Hu] [= <-]. rewrite bloom_seen_valid, Hp by done. f_equal.
    rewrite forallb_forall in *. intros p Hq. rewrite V by (eapply probes_nonneg; [apply Hf | by apply list_elem_of_In]).
    by rewrite Hu.
Qed.

Fixpoint mark_all (urls : list string) (f : BitArrayBloomFilter) : result strategy_error BitArrayBloomFilter :=
  match urls with
  | [] => Ok f
  | u :: urls => bind_result (bloom_mark_seen sha256 blake2b u f) (mark_all urls)
  end.

Lemma mark_all_valid urls f :
  valid f -> exists f', mark_all urls f = Ok f' /\ valid f' /\ (forall v, probes f' v = probes f v) /\
    _count f' = _count f + Z.of_nat (length urls) /\
    forall q, 0 <= q -> bit (_bits f') q = true <-> bit (_bits f) q = true \/ exists v, v ∈ urls /\ q ∈ probes f v.
Proof.
  revert f. induction urls as [|u urls IH]; intros f Hf.
  { exists f. split_and!; [done.. | simpl; lia |]. set_solver. }
  destruct (bloom_mark_valid u f Hf) as (f1 & E1 & Hf1 & P1 & C1 & V1).
  destruct (IH f1 Hf1) as (f2 & E2 & Hf2 & P2 & C2 & V2).
  exists f2. cbn [mark_all]. rewrite E1. cbn [bind_result]. split_and!; [done.. | | |].
  - intros v. by rewrite P2.
  - rewrite C2, C1. simpl length. lia.
  - intros q Hq. rewrite V2, V1, orb_true_iff, bool_decide_eq_true by done.
    setoid_rewrite P1. setoid_rewrite elem_of_cons. naive_solver.
Qed.

Lemma zero_bytes_clear n q : bit (replicate n 0) q = false.
Proof.
  unfold bit. replace (or_else (replicate n 0 !! Z.to_nat (q / 8)) 0) with 0; [apply Z.bits_0 |].
  destruct (replicate n 0 !! Z.to_nat (q / 8)) eqn:E; [|done]. by apply lookup_replicate in E as [-> _].
Qed.

Lemma init_valid capacity fp_rate f :
  init log capacity fp_rate = Ok f -> 0 < _m f ->
  valid f /\ _count f = 0 /\ forall q, bit (_bits f) q = false.
Proof.
  unfold init. repeat (case_match; [done |]). intros [= <-] Hm. cbn in *. split; [|split; [done |]].
  - unfold valid. cbn. split; [done |]. split; [unfold _optimal_k; lia |]. unfold zero_bytes.
    rewrite length_replicate. split; [done |]. by apply Forall_replicate.
  - intros q. apply zero_bytes_clear.
Qed.

(** A Bloom filter that has bits answers for any URL, after any sequence of
    marks, that it was seen exactly when each of its bit positions is a position of a
    marked URL (in particular for each marked one: no false negatives); it counts the
    marks, its bytes stay bytes, and after a reset it has seen nothing. *)
Theorem bloom_answers capacity fp_rate f urls url :
  init log capacity fp_rate = Ok f -> 0 < _m f ->
  exists f' seen, mark_all urls f = Ok f' /\ bloom_is_seen sha256 blake2b url f' = Ok seen /\
    (seen = true <-> forall p, p ∈ probes f url -> exists v, v ∈ urls /\ p ∈ probes f v) /\
    (url ∈ urls -> seen = true) /\
    item_count f' = Z.of_nat (length urls) /\ Forall (fun b => 0 <= b < 256) (_bits f') /\
    bloom_is_seen sha256 blake2b url (bloom_reset f') = Ok false /\ item_count (bloom_reset f') = 0.
Proof.
  intros Hi Hm. destruct (init_valid _ _ _ Hi Hm) as (Hf & Hc & Hz).
  destruct (mark_all_valid urls f Hf) as (f' & E & Hf' & P & C & V).
  exists f', (forallb (bit (_bits f')) (probes f' url)). split; [done |]. split; [by apply bloom_seen_valid |].
  assert (forallb (bit (_bits f')) (probes f' url) = true <->
          forall p, p ∈ probes f url -> exists v, v ∈ urls /\ p ∈ probes f v) as Hiff.
  { rewrite forallb_forall. setoid_rewrite <- list_elem_of_In. rewrite P. split; intros H p Hp.
    - specialize (H p Hp). rewrite V, Hz in H by (by apply (probes_nonneg f url)). naive_solver.
    - apply V; [by apply (probes_nonneg f url) |]. right. by apply H. }
  split; [done |]. split; [rewrite Hiff; naive_solver |]. split; [unfold item_count; lia |].
  split; [apply Hf' |]. split; [|done].
  assert (valid (bloom_reset f')) as Hr.
  { destruct Hf' as (? & ? & ? & ?). unfold valid. cbn. rewrite length_replicate. split_and!; try done.
    by apply Forall_replicate. }
  rewrite bloom_seen_valid by done. f_equal. unfold probes. cbn [bloom_reset _k _m _bits].
  destruct Hf' as (_ & Hk & _). destruct (Z.to_nat (_k f')) as [|k] eqn:Ek; [lia |].
  cbn [seq map forallb]. by rewrite zero_bytes_clear.
Qed.

End Filter.
End BloomTheorems.

(** ** Theorems: the clients *)

Module HttpClientTheorems.
Import HttpClients.

(** No client is in the map twice or closed and still in the map; none is newer than
    the next one. *)
Definition well_formed (r : registry) : Prop :=
  (forall l1 l2 c, _http_clients r !! l1 = Some c -> _http_clients r !! l2 = Some c -> l1 = l2) /\
  (forall l c, _http_clients r !! l = Some c -> (c < fresh r)%nat /\ c ∉ closed r) /\
  NoDup (closed r) /\ Forall (fun c => (c < fresh r)%nat) (closed r).

Lemma get_well_formed loop r : well_formed r -> well_formed (get_http_client loop r).2.
Proof.
  intros (Hi & Hl & Hn & Hc). unfold get_http_client. destruct (_http_clients r !! loop) eqn:E; [done |].
  unfold well_formed. cbn. rewrite Forall_forall in *. split_and!.
  - intros l1 l2 c. rewrite !lookup_insert_Some. intros [[<- <-]|[? H1]] [[<- ?]|[? H2]]; try done.
    + destruct (Hl _ _ H2). lia.
    + destruct (Hl _ _ H1). lia.
    + by eapply Hi.
  - intros l c. rewrite lookup_insert_Some. intros [[_ <-]|[_ H]].
    + split; [lia |]. intros Hin. specialize (Hc _ Hin). lia.
    + destruct (Hl _ _ H). split; [lia | done].
  - done.
  - intros c Hin. specialize (Hc _ Hin). cbn in *. lia.
Qed.

Lemma close_well_formed loop r : well_formed r -> well_formed (close_http_client loop r).
Proof.
  intros (Hi & Hl & Hn & Hc). destruct loop as [loop|]; [|done]. cbn.
  destruct (_http_clients r !! loop) as [c|] eqn:E; [|done]. destruct (Hl _ _ E) as [Hlt Hnc].
  unfold well_formed. cbn. split_and!.
  - intros l1 l2 c'. rewrite !lookup_delete_Some. intros [? H1] [? H2]. by eapply Hi.
  - intros l c'. rewrite lookup_delete_Some. intros [Hne H]. destruct (Hl _ _ H). split; [done |].
    rewrite elem_of_app, list_elem_of_singleton. intros [?| ->]; [done |]. apply Hne. by eapply Hi.
  - apply NoDup_app. split_and!; [done | | apply NoDup_singleton].
    intros x Hx ->%list_elem_of_singleton. done.
  - apply Forall_app. split; [done | by repeat constructor].
Qed.

(** Every loop keeps its client until it is closed, no two loops share one, and
    no client is closed twice; closing all of them leaves none in the map and closes
    each exactly once. *)
Theorem clients_closed_once r :
  well_formed r ->
  (forall loop, well_formed (get_http_client loop r).2 /\
     (get_http_client loop (get_http_client loop r).2).1 = (get_http_client loop r).1) /\
  (forall loop, well_formed (close_http_client loop r)) /\
  well_formed (close_all_http_clients r) /\ _http_clients (close_all_http_clients r) = ∅ /\
  closed (close_all_http_clients r) = closed r ++ (map_to_list (_http_clients r)).*2.
Proof.
  intros Hr. split; [|split; [by intros; apply close_well_formed |]].
  { intros loop. split; [by apply get_well_formed |]. unfold get_http_client.
    destruct (_http_clients r !! loop) as [c|] eqn:E; cbn; [by rewrite E | by rewrite lookup_insert_eq]. }
  unfold close_all_http_clients.
  pose proof (NoDup_fst_map_to_list (_http_clients r)) as Hnd.
  assert (forall l c, (l, c) ∈ map_to_list (_http_clients r) <-> _http_clients r !! l = Some c) as Hin
    by (intros; by rewrite elem_of_map_to_list).
  revert Hnd Hin. generalize (map_to_list (_http_clients r)). intros m. revert r Hr.
  induction m as [|[l c] m IH]; intros r Hr Hnd Hin.
  - cbn. rewrite app_nil_r. split_and!; [done | |done]. apply map_empty. intros l.
    destruct (_http_clients r !! l) eqn:E; [|done]. apply Hin in E. by apply elem_of_nil in E.
  - cbn [fmap list_fmap fold_left fst snd] in *. apply NoDup_cons in Hnd as [Hl Hnd].
    assert (_http_clients r !! l = Some c) as E by (apply Hin; set_solver).
    destruct (IH (close_http_client (Some l) r)) as (W & M & C); [by apply close_well_formed | done | |].
    + intros l' c'. cbn. rewrite E. cbn. rewrite lookup_delete_Some, <- Hin, elem_of_cons. split.
      * intros H. split; [|by right]. intros <-. apply Hl. apply list_elem_of_fmap. by exists (l, c').
      * naive_solver.
    + split_and!; [done.. |]. rewrite C. cbn. rewrite E. cbn. by rewrite <- app_assoc.
Qed.

End HttpClientTheorems.

Module FetchWitnesses.
Import UrlSeen Bloom BloomTheorems UrlSeenTheorems.

(** Digests and a logarithm for the witnesses: lengths, and powers of two. *)
Definition length_digest (url : string) : Z := Z.of_nat (String.length url).
Definition second_digest (url : string) : Z := 7 * length_digest url + 3.
Definition small_log (q : Q) : Q := if Qle_bool 1 q then 1%Q else (-5)%Q.

Lemma dedup_fetches_once_witness :
  let f := Filter 4 (1 # 100) 20 3 [0; 0; 0] 0 in
  let answer := Fetch.Fetched (Ok (JInt 1)) 1 [] in
  (@fetches "/a" [("/a", answer); ("/bc", answer); ("/a", answer)]
     (@fetch_run _ (bloom_strategy length_digest second_digest)
        [("/a", answer); ("/bc", answer); ("/a", answer)] f).1 <= 1)%nat.
Proof.
  apply (@dedup_fetches_once _ (bloom_strategy length_digest second_digest) valid
           (bloom_remembers length_digest second_digest)).
  repeat split; try done. by repeat constructor.
Defined.

Lemma bloom_answers_witness :
  exists f, init small_log 4 (1 # 100) = Ok f /\ 0 < _m f /\
    exists f', mark_all length_digest second_digest ["/a"; "/bc"] f = Ok f' /\
      bloom_is_seen length_digest second_digest "/bc" f' = Ok true.
Proof.
  eexists. split; [reflexivity |]. split; [reflexivity |].
  edestruct (bloom_answers small_log length_digest second_digest 4 (1 # 100))
    with (urls := ["/a"; "/bc"]) (url := "/bc") as (f' & seen & E & Hs & _ & Hin & _);
    [reflexivity | reflexivity |].
  exists f'. split; [exact E |]. rewrite Hs. f_equal. apply Hin. right. left.
Defined.

Lemma clients_closed_once_witness :
  let r := HttpClients.Registry {[1%nat := 4%nat; 2%nat := 5%nat]} 6 [3%nat] in
  HttpClients._http_clients (HttpClients.close_all_http_clients r) = ∅.
Proof.
  apply HttpClientTheorems.clients_closed_once.
  unfold HttpClientTheorems.well_formed. cbn [HttpClients._http_clients HttpClients.fresh HttpClients.closed].
  split_and!.
  - intros l1 l2 c. rewrite !lookup_insert_Some, !lookup_singleton_Some. naive_solver.
  - intros l c. rewrite lookup_insert_Some, lookup_singleton_Some, list_elem_of_singleton. naive_solver lia.
  - apply NoDup_singleton.
  - repeat constructor; lia.
Defined.

End FetchWitnesses.
