(* ===== verification/Jwt.v ===== *)
(** * JSON Web Tokens, as PyJWT is relied on

    Signing and checking tokens is a library's work, so a token is a string that
    only [jwt_encode] and [jwt_decode] know how to read.  This file has the interface,
    the laws that the two authentication components rely on (what PyJWT documents for a
    symmetric algorithm), an instance that obeys them, and what the components use of
    Python's dictionaries and of [int]. *)

From S2P Require Import Prelude.

(** ** Dictionaries *)

Module Dict.

Abbreviation dict := (list (string * json)) (only parsing).

(** [d.get(k)], with [None] where Python has [None] for a missing key. *)
Fixpoint dict_get (k : string) (d : dict) : option json :=
  match d with
  | [] => None
  | (k', v) :: d => if decide (k = k') then Some v else dict_get k d
  end.

(** [d[k] = v]: a key keeps its place. *)
Fixpoint dict_set (k : string) (v : json) (d : dict) : dict :=
  match d with
  | [] => [(k, v)]
  | (k', v') :: d => if decide (k = k') then (k, v) :: d else (k', v') :: dict_set k v d
  end.

(** [{**d, **updates}]. *)
Definition dict_update (d updates : dict) : dict := fold_left (fun d x => dict_set x.1 x.2 d) updates d.

(** [None] and a JSON null are both [None] in Python. *)
Definition get_or_none (k : string) (d : dict) : json := or_else (dict_get k d) JNull.

Definition truthy (j : json) : bool :=
  match j with
  | JNull => false
  | JBool b => b
  | JInt z => negb (z =? 0)
  | JFloat q => negb (Qeq_bool q 0)
  | JStr s => str_truthy s
  | JList l => match l with [] => false | _ => true end
  | JObj l => match l with [] => false | _ => true end
  end.

End Dict.

(** ** [int(s)] *)

Module PyInt.

Definition digit_value (c : ascii) : option Z :=
  let n := Z.of_nat (nat_of_ascii c) in
  if (48 <=? n) && (n <=? 57) then Some (n - 48) else None.

(** Digits, with single underscores between them. *)
Fixpoint digits (s : string) (acc : Z) (after_digit : bool) : option Z :=
  match s with
  | EmptyString => if after_digit then Some acc else None
  | String c s =>
      match digit_value c with
      | Some d => digits s (acc * 10 + d) true
      | None => if Ascii.eqb c "_" && after_digit then digits s acc false else None
      end
  end.

Fixpoint digit_count (s : string) : Z :=
  match s with
  | EmptyString => 0
  | String c s => (match digit_value c with Some _ => 1 | None => 0 end) + digit_count s
  end.

(** [None] stands for [ValueError]; beyond 4300 digits [int] refuses as well. *)
Definition py_int (s : string) : option Z :=
  let body r := if 4300 <? digit_count r then None else digits r 0 false in
  match strip s with
  | String c r => if Ascii.eqb c "-" then option_map Z.opp (body r)
                  else if Ascii.eqb c "+" then body r
                  else body (String c r)
  | EmptyString => None
  end.

End PyInt.

(** ** Prefixes

    [s.removeprefix(p)] when [p] is one, and [s[n:]]. *)

Definition drop_chars (n : nat) (s : string) : string := String.substring n (String.length s - n) s.

Lemma substring_all (s : string) : String.substring 0 (String.length s) s = s.
Proof. induction s as [|c s IH]; simpl; [done | by rewrite IH]. Qed.

Lemma drop_chars_app (p s : string) : drop_chars (String.length p) (p +:+ s) = s.
Proof.
  unfold drop_chars. rewrite String_length_append.
  replace (String.length p + String.length s - String.length p)%nat with (String.length s) by lia.
  induction p as [|c p IH]; simpl; [apply substring_all | done].
Qed.

Lemma prefix_split (p s : string) : String.prefix p s = true -> s = p +:+ drop_chars (String.length p) s.
Proof.
  intros H. assert (exists t, s = p +:+ t) as [t ->]; [|by rewrite drop_chars_app].
  revert s H. induction p as [|c p IH]; intros s H; [by exists s |].
  destruct s as [|d s]; [done |]. simpl in H. destruct (ascii_dec c d) as [<-|]; [|done].
  destruct (IH s H) as [t ->]. by exists t.
Qed.

Lemma prefix_app_true (p s : string) : String.prefix p (p +:+ s) = true.
Proof.
  induction p as [|c p IH]; [by destruct s |]. simpl. by destruct (ascii_dec c c).
Qed.

(** ** Secrets during a rotation

    Both components accept the current secret and then, in order, the previous ones of
    a comma-separated setting, without repetitions. *)

Module Rotation.

Definition add_secret (secrets_ordered : list string) (secret : string) : list string :=
  let stripped := strip secret in
  if str_truthy stripped && negb (bool_decide (stripped ∈ secrets_ordered)) then secrets_ordered ++ [stripped]
  else secrets_ordered.

Definition secrets_in_order (current : string) (previous_raw : string) : list string :=
  if str_truthy previous_raw then fold_left add_secret (split_on "," previous_raw) [current] else [current].

Lemma add_secret_prefix l s : exists l', add_secret l s = l ++ l'.
Proof. unfold add_secret. case_match; [by eexists | exists []; by rewrite app_nil_r]. Qed.

Lemma add_secret_elem l s x : x ∈ add_secret l s <-> x ∈ l \/ x = strip s /\ str_truthy x = true.
Proof.
  unfold add_secret. case_match eqn:E; bool_to_prop.
  - rewrite elem_of_app, list_elem_of_singleton. naive_solver.
  - split; [by left |]. intros [?|[-> Ht]]; [done |]. rewrite Ht in E. cbn in E.
    apply negb_false_iff, bool_decide_eq_true in E. done.
Qed.

Lemma add_secret_nodup l s : NoDup l -> NoDup (add_secret l s).
Proof.
  intros Hl. unfold add_secret. case_match eqn:E; [|done]. bool_to_prop. apply NoDup_app.
  split_and!; [done | |apply NoDup_singleton]. intros x Hx ->%list_elem_of_singleton. done.
Qed.

(** The current secret comes first, nothing is tried twice, and the rest are the
    non-blank previous ones. *)
Lemma secrets_in_order_spec current raw :
  hd_error (secrets_in_order current raw) = Some current /\ NoDup (secrets_in_order current raw) /\
  forall x, x ∈ secrets_in_order current raw <->
    x = current \/ str_truthy raw = true /\ str_truthy x = true /\ x ∈ map strip (split_on "," raw).
Proof.
  unfold secrets_in_order. destruct (str_truthy raw).
  2: { split; [done |]. split; [apply NoDup_singleton |]. intros x. rewrite list_elem_of_singleton. naive_solver. }
  assert (forall ws l, (exists l', fold_left add_secret ws l = l ++ l') /\
            (NoDup l -> NoDup (fold_left add_secret ws l)) /\
            forall x, x ∈ fold_left add_secret ws l <-> x ∈ l \/ str_truthy x = true /\ x ∈ map strip ws) as H.
  { induction ws as [|w ws IH]; intros l.
    - cbn. split; [exists []; by rewrite app_nil_r |]. set_solver.
    - cbn. destruct (IH (add_secret l w)) as ([l1 E1] & N & M). destruct (add_secret_prefix l w) as [l2 E2].
      split; [exists (l2 ++ l1); rewrite E1, E2; by rewrite <- app_assoc |].
      split; [intros; by apply N, add_secret_nodup |]. intros x. rewrite M, add_secret_elem, elem_of_cons. naive_solver. }
  destruct (H (split_on "," raw) [current]) as ([l' E] & N & M). split; [by rewrite E |].
  split; [apply N, NoDup_singleton |]. intros x. rewrite M, list_elem_of_singleton. naive_solver.
Qed.

End Rotation.

(** ** Tokens *)

Import Dict.

(** The exceptions, by their class: [InvalidSignatureError] is a [DecodeError], and all
    are [InvalidTokenError]s.  [Invalid] is any other one, such as a missing claim. *)
Inductive jwt_error :=
| ExpiredSignatureError
| InvalidSignatureError
| DecodeError
| Invalid (message : string).

Class Jwt := {
  (** The payload, the key, the algorithm. *)
  jwt_encode : dict -> string -> string -> string;
  (** The time, the token, the key, the algorithm accepted, the claims required. *)
  jwt_decode : datetime -> string -> string -> string -> list string -> result jwt_error dict
}.

(** Payloads of distinct keys with strings, integers and nulls, which JSON returns as
    they were. *)
Definition scalar_value (j : json) : bool :=
  match j with JNull | JInt _ | JStr _ => true | _ => false end.

Definition flat (p : dict) : Prop := NoDup p.*1 /\ Forall (fun x => scalar_value x.2 = true) p.

(** A payload whose registered claims are well formed: expiry and issue in seconds,
    a string as subject, no audience and no earliest time. *)
Definition registered (p : dict) (iat exp : Z) : Prop :=
  dict_get "exp" p = Some (JInt exp) /\ dict_get "iat" p = Some (JInt iat) /\
  (exists sub, dict_get "sub" p = Some (JStr sub)) /\ dict_get "aud" p = None /\ dict_get "nbf" p = None /\
  (forall j, dict_get "jti" p = Some j -> exists id, j = JStr id).

Class JwtLaws `{Jwt} := {
  (** A token is accepted with its key until it expires, and then reported expired. *)
  decode_signed now p key alg required iat exp :
    flat p -> registered p iat exp -> iat * 1000000 <= now ->
    Forall (fun c => get_or_none c p <> JNull) required ->
    jwt_decode now (jwt_encode p key alg) key alg required =
      if now <? exp * 1000000 then Ok p else Raise ExpiredSignatureError;
  (** Another key does not verify the signature, which is checked before the claims. *)
  decode_other_key now p key key' alg required :
    flat p -> key <> key' ->
    jwt_decode now (jwt_encode p key alg) key' alg required = Raise InvalidSignatureError
}.

(** ** An instance: the token spells out what it was made from *)

Module PlainJwt.

Fixpoint bits_of (p : positive) : string :=
  match p with
  | xH => EmptyString
  | xO p => String "0" (bits_of p)
  | xI p => String "1" (bits_of p)
  end.

Fixpoint of_bits (s : string) : positive :=
  match s with
  | EmptyString => xH
  | String c s => if Ascii.eqb c "0" then xO (of_bits s) else xI (of_bits s)
  end.

Lemma of_bits_of p : of_bits (bits_of p) = p.
Proof. induction p as [p IH|p IH|]; simpl; [by rewrite IH .. | done]. Qed.

Definition to_scalar (j : json) : option (Z + string) :=
  match j with JInt z => Some (inl z) | JStr s => Some (inr s) | _ => None end.
Definition of_scalar (o : option (Z + string)) : json :=
  match o with Some (inl z) => JInt z | Some (inr s) => JStr s | None => JNull end.

Definition to_pairs (p : dict) : list (string * option (Z + string)) := map (fun x => (x.1, to_scalar x.2)) p.
Definition of_pairs (l : list (string * option (Z + string))) : dict := map (fun x => (x.1, of_scalar x.2)) l.

Definition content : Type := string * string * list (string * option (Z + string)).

Definition encode (p : dict) (key alg : string) : string :=
  bits_of (countable.encode (key, alg, to_pairs p)).

Definition read (token : string) : option content := countable.decode (of_bits token).

Definition claims_valid (now : datetime) (p : dict) : result jwt_error dict :=
  match dict_get "exp" p, dict_get "iat" p with
  | Some (JInt exp), Some (JInt iat) =>
      if now <? iat * 1000000 then Raise (Invalid "The token is not yet valid (iat)")
      else if now <? exp * 1000000 then Ok p else Raise ExpiredSignatureError
  | _, _ => Raise DecodeError
  end.

Definition decode (now : datetime) (token key alg : string) (required : list string) : result jwt_error dict :=
  match read token with
  | None => Raise DecodeError
  | Some (key', alg', l) =>
      if decide (key' = key) then
        if decide (alg' = alg) then
          let p := of_pairs l in
          if forallb (fun c => match get_or_none c p with JNull => false | _ => true end) required then claims_valid now p
          else Raise (Invalid "Token is missing a required claim")
        else Raise (Invalid "The specified alg value is not allowed")
      else Raise InvalidSignatureError
  end.

#[export] Instance plain : Jwt := {| jwt_encode := encode; jwt_decode := decode |}.

Lemma read_encode p key alg : read (encode p key alg) = Some (key, alg, to_pairs p).
Proof. unfold read, encode. rewrite of_bits_of. apply decode_encode. Qed.

Lemma scalars_back p : Forall (fun x => scalar_value x.2 = true) p ->
  of_pairs (to_pairs p) = p.
Proof.
  induction 1 as [|[k j] p Hj _ IH]; [done |]. unfold of_pairs, to_pairs in *. cbn. rewrite IH. f_equal. by destruct j.
Qed.

#[export] Instance laws : JwtLaws.
Proof.
  split.
  - intros now p key alg required iat exp [_ Hf] (He & Hi & _) Hnow Hreq. cbn. unfold decode.
    rewrite read_encode, !decide_True by done. cbn zeta. rewrite scalars_back by done.
    replace (forallb _ required) with true.
    + unfold claims_valid. rewrite He, Hi. by replace (now <? iat * 1000000) with false by lia.
    + symmetry. apply forallb_forall. intros c Hc%list_elem_of_In.
      rewrite Forall_forall in Hreq. specialize (Hreq c Hc). by destruct (get_or_none c p).
  - intros now p key key' alg required _ Hne. cbn. unfold decode. rewrite read_encode.
    by rewrite decide_False by done.
Qed.

End PlainJwt.
