(* ===== verification/InternalAuth.v ===== *)
(** * Service-to-service authentication

    [libs/platform/auth.py]: tokens signed with a shared secret that rotates, the
    optional check of the client certificate, and the dependency of internal
    endpoints with the audit events it emits.

    The environment is an argument; PyJWT is the interface of [Jwt.v]; Python's
    text of a decoded value or an exception and pydantic's lax integers are parameters. *)

From S2P Require Import Prelude Incidents Jwt.

Module InternalAuth.
Import Jwt.Dict.

(** ** Constants and environment *)

Definition _ISSUER : string := "api-observatory".
Definition _TOKEN_TTL_SECONDS : Z := 60.
Definition _ALGORITHM : string := "HS256".
Definition _MIN_TOKEN_TTL_SECONDS : Z := 30.
Definition _MAX_TOKEN_TTL_SECONDS : Z := 300.

Record environ := Environ {
  INTERNAL_JWT_SECRET : option string;
  INTERNAL_JWT_SECRET_PREVIOUS : option string;
  INTERNAL_JWT_TTL_SECONDS : option string;
  INTERNAL_MTLS_ENABLED : option string;
  INTERNAL_MTLS_ALLOWED_SUBJECTS : option string
}.

(** ** Audit events *)

Record audit_event := AuditEvent {
  event_type : string;
  action : string;
  decision : string;
  actor_type : string;
  actor_id : option string;
  tenant_id : option Z;
  reason : option string;
  metadata_json : option dict
}.

(** What reaches the emitter, when there is one; its failures are swallowed. *)
Definition _emit_security_audit_event (emitter : bool) (e : audit_event) : list audit_event :=
  if emitter then [e] else [].

(** ** Secrets and lifetime *)

Inductive auth_error :=
| RuntimeError
| JwtError (e : jwt_error)
| ValidationError.

Definition _get_secret (env : environ) : result auth_error string :=
  match INTERNAL_JWT_SECRET env with
  | Some secret => if str_truthy secret then Ok secret else Raise RuntimeError
  | None => Raise RuntimeError
  end.

Definition _verification_secrets (env : environ) : result auth_error (list string) :=
  bind_result (_get_secret env) (fun secret =>
  Ok (Rotation.secrets_in_order secret (or_else (INTERNAL_JWT_SECRET_PREVIOUS env) ""))).

Definition _token_ttl_seconds (env : environ) : Z :=
  match INTERNAL_JWT_TTL_SECONDS env with
  | None => _TOKEN_TTL_SECONDS
  | Some raw_value =>
      match PyInt.py_int raw_value with
      | None => _TOKEN_TTL_SECONDS
      | Some parsed =>
          if parsed <? _MIN_TOKEN_TTL_SECONDS then _MIN_TOKEN_TTL_SECONDS
          else if _MAX_TOKEN_TTL_SECONDS <? parsed then _MAX_TOKEN_TTL_SECONDS
          else parsed
      end
  end.

(** ** Claims *)

Record ServiceClaims := Claims {
  sub : string;
  iss : string;
  exp : Z;
  iat : Z;
  mtls_subject : option string
}.

Section Auth.
Context {J : Jwt}.
(** [str] of a decoded value that is no string, [str] of an exception, and what pydantic
    makes of a value that is no integer where an [int] is declared. *)
Context (str_of : json -> string) (str_of_exception : jwt_error -> string) (lax_int : json -> option Z).

Definition to_str (j : json) : string := match j with JStr s => s | _ => str_of j end.

(** [ServiceClaims(payload)]. *)
Definition parse_claims (payload : dict) : result auth_error ServiceClaims :=
  let str k := match dict_get k payload with Some (JStr s) => Some s | _ => None end in
  let int k := match dict_get k payload with
               | Some (JInt z) => Some z
               | Some j => lax_int j
               | None => None
               end in
  let subject := match dict_get "mtls_subject" payload with
                 | None | Some JNull => Some None
                 | Some (JStr s) => Some (Some s)
                 | Some _ => None
                 end in
  match str "sub", str "iss", int "exp", int "iat", subject with
  | Some sub, Some iss, Some exp, Some iat, Some subject => Ok (Claims sub iss exp iat subject)
  | _, _, _, _, _ => Raise ValidationError
  end.

(** ** Tokens *)

Definition token_payload (now : datetime) (ttl_seconds : Z) (service_name : string) : dict :=
  [("iss", JStr _ISSUER); ("sub", JStr service_name); ("iat", JInt (now / 1000000));
   ("exp", JInt ((now + seconds ttl_seconds) / 1000000))].

Definition generate_internal_token (env : environ) (now : datetime) (service_name : string)
    : result auth_error string :=
  let payload := token_payload now (_token_ttl_seconds env) service_name in
  bind_result (_get_secret env) (fun secret => Ok (jwt_encode payload secret _ALGORITHM)).

(** The loop over the secrets: the payload, or the error of the last secret tried. *)
Fixpoint decode_with (now : datetime) (token : string) (secrets : list string) (last_error : option jwt_error)
    : result jwt_error dict :=
  match secrets with
  | [] => Raise (or_else last_error (Invalid "Unable to verify internal token"))
  | secret :: secrets =>
      match jwt_decode now token secret _ALGORITHM ["iss"; "sub"; "exp"; "iat"] with
      | Ok payload => Ok payload
      | Raise ExpiredSignatureError => Raise ExpiredSignatureError
      | Raise exc => decode_with now token secrets (Some exc)
      end
  end.

Definition verify_internal_token (env : environ) (now : datetime) (token : string)
    : result auth_error ServiceClaims :=
  bind_result (_verification_secrets env) (fun secrets =>
  match decode_with now token secrets None with
  | Raise e => Raise (JwtError e)
  | Ok payload =>
      let issuer := get_or_none "iss" payload in
      if match issuer with JStr s => bool_decide (s = _ISSUER) | _ => false end then parse_claims payload
      else Raise (JwtError (Invalid ("Invalid issuer: expected '" +:+ _ISSUER +:+ "', got '" +:+ to_str issuer +:+ "'")))
  end).

(** ** Client certificates *)

Definition _env_enabled (value : option string) : bool :=
  bool_decide (lower (strip (or_else value "")) ∈ ["1"; "true"; "yes"; "on"]).

Definition _get_allowed_mtls_subjects (env : environ) : list string :=
  omap (fun item => if str_truthy (strip item) then Some (strip item) else None)
    (split_on "," (or_else (INTERNAL_MTLS_ALLOWED_SUBJECTS env) "")).

Definition _require_mtls (env : environ) (client_cert_verified client_cert_subject : option string)
    : result Incidents.HTTPException (option string) :=
  if negb (_env_enabled (INTERNAL_MTLS_ENABLED env)) then Ok None
  else
    let allowed_subjects := _get_allowed_mtls_subjects env in
    if match allowed_subjects with [] => true | _ => false end then
      Raise (Incidents.HTTP 503 "Internal mTLS is enabled but no client certificate allowlist is configured")
    else if negb (bool_decide (client_cert_verified = Some "SUCCESS")) then
      Raise (Incidents.HTTP 401 "Verified client certificate required for internal endpoint")
    else if negb (opt_str_truthy client_cert_subject) then
      Raise (Incidents.HTTP 401 "Missing client certificate subject for internal endpoint")
    else if negb (bool_decide (or_else client_cert_subject "" ∈ allowed_subjects)) then
      Raise (Incidents.HTTP 403 "Client certificate subject is not authorized for internal endpoint")
    else Ok client_cert_subject.

(** ** The dependency of internal endpoints *)

Inductive failure :=
| Http (e : Incidents.HTTPException)
| Unhandled (e : auth_error).

Definition denied (action reason : string) (actor_id : option string) (metadata_json : option dict) : audit_event :=
  AuditEvent "auth.internal" action "deny" "service" actor_id None (Some reason) metadata_json.

Definition allowed (actor_id : string) (metadata_json : dict) : audit_event :=
  AuditEvent "auth.internal" "verify_token" "allow" "service" (Some actor_id) None None (Some metadata_json).

Definition json_str (o : option string) : json := json_opt JStr o.

Definition require_internal_auth (emitter : bool) (env : environ) (now : datetime)
    (authorization client_cert_verified client_cert_subject : option string)
    : result failure ServiceClaims * list audit_event :=
  let emit := _emit_security_audit_event emitter in
  let refused action reason detail :=
    (Raise (Http (Incidents.HTTP 401 detail)), emit (denied action reason None None)) in
  match authorization with
  | None => refused "verify_token" "missing_authorization_header" "Missing Authorization header for internal endpoint"
  | Some authorization =>
      if negb (String.prefix "Bearer " authorization) then
        refused "verify_token" "invalid_auth_scheme" "Authorization header must use Bearer scheme"
      else
        let raw_token := drop_chars 7 authorization in
        match verify_internal_token env now raw_token with
        | Raise (JwtError ExpiredSignatureError) =>
            refused "verify_token" "token_expired" "Internal token has expired"
        | Raise (JwtError exc) =>
            (Raise (Http (Incidents.HTTP 401 "Invalid internal token")),
             emit (denied "verify_token" "invalid_token" None (Some [("error", JStr (str_of_exception exc))])))
        | Raise e => (Raise (Unhandled e), [])
        | Ok claims =>
            match _require_mtls env client_cert_verified client_cert_subject with
            | Raise (Incidents.HTTP code detail) =>
                (Raise (Http (Incidents.HTTP code detail)),
                 emit (denied "mtls_check" detail (Some (sub claims))
                   (Some [("client_cert_verified", json_str client_cert_verified);
                          ("client_cert_subject", json_str client_cert_subject)])))
            | Ok None => (Ok claims, emit (allowed (sub claims) [("mtls_enabled", JBool false)]))
            | Ok (Some subject) =>
                (Ok (Claims (sub claims) (iss claims) (exp claims) (iat claims) (Some subject)),
                 emit (allowed (sub claims) [("mtls_enabled", JBool true); ("mtls_subject", JStr subject)]))
            end
        end
  end.

End Auth.
End InternalAuth.

(** ** Theorems *)

Module InternalAuthTheorems.
Import Jwt.Dict InternalAuth.

Section facts.
Context `{L : JwtLaws}.
Context (str_of : json -> string) (str_of_exception : jwt_error -> string) (lax_int : json -> option Z).

#[local] Abbreviation verify := (verify_internal_token str_of lax_int) (only parsing).
#[local] Abbreviation require := (require_internal_auth str_of str_of_exception lax_int) (only parsing).

Lemma ttl_bounds env : _MIN_TOKEN_TTL_SECONDS <= _token_ttl_seconds env <= _MAX_TOKEN_TTL_SECONDS.
Proof.
  unfold _token_ttl_seconds, _TOKEN_TTL_SECONDS, _MIN_TOKEN_TTL_SECONDS, _MAX_TOKEN_TTL_SECONDS.
  repeat case_match; bool_to_prop; lia.
Qed.

Lemma token_payload_ok now ttl service :
  flat (token_payload now ttl service) /\
  registered (token_payload now ttl service) (now / 1000000) (now / 1000000 + ttl) /\
  Forall (fun c => get_or_none c (token_payload now ttl service) <> JNull) ["iss"; "sub"; "exp"; "iat"].
Proof.
  unfold token_payload. replace ((now + seconds ttl) / 1000000) with (now / 1000000 + ttl)
    by (unfold seconds; rewrite Z.div_add; lia).
  split; [|split].
  - split; [apply (bool_decide_unpack _); by vm_compute | by repeat constructor].
  - unfold registered. cbn. split_and!; try done. by eexists.
  - by repeat constructor.
Qed.

(** Trying the secrets finds the one that signed, and only that one. *)
Lemma decode_with_signed t payload key iat exp keys last :
  flat payload -> registered payload iat exp -> iat * 1000000 <= t ->
  Forall (fun c => get_or_none c payload <> JNull) ["iss"; "sub"; "exp"; "iat"] ->
  decode_with t (jwt_encode payload key _ALGORITHM) keys last =
    if bool_decide (key ∈ keys) then (if t <? exp * 1000000 then Ok payload else Raise ExpiredSignatureError)
    else match keys with
         | [] => Raise (or_else last (Invalid "Unable to verify internal token"))
         | _ => Raise InvalidSignatureError
         end.
Proof.
  intros Hf Hr Ht Hreq. revert last. induction keys as [|k keys IH]; intros last; [done |]. cbn [decode_with].
  destruct (decide (key = k)) as [Hk|Hk].
  - subst k. rewrite (decode_signed t payload key _ALGORITHM _ iat exp) by done.
    rewrite bool_decide_true by set_solver. by destruct (t <? exp * 1000000).
  - rewrite decode_other_key by done. rewrite IH.
    replace (bool_decide (key ∈ k :: keys)) with (bool_decide (key ∈ keys)) by (apply bool_decide_ext; set_solver).
    destruct (bool_decide _); [done |]. by destruct keys.
Qed.

(** C19: A token made by one service is accepted by another exactly when the signing
    secret is among those the other accepts, current or previous, and until it expires,
    with the caller's name and the times it was made with; the lifetime is between 30
    and 300 seconds whatever the environment asks for. *)
Theorem internal_token_round_trip signer verifier now t service key keys :
  _get_secret signer = Ok key -> _verification_secrets verifier = Ok keys -> now <= t ->
  exists token, generate_internal_token signer now service = Ok token /\
  let ttl := _token_ttl_seconds signer in
  30 <= ttl <= 300 /\
  verify verifier t token =
    if bool_decide (key ∈ keys) then
      if t <? (now / 1000000 + ttl) * 1000000
      then Ok (Claims service _ISSUER (now / 1000000 + ttl) (now / 1000000) None)
      else Raise (JwtError ExpiredSignatureError)
    else Raise (JwtError InvalidSignatureError).
Proof.
  intros Hk Hks Ht. unfold generate_internal_token. rewrite Hk. eexists. split; [done |].
  split; [apply ttl_bounds |]. unfold verify_internal_token. rewrite Hks. cbn [bind_result].
  destruct (token_payload_ok now (_token_ttl_seconds signer) service) as (Hf & Hr & Hreq).
  rewrite (decode_with_signed _ _ _ (now / 1000000) (now / 1000000 + _token_ttl_seconds signer)) by
    (try done; pose proof (Z.mod_pos_bound now 1000000); pose proof (Z.div_mod now 1000000); lia).
  destruct (bool_decide (key ∈ keys)).
  - destruct (t <? _); [|done]. unfold token_payload, parse_claims. cbn.
    f_equal. f_equal. unfold seconds. rewrite Z.div_add; lia.
  - destruct keys as [|k keys]; [|done]. unfold _verification_secrets in Hks.
    destruct (_get_secret verifier) as [c|]; [|done]. injection Hks as Hks.
    destruct (Rotation.secrets_in_order_spec c (or_else (INTERNAL_JWT_SECRET_PREVIOUS verifier) "")) as [Hh _].
    by rewrite Hks in Hh.
Qed.

(** Which client certificates pass. *)
Lemma require_mtls_ok env v s o :
  _require_mtls env v s = Ok o <->
  (_env_enabled (INTERNAL_MTLS_ENABLED env) = false /\ o = None \/
   _env_enabled (INTERNAL_MTLS_ENABLED env) = true /\ v = Some "SUCCESS" /\ o = s /\
   exists x, s = Some x /\ str_truthy x = true /\ x ∈ _get_allowed_mtls_subjects env).
Proof.
  unfold _require_mtls. destruct (_env_enabled _); cbn [negb].
  2: { split; [intros [= <-]; by left | by intros [[_ ->]|[? _]]]. }
  split.
  - repeat (case_match; try done). intros [= <-]. right. bool_to_prop. split_and!; try done.
    destruct s as [x|]; [|done]. simplify_eq. exists x. by split_and!.
  - intros [[? _]|(_ & -> & -> & x & -> & Hx & Hin)]; [done |]. cbn [opt_str_truthy or_else]. rewrite Hx.
    rewrite !bool_decide_true by done. destruct (_get_allowed_mtls_subjects env); [by apply elem_of_nil in Hin | done].
Qed.

(** An internal endpoint admits a caller exactly when the header carries a token
    that verifies and, where client certificates are required, the proxy reports a
    verified one whose subject is on the list.  Every decision is audited once, as
    allowed with the caller's name or as denied; only a missing secret or a malformed
    payload leaves the dependency without an answer. *)
Theorem internal_auth_decisions emitter env now authorization v s :
  let '(r, events) := require emitter env now authorization v s in
  match r with
  | Ok c => exists token c0 o, authorization = Some ("Bearer " +:+ token) /\ verify env now token = Ok c0 /\
      _require_mtls env v s = Ok o /\
      sub c = sub c0 /\ iss c = iss c0 /\ exp c = exp c0 /\ iat c = iat c0 /\
      (_env_enabled (INTERNAL_MTLS_ENABLED env) = true ->
        v = Some "SUCCESS" /\ mtls_subject c = s /\ exists x, s = Some x /\ x ∈ _get_allowed_mtls_subjects env) /\
      exists e, events = _emit_security_audit_event emitter e /\ decision e = "allow" /\ actor_id e = Some (sub c)
  | Raise (Http (Incidents.HTTP code _)) => code ∈ [401; 403; 503] /\
      exists e, events = _emit_security_audit_event emitter e /\ decision e = "deny"
  | Raise (Unhandled e) => events = [] /\ (e = RuntimeError \/ e = ValidationError)
  end.
Proof.
  unfold require_internal_auth.
  destruct authorization as [authorization|]; [|split; [set_solver | by eexists]].
  destruct (String.prefix "Bearer " authorization) eqn:Ep; cbn [negb]; [|split; [set_solver | by eexists]].
  apply prefix_split in Ep. change (String.length "Bearer ") with 7%nat in Ep.
  destruct (verify env now (drop_chars 7 authorization)) as [c0|[|[| | |]|]] eqn:Ev;
    try (split; [done | naive_solver]); try (split; [set_solver | by eexists]).
  destruct (_require_mtls env v s) as [o|[code detail]] eqn:Em.
  - pose proof (proj1 (require_mtls_ok env v s o) Em) as Ho.
    assert (_env_enabled (INTERNAL_MTLS_ENABLED env) = true -> v = Some "SUCCESS" /\ o = s /\
              exists x, s = Some x /\ x ∈ _get_allowed_mtls_subjects env) as Hmtls.
    { intros He. destruct Ho as [[? _]|(_ & ? & ? & x & ? & _ & ?)]; [congruence | by eauto]. }
    destruct o as [x|]; (eexists (drop_chars 7 authorization), c0, _; split_and!;
      [by f_equal | exact Ev | reflexivity | done | done | done | done | | by eexists]); [exact Hmtls |].
    intros He. destruct (Hmtls He) as (_ & <- & x & ? & _). done.
  - split; [|by eexists]. revert Em. unfold _require_mtls. repeat (case_match; try done); intros [= <- _]; set_solver.
Qed.

End facts.
End InternalAuthTheorems.

Module InternalAuthWitnesses.
Import InternalAuth InternalAuthTheorems.
#[local] Existing Instance PlainJwt.plain.
#[local] Existing Instance PlainJwt.laws.

Definition old_env : environ := Environ (Some "s1") None (Some "5") None None.
Definition rotated_env : environ := Environ (Some "s2") (Some "s0, s1 ,s2") None None None.

(** A token signed before a rotation is still accepted after it, for 30 seconds. *)
Lemma internal_token_round_trip_witness :
  exists token, generate_internal_token old_env 1000000 "ingestor" = Ok token /\
    verify_internal_token (fun _ => "") (fun _ => None) rotated_env 30999999 token =
      Ok (Claims "ingestor" "api-observatory" 31 1 None).
Proof.
  destruct (internal_token_round_trip (fun _ => "") (fun _ => None) old_env rotated_env 1000000 30999999 "ingestor"
              "s1" ["s2"; "s0"; "s1"] eq_refl eq_refl ltac:(lia)) as (token & Hg & _ & Hv).
  exists token. split; [exact Hg | exact Hv].
Defined.

Definition mtls_env : environ := Environ (Some "s1") None None (Some "yes") (Some "ingestor-cert, admin-cert").

(** With client certificates required, a valid token is not enough: the certificate's
    subject has to be on the list too. *)
Lemma internal_auth_decisions_witness :
  exists token, generate_internal_token mtls_env 1000000 "ingestor" = Ok token /\
    let require := require_internal_auth (fun _ => "") (fun _ => "") (fun _ => None) true mtls_env 2000000
                     (Some ("Bearer " +:+ token)) (Some "SUCCESS") in
    (exists c events, require (Some "admin-cert") = (Ok c, events) /\
      mtls_subject c = Some "admin-cert" /\ length events = 1%nat) /\
    (exists detail events, require (Some "other") = (Raise (Http (Incidents.HTTP 403 detail)), events) /\
      length events = 1%nat).
Proof.
  eexists. split; [vm_compute; reflexivity |]. cbn zeta.
  match goal with |- context [require_internal_auth ?a ?b ?c ?d ?e ?f ?g ?h (Some "admin-cert")] =>
    pose proof (internal_auth_decisions a b c d e f g h (Some "admin-cert")) as Hd end.
  split; [|eexists _, _; split; vm_compute; reflexivity].
  destruct (require_internal_auth _ _ _ _ _ _ _ _ (Some "admin-cert")) as [[c|e] events] eqn:Er;
    [|vm_compute in Er; discriminate].
  destruct Hd as (_ & _ & _ & _ & _ & _ & _ & _ & _ & _ & Hm & _).
  exists c, events. split_and!; [done | apply Hm; reflexivity |]. vm_compute in Er. by injection Er as _ <-.
Defined.

End InternalAuthWitnesses.
