(* ===== verification/UserAuth.v ===== *)
(** * Users' tokens, roles and tenants

    [services/ingestor/core/auth.py] and [core/tenant.py] with the policy files of
    [core/security/]: Module [Tokens] makes and checks the tokens, [Roles] decides with
    the Casbin policy and the session roles, [Tenant] puts the tenant and the role of
    a request into its context.

    PyJWT is the interface of [Jwt.v].  Of Casbin the model and the policy are read from
    the files; its role manager ([g], and the roles of a user) is a parameter. *)

From S2P Require Import Prelude Incidents Jwt InternalAuth.

Module Tokens.
Import Jwt.Dict.
Export InternalAuth(audit_event(..)).

Record Settings := SettingsOf {
  jwt_secret : string;
  jwt_previous_secrets : string;
  jwt_algorithm : string;
  jwt_expiry_minutes : Z;
  jwt_refresh_ttl_days : Z;
  app_name : string;
  api_v1_bearer_token : option string;
  superadmin_subject : string
}.

(** [Unhandled]: an exception that the function lets pass. *)
Inductive failure :=
| Http (e : Incidents.HTTPException)
| Unhandled.

Definition unauthorized {A} (detail : string) : result failure A := Raise (Http (Incidents.HTTP 401 detail)).

(** [s.partition(" ")] without the separator. *)
Fixpoint partition_space (s : string) : string * string :=
  match s with
  | EmptyString => (EmptyString, EmptyString)
  | String c s =>
      if Ascii.eqb c " " then (EmptyString, s)
      else let '(scheme, credentials) := partition_space s in (String c scheme, credentials)
  end.

(** [int(j)]; [None] where it raises. *)
Definition to_int (j : json) : option Z :=
  match j with
  | JInt z => Some z
  | JBool b => Some (if b then 1 else 0)
  | JFloat q => Some (Z.quot (Qnum q) (Zpos (Qden q)))
  | JStr s => PyInt.py_int s
  | JNull | JList _ | JObj _ => None
  end.

Definition is_none (j : json) : bool := match j with JNull => true | _ => false end.

Definition _jwt_verification_secrets (s : Settings) : list string :=
  Rotation.secrets_in_order (jwt_secret s) (jwt_previous_secrets s).

Section Tokens.
Context {J : Jwt} (str_of : json -> string).

Definition to_str (j : json) : string := match j with JStr s => s | _ => str_of j end.

(** ** Checking *)

Fixpoint decode_loop (s : Settings) (now : datetime) (token : string) (secrets : list string)
    (saw_invalid_signature : bool) : result jwt_error dict :=
  match secrets with
  | [] => Raise (if saw_invalid_signature then InvalidSignatureError else DecodeError)
  | secret :: secrets =>
      match jwt_decode now token secret (jwt_algorithm s) [] with
      | Raise InvalidSignatureError => decode_loop s now token secrets true
      | r => r
      end
  end.

Definition decode_jwt_claims (s : Settings) (now : datetime) (token : string) : result jwt_error dict :=
  decode_loop s now token (_jwt_verification_secrets s) false.

Definition jwt_event (decision source : string) (actor_id : option string) (tenant_id : option Z)
    (reason : option string) : audit_event :=
  AuditEvent "auth.jwt" "verify_token" decision "user" actor_id tenant_id reason
    (Some [("source", JStr source)]).

(** What a decoded token leads to: the tenant context is set when the claim is truthy;
    the event needs the claim as an integer when there is one. *)
Definition accept_payload (emitter : bool) (source : string) (payload : dict) (tenant_context : option Z)
    : result failure dict * option Z * list audit_event :=
  let tenant_id := get_or_none "tenant_id" payload in
  let context := if truthy tenant_id then option_map Some (to_int tenant_id) else Some tenant_context in
  match context with
  | None => (Raise Unhandled, tenant_context, [])
  | Some context =>
      let sub := get_or_none "sub" payload in
      let actor_id := if truthy sub then Some (to_str sub) else None in
      if is_none tenant_id then
        (Ok payload, context,
         InternalAuth._emit_security_audit_event emitter (jwt_event "allow" source actor_id None None))
      else
        match to_int tenant_id with
        | None => (Raise Unhandled, context, [])
        | Some t => (Ok payload, context,
                     InternalAuth._emit_security_audit_event emitter (jwt_event "allow" source actor_id (Some t) None))
        end
  end.

Fixpoint verify_loop (emitter : bool) (source : string) (s : Settings) (now : datetime) (token : string)
    (secrets : list string) (saw_invalid_signature : bool) (tenant_context : option Z)
    : result failure dict * option Z * list audit_event :=
  match secrets with
  | [] => (unauthorized (if saw_invalid_signature then "Invalid token signature" else "Invalid token"),
           tenant_context, [])
  | secret :: secrets =>
      match jwt_decode now token secret (jwt_algorithm s) [] with
      | Ok payload => accept_payload emitter source payload tenant_context
      | Raise ExpiredSignatureError =>
          (unauthorized "Token expired", tenant_context,
           InternalAuth._emit_security_audit_event emitter (jwt_event "deny" source None None (Some "token_expired")))
      | Raise InvalidSignatureError => verify_loop emitter source s now token secrets true tenant_context
      | Raise DecodeError => (unauthorized "Invalid token format", tenant_context, [])
      | Raise (Invalid _) => (Raise Unhandled, tenant_context, [])
      end
  end.

Definition verify_jwt_token (emitter : bool) (s : Settings) (now : datetime) (authorization : option string)
    (tenant_context : option Z) : result failure dict * option Z * list audit_event :=
  if negb (opt_str_truthy authorization) then (unauthorized "Missing Authorization header", tenant_context, [])
  else
    let '(scheme, credentials) := partition_space (or_else authorization "") in
    if negb (bool_decide (lower scheme = "bearer")) then
      (unauthorized "Invalid authentication scheme. Use: Authorization: Bearer <token>", tenant_context, [])
    else verify_loop emitter "http_header" s now credentials (_jwt_verification_secrets s) false tenant_context.

Definition verify_jwt_token_str (emitter : bool) (s : Settings) (now : datetime) (token : string)
    (tenant_context : option Z) : result failure dict * option Z * list audit_event :=
  verify_loop emitter "websocket" s now token (_jwt_verification_secrets s) false tenant_context.

(** ** Making *)

Definition create_jwt_token (s : Settings) (now : datetime) (sub : string) (custom_claims : option dict) : string :=
  let claims := or_else custom_claims [] in
  let expires_at := now + seconds (jwt_expiry_minutes s * 60) in
  let payload := dict_update
    [("sub", JStr sub); ("iat", JInt (now / 1000000)); ("exp", JInt (expires_at / 1000000));
     ("iss", JStr (app_name s)); ("tenant_id", get_or_none "tenant_id" claims)] claims in
  jwt_encode payload (jwt_secret s) (jwt_algorithm s).

(** [jti] is a fresh UUID. *)
Definition create_refresh_token (s : Settings) (now : datetime) (jti sub : string) (custom_claims : option dict)
    : string :=
  let claims := or_else custom_claims [] in
  let expires_at := now + days (jwt_refresh_ttl_days s) in
  let payload := dict_update
    [("sub", JStr sub); ("iat", JInt (now / 1000000)); ("exp", JInt (expires_at / 1000000));
     ("iss", JStr (app_name s)); ("jti", JStr jti); ("token_type", JStr "refresh");
     ("tenant_id", get_or_none "tenant_id" claims)] claims in
  jwt_encode payload (jwt_secret s) (jwt_algorithm s).

Fixpoint refresh_loop (s : Settings) (now : datetime) (token : string) (secrets : list string)
    (saw_invalid_signature : bool) : result failure dict :=
  match secrets with
  | [] => unauthorized (if saw_invalid_signature then "Invalid refresh token signature" else "Invalid refresh token")
  | secret :: secrets =>
      match jwt_decode now token secret (jwt_algorithm s) [] with
      | Raise ExpiredSignatureError => unauthorized "Refresh token expired"
      | Raise InvalidSignatureError => refresh_loop s now token secrets true
      | Raise DecodeError => unauthorized "Invalid refresh token format"
      | Raise (Invalid _) => Raise Unhandled
      | Ok payload =>
          if match get_or_none "token_type" payload with JStr t => bool_decide (t = "refresh") | _ => false end
          then Ok payload
          else unauthorized "Not a refresh token"
      end
  end.

Definition verify_refresh_token (s : Settings) (now : datetime) (token : string) : result failure dict :=
  refresh_loop s now token (_jwt_verification_secrets s) false.

(** ** Sessions and the static bearer token *)

(** [session_id] is a fresh UUID; nothing is stored. *)
Definition create_session (session_id : string) : string * string := (session_id, session_id).

Definition verify_session (session_id : option string) : result failure dict :=
  if negb (opt_str_truthy session_id) then unauthorized "Missing session cookie"
  else Ok [("session_id", JStr (or_else session_id ""))].

Definition verify_bearer_token (s : Settings) (authorization : option string) : result failure string :=
  if negb (opt_str_truthy (api_v1_bearer_token s)) then Ok "public"
  else if negb (opt_str_truthy authorization) then unauthorized "Missing Authorization header"
  else
    let '(scheme, credentials) := partition_space (or_else authorization "") in
    if negb (bool_decide (lower scheme = "bearer")) then
      unauthorized "Invalid authentication scheme. Use: Authorization: Bearer <token>"
    else if negb (bool_decide (Some credentials = api_v1_bearer_token s)) then
      Raise (Http (Incidents.HTTP 403 "Invalid bearer token"))
    else Ok credentials.

End Tokens.
End Tokens.

(** ** Roles *)

Module Roles.
Import Jwt.Dict Tokens.

Definition DEFAULT_ROLE : string := "user".

Definition _ROLE_PRIORITY (role : string) : Z :=
  if decide (role = "admin") then 3 else if decide (role = "manager") then 2
  else if decide (role = "user") then 1 else 0.

(** [max(roles, key=...)]: the first of the greatest; [roles] is the set in the order
    in which it is iterated. *)
Fixpoint max_by (key : string -> Z) (best : string) (l : list string) : string :=
  match l with
  | [] => best
  | x :: l => max_by key (if key best <? key x then x else best) l
  end.

Definition resolve_effective_role (roles : list string) : string :=
  match roles with
  | [] => DEFAULT_ROLE
  | r :: roles => max_by (fun role => _ROLE_PRIORITY (lower role)) r roles
  end.

Definition is_superuser (s : Settings) (subject : string) : bool :=
  str_truthy subject && bool_decide (subject = superadmin_subject s).

(** *** The Casbin model and policy *)

Record policy := Policy { p_sub : string; p_dom : string; p_obj : string; p_act : string }.

(** The [p] lines. *)
Definition casbin_policy : list policy :=
  [Policy "user" "*" "*" "access"; Policy "manager" "*" "*" "access"; Policy "admin" "*" "*" "access"].

(** The matcher of the model, on a request and a policy line. *)
Definition matcher (g : string -> string -> string -> bool) (s : Settings) (sub dom obj act : string) (p : policy)
    : bool :=
  is_superuser s sub
  || (g sub (p_sub p) dom
      && (bool_decide (p_dom p = "*") || bool_decide (p_dom p = dom))
      && (bool_decide (p_obj p = "*") || bool_decide (p_obj p = obj))
      && (bool_decide (p_act p = "*") || bool_decide (p_act p = act))).

(** The policy effect: some matching line allows. *)
Definition enforce (g : string -> string -> string -> bool) (s : Settings) (sub dom obj act : string) : bool :=
  existsb (matcher g s sub dom obj act) casbin_policy.

Section Guards.
Context (str_of : json -> string) (g : string -> string -> string -> bool).

Definition subject_of (claims : dict) : string :=
  let sub := get_or_none "sub" claims in if truthy sub then to_str str_of sub else "".

Definition domain_of (claims : dict) : string :=
  match get_or_none "tenant_id" claims with
  | JNull => "*"
  | JInt t => str_of_Z t
  | j => to_str str_of j
  end.

Definition forbidden {A} : result failure A := Raise (Http (Incidents.HTTP 403 "Insufficient role permissions")).

Definition casbin_guard (emitter : bool) (s : Settings) (required_roles : list string) (claims : dict)
    : result failure dict * list audit_event :=
  let normalized_required := map lower required_roles in
  let sub := subject_of claims in
  if is_superuser s sub then
    (Ok claims, InternalAuth._emit_security_audit_event emitter
       (AuditEvent "authz.sudo" "authorize" "allow" "superadmin" (Some sub)
          (to_int (get_or_none "tenant_id" claims)) None
          (Some [("required_roles", JList (map JStr normalized_required))])))
  else if existsb (fun role => enforce g s sub (domain_of claims) role "access") normalized_required
  then (Ok claims, [])
  else (forbidden, []).

Definition session_role_guard (required_roles : list string) (session : dict) : result failure dict :=
  let normalized_required := map lower required_roles in
  let session_roles := match dict_get "roles" session with
                       | Some (JList raw_roles) => map (fun role => lower (to_str str_of role)) raw_roles
                       | _ => []
                       end in
  let role := get_or_none "role" session in
  let session_roles := if truthy role then lower (to_str str_of role) :: session_roles else session_roles in
  if existsb (fun r => bool_decide (r ∈ session_roles)) normalized_required then Ok session else forbidden.

(** A session endpoint: the cookie is verified, then the guard decides. *)
Definition session_endpoint (required_roles : list string) (cookie : option string) : result failure dict :=
  bind_result (verify_session cookie) (session_role_guard required_roles).

End Guards.

(** *** Role rules

    The enforcer's grouping rules and the rows of its table: a new rule is saved as
    a row; [assign_user_role] inserts one more itself. *)
Record casbin := Casbin {
  rules : list (string * string * string);
  casbin_rule : list (string * string * string)
}.

Definition add_role_for_user_in_domain (username role domain : string) (c : casbin) : casbin :=
  if decide ((username, role, domain) ∈ rules c) then c
  else Casbin (rules c ++ [(username, role, domain)]) (casbin_rule c ++ [(username, role, domain)]).

Definition role_domain (tenant_id : option Z) : string :=
  match tenant_id with Some t => str_of_Z t | None => "*" end.

Definition assign_user_role (username role : string) (tenant_id : option Z) (c : casbin) : casbin :=
  let domain := role_domain tenant_id in
  let c := add_role_for_user_in_domain username role domain c in
  Casbin (rules c) (casbin_rule c ++ [(username, role, domain)]).

Section Queries.
(** [get_roles_for_user_in_domain] of the role manager. *)
Context (get_roles : list (string * string * string) -> string -> string -> list string).

Definition get_user_roles_in_domain (username : string) (tenant_id : option Z) (c : casbin) : list string :=
  get_roles (rules c) username (role_domain tenant_id).

Definition has_role_in_domain (username role : string) (tenant_id : option Z) (c : casbin) : bool :=
  bool_decide (lower role ∈ get_user_roles_in_domain username tenant_id c).

End Queries.
End Roles.

(** ** Tenants *)

Module Tenant.
Import Jwt.Dict Tokens Roles.

(** The two context variables. *)
Record context := Ctx { tenant_context : option Z; role_context : option string }.

Definition get_tenant_id (c : context) : option Z := tenant_context c.
Definition get_user_role (c : context) : option string := role_context c.

Section Tenant.
Context {J : Jwt} (str_of : json -> string).
Context (get_roles : string -> string -> list string).

(** [None]: an exception.  A role claim that is not a string is no role. *)
Definition resolve_tenant_from_jwt (s : Settings) (now : datetime) (token_str : string)
    : option (option Z * option string) :=
  match decode_jwt_claims s now token_str with
  | Raise _ => None
  | Ok payload =>
      let claim := get_or_none "tenant_id" payload in
      let sub := get_or_none "sub" payload in
      match (if is_none claim then Some None else option_map Some (to_int claim)) with
      | None => None
      | Some tenant_id =>
          if is_superuser s (match sub with JStr x => x | _ => "" end) then Some (tenant_id, Some "admin")
          else if truthy sub then
            match tenant_id with
            | Some t =>
                let casbin_roles := get_roles (to_str str_of sub) (str_of_Z t) in
                Some (tenant_id, match casbin_roles with
                                 | [] => None
                                 | _ => Some (resolve_effective_role casbin_roles)
                                 end)
            | None => Some (tenant_id, match get_or_none "role" payload with JStr r => Some r | _ => None end)
            end
          else Some (tenant_id, None)
      end
  end.

(** What the middleware puts into the context: from the bearer token, or else from the
    [X-Tenant-ID] header. *)
Definition request_context (s : Settings) (now : datetime) (authorization x_tenant_id : option string) : context :=
  let auth_header := or_else authorization "" in
  if str_truthy auth_header && String.prefix "bearer " (lower auth_header) then
    let token_str := strip (drop_chars 7 auth_header) in
    match resolve_tenant_from_jwt s now token_str with
    | Some (tenant_id, user_role) => Ctx tenant_id user_role
    | None => Ctx None None
    end
  else if opt_str_truthy x_tenant_id then Ctx (PyInt.py_int (or_else x_tenant_id "")) None
  else Ctx None None.

(** [TenantMiddleware.__call__]: the application runs with the request's context, and
    what was there before is restored whatever it does. *)
Definition TenantMiddleware {A} (s : Settings) (now : datetime) (scope_type : string)
    (authorization x_tenant_id : option string) (app : context -> A * context) (before : context) : A * context :=
  if negb (bool_decide (scope_type = "http")) then app before
  else
    let '(a, _) := app (request_context s now authorization x_tenant_id) in (a, before).

(** A request to an endpoint that depends on [verify_jwt_token]: the context in which its
    handler runs, if the token is accepted. *)
Definition handler_context (emitter : bool) (s : Settings) (now : datetime)
    (authorization x_tenant_id : option string) : result failure context :=
  let c := request_context s now authorization x_tenant_id in
  let '(r, tenant, _) := verify_jwt_token str_of emitter s now authorization (tenant_context c) in
  match r with
  | Ok _ => Ok (Ctx tenant (role_context c))
  | Raise e => Raise e
  end.

End Tenant.
End Tenant.

(** ** Theorems *)

Module TokenTheorems.
Import Jwt.Dict Tokens Roles Tenant.

Section facts.
Context `{L : JwtLaws} (str_of : json -> string).

(** Trying the secrets in turn finds the one that signed a token. *)
Lemma loops_signed emitter source s t payload key iat exp secrets saw ctx :
  flat payload -> registered payload iat exp -> iat * 1000000 <= t -> key ∈ secrets ->
  let token := jwt_encode payload key (jwt_algorithm s) in
  verify_loop str_of emitter source s t token secrets saw ctx =
    (if t <? exp * 1000000 then accept_payload str_of emitter source payload ctx
     else (unauthorized "Token expired", ctx,
       InternalAuth._emit_security_audit_event emitter (jwt_event "deny" source None None (Some "token_expired")))) /\
  refresh_loop s t token secrets saw =
    (if t <? exp * 1000000 then
       if match get_or_none "token_type" payload with JStr t => bool_decide (t = "refresh") | _ => false end
       then Ok payload else unauthorized "Not a refresh token"
     else unauthorized "Refresh token expired").
Proof.
  intros Hf Hr Ht Hin token. revert saw. induction secrets as [|k secrets IH]; intros saw; [by apply elem_of_nil in Hin |].
  cbn [verify_loop refresh_loop]. destruct (decide (key = k)) as [Hk|Hk].
  - subst k. unfold token. rewrite (decode_signed t payload key _ [] iat exp) by done. by destruct (t <? exp * 1000000).
  - unfold token. rewrite decode_other_key by done. apply IH. set_solver.
Qed.

(** The claims of the tokens that a login issues. *)
Definition access_claims (s : Settings) (now : datetime) (sub : string) (tenant : option Z) : dict :=
  [("sub", JStr sub); ("iat", JInt (now / 1000000));
   ("exp", JInt ((now + seconds (jwt_expiry_minutes s * 60)) / 1000000)); ("iss", JStr (app_name s));
   ("tenant_id", json_opt JInt tenant)].

Definition refresh_claims (s : Settings) (now : datetime) (jti sub : string) (tenant : option Z) : dict :=
  [("sub", JStr sub); ("iat", JInt (now / 1000000));
   ("exp", JInt ((now + days (jwt_refresh_ttl_days s)) / 1000000)); ("iss", JStr (app_name s));
   ("jti", JStr jti); ("token_type", JStr "refresh"); ("tenant_id", json_opt JInt tenant)].

Lemma access_claims_ok s now sub tenant :
  flat (access_claims s now sub tenant) /\
  registered (access_claims s now sub tenant) (now / 1000000) ((now + seconds (jwt_expiry_minutes s * 60)) / 1000000).
Proof.
  split; [split; [apply (bool_decide_unpack _); by vm_compute | destruct tenant; by repeat constructor] |].
  unfold registered. cbn. split_and!; try done. by eexists.
Qed.

Lemma refresh_claims_ok s now jti sub tenant :
  flat (refresh_claims s now jti sub tenant) /\
  registered (refresh_claims s now jti sub tenant) (now / 1000000) ((now + days (jwt_refresh_ttl_days s)) / 1000000).
Proof.
  split; [split; [apply (bool_decide_unpack _); by vm_compute | destruct tenant; by repeat constructor] |].
  unfold registered. cbn. split_and!; try done; [by eexists |]. intros j [= <-]. by eexists.
Qed.

Lemma accept_claims emitter source payload sub tenant ctx :
  get_or_none "tenant_id" payload = json_opt JInt tenant -> get_or_none "sub" payload = JStr sub ->
  (accept_payload str_of emitter source payload ctx).1.1 = Ok payload.
Proof.
  intros Ht Hs. unfold accept_payload. rewrite Ht, Hs.
  destruct tenant as [z|]; cbn; [by destruct (z =? 0) | done].
Qed.

Lemma partition_scheme scheme credentials :
  free_of " " scheme = true -> partition_space (scheme +:+ String " " credentials) = (scheme, credentials).
Proof.
  induction scheme as [|c scheme IH]; [done |]. intros [Hc Hs]%andb_true_iff.
  apply negb_true_iff in Hc. change (partition_space (String c (scheme +:+ String " " credentials)) = (String c scheme, credentials)).
  cbn [partition_space]. by rewrite Hc, IH.
Qed.

Lemma whole_seconds now t : now <= t -> now / 1000000 * 1000000 <= t.
Proof. pose proof (Z.mod_pos_bound now 1000000). pose proof (Z.div_mod now 1000000). lia. Qed.

Lemma check_bearer emitter s t token ctx :
  verify_jwt_token str_of emitter s t (Some ("Bearer " +:+ token)) ctx =
  verify_loop str_of emitter "http_header" s t token (_jwt_verification_secrets s) false ctx.
Proof.
  unfold verify_jwt_token. change ("Bearer " +:+ token) with ("Bearer" +:+ String " " token).
  cbn [or_else opt_str_truthy]. by rewrite partition_scheme.
Qed.

(** The check of an access token. *)
Lemma access_token_checked emitter signer verifier now t sub tenant ctx :
  jwt_secret signer ∈ _jwt_verification_secrets verifier -> jwt_algorithm signer = jwt_algorithm verifier -> now <= t ->
  (verify_jwt_token str_of emitter verifier t
     (Some ("Bearer " +:+ create_jwt_token signer now sub (Some [("tenant_id", json_opt JInt tenant)]))) ctx).1.1 =
  if t <? (now + seconds (jwt_expiry_minutes signer * 60)) / 1000000 * 1000000
  then Ok (access_claims signer now sub tenant) else unauthorized "Token expired".
Proof.
  intros Hin Halg Ht. rewrite check_bearer.
  change (create_jwt_token signer now sub (Some [("tenant_id", json_opt JInt tenant)]))
    with (jwt_encode (access_claims signer now sub tenant) (jwt_secret signer) (jwt_algorithm signer)). rewrite Halg.
  destruct (access_claims_ok signer now sub tenant) as [Hf Hr].
  destruct (loops_signed emitter "http_header" verifier t _ _ _ _ _ false ctx Hf Hr (whole_seconds _ _ Ht) Hin) as [V _].
  rewrite V. destruct (t <? _); [by apply (accept_claims _ _ _ sub tenant) | done].
Qed.

(** The access token and the refresh token of a login are accepted while they live,
    by any process whose secrets, current or previous, include the one that signed them,
    and return the claims they were made with; then they are refused as expired.  An
    access token is no refresh token; a refresh token, however, also passes the check
    of access tokens, for all its life. *)
Theorem user_tokens_round_trip emitter signer verifier now t sub jti tenant ctx :
  jwt_secret signer ∈ _jwt_verification_secrets verifier -> jwt_algorithm signer = jwt_algorithm verifier -> now <= t ->
  let custom_claims := Some [("tenant_id", json_opt JInt tenant)] in
  let access := create_jwt_token signer now sub custom_claims in
  let refresh := create_refresh_token signer now jti sub custom_claims in
  let access_alive := t <? (now + seconds (jwt_expiry_minutes signer * 60)) / 1000000 * 1000000 in
  let refresh_alive := t <? (now + days (jwt_refresh_ttl_days signer)) / 1000000 * 1000000 in
  let check token := (verify_jwt_token str_of emitter verifier t (Some ("Bearer " +:+ token)) ctx).1.1 in
  check access = (if access_alive then Ok (access_claims signer now sub tenant) else unauthorized "Token expired") /\
  check refresh = (if refresh_alive then Ok (refresh_claims signer now jti sub tenant) else unauthorized "Token expired") /\
  verify_refresh_token verifier t refresh =
    (if refresh_alive then Ok (refresh_claims signer now jti sub tenant) else unauthorized "Refresh token expired") /\
  verify_refresh_token verifier t access =
    (if access_alive then unauthorized "Not a refresh token" else unauthorized "Refresh token expired").
Proof.
  intros Hin Halg Ht custom_claims access refresh access_alive refresh_alive check.
  pose proof (whole_seconds _ _ Ht) as Hi.
  assert (access = jwt_encode (access_claims signer now sub tenant) (jwt_secret signer) (jwt_algorithm verifier)) as Ea
    by (rewrite <- Halg; done).
  assert (refresh = jwt_encode (refresh_claims signer now jti sub tenant) (jwt_secret signer) (jwt_algorithm verifier)) as Er
    by (rewrite <- Halg; done).
  destruct (access_claims_ok signer now sub tenant) as [Hfa Hra].
  destruct (refresh_claims_ok signer now jti sub tenant) as [Hfr Hrr].
  destruct (loops_signed emitter "http_header" verifier t _ _ _ _ _ false ctx Hfa Hra Hi Hin) as [_ Ra].
  destruct (loops_signed emitter "http_header" verifier t _ _ _ _ _ false ctx Hfr Hrr Hi Hin) as [Vr Rr].
  unfold verify_refresh_token. split_and!; [by apply access_token_checked | |by rewrite Er, Rr |by rewrite Ea, Ra].
  unfold check. rewrite check_bearer, Er, Vr. fold refresh_alive.
  destruct refresh_alive; [by apply (accept_claims _ _ _ sub tenant) | done].
Qed.

End facts.
End TokenTheorems.

Module RoleTheorems.
Import Jwt.Dict Tokens Roles.

Section facts.
Context (str_of : json -> string) (g : string -> string -> string -> bool).

(** Whatever roles a route asks for, as long as it asks for one, the guard makes
    the same decision: it admits the superuser and everybody who has any of the roles
    user, manager or admin in the domain of the token, because every policy line grants
    every object. *)
Theorem guard_ignores_required_roles emitter s role required claims :
  (casbin_guard str_of g emitter s (role :: required) claims).1 =
    let sub := subject_of str_of claims in
    let domain := domain_of str_of claims in
    if is_superuser s sub || g sub "user" domain || g sub "manager" domain || g sub "admin" domain
    then Ok claims else forbidden.
Proof.
  cbn zeta. unfold casbin_guard. destruct (is_superuser s (subject_of str_of claims)) eqn:Es; [done |].
  set (sub := subject_of str_of claims) in *. set (dom := domain_of str_of claims). cbn [orb].
  assert (forall r, enforce g s sub dom r "access" = g sub "user" dom || g sub "manager" dom || g sub "admin" dom) as H.
  { intros r. unfold enforce, matcher. cbn [existsb casbin_policy p_sub p_dom p_obj p_act]. rewrite Es.
    rewrite !bool_decide_true by done. cbn [orb]. by rewrite !andb_true_r, orb_false_r, orb_assoc. }
  cbn [map existsb]. rewrite H.
  destruct (g sub "user" dom || g sub "manager" dom || g sub "admin" dom); [done |]. cbn [orb].
  replace (existsb _ (map lower required)) with false; [done |]. symmetry.
  induction (map lower required) as [|r l IH]; [done |]. cbn [existsb]. rewrite H. apply IH.
Qed.

(** No session is ever admitted by a role guard: a verified session carries nothing
    but its identifier, so every guarded session endpoint answers 401 or 403. *)
Theorem session_roles_never_admit required cookie :
  session_endpoint str_of required cookie =
    if opt_str_truthy cookie then forbidden else unauthorized "Missing session cookie".
Proof.
  unfold session_endpoint, verify_session. destruct (opt_str_truthy cookie); [|done]. cbn [negb bind_result].
  unfold session_role_guard. cbn. by induction (map lower required).
Qed.

End facts.

(** The effective role is one of the roles held, none of which has a higher priority. *)
Lemma effective_role_highest roles :
  roles <> [] -> resolve_effective_role roles ∈ roles /\
  Forall (fun r => _ROLE_PRIORITY (lower r) <= _ROLE_PRIORITY (lower (resolve_effective_role roles))) roles.
Proof.
  destruct roles as [|r roles]; [done |]. intros _. cbn [resolve_effective_role].
  set (key := fun role => _ROLE_PRIORITY (lower role)). revert r.
  assert (forall roles r, max_by key r roles ∈ r :: roles /\ key r <= key (max_by key r roles) /\
            Forall (fun x => key x <= key (max_by key r roles)) roles) as H.
  { clear roles. induction roles as [|x roles IH]; intros r; cbn [max_by]; [split; [left | split; [lia | done]] |].
    destruct (IH (if key r <? key x then x else r)) as (Hin & Hle & Hall).
    destruct (Z.ltb_spec (key r) (key x)); (split; [set_solver |]); (split; [lia |]); constructor; try done; lia. }
  intros r. destruct (H roles r) as (? & ? & ?). split; [done |]. by constructor.
Qed.

End RoleTheorems.

Module TenantTheorems.
Import Jwt.Dict Tokens Roles Tenant.

Section facts.
Context {J : Jwt} (str_of : json -> string) (get_roles : string -> string -> list string).

Lemma map_chars_app f a b : map_chars f (a +:+ b) = map_chars f a +:+ map_chars f b.
Proof. induction a as [|c a IH]; simpl; [done | by rewrite IH]. Qed.

Lemma map_chars_length f a : String.length (map_chars f a) = String.length a.
Proof. induction a as [|c a IH]; simpl; [done | by rewrite IH]. Qed.

Lemma lower_length a : String.length (lower a) = String.length a.
Proof. apply map_chars_length. Qed.

Lemma lower_no_space (s : string) : free_of " " (lower s) = true -> free_of " " s = true.
Proof.
  induction s as [|c s IH]; [done |]. cbn. intros [Hc Hs]%andb_true_iff. rewrite (IH Hs), andb_true_r.
  destruct (Ascii.eqb_spec c " ") as [->|]; [done | done].
Qed.

Lemma verify_loop_ok emitter source s now token secrets saw ctx payload ctx' events :
  verify_loop str_of emitter source s now token secrets saw ctx = (Ok payload, ctx', events) ->
  decode_loop s now token secrets saw = Ok payload /\
  accept_payload str_of emitter source payload ctx = (Ok payload, ctx', events).
Proof.
  revert saw. induction secrets as [|k secrets IH]; intros saw; [done |]. cbn [verify_loop decode_loop].
  destruct (jwt_decode now token k (jwt_algorithm s) []) as [p|[| | |]] eqn:E; try done.
  - intros H. assert (p = payload) as ->; [|done].
    revert H. unfold accept_payload. repeat (case_match; try done); intros [= ->]; done.
  - apply IH.
Qed.

Lemma accept_payload_context emitter source payload ctx ctx' events :
  accept_payload str_of emitter source payload ctx = (Ok payload, ctx', events) ->
  let tenant := get_or_none "tenant_id" payload in
  (is_none tenant = true \/ exists t, to_int tenant = Some t) /\
  ctx' = if truthy tenant then to_int tenant else ctx.
Proof.
  unfold accept_payload. cbn zeta. generalize (get_or_none "tenant_id" payload). intros tid.
  destruct (truthy tid), (to_int tid) as [t|], (is_none tid); cbn; try done; intros [= <- _]; naive_solver.
Qed.

Lemma bearer_header scheme credentials x s now :
  lower scheme = "bearer" -> strip credentials = credentials ->
  request_context str_of get_roles s now (Some (scheme +:+ String " " credentials)) x =
    match resolve_tenant_from_jwt str_of get_roles s now credentials with
    | Some (t, r) => Ctx t r
    | None => Ctx None None
    end.
Proof.
  intros Hl Hs. unfold request_context. cbn [or_else].
  assert (String.length scheme = 6%nat) as Hlen by (by rewrite <- (lower_length scheme), Hl).
  assert (str_truthy (scheme +:+ String " " credentials) = true) as -> by (by destruct scheme).
  assert (lower (scheme +:+ String " " credentials) = "bearer " +:+ lower credentials) as ->.
  { unfold lower in *. rewrite map_chars_app, Hl. done. }
  rewrite prefix_app_true. cbn [andb].
  replace (drop_chars 7 (scheme +:+ String " " credentials)) with credentials; [by rewrite Hs |].
  assert (scheme +:+ String " " credentials = (scheme +:+ " ") +:+ credentials) as ->
    by (clear; induction scheme as [|c w IH]; [done | change (String c (w +:+ String " " credentials) = String c ((w +:+ " ") +:+ credentials)); by rewrite IH]).
  replace 7%nat with (String.length (scheme +:+ " ")) by (by rewrite String_length_append, Hlen).
  by rewrite drop_chars_app.
Qed.

(** C31: The handler of an authenticated request runs in the tenant that the verified
    token names, whatever the [X-Tenant-ID] header says; and with the role admin only if
    the token is the superuser's, or the roles of its subject in that tenant come to
    admin, or it names no tenant and itself claims the role. *)
Theorem tenant_context_authentic emitter s now scheme credentials x c :
  lower scheme = "bearer" -> strip credentials = credentials ->
  handler_context str_of get_roles emitter s now (Some (scheme +:+ String " " credentials)) x = Ok c ->
  exists payload, decode_jwt_claims s now credentials = Ok payload /\
    let tenant := get_or_none "tenant_id" payload in
    let sub := get_or_none "sub" payload in
    tenant_context c = (if is_none tenant then None else to_int tenant) /\
    (role_context c = Some "admin" ->
       (exists u, sub = JStr u /\ is_superuser s u = true) \/
       (exists t, to_int tenant = Some t /\
          resolve_effective_role (get_roles (to_str str_of sub) (str_of_Z t)) = "admin") \/
       is_none tenant = true /\ get_or_none "role" payload = JStr "admin").
Proof.
  intros Hl Hs. unfold handler_context. rewrite bearer_header by done.
  assert (free_of " " scheme = true) as Hfree by (apply lower_no_space; by rewrite Hl).
  unfold verify_jwt_token. cbn [opt_str_truthy or_else].
  assert (str_truthy (scheme +:+ String " " credentials) = true) as -> by (by destruct scheme).
  rewrite TokenTheorems.partition_scheme by done. rewrite Hl. cbn [negb]. rewrite bool_decide_true by done. cbn [negb].
  match goal with |- context [verify_loop _ _ _ _ _ _ _ _ ?ctx] => set (c0 := ctx) end.
  destruct (verify_loop str_of emitter "http_header" s now credentials (_jwt_verification_secrets s) false c0)
    as [[[payload|] ctx'] events] eqn:E; [|done]. intros [= <-].
  destruct (verify_loop_ok _ _ _ _ _ _ _ _ _ _ _ E) as [Hd Ha].
  destruct (accept_payload_context _ _ _ _ _ _ Ha) as [Ht ->].
  exists payload. split; [exact Hd |]. cbn zeta. clear E Ha. subst c0.
  unfold resolve_tenant_from_jwt, decode_jwt_claims. rewrite Hd. cbn [tenant_context role_context].
  generalize dependent (get_or_none "tenant_id" payload). intros tid Ht.
  generalize (get_or_none "sub" payload). intros sub. generalize (get_or_none "role" payload). intros role.
  set (u := match sub with JStr u => u | _ => "" end).
  assert (is_superuser s u = true -> exists u, sub = JStr u /\ is_superuser s u = true) as Hsuper
    by (unfold u; destruct sub; try done; by eexists).
  destruct (is_none tid) eqn:En.
  - assert (truthy tid = false) as -> by (by destruct tid).
    destruct (is_superuser s u); [split; [done | by left; apply Hsuper] |].
    destruct (truthy sub); [|done]. split; [done |]. cbn. destruct role; try done. intros [= ->]. auto.
  - destruct Ht as [?|[t Ht]]; [done |]. rewrite Ht. cbn [option_map].
    destruct (is_superuser s u); [split; [by destruct (truthy tid) | by left; apply Hsuper] |].
    destruct (truthy sub); [|by destruct (truthy tid)]. split; [by destruct (truthy tid) |]. cbn [role_context].
    destruct (get_roles (to_str str_of sub) (str_of_Z t)) as [|r l] eqn:Er; [done |]. intros [= Ha].
    right; left. exists t. by rewrite Er.
Qed.

End facts.
End TenantTheorems.

Module UserAuthWitnesses.
Import Jwt.Dict Tokens Roles Tenant TokenTheorems TenantTheorems.
#[local] Existing Instance PlainJwt.plain.
#[local] Existing Instance PlainJwt.laws.

Definition settings : Settings := SettingsOf "k1" "" "HS256" 30 7 "api-observatory" None "root".
Definition rotated : Settings := SettingsOf "k2" " k1 " "HS256" 30 7 "api-observatory" None "root".
Definition no_text (_ : json) : string := "".

(** A day after the login, and after a rotation, the refresh token still opens a route
    that asks for an access token. *)
Lemma user_tokens_round_trip_witness :
  (verify_jwt_token no_text false rotated 86400000000
     (Some ("Bearer " +:+ create_refresh_token settings 0 "id" "bob" (Some [("tenant_id", JInt 7)]))) None).1.1 =
  Ok (refresh_claims settings 0 "id" "bob" (Some 7)).
Proof.
  destruct (user_tokens_round_trip no_text false settings rotated 0 86400000000 "bob" "id" (Some 7) None)
    as (_ & H & _); [by apply (bool_decide_unpack _); vm_compute | done | done |]. exact H.
Defined.

Definition bobs_token : string := create_jwt_token settings 0 "bob" (Some [("tenant_id", JInt 7)]).

Lemma tenant_context_authentic_witness :
  exists c, handler_context no_text (fun _ _ => ["user"]) false settings 1000000
      (Some ("Bearer" +:+ String " " bobs_token)) (Some "999") = Ok c /\ tenant_context c = Some 7.
Proof.
  destruct (handler_context no_text (fun _ _ => ["user"]) false settings 1000000
      (Some ("Bearer" +:+ String " " bobs_token)) (Some "999")) as [c|e] eqn:E; [|by vm_compute in E].
  exists c. split; [reflexivity |].
  destruct (tenant_context_authentic no_text (fun _ _ => ["user"]) false settings 1000000 "Bearer" bobs_token (Some "999") c)
    as (payload & Hp & Ht & _); [reflexivity | by vm_compute | exact E |].
  rewrite Ht. vm_compute in Hp. injection Hp as <-. reflexivity.
Defined.

End UserAuthWitnesses.
