(* ===== verification/Users.v ===== *)
(** * Users

    [repositories/users.py], [core/bootstrap.py] and [api/routes/auth.py]: accounts
    with their tenants and roles, and the endpoints that register, log in, refresh,
    promote, change and delete them.

    Password hashing and the check of an e-mail address are parameters, and so is
    Casbin's role manager, as in [UserAuth.v].  So is whether the database has the
    foreign keys of the accounts: the models declare them, but no migration creates
    them ([SchemaDrift.v]).

    A deletion checks and then deletes without a lock: [read_target],
    [check_last_admin] and [delete_user] are its parts, between which other requests
    commit; [delete_user_route] is the three with nothing in between. *)

From S2P Require Import Prelude Db Incidents Jwt InternalAuth UserAuth.

Module Users.
Import Jwt.Dict Tokens Roles.

(** ** Tables *)

Record User := UserRow {
  username : string;
  email : string;
  password_hash : string;
  is_active : bool;
  user_tenant_id : option Z;
  created_at : datetime;
  updated_at : option datetime;
  deleted_at : option datetime
}.

Record UserTenant := UserTenantRow {
  ut_user_id : Z;
  ut_tenant_id : Z;
  ut_deleted_at : option datetime
}.

(** A tenant is its name here. *)
Record world := World {
  tenants : table string;
  users : table User;
  user_tenants : table UserTenant;
  authz : casbin
}.

Definition with_users (w : world) (t : table User) : world := World (tenants w) t (user_tenants w) (authz w).
Definition with_authz (w : world) (c : casbin) : world := World (tenants w) (users w) (user_tenants w) c.

(** Whether the database enforces the foreign keys that the models declare: one made
    from the models does, one made by the migrations does not. *)
Class Database := foreign_keys : bool.

(** ** The repository *)

Section Repository.
Context {D : Database}.

Definition get_user_by_username (name : string) (w : world) : option (Z * User) :=
  scalar (fun u => bool_decide (username u = name) && is_active u) (users w).

Definition get_user_by_id (user_id : Z) (w : world) : option User :=
  match get user_id (users w) with
  | Some u => if is_active u then Some u else None
  | None => None
  end.

Definition insert_tenant (name : string) (t : table string) : result IntegrityError (Z * table string) :=
  insert_unique (fun n => bool_decide (n = name)) name t.

Definition same_account (u v : User) : bool :=
  bool_decide (username v = username u) || bool_decide (email v = email u).

(** The tenant that an account or a membership names exists, where that is enforced. *)
Definition tenant_known (t : Z) (w : world) : bool :=
  negb foreign_keys || negb (bool_decide (get t (tenants w) = None)).

(** The unique indexes and the foreign key of the users table. *)
Definition insert_user (u : User) (w : world) : result IntegrityError (Z * world) :=
  if match user_tenant_id u with Some t => tenant_known t w | None => true end
  then bind_result (insert_unique (same_account u) u (users w)) (fun '(i, us) => Ok (i, with_users w us))
  else Raise integrity_error.

Definition same_membership (user_id tenant_id : Z) (r : UserTenant) : bool :=
  (ut_user_id r =? user_id) && (ut_tenant_id r =? tenant_id).

(** On an IntegrityError, what the enforcer has stored by then: the role is granted
    before the commit, which may still fail on the membership. *)
Definition create_user (now : datetime) (name mail hash role : string) (tenant_id : option Z) (w : world)
    : result casbin (Z * world) :=
  let with_tenant := match tenant_id with
    | Some t => Ok (t, w)
    | None => bind_result (insert_tenant (name +:+ "-personal") (tenants w)) (fun '(t, ts) =>
              Ok (t, World ts (users w) (user_tenants w) (authz w)))
    end in
  let with_account := bind_result with_tenant (fun '(tenant_id, w) =>
    bind_result (insert_user (UserRow name mail hash true (Some tenant_id) now (Some now) None) w)
      (fun '(user_id, w) => Ok (tenant_id, user_id, w))) in
  match with_account with
  | Raise _ => Raise (authz w)
  | Ok (tenant_id, user_id, w) =>
      let authz' := add_role_for_user_in_domain name role (str_of_Z tenant_id) (authz w) in
      match insert_unique (same_membership user_id tenant_id) (UserTenantRow user_id tenant_id None) (user_tenants w) with
      | Raise _ => Raise authz'
      | Ok (_, uts) => Ok (user_id, World (tenants w) (users w) uts authz')
      end
  end.

Definition set_user (f : User -> User) (user_id : Z) (w : world) : world := with_users w (update user_id f (users w)).

Definition set_deleted (now : datetime) (u : User) : User :=
  UserRow (username u) (email u) (password_hash u) false (user_tenant_id u) (created_at u) (Some now) (Some now).

Definition delete_user (now : datetime) (user_id : Z) (w : world) : option User * world :=
  match get_user_by_id user_id w with
  | None => (None, w)
  | Some u => (Some (set_deleted now u), set_user (set_deleted now) user_id w)
  end.

(** Nothing is written, the time of the change included, when nothing changes. *)
Definition set_fields (now : datetime) (mail : option string) (active : option bool) (u : User) : User :=
  let mail := or_else mail (email u) in
  let active := or_else active (is_active u) in
  UserRow (username u) mail (password_hash u) active (user_tenant_id u) (created_at u)
    (if bool_decide (mail = email u) && Bool.eqb active (is_active u) then updated_at u else Some now) (deleted_at u).

(** The commit fails when another account has the new address. *)
Definition update_user (now : datetime) (user_id : Z) (mail : option string) (active : option bool) (w : world)
    : result IntegrityError (option User * world) :=
  match get_user_by_id user_id w with
  | None => Ok (None, w)
  | Some u =>
      let u' := set_fields now mail active u in
      if existsb (fun x => negb (x.1 =? user_id) && bool_decide (email x.2 = email u')) (rows (users w))
      then Raise integrity_error
      else Ok (Some u', set_user (set_fields now mail active) user_id w)
  end.

(** One for each active user and each of its rows with the role. *)
Definition admin_rows (u : User) (c : casbin) : nat :=
  count (fun '(v0, v1, _) => bool_decide (v0 = username u) && bool_decide (v1 = "admin")) (casbin_rule c).

Definition count_active_admins (exclude_username : option string) (w : world) : nat :=
  let excluded u := match exclude_username with
                    | Some x => str_truthy x && bool_decide (username u = x)
                    | None => false
                    end in
  foldr (fun x n => (admin_rows x.2 (authz w) + n)%nat) 0%nat
    (select (fun u => is_active u && negb (excluded u)) (users w)).

Definition has_tenant_access (user_id target_tenant_id : Z) (w : world) : bool :=
  match scalar (fun r => (ut_user_id r =? user_id) && (ut_tenant_id r =? target_tenant_id)
                         && bool_decide (ut_deleted_at r = None)) (user_tenants w) with
  | Some _ => true
  | None => false
  end.

(** A conflict brings the deleted row back; an unknown user or tenant, where it fails
    the foreign key, leaves [scalar_one] without a row, and it raises. *)
Inductive lookup_error := NoResultFound.

Definition add_tenant_to_user (user_id target_tenant_id : Z) (w : world)
    : result lookup_error (UserTenant * world) :=
  let row := UserTenantRow user_id target_tenant_id None in
  let known := (negb foreign_keys || negb (bool_decide (get user_id (users w) = None)))
               && tenant_known target_tenant_id w in
  match scalar (same_membership user_id target_tenant_id) (user_tenants w) with
  | None =>
      if known then Ok (row, World (tenants w) (users w) (snd (insert row (user_tenants w))) (authz w))
      else Raise NoResultFound
  | Some (i, existing) =>
      if decide (ut_deleted_at existing = None) then Ok (existing, w)
      else Ok (row, World (tenants w) (users w) (update i (fun _ => row) (user_tenants w)) (authz w))
  end.

Definition list_users (limit offset : nat) (w : world) : list (Z * User) * nat :=
  let active := select is_active (users w) in (take limit (drop offset active), length active).

(** ** Endpoints *)

Record UserResponse := Response {
  response_id : Z;
  response_username : string;
  response_email : string;
  response_role : string;
  response_tenant_id : option Z;
  response_is_active : bool;
  response_created_at : datetime
}.

Definition respond (i : Z) (u : User) (role : string) : UserResponse :=
  Response i (username u) (email u) role (user_tenant_id u) (is_active u) (created_at u).

Record UserCreate := Create {
  new_username : string;
  new_email : string;
  new_password : string;
  new_tenant_id : option Z
}.

Definition valid_create (valid_email : string -> bool) (b : UserCreate) : bool :=
  let len s := Z.of_nat (String.length s) in
  (3 <=? len (new_username b)) && (len (new_username b) <=? 64) && valid_email (new_email b)
  && (8 <=? len (new_password b)) && (len (new_password b) <=? 128).

Definition http {A} (code : Z) (detail : string) : result failure A := Raise (Http (Incidents.HTTP code detail)).

End Repository.

Section Routes.
Context {J : Jwt} {D : Database}.
Context (hash : string -> string) (verify : string -> string -> bool).
Context (get_roles : list (string * string * string) -> string -> string -> list string).

Definition effective_role (u : User) (w : world) : string :=
  resolve_effective_role (get_user_roles_in_domain get_roles (username u) (user_tenant_id u) (authz w)).

Definition register (now : datetime) (body : UserCreate) (w : world) : result failure UserResponse * world :=
  match create_user now (new_username body) (new_email body) (hash (new_password body)) "user" None w with
  | Raise c => (http 409 "Username or email already registered.", with_authz w c)
  | Ok (i, w') =>
      match get i (users w') with
      | Some u => (Ok (respond i u "user"), w')
      | None => (Raise Unhandled, w')
      end
  end.

Definition assign_role (name role : string) (w : world) : result failure UserResponse * world :=
  let w := with_authz w (assign_user_role name role None (authz w)) in
  match get_user_by_username name w with
  | None => (http 404 "User not found.", w)
  | Some (i, u) => (Ok (respond i u (effective_role u w)), w)
  end.

(** Casbin removes a rule and its rows. *)
Definition delete_roles_for_user_in_domain (name role domain : string) (c : casbin) : casbin :=
  let others := List.filter (fun rule => negb (bool_decide (rule = (name, role, domain)))) in
  Casbin (others (rules c)) (others (casbin_rule c)).

(** The repository's own way to change a role, for all tenants. *)
Definition update_user_role (name role : string) (w : world) : option (Z * User) * world :=
  match get_user_by_username name w with
  | None => (None, w)
  | Some user =>
      let domain := "*" in
      let existing_roles := get_roles (rules (authz w)) name domain in
      let c := fold_left (fun c existing => delete_roles_for_user_in_domain name existing domain c) existing_roles (authz w) in
      (Some user, with_authz w (add_role_for_user_in_domain name role domain c))
  end.

(** [caller]: the subject of the claims that the guard let through. *)
Definition read_target (user_id : Z) (caller : string) (w : world) : result failure User :=
  match get_user_by_id user_id w with
  | None => http 404 "User not found."
  | Some u => if bool_decide (username u = caller) then http 403 "Users cannot delete themselves." else Ok u
  end.

(** The roles are read in [w], the other administrators are counted in [w']. *)
Definition check_last_admin (u : User) (w w' : world) : result failure unit :=
  if has_role_in_domain get_roles (username u) "admin" (user_tenant_id u) (authz w)
     && (count_active_admins (Some (username u)) w' =? 0)%nat
  then http 409 "Cannot delete the last active admin."
  else Ok tt.

Definition delete_user_route (now : datetime) (user_id : Z) (caller : string) (w : world)
    : result failure unit * world :=
  match bind_result (read_target user_id caller w) (fun u => check_last_admin u w w) with
  | Raise e => (Raise e, w)
  | Ok _ => (Ok tt, snd (delete_user now user_id w))
  end.

(** Access token, refresh token and the session cookie; the identifiers are fresh UUIDs. *)
Definition login (s : Settings) (now : datetime) (jti session_id name password : string) (w : world)
    : result failure (string * string * string) :=
  match get_user_by_username name w with
  | None => http 401 "Invalid credentials."
  | Some (_, u) =>
      if negb (verify password (password_hash u)) then http 401 "Invalid credentials."
      else
        let custom_claims := Some [("tenant_id", json_opt JInt (user_tenant_id u))] in
        let token := create_jwt_token s now (username u) custom_claims in
        let refresh_token := create_refresh_token s now jti (username u) custom_claims in
        Ok (token, refresh_token, fst (create_session session_id))
  end.

Definition sub_or_401 (claims : dict) : result failure string :=
  match get_or_none "sub" claims with
  | JStr x => if str_truthy x then Ok x else http 401 "Invalid token claims."
  | _ => http 401 "Invalid token claims."
  end.

Definition me (claims : dict) (w : world) : result failure UserResponse :=
  bind_result (sub_or_401 claims) (fun name =>
  match get_user_by_username name w with
  | None => http 401 "User not found or inactive."
  | Some (i, u) => Ok (respond i u (effective_role u w))
  end).

Definition refresh (s : Settings) (now : datetime) (jti token : string) (w : world)
    : result failure (string * string) :=
  bind_result (verify_refresh_token s now token) (fun claims =>
  let name := match get_or_none "sub" claims with JStr x => x | _ => "" end in
  match get_user_by_username name w with
  | None => http 401 "User not found or inactive."
  | Some (_, u) =>
      let custom_claims := Some [("tenant_id", json_opt JInt (user_tenant_id u))] in
      Ok (create_jwt_token s now name custom_claims, create_refresh_token s now jti name custom_claims)
  end).

Definition create_admin (now : datetime) (body : UserCreate) (claims : dict) (w : world)
    : result failure UserResponse * world :=
  match sub_or_401 claims with
  | Raise e => (Raise e, w)
  | Ok _ =>
      match create_user now (new_username body) (new_email body) (hash (new_password body)) "admin" (new_tenant_id body) w with
      | Raise c => (http 409 "Username or email already registered.", with_authz w c)
      | Ok (i, w') =>
          match get i (users w') with
          | Some u => (Ok (respond i u (effective_role u w')), w')
          | None => (Raise Unhandled, w')
          end
      end
  end.

Definition list_users_route (limit offset : nat) (claims : dict) (w : world)
    : result failure (list UserResponse * nat) :=
  bind_result (sub_or_401 claims) (fun _ =>
  let '(us, total) := list_users limit offset w in
  Ok (map (fun x => respond x.1 x.2 (effective_role x.2 w)) us, total)).

(** The fields that the body sets; null leaves the column as it is. *)
Record UserUpdate := Update { email_set : option (option string); is_active_set : option (option bool) }.

Definition opt_join {A} (o : option (option A)) : option A := match o with Some (Some a) => Some a | _ => None end.

Definition update_user_route (now : datetime) (user_id : Z) (body : UserUpdate) (claims : dict) (w : world)
    : result failure UserResponse * world :=
  match sub_or_401 claims with
  | Raise e => (Raise e, w)
  | Ok _ =>
      match get_user_by_id user_id w with
      | None => (http 404 "User not found.", w)
      | Some u =>
          match email_set body, is_active_set body with
          | None, None => (Ok (respond user_id u "user"), w)
          | _, _ =>
              match update_user now user_id (opt_join (email_set body)) (opt_join (is_active_set body)) w with
              | Raise _ => (http 409 "Email already registered.", w)
              | Ok (None, w') => (http 404 "User not found.", w')
              | Ok (Some u', w') => (Ok (respond user_id u' (effective_role u' w')), w')
              end
          end
      end
  end.

(** ** Bootstrap *)

Record BootstrapSettings := Bootstrap {
  init_admin_username : option string;
  init_admin_password : option string;
  init_admin_email : option string;
  superadmin_password : option string;
  superadmin_email : option string
}.

Definition str_or (o : option string) (d : string) : string :=
  match o with Some s => if str_truthy s then s else d | None => d end.

Definition bootstrap_initial_admin (now : datetime) (b : BootstrapSettings) (w : world) : world :=
  if negb (opt_str_truthy (init_admin_username b)) || negb (opt_str_truthy (init_admin_password b)) then w
  else if (0 <? count_active_admins None w)%nat then w
  else
    let name := or_else (init_admin_username b) "" in
    match create_user now name (str_or (init_admin_email b) (name +:+ "@example.com"))
            (hash (or_else (init_admin_password b) "")) "admin" None w with
    | Ok (_, w') => w'
    | Raise c => with_authz w c
    end.

Definition ensure_superadmin (now : datetime) (s : Settings) (b : BootstrapSettings) (w : world)
    : option (Z * User) * world :=
  if negb (opt_str_truthy (superadmin_password b)) then (None, w)
  else
    let subject := superadmin_subject s in
    match get_user_by_username subject w with
    | Some existing => (Some existing, w)
    | None =>
        let u := UserRow subject (str_or (superadmin_email b) (subject +:+ "@example.com"))
                   (hash (or_else (superadmin_password b) "")) true None now (Some now) None in
        match insert_user u w with
        | Ok (i, w') => (Some (i, u), w')
        | Raise _ => (None, w)
        end
    end.

(** ** Steps: every way these change the tables

    A deletion may be any that some earlier check let through.  The membership of an
    account is added for one that exists, where no foreign key asks for it. *)

Inductive step : world -> world -> Prop :=
| step_register now body w : step w (snd (register now body w))
| step_assign name role w : step w (snd (assign_role name role w))
| step_update_role name role w : step w (snd (update_user_role name role w))
| step_delete now i w : step w (snd (delete_user now i w))
| step_create_admin now body claims w : step w (snd (create_admin now body claims w))
| step_update now i body claims w : step w (snd (update_user_route now i body claims w))
| step_add_tenant i t r w w' :
    foreign_keys = true \/ is_Some (get i (users w)) -> add_tenant_to_user i t w = Ok (r, w') -> step w w'
| step_bootstrap now b w : step w (bootstrap_initial_admin now b w)
| step_superadmin now s b w : step w (snd (ensure_superadmin now s b w)).

(** The requests that take no administrator away. *)
Inductive growth : world -> world -> Prop :=
| growth_register now body w : growth w (snd (register now body w))
| growth_assign name role w : growth w (snd (assign_role name role w))
| growth_create_admin now body claims w : growth w (snd (create_admin now body claims w))
| growth_add_tenant i t r w w' :
    foreign_keys = true \/ is_Some (get i (users w)) -> add_tenant_to_user i t w = Ok (r, w') -> growth w w'
| growth_bootstrap now b w : growth w (bootstrap_initial_admin now b w)
| growth_superadmin now s b w : growth w (ensure_superadmin now s b w).2.

Definition empty_world : world := World (empty_table _) (empty_table _) (empty_table _) (Casbin [] []).

End Routes.
End Users.

(** ** Theorems *)

Module UserFacts.
Import Jwt.Dict Tokens Roles Users.

Lemma insert_unique_ok {R} (taken : R -> bool) r (t : table R) x :
  wf_table t -> insert_unique taken r t = Ok x <-> every (fun _ s => taken s = false) t /\ x = insert r t.
Proof.
  intros Hw. unfold insert_unique. destruct (Db.scalar taken t) as [[i s]|] eqn:E.
  - split; [done |]. intros [He _]. apply scalar_Some in E as [Hi Ht]; [|done]. by rewrite (He i s Hi) in Ht.
  - rewrite scalar_None in E by done. split; [by intros [= <-] | by intros [_ ->]].
Qed.

Lemma select_ext {R} (p q : R -> bool) (t : table R) :
  (forall i r, In (i, r) (rows t) -> p r = q r) -> select p t = select q t.
Proof.
  unfold select. intros H. apply List.filter_ext_in. intros [i r] Hin. by apply (H i).
Qed.

Section Facts.
Context {D : Database}.

(** Tables whose keys are in order, unique names and addresses, every membership of an
    account that exists and recorded once; with the foreign keys, every tenant that an
    account or a membership names exists. *)
Record wf (w : world) : Prop := {
  wf_tenants : wf_table (tenants w);
  wf_users : wf_table (users w);
  wf_memberships : wf_table (user_tenants w);
  unique_tenant : unique Some (tenants w);
  unique_username : unique (fun u => Some (username u)) (users w);
  unique_email : unique (fun u => Some (email u)) (users w);
  tenant_exists : foreign_keys = true ->
    every (fun _ u => forall t, user_tenant_id u = Some t -> is_Some (get t (tenants w))) (users w);
  member_exists : every (fun _ r => is_Some (get (ut_user_id r) (users w))) (user_tenants w);
  membership_exists : foreign_keys = true ->
    every (fun _ r => is_Some (get (ut_tenant_id r) (tenants w))) (user_tenants w);
  unique_membership : unique (fun r => Some (ut_user_id r, ut_tenant_id r)) (user_tenants w)
}.

Lemma get_insert_some {R} (t : table R) r i : wf_table t -> is_Some (get i t) -> is_Some (get i (snd (insert r t))).
Proof. intros Hw Hi. rewrite get_insert by done. by destruct (i =? next_id t). Qed.

Lemma get_update_some {R} (t : table R) f k i : is_Some (get i t) -> is_Some (get i (update k f t)).
Proof. intros [r Hr]. rewrite get_update, Hr. destruct (k =? i); by eexists. Qed.

(** A tenant is added. *)
Lemma wf_add_tenant w name :
  wf w -> every (fun _ n => n <> name) (tenants w) ->
  wf (World (snd (insert name (tenants w))) (users w) (user_tenants w) (authz w)).
Proof.
  intros [] Hn. split; cbn [tenants users user_tenants]; try done.
  - by apply wf_insert.
  - apply unique_insert; [done..|]. intros k [= <-] i r Hi [= ->]. by apply (Hn i name Hi).
  - intros Hf i u Hu t Ht. apply get_insert_some; [done |]. by apply (tenant_exists0 Hf i u).
  - intros Hf i r Hr. by apply get_insert_some; [|apply (membership_exists0 Hf i r)].
Qed.

(** An account is added. *)
Lemma wf_add_user w u :
  wf w -> every (fun _ v => username v <> username u /\ email v <> email u) (users w) ->
  (forall t, foreign_keys = true -> user_tenant_id u = Some t -> is_Some (get t (tenants w))) ->
  wf (with_users w (snd (insert u (users w)))).
Proof.
  intros [] Hn Ht. split; cbn [tenants users user_tenants with_users]; try done.
  - by apply wf_insert.
  - apply unique_insert; [done..|]. intros k [= <-] i r Hi [= Hx]. by destruct (Hn i r Hi).
  - apply unique_insert; [done..|]. intros k [= <-] i r Hi [= Hx]. by destruct (Hn i r Hi).
  - intros Hf. apply every_insert; [done | by apply tenant_exists0 | by auto].
  - intros i r Hr. by apply get_insert_some; [|apply (member_exists0 i r)].
Qed.

(** A membership is added. *)
Lemma wf_add_membership w user tenant :
  wf w -> is_Some (get user (users w)) -> (foreign_keys = true -> is_Some (get tenant (tenants w))) ->
  every (fun _ r => (ut_user_id r, ut_tenant_id r) <> (user, tenant)) (user_tenants w) ->
  wf (World (tenants w) (users w) (snd (insert (UserTenantRow user tenant None) (user_tenants w))) (authz w)).
Proof.
  intros [] Hu Ht Hn. split; cbn [tenants users user_tenants]; try done.
  - by apply wf_insert.
  - by apply every_insert.
  - intros Hf. apply every_insert; [done | by apply membership_exists0 | by apply Ht].
  - apply unique_insert; [done..|]. intros k [= <-] i r Hi [= Ha Hb]. apply (Hn i r Hi). congruence.
Qed.

(** An account is changed, but neither its name nor its tenant. *)
Lemma wf_change_user w i f :
  wf w -> (forall u, get i (users w) = Some u -> username (f u) = username u /\ user_tenant_id (f u) = user_tenant_id u) ->
  (forall u j v, get i (users w) = Some u -> get j (users w) = Some v -> i <> j -> email v <> email (f u)) ->
  wf (set_user f i w).
Proof.
  intros [] Hf He. split; cbn [tenants users user_tenants with_users set_user]; try done.
  - by apply wf_update.
  - apply unique_update; [done |]. intros u Hu. left. f_equal. by apply Hf.
  - intros j k r s m. rewrite !get_update.
    destruct (Z.eqb_spec i j) as [<-|Hj], (Z.eqb_spec i k) as [<-|Hk]; [done | | |by apply unique_email0].
    + intros (u & Hu & ->)%fmap_Some Hs [= <-] [= Hm]. by destruct (He u k s Hu Hs Hk).
    + intros Hr (u & Hu & ->)%fmap_Some [= <-] [= Hm]. by destruct (He u j r Hu Hr Hj).
  - intros Hk. apply every_update; [by apply tenant_exists0 |]. intros u Hu Ht t. rewrite (proj2 (Hf u Hu)). apply Ht.
  - intros j r Hr. by apply get_update_some, (member_exists0 j r).
Qed.

Lemma wf_authz w c : wf w -> wf (with_authz w c).
Proof. by intros []. Qed.

Lemma with_authz_same w : with_authz w (authz w) = w.
Proof. by destruct w. Qed.

Lemma tenant_known_spec t w : tenant_known t w = true <-> (foreign_keys = true -> is_Some (get t (tenants w))).
Proof.
  unfold tenant_known. rewrite <- not_eq_None_Some. destruct foreign_keys; simpl; [|naive_solver].
  rewrite negb_true_iff, bool_decide_eq_false. naive_solver.
Qed.

Lemma insert_user_ok u w i w' :
  wf w -> insert_user u w = Ok (i, w') <->
  (forall t, foreign_keys = true -> user_tenant_id u = Some t -> is_Some (get t (tenants w))) /\
  every (fun _ v => username v <> username u /\ email v <> email u) (users w) /\
  i = next_id (users w) /\ w' = with_users w (snd (insert u (users w))).
Proof.
  intros Hw. assert (forall x, insert_unique (same_account u) u (users w) = Ok x <->
    every (fun _ v => username v <> username u /\ email v <> email u) (users w) /\ x = insert u (users w)) as H.
  { intros x. rewrite insert_unique_ok by apply Hw. split; intros [He ->]; (split; [|done]); intros j v Hv;
      specialize (He j v Hv); unfold same_account in *; simpl in *.
    - apply orb_false_iff in He as [H1%bool_decide_eq_false H2%bool_decide_eq_false]. done.
    - destruct He. by rewrite !bool_decide_false. }
  assert ((if user_tenant_id u is Some t then tenant_known t w else true) = true <->
    forall t, foreign_keys = true -> user_tenant_id u = Some t -> is_Some (get t (tenants w))) as Hten.
  { destruct (user_tenant_id u) as [t|]; [rewrite tenant_known_spec; naive_solver | done]. }
  unfold insert_user. destruct (if user_tenant_id u is Some t then tenant_known t w else true).
  2: { split; [done |]. intros [Hno _]. by apply Hten in Hno. }
  destruct Hten as [Hten _]. specialize (Hten eq_refl).
  destruct (insert_unique (same_account u) u (users w)) as [[j t]|] eqn:E; cbn [bind_result].
  - destruct (proj1 (H _) eq_refl) as [He [= -> ->]]. split; [by intros [= <- <-] | by intros (_ & _ & -> & ->)].
  - split; [done |]. intros (_ & He & _). by destruct (H (insert u (users w))) as [_ ?%(fun f => f (conj He eq_refl))].
Qed.

(** The membership of a new account is new. *)
Lemma new_membership w i tenant :
  wf w -> get i (users w) = None ->
  insert_unique (same_membership i tenant) (UserTenantRow i tenant None) (user_tenants w) =
    Ok (insert (UserTenantRow i tenant None) (user_tenants w)).
Proof.
  intros Hw Hi. apply insert_unique_ok; [apply Hw |]. split; [|done]. intros j r Hr. unfold same_membership.
  destruct (Z.eqb_spec (ut_user_id r) i) as [<-|]; [|done].
  destruct (member_exists _ Hw j r Hr) as [v Hv]. congruence.
Qed.

(** The rest of a creation, once the tenant is known. *)
Lemma join_tenant_wf w u i w1 tenant c :
  wf w -> user_tenant_id u = Some tenant -> insert_user u w = Ok (i, w1) ->
  wf (World (tenants w1) (users w1) (snd (insert (UserTenantRow i tenant None) (user_tenants w1))) c) /\
  insert_unique (same_membership i tenant) (UserTenantRow i tenant None) (user_tenants w1) =
    Ok (insert (UserTenantRow i tenant None) (user_tenants w1)) /\
  i = next_id (users w) /\ users w1 = snd (insert u (users w)) /\ get i (users w1) = Some u /\ authz w1 = authz w.
Proof.
  intros Hw Ht (Hten & Hfree & -> & ->)%insert_user_ok; [|done].
  assert (get (next_id (users w)) (users (with_users w (snd (insert u (users w))))) = Some u) as Hg.
  { cbn [users with_users]. rewrite get_insert by apply Hw. by rewrite Z.eqb_refl. }
  assert (get (next_id (users w)) (users w) = None) as Hnew.
  { destruct (get (next_id (users w)) (users w)) as [v|] eqn:Hv; [|done].
    apply get_lt in Hv; [|apply Hw]. lia. }
  split_and!; [| exact (new_membership w _ tenant Hw Hnew) | done..].
  refine (wf_authz _ c (wf_add_membership (with_users w (snd (insert u (users w)))) (next_id (users w)) tenant _ _ _ _)).
  - by apply wf_add_user.
  - by rewrite Hg.
  - intros Hf. by apply Hten.
  - intros j r Hr [= Hu _]. destruct (member_exists _ Hw j r Hr) as [v Hv]. congruence.
Qed.

(** The world in which the account of a new user is written. *)
Lemma create_user_cases now name mail h role tenant w :
  wf w ->
  create_user now name mail h role tenant w = Raise (authz w) \/
  exists w0 t w1 i, wf w0 /\ users w0 = users w /\ authz w0 = authz w /\
    (match tenant with Some t' => t = t' /\ w0 = w | None =>
       t = next_id (tenants w) /\ every (fun _ n => n <> name +:+ "-personal") (tenants w) /\
       w0 = World (snd (insert (name +:+ "-personal") (tenants w))) (users w) (user_tenants w) (authz w) end) /\
    insert_user (UserRow name mail h true (Some t) now (Some now) None) w0 = Ok (i, w1) /\
    create_user now name mail h role tenant w =
      Ok (i, World (tenants w1) (users w1) (snd (insert (UserTenantRow i t None) (user_tenants w1)))
               (add_role_for_user_in_domain name role (str_of_Z t) (authz w))).
Proof.
  intros Hw. unfold create_user. destruct tenant as [t|].
  - cbn [bind_result]. destruct (insert_user _ w) as [[i w1]|] eqn:E; [|by left]. cbn [bind_result]. right.
    destruct (join_tenant_wf w (UserRow name mail h true (Some t) now (Some now) None) i w1 t (authz w) Hw eq_refl E) as (_ & -> & _ & _ & _ & ->).
    exists w, t, w1, i. by split_and!.
  - destruct (insert_tenant (name +:+ "-personal") (tenants w)) as [[t ts]|] eqn:Et; [|by left]. cbn [bind_result].
    apply insert_unique_ok in Et as [Hn [= -> ->]]; [|apply Hw].
    assert (every (fun _ n => n <> name +:+ "-personal") (tenants w)) as Hn'.
    { intros j n Hj. specialize (Hn j n Hj). simpl in Hn. by apply bool_decide_eq_false in Hn. }
    pose proof (wf_add_tenant w _ Hw Hn') as Hw0. cbn [insert snd] in Hw0.
    set (w0 := World _ (users w) (user_tenants w) (authz w)) in *.
    destruct (insert_user _ w0) as [[i w1]|] eqn:E; [|by left]. cbn [bind_result]. right.
    destruct (join_tenant_wf w0 (UserRow name mail h true (Some (next_id (tenants w))) now (Some now) None) i w1
      (next_id (tenants w)) (authz w) Hw0 eq_refl E) as (_ & -> & _ & _ & _ & ->).
    exists w0, (next_id (tenants w)), w1, i. by split_and!.
Qed.

Lemma create_user_ok now name mail h role tenant w i w' :
  wf w -> create_user now name mail h role tenant w = Ok (i, w') ->
  wf w' /\ i = next_id (users w) /\ exists t,
    let u := UserRow name mail h true (Some t) now (Some now) None in
    users w' = snd (insert u (users w)) /\ get i (users w') = Some u /\
    authz w' = add_role_for_user_in_domain name role (str_of_Z t) (authz w).
Proof.
  intros Hw E. destruct (create_user_cases now name mail h role tenant w Hw) as [H|(w0 & t & w1 & j & Hw0 & Eu & Ea & _ & Ei & H)];
    rewrite H in E; [done |]. injection E as <- <-.
  destruct (join_tenant_wf w0 (UserRow name mail h true (Some t) now (Some now) None) j w1 t (add_role_for_user_in_domain name role (str_of_Z t) (authz w)) Hw0 eq_refl Ei)
    as (Hw' & _ & -> & Hu & Hg & _).
  split; [done |]. rewrite Eu in *. split; [done |]. by exists t.
Qed.

(** A creation that fails in a well-formed world leaves nothing behind. *)
Lemma create_user_raise now name mail h role tenant w c :
  wf w -> create_user now name mail h role tenant w = Raise c -> with_authz w c = w.
Proof.
  intros Hw E. destruct (create_user_cases now name mail h role tenant w Hw) as [H|(w0 & t & w1 & j & _ & _ & _ & _ & _ & H)];
    rewrite H in E; [|done]. injection E as <-. apply with_authz_same.
Qed.

(** When a public registration succeeds. *)
Lemma create_personal_succeeds now name mail h role w :
  wf w ->
  every (fun _ v => username v <> name /\ email v <> mail) (users w) ->
  every (fun _ n => n <> name +:+ "-personal") (tenants w) ->
  is_ok (create_user now name mail h role None w) = true.
Proof.
  intros Hw Hu Hn. unfold create_user.
  assert (insert_tenant (name +:+ "-personal") (tenants w) = Ok (insert (name +:+ "-personal") (tenants w))) as ->.
  { apply insert_unique_ok; [apply Hw |]. split; [|done]. intros i n Hi. by apply bool_decide_eq_false, (Hn i n). }
  cbn [bind_result insert]. pose proof (wf_add_tenant w _ Hw Hn) as Hw0. cbn [insert snd] in Hw0.
  set (w0 := World _ (users w) (user_tenants w) (authz w)) in *.
  set (u := UserRow _ _ _ _ _ _ _ _).
  assert (insert_user u w0 = Ok (next_id (users w), with_users w0 (snd (insert u (users w))))) as E.
  { apply insert_user_ok; [done |]. split_and!; [|done..]. intros t _ [= <-]. cbn [tenants w0].
    change (is_Some (get (next_id (tenants w)) (snd (insert (name +:+ "-personal") (tenants w))))).
    rewrite get_insert by apply Hw. rewrite Z.eqb_refl. by eexists. }
  rewrite E. cbn [bind_result].
  destruct (join_tenant_wf w0 u _ _ (next_id (tenants w)) (authz w) Hw0 eq_refl E) as (_ & -> & _). done.
Qed.

End Facts.
End UserFacts.

Module UserTheorems.
Import Jwt.Dict Tokens Roles Users UserFacts.

Section facts.
Context `{L : JwtLaws} {D : Database}.
Context (hash : string -> string) (verify : string -> string -> bool).
Context (get_roles : list (string * string * string) -> string -> string -> list string).

(** *** The tables *)

Lemma wf_set_deleted now i w : wf w -> wf (set_user (set_deleted now) i w).
Proof.
  intros Hw. apply wf_change_user; [done | done |]. intros u j v Hu Hv Hne He. apply Hne.
  apply (unique_email _ Hw i j u v (email u)); try done. cbn in He. by f_equal.
Qed.

Lemma update_user_wf now i mail active w r w' :
  wf w -> update_user now i mail active w = Ok (r, w') -> wf w'.
Proof.
  intros Hw. unfold update_user. destruct (get_user_by_id i w) as [u|] eqn:Eu; [|by intros [= _ <-]].
  destruct (existsb _ _) eqn:Ex; [done |]. intros [= _ <-]. apply wf_change_user; [done | done |].
  intros u' j v Hu Hv Hne He.
  assert (u' = u) as -> by (unfold get_user_by_id in Eu; rewrite Hu in Eu; by destruct (is_active u'); simplify_eq).
  assert (In (j, v) (rows (users w))) as Hin by (apply lookup_row_In; [apply Hw | exact Hv]).
  assert (existsb (fun x => negb (x.1 =? i) && bool_decide (email x.2 = email (set_fields now mail active u)))
            (rows (users w)) = true) as Ht; [|congruence].
  apply existsb_exists. exists (j, v). split; [done |]. cbn [fst snd].
  rewrite bool_decide_true by done. by destruct (Z.eqb_spec j i); [congruence |].
Qed.

Lemma add_tenant_wf i t w r w' :
  wf w -> foreign_keys = true \/ is_Some (get i (users w)) -> add_tenant_to_user i t w = Ok (r, w') -> wf w'.
Proof.
  intros Hw Huser. unfold add_tenant_to_user.
  destruct (Db.scalar (same_membership i t) (user_tenants w)) as [[j existing]|] eqn:E.
  - apply scalar_Some in E as [Hj Hs]; [|apply Hw]. apply andb_true_iff in Hs as [H1%Z.eqb_eq H2%Z.eqb_eq].
    destruct (decide _); [by intros [= _ <-] |]. intros [= _ <-].
    destruct Hw. split; cbn [tenants users user_tenants]; try done.
    + by apply wf_update.
    + apply every_update; [done |]. intros r' Hr' Hx. assert (r' = existing) as -> by congruence. by rewrite <- H1.
    + intros Hf. apply every_update; [by apply membership_exists0 |]. intros r' Hr' Hx.
      assert (r' = existing) as -> by congruence. by rewrite <- H2.
    + apply unique_update; [done |]. intros r' Hr'. left. cbn. assert (r' = existing) as -> by congruence. by rewrite H1, H2.
  - rewrite scalar_None in E by apply Hw.
    destruct (negb foreign_keys || _) eqn:Eu; [|done].
    destruct (tenant_known t w) eqn:Et; [|done]. cbn [andb]. intros [= _ <-].
    apply wf_add_membership; [done | | by apply tenant_known_spec |].
    + destruct Huser as [Hf|]; [|done]. rewrite Hf in Eu. cbn [negb orb] in Eu.
      by apply negb_true_iff, bool_decide_eq_false, not_eq_None_Some in Eu.
    + intros j r' Hj [= Ha Hb]. specialize (E j r' Hj). simpl in E. unfold same_membership in E.
      by rewrite Ha, Hb, !Z.eqb_refl in E.
Qed.

Lemma account_step_wf w w' : wf w -> step hash get_roles w w' -> wf w'.
Proof.
  intros Hw Hs. destruct Hs as [now body w | name role w | name role w | now i w | now body claims w | now i body claims w
    | i t r w w' Hu Hadd | now b w | now s b w].
  - unfold register. destruct (create_user _ _ _ _ _ _ w) as [[i w']|c] eqn:E; [|by apply wf_authz].
    apply create_user_ok in E as [Hw' _]; [|done]. by destruct (get i (users w')).
  - unfold assign_role. destruct (get_user_by_username _ _) as [[i u]|]; by apply wf_authz.
  - unfold update_user_role. destruct (get_user_by_username _ _) as [x|]; [by apply wf_authz | done].
  - unfold delete_user. destruct (get_user_by_id i w); [by apply wf_set_deleted | done].
  - unfold create_admin. destruct (sub_or_401 claims); [|done].
    destruct (create_user _ _ _ _ _ _ w) as [[i w']|c] eqn:E; [|by apply wf_authz].
    apply create_user_ok in E as [Hw' _]; [|done]. by destruct (get i (users w')).
  - unfold update_user_route. destruct (sub_or_401 claims); [|done]. destruct (get_user_by_id i w); [|done].
    assert (forall mail active, wf (match update_user now i mail active w with Ok (_, w') => w' | Raise _ => w end)) as Hupd.
    { intros mail active. destruct (update_user _ _ _ _ _) as [[r w']|] eqn:E; [by eapply update_user_wf | done]. }
    specialize (Hupd (opt_join (email_set body)) (opt_join (is_active_set body))).
    destruct (email_set body), (is_active_set body); try done;
      destruct (update_user _ _ _ _ _) as [[[]]|]; done.
  - by eapply add_tenant_wf.
  - unfold bootstrap_initial_admin. destruct (_ || _); [done |]. destruct (_ <? _)%nat; [done |].
    destruct (create_user _ _ _ _ _ _ w) as [[i w']|c] eqn:E; [|by apply wf_authz].
    by apply create_user_ok in E as [? _].
  - unfold ensure_superadmin. destruct (negb _); [done |]. destruct (get_user_by_username _ _); [done |].
    destruct (insert_user _ w) as [[i w']|] eqn:E; [|done].
    apply insert_user_ok in E as (Ht & Hn & _ & ->); [|done]. by apply wf_add_user.
Qed.

Lemma wf_empty_world : wf empty_world.
Proof. split; cbn; try apply wf_empty; try apply unique_empty; by intros. Qed.

Lemma rtc_wf w : rtc (step hash get_roles) empty_world w -> wf w.
Proof.
  intros Hr. apply (rtc_ind_r wf empty_world) with (2 := fun y z _ Hs Hw => account_step_wf y z Hw Hs) in Hr; [done |].
  apply wf_empty_world.
Qed.


(** *** Registration *)

(** Finding an account by its name. *)
Lemma by_username w i u :
  wf w -> get i (users w) = Some u ->
  get_user_by_username (username u) w = if is_active u then Some (i, u) else None.
Proof.
  intros Hw Hg. unfold get_user_by_username. destruct (Db.scalar _ (users w)) as [[j v]|] eqn:E.
  - apply scalar_Some in E as [Hj Hv]; [|apply Hw]. apply andb_true_iff in Hv as [Hn%bool_decide_eq_true Ha].
    assert (j = i) as -> by (by apply (unique_username _ Hw j i v u (username u)); [..| f_equal |]).
    assert (v = u) as -> by congruence. by rewrite Ha.
  - rewrite scalar_None in E by apply Hw. specialize (E i u Hg). simpl in E.
    rewrite bool_decide_true in E by done. cbn in E. by rewrite E.
Qed.

Lemma login_result s now jti session name password w i u :
  wf w -> get i (users w) = Some u -> username u = name -> is_active u = true ->
  login verify s now jti session name password w =
    if verify password (password_hash u) then
      let custom_claims := Some [("tenant_id", json_opt JInt (user_tenant_id u))] in
      Ok (create_jwt_token s now name custom_claims, create_refresh_token s now jti name custom_claims, session)
    else http 401 "Invalid credentials.".
Proof.
  intros Hw Hg <- Ha. unfold login. rewrite (by_username w i u) by done. rewrite Ha.
  by destruct (verify password (password_hash u)).
Qed.

(** What a successful public registration leaves behind. *)
Lemma register_ok now body w r w' :
  wf w -> register hash now body w = (Ok r, w') ->
  wf w' /\ exists i t, r = Response i (new_username body) (new_email body) "user" (Some t) true now /\
    get i (users w') = Some (UserRow (new_username body) (new_email body) (hash (new_password body)) true (Some t)
                               now (Some now) None) /\
    authz w' = add_role_for_user_in_domain (new_username body) "user" (str_of_Z t) (authz w).
Proof.
  intros Hw. unfold register. destruct (create_user _ _ _ _ _ _ w) as [[i w1]|] eqn:E; [|done].
  apply create_user_ok in E as (Hw' & -> & t & Hu & Hg & Ha); [|done]. rewrite Hg. intros [= <- <-].
  split; [done |]. by exists (next_id (users w)), t.
Qed.

(** A public registration succeeds exactly when no account, deleted ones included,
    has the name or the address and no tenant the name of the personal one; it is
    refused with 409 otherwise, and then changes nothing.  The new account is an ordinary
    user of a tenant of its own, and logging in with a password works exactly when the
    password verifies against the stored hash. *)
Theorem registration now body w :
  wf w ->
  let '(r, w') := register hash now body w in
  match r with
  | Ok resp =>
      every (fun _ v => username v <> new_username body /\ email v <> new_email body) (users w) /\
      every (fun _ n => n <> new_username body +:+ "-personal") (tenants w) /\
      response_role resp = "user" /\ is_Some (response_tenant_id resp) /\
      forall s t jti session password,
        login verify s t jti session (new_username body) password w' =
          if verify password (hash (new_password body)) then
            let custom_claims := Some [("tenant_id", json_opt JInt (response_tenant_id resp))] in
            Ok (create_jwt_token s t (new_username body) custom_claims,
                create_refresh_token s t jti (new_username body) custom_claims, session)
          else http 401 "Invalid credentials."
  | Raise e =>
      e = Http (Incidents.HTTP 409 "Username or email already registered.") /\ w' = w /\
      ~ (every (fun _ v => username v <> new_username body /\ email v <> new_email body) (users w) /\
         every (fun _ n => n <> new_username body +:+ "-personal") (tenants w))
  end.
Proof.
  intros Hw. destruct (register hash now body w) as [r w'] eqn:E. destruct r as [resp|e].
  - destruct (register_ok _ _ _ _ _ Hw E) as (Hw' & i & t & -> & Hg & _).
    cbn [response_role response_tenant_id]. unfold register in E.
    destruct (create_user_cases now (new_username body) (new_email body) (hash (new_password body)) "user" None w Hw)
      as [Ec|(w0 & tn & w1 & j & Hw0 & Eusers & _ & (_ & Hn' & _) & Eu & _)]; [by rewrite Ec in E |].
    apply insert_user_ok in Eu as (_ & Hu & _); [|done]. rewrite Eusers in Hu.
    split_and!; [exact Hu | done | done | by eexists |]. intros s t' jti session password.
    by apply (login_result s t' jti session _ password w' i _ Hw' Hg).
  - unfold register in E. destruct (create_user _ _ _ _ _ _ w) as [[j w1]|] eqn:Ec.
    + apply create_user_ok in Ec as (_ & -> & t & _ & Hg & _); [|done]. by rewrite Hg in E.
    + apply create_user_raise in Ec as Hkeep; [|done]. rewrite Hkeep in E. injection E as <- <-.
      split_and!; [done | done |]. intros [Hu Hn].
      pose proof (create_personal_succeeds now (new_username body) (new_email body) (hash (new_password body)) "user" w Hw Hu Hn)
        as Hok. by rewrite Ec in Hok.
Qed.

(** While no account has the superadmin's name, as when no superadmin password is
    configured, anyone may register it: the login then issues a token with which every
    role guard admits its bearer, in every tenant. *)
Theorem superadmin_name_can_be_registered now body w s t jti session str_of g emitter required :
  wf w -> new_username body = superadmin_subject s -> str_truthy (new_username body) = true ->
  every (fun _ v => username v <> new_username body /\ email v <> new_email body) (users w) ->
  every (fun _ n => n <> new_username body +:+ "-personal") (tenants w) ->
  verify (new_password body) (hash (new_password body)) = true ->
  t < (t + seconds (jwt_expiry_minutes s * 60)) / 1000000 * 1000000 ->
  exists access refresh cookie claims,
    login verify s t jti session (new_username body) (new_password body) (snd (register hash now body w)) =
      Ok (access, refresh, cookie) /\
    (verify_jwt_token str_of emitter s t (Some ("Bearer " +:+ access)) None).1.1 = Ok claims /\
    (casbin_guard str_of g emitter s required claims).1 = Ok claims.
Proof.
  intros Hw Hs Htr Hu Hn Hv Ht.
  pose proof (create_personal_succeeds now (new_username body) (new_email body) (hash (new_password body)) "user" w Hw Hu Hn)
    as Hok.
  destruct (register hash now body w) as [[resp|e] w'] eqn:E.
  2: { exfalso. unfold register in E. destruct (create_user _ _ _ _ _ _ w) as [[i w1]|] eqn:Ec; [|done].
       apply create_user_ok in Ec as (_ & -> & tn & _ & Hg & _); [|done]. by rewrite Hg in E. }
  destruct (register_ok _ _ _ _ _ Hw E) as (Hw' & i & tn & -> & Hg & _). cbn [snd].
  rewrite (login_result s t jti session _ _ w' i _ Hw' Hg) by done. cbn [password_hash user_tenant_id]. rewrite Hv.
  do 2 eexists. exists session, (TokenTheorems.access_claims s t (new_username body) (Some tn)).
  split; [reflexivity |]. split.
  - rewrite TokenTheorems.access_token_checked by (try done; apply Rotation.secrets_in_order_spec; by left).
    by rewrite (proj2 (Z.ltb_lt _ _) Ht).
  - unfold casbin_guard. set (claims := TokenTheorems.access_claims _ _ _ _).
    assert (subject_of str_of claims = new_username body) as ->.
    { unfold subject_of. change (get_or_none "sub" claims) with (JStr (new_username body)). cbn [truthy]. by rewrite Htr. }
    unfold is_superuser. rewrite Htr, bool_decide_true by done. done.
Qed.

(** *** Roles *)

Lemma roles_deleted name domain rs c rule :
  rule ∈ rules (fold_left (fun c existing => delete_roles_for_user_in_domain name existing domain c) rs c) <->
  rule ∈ rules c /\ forall r, r ∈ rs -> rule <> (name, r, domain).
Proof.
  revert c. induction rs as [|r rs IH]; intros c; cbn [fold_left].
  - set_solver.
  - rewrite IH. cbn [rules delete_roles_for_user_in_domain]. setoid_rewrite list_elem_of_In. rewrite List.filter_In.
    setoid_rewrite <- list_elem_of_In. rewrite negb_true_iff, bool_decide_eq_false. setoid_rewrite elem_of_cons. naive_solver.
Qed.

(** Where the role manager reports at least the rules that name a role directly: a changed
    role is the only one the account has for all tenants, and no other account's rules and
    no rule for a single tenant change. *)
Theorem role_replaced name role w x w' :
  (forall rs u r d, (u, r, d) ∈ rs -> r ∈ get_roles rs u d) ->
  update_user_role get_roles name role w = (Some x, w') ->
  (forall r, (name, r, "*") ∈ rules (authz w') <-> r = role) /\
  (forall u r d, u <> name \/ d <> "*" -> (u, r, d) ∈ rules (authz w') <-> (u, r, d) ∈ rules (authz w)).
Proof.
  intros Hg. unfold update_user_role. destruct (get_user_by_username name w) as [y|]; [|done]. intros [= _ <-].
  cbn [authz with_authz]. set (c := fold_left _ _ _).
  assert (forall rule, rule ∈ rules (add_role_for_user_in_domain name role "*" c) <-> rule = (name, role, "*"%string) \/ rule ∈ rules c) as Hadd.
  { intros rule. unfold add_role_for_user_in_domain. destruct (decide _) as [Hin|]; [set_solver | cbn [rules]; set_solver]. }
  split.
  - intros r. rewrite Hadd. unfold c. rewrite roles_deleted. split.
    + intros [[= ->]|[Hin Hno]]; [done |]. exfalso. by apply (Hno r); [apply Hg |].
    + intros ->. by left.
  - intros u r d Hne. rewrite Hadd. unfold c. rewrite roles_deleted. split; [intros [[= -> -> ->]|[? _]]; naive_solver |].
    intros Hin. right. split; [done |]. intros r' _ [= -> -> ->]. naive_solver.
Qed.

(** *** Deletion *)

(** A changed row that is no longer selected, against a selection that leaves it out. *)
Lemma select_update_drop {R} (p q : R -> bool) i f (t : table R) :
  wf_table t -> (forall j r, get j t = Some r -> if i =? j then p (f r) = false /\ q r = false else p r = q r) ->
  select p (update i f t) = select q t.
Proof.
  intros Hw Hpq. unfold select, update. cbn [rows].
  assert (forall x, In x (rows t) -> if i =? x.1 then p (f x.2) = false /\ q x.2 = false else p x.2 = q x.2) as Hrow.
  { intros [j r] Hin. apply Hpq. unfold get. apply lookup_row_In; [apply Hw | done]. }
  clear Hpq Hw. induction (rows t) as [|x l IH]; [done |]. cbn [map List.filter snd].
  pose proof (Hrow x (or_introl eq_refl)) as Hx. rewrite IH by (intros y Hy; apply Hrow; by right).
  destruct (i =? x.1); [destruct Hx as [-> ->]; done |]. destruct x as [j r]; cbn in *. by rewrite Hx.
Qed.

(** Accounts are never lost, and keep their names and tenants. *)
Definition keeps_accounts (w w' : world) : Prop :=
  forall i u, get i (users w) = Some u -> exists u', get i (users w') = Some u' /\ username u' = username u.

Lemma keeps_insert w u : wf_table (users w) -> keeps_accounts w (with_users w (insert u (users w)).2).
Proof.
  intros Hw i v Hv. exists v. split; [|done]. cbn [users with_users]. rewrite get_insert by done.
  apply get_lt in Hv as Hlt; [|done]. destruct (Z.eqb_spec i (next_id (users w))); [lia | done].
Qed.

Lemma keeps_set f i w :
  (forall u, username (f u) = username u) -> keeps_accounts w (set_user f i w).
Proof.
  intros Hf j u Hu. cbn [users set_user with_users]. rewrite get_update, Hu. destruct (i =? j); [|by exists u].
  exists (f u). by split.
Qed.

Lemma keeps_create now name mail h role tenant w i w' :
  wf w -> create_user now name mail h role tenant w = Ok (i, w') -> keeps_accounts w w'.
Proof.
  intros Hw (_ & _ & t & Hu & _)%create_user_ok j v Hj; [|done]. rewrite Hu.
  exact (keeps_insert w _ (wf_users _ Hw) j v Hj).
Qed.

Lemma step_keeps_accounts w w' : wf w -> step hash get_roles w w' -> keeps_accounts w w'.
Proof.
  intros Hw Hs. assert (forall x : world, users x = users w -> keeps_accounts w x) as Hsame
    by (intros x Hx j v Hj; exists v; by rewrite Hx).
  destruct Hs as [now body w | name role w | name role w | now i w | now body claims w | now i body claims w
    | i t r w w' _ Hadd | now b w | now s b w].
  - unfold register. destruct (create_user _ _ _ _ _ _ w) as [[i w']|c] eqn:E; [|by apply Hsame].
    apply keeps_create in E; [|done]. by destruct (get i (users w')).
  - apply Hsame. unfold assign_role. by destruct (get_user_by_username _ _) as [[i u]|].
  - apply Hsame. unfold update_user_role. by destruct (get_user_by_username _ _) as [x|].
  - unfold delete_user. destruct (get_user_by_id i w); [by apply keeps_set | by apply Hsame].
  - unfold create_admin. destruct (sub_or_401 claims); [|by apply Hsame].
    destruct (create_user _ _ _ _ _ _ w) as [[i w']|c] eqn:E; [|by apply Hsame].
    apply keeps_create in E; [|done]. by destruct (get i (users w')).
  - unfold update_user_route. destruct (sub_or_401 claims); [|by apply Hsame].
    destruct (get_user_by_id i w) as [u|]; [|by apply Hsame].
    assert (forall mail active, keeps_accounts w (match update_user now i mail active w with Ok (_, w') => w' | Raise _ => w end))
      as Hupd.
    { intros mail active. unfold update_user. destruct (get_user_by_id i w); [|by apply Hsame].
      destruct (existsb _ _); [by apply Hsame | by apply keeps_set]. }
    specialize (Hupd (opt_join (email_set body)) (opt_join (is_active_set body))).
    destruct (email_set body), (is_active_set body); try (by apply Hsame);
      destruct (update_user _ _ _ _ _) as [[[]]|]; done.
  - apply Hsame. unfold add_tenant_to_user in Hadd. destruct (Db.scalar _ _) as [[j x]|].
    + destruct (decide _); by injection Hadd as _ <-.
    + destruct (_ && _); [by injection Hadd as _ <- | done].
  - unfold bootstrap_initial_admin. destruct (_ || _); [by apply Hsame |]. destruct (_ <? _)%nat; [by apply Hsame |].
    destruct (create_user _ _ _ _ _ _ w) as [[i w']|c] eqn:E; [|by apply Hsame]. by apply keeps_create in E.
  - unfold ensure_superadmin. destruct (negb _); [by apply Hsame |]. destruct (get_user_by_username _ _); [by apply Hsame |].
    destruct (insert_user _ w) as [[i w']|] eqn:E; [|by apply Hsame].
    apply insert_user_ok in E as (_ & _ & _ & ->); [|done]. by apply keeps_insert, wf_users.
Qed.

Lemma run_keeps_accounts w w' : wf w -> rtc (step hash get_roles) w w' -> wf w' /\ keeps_accounts w w'.
Proof.
  intros Hw Hr. induction Hr as [w|w w1 w' Hs _ IH]; [split; [done | intros i u Hu; by exists u] |].
  destruct IH as [Hw' Hk]; [by eapply account_step_wf |]. split; [done |]. intros i u Hu.
  destruct (step_keeps_accounts w w1 Hw Hs i u Hu) as (u1 & H1 & E1).
  destruct (Hk i u1 H1) as (u2 & H2 & E2). exists u2. split; [done | congruence].
Qed.

Lemma growth_step w w' : growth hash get_roles w w' -> step hash get_roles w w'.
Proof. intros Hg. destruct Hg; by econstructor. Qed.

(** *** Counting administrators *)

(** The rows of the role table only grow. *)
Definition more_rows (c c' : casbin) : Prop := exists l, casbin_rule c' = casbin_rule c ++ l.

Lemma admin_rows_grow u c c' : more_rows c c' -> (admin_rows u c <= admin_rows u c')%nat.
Proof. intros [l E]. unfold admin_rows. rewrite E. unfold count. rewrite List.filter_app, length_app. lia. Qed.

Lemma count_grows excluded w w' :
  more_rows (authz w) (authz w') -> (exists l, rows (users w') = rows (users w) ++ l) ->
  (count_active_admins excluded w <= count_active_admins excluded w')%nat.
Proof.
  intros Hc [l Hu]. unfold count_active_admins, select. rewrite Hu, List.filter_app, foldr_app.
  set (k := foldr _ _ (List.filter _ l)). clearbody k. induction (List.filter _ (rows (users w))) as [|x xs IH]; simpl; [lia |].
  pose proof (admin_rows_grow x.2 _ _ Hc). lia.
Qed.

Lemma more_add_role name role d c : more_rows c (add_role_for_user_in_domain name role d c).
Proof. unfold add_role_for_user_in_domain. destruct (decide _); [exists []; by rewrite app_nil_r | by eexists]. Qed.

Lemma growth_counts excluded w w' :
  wf w -> growth hash get_roles w w' -> (count_active_admins excluded w <= count_active_admins excluded w')%nat.
Proof.
  intros Hw Hg.
  assert (forall x : world, users x = users w -> more_rows (authz w) (authz x) ->
    (count_active_admins excluded w <= count_active_admins excluded x)%nat) as Hroles.
  { intros x Hx Hm. apply count_grows; [done |]. exists []. by rewrite Hx, app_nil_r. }
  assert (forall now name mail h role tenant, (count_active_admins excluded w <=
    count_active_admins excluded (match create_user now name mail h role tenant w with Ok (_, w') => w' | Raise c => with_authz w c end))%nat)
    as Hcreate.
  { intros now name mail h role tenant. destruct (create_user _ _ _ _ _ _ w) as [[i w1]|c] eqn:E.
    - apply create_user_ok in E as (_ & _ & t & Hu & _ & Ha); [|done]. apply count_grows.
      + rewrite Ha. apply more_add_role.
      + rewrite Hu. by eexists.
    - by rewrite (create_user_raise _ _ _ _ _ _ _ _ Hw E). }
  destruct Hg as [now body w | name role w | now body claims w | i t r w w' _ Hadd | now b w | now s b w].
  - specialize (Hcreate now (new_username body) (new_email body) (hash (new_password body)) "user" None).
    unfold register. destruct (create_user _ _ _ _ _ _ w) as [[i w']|c]; [|done]. by destruct (get i (users w')).
  - apply Hroles; unfold assign_role; destruct (get_user_by_username _ _) as [[i u]|]; try done;
      destruct (more_add_role name role "*" (authz w)) as [l E];
      exists (l ++ [(name, role, "*"%string)]); simpl; by rewrite E, app_assoc.
  - unfold create_admin. destruct (sub_or_401 claims); [|simpl; lia].
    specialize (Hcreate now (new_username body) (new_email body) (hash (new_password body)) "admin" (new_tenant_id body)).
    destruct (create_user _ _ _ _ _ _ w) as [[i w']|c]; [|done]. by destruct (get i (users w')).
  - apply Hroles; unfold add_tenant_to_user in Hadd; destruct (Db.scalar _ _) as [[j x]|];
      try (destruct (decide _)); try (destruct (_ && _)); simplify_eq; try done; by exists []; rewrite app_nil_r.
  - unfold bootstrap_initial_admin. destruct (_ || _); [lia |]. destruct (_ <? _)%nat; [lia |]. apply Hcreate.
  - unfold ensure_superadmin. destruct (negb _); [simpl; lia |]. destruct (get_user_by_username _ _); [simpl; lia |].
    destruct (insert_user _ w) as [[i w']|] eqn:E; [|simpl; lia].
    apply insert_user_ok in E as (_ & _ & _ & ->); [|done]. apply count_grows; [exists []; by rewrite app_nil_r | by eexists].
Qed.

Lemma growths_count excluded w w' :
  wf w -> rtc (growth hash get_roles) w w' -> (count_active_admins excluded w <= count_active_admins excluded w')%nat.
Proof.
  intros Hw Hr. induction Hr as [w|w w1 w' Hg _ IH]; [lia |]. pose proof (growth_counts excluded w w1 Hw Hg).
  assert (wf w1) by (by eapply account_step_wf, growth_step). specialize (IH ltac:(done)). lia.
Qed.

(** Switching an account off leaves the administrators other than it. *)
Lemma count_deleted now i u w :
  wf w -> get i (users w) = Some u -> str_truthy (username u) = true ->
  count_active_admins None (set_user (set_deleted now) i w) = count_active_admins (Some (username u)) w.
Proof.
  intros Hw Hg Hname. unfold count_active_admins. cbn [users set_user with_users authz]. f_equal.
  apply select_update_drop; [apply Hw |]. intros j v Hv. destruct (Z.eqb_spec i j) as [<-|Hne].
  - assert (v = u) as -> by congruence. cbn [is_active set_deleted andb]. split; [done |].
    rewrite Hname, bool_decide_true by done. by destruct (is_active u).
  - rewrite (bool_decide_false (username v = username u)); [by rewrite andb_false_r |].
    intros Hx. apply Hne. apply (unique_username _ Hw i j u v (username u)); try done. by f_equal.
Qed.

(** C37: A deletion reads its target, later its roles, later counts the other
    administrators and later deletes; whatever other requests commit before the count, and
    whatever requests that take no administrator away between the count and the deletion
    (none that deletes or switches off an account or changes a role for all tenants): the
    target, whose name is not empty, is an active account other than the caller's, it is then neither found nor
    able to log in, and if it was an administrator's there is still another active
    administrator.  [delete_user_route] is the case in which nothing intervenes. *)
Theorem deletion_keeps_an_admin now i caller u w1 w1' w2 w3 :
  wf w1 -> read_target i caller w1 = Ok u -> str_truthy (username u) = true ->
  rtc (step hash get_roles) w1 w1' -> rtc (step hash get_roles) w1' w2 ->
  check_last_admin get_roles u w1' w2 = Ok tt -> rtc (growth hash get_roles) w2 w3 ->
  let w' := (delete_user now i w3).2 in
  get_user_by_id i w1 = Some u /\ username u <> caller /\
  get_user_by_id i w' = None /\ get_user_by_username (username u) w' = None /\
  (has_role_in_domain get_roles (username u) "admin" (user_tenant_id u) (authz w1') = true ->
   (0 < count_active_admins None w')%nat).
Proof.
  intros Hw1 Hread Hname H11 H1'2 Hcheck H23. assert (rtc (step hash get_roles) w1 w2) as H12 by (by etrans).
  assert (get_user_by_id i w1 = Some u /\ username u <> caller) as [Eu Ec].
  { unfold read_target in Hread. destruct (get_user_by_id i w1) as [v|]; [|done].
    destruct (bool_decide (username v = caller)) eqn:Ec; [done |]. apply bool_decide_eq_false in Ec. by injection Hread as <-. }
  assert (get i (users w1) = Some u) as Hg.
  { unfold get_user_by_id in Eu. destruct (get i (users w1)) as [v|]; [|done]. by destruct (is_active v). }
  destruct (run_keeps_accounts w1 w2 Hw1 H12) as [Hw2 Hk2].
  assert (rtc (step hash get_roles) w2 w3) as H23'
    by (eapply (rtc_congruence id); [|exact H23]; intros x y; apply growth_step).
  destruct (run_keeps_accounts w2 w3 Hw2 H23') as [Hw3 Hk3].
  destruct (Hk2 i u Hg) as (u2 & Hg2 & E2). destruct (Hk3 i u2 Hg2) as (u3 & Hg3 & E3).
  assert (username u3 = username u) as E by congruence. clear E2 E3.
  intros w'. assert (get i (users w') = Some (set_deleted now u3) \/ (w' = w3 /\ is_active u3 = false)) as Hg'.
  { unfold w', delete_user, get_user_by_id. rewrite Hg3. destruct (is_active u3) eqn:Ha; [left | by right].
    cbn [snd users set_user with_users]. by rewrite get_update, Z.eqb_refl, Hg3. }
  assert (wf w') as Hw'.
  { unfold w', delete_user. destruct (get_user_by_id i w3); [by apply wf_set_deleted | done]. }
  split_and!; [done | done | | |].
  - unfold get_user_by_id. destruct Hg' as [->|[-> Ha]]; [done |]. by rewrite Hg3, Ha.
  - rewrite <- E. destruct Hg' as [Hg'|[Ew Ha]].
    + exact (by_username w' i (set_deleted now u3) Hw' Hg').
    + rewrite Ew, (by_username w3 i u3) by done. by rewrite Ha.
  - intros Hadm. unfold check_last_admin in Hcheck. rewrite Hadm in Hcheck. cbn [andb] in Hcheck.
    destruct (count_active_admins (Some (username u)) w2 =? 0)%nat eqn:E0; [done |]. apply Nat.eqb_neq in E0.
    pose proof (growths_count (Some (username u)) w2 w3 Hw2 H23) as Hmono.
    assert (count_active_admins (Some (username u)) w3 <= count_active_admins None w')%nat; [|lia].
    unfold w', delete_user. destruct (get_user_by_id i w3) eqn:E3; cbn [snd].
    + rewrite (count_deleted now i u3 w3 Hw3 Hg3) by by rewrite E. by rewrite E.
    + assert (is_active u3 = false) as Ha by (unfold get_user_by_id in E3; rewrite Hg3 in E3; by destruct (is_active u3)).
      rewrite <- E, <- (count_deleted now i u3 w3 Hw3 Hg3) by by rewrite E.
      unfold count_active_admins. cbn [users set_user with_users authz]. apply Nat.eq_le_incl. f_equal.
      apply select_update_drop; [apply Hw3 |]. intros j v Hv. destruct (Z.eqb_spec i j) as [<-|]; [|done].
      split; [done |]. by assert (v = u3) as -> by congruence; rewrite Ha.
Qed.

End facts.
End UserTheorems.

Module UserWitnesses.
Import Jwt.Dict Tokens Roles Users UserFacts UserTheorems.
#[local] Existing Instance PlainJwt.plain.
#[local] Existing Instance PlainJwt.laws.

(** The database is made from the models, except where it is said to be migrated. *)
#[local] Instance declared : Database := true.
Definition migrated : Database := false.

Definition plain_hash (p : string) : string := "#" +:+ p.
Definition plain_verify (p h : string) : bool := bool_decide (h = plain_hash p).
(** The role manager on direct rules. *)
Definition direct_roles (rs : list (string * string * string)) (u d : string) : list string :=
  omap (fun '(v0, v1, v2) => if bool_decide (v0 = u) && (bool_decide (v2 = d) || bool_decide (v2 = "*")) then Some v1 else None) rs.

Definition mallory : UserCreate := Create "root" "m@example.com" "password" None.
Definition ann : UserCreate := Create "ann" "ann@example.com" "password" None.
Definition service : dict := [("sub", JStr "setup")].

Definition two_admins : world :=
  snd (create_admin plain_hash direct_roles 5 ann service
    (snd (create_admin plain_hash direct_roles 3 (Create "bob" "bob@example.com" "password" None) service empty_world))).

Lemma two_admins_reachable : rtc (step plain_hash direct_roles) empty_world two_admins.
Proof. eapply rtc_l; [apply step_create_admin |]. eapply rtc_l; [apply step_create_admin | constructor]. Qed.


(** On a migrated database an administrator is created in a tenant that does not exist;
    on one made from the models the request is refused. *)
Lemma migrated_admin_of_unknown_tenant :
  let body := Create "ann" "ann@example.com" "password" (Some 77) in
  (exists r w, create_admin (D := migrated) plain_hash direct_roles 3 body service empty_world = (Ok r, w) /\
     response_tenant_id r = Some 77 /\ get 77 (tenants w) = None /\ length (rows (users w)) = 1%nat) /\
  create_admin plain_hash direct_roles 3 body service empty_world =
    (http 409 "Username or email already registered.", empty_world).
Proof. split; [do 2 eexists; split; [vm_compute; reflexivity | by vm_compute] | by vm_compute]. Qed.

Lemma registration_witness :
  response_role <$> match (register plain_hash 1 mallory empty_world).1 with Ok r => Some r | Raise _ => None end = Some "user".
Proof.
  pose proof (registration plain_hash plain_verify 1 mallory empty_world wf_empty_world) as H.
  destruct (register plain_hash 1 mallory empty_world) as [[r|e] w'] eqn:E; [|by vm_compute in E].
  destruct H as (_ & _ & Hr & _). cbn. by rewrite Hr.
Defined.

Lemma superadmin_name_can_be_registered_witness :
  exists claims, (casbin_guard UserAuthWitnesses.no_text (fun _ _ _ => false) true UserAuthWitnesses.settings ["admin"] claims).1 =
    Ok claims.
Proof.
  destruct (superadmin_name_can_be_registered plain_hash plain_verify 1 mallory empty_world UserAuthWitnesses.settings
              2000000 "id" "session" UserAuthWitnesses.no_text (fun _ _ _ => false) true ["admin"])
    as (_ & _ & _ & claims & _ & _ & Hg);
    [apply wf_empty_world | reflexivity | reflexivity | by intros | by intros | by vm_compute | by vm_compute |].
  exists claims. exact Hg.
Defined.

Lemma direct_roles_complete rs u r d : (u, r, d) ∈ rs -> r ∈ direct_roles rs u d.
Proof.
  intros Hin. unfold direct_roles. apply list_elem_of_omap. exists (u, r, d). split; [done |].
  by rewrite !bool_decide_true by done.
Qed.

Lemma role_replaced_witness :
  ("ann", "admin", "*")%string ∉ rules (authz (update_user_role direct_roles "ann" "user" two_admins).2).
Proof.
  destruct (update_user_role direct_roles "ann" "user" two_admins) as [[x|] w'] eqn:Eu; [|by vm_compute in Eu].
  destruct (role_replaced plain_hash plain_verify direct_roles "ann" "user" two_admins x w' direct_roles_complete Eu) as [Hr _].
  intros Hin. by apply Hr in Hin.
Defined.

(** The deletion of bob, with a registration between the count and the deletion. *)
Definition joined : world := snd (register plain_hash 8 mallory two_admins).

Lemma deletion_keeps_an_admin_witness : (0 < count_active_admins None (snd (delete_user 9 1 joined)))%nat.
Proof.
  destruct (read_target 1 "ann" two_admins) as [u|] eqn:Eu; [|by vm_compute in Eu].
  destruct (deletion_keeps_an_admin plain_hash direct_roles 9 1 "ann" u two_admins two_admins two_admins joined)
    as (_ & _ & _ & _ & H).
  - apply (UserTheorems.rtc_wf plain_hash direct_roles), two_admins_reachable.
  - exact Eu.
  - vm_compute in Eu. injection Eu as <-. reflexivity.
  - apply rtc_refl.
  - apply rtc_refl.
  - vm_compute in Eu. injection Eu as <-. by vm_compute.
  - apply rtc_once. apply growth_register.
  - apply H. vm_compute in Eu. injection Eu as <-. by vm_compute.
Defined.

(** Two requests that delete the last two administrators, each counted before the
    other has deleted, leave none: the check takes no lock. *)
Lemma concurrent_deletions_leave_no_admin :
  exists bob ann', read_target 1 "ann" two_admins = Ok bob /\ read_target 2 "bob" two_admins = Ok ann' /\
    check_last_admin direct_roles bob two_admins two_admins = Ok tt /\ check_last_admin direct_roles ann' two_admins two_admins = Ok tt /\
    count_active_admins None two_admins = 2%nat /\
    count_active_admins None (snd (delete_user 9 2 (snd (delete_user 9 1 two_admins)))) = 0%nat.
Proof. do 2 eexists. split; [vm_compute; reflexivity |]. split; [vm_compute; reflexivity |]. by vm_compute. Qed.

(** The protection of the last administrator does not extend to PATCH: switching the
    account off leaves none, and nobody to switch it on again. *)
Example last_admin_can_be_deactivated :
  let w := snd (create_admin plain_hash direct_roles 3 ann service empty_world) in
  let w' := snd (update_user_route direct_roles 9 1 (Update None (Some (Some false))) [("sub", JStr "ann")] w) in
  count_active_admins None w = 1%nat /\ count_active_admins None w' = 0%nat.
Proof. by vm_compute. Qed.

(** Promoting a name that does not exist answers 404 and keeps the rule, for all tenants:
    whoever registers the name later is an administrator. *)
Example role_of_unknown_name_is_kept :
  let '(r, w) := assign_role direct_roles "ann" "admin" empty_world in
  r = http 404 "User not found." /\
  let w' := snd (register plain_hash 3 ann w) in
  has_role_in_domain direct_roles "ann" "admin" (Some 1) (authz w') = true.
Proof. by vm_compute. Qed.

End UserWitnesses.
