(* ===== verification/AuditTrail.v ===== *)
(** * The security audit trail

    [repositories/security_audit.py] and [core/security/audit.py]: events appended to a
    chain of hashes, each over the event and its predecessor's hash, and the emitter
    that never fails its caller.

    SHA-256, [datetime.isoformat] and the text of a float are parameters; the JSON text
    that is hashed is written out. *)

From S2P Require Import Prelude Db.

Module AuditTrail.

(** ** [json.dumps(payload, sort_keys=True, separators=(",", ":"))] *)

Section Json.
Context (float_repr : Q -> string).

Definition double_quote : ascii := ascii_of_nat 34.

Definition hex_digit (n : nat) : ascii :=
  ascii_of_nat (if (n <? 10)%nat then 48 + n else 87 + n).

(** A character inside a JSON string. *)
Definition escape (c : ascii) : string :=
  let n := nat_of_ascii c in
  let backslash x := String "\" (String x EmptyString) in
  if (n =? 34)%nat then backslash double_quote
  else if (n =? 92)%nat then backslash "\"%char
  else if (n =? 10)%nat then backslash "n"%char
  else if (n =? 13)%nat then backslash "r"%char
  else if (n =? 9)%nat then backslash "t"%char
  else if (n =? 12)%nat then backslash "f"%char
  else if (n =? 8)%nat then backslash "b"%char
  else if ((n <? 32) || (127 <? n))%nat then
    "\u00" +:+ String (hex_digit (n / 16)) (String (hex_digit (n mod 16)) EmptyString)
  else String c EmptyString.

Fixpoint escape_all (s : string) : string :=
  match s with
  | EmptyString => EmptyString
  | String c s => escape c +:+ escape_all s
  end.

Definition quoted (s : string) : string :=
  String double_quote (escape_all s +:+ String double_quote EmptyString).

Fixpoint _canonical_json (j : json) : string :=
  match j with
  | JNull => "null"
  | JBool true => "true"
  | JBool false => "false"
  | JInt z => str_of_Z z
  | JFloat q => float_repr q
  | JStr s => quoted s
  | JList l => "[" +:+ String.concat "," (map _canonical_json l) +:+ "]"
  | JObj l =>
      let items := order_by (fun x y : string * string => String.leb x.1 y.1)
                     (map (fun x => (x.1, _canonical_json x.2)) l) in
      "{" +:+ String.concat "," (map (fun x => quoted x.1 +:+ ":" +:+ x.2) items) +:+ "}"
  end.
End Json.

(** ** Rows *)

Record SecurityEvent := Event {
  event_type : string;
  action : string;
  decision : string;
  reason : option string;
  actor_type : string;
  actor_id : option string;
  tenant_id : option Z;
  resource_type : option string;
  resource_id : option string;
  correlation_id : option string;
  ip_address : option string;
  user_agent : option string;
  event_metadata : option (list (string * json));
  prev_event_hash : option string;
  event_hash : option string;
  created_at : datetime
}.

(** The rows of category audit. *)
Abbreviation trail := (table SecurityEvent) (only parsing).

(** The arguments of an append, without their default [None]s. *)
Record arguments := Arguments_ {
  arg_event_type : string;
  arg_action : string;
  arg_decision : string;
  arg_actor_type : string;
  arg_actor_id : option string;
  arg_tenant_id : option Z;
  arg_reason : option string;
  arg_resource_type : option string;
  arg_resource_id : option string;
  arg_correlation_id : option string;
  arg_ip_address : option string;
  arg_user_agent : option string;
  arg_metadata_json : option (list (string * json))
}.

Section Trail.
Context (sha256 : string -> string) (isoformat : datetime -> string) (float_repr : Q -> string).

(** ** The hash *)

(** The fields that are joined with bars. *)
Definition hashed_fields (prev : option string) (at_ : datetime) (event_type action decision actor_type : string)
    (actor_id : option string) (tenant_id : option Z) (resource_type resource_id : option string)
    (metadata : list (string * json)) : list string :=
  [or_else prev ""; isoformat at_; event_type; action; decision; actor_type; or_else actor_id "";
   match tenant_id with Some t => str_of_Z t | None => "" end; or_else resource_type ""; or_else resource_id "";
   _canonical_json float_repr (JObj metadata)].

Definition _compute_event_hash (prev : option string) (at_ : datetime) (event_type action decision actor_type : string)
    (actor_id : option string) (tenant_id : option Z) (resource_type resource_id : option string)
    (metadata : list (string * json)) : string :=
  sha256 (String.concat "|" (hashed_fields prev at_ event_type action decision actor_type actor_id tenant_id
                               resource_type resource_id metadata)).

(** ** Appending

    The append reads the last hash and later inserts; the two are separate statements of
    one session, so others may come in between. *)

Definition last_hash (t : trail) : option string :=
  match last (rows t) with
  | Some (_, e) => event_hash e
  | None => None
  end.

(** The constructor is given [metadata], which is not a column: the column
    [event_metadata] stays null. *)
Definition new_row (prev : option string) (now : datetime) (a : arguments) : SecurityEvent :=
  let metadata := or_else (arg_metadata_json a) [] in
  Event (arg_event_type a) (arg_action a) (arg_decision a) (arg_reason a) (arg_actor_type a) (arg_actor_id a)
    (arg_tenant_id a) (arg_resource_type a) (arg_resource_id a) (arg_correlation_id a) (arg_ip_address a)
    (arg_user_agent a) None prev
    (Some (_compute_event_hash prev now (arg_event_type a) (arg_action a) (arg_decision a) (arg_actor_type a)
             (arg_actor_id a) (arg_tenant_id a) (arg_resource_type a) (arg_resource_id a) metadata))
    now.

Definition append_security_audit_event (now : datetime) (a : arguments) (t : trail) : Z * trail :=
  insert (new_row (last_hash t) now a) t.

(** The emitter: an append whose failure ([failing]) is logged and swallowed. *)
Definition emit_security_audit_event (failing : bool) (now : datetime) (a : arguments) (t : trail) : trail :=
  if failing then t else snd (append_security_audit_event now a t).

(** ** Concurrent appends: each reads the last hash, then inserts *)

Record pending := Pending { read_hash : option string; args : arguments }.

Record state := State { stored : trail; in_flight : list pending }.

Inductive step : state -> state -> Prop :=
| step_read a s : step s (State (stored s) (in_flight s ++ [Pending (last_hash (stored s)) a]))
| step_insert now p before after s :
    in_flight s = before ++ p :: after ->
    step s (State (snd (insert (new_row (read_hash p) now (args p)) (stored s))) (before ++ after)).

(** Appends that do not overlap. *)
Inductive sequential : trail -> Prop :=
| sequential_empty : sequential (empty_table _)
| sequential_append failing now a t : sequential t -> sequential (emit_security_audit_event failing now a t).

(** ** What an auditor checks *)

(** The hash that the columns of a row give. *)
Definition row_fields (e : SecurityEvent) : list string :=
  hashed_fields (prev_event_hash e) (created_at e) (event_type e) (action e) (decision e) (actor_type e) (actor_id e)
    (tenant_id e) (resource_type e) (resource_id e) (or_else (event_metadata e) []).

Definition row_verifies (e : SecurityEvent) : Prop :=
  event_hash e = Some (sha256 (String.concat "|" (row_fields e))).

(** The links between the rows. *)
Fixpoint linked (prev : option string) (es : list SecurityEvent) : Prop :=
  match es with
  | [] => True
  | e :: es => prev_event_hash e = prev /\ linked (event_hash e) es
  end.

End Trail.
End AuditTrail.

(** ** Theorems *)

Module AuditTrailTheorems.
Import AuditTrail.

Section facts.
Context (sha256 : string -> string) (isoformat : datetime -> string) (float_repr : Q -> string).

#[local] Abbreviation hash e := (sha256 (String.concat "|" (row_fields isoformat float_repr e))) (only parsing).

Lemma links_app prev es e :
  linked prev (es ++ [e]) <->
  linked prev es /\ prev_event_hash e = match last es with Some x => event_hash x | None => prev end.
Proof.
  revert prev. induction es as [|x es IH]; intros prev; [cbn; tauto |].
  change (prev_event_hash x = prev /\ linked (event_hash x) (es ++ [e]) <->
    (prev_event_hash x = prev /\ linked (event_hash x) es) /\
    prev_event_hash e = match last (x :: es) with Some x => event_hash x | None => prev end).
  rewrite IH. destruct es as [|y es]; [cbn; tauto |]. change (last (x :: y :: es)) with (last (y :: es)).
  destruct (last (y :: es)) eqn:E; [tauto |]. by apply last_None in E.
Qed.

Lemma last_hash_rows t : last_hash t = match last (map snd (rows t)) with Some e => event_hash e | None => None end.
Proof. unfold last_hash. change (map snd (rows t)) with (snd <$> rows t). rewrite fmap_last. by destruct (last (rows t)) as [[]|]. Qed.

(** What a row says of the arguments it was made from. *)
Lemma new_row_verifies prev now a :
  or_else (arg_metadata_json a) [] = [] -> row_verifies sha256 isoformat float_repr (new_row sha256 isoformat float_repr prev now a).
Proof. intros Hm. unfold row_verifies, new_row. cbn [event_hash]. by rewrite Hm. Qed.

(** C38: After any sequence of appends that do not overlap, with failures among them,
    each row carries its predecessor's hash, the first none, and every row made without
    metadata carries the hash of its own columns. *)
Theorem audit_chain_linked t :
  sequential sha256 isoformat float_repr t ->
  linked None (map snd (rows t)) /\
  forall now a, let e := new_row sha256 isoformat float_repr (last_hash t) now a in
    (snd (append_security_audit_event sha256 isoformat float_repr now a t)).(rows) = rows t ++ [(next_id t, e)] /\
    linked None (map snd (rows t) ++ [e]) /\
    (or_else (arg_metadata_json a) [] = [] -> row_verifies sha256 isoformat float_repr e).
Proof.
  intros Hs. assert (linked None (map snd (rows t))) as Hl.
  { induction Hs as [|failing now a t Hs IH]; [done |]. unfold emit_security_audit_event. destruct failing; [done |].
    cbn [append_security_audit_event insert snd rows]. rewrite map_app. cbn [map]. apply links_app.
    split; [done |]. cbn [prev_event_hash new_row snd]. by rewrite last_hash_rows. }
  split; [done |]. intros now a e. split; [done |]. split.
  - apply links_app. split; [done |]. cbn. by rewrite last_hash_rows.
  - apply new_row_verifies.
Qed.

(** *** Tampering *)

Abbreviation message e := (String.concat "|" (row_fields isoformat float_repr e)) (only parsing).
Abbreviation verifies := (row_verifies sha256 isoformat float_repr) (only parsing).

(** What is relied on of SHA-256, idealised: no two messages collide, and a digest is
    written with digits and letters only. *)
Definition collision_free : Prop :=
  (forall m m', sha256 m = sha256 m' -> m = m') /\
  forall m, sha256 m <> "" /\ free_of "|" (sha256 m) = true.

(** The predecessor's hash can be read off a message. *)
Lemma message_prev e e' :
  (forall h, prev_event_hash e = Some h -> free_of "|" h = true) ->
  (forall h, prev_event_hash e' = Some h -> free_of "|" h = true) ->
  message e = message e' -> or_else (prev_event_hash e) "" = or_else (prev_event_hash e') "".
Proof.
  intros Hb Hb' Hm.
  assert (forall e, exists rest, message e = or_else (prev_event_hash e) "" +:+ String "|" rest) as H by (intros x; by eexists).
  destruct (H e) as [r Er], (H e') as [r' Er']. rewrite Er, Er' in Hm.
  assert (forall e, (forall h, prev_event_hash e = Some h -> free_of "|" h = true) ->
            free_of "|" (or_else (prev_event_hash e) "") = true) as Hf by (intros x Hx; destruct (prev_event_hash x); auto).
  apply (f_equal (split_on "|")) in Hm. rewrite !split_on_app in Hm.
  rewrite (split_on_free _ (or_else (prev_event_hash e) "")), (split_on_free _ (or_else (prev_event_hash e') "")) in Hm by auto.
  cbn [app] in Hm. by injection Hm.
Qed.

(** A chain read from its end: every row verifies, the links hold. *)
Lemma chain_snoc l e :
  collision_free -> linked None (l ++ [e]) -> Forall verifies (l ++ [e]) ->
  linked None l /\ Forall verifies l /\ event_hash e = Some (sha256 (message e)) /\
  (forall h, prev_event_hash e = Some h -> free_of "|" h = true) /\
  (or_else (prev_event_hash e) "" = "" -> l = []) /\
  forall l0 x, l = l0 ++ [x] -> prev_event_hash e = event_hash x.
Proof.
  intros [_ Hhash] [Hl He]%links_app [Hv Hve]%Forall_app. apply Forall_inv in Hve.
  assert (forall x, last l = Some x -> event_hash x = Some (sha256 (message x))) as Hlast.
  { intros x Hx. rewrite Forall_forall in Hv. apply Hv. by apply last_Some_elem_of. }
  split_and!; [exact Hl | exact Hv | exact Hve | | |].
  - intros h Hh. rewrite He in Hh. destruct (last l) as [x|] eqn:E; [|done].
    rewrite (Hlast x eq_refl) in Hh. injection Hh as <-. apply Hhash.
  - rewrite He. destruct (last l) as [x|] eqn:E; [|intros _; by apply last_None].
    rewrite (Hlast x eq_refl). cbn [or_else]. intros H0. by destruct (Hhash (message x)).
  - intros l0 x ->. by rewrite He, last_snoc.
Qed.

(** The last hash of a chain that verifies determines every message that was hashed
    on the way: two chains that end in the same hash have as many rows, and the rows
    agree, one by one, on all that the hash covers.  So no covered field of a stored
    row can be changed, and no row left out, without the change of the last hash. *)
Theorem tampering_changes_last_hash l l' e e' :
  collision_free ->
  linked None (l ++ [e]) -> linked None (l' ++ [e']) ->
  Forall verifies (l ++ [e]) -> Forall verifies (l' ++ [e']) ->
  event_hash e = event_hash e' ->
  map (fun e => message e) (l ++ [e]) = map (fun e => message e) (l' ++ [e']).
Proof.
  intros Hcf. revert e l' e'. induction l as [|x l IH] using rev_ind; intros e l' e' Hl Hl' Hv Hv' He;
    destruct (chain_snoc _ _ Hcf Hl Hv) as (Hl0 & Hv0 & He1 & Hb & Hnil & Hlast);
    destruct (chain_snoc _ _ Hcf Hl' Hv') as (Hl0' & Hv0' & He1' & Hb' & Hnil' & Hlast');
    (assert (message e = message e') as Hm by (apply Hcf; congruence));
    pose proof (message_prev e e' Hb Hb' Hm) as Hp.
  - assert (prev_event_hash e = None) as Hnone by (apply links_app in Hl as [_ ->]; done).
    rewrite Hnone in Hp. rewrite (Hnil' (eq_sym Hp)). cbn [map app]. by rewrite Hm.
  - destruct l' as [|x' l' _] using rev_ind.
    { assert (prev_event_hash e' = None) as Hnone by (apply links_app in Hl' as [_ ->]; done).
      rewrite Hnone in Hp. specialize (Hnil Hp). by destruct l. }
    rewrite (map_app _ (l ++ [x]) [e]), (map_app _ (l' ++ [x']) [e']). f_equal; [|cbn [map]; by rewrite Hm]. apply IH; try done.
    rewrite (Hlast l x eq_refl), (Hlast' l' x' eq_refl) in Hp.
    destruct (chain_snoc _ _ Hcf Hl0 Hv0) as (_ & _ & Hx & _).
    destruct (chain_snoc _ _ Hcf Hl0' Hv0') as (_ & _ & Hx' & _).
    rewrite Hx, Hx' in Hp |- *. by cbn in Hp; f_equal.
Qed.

(** The last of the joined fields. *)
Lemma concat_last_inj sep (l : list string) x y :
  String.concat sep (l ++ [x]) = String.concat sep (l ++ [y]) -> x = y.
Proof.
  induction l as [|w l IH]; [done |]. destruct l as [|w' l]; cbn [app String.concat]; intros H.
  - by apply (inj (String.append w)), (inj (String.append sep)) in H.
  - apply (inj (String.append w)), (inj (String.append sep)) in H. by apply IH.
Qed.

Lemma empty_object_text l : _canonical_json float_repr (JObj l) = "{}" -> l = [].
Proof.
  cbn [_canonical_json]. set (items := order_by _ _).
  assert (length items = length l) as Hlen by (unfold items; rewrite order_by_length, length_map; done).
  intros H. destruct items as [|[k t] items]; [by destruct l |]. exfalso. revert H. unfold quoted. cbn [map fst snd].
  destruct items; discriminate.
Qed.

(** A row made with metadata does not carry the hash of its own columns: the
    metadata enters the hash and is not stored. *)
Theorem metadata_is_hashed_but_not_stored prev now a :
  collision_free -> or_else (arg_metadata_json a) [] <> [] ->
  let e := new_row sha256 isoformat float_repr prev now a in event_metadata e = None /\ ~ verifies e.
Proof.
  intros [Hinj _] Hm e. split; [done |]. unfold row_verifies. intros [= H%Hinj]. apply Hm, empty_object_text.
  apply (concat_last_inj "|" (take 10 (row_fields isoformat float_repr e))). exact H.
Qed.

End facts.
End AuditTrailTheorems.

Module AuditTrailWitnesses.
Import AuditTrail AuditTrailTheorems.

(** A digest that collides with no other: the message, spelled out with two letters. *)
Fixpoint spell (s : string) : string :=
  match s with
  | EmptyString => "x"
  | String (Ascii a b c d e f g h) s =>
      let bit (x : bool) : ascii := if x then "1"%char else "0"%char in
      String (bit a) (String (bit b) (String (bit c) (String (bit d)
        (String (bit e) (String (bit f) (String (bit g) (String (bit h) (spell s))))))))
  end.

Lemma spell_collision_free : collision_free spell.
Proof.
  split.
  - intros m. induction m as [|[a b c d e f g h] m IH]; intros [|[a' b' c' d' e' f' g' h'] m']; [done | | |].
    + by destruct a'.
    + by destruct a.
    + cbn. intros [= Ha Hb Hc Hd He Hf Hg Hh Hm].
      assert (forall x y : bool, (if x then "1"%char else "0"%char) = (if y then "1"%char else "0"%char) -> x = y) as Hbit
        by (by intros [] []).
      apply Hbit in Ha, Hb, Hc, Hd, He, Hf, Hg, Hh. apply IH in Hm. by subst.
  - intros m. split; [by destruct m as [|[[] ? ? ? ? ? ? ?] m] |].
    induction m as [|[a b c d e f g h] m IH]; [done |]. cbn.
    rewrite IH. by destruct a, b, c, d, e, f, g, h.
Qed.

Definition iso (t : datetime) : string := str_of_Z t.
Definition no_floats (_ : Q) : string := "".

Definition login_event : arguments :=
  Arguments_ "auth.jwt" "verify_token" "allow" "user" (Some "bob") (Some 7) None None None None None None None.
Definition with_source : arguments :=
  Arguments_ "auth.jwt" "verify_token" "allow" "user" (Some "bob") (Some 7) None None None None None None
    (Some [("source", JStr "http_header")]).

Definition two_events : table SecurityEvent :=
  snd (append_security_audit_event spell iso no_floats 2 login_event
    (snd (append_security_audit_event spell iso no_floats 1 login_event (empty_table _)))).

Lemma two_events_sequential : sequential spell iso no_floats two_events.
Proof.
  apply (sequential_append spell iso no_floats false 2 login_event),
        (sequential_append spell iso no_floats false 1 login_event), sequential_empty.
Qed.

Lemma audit_chain_linked_witness : linked None (map snd (rows two_events)).
Proof. apply (audit_chain_linked spell iso no_floats), two_events_sequential. Defined.

Definition event_at (n : nat) : SecurityEvent :=
  match rows two_events !! n with Some x => x.2 | None => new_row spell iso no_floats None 0 login_event end.

Lemma tampering_changes_last_hash_witness :
  map (fun e => String.concat "|" (row_fields iso no_floats e)) ([event_at 0] ++ [event_at 1]) =
  map (fun e => String.concat "|" (row_fields iso no_floats e)) ([event_at 0] ++ [event_at 1]).
Proof.
  apply (tampering_changes_last_hash spell iso no_floats [event_at 0] [event_at 0] (event_at 1) (event_at 1)).
  - apply spell_collision_free.
  - by vm_compute.
  - by vm_compute.
  - repeat constructor; by vm_compute.
  - repeat constructor; by vm_compute.
  - reflexivity.
Defined.

Lemma metadata_is_hashed_but_not_stored_witness :
  ~ row_verifies spell iso no_floats (new_row spell iso no_floats None 1 with_source).
Proof.
  apply (metadata_is_hashed_but_not_stored spell iso no_floats None 1 with_source spell_collision_free). by vm_compute.
Defined.

(** Two appends at the same time read the same last hash: the chain forks, and no longer
    links. *)
Example concurrent_appends_fork :
  exists s, rtc (step spell iso no_floats) (State (empty_table _) []) s /\
    map (fun x => prev_event_hash x.2) (rows (stored s)) = [None; None].
Proof.
  eexists. split.
  - eapply rtc_l; [apply (step_read spell iso no_floats login_event) |].
    eapply rtc_l; [apply (step_read spell iso no_floats login_event) |].
    eapply rtc_l; [apply (step_insert spell iso no_floats 1 (Pending None login_event) [] [Pending None login_event]); reflexivity |].
    eapply rtc_l; [apply (step_insert spell iso no_floats 2 (Pending None login_event) [] []); reflexivity |].
    constructor.
  - reflexivity.
Qed.

(** The fields are joined with bars that are not escaped: an actor whose name has one
    hashes like another event. *)
Example bars_are_ambiguous :
  let row actor resource := new_row spell iso no_floats None 1
    (Arguments_ "auth.jwt" "verify_token" "allow" "user" (Some actor) None None (Some resource) None None None None None) in
  row "bob||file" "" <> row "bob" "file||" /\
  event_hash (row "bob||file" "") = event_hash (row "bob" "file||").
Proof. by vm_compute. Qed.

End AuditTrailWitnesses.
