(* ===== verification/BackgroundWorkers.v ===== *)
(** * The background worker pool (core/background_workers.py,
    api/routes/background_processing.py)

    The in-process pool as a transition system.  What a worker does between two
    [await]s is one step: taking a task off the queue up to the processor, the
    processor's outcome up to the callback or the next [queue.get], and the end of
    the callback.  The processor and the callback run between the steps; a
    cancellation reaches a worker where it waits and passes through them.  The
    status objects are shared: the pool's dictionary and the worker that runs a task
    refer to the same object, which lives on in the worker's hands when the
    dictionary forgets it.  Objects are therefore a store by task id, and the
    dictionary is the set of the ids it still has. *)

From S2P Require Import Prelude Incidents.

Module BackgroundWorkers.
Import Incidents.

Inductive TaskState := queued | running | succeeded | failed | cancelled.

#[export] Instance TaskState_eq_dec : EqDecision TaskState.
Proof. solve_decision. Defined.

(** [core/config.py]: the bounds of the three settings. *)
Record config := Config {
  _worker_count : Z;
  queue_maxsize : Z;
  _max_tracked_tasks : Z;
  has_callback : bool
}.

Definition valid_settings (cfg : config) : bool :=
  (1 <=? _worker_count cfg) && (_worker_count cfg <=? 32) &&
  (1 <=? queue_maxsize cfg) && (queue_maxsize cfg <=? 10000) &&
  (10 <=? _max_tracked_tasks cfg) && (_max_tracked_tasks cfg <=? 50000).

Section Pool.
(** An [ObservationRequest] and the dictionary a processor returns. *)
Context {Obs R : Type}.
Context (cfg : config).

Record BackgroundTaskStatus := Status {
  status : TaskState;
  batch_size : Z;
  queued_at : datetime;
  started_at : option datetime;
  finished_at : option datetime;
  task_result : option R;
  error : option string
}.

(** Where a worker is: in [queue.get], awaiting the processor or the callback, or
    dead of a [KeyError]. *)
Inductive worker :=
| Waiting
| Processing (task_id : string) (observations : list Obs)
| Notifying (task_id : string)
| Crashed.

(** [unfinished] is the queue's own count, which [task_done] lowers. *)
Record pool := Pool {
  _queue : list (string * list Obs);
  unfinished : Z;
  _workers : list worker;
  _statuses : gset string;
  objects : gmap string BackgroundTaskStatus;
  _order : list string;
  _running : bool
}.

Definition init : pool := Pool [] 0 [] ∅ ∅ [] false.

(** [asyncio.Queue.full]. *)
Definition full (p : pool) : bool :=
  (0 <? queue_maxsize cfg) && (queue_maxsize cfg <=? Z.of_nat (length (_queue p))).

Definition start (p : pool) : pool :=
  if _running p then p
  else Pool (_queue p) (unfinished p) (replicate (Z.to_nat (_worker_count cfg)) Waiting)
         (_statuses p) (objects p) (_order p) true.

(** ** Changes of a status object *)

Definition set_running (now : datetime) (s : BackgroundTaskStatus) : BackgroundTaskStatus :=
  Status running (batch_size s) (queued_at s) (Some now) (finished_at s) (task_result s) (error s).

Definition set_succeeded (result : R) (s : BackgroundTaskStatus) : BackgroundTaskStatus :=
  Status succeeded (batch_size s) (queued_at s) (started_at s) (finished_at s) (Some result) (error s).

Definition set_cancelled (s : BackgroundTaskStatus) : BackgroundTaskStatus :=
  Status cancelled (batch_size s) (queued_at s) (started_at s) (finished_at s) (task_result s)
    (Some "worker task cancelled").

Definition set_failed (exc : string) (s : BackgroundTaskStatus) : BackgroundTaskStatus :=
  Status failed (batch_size s) (queued_at s) (started_at s) (finished_at s) (task_result s) (Some exc).

Definition set_finished (now : datetime) (s : BackgroundTaskStatus) : BackgroundTaskStatus :=
  Status (status s) (batch_size s) (queued_at s) (started_at s) (Some now) (task_result s) (error s).

Definition change (task_id : string) (f : BackgroundTaskStatus -> BackgroundTaskStatus) (p : pool) : pool :=
  Pool (_queue p) (unfinished p) (_workers p) (_statuses p) (alter f task_id (objects p)) (_order p) (_running p).

Definition set_worker (w : nat) (x : worker) (p : pool) : pool :=
  Pool (_queue p) (unfinished p) (<[w := x]> (_workers p)) (_statuses p) (objects p) (_order p) (_running p).

Definition task_done (p : pool) : pool :=
  Pool (_queue p) (unfinished p - 1) (_workers p) (_statuses p) (objects p) (_order p) (_running p).

(** The [finally] of the worker loop. *)
Definition finish (now : datetime) (task_id : string) (p : pool) : pool :=
  task_done (change task_id (set_finished now) p).

(** ** Stopping: every worker is cancelled where it waits *)

Definition cancel_worker (now : datetime) (x : worker) (p : pool) : pool :=
  match x with
  | Waiting | Crashed => p
  | Processing task_id _ => finish now task_id (change task_id set_cancelled p)
  | Notifying task_id => finish now task_id p
  end.

(** [now] is what the clock reads when the cancelled workers end. *)
Definition stop (now : datetime) (p : pool) : pool :=
  if negb (_running p) then p
  else
    let p := foldl (fun p x => cancel_worker now x p) p (_workers p) in
    Pool (_queue p) (unfinished p) [] (_statuses p) (objects p) (_order p) false.

(** ** Submitting *)

Inductive submit_error :=
| RuntimeError (message : string)
| IndexError.

(** [while len(self._order) > self._max_tracked_tasks]; the flag is false when
    [popleft] meets an empty deque. *)
Fixpoint _trim_status_history (order : list string) (statuses : gset string)
    : list string * gset string * bool :=
  if _max_tracked_tasks cfg <? Z.of_nat (length order) then
    match order with
    | [] => ([], statuses, false)
    | oldest_id :: order => _trim_status_history order (statuses ∖ {[oldest_id]})
    end
  else (order, statuses, true).

(** [task_id]: the new [uuid4]. *)
Definition submit_batch_ingest (now : datetime) (task_id : string) (observations : list Obs) (p : pool)
    : result submit_error BackgroundTaskStatus * pool :=
  if negb (_running p) then (Raise (RuntimeError "Background worker pool is not running"), p)
  else if full p then (Raise (RuntimeError "Background queue is full"), p)
  else
    let s := Status queued (Z.of_nat (length observations)) now None None None None in
    let '(order, statuses, ok) := _trim_status_history (_order p ++ [task_id]) ({[task_id]} ∪ _statuses p) in
    let objs := <[task_id := s]> (objects p) in
    if ok then
      (Ok s, Pool (_queue p ++ [(task_id, observations)]) (unfinished p + 1) (_workers p) statuses objs order (_running p))
    else (Raise IndexError, Pool (_queue p) (unfinished p) (_workers p) statuses objs order (_running p)).

(** ** The worker loop *)

(** [await self._queue.get()] has a task, up to the processor. *)
Definition worker_takes (now : datetime) (w : nat) (p : pool) : option pool :=
  match _workers p !! w, _queue p with
  | Some Waiting, (task_id, observations) :: rest =>
      let p := Pool rest (unfinished p) (_workers p) (_statuses p) (objects p) (_order p) (_running p) in
      if bool_decide (task_id ∈ _statuses p) then
        Some (set_worker w (Processing task_id observations) (change task_id (set_running now) p))
      else Some (set_worker w Crashed p)
  | _, _ => None
  end.

(** The processor has returned or raised. *)
Definition worker_processed (now : datetime) (w : nat) (outcome : result string R) (p : pool) : option pool :=
  match _workers p !! w with
  | Some (Processing task_id _) =>
      match outcome with
      | Ok result => Some (set_worker w Waiting (finish now task_id (change task_id (set_succeeded result) p)))
      | Raise exc =>
          let p := change task_id (set_failed exc) p in
          if has_callback cfg then Some (set_worker w (Notifying task_id) p)
          else Some (set_worker w Waiting (finish now task_id p))
      end
  | _ => None
  end.

(** The callback has returned or raised: its exception is only logged. *)
Definition worker_notified (now : datetime) (w : nat) (p : pool) : option pool :=
  match _workers p !! w with
  | Some (Notifying task_id) => Some (set_worker w Waiting (finish now task_id p))
  | _ => None
  end.

(** ** Queries *)

Definition get_task_status (task_id : string) (p : pool) : option BackgroundTaskStatus :=
  if bool_decide (task_id ∈ _statuses p) then objects p !! task_id else None.

Definition tracked (p : pool) : list BackgroundTaskStatus :=
  omap (fun task_id => objects p !! task_id) (elements (_statuses p)).

Record health := Health {
  health_running : bool;
  worker_count : Z;
  queue_size : Z;
  queue_capacity : Z;
  tracked_tasks : Z;
  tasks : TaskState -> Z
}.

Definition counter (p : pool) (s : TaskState) : Z :=
  Z.of_nat (count (fun x => bool_decide (status x = s)) (tracked p)).

Definition health_summary (p : pool) : health :=
  Health (_running p) (_worker_count cfg) (Z.of_nat (length (_queue p))) (queue_maxsize cfg)
    (Z.of_nat (size (_statuses p))) (counter p).

(** ** Runs *)

Inductive event :=
| Start
| Stop (now : datetime)
| Submit (now : datetime) (task_id : string) (observations : list Obs)
| Takes (now : datetime) (w : nat)
| Processed (now : datetime) (w : nat) (outcome : result string R)
| Notified (now : datetime) (w : nat).

(** [None]: the event cannot happen in this state.  A [uuid4] is new. *)
Definition happens (e : event) (p : pool) : option pool :=
  match e with
  | Start => Some (start p)
  | Stop now => Some (stop now p)
  | Submit now task_id observations =>
      if bool_decide (objects p !! task_id = None) then Some (submit_batch_ingest now task_id observations p).2 else None
  | Takes now w => worker_takes now w p
  | Processed now w outcome => worker_processed now w outcome p
  | Notified now w => worker_notified now w p
  end.

Fixpoint run (es : list event) (p : pool) : option pool :=
  match es with
  | [] => Some p
  | e :: es => happens e p ≫= run es
  end.

Definition reachable (p : pool) : Prop := exists es, run es init = Some p.

End Pool.
Arguments BackgroundTaskStatus : clear implicits.
Arguments worker : clear implicits.
Arguments pool : clear implicits.
Arguments event : clear implicits.

(** ** Endpoints *)

Section Routes.
Context {Obs R : Type}.
Context (cfg : config).

Definition unavailable {A} : result HTTPException A :=
  Raise (HTTP 503 "Background workers are disabled or not running").

Definition pool_running (worker_pool : option (pool Obs R)) : option (pool Obs R) :=
  match worker_pool with
  | Some p => if _running p then Some p else None
  | None => None
  end.

(** The pool afterwards is [None] where it was none. *)
Definition submit_background_batch_ingest (now : datetime) (task_id : string) (observations : list Obs)
    (worker_pool : option (pool Obs R)) : result HTTPException (BackgroundTaskStatus R) * option (pool Obs R) :=
  match pool_running worker_pool with
  | None => (unavailable, worker_pool)
  | Some p =>
      match submit_batch_ingest cfg now task_id observations p with
      | (Ok s, p) => (Ok s, Some p)
      | (Raise (RuntimeError message), p) => (Raise (HTTP 429 message), Some p)
      | (Raise IndexError, p) => (Raise (HTTP 500 "Internal Server Error"), Some p)
      end
  end.

Definition get_background_task_status (task_id : string) (worker_pool : option (pool Obs R))
    : result HTTPException (BackgroundTaskStatus R) :=
  match pool_running worker_pool with
  | None => unavailable
  | Some p =>
      match get_task_status task_id p with
      | None => Raise (HTTP 404 ("Background task " +:+ task_id +:+ " not found"))
      | Some s => Ok s
      end
  end.

(** [None] is the answer [Background workers disabled]. *)
Definition get_background_workers_health (worker_pool : option (pool Obs R)) : option health :=
  option_map (health_summary cfg) worker_pool.
End Routes.
End BackgroundWorkers.

(** ** The invariant *)

Module PoolFacts.
Import BackgroundWorkers.

Section facts.
Context {Obs R : Type} (cfg : config).
Implicit Types (p : pool Obs R) (s : BackgroundTaskStatus R) (ws : list (worker Obs))
  (objs : gmap string (BackgroundTaskStatus R)).

(** The task a worker is busy with. *)
Definition holds (x : worker Obs) : option string :=
  match x with
  | Processing i _ | Notifying i => Some i
  | Waiting | Crashed => None
  end.

Definition held ws : list string := omap holds ws.

(** What each status says about the other fields. *)
Definition sane s : Prop :=
  match status s with
  | queued => started_at s = None /\ finished_at s = None /\ task_result s = None /\ error s = None
  | running => is_Some (started_at s) /\ finished_at s = None /\ task_result s = None /\ error s = None
  | succeeded => is_Some (started_at s) /\ is_Some (task_result s) /\ error s = None
  | failed => is_Some (started_at s) /\ task_result s = None /\ is_Some (error s)
  | cancelled => is_Some (started_at s) /\ task_result s = None /\ error s = Some "worker task cancelled"
  end.

Definition ended s : Prop := status s ∈ [succeeded; failed; cancelled] /\ is_Some (finished_at s).

Definition at_work objs (x : worker Obs) : Prop :=
  match x with
  | Processing i _ => exists s, objs !! i = Some s /\ status s = running
  | Notifying i => exists s, objs !! i = Some s /\ status s = failed /\ finished_at s = None
  | Waiting | Crashed => True
  end.

Record good (qs : list string) (u : Z) ws (sts : gset string) objs
    (order : list string) : Prop := {
  good_distinct : NoDup (qs ++ held ws);
  good_unfinished : Z.of_nat (length qs + length (held ws)) <= u;
  good_order : NoDup order;
  good_tracked : forall i, i ∈ sts <-> i ∈ order;
  good_known : forall i, i ∈ order -> is_Some (objs !! i);
  good_sane : forall i s, objs !! i = Some s -> sane s;
  good_queue : forall i, i ∈ qs -> exists s, objs !! i = Some s /\ status s = queued;
  good_workers : Forall (at_work objs) ws;
  good_rest : forall i s, objs !! i = Some s -> i ∉ qs -> i ∉ held ws -> ended s \/ i ∉ sts /\ status s = queued
}.

Definition queue_ids p : list string := map fst (_queue p).

Record wf p : Prop := {
  wf_good : good (queue_ids p) (unfinished p) (_workers p) (_statuses p) (objects p) (_order p);
  wf_stopped : _running p = false -> _workers p = [];
  wf_started : _running p = true -> length (_workers p) = Z.to_nat (_worker_count cfg);
  wf_history : Z.of_nat (length (_order p)) <= Z.max 0 (_max_tracked_tasks cfg);
  wf_capacity : 0 < queue_maxsize cfg -> Z.of_nat (length (_queue p)) <= queue_maxsize cfg
}.

Lemma held_cons x ws : held (x :: ws) = option_list (holds x) ++ held ws.
Proof. unfold held. simpl. by destruct (holds x). Qed.

Lemma held_perm ws ws' : ws ≡ₚ ws' -> held ws ≡ₚ held ws'.
Proof. unfold held. intros Hp. by rewrite Hp. Qed.

Lemma good_perm qs u ws ws' sts objs order :
  ws ≡ₚ ws' -> good qs u ws sts objs order -> good qs u ws' sts objs order.
Proof.
  intros Hp [? ? ? ? ? ? ? ? Hr]. pose proof (held_perm _ _ Hp) as Hh.
  split; try done; [by rewrite <- Hh | by rewrite <- Hh | by rewrite <- Hp |].
  intros i s. rewrite <- Hh. apply Hr.
Qed.

(** Replacing a worker, up to order. *)
Lemma swap_worker ws w (x y : worker Obs) :
  ws !! w = Some y -> exists l, ws ≡ₚ y :: l /\ <[w := x]> ws ≡ₚ x :: l.
Proof.
  intros Hw. exists (take w ws ++ drop (S w) ws). pose proof (lookup_lt_Some _ _ _ Hw) as Hlt. split.
  - rewrite <- (take_drop_middle ws w y Hw) at 1. by rewrite Permutation_middle.
  - rewrite insert_take_drop by done. by rewrite Permutation_middle.
Qed.

Lemma good_idle qs u x ws sts objs order :
  holds x = None -> good qs u ws sts objs order <-> good qs u (x :: ws) sts objs order.
Proof.
  intros Hx. assert (held (x :: ws) = held ws) as Hh by (by rewrite held_cons, Hx).
  assert (Forall (at_work objs) (x :: ws) <-> Forall (at_work objs) ws) as Hw.
  { rewrite Forall_cons. destruct x; simpl in *; naive_solver. }
  split; intros [? ? ? ? ? ? ? ? Hr]; split; rewrite ?Hh, ?Hw in *; try done.
Qed.

Lemma good_add qs u x ws sts objs order :
  holds x = None -> good qs u ws sts objs order -> good qs u (x :: ws) sts objs order.
Proof. intros Hx. by apply good_idle. Qed.

Lemma good_drop qs u x ws sts objs order :
  holds x = None -> good qs u (x :: ws) sts objs order -> good qs u ws sts objs order.
Proof. intros Hx. by apply good_idle. Qed.

(** A change of one object leaves what the others say. *)
Lemma known_alter objs f i j :
  is_Some (objs !! j) -> is_Some (alter f i objs !! j).
Proof. by rewrite lookup_alter_is_Some. Qed.

Lemma sane_alter objs f i :
  (forall i s, objs !! i = Some s -> sane s) -> (forall s, objs !! i = Some s -> sane s -> sane (f s)) ->
  forall j s, alter f i objs !! j = Some s -> sane s.
Proof.
  intros Hs Hf j s Hj. destruct (decide (i = j)) as [<-|Hne].
  - rewrite lookup_alter_eq in Hj. destruct (objs !! i) as [s0|] eqn:E; [|done]. simpl in Hj.
    injection Hj as <-. eauto.
  - rewrite lookup_alter_ne in Hj by done. eauto.
Qed.

Lemma at_work_alter objs f i ws :
  i ∉ held ws -> Forall (at_work objs) ws -> Forall (at_work (alter f i objs)) ws.
Proof.
  induction ws as [|x ws IH]; intros Hi Hw; [constructor |]. rewrite held_cons in Hi.
  apply Forall_cons in Hw as [Hx Hw]. constructor.
  - destruct x as [|j o|j|]; simpl in *; try done;
      rewrite lookup_alter_ne by (intros ->; apply Hi; simpl; set_solver); done.
  - apply IH; [|done]. set_solver.
Qed.

(** Taking a tracked task. *)
Lemma good_take i o qs u ws sts objs order now :
  i ∈ sts -> good (i :: qs) u (Waiting :: ws) sts objs order ->
  good qs u (Processing i o :: ws) sts (alter (set_running now) i objs) order.
Proof.
  intros Hi [Hd Hu Ho Ht Hk Hs Hq Hw Hr]. rewrite held_cons in Hd, Hu. simpl in Hd, Hu.
  apply NoDup_cons in Hd as [Hni Hd].
  apply Forall_cons in Hw as [_ Hw]. destruct (Hq i ltac:(set_solver)) as (s & Es & Hst).
  split; try done.
  - rewrite held_cons. simpl. rewrite <- Permutation_middle. by apply NoDup_cons.
  - rewrite held_cons. simpl. lia.
  - intros j Hj. apply known_alter. by apply Hk.
  - apply sane_alter; [done |]. intros s' Es' Hs'. rewrite Es in Es'. injection Es' as <-.
    unfold sane in *. rewrite Hst in Hs'. destruct Hs' as (? & ? & ? & ?). simpl. split_and!; try done.
  - intros j Hj. rewrite lookup_alter_ne by (intros ->; set_solver). apply Hq. set_solver.
  - constructor.
    + simpl. rewrite lookup_alter_eq, Es. by eexists.
    + apply at_work_alter; [|done]. set_solver.
  - intros j s' Hj Hjq Hjh. rewrite held_cons in Hjh. simpl in Hjh.
    rewrite lookup_alter_ne in Hj by (intros ->; set_solver).
    apply (Hr j s' Hj); [set_solver |]. rewrite held_cons. set_solver.
Qed.

(** A worker that meets a forgotten task dies. *)
Lemma good_crash i qs u ws sts objs order :
  i ∉ sts -> good (i :: qs) u (Waiting :: ws) sts objs order ->
  good qs u (Crashed :: ws) sts objs order.
Proof.
  intros Hi [Hd Hu Ho Ht Hk Hs Hq Hw Hr]. rewrite held_cons in Hd, Hu. simpl in Hd, Hu.
  apply NoDup_cons in Hd as [Hni Hd]. apply Forall_cons in Hw as [_ Hw]. split; try done.
  - rewrite held_cons. simpl. lia.
  - intros j Hj. apply Hq. set_solver.
  - by constructor.
  - intros j s Hj Hjq Hjh. destruct (decide (j = i)) as [->|Hne].
    + right. split; [done |]. destruct (Hq i ltac:(set_solver)) as (s' & Es' & ?). congruence.
    + apply (Hr j s Hj); [set_solver | done].
Qed.

(** A busy worker ends its task. *)
Lemma good_end x i qs u ws sts objs order f :
  holds x = Some i ->
  (forall s, objs !! i = Some s -> at_work objs x -> sane s -> sane (f s) /\ ended (f s)) ->
  good qs u (x :: ws) sts objs order -> good qs (u - 1) ws sts (alter f i objs) order.
Proof.
  intros Hx Hf [Hd Hu Ho Ht Hk Hs Hq Hw Hr]. rewrite held_cons, Hx in Hd, Hu. simpl in Hd, Hu.
  rewrite <- Permutation_middle in Hd. apply NoDup_cons in Hd as [Hni Hd]. simpl in Hu.
  apply Forall_cons in Hw as [Hxw Hw]. split; try done.
  - lia.
  - intros j Hj. apply known_alter. by apply Hk.
  - apply sane_alter; [done |]. intros s Es Hss. by apply (Hf s Es).
  - intros j Hj. rewrite lookup_alter_ne by (intros ->; set_solver). by apply Hq.
  - apply at_work_alter; [|done]. set_solver.
  - intros j s Hj Hjq Hjh. destruct (decide (i = j)) as [<-|Hne].
    + rewrite lookup_alter_eq in Hj. destruct (objs !! i) as [s0|] eqn:E; [|done]. simpl in Hj.
      injection Hj as <-. left. apply (Hf s0); [done | done | by eapply Hs].
    + rewrite lookup_alter_ne in Hj by done. apply (Hr j s Hj Hjq). rewrite held_cons, Hx. simpl. set_solver.
Qed.

(** A processor has raised, and the callback is called. *)
Lemma good_fail i o qs u ws sts objs order exc :
  good qs u (Processing i o :: ws) sts objs order ->
  good qs u (Notifying i :: ws) sts (alter (set_failed exc) i objs) order.
Proof.
  intros [Hd Hu Ho Ht Hk Hs Hq Hw Hr]. pose proof Hd as Hd'. rewrite held_cons in Hd'. simpl in Hd'.
  rewrite <- Permutation_middle in Hd'. apply NoDup_cons in Hd' as [Hni _].
  apply Forall_cons in Hw as [(s & Es & Hst) Hw]. pose proof (Hs i s Es) as Hss. unfold sane in Hss.
  rewrite Hst in Hss. destruct Hss as (? & ? & ? & ?). split; try done.
  - intros j Hj. apply known_alter. by apply Hk.
  - apply sane_alter; [done |]. intros s' Es' _. rewrite Es in Es'. injection Es' as <-.
    unfold sane. simpl. by eauto.
  - intros j Hj. rewrite lookup_alter_ne by (intros ->; set_solver). by apply Hq.
  - constructor; [simpl; rewrite lookup_alter_eq, Es; by eexists |].
    apply at_work_alter; [|done]. set_solver.
  - intros j s' Hj Hjq Hjh. rewrite held_cons in Hjh. simpl in Hjh.
    rewrite lookup_alter_ne in Hj by (intros ->; set_solver). by apply (Hr j s' Hj Hjq).
Qed.

(** [finish] after a change of the outcome, on either kind of busy worker. *)
Lemma processing_ends i o objs s f :
  objs !! i = Some s -> at_work objs (Processing i o) -> sane s ->
  (forall s, status s = running -> sane s -> sane (f s) /\ status (f s) ∈ [succeeded; failed; cancelled]) ->
  forall now, sane (set_finished now (f s)) /\ ended (set_finished now (f s)).
Proof.
  intros Es (s' & Es' & Hst) Hss Hf now. rewrite Es in Es'. injection Es' as <-.
  destruct (Hf s Hst Hss) as [Hs1 Hs2]. split; [|by split; [|eexists]].
  unfold sane in *. simpl. set_unfold. destruct (status (f s)); naive_solver.
Qed.

Lemma notifying_ends i objs s now :
  objs !! i = Some s -> at_work objs (Notifying i) -> sane s ->
  sane (set_finished now s) /\ ended (set_finished now s).
Proof.
  intros Es (s' & Es' & Hst & _) Hss. rewrite Es in Es'. injection Es' as <-. split.
  - unfold sane in *. simpl. by rewrite Hst in *.
  - split; [simpl; rewrite Hst; set_solver | by eexists].
Qed.

Lemma set_succeeded_ok (r : R) s : status s = running -> sane s -> sane (set_succeeded r s) /\ status (set_succeeded r s) ∈ [succeeded; failed; cancelled].
Proof. unfold sane. intros ->. simpl. intros (? & ? & ? & ?). split; [by eauto | set_solver]. Qed.

Lemma set_failed_ok exc s : status s = running -> sane s -> sane (set_failed exc s) /\ status (set_failed exc s) ∈ [succeeded; failed; cancelled].
Proof. unfold sane. intros ->. simpl. intros (? & ? & ? & ?). split; [by eauto | set_solver]. Qed.

Lemma set_cancelled_ok s : status s = running -> sane s -> sane (set_cancelled s) /\ status (set_cancelled s) ∈ [succeeded; failed; cancelled].
Proof. unfold sane. intros ->. simpl. intros (? & ? & ? & ?). split; [by eauto | set_solver]. Qed.

(** ** Trimming *)

Lemma trim_spec order sts order' sts' ok :
  _trim_status_history cfg order sts = (order', sts', ok) ->
  NoDup order -> (forall i, i ∈ sts <-> i ∈ order) ->
  exists old, order = old ++ order' /\ (forall i, i ∈ sts' <-> i ∈ order') /\
    Z.of_nat (length order') <= Z.max 0 (_max_tracked_tasks cfg) /\
    (Z.of_nat (length order) <= _max_tracked_tasks cfg -> old = []) /\
    (old <> [] -> 0 <= _max_tracked_tasks cfg -> Z.of_nat (length order') = _max_tracked_tasks cfg) /\
    (ok = true <-> 0 <= _max_tracked_tasks cfg).
Proof.
  revert sts. induction order as [|i order IH]; intros sts Ht Hnd Hsts; simpl in Ht.
  - exists []. simpl length in Ht. destruct (Z.ltb_spec (_max_tracked_tasks cfg) (Z.of_nat 0)); simplify_eq/=;
      (split_and!; try done; try lia; try (split; intros; done || lia)).
  - change (Z.of_nat (length (i :: order))) with (Z.of_nat (S (length order))) in *.
    destruct (Z.ltb_spec (_max_tracked_tasks cfg) (Z.of_nat (S (length order)))) as [Hlt|Hge].
    + apply NoDup_cons in Hnd as [Hi Hnd].
      destruct (IH (sts ∖ {[i]}) Ht Hnd) as (old & -> & H1 & H2 & H3 & H4 & H5); [set_solver |].
      exists (i :: old). split_and!; try done; [lia |]. intros _ Hm.
      destruct (decide (old = [])) as [->|Hne]; [|by apply H4]. simpl in *. lia.
    + injection Ht as <- <- <-. exists []. split_and!; try done; try (simpl; lia); try (split; intros; done || lia).
Qed.

Lemma good_submit i s qs u ws sts objs order order' sts' ok :
  objs !! i = None -> status s = queued -> sane s ->
  _trim_status_history cfg (order ++ [i]) ({[i]} ∪ sts) = (order', sts', ok) ->
  good qs u ws sts objs order ->
  good (if ok then qs ++ [i] else qs) (if ok then u + 1 else u) ws sts' (<[i := s]> objs) order'.
Proof.
  intros Hn Hst Hss Ht [Hd Hu Ho Htr Hk Hs Hq Hw Hr].
  assert (i ∉ order) as Hio by (intros Hin; destruct (Hk i Hin); congruence).
  assert (i ∉ qs) as Hiq by (intros Hin; destruct (Hq i Hin) as (? & ? & _); congruence).
  assert (i ∉ held ws) as Hih.
  { intros Hin. apply list_elem_of_omap in Hin as (x & Hx & Ex). rewrite Forall_forall in Hw. specialize (Hw x Hx).
    destruct x; simpl in Ex; try done; injection Ex as ->; destruct Hw as (? & ? & _); congruence. }
  apply trim_spec in Ht as (old & Eo & H1 & Hlen & _ & _ & Hok).
  2: { apply NoDup_app. split_and!; [done | set_solver | apply NoDup_singleton]. }
  2: { set_solver. }
  assert (NoDup (old ++ order')) as Hnd.
  { rewrite <- Eo. apply NoDup_app. split_and!; [done | set_solver | apply NoDup_singleton]. }
  assert (forall j, j ∈ order' -> j ∈ order \/ j = i) as Hsub.
  { intros j Hj. assert (j ∈ order ++ [i]) as Hj' by (rewrite Eo; set_solver). set_solver. }
  apply NoDup_app in Hnd as (_ & _ & Hnd).
  split; try done.
  - destruct ok; [|done]. rewrite <- app_assoc. simpl. rewrite <- Permutation_middle. apply NoDup_cons. set_solver.
  - destruct ok; [|done]. rewrite length_app. simpl. lia.
  - intros j Hj. rewrite lookup_insert. case_decide; [by eexists |]. apply Hk. naive_solver.
  - intros j s'. rewrite lookup_insert. case_decide; [congruence | apply Hs].
  - intros j Hj. rewrite lookup_insert. case_decide as E; [by eexists |].
    apply Hq. destruct ok; set_solver.
  - eapply Forall_impl; [exact Hw |]. intros x. destruct x as [|j o|j|]; simpl; try done;
      intros (s' & Es' & ?); exists s'; (rewrite lookup_insert_ne; [done | congruence]).
  - intros j s'. rewrite lookup_insert. case_decide as E.
    + intros [= <-] Hjq _. subst j. destruct ok; [set_solver |]. right. split; [|done].
      rewrite H1. intros Hin. destruct order'; [set_solver |]. simpl in Hlen.
      assert (0 <= _max_tracked_tasks cfg) as H by lia. by apply Hok in H.
    + intros Es Hjq Hjh. destruct (Hr j s' Es ltac:(destruct ok; set_solver) Hjh) as [|[Hj Hst']]; [by left |].
      right. split; [|done]. rewrite H1. intros Hin. rewrite Htr in Hj. naive_solver.
Qed.

(** ** Every event keeps the invariant *)

Lemma wf_init : wf init.
Proof. split; try done; [|simpl; lia | simpl; lia]. split; simpl; try done; try (by constructor); set_solver. Qed.

Lemma pool_wf_start p : wf p -> wf (start cfg p).
Proof.
  intros [Hg H1 H2 H3 H4]. unfold start. destruct (_running p) eqn:Er; [by split; rewrite ?Er |].
  rewrite (H1 eq_refl) in Hg. split; simpl; [| done | intros _; rewrite length_replicate; done | done | done].
  clear -Hg. induction (Z.to_nat (_worker_count cfg)) as [|n IH]; [done |]. simpl. by apply good_add.
Qed.

Lemma good_cancel now x qs p ws :
  good qs (unfinished p) (x :: ws) (_statuses p) (objects p) (_order p) ->
  let p' := cancel_worker now x p in
  good qs (unfinished p') ws (_statuses p') (objects p') (_order p') /\
  _queue p' = _queue p /\ _order p' = _order p.
Proof.
  intros Hg. destruct x as [|i o|i|]; simpl.
  - split; [by apply good_drop in Hg | done].
  - split; [|done]. rewrite alter_alter_eq. apply (good_end (Processing i o)); [done | | done].
    intros s Es Hw Hs. exact (processing_ends i o _ s set_cancelled Es Hw Hs set_cancelled_ok now).
  - split; [|done]. apply (good_end (Notifying i)); [done | | done].
    intros s Es Hw Hs. by apply (notifying_ends i (objects p)).
  - split; [by apply good_drop in Hg | done].
Qed.

Lemma good_stop now qs ws : forall p,
  good qs (unfinished p) ws (_statuses p) (objects p) (_order p) ->
  let p' := foldl (fun p x => cancel_worker now x p) p ws in
  good qs (unfinished p') [] (_statuses p') (objects p') (_order p') /\ _queue p' = _queue p /\ _order p' = _order p.
Proof.
  induction ws as [|x ws IH]; intros p Hg; [done |]. simpl.
  destruct (good_cancel now x qs p ws Hg) as (Hg' & Hq & Ho). destruct (IH _ Hg') as (? & ? & ?).
  split_and!; [done | congruence | congruence].
Qed.

Lemma wf_stop now p : wf p -> wf (stop now p).
Proof.
  intros Hwf. unfold stop. destruct (_running p) eqn:Er; simpl; [|done]. destruct Hwf as [Hg H1 H2 H3 H4].
  destruct (good_stop now _ _ p Hg) as (Hg' & Hq & Ho). split; simpl; try done.
  - unfold queue_ids in *. simpl. by rewrite Hq.
  - by rewrite Ho.
  - by rewrite Hq.
Qed.

Lemma full_false p :
  full cfg p = false -> 0 < queue_maxsize cfg -> Z.of_nat (length (_queue p)) < queue_maxsize cfg.
Proof. unfold full. intros [H|H]%andb_false_iff Hq; bool_to_prop; lia. Qed.

Lemma wf_submit now i o p : objects p !! i = None -> wf p -> wf (submit_batch_ingest cfg now i o p).2.
Proof.
  intros Hn Hwf. unfold submit_batch_ingest. destruct (_running p) eqn:Er; simpl; [|done].
  destruct (full cfg p) eqn:Ef; simpl; [done |]. destruct Hwf as [Hg H1 H2 H3 H4].
  destruct (_trim_status_history cfg _ _) as [[order sts] ok] eqn:Et.
  set (s := Status queued _ _ _ _ _ _).
  pose proof (good_submit i s _ _ _ _ _ _ _ _ _ Hn eq_refl ltac:(done) Et Hg) as Hg'.
  destruct (trim_spec _ _ _ _ _ Et) as (_ & _ & _ & Hlen & _).
  { apply NoDup_app. destruct Hg. split_and!; [done | | apply NoDup_singleton].
    intros j Hj ->%list_elem_of_singleton. destruct (good_known0 i Hj). congruence. }
  { intros j. destruct Hg. set_solver. }
  destruct ok; simpl; split; simpl; try done; try congruence; try (intros _; by apply H2).
  - unfold queue_ids. simpl. by rewrite map_app.
  - intros Hq. rewrite length_app. simpl. pose proof (full_false p Ef Hq). lia.
Qed.

(** What the three steps of a worker do to a state that satisfies the invariant. *)
Lemma wf_worker p p' w x y qs u sts objs :
  wf p -> _workers p !! w = Some y ->
  p' = Pool qs u (<[w := x]> (_workers p)) sts objs (_order p) (_running p) ->
  (length qs <= length (_queue p))%nat ->
  (forall l, good (queue_ids p) (unfinished p) (y :: l) (_statuses p) (objects p) (_order p) ->
             good (map fst qs) u (x :: l) sts objs (_order p)) -> wf p'.
Proof.
  intros [Hg H1 H2 H3 H4] Hw -> Hq Hx. destruct (swap_worker _ _ x _ Hw) as (l & Hl & Hl'). split; simpl.
  - unfold queue_ids. simpl. eapply good_perm; [symmetry; exact Hl' |]. apply Hx. by eapply good_perm; [exact Hl |].
  - intros Hr. rewrite (H1 Hr) in Hw. done.
  - intros Hr. by rewrite length_insert, H2.
  - done.
  - intros Hm. specialize (H4 Hm). lia.
Qed.

Lemma wf_takes now w p p' : wf p -> worker_takes now w p = Some p' -> wf p'.
Proof.
  intros Hwf Ht. unfold worker_takes in Ht. destruct (_workers p !! w) as [[| | |]|] eqn:Ew; try done.
  destruct (_queue p) as [|[i o] rest] eqn:Eq; [done |]. simpl in Ht.
  destruct (bool_decide (i ∈ _statuses p)) eqn:Ei; bool_to_prop; injection Ht as <-.
  - eapply (wf_worker p _ w _ Waiting); [done | done | reflexivity | rewrite Eq; simpl; lia |].
    intros l. unfold queue_ids. rewrite Eq. simpl. by apply good_take.
  - eapply (wf_worker p _ w _ Waiting); [done | done | reflexivity | rewrite Eq; simpl; lia |].
    intros l. unfold queue_ids. rewrite Eq. simpl. by apply good_crash.
Qed.

Lemma wf_processed now w outcome p p' : wf p -> worker_processed cfg now w outcome p = Some p' -> wf p'.
Proof.
  intros Hwf Ht. unfold worker_processed in Ht. destruct (_workers p !! w) as [[|i o| |]|] eqn:Ew; try done.
  destruct outcome as [r|exc]; [|destruct (has_callback cfg)]; injection Ht as <-;
    (eapply (wf_worker p _ w _ (Processing i o)); [done | done | reflexivity | done |]); simpl; intros l Hg.
  - rewrite alter_alter_eq. apply good_add; [done |].
    apply (good_end (Processing i o)); [done | | done].
    intros s Es Hw Hs. exact (processing_ends i o _ s (set_succeeded r) Es Hw Hs (set_succeeded_ok r) now).
  - by eapply good_fail.
  - rewrite alter_alter_eq. apply good_add; [done |].
    apply (good_end (Processing i o)); [done | | done].
    intros s Es Hw Hs. exact (processing_ends i o _ s (set_failed exc) Es Hw Hs (set_failed_ok exc) now).
Qed.

Lemma wf_notified now w p p' : wf p -> worker_notified now w p = Some p' -> wf p'.
Proof.
  intros Hwf Ht. unfold worker_notified in Ht. destruct (_workers p !! w) as [[| |i|]|] eqn:Ew; try done.
  injection Ht as <-. eapply (wf_worker p _ w _ (Notifying i)); [done | done | reflexivity | done |].
  simpl. intros l Hg. apply good_add; [done |].
  apply (good_end (Notifying i)); [done | | done].
  intros s Es Hw Hs. by apply (notifying_ends i (objects p)).
Qed.

Lemma wf_happens e p p' : wf p -> happens cfg e p = Some p' -> wf p'.
Proof.
  intros Hwf. destruct e; simpl.
  - intros [= <-]. by apply pool_wf_start.
  - intros [= <-]. by apply wf_stop.
  - case_bool_decide; [|done]. intros [= <-]. by apply wf_submit.
  - by apply wf_takes.
  - by apply wf_processed.
  - by apply wf_notified.
Qed.

Lemma pool_wf_run es p p' : wf p -> run cfg es p = Some p' -> wf p'.
Proof.
  revert p. induction es as [|e es IH]; intros p Hwf; simpl; [by intros [= <-] |].
  destruct (happens cfg e p) as [p1|] eqn:E; simpl; [|done]. apply IH. by eapply wf_happens.
Qed.

Lemma pool_wf_reachable p : reachable cfg p -> wf p.
Proof. intros [es He]. exact (pool_wf_run es _ _ wf_init He). Qed.

End facts.
End PoolFacts.

(** ** Theorems *)

Module PoolTheorems.
Import BackgroundWorkers PoolFacts.

Section theorems.
Context {Obs R : Type} (cfg : config).
Implicit Types (p : pool Obs R) (s : BackgroundTaskStatus R) (ws : list (worker Obs))
  (objs : gmap string (BackgroundTaskStatus R)).

#[local] Abbreviation happens := (@happens Obs R cfg).
#[local] Abbreviation run := (@run Obs R cfg).

Lemma tracked_object p i s :
  wf cfg p -> get_task_status i p = Some s -> i ∈ _statuses p /\ objects p !! i = Some s.
Proof. unfold get_task_status. intros _. by case_bool_decide. Qed.

(** Whatever is submitted, started, stopped and processed in whatever order: a
    task is queued or with one worker, never both nor twice; what the status endpoint
    answers agrees with where the task is, and its times, result and error agree with
    its status; the queue and the history stay within their bounds. *)
Theorem pool_well_formed p :
  reachable cfg p ->
  NoDup (queue_ids p ++ held (_workers p)) /\
  (forall i s, get_task_status i p = Some s ->
     sane s /\ (status s = queued <-> i ∈ queue_ids p) /\
     (status s = running -> exists o, Processing i o ∈ _workers p) /\
     (i ∉ queue_ids p -> i ∉ held (_workers p) -> ended s)) /\
  Z.of_nat (size (_statuses p)) <= Z.max 0 (_max_tracked_tasks cfg) /\
  (0 < queue_maxsize cfg -> Z.of_nat (length (_queue p)) <= queue_maxsize cfg).
Proof.
  intros Hr. apply pool_wf_reachable in Hr. pose proof Hr as [Hg _ _ Hh Hc]. destruct Hg. split_and!; try done.
  - intros i s Hs. destruct (tracked_object p i s Hr Hs) as [Ht Es].
    assert (i ∈ held (_workers p) -> (exists o, Processing i o ∈ _workers p /\ status s = running) \/ status s = failed) as Hheld.
    { intros (x & Hx & Ex)%list_elem_of_omap. rewrite Forall_forall in good_workers0. pose proof (good_workers0 x Hx) as Hw.
      destruct x as [|j o|j|]; try done; injection Ex as ->; destruct Hw as (s' & Es' & Hst); [left; exists o | right];
        rewrite Es in Es'; injection Es' as <-; naive_solver. }
    assert (i ∉ queue_ids p -> i ∉ held (_workers p) -> ended s) as Hend.
    { intros Hq Hh'. destruct (good_rest0 i s Es Hq Hh') as [|[? _]]; done. }
    assert (i ∈ queue_ids p -> status s = queued) as Hq.
    { intros Hin. destruct (good_queue0 i Hin) as (s' & Es' & ?). congruence. }
    split_and!; [by eapply good_sane0 | split; [|done] | | done].
    + intros Hst. destruct (decide (i ∈ queue_ids p)) as [|Hn]; [done |]. exfalso.
      destruct (decide (i ∈ held (_workers p))) as [Hin|Hn'].
      * destruct (Hheld Hin) as [(? & ? & ?)|]; congruence.
      * destruct (Hend Hn Hn') as [He _]. rewrite Hst in He. set_solver.
    + intros Hst. destruct (decide (i ∈ held (_workers p))) as [Hin|Hn'].
      * destruct (Hheld Hin) as [(o & ? & ?)|]; [by exists o | congruence].
      * destruct (Hend ltac:(intros Hin; apply Hq in Hin; congruence) Hn') as [He _]. rewrite Hst in He. set_solver.
  - etrans; [|exact Hh]. apply inj_le. rewrite <- (size_list_to_set (C := gset string) (_order p)) by done.
    apply subseteq_size. intros i Hi. apply elem_of_list_to_set. by apply good_tracked0.
Qed.

(** ** The life of a task *)

Inductive next : TaskState -> TaskState -> Prop :=
| next_running : next queued running
| next_succeeded : next running succeeded
| next_failed : next running failed
| next_cancelled : next running cancelled.

Definition evolves s s' : Prop :=
  rtc next (status s) (status s') /\ batch_size s' = batch_size s /\ queued_at s' = queued_at s /\
  (ended s -> s' = s).

Definition grows objs objs' : Prop :=
  forall i s, objs !! i = Some s -> exists s', objs' !! i = Some s' /\ evolves s s'.

#[local] Instance evolves_preorder : PreOrder evolves.
Proof.
  split; [intros s; by split |]. intros s1 s2 s3 (H1 & H2 & H3 & H4) (H5 & H6 & H7 & H8).
  split_and!; [by etrans | congruence | congruence |]. intros He. rewrite (H4 He) in *. by apply H8.
Qed.

#[local] Instance grows_preorder : PreOrder grows.
Proof.
  split; [intros objs i s Hs; by exists s |]. intros o1 o2 o3 H12 H23 i s Hs.
  destruct (H12 i s Hs) as (s2 & Hs2 & He). destruct (H23 i s2 Hs2) as (s3 & Hs3 & He'). exists s3. by split; [|etrans].
Qed.

Lemma grows_alter objs f i :
  (forall s, objs !! i = Some s -> evolves s (f s)) -> grows objs (alter f i objs).
Proof.
  intros Hf j s Hj. destruct (decide (i = j)) as [<-|Hne].
  - exists (f s). rewrite lookup_alter_eq, Hj. by split; [|apply Hf].
  - exists s. by rewrite lookup_alter_ne.
Qed.

(** The changes that a worker makes, from where it is. *)
Lemma ends_evolves i (o : list Obs) objs s f now :
  objs !! i = Some s -> at_work objs (Processing i o) ->
  (forall s, status s = running -> next running (status (f s)) /\ batch_size (f s) = batch_size s /\ queued_at (f s) = queued_at s) ->
  evolves s (set_finished now (f s)).
Proof.
  intros Es (s' & Es' & Hst) Hf. rewrite Es in Es'. injection Es' as <-.
  destruct (Hf s Hst) as (Hn & Hb & Hq). split_and!; [| done | done |].
  - simpl. rewrite Hst. by apply rtc_once.
  - intros [He _]. rewrite Hst in He. set_solver.
Qed.

Lemma finish_evolves i objs s now :
  objs !! i = Some s -> at_work objs (Notifying (Obs := Obs) i) -> evolves s (set_finished now s).
Proof.
  intros Es (s' & Es' & _ & Hf). rewrite Es in Es'. injection Es' as <-. split_and!; try done.
  intros [_ He]. rewrite Hf in He. by destruct He.
Qed.

Lemma cancel_grows now x p :
  at_work (objects p) x -> grows (objects p) (objects (cancel_worker now x p)).
Proof.
  intros Hw. destruct x as [|i o|i|]; simpl; try done.
  - rewrite alter_alter_eq. apply grows_alter. intros s Es. apply (ends_evolves i o (objects p) s set_cancelled now Es Hw).
    by repeat constructor.
  - apply grows_alter. intros s Es. by apply (finish_evolves i (objects p)).
Qed.

Lemma stop_grows now ws : forall p,
  good (queue_ids p) (unfinished p) ws (_statuses p) (objects p) (_order p) ->
  grows (objects p) (objects (foldl (fun p x => cancel_worker now x p) p ws)).
Proof.
  induction ws as [|x ws IH]; intros p Hg; [done |]. simpl.
  destruct (good_cancel now x _ p ws Hg) as (Hg' & Hq & _).
  etrans; [apply cancel_grows; destruct Hg as [? ? ? ? ? ? ? Hw ?]; by apply Forall_cons in Hw as [? _] |].
  apply IH. unfold queue_ids in *. by rewrite Hq.
Qed.

Lemma worker_at_work p w x : wf cfg p -> _workers p !! w = Some x -> at_work (objects p) x.
Proof. intros [[] _ _ _ _] Hw. rewrite Forall_forall in *. by eapply good_workers0, list_elem_of_lookup_2. Qed.

Lemma happens_grows e p p' : wf cfg p -> happens e p = Some p' -> grows (objects p) (objects p').
Proof.
  intros Hwf. destruct e as [|now|now i o|now w|now w r|now w]; simpl.
  - intros [= <-]. unfold start. by destruct (_running p).
  - intros [= <-]. unfold stop. destruct (_running p); simpl; [|done]. apply stop_grows, Hwf.
  - case_bool_decide as Hn; [|done]. intros [= <-]. unfold submit_batch_ingest.
    destruct (_running p); simpl; [|done]. destruct (full cfg p); simpl; [done |].
    destruct (_trim_status_history cfg _ _) as [[order sts] ok]. intros j s Hj. exists s. split; [|done].
    destruct ok; simpl; (rewrite lookup_insert_ne; [done | congruence]).
  - unfold worker_takes. destruct (_workers p !! w) as [[| | |]|]; try done.
    destruct (_queue p) as [|[i o] rest] eqn:Eq; [done |]. simpl.
    case_bool_decide; intros [= <-]; simpl; [|done]. apply grows_alter. intros s Es.
    assert (status s = queued) as Hst.
    { destruct Hwf as [[] _ _ _ _]. destruct (good_queue0 i) as (s' & Es' & ?); [|congruence].
      unfold queue_ids. rewrite Eq. set_solver. }
    split_and!; try done; simpl; rewrite ?Hst; [apply rtc_once; constructor |].
    intros [He _]. rewrite Hst in He. set_solver.
  - unfold worker_processed. destruct (_workers p !! w) as [[|i o| |]|] eqn:Ew; try done.
    pose proof (worker_at_work p w _ Hwf Ew) as Hw. destruct Hw as (s0 & Es0 & Hst).
    destruct r as [r|exc]; [|destruct (has_callback cfg)]; intros [= <-]; simpl.
    + rewrite alter_alter_eq. apply grows_alter. intros s Es.
      apply (ends_evolves i o (objects p) s (set_succeeded r) now Es); [by exists s0 | by repeat constructor].
    + apply grows_alter. intros s Es. rewrite Es0 in Es. injection Es as <-.
      split_and!; try done; simpl; rewrite ?Hst; [apply rtc_once; constructor |].
      intros [He _]. rewrite Hst in He. set_solver.
    + rewrite alter_alter_eq. apply grows_alter. intros s Es.
      apply (ends_evolves i o (objects p) s (set_failed exc) now Es); [by exists s0 | by repeat constructor].
  - unfold worker_notified. destruct (_workers p !! w) as [[| |i|]|] eqn:Ew; try done.
    intros [= <-]. simpl. apply grows_alter. intros s Es.
    apply (finish_evolves i (objects p)); [done |]. by apply (worker_at_work p w).
Qed.

(** A task goes from queued to running to succeeded, failed or cancelled and
    nowhere else; its size and submission time never change, and once it has ended its
    status object stays as it is. *)
Theorem task_lifecycle es p p' i s :
  reachable cfg p -> run es p = Some p' -> objects p !! i = Some s ->
  exists s', objects p' !! i = Some s' /\ rtc next (status s) (status s') /\
    batch_size s' = batch_size s /\ queued_at s' = queued_at s /\ (ended s -> s' = s).
Proof.
  intros Hr%pool_wf_reachable He. enough (grows (objects p) (objects p')) as H by exact (H i s).
  clear i s. revert p Hr He. induction es as [|e es IH]; intros p Hwf; simpl; [by intros [= ->] |].
  destruct (happens e p) as [p1|] eqn:E; simpl; [|done]. intros He.
  etrans; [by eapply happens_grows | apply IH; [by eapply wf_happens | done]].
Qed.

(** ** Order *)

(** The tasks that a run accepts, and those that its workers take. *)
Definition accepts (e : event Obs R) p : list string :=
  match e with
  | Submit now i o => if is_ok (submit_batch_ingest cfg now i o p).1 then [i] else []
  | _ => []
  end.

Definition takes (e : event Obs R) p : list string :=
  match e with Takes _ _ => take 1 (queue_ids p) | _ => [] end.

Fixpoint along (f : event Obs R -> pool Obs R -> list string) (es : list (event Obs R)) p : list string :=
  match es with
  | [] => []
  | e :: es => f e p ++ match happens e p with Some p' => along f es p' | None => [] end
  end.

Lemma stop_queue now ws : forall p, _queue (foldl (fun p x => cancel_worker now x p) p ws) = _queue p.
Proof. induction ws as [|x ws IH]; intros p; [done |]. simpl. rewrite IH. by destruct x. Qed.

Lemma queue_step e p p' :
  happens e p = Some p' -> queue_ids p ++ accepts e p = takes e p ++ queue_ids p'.
Proof.
  unfold queue_ids. destruct e as [|now|now i o|now w|now w r|now w]; simpl.
  - intros [= <-]. unfold start. rewrite app_nil_r. by destruct (_running p).
  - intros [= <-]. unfold stop. rewrite app_nil_r. destruct (_running p); simpl; [|done]. by rewrite stop_queue.
  - case_bool_decide; [|done]. intros [= <-]. unfold submit_batch_ingest.
    destruct (_running p); simpl; [|by rewrite app_nil_r]. destruct (full cfg p); simpl; [by rewrite app_nil_r |].
    destruct (_trim_status_history cfg _ _) as [[order sts] ok]. destruct ok; simpl; [by rewrite map_app | by rewrite app_nil_r].
  - unfold worker_takes, queue_ids. destruct (_workers p !! w) as [[| | |]|]; try done.
    destruct (_queue p) as [|[i o] rest]; [done |]. simpl. case_bool_decide; intros [= <-]; simpl; by rewrite app_nil_r.
  - unfold worker_processed. destruct (_workers p !! w) as [[| | |]|]; try done. rewrite app_nil_r.
    destruct r as [r|exc]; [|destruct (has_callback cfg)]; by intros [= <-].
  - unfold worker_notified. destruct (_workers p !! w) as [[| | |]|]; try done. rewrite app_nil_r. by intros [= <-].
Qed.

(** Workers take the accepted batches in the order in which they were submitted,
    each once and none skipped: what was accepted is what was taken followed by what
    is still queued, whatever was started and stopped in between. *)
Theorem batches_taken_in_order es p :
  run es init = Some p -> along accepts es init = along takes es init ++ queue_ids p.
Proof.
  assert (forall q, run es q = Some p -> queue_ids q ++ along accepts es q = along takes es q ++ queue_ids p) as H;
    [|exact (H init)].
  induction es as [|e es IH]; intros q; simpl; [intros [= <-]; by rewrite app_nil_r |].
  destruct (happens e q) as [q1|] eqn:E; simpl; [|done]. intros Hr.
  rewrite app_assoc, (queue_step e q q1 E), <- !app_assoc. f_equal. by apply IH.
Qed.

(** ** The history has to be at least as long as the queue *)

Definition alive p : Prop := Forall (fun x => x <> Crashed) (_workers p) /\ exists old, _order p = old ++ queue_ids p.

Lemma alive_insert ws w (x : worker Obs) :
  x <> Crashed -> Forall (fun x => x <> Crashed) ws -> Forall (fun x => x <> Crashed) (<[w := x]> ws).
Proof. intros. by apply Forall_insert. Qed.

Lemma alive_happens e p p' :
  0 < queue_maxsize cfg <= _max_tracked_tasks cfg ->
  wf cfg p -> alive p -> happens e p = Some p' -> alive p'.
Proof.
  intros Hcap Hwf [Ha [old Ho]]. destruct e as [|now|now i o|now w|now w r|now w]; simpl.
  - intros [= <-]. unfold start. destruct (_running p); [by split; [|exists old] |].
    split; [|by exists old]. by apply Forall_replicate.
  - intros [= <-]. unfold stop. destruct (_running p) eqn:Er; simpl; [|by split; [|exists old]].
    split; [constructor |]. exists old. unfold queue_ids. simpl. destruct Hwf as [Hg _ _ _ _].
    destruct (good_stop now _ _ p Hg) as (_ & -> & ->). exact Ho.
  - case_bool_decide as Hn; [|done]. intros [= <-]. unfold submit_batch_ingest.
    destruct (_running p) eqn:Er; simpl; [|by split; [|exists old]].
    destruct (full cfg p) eqn:Ef; simpl; [by split; [|exists old] |].
    destruct (_trim_status_history cfg _ _) as [[order sts] ok] eqn:Et.
    pose proof (full_false cfg p Ef ltac:(lia)) as Hlen. destruct Hwf as [[] _ _ _ _].
    apply trim_spec in Et as (gone & Eo & _ & _ & _ & Hmax & Hok).
    2: { apply NoDup_app. split_and!; [done | | apply NoDup_singleton].
         intros j Hj ->%list_elem_of_singleton. destruct (good_known0 i Hj). congruence. }
    2: { intros j. set_solver. }
    rewrite (proj2 Hok) by lia. simpl. split; [done |]. unfold queue_ids in *. simpl. rewrite map_app. simpl.
    rewrite Ho, <- app_assoc in Eo.
    destruct (decide (gone = [])) as [->|Hg]; [by exists old |].
    assert (length (map fst (_queue p) ++ [i]) <= length order)%nat as Hle.
    { specialize (Hmax Hg ltac:(lia)). rewrite length_app, length_map. simpl. lia. }
    destruct (app_eq_inv _ _ _ _ Eo) as [(k & _ & Ek)|(k & _ & Ek)]; [by exists k |].
    rewrite Ek, length_app in Hle. destruct k; [by exists [] | simpl in Hle; lia].
  - unfold worker_takes. destruct (_workers p !! w) as [[| | |]|] eqn:Ew; try done. unfold alive, queue_ids in *.
    destruct (_queue p) as [|[i o] rest]; [done |]. simpl in *.
    destruct Hwf as [[] _ _ _ _]. rewrite bool_decide_true by (apply good_tracked0; rewrite Ho; set_solver).
    intros [= <-]. simpl. split; [by apply alive_insert |]. exists (old ++ [i]). by rewrite <- app_assoc.
  - unfold worker_processed. destruct (_workers p !! w) as [[| | |]|]; try done.
    destruct r as [r|exc]; [|destruct (has_callback cfg)]; intros [= <-]; (split; [by apply alive_insert | by exists old]).
  - unfold worker_notified. destruct (_workers p !! w) as [[| | |]|]; try done.
    intros [= <-]. split; [by apply alive_insert | by exists old].
Qed.

Lemma run_app es es' p : run (es ++ es') p = run es p ≫= run es'.
Proof. revert p. induction es as [|e es IH]; intros p; [done |]. simpl. destruct (happens e p); [apply IH | done]. Qed.

Lemma alive_run es p p' :
  0 < queue_maxsize cfg <= _max_tracked_tasks cfg ->
  wf cfg p -> alive p -> run es p = Some p' -> alive p'.
Proof.
  intros Hcap. revert p. induction es as [|e es IH]; intros p Hwf Ha; simpl; [by intros [= <-] |].
  destruct (happens e p) as [p1|] eqn:E; simpl; [|done]. apply IH; [by eapply wf_happens | by eapply alive_happens].
Qed.

Lemma alive_reachable p :
  0 < queue_maxsize cfg <= _max_tracked_tasks cfg -> reachable cfg p -> alive p.
Proof.
  intros Hcap [es He]. apply (alive_run es init); [done | apply wf_init | | done]. split; [constructor | by exists []].
Qed.

(** Submissions to idle workers fill the queue, and the history keeps the last ones. *)
Lemma fill (k : nat) :
  0 <= _max_tracked_tasks cfg -> (queue_maxsize cfg <= 0 \/ Z.of_nat k <= queue_maxsize cfg) ->
  exists p, reachable cfg p /\ _running p = true /\ _workers p = replicate (Z.to_nat (_worker_count cfg)) Waiting /\
    length (_queue p) = k /\ Z.of_nat (length (_order p)) = Z.min (Z.of_nat k) (_max_tracked_tasks cfg) /\
    exists old, queue_ids p = old ++ _order p.
Proof.
  intros Hm. induction k as [|k IH]; intros Hq.
  - exists (start cfg init). split; [by exists [Start] |]. simpl. split_and!; try done; [lia | by exists []].
  - destruct IH as (p & [es He] & Hr & Hw & Hl & Ho & old & Eo); [lia |].
    pose proof (pool_wf_run cfg es _ _ (wf_init cfg) He) as [[] _ _ _ _].
    set (i := fresh (dom (objects p) : gset string)).
    assert (objects p !! i = None) as Hi by (apply not_elem_of_dom; apply is_fresh).
    assert (happens (Submit 0 i []) p = Some (submit_batch_ingest cfg 0 i [] p).2) as Hs
      by (simpl; by rewrite bool_decide_true).
    exists (submit_batch_ingest cfg 0 i [] p).2. split; [exists (es ++ [Submit 0 i []]); by rewrite run_app, He; simpl in *; rewrite Hs |].
    unfold submit_batch_ingest. rewrite Hr. simpl.
    assert (full cfg p = false) as ->.
    { unfold full. apply andb_false_iff. rewrite Z.ltb_ge, Z.leb_gt, Hl. lia. }
    destruct (_trim_status_history cfg _ _) as [[order sts] ok] eqn:Et.
    apply trim_spec in Et as (gone & Eg & _ & Hle & Hnil & Hmax & Hok).
    2: { apply NoDup_app. split_and!; [done | | apply NoDup_singleton].
         intros j Hj ->%list_elem_of_singleton. destruct (good_known0 i Hj). congruence. }
    2: { intros j. set_solver. }
    rewrite (proj2 Hok) by done. unfold queue_ids in *. simpl. rewrite map_app. simpl.
    pose proof (f_equal length Eg) as El. rewrite !length_app in *. simpl in *.
    split_and!; try done; [lia | | exists (old ++ gone); by rewrite Eo, <- app_assoc, Eg, app_assoc].
    destruct (decide (gone = [])) as [->|Hg]; [simpl in El; lia |].
    specialize (Hmax Hg Hm). destruct gone; [done |]. simpl in El. lia.
Qed.

(** A worker can die of a task that the history has forgotten exactly when the
    queue may hold more tasks than the history keeps. *)
Theorem history_bound_exact :
  1 <= _worker_count cfg -> 0 <= _max_tracked_tasks cfg ->
  (exists p, reachable cfg p /\ Crashed ∈ _workers p) <->
  ~ 0 < queue_maxsize cfg <= _max_tracked_tasks cfg.
Proof.
  intros Hc Hm. split.
  - intros (p & Hr & Hin) Hcap. destruct (alive_reachable p Hcap Hr) as [Ha _].
    rewrite Forall_forall in Ha. by apply (Ha _ Hin).
  - intros Hcap. destruct (fill (S (Z.to_nat (_max_tracked_tasks cfg))) Hm) as (p & [es He] & Hr & Hw & Hl & Ho & old & Eo); [lia |].
    pose proof (pool_wf_run cfg es _ _ (wf_init cfg) He) as [[] _ _ _ _]. unfold queue_ids in *.
    destruct (_queue p) as [|[i o] rest] eqn:Eq; [done |]. simpl in *.
    destruct old as [|j old]; [apply (f_equal length) in Eo; simpl in Eo; rewrite length_map in Eo; lia |].
    injection Eo as <- Eo. apply NoDup_cons in good_distinct0 as [Hi _].
    assert (i ∉ _statuses p) as Hni by (rewrite good_tracked0; intros Hin; apply Hi; rewrite Eo, !elem_of_app; tauto).
    assert (_workers p !! 0%nat = Some Waiting) as Hw0 by (rewrite Hw; apply lookup_replicate_2; lia).
    assert (exists p', worker_takes 0 0 p = Some p' /\ Crashed ∈ _workers p') as (p' & Ht & Hin).
    { unfold worker_takes. rewrite Hw0, Eq. simpl. rewrite bool_decide_false by done. eexists. split; [reflexivity |].
      simpl. apply (list_elem_of_lookup_2 _ 0%nat), list_lookup_insert_eq. by apply lookup_lt_Some in Hw0. }
    exists p'. split; [|done]. exists (es ++ [Takes 0 0]). rewrite run_app, He. simpl. by rewrite Ht.
Qed.

(** ** Draining *)

Definition worker_event (e : event Obs R) : Prop :=
  match e with Takes _ _ | Processed _ _ _ | Notified _ _ => True | _ => False end.

Definition weight (x : worker Obs) : nat :=
  match x with Processing _ _ => 2 | Notifying _ => 1 | _ => 0 end.

Definition work p : nat := (3 * length (_queue p) + sum_list_with weight (_workers p))%nat.

Lemma weight_swap ws w (x y : worker Obs) :
  ws !! w = Some y ->
  (sum_list_with weight (<[w := x]> ws) + weight y = sum_list_with weight ws + weight x)%nat.
Proof.
  intros Hw. revert w Hw. induction ws as [|z ws IH]; intros [|w] Hw; simpl in *; try done.
  - injection Hw as ->. lia.
  - specialize (IH w Hw). lia.
Qed.

Lemma work_decreases e p p' : worker_event e -> happens e p = Some p' -> (work p' < work p)%nat.
Proof.
  unfold work. destruct e as [| | |now w|now w r|now w]; try done; intros _; simpl.
  - unfold worker_takes. destruct (_workers p !! w) as [[| | |]|] eqn:Ew; try done.
    destruct (_queue p) as [|[i o] rest]; [done |]. simpl.
    case_bool_decide; intros [= <-]; simpl;
      [pose proof (weight_swap _ w (Processing i o) _ Ew) as H1 | pose proof (weight_swap _ w Crashed _ Ew) as H1]; simpl in H1; lia.
  - unfold worker_processed. destruct (_workers p !! w) as [[|i o| |]|] eqn:Ew; try done.
    destruct r as [r|exc]; [|destruct (has_callback cfg)]; intros [= <-]; simpl;
      [pose proof (weight_swap _ w Waiting _ Ew) as H1 | pose proof (weight_swap _ w (Notifying i) _ Ew) as H1
      | pose proof (weight_swap _ w Waiting _ Ew) as H1]; simpl in H1; lia.
  - unfold worker_notified. destruct (_workers p !! w) as [[| |i|]|] eqn:Ew; try done.
    intros [= <-]; simpl. pose proof (weight_swap _ w Waiting _ Ew) as H1. simpl in H1. lia.
Qed.

(** No worker can move only when nothing is left to do. *)
Lemma quiet_finished p :
  wf cfg p -> alive p -> _running p = true -> 1 <= _worker_count cfg -> R ->
  (forall e, worker_event e -> happens e p = None) -> _queue p = [] /\ held (_workers p) = [].
Proof.
  intros Hwf [Ha _] Hr Hc r Hno. pose proof (wf_started _ _ Hwf Hr) as Hlen.
  assert (forall w x, _workers p !! w = Some x -> x = Waiting) as Hw.
  { intros w x Hx. rewrite Forall_forall in Ha. pose proof (Ha x ltac:(by eapply list_elem_of_lookup_2)).
    destruct x as [|i o|i|]; try done.
    - specialize (Hno (Processed 0 w (Ok r)) I). simpl in Hno. unfold worker_processed in Hno. by rewrite Hx in Hno.
    - specialize (Hno (Notified 0 w) I). simpl in Hno. unfold worker_notified in Hno. by rewrite Hx in Hno. }
  split.
  - destruct (lookup_lt_is_Some_2 (_workers p) 0) as [x Hx]; [lia |]. pose proof (Hw _ _ Hx) as ->.
    specialize (Hno (Takes 0 0) I). simpl in Hno. unfold worker_takes in Hno. rewrite Hx in Hno.
    destruct (_queue p) as [|[i o] rest]; [done |]. simpl in Hno. by case_bool_decide.
  - destruct (held (_workers p)) as [|i l] eqn:E; [done |]. exfalso.
    assert (i ∈ held (_workers p)) as (x & Hx & Ex)%list_elem_of_omap by (rewrite E; set_solver).
    apply list_elem_of_lookup_1 in Hx as [w Hx]. by rewrite (Hw _ _ Hx) in Ex.
Qed.

Lemma worker_event_running e p p' : worker_event e -> happens e p = Some p' -> _running p' = _running p.
Proof.
  destruct e as [| | |now w|now w r|now w]; try done; intros _; simpl;
    unfold worker_takes, worker_processed, worker_notified; intros H; repeat case_match; by simplify_eq.
Qed.

(** C35: With a history at least as long as the queue, a running pool always drains:
    while nobody submits or stops it, its workers make at most three steps per queued
    task before they all wait again, and then every task it still knows has ended. *)
Theorem pool_drains p es p' (r : R) :
  1 <= _worker_count cfg -> 0 < queue_maxsize cfg <= _max_tracked_tasks cfg ->
  reachable cfg p -> _running p = true -> Forall worker_event es -> run es p = Some p' ->
  (length es + work p' <= work p)%nat /\
  ((forall e, worker_event e -> happens e p' = None) ->
   _queue p' = [] /\ forall i s, get_task_status i p' = Some s -> ended s).
Proof.
  intros Hc Hcap Hr Hrun Hes He.
  pose proof (alive_reachable p Hcap Hr) as Ha. apply pool_wf_reachable in Hr.
  pose proof (alive_run es p p' Hcap Hr Ha He) as Ha'. pose proof (pool_wf_run cfg es p p' Hr He) as Hwf'.
  assert ((length es + work p' <= work p)%nat /\ _running p' = true) as [Hlen Hrun'].
  { clear Ha Ha' Hwf' Hr. revert p Hrun He. induction Hes as [|e es Hev Hes IH]; intros p Hrun; simpl; [by intros [= <-] |].
    destruct (happens e p) as [p1|] eqn:E; simpl; [|done]. intros He.
    pose proof (worker_event_running e p p1 Hev E). pose proof (work_decreases e p p1 Hev E).
    destruct (IH p1 ltac:(congruence) He). split; [lia | done]. }
  split; [done |]. intros Hno. destruct (quiet_finished p' Hwf' Ha' Hrun' Hc r Hno) as [Hq Hh]. split; [done |].
  intros i s Hs. destruct (tracked_object p' i s Hwf' Hs) as [Ht Es]. destruct Hwf' as [[] _ _ _ _].
  destruct (good_rest0 i s Es) as [|[? _]]; [unfold queue_ids; rewrite Hq; set_solver | rewrite Hh; set_solver | done | done].
Qed.

(** The health summary counts every task it knows once, under its status. *)
Theorem health_counts_tasks p :
  reachable cfg p ->
  let h := health_summary cfg p in
  (tasks h queued + tasks h running + tasks h succeeded + tasks h failed + tasks h cancelled = tracked_tasks h)%Z.
Proof.
  intros Hr%pool_wf_reachable. destruct Hr as [[] _ _ _ _]. simpl. unfold counter.
  assert (length (tracked p) = size (_statuses p)) as <-.
  { unfold tracked, size, set_size. simpl.
    assert (Forall (fun i => is_Some (objects p !! i)) (elements (_statuses p))) as Hall.
    { apply Forall_forall. intros i Hi%elem_of_elements. by apply good_known0, good_tracked0. }
    induction Hall as [|i l [s Hs] _ IH]; simpl; [done |]. by rewrite Hs, <- IH. }
  induction (tracked p) as [|s l IH]; [done |]. unfold count in *. simpl length in *.
  destruct s as [[] ? ? ? ? ? ?]; simpl; lia.
Qed.

(** Submitting through the endpoint is refused exactly while the pool is stopped
    (503) or the queue is full (429), and then changes nothing; otherwise the batch is
    last in the queue and its status can be read. *)
Theorem submission_answers now i o p :
  0 < _max_tracked_tasks cfg -> reachable cfg p -> objects p !! i = None ->
  match submit_background_batch_ingest cfg now i o (Some p) with
  | (Ok s, Some p') => _running p = true /\ full cfg p = false /\ status s = queued /\
      get_background_task_status i (Some p') = Ok s /\ _queue p' = _queue p ++ [(i, o)]
  | (Raise (Incidents.HTTP code _), p') => p' = Some p /\
      (code = 503 /\ _running p = false \/ code = 429 /\ _running p = true /\ full cfg p = true)
  | (Ok _, None) => False
  end.
Proof.
  intros Hm Hr%pool_wf_reachable Hi. unfold submit_background_batch_ingest, pool_running.
  destruct (_running p) eqn:Er; simpl; [|split; [done | by left]].
  unfold submit_batch_ingest. rewrite Er. simpl. destruct (full cfg p) eqn:Ef; simpl; [split; [done | by right] |].
  destruct (_trim_status_history cfg _ _) as [[order sts] ok] eqn:Et. destruct Hr as [[] _ _ _ _].
  apply trim_spec in Et as (gone & Eg & Hsts & _ & Hnil & Hmax & Hok).
  2: { apply NoDup_app. split_and!; [done | | apply NoDup_singleton].
       intros j Hj ->%list_elem_of_singleton. destruct (good_known0 i Hj). congruence. }
  2: { intros j. set_solver. }
  rewrite (proj2 Hok) by lia. simpl. split_and!; try done. unfold get_background_task_status. simpl.
  unfold get_task_status. simpl. rewrite bool_decide_true, lookup_insert_eq; [done |]. apply Hsts.
  destruct (app_eq_inv _ _ _ _ Eg) as [(k & _ & ->)|(k & _ & Ek)]; [set_solver |].
  destruct k as [|j k]; [simpl in Ek; rewrite <- Ek; set_solver |].
  injection Ek as _ Ek. destruct k; [|done]. simpl in Ek. subst order.
  destruct (decide (gone = [])) as [->|Hg]; [by destruct (_order p) |]. specialize (Hmax Hg ltac:(lia)). simpl in Hmax. lia.
Qed.

End theorems.
End PoolTheorems.

(** ** Witnesses *)

Module PoolWitnesses.
Import BackgroundWorkers PoolFacts PoolTheorems.

(** One worker, a queue of two, the last two tasks remembered. *)
Definition small : config := Config 1 2 2 true.
Definition busy : list (event nat string) :=
  [Start; Submit 10 "a" [1; 2]%nat; Submit 11 "b" []; Takes 12 0; Submit 13 "c" [3]%nat].
Definition done_a : list (event nat string) := [Processed 14 0 (Raise "boom"); Notified 15 0].
Definition after (es : list (event nat string)) : pool nat string := or_else (run small es init) init.

Lemma after_reachable : reachable small (after busy) /\ reachable small (after (busy ++ done_a)).
Proof. split; [exists busy | exists (busy ++ done_a)]; vm_compute; reflexivity. Defined.

Lemma pool_well_formed_witness : NoDup (queue_ids (after busy) ++ held (_workers (after busy))).
Proof. exact (proj1 (pool_well_formed small (after busy) (proj1 after_reachable))). Defined.

Lemma task_lifecycle_witness :
  exists s', objects (after (busy ++ done_a)) !! "a" = Some s' /\ rtc next running (status s').
Proof.
  destruct (task_lifecycle small done_a (after busy) (after (busy ++ done_a)) "a"
              (Status running 2 10 (Some 12) None None None) (proj1 after_reachable) ltac:(vm_compute; reflexivity)
              ltac:(vm_compute; reflexivity)) as (s' & Hs & Hn & _). by exists s'.
Defined.

Lemma batches_taken_in_order_witness :
  along small (accepts small) busy init = along small takes busy init ++ queue_ids (after busy) /\
  along small (accepts small) busy init = ["a"; "b"; "c"].
Proof. split; [apply (batches_taken_in_order small); vm_compute; reflexivity | vm_compute; reflexivity]. Defined.

(** The defaults keep more tasks than the queue holds; the settings allow the reverse. *)
Definition defaults : config := Config 2 200 500 true.
Definition short_history : config := Config 2 200 10 true.

Lemma history_bound_exact_witness :
  ~ (exists p : pool nat string, reachable defaults p /\ Crashed ∈ _workers p) /\
  (valid_settings short_history = true /\ exists p : pool nat string, reachable short_history p /\ Crashed ∈ _workers p).
Proof.
  split.
  - intros H. apply (history_bound_exact defaults) in H; [apply H; simpl; lia | simpl; lia | simpl; lia].
  - split; [reflexivity |]. apply history_bound_exact; simpl; lia.
Defined.

Lemma pool_drains_witness :
  (length done_a + work (after (busy ++ done_a)) <= work (after busy))%nat /\ work (after busy) = 8%nat.
Proof.
  split; [|vm_compute; reflexivity].
  apply (pool_drains small (after busy) done_a (after (busy ++ done_a)) "ok"); simpl; try lia;
    [apply after_reachable | reflexivity | by repeat constructor | vm_compute; reflexivity].
Defined.

Lemma health_counts_tasks_witness :
  tracked_tasks (health_summary small (after busy)) = 2 /\
  (let h := health_summary small (after busy) in
   tasks h queued + tasks h running + tasks h succeeded + tasks h failed + tasks h cancelled = tracked_tasks h).
Proof. split; [vm_compute; reflexivity | exact (health_counts_tasks small (after busy) (proj1 after_reachable))]. Defined.

Lemma submission_answers_witness :
  let r := submit_background_batch_ingest small 20 "d" [] (Some (after (busy ++ done_a))) in
  r.1 = Raise (Incidents.HTTP 429 "Background queue is full") /\ r.2 = Some (after (busy ++ done_a)).
Proof.
  pose proof (submission_answers small 20 "d" [] (after (busy ++ done_a)) ltac:(simpl; lia) (proj2 after_reachable)
                ltac:(vm_compute; reflexivity)) as H.
  split; [vm_compute; reflexivity |].
  destruct (submit_background_batch_ingest small 20 "d" [] _) as [[s|[code detail]] p'] eqn:E;
    [vm_compute in E; discriminate | exact (proj1 H)].
Defined.

End PoolWitnesses.
