(* ===== verification/Scheduler.v ===== *)
(** * Scheduled jobs (libs/platform/job_types.py, core/handlers.py, core/scheduler.py,
    jobs_registry.py, api/routes/health_ingestion_jobs.py)

    APScheduler is an interface: what the scheduler relies on is the type class
    [Engine] with its documented laws, which a map of jobs satisfies.  A [Job] is an
    object that its registry entry and the wrapped handlers in the engine share, so
    that jobs live in a store and both refer to them. *)

From S2P Require Import Prelude Db SourceRegistry.

Module Jobs.

(** ** Job types *)

Record JobHealthMetrics := Metrics {
  last_run_at : option datetime;
  last_run_duration_seconds : Q;
  success_count : Z;
  failure_count : Z;
  last_error : option string
}.

Definition new_metrics : JobHealthMetrics := Metrics None 0 0 0 None.

Definition success_rate (h : JobHealthMetrics) : Q :=
  let total := success_count h + failure_count h in
  if total =? 0 then 1 else (inject_Z (success_count h) / inject_Z total)%Q.

Definition is_healthy (h : JobHealthMetrics) : bool :=
  match last_error h with
  | None => Qle_bool (8 # 10) (success_rate h)
  | Some _ => false
  end.

Inductive trigger := IntervalTrigger (seconds : Z) | CronTrigger (expression : string).

(** The job functions that the registry defines. *)
Inductive job_handler :=
| ingest_scheduled_batch_example
| run_source_probe (source_id : Z)
| run_source_contract_snapshot (source_id : Z).

Record Job := NewJob {
  name : string;
  handler : job_handler;
  job_trigger : option trigger;
  max_retries : Z;
  timeout_seconds : option Z;
  tags : list string;
  health : JobHealthMetrics
}.

(** ** Handlers

    How a handler ends when it is left alone, and how long it takes. *)

Inductive job_error :=
| TimeoutError (message : string)
| CancelledError
| Exception (message : string).

Record attempt (R : Type) := Attempt { takes : Q; ends : result job_error R }.
Arguments Attempt {R}.
Arguments takes {R}.
Arguments ends {R}.

(** [asyncio.wait_for] where a timeout is set. *)
Definition awaited {R} (timeout : option Z) (a : attempt R) : result job_error R :=
  match timeout with
  | Some t =>
      if t =? 0 then ends a
      else if Qltb (inject_Z t) (takes a) then Raise (TimeoutError EmptyString) else ends a
  | None => ends a
  end.

Definition with_health (h : JobHealthMetrics) (j : Job) : Job :=
  NewJob (name j) (handler j) (job_trigger j) (max_retries j) (timeout_seconds j) (tags j) h.

Definition observe_success (now : datetime) (duration : Q) (h : JobHealthMetrics) : JobHealthMetrics :=
  Metrics (Some now) duration (success_count h + 1) (failure_count h) None.

Definition observe_failure (now : datetime) (error : string) (h : JobHealthMetrics) : JobHealthMetrics :=
  Metrics (Some now) (last_run_duration_seconds h) (success_count h) (failure_count h + 1) (Some error).

(** What a run does to the session and how often it calls the handler. *)
Inductive effect := OpenSession | CallHandler (h : job_handler) | CloseSession.

(** [wrapped]: the answer or the exception that propagates, the job with its new
    metrics, and the effects in order. *)
Definition wrapped {R} (now : datetime) (a : attempt R) (j : Job) : result job_error R * Job * list effect :=
  let effects := [OpenSession; CallHandler (handler j); CloseSession] in
  match awaited (timeout_seconds j) a with
  | Ok r => (Ok r, with_health (observe_success now (takes a) (health j)) j, effects)
  | Raise (TimeoutError e) =>
      (Raise (TimeoutError e),
       with_health (observe_failure now (if str_truthy e then e else "timeout exceeded") (health j)) j, effects)
  | Raise CancelledError => (Raise CancelledError, j, effects)
  | Raise (Exception e) => (Raise (Exception e), with_health (observe_failure now e (health j)) j, effects)
  end.

(** ** The engine *)

(** A job of APScheduler: the wrapped handler is determined by the job object and the
    session factory it closes over. *)
Record engine_job (F : Type) := EngineJob {
  func : nat * F;
  engine_trigger : trigger;
  next_run_time : option datetime
}.
Arguments EngineJob {F}.
Arguments func {F}.
Arguments engine_trigger {F}.
Arguments next_run_time {F}.

Inductive scheduler_error := SchedulerAlreadyRunningError | AssertionError.

Class Engine (F E : Type) := {
  engine_running : E -> bool;
  get_job : string -> E -> option (engine_job F);
  (** [add_job] with [replace_existing=True]. *)
  add_job : string -> nat * F -> trigger -> E -> E;
  engine_pause : string -> E -> E;
  engine_resume : string -> E -> E;
  engine_start : E -> result scheduler_error E;
  engine_shutdown : E -> E
}.

(** An interval trigger always has a next run, so that resuming keeps the job. *)
Class EngineLaws (F E : Type) `{Engine F E} : Prop := {
  added i f t e : exists n, get_job i (add_job i f t e) = Some (EngineJob f t n);
  added_other i k f t e : k <> i -> get_job k (add_job i f t e) = get_job k e;
  paused i e : get_job i (engine_pause i e) = option_map (fun j => EngineJob (func j) (engine_trigger j) None) (get_job i e);
  paused_other i k e : k <> i -> get_job k (engine_pause i e) = get_job k e;
  resumed i e j s : get_job i e = Some j -> engine_trigger j = IntervalTrigger s ->
    exists n, get_job i (engine_resume i e) = Some (EngineJob (func j) (engine_trigger j) (Some n));
  resumed_other i k e : k <> i -> get_job k (engine_resume i e) = get_job k e;
  started e : match engine_start e with
              | Ok e' => engine_running e = false /\ engine_running e' = true /\ forall k, get_job k e' = get_job k e
              | Raise _ => engine_running e = true
              end;
  added_running i f t e : engine_running (add_job i f t e) = engine_running e;
  paused_running i e : engine_running (engine_pause i e) = engine_running e;
  resumed_running i e : engine_running (engine_resume i e) = engine_running e;
  shut_down e : engine_running (engine_shutdown e) = false
}.

(** ** The scheduler *)

Section Scheduler.
Context {F E : Type} `{Engine F E}.

(** The job objects by identity, in the order of their making. *)
Record JobScheduler := Scheduler {
  _scheduler : E;
  _jobs : gmap string nat;
  objects : list Job;
  _session_factory : option F
}.

Definition new_scheduler (e : E) : JobScheduler := Scheduler e ∅ [] None.

Definition running (s : JobScheduler) : bool := engine_running (_scheduler s).

Definition with_engine (e : E) (s : JobScheduler) : JobScheduler :=
  Scheduler e (_jobs s) (objects s) (_session_factory s).

Definition _activate_job (job_name : string) (r : nat) (s : JobScheduler) : result scheduler_error JobScheduler :=
  match objects s !! r ≫= job_trigger with
  | None => Ok s
  | Some t =>
      match _session_factory s with
      | None => Raise AssertionError
      | Some f => Ok (with_engine (add_job job_name (r, f) t (_scheduler s)) s)
      end
  end.

(** [@scheduler.job(...)] on a handler. *)
Definition job (job_name : string) (h : job_handler) (t : option trigger) (retries : Z) (timeout : option Z)
    (job_tags : list string) (s : JobScheduler) : result scheduler_error JobScheduler :=
  let r := length (objects s) in
  let s := Scheduler (_scheduler s) (<[job_name := r]> (_jobs s))
             (objects s ++ [NewJob job_name h t retries timeout job_tags new_metrics]) (_session_factory s) in
  if running s then _activate_job job_name r s else Ok s.

Fixpoint activate_all (jobs : list (string * nat)) (s : JobScheduler) : result scheduler_error JobScheduler :=
  match jobs with
  | [] => Ok s
  | (job_name, r) :: jobs => bind_result (_activate_job job_name r s) (activate_all jobs)
  end.

Definition start (session_factory : F) (s : JobScheduler) : result scheduler_error JobScheduler :=
  let s := Scheduler (_scheduler s) (_jobs s) (objects s) (Some session_factory) in
  bind_result (activate_all (map_to_list (_jobs s)) s) (fun s =>
  bind_result (engine_start (_scheduler s)) (fun e => Ok (with_engine e s))).

Definition stop (s : JobScheduler) : JobScheduler :=
  if running s then with_engine (engine_shutdown (_scheduler s)) s else s.

Definition get_job_health (job_name : string) (s : JobScheduler) : option JobHealthMetrics :=
  _jobs s !! job_name ≫= fun r => option_map health (objects s !! r).

Definition get_all_jobs_health (s : JobScheduler) : gmap string JobHealthMetrics :=
  omap (fun r => option_map health (objects s !! r)) (_jobs s).

Definition get_next_run_times (s : JobScheduler) : gmap string (option datetime) :=
  map_imap (fun job_name _ => Some (get_job job_name (_scheduler s) ≫= next_run_time)) (_jobs s).

Definition has_job (job_name : string) (s : JobScheduler) : bool := bool_decide (is_Some (_jobs s !! job_name)).

Definition pause_job (job_name : string) (s : JobScheduler) : JobScheduler :=
  match get_job job_name (_scheduler s) with
  | Some _ => with_engine (engine_pause job_name (_scheduler s)) s
  | None => s
  end.

Definition resume_job (job_name : string) (s : JobScheduler) : result scheduler_error JobScheduler :=
  match _jobs s !! job_name with
  | None => Ok s
  | Some r =>
      match get_job job_name (_scheduler s) with
      | Some _ => Ok (with_engine (engine_resume job_name (_scheduler s)) s)
      | None => _activate_job job_name r s
      end
  end.

(** The engine runs the wrapped handler of a job it has. *)
Definition run_job {R} (now : datetime) (job_name : string) (a : attempt R) (s : JobScheduler)
    : option (result job_error R * list effect) * JobScheduler :=
  match get_job job_name (_scheduler s) with
  | None => (None, s)
  | Some ej =>
      match objects s !! (func ej).1 with
      | None => (None, s)
      | Some j =>
          let '(r, j, effects) := wrapped now a j in
          (Some (r, effects),
           Scheduler (_scheduler s) (_jobs s) (<[(func ej).1 := j]> (objects s)) (_session_factory s))
      end
  end.

(** ** The registry *)

Definition register_jobs (s : JobScheduler) : result scheduler_error JobScheduler :=
  job "ingest_scheduled_batch_example" ingest_scheduled_batch_example None 3 (Some 300) ["batch"; "example"] s.

Definition probe_job_name (source_id : Z) : string := "probe_source_" +:+ str_of_Z source_id.
Definition snapshot_job_name (source_id : Z) : string := "contract_snapshot_source_" +:+ str_of_Z source_id.

(** One round of the loop; [true] when the probe job was registered. *)
Definition register_source (source_id : Z) (profile : SourceRegistry.SourceProfile) (s : JobScheduler)
    : result scheduler_error (bool * JobScheduler) :=
  let interval_seconds := Z.max 1 (SourceRegistry.probe_interval_seconds profile) in
  if has_job (probe_job_name source_id) s then Ok (false, s)
  else
    bind_result (job (probe_job_name source_id) (run_source_probe source_id)
                   (Some (IntervalTrigger interval_seconds)) 0 (Some 15) ["probe"; "source-health"] s) (fun s =>
    bind_result (if has_job (snapshot_job_name source_id) s then Ok s
                 else job (snapshot_job_name source_id) (run_source_contract_snapshot source_id)
                        (Some (IntervalTrigger (Z.max 300 (interval_seconds * 5)))) 1 (Some 30)
                        ["contract-drift"; "snapshot"] s) (fun s => Ok (true, s))).

Fixpoint register_sources (sources : list (Z * SourceRegistry.SourceProfile)) (s : JobScheduler)
    : result scheduler_error (Z * JobScheduler) :=
  match sources with
  | [] => Ok (0, s)
  | (i, profile) :: sources =>
      bind_result (register_source i profile s) (fun '(b, s) =>
      bind_result (register_sources sources s) (fun '(n, s) => Ok (Z.b2z b + n, s)))
  end.

Definition active_source (p : SourceRegistry.SourceProfile) : bool :=
  SourceRegistry.present p && SourceRegistry.is_active p.

Definition register_source_probe_jobs (t : table SourceRegistry.SourceProfile) (s : JobScheduler)
    : result scheduler_error (Z * JobScheduler) :=
  register_sources (select active_source t) s.

(** ** Endpoints

    [None] is the scheduler that was never injected. *)

Definition not_initialized {A} (detail : string) : result Incidents.Incidents.HTTPException A :=
  Raise (Incidents.Incidents.HTTP 503 detail).

Record job_report := Report {
  reported : JobHealthMetrics;
  report_success_rate : Q;
  report_is_healthy : bool;
  report_next_run_time : option datetime
}.

Definition report_of (job_name : string) (s : JobScheduler) (h : JobHealthMetrics) : job_report :=
  Report h (success_rate h) (is_healthy h) (or_else (get_next_run_times s !! job_name) None).

Definition get_jobs_health (scheduler : option JobScheduler)
    : result Incidents.Incidents.HTTPException (bool * Z * gmap string job_report) :=
  match scheduler with
  | None => not_initialized "Scheduler not initialized"
  | Some s => Ok (running s, Z.of_nat (size (get_all_jobs_health s)),
                  map_imap (fun job_name h => Some (report_of job_name s h)) (get_all_jobs_health s))
  end.

Definition get_job_report (job_name : string) (scheduler : option JobScheduler)
    : result Incidents.Incidents.HTTPException job_report :=
  match scheduler with
  | None => not_initialized "Scheduler not initialized"
  | Some s =>
      match get_job_health job_name s with
      | None => Raise (Incidents.Incidents.HTTP 404 ("Job " +:+ job_name +:+ " not found"))
      | Some h => Ok (report_of job_name s h)
      end
  end.

Inductive route_error :=
| Http (e : Incidents.Incidents.HTTPException)
| Unhandled (e : scheduler_error).

Definition stop_source_jobs (source_id : Z) (t : table SourceRegistry.SourceProfile) (scheduler : option JobScheduler)
    : result route_error (list string * bool * JobScheduler) :=
  match SourceRegistry.get_source_profile source_id false t, scheduler with
  | None, _ => Raise (Http (Incidents.Incidents.HTTP 404 "Source not found."))
  | _, None => Raise (Http (Incidents.Incidents.HTTP 503 "Scheduler not initialized."))
  | Some _, Some s =>
      let s := pause_job (snapshot_job_name source_id) (pause_job (probe_job_name source_id) s) in
      Ok ([probe_job_name source_id; snapshot_job_name source_id], running s, s)
  end.

Definition start_source_jobs (source_id : Z) (t : table SourceRegistry.SourceProfile) (scheduler : option JobScheduler)
    : result route_error (list string * bool * JobScheduler) :=
  match SourceRegistry.get_source_profile source_id false t, scheduler with
  | None, _ => Raise (Http (Incidents.Incidents.HTTP 404 "Source not found."))
  | _, None => Raise (Http (Incidents.Incidents.HTTP 503 "Scheduler not initialized."))
  | Some _, Some s =>
      match bind_result (resume_job (probe_job_name source_id) s) (resume_job (snapshot_job_name source_id)) with
      | Raise e => Raise (Unhandled e)
      | Ok s => Ok ([probe_job_name source_id; snapshot_job_name source_id], running s, s)
      end
  end.

(** ** Steps *)

Inductive step : JobScheduler -> JobScheduler -> Prop :=
| step_job job_name h t retries timeout job_tags s s' :
    job job_name h t retries timeout job_tags s = Ok s' -> step s s'
| step_start f s s' : start f s = Ok s' -> step s s'
| step_pause job_name s : step s (pause_job job_name s)
| step_resume job_name s s' : resume_job job_name s = Ok s' -> step s s'
| step_run {R} now job_name (a : attempt R) s : step s (run_job now job_name a s).2
| step_register t s n s' : register_source_probe_jobs t s = Ok (n, s') -> step s s'.

End Scheduler.
Arguments JobScheduler : clear implicits.
End Jobs.

(** ** Theorems *)

Module JobTheorems.
Import Jobs.

(** *** Metrics *)

(** Whether a run counts, and as what: cancelled runs do not. *)
Definition counted {R} (timeout : option Z) (a : attempt R) : option bool :=
  match awaited timeout a with
  | Ok _ => Some true
  | Raise CancelledError => None
  | Raise _ => Some false
  end.

Fixpoint runs {R} (as_ : list (datetime * attempt R)) (j : Job) : Job :=
  match as_ with
  | [] => j
  | (now, a) :: as_ => runs as_ (wrapped now a j).1.2
  end.

Lemma wrapped_job {R} now (a : attempt R) j : exists h, (wrapped now a j).1.2 = with_health h j.
Proof.
  unfold wrapped. destruct (awaited _ a) as [r|[e| |e]]; simpl; try (by eexists).
  exists (health j). by destruct j.
Qed.

Lemma wrapped_metrics {R} now (a : attempt R) j :
  health (wrapped now a j).1.2 =
    match counted (timeout_seconds j) a with
    | Some true => observe_success now (takes a) (health j)
    | Some false => observe_failure now (or_else (last_error (health (wrapped now a j).1.2)) EmptyString) (health j)
    | None => health j
    end.
Proof. unfold counted, wrapped. by destruct (awaited _ a) as [r|[e| |e]]. Qed.

Lemma runs_snoc {R} (as_ : list (datetime * attempt R)) now a j :
  runs (as_ ++ [(now, a)]) j = (wrapped now a (runs as_ j)).1.2.
Proof. revert j. induction as_ as [|[n b] as_ IH]; intros j; [done | apply IH]. Qed.

Lemma runs_timeout {R} (as_ : list (datetime * attempt R)) j : timeout_seconds (runs as_ j) = timeout_seconds j.
Proof.
  revert j. induction as_ as [|[n b] as_ IH]; intros j; [done |]. simpl. rewrite IH.
  by destruct (wrapped_job n b j) as [h ->].
Qed.

Lemma success_rate_bounds h :
  0 <= success_count h -> 0 <= failure_count h -> (0 <= success_rate h <= 1)%Q.
Proof.
  intros Hs Hf. unfold success_rate. destruct (Z.eqb_spec (success_count h + failure_count h) 0); [lra |].
  assert (0 < inject_Z (success_count h + failure_count h))%Q as Hp by (change 0%Q with (inject_Z 0); rewrite <- Zlt_Qlt; lia).
  split; [apply Qle_shift_div_l | apply Qle_shift_div_r]; try done;
    [rewrite Qmult_0_l; change 0%Q with (inject_Z 0) | rewrite Qmult_1_l]; rewrite <- Zle_Qle; lia.
Qed.

Lemma is_healthy_spec h :
  0 <= success_count h -> 0 <= failure_count h ->
  is_healthy h = true <-> last_error h = None /\ 4 * failure_count h <= success_count h.
Proof.
  intros Hs Hf. unfold is_healthy. destruct (last_error h); [split; [done | by intros []] |].
  rewrite Qle_bool_iff. unfold success_rate.
  destruct (Z.eqb_spec (success_count h + failure_count h) 0); [split; [intros _; split; [done | lia] | intros _; lra] |].
  assert (0 < inject_Z (success_count h + failure_count h))%Q as Hp by (change 0%Q with (inject_Z 0); rewrite <- Zlt_Qlt; lia).
  assert ((8 # 10) <= inject_Z (success_count h) / inject_Z (success_count h + failure_count h) <->
          (8 # 10) * inject_Z (success_count h + failure_count h) <= inject_Z (success_count h))%Q as ->.
  { split; intros H; [|by apply Qle_shift_div_l].
    apply (Qmult_le_compat_r _ _ (inject_Z (success_count h + failure_count h))) in H; [|lra].
    unfold Qdiv in H. rewrite <- Qmult_assoc, (Qmult_comm (/ _)), Qmult_inv_r, Qmult_1_r in H by lra. done. }
  unfold Qle, Qmult, inject_Z. simpl. split; [intros H; split; [done | lia] | intros [_ H]; lia].
Qed.

(** However a job's runs end, its metrics say what happened: the counters are the
    numbers of successful and of failed or timed-out runs, cancelled ones not counted,
    and the job is healthy exactly when the last counted run succeeded and at least
    four fifths of them did. *)
Theorem metrics_follow_runs {R} (as_ : list (datetime * attempt R)) j :
  health j = new_metrics ->
  let h := health (runs as_ j) in
  let outcomes := omap (fun x => counted (timeout_seconds j) x.2) as_ in
  success_count h = Z.of_nat (count id outcomes) /\
  failure_count h = Z.of_nat (count negb outcomes) /\
  (0 <= success_rate h <= 1)%Q /\
  (is_healthy h = true <-> last outcomes <> Some false /\ 4 * failure_count h <= success_count h).
Proof.
  intros Hj. cbn zeta. set (outcomes := omap _ as_). set (h := health (runs as_ j)).
  enough (success_count h = Z.of_nat (count id outcomes) /\ failure_count h = Z.of_nat (count negb outcomes) /\
          (last_error h = None <-> last outcomes <> Some false)) as (H1 & H2 & H3).
  { split; [done |]. split; [done |]. split; [apply success_rate_bounds; lia |].
    rewrite is_healthy_spec by lia. by rewrite H3. }
  subst h outcomes. induction as_ as [|[now a] as_ IH] using rev_ind; [simpl; rewrite Hj; by repeat split |].
  rewrite runs_snoc, omap_app. simpl. destruct IH as (H1 & H2 & H3). rewrite wrapped_metrics, runs_timeout.
  destruct (counted (timeout_seconds j) a) as [[]|]; simpl; rewrite ?count_app, ?last_snoc, ?app_nil_r; simpl.
  - unfold count in *. simpl. rewrite H1, H2. split; [lia | split; [lia | split; done]].
  - unfold count in *. simpl. rewrite H1, H2. split; [lia | split; [lia | split; [done | by intros []]]].
  - unfold count in *. simpl. rewrite !Nat.add_0_r. exact (conj H1 (conj H2 H3)).
Qed.

(** *** The scheduler and the engine *)

Section Scheduler.
Context {F E : Type} `{L : EngineLaws F E}.
Implicit Types (s : JobScheduler F E).

(** A job with an interval, as the registry has it. *)
Definition interval_job s (i : string) (r : nat) (n : Z) : Prop :=
  _jobs s !! i = Some r /\ objects s !! r ≫= job_trigger = Some (IntervalTrigger n).

Definition scheduled s (i : string) (r : nat) (n : Z) : Prop :=
  exists f t, _session_factory s = Some f /\ get_job i (_scheduler s) = Some (EngineJob (r, f) (IntervalTrigger n) t).

Record wf s : Prop := {
  wf_objects : forall i r, _jobs s !! i = Some r -> exists j, objects s !! r = Some j /\ name j = i;
  wf_factory : running s = true -> is_Some (_session_factory s);
  wf_scheduled : running s = true -> forall i r n, interval_job s i r n -> scheduled s i r n
}.

(** What only the engine's record of job [i] distinguishes. *)
Definition same_but s s' (i : string) : Prop :=
  _jobs s' = _jobs s /\ objects s' = objects s /\ _session_factory s' = _session_factory s /\
  running s' = running s /\ forall k, k <> i -> get_job k (_scheduler s') = get_job k (_scheduler s).

Lemma same_but_interval s s' i k r n : same_but s s' i -> interval_job s' k r n <-> interval_job s k r n.
Proof. intros (Hj & Ho & _). unfold interval_job. by rewrite Hj, Ho. Qed.

Lemma same_but_scheduled s s' i k r n : same_but s s' i -> k <> i -> scheduled s k r n -> scheduled s' k r n.
Proof.
  intros (_ & _ & Hf & _ & Hg) Hk (f & t & Ef & Eg). exists f, t. by rewrite Hf, Hg.
Qed.

Lemma same_but_wf s s' i :
  same_but s s' i -> wf s -> (running s = true -> forall r n, interval_job s i r n -> scheduled s' i r n) -> wf s'.
Proof.
  intros Hs [H1 H2 H3] Hi. pose proof Hs as (Hj & Ho & Hf & Hr & _). split.
  - intros k r. rewrite Hj, Ho. apply H1.
  - rewrite Hr, Hf. apply H2.
  - rewrite Hr. intros Hrun k r n Hk. rewrite (same_but_interval s s' i) in Hk by done.
    destruct (decide (k = i)) as [->|Hne]; [by apply Hi | by apply (same_but_scheduled s s' i), H3].
Qed.

Lemma activate_spec i r s s' :
  _activate_job i r s = Ok s' ->
  same_but s s' i /\ forall n, objects s !! r ≫= job_trigger = Some (IntervalTrigger n) -> scheduled s' i r n.
Proof.
  unfold _activate_job. destruct (objects s !! r ≫= job_trigger) as [t|] eqn:Et; [|by intros [= <-]].
  destruct (_session_factory s) as [f|] eqn:Ef; [|done]. intros [= <-]. split.
  - unfold same_but, running. simpl. rewrite added_running. split_and!; try done. intros k Hk. by apply added_other.
  - intros n [= ->]. destruct (added i (r, f) (IntervalTrigger n) (_scheduler s)) as [m Hm].
    exists f, m. simpl. by rewrite Hm.
Qed.

Lemma activate_total i r s : is_Some (_session_factory s) -> exists s', _activate_job i r s = Ok s'.
Proof. intros [f Hf]. unfold _activate_job. rewrite Hf. destruct (objects s !! r ≫= job_trigger); by eexists. Qed.

Lemma wf_activate i r s s' :
  wf s -> _jobs s !! i = Some r -> _activate_job i r s = Ok s' -> wf s'.
Proof.
  intros Hwf Hi Ha. destruct (activate_spec i r s s' Ha) as [Hs Hsch].
  apply (same_but_wf s s' i Hs Hwf). intros _ r' n [Hr Ht]. rewrite Hi in Hr. injection Hr as <-. by apply Hsch.
Qed.

Lemma wf_job i h t retries timeout ts s s' : wf s -> job i h t retries timeout ts s = Ok s' -> wf s'.
Proof.
  intros [H1 H2 H3]. unfold job. set (r := length (objects s)). set (s1 := Scheduler _ _ _ _).
  assert (forall k q, _jobs s !! k = Some q -> (objects s ++ [NewJob i h t retries timeout ts new_metrics]) !! q = objects s !! q) as Hold.
  { intros k q Hk. destruct (H1 k q Hk) as (j & Hj & _). rewrite lookup_app_l; [done |]. by eapply lookup_lt_Some. }
  assert (forall k q, _jobs s1 !! k = Some q -> exists j, objects s1 !! q = Some j /\ name j = k) as H1'.
  { intros k q. simpl. destruct (decide (k = i)) as [->|Hne].
    - rewrite lookup_insert_eq. intros [= <-]. eexists. rewrite lookup_app_r by done. subst r. by rewrite Nat.sub_diag.
    - rewrite lookup_insert_ne by done. intros Hk. rewrite (Hold k q Hk). by apply H1. }
  destruct (running s1) eqn:Er; [|intros [= <-]; split; [done | congruence | congruence]].
  intros Ha. destruct (activate_spec i r s1 s' Ha) as [Hs Hsch]. pose proof Hs as (Hj & Ho & Hf & Hr & _). split.
  - intros k q. rewrite Hj, Ho. apply H1'.
  - rewrite Hf. intros _. by apply H2.
  - intros _ k q n Hk. rewrite (same_but_interval s1 s' i) in Hk by done. destruct Hk as [Hk Ht]. simpl in Hk, Ht.
    destruct (decide (k = i)) as [->|Hne].
    + rewrite lookup_insert_eq in Hk. injection Hk as <-. by apply Hsch.
    + rewrite lookup_insert_ne in Hk by done. rewrite (Hold k q Hk) in Ht.
      apply (same_but_scheduled s1 s' i k q n Hs Hne). by apply H3.
Qed.

Lemma activate_all_spec l : forall s s',
  NoDup l.*1 -> activate_all l s = Ok s' ->
  _jobs s' = _jobs s /\ objects s' = objects s /\ _session_factory s' = _session_factory s /\ running s' = running s /\
  (forall k, k ∉ l.*1 -> get_job k (_scheduler s') = get_job k (_scheduler s)) /\
  (forall i r n, (i, r) ∈ l -> objects s !! r ≫= job_trigger = Some (IntervalTrigger n) -> scheduled s' i r n).
Proof.
  induction l as [|[i r] l IH]; intros s s' Hnd; simpl; [intros [= <-]; split_and!; try done; intros ???; set_solver |].
  apply NoDup_cons in Hnd as [Hi Hnd].
  destruct (_activate_job i r s) as [s1|] eqn:Ea; simpl; [|done]. intros Hall.
  destruct (activate_spec i r s s1 Ea) as [(Hj & Ho & Hf & Hr & Hg) Hsch].
  destruct (IH s1 s' Hnd Hall) as (Hj' & Ho' & Hf' & Hr' & Hg' & Hs'). split_and!; try congruence.
  - intros k Hk. rewrite Hg' by set_solver. apply Hg. set_solver.
  - intros k q n Hin Hn. apply elem_of_cons in Hin as [[= -> ->]|Hin].
    + destruct (Hsch n Hn) as (f & t & Ef & Eg). exists f, t. rewrite Hf', Hg' by done. done.
    + apply Hs'; [done | by rewrite Ho].
Qed.

Lemma wf_start f s s' : wf s -> start f s = Ok s' -> wf s'.
Proof.
  intros [H1 H2 H3]. unfold start. set (s0 := Scheduler _ _ _ _).
  destruct (activate_all _ s0) as [s1|] eqn:Ea; simpl; [|done].
  destruct (activate_all_spec _ _ _ (NoDup_fst_map_to_list _) Ea) as (Hj & Ho & Hf & Hr & Hg & Hs).
  pose proof (started (_scheduler s1)) as Hst. destruct (engine_start (_scheduler s1)) as [e|]; simpl; [|done].
  destruct Hst as (_ & Hon & Hsame). intros [= <-]. split; simpl.
  - intros i r. rewrite Hj, Ho. apply H1.
  - intros _. by rewrite Hf.
  - intros _ i r n [Hi Ht]. simpl in Hi, Ht. rewrite Hj in Hi. rewrite Ho in Ht.
    apply elem_of_map_to_list in Hi. destruct (Hs i r n Hi Ht) as (f' & t & Ef & Eg).
    exists f', t. simpl. by rewrite Hsame.
Qed.

Lemma wf_pause i s : wf s -> wf (pause_job i s).
Proof.
  intros Hwf. unfold pause_job. destruct (get_job i (_scheduler s)) as [ej|] eqn:Eg; [|done].
  apply (same_but_wf s _ i); [| done |].
  - unfold same_but, running. simpl. rewrite paused_running. split_and!; try done. intros k Hk. by apply paused_other.
  - intros Hr r n Hi. destruct (wf_scheduled s Hwf Hr i r n Hi) as (f & t & Ef & Ej).
    exists f, None. simpl. by rewrite paused, Ej.
Qed.

Lemma wf_resume i s s' : wf s -> resume_job i s = Ok s' -> wf s'.
Proof.
  intros Hwf. unfold resume_job. destruct (_jobs s !! i) as [r|] eqn:Ej; [|by intros [= <-]].
  destruct (get_job i (_scheduler s)) as [ej|] eqn:Eg; [|by apply wf_activate].
  intros [= <-]. apply (same_but_wf s _ i); [| done |].
  - unfold same_but, running. simpl. rewrite resumed_running. split_and!; try done. intros k Hk. by apply resumed_other.
  - intros Hr r' n Hi. destruct (wf_scheduled s Hwf Hr i r' n Hi) as (f & t & Ef & Ej').
    destruct (resumed i (_scheduler s) _ n Ej' eq_refl) as [m Hm]. exists f, (Some m). simpl. by rewrite Hm.
Qed.

Lemma wf_run {R} now i (a : attempt R) s : wf s -> wf (run_job now i a s).2.
Proof.
  intros [H1 H2 H3]. unfold run_job. destruct (get_job i (_scheduler s)) as [ej|]; [|done].
  destruct (objects s !! (func ej).1) as [j|] eqn:Ej; [|done].
  destruct (wrapped_job now a j) as [h Hh]. destruct (wrapped now a j) as [[res j'] eff]. simpl in *. subst j'.
  assert (forall q, (<[(func ej).1 := with_health h j]> (objects s)) !! q ≫= job_trigger = objects s !! q ≫= job_trigger) as Ht.
  { intros q. destruct (decide (q = (func ej).1)) as [->|Hne].
    - rewrite list_lookup_insert_eq by (by eapply lookup_lt_Some). by rewrite Ej.
    - by rewrite list_lookup_insert_ne. }
  split; simpl; [| done |].
  - intros k q Hk. destruct (H1 k q Hk) as (jk & Hjk & Hn). destruct (decide (q = (func ej).1)) as [->|Hne].
    + rewrite list_lookup_insert_eq by (by eapply lookup_lt_Some). rewrite Ej in Hjk. injection Hjk as <-. by eexists.
    + rewrite list_lookup_insert_ne by done. by exists jk.
  - intros Hr k q n [Hk Hq]. simpl in Hk, Hq. rewrite Ht in Hq. by apply (H3 Hr k q n).
Qed.

(** *** Registering the sources *)

Lemma job_total i h t retries timeout ts s : wf s -> exists s', job i h t retries timeout ts s = Ok s'.
Proof.
  intros Hwf. unfold job. set (s1 := Scheduler _ _ _ _). destruct (running s1) eqn:Er; [|by eexists].
  apply activate_total. by apply (wf_factory s).
Qed.

Lemma job_jobs i h t retries timeout ts s s' :
  job i h t retries timeout ts s = Ok s' -> _jobs s' = <[i := length (objects s)]> (_jobs s) /\
  objects s' = objects s ++ [NewJob i h t retries timeout ts new_metrics].
Proof.
  unfold job. set (s1 := Scheduler _ _ _ _). destruct (running s1); [|by intros [= <-]].
  intros Ha. by destruct (activate_spec _ _ _ _ Ha) as [(-> & -> & _) _].
Qed.

(** Later registrations keep what is there. *)
Definition extends s s' : Prop :=
  (forall k r, _jobs s !! k = Some r -> _jobs s' !! k = Some r) /\ exists l, objects s' = objects s ++ l.

#[local] Instance extends_preorder : PreOrder extends.
Proof.
  split; [split; [done | exists []; by rewrite app_nil_r] |].
  intros s1 s2 s3 [H1 [l1 E1]] [H2 [l2 E2]]. split; [auto |]. exists (l1 ++ l2). by rewrite E2, E1, <- app_assoc.
Qed.

Lemma has_job_spec i s : has_job i s = true <-> is_Some (_jobs s !! i).
Proof. unfold has_job. by rewrite bool_decide_eq_true. Qed.

Lemma has_job_extends i s s' : extends s s' -> has_job i s = true -> has_job i s' = true.
Proof. rewrite !has_job_spec. intros [He _] [r Hr]. exists r. by apply He. Qed.

(** The registered job [i] is the object [j]. *)
Definition registered s (i : string) (j : Job) : Prop := exists r, _jobs s !! i = Some r /\ objects s !! r = Some j.

Lemma registered_extends s s' i j : extends s s' -> registered s i j -> registered s' i j.
Proof.
  intros [He [l Ho]] (r & Hr & Hj). exists r. split; [by apply He |]. rewrite Ho. by apply lookup_app_l_Some.
Qed.

Lemma job_new i h t retries timeout ts s s' :
  has_job i s = false -> job i h t retries timeout ts s = Ok s' ->
  extends s s' /\ registered s' i (NewJob i h t retries timeout ts new_metrics) /\
  forall k, k <> i -> has_job k s' = has_job k s.
Proof.
  intros Hi [Hj Ho]%job_jobs. unfold has_job in *. apply bool_decide_eq_false in Hi. split_and!.
  - split; [|by eexists]. intros k r Hk. rewrite Hj, lookup_insert_ne; [done |]. intros <-. apply Hi. by exists r.
  - exists (length (objects s)). rewrite Hj, Ho, lookup_insert_eq. split; [done |].
    rewrite lookup_app_r by done. by rewrite Nat.sub_diag.
  - intros k Hk. by rewrite Hj, lookup_insert_ne.
Qed.

Definition probe_interval (p : SourceRegistry.SourceProfile) : Z := Z.max 1 (SourceRegistry.probe_interval_seconds p).

Definition probe_job (i : Z) (p : SourceRegistry.SourceProfile) : Job :=
  NewJob (probe_job_name i) (run_source_probe i) (Some (IntervalTrigger (probe_interval p))) 0 (Some 15)
    ["probe"; "source-health"] new_metrics.

Lemma probe_name_inj i j : probe_job_name i = probe_job_name j -> i = j.
Proof. unfold probe_job_name. intros Heq%(inj (String.app _)). by apply str_of_Z_inj. Qed.

Lemma probe_not_snapshot i j : probe_job_name i <> snapshot_job_name j.
Proof. done. Qed.

Lemma register_source_spec i p s :
  wf s -> exists s', register_source i p s = Ok (negb (has_job (probe_job_name i) s), s') /\ wf s' /\ extends s s' /\
    has_job (probe_job_name i) s' = true /\
    (forall j, j <> i -> has_job (probe_job_name j) s' = has_job (probe_job_name j) s) /\
    (has_job (probe_job_name i) s = false ->
     registered s' (probe_job_name i) (probe_job i p) /\ has_job (snapshot_job_name i) s' = true) /\
    (has_job (probe_job_name i) s = true -> s' = s).
Proof.
  intros Hwf. unfold register_source. destruct (has_job (probe_job_name i) s) eqn:Eh.
  { exists s. by split_and!. }
  fold (probe_interval p).
  destruct (job_total (probe_job_name i) (run_source_probe i) (Some (IntervalTrigger (probe_interval p))) 0 (Some 15)
              ["probe"; "source-health"] s Hwf) as [s1 E1].
  pose proof (wf_job _ _ _ _ _ _ _ _ Hwf E1) as Hwf1. destruct (job_new _ _ _ _ _ _ _ _ Eh E1) as (He1 & Hr1 & Hk1).
  rewrite E1. simpl. assert (has_job (probe_job_name i) s1 = true) as Hp1.
  { apply has_job_spec. destruct Hr1 as (r & Hr & _). by exists r. }
  destruct (has_job (snapshot_job_name i) s1) eqn:Es; simpl.
  - exists s1. split_and!; try done. intros j Hj. apply Hk1. by intros ?%probe_name_inj.
  - destruct (job_total (snapshot_job_name i) (run_source_contract_snapshot i)
                (Some (IntervalTrigger (Z.max 300 (probe_interval p * 5)))) 1 (Some 30)
                ["contract-drift"; "snapshot"] s1 Hwf1) as [s2 E2].
    pose proof (wf_job _ _ _ _ _ _ _ _ Hwf1 E2) as Hwf2. destruct (job_new _ _ _ _ _ _ _ _ Es E2) as (He2 & Hr2 & Hk2).
    rewrite E2. simpl. exists s2. split_and!; try done; [by etrans | by eapply has_job_extends | |].
    + intros j Hj. rewrite Hk2 by apply probe_not_snapshot. apply Hk1. by intros ?%probe_name_inj.
    + intros _. split; [by eapply registered_extends |]. apply has_job_spec. destruct Hr2 as (r & Hr & _). by exists r.
Qed.

Lemma register_sources_spec l : forall s,
  wf s -> NoDup l.*1 ->
  exists s', register_sources l s = Ok (Z.of_nat (count (fun x => negb (has_job (probe_job_name x.1) s)) l), s') /\
    wf s' /\ extends s s' /\
    (forall i p, (i, p) ∈ l -> has_job (probe_job_name i) s' = true /\
       (has_job (probe_job_name i) s = false ->
        registered s' (probe_job_name i) (probe_job i p) /\ has_job (snapshot_job_name i) s' = true)).
Proof.
  induction l as [|[i p] l IH]; intros s Hwf Hnd; simpl; [exists s; split_and!; try done; set_solver |].
  apply NoDup_cons in Hnd as [Hi Hnd].
  destruct (register_source_spec i p s Hwf) as (s1 & -> & Hwf1 & He1 & Hp1 & Hk1 & Hnew & _). simpl.
  destruct (IH s1 Hwf1 Hnd) as (s2 & -> & Hwf2 & He2 & Hall). simpl.
  assert (forall j q, (j, q) ∈ l -> has_job (probe_job_name j) s1 = has_job (probe_job_name j) s) as Hsame.
  { intros j q Hj. apply Hk1. intros ->. apply Hi, list_elem_of_fmap. by exists (i, q). }
  exists s2. split_and!; [| done | by etrans |].
  - do 2 f_equal. unfold count. simpl.
    assert (List.filter (fun x => negb (has_job (probe_job_name x.1) s1)) l
            = List.filter (fun x => negb (has_job (probe_job_name x.1) s)) l) as ->.
    { apply List.filter_ext_in. intros [j q] Hj%list_elem_of_In. simpl. by rewrite (Hsame j q Hj). }
    destruct (has_job (probe_job_name i) s); simpl; lia.
  - intros j q [[= -> ->]|Hj]%elem_of_cons.
    + split; [by eapply has_job_extends |]. intros Hno. destruct (Hnew Hno) as [Hr Hs].
      split; [by eapply registered_extends | by eapply has_job_extends].
    + destruct (Hall j q Hj) as [H1 H2]. split; [done |]. rewrite <- (Hsame j q Hj). exact H2.
Qed.

Lemma register_again l : forall s,
  Forall (fun x => has_job (probe_job_name x.1) s = true) l -> register_sources l s = Ok (0, s).
Proof.
  induction 1 as [|[i p] l Hi Hl IH]; simpl; [done |]. unfold register_source. simpl in Hi. by rewrite Hi; simpl; rewrite IH.
Qed.

Lemma wf_register_sources l : forall s n s', wf s -> register_sources l s = Ok (n, s') -> wf s'.
Proof.
  induction l as [|[i p] l IH]; intros s n s' Hwf; simpl; [by intros [= _ <-] |].
  destruct (register_source_spec i p s Hwf) as (s1 & -> & Hwf1 & _). simpl.
  destruct (register_sources l s1) as [[m s2]|] eqn:E2; simpl; [|done]. intros [= _ <-]. by eapply IH.
Qed.

Lemma wf_reachable e s : engine_running e = false -> rtc step (new_scheduler e) s -> wf s.
Proof.
  intros He Hr. apply (rtc_ind_r wf (new_scheduler e)) with (z := s) in Hr; [done | |].
  - split; unfold running; simpl; [done | congruence | congruence].
  - intros s1 s2 _ Hs Hwf. destruct Hs; eauto using wf_job, wf_start, wf_pause, wf_resume, wf_run, wf_register_sources.
Qed.

(** While the scheduler runs, every job registered with an interval is in the
    engine, with that interval and with the handler that was registered last under its
    name, however jobs were registered, started, paused, resumed and run before. *)
Theorem registered_jobs_scheduled e s i r n :
  engine_running e = false -> rtc step (new_scheduler e) s -> running s = true ->
  _jobs s !! i = Some r -> objects s !! r ≫= job_trigger = Some (IntervalTrigger n) ->
  exists f t j, get_job i (_scheduler s) = Some (EngineJob (r, f) (IntervalTrigger n) t) /\
    _session_factory s = Some f /\ objects s !! r = Some j /\ name j = i.
Proof.
  intros He Hr Hrun Hi Hn. apply wf_reachable in Hr; [|done]. destruct Hr as [H1 _ H3].
  destruct (H3 Hrun i r n (conj Hi Hn)) as (f & t & Ef & Eg). destruct (H1 i r Hi) as (j & Hj & Hname). by exists f, t, j.
Qed.

(** Registering the sources gives every active source whose probe is not
    registered yet its probe job, at the source's interval but at least every second,
    and a snapshot job; it answers how many these were, keeps all that was registered,
    and does nothing when called again. *)
Theorem source_jobs_registered e s (t : table SourceRegistry.SourceProfile) :
  engine_running e = false -> rtc step (new_scheduler e) s -> wf_table t ->
  let sources := select active_source t in
  exists s', register_source_probe_jobs t s =
      Ok (Z.of_nat (count (fun x => negb (has_job (probe_job_name x.1) s)) sources), s') /\
    (forall k r, _jobs s !! k = Some r -> _jobs s' !! k = Some r) /\
    (forall i p, (i, p) ∈ sources -> has_job (probe_job_name i) s' = true /\
       (has_job (probe_job_name i) s = false ->
        registered s' (probe_job_name i) (probe_job i p) /\ has_job (snapshot_job_name i) s' = true)) /\
    register_source_probe_jobs t s' = Ok (0, s').
Proof.
  intros He Hr Ht. cbn zeta. apply wf_reachable in Hr; [|done]. unfold register_source_probe_jobs.
  assert (NoDup (select active_source t).*1) as Hnd.
  { by apply StronglySorted_lt_NoDup, select_sorted. }
  destruct (register_sources_spec (select active_source t) s Hr Hnd) as (s' & -> & _ & [Hext _] & Hall).
  exists s'. split_and!; try done. apply register_again, Forall_forall. intros [i p] Hi. by apply (Hall i p).
Qed.

(** The two jobs of a source. *)
Definition source_jobs (i : Z) : list string := [probe_job_name i; snapshot_job_name i].

Lemma pause_present i s ej :
  get_job i (_scheduler s) = Some ej ->
  same_but s (pause_job i s) i /\
  get_job i (_scheduler (pause_job i s)) = Some (EngineJob (func ej) (engine_trigger ej) None).
Proof.
  intros Hi. unfold pause_job. rewrite Hi. split; [|simpl; by rewrite paused, Hi].
  unfold same_but, running. simpl. rewrite paused_running. split_and!; try done. intros k Hk. by apply paused_other.
Qed.

Lemma resume_present i s r ej n :
  _jobs s !! i = Some r -> get_job i (_scheduler s) = Some ej -> engine_trigger ej = IntervalTrigger n ->
  exists s' m, resume_job i s = Ok s' /\ same_but s s' i /\
    get_job i (_scheduler s') = Some (EngineJob (func ej) (engine_trigger ej) (Some m)).
Proof.
  intros Hj Hi Ht. unfold resume_job. rewrite Hj, Hi. destruct (resumed i (_scheduler s) ej n Hi Ht) as [m Hm].
  eexists _, m. split; [done |]. split; [|exact Hm].
  unfold same_but, running. simpl. rewrite resumed_running. split_and!; try done. intros k Hk. by apply resumed_other.
Qed.

(** Stopping and starting the jobs of a source is a round trip: a stop leaves the
    two jobs without a next run and touches nothing else; a start gives both a next run
    again, with the handlers and intervals they had. *)
Theorem source_jobs_stop_and_start s (t : table SourceRegistry.SourceProfile) id p rp rs np ns :
  wf s -> running s = true -> SourceRegistry.get_source_profile id false t = Some p ->
  interval_job s (probe_job_name id) rp np -> interval_job s (snapshot_job_name id) rs ns ->
  exists s1 s2 m1 m2, stop_source_jobs id t (Some s) = Ok (source_jobs id, true, s1) /\
    start_source_jobs id t (Some s1) = Ok (source_jobs id, true, s2) /\
    (forall k ej, k ∈ source_jobs id -> get_job k (_scheduler s1) = Some ej -> next_run_time ej = None) /\
    (forall k, k ∉ source_jobs id -> get_job k (_scheduler s1) = get_job k (_scheduler s) /\
                                     get_job k (_scheduler s2) = get_job k (_scheduler s)) /\
    exists f, get_job (probe_job_name id) (_scheduler s2) = Some (EngineJob (rp, f) (IntervalTrigger np) (Some m1)) /\
      get_job (snapshot_job_name id) (_scheduler s2) = Some (EngineJob (rs, f) (IntervalTrigger ns) (Some m2)).
Proof.
  intros Hwf Hrun Hp Hip His. pose proof (probe_not_snapshot id id) as Hne.
  destruct (wf_scheduled s Hwf Hrun _ _ _ Hip) as (f & t1 & Ef & E1).
  destruct (wf_scheduled s Hwf Hrun _ _ _ His) as (f' & t2 & Ef' & E2). rewrite Ef in Ef'. injection Ef' as <-.
  destruct (pause_present _ s _ E1) as [Ha Ga]. set (sa := pause_job (probe_job_name id) s) in *.
  destruct Ha as (Ja & Oa & Fa & Ra & Ka). rewrite <- Ka in E2 by done.
  destruct (pause_present _ sa _ E2) as [Hb Gb]. set (sb := pause_job (snapshot_job_name id) sa) in *.
  destruct Hb as (Jb & Ob & Fb & Rb & Kb). assert (get_job (probe_job_name id) (_scheduler sb) = Some (EngineJob (rp, f) (IntervalTrigger np) None)) as Gp.
  { by rewrite Kb. }
  destruct (resume_present (probe_job_name id) sb rp _ np ltac:(rewrite Jb, Ja; apply Hip) Gp eq_refl) as (sc & m1 & Rc & (Jc & Oc & Fc & Rnc & Kc) & Gc).
  assert (get_job (snapshot_job_name id) (_scheduler sc) = Some (EngineJob (rs, f) (IntervalTrigger ns) None)) as Gs.
  { by rewrite Kc. }
  destruct (resume_present (snapshot_job_name id) sc rs _ ns ltac:(rewrite Jc, Jb, Ja; apply His) Gs eq_refl) as (sd & m2 & Rd & (Jd & Od & Fd & Rnd & Kd) & Gd).
  exists sb, sd, m1, m2. unfold stop_source_jobs, start_source_jobs. rewrite Hp. fold sa. fold sb. fold (source_jobs id).
  rewrite Rc. simpl. rewrite Rd. rewrite Rnd, Rnc, Rb, Ra, Hrun. split_and!; try done.
  - intros k ej Hk. unfold source_jobs in Hk. set_unfold. destruct Hk as [->|[->|[]]].
    + rewrite Gp. by intros [= <-].
    + rewrite Gb. by intros [= <-].
  - intros k Hk. assert (k <> probe_job_name id /\ k <> snapshot_job_name id) as [Hk1 Hk2] by (unfold source_jobs in Hk; set_solver).
    rewrite Kd, Kc, Kb, Ka by done. done.
  - exists f. by rewrite Kd.
Qed.

End Scheduler.
End JobTheorems.

(** ** An engine: a map of jobs *)

Module MapEngine.
Import Jobs.

Record engine (F : Type) := MkEngine { is_running : bool; jobs : gmap string (engine_job F) }.
Arguments MkEngine {F}.
Arguments is_running {F}.
Arguments jobs {F}.

Definition due {F} (o : option datetime) (j : engine_job F) : engine_job F := EngineJob (func j) (engine_trigger j) o.

#[export] Instance map_engine (F : Type) : Engine F (engine F) := {
  engine_running := is_running;
  get_job i e := jobs e !! i;
  add_job i f t e := MkEngine (is_running e) (<[i := EngineJob f t (Some 0)]> (jobs e));
  engine_pause i e := MkEngine (is_running e) (alter (due None) i (jobs e));
  engine_resume i e := MkEngine (is_running e) (alter (due (Some 0)) i (jobs e));
  engine_start e := if is_running e then Raise SchedulerAlreadyRunningError else Ok (MkEngine true (jobs e));
  engine_shutdown e := MkEngine false (jobs e)
}.

#[export] Instance map_engine_laws (F : Type) : EngineLaws F (engine F).
Proof.
  split; simpl; try done.
  - intros i f t e. exists (Some 0). by rewrite lookup_insert_eq.
  - intros i k f t e Hk. by rewrite lookup_insert_ne.
  - intros i e. rewrite lookup_alter_eq. by destruct (jobs e !! i).
  - intros i k e Hk. by rewrite lookup_alter_ne.
  - intros i e j s Hj _. exists 0. by rewrite lookup_alter_eq, Hj.
  - intros i k e Hk. by rewrite lookup_alter_ne.
  - intros e. by destruct (is_running e) eqn:Er.
Qed.

Definition new (F : Type) : engine F := MkEngine false ∅.
End MapEngine.

(** ** Witnesses *)

Module JobWitnesses.
Import Jobs JobTheorems MapEngine SourceRegistryWitnesses.

Definition polled (interval : Z) : SourceRegistry.SourceProfile :=
  SourceRegistry.Profile "weather" "https://api.example.com" "/health" interval true (Some 7) None 3 3600
    "none" None "X-API-Key" None 0 (Some 0) None.
Definition one_source (interval : Z) : table SourceRegistry.SourceProfile := Table [(1, polled interval)] 2.

Definition fresh_scheduler : JobScheduler unit (engine unit) := new_scheduler (new unit).
Definition ok_or {A} (d : A) (r : result scheduler_error A) : A := match r with Ok a => a | Raise _ => d end.
Definition booted : JobScheduler unit (engine unit) :=
  ok_or fresh_scheduler (bind_result (register_source_probe_jobs (one_source 60) fresh_scheduler) (fun '(_, s) => start tt s)).

Lemma booted_reachable : rtc step fresh_scheduler booted.
Proof.
  eapply rtc_l; [apply (step_register (one_source 60) _ 1); vm_compute; reflexivity |].
  eapply rtc_l; [apply (step_start tt); vm_compute; reflexivity | apply rtc_refl].
Defined.

Lemma registered_jobs_scheduled_witness :
  exists r f t, get_job "contract_snapshot_source_1" (_scheduler booted) = Some (EngineJob (r, f) (IntervalTrigger 300) t).
Proof.
  edestruct (registered_jobs_scheduled (new unit) booted "contract_snapshot_source_1" 1%nat 300) as (f & t & _ & H & _);
    [reflexivity | exact booted_reachable | vm_compute; reflexivity .. |].
  by exists 1%nat, f, t.
Defined.

Lemma source_jobs_registered_witness :
  exists s', register_source_probe_jobs (one_source 60) fresh_scheduler = Ok (1, s') /\
    register_source_probe_jobs (one_source 60) s' = Ok (0, s').
Proof.
  edestruct (source_jobs_registered (new unit) fresh_scheduler (one_source 60)) as (s' & H & _ & _ & H');
    [reflexivity | apply rtc_refl | split; repeat constructor |].
  exists s'. split; [exact H | exact H'].
Defined.

Lemma source_jobs_stop_and_start_witness :
  exists s1 s2, stop_source_jobs 1 (one_source 60) (Some booted) = Ok (source_jobs 1, true, s1) /\
    start_source_jobs 1 (one_source 60) (Some s1) = Ok (source_jobs 1, true, s2).
Proof.
  assert (wf booted) as Hwf by (eapply (wf_reachable (new unit)); [reflexivity | exact booted_reachable]).
  edestruct (source_jobs_stop_and_start booted (one_source 60) 1 (polled 60) 0 1 60 300 Hwf) as (s1 & s2 & _ & _ & H1 & H2 & _);
    [reflexivity | vm_compute; reflexivity | split; vm_compute; reflexivity | split; vm_compute; reflexivity |].
  exists s1, s2. split; [exact H1 | exact H2].
Defined.

Definition failing : Job := NewJob "nightly" ingest_scheduled_batch_example None 3 (Some 5) [] new_metrics.
Definition history : list (datetime * attempt nat) :=
  [(1, Attempt 1 (Ok 1%nat)); (2, Attempt 9 (Ok 2%nat)); (3, Attempt 1 (Raise CancelledError)); (4, Attempt 1 (Ok 3%nat))].

Lemma metrics_follow_runs_witness :
  let h := health (runs history failing) in
  success_count h = 2 /\ failure_count h = 1 /\ is_healthy h = false.
Proof.
  destruct (metrics_follow_runs history failing eq_refl) as (H1 & H2 & _ & _). cbn zeta. rewrite H1, H2.
  split_and!; vm_compute; reflexivity.
Defined.

(** A job that allows three retries calls its handler once when it fails. *)
Lemma failing_job_is_not_retried :
  (wrapped 10 (Attempt (R := nat) 1 (Raise (Exception "boom"))) failing).2 =
  [OpenSession; CallHandler ingest_scheduled_batch_example; CloseSession].
Proof. reflexivity. Qed.

(** A changed probe interval is not picked up by registering the sources again. *)
Lemma changed_interval_is_not_applied :
  exists s' t, register_source_probe_jobs (one_source 5) booted = Ok (0, s') /\
    get_job "probe_source_1" (_scheduler s') = Some (EngineJob (0%nat, tt) (IntervalTrigger 60) t).
Proof. eexists _, _. split; vm_compute; reflexivity. Qed.

(** A rate of exactly 80 percent counts as healthy. *)
Lemma four_of_five_is_healthy : is_healthy (Metrics (Some 0) 1 4 1 None) = true.
Proof. reflexivity. Qed.

End JobWitnesses.
