(* ===== verification/Probes.v ===== *)
(** * Scheduled source probes (jobs/probes.py)

    The two jobs of a source: probing it and taking a contract snapshot.  Here the
    source registry, its URL check, the class-based breaker, the health samples with
    their incidents and the contract baselines meet.  [others] is what other tasks do
    to the world while the job awaits; the transactions are the ones of
    [IncidentLifecycle.v] and [ContractDrift.v], on the parts of the world that they
    read and write. *)

From S2P Require Import Prelude Db CircuitBreaker Contracts Messaging Network SourceRegistry.
From S2P Require Import Incidents Notifications IncidentLifecycle ContractDrift.

Module Probes.

(** [constants.py]. *)
Definition HEALTH_SAMPLE_ERROR_MSG_MAX : Z := 512.

(** The breaker sees the exceptions of the request; every one is a failure. *)
Definition breaker_config : Breaker.config unit := Breaker.Config 3 60 1 (fun _ => true).

(** ** The world *)

Section World.
Context {P : Type}.

Record world := World {
  registry : table SourceRegistry.SourceProfile;
  samples : table Incidents.ProviderHealthSample;
  incidents : Incidents.incidents;
  outbox : Messaging.outbox P;
  snapshots : table Drift.ContractSnapshot;
  baselines : table Drift.ContractBaseline;
  drift_events : table Drift.DriftEvent;
  observations : table Drift.Observation;
  agent_runs : table Drift.AgentRun;
  _source_probe_breakers : gmap Z Breaker.breaker
}.

(** A source as the incidents read it. *)
Definition incident_source (i : Z) (p : SourceRegistry.SourceProfile) : Incidents.SourceProfile * option datetime :=
  (Incidents.Source i (SourceRegistry.name p) (SourceRegistry.tenant_id p) (SourceRegistry.latency_threshold_ms p)
     (SourceRegistry.incident_failure_threshold p) (SourceRegistry.incident_cooldown_seconds p),
   SourceRegistry.deleted_at p).

Definition incident_sources (t : table SourceRegistry.SourceProfile) : table (Incidents.SourceProfile * option datetime) :=
  Table (map (fun x => (x.1, incident_source x.1 x.2)) (rows t)) (next_id t).

Definition health_world (w : world) : Lifecycle.world P :=
  Lifecycle.World (incident_sources (registry w)) (samples w) (incidents w) (outbox w).

Definition with_health (l : Lifecycle.world P) (w : world) : world :=
  World (registry w) (Lifecycle.samples l) (Lifecycle.rows_of_incidents l) (Lifecycle.outbox l) (snapshots w)
    (baselines w) (drift_events w) (observations w) (agent_runs w) (_source_probe_breakers w).

Definition drift_world (w : world) : Drift.world P :=
  Drift.World (incident_sources (registry w)) (snapshots w) (baselines w) (drift_events w) (observations w)
    (agent_runs w) (incidents w) (outbox w).

Definition with_drift (d : Drift.world P) (w : world) : world :=
  World (registry w) (samples w) (Drift.incidents d) (Drift.outbox d) (Drift.snapshots d) (Drift.baselines d)
    (Drift.drift_events d) (Drift.observations d) (Drift.agent_runs d) (_source_probe_breakers w).

Definition set_breaker (i : Z) (b : Breaker.breaker) (w : world) : world :=
  World (registry w) (samples w) (incidents w) (outbox w) (snapshots w) (baselines w) (drift_events w)
    (observations w) (agent_runs w) (<[i := b]> (_source_probe_breakers w)).

(** The breaker object of a source. *)
Definition breaker_of (i : Z) (w : world) : Breaker.breaker := default Breaker.init (_source_probe_breakers w !! i).

(** [_get_source_probe_breaker]: made on first use. *)
Definition _get_source_probe_breaker (i : Z) (w : world) : world :=
  match _source_probe_breakers w !! i with
  | None => set_breaker i Breaker.init w
  | Some _ => w
  end.

(** The query at the head of both jobs. *)
Definition active_profile (i : Z) (w : world) : option SourceRegistry.SourceProfile :=
  match get i (registry w) with
  | Some p => if SourceRegistry.present p && SourceRegistry.is_active p then Some p else None
  | None => None
  end.
End World.
Arguments world : clear implicits.

(** ** Results *)

Inductive probe_result :=
| Skipped (source_id : Z) (reason : string)
| Blocked (source_id : Z) (target_url error : string)
| Probed (source_id : Z) (target_url : string) (status_code : option Z) (latency_ms : Q) (is_success : bool).

Inductive probe_error :=
| ValidationError
| RecordError (e : Lifecycle.error).

(** The field constraints of [HealthSampleCreate] that a probe's sample can violate. *)
Definition valid_sample (latency_ms : Q) (http_status : option Z) (error_message : option string) : bool :=
  Qle_bool 0 latency_ms &&
  match http_status with Some c => (100 <=? c) && (c <=? 599) | None => true end &&
  match error_message with Some m => Z.of_nat (String.length m) <=? HEALTH_SAMPLE_ERROR_MSG_MAX | None => true end.

Section Jobs.
Context {P : Type} (dump_request : Events.NotificationDeliveryRequestedV1 -> P) (cfg : Notifications.Settings).
Context (settings : SourceRegistry.Settings) (bracketed_host : string -> bool) (format_g : Q -> string).

(** [datetime.now(UTC)]. *)
Definition utc (now : datetime) : Events.stamp := Events.Stamp now (Some 0).

Definition request_headers (p : SourceRegistry.SourceProfile) : list (string * string) :=
  SourceRegistry.build_auth_headers (SourceRegistry.auth_type p) (SourceRegistry.api_key p)
    (SourceRegistry.auth_header_name p) (SourceRegistry.auth_username p).

(** What the clocks read: [sampled_at], the clock of the transaction and of the
    dispatch, and the monotonic clock around the request and in the breaker. *)
Record clocks := Clocks {
  wall : datetime;
  commit : datetime;
  dispatch : Z -> datetime;
  enter : Q;
  start : Q;
  stop : Q;
  leave : Q
}.

Definition record_sample (c : clocks) (id : Z) (latency_ms : Q) (is_success : bool) (http_status : option Z)
    (error_message : option string) (r : probe_result) (w : world P) : result probe_error probe_result * world P :=
  if valid_sample latency_ms http_status error_message then
    match Lifecycle.record_health_sample dump_request cfg format_g (commit c) (dispatch c)
            (Lifecycle.SampleCreate id (utc (wall c)) latency_ms is_success http_status error_message) (health_world w) with
    | (Ok _, l) => (Ok r, with_health l w)
    | (Raise e, _) => (Raise (RecordError e), w)
    end
  else (Raise ValidationError, w).

(** [during_check] and [during_request]: the other tasks while the name is resolved and
    while the request is under way.  The requests sent come last. *)
Definition run_source_probe (send : SourceRegistry.http_request -> result string Z) (getaddrinfo : SourceRegistry.resolver)
    (during_check during_request : world P -> world P) (c : clocks) (id : Z) (w : world P)
    : result probe_error probe_result * world P * list SourceRegistry.http_request :=
  match active_profile id w with
  | None => (Ok (Skipped id "source_inactive"), w, [])
  | Some profile =>
      let target_url := SourceRegistry.probe_url profile in
      let w := _get_source_probe_breaker id w in
      if Breaker.is_open (breaker_of id w) then (Ok (Skipped id "circuit_open"), w, [])
      else
        let w := during_check w in
        match SourceRegistry.validate_source_base_url settings bracketed_host getaddrinfo target_url false with
        | Raise (Url.value_error exc) =>
            let error_message := "SSRF validation failed: " +:+ exc in
            (record_sample c id 0 false None (Some error_message) (Blocked id target_url error_message) w, [])
        | Ok _ =>
            match Breaker.aenter breaker_config (enter c) (breaker_of id w) with
            | None => (Ok (Skipped id "circuit_open"), w, [])
            | Some b =>
                let request := SourceRegistry.Request SourceRegistry.HEAD target_url (request_headers profile) in
                let w := during_request (set_breaker id b w) in
                let answer := send request in
                let exc := match answer with Ok _ => None | Raise _ => Some tt end in
                let w := set_breaker id (Breaker.aexit breaker_config (leave c) exc (breaker_of id w)) w in
                let status_code := match answer with Ok code => Some code | Raise _ => None end in
                let is_success := match answer with Ok code => (200 <=? code) && (code <? 400) | Raise _ => false end in
                let error_message := match answer with
                                     | Ok code => if is_success then None else Some ("upstream_status_" +:+ str_of_Z code)
                                     | Raise exc => Some exc
                                     end in
                let elapsed_ms := py_round 2 ((stop c - start c) * 1000) in
                (record_sample c id elapsed_ms is_success status_code error_message
                   (Probed id target_url status_code elapsed_ms is_success) w, [request])
            end
        end
  end.

(** ** The contract snapshot *)

(** An answer to the GET request: [None] when the body is not JSON. *)
Record response := Response { status : Z; body : option json }.

(** What sending can raise: an [httpx.HTTPError] or a [ValueError], or something else. *)
Inductive send_error := HTTPError | OtherError.

Inductive snapshot_result :=
| SnapshotSkipped (source_id : Z) (reason : string)
| SnapshotTaken (source_id : Z) (snapshot_id : option Z) (drift_event_id : option Z).

Inductive snapshot_error :=
| Unexpected
| DriftError (e : Drift.error).

Context (sha256_json : Drift.payload -> string) (sha256_flat : Drift.flat_schema -> string).
(** [httpx.Response.raise_for_status]. *)
Context (raises_for_status : Z -> bool).

Definition run_source_contract_snapshot (send : SourceRegistry.http_request -> result send_error response)
    (getaddrinfo : SourceRegistry.resolver) (during_check during_request : world P -> world P) (c : clocks) (id : Z)
    (w : world P) : result snapshot_error snapshot_result * world P * list SourceRegistry.http_request :=
  match active_profile id w with
  | None => (Ok (SnapshotSkipped id "source_inactive"), w, [])
  | Some profile =>
      let target_url := SourceRegistry.probe_url profile in
      let w := _get_source_probe_breaker id w in
      if Breaker.is_open (breaker_of id w) then (Ok (SnapshotSkipped id "circuit_open"), w, [])
      else
        let w := during_check w in
        match SourceRegistry.validate_source_base_url settings bracketed_host getaddrinfo target_url false with
        | Raise _ => (Ok (SnapshotSkipped id "ssrf_blocked"), w, [])
        | Ok _ =>
            match Breaker.aenter breaker_config (enter c) (breaker_of id w) with
            | None => (Ok (SnapshotSkipped id "fetch_failed"), w, [])
            | Some b =>
                let request := SourceRegistry.Request SourceRegistry.GET target_url (request_headers profile) in
                let w := during_request (set_breaker id b w) in
                let answer := send request in
                let exc := match answer with Ok _ => None | Raise _ => Some tt end in
                let w := set_breaker id (Breaker.aexit breaker_config (leave c) exc (breaker_of id w)) w in
                match answer with
                | Raise OtherError => (Raise Unexpected, w, [request])
                | Raise HTTPError => (Ok (SnapshotSkipped id "fetch_failed"), w, [request])
                | Ok r =>
                    if raises_for_status (status r) then (Ok (SnapshotSkipped id "fetch_failed"), w, [request])
                    else match body r with
                    | None => (Ok (SnapshotSkipped id "fetch_failed"), w, [request])
                    | Some (JObj payload) =>
                        match Drift.create_contract_snapshot dump_request cfg sha256_json sha256_flat (commit c)
                                (Drift.Create id payload None None) (drift_world w) with
                        | Raise e => (Raise (DriftError e), w, [request])
                        | Ok (Some (i, drift_event, _), d) => (Ok (SnapshotTaken id (Some i) drift_event), with_drift d w, [request])
                        | Ok (None, d) => (Ok (SnapshotTaken id None None), with_drift d w, [request])
                        end
                    | Some _ => (Ok (SnapshotSkipped id "non_dict_response"), w, [request])
                    end
                end
            end
        end
  end.

End Jobs.
End Probes.

(** ** Theorems *)

Module ProbeTheorems.
Import Probes.

Section theorems.
Context {P : Type} (dump_request : Events.NotificationDeliveryRequestedV1 -> P) (cfg : Notifications.Settings).
Context (settings : SourceRegistry.Settings) (bracketed_host : string -> bool) (format_g : Q -> string).
Context (sha256_json : Drift.payload -> string) (sha256_flat : Drift.flat_schema -> string).
Context (raises_for_status : Z -> bool).
Implicit Types (w : world P).

#[local] Abbreviation probe := (run_source_probe dump_request cfg settings bracketed_host format_g) (only parsing).
#[local] Abbreviation snapshot := (run_source_contract_snapshot dump_request cfg settings bracketed_host sha256_json sha256_flat raises_for_status) (only parsing).
#[local] Abbreviation checked := (SourceRegistryFacts.url_checked settings bracketed_host) (only parsing).

(** A job that finds its breaker open ends before its first [await]. *)
Lemma open_breaker_known id w : Breaker.is_open (breaker_of id w) = true -> _get_source_probe_breaker id w = w.
Proof. unfold breaker_of, _get_source_probe_breaker. by destruct (_source_probe_breakers w !! id). Qed.

Lemma breaker_of_get id i w : breaker_of id (_get_source_probe_breaker i w) = breaker_of id w.
Proof.
  unfold breaker_of, _get_source_probe_breaker. destruct (_source_probe_breakers w !! i) eqn:E; [done |]. simpl.
  destruct (decide (i = id)) as [->|]; [by rewrite lookup_insert_eq, E | by rewrite lookup_insert_ne].
Qed.

Lemma breaker_of_set id b w : breaker_of id (set_breaker id b w) = b.
Proof. unfold breaker_of. simpl. by rewrite lookup_insert_eq. Qed.

Lemma breaker_of_set_ne id i b w : id <> i -> breaker_of id (set_breaker i b w) = breaker_of id w.
Proof. intros. unfold breaker_of. simpl. by rewrite lookup_insert_ne. Qed.

Lemma breaker_of_eq id w w' :
  _source_probe_breakers w' = _source_probe_breakers w -> breaker_of id w' = breaker_of id w.
Proof. unfold breaker_of. by intros ->. Qed.

Lemma open_probe send dns dc dr c id w :
  Breaker.is_open (breaker_of id w) = true ->
  exists reason, probe send dns dc dr c id w = (Ok (Skipped id reason), w, []).
Proof.
  intros Ho. unfold run_source_probe. destruct (active_profile id w); [|by eexists].
  rewrite open_breaker_known, Ho by done. by eexists.
Qed.

Lemma open_snapshot send dns dc dr c id w :
  Breaker.is_open (breaker_of id w) = true ->
  exists reason, snapshot send dns dc dr c id w = (Ok (SnapshotSkipped id reason), w, []).
Proof.
  intros Ho. unfold run_source_contract_snapshot. destruct (active_profile id w); [|by eexists].
  rewrite open_breaker_known, Ho by done. by eexists.
Qed.

(** *** What a job leaves alone *)

Lemma record_sample_keeps c id lat ok st err r w res w' :
  record_sample dump_request cfg format_g c id lat ok st err r w = (res, w') ->
  _source_probe_breakers w' = _source_probe_breakers w /\ registry w' = registry w.
Proof.
  unfold record_sample. destruct (valid_sample lat st err); [|by intros [= _ <-]].
  destruct (Lifecycle.record_health_sample _ _ _ _ _ _ _) as [[r'|e] l]; by intros [= _ <-].
Qed.

Lemma set_breaker_registry i b w : registry (set_breaker i b w) = registry w.
Proof. done. Qed.

Lemma get_breaker_registry i w : registry (_get_source_probe_breaker i w) = registry w.
Proof. unfold _get_source_probe_breaker. by destruct (_source_probe_breakers w !! i). Qed.

(** A job by itself: no other task runs meanwhile. *)
Inductive job :=
| ProbeJob (send : SourceRegistry.http_request -> result string Z) (dns : SourceRegistry.resolver) (c : clocks) (id : Z)
| SnapshotJob (send : SourceRegistry.http_request -> result send_error response) (dns : SourceRegistry.resolver)
    (c : clocks) (id : Z).

Definition job_source (j : job) : Z := match j with ProbeJob _ _ _ id | SnapshotJob _ _ _ id => id end.

(** The world and the requests sent. *)
Definition run_job (j : job) w : world P * list SourceRegistry.http_request :=
  match j with
  | ProbeJob send dns c id => let '(_, w, sent) := probe send dns (fun w => w) (fun w => w) c id w in (w, sent)
  | SnapshotJob send dns c id => let '(_, w, sent) := snapshot send dns (fun w => w) (fun w => w) c id w in (w, sent)
  end.

(** Jobs one after the other, with the requests of each source. *)
Fixpoint run_jobs (js : list job) w : world P * list (Z * SourceRegistry.http_request) :=
  match js with
  | [] => (w, [])
  | j :: js =>
      let '(w, sent) := run_job j w in
      let '(w, rest) := run_jobs js w in
      (w, map (pair (job_source j)) sent ++ rest)
  end.

Lemma run_job_other j id w :
  job_source j <> id -> breaker_of id (run_job j w).1 = breaker_of id w.
Proof.
  intros Hne. assert (id <> job_source j) as Hne' by congruence. destruct j as [send dns c i|send dns c i]; simpl in *.
  - unfold run_source_probe. destruct (active_profile i w) as [p|]; [|done].
    destruct (Breaker.is_open _); [simpl; apply breaker_of_get |].
    destruct (SourceRegistry.validate_source_base_url _ _ _ _ _) as [|[m]].
    + destruct (Breaker.aenter _ _ _) as [b|]; [|simpl; apply breaker_of_get].
      destruct (record_sample _ _ _ _ _ _ _ _ _ _ _) as [r w'] eqn:E. apply record_sample_keeps in E as [E _].
      simpl. rewrite (breaker_of_eq id _ _ E). by rewrite !breaker_of_set_ne, breaker_of_get.
    + destruct (record_sample _ _ _ _ _ _ _ _ _ _ _) as [r w'] eqn:E. apply record_sample_keeps in E as [E _].
      simpl. rewrite (breaker_of_eq id _ _ E). apply breaker_of_get.
  - unfold run_source_contract_snapshot. destruct (active_profile i w) as [p|]; [|done].
    destruct (Breaker.is_open _); [simpl; apply breaker_of_get |].
    destruct (SourceRegistry.validate_source_base_url _ _ _ _ _) as [|[m]]; [|simpl; apply breaker_of_get].
    destruct (Breaker.aenter _ _ _) as [b|]; [|simpl; apply breaker_of_get].
    assert (forall b', breaker_of id (set_breaker i b' (set_breaker i b (_get_source_probe_breaker i w))) = breaker_of id w) as Hk
      by (intros b'; by rewrite !breaker_of_set_ne, breaker_of_get).
    destruct (send _) as [resp|[]]; simpl; try apply Hk.
    destruct (raises_for_status _); [apply Hk |]. destruct (body resp) as [[| | | | | |payload]|]; try apply Hk.
    destruct (Drift.create_contract_snapshot _ _ _ _ _ _ _) as [[[[[? ?] ?]|] d]|]; apply Hk.
Qed.

(** A breaker that is open never lets its source be probed again: the jobs look at
    it before they call it, and only a call would move it to half-open.  Whatever jobs
    run from then on, at whatever times and whatever the servers would answer, no
    request goes to the source and its breaker stays open. *)
Theorem open_breaker_stops_probing (js : list job) id w :
  Breaker.is_open (breaker_of id w) = true ->
  let '(w', sent) := run_jobs js w in
  Breaker.is_open (breaker_of id w') = true /\ (forall x, x ∈ sent -> x.1 <> id).
Proof.
  revert w. induction js as [|j js IH]; intros w Ho; simpl; [split; [done | set_solver] |].
  destruct (run_job j w) as [w1 s1] eqn:E1. assert (Breaker.is_open (breaker_of id w1) = true /\ (job_source j = id -> s1 = [])) as [Ho1 Hs1].
  { destruct (decide (job_source j = id)) as [<-|Hne].
    - destruct j as [send dns c i|send dns c i]; simpl in *;
        [destruct (open_probe send dns (fun w => w) (fun w => w) c i w Ho) as [reason Hr]
        | destruct (open_snapshot send dns (fun w => w) (fun w => w) c i w Ho) as [reason Hr]];
        rewrite Hr in E1; injection E1 as <- <-; done.
    - pose proof (run_job_other j id w Hne) as Hk. rewrite E1 in Hk. simpl in Hk. by rewrite Hk. }
  specialize (IH w1 Ho1). destruct (run_jobs js w1) as [w2 s2]. destruct IH as [H1 H2]. split; [done |].
  intros x [(req & -> & Hreq)%list_elem_of_fmap|Hx]%elem_of_app; [|by apply H2].
  simpl. intros Hid. rewrite (Hs1 Hid) in Hreq. set_solver.
Qed.


(** *** The outcome of a probe *)

(** A breaker that is not open admits a call and then counts its outcome. *)
Lemma closed_admits now b :
  Breaker.is_open b = false -> Breaker.aenter breaker_config now b = Some b.
Proof. unfold Breaker.is_open, Breaker.aenter. destruct (Breaker._state b); [done | by rewrite bool_decide_true | done]. Qed.

(** What is known of the request when the sample is made. *)
Definition succeeded (r : result string Z) : bool :=
  match r with Ok code => (200 <=? code) && (code <? 400) | Raise _ => false end.
Definition status_of (r : result string Z) : option Z := match r with Ok code => Some code | Raise _ => None end.
Definition error_of (r : result string Z) : option string :=
  match r with
  | Ok code => if succeeded r then None else Some ("upstream_status_" +:+ str_of_Z code)
  | Raise exc => Some exc
  end.

(** The sample that a row of the table is. *)
Definition sampled (c : clocks) (id : Z) (lat : Q) (ok : bool) (st : option Z) (err : option string)
    : Incidents.ProviderHealthSample := Incidents.Sample id (wall c) lat ok st err.

Lemma record_sample_ok c id lat ok st err r w res w' :
  record_sample dump_request cfg format_g c id lat ok st err r w = (Ok res, w') ->
  res = r /\ samples w' = (insert (sampled c id lat ok st err) (samples w)).2.
Proof.
  unfold record_sample. destruct (valid_sample lat st err); [|done].
  destruct (Lifecycle.record_health_sample _ _ _ _ _ _ _) as [[r'|e] l] eqn:E; [|done]. intros [= <- <-].
  split; [done |]. unfold Lifecycle.record_health_sample in E. simpl in E.
  destruct (get id (incident_sources (registry w))) as [[src [d|]]|]; try done.
  destruct (Incidents.reconcile_health_incidents _ _ _ _ _ _ _) as [[trs t]|]; [|done].
  destruct (Lifecycle.enqueue_incident_notification_requests _ _ _ _) as [[t' out]|]; [|done].
  destruct (Lifecycle._dispatch_transitions _ _ _ _) as [d t'']. by injection E as _ <-.
Qed.

Lemma record_sample_raise c id lat ok st err r w e w' :
  record_sample dump_request cfg format_g c id lat ok st err r w = (Raise e, w') -> samples w' = samples w.
Proof.
  unfold record_sample. destruct (valid_sample lat st err); [|by intros [= _ <-]].
  destruct (Lifecycle.record_health_sample _ _ _ _ _ _ _) as [[r'|e'] l]; by intros [= _ <-].
Qed.

(** A probe job that ends normally either skips a source that is gone, inactive or
    whose breaker is open, and then does nothing; or it leaves exactly one health
    sample that says what happened: a URL that fails its check is recorded as a
    failure without any request, and otherwise one HEAD went to the checked URL, and
    the sample has its status, its latency and success exactly for 200 to 399. *)
Theorem probe_records_one_sample send dns c id w :
  let head p := SourceRegistry.Request SourceRegistry.HEAD (SourceRegistry.probe_url p) (request_headers p) in
  let latency := py_round 2 ((stop c - start c) * 1000) in
  match probe send dns (fun w => w) (fun w => w) c id w with
  | (Ok (Skipped _ _), w', sent) => sent = [] /\ samples w' = samples w /\
      (active_profile id w = None \/ Breaker.is_open (breaker_of id w) = true)
  | (Ok (Blocked _ url error), w', sent) => sent = [] /\
      (exists p, active_profile id w = Some p /\ url = SourceRegistry.probe_url p /\ ~ checked dns url false) /\
      samples w' = (insert (sampled c id 0 false None (Some error)) (samples w)).2
  | (Ok (Probed _ url code lat ok), w', sent) =>
      exists p, active_profile id w = Some p /\ url = SourceRegistry.probe_url p /\ checked dns url false /\
        sent = [head p] /\ code = status_of (send (head p)) /\ ok = succeeded (send (head p)) /\ lat = latency /\
        samples w' = (insert (sampled c id lat ok code (error_of (send (head p)))) (samples w)).2
  | (Raise _, w', sent) => samples w' = samples w
  end.
Proof.
  unfold run_source_probe. cbn zeta. destruct (active_profile id w) as [p|] eqn:Ep; [|split_and!; [done | done | by left]].
  assert (samples (_get_source_probe_breaker id w) = samples w) as Hs
    by (unfold _get_source_probe_breaker; by destruct (_source_probe_breakers w !! id)).
  rewrite breaker_of_get. destruct (Breaker.is_open (breaker_of id w)) eqn:Eo; [split_and!; [done | done | by right] |].
  destruct (SourceRegistry.validate_source_base_url settings bracketed_host dns (SourceRegistry.probe_url p) false)
    as [[]|[m]] eqn:Ev.
  - rewrite closed_admits by done. rewrite breaker_of_set.
    set (w1 := set_breaker id (Breaker.aexit _ _ _ _) _). assert (samples w1 = samples w) as Hs1 by (subst w1; simpl; exact Hs).
    match goal with |- context [record_sample _ _ _ ?c ?i ?l ?o ?s ?e ?r w1] =>
      destruct (record_sample dump_request cfg format_g c i l o s e r w1) as [[res|e'] w'] eqn:Er end.
    + apply record_sample_ok in Er as [-> Er]. rewrite Hs1 in Er. exists p. split_and!; try done.
      by apply SourceRegistryFacts.validate_checked.
    + apply record_sample_raise in Er. by rewrite Er, Hs1.
  - match goal with |- context [record_sample _ _ _ ?c ?i ?l ?o ?s ?e ?r ?w1] =>
      destruct (record_sample dump_request cfg format_g c i l o s e r w1) as [[res|e'] w'] eqn:Er end.
    + apply record_sample_ok in Er as [-> Er]. rewrite Hs in Er. split_and!; [done | | done].
      exists p. split_and!; [done | done |]. intros Hc. apply SourceRegistryFacts.validate_checked in Hc. congruence.
    + apply record_sample_raise in Er. by rewrite Er, Hs.
Qed.

(** *** Outages *)

Lemma active_profile_eq id w w' : registry w' = registry w -> active_profile id w' = active_profile id w.
Proof. unfold active_profile. by intros ->. Qed.

(** The breaker after a probe that sends its request. *)
Lemma probe_breaker send dns c id p w :
  active_profile id w = Some p -> Breaker.is_open (breaker_of id w) = false -> checked dns (SourceRegistry.probe_url p) false ->
  let w' := (run_job (ProbeJob send dns c id) w).1 in
  active_profile id w' = Some p /\
  breaker_of id w' = Breaker.aexit breaker_config (leave c)
    (match send (SourceRegistry.Request SourceRegistry.HEAD (SourceRegistry.probe_url p) (request_headers p)) with
     | Ok _ => None | Raise _ => Some tt end) (breaker_of id w).
Proof.
  intros Hp Ho Hc. simpl. unfold run_source_probe. rewrite Hp. cbn zeta. rewrite breaker_of_get, Ho.
  apply SourceRegistryFacts.validate_checked in Hc. rewrite Hc, closed_admits by done. rewrite breaker_of_set.
  set (w1 := set_breaker id (Breaker.aexit _ _ _ _) _).
  match goal with |- context [record_sample _ _ _ ?c ?i ?l ?o ?s ?e ?r w1] =>
    destruct (record_sample dump_request cfg format_g c i l o s e r w1) as [res w'] eqn:Er end.
  apply record_sample_keeps in Er as [Hb Hr]. simpl. split.
  - rewrite (active_profile_eq id w); [done |]. rewrite Hr. subst w1. simpl. apply get_breaker_registry.
  - rewrite (breaker_of_eq id w1) by done. subst w1. by rewrite breaker_of_set.
Qed.

(** A probe of [id] during which the request fails, or is answered. *)
Definition failing (id : Z) (p : SourceRegistry.SourceProfile) (j : job) : Prop :=
  exists send dns c, j = ProbeJob send dns c id /\ (forall r, is_ok (send r) = false) /\ checked dns (SourceRegistry.probe_url p) false.

Definition answered (id : Z) (p : SourceRegistry.SourceProfile) (j : job) : Prop :=
  exists send dns c, j = ProbeJob send dns c id /\ (forall r, is_ok (send r) = true) /\ checked dns (SourceRegistry.probe_url p) false.

Lemma failure_counts now b :
  Breaker.is_open b = false ->
  let b' := Breaker.aexit breaker_config now (Some tt) b in
  Breaker.is_open b' = true \/ Breaker.is_open b' = false /\ Breaker._failure_count b' = Breaker._failure_count b + 1 /\ Breaker._failure_count b' < 3.
Proof.
  unfold Breaker.is_open, Breaker.aexit, Breaker._observation_failure. simpl. destruct b as [[] n o h]; simpl; try done.
  - destruct (Z.leb_spec 3 (n + 1)); [by left |]. right. simpl. split; [done | lia].
  - by left.
Qed.

Lemma outage_opens (n : nat) js id p w :
  active_profile id w = Some p -> Forall (failing id p) js -> length js = n -> 3 - Z.of_nat n <= Breaker._failure_count (breaker_of id w) ->
  Breaker._failure_count (breaker_of id w) < 3 ->
  Breaker.is_open (breaker_of id (run_jobs js w).1) = true \/ Breaker.is_open (breaker_of id w) = false /\ n = 0%nat.
Proof.
  intros Hp Hall. revert n w Hp. induction Hall as [|j js (send & dns & c & -> & Hs & Hc) Hall IH]; intros n w Hp Hn Hlo Hhi.
  { simpl in *. subst n. lia. }
  simpl in Hn. subst n. left. cbn [run_jobs].
  destruct (Breaker.is_open (breaker_of id w)) eqn:Eo.
  { pose proof (open_breaker_stops_probing (ProbeJob send dns c id :: js) id w Eo) as H. cbn [run_jobs] in H.
    destruct (run_job _ w) as [w1 s1]. destruct (run_jobs js w1) as [w2 s2]. apply H. }
  destruct (probe_breaker send dns c id p w Hp Eo Hc) as [Hp1 Hb1].
  destruct (run_job (ProbeJob send dns c id) w) as [w1 s1]. simpl in Hp1, Hb1.
  specialize (Hs (SourceRegistry.Request SourceRegistry.HEAD (SourceRegistry.probe_url p) (request_headers p))).
  destruct (send _) as [|e]; [done |].
  destruct (failure_counts (leave c) (breaker_of id w) Eo) as [Ho1|(Ho1 & Hc1 & Hlt)].
  - pose proof (open_breaker_stops_probing js id w1 ltac:(by rewrite Hb1)) as H.
    destruct (run_jobs js w1) as [w2 s2]. apply H.
  - rewrite <- Hb1 in *. destruct (IH (length js) w1 Hp1 eq_refl) as [H|[_ H]]; [lia | lia | |].
    + by destruct (run_jobs js w1) as [w2 s2].
    + lia.
Qed.

(** An outage of three probes ends the probing of a source for good: after three
    jobs whose requests fail, no job ever sends the source a request again, though its
    server may be back. *)
Theorem outage_is_permanent outage later id p w :
  active_profile id w = Some p -> 0 <= Breaker._failure_count (breaker_of id w) < 3 ->
  length outage = 3%nat -> Forall (failing id p) outage ->
  forall x, x ∈ (run_jobs later (run_jobs outage w).1).2 -> x.1 <> id.
Proof.
  intros Hp [Hlo Hhi] Hl Hall x Hx.
  destruct (outage_opens 3 outage id p w Hp Hall Hl ltac:(simpl; lia) Hhi) as [Ho|[_ ?]]; [|done].
  pose proof (open_breaker_stops_probing later id _ Ho) as H.
  destruct (run_jobs later (run_jobs outage w).1) as [w2 s2]. by apply H.
Qed.

(** An answer is never a failure for the breaker, whatever its status: while every
    request is answered, be it with 500, the breaker of the source stays closed. *)
Theorem answers_keep_breaker_closed js id p w :
  active_profile id w = Some p -> Breaker.is_closed (breaker_of id w) = true -> Forall (answered id p) js ->
  Breaker.is_closed (breaker_of id (run_jobs js w).1) = true.
Proof.
  intros Hp Hcl Hall. revert w Hp Hcl. induction Hall as [|j js (send & dns & c & -> & Hs & Hc) Hall IH]; intros w Hp Hcl; [done |].
  cbn [run_jobs]. assert (Breaker.is_open (breaker_of id w) = false) as Ho.
  { unfold Breaker.is_closed, Breaker.is_open in *. apply bool_decide_eq_true in Hcl. by rewrite Hcl. }
  destruct (probe_breaker send dns c id p w Hp Ho Hc) as [Hp1 Hb1].
  destruct (run_job (ProbeJob send dns c id) w) as [w1 s1]. simpl in Hp1, Hb1.
  specialize (Hs (SourceRegistry.Request SourceRegistry.HEAD (SourceRegistry.probe_url p) (request_headers p))).
  destruct (send _) as [code|]; [|done]. specialize (IH w1 Hp1).
  destruct (run_jobs js w1) as [w2 s2]. apply IH. rewrite Hb1.
  unfold Breaker.is_closed, Breaker.aexit, Breaker._observation_success in *. apply bool_decide_eq_true in Hcl.
  destruct (breaker_of id w) as [[] ? ? ?]; simpl in *; done.
Qed.

(** *** Snapshots *)

Lemma finish_sources i drift trs run (d : Drift.world P) x d' :
  Drift.finish dump_request cfg i drift trs run d = Ok (x, d') -> Drift.sources d' = Drift.sources d.
Proof.
  unfold Drift.finish. destruct (Lifecycle.enqueue_incident_notification_requests _ _ _ _) as [[inc out]|]; [|done].
  by intros [= _ <-].
Qed.

Lemma raise_sources now src prev i df score (d : Drift.world P) e trs run d' :
  Drift.raise_drift now src prev i df score d = Ok (e, trs, run, d') -> Drift.sources d' = Drift.sources d.
Proof.
  unfold Drift.raise_drift. cbv zeta. destruct (insert _ (Drift.drift_events d)) as [ei evs].
  destruct (negb _); [by intros [= _ _ _ <-] |].
  destruct (Incidents.open_or_update_incident _ _ _ _ _ _ _) as [[tr inc]|]; [|done].
  destruct (insert_unique _ _ (Drift.observations d)) as [[oi obs]|]; [|done].
  destruct (insert _ (Drift.agent_runs d)) as [ai runs].
  by intros [= _ _ _ <-].
Qed.

Lemma create_sources now q (d d' : Drift.world P) x :
  Drift.create_contract_snapshot dump_request cfg sha256_json sha256_flat now q d = Ok (x, d') ->
  Drift.sources d' = Drift.sources d.
Proof.
  unfold Drift.create_contract_snapshot. destruct (get _ (Drift.sources d)) as [[src [dl|]]|]; [by intros [= _ <-] | | by intros [= _ <-]].
  destruct (insert _ (Drift.snapshots d)) as [i snaps].
  destruct (Drift.get_active_contract_baseline _ _) as [[bi b]|].
  - destruct (get (Drift.baseline_snapshot_id b) snaps) as [base|]; [|done]. cbv zeta.
    destruct (Drift.no_drift _); [intros Hf; apply finish_sources in Hf; exact Hf |].
    destruct (Drift.raises_event _); [|intros Hf; apply finish_sources in Hf; exact Hf].
    destruct (Drift.raise_drift _ _ _ _ _ _ _) as [[[[e trs] run] w2]|] eqn:Er; [|done].
    apply raise_sources in Er. intros Hf. apply finish_sources in Hf. exact (eq_trans Hf Er).
  - destruct (insert_unique _ _ _) as [[j bs]|]; [|done]. by intros [= _ <-].
Qed.

(** A contract snapshot is taken exactly of an answered GET of the checked URL with
    an accepted status and a JSON object as its body; in every other case the job
    leaves all tables as they are. *)
Theorem snapshot_of_good_answers send dns c id w :
  let get p := SourceRegistry.Request SourceRegistry.GET (SourceRegistry.probe_url p) (request_headers p) in
  match snapshot send dns (fun w => w) (fun w => w) c id w with
  | (Ok (SnapshotTaken _ i e), w', sent) =>
      exists p r payload x, active_profile id w = Some p /\ checked dns (SourceRegistry.probe_url p) false /\
        sent = [get p] /\ send (get p) = Ok r /\ raises_for_status (status r) = false /\ body r = Some (JObj payload) /\
        Drift.create_contract_snapshot dump_request cfg sha256_json sha256_flat (commit c)
          (Drift.Create id payload None None) (drift_world w) = Ok (x, drift_world w') /\
        i = option_map (fun y => y.1.1) x /\ e = (x ≫= fun y => y.1.2) /\ samples w' = samples w
  | (_, w', _) => drift_world w' = drift_world w /\ samples w' = samples w
  end.
Proof.
  unfold run_source_contract_snapshot. cbn zeta. destruct (active_profile id w) as [p|] eqn:Ep; [|done].
  assert (drift_world (_get_source_probe_breaker id w) = drift_world w /\ samples (_get_source_probe_breaker id w) = samples w) as [Hd Hs]
    by (unfold _get_source_probe_breaker; by destruct (_source_probe_breakers w !! id)).
  rewrite breaker_of_get. destruct (Breaker.is_open (breaker_of id w)) eqn:Eo; [done |].
  destruct (SourceRegistry.validate_source_base_url settings bracketed_host dns (SourceRegistry.probe_url p) false)
    as [[]|[m]] eqn:Ev; [|done].
  rewrite closed_admits by done. rewrite breaker_of_set. set (w1 := set_breaker id (Breaker.aexit _ _ _ _) _).
  assert (drift_world w1 = drift_world w /\ samples w1 = samples w) as [Hd1 Hs1] by (subst w1; by split).
  destruct (send _) as [r|[]] eqn:Es; [|done | done]. destruct (raises_for_status (status r)) eqn:Er; [done |].
  destruct (body r) as [[| | | | | |payload]|] eqn:Eb; try done. rewrite Hd1.
  destruct (Drift.create_contract_snapshot _ _ _ _ _ _ _) as [[x d]|e] eqn:Ec; [|done].
  assert (drift_world (with_drift d w1) = d) as Hw.
  { apply create_sources in Ec. destruct d. unfold drift_world, with_drift in *. simpl in *. rewrite Ec. f_equal.
    subst w1. simpl. by rewrite get_breaker_registry. }
  apply SourceRegistryFacts.validate_checked in Ev.
  destruct x as [[[i e] eff]|].
  - exists p, r, payload, (Some (i, e, eff)). rewrite Hw. by split_and!.
  - exists p, r, payload, None. rewrite Hw. by split_and!.
Qed.
End theorems.
End ProbeTheorems.

(** ** Witnesses *)

Module ProbeWitnesses.
Import Probes ProbeTheorems SourceRegistryWitnesses.

Definition polled : SourceRegistry.SourceProfile :=
  SourceRegistry.Profile "weather" "https://api.example.com" "/health" 60 true (Some 7) None 3 3600
    "none" None "X-API-Key" None 0 (Some 0) None.

Definition dump (e : Events.NotificationDeliveryRequestedV1) : string := "request".
Definition quiet : Notifications.Settings := DriftWitnesses.direct.

Definition before : world string :=
  World (Table [(1, polled)] 2) (empty_table _) (empty_table _) (empty_table _) (empty_table _) (empty_table _)
    (empty_table _) (empty_table _) (empty_table _) ∅.

Definition at_second (n : Z) : clocks := Clocks (seconds n) (seconds n) (fun _ => seconds n) (inject_Z n) 0 (1 # 8) (inject_Z n).
Definition down (_ : SourceRegistry.http_request) : result string Z := Raise "connection refused".
Definition up (_ : SourceRegistry.http_request) : result string Z := Ok 200.
Definition broken (_ : SourceRegistry.http_request) : result string Z := Ok 500.
Definition hash (_ : Drift.payload) : string := "h".
Definition flat_hash (_ : Drift.flat_schema) : string := "f".
Definition accepted (code : Z) : bool := negb ((200 <=? code) && (code <? 300)).

Definition three_failures : list job := map (fun n => ProbeJob down dns (at_second n) 1) [60; 120; 180].
(** A day of probes of a server that is back. *)
Definition recovered : list job := map (fun n => ProbeJob up dns (at_second n) 1) [240; 300; 3600; 86400].

#[local] Abbreviation jobs := (run_jobs dump quiet strict any_host (fun _ => "1") hash flat_hash accepted).

Lemma target_checked : SourceRegistryFacts.url_checked strict any_host dns (SourceRegistry.probe_url polled) false.
Proof. apply SourceRegistryFacts.validate_checked. vm_compute. reflexivity. Defined.

Lemma failing_all : Forall (failing strict any_host 1 polled) three_failures.
Proof. repeat constructor; eexists down, dns, _; (split; [reflexivity | split; [done | apply target_checked]]). Defined.

Lemma outage_is_permanent_witness :
  (jobs recovered (jobs three_failures before).1).2 = [] /\
  forall x, x ∈ (jobs recovered (jobs three_failures before).1).2 -> x.1 <> 1.
Proof.
  split; [vm_compute; reflexivity |].
  apply (outage_is_permanent dump quiet strict any_host (fun _ => "1") hash flat_hash accepted three_failures recovered 1 polled);
    [reflexivity | vm_compute; split; [discriminate | reflexivity] | reflexivity | apply failing_all].
Defined.

Lemma open_breaker_stops_probing_witness :
  Breaker.is_open (breaker_of 1 (jobs recovered (jobs three_failures before).1).1) = true.
Proof.
  pose proof (open_breaker_stops_probing dump quiet strict any_host (fun _ => "1") hash flat_hash accepted recovered 1
                (jobs three_failures before).1 ltac:(vm_compute; reflexivity)) as H.
  destruct (jobs recovered (jobs three_failures before).1) as [w' sent]. exact (proj1 H).
Defined.

Definition errors : list job := map (fun n => ProbeJob broken dns (at_second n) 1) [60; 120; 180; 240].

Lemma answers_keep_breaker_closed_witness :
  Breaker.is_closed (breaker_of 1 (jobs errors before).1) = true /\
  length (rows (samples (jobs errors before).1)) = 4%nat /\ length (rows (incidents (jobs errors before).1)) = 1%nat.
Proof.
  split; [|split; vm_compute; reflexivity].
  apply (answers_keep_breaker_closed dump quiet strict any_host (fun _ => "1") hash flat_hash accepted errors 1 polled);
    [reflexivity | reflexivity |].
  repeat constructor; eexists broken, dns, _; (split; [reflexivity | split; [done | apply target_checked]]).
Defined.

End ProbeWitnesses.
