(* ===== verification/ReadModels.v ===== *)
(** * What the read models share (repositories/scorecards.py, insights.py,
    subscriptions.py, reporting_*.py)

    The queries at the head of the read models, the window of days, and the text of a
    number with a fixed count of decimals. *)

From S2P Require Import Prelude Db SourceRegistry ContractDrift.

Module ReadModels.

Abbreviation profiles := (table SourceRegistry.SourceProfile) (only parsing).
Abbreviation events := (table Drift.DriftEvent) (only parsing).

(** [now - timedelta(days=days)]. *)
Definition _cutoff_utc_naive (now : datetime) (n : Z) : datetime := now - days n.

Definition newest_source (x y : Z * SourceRegistry.SourceProfile) : bool :=
  SourceRegistry.created_at y.2 <=? SourceRegistry.created_at x.2.

(** [select(SourceProfile).where(deleted_at is null and wanted)], newest first. *)
Definition recent_sources (wanted : Z -> bool) (limit : nat) (t : profiles) : list (Z * SourceRegistry.SourceProfile) :=
  take limit (order_by newest_source (List.filter (fun x => wanted x.1) (select SourceRegistry.present t))).

(** An optional filter on one source, and on a list of sources where it is not empty. *)
Definition one_of (source_id : option Z) (i : Z) : bool :=
  match source_id with Some j => i =? j | None => true end.

Definition among (source_ids : option (list Z)) (i : Z) : bool :=
  match source_ids with
  | None | Some [] => true
  | Some l => bool_decide (i ∈ l)
  end.

(** [select(DriftEvent)], newest first. *)
Definition recent_events (source_id : option Z) (limit : nat) (t : events) : list (Z * Drift.DriftEvent) :=
  take limit (order_by Drift.newest_drift (select (fun e => one_of source_id (Drift.drift_source_id e)) t)).

(** [select(DriftEvent)] of some sources from [cutoff] on, in primary-key order. *)
Definition events_since (source_ids : list Z) (cutoff : datetime) (t : events) : list (Z * Drift.DriftEvent) :=
  select (fun e => bool_decide (Drift.drift_source_id e ∈ source_ids) && (cutoff <=? Drift.drift_created_at e)) t.

(** [f"{x:.nf}"]. *)
Fixpoint zeros (n : nat) : string :=
  match n with O => EmptyString | S n => String "0" (zeros n) end.

Definition fixed (n : nat) (q : Q) : string :=
  let scale := 10 ^ Z.of_nat n in
  let z := round_half_even (q * inject_Z scale) in
  let digits := str_of_Z (Z.abs z mod scale) in
  (if z <? 0 then "-" else EmptyString) +:+ str_of_Z (Z.abs z / scale) +:+ "." +:+
    zeros (n - String.length digits) +:+ digits.

(** Sums and means of rationals, as [sum] and division give them. *)
Definition qsum (l : list Q) : Q := foldr Qplus 0%Q l.
Definition qlen {A} (l : list A) : Q := inject_Z (Z.of_nat (length l)).

(** [sum(1 for x in l if p(x))], [len(l)], [sum(l)] of integers. *)
Definition tally {A} (p : A -> bool) (l : list A) : Z := Z.of_nat (count p l).
Definition zlen {A} (l : list A) : Z := Z.of_nat (length l).
Definition zsum (l : list Z) : Z := foldr Z.add 0 l.

End ReadModels.

Module ReadModelFacts.
Import ReadModels.

Lemma elem_of_take_1 {A} (x : A) n l : x ∈ take n l -> x ∈ l.
Proof. intros (i & Hi & _)%elem_of_take. by eapply list_elem_of_lookup_2. Qed.

Lemma NoDup_take_1 {A} n (l : list A) : NoDup l -> NoDup (take n l).
Proof. intros H. rewrite <- (take_drop n l) in H. by apply NoDup_app in H as [? _]. Qed.

Lemma StronglySorted_take {A} (R : A -> A -> Prop) n l : StronglySorted R l -> StronglySorted R (take n l).
Proof.
  intros Hs. revert n. induction Hs as [|x l Hs IH Hx]; intros [|n]; simpl; try constructor; [apply IH |].
  rewrite Forall_forall in *. intros y Hy%elem_of_take_1. by apply Hx.
Qed.

Lemma recent_sources_spec wanted limit t i p :
  wf_table t -> (i, p) ∈ recent_sources wanted limit t ->
  get i t = Some p /\ SourceRegistry.present p = true /\ wanted i = true.
Proof.
  intros Hwf Hin%elem_of_take_1. rewrite order_by_perm in Hin.
  apply list_elem_of_In, List.filter_In in Hin as [Hin Hw]. apply select_spec in Hin; [|done]. naive_solver.
Qed.

Lemma recent_sources_ids wanted limit t : wf_table t -> NoDup (map fst (recent_sources wanted limit t)).
Proof.
  intros Hwf. unfold recent_sources. change (map fst) with (fmap (M := list) (fst (A := Z) (B := SourceRegistry.SourceProfile))).
  rewrite fmap_take. apply NoDup_take_1. rewrite order_by_perm.
  by apply StronglySorted_lt_NoDup, sorted_filter, select_sorted.
Qed.

Lemma recent_sources_length wanted limit t : (length (recent_sources wanted limit t) <= limit)%nat.
Proof. unfold recent_sources. rewrite length_take. lia. Qed.

Lemma newest_source_sorted wanted limit t :
  StronglySorted (fun x y => newest_source x y = true) (recent_sources wanted limit t).
Proof.
  unfold recent_sources. apply StronglySorted_take. apply order_by_sorted; unfold newest_source.
  - intros x y. rewrite !Z.leb_le. lia.
  - intros x y z. rewrite !Z.leb_le. lia.
Qed.

Lemma events_since_spec ids cutoff t i e :
  wf_table t ->
  (i, e) ∈ events_since ids cutoff t <->
  get i t = Some e /\ Drift.drift_source_id e ∈ ids /\ cutoff <= Drift.drift_created_at e.
Proof.
  intros Hwf. unfold events_since. rewrite list_elem_of_In, select_spec by done.
  rewrite andb_true_iff, bool_decide_eq_true, Z.leb_le. naive_solver.
Qed.

(** *** Rounding *)

Lemma round_half_even_near q : (inject_Z (round_half_even q) - (1 # 2) <= q <= inject_Z (round_half_even q) + (1 # 2))%Q.
Proof.
  unfold round_half_even. pose proof (Qfloor_le q) as H1. pose proof (Qlt_floor q) as H2. rewrite inject_Z_plus in H2.
  change (inject_Z 1) with 1%Q in H2. cbv zeta.
  destruct (Qltb (q - inject_Z (Qfloor q)) (1 # 2)) eqn:E1; bool_to_prop; [lra |].
  destruct (Qltb (1 # 2) (q - inject_Z (Qfloor q))) eqn:E2; bool_to_prop.
  - rewrite inject_Z_plus. change (inject_Z 1) with 1%Q. lra.
  - destruct (Z.even (Qfloor q)); [lra |]. rewrite inject_Z_plus. change (inject_Z 1) with 1%Q. lra.
Qed.

Lemma round_half_even_ge z q : (inject_Z z <= q)%Q -> z <= round_half_even q.
Proof.
  intros H. destruct (round_half_even_near q) as [_ Hn]. apply Z.le_ngt. intros Hlt.
  assert (inject_Z (round_half_even q) <= inject_Z z - 1)%Q as Hz.
  { change 1%Q with (inject_Z 1). unfold Qminus. rewrite <- inject_Z_opp, <- inject_Z_plus, <- Zle_Qle. lia. }
  lra.
Qed.

Lemma round_half_even_le z q : (q <= inject_Z z)%Q -> round_half_even q <= z.
Proof.
  intros H. destruct (round_half_even_near q) as [Hn _]. apply Z.le_ngt. intros Hlt.
  assert (inject_Z z + 1 <= inject_Z (round_half_even q))%Q as Hz.
  { change 1%Q with (inject_Z 1). rewrite <- inject_Z_plus, <- Zle_Qle. lia. }
  lra.
Qed.

Lemma round_half_even_mono p q : (p <= q)%Q -> round_half_even p <= round_half_even q.
Proof.
  intros H. unfold round_half_even. cbv zeta. pose proof (Qfloor_resp_le _ _ H) as Hf.
  destruct (Z.eq_dec (Qfloor p) (Qfloor q)) as [E|E].
  - rewrite E. set (z := Qfloor q). destruct (Qltb (p - inject_Z z) (1 # 2)) eqn:P1, (Qltb (q - inject_Z z) (1 # 2)) eqn:Q1,
      (Qltb (1 # 2) (p - inject_Z z)) eqn:P2, (Qltb (1 # 2) (q - inject_Z z)) eqn:Q2; bool_to_prop;
      destruct (Z.even z); try lia; lra.
  - set (zp := Qfloor p) in *. set (zq := Qfloor q) in *.
    repeat case_match; lia.
Qed.

(** Rounding keeps bounds that are whole numbers. *)
Lemma py_round_bounds n lo hi q :
  (inject_Z lo <= q <= inject_Z hi)%Q -> (inject_Z lo <= py_round n q <= inject_Z hi)%Q.
Proof.
  intros [Hlo Hhi]. unfold py_round. cbv zeta. set (scale := 10 ^ Z.of_nat n).
  assert (0 < scale) as Hs by (apply Z.pow_pos_nonneg; lia).
  assert (inject_Z lo * inject_Z scale <= q * inject_Z scale <= inject_Z hi * inject_Z scale)%Q as [H1 H2].
  { assert (0 <= inject_Z scale)%Q by (change 0%Q with (inject_Z 0); rewrite <- Zle_Qle; lia).
    split; by apply Qmult_le_compat_r. }
  rewrite <- !inject_Z_mult in *. apply round_half_even_ge in H1. apply round_half_even_le in H2.
  set (x := round_half_even (q * inject_Z scale)) in *. clearbody x scale.
  unfold Qle. simpl. rewrite !Z2Pos.id by done. lia.
Qed.

Lemma py_round_mono n p q : (p <= q)%Q -> (py_round n p <= py_round n q)%Q.
Proof.
  intros H. unfold py_round. cbv zeta. set (scale := 10 ^ Z.of_nat n).
  assert (0 < scale) as Hs by (apply Z.pow_pos_nonneg; lia).
  assert (p * inject_Z scale <= q * inject_Z scale)%Q as Hm.
  { apply Qmult_le_compat_r; [done |]. change 0%Q with (inject_Z 0). rewrite <- Zle_Qle. lia. }
  assert (round_half_even (p * inject_Z scale) <= round_half_even (q * inject_Z scale)) as Hr by (by apply round_half_even_mono).
  unfold Qle. simpl. by apply Z.mul_le_mono_nonneg_r.
Qed.

Lemma py_round_low n lo q : (inject_Z lo <= q)%Q -> (inject_Z lo <= py_round n q)%Q.
Proof.
  intros H. apply (py_round_bounds n lo (Qceiling q) q). split; [done | apply Qle_ceiling].
Qed.

Lemma py_round_high n hi q : (q <= inject_Z hi)%Q -> (py_round n q <= inject_Z hi)%Q.
Proof.
  intros H. apply (py_round_bounds n (Qfloor q) hi q). split; [apply Qfloor_le | done].
Qed.

Lemma py_round_nonneg n q : (0 <= q)%Q -> (0 <= py_round n q)%Q.
Proof.
  intros H. assert (py_round n 0 == 0)%Q as E.
  { destruct (py_round_bounds n 0 0 0) as [? ?]; [split; apply Qle_refl |]. change (inject_Z 0) with 0%Q in *. lra. }
  rewrite <- E. by apply py_round_mono.
Qed.

Lemma zq_nonneg z : 0 <= z -> (0 <= inject_Z z)%Q.
Proof. intros H. change 0%Q with (inject_Z 0). by rewrite <- Zle_Qle. Qed.

Lemma count_bounds {A} (f : A -> bool) l : 0 <= Z.of_nat (count f l) <= Z.of_nat (length l).
Proof. unfold count. pose proof (List.filter_length_le f l). lia. Qed.

(** *** Tallies *)

Lemma tally_bounds {A} (p : A -> bool) l : 0 <= tally p l <= zlen l.
Proof. apply count_bounds. Qed.

Lemma count_if_cons {A} (p : A -> bool) x l : tally p (x :: l) = (if p x then 1 else 0) + tally p l.
Proof. unfold tally, count. simpl. destruct (p x); simpl; lia. Qed.

Lemma filter_perm {A} (p : A -> bool) l l' : l ≡ₚ l' -> List.filter p l ≡ₚ List.filter p l'.
Proof.
  induction 1 as [|x l l' _ IH|x y l|l l' l'' _ IH1 _ IH2]; simpl; [done | | |by etrans].
  - destruct (p x); [by constructor | done].
  - destruct (p x), (p y); try done. constructor.
Qed.

Lemma tally_perm {A} (p : A -> bool) l l' : l ≡ₚ l' -> tally p l = tally p l'.
Proof. intros H. unfold tally, count. by rewrite (filter_perm p _ _ H). Qed.

Lemma zsum_app l l' : zsum (l ++ l') = zsum l + zsum l'.
Proof. unfold zsum. induction l as [|x l IH]; simpl; [done |]. rewrite IH. lia. Qed.

Lemma zsum_plus {A} (f g : A -> Z) l : zsum (map (fun x => f x + g x) l) = zsum (map f l) + zsum (map g l).
Proof. unfold zsum. induction l as [|x l IH]; simpl; [done |]. rewrite IH. lia. Qed.

Lemma zsum_tally {A} (p : A -> bool) l : zsum (map (fun x => if p x then 1 else 0) l) = tally p l.
Proof. induction l as [|x l IH]; [done |]. rewrite count_if_cons, <- IH. done. Qed.

(** Where each element of [l] meets exactly one of the tests, the tallies add up. *)
Lemma tally_partition {A K} (p : K -> A -> bool) (ks : list K) (l : list A) :
  (forall x, x ∈ l -> tally (fun k => p k x) ks = 1) ->
  zsum (map (fun k => tally (p k) l) ks) = zlen l.
Proof.
  induction l as [|x l IH]; intros H.
  - unfold zsum. clear H. induction ks as [|k ks IHk]; simpl; [done |]. by rewrite IHk.
  - transitivity (zsum (map (fun k => (if p k x then 1 else 0) + tally (p k) l) ks)).
    { f_equal. apply map_ext. intros k. apply count_if_cons. }
    rewrite zsum_plus, zsum_tally, (H x), IH by set_solver. unfold zlen. simpl length. lia.
Qed.

Lemma tally_unique {K} (p : K -> bool) (ks : list K) k0 :
  NoDup ks -> k0 ∈ ks -> (forall k, k ∈ ks -> p k = true <-> k = k0) -> tally p ks = 1.
Proof.
  induction 1 as [|k ks Hk Hnd IH]; intros Hin Hp; [by apply not_elem_of_nil in Hin |].
  rewrite count_if_cons. apply elem_of_cons in Hin as [->|Hin].
  - rewrite (proj2 (Hp k ltac:(set_solver)) eq_refl). enough (tally p ks = 0) by lia.
    assert (forall k', k' ∈ ks -> p k' = false) as Hf.
    { intros k' Hk'. apply not_true_is_false. intros Ht. apply Hk. by rewrite <- (proj1 (Hp k' ltac:(set_solver)) Ht). }
    clear -Hf. induction ks as [|k' ks IH]; [done |]. rewrite count_if_cons, Hf, IH; [done | | ]; set_solver.
  - destruct (p k) eqn:E; [apply Hp in E; [subst; done | set_solver] |]. rewrite IH; [done | done | set_solver].
Qed.

(** *** Means *)

Lemma qsum_nonneg l : Forall (fun q => 0 <= q)%Q l -> (0 <= qsum l)%Q.
Proof. unfold qsum. induction 1 as [|q l Hq _ IH]; simpl; lra. Qed.

Lemma qlen_cons {A} (x : A) l : (qlen (x :: l) == 1 + qlen l)%Q.
Proof. unfold qlen. simpl length. rewrite Nat2Z.inj_succ. unfold Z.succ. rewrite inject_Z_plus. change (inject_Z 1) with 1%Q. lra. Qed.

Lemma qlen_nonneg {A} (l : list A) : (0 <= qlen l)%Q.
Proof. unfold qlen. change 0%Q with (inject_Z 0). rewrite <- Zle_Qle. lia. Qed.

Lemma qlen_pos {A} (l : list A) : l <> [] -> (0 < qlen l)%Q.
Proof. destruct l as [|x l]; [done |]. intros _. rewrite qlen_cons. pose proof (qlen_nonneg l). lra. Qed.

Lemma qsum_bounds lo hi l :
  Forall (fun q => lo <= q <= hi)%Q l -> (lo * qlen l <= qsum l <= hi * qlen l)%Q.
Proof.
  induction 1 as [|q l Hq _ IH]; [change (qlen []) with 0%Q; unfold qsum; simpl; lra |].
  rewrite qlen_cons. unfold qsum in *. simpl. lra.
Qed.

(** A mean lies between the bounds of what it is the mean of. *)
Lemma mean_bounds lo hi l :
  l <> [] -> Forall (fun q => lo <= q <= hi)%Q l -> (lo <= qsum l / qlen l <= hi)%Q.
Proof.
  intros Hne Hl. apply qsum_bounds in Hl. pose proof (qlen_pos l Hne) as Hp.
  split; [apply Qle_shift_div_l | apply Qle_shift_div_r]; by destruct Hl.
Qed.

End ReadModelFacts.
