(* ===== verification/Scorecards.v ===== *)
(** * Provider scorecards (repositories/scorecards.py, api/routes/scorecards.py)

    The aggregate query over the health samples of a window, with SQL's continuous
    percentiles, and the scorecard derived from it.  Infinity, the burn rate of an
    exceeded budget of zero, is a value of its own. *)

From S2P Require Import Prelude Db Incidents SourceRegistry ReadModels.

Module Scorecards.
Import ReadModels.

Abbreviation samples := (table Incidents.ProviderHealthSample) (only parsing).

(** ** The aggregate query *)

(** [PERCENTILE_CONT(f) WITHIN GROUP (ORDER BY x)]: the value at row [f * (n - 1)] of
    the sorted rows, counted from 0, interpolated between its two neighbours. *)
Definition value_at (s : list Q) (rn : Q) : Q :=
  let lo := Qfloor rn in
  let hi := Qceiling rn in
  let v k := nth (Z.to_nat k) s 0%Q in
  if lo =? hi then v lo else ((inject_Z hi - rn) * v lo + (rn - inject_Z lo) * v hi)%Q.

Definition percentile_cont (f : Q) (l : list Q) : Q :=
  value_at (order_by Qle_bool l) (f * inject_Z (Z.of_nat (length l) - 1)).

Record aggregate := Aggregate {
  sample_count : Z;
  error_count : Z;
  avg_latency_ms : Q;
  p50_latency_ms : Q;
  p95_latency_ms : Q
}.

(** One group: its rows are never empty. *)
Definition aggregate_of (rows : list Incidents.ProviderHealthSample) : aggregate :=
  let latencies := map Incidents.latency_ms rows in
  Aggregate (Z.of_nat (length rows)) (Z.of_nat (count (fun s => negb (Incidents.is_success s)) rows))
    (qsum latencies / qlen latencies) (percentile_cont (1 # 2) latencies) (percentile_cont (95 # 100) latencies).

(** The rows of a source in the window. *)
Definition window (cutoff : datetime) (i : Z) (t : samples) : list Incidents.ProviderHealthSample :=
  map snd (select (fun s => (Incidents.sample_source_id s =? i) && (cutoff <=? Incidents.sampled_at s)) t).

Definition _agg_query (source_ids : list Z) (cutoff : datetime) (t : samples) : list (Z * aggregate) :=
  let matching := select (fun s => bool_decide (Incidents.sample_source_id s ∈ source_ids) &&
                                   (cutoff <=? Incidents.sampled_at s)) t in
  map (fun i => (i, aggregate_of (window cutoff i t)))
    (remove_dups (map (fun x => Incidents.sample_source_id x.2) matching)).

(** [{row.source_id: row for row in rows}.get(source_id)]. *)
Fixpoint _extract_agg (rows : list (Z * aggregate)) (source_id : Z) : option aggregate :=
  match rows with
  | [] => None
  | (i, a) :: rows =>
      match _extract_agg rows source_id with
      | Some a' => Some a'
      | None => if i =? source_id then Some a else None
      end
  end.

Definition _row_to_kwargs (row : option aggregate) : aggregate :=
  match row with
  | None => Aggregate 0 0 0 0 0
  | Some a => a
  end.

(** ** Scorecards *)

Inductive rate := Finite (q : Q) | Infinite.

Record ProviderScorecard := Scorecard {
  source_id : Z;
  source_name : string;
  window_days : Z;
  aggregates : aggregate;
  uptime_pct : Q;
  slo_target_pct : Q;
  error_budget_burn_rate : rate;
  generated_at : datetime
}.

Definition rounded (a : aggregate) : aggregate :=
  Aggregate (sample_count a) (error_count a) (py_round 2 (avg_latency_ms a)) (py_round 2 (p50_latency_ms a))
    (py_round 2 (p95_latency_ms a)).

Definition uptime_of (a : aggregate) : Q :=
  if sample_count a =? 0 then 100
  else (inject_Z (sample_count a - error_count a) / inject_Z (sample_count a) * 100)%Q.

Definition error_rate_of (a : aggregate) : Q :=
  if sample_count a =? 0 then 0 else (1 - uptime_of a / 100)%Q.

Definition burn_rate_of (slo_target_pct : Q) (a : aggregate) : rate :=
  let error_budget := (1 - slo_target_pct / 100)%Q in
  if Qle_bool error_budget 0 then
    if Qeq_bool (error_rate_of a) 0 then Finite 0 else Infinite
  else Finite (error_rate_of a / error_budget).

Definition round_rate (r : rate) : rate :=
  match r with Finite q => Finite (py_round 4 q) | Infinite => Infinite end.

Definition _scorecard_from_agg (now : datetime) (i : Z) (source : SourceRegistry.SourceProfile) (days : Z)
    (slo_target_pct : Q) (a : aggregate) : ProviderScorecard :=
  Scorecard i (SourceRegistry.name source) days (rounded a) (py_round 4 (uptime_of a)) slo_target_pct
    (round_rate (burn_rate_of slo_target_pct a)) now.

(** [now] is read for the cutoff and [made] for the card. *)
Definition get_scorecard (now made : datetime) (i days : Z) (slo_target_pct : Q) (sources : profiles) (t : samples)
    : option ProviderScorecard :=
  match get i sources with
  | Some source =>
      if SourceRegistry.present source then
        let row := _extract_agg (_agg_query [i] (_cutoff_utc_naive now days) t) i in
        Some (_scorecard_from_agg made i source days slo_target_pct (_row_to_kwargs row))
      else None
  | None => None
  end.

Definition list_scorecards (now : datetime) (made : Z -> datetime) (days : Z) (only : option Z) (slo_target_pct : Q)
    (limit : nat) (sources : profiles) (t : samples) : list ProviderScorecard :=
  match recent_sources (one_of only) limit sources with
  | [] => []
  | listed =>
      let agg_rows := _agg_query (map fst listed) (_cutoff_utc_naive now days) t in
      map (fun x => _scorecard_from_agg (made x.1) x.1 x.2 days slo_target_pct (_row_to_kwargs (_extract_agg agg_rows x.1)))
        listed
  end.

(** The endpoint of one card. *)
Definition get_provider_scorecard (now made : datetime) (i days : Z) (slo_target_pct : Q) (sources : profiles) (t : samples)
    : result Incidents.HTTPException ProviderScorecard :=
  match get_scorecard now made i days slo_target_pct sources t with
  | None => Raise (Incidents.HTTP 404 ("Source " +:+ str_of_Z i +:+ " not found."))
  | Some c => Ok c
  end.

(** The query bounds of the endpoints. *)
Definition valid_query (days : Z) (slo_target_pct : Q) : bool :=
  (1 <=? days) && (days <=? 90) && Qle_bool 90 slo_target_pct && Qle_bool slo_target_pct 100.

End Scorecards.

(** ** Theorems *)

Module ScorecardTheorems.
Import ReadModels ReadModelFacts Scorecards.

(** *** Percentiles *)

Definition ascending (s : list Q) : Prop := StronglySorted (fun x y => (x <= y)%Q) s.

Lemma sorted_ascending l : ascending (order_by Qle_bool l).
Proof.
  assert (StronglySorted (fun x y => Qle_bool x y = true) (order_by Qle_bool l)) as H.
  { apply order_by_sorted.
    - intros x y. rewrite !Qle_bool_iff. destruct (Qlt_le_dec x y); [left; lra | by right].
    - intros x y z. rewrite !Qle_bool_iff. apply Qle_trans. }
  unfold ascending. induction H as [|x s Hs IH Hx]; constructor; [done |].
  eapply Forall_impl; [exact Hx |]. intros y. apply Qle_bool_iff.
Qed.

Lemma nth_ascending s : ascending s -> forall j k, (j <= k < length s)%nat -> (nth j s 0 <= nth k s 0)%Q.
Proof.
  induction 1 as [|x s Hs IH Hx]; intros j k Hjk; simpl in *; [lia |].
  destruct j as [|j], k as [|k]; simpl; try lia; [apply Qle_refl | | apply IH; lia].
  rewrite List.Forall_forall in Hx. apply Hx, nth_In. lia.
Qed.

(** Where a row number lies. *)
Lemma row_neighbours rn n :
  (0 <= rn <= inject_Z (Z.of_nat n))%Q ->
  0 <= Qfloor rn /\ Qceiling rn <= Z.of_nat n /\ (inject_Z (Qfloor rn) <= rn <= inject_Z (Qceiling rn))%Q /\
  (Qfloor rn = Qceiling rn \/ Qceiling rn = Qfloor rn + 1).
Proof.
  intros [Hlo Hhi]. pose proof (Qfloor_le rn) as H1. pose proof (Qlt_floor rn) as H2.
  pose proof (Qle_ceiling rn) as H3. pose proof (Qceiling_lt rn) as H4.
  assert (0 <= Qfloor rn) as H5.
  { apply (Qfloor_resp_le (inject_Z 0)) in Hlo. by rewrite Qfloor_Z in Hlo. }
  assert (Qceiling rn <= Z.of_nat n) as H6.
  { apply Qceiling_resp_le in Hhi. by rewrite Qceiling_Z in Hhi. }
  split_and!; [done | done | done | done |].
  assert (Qfloor rn <= Qceiling rn) by (rewrite Zle_Qle; lra).
  assert (Qceiling rn - 1 < Qfloor rn + 1) by (rewrite Zlt_Qlt; lra). lia.
Qed.

(** The value at a row lies between the values of its neighbours. *)
Lemma value_between s rn :
  ascending s -> (0 <= rn <= inject_Z (Z.of_nat (length s) - 1))%Q -> s <> [] ->
  (nth (Z.to_nat (Qfloor rn)) s 0 <= value_at s rn <= nth (Z.to_nat (Qceiling rn)) s 0)%Q.
Proof.
  intros Hs Hrn Hne. assert (Z.of_nat (length s) - 1 = Z.of_nat (length s - 1)) as El by (destruct s; [done | simpl; lia]).
  rewrite El in Hrn. destruct (row_neighbours rn _ Hrn) as (H1 & H2 & [H3 H4] & H5). unfold value_at.
  destruct (Z.eqb_spec (Qfloor rn) (Qceiling rn)) as [->|Hne']; [split; apply Qle_refl |].
  assert (Qceiling rn = Qfloor rn + 1) as Ec by lia.
  assert (nth (Z.to_nat (Qfloor rn)) s 0 <= nth (Z.to_nat (Qceiling rn)) s 0)%Q as Hv.
  { apply nth_ascending; [done |]. destruct s; [done | simpl in *; lia]. }
  assert (inject_Z (Qceiling rn) == inject_Z (Qfloor rn) + 1)%Q as Eq by (rewrite Ec, inject_Z_plus; done).
  set (a := nth _ s 0%Q) in *. set (b := nth (Z.to_nat (Qceiling rn)) s 0%Q) in *. split.
  - assert (0 <= (rn - inject_Z (Qfloor rn)) * (b - a))%Q by (apply Qmult_le_0_compat; lra).
    rewrite Eq. lra.
  - assert (0 <= (inject_Z (Qceiling rn) - rn) * (b - a))%Q by (apply Qmult_le_0_compat; lra).
    assert (rn - inject_Z (Qfloor rn) == 1 - (inject_Z (Qceiling rn) - rn))%Q as -> by lra. lra.
Qed.

Lemma value_monotone s r1 r2 :
  ascending s -> s <> [] -> (0 <= r1)%Q -> (r1 <= r2)%Q -> (r2 <= inject_Z (Z.of_nat (length s) - 1))%Q ->
  (value_at s r1 <= value_at s r2)%Q.
Proof.
  intros Hs Hne H0 H12 Hn. assert (Z.of_nat (length s) - 1 = Z.of_nat (length s - 1)) as El by (destruct s; [done | simpl; lia]).
  destruct (value_between s r1 Hs ltac:(lra) Hne) as [_ V1]. destruct (value_between s r2 Hs ltac:(lra) Hne) as [V2 _].
  rewrite El in Hn. destruct (row_neighbours r1 (length s - 1) ltac:(lra)) as (A1 & A2 & [A3 A4] & A5).
  destruct (row_neighbours r2 (length s - 1) ltac:(lra)) as (B1 & B2 & [B3 B4] & B5).
  assert (Qfloor r1 <= Qfloor r2) as Hf by (by apply Qfloor_resp_le).
  destruct (Z.le_gt_cases (Qceiling r1) (Qfloor r2)) as [Hc|Hc].
  - eapply Qle_trans; [exact V1 |]. eapply Qle_trans; [|exact V2]. apply nth_ascending; [done |]. destruct s; [done | simpl in *; lia].
  - assert (Qfloor r2 = Qfloor r1 /\ Qceiling r1 = Qfloor r1 + 1) as [Ef Ec1] by lia.
    assert (Qceiling r1 <= Qceiling r2) as Hcc by (by apply Qceiling_resp_le).
    assert (Qceiling r2 = Qceiling r1) as Ec by lia.
    unfold value_at. rewrite Ec, Ef. rewrite (proj2 (Z.eqb_neq _ _)) by lia.
    assert (nth (Z.to_nat (Qfloor r1)) s 0 <= nth (Z.to_nat (Qceiling r1)) s 0)%Q as Hv.
    { apply nth_ascending; [done |]. destruct s; [done | simpl in *; lia]. }
    set (a := nth (Z.to_nat (Qfloor r1)) s 0%Q) in *. set (b := nth (Z.to_nat (Qceiling r1)) s 0%Q) in *.
    assert (0 <= (r2 - r1) * (b - a))%Q by (apply Qmult_le_0_compat; lra). lra.
Qed.

Lemma value_bounds s rn lo hi :
  ascending s -> s <> [] -> (0 <= rn <= inject_Z (Z.of_nat (length s) - 1))%Q ->
  Forall (fun q => lo <= q <= hi)%Q s -> (lo <= value_at s rn <= hi)%Q.
Proof.
  intros Hs Hne Hrn Hall. destruct (value_between s rn Hs Hrn Hne) as [V1 V2].
  assert (Z.of_nat (length s) - 1 = Z.of_nat (length s - 1)) as El by (destruct s; [done | simpl; lia]).
  rewrite El in Hrn. destruct (row_neighbours rn _ Hrn) as (H1 & H2 & _ & H5). rewrite List.Forall_forall in Hall.
  assert (length s <> 0)%nat by (by destruct s).
  assert (lo <= nth (Z.to_nat (Qfloor rn)) s 0)%Q by (apply Hall, nth_In; lia).
  assert (nth (Z.to_nat (Qceiling rn)) s 0 <= hi)%Q by (apply Hall, nth_In; lia). lra.
Qed.

Lemma row_of_fraction f (n : nat) :
  (0 <= f <= 1)%Q -> n <> O -> (0 <= f * inject_Z (Z.of_nat n - 1) <= inject_Z (Z.of_nat n - 1))%Q.
Proof.
  intros [Hf0 Hf1] Hn. assert (0 <= inject_Z (Z.of_nat n - 1))%Q as Hz by (change 0%Q with (inject_Z 0); rewrite <- Zle_Qle; lia).
  split; [by apply Qmult_le_0_compat |].
  assert (0 <= (1 - f) * inject_Z (Z.of_nat n - 1))%Q by (apply Qmult_le_0_compat; lra). lra.
Qed.

Lemma ordered_length l : length (order_by Qle_bool l) = length l.
Proof. apply order_by_length. Qed.

Lemma ordered_nonempty l : l <> [] -> order_by Qle_bool l <> [].
Proof. intros Hl E. apply (f_equal length) in E. rewrite ordered_length in E. by destruct l. Qed.

(** A percentile lies between bounds of the values, and grows with its fraction. *)
Lemma percentile_bounds f l lo hi :
  (0 <= f <= 1)%Q -> l <> [] -> Forall (fun q => lo <= q <= hi)%Q l -> (lo <= percentile_cont f l <= hi)%Q.
Proof.
  intros Hf Hl Hall. apply value_bounds; [apply sorted_ascending | by apply ordered_nonempty | |].
  - rewrite ordered_length. apply row_of_fraction; [done |]. by destruct l.
  - by rewrite order_by_perm.
Qed.

Lemma percentile_monotone f g l :
  (0 <= f)%Q -> (f <= g)%Q -> (g <= 1)%Q -> l <> [] -> (percentile_cont f l <= percentile_cont g l)%Q.
Proof.
  intros Hf Hfg Hg Hl. assert (length l <> O) as Hn by (by destruct l).
  pose proof (row_of_fraction f (length l) ltac:(lra) Hn) as [F1 F2].
  pose proof (row_of_fraction g (length l) ltac:(lra) Hn) as [G1 G2].
  apply value_monotone; [apply sorted_ascending | by apply ordered_nonempty | done | | by rewrite ordered_length].
  apply Qmult_le_compat_r; lra.
Qed.

(** *** The aggregate query *)

Definition measured (s : Incidents.ProviderHealthSample) : Prop := (0 <= Incidents.latency_ms s)%Q.

Record sound (a : aggregate) : Prop := {
  counts_sound : 0 <= error_count a <= sample_count a;
  mean_sound : (0 <= avg_latency_ms a)%Q;
  median_sound : (0 <= p50_latency_ms a)%Q;
  tail_sound : (p50_latency_ms a <= p95_latency_ms a)%Q
}.

Lemma percentile_nonneg f l :
  (0 <= f <= 1)%Q -> l <> [] -> Forall (fun q => 0 <= q)%Q l -> (0 <= percentile_cont f l)%Q.
Proof.
  intros Hf Hl H.
  destruct (percentile_bounds f l 0 (qsum l) Hf Hl) as [? _]; [|done].
  clear Hl. induction H as [|q l Hq Hl IH]; constructor.
  - pose proof (qsum_nonneg l Hl). unfold qsum in *. simpl. lra.
  - eapply Forall_impl; [exact IH |]. intros x [? ?]. unfold qsum in *. simpl. lra.
Qed.

Lemma aggregate_sound rows : rows <> [] -> Forall measured rows -> sound (aggregate_of rows).
Proof.
  intros Hne H. assert (map Incidents.latency_ms rows <> []) as Hl by (by destruct rows).
  assert (Forall (fun q => 0 <= q)%Q (map Incidents.latency_ms rows)) as Hq by (by apply List.Forall_map).
  split; simpl.
  - apply count_bounds.
  - apply Qle_shift_div_l; [by apply qlen_pos |]. rewrite Qmult_0_l. by apply qsum_nonneg.
  - apply percentile_nonneg; [split; vm_compute; discriminate | done | done].
  - apply percentile_monotone; [vm_compute; discriminate .. | done].
Qed.

Lemma kwargs_sound cutoff i t :
  wf_table t -> every (fun _ => measured) t ->
  sound (_row_to_kwargs (match window cutoff i t with [] => None | rows => Some (aggregate_of rows) end)).
Proof.
  intros Hwf H. destruct (window cutoff i t) as [|s rows] eqn:E; simpl.
  - split; simpl; [lia | apply Qle_refl ..].
  - rewrite <- E. apply aggregate_sound; [by rewrite E |]. unfold window. apply List.Forall_map.
    rewrite List.Forall_forall. intros [j r] Hin. apply select_spec in Hin as [Hin _]; [|done].
    by apply (H j).
Qed.

Lemma extract_mapped (f : Z -> aggregate) ids i :
  _extract_agg (map (fun j => (j, f j)) ids) i = if bool_decide (i ∈ ids) then Some (f i) else None.
Proof.
  induction ids as [|j ids IH]; simpl; [done |]. rewrite IH.
  destruct (decide (i ∈ ids)) as [Hi|Hi]; [by rewrite !bool_decide_eq_true_2 by set_solver |].
  rewrite (bool_decide_eq_false_2 (i ∈ ids)) by done. destruct (Z.eqb_spec j i) as [->|Hji].
  - by rewrite bool_decide_eq_true_2 by set_solver.
  - by rewrite bool_decide_eq_false_2 by set_solver.
Qed.

(** The row a source has in the result. *)
Lemma extract_query ids cutoff t i :
  i ∈ ids ->
  _extract_agg (_agg_query ids cutoff t) i =
  match window cutoff i t with [] => None | rows => Some (aggregate_of rows) end.
Proof.
  intros Hi. unfold _agg_query. rewrite extract_mapped. set (matching := select _ t).
  assert (i ∈ remove_dups (map (fun x => Incidents.sample_source_id x.2) matching) <-> window cutoff i t <> []) as Hw.
  { rewrite elem_of_remove_dups, list_elem_of_In, in_map_iff. unfold window, matching, select. split.
    - intros ([j s] & Es & Hin). simpl in Es. apply List.filter_In in Hin as [Hin Hp]. simpl in Hp.
      apply andb_true_iff in Hp as [_ Hc]. intros E. apply (in_nil (a := s)). rewrite <- E.
      apply (in_map snd _ (j, s)), List.filter_In. split; [done |]. simpl. rewrite Es, Z.eqb_refl. done.
    - intros Hne. destruct (List.filter _ _) as [|[j s] l] eqn:E in Hne; [done |]. exists (j, s).
      assert (In (j, s) ((j, s) :: l)) as Hin by (by left). rewrite <- E in Hin. apply List.filter_In in Hin as [Hin Hp].
      simpl in Hp. apply andb_true_iff in Hp as [Es Hc]. apply Z.eqb_eq in Es. split; [done |].
      apply List.filter_In. split; [done |]. simpl. rewrite Es, Hc. by rewrite bool_decide_eq_true_2. }
  destruct (window cutoff i t) eqn:E.
  - rewrite bool_decide_eq_false_2; [done |]. rewrite Hw. by intros [].
  - rewrite bool_decide_eq_true_2; [done |]. by apply Hw.
Qed.

(** *** The derived figures *)

Lemma failure_share a :
  sound a -> sample_count a <> 0 -> (error_rate_of a * inject_Z (sample_count a) == inject_Z (error_count a))%Q.
Proof.
  intros [Hc _ _ _] Hn. unfold error_rate_of, uptime_of. rewrite (proj2 (Z.eqb_neq _ _) Hn).
  assert (0 < inject_Z (sample_count a))%Q as Hp by (change 0%Q with (inject_Z 0); rewrite <- Zlt_Qlt; lia).
  unfold Z.sub. rewrite inject_Z_plus, inject_Z_opp. field. lra.
Qed.

Lemma error_rate_bounds a : sound a -> (0 <= error_rate_of a <= 1)%Q.
Proof.
  intros Ha. destruct (Z.eq_dec (sample_count a) 0) as [E|Hn].
  { unfold error_rate_of. rewrite E. simpl. split; vm_compute; discriminate. }
  pose proof (failure_share a Ha Hn) as Hs. destruct Ha as [Hc _ _ _].
  assert (0 < inject_Z (sample_count a))%Q as Hp by (change 0%Q with (inject_Z 0); rewrite <- Zlt_Qlt; lia).
  assert (0 <= inject_Z (error_count a))%Q by (apply zq_nonneg; lia).
  assert (inject_Z (error_count a) <= inject_Z (sample_count a))%Q by (rewrite <- Zle_Qle; lia).
  rewrite <- Hs in *. split; apply Qmult_le_l with (z := inject_Z (sample_count a)); lra.
Qed.

Lemma uptime_error a : (uptime_of a == 100 * (1 - error_rate_of a))%Q.
Proof.
  unfold error_rate_of. destruct (Z.eqb_spec (sample_count a) 0) as [E|E].
  - unfold uptime_of. rewrite E. reflexivity.
  - field.
Qed.

Lemma uptime_bounds a : sound a -> (0 <= uptime_of a <= 100)%Q.
Proof. intros Ha. rewrite uptime_error. pose proof (error_rate_bounds a Ha). lra. Qed.

(** What [burn_rate_of] says, with the error counts multiplied out. *)
Lemma burn_within slo a (k : Q) :
  sound a -> (slo < 100)%Q ->
  exists q : Q, burn_rate_of slo a = Finite q /\ (0 <= q)%Q /\ ((q <= k)%Q <-> (error_rate_of a * 100 <= k * (100 - slo))%Q).
Proof.
  intros Ha Hs. assert (slo / 100 == (1 # 100) * slo)%Q as Hd by field. unfold burn_rate_of. cbv zeta. destruct (Qle_bool _ 0) eqn:E; bool_to_prop; [lra |].
  pose proof (error_rate_bounds a Ha) as [He _]. eexists. split; [done |]. split.
  - apply Qle_shift_div_l; lra.
  - assert (0 < 1 - slo / 100)%Q as Hb by lra. split; intros H.
    + apply (Qmult_le_compat_r _ _ (1 - slo / 100)) in H; [|lra].
      assert (error_rate_of a / (1 - slo / 100) * (1 - slo / 100) == error_rate_of a)%Q as Eq by (field; lra).
      rewrite Eq, Hd in H. lra.
    + apply Qle_shift_div_r; [done |]. rewrite Hd. lra.
Qed.

(** ** Properties *)

Record ScorecardRanges (c : ProviderScorecard) : Prop := {
  card_counts : 0 <= error_count (aggregates c) <= sample_count (aggregates c);
  card_uptime : (0 <= uptime_pct c <= 100)%Q;
  card_mean : (0 <= avg_latency_ms (aggregates c))%Q;
  card_median : (0 <= p50_latency_ms (aggregates c) <= p95_latency_ms (aggregates c))%Q;
  card_burn : exists (q : Q), error_budget_burn_rate c = Finite q /\ (0 <= q)%Q \/ error_budget_burn_rate c = Infinite
}.

Lemma card_ranges now i source days slo a :
  (slo <= 100)%Q -> sound a -> ScorecardRanges (_scorecard_from_agg now i source days slo a).
Proof.
  intros Hs Ha. split; simpl.
  - by apply counts_sound.
  - apply (py_round_bounds 4 0 100). exact (uptime_bounds a Ha).
  - apply py_round_nonneg. by apply mean_sound.
  - split; [apply py_round_nonneg; by apply median_sound | apply py_round_mono; by apply tail_sound].
  - destruct (Qlt_le_dec slo 100) as [Hlt|Hge].
    + destruct (burn_within slo a 0 Ha Hlt) as (q & -> & Hq & _). exists (py_round 4 q). left.
      split; [done |]. by apply py_round_nonneg.
    + assert (slo / 100 == (1 # 100) * slo)%Q as Hd by field.
      unfold burn_rate_of. cbv zeta. destruct (Qle_bool _ 0) eqn:E; bool_to_prop; [|lra].
      destruct (Qeq_bool _ 0); [exists (py_round 4 0); left; split; [done | vm_compute; discriminate] | exists 0%Q; by right].
Qed.

Lemma present_scorecard now made i days slo sources t c :
  get_scorecard now made i days slo sources t = Some c ->
  exists source, get i sources = Some source /\ SourceRegistry.present source = true /\
    c = _scorecard_from_agg made i source days slo
          (_row_to_kwargs (match window (_cutoff_utc_naive now days) i t with [] => None | rows => Some (aggregate_of rows) end)).
Proof.
  unfold get_scorecard. destruct (get i sources) as [source|]; [|done].
  destruct (SourceRegistry.present source) eqn:E; [|done]. intros [= <-]. exists source.
  rewrite extract_query by set_solver. done.
Qed.

(** Every figure of a scorecard is in range: where the samples have no negative
    latency and the target is at most 100, the errors are among the samples, the uptime is a
    percentage, the latencies are not negative, the median is at most the 95th
    percentile also after rounding, and the burn rate is not negative or infinite. *)
Theorem scorecard_in_range now made i days slo sources t c :
  wf_table t -> every (fun _ => measured) t -> (slo <= 100)%Q ->
  get_scorecard now made i days slo sources t = Some c -> ScorecardRanges c.
Proof.
  intros Hwf Hm Hs (source & _ & _ & ->)%present_scorecard. apply card_ranges; [done |]. by apply kwargs_sound.
Qed.

(** The burn rate says whether the target is met: with a target below 100 the
    unrounded rate is at most [k] exactly when the errors, in percent of the samples, are at most
    [k] times what the target leaves; with a target of 100 it is infinite exactly when
    there is an error. *)
Theorem burn_rate_says_target slo a (k : Q) :
  sound a -> sample_count a <> 0 ->
  ((slo < 100)%Q -> exists q : Q, burn_rate_of slo a = Finite q /\
      ((q <= k)%Q <->
       (inject_Z (error_count a) * 100 <= k * (100 - slo) * inject_Z (sample_count a))%Q)) /\
  ((slo == 100)%Q -> (burn_rate_of slo a = Infinite <-> error_count a <> 0)).
Proof.
  intros Ha Hn. pose proof (failure_share a Ha Hn) as Hf.
  assert (0 < inject_Z (sample_count a))%Q as Hp.
  { destruct Ha as [? _ _ _]. change 0%Q with (inject_Z 0). rewrite <- Zlt_Qlt. lia. }
  split.
  - intros Hs. destruct (burn_within slo a k Ha Hs) as (q & -> & _ & Hq). exists q. split; [done |]. rewrite Hq, <- Hf.
    set (n := inject_Z (sample_count a)) in *. split; intros H.
    + apply (Qmult_le_compat_r _ _ n) in H; lra.
    + apply (Qmult_le_r _ _ n); lra.
  - intros Hs. assert (slo / 100 == (1 # 100) * slo)%Q as Hd by field. unfold burn_rate_of. cbv zeta. rewrite (proj2 (Qle_bool_iff _ _)) by lra.
    destruct (Qeq_bool (error_rate_of a) 0) eqn:E.
    + apply Qeq_bool_iff in E. rewrite E, Qmult_0_l in Hf. split; [done |]. intros He. exfalso. apply He.
      change 0%Q with (inject_Z 0) in Hf. pose proof (proj1 (inject_Z_injective _ _) Hf). lia.
    + split; [|done]. intros _ He. rewrite He in Hf. change (inject_Z 0) with 0%Q in Hf.
      apply Qmult_integral in Hf as [Hf|Hf]; [|lra]. apply Qeq_bool_iff in Hf. congruence.
Qed.

(** The list of scorecards is the scorecards one by one: each card listed for a
    source is the one [get_scorecard] gives for it at the same instants, no source is
    listed twice, and at most [limit] are. *)
Theorem list_matches_single now made days only slo limit sources t :
  wf_table sources ->
  let cards := list_scorecards now made days only slo limit sources t in
  (forall c, c ∈ cards -> get_scorecard now (made (source_id c)) (source_id c) days slo sources t = Some c) /\
  NoDup (map source_id cards) /\ (length cards <= limit)%nat.
Proof.
  intros Hwf. cbv zeta.
  assert (list_scorecards now made days only slo limit sources t =
    map (fun x => _scorecard_from_agg (made x.1) x.1 x.2 days slo (_row_to_kwargs
       (_extract_agg (_agg_query (map fst (recent_sources (one_of only) limit sources)) (_cutoff_utc_naive now days) t) x.1)))
      (recent_sources (one_of only) limit sources)) as ->.
  { unfold list_scorecards. destruct (recent_sources _ _ _); reflexivity. }
  split_and!.
  - intros c Hc. apply list_elem_of_In, in_map_iff in Hc as ([i p] & <- & Hin). simpl.
    assert ((i, p) ∈ recent_sources (one_of only) limit sources) as Hel by (by apply list_elem_of_In).
    destruct (recent_sources_spec _ _ _ _ _ Hwf Hel) as (Hg & Hp & _). unfold get_scorecard. rewrite Hg, Hp.
    assert (i ∈ map fst (recent_sources (one_of only) limit sources)) as Hi.
    { apply list_elem_of_In. change i with (i, p).1. by apply in_map. }
    rewrite (extract_query [i]) by apply list_elem_of_here. rewrite extract_query by done. done.
  - rewrite map_map. simpl. by apply recent_sources_ids.
  - rewrite length_map. apply recent_sources_length.
Qed.

End ScorecardTheorems.

(** ** Witnesses *)

Module ScorecardWitnesses.
Import ReadModels Scorecards ScorecardTheorems.

Definition sample (i at_ : Z) (ms : Q) (ok : bool) : Incidents.ProviderHealthSample :=
  Incidents.Sample i at_ ms ok None None.

Definition log : samples :=
  Table [(1, sample 1 100 10 true); (2, sample 1 200 20 true); (3, sample 1 300 40 false); (4, sample 2 300 7 true)] 5.

Definition api (name : string) (created : Z) : SourceRegistry.SourceProfile :=
  SourceRegistry.Profile name "https://example.org" "/health" 60 true None None 3 900 "none" None "X-API-Key"
    None created None None.

Definition providers : profiles := Table [(1, api "alpha" 10); (2, api "beta" 20)] 3.

Definition figures (c : ProviderScorecard) := (source_id c, sample_count (aggregates c), error_count (aggregates c)).

Example cards_of_log :
  map figures (list_scorecards 400 (fun _ => 401) 7 None 99 10 providers log) = [(2, 1, 0); (1, 3, 1)].
Proof. vm_compute. reflexivity. Qed.

Definition alpha_card : option ProviderScorecard := get_scorecard 400 401 1 7 99 providers log.

Example alpha_burns :
  map (fun c => (Qred (uptime_pct c), Qred (p50_latency_ms (aggregates c)), Qred (p95_latency_ms (aggregates c))))
    (match alpha_card with Some c => [c] | None => [] end) = [(666667 # 10000, 20 # 1, 38 # 1)%Q].
Proof. vm_compute. reflexivity. Qed.

Lemma log_wf : wf_table log.
Proof. split; repeat constructor. Qed.

Lemma log_measured : every (fun _ => measured) log.
Proof.
  intros i r H. unfold get in H. simpl in H.
  repeat (case_match; [injection H as <-; vm_compute; discriminate |]). done.
Qed.

Lemma scorecard_in_range_witness : exists c, alpha_card = Some c /\ ScorecardRanges c.
Proof.
  eexists. split; [vm_compute; reflexivity |].
  apply (scorecard_in_range 400 401 1 7 99 providers log _ log_wf log_measured); [vm_compute; discriminate | vm_compute; reflexivity].
Defined.

Definition alpha_rows : aggregate := aggregate_of (window (_cutoff_utc_naive 400 7) 1 log).

Lemma alpha_sound : sound alpha_rows.
Proof.
  apply aggregate_sound; [vm_compute; discriminate |]. repeat constructor; vm_compute; discriminate.
Qed.

Lemma burn_rate_says_target_witness :
  sample_count alpha_rows = 3 /\
  ((99 < 100)%Q -> exists q : Q, burn_rate_of 99 alpha_rows = Finite q /\
     ((q <= 1)%Q <-> (inject_Z (error_count alpha_rows) * 100 <= 1 * (100 - 99) * inject_Z (sample_count alpha_rows))%Q)).
Proof.
  split; [reflexivity |]. apply (burn_rate_says_target 99 alpha_rows 1 alpha_sound). vm_compute. discriminate.
Defined.

Lemma list_matches_single_witness :
  let cards := list_scorecards 400 (fun _ => 401) 7 None 99 10 providers log in
  length cards = 2%nat /\
  (forall c, c ∈ cards -> get_scorecard 400 401 (source_id c) 7 99 providers log = Some c).
Proof.
  cbv zeta. split; [vm_compute; reflexivity |].
  apply (list_matches_single 400 (fun _ => 401) 7 None 99 10 providers log). split; repeat constructor.
Defined.

End ScorecardWitnesses.
