(* ===== verification/Insights.v ===== *)
(** * Insights (repositories/insights.py, api/routes/insights.py)

    The three feeds derived from the drift events and the contract snapshots: anomalies,
    trends of the compatibility score, and recommendations.  The metadata of an insight is
    the dict the code builds, an association list of JSON values. *)

From S2P Require Import Prelude Db SourceRegistry ContractDrift ReadModels.

Module Insights.
Import ReadModels.

Abbreviation snapshots := (table Drift.ContractSnapshot) (only parsing).
Abbreviation dict := (list (string * json)) (only parsing).

Definition INSIGHT_CONFIDENCE_CRITICAL : Q := 95 # 100.
Definition INSIGHT_CONFIDENCE_HIGH : Q := 85 # 100.
Definition INSIGHT_CONFIDENCE_MEDIUM : Q := 70 # 100.
Definition INSIGHT_CONFIDENCE_LOW : Q := 55 # 100.
Definition INSIGHT_PRIORITY_P1 : string := "P1".
Definition INSIGHT_PRIORITY_P2 : string := "P2".
Definition INSIGHT_PRIORITY_P3 : string := "P3".

Definition _confidence_from_severity (severity : string) : Q :=
  if decide (severity = "critical") then INSIGHT_CONFIDENCE_CRITICAL
  else if decide (severity = "high") then INSIGHT_CONFIDENCE_HIGH
  else if decide (severity = "medium") then INSIGHT_CONFIDENCE_MEDIUM
  else INSIGHT_CONFIDENCE_LOW.

Definition severe (severity : string) : bool := bool_decide (severity = "critical") || bool_decide (severity = "high").

Definition _priority_from_severity (severity : string) : string :=
  if severe severity then INSIGHT_PRIORITY_P1
  else if decide (severity = "medium") then INSIGHT_PRIORITY_P2
  else INSIGHT_PRIORITY_P3.

(** [s.replace('_', ' ').title()]: the first letter of every run of letters in upper
    case, the others in lower case. *)
Definition spaces_for_underscores : string -> string := map_chars (fun c => if Ascii.eqb c "_"%char then " "%char else c).

Definition is_letter (c : ascii) : bool := is_upper c || is_lower c.

Fixpoint title_from (within : bool) (s : string) : string :=
  match s with
  | EmptyString => EmptyString
  | String c s =>
      let c' := if within then lower (String c EmptyString) else upper (String c EmptyString) in
      c' +:+ title_from (is_letter c) s
  end.

Definition title (s : string) : string := title_from false s.

(** [d.get(key, default)]. *)
Fixpoint dict_get (key : string) (default : json) (d : dict) : json :=
  match d with
  | [] => default
  | (k, v) :: d => if decide (k = key) then v else dict_get key default d
  end.

(** [bool(v)]. *)
Definition json_truthy (v : json) : bool :=
  match v with
  | JNull => false
  | JBool b => b
  | JInt z => negb (z =? 0)
  | JFloat q => negb (Qeq_bool q 0)
  | JStr s => str_truthy s
  | JList [] | JObj [] => false
  | JList _ | JObj _ => true
  end.

(** [str(v)] of a string. *)
Definition json_str (v : json) : string := match v with JStr s => s | _ => EmptyString end.

(** ** Anomalies *)

Record AnomalyInsight := Anomaly {
  insight_id : string;
  anomaly_title : string;
  anomaly_summary : string;
  source_id : Z;
  severity : string;
  confidence : Q;
  created_at : datetime;
  metadata : dict
}.

Definition anomaly_of (generated_at : datetime) (x : Z * Drift.DriftEvent) : AnomalyInsight :=
  let '(i, event) := x in
  let '(added, _, _) := Drift.drift_diff event in
  Anomaly ("anomaly-drift-" +:+ str_of_Z i)
    (title (spaces_for_underscores (Drift.event_type event)) +:+ " schema drift detected")
    (if str_truthy (Drift.drift_summary event) then Drift.drift_summary event
     else "Schema contract changed between consecutive snapshots.")
    (Drift.drift_source_id event) (Drift.drift_severity event)
    (_confidence_from_severity (Drift.drift_severity event)) generated_at
    ([("event_id", JInt i); ("compatibility_score", JFloat (Drift.drift_score event));
      ("added_fields", JList (map JStr added))] ++ Drift.diff_json (Drift.drift_diff event)).

Definition get_anomaly_insights (now : datetime) (limit : nat) (only : option Z) (t : events) : list AnomalyInsight :=
  map (anomaly_of now) (recent_events only limit t).

(** ** Trends *)

Inductive direction := up | down | flat.

#[global] Instance direction_eq_dec : EqDecision direction.
Proof. solve_decision. Defined.

Definition direction_name (d : direction) : string :=
  match d with up => "up" | down => "down" | flat => "flat" end.

Record TrendInsight := Trend {
  trend_source_id : Z;
  trend_title : string;
  trend_summary : string;
  trend_direction : direction;
  change_pct : Q;
  latest_snapshot_id : Z;
  previous_snapshot_id : Z;
  latest_score : Q;
  previous_score : Q;
  trend_created_at : datetime
}.

(** The two newest snapshots of a source. *)
Definition last_two (i : Z) (t : snapshots) : list (Z * Drift.ContractSnapshot) :=
  take 2 (order_by Drift.newest_snapshot (select (fun s => Drift.snap_source_id s =? i) t)).

Definition direction_of (delta : Q) : direction :=
  if Qltb 0 delta then up else if Qltb delta 0 then down else flat.

Definition trend_of (generated_at : datetime) (i : Z) (source : SourceRegistry.SourceProfile)
    (latest previous : Z * Drift.ContractSnapshot) : TrendInsight :=
  let new := Drift.compatibility_score latest.2 in
  let old := Drift.compatibility_score previous.2 in
  let delta := (new - old)%Q in
  let direction := direction_of delta in
  let denominator := if negb (Qeq_bool old 0) then old else 1%Q in
  Trend i ("Compatibility trend for " +:+ SourceRegistry.name source)
    ("Compatibility score moved " +:+ direction_name direction +:+ " from " +:+ fixed 2 old +:+ " to " +:+
       fixed 2 new +:+ ".")
    direction (py_round 2 (delta / denominator * 100)) latest.1 previous.1 new old generated_at.

Definition get_trend_insights (now : datetime) (limit : nat) (sources : profiles) (t : snapshots) : list TrendInsight :=
  flat_map (fun '(i, source) =>
    match last_two i t with
    | latest :: previous :: _ => [trend_of now i source latest previous]
    | _ => []
    end) (take limit (select SourceRegistry.present sources)).

(** ** Recommendations *)

Definition PIN_CONTRACT : string :=
  "Deploy compatibility fallback parser and pin source contract version until producer change is validated.".
Definition REGENERATE_BINDINGS : string :=
  "Regenerate client schema bindings and add contract snapshot checks to CI for additive fields.".
Definition TIGHTEN_MONITORING : string :=
  "Add tighter monitoring and update source owner playbook with contract-change response steps.".

Record RecommendationInsight := Recommendation {
  recommendation_id : string;
  recommendation_title : string;
  recommendation_summary : string;
  recommendation_source_id : Z;
  recommendation_confidence : Q;
  recommendation_created_at : datetime;
  priority : string;
  action : string;
  recommendation_metadata : dict
}.

Definition action_for (anomaly : AnomalyInsight) : string :=
  let event_type := json_str (dict_get "event_type" (JStr EmptyString) (metadata anomaly)) in
  let removed := dict_get "removed_fields" (JList []) (metadata anomaly) in
  let type_changes := dict_get "type_changed_fields" (JObj []) (metadata anomaly) in
  if severe (severity anomaly) && (json_truthy removed || json_truthy type_changes) then PIN_CONTRACT
  else if decide (event_type = "non_breaking") then REGENERATE_BINDINGS
  else TIGHTEN_MONITORING.

Definition recommendation_for (generated_at : datetime) (anomaly : AnomalyInsight) : RecommendationInsight :=
  Recommendation ("recommendation-" +:+ insight_id anomaly)
    ("Action for source " +:+ str_of_Z (source_id anomaly))
    ("Recommended remediation generated from recent drift signal (" +:+ severity anomaly +:+ ").")
    (source_id anomaly) (confidence anomaly) generated_at (_priority_from_severity (severity anomaly))
    (action_for anomaly)
    [("derived_from", JStr (insight_id anomaly)); ("severity", JStr (severity anomaly))].

(** [now] is read for the anomalies and [made] for the recommendations. *)
Definition get_recommendation_insights (now made : datetime) (limit : nat) (only : option Z) (t : events)
    : list RecommendationInsight :=
  map (recommendation_for made) (get_anomaly_insights now limit only t).

(** The feeds with their totals. *)
Definition anomaly_feed (now : datetime) (only : option Z) (limit : nat) (t : events) : list AnomalyInsight * nat :=
  let items := get_anomaly_insights now limit only t in (items, length items).

Definition trend_feed (now : datetime) (limit : nat) (sources : profiles) (t : snapshots) : list TrendInsight * nat :=
  let items := get_trend_insights now limit sources t in (items, length items).

Definition recommendation_feed (now made : datetime) (only : option Z) (limit : nat) (t : events)
    : list RecommendationInsight * nat :=
  let items := get_recommendation_insights now made limit only t in (items, length items).

End Insights.

(** ** Theorems *)

Module InsightTheorems.
Import ReadModels ReadModelFacts Insights.

Lemma title_examples :
  title (spaces_for_underscores "non_breaking") = "Non Breaking" /\ title "bREAKING" = "Breaking".
Proof. split; vm_compute; reflexivity. Qed.

Lemma direction_spec delta :
  (direction_of delta = up <-> (0 < delta)%Q) /\ (direction_of delta = down <-> (delta < 0)%Q).
Proof.
  unfold direction_of. destruct (Qltb 0 delta) eqn:E1, (Qltb delta 0) eqn:E2; bool_to_prop;
    repeat split; intros H; try done; lra.
Qed.

Lemma change_bounds old new :
  (0 < old)%Q -> (0 <= new)%Q ->
  (-100 <= (new - old) / old * 100)%Q /\
  ((new <= old)%Q -> ((new - old) / old * 100 <= 0)%Q) /\ ((old <= new)%Q -> (0 <= (new - old) / old * 100)%Q).
Proof.
  intros Ho Hn. assert ((new - old) / old * 100 == new / old * 100 - 100)%Q as -> by (field; lra).
  assert (0 <= new / old)%Q by (apply Qle_shift_div_l; lra). split; [lra |]. split; intros H1.
  - assert (new / old <= 1)%Q by (apply Qle_shift_div_r; lra). lra.
  - assert (1 <= new / old)%Q by (apply Qle_shift_div_l; lra). lra.
Qed.

(** A trend says what the two newest snapshots of its source say: the source is
    registered, the two snapshots are the head of its snapshots from the newest on, the
    direction is the sign of the difference of their scores, and, where scores are between
    0 and 100 and the older is not 0, the change in percent has that sign and is at
    least -100. *)
Theorem trends_say_direction now limit sources t r :
  wf_table sources -> wf_table t ->
  every (fun _ s => (0 <= Drift.compatibility_score s <= 100)%Q) t ->
  r ∈ get_trend_insights now limit sources t ->
  exists source latest previous rest,
    get (trend_source_id r) sources = Some source /\ SourceRegistry.present source = true /\
    order_by Drift.newest_snapshot (select (fun s => Drift.snap_source_id s =? trend_source_id r) t) =
      (latest_snapshot_id r, latest) :: (previous_snapshot_id r, previous) :: rest /\
    let delta := (Drift.compatibility_score latest - Drift.compatibility_score previous)%Q in
    (trend_direction r = up <-> (0 < delta)%Q) /\ (trend_direction r = down <-> (delta < 0)%Q) /\
    ((0 < Drift.compatibility_score previous)%Q ->
       (-100 <= change_pct r)%Q /\ (trend_direction r = down -> (change_pct r <= 0)%Q) /\
       (trend_direction r <> down -> (0 <= change_pct r)%Q)).
Proof.
  intros Hs Ht Hsc Hr. apply list_elem_of_In, in_flat_map in Hr as ([i source] & Hin & Hr).
  apply list_elem_of_In, elem_of_take_1, list_elem_of_In, select_spec in Hin as [Hg Hp]; [|done].
  destruct (order_by Drift.newest_snapshot (select (fun s => Drift.snap_source_id s =? i) t)) as [|[j new] [|[k old] rest]] eqn:E;
    unfold last_two in Hr; rewrite E in Hr; [done | done |]. destruct Hr as [<-|[]]. simpl.
  exists source, new, old, rest. rewrite E. split; [done |]. split; [done |]. split; [done |].
  destruct (direction_spec (Drift.compatibility_score new - Drift.compatibility_score old)) as [Hup Hdown].
  split; [done |]. split; [done |]. intros Ho.
  assert (0 <= Drift.compatibility_score new <= 100)%Q as Hn.
  { assert ((j, new) ∈ select (fun s => Drift.snap_source_id s =? i) t) as Hj.
    { rewrite <- (order_by_perm Drift.newest_snapshot), E. set_solver. }
    apply list_elem_of_In, select_spec in Hj as [Hj _]; [|done]. by apply (Hsc j). }
  destruct (Qeq_bool (Drift.compatibility_score old) 0) eqn:E0; [apply Qeq_bool_iff in E0; lra |]. simpl.
  destruct (change_bounds _ _ Ho (proj1 Hn)) as (Hlow & Hle & Hge). split_and!.
  - by apply (py_round_low 2 (-100)).
  - intros Hd%Hdown. apply (py_round_high 2 0), Hle. lra.
  - intros Hd. apply (py_round_low 2 0), Hge. destruct (Qlt_le_dec (Drift.compatibility_score new) (Drift.compatibility_score old)) as [Hlt|]; [|done].
    exfalso. apply Hd, Hdown. lra.
Qed.

Lemma get_anomalies_elem now limit only t a :
  wf_table t -> a ∈ get_anomaly_insights now limit only t ->
  exists i e, get i t = Some e /\ one_of only (Drift.drift_source_id e) = true /\ a = anomaly_of now (i, e).
Proof.
  intros Ht Ha. apply list_elem_of_In, in_map_iff in Ha as ([i e] & <- & Hin). exists i, e.
  apply list_elem_of_In, elem_of_take_1 in Hin. rewrite order_by_perm in Hin.
  apply list_elem_of_In, select_spec in Hin as [Hg Hp]; done.
Qed.

Lemma truthy_map {A} (f : A -> json) l : json_truthy (JList (map f l)) = negb (Drift.is_nil l).
Proof. by destruct l. Qed.

Lemma anomaly_action now i e :
  action_for (anomaly_of now (i, e)) =
  let '(_, removed, changed) := Drift.drift_diff e in
  if severe (Drift.drift_severity e) && (negb (Drift.is_nil removed) || negb (Drift.is_nil changed))
  then PIN_CONTRACT else TIGHTEN_MONITORING.
Proof.
  unfold action_for, anomaly_of. destruct (Drift.drift_diff e) as [[added removed] changed]. simpl.
  rewrite <- (truthy_map JStr). by destruct changed.
Qed.

(** The recommendations are one for each anomaly, in their order.  That of an event is
    to pin the contract exactly when the event is severe and takes a field away or changes
    its type; otherwise it is to tighten monitoring, and the advice for additive
    changes is never given, whatever the event, although the code has a branch for it: the
    metadata it looks into has no event type.  Priority is P1 exactly for severe events. *)
Theorem recommendations_follow_anomalies now made limit only t :
  wf_table t ->
  let l := get_recommendation_insights now made limit only t in
  map recommendation_id l =
    map (fun a => "recommendation-" +:+ insight_id a) (get_anomaly_insights now limit only t) /\
  (length l <= limit)%nat /\
  forall r, r ∈ l -> exists i e added removed changed,
    get i t = Some e /\ one_of only (Drift.drift_source_id e) = true /\
    Drift.drift_diff e = (added, removed, changed) /\ recommendation_source_id r = Drift.drift_source_id e /\
    (action r = PIN_CONTRACT <->
       severe (Drift.drift_severity e) = true /\ (removed <> [] \/ changed <> [])) /\
    action r <> REGENERATE_BINDINGS /\
    (priority r = INSIGHT_PRIORITY_P1 <-> severe (Drift.drift_severity e) = true).
Proof.
  intros Ht. cbv zeta. split_and!.
  - unfold get_recommendation_insights. by rewrite map_map.
  - unfold get_recommendation_insights, get_anomaly_insights. rewrite !length_map. unfold recent_events. rewrite length_take. lia.
  - intros r Hr. apply list_elem_of_In, in_map_iff in Hr as (a & <- & Ha%list_elem_of_In).
    destruct (get_anomalies_elem _ _ _ _ _ Ht Ha) as (i & e & Hg & Ho & ->).
    destruct (Drift.drift_diff e) as [[added removed] changed] eqn:Ed. exists i, e, added, removed, changed.
    split; [done |]. split; [done |]. split; [done |].
    assert (source_id (anomaly_of now (i, e)) = Drift.drift_source_id e /\
            severity (anomaly_of now (i, e)) = Drift.drift_severity e) as [Hsrc Hsev]
      by (unfold anomaly_of; by rewrite Ed).
    split; [done |]. change (action (recommendation_for made ?a)) with (action_for a).
    change (priority (recommendation_for made ?a)) with (_priority_from_severity (severity a)).
    rewrite anomaly_action, Ed, Hsev.
    split.
    + assert (TIGHTEN_MONITORING <> PIN_CONTRACT) by (vm_compute; discriminate).
      destruct (severe _), removed, changed; simpl; naive_solver.
    + split; [destruct (_ && _); vm_compute; discriminate |]. unfold _priority_from_severity.
      destruct (severe _); [done |]. by destruct (decide _).
Qed.

(** An anomaly is an event of the log, newest first, for the source asked for; its
    confidence is a share between a half and one, and grows with the severity. *)
Theorem anomalies_are_recent_events now limit only t :
  wf_table t ->
  let l := get_anomaly_insights now limit only t in
  (length l <= limit)%nat /\
  StronglySorted (fun x y => Drift.newest_drift x y = true) (recent_events only limit t) /\
  (forall a, a ∈ l -> exists i e, get i t = Some e /\ insight_id a = "anomaly-drift-" +:+ str_of_Z i /\
     source_id a = Drift.drift_source_id e /\ severity a = Drift.drift_severity e /\
     one_of only (source_id a) = true /\ (1 # 2 < confidence a <= 1)%Q) /\
  (_confidence_from_severity "low" < _confidence_from_severity "medium")%Q /\
  (_confidence_from_severity "medium" < _confidence_from_severity "high")%Q /\
  (_confidence_from_severity "high" < _confidence_from_severity "critical")%Q.
Proof.
  intros Ht. cbv zeta. split_and!; try (vm_compute; reflexivity).
  - unfold get_anomaly_insights, recent_events. rewrite length_map, length_take. lia.
  - apply StronglySorted_take, order_by_sorted; unfold Drift.newest_drift.
    + intros x y. rewrite !Z.leb_le. lia.
    + intros x y z. rewrite !Z.leb_le. lia.
  - intros a Ha. destruct (get_anomalies_elem _ _ _ _ _ Ht Ha) as (i & e & Hg & Ho & ->). exists i, e.
    unfold anomaly_of. destruct (Drift.drift_diff e) as [[? ?] ?]. simpl. split_and!; try done;
      unfold _confidence_from_severity; repeat case_match; vm_compute; done.
Qed.

End InsightTheorems.

(** ** Witnesses *)

Module InsightWitnesses.
Import ReadModels Insights InsightTheorems.

Definition drift_of (i : Z) (typ sev : string) (d : Drift.diff) (score : Q) (at_ : datetime) : Drift.DriftEvent :=
  Drift.Drift i 1 2 typ sev d score (Drift._summary typ d) at_.

Definition drifts : events := Table
  [(1, drift_of 1 "non_breaking" "low" (["tags"], [], []) 98 100);
   (2, drift_of 1 "breaking" "high" ([], ["name"; "id"], []) 60 200)] 3.

Definition snapshot_of (i : Z) (score : Q) (at_ : datetime) : Drift.ContractSnapshot :=
  Drift.Snapshot i None [] "f" score None at_.

Definition history : snapshots := Table
  [(1, snapshot_of 1 100 10); (2, snapshot_of 1 98 100); (3, snapshot_of 1 60 200)] 4.

Definition providers : profiles :=
  Table [(1, SourceRegistry.Profile "alpha" "https://example.org" "/health" 60 true None None 3 900 "none" None "X-API-Key"
               None 5 None None)] 2.

Example advice_for_drifts :
  map (fun r => (recommendation_id r, priority r, bool_decide (action r = PIN_CONTRACT)))
    (get_recommendation_insights 300 301 10 None drifts) =
  [("recommendation-anomaly-drift-2", "P1", true); ("recommendation-anomaly-drift-1", "P3", false)].
Proof. vm_compute. reflexivity. Qed.

Example trend_of_history :
  map (fun r => (trend_summary r, Qred (change_pct r))) (get_trend_insights 300 10 providers history) =
  [("Compatibility score moved down from 98.00 to 60.00.", (-1939 # 50)%Q)].
Proof. vm_compute. reflexivity. Qed.

Lemma recommendations_follow_anomalies_witness :
  let l := get_recommendation_insights 300 301 10 None drifts in
  map recommendation_id l = map (fun a => "recommendation-" +:+ insight_id a) (get_anomaly_insights 300 10 None drifts) /\
  length l = 2%nat.
Proof.
  split; [|reflexivity]. apply (recommendations_follow_anomalies 300 301 10 None drifts). split; repeat constructor.
Defined.

Lemma anomalies_are_recent_events_witness : (length (get_anomaly_insights 300 1 (Some 1%Z) drifts) <= 1)%nat.
Proof. apply (anomalies_are_recent_events 300 1 (Some 1%Z) drifts). split; repeat constructor. Defined.

Definition fall : TrendInsight :=
  trend_of 300 1 (SourceRegistry.Profile "alpha" "https://example.org" "/health" 60 true None None 3 900 "none" None
    "X-API-Key" None 5 None None) (3, snapshot_of 1 60 200) (2, snapshot_of 1 98 100).

Lemma trends_say_direction_witness :
  fall ∈ get_trend_insights 300 10 providers history /\ exists source, get (trend_source_id fall) providers = Some source.
Proof.
  assert (fall ∈ get_trend_insights 300 10 providers history) as Hin by (vm_compute; apply list_elem_of_here).
  split; [exact Hin |]. destruct (trends_say_direction 300 10 providers history fall) as (source & _ & _ & _ & Hg & _).
  - split; repeat constructor.
  - split; repeat constructor.
  - intros i r H. unfold get in H. simpl in H.
    repeat (case_match; [injection H as <-; split; vm_compute; discriminate |]). done.
  - exact Hin.
  - exists source. exact Hg.
Defined.

End InsightWitnesses.
