(* ===== verification/Reporting.v ===== *)
(** * Reports (repositories/reporting_metrics.py, reporting_heatmaps.py,
    reporting_freshness.py, reporting_cost_value.py, reporting_presets.py,
    api/routes/reporting.py)

    The read models of the reporting API, one Module each.  The bounds that the response
    schemas declare are theorems here.  [ORDER BY name] sorts by the collation of the
    database, a parameter. *)

From S2P Require Import Prelude Db SourceRegistry ContractDrift ReadModels.

(** ** Metric series and cohorts *)

Module Metrics.
Import ReadModels.

Record MetricPoint := Point { timestamp : datetime; value : Q }.

Record MetricSeries := Series {
  series_id : string;
  series_source_id : Z;
  series_source_name : string;
  points : list MetricPoint;
  series_summary : string
}.

Definition older_drift (x y : Z * Drift.DriftEvent) : bool := Drift.drift_created_at x.2 <=? Drift.drift_created_at y.2.

(** [events_by_source.get(source_id, [])] once the events are appended one by one. *)
Definition of_source (i : Z) (l : list (Z * Drift.DriftEvent)) : list Drift.DriftEvent :=
  List.filter (fun e => Drift.drift_source_id e =? i) (map snd l).

Definition series_of (n : Z) (evs : list (Z * Drift.DriftEvent)) (x : Z * SourceRegistry.SourceProfile) : list MetricSeries :=
  let '(i, source) := x in
  match of_source i evs with
  | [] => []
  | source_events =>
      let points := map (fun e => Point (Drift.drift_created_at e) (py_round 2 (Drift.drift_score e))) source_events in
      let avg_score := (qsum (map value points) / qlen points)%Q in
      [Series ("compatibility-" +:+ str_of_Z i) i (SourceRegistry.name source) points
         ("Average compatibility score is " +:+ fixed 2 avg_score +:+ " for the selected " +:+ str_of_Z n +:+ "-day window.")]
  end.

Definition list_metric_series (now : datetime) (n : Z) (only : option Z) (limit : nat) (sources : profiles) (t : events)
    : list MetricSeries :=
  match recent_sources (one_of only) limit sources with
  | [] => []
  | listed => flat_map (series_of n (order_by older_drift (events_since (map fst listed) (_cutoff_utc_naive now n) t))) listed
  end.

Record CohortReport := Cohort {
  cohort_id : string;
  cohort_name : string;
  cohort_source_id : Z;
  sample_size : Z;
  avg_compatibility_score : Q;
  breaking_rate_pct : Q;
  avg_sla_gap_ms : Q;
  rank : Z
}.

Definition is_breaking (e : Drift.DriftEvent) : bool := bool_decide (Drift.event_type e = "breaking").

Definition average_of (l : list Drift.DriftEvent) : Q :=
  match l with [] => 100%Q | _ => (qsum (map Drift.drift_score l) / qlen l)%Q end.

Definition breaking_of (l : list Drift.DriftEvent) : Q :=
  match l with [] => 0%Q | _ => (inject_Z (tally is_breaking l) / qlen l * 100)%Q end.

(** The share of the latency threshold that incompatibility takes. *)
Definition gap_of (threshold : option Q) (avg_compat : Q) : Q :=
  match threshold with
  | Some t => if negb (Qeq_bool t 0) then Qmax 0 (t * (1 - avg_compat / 100)) else 0%Q
  | None => 0%Q
  end.

Definition cohort_of (evs : list (Z * Drift.DriftEvent)) (x : Z * SourceRegistry.SourceProfile) : CohortReport :=
  let '(i, source) := x in
  let l := of_source i evs in
  Cohort ("cohort-source-" +:+ str_of_Z i) (SourceRegistry.name source +:+ " reliability cohort") i (zlen l)
    (py_round 2 (average_of l)) (py_round 2 (breaking_of l))
    (py_round 2 (gap_of (SourceRegistry.latency_threshold_ms source) (average_of l))) 1.

(** The sort key [(-score, breaking rate, source_id)], compared as tuples are. *)
Definition cohort_before (x y : CohortReport) : bool :=
  if Qltb (avg_compatibility_score y) (avg_compatibility_score x) then true
  else if Qltb (avg_compatibility_score x) (avg_compatibility_score y) then false
  else if Qltb (breaking_rate_pct x) (breaking_rate_pct y) then true
  else if Qltb (breaking_rate_pct y) (breaking_rate_pct x) then false
  else cohort_source_id x <=? cohort_source_id y.

Definition with_rank (k : Z) (r : CohortReport) : CohortReport :=
  Cohort (cohort_id r) (cohort_name r) (cohort_source_id r) (sample_size r) (avg_compatibility_score r)
    (breaking_rate_pct r) (avg_sla_gap_ms r) k.

(** [for index, row in enumerate(rows, start=k): row.rank = index]. *)
Fixpoint ranked (k : Z) (l : list CohortReport) : list CohortReport :=
  match l with
  | [] => []
  | r :: l => with_rank k r :: ranked (k + 1) l
  end.

Definition list_cohort_reports (now : datetime) (n : Z) (limit : nat) (sources : profiles) (t : events) : list CohortReport :=
  match recent_sources (one_of None) limit sources with
  | [] => []
  | listed =>
      let evs := order_by Drift.newest_drift (events_since (map fst listed) (_cutoff_utc_naive now n) t) in
      ranked 1 (order_by cohort_before (map (cohort_of evs) listed))
  end.

End Metrics.

(** ** Drift heatmap *)

Module Heatmap.
Import ReadModels.

Definition _SEVERITY_ORDER : list string := ["critical"; "high"; "medium"; "low"; "none"].

Record DriftHeatmapCell := Cell {
  cell_source_id : Z;
  cell_source_name : string;
  cell_severity : string;
  cell_count : Z;
  heat_value : Q
}.

Record DriftHeatmapResponse := Heat {
  heat_sources : list string;
  severities : list string;
  cells : list DriftHeatmapCell;
  total_events : Z;
  heat_window_days : Z
}.

(** [counts[(source_id, severity)]]. *)
Definition is_at (i : Z) (severity : string) (e : Drift.DriftEvent) : bool :=
  (Drift.drift_source_id e =? i) && bool_decide (Drift.drift_severity e = severity).

Definition counted (l : list Drift.DriftEvent) (i : Z) (severity : string) : Z := tally (is_at i severity) l.

(** [max(counts.values())]: each key is that of an event. *)
Definition max_count (l : list Drift.DriftEvent) : Z :=
  foldr Z.max 0 (map (fun e => counted l (Drift.drift_source_id e) (Drift.drift_severity e)) l).

(** The cells of one source, sparse. *)
Definition cells_of (l : list Drift.DriftEvent) (x : Z * SourceRegistry.SourceProfile) : list DriftHeatmapCell :=
  let '(i, source) := x in
  flat_map (fun severity =>
    let n := counted l i severity in
    if n =? 0 then []
    else [Cell i (SourceRegistry.name source) severity n (py_round 4 (inject_Z n / inject_Z (max_count l)))])
    _SEVERITY_ORDER.

Definition get_drift_heatmap (now : datetime) (n : Z) (source_ids : option (list Z)) (limit : nat)
    (sources : profiles) (t : events) : DriftHeatmapResponse :=
  match recent_sources (among source_ids) limit sources with
  | [] => Heat [] [] [] 0 n
  | listed =>
      match map snd (events_since (map fst listed) (_cutoff_utc_naive now n) t) with
      | [] => Heat [] [] [] 0 n
      | l =>
          let cs := flat_map (cells_of l) listed in
          Heat (flat_map (fun x => match cells_of l x with [] => [] | _ => [SourceRegistry.name x.2] end) listed)
            (List.filter (fun s => existsb (fun c => bool_decide (cell_severity c = s)) cs) _SEVERITY_ORDER)
            cs (zlen l) n
      end
  end.

End Heatmap.

(** ** Freshness *)

Module Freshness.
Import ReadModels.

Abbreviation snapshots := (table Drift.ContractSnapshot) (only parsing).

Inductive status := no_data | breached | warning | fresh.

#[global] Instance status_eq_dec : EqDecision status.
Proof. solve_decision. Defined.

(** [int(delta.total_seconds())]. *)
Definition total_seconds (d : timedelta) : Z := Z.quot d 1000000.

Definition _freshness_status (age_seconds : option Z) (threshold_seconds : Z) : status :=
  match age_seconds with
  | None => no_data
  | Some a =>
      if threshold_seconds <? a then breached
      else if Z.quot (threshold_seconds * 3) 4 <? a then warning
      else fresh
  end.

Record FreshnessIncident := Gap {
  gap_source_id : Z;
  gap_source_name : string;
  gap_start : datetime;
  gap_end : option datetime;
  gap_seconds : Z;
  is_open : bool
}.

Record FreshnessSourceRow := Row {
  row_source_id : Z;
  row_source_name : string;
  last_snapshot_at : option datetime;
  age_seconds : option Z;
  sla_threshold_seconds : Z;
  row_status : status;
  total_snapshots : Z;
  incident_count : Z
}.

Record FreshnessSLAResponse := SLA {
  sla_sources : list FreshnessSourceRow;
  sla_incidents : list FreshnessIncident;
  total_breached : Z;
  total_ok : Z;
  total_no_data : Z;
  sla_window_days : Z;
  sla_threshold_hours : Z
}.

Definition has (st : status) (r : FreshnessSourceRow) : bool := bool_decide (row_status r = st).

(** [for i in range(len(snaps) - 1)]. *)
Fixpoint closed_gaps (i : Z) (name : string) (threshold : Z) (snaps : list datetime) : list FreshnessIncident :=
  match snaps with
  | a :: ((b :: _) as snaps') =>
      let gap_s := total_seconds (b - a) in
      (if threshold <? gap_s then [Gap i name a (Some b) gap_s false] else []) ++ closed_gaps i name threshold snaps'
  | _ => []
  end.

Definition open_gap (i : Z) (name : string) (now cutoff : datetime) (last_at : option datetime) (st : status)
    : list FreshnessIncident :=
  if decide (st = breached) then
    let open_start := match last_at with Some a => a | None => cutoff end in
    [Gap i name open_start None (total_seconds (now - open_start)) true]
  else [].

Definition row_of (now cutoff : datetime) (threshold : Z) (snaps_of : Z -> list datetime)
    (x : Z * SourceRegistry.SourceProfile) : FreshnessSourceRow * list FreshnessIncident :=
  let '(i, source) := x in
  let name := SourceRegistry.name source in
  let snaps := snaps_of i in
  let last_at := last snaps in
  let age_s := (fun a => total_seconds (now - a)) <$> last_at in
  let st := _freshness_status age_s threshold in
  let incidents := closed_gaps i name threshold snaps ++ open_gap i name now cutoff last_at st in
  (Row i name last_at age_s threshold st (zlen snaps) (zlen incidents), incidents).

Section Query.

(** The collation of [name]. *)
Variable name_le : string -> string -> bool.

Definition by_name (x y : Z * SourceRegistry.SourceProfile) : bool :=
  name_le (SourceRegistry.name x.2) (SourceRegistry.name y.2).

Definition named_sources (source_ids : option (list Z)) (limit : nat) (t : profiles)
    : list (Z * SourceRegistry.SourceProfile) :=
  take limit (order_by by_name (List.filter (fun x => among source_ids x.1) (select SourceRegistry.present t))).

(** [(source_id, created_at)] of the snapshots of the window, sorted. *)
Definition pair_le (x y : Z * datetime) : bool := if x.1 =? y.1 then x.2 <=? y.2 else x.1 <? y.1.

Definition snapshot_times (queried : list Z) (cutoff : datetime) (t : snapshots) : list (Z * datetime) :=
  order_by pair_le (map (fun x => (Drift.snap_source_id x.2, Drift.snap_created_at x.2))
    (select (fun s => bool_decide (Drift.snap_source_id s ∈ queried) && (cutoff <=? Drift.snap_created_at s)) t)).

(** [snaps_by_source.get(source_id, [])]. *)
Definition times_of (rows : list (Z * datetime)) (i : Z) : list datetime :=
  map snd (List.filter (fun x => x.1 =? i) rows).

Definition latest_start (x y : FreshnessIncident) : bool := gap_start y <=? gap_start x.

Definition get_freshness_sla (now : datetime) (n : Z) (source_ids : option (list Z)) (limit : nat)
    (sla_threshold_hours : Z) (sources : profiles) (t : snapshots) : FreshnessSLAResponse :=
  let threshold := sla_threshold_hours * 3600 in
  let cutoff := now - days n in
  match named_sources source_ids limit sources with
  | [] => SLA [] [] 0 0 0 n sla_threshold_hours
  | listed =>
      let snaps_of := times_of (snapshot_times (map fst listed) cutoff t) in
      let out := map (row_of now cutoff threshold snaps_of) listed in
      let rows := map fst out in
      SLA rows (order_by latest_start (flat_map snd out))
        (tally (has breached) rows) (tally (fun r => has fresh r || has warning r) rows) (tally (has no_data) rows)
        n sla_threshold_hours
  end.

End Query.

End Freshness.

(** ** Cost to value *)

Module CostValue.
Import ReadModels.

Abbreviation snapshots := (table Drift.ContractSnapshot) (only parsing).

Record CostValueRow := Cost {
  cost_source_id : Z;
  cost_source_name : string;
  owner_team : option string;
  cost_per_call_usd : Q;
  total_calls : Z;
  total_cost_usd : Q;
  successful_observations : Z;
  insights_generated : Z;
  cost_per_observation_usd : option Q;
  cost_per_insight_usd : option Q
}.

Record TeamCostSummary := Team {
  team : string;
  team_cost_usd : Q;
  team_calls : Z;
  team_insights : Z;
  team_cost_per_insight_usd : option Q
}.

Record CostValueResponse := Costs {
  cost_rows : list CostValueRow;
  team_summaries : list TeamCostSummary;
  grand_total_usd : Q;
  cost_window_days : Z
}.

(** [round(cost / n, 6) if n > 0 and cost > 0 else None]. *)
Definition cost_per (cost : Q) (n : Z) : option Q :=
  if (0 <? n) && Qltb 0 cost then Some (py_round 6 (cost / inject_Z n)) else None.

Definition row_for (snaps : list (Z * Drift.ContractSnapshot)) (drifts : list Drift.DriftEvent)
    (x : Z * SourceRegistry.SourceProfile) : CostValueRow :=
  let '(i, source) := x in
  let breaking_snapshot_ids := map Drift.current_snapshot_id (List.filter Metrics.is_breaking drifts) in
  let source_snapshots := List.filter (fun s => Drift.snap_source_id s.2 =? i) snaps in
  let total_calls := zlen source_snapshots in
  let breaking_calls := tally (fun s => bool_decide (s.1 ∈ breaking_snapshot_ids)) source_snapshots in
  let successful := total_calls - breaking_calls in
  let insights := tally (fun e => Drift.drift_source_id e =? i) drifts in
  let unit_cost := 0%Q in
  let total_cost := py_round 6 (unit_cost * inject_Z total_calls) in
  Cost i (SourceRegistry.name source) None unit_cost total_calls total_cost successful insights
    (cost_per total_cost successful) (cost_per total_cost insights).

(** The sort key [(-cost, source_id)]. *)
Definition dearer (x y : CostValueRow) : bool :=
  if Qltb (total_cost_usd y) (total_cost_usd x) then true
  else if Qltb (total_cost_usd x) (total_cost_usd y) then false
  else cost_source_id x <=? cost_source_id y.

(** [team_totals], in insertion order. *)
Definition totals : Type := list (string * (Q * Z * Z)).

Fixpoint add_to_team (team : string) (row : CostValueRow) (l : totals) : totals :=
  match l with
  | [] => [(team, (py_round 6 (0 + total_cost_usd row), 0 + total_calls row, 0 + insights_generated row))]
  | (team', (cost, calls, insights)) :: l =>
      if decide (team' = team)
      then (team, (py_round 6 (cost + total_cost_usd row), calls + total_calls row, insights + insights_generated row)) :: l
      else (team', (cost, calls, insights)) :: add_to_team team row l
  end.

(** [row.owner_team or 'unassigned']. *)
Definition team_of (row : CostValueRow) : string :=
  match owner_team row with
  | Some t => if str_truthy t then t else "unassigned"
  | None => "unassigned"
  end.

Definition team_totals (rows : list CostValueRow) : totals :=
  foldl (fun l row => add_to_team (team_of row) row l) [] rows.

Definition summary_of (x : string * (Q * Z * Z)) : TeamCostSummary :=
  let '(t, (cost, calls, insights)) := x in Team t cost calls insights (cost_per cost insights).

(** The sort key [(-cost, team)]. *)
Definition dearer_team (x y : TeamCostSummary) : bool :=
  if Qltb (team_cost_usd y) (team_cost_usd x) then true
  else if Qltb (team_cost_usd x) (team_cost_usd y) then false
  else String.leb (team x) (team y).

Definition get_cost_value_chart (now : datetime) (n : Z) (source_ids : option (list Z)) (limit : nat)
    (sources : profiles) (t : snapshots) (evs : events) : CostValueResponse :=
  match recent_sources (among source_ids) limit sources with
  | [] => Costs [] [] 0 n
  | listed =>
      let queried := map fst listed in
      let cutoff := _cutoff_utc_naive now n in
      let snaps := select (fun s => bool_decide (Drift.snap_source_id s ∈ queried) && (cutoff <=? Drift.snap_created_at s)) t in
      let drifts := map snd (events_since queried cutoff evs) in
      let rows := order_by dearer (map (row_for snaps drifts) listed) in
      Costs rows (order_by dearer_team (map summary_of (team_totals rows)))
        (py_round 6 (qsum (map total_cost_usd rows))) n
  end.

End CostValue.

(** ** Presets and exports *)

Module Presets.

Record DashboardPreset := Preset { preset_id : string; preset_name : string; description : string; widgets : list string }.

Definition list_dashboard_presets : list DashboardPreset :=
  [Preset "ops-scorecard" "Operations Scorecard"
     "Daily operational view for reliability engineering and on-call teams."
     ["provider_uptime"; "compatibility_trend"; "breaking_drift_heatmap"; "delivery_suppression_ratio"];
   Preset "exec-weekly-summary" "Executive Weekly Summary"
     "Weekly leadership dashboard focused on risk and cost-to-value trends."
     ["error_budget_burn"; "cohort_ranking"; "cost_to_value_ratio"; "top_recommendations"]].

Record ExportJob := Export {
  export_id : string;
  export_status : string;
  export_preset_id : string;
  export_format : string;
  export_created_at : datetime;
  detail : string
}.

Definition REPORTING_DEFAULT_EXPORT_FORMAT : string := "json".

(** [timestamp] is [datetime.timestamp] of a naive value, which takes it for local time. *)
Definition create_export_job (timestamp : datetime -> Q) (now : datetime) (wanted_preset wanted_format : string) : ExportJob :=
  let seconds := timestamp now in
  let whole := if Qltb seconds 0 then Qceiling seconds else Qfloor seconds in
  Export ("export-" +:+ str_of_Z whole) "completed" wanted_preset
    (if str_truthy wanted_format then wanted_format else REPORTING_DEFAULT_EXPORT_FORMAT) now
    "Export generated from reporting read models.".

End Presets.

(** ** Theorems *)

Module MetricTheorems.
Import ReadModels ReadModelFacts Metrics.

Definition scored (_ : Z) (e : Drift.DriftEvent) : Prop := (0 <= Drift.drift_score e <= 100)%Q.

(** The events of one source in the window, however they were sorted and grouped. *)
Lemma of_source_perm (le : Z * Drift.DriftEvent -> Z * Drift.DriftEvent -> bool) ids cutoff t i :
  i ∈ ids ->
  of_source i (order_by le (events_since ids cutoff t)) ≡ₚ
  map snd (select (fun e => (Drift.drift_source_id e =? i) && (cutoff <=? Drift.drift_created_at e)) t).
Proof.
  intros Hi. unfold of_source. rewrite (filter_perm _ _ (map snd (events_since ids cutoff t)))
    by (apply Permutation_map, order_by_perm).
  unfold events_since, select. induction (rows t) as [|[j e] l IH]; simpl; [done |].
  destruct (Z.eqb_spec (Drift.drift_source_id e) i) as [E|E]; simpl.
  - rewrite bool_decide_eq_true_2 by (by rewrite E). simpl. destruct (cutoff <=? Drift.drift_created_at e); simpl; [|done].
    rewrite (proj2 (Z.eqb_eq _ _) E). simpl. by constructor.
  - destruct (bool_decide _ && _); simpl; [|done]. by rewrite (proj2 (Z.eqb_neq _ _) E).
Qed.

Lemma of_source_scored le ids cutoff t i :
  wf_table t -> every scored t ->
  Forall (fun q => 0 <= q <= 100)%Q (map Drift.drift_score (of_source i (order_by le (events_since ids cutoff t)))).
Proof.
  intros Hwf Hs. apply List.Forall_map, List.Forall_forall. intros e [He _]%List.filter_In.
  apply in_map_iff in He as ([j e'] & <- & Hin%list_elem_of_In). rewrite order_by_perm in Hin.
  apply events_since_spec in Hin as [Hg _]; [|done]. by apply (Hs j).
Qed.

Lemma average_bounds l :
  Forall (fun q => 0 <= q <= 100)%Q (map Drift.drift_score l) -> (0 <= average_of l <= 100)%Q.
Proof.
  intros H. destruct l as [|e l]; [split; vm_compute; discriminate |]. unfold average_of.
  assert (qlen (e :: l) = qlen (map Drift.drift_score (e :: l))) as -> by (unfold qlen; by rewrite length_map).
  by apply mean_bounds.
Qed.

Lemma breaking_bounds l : (0 <= breaking_of l <= 100)%Q.
Proof.
  destruct l as [|e l]; [split; vm_compute; discriminate |]. unfold breaking_of. set (l' := e :: l).
  pose proof (qlen_pos l' ltac:(done)) as Hp. pose proof (tally_bounds is_breaking l') as [H0 H1].
  assert (inject_Z (tally is_breaking l') <= qlen l')%Q by (unfold qlen; by rewrite <- Zle_Qle).
  assert (0 <= inject_Z (tally is_breaking l') / qlen l')%Q by (apply Qle_shift_div_l; [done |]; pose proof (zq_nonneg _ H0); lra).
  assert (inject_Z (tally is_breaking l') / qlen l' <= 1)%Q by (apply Qle_shift_div_r; [done |]; lra). lra.
Qed.

Lemma gap_nonneg threshold avg : (0 <= gap_of threshold avg)%Q.
Proof.
  unfold gap_of. destruct threshold as [t|]; [|apply Qle_refl]. destruct (negb _); [apply Q.le_max_l | apply Qle_refl].
Qed.

(** *** Ranking *)

Lemma ranked_length k l : length (ranked k l) = length l.
Proof. revert k. induction l; intros k; simpl; [done | by rewrite IHl]. Qed.

Lemma ranked_ranks k l : map rank (ranked k l) = map (fun j => k + Z.of_nat j) (seq 0 (length l)).
Proof.
  revert k. induction l as [|r l IH]; intros k; simpl; [done |]. f_equal; [lia |].
  rewrite IH, <- seq_shift, map_map. apply map_ext. intros j. lia.
Qed.

Lemma ranked_source_ids k l : map cohort_source_id (ranked k l) = map cohort_source_id l.
Proof. revert k. induction l as [|r l IH]; intros k; simpl; [done | by rewrite IH]. Qed.

Lemma ranked_elem k l r : r ∈ ranked k l -> exists r', r' ∈ l /\ r = with_rank (rank r) r'.
Proof.
  revert k. induction l as [|x l IH]; intros k Hr; [by apply not_elem_of_nil in Hr |].
  apply elem_of_cons in Hr as [->|Hr]; [exists x; split; [set_solver | done] |].
  destruct (IH _ Hr) as (r' & ? & ?). exists r'. split; [set_solver | done].
Qed.

Lemma ranked_sorted k l :
  StronglySorted (fun x y => cohort_before x y = true) l -> StronglySorted (fun x y => cohort_before x y = true) (ranked k l).
Proof.
  intros Hs. revert k. induction Hs as [|x l Hs IH Hx]; intros k; simpl; constructor; [apply IH |].
  apply List.Forall_forall. intros y Hy%list_elem_of_In. apply ranked_elem in Hy as (y' & Hy' & ->).
  change (cohort_before x y' = true). rewrite List.Forall_forall in Hx. apply Hx. by apply list_elem_of_In.
Qed.

Lemma cohort_before_total x y : cohort_before x y = true \/ cohort_before y x = true.
Proof.
  unfold cohort_before. repeat case_match; bool_to_prop; try (left; done); try (right; done); try lra.
  rewrite !Z.leb_le. lia.
Qed.

Lemma cohort_before_trans x y z : cohort_before x y = true -> cohort_before y z = true -> cohort_before x z = true.
Proof.
  unfold cohort_before. repeat case_match; bool_to_prop; try done; try lra; intros; rewrite ?Z.leb_le in *; lia || lra.
Qed.

Lemma cohorts_sorted l : StronglySorted (fun x y => cohort_before x y = true) (ranked 1 (order_by cohort_before l)).
Proof. apply ranked_sorted, order_by_sorted; [apply cohort_before_total | apply cohort_before_trans]. Qed.

Lemma cohort_reports_unfold now n limit sources t :
  list_cohort_reports now n limit sources t =
  let listed := recent_sources (one_of None) limit sources in
  ranked 1 (order_by cohort_before (map (cohort_of (order_by Drift.newest_drift
    (events_since (map fst listed) (_cutoff_utc_naive now n) t))) listed)).
Proof. unfold list_cohort_reports. by destruct (recent_sources _ _ _). Qed.

(** The events of a source that a report of the window is about. *)
Definition drifts_of (i : Z) (cutoff : datetime) (t : events) : list Drift.DriftEvent :=
  map snd (select (fun e => (Drift.drift_source_id e =? i) && (cutoff <=? Drift.drift_created_at e)) t).

Record cohort_row_ok (now : datetime) (n : Z) (sources : profiles) (t : events) (r : CohortReport) : Prop := {
  row_source : exists source, get (cohort_source_id r) sources = Some source /\ SourceRegistry.present source = true;
  row_events : sample_size r = zlen (drifts_of (cohort_source_id r) (_cutoff_utc_naive now n) t);
  row_score : (0 <= avg_compatibility_score r <= 100)%Q;
  row_breaking : (0 <= breaking_rate_pct r <= 100)%Q;
  row_gap : (0 <= avg_sla_gap_ms r)%Q;
  row_quiet : sample_size r = 0 -> (avg_compatibility_score r == 100)%Q /\ (breaking_rate_pct r == 0)%Q
}.

Lemma cohort_row now n limit sources t r :
  wf_table sources -> wf_table t -> every scored t ->
  r ∈ list_cohort_reports now n limit sources t -> cohort_row_ok now n sources t r.
Proof.
  intros Hs Ht Hsc Hr. rewrite cohort_reports_unfold in Hr. cbv zeta in Hr.
  apply ranked_elem in Hr as (r' & Hr' & Er). rewrite order_by_perm in Hr'.
  apply list_elem_of_In, in_map_iff in Hr' as ([i source] & <- & Hin). rewrite Er. clear Er.
  set (listed := recent_sources (one_of None) limit sources) in *.
  assert ((i, source) ∈ listed) as Hel by (by apply list_elem_of_In).
  assert (i ∈ map fst listed) as Hi by (apply list_elem_of_In; change i with (i, source).1; by apply in_map).
  destruct (recent_sources_spec _ _ _ _ _ Hs Hel) as (Hg & Hp & _).
  set (cutoff := _cutoff_utc_naive now n). set (l := of_source i (order_by Drift.newest_drift (events_since (map fst listed) cutoff t))).
  assert (l ≡ₚ drifts_of i cutoff t) as Hl by (by apply of_source_perm).
  assert (Forall (fun q => 0 <= q <= 100)%Q (map Drift.drift_score l)) as Hq by (by apply of_source_scored).
  split; simpl; fold l.
  - by exists source.
  - unfold zlen. by rewrite Hl.
  - exact (py_round_bounds 2 0 100 _ (average_bounds _ Hq)).
  - exact (py_round_bounds 2 0 100 _ (breaking_bounds _)).
  - apply py_round_nonneg, gap_nonneg.
  - destruct l; [split; reflexivity | done].
Qed.

(** The cohort report ranks the sources: its ranks are 1, 2, ... in order, a
    row never follows one it beats on score, breaking rate and id, no source has two
    rows, and every row is that of a registered source with the number of its events in
    the window, a score and a breaking rate between 0 and 100, a gap that is not negative,
    and a score of 100 when it has no event. *)
Theorem cohorts_ranked now n limit sources t :
  wf_table sources -> wf_table t -> every scored t ->
  let l := list_cohort_reports now n limit sources t in
  map rank l = map (fun j => 1 + Z.of_nat j) (seq 0 (length l)) /\
  StronglySorted (fun x y => cohort_before x y = true) l /\
  NoDup (map cohort_source_id l) /\ (length l <= limit)%nat /\
  Forall (cohort_row_ok now n sources t) l.
Proof.
  intros Hs Ht Hsc. cbv zeta. split_and!.
  - rewrite cohort_reports_unfold. cbv zeta. by rewrite ranked_ranks, ranked_length.
  - rewrite cohort_reports_unfold. apply cohorts_sorted.
  - rewrite cohort_reports_unfold. cbv zeta. rewrite ranked_source_ids.
    rewrite (Permutation_map _ (order_by_perm _ _)), map_map.
    rewrite (map_ext _ fst) by (by intros [? ?]). by apply recent_sources_ids.
  - rewrite cohort_reports_unfold. cbv zeta. rewrite ranked_length, order_by_length, length_map. apply recent_sources_length.
  - apply List.Forall_forall. intros r Hr%list_elem_of_In. by eapply cohort_row.
Qed.

Lemma series_one n evs x : series_of n evs x = [] \/ exists s, series_of n evs x = [s] /\ series_source_id s = x.1.
Proof.
  destruct x as [i source]. unfold series_of. destruct (of_source i evs); [by left | right]. eexists. by split.
Qed.

Lemma series_ids n evs l i :
  In i (map series_source_id (flat_map (series_of n evs) l)) -> In i (map fst l).
Proof.
  rewrite !in_map_iff. intros (s & <- & (x & Hx & Hin)%in_flat_map). exists x. split; [|done].
  destruct (series_one n evs x) as [E|(s' & E & <-)]; rewrite E in Hin; [done |]. by destruct Hin as [->|[]].
Qed.

Lemma series_NoDup n evs l :
  NoDup (map fst l) -> NoDup (map series_source_id (flat_map (series_of n evs) l)).
Proof.
  induction l as [|x l IH]; intros Hnd; simpl in *; [constructor |]. apply NoDup_cons in Hnd as [Hx Hnd].
  destruct (series_one n evs x) as [->|(s & -> & Es)]; simpl; [by apply IH |]. apply NoDup_cons. split; [|by apply IH].
  rewrite Es. intros Hin%list_elem_of_In. apply Hx, list_elem_of_In. by eapply series_ids.
Qed.

Lemma series_length n evs l : (length (flat_map (series_of n evs) l) <= length l)%nat.
Proof.
  induction l as [|x l IH]; simpl; [done |]. rewrite length_app. destruct (series_one n evs x) as [->|(s & -> & _)]; simpl; lia.
Qed.

Lemma times_in_order i evs :
  StronglySorted (fun x y => older_drift x y = true) evs ->
  StronglySorted (fun x y => timestamp x <= timestamp y)
    (map (fun e => Point (Drift.drift_created_at e) (py_round 2 (Drift.drift_score e))) (of_source i evs)).
Proof.
  intros Hs. unfold of_source. induction Hs as [|[j e] l Hl IH Hx]; simpl; [constructor |].
  destruct (_ =? i); [|done]. simpl. constructor; [done |].
  apply List.Forall_map, List.Forall_forall. intros e' [He' _]%List.filter_In.
  apply in_map_iff in He' as ([j' e''] & <- & Hin). rewrite List.Forall_forall in Hx. specialize (Hx _ Hin).
  by apply Z.leb_le in Hx.
Qed.

(** A metric series is the scores of its source over the window: the points are in
    the order of time, they are the rounded scores of all the source's events of the
    window, there is at least one, and a source without an event has no series. *)
Theorem series_are_scores now n only limit sources t :
  wf_table sources ->
  let l := list_metric_series now n only limit sources t in
  (forall s, s ∈ l ->
     one_of only (series_source_id s) = true /\ points s <> [] /\
     StronglySorted (fun x y => timestamp x <= timestamp y) (points s) /\
     points s ≡ₚ map (fun e => Point (Drift.drift_created_at e) (py_round 2 (Drift.drift_score e)))
                   (drifts_of (series_source_id s) (_cutoff_utc_naive now n) t)) /\
  (length l <= limit)%nat /\ NoDup (map series_source_id l).
Proof.
  intros Hs. cbv zeta.
  assert (list_metric_series now n only limit sources t =
    let listed := recent_sources (one_of only) limit sources in
    flat_map (series_of n (order_by older_drift (events_since (map fst listed) (_cutoff_utc_naive now n) t))) listed) as ->
    by (unfold list_metric_series; by destruct (recent_sources _ _ _)).
  cbv zeta. set (listed := recent_sources (one_of only) limit sources). set (evs := order_by _ _).
  split_and!.
  - intros s Hin. apply list_elem_of_In, in_flat_map in Hin as ([i source] & Hin & Hser).
    assert ((i, source) ∈ listed) as Hel by (by apply list_elem_of_In).
    destruct (recent_sources_spec _ _ _ _ _ Hs Hel) as (_ & _ & Ho). unfold series_of in Hser.
    destruct (of_source i evs) as [|e l] eqn:E; [done |]. destruct Hser as [<-|[]]. cbn [series_source_id points].
    rewrite <- E. split; [done |]. split; [by rewrite E |]. split.
    + apply times_in_order, order_by_sorted; unfold older_drift;
        [intros x y; rewrite !Z.leb_le; lia | intros x y z; rewrite !Z.leb_le; lia].
    + apply Permutation_map, of_source_perm. apply list_elem_of_In. change i with (i, source).1. by apply in_map.
  - etrans; [apply series_length | apply recent_sources_length].
  - by apply series_NoDup, recent_sources_ids.
Qed.

End MetricTheorems.

Module HeatmapTheorems.
Import ReadModels ReadModelFacts Heatmap.

(** Severities are those of the list: what [Drift._severity] gives. *)
Definition graded (_ : Z) (e : Drift.DriftEvent) : Prop := Drift.drift_severity e ∈ _SEVERITY_ORDER.

Lemma severity_graded typ score : Drift._severity typ score ∈ _SEVERITY_ORDER.
Proof. unfold Drift._severity, _SEVERITY_ORDER. repeat case_match; set_solver. Qed.

Lemma severities_distinct : NoDup _SEVERITY_ORDER.
Proof. unfold _SEVERITY_ORDER. repeat (constructor; [set_solver |]). constructor. Qed.

Lemma counted_le_max l e : e ∈ l -> counted l (Drift.drift_source_id e) (Drift.drift_severity e) <= max_count l.
Proof.
  unfold max_count. set (f := fun e => counted l (Drift.drift_source_id e) (Drift.drift_severity e)).
  change (counted l (Drift.drift_source_id e) (Drift.drift_severity e)) with (f e). clearbody f.
  induction l as [|x l IH]; intros He; [by apply not_elem_of_nil in He |]. simpl.
  apply elem_of_cons in He as [->|He]; [lia |]. specialize (IH He). lia.
Qed.

Lemma max_count_reached l : l <> [] -> exists e, e ∈ l /\ max_count l = counted l (Drift.drift_source_id e) (Drift.drift_severity e).
Proof.
  unfold max_count. set (f := fun e => counted l (Drift.drift_source_id e) (Drift.drift_severity e)).
  assert (forall e, 0 <= f e) as Hf by (intros e; unfold f, counted, tally; lia).
  change (fun e => counted l (Drift.drift_source_id e) (Drift.drift_severity e)) with f.
  intros Hne. enough (exists e, e ∈ l /\ foldr Z.max 0 (map f l) = f e) as (e & ? & E) by (exists e; by rewrite E).
  clearbody f. induction l as [|x l IH]; [done |]. simpl. destruct l as [|y l].
  - exists x. split; [set_solver |]. simpl. specialize (Hf x). lia.
  - destruct IH as (e & He & E); [done |]. rewrite E. destruct (Z.max_spec (f x) (f e)) as [[_ ->]|[_ ->]];
      [exists e | exists x]; split; [set_solver | done | set_solver | done].
Qed.

Lemma tally_pos {A} (p : A -> bool) l : tally p l <> 0 -> exists x, x ∈ l /\ p x = true.
Proof.
  induction l as [|x l IH]; [done |]. rewrite count_if_cons. destruct (p x) eqn:E; intros H; [exists x; set_solver |].
  destruct IH as (y & ? & ?); [lia |]. exists y. set_solver.
Qed.

Lemma is_at_self e : is_at (Drift.drift_source_id e) (Drift.drift_severity e) e = true.
Proof. unfold is_at. by rewrite Z.eqb_refl, bool_decide_eq_true_2. Qed.

Lemma max_count_pos l e : e ∈ l -> 0 < max_count l.
Proof.
  intros He. pose proof (counted_le_max l e He) as Hm. enough (0 < counted l (Drift.drift_source_id e) (Drift.drift_severity e)) by lia.
  clear Hm. unfold counted. revert He. generalize (is_at (Drift.drift_source_id e) (Drift.drift_severity e)) (is_at_self e).
  intros p Hp. induction l as [|x l IH]; intros Hin; [by apply not_elem_of_nil in Hin |]. rewrite count_if_cons.
  pose proof (tally_bounds p l). apply elem_of_cons in Hin as [<-|Hin]; [rewrite Hp; lia |].
  specialize (IH Hin). destruct (p x); lia.
Qed.

Lemma counted_bounds l i severity : counted l i severity <> 0 -> 0 < counted l i severity <= max_count l.
Proof.
  intros H. destruct (tally_pos _ _ H) as (e & He & Hp). unfold is_at in Hp. bool_to_prop.
  subst. pose proof (counted_le_max l e He).
  assert (0 <= counted l (Drift.drift_source_id e) (Drift.drift_severity e)) by (unfold counted, tally; lia). lia.
Qed.

Lemma cells_of_elem l i source c :
  c ∈ cells_of l (i, source) <->
  cell_severity c ∈ _SEVERITY_ORDER /\ counted l i (cell_severity c) <> 0 /\
  c = Cell i (SourceRegistry.name source) (cell_severity c) (counted l i (cell_severity c))
        (py_round 4 (inject_Z (counted l i (cell_severity c)) / inject_Z (max_count l))).
Proof.
  unfold cells_of. rewrite list_elem_of_In, in_flat_map. split.
  - intros (s & Hs & Hc). cbv zeta in Hc. destruct (Z.eqb_spec (counted l i s) 0) as [|Hn]; [done |]. destruct Hc as [<-|[]].
    simpl. split; [by apply list_elem_of_In | done].
  - intros (Hs & Hn & E). exists (cell_severity c). split; [by apply list_elem_of_In |]. cbv zeta.
    rewrite (proj2 (Z.eqb_neq _ _) Hn). by left.
Qed.

(** The cells of a source carry its count in each severity. *)
Lemma cells_sum l x :
  zsum (map cell_count (cells_of l x)) = zsum (map (counted l x.1) _SEVERITY_ORDER).
Proof.
  destruct x as [i source]. unfold cells_of. simpl fst. induction _SEVERITY_ORDER as [|s ss IH]; [done |].
  simpl flat_map. rewrite map_app, zsum_app, IH. unfold zsum at 3. simpl. cbv zeta.
  destruct (Z.eqb_spec (counted l i s) 0) as [->|]; unfold zsum; simpl; lia.
Qed.

Lemma NoDup_list_prod {A B} (l : list A) (l' : list B) : NoDup l -> NoDup l' -> NoDup (list_prod l l').
Proof.
  induction 1 as [|x l Hx Hl IH]; intros Hl'; simpl; [constructor |]. apply NoDup_app. split_and!; [| | by apply IH].
  - clear -Hl'. induction Hl' as [|y l' Hy Hl' IH]; simpl; [constructor |]. constructor; [|done].
    intros (y' & [= <-] & Hin)%list_elem_of_In%in_map_iff. by apply Hy, list_elem_of_In.
  - intros [a b] (b' & [= <- <-] & _)%list_elem_of_In%in_map_iff Hin. apply Hx.
    apply list_elem_of_In, in_prod_iff in Hin as [Hin _]. by apply list_elem_of_In.
Qed.

Lemma grid_sum l (listed : list (Z * SourceRegistry.SourceProfile)) :
  NoDup (map fst listed) ->
  (forall e, e ∈ l -> Drift.drift_source_id e ∈ map fst listed /\ Drift.drift_severity e ∈ _SEVERITY_ORDER) ->
  zsum (map cell_count (flat_map (cells_of l) listed)) = zlen l.
Proof.
  intros Hnd Hl.
  transitivity (zsum (map (fun k => tally (is_at k.1 k.2) l) (list_prod (map fst listed) _SEVERITY_ORDER))).
  - clear Hnd Hl. induction listed as [|x listed IH]; [done |]. cbn [flat_map map list_prod]. rewrite !map_app, !zsum_app, cells_sum, IH.
    f_equal.
  - apply (tally_partition (fun k e => is_at k.1 k.2 e)). intros e He. destruct (Hl e He) as [Hi Hs].
    apply (tally_unique _ _ (Drift.drift_source_id e, Drift.drift_severity e)).
    + apply NoDup_list_prod; [done | apply severities_distinct].
    + apply list_elem_of_In, in_prod; by apply list_elem_of_In.
    + intros [i s] _. unfold is_at. simpl. rewrite andb_true_iff, Z.eqb_eq, bool_decide_eq_true. naive_solver.
Qed.

Lemma share_bounds n m : 0 < n <= m -> (0 <= inject_Z n / inject_Z m <= 1)%Q.
Proof.
  intros [Hn Hm]. assert (0 < inject_Z m)%Q as Hp by (change 0%Q with (inject_Z 0); rewrite <- Zlt_Qlt; lia).
  pose proof (zq_nonneg n ltac:(lia)). assert (inject_Z n <= inject_Z m)%Q by (rewrite <- Zle_Qle; lia).
  split; [apply Qle_shift_div_l | apply Qle_shift_div_r]; lra.
Qed.

(** The largest count is that of a cell, whose heat is 1. *)
Lemma hottest_cell l (listed : list (Z * SourceRegistry.SourceProfile)) :
  l <> [] ->
  (forall e, e ∈ l -> Drift.drift_source_id e ∈ map fst listed /\ Drift.drift_severity e ∈ _SEVERITY_ORDER) ->
  exists c, c ∈ flat_map (cells_of l) listed /\ (heat_value c == 1)%Q.
Proof.
  intros Hne Hl. destruct (max_count_reached l Hne) as (e & He & Em). destruct (Hl e He) as [Hi Hsev].
  apply list_elem_of_In, in_map_iff in Hi as ([i source] & Hi & Hin). simpl in Hi.
  pose proof (max_count_pos l e He) as Hpos.
  exists (Cell i (SourceRegistry.name source) (Drift.drift_severity e) (max_count l)
            (py_round 4 (inject_Z (max_count l) / inject_Z (max_count l)))). split.
  + apply list_elem_of_In, in_flat_map. exists (i, source). split; [done |]. apply list_elem_of_In, cells_of_elem. cbn.
    rewrite Hi, <- Em. split; [done |]. split; [lia | done].
  + cbn. assert (inject_Z (max_count l) / inject_Z (max_count l) == 1)%Q as E1.
    { field. intros E. apply (proj1 (inject_Z_injective _ 0)) in E. lia. }
    assert (1 <= inject_Z (max_count l) / inject_Z (max_count l) <= 1)%Q as Hb by lra.
    apply (py_round_bounds 4 1 1) in Hb. change (inject_Z 1) with 1%Q in Hb. lra.
Qed.

Lemma no_cells (listed : list (Z * SourceRegistry.SourceProfile)) : flat_map (cells_of []) listed = [].
Proof. induction listed as [|[i source] l IH]; [done |]. simpl. by rewrite IH. Qed.

(** The response without its special cases. *)
Definition heat_of (n : Z) (listed : list (Z * SourceRegistry.SourceProfile)) (l : list Drift.DriftEvent) : DriftHeatmapResponse :=
  let cs := flat_map (cells_of l) listed in
  Heat (flat_map (fun x => match cells_of l x with [] => [] | _ => [SourceRegistry.name x.2] end) listed)
    (List.filter (fun s => existsb (fun c => bool_decide (cell_severity c = s)) cs) _SEVERITY_ORDER) cs (zlen l) n.

Lemma heat_of_none n listed : heat_of n listed [] = Heat [] [] [] 0 n.
Proof.
  unfold heat_of. rewrite no_cells. f_equal. induction listed as [|[i source] l IH]; [done |]. simpl. by rewrite IH.
Qed.

Lemma heatmap_unfold now n source_ids limit sources t :
  wf_table t ->
  let listed := recent_sources (among source_ids) limit sources in
  get_drift_heatmap now n source_ids limit sources t =
  heat_of n listed (map snd (events_since (map fst listed) (_cutoff_utc_naive now n) t)).
Proof.
  intros Ht listed. unfold get_drift_heatmap. fold listed.
  assert (listed = [] -> map snd (events_since (map fst listed) (_cutoff_utc_naive now n) t) = []) as Hnil.
  { intros ->. destruct (events_since _ _ t) as [|[i e] r] eqn:E; [done |]. exfalso.
    assert ((i, e) ∈ (i, e) :: r) as Hin by apply list_elem_of_here. rewrite <- E in Hin.
    apply events_since_spec in Hin as (_ & Hin & _); [|done]. by apply not_elem_of_nil in Hin. }
  destruct listed as [|x xs]; [by rewrite (Hnil eq_refl), heat_of_none |].
  destruct (map snd _) eqn:E; [by rewrite heat_of_none | done].
Qed.

(** The heatmap accounts for the drift events of the window: where the severities
    are the known ones, the counts of the cells add up to the events of the
    listed sources in the window; a cell holds the count of its source and severity, at
    least one, with a heat between 0 and 1; and unless the map is empty some cell
    has the heat 1. *)
Theorem heatmap_adds_up now n source_ids limit sources t :
  wf_table sources -> wf_table t -> every graded t ->
  let listed := recent_sources (among source_ids) limit sources in
  let l := map snd (events_since (map fst listed) (_cutoff_utc_naive now n) t) in
  let h := get_drift_heatmap now n source_ids limit sources t in
  total_events h = zlen l /\ zsum (map cell_count (cells h)) = total_events h /\
  (forall c, c ∈ cells h ->
     cell_count c = tally (is_at (cell_source_id c) (cell_severity c)) l /\ 0 < cell_count c /\
     (0 <= heat_value c <= 1)%Q /\ cell_severity c ∈ severities h /\ cell_source_name c ∈ heat_sources h) /\
  (cells h <> [] -> exists c, c ∈ cells h /\ (heat_value c == 1)%Q).
Proof.
  intros Hs Ht Hg listed l h.
  assert (h = heat_of n listed l) as -> by (by apply heatmap_unfold).
  assert (forall e, e ∈ l -> Drift.drift_source_id e ∈ map fst listed /\ Drift.drift_severity e ∈ _SEVERITY_ORDER) as Hl.
  { intros e He. apply list_elem_of_In, in_map_iff in He as ([i e'] & <- & Hin%list_elem_of_In).
    apply events_since_spec in Hin as (Hget & Hi & _); [|done]. split; [done | by apply (Hg i)]. }
  assert (NoDup (map fst listed)) as Hnd by (by apply recent_sources_ids).
  clearbody l listed. clear Hs Hg. unfold heat_of.
  cbn [total_events cells severities heat_sources]. split_and!.
  - done.
  - by apply grid_sum.
  - intros c Hc. pose proof Hc as Hcc. apply list_elem_of_In, in_flat_map in Hc as ([i source] & Hin & Hc).
    pose proof Hc as Hc'. apply list_elem_of_In, cells_of_elem in Hc as (Hsev & Hn & E). rewrite E.
    cbn [cell_count cell_source_id cell_severity heat_value cell_source_name].
    pose proof (counted_bounds l i (cell_severity c) Hn) as Hb. split; [done |]. split; [lia |]. split.
    { apply (py_round_bounds 4 0 1). by apply share_bounds. }
    split.
    + apply list_elem_of_In, List.filter_In. split; [by apply list_elem_of_In |]. apply existsb_exists. exists c.
      split; [by apply list_elem_of_In | by apply bool_decide_eq_true].
    + apply list_elem_of_In, in_flat_map. exists (i, source). split; [done |]. destruct (cells_of l (i, source)); [done | by left].
  - intros Hne. apply hottest_cell; [|done]. intros ->. by rewrite no_cells in Hne.
Qed.

End HeatmapTheorems.

Module FreshnessTheorems.
Import ReadModels ReadModelFacts Freshness.

Lemma status_spec age threshold :
  0 <= threshold ->
  (_freshness_status age threshold = no_data <-> age = None) /\
  (_freshness_status age threshold = breached <-> exists a, age = Some a /\ threshold < a) /\
  (_freshness_status age threshold = warning <-> exists a, age = Some a /\ threshold * 3 / 4 < a <= threshold) /\
  (_freshness_status age threshold = fresh <-> exists a, age = Some a /\ a <= threshold * 3 / 4).
Proof.
  intros Ht. unfold _freshness_status. rewrite Z.quot_div_nonneg by lia. destruct age as [a|]; [|naive_solver].
  assert (threshold * 3 / 4 <= threshold) as Hd by (apply Z.div_le_upper_bound; lia).
  destruct (Z.ltb_spec threshold a), (Z.ltb_spec (threshold * 3 / 4) a); split_and!; split; try done;
    try (intros [a' [[= <-] ?]]; exfalso; lia); intros; exists a; split; try done; lia.
Qed.

(** The times of one source, in order, and what they are the times of. *)
Lemma times_perm queried cutoff t i :
  i ∈ queried ->
  times_of (snapshot_times queried cutoff t) i ≡ₚ
  map (fun x => Drift.snap_created_at x.2)
    (select (fun s => (Drift.snap_source_id s =? i) && (cutoff <=? Drift.snap_created_at s)) t).
Proof.
  intros Hi. unfold times_of, snapshot_times.
  rewrite (Permutation_map snd (filter_perm _ _ _ (order_by_perm _ _))). unfold select.
  induction (rows t) as [|[j s] l IH]; simpl; [done |].
  destruct (Z.eqb_spec (Drift.snap_source_id s) i) as [E|E]; simpl.
  - rewrite bool_decide_eq_true_2 by (by rewrite E). simpl. destruct (cutoff <=? Drift.snap_created_at s); simpl; [|done].
    rewrite (proj2 (Z.eqb_eq _ _) E). simpl. by constructor.
  - destruct (bool_decide _ && _); simpl; [|done]. by rewrite (proj2 (Z.eqb_neq _ _) E).
Qed.

Lemma times_sorted queried cutoff t i : StronglySorted Z.le (times_of (snapshot_times queried cutoff t) i).
Proof.
  unfold times_of, snapshot_times. set (l := order_by pair_le _).
  assert (StronglySorted (fun x y => pair_le x y = true) l) as Hs.
  { apply order_by_sorted; unfold pair_le.
    - intros x y. destruct (Z.eqb_spec x.1 y.1), (Z.eqb_spec y.1 x.1); rewrite ?Z.leb_le, ?Z.ltb_lt; lia.
    - intros x y z. destruct (Z.eqb_spec x.1 y.1), (Z.eqb_spec y.1 z.1), (Z.eqb_spec x.1 z.1); rewrite ?Z.leb_le, ?Z.ltb_lt; lia. }
  clearbody l. induction Hs as [|x l Hs IH Hx]; simpl; [constructor |]. destruct (Z.eqb_spec x.1 i) as [E|]; [|done]. simpl.
  constructor; [done |]. apply List.Forall_map, List.Forall_forall. intros y [Hy Ey]%List.filter_In. apply Z.eqb_eq in Ey.
  rewrite List.Forall_forall in Hx. specialize (Hx y Hy). unfold pair_le in Hx. rewrite E, Ey, Z.eqb_refl in Hx. by apply Z.leb_le.
Qed.

Lemma last_max l a : StronglySorted Z.le l -> last l = Some a -> a ∈ l /\ Forall (fun x => x <= a) l.
Proof.
  induction 1 as [|x l Hs IH Hx]; [done |]. destruct l as [|y l]; simpl.
  - intros [= ->]. split; [set_solver | by repeat constructor].
  - intros Hl. destruct (IH Hl) as [Ha Hall]. split; [set_solver |]. constructor; [|done].
    rewrite List.Forall_forall in Hx. apply Hx. by apply list_elem_of_In.
Qed.

(** *** Gaps *)

(** A closed gap is two neighbours further apart than the threshold. *)
Lemma closed_gaps_spec i name threshold snaps g :
  g ∈ closed_gaps i name threshold snaps <->
  exists l1 l2 a b, snaps = l1 ++ a :: b :: l2 /\ threshold < total_seconds (b - a) /\
    g = Gap i name a (Some b) (total_seconds (b - a)) false.
Proof.
  induction snaps as [|a snaps IH].
  { split; [by intros ?%not_elem_of_nil | intros (l1 & l2 & a & b & E & _); by destruct l1]. }
  destruct snaps as [|b snaps].
  { split; [by intros ?%not_elem_of_nil |]. intros (l1 & l2 & a' & b & E & _). by destruct l1 as [|? [|? ?]]. }
  change (closed_gaps i name threshold (a :: b :: snaps)) with
    ((if threshold <? total_seconds (b - a) then [Gap i name a (Some b) (total_seconds (b - a)) false] else []) ++
     closed_gaps i name threshold (b :: snaps)).
  rewrite elem_of_app, IH. split.
  - intros [H|(l1 & l2 & a' & b' & E & ? & ?)].
    + destruct (Z.ltb_spec threshold (total_seconds (b - a))); [|by apply not_elem_of_nil in H].
      apply list_elem_of_singleton in H as ->. by exists [], snaps, a, b.
    + exists (a :: l1), l2, a', b'. by rewrite E.
  - intros (l1 & l2 & a' & b' & E & Hlt & ->). destruct l1 as [|x l1]; simpl in E.
    + injection E as <- <- <-. left. rewrite (proj2 (Z.ltb_lt _ _) Hlt). set_solver.
    + injection E as <- E. right. by exists l1, l2, a', b'.
Qed.

Section Queried.
Context (name_le : string -> string -> bool).

Lemma named_elem source_ids limit t i p :
  wf_table t -> (i, p) ∈ named_sources name_le source_ids limit t -> get i t = Some p /\ SourceRegistry.present p = true.
Proof.
  intros Hwf Hin%elem_of_take_1. rewrite order_by_perm in Hin. apply list_elem_of_In, List.filter_In in Hin as [Hin _].
  by apply select_spec in Hin.
Qed.

Lemma sla_unfold now n source_ids limit hours sources t :
  get_freshness_sla name_le now n source_ids limit hours sources t =
  let listed := named_sources name_le source_ids limit sources in
  let out := map (row_of now (now - days n) (hours * 3600) (times_of (snapshot_times (map fst listed) (now - days n) t))) listed in
  let rows := map fst out in
  SLA rows (order_by latest_start (flat_map snd out))
    (tally (has breached) rows) (tally (fun r => has fresh r || has warning r) rows) (tally (has no_data) rows) n hours.
Proof. unfold get_freshness_sla. by destruct (named_sources _ _ _ _). Qed.

Lemma sla_row now n source_ids limit hours sources t r :
  r ∈ sla_sources (get_freshness_sla name_le now n source_ids limit hours sources t) ->
  exists source snaps,
    (row_source_id r, source) ∈ named_sources name_le source_ids limit sources /\
    snaps ≡ₚ map (fun x => Drift.snap_created_at x.2) (select (fun s => (Drift.snap_source_id s =? row_source_id r) &&
               (now - days n <=? Drift.snap_created_at s)) t) /\
    StronglySorted Z.le snaps /\ r = (row_of now (now - days n) (hours * 3600) (fun _ => snaps) (row_source_id r, source)).1.
Proof.
  rewrite sla_unfold. cbn [sla_sources]. set (listed := named_sources _ _ _ _). rewrite list_elem_of_In, map_map, in_map_iff.
  intros ([i source] & <- & Hin). change (row_source_id (row_of _ _ _ _ (i, source)).1) with i. exists source.
  exists (times_of (snapshot_times (map fst listed) (now - days n) t) i). split; [by apply list_elem_of_In |].
  split; [apply times_perm, list_elem_of_In; change i with (i, source).1; by apply in_map |].
  split; [apply times_sorted | done].
Qed.

(** Freshness is judged by the newest snapshot of the window: a row with data names
    the newest creation time among its source's snapshots of the window, and is breached,
    in warning or fresh as its age in whole seconds is above the threshold, above
    three quarters of it, or neither; a row without data has none in the window; and the
    three totals count every row. *)
Theorem freshness_judges_newest now n source_ids limit hours sources t :
  1 <= hours ->
  let f := get_freshness_sla name_le now n source_ids limit hours sources t in
  total_breached f + total_ok f + total_no_data f = zlen (sla_sources f) /\
  forall r, r ∈ sla_sources f ->
    let times := map (fun x => Drift.snap_created_at x.2) (select (fun s => (Drift.snap_source_id s =? row_source_id r) &&
               (now - days n <=? Drift.snap_created_at s)) t) in
    (row_status r = no_data <-> times = []) /\ total_snapshots r = zlen times /\
    (row_status r <> no_data -> exists a, last_snapshot_at r = Some a /\ a ∈ times /\ Forall (fun x => x <= a) times /\
       let age := total_seconds (now - a) in
       (row_status r = breached <-> hours * 3600 < age) /\
       (row_status r = warning <-> hours * 2700 < age <= hours * 3600) /\
       (row_status r = fresh <-> age <= hours * 2700)).
Proof.
  intros Hh. cbv zeta. split.
  - rewrite sla_unfold. cbn [total_breached total_ok total_no_data sla_sources]. generalize (map fst (map (row_of now (now - days n) (hours * 3600)
      (times_of (snapshot_times (map fst (named_sources name_le source_ids limit sources)) (now - days n) t)))
      (named_sources name_le source_ids limit sources))) as l.
    induction l as [|r l IH]; [done |]. rewrite !count_if_cons. unfold zlen in *. simpl length. unfold has in *.
    destruct (row_status r); simpl; lia.
  - intros r Hr. destruct (sla_row _ _ _ _ _ _ _ _ Hr) as (source & snaps & Hin & Hp & Hs & E).
    set (times := map _ _) in *. rewrite E. unfold row_of. cbn [fst row_status total_snapshots last_snapshot_at].
    destruct (status_spec ((fun a => total_seconds (now - a)) <$> last snaps) (hours * 3600) ltac:(lia)) as (S1 & S2 & S3 & S4).
    assert (hours * 3600 * 3 / 4 = hours * 2700) as Eq by (rewrite <- (Z.div_mul (hours * 2700) 4) by lia; f_equal; lia).
    rewrite Eq in *. split; [|split].
    + rewrite S1. destruct (last snaps) as [a|] eqn:El; simpl.
      * split; [done |]. intros Et. apply last_max in El as [Ha _]; [|done]. rewrite Hp, Et in Ha. by apply not_elem_of_nil in Ha.
      * split; [|done]. intros _. apply last_None in El. rewrite El in Hp. by apply Permutation_nil_l in Hp.
    + unfold zlen. by rewrite Hp.
    + intros Hd. rewrite S1 in Hd. destruct (last snaps) as [a|] eqn:El; [|done]. exists a. simpl in *.
      apply last_max in El as [Ha Hall]; [|done]. rewrite Hp in Ha, Hall. split; [done |]. split; [done |]. split; [done |].
      split; [|split]; [rewrite S2 | rewrite S3 | rewrite S4]; (split; [by intros (? & [= <-] & ?) | intros; by exists (total_seconds (now - a))]).
Qed.

Lemma closed_not_open i name threshold snaps : tally is_open (closed_gaps i name threshold snaps) = 0.
Proof.
  induction snaps as [|a [|b snaps] IH]; [done | done |]. cbn [closed_gaps] in *.
  destruct (threshold <? total_seconds (b - a)); [|exact IH]. cbn [app]. by rewrite count_if_cons.
Qed.

Lemma count_if_app {A} (p : A -> bool) l l' : tally p (l ++ l') = tally p l + tally p l'.
Proof. unfold tally. rewrite count_app. lia. Qed.

(** The open incidents are the breaches. *)
Lemma open_incidents_are_breaches now n source_ids limit hours sources t :
  let f := get_freshness_sla name_le now n source_ids limit hours sources t in
  tally is_open (sla_incidents f) = total_breached f.
Proof.
  cbv zeta. rewrite sla_unfold. cbn [sla_incidents total_breached]. rewrite (tally_perm _ _ _ (order_by_perm _ _)).
  set (snaps_of := times_of _). clearbody snaps_of. induction (named_sources _ _ _ _) as [|[i source] l IH]; [done |].
  cbn [map flat_map]. rewrite count_if_app, count_if_cons, IH. f_equal. cbn [row_of fst snd].
  rewrite count_if_app, closed_not_open. unfold has, open_gap. cbn [row_status].
  destruct (decide (_ = breached)) as [->|Hne]; [done |]. by rewrite bool_decide_eq_false_2.
Qed.

(** A window no longer than the threshold hides every breach: no row is breached and
    no incident is open, however old the newest snapshot of a source is, since the
    snapshots looked at are never older than the window. *)
Theorem short_window_hides_breaches now n source_ids limit hours sources t :
  0 <= n -> n * 24 <= hours -> 1 <= hours ->
  let f := get_freshness_sla name_le now n source_ids limit hours sources t in
  total_breached f = 0 /\ (forall r, r ∈ sla_sources f -> row_status r <> breached) /\
  tally is_open (sla_incidents f) = 0.
Proof.
  intros Hn0 Hn Hh. cbv zeta.
  assert (forall r, r ∈ sla_sources (get_freshness_sla name_le now n source_ids limit hours sources t) -> row_status r <> breached) as Hr.
  { intros r Hr Hb. destruct (sla_row _ _ _ _ _ _ _ _ Hr) as (source & snaps & _ & Hp & Hs & E). rewrite E in Hb.
    apply (status_spec _ (hours * 3600) ltac:(lia)) in Hb as (a & Ha & Hlt). destruct (last snaps) as [m|] eqn:El; [|done].
    injection Ha as <-. apply last_max in El as [Hm _]; [|done]. rewrite Hp in Hm.
    apply list_elem_of_In, in_map_iff in Hm as ([j s] & <- & Hin). apply List.filter_In in Hin as [_ Hin].
    simpl in *. bool_to_prop. unfold total_seconds in Hlt. unfold days, seconds in *.
    assert (Z.quot (now - Drift.snap_created_at s) 1000000 <= n * 86400); [|lia].
    transitivity (Z.quot (n * 86400 * 1000000) 1000000); [apply Z.quot_le_mono; lia | rewrite Z.quot_mul; lia]. }
  rewrite open_incidents_are_breaches. split_and!; [| done |]; revert Hr; rewrite sla_unfold; cbn [total_breached sla_sources];
    generalize (map fst (map (row_of now (now - days n) (hours * 3600)
      (times_of (snapshot_times (map fst (named_sources name_le source_ids limit sources)) (now - days n) t)))
      (named_sources name_le source_ids limit sources))) as l;
    induction l as [|r l IH]; intros Hr; try done; rewrite count_if_cons, IH by (intros r' ?; apply Hr; set_solver);
    unfold has; rewrite bool_decide_eq_false_2; [done | apply Hr; set_solver | done | apply Hr; set_solver].
Qed.

End Queried.

End FreshnessTheorems.

Module CostTheorems.
Import ReadModels ReadModelFacts CostValue.

Lemma py_round_zero n q : (q == 0)%Q -> (py_round n q == 0)%Q.
Proof.
  intros H. destruct (py_round_bounds n 0 0 q) as [? ?]; change (inject_Z 0) with 0%Q in *; lra.
Qed.

Lemma cost_per_zero c n : (c == 0)%Q -> cost_per c n = None.
Proof.
  intros H. unfold cost_per. destruct (Qltb 0 c) eqn:E; bool_to_prop; [lra |]. by rewrite andb_false_r.
Qed.

Record row_free (r : CostValueRow) : Prop := {
  free_cost : (total_cost_usd r == 0)%Q;
  free_observation : cost_per_observation_usd r = None;
  free_insight : cost_per_insight_usd r = None;
  free_team : owner_team r = None;
  free_success : 0 <= successful_observations r <= total_calls r
}.

Lemma rows_free snaps drifts x : row_free (row_for snaps drifts x).
Proof.
  destruct x as [i source]. assert (forall k : Z, (py_round 6 (0 * inject_Z k) == 0)%Q) as Hz by (intros k; apply py_round_zero; lra).
  split; simpl; try done; try (apply cost_per_zero, Hz).
  set (l := List.filter _ snaps).
  pose proof (tally_bounds (fun s : Z * Drift.ContractSnapshot =>
    bool_decide (s.1 ∈ map Drift.current_snapshot_id (List.filter Metrics.is_breaking drifts))) l). lia.
Qed.

Lemma dearer_total x y : dearer x y = true \/ dearer y x = true.
Proof.
  unfold dearer. repeat case_match; bool_to_prop; try (left; done); try (right; done); try lra. rewrite !Z.leb_le. lia.
Qed.

Lemma dearer_trans x y z : dearer x y = true -> dearer y z = true -> dearer x z = true.
Proof.
  unfold dearer. repeat case_match; bool_to_prop; try done; try lra; intros; rewrite ?Z.leb_le in *; lia || lra.
Qed.

(** Rows without a cost are in the order of their sources. *)
Lemma free_sorted l :
  Forall row_free l -> StronglySorted (fun x y => dearer x y = true) l -> StronglySorted Z.le (map cost_source_id l).
Proof.
  intros Hf Hs. induction Hs as [|x l Hs IH Hx]; simpl; [constructor |]. inversion Hf as [|? ? Hfx Hfl]; subst.
  constructor; [by apply IH |]. apply List.Forall_map, List.Forall_forall. intros y Hy.
  rewrite List.Forall_forall in Hx, Hfl. specialize (Hx y Hy). specialize (Hfl y Hy). unfold dearer in Hx.
  destruct Hfx as [E1 _ _ _ _], Hfl as [E2 _ _ _ _]. repeat case_match; bool_to_prop; try done; lra || by apply Z.leb_le.
Qed.

Lemma one_team l c calls insights :
  Forall row_free l -> (c == 0)%Q ->
  exists c', (c' == 0)%Q /\
    foldl (fun l row => add_to_team (team_of row) row l) [("unassigned", (c, calls, insights))] l =
    [("unassigned", (c', calls + zsum (map total_calls l), insights + zsum (map insights_generated l)))].
Proof.
  intros Hl. revert c calls insights. induction Hl as [|r l Hr Hl IH]; intros c calls insights Hc.
  - exists c. split; [done |]. simpl. unfold zsum. simpl. by rewrite !Z.add_0_r.
  - destruct Hr as [E1 _ _ E2 _].
    assert (py_round 6 (c + total_cost_usd r) == 0)%Q as Hc' by (apply py_round_zero; lra).
    destruct (IH _ (calls + total_calls r) (insights + insights_generated r) Hc') as (c' & ? & E). exists c'. split; [done |].
    cbn [foldl]. assert (team_of r = "unassigned") as -> by (unfold team_of; by rewrite E2).
    cbn [add_to_team]. rewrite decide_True by done. rewrite E. unfold zsum. simpl. by rewrite !Z.add_assoc.
Qed.

(** The totals of the teams: one team, with every row. *)
Lemma teams_of_free l :
  Forall row_free l -> l <> [] ->
  exists c, (c == 0)%Q /\
    map summary_of (team_totals l) = [Team "unassigned" c (zsum (map total_calls l)) (zsum (map insights_generated l)) None].
Proof.
  intros Hl Hne. destruct Hl as [|r l Hr Hl]; [done |]. unfold team_totals. cbn [foldl]. destruct Hr as [E1 _ _ E2 _].
  assert (team_of r = "unassigned") as -> by (unfold team_of; by rewrite E2). cbn [add_to_team].
  assert (py_round 6 (0 + total_cost_usd r) == 0)%Q as Hc by (apply py_round_zero; lra).
  destruct (one_team l _ (0 + total_calls r) (0 + insights_generated r) Hl Hc) as (c & Ec & E). exists c. split; [done |].
  rewrite E. simpl. rewrite cost_per_zero by done. unfold zsum. simpl. done.
Qed.

Lemma chart_unfold now n source_ids limit sources t evs :
  let listed := recent_sources (among source_ids) limit sources in
  let cutoff := _cutoff_utc_naive now n in
  let rows := order_by dearer (map (row_for
    (select (fun s => bool_decide (Drift.snap_source_id s ∈ map fst listed) && (cutoff <=? Drift.snap_created_at s)) t)
    (map snd (events_since (map fst listed) cutoff evs))) listed) in
  listed <> [] ->
  get_cost_value_chart now n source_ids limit sources t evs =
  Costs rows (order_by dearer_team (map summary_of (team_totals rows))) (py_round 6 (qsum (map total_cost_usd rows))) n.
Proof. intros listed cutoff rows Hne. unfold get_cost_value_chart. fold listed. by destruct listed. Qed.

Lemma chart_rows_free now n source_ids limit sources t evs :
  Forall row_free (cost_rows (get_cost_value_chart now n source_ids limit sources t evs)).
Proof.
  destruct (decide (recent_sources (among source_ids) limit sources = [])) as [E|E].
  - unfold get_cost_value_chart. rewrite E. constructor.
  - rewrite chart_unfold by done. cbn [cost_rows]. apply List.Forall_forall. intros r Hr%list_elem_of_In.
    rewrite order_by_perm in Hr. apply list_elem_of_In, in_map_iff in Hr as (x & <- & _). apply rows_free.
Qed.

(** The cost chart knows no cost: every row, the grand total and every team total are 0,
    no ratio of cost is ever given, the successful calls of a row are between 0 and its
    calls, the rows come in the order of their ids whatever the sources did, and the teams
    are one, "unassigned", with the calls and the insights of all rows. *)
Theorem costs_are_zero now n source_ids limit sources t evs :
  let c := get_cost_value_chart now n source_ids limit sources t evs in
  Forall row_free (cost_rows c) /\ (grand_total_usd c == 0)%Q /\
  StronglySorted Z.le (map cost_source_id (cost_rows c)) /\
  (cost_rows c = [] /\ team_summaries c = [] \/
   exists cost, (cost == 0)%Q /\ team_summaries c =
     [Team "unassigned" cost (zsum (map total_calls (cost_rows c))) (zsum (map insights_generated (cost_rows c))) None]).
Proof.
  cbv zeta. pose proof (chart_rows_free now n source_ids limit sources t evs) as Hf.
  destruct (decide (recent_sources (among source_ids) limit sources = [])) as [E|E].
  - unfold get_cost_value_chart in *. rewrite E in *. split_and!; [constructor | reflexivity | constructor | by left].
  - rewrite (chart_unfold now n source_ids limit sources t evs E) in *. cbn [cost_rows grand_total_usd team_summaries] in *.
    set (rows := order_by dearer _) in *.
    assert (rows <> []) as Hne.
    { intros Er. apply (f_equal length) in Er. unfold rows in Er. rewrite order_by_length, length_map in Er. by destruct (recent_sources _ _ _). }
    assert (StronglySorted (fun x y => dearer x y = true) rows) as Hs by (apply order_by_sorted; [apply dearer_total | apply dearer_trans]).
    clearbody rows. split_and!; [done | | by apply free_sorted |].
    + apply py_round_zero. clear -Hf. unfold qsum. induction Hf as [|r l [Hr _ _ _ _] _ IH]; simpl; [done | lra].
    + right. destruct (teams_of_free rows Hf Hne) as (c & Hc & ->). exists c. by split.
Qed.

End CostTheorems.

Module PresetTheorems.
Import ReadModels Presets.

(** An export takes the format asked for, or JSON where none is named, and is complete
    at once; its id is the second of its creation: two exports made within a second have
    one id, whatever they export. *)
Theorem exports_of_a_second timestamp now now' p p' f f' :
  (0 <= timestamp now)%Q -> (timestamp now <= timestamp now')%Q ->
  let a := create_export_job timestamp now p f in
  let b := create_export_job timestamp now' p' f' in
  export_status a = "completed" /\ export_preset_id a = p /\
  (f <> EmptyString -> export_format a = f) /\ (f = EmptyString -> export_format a = "json") /\
  (export_id a = export_id b <-> Qfloor (timestamp now) = Qfloor (timestamp now')).
Proof.
  intros H0 H1. cbv zeta. unfold create_export_job. cbn [export_status export_preset_id export_format export_id].
  split_and!; [done | done | by destruct f | by intros -> |].
  destruct (Qltb (timestamp now) 0) eqn:E1; bool_to_prop; [lra |]. destruct (Qltb (timestamp now') 0) eqn:E2; bool_to_prop; [lra |].
  split; [|by intros ->]. intros E. apply str_of_Z_inj. by injection E.
Qed.

End PresetTheorems.

(** ** Witnesses *)

Module ReportingWitnesses.
Import ReadModels.

(** Day 10; two sources, drifts on days 8 and 9 and an old one. *)
Definition day (n : Z) : datetime := days n.

Definition source_named (name : string) (created : Z) : SourceRegistry.SourceProfile :=
  SourceRegistry.Profile name "https://example.org" "/health" 60 true None (Some 200%Q) 3 900 "none" None "X-API-Key"
    None created None None.

Definition sources : profiles := Table [(1, source_named "alpha" 10); (2, source_named "beta" 20)] 3.

Definition drift_at (i current : Z) (typ sev : string) (score : Q) (at_ : datetime) : Drift.DriftEvent :=
  Drift.Drift i (current - 1) current typ sev ([], [], []) score "" at_.

Definition drifts : events := Table
  [(1, drift_at 1 2 "breaking" "critical" 10 (day 1)); (2, drift_at 1 4 "non_breaking" "low" 98 (day 8));
   (3, drift_at 1 5 "breaking" "high" 60 (day 9)); (4, drift_at 2 6 "non_breaking" "low" 96 (day 9));
   (5, drift_at 2 7 "non_breaking" "low" 96 (day 9))] 6.

Definition snapshot_at (i : Z) (at_ : datetime) : Drift.ContractSnapshot := Drift.Snapshot i None [] "f" 100 None at_.

Definition snapshots : Freshness.snapshots := Table
  [(1, snapshot_at 1 (day 5)); (2, snapshot_at 1 (day 9)); (3, snapshot_at 1 (day 10 - seconds 3600)); (4, snapshot_at 2 (day 2))] 5.

Lemma sources_wf : wf_table sources.
Proof. split; repeat constructor. Qed.

Lemma drifts_wf : wf_table drifts.
Proof. split; repeat constructor. Qed.

Lemma drifts_scored : every MetricTheorems.scored drifts.
Proof.
  intros i r H. unfold get in H. simpl in H.
  repeat (case_match; [injection H as <-; split; vm_compute; discriminate |]). done.
Qed.

Lemma drifts_graded : every HeatmapTheorems.graded drifts.
Proof.
  intros i r H. unfold get in H. simpl in H. unfold HeatmapTheorems.graded, Heatmap._SEVERITY_ORDER.
  repeat (case_match; [injection H as <-; simpl; set_solver |]). done.
Qed.

Example cohort_rows :
  map (fun r => (Metrics.cohort_source_id r, Metrics.rank r, Metrics.sample_size r, Qred (Metrics.avg_compatibility_score r),
                 Qred (Metrics.breaking_rate_pct r), Qred (Metrics.avg_sla_gap_ms r)))
    (Metrics.list_cohort_reports (day 10) 7 10 sources drifts) =
  [(2, 1, 2, 96%Q, 0%Q, 8%Q); (1, 2, 2, 79%Q, 50%Q, 42%Q)].
Proof. vm_compute. reflexivity. Qed.

Example heat_cells :
  map (fun c => (Heatmap.cell_source_id c, Heatmap.cell_severity c, Heatmap.cell_count c, Qred (Heatmap.heat_value c)))
    (Heatmap.cells (Heatmap.get_drift_heatmap (day 10) 7 None 10 sources drifts)) =
  [(2, "low", 2, 1%Q); (1, "high", 1, (1 # 2)%Q); (1, "low", 1, (1 # 2)%Q)].
Proof. vm_compute. reflexivity. Qed.

Example freshness_rows :
  let f := Freshness.get_freshness_sla String.leb (day 10) 7 None 10 24 sources snapshots in
  map (fun r => (Freshness.row_source_id r, Freshness.row_status r, Freshness.incident_count r)) (Freshness.sla_sources f) =
    [(1, Freshness.fresh, 1); (2, Freshness.no_data, 0)].
Proof. vm_compute. reflexivity. Qed.

Lemma cohorts_ranked_witness :
  let l := Metrics.list_cohort_reports (day 10) 7 10 sources drifts in
  length l = 2%nat /\ map Metrics.rank l = [1; 2] /\
  Forall (MetricTheorems.cohort_row_ok (day 10) 7 sources drifts) l.
Proof.
  cbv zeta. split; [vm_compute; reflexivity |].
  destruct (MetricTheorems.cohorts_ranked (day 10) 7 10 sources drifts sources_wf drifts_wf drifts_scored) as (H & _ & _ & _ & Hok).
  split; [exact H | exact Hok].
Defined.

Lemma series_are_scores_witness :
  (length (Metrics.list_metric_series (day 10) 7 None 10 sources drifts) <= 10)%nat.
Proof. apply (MetricTheorems.series_are_scores (day 10) 7 None 10 sources drifts sources_wf). Defined.

Lemma heatmap_adds_up_witness :
  let h := Heatmap.get_drift_heatmap (day 10) 7 (Some [1; 2]) 10 sources drifts in
  Heatmap.total_events h = 4 /\ zsum (map Heatmap.cell_count (Heatmap.cells h)) = Heatmap.total_events h.
Proof.
  cbv zeta. split; [vm_compute; reflexivity |].
  apply (HeatmapTheorems.heatmap_adds_up (day 10) 7 (Some [1; 2]) 10 sources drifts sources_wf drifts_wf drifts_graded).
Defined.

Lemma freshness_judges_newest_witness :
  let f := Freshness.get_freshness_sla String.leb (day 10) 7 None 10 24 sources snapshots in
  Freshness.total_breached f + Freshness.total_ok f + Freshness.total_no_data f = 2.
Proof.
  cbv zeta. etransitivity; [apply (FreshnessTheorems.freshness_judges_newest String.leb (day 10) 7 None 10 24 sources snapshots); lia |].
  vm_compute. reflexivity.
Defined.

Lemma short_window_hides_breaches_witness :
  Freshness.total_breached (Freshness.get_freshness_sla String.leb (day 10) 7 None 10 168 sources snapshots) = 0.
Proof. apply (FreshnessTheorems.short_window_hides_breaches String.leb (day 10) 7 None 10 168 sources snapshots); lia. Defined.

Lemma exports_of_a_second_witness :
  let ts (d : datetime) := (inject_Z d / inject_Z 1000000)%Q in
  Presets.export_id (Presets.create_export_job ts 1500000 "ops-scorecard" "csv") =
  Presets.export_id (Presets.create_export_job ts 1900000 "exec-weekly-summary" "json").
Proof.
  cbv zeta. apply (PresetTheorems.exports_of_a_second (fun d => inject_Z d / inject_Z 1000000)%Q 1500000 1900000
    "ops-scorecard" "exec-weekly-summary" "csv" "json"); vm_compute; first [discriminate | reflexivity].
Defined.

End ReportingWitnesses.
