(* ===== verification/Executive.v ===== *)
(** * Executive summary (repositories/reporting_executive.py)

    The weekly summary built from the cohort, freshness and cost reports.  The three run
    under [asyncio.gather] and each reads the clock: their instants are arguments. *)

From S2P Require Import Prelude Db SourceRegistry ContractDrift ReadModels Reporting.

Module Executive.
Import ReadModels.

(** The priorities the code gives; [_ACTION_PRIORITY_ORDER] is [priority_rank]. *)
Inductive action_priority := critical | high | medium | low.

#[global] Instance action_priority_eq_dec : EqDecision action_priority.
Proof. solve_decision. Defined.

Definition priority_rank (p : action_priority) : Z :=
  match p with critical => 0 | high => 1 | medium => 2 | low => 3 end.

Record ActionItem := Action {
  action_priority_of : action_priority;
  category : string;
  action_title : string;
  action_description : string;
  action_source_id : option Z;
  action_source_name : option string
}.

Record DriftSummarySection := DriftSummary {
  total_sources_with_drift : Z;
  drift_total_events : Z;
  drift_avg_compatibility : Q;
  breaking_source_count : Z
}.

Record FreshnessSummarySection := FreshnessSummary {
  fresh_total_sources : Z;
  fresh_breached : Z;
  fresh_warning : Z;
  fresh_ok : Z;
  fresh_no_data : Z;
  open_incidents : Z
}.

Record CostSummarySection := CostSummary {
  summary_total_cost_usd : Q;
  cost_total_sources : Z;
  avg_cost_per_insight_usd : option Q;
  highest_cost_source_name : option string
}.

Record ExecutiveSummaryResponse := Summary {
  summary_generated_at : datetime;
  summary_window_days : Z;
  drift : DriftSummarySection;
  freshness : FreshnessSummarySection;
  cost : CostSummarySection;
  action_items : list ActionItem;
  total_actions : Z
}.

Definition drift_section (cohorts : list Metrics.CohortReport) : DriftSummarySection :=
  let with_drift := List.filter (fun c => 0 <? Metrics.sample_size c) cohorts in
  let avg_compat :=
    match with_drift with
    | [] => 100%Q
    | _ => (qsum (map Metrics.avg_compatibility_score with_drift) / qlen with_drift)%Q
    end in
  DriftSummary (zlen with_drift) (zsum (map Metrics.sample_size with_drift)) (py_round 2 avg_compat)
    (tally (fun c => Qltb 0 (Metrics.breaking_rate_pct c)) cohorts).

Definition freshness_section (f : Freshness.FreshnessSLAResponse) : FreshnessSummarySection :=
  FreshnessSummary (zlen (Freshness.sla_sources f)) (Freshness.total_breached f)
    (tally (Freshness.has Freshness.warning) (Freshness.sla_sources f)) (Freshness.total_ok f)
    (Freshness.total_no_data f) (tally Freshness.is_open (Freshness.sla_incidents f)).

Definition cost_section (c : CostValue.CostValueResponse) : CostSummarySection :=
  let with_spend := List.filter (fun r => Qltb 0 (CostValue.total_cost_usd r)) (CostValue.cost_rows c) in
  let insights := zsum (map CostValue.insights_generated with_spend) in
  CostSummary (CostValue.grand_total_usd c) (zlen (CostValue.cost_rows c))
    (match with_spend with
     | [] => None
     | _ =>
         if 0 <? insights
         then Some (py_round 6 (qsum (map CostValue.total_cost_usd with_spend) / inject_Z insights))
         else None
     end)
    (CostValue.cost_source_name <$> head (CostValue.cost_rows c)).

(** ** Actions *)

Definition drift_action (c : Metrics.CohortReport) : list ActionItem :=
  let rate := Metrics.breaking_rate_pct c in
  let score := Metrics.avg_compatibility_score c in
  if Qle_bool 30 rate then
    [Action high "drift" ("High breaking drift rate: " +:+ Metrics.cohort_name c)
       (fixed 1 rate +:+ "% of schema events were breaking (avg compatibility score: " +:+ fixed 1 score +:+
        "). Review schema evolution policy and add compatibility gates.") (Some (Metrics.cohort_source_id c)) None]
  else if Qltb 0 rate && Qltb score 70 then
    [Action medium "drift" ("Schema drift detected: " +:+ Metrics.cohort_name c)
       ("Compatibility score is " +:+ fixed 1 score +:+ " with " +:+ fixed 1 rate +:+
        "% breaking rate. Investigate upstream schema changes.") (Some (Metrics.cohort_source_id c)) None]
  else [].

Definition freshness_action (hours : Z) (r : Freshness.FreshnessSourceRow) : list ActionItem :=
  let age := match Freshness.age_seconds r with Some a => a | None => 0 end in
  let hours_stale := age / 3600 in
  let item p title text := [Action p "freshness" title text (Some (Freshness.row_source_id r)) (Some (Freshness.row_source_name r))] in
  if decide (Freshness.row_status r = Freshness.breached) then
    item critical ("SLA breach: " +:+ Freshness.row_source_name r)
      ("No fresh data received for " +:+ str_of_Z hours_stale +:+ "h (threshold: " +:+ str_of_Z hours +:+
       "h). Check ingestion pipeline and upstream API availability.")
  else if decide (Freshness.row_status r = Freshness.warning) then
    item medium ("Freshness warning: " +:+ Freshness.row_source_name r)
      ("Last snapshot is " +:+ str_of_Z hours_stale +:+ "h old, approaching the " +:+ str_of_Z hours +:+
       "h SLA threshold. Monitor ingestion frequency.")
  else [].

Definition cost_actions (rows : list CostValue.CostValueRow) : list ActionItem :=
  let prices := omap CostValue.cost_per_insight_usd rows in
  match prices with
  | [] => []
  | p :: ps =>
      let max_cpi := foldl (fun m q => if Qltb m q then q else m) p ps in
      flat_map (fun r =>
        match CostValue.cost_per_insight_usd r with
        | Some q =>
            if Qle_bool (max_cpi * (8 # 10)) q then
              [Action low "cost" ("High cost-per-insight: " +:+ CostValue.cost_source_name r)
                 ("$" +:+ fixed 4 q +:+ " per insight with $" +:+ fixed 4 (CostValue.total_cost_usd r) +:+
                  " total spend in window. Consider optimising polling frequency or schema validation logic.")
                 (Some (CostValue.cost_source_id r)) (Some (CostValue.cost_source_name r))]
            else []
        | None => []
        end) rows
  end.

(** The sort key [(priority, source_id or 0)]. *)
Definition action_before (x y : ActionItem) : bool :=
  let id a := match action_source_id a with Some i => i | None => 0 end in
  let p a := priority_rank (action_priority_of a) in
  if p x =? p y then id x <=? id y else p x <? p y.

Definition actions_for (hours : Z) (cohorts : list Metrics.CohortReport) (f : Freshness.FreshnessSLAResponse)
    (c : CostValue.CostValueResponse) : list ActionItem :=
  order_by action_before
    (flat_map drift_action cohorts ++ flat_map (freshness_action hours) (Freshness.sla_sources f) ++
     cost_actions (CostValue.cost_rows c)).

(** The instants at which the reports read the clock, and the summary is made. *)
Record clocks := Clocks { at_cohorts : datetime; at_freshness : datetime; at_cost : datetime; at_summary : datetime }.

Definition get_executive_summary (name_le : string -> string -> bool) (at_ : clocks) (n : Z) (limit : nat) (hours : Z)
    (max_actions : nat) (sources : profiles) (t : CostValue.snapshots) (evs : events) : ExecutiveSummaryResponse :=
  let cohorts := Metrics.list_cohort_reports (at_cohorts at_) n limit sources evs in
  let f := Freshness.get_freshness_sla name_le (at_freshness at_) n None limit hours sources t in
  let c := CostValue.get_cost_value_chart (at_cost at_) n None limit sources t evs in
  let actions := take max_actions (actions_for hours cohorts f c) in
  Summary (at_summary at_) n (drift_section cohorts) (freshness_section f) (cost_section c) actions (zlen actions).

Definition REPORTING_EXEC_SUMMARY_MAX_ACTIONS : nat := 20.

End Executive.

(** ** Theorems *)

Module ExecutiveTheorems.
Import ReadModels ReadModelFacts Executive.

Lemma action_before_total x y : action_before x y = true \/ action_before y x = true.
Proof.
  unfold action_before. rewrite (Z.eqb_sym (priority_rank (action_priority_of y))).
  destruct (Z.eqb_spec (priority_rank (action_priority_of x)) (priority_rank (action_priority_of y)));
    rewrite ?Z.leb_le, ?Z.ltb_lt; lia.
Qed.

Lemma action_before_trans x y z : action_before x y = true -> action_before y z = true -> action_before x z = true.
Proof.
  unfold action_before. destruct (Z.eqb_spec (priority_rank (action_priority_of x)) (priority_rank (action_priority_of y))),
    (Z.eqb_spec (priority_rank (action_priority_of y)) (priority_rank (action_priority_of z))),
    (Z.eqb_spec (priority_rank (action_priority_of x)) (priority_rank (action_priority_of z)));
    rewrite ?Z.leb_le, ?Z.ltb_lt; lia.
Qed.

Lemma actions_sorted hours cohorts f c :
  StronglySorted (fun x y => action_before x y = true) (actions_for hours cohorts f c).
Proof. apply order_by_sorted; [apply action_before_total | apply action_before_trans]. Qed.

Lemma no_cost_actions rows : Forall CostTheorems.row_free rows -> cost_actions rows = [].
Proof.
  intros H. unfold cost_actions. assert (omap CostValue.cost_per_insight_usd rows = []) as ->; [|done].
  induction H as [|r l [_ _ E _ _] _ IH]; [done |]. simpl. by rewrite E.
Qed.

(** What the head of a sorted list keeps comes before what it drops. *)
Lemma take_before {A} (R : A -> A -> Prop) n l x y :
  StronglySorted R l -> x ∈ take n l -> y ∈ drop n l -> R x y.
Proof.
  intros Hs. revert n. induction Hs as [|a l Hs IH Ha]; intros [|n] Hx Hy; simpl in *;
    try (by apply not_elem_of_nil in Hx); try (by apply not_elem_of_nil in Hy).
  apply elem_of_cons in Hx as [->|Hx]; [|by apply (IH n)].
  rewrite Forall_forall in Ha. apply Ha. rewrite <- (take_drop n l). set_solver.
Qed.

(** Whose row an action comes from. *)
Inductive action_source (hours : Z) (cohorts : list Metrics.CohortReport) (f : Freshness.FreshnessSLAResponse) (a : ActionItem) : Prop :=
| from_breach r :
    r ∈ Freshness.sla_sources f -> Freshness.row_status r = Freshness.breached ->
    action_priority_of a = critical -> action_source_id a = Some (Freshness.row_source_id r) -> action_source hours cohorts f a
| from_warning r :
    r ∈ Freshness.sla_sources f -> Freshness.row_status r = Freshness.warning ->
    action_priority_of a = medium -> action_source_id a = Some (Freshness.row_source_id r) -> action_source hours cohorts f a
| from_breaking c :
    c ∈ cohorts -> (30 <= Metrics.breaking_rate_pct c)%Q ->
    action_priority_of a = high -> action_source_id a = Some (Metrics.cohort_source_id c) -> action_source hours cohorts f a
| from_decline c :
    c ∈ cohorts -> (0 < Metrics.breaking_rate_pct c < 30)%Q -> (Metrics.avg_compatibility_score c < 70)%Q ->
    action_priority_of a = medium -> action_source_id a = Some (Metrics.cohort_source_id c) -> action_source hours cohorts f a.

Lemma actions_sources hours cohorts f c a :
  Forall CostTheorems.row_free (CostValue.cost_rows c) ->
  a ∈ actions_for hours cohorts f c -> action_source hours cohorts f a.
Proof.
  intros Hf. unfold actions_for. rewrite order_by_perm, no_cost_actions, app_nil_r, elem_of_app by done.
  intros [Ha|Ha]; apply list_elem_of_In, in_flat_map in Ha as (x & Hx%list_elem_of_In & Ha).
  - unfold drift_action in Ha. cbv zeta in Ha. destruct (Qle_bool 30 _) eqn:E1; bool_to_prop.
    + destruct Ha as [<-|[]]. by apply (from_breaking _ _ _ _ x).
    + destruct (Qltb 0 _) eqn:E2, (Qltb _ 70) eqn:E3; try done. bool_to_prop. destruct Ha as [<-|[]]. by apply (from_decline _ _ _ _ x).
  - unfold freshness_action in Ha. cbv zeta in Ha. destruct (decide (_ = Freshness.breached)) as [E|_].
    + destruct Ha as [<-|[]]. by apply (from_breach _ _ _ _ x).
    + destruct (decide (_ = Freshness.warning)) as [E|_]; [|done]. destruct Ha as [<-|[]]. by apply (from_warning _ _ _ _ x).
Qed.

Lemma breach_has_action hours cohorts f c r :
  r ∈ Freshness.sla_sources f -> Freshness.row_status r = Freshness.breached ->
  exists a, a ∈ actions_for hours cohorts f c /\ action_priority_of a = critical /\
    action_source_id a = Some (Freshness.row_source_id r).
Proof.
  intros Hr E. assert (exists a, freshness_action hours r = [a] /\ action_priority_of a = critical /\
    action_source_id a = Some (Freshness.row_source_id r)) as (a & Ea & ? & ?).
  { unfold freshness_action. cbv zeta. rewrite decide_True by done. by eexists. }
  exists a. split; [|done]. unfold actions_for. rewrite order_by_perm, !elem_of_app. right. left.
  apply list_elem_of_In, in_flat_map. exists r. split; [by apply list_elem_of_In |]. rewrite Ea. by left.
Qed.

(** The actions of the summary are the most urgent ones: at most [max_actions], sorted
    by priority and then source, each due to a breached or nearly breached row, or
    to a breaking rate; none of those left out should have come before one of those kept; every
    breached source has a critical action unless the list is full of critical ones;
    and there is never an action on cost. *)
Theorem actions_most_urgent name_le at_ n limit hours max_actions sources t evs :
  let cohorts := Metrics.list_cohort_reports (at_cohorts at_) n limit sources evs in
  let f := Freshness.get_freshness_sla name_le (at_freshness at_) n None limit hours sources t in
  let c := CostValue.get_cost_value_chart (at_cost at_) n None limit sources t evs in
  let s := get_executive_summary name_le at_ n limit hours max_actions sources t evs in
  total_actions s = zlen (action_items s) /\ (length (action_items s) <= max_actions)%nat /\
  StronglySorted (fun x y => action_before x y = true) (action_items s) /\
  (forall a, a ∈ action_items s -> action_source hours cohorts f a) /\
  (forall a b, a ∈ action_items s -> b ∈ drop max_actions (actions_for hours cohorts f c) -> action_before a b = true) /\
  (forall r, r ∈ Freshness.sla_sources f -> Freshness.row_status r = Freshness.breached ->
     (exists a, a ∈ action_items s /\ action_priority_of a = critical /\ action_source_id a = Some (Freshness.row_source_id r)) \/
     length (action_items s) = max_actions /\ (forall a, a ∈ action_items s -> action_priority_of a = critical)).
Proof.
  cbv zeta. set (cohorts := Metrics.list_cohort_reports _ _ _ _ _). set (f := Freshness.get_freshness_sla _ _ _ _ _ _ _ _).
  set (c := CostValue.get_cost_value_chart _ _ _ _ _ _ _). unfold get_executive_summary. fold cohorts f c.
  cbn [total_actions action_items]. set (l := actions_for hours cohorts f c).
  assert (StronglySorted (fun x y => action_before x y = true) l) as Hs by apply actions_sorted. split_and!.
  - done.
  - rewrite length_take. lia.
  - by apply StronglySorted_take.
  - intros a Ha%elem_of_take_1. apply (actions_sources hours cohorts f c); [apply CostTheorems.chart_rows_free | done].
  - intros a b Ha Hb. by apply (take_before _ _ _ _ _ Hs Ha Hb).
  - intros r Hr E. destruct (breach_has_action hours cohorts f c r Hr E) as (a & Ha & Hp & Hi). fold l in Ha.
    rewrite <- (take_drop max_actions l) in Ha. apply elem_of_app in Ha as [Ha|Ha]; [left; by exists a | right].
    split.
    { rewrite length_take. destruct (Nat.le_gt_cases (length l) max_actions); [|lia]. rewrite drop_ge in Ha by done. by apply not_elem_of_nil in Ha. }
    intros b Hb. pose proof (take_before _ _ _ _ _ Hs Hb Ha) as Hba. unfold action_before in Hba. rewrite Hp in Hba.
    destruct (action_priority_of b); [done | done ..].
Qed.

(** *** Figures *)

Lemma filter_map_bounds {A} (p : A -> bool) (v : A -> Q) lo hi (l : list A) :
  Forall (fun x => lo <= v x <= hi)%Q l -> Forall (fun q => lo <= q <= hi)%Q (map v (List.filter p l)).
Proof.
  intros H. apply List.Forall_map, List.Forall_forall. intros x [Hx _]%List.filter_In.
  rewrite List.Forall_forall in H. by apply H.
Qed.

Lemma qlen_map {A B} (f : A -> B) l : qlen (map f l) = qlen l.
Proof. unfold qlen. by rewrite length_map. Qed.

Lemma drift_average cohorts :
  Forall (fun c => 0 <= Metrics.avg_compatibility_score c <= 100)%Q cohorts ->
  (0 <= drift_avg_compatibility (drift_section cohorts) <= 100)%Q.
Proof.
  intros H. apply (py_round_bounds 2 0 100). set (l := List.filter _ cohorts).
  assert (Forall (fun q => 0 <= q <= 100)%Q (map Metrics.avg_compatibility_score l)) as Hl by (by apply filter_map_bounds).
  clearbody l. destruct l as [|r l]; [split; vm_compute; discriminate |].
  rewrite <- (qlen_map Metrics.avg_compatibility_score (r :: l)). by apply mean_bounds.
Qed.

Lemma breaking_within_drift cohorts :
  Forall (fun c => Metrics.sample_size c = 0 -> (Metrics.breaking_rate_pct c == 0)%Q) cohorts ->
  Forall (fun c => 0 <= Metrics.sample_size c) cohorts ->
  breaking_source_count (drift_section cohorts) <= total_sources_with_drift (drift_section cohorts).
Proof.
  intros Hq Hs. cbn [drift_section breaking_source_count total_sources_with_drift].
  unfold tally, zlen. apply Nat2Z.inj_le. fold (count (fun c => 0 <? Metrics.sample_size c) cohorts). apply count_le.
  intros c Hc Hb. rewrite List.Forall_forall in Hq, Hs. specialize (Hq c Hc). specialize (Hs c Hc). bool_to_prop.
  apply Z.ltb_lt. destruct (Z.eq_dec (Metrics.sample_size c) 0) as [E|]; [specialize (Hq E); lra | lia].
Qed.

Lemma no_spend rows : Forall CostTheorems.row_free rows -> List.filter (fun r => Qltb 0 (CostValue.total_cost_usd r)) rows = [].
Proof.
  induction 1 as [|r l [E _ _ _ _] _ IH]; simpl; [done |]. destruct (Qltb 0 _) eqn:Er; bool_to_prop; [lra | done].
Qed.

(** The figures of the summary agree with each other: the average score is between 0
    and 100, no more sources break than drift, the freshness counts add up to the sources
    and every breach is an open incident; and of the cost there is nothing: a total of 0,
    no average, and as "highest cost source" the first one by id. *)
Theorem summary_figures_agree name_le at_ n limit hours max_actions sources t evs :
  wf_table sources -> wf_table evs -> every MetricTheorems.scored evs -> 1 <= hours ->
  let s := get_executive_summary name_le at_ n limit hours max_actions sources t evs in
  let rows := CostValue.cost_rows (CostValue.get_cost_value_chart (at_cost at_) n None limit sources t evs) in
  (0 <= drift_avg_compatibility (drift s) <= 100)%Q /\
  breaking_source_count (drift s) <= total_sources_with_drift (drift s) /\
  fresh_breached (freshness s) + fresh_ok (freshness s) + fresh_no_data (freshness s) = fresh_total_sources (freshness s) /\
  fresh_warning (freshness s) <= fresh_ok (freshness s) /\
  open_incidents (freshness s) = fresh_breached (freshness s) /\
  (summary_total_cost_usd (cost s) == 0)%Q /\ avg_cost_per_insight_usd (cost s) = None /\
  (forall name, highest_cost_source_name (cost s) = Some name ->
     exists r, r ∈ rows /\ CostValue.cost_source_name r = name /\ Forall (fun r' => CostValue.cost_source_id r <= CostValue.cost_source_id r') rows).
Proof.
  intros Hs He Hsc Hh. cbv zeta. unfold get_executive_summary. cbn [drift freshness cost].
  destruct (MetricTheorems.cohorts_ranked (at_cohorts at_) n limit sources evs Hs He Hsc) as (_ & _ & _ & _ & Hok).
  set (cohorts := Metrics.list_cohort_reports _ _ _ _ _) in *.
  destruct (FreshnessTheorems.freshness_judges_newest name_le (at_freshness at_) n None limit hours sources t Hh) as [Hsum _].
  pose proof (FreshnessTheorems.open_incidents_are_breaches name_le (at_freshness at_) n None limit hours sources t) as Hopen.
  pose proof (CostTheorems.chart_rows_free (at_cost at_) n None limit sources t evs) as Hfree.
  destruct (CostTheorems.costs_are_zero (at_cost at_) n None limit sources t evs) as (_ & Hgrand & Hsort & _).
  set (c := CostValue.get_cost_value_chart _ _ _ _ _ _ _) in *. cbv zeta in Hsum, Hopen. split.
  { apply drift_average. eapply Forall_impl; [exact Hok |]. by intros ? []. }
  split_and!.
  - apply breaking_within_drift; (eapply Forall_impl; [exact Hok |]).
    + intros r [_ _ _ _ _ Hq] E. by apply Hq.
    + intros r [_ E _ _ _ _]. rewrite E. unfold zlen. lia.
  - exact Hsum.
  - cbn [freshness_section fresh_warning fresh_ok]. rewrite FreshnessTheorems.sla_unfold. cbn [Freshness.sla_sources Freshness.total_ok].
    unfold tally. apply Nat2Z.inj_le, count_le. intros r _ ->. apply orb_true_r.
  - exact Hopen.
  - exact Hgrand.
  - cbn [cost_section avg_cost_per_insight_usd]. by rewrite no_spend.
  - cbn [cost_section highest_cost_source_name]. destruct (CostValue.cost_rows c) as [|r rows]; [done |]. intros ? [= <-].
    exists r. split; [set_solver |]. split; [done |]. constructor; [done |]. simpl in Hsort.
    apply StronglySorted_inv in Hsort as [_ Hall]. by apply List.Forall_map.
Qed.

End ExecutiveTheorems.

(** ** Witnesses *)

Module ExecutiveWitnesses.
Import ReadModels Executive ReportingWitnesses.

Definition clock : clocks := Clocks (day 10) (day 10) (day 10) (day 10).

(** A source of which the last snapshot is two days old, with a threshold of a day. *)
Definition stale : Freshness.snapshots := Table
  [(1, snapshot_at 1 (day 8)); (2, snapshot_at 2 (day 10 - seconds 72000))] 3.

Definition weekly (max_actions : nat) : ExecutiveSummaryResponse :=
  get_executive_summary String.leb clock 7 10 24 max_actions sources stale drifts.

Example weekly_actions :
  map (fun a => (action_priority_of a, action_title a)) (action_items (weekly 20)) =
  [(critical, "SLA breach: alpha"); (high, "High breaking drift rate: alpha reliability cohort");
   (medium, "Freshness warning: beta")].
Proof. vm_compute. reflexivity. Qed.

Example weekly_cut : map action_priority_of (action_items (weekly 1)) = [critical].
Proof. vm_compute. reflexivity. Qed.

Lemma summary_figures_agree_witness :
  let s := weekly 20 in
  open_incidents (freshness s) = 1 /\ open_incidents (freshness s) = fresh_breached (freshness s) /\
  avg_cost_per_insight_usd (cost s) = None.
Proof.
  cbv zeta. split; [vm_compute; reflexivity |].
  destruct (ExecutiveTheorems.summary_figures_agree String.leb clock 7 10 24 20 sources stale drifts
              sources_wf drifts_wf drifts_scored ltac:(lia)) as (_ & _ & _ & _ & Ho & _ & Ha & _).
  split; [exact Ho | exact Ha].
Defined.

End ExecutiveWitnesses.
