(* ===== verification/Subscriptions.v ===== *)
(** * Subscriptions (repositories/subscriptions.py, api/routes/subscriptions.py)

    Alert policies, channel summaries, the delivery log read off the drift events, the
    preview of an escalation and the test delivery. *)

From S2P Require Import Prelude Db Contracts Incidents SourceRegistry ContractDrift Notifications ReadModels.

Module Subscriptions.
Import Events Notifications ReadModels.

Definition SUBSCRIPTION_DEFAULT_ESCALATION_MINUTES : Z := 30.
Definition SUBSCRIPTION_DEFAULT_SUPPRESSION_MINUTES : Z := 15.
Definition SUBSCRIPTION_DEFAULT_CHANNELS : list string := ["webhook"; "slack"; "email"].

(** The default of an unknown severity is that of "low". *)
Definition _severity_rank (severity : string) : Z :=
  if decide (severity = "none") then 0
  else if decide (severity = "low") then 1
  else if decide (severity = "medium") then 2
  else if decide (severity = "high") then 3
  else if decide (severity = "critical") then 4
  else 1.

Definition policy_of (i : Z) : string := "policy-source-" +:+ str_of_Z i.

Definition _default_policy_id (source_id : option Z) : option string := policy_of <$> source_id.

(** ** Channels *)

(** Names are compared as they are written, without [lower]. *)
Definition _parse_default_channels (cfg : Settings) : list string :=
  List.filter str_truthy (map strip (split_on ","%char (notification_default_channels cfg))).

Definition setting_given (s : option string) : bool := match s with Some v => str_truthy v | None => false end.

Record ChannelConfig := Channel {
  channel : string;
  enabled : bool;
  configured : bool;
  channel_delivery_mode : string;
  target_summary : option string;
  notifications_on : bool
}.

Definition channel_row (cfg : Settings) (name : string) (is_configured : bool) (mode : string) (summary : option string)
    : ChannelConfig :=
  Channel name (bool_decide (name ∈ _parse_default_channels cfg)) is_configured mode summary (notifications_enabled cfg).

Definition list_channel_configs (cfg : Settings) : list ChannelConfig :=
  let recipients := List.filter str_truthy (map strip (split_on ","%char (or_else (notification_email_to cfg) EmptyString))) in
  let telegram_given :=
    setting_given (notification_telegram_bot_token cfg) && setting_given (notification_telegram_chat_id cfg) in
  let when (b : bool) (s : string) := if b then Some s else None in
  [channel_row cfg "webhook" (setting_given (notification_webhook_url cfg)) "webhook"
     (when (setting_given (notification_webhook_url cfg)) "Webhook destination configured");
   channel_row cfg "slack" (setting_given (notification_slack_webhook_url cfg)) "webhook"
     (when (setting_given (notification_slack_webhook_url cfg)) "Slack webhook configured");
   channel_row cfg "telegram" telegram_given "chat" (when telegram_given "Telegram chat configured");
   channel_row cfg "email" (setting_given (notification_email_from cfg) && negb (bool_decide (recipients = []))) "email"
     (when (negb (bool_decide (recipients = []))) (str_of_Z (zlen recipients) +:+ " recipient(s) configured"))].

(** ** Policies and logs *)

Record AlertPolicy := Policy {
  policy_id : string;
  policy_source_id : Z;
  policy_name : string;
  policy_enabled : bool;
  policy_min_severity : string;
  policy_channels : list string;
  escalation_minutes : Z;
  suppression_minutes : Z;
  policy_created_at : datetime;
  policy_metadata : list (string * json)
}.

Definition alert_policy (now : datetime) (x : Z * SourceRegistry.SourceProfile) : AlertPolicy :=
  let '(i, source) := x in
  Policy (policy_of i) i ("Default policy for " +:+ SourceRegistry.name source) (SourceRegistry.is_active source) "medium"
    SUBSCRIPTION_DEFAULT_CHANNELS SUBSCRIPTION_DEFAULT_ESCALATION_MINUTES SUBSCRIPTION_DEFAULT_SUPPRESSION_MINUTES now
    [("base_url", JStr (SourceRegistry.base_url source));
     ("probe_interval_seconds", JInt (SourceRegistry.probe_interval_seconds source));
     ("latency_threshold_ms", json_opt JFloat (SourceRegistry.latency_threshold_ms source))].

Definition list_alert_policies (now : datetime) (only : option Z) (limit : nat) (t : profiles) : list AlertPolicy :=
  map (alert_policy now) (recent_sources (one_of only) limit t).

Record DeliveryLog := Log {
  delivery_id : string;
  log_source_id : option Z;
  log_policy_id : option string;
  log_event_type : string;
  log_severity : string;
  log_status : string;
  log_channel : option string;
  log_detail : string;
  log_created_at : datetime
}.

Definition delivery_log (x : Z * Drift.DriftEvent) : DeliveryLog :=
  let '(i, event) := x in
  let severity := Drift.drift_severity event in
  let '(status, channel, detail) :=
    if _severity_rank "medium" <=? _severity_rank severity
    then ("delivered", Some "webhook", "Delivered by default subscription rule.")
    else ("suppressed", None, "Suppressed by default low-severity window.") in
  Log ("delivery-drift-" +:+ str_of_Z i) (Some (Drift.drift_source_id event)) (Some (policy_of (Drift.drift_source_id event)))
    (Drift.event_type event) severity status channel detail (Drift.drift_created_at event).

Definition list_delivery_logs (only : option Z) (limit : nat) (t : events) : list DeliveryLog :=
  map delivery_log (recent_events only limit t).

(** ** Escalation *)

Record EscalationStep := Step {
  order : Z;
  step_channel : string;
  after_minutes : Z;
  step_action : string;
  condition : string
}.

Definition PAGE_NOW : string := "Page immediately through the highest-priority configured channel.".
Definition DELIVER_FIRST : string := "Deliver the initial alert notification.".
Definition ESCALATE : string := "Escalate because earlier channel did not produce acknowledgement.".

Definition escalation_step (severity : string) (index : Z) (channel : string) : EscalationStep :=
  Step index channel (if index =? 1 then 0 else (index - 1) * SUBSCRIPTION_DEFAULT_ESCALATION_MINUTES)
    (if (_severity_rank "critical" <=? _severity_rank severity) && (index =? 1) then PAGE_NOW
     else if index =? 1 then DELIVER_FIRST else ESCALATE)
    "Previous step remains unacknowledged.".

(** [for index, channel in enumerate(channels, start=index)]. *)
Fixpoint escalation_steps (severity : string) (index : Z) (channels : list string) : list EscalationStep :=
  match channels with
  | [] => []
  | c :: channels => escalation_step severity index c :: escalation_steps severity (index + 1) channels
  end.

Record EscalationPreview := Preview {
  preview_policy_id : option string;
  preview_source_id : option Z;
  preview_severity : string;
  preview_event : string;
  preview_suppression_minutes : Z;
  steps : list EscalationStep;
  preview_summary : string
}.

(** The source of the preview, where one is named and registered. *)
Definition preview_source (source_id : option Z) (t : profiles) : option (Z * SourceRegistry.SourceProfile) :=
  match source_id with
  | None => None
  | Some i =>
      match get i t with
      | Some source => if SourceRegistry.present source then Some (i, source) else None
      | None => None
      end
  end.

Definition build_escalation_preview (event severity : string) (source_id : option Z) (channels : option (list string))
    (t : profiles) : EscalationPreview :=
  let source := preview_source source_id t in
  let selected_channels := match channels with None | Some [] => SUBSCRIPTION_DEFAULT_CHANNELS | Some l => l end in
  let effective_channels := List.filter str_truthy selected_channels in
  let steps := escalation_steps severity 1 effective_channels in
  let source_name := match source with Some (_, s) => SourceRegistry.name s | None => "global defaults" end in
  let policy_id := match source with Some (i, _) => _default_policy_id (Some i) | None => None end in
  Preview (match source_id with None => None | Some _ => policy_id end) source_id severity event
    SUBSCRIPTION_DEFAULT_SUPPRESSION_MINUTES steps
    (str_of_Z (zlen steps) +:+ " escalation step(s) would run for " +:+ event +:+ " at severity " +:+ severity +:+
     " using " +:+ source_name +:+ ".").

Definition preview_escalation (event severity : string) (source_id : option Z) (channels : option (list string))
    (t : profiles) : result Incidents.HTTPException EscalationPreview :=
  let preview := build_escalation_preview event severity source_id channels t in
  match source_id, preview_policy_id preview with
  | Some _, None => Raise (Incidents.HTTP 404 "Source profile not found")
  | _, _ => Ok preview
  end.

(** ** Test delivery *)

(** [dispatch] is [dispatch_notification_event]; its result has a detail exactly where
    notifications are disabled.  [timestamp] is [datetime.timestamp] in whole seconds. *)
Definition test_delivery (cfg : Settings) (timestamp : datetime -> Z)
    (dispatch : string -> string -> string -> list (string * json) -> list NotificationChannel -> dispatch_result)
    (now : datetime) (event message severity : string) (source_id : option Z) (channels : option (list NotificationChannel))
    : DeliveryLog :=
  let requested := match channels with Some l => l | None => [] end in
  let result := dispatch event message severity
    [("source", JStr "subscription_delivery_test"); ("source_id", json_opt JInt source_id)] requested in
  let status := if (0 <? sent result)%nat then "delivered" else "suppressed" in
  let detail :=
    if notifications_enabled cfg
    then "sent=" +:+ str_of_Z (Z.of_nat (sent result)) +:+ " failed=" +:+ str_of_Z (Z.of_nat (failed result))
    else "notifications disabled" in
  Log ("delivery-test-" +:+ str_of_Z (timestamp now)) source_id (policy_of <$> source_id) event severity status
    (channel_name <$> head requested) detail now.

End Subscriptions.

(** ** Theorems *)

Module SubscriptionTheorems.
Import Events Notifications ReadModels ReadModelFacts Subscriptions.

Lemma require_given s m : setting_given s = true -> exists v, require_setting s m = Ok v.
Proof. unfold setting_given, require_setting. destruct s as [v|]; [|done]. intros ->. by eexists. Qed.

Lemma require_missing s m : setting_given s = false -> require_setting s m = Raise (ValueError "ValueError" m).
Proof. unfold setting_given, require_setting. destruct s as [v|]; [|done]. by intros ->. Qed.

Lemma strip_filter l : List.filter str_truthy (map strip l) = map strip (List.filter (fun x => str_truthy (strip x)) l).
Proof. induction l as [|x l IH]; simpl; [done |]. destruct (str_truthy (strip x)); simpl; by rewrite IH. Qed.

(** The recipients the summary counts are those the adapter writes to. *)
Lemma recipients_agree cfg :
  List.filter str_truthy (map strip (split_on ","%char (or_else (notification_email_to cfg) EmptyString))) = _email_recipients cfg.
Proof. unfold _email_recipients. destruct (notification_email_to cfg) as [s|]; [|done]. apply strip_filter. Qed.

(** The row of a channel. *)
Definition row_of_channel (cfg : Settings) (c : NotificationChannel) : option ChannelConfig :=
  List.find (fun r => String.eqb (channel r) (channel_name c)) (list_channel_configs cfg).

(** What an adapter does with a request that never fails, and without one. *)
Definition accepts (cfg : Settings) (repr : json -> string) (c : NotificationChannel) : Prop :=
  forall event message severity context,
    is_ok (_dispatch_to_channel_unprotected cfg repr (fun _ _ _ => Ok tt) c event message severity context) = true.

Definition rejects (cfg : Settings) (repr : json -> string) (c : NotificationChannel) : Prop :=
  forall post event message severity context, exists m,
    _dispatch_to_channel_unprotected cfg repr post c event message severity context = Raise (ValueError "ValueError" m).

(** A channel summary says what its adapter will do: every channel of the enumeration has
    a row; where it is not marked configured the adapter rejects every message before
    any request; where it is, the adapter of webhook, Slack or Telegram accepts every
    message its request goes through for, and that of email does so provided the
    provider and its key are set, which the summary does not look at. *)
Theorem configured_says_delivery cfg repr c :
  exists r, row_of_channel cfg c = Some r /\
    (configured r = false -> rejects cfg repr c) /\
    (configured r = true ->
       (c = email -> lower (strip (notification_email_provider cfg)) = "resend" /\
                     setting_given (notification_resend_api_key cfg) = true) ->
       accepts cfg repr c).
Proof.
  destruct c; (eexists; split; [reflexivity |]); cbn [configured channel_row]; split.
  - intros E post event message severity context. eexists. simpl. unfold _send_slack. by rewrite require_missing.
  - intros E _ event message severity context. simpl. unfold _send_slack.
    by destruct (require_given _ "notification_slack_webhook_url is not configured" E) as [v ->].
  - intros E post event message severity context. eexists. simpl. unfold _send_telegram.
    destruct (setting_given (notification_telegram_bot_token cfg)) eqn:E1; [|by rewrite require_missing].
    destruct (require_given _ "notification_telegram_bot_token or notification_telegram_chat_id missing" E1) as [v ->].
    simpl in *. by rewrite require_missing.
  - intros [E1 E2]%andb_true_iff _ event message severity context. simpl. unfold _send_telegram.
    destruct (require_given _ "notification_telegram_bot_token or notification_telegram_chat_id missing" E1) as [v ->].
    by destruct (require_given _ "notification_telegram_bot_token or notification_telegram_chat_id missing" E2) as [v' ->].
  - intros E post event message severity context. eexists. simpl. unfold _send_webhook. by rewrite require_missing.
  - intros E _ event message severity context. simpl. unfold _send_webhook.
    by destruct (require_given _ "notification_webhook_url is not configured" E) as [v ->].
  - intros E post event message severity context. cbn [_dispatch_to_channel_unprotected]. unfold _send_email.
    destruct (decide _); [by eexists |]. destruct (setting_given (notification_resend_api_key cfg)) eqn:Ek;
      [|rewrite require_missing by done; by eexists].
    destruct (require_given _ "notification_resend_api_key is not configured" Ek) as [k ->]. cbn [bind_result].
    destruct (setting_given (notification_email_from cfg)) eqn:Ef; [|rewrite require_missing by done; by eexists].
    destruct (require_given _ "notification_email_from is not configured" Ef) as [a ->]. cbn [bind_result].
    rewrite recipients_agree in E. destruct (_email_recipients cfg); [by eexists | done].
  - rewrite recipients_agree. intros [Ef Er]%andb_true_iff Hp event message severity context.
    destruct (Hp eq_refl) as [Eprov Ek]. cbn [_dispatch_to_channel_unprotected]. unfold _send_email.
    rewrite decide_False by (by intros ?). destruct (require_given _ "notification_resend_api_key is not configured" Ek) as [k ->].
    cbn [bind_result]. destruct (require_given _ "notification_email_from is not configured" Ef) as [a ->]. cbn [bind_result].
    by destruct (_email_recipients cfg).
Qed.

(** A channel marked enabled is one that events go to by default. *)
Theorem enabled_is_dispatched cfg r :
  r ∈ list_channel_configs cfg -> enabled r = true ->
  exists c, channel r = channel_name c /\ c ∈ configured_notification_channels cfg.
Proof.
  intros Hr He. assert (exists c, channel r = channel_name c /\ enabled r = bool_decide (channel_name c ∈ _parse_default_channels cfg)) as (c & Ec & Er).
  { unfold list_channel_configs in Hr. cbv zeta in Hr. rewrite !elem_of_cons in Hr.
    destruct Hr as [->|[->|[->|[->|Hr]]]]; [exists webhook | exists slack | exists telegram | exists email |]; try done.
    by apply not_elem_of_nil in Hr. }
  exists c. split; [done |]. rewrite Er in He. apply bool_decide_eq_true in He. unfold _parse_default_channels in He.
  rewrite strip_filter in He. apply list_elem_of_In, in_map_iff in He as (v & Ev & Hv).
  unfold configured_notification_channels, _parse_channels. apply list_elem_of_omap.
  exists (channel_name c). split; [|by destruct c]. apply list_elem_of_In, in_map_iff. exists v. split; [|done].
  rewrite Ev. by destruct c.
Qed.

(** *** Logs *)

Definition alerting (severity : string) : Prop := severity = "medium" \/ severity = "high" \/ severity = "critical".

Lemma rank_alerting severity : (_severity_rank "medium" <=? _severity_rank severity) = true <-> alerting severity.
Proof.
  unfold alerting, _severity_rank. rewrite Z.leb_le. cbn [decide]. repeat case_decide; subst; simplify_eq; naive_solver lia.
Qed.

(** The delivery log is read off the drift events: at most [limit] entries, newest
    first, one for each event of the source asked for; an entry is delivered, by webhook,
    exactly when its event is of medium severity or above, and suppressed, without a
    channel, otherwise, an unknown severity counting as low. *)
Theorem logs_follow_events only limit t :
  wf_table t ->
  let l := list_delivery_logs only limit t in
  (length l <= limit)%nat /\
  StronglySorted (fun x y => log_created_at y <= log_created_at x) l /\
  forall g, g ∈ l -> exists i e,
    get i t = Some e /\ one_of only (Drift.drift_source_id e) = true /\ delivery_id g = "delivery-drift-" +:+ str_of_Z i /\
    log_source_id g = Some (Drift.drift_source_id e) /\ log_policy_id g = Some (policy_of (Drift.drift_source_id e)) /\
    (alerting (Drift.drift_severity e) -> log_status g = "delivered" /\ log_channel g = Some "webhook") /\
    (~ alerting (Drift.drift_severity e) -> log_status g = "suppressed" /\ log_channel g = None).
Proof.
  intros Ht. cbv zeta. unfold list_delivery_logs. split_and!.
  - unfold recent_events. rewrite length_map, length_take. lia.
  - assert (StronglySorted (fun x y => Drift.newest_drift x y = true) (recent_events only limit t)) as Hs.
    { apply StronglySorted_take, order_by_sorted; unfold Drift.newest_drift;
        [intros x y; rewrite !Z.leb_le; lia | intros x y z; rewrite !Z.leb_le; lia]. }
    assert (forall x, log_created_at (delivery_log x) = Drift.drift_created_at x.2) as Hc.
    { intros [i e]. unfold delivery_log. by destruct (_ <=? _). }
    induction Hs as [|x l Hs IH Hx]; simpl; constructor; [done |]. apply List.Forall_map.
    eapply Forall_impl; [exact Hx |]. intros y Hy. rewrite !Hc. by apply Z.leb_le in Hy.
  - intros g Hg. apply list_elem_of_In, in_map_iff in Hg as ([i e] & <- & Hin%list_elem_of_In%elem_of_take_1).
    rewrite order_by_perm in Hin. apply list_elem_of_In, select_spec in Hin as [Hg Ho]; [|done]. exists i, e.
    pose proof (rank_alerting (Drift.drift_severity e)) as Hr. unfold delivery_log.
    destruct (_severity_rank "medium" <=? _); simpl; split_and!; try done; naive_solver.
Qed.

(** *** Escalation *)

Lemma steps_length severity k l : length (escalation_steps severity k l) = length l.
Proof. revert k. induction l; intros k; simpl; [done | by rewrite IHl]. Qed.

Lemma steps_channels severity k l : map step_channel (escalation_steps severity k l) = l.
Proof. revert k. induction l as [|c l IH]; intros k; simpl; [done | by rewrite IH]. Qed.

Lemma steps_elem severity k l s :
  s ∈ escalation_steps severity k l -> k <= order s < k + Z.of_nat (length l) /\ s = escalation_step severity (order s) (step_channel s).
Proof.
  revert k. induction l as [|c l IH]; intros k Hs; simpl in *; [by apply not_elem_of_nil in Hs |].
  apply elem_of_cons in Hs as [->|Hs]; [split; [simpl; lia | done] |]. destruct (IH _ Hs) as [? ?]. split; [lia | done].
Qed.

Lemma steps_sorted severity k l : 1 <= k ->
  StronglySorted (fun s s' => order s < order s' /\ after_minutes s < after_minutes s') (escalation_steps severity k l).
Proof.
  revert k. induction l as [|c l IH]; intros k Hk; simpl; constructor; [apply IH; lia |].
  apply List.Forall_forall. intros s [Ho Es]%list_elem_of_In%steps_elem. rewrite Es. unfold escalation_step.
  unfold SUBSCRIPTION_DEFAULT_ESCALATION_MINUTES. cbn [order after_minutes].
  destruct (Z.eqb_spec k 1), (Z.eqb_spec (order s) 1); lia.
Qed.

Lemma critical_rank severity : (_severity_rank "critical" <=? _severity_rank severity) = true <-> severity = "critical".
Proof. unfold _severity_rank. rewrite Z.leb_le. cbn [decide]. repeat case_decide; subst; simplify_eq; naive_solver lia. Qed.

(** The preview of an escalation is refused exactly for a source that is not registered;
    otherwise it has one step for each channel that is named, in the order given, the
    default ones when none is: the steps are 30 minutes apart from 0 on, the first pages
    at once exactly when the severity is critical, and the later ones escalate. *)
Theorem escalation_plan event severity source_id channels t :
  (preview_escalation event severity source_id channels t = Raise (Incidents.HTTP 404 "Source profile not found") <->
     exists i, source_id = Some i /\ forall source, get i t = Some source -> SourceRegistry.present source = false) /\
  forall p, preview_escalation event severity source_id channels t = Ok p ->
    map step_channel (steps p) =
      List.filter str_truthy (match channels with None | Some [] => SUBSCRIPTION_DEFAULT_CHANNELS | Some l => l end) /\
    StronglySorted (fun s s' => order s < order s' /\ after_minutes s < after_minutes s') (steps p) /\
    (forall s, s ∈ steps p -> 1 <= order s <= zlen (steps p) /\ after_minutes s = 30 * (order s - 1) /\
       (order s = 1 -> step_action s = if decide (severity = "critical") then PAGE_NOW else DELIVER_FIRST) /\
       (order s <> 1 -> step_action s = ESCALATE)) /\
    (forall i, source_id = Some i -> preview_policy_id p = Some (policy_of i)).
Proof.
  unfold preview_escalation, build_escalation_preview. cbv zeta. cbn [preview_policy_id].
  set (chosen := List.filter _ _). split.
  - destruct source_id as [i|]; [|split; [done | by intros (? & ? & _)]]. simpl.
    destruct (get i t) as [source|] eqn:Eg; simpl; [|split; [intros _; exists i; naive_solver | done]].
    destruct (SourceRegistry.present source) eqn:Ep; simpl; split; try done.
    + intros (? & [= <-] & H). specialize (H _ Eg). congruence.
    + intros _. exists i. naive_solver.
  - intros p Hp. assert (steps p = escalation_steps severity 1 chosen /\
       forall i, source_id = Some i -> preview_policy_id p = Some (policy_of i)) as [-> Hpol].
    { destruct source_id as [i|]; [|injection Hp as <-; by split]. simpl in Hp.
      destruct (get i t) as [source|]; simpl in Hp; [|done]. destruct (SourceRegistry.present source); simpl in Hp; [|done].
      injection Hp as <-. split; [done |]. by intros ? [= <-]. }
    split; [apply steps_channels |]. split; [apply steps_sorted; lia |]. split; [|exact Hpol].
    intros s [Ho Es]%steps_elem. unfold zlen. rewrite steps_length. split; [lia |]. rewrite Es. unfold escalation_step.
    cbn [order after_minutes step_action]. unfold SUBSCRIPTION_DEFAULT_ESCALATION_MINUTES.
    pose proof (critical_rank severity) as Hc. destruct (Z.eqb_spec (order s) 1) as [E|E]; [rewrite E | split; [lia |]];
      destruct (_severity_rank "critical" <=? _severity_rank severity); simpl; split_and!; try done; try lia;
      intros; case_decide; naive_solver.
Qed.

(** *** Test delivery *)

Section TestDelivery.
Context (cfg : Settings) (repr : json -> string)
        (post : nat -> string -> list (string * string) -> json -> result exception unit)
        (resilience_call : (nat -> result exception string) -> result exception string)
        (timestamp : datetime -> Z).

Let dispatch := dispatch_notification_event cfg repr post resilience_call.

Definition test_context (source_id : option Z) : list (string * json) :=
  [("source", JStr "subscription_delivery_test"); ("source_id", json_opt JInt source_id)].

(** A test delivery is reported as delivered exactly when notifications are enabled and
    one of the channels it goes to, those requested or else the configured ones, takes the message;
    the channel it names is the first requested one, whether that took the
    message or not, and with notifications disabled it says so. *)
Theorem test_delivery_outcome now event message severity source_id channels :
  let g := test_delivery cfg timestamp dispatch now event message severity source_id channels in
  let requested := match channels with Some l => l | None => [] end in
  let selected := match requested with [] => configured_notification_channels cfg | l => l end in
  (log_status g = "delivered" <->
     notifications_enabled cfg = true /\
     exists c, c ∈ selected /\
       is_ok (_dispatch_to_channel cfg repr post resilience_call c event message severity (test_context source_id)) = true) /\
  log_channel g = channel_name <$> head requested /\
  (notifications_enabled cfg = false -> log_detail g = "notifications disabled").
Proof.
  cbv zeta. unfold test_delivery, dispatch, dispatch_notification_event. cbv zeta. cbn [log_status log_channel log_detail].
  destruct (notifications_enabled cfg); simpl; [|by split_and!; [split; [|by intros []] | |]].
  split_and!; [|done | done]. set (requested := match channels with Some l => l | None => [] end).
  set (selected := match requested with [] => _ | l => l end).
  set (f := fun c => match _dispatch_to_channel cfg repr post resilience_call c event message severity (test_context source_id) with
                     | Ok detail => ChannelResult c "sent" detail
                     | Raise e => ChannelResult c "failed" (exception_message e) end).
  change (map _ selected) with (map f selected).
  assert ((0 < count (fun r => bool_decide (result_status r = "sent")) (map f selected))%nat <->
     exists c, c ∈ selected /\
       is_ok (_dispatch_to_channel cfg repr post resilience_call c event message severity (test_context source_id)) = true) as Hn.
  { clearbody selected. unfold count. induction selected as [|c l IH]; simpl; [split; [lia | by intros (? & ?%not_elem_of_nil & _)] |].
    assert (bool_decide (result_status (f c) = "sent") =
      is_ok (_dispatch_to_channel cfg repr post resilience_call c event message severity (test_context source_id))) as ->
      by (unfold f; by destruct (_dispatch_to_channel _ _ _ _ c _ _ _ _)).
    destruct (_dispatch_to_channel _ _ _ _ c _ _ _ _) eqn:E; simpl.
    - split; [|lia]. intros _. exists c. rewrite E. split; [set_solver | done].
    - rewrite IH. split; intros (c' & Hc & Ho); exists c'; [split; [set_solver | done] |].
      apply elem_of_cons in Hc as [->|Hc]; [by rewrite E in Ho | done]. }
  destruct (Nat.ltb_spec 0 (count (fun r => bool_decide (result_status r = "sent")) (map f selected))) as [H|H].
  - split; [|done]. intros _. split; [done |]. by apply Hn.
  - split; [done |]. intros [_ He]. apply Hn in He. lia.
Qed.

End TestDelivery.

End SubscriptionTheorems.

(** ** Witnesses *)

Module SubscriptionWitnesses.
Import Events Notifications ReadModels Subscriptions SubscriptionTheorems.

Definition settings (channels : string) : Settings := {|
  notifications_enabled := true; notification_delivery_mode := direct; broker_enabled := false;
  notification_default_channels := channels; notification_slack_webhook_url := Some "https://hooks.example.org";
  notification_telegram_bot_token := Some "t"; notification_telegram_chat_id := None; notification_webhook_url := None;
  notification_email_provider := "smtp"; notification_resend_api_key := None;
  notification_email_from := Some "a@example.org"; notification_email_to := Some "b@example.org, c@example.org" |}.

(** The names of the summary are not lower-cased, those of the dispatch are. *)
Example capital_slack :
  map (fun r => (channel r, enabled r, configured r)) (list_channel_configs (settings "Slack, email")) =
    [("webhook", false, false); ("slack", false, true); ("telegram", false, false); ("email", true, true)] /\
  configured_notification_channels (settings "Slack, email") = [slack; email].
Proof. split; vm_compute; reflexivity. Qed.

(** An email channel marked configured that rejects every message. *)
Example email_configured_rejects :
  (exists r, row_of_channel (settings "email") email = Some r /\ configured r = true) /\
  rejects (settings "email") (fun _ => EmptyString) email.
Proof.
  split; [eexists; split; vm_compute; reflexivity |].
  intros post event message severity context. eexists. reflexivity.
Qed.

(** The channel named is the one requested first, here the one that failed. *)
Definition only_slack (url : string) (headers : list (string * string)) (body : json) : result exception unit := Ok tt.

Example wrong_channel_named :
  let g := test_delivery (settings "slack") (fun _ => 7)
    (dispatch_notification_event (settings "slack") (fun _ => EmptyString) (fun _ => only_slack) (fun f => f 1%nat))
    0 "subscription_test_event" "m" "warning" None (Some [webhook; slack]) in
  log_status g = "delivered" /\ log_channel g = Some "webhook" /\ log_detail g = "sent=1 failed=1".
Proof. vm_compute. repeat split. Qed.

Definition alpha : SourceRegistry.SourceProfile :=
  SourceRegistry.Profile "alpha" "https://example.org" "/health" 60 true None None 3 900 "none" None "X-API-Key"
    None 5 None None.

Example critical_plan :
  match preview_escalation "drift_detected" "critical" (Some 1) (Some ["webhook"; ""; "email"]) (Table [(1, alpha)] 2) with
  | Ok p => map (fun s => (order s, step_channel s, after_minutes s)) (steps p) = [(1, "webhook", 0); (2, "email", 30)]
  | Raise _ => False
  end.
Proof. vm_compute. reflexivity. Qed.

Lemma escalation_plan_witness :
  preview_escalation "drift_detected" "critical" (Some 9) None (Table [(1, alpha)] 2) =
  Raise (Incidents.HTTP 404 "Source profile not found").
Proof.
  apply (escalation_plan "drift_detected" "critical" (Some 9) None (Table [(1, alpha)] 2)). exists 9.
  split; [reflexivity |]. intros source H. vm_compute in H. discriminate.
Defined.

Lemma configured_says_delivery_witness : rejects (settings "webhook") (fun _ => EmptyString) webhook.
Proof.
  destruct (configured_says_delivery (settings "webhook") (fun _ => EmptyString) webhook) as (r & Hr & H & _).
  apply H. vm_compute in Hr. injection Hr as <-. reflexivity.
Defined.

Lemma enabled_is_dispatched_witness :
  exists c, channel_name c = "email" /\ c ∈ configured_notification_channels (settings "Slack, email").
Proof.
  destruct (enabled_is_dispatched (settings "Slack, email")
    (channel_row (settings "Slack, email") "email" true "email" (Some "2 recipient(s) configured"))) as (c & Ec & Hc).
  - vm_compute. do 3 right. left.
  - vm_compute. reflexivity.
  - exists c. split; [by symmetry | exact Hc].
Defined.

Lemma logs_follow_events_witness :
  let t := Table [(1, Drift.Drift 1 1 2 "breaking" "high" ([], [], []) 60 "" 10);
                  (2, Drift.Drift 1 2 3 "non_breaking" "low" ([], [], []) 98 "" 20)] 3 in
  map log_status (list_delivery_logs None 10 t) = ["suppressed"; "delivered"] /\
  (length (list_delivery_logs None 10 t) <= 10)%nat.
Proof.
  cbv zeta. split; [vm_compute; reflexivity |]. apply (logs_follow_events None 10). split; repeat constructor.
Defined.

End SubscriptionWitnesses.
