(* ===== verification/Transformations.v ===== *)
(** * The transformation pipeline (transformations/strategies.py, decorators.py,
    factory.py, types.py)

    A chain of transformers over one observation, a dict that the chain changes in place:
    a transformation gives the observation as it leaves it with whether it was
    accepted, and the chain with what its deduplicators have seen.

    SHA-256, [float] of a string, [datetime.fromisoformat], [str] and [isoformat] of a
    datetime and the text of a float are parameters; the JSON text that is hashed is
    written out. *)

From S2P Require Import Prelude Db AuditTrail.

Module Transformations.

(** ** Observations *)

(** A datetime with its offset, or without one. *)
Record stamp := Stamp { instant : datetime; has_zone : bool }.

(** A value of an observation: of JSON, or a datetime. *)
Inductive field := Plain (j : json) | Moment (t : stamp).

Abbreviation observation := (list (string * field)) (only parsing).

(** [observation.get(key)], where [None] and a missing key are alike. *)
Fixpoint lookup_field (key : string) (d : observation) : option field :=
  match d with
  | [] => None
  | (k, v) :: d => if decide (k = key) then Some v else lookup_field key d
  end.

Definition get_field (key : string) (d : observation) : option field :=
  match lookup_field key d with
  | Some (Plain JNull) => None
  | o => o
  end.

(** [observation[key] = v]. *)
Fixpoint set_field (key : string) (v : field) (d : observation) : observation :=
  match d with
  | [] => [(key, v)]
  | (k, w) :: d => if decide (k = key) then (k, v) :: d else (k, w) :: set_field key v d
  end.

(** ** Validation *)

(** A Python float: a number, an infinity or not a number. *)
Inductive pyfloat := Number (q : Q) | Infinity (negative : bool) | NaN.

(** [price < 0]. *)
Definition below_zero (x : pyfloat) : bool :=
  match x with Number q => Qltb q 0 | Infinity negative => negative | NaN => false end.

(** The least integer whose [float] overflows. *)
Definition FLOAT_OVERFLOW : Z := 2 ^ 1024 - 2 ^ 970.

(** What a validator raises past its caller. *)
Inductive exception := OverflowError | UnknownStrategy (message : string).

(** Valid, or why not. *)
Abbreviation verdict := (option string) (only parsing).

Section Strategies.
Context (float_of : string -> option pyfloat) (fromisoformat : string -> result string stamp).

(** [value.replace("Z", "+00:00")]. *)
Fixpoint zulu (s : string) : string :=
  match s with
  | EmptyString => EmptyString
  | String c s => if Ascii.eqb c "Z"%char then "+00:00" +:+ zulu s else String c (zulu s)
  end.

Definition REQUIRED_FIELDS : list string := ["id"; "price"; "timestamp"].

Definition _validate_id (v : option field) : bool :=
  match v with Some (Plain (JStr s)) => str_truthy s | _ => false end.

Definition NOT_NUMERIC : string := "Price must be numeric (int/float/string)".

(** [bool] is a kind of [int]. *)
Definition _validate_price (v : option field) : result exception verdict :=
  let judge x := if below_zero x then Ok (Some "Price must be >= 0") else Ok None in
  match v with
  | Some (Plain (JStr s)) => match float_of s with Some x => judge x | None => Ok (Some NOT_NUMERIC) end
  | Some (Plain (JInt z)) => if FLOAT_OVERFLOW <=? Z.abs z then Raise OverflowError else judge (Number (inject_Z z))
  | Some (Plain (JFloat q)) => judge (Number q)
  | Some (Plain (JBool b)) => judge (Number (if b then 1 else 0))
  | _ => Ok (Some NOT_NUMERIC)
  end.

(** The test is [ts > now(tz)] for a datetime with a zone, and [datetime.now()] itself, which
    is true, for one without. *)
Definition is_future (now : datetime) (ts : stamp) : bool := if has_zone ts then now <? instant ts else true.

Definition _validate_timestamp (now : datetime) (v : option field) : verdict :=
  let judge ts := if is_future now ts then Some "Timestamp cannot be in future" else None in
  match v with
  | Some (Plain (JStr s)) =>
      match fromisoformat (zulu s) with
      | Ok ts => judge ts
      | Raise e => Some ("Invalid timestamp format: " +:+ e)
      end
  | Some (Moment ts) => judge ts
  | _ => Some "Timestamp must be ISO string or datetime"
  end.

Definition first_missing (d : observation) : option string :=
  head (List.filter (fun f => match get_field f d with None => true | Some _ => false end) REQUIRED_FIELDS).

Definition validate_csv (now : datetime) (d : observation) : result exception verdict :=
  match first_missing d with
  | Some f => Ok (Some ("Missing required field: " +:+ f))
  | None =>
      if negb (_validate_id (get_field "id" d)) then Ok (Some "Invalid 'id': must be non-empty string")
      else bind_result (_validate_price (get_field "price" d)) (fun e =>
        match e with
        | Some e => Ok (Some e)
        | None => Ok (_validate_timestamp now (get_field "timestamp" d))
        end)
  end.

Definition validate_json (d : observation) : verdict :=
  match get_field "id" d with
  | None => Some "Missing required field: 'id'"
  | Some _ => if (length d =? 0)%nat then Some "Observation cannot be empty" else None
  end.

Definition validate_api (d : observation) : verdict :=
  if (length d =? 0)%nat then Some "Observation cannot be empty" else None.

Inductive strategy := CSVObservationValidator | JSONObservationValidator | APIObservationValidator.

Definition validate (s : strategy) (now : datetime) (d : observation) : result exception verdict :=
  match s with
  | CSVObservationValidator => validate_csv now d
  | JSONObservationValidator => Ok (validate_json d)
  | APIObservationValidator => Ok (validate_api d)
  end.

End Strategies.

(** ** JSON text: [json.dumps(observation, sort_keys=True, default=str)] *)

Section Dumps.
Context (float_repr : Q -> string) (date_str : stamp -> string).

Definition object_text (items : list (string * string)) : string :=
  "{" +:+ String.concat ", " (map (fun x => AuditTrail.quoted x.1 +:+ ": " +:+ x.2)
            (order_by (fun x y : string * string => String.leb x.1 y.1) items)) +:+ "}".

Fixpoint json_text (j : json) : string :=
  match j with
  | JNull => "null"
  | JBool true => "true"
  | JBool false => "false"
  | JInt z => str_of_Z z
  | JFloat q => float_repr q
  | JStr s => AuditTrail.quoted s
  | JList l => "[" +:+ String.concat ", " (map json_text l) +:+ "]"
  | JObj l => object_text (map (fun x => (x.1, json_text x.2)) l)
  end.

Definition field_text (v : field) : string :=
  match v with Plain j => json_text j | Moment t => AuditTrail.quoted (date_str t) end.

Definition dumps (d : observation) : string := object_text (map (fun x => (x.1, field_text x.2)) d).

End Dumps.

(** ** The chain *)

Inductive transformer :=
| NullTransformer
| ValidatorTransformer (next : transformer) (s : strategy)
| DeduplicatorTransformer (next : transformer) (_seen_hashes : gset string)
| EnricherTransformer (next : transformer).

(** Whether the observation is accepted, or what is raised; the observation and the chain
    afterwards, which a raise leaves as they are then. *)
Record outcome := Outcome { accepted : result exception bool; left_as : observation; chain : transformer }.

Definition rechain (f : transformer -> transformer) (o : outcome) : outcome :=
  Outcome (accepted o) (left_as o) (f (chain o)).

(** The clock as the enricher and the validator read it. *)
Record readings := Readings { enriched_at : datetime; validated_at : datetime }.

Section Transform.
Context (float_of : string -> option pyfloat) (fromisoformat : string -> result string stamp)
        (float_repr : Q -> string) (date_str : stamp -> string) (sha256 : string -> string)
        (utc_isoformat : datetime -> string).

Definition digest (d : observation) : string := sha256 (dumps float_repr date_str d).

(** The fields the enricher adds. *)
Definition enrich (now : datetime) (d : observation) : observation :=
  let d := set_field "_ingested_at" (Plain (JStr (utc_isoformat now))) d in
  set_field "_source_hash" (Plain (JStr (digest d))) d.

Fixpoint transform (r : readings) (t : transformer) (d : observation) : outcome :=
  match t with
  | NullTransformer => Outcome (Ok true) d NullTransformer
  | ValidatorTransformer next s =>
      match validate float_of fromisoformat s (validated_at r) d with
      | Raise e => Outcome (Raise e) d t
      | Ok (Some _) => Outcome (Ok false) d t
      | Ok None => rechain (fun next => ValidatorTransformer next s) (transform r next d)
      end
  | DeduplicatorTransformer next seen =>
      let h := digest d in
      if decide (h ∈ seen) then Outcome (Ok false) d t
      else rechain (fun next => DeduplicatorTransformer next ({[h]} ∪ seen)) (transform r next d)
  | EnricherTransformer next => rechain EnricherTransformer (transform r next (enrich (enriched_at r) d))
  end.

(** A chain over a sequence of observations, each at its own readings. *)
Fixpoint transform_all (t : transformer) (l : list (readings * observation)) : list outcome * transformer :=
  match l with
  | [] => ([], t)
  | (r, d) :: l =>
      let o := transform r t d in
      let '(os, t) := transform_all (chain o) l in
      (o :: os, t)
  end.

End Transform.

(** ** The factory *)

(** [SyncConfig]; every key may be missing. *)
Record SyncConfig := Config {
  strategy_type : option string;
  enable_dedup : option bool;
  enrichment_rules : option (list string)
}.

Definition _build_strategy (s : string) : result exception strategy :=
  if decide (s = "csv") then Ok CSVObservationValidator
  else if decide (s = "json") then Ok JSONObservationValidator
  else if decide (s = "api") then Ok APIObservationValidator
  else Raise (UnknownStrategy ("Unknown strategy_type: " +:+ s)).

Definition create (sync_config : option SyncConfig) : result exception transformer :=
  let c := or_else sync_config (Config None None None) in
  bind_result (_build_strategy (or_else (strategy_type c) "csv")) (fun s =>
    let t := ValidatorTransformer NullTransformer s in
    let t := if or_else (enable_dedup c) true then DeduplicatorTransformer t ∅ else t in
    let t := match or_else (enrichment_rules c) [] with [] => t | _ => EnricherTransformer t end in
    Ok t).

End Transformations.

(** ** Theorems *)

Module TransformationTheorems.
Import Transformations.

(** *** Quoting is a prefix code *)

Definition all_ascii : list ascii := map ascii_of_nat (seq 0 256).

Lemma all_ascii_complete c : c ∈ all_ascii.
Proof.
  apply list_elem_of_In, in_map_iff. exists (nat_of_ascii c). split; [apply ascii_nat_embedding |].
  apply in_seq. pose proof (nat_ascii_bounded c). lia.
Qed.

Lemma escape_prefix_free_check :
  forallb (fun c => forallb (fun c' => Ascii.eqb c c' || negb (String.prefix (AuditTrail.escape c) (AuditTrail.escape c')))
    all_ascii) all_ascii = true.
Proof. vm_compute. reflexivity. Qed.

Lemma escape_prefix_free c c' : String.prefix (AuditTrail.escape c) (AuditTrail.escape c') = true -> c = c'.
Proof.
  intros H. pose proof escape_prefix_free_check as Hc. rewrite forallb_forall in Hc.
  specialize (Hc c (proj1 (list_elem_of_In _ _) (all_ascii_complete c))). rewrite forallb_forall in Hc.
  specialize (Hc c' (proj1 (list_elem_of_In _ _) (all_ascii_complete c'))). rewrite H in Hc. simpl in Hc.
  rewrite orb_false_r in Hc. by apply Ascii.eqb_eq.
Qed.

Lemma prefix_of_common a b x y : a +:+ x = b +:+ y -> String.prefix a b = true \/ String.prefix b a = true.
Proof.
  revert b. induction a as [|c a IH]; intros [|d b] H; simpl; try (by left); try (by right).
  injection H as <- H. destruct (ascii_dec c c) as [_|]; [by apply IH | done].
Qed.

Lemma escape_head c : exists d s, AuditTrail.escape c = String d s /\ d <> AuditTrail.double_quote.
Proof.
  assert (forallb (fun c => match AuditTrail.escape c with String d _ => negb (Ascii.eqb d AuditTrail.double_quote) | _ => false end)
    all_ascii = true) as H by (vm_compute; reflexivity).
  rewrite forallb_forall in H. specialize (H c (proj1 (list_elem_of_In _ _) (all_ascii_complete c))).
  destruct (AuditTrail.escape c) as [|d s]; [done |]. exists d, s. split; [done |].
  apply negb_true_iff, Ascii.eqb_neq in H. done.
Qed.

Lemma quoted_inj s s' x y : AuditTrail.quoted s +:+ x = AuditTrail.quoted s' +:+ y -> s = s' /\ x = y.
Proof.
  unfold AuditTrail.quoted. rewrite !append_cons. intros [= H]. revert s' H.
  induction s as [|c s IH]; intros [|c' s'] H; cbn [AuditTrail.escape_all] in H.
  - injection H as H. split; [done | exact H].
  - exfalso. destruct (escape_head c') as (d & r & E & Hd). rewrite E in H. injection H as H _. congruence.
  - exfalso. destruct (escape_head c) as (d & r & E & Hd). rewrite E in H. injection H as H _. congruence.
  - rewrite !append_assoc in H. assert (c = c') as <-.
    { destruct (prefix_of_common _ _ _ _ H) as [Hp|Hp]; [|symmetry]; by apply escape_prefix_free. }
    apply (inj (String.append (AuditTrail.escape c))) in H. rewrite <- !append_assoc in H.
    destruct (IH s' H) as [-> ->]. done.
Qed.

(** *** Enriched texts *)

(** Two lists of items that agree but at the fields the enricher adds. *)
Definition alike (x y : string * string) : Prop :=
  x.1 = y.1 /\ (x.1 <> "_ingested_at" -> x.1 <> "_source_hash" -> x.2 = y.2).

Abbreviation by_key := (fun x y : string * string => String.leb x.1 y.1) (only parsing).

Lemma insert_alike x y l l' :
  alike x y -> Forall2 alike l l' -> Forall2 alike (insert_by by_key x l) (insert_by by_key y l').
Proof.
  intros Hxy. induction 1 as [|a b l l' Hab Hl IH]; cbn [insert_by]; [constructor; [done | constructor] |].
  rewrite (proj1 Hxy), (proj1 Hab). destruct (String.leb y.1 b.1); constructor; try done. by constructor.
Qed.

Lemma order_alike l l' : Forall2 alike l l' -> Forall2 alike (order_by by_key l) (order_by by_key l').
Proof. induction 1 as [|x y l l' Hxy Hl IH]; cbn [order_by foldr]; [constructor |]. by apply insert_alike. Qed.

Lemma key_sorted l : StronglySorted (fun x y : string * string => String.leb x.1 y.1 = true) (order_by by_key l).
Proof.
  apply order_by_sorted.
  - intros x y. destruct (String.leb_total x.1 y.1); auto.
  - intros x y z. apply string_leb_trans.
Qed.

Definition item_text (x : string * string) : string := AuditTrail.quoted x.1 +:+ ": " +:+ x.2.

Lemma concat_cons_cancel u (l l' : list string) :
  length l = length l' -> String.concat ", " (u :: l) = String.concat ", " (u :: l') -> String.concat ", " l = String.concat ", " l'.
Proof.
  destruct l as [|w l], l' as [|w' l']; try done. intros _ H. cbn [String.concat] in H.
  apply (inj (String.append u)), (inj (String.append ", ")) in H. exact H.
Qed.

Lemma concat_head (u : string) l : exists r, String.concat ", " (u :: l) = u +:+ r.
Proof. destruct l as [|w l]; [exists "" | by eexists]. cbn [String.concat]. induction u as [|c u IH]; [done |]. rewrite append_cons. f_equal. exact IH. Qed.

(** Where two such texts are equal the ingestion times are. *)
Lemma alike_texts l l' s s' :
  Forall2 alike l l' -> StronglySorted (fun x y : string * string => String.leb x.1 y.1 = true) l ->
  ("_ingested_at", AuditTrail.quoted s) ∈ l -> ("_ingested_at", AuditTrail.quoted s') ∈ l' -> NoDup (map fst l') ->
  String.concat ", " (map item_text l) = String.concat ", " (map item_text l') -> s = s'.
Proof.
  intros Ha Hs Hin Hin' Hnd H. induction Ha as [|x y l l' [Exy Hxy] Ha IH]; [by apply not_elem_of_nil in Hin |].
  cbn [map] in H, Hnd. apply NoDup_cons in Hnd as [Hny Hnd]. apply StronglySorted_inv in Hs as [Hs Hx].
  destruct (decide (x.1 = "_ingested_at")) as [E|E].
  - assert (y = ("_ingested_at", AuditTrail.quoted s')) as ->.
    { apply elem_of_cons in Hin' as [<-|Hin']; [done |]. exfalso. apply Hny. rewrite <- Exy, E.
      apply list_elem_of_In. change "_ingested_at" with ("_ingested_at", AuditTrail.quoted s').1. apply in_map. by apply list_elem_of_In. }
    assert (x = ("_ingested_at", AuditTrail.quoted s)) as ->.
    { apply elem_of_cons in Hin as [<-|Hin]; [done |]. exfalso. apply Hny. rewrite <- Exy, E. clear -Ha Hin.
      induction Ha as [|a b l l' [Eab _] Ha IH]; [by apply not_elem_of_nil in Hin |]. cbn [map].
      apply elem_of_cons in Hin as [<-|Hin]; [rewrite <- Eab; set_solver | set_solver]. }
    destruct (concat_head (item_text ("_ingested_at", AuditTrail.quoted s)) (map item_text l)) as [r Er].
    destruct (concat_head (item_text ("_ingested_at", AuditTrail.quoted s')) (map item_text l')) as [r' Er'].
    rewrite Er, Er' in H. unfold item_text in H. cbn [fst snd] in H. rewrite !append_assoc in H.
    apply quoted_inj in H as [_ H]. apply (inj (String.append ": ")) in H. by apply quoted_inj in H as [H _].
  - assert (x.1 <> "_source_hash") as E'.
    { intros E'. apply elem_of_cons in Hin as [<-|Hin]; [done |]. rewrite Forall_forall in Hx. specialize (Hx _ Hin).
      rewrite E' in Hx. vm_compute in Hx. discriminate. }
    assert (x = y) as <- by (destruct x, y; simpl in *; f_equal; auto).
    apply IH; [done | | | done |].
    + apply elem_of_cons in Hin as [<-|Hin]; [done | exact Hin].
    + apply elem_of_cons in Hin' as [<-|Hin']; [done | exact Hin'].
    + apply (concat_cons_cancel (item_text x)); [|exact H]. rewrite !length_map. by apply Forall2_length in Ha.
Qed.

Section Texts.
Context (float_repr : Q -> string) (date_str : stamp -> string).

Definition items (d : list (string * field)) : list (string * string) := map (fun x => (x.1, field_text float_repr date_str x.2)) d.

Lemma dumps_items d : dumps float_repr date_str d = "{" +:+ String.concat ", " (map item_text (order_by by_key (items d))) +:+ "}".
Proof. reflexivity. Qed.

Lemma append_inj_l a b c : a +:+ c = b +:+ c -> a = b.
Proof.
  revert b. induction a as [|x a IH]; intros [|y b] H; [done | | |].
  - exfalso. apply (f_equal String.length) in H. change (EmptyString +:+ c) with c in H. rewrite append_cons in H. cbn [String.length] in H. rewrite String_length_append in H. lia.
  - exfalso. apply (f_equal String.length) in H. change (EmptyString +:+ c) with c in H. rewrite append_cons in H. cbn [String.length] in H. rewrite String_length_append in H. lia.
  - rewrite !append_cons in H. injection H as <- H. f_equal. by apply IH.
Qed.

Lemma set_field_alike k v v' d :
  k = "_ingested_at" \/ k = "_source_hash" -> Forall2 alike (items (set_field k v d)) (items (set_field k v' d)).
Proof.
  intros Hk. assert (forall x, alike x x) as Hr by done. induction d as [|[k' w] d IH]; cbn [set_field].
  - constructor; [|constructor]. split; [done |]. by destruct Hk as [-> | ->].
  - destruct (decide (k' = k)) as [->|]; cbn [items map].
    + constructor; [split; [done |]; by destruct Hk as [-> | ->] |]. clear IH. induction d; by constructor.
    + by constructor.
Qed.

Lemma set_field_both k v d d' :
  k = "_source_hash" -> Forall2 alike (items d) (items d') -> forall v', Forall2 alike (items (set_field k v d)) (items (set_field k v' d')).
Proof.
  intros Hk H v'. revert d' H. induction d as [|[a w] d IH]; intros [|[b w'] d'] H; try by inversion H.
  - by apply (set_field_alike k v v' []); right.
  - inversion H as [|? ? ? ? [E1 E2] Hd]; subst. cbn [fst snd] in E1. subst b. cbn [set_field].
    destruct (decide (a = "_source_hash")) as [->|]; cbn [items map]; constructor; try done.
    by apply IH.
Qed.

Lemma set_field_sub k v (d : list (string * field)) a : In a (map fst (set_field k v d)) -> a = k \/ In a (map fst d).
Proof.
  induction d as [|[k' w] d IH]; cbn [set_field map]; [intros [<-|[]]; by left |].
  destruct (decide (k' = k)) as [->|]; cbn [map]; intros [<-|Ha]; try (by left); try (by right; left); try (right; by right).
  destruct (IH Ha); [by left | right; by right].
Qed.

Lemma set_field_keys k v (d : list (string * field)) : NoDup (map fst d) -> NoDup (map fst (set_field k v d)).
Proof.
  induction d as [|[k' w] d IH]; intros Hnd; cbn [set_field map] in *; [repeat constructor; set_solver |].
  apply NoDup_cons in Hnd as [Hk Hnd]. destruct (decide (k' = k)) as [->|Hne]; cbn [map fst] in *; apply NoDup_cons; split; auto.
  intros [E|Hin]%list_elem_of_In%set_field_sub; [done |]. by apply Hk, list_elem_of_In.
Qed.

Lemma set_field_elem k v d : (k, v) ∈ set_field k v d.
Proof. induction d as [|[k' w] d IH]; cbn [set_field]; [set_solver |]. destruct (decide (k' = k)); set_solver. Qed.

Lemma set_field_other k k' v w d : k <> k' -> (k, v) ∈ d -> (k, v) ∈ set_field k' w d.
Proof.
  intros Hk. induction d as [|[a u] d IH]; cbn [set_field]; [by intros ?%not_elem_of_nil |].
  intros [[= <- <-]|H]%elem_of_cons; destruct (decide (_ = k')); try done; set_solver.
Qed.

End Texts.

(** *** Validation *)

Section Validation.
Context (float_of : string -> option pyfloat) (fromisoformat : string -> result string stamp).

(** A price the CSV rules take: NaN and the booleans included. *)
Definition price_ok (v : option field) : Prop :=
  match v with
  | Some (Plain (JStr s)) => exists x, float_of s = Some x /\ below_zero x = false
  | Some (Plain (JInt z)) => 0 <= z < FLOAT_OVERFLOW
  | Some (Plain (JFloat q)) => (0 <= q)%Q
  | Some (Plain (JBool _)) => True
  | _ => False
  end.

(** The datetime that a timestamp field stands for. *)
Definition reads_as (v : option field) (ts : stamp) : Prop :=
  v = Some (Moment ts) \/ exists s, v = Some (Plain (JStr s)) /\ fromisoformat (zulu s) = Ok ts.

Lemma overflow_pos : 0 < FLOAT_OVERFLOW.
Proof. vm_compute. reflexivity. Qed.

Lemma price_valid v : _validate_price float_of v = Ok None <-> price_ok v.
Proof.
  pose proof overflow_pos as Hp. unfold _validate_price, price_ok. destruct v as [[[ | b | z | q | s | | ]|]|]; try (split; [done | by intros []]); cbv zeta.
  - destruct b; split; done.
  - destruct (Z.leb_spec FLOAT_OVERFLOW (Z.abs z)); [split; [done | lia] |]. cbn [below_zero].
    destruct (Qltb (inject_Z z) 0) eqn:E; bool_to_prop; change 0%Q with (inject_Z 0) in E; [rewrite <- Zlt_Qlt in E | rewrite <- Zle_Qle in E];
      (split; [done || (intros; lia) | done || (intros; lia)]).
  - cbn [below_zero]. destruct (Qltb q 0) eqn:E; bool_to_prop; split; try done. intros. lra.
  - destruct (float_of s) as [x|]; [|split; [done | by intros (? & ? & _)]].
    destruct (below_zero x) eqn:E; split; try done; [intros (x' & [= <-] & Hx); congruence | intros _; by exists x].
Qed.

Lemma price_raises v e : _validate_price float_of v = Raise e -> e = OverflowError /\ exists z, v = Some (Plain (JInt z)) /\ FLOAT_OVERFLOW <= Z.abs z.
Proof.
  unfold _validate_price. destruct v as [[[ | b | z | q | s | | ]|]|]; try done; cbv zeta; cbn [below_zero].
  - by destruct b.
  - destruct (Z.leb_spec FLOAT_OVERFLOW (Z.abs z)); [intros [= <-]; split; [done | by exists z] | by destruct (Qltb _ _)].
  - by destruct (Qltb _ _).
  - destruct (float_of s) as [x|]; [|done]. by destruct (below_zero x).
Qed.

Lemma timestamp_valid now v :
  _validate_timestamp fromisoformat now v = None <-> exists ts, reads_as v ts /\ has_zone ts = true /\ instant ts <= now.
Proof.
  assert (forall ts, (if is_future now ts then Some "Timestamp cannot be in future" else None) = None <->
             has_zone ts = true /\ instant ts <= now) as Hj.
  { intros ts. unfold is_future. destruct (has_zone ts); [|naive_solver].
    destruct (Z.ltb_spec now (instant ts)); split; try done; lia. }
  unfold _validate_timestamp, reads_as. cbv zeta. destruct v as [[[ | | | | s | | ]|ts]|];
    try (split; [done | by intros (? & [?|(? & ? & _)] & _)]).
  - destruct (fromisoformat (zulu s)) as [ts|e] eqn:E.
    + rewrite Hj. split; [intros H; exists ts; split; [right; by exists s | done] |].
      intros (ts' & [?|(s' & Es & E')] & Hz); [done |]. injection Es as <-. rewrite E in E'. by injection E' as <-.
    + split; [done |]. intros (ts' & [?|(s' & Es & E')] & _); [done |]. injection Es as <-. congruence.
  - rewrite Hj. split; [intros H; exists ts; split; [by left | done] |].
    intros (ts' & [Es|(s' & ? & _)] & Hz); [by injection Es as <- | done].
Qed.

Lemma required_present d :
  first_missing d = None <-> get_field "id" d <> None /\ get_field "price" d <> None /\ get_field "timestamp" d <> None.
Proof.
  unfold first_missing, REQUIRED_FIELDS. cbn [List.filter].
  destruct (get_field "id" d), (get_field "price" d), (get_field "timestamp" d); cbn [head]; split; try done; try (intros _; by split_and!); intros (? & ? & ?); congruence.
Qed.

(** What the CSV rules take: an observation is valid exactly when its id is a string that
    is not empty, its price a number that is not below 0, NaN and the booleans included,
    and its timestamp reads as a datetime with a zone that is not in the future; one without
    a zone is always refused as a future one.  The rules raise, which no caller expects,
    exactly for a price too large for a float. *)
Theorem csv_valid_exact now d :
  (validate_csv float_of fromisoformat now d = Ok None <->
     (exists s, get_field "id" d = Some (Plain (JStr s)) /\ str_truthy s = true) /\
     price_ok (get_field "price" d) /\
     exists ts, reads_as (get_field "timestamp" d) ts /\ has_zone ts = true /\ instant ts <= now) /\
  forall e, validate_csv float_of fromisoformat now d = Raise e ->
    e = OverflowError /\ exists z, get_field "price" d = Some (Plain (JInt z)) /\ FLOAT_OVERFLOW <= Z.abs z.
Proof.
  unfold validate_csv. destruct (first_missing d) as [f|] eqn:Em.
  { split; [|done]. split; [done |]. intros ((s & Es & _) & Hp & (ts & Hr & _)). exfalso.
    assert (first_missing d = None) as E; [|congruence]. apply required_present. rewrite Es. split; [done |].
    split; [intros E; by rewrite E in Hp |]. intros E. rewrite E in Hr. destruct Hr as [?|(? & ? & _)]; done. }
  destruct (_validate_id (get_field "id" d)) eqn:Ei; cbn [negb].
  - assert (exists s, get_field "id" d = Some (Plain (JStr s)) /\ str_truthy s = true) as Hid.
    { unfold _validate_id in Ei. destruct (get_field "id" d) as [[[ | | | | s | | ]|]|]; try done. by exists s. }
    destruct (_validate_price float_of (get_field "price" d)) as [[m|]|e] eqn:Ep; cbn [bind_result].
    + split; [|done]. split; [done |]. intros (_ & Hp & _). apply price_valid in Hp. congruence.
    + apply price_valid in Ep. split; [|done]. split.
      * intros [= Ht]. split; [done |]. split; [done |]. by apply timestamp_valid.
      * intros (_ & _ & Ht). by rewrite (proj2 (timestamp_valid now _) Ht).
    + split; [split; [done |]; intros (_ & Hp & _); apply price_valid in Hp; congruence |].
      intros e' [= <-]. by apply price_raises.
  - split; [|done]. split; [done |]. intros ((s & Es & Ht) & _). unfold _validate_id in Ei. rewrite Es in Ei. congruence.
Qed.

End Validation.

(** *** Pipelines *)

Section Pipelines.
Context (float_of : string -> option pyfloat) (fromisoformat : string -> result string stamp)
        (float_repr : Q -> string) (date_str : stamp -> string) (sha256 : string -> string)
        (utc_isoformat : datetime -> string).
Context (collision_free : forall m m', sha256 m = sha256 m' -> m = m').

Let run := transform_all float_of fromisoformat float_repr date_str sha256 utc_isoformat.
Let text := dumps float_repr date_str.
Let enriched := enrich float_repr date_str sha256 utc_isoformat.

(** What the validator alone decides. *)
Definition judged (s : strategy) (now : datetime) (d : list (string * field)) : result exception bool :=
  match validate float_of fromisoformat s now d with
  | Raise e => Raise e
  | Ok (Some _) => Ok false
  | Ok None => Ok true
  end.

Lemma validator_judges r s d :
  transform float_of fromisoformat float_repr date_str sha256 utc_isoformat r (ValidatorTransformer NullTransformer s) d =
  Outcome (judged s (validated_at r) d) d (ValidatorTransformer NullTransformer s).
Proof. cbn [transform]. unfold judged. by destruct (validate _ _ _ _ _) as [[m|]|e]. Qed.

Lemma dedup_run s seen l i r d :
  l !! i = Some (r, d) ->
  exists o, fst (run (DeduplicatorTransformer (ValidatorTransformer NullTransformer s) seen) l) !! i = Some o /\ left_as o = d /\
    (sha256 (text d) ∈ seen \/ (exists j r' d', (j < i)%nat /\ l !! j = Some (r', d') /\ text d' = text d) -> accepted o = Ok false) /\
    (sha256 (text d) ∉ seen -> (forall j r' d', (j < i)%nat -> l !! j = Some (r', d') -> text d' <> text d) ->
       accepted o = judged s (validated_at r) d).
Proof.
  unfold run. revert seen i. induction l as [|[r0 d0] l IH]; intros seen i Hi; [done |].
  cbn [transform_all]. set (o0 := transform _ _ _ _ _ _ r0 _ d0).
  assert (exists seen', chain o0 = DeduplicatorTransformer (ValidatorTransformer NullTransformer s) seen' /\ left_as o0 = d0 /\
    (forall h, h ∈ seen' <-> h = sha256 (text d0) \/ h ∈ seen) /\
    accepted o0 = if decide (sha256 (text d0) ∈ seen) then Ok false else judged s (validated_at r0) d0) as (seen' & Ec & El & Hs & Ea).
  { unfold o0. cbn [transform]. unfold digest. fold text. destruct (decide (sha256 (text d0) ∈ seen)) as [Hin|Hn].
    - exists seen. split; [done |]. split; [done |]. split; [naive_solver | done].
    - fold (transform float_of fromisoformat float_repr date_str sha256 utc_isoformat r0 (ValidatorTransformer NullTransformer s) d0).
      rewrite validator_judges. exists ({[sha256 (text d0)]} ∪ seen). split; [done |]. split; [done |]. split; [set_solver | done]. }
  rewrite Ec. destruct (transform_all _ _ _ _ _ _ _ l) as [os t] eqn:Er. cbn [fst].
  destruct i as [|i]; cbn in Hi |- *.
  - injection Hi as <- <-. exists o0. split; [done |]. split; [done |]. rewrite Ea. split.
    + intros [Hin|(j & ? & ? & ? & _)]; [by rewrite decide_True | lia].
    + intros Hn _. by rewrite decide_False.
  - destruct (IH seen' i Hi) as (o & Ho & Hd & Hrej & Hacc). rewrite Er in Ho. exists o. split; [done |]. split; [done |]. split.
    + intros H. apply Hrej. destruct H as [Hin|(j & r' & d' & Hj & Hl & Et)]; [left; apply Hs; by right |].
      destruct j as [|j]; cbn in Hl; [injection Hl as <- <-; left; apply Hs; left; by rewrite Et |].
      right. exists j, r', d'. split; [lia | done].
    + intros Hn Hf. apply Hacc.
      * intros [E|Hin]%Hs; [|done]. apply collision_free in E. exact (Hf O r0 d0 ltac:(lia) eq_refl (eq_sym E)).
      * intros j r' d' Hj Hl. apply (Hf (S j) r' d'); [lia | done].
Qed.

(** Without enrichment a pipeline that deduplicates accepts an observation exactly when
    its validator does and no earlier observation had the same text, valid or
    not; whatever it answers it leaves the observation as it was. *)
Theorem dedup_rejects_repeats s l i r d :
  l !! i = Some (r, d) ->
  exists o, fst (run (DeduplicatorTransformer (ValidatorTransformer NullTransformer s) ∅) l) !! i = Some o /\ left_as o = d /\
    ((exists j r' d', (j < i)%nat /\ l !! j = Some (r', d') /\ text d' = text d) -> accepted o = Ok false) /\
    ((forall j r' d', (j < i)%nat -> l !! j = Some (r', d') -> text d' <> text d) -> accepted o = judged s (validated_at r) d).
Proof.
  intros Hi. destruct (dedup_run s ∅ l i r d Hi) as (o & Ho & Hd & H1 & H2). exists o. split; [done |]. split; [done |].
  split; [intros H; apply H1; by right | intros H; apply H2; [set_solver | exact H]].
Qed.

Lemma enrich_alike t t' d :
  Forall2 alike (items float_repr date_str (enriched t d)) (items float_repr date_str (enriched t' d)).
Proof.
  unfold enriched, enrich. cbv zeta.
  apply set_field_both; [done |]. apply set_field_alike. by left.
Qed.

Lemma enriched_keys t d : NoDup (map fst d) -> NoDup (map fst (enriched t d)).
Proof. intros H. unfold enriched, enrich. by do 2 apply set_field_keys. Qed.

Lemma enriched_elem t d : ("_ingested_at", Plain (JStr (utc_isoformat t))) ∈ enriched t d.
Proof. unfold enriched, enrich. cbv zeta. apply set_field_other; [done | apply set_field_elem]. Qed.

Lemma items_keys d : map fst (items float_repr date_str d) = map fst d.
Proof. unfold items. by rewrite map_map. Qed.

(** Enriched texts are equal only at equal instants. *)
Lemma enriched_text_time t t' d :
  NoDup (map fst d) -> text (enriched t d) = text (enriched t' d) -> utc_isoformat t = utc_isoformat t'.
Proof.
  intros Hnd H. unfold text in H. rewrite !dumps_items in H. apply (inj (String.append "{")) in H. apply append_inj_l in H.
  assert (forall t, ("_ingested_at", AuditTrail.quoted (utc_isoformat t)) ∈
    order_by by_key (items float_repr date_str (enriched t d))) as Hin.
  { intros u. rewrite order_by_perm. apply list_elem_of_In, in_map_iff.
    exists ("_ingested_at", Plain (JStr (utc_isoformat u))). split; [done |]. apply list_elem_of_In, enriched_elem. }
  refine (alike_texts _ _ _ _ _ _ (Hin t) (Hin t') _ H); [apply order_alike, enrich_alike | apply key_sorted |].
  rewrite (Permutation_map fst (order_by_perm _ _)), items_keys. by apply enriched_keys.
Qed.

Lemma enriched_run s d seen rs :
  NoDup (map fst d) -> NoDup (map (fun r => utc_isoformat (enriched_at r)) rs) ->
  (forall r, r ∈ rs -> sha256 (text (enriched (enriched_at r) d)) ∉ seen) ->
  map (fun o => (accepted o, left_as o))
    (fst (run (EnricherTransformer (DeduplicatorTransformer (ValidatorTransformer NullTransformer s) seen)) (map (fun r => (r, d)) rs))) =
  map (fun r => (judged s (validated_at r) (enriched (enriched_at r) d), enriched (enriched_at r) d)) rs.
Proof.
  intros Hd. revert seen. unfold run. induction rs as [|r rs IH]; intros seen Hnd Hf; [done |].
  cbn [map] in Hnd. apply NoDup_cons in Hnd as [Hr Hnd]. cbn [map transform_all transform]. fold enriched.
  unfold digest. fold text. rewrite decide_False by (apply Hf; set_solver).
  fold (transform float_of fromisoformat float_repr date_str sha256 utc_isoformat r (ValidatorTransformer NullTransformer s)
          (enriched (enriched_at r) d)).
  rewrite validator_judges. cbn [rechain chain accepted left_as].
  set (seen' := {[sha256 (text (enriched (enriched_at r) d))]} ∪ seen).
  destruct (transform_all _ _ _ _ _ _ _ (map _ rs)) as [os t] eqn:E. cbn [fst map accepted left_as]. f_equal.
  specialize (IH seen' Hnd). rewrite E in IH. apply IH. intros r' Hr' [Hin|Hin]%elem_of_union; [|by apply (Hf r'); set_solver].
  apply elem_of_singleton in Hin. apply collision_free, enriched_text_time in Hin; [|done].
  apply Hr. rewrite <- Hin. apply list_elem_of_In. apply (in_map (fun r => utc_isoformat (enriched_at r))). by apply list_elem_of_In.
Qed.

(** With enrichment the deduplicator never rejects anything: it comes after the
    enricher, so that the text it compares has the time of ingestion in it, and one
    observation sent again and again at distinct times gets the validator's
    answer each time. *)
Theorem enriched_never_duplicate s d rs :
  NoDup (map fst d) -> NoDup (map (fun r => utc_isoformat (enriched_at r)) rs) ->
  map (fun o => (accepted o, left_as o))
    (fst (run (EnricherTransformer (DeduplicatorTransformer (ValidatorTransformer NullTransformer s) ∅)) (map (fun r => (r, d)) rs))) =
  map (fun r => (judged s (validated_at r) (enriched (enriched_at r) d), enriched (enriched_at r) d)) rs.
Proof. intros Hd Hnd. apply enriched_run; [done | done | set_solver]. Qed.

End Pipelines.

(** What the factory builds: a configuration is refused exactly for an unknown strategy;
    otherwise enrichment, where there is any rule, comes before deduplication, on by
    default, and that before validation, by the CSV rules by default. *)
Theorem factory_builds c :
  (forall e, create c = Raise e -> exists s, c ≫= strategy_type = Some s /\ s <> "csv" /\ s <> "json" /\ s <> "api" /\ e = UnknownStrategy ("Unknown strategy_type: " +:+ s)) /\
  forall t, create c = Ok t -> exists s,
    _build_strategy (default "csv" (c ≫= strategy_type)) = Ok s /\
    let v := ValidatorTransformer NullTransformer s in
    let u := if default true (c ≫= enable_dedup) then DeduplicatorTransformer v ∅ else v in
    t = if decide (default [] (c ≫= enrichment_rules) = []) then u else EnricherTransformer u.
Proof.
  unfold create. cbv zeta. destruct c as [[st de ru]|]; cbn [or_else strategy_type enable_dedup enrichment_rules].
  - split.
    + intros e He. destruct st as [s|]; cbn [or_else] in He; [|done]. exists s. unfold _build_strategy in He.
      destruct (decide (s = "csv")); [done |]. destruct (decide (s = "json")); [done |]. destruct (decide (s = "api")); [done |].
      by injection He as <-.
    + intros t Ht. destruct (_build_strategy (or_else st "csv")) as [s|e] eqn:Es; [|done]. exists s. split; [by destruct st |].
      cbn [bind_result] in Ht. injection Ht as <-. destruct de as [[]|], ru as [[|x l]|]; reflexivity.
  - split; [done |]. intros t [= <-]. by exists CSVObservationValidator.
Qed.

End TransformationTheorems.

(** ** Witnesses *)

Module TransformationWitnesses.
Import Transformations TransformationTheorems.

(** Prices in digits, dates as one zoned or one naive instant, a hash that is the text. *)
Definition price_text (s : string) : option pyfloat :=
  if decide (s = "nan") then Some NaN else if decide (s = "12") then Some (Number 12) else None.
Definition dates (s : string) : result string stamp :=
  if decide (s = "2024-01-01T00:00:00+00:00") then Ok (Stamp 100 true)
  else if decide (s = "2024-01-01T00:00:00") then Ok (Stamp 100 false)
  else Raise "Invalid isoformat string".
Definition no_floats (q : Q) : string := "0.0".
Definition date_text (t : stamp) : string := str_of_Z (instant t).
Definition spell (m : string) : string := m.

Definition reading (price : field) (ts : string) : list (string * field) :=
  [("id", Plain (JStr "a")); ("price", price); ("timestamp", Plain (JStr ts))].

Abbreviation through := (transform_all price_text dates no_floats date_text spell str_of_Z) (only parsing).

Definition csv_chain : transformer := DeduplicatorTransformer (ValidatorTransformer NullTransformer CSVObservationValidator) ∅.

Example default_pipeline : create None = Ok csv_chain.
Proof. reflexivity. Qed.

(** A naive timestamp of long ago is refused, a price that is not a number taken. *)
Example naive_is_future :
  validate_csv price_text dates 1000 (reading (Plain (JInt 3)) "2024-01-01T00:00:00") = Ok (Some "Timestamp cannot be in future") /\
  validate_csv price_text dates 1000 (reading (Plain (JStr "nan")) "2024-01-01T00:00:00Z") = Ok None.
Proof. split; vm_compute; reflexivity. Qed.

(** An observation that comes before its time is a duplicate when its time has come. *)
Example early_is_lost :
  let d := reading (Plain (JInt 3)) "2024-01-01T00:00:00Z" in
  map accepted (fst (through csv_chain [(Readings 50 50, d); (Readings 200 200, d)])) = [Ok false; Ok false] /\
  map accepted (fst (through csv_chain [(Readings 200 200, d); (Readings 201 201, d)])) = [Ok true; Ok false].
Proof. split; vm_compute; reflexivity. Qed.

Lemma spell_free : forall m m', spell m = spell m' -> m = m'.
Proof. done. Qed.

Lemma csv_valid_exact_witness :
  validate_csv price_text dates 1000 (reading (Plain (JInt (2 ^ 1100))) "2024-01-01T00:00:00Z") = Raise OverflowError /\
  OverflowError = OverflowError.
Proof.
  split; [vm_compute; reflexivity |].
  apply (csv_valid_exact price_text dates 1000 (reading (Plain (JInt (2 ^ 1100))) "2024-01-01T00:00:00Z")).
  vm_compute. reflexivity.
Defined.

Lemma dedup_rejects_repeats_witness :
  let d := reading (Plain (JInt 3)) "2024-01-01T00:00:00Z" in
  exists o, fst (through csv_chain [(Readings 50 50, d); (Readings 200 200, d)]) !! 1%nat = Some o /\ accepted o = Ok false.
Proof.
  cbv zeta. set (d := reading (Plain (JInt 3)) "2024-01-01T00:00:00Z").
  destruct (dedup_rejects_repeats price_text dates no_floats date_text spell str_of_Z spell_free CSVObservationValidator
    [(Readings 50 50, d); (Readings 200 200, d)] 1 (Readings 200 200) d eq_refl) as (o & Ho & _ & Hr & _).
  exists o. split; [exact Ho |]. apply Hr. exists 0%nat, (Readings 50 50), d. split; [lia | split; reflexivity].
Defined.

Lemma enriched_never_duplicate_witness :
  let d := reading (Plain (JInt 3)) "2024-01-01T00:00:00Z" in
  map accepted (fst (through (EnricherTransformer csv_chain) [(Readings 200 200, d); (Readings 201 201, d)])) = [Ok true; Ok true].
Proof.
  cbv zeta. set (d := reading (Plain (JInt 3)) "2024-01-01T00:00:00Z").
  assert (NoDup (map fst d)) as Hd by (vm_compute; apply NoDup_ListNoDup; repeat constructor; simpl; intuition discriminate).
  assert (NoDup (map (fun r => str_of_Z (enriched_at r)) [Readings 200 200; Readings 201 201])) as Hr
    by (apply NoDup_ListNoDup; repeat constructor; simpl; intuition discriminate).
  pose proof (enriched_never_duplicate price_text dates no_floats date_text spell str_of_Z spell_free CSVObservationValidator d
    [Readings 200 200; Readings 201 201] Hd Hr) as H.
  apply (f_equal (map fst)) in H. rewrite !map_map in H. exact H.
Defined.

Lemma factory_builds_witness :
  create (Some (Config (Some "xml") None None)) = Raise (UnknownStrategy "Unknown strategy_type: xml") /\
  exists s, Some "xml" = Some s /\ s <> "csv".
Proof.
  split; [reflexivity |].
  destruct (proj1 (factory_builds (Some (Config (Some "xml") None None))) _ eq_refl) as (s & Es & Hs & _).
  exists s. split; [exact Es | exact Hs].
Defined.

End TransformationWitnesses.
