(* ===== verification/EventStore.v ===== *)
(** * The store of processed events (storage/events.py, models/events.py)

    The rows that track consumed Kafka events: created once per idempotency key, claimed,
    marked.  A column whose value does not fit raises [DataError], a taken key
    [IntegrityError].  The columns that this module never writes after the insert
    (updated_at, deleted_at, tenant_id) are left out. *)

From S2P Require Import Prelude Db.

Module EventStore.

Inductive status := pending | processing | completed | failed | dead_letter.

#[global] Instance status_eq_dec : EqDecision status.
Proof. solve_decision. Defined.

Record ProcessedEvent := Event {
  kafka_topic : string;
  kafka_partition : Z;
  kafka_offset : Z;
  idempotency_key : string;
  event_type : string;
  payload : list (string * json);
  event_status : status;
  processing_attempts : Z;
  error_message : option string;
  error_details : option (list (string * json));
  dead_letter_queue : bool;
  dlq_reason : option string;
  processed_at : option datetime;
  created_at : datetime
}.

Abbreviation events := (table ProcessedEvent) (only parsing).

Inductive db_error := DataError | KeyTaken.

(** ** Columns *)

Definition fits_varchar (n : Z) (s : string) : bool := Z.of_nat (String.length s) <=? n.
Definition fits_opt (n : Z) (s : option string) : bool := match s with Some s => fits_varchar n s | None => true end.

(** [Integer] is four bytes. *)
Definition fits_int (z : Z) : bool := (- 2 ^ 31 <=? z) && (z <? 2 ^ 31).

Definition columns_fit (e : ProcessedEvent) : bool :=
  fits_varchar 255 (kafka_topic e) && fits_int (kafka_partition e) && fits_int (kafka_offset e) &&
  fits_varchar 255 (idempotency_key e) && fits_varchar 100 (event_type e) && fits_int (processing_attempts e) &&
  fits_opt 500 (error_message e) && fits_opt 500 (dlq_reason e).

(** ** Creation *)

(** What a caller passes. *)
Record event_data := Data {
  data_topic : string;
  data_partition : Z;
  data_offset : Z;
  data_key : string;
  data_type : string;
  data_payload : list (string * json)
}.

Definition new_event (now : datetime) (d : event_data) : ProcessedEvent :=
  Event (data_topic d) (data_partition d) (data_offset d) (data_key d) (data_type d) (data_payload d) pending 0 None None false
    None None now.

Definition has_key (k : string) (e : ProcessedEvent) : bool := bool_decide (idempotency_key e = k).

(** The event with whether it was created.  A refused insert consumes a sequence value. *)
Definition create_processed_event (now : datetime) (d : event_data) (t : events)
    : result db_error (Z * ProcessedEvent * bool * events) :=
  let e := new_event now d in
  if negb (columns_fit e) then Raise DataError
  else
    match scalar (has_key (data_key d)) t with
    | Some (i, existing) => Ok (i, existing, false, Table (rows t) (next_id t + 1))
    | None => let '(i, t) := insert e t in Ok (i, e, true, t)
    end.

(** One statement: all rows or none. *)
Fixpoint insert_all (now : datetime) (l : list event_data) (t : events) : result db_error (list (Z * ProcessedEvent) * events) :=
  match l with
  | [] => Ok ([], t)
  | d :: l =>
      let e := new_event now d in
      if negb (columns_fit e) then Raise DataError
      else
        match scalar (has_key (data_key d)) t with
        | Some _ => Raise KeyTaken
        | None =>
            let '(i, t) := insert e t in
            bind_result (insert_all now l t) (fun '(es, t) => Ok ((i, e) :: es, t))
        end
  end.

Definition batch_create_processed_events (now : datetime) (l : list event_data) (t : events)
    : result db_error (list (Z * ProcessedEvent) * events) :=
  match l with [] => Ok ([], t) | _ => insert_all now l t end.

(** ** Marks *)

Definition set_status (s : status) (e : ProcessedEvent) : ProcessedEvent :=
  Event (kafka_topic e) (kafka_partition e) (kafka_offset e) (idempotency_key e) (event_type e) (payload e) s
    (processing_attempts e) (error_message e) (error_details e) (dead_letter_queue e) (dlq_reason e) (processed_at e) (created_at e).

Definition take_up (e : ProcessedEvent) : ProcessedEvent :=
  Event (kafka_topic e) (kafka_partition e) (kafka_offset e) (idempotency_key e) (event_type e) (payload e) processing
    (processing_attempts e + 1) (error_message e) (error_details e) (dead_letter_queue e) (dlq_reason e) (processed_at e) (created_at e).

Definition complete (now : datetime) (e : ProcessedEvent) : ProcessedEvent :=
  Event (kafka_topic e) (kafka_partition e) (kafka_offset e) (idempotency_key e) (event_type e) (payload e) completed
    (processing_attempts e) (error_message e) (error_details e) (dead_letter_queue e) (dlq_reason e) (Some now) (created_at e).

Definition fail (message : string) (details : option (list (string * json))) (e : ProcessedEvent) : ProcessedEvent :=
  Event (kafka_topic e) (kafka_partition e) (kafka_offset e) (idempotency_key e) (event_type e) (payload e) failed
    (processing_attempts e) (Some message) details (dead_letter_queue e) (dlq_reason e) (processed_at e) (created_at e).

Definition bury (reason : string) (e : ProcessedEvent) : ProcessedEvent :=
  Event (kafka_topic e) (kafka_partition e) (kafka_offset e) (idempotency_key e) (event_type e) (payload e) dead_letter
    (processing_attempts e) (error_message e) (error_details e) true (Some reason) (processed_at e) (created_at e).

(** Get, change, commit, refresh: [None] for an event that is not there. *)
Definition mark (f : ProcessedEvent -> ProcessedEvent) (i : Z) (t : events) : result db_error (option ProcessedEvent * events) :=
  match get i t with
  | None => Ok (None, t)
  | Some e => if columns_fit (f e) then Ok (Some (f e), update i f t) else Raise DataError
  end.

Definition mark_event_processing (i : Z) (t : events) := mark take_up i t.
Definition mark_event_completed (now : datetime) (i : Z) (t : events) := mark (complete now) i t.
Definition mark_event_failed (i : Z) (message : string) (details : option (list (string * json))) (t : events) :=
  mark (fail message details) i t.
Definition mark_event_dlq (i : Z) (reason : string) (t : events) := mark (bury reason) i t.

(** ** Queries and the claim *)

Definition in_status (s : status) (e : ProcessedEvent) : bool := bool_decide (event_status e = s).

Definition get_events_by_status (s : status) (limit : nat) (t : events) : list (Z * ProcessedEvent) :=
  take limit (select (in_status s) t).

Definition newest_event (x y : Z * ProcessedEvent) : bool := created_at y.2 <=? created_at x.2.

Definition get_dlq_events (limit : nat) (t : events) : list (Z * ProcessedEvent) :=
  take limit (order_by newest_event (select dead_letter_queue t)).

(** [locked] are the rows other transactions hold. *)
Definition claim_pending_events (locked : Z -> bool) (batch_size : nat) (t : events)
    : result db_error (list (Z * ProcessedEvent) * events) :=
  let claimed := select_for_update locked (in_status pending) batch_size t in
  if forallb (fun x => columns_fit (take_up x.2)) claimed
  then Ok (map (fun x => (x.1, take_up x.2)) claimed, update_all (map fst claimed) take_up t)
  else Raise DataError.

(** ** Runs *)

Inductive operation :=
| create_op (now : datetime) (d : event_data)
| batch_op (now : datetime) (l : list event_data)
| processing_op (i : Z)
| completed_op (now : datetime) (i : Z)
| failed_op (i : Z) (message : string) (details : option (list (string * json)))
| dlq_op (i : Z) (reason : string)
| claim_op (locked : Z -> bool) (batch_size : nat).

Definition table_of {A} (t : events) (r : result db_error (A * events)) : events :=
  match r with Ok (_, t) => t | Raise _ => t end.

(** The store after an operation, and the events it handed out for processing as a claim.
    A raise leaves what was committed. *)
Definition perform (o : operation) (t : events) : list Z * events :=
  match o with
  | create_op now d =>
      match create_processed_event now d t with Ok (_, _, _, t) => ([], t) | Raise _ => ([], t) end
  | batch_op now l => ([], table_of t (batch_create_processed_events now l t))
  | processing_op i => ([], table_of t (mark_event_processing i t))
  | completed_op now i => ([], table_of t (mark_event_completed now i t))
  | failed_op i m d => ([], table_of t (mark_event_failed i m d t))
  | dlq_op i r => ([], table_of t (mark_event_dlq i r t))
  | claim_op locked n =>
      match claim_pending_events locked n t with Ok (l, t) => (map fst l, t) | Raise _ => ([], t) end
  end.

Fixpoint perform_all (l : list operation) (t : events) : list Z * events :=
  match l with
  | [] => ([], t)
  | o :: l =>
      let '(c, t) := perform o t in
      let '(cs, t) := perform_all l t in
      (c ++ cs, t)
  end.

End EventStore.

(** ** Theorems *)

Module EventStoreTheorems.
Import EventStore.

(** What every row keeps to: its columns fit and say what its status says. *)
Record row_ok (e : ProcessedEvent) : Prop := {
  ok_columns : columns_fit e = true;
  ok_attempts : 0 <= processing_attempts e;
  ok_pending : event_status e = pending -> processing_attempts e = 0;
  ok_processing : event_status e = processing -> 1 <= processing_attempts e;
  ok_completed : event_status e = completed -> processed_at e <> None;
  ok_failed : event_status e = failed -> error_message e <> None;
  ok_dead : event_status e = dead_letter -> dead_letter_queue e = true;
  ok_reason : dead_letter_queue e = true -> dlq_reason e <> None
}.

Definition key_of (e : ProcessedEvent) : option string := Some (idempotency_key e).

Record sound (t : events) : Prop := {
  sound_wf : wf_table t;
  sound_keys : unique key_of t;
  sound_rows : every (fun _ => row_ok) t
}.

Lemma sound_empty : sound (empty_table ProcessedEvent).
Proof. split; [apply wf_empty | |]; [intros i j r s k H; done | intros i r H; done]. Qed.

(** A change that keeps the key, and every row it gives fit. *)
Record change_ok (f : ProcessedEvent -> ProcessedEvent) : Prop := {
  change_key : forall e, idempotency_key (f e) = idempotency_key e;
  change_status : forall e, event_status (f e) <> pending;
  change_row : forall e, row_ok e -> columns_fit (f e) = true -> row_ok (f e)
}.

Ltac solve_change := split; [done | done | intros e [] Hf; split; simpl in *; try done; try lia].

Lemma take_up_ok : change_ok take_up.
Proof. solve_change. Qed.
Lemma complete_ok now : change_ok (complete now).
Proof. solve_change. Qed.
Lemma fail_ok m d : change_ok (fail m d).
Proof. solve_change. Qed.
Lemma bury_ok r : change_ok (bury r).
Proof. solve_change. Qed.

#[local] Hint Resolve take_up_ok complete_ok fail_ok bury_ok : core.

Lemma sound_update f i t :
  change_ok f -> sound t -> (forall e, get i t = Some e -> columns_fit (f e) = true) -> sound (update i f t).
Proof.
  intros [Hk _ Hr] [Hwf Hu He] Hf. split; [by apply wf_update | |].
  - apply unique_update; [done |]. intros r Hg. left. unfold key_of. by rewrite Hk.
  - apply every_update; [done |]. intros r Hg Hok. by apply Hr; [|apply Hf].
Qed.

Lemma sound_insert e t :
  sound t -> row_ok e -> scalar (has_key (idempotency_key e)) t = None -> sound (snd (insert e t)).
Proof.
  intros [Hwf Hu He] Hok Hn. split; [by apply wf_insert | |].
  - apply unique_insert; [done | done |]. intros k [= <-] i r Hg [= Hk].
    rewrite scalar_None in Hn by done. specialize (Hn i r Hg). cbv beta in Hn. unfold has_key in Hn. rewrite Hk in Hn.
    by rewrite bool_decide_eq_true_2 in Hn.
  - by apply every_insert.
Qed.

Lemma sound_burn t : sound t -> sound (Table (rows t) (next_id t + 1)).
Proof. intros [Hwf Hu He]. split; [by apply wf_burn | exact Hu | exact He]. Qed.

Lemma new_event_ok now d : columns_fit (new_event now d) = true -> row_ok (new_event now d).
Proof. intros H. by split. Qed.

Lemma sound_insert_all now l t : sound t -> sound (table_of t (insert_all now l t)) .
Proof.
  assert (forall l t es t', sound t -> insert_all now l t = Ok (es, t') -> sound t') as H.
  { clear. induction l as [|d l IH]; intros t es t' Hs; cbn [insert_all]; [by intros [= _ <-] |]. cbv zeta.
    destruct (columns_fit (new_event now d)) eqn:Ef; [|done]. cbn [negb].
    destruct (scalar (has_key (data_key d)) t) eqn:En; [done |]. cbn [insert].
    destruct (insert_all now l _) as [[es' t'']|] eqn:Er; [|done]. cbn [bind_result]. intros [= _ <-]. eapply IH; [|exact Er].
    apply (sound_insert (new_event now d)); [done | by apply new_event_ok | done]. }
  intros Hs. destruct (insert_all now l t) as [[es t']|] eqn:E; [|done]. by eapply H.
Qed.

Lemma mark_ok f i t e t' : change_ok f -> mark f i t = Ok (e, t') -> t' = t \/ (t' = update i f t /\ forall r, get i t = Some r -> columns_fit (f r) = true).
Proof.
  intros Hf. unfold mark. destruct (get i t) as [r|]; [|intros [= _ <-]; by left].
  destruct (columns_fit (f r)) eqn:E; [|done]. intros [= _ <-]. right. split; [done |]. by intros ? [= <-].
Qed.

Lemma sound_mark f i t : change_ok f -> sound t -> sound (table_of t (mark f i t)).
Proof.
  intros Hf Hs. destruct (mark f i t) as [[e t']|] eqn:E; [|done]. cbn [table_of].
  destruct (mark_ok _ _ _ _ _ Hf E) as [->|[-> H]]; [done | by apply sound_update].
Qed.

Lemma claimed_fit locked n t l t' :
  claim_pending_events locked n t = Ok (l, t') ->
  map fst l = map fst (select_for_update locked (in_status pending) n t) /\
  t' = update_all (map fst (select_for_update locked (in_status pending) n t)) take_up t /\
  Forall (fun x => columns_fit (take_up x.2) = true) (select_for_update locked (in_status pending) n t).
Proof.
  unfold claim_pending_events. cbv zeta. destruct (forallb _ _) eqn:E; [|done]. intros [= <- <-].
  split; [by rewrite map_map |]. split; [done |]. apply List.Forall_forall. intros x Hx. rewrite forallb_forall in E. by apply E.
Qed.

Lemma sound_update_all f keys t :
  change_ok f -> NoDup keys -> sound t -> (forall i e, i ∈ keys -> get i t = Some e -> columns_fit (f e) = true) ->
  sound (update_all keys f t).
Proof.
  intros Hf. revert t. induction keys as [|i keys IH]; intros t Hnd Hs Hk; [done |].
  apply NoDup_cons in Hnd as [Hi Hnd]. change (update_all (i :: keys) f t) with (update_all keys f (update i f t)).
  apply IH; [done | |].
  - apply sound_update; [done | done |]. intros e He. apply (Hk i); [set_solver | done].
  - intros j e Hj. rewrite get_update. destruct (Z.eqb_spec i j) as [->|]; [done |]. apply Hk. set_solver.
Qed.

Lemma sound_perform o t : sound t -> sound (snd (perform o t)).
Proof.
  intros Hs. destruct o as [now d|now l|i|now i|i m d|i r|locked n]; cbn [perform snd].
  - unfold create_processed_event. cbv zeta. destruct (columns_fit (new_event now d)) eqn:Ef; cbn [negb]; [|done].
    destruct (scalar (has_key (data_key d)) t) as [[i e]|] eqn:En; cbn [snd]; [by apply sound_burn |].
    apply (sound_insert (new_event now d)); [done | by apply new_event_ok | done].
  - unfold batch_create_processed_events. destruct l as [|d l]; [done |]. by apply sound_insert_all.
  - by apply sound_mark.
  - by apply sound_mark.
  - by apply sound_mark.
  - by apply sound_mark.
  - destruct (claim_pending_events locked n t) as [[l t']|] eqn:E; [|done]. cbn [snd].
    destruct (claimed_fit _ _ _ _ _ E) as (_ & -> & Hall). apply sound_update_all; [done | apply select_for_update_NoDup, Hs | done |].
    intros i e Hi Hg. apply list_elem_of_In, in_map_iff in Hi as ([j e'] & <- & Hin). rewrite List.Forall_forall in Hall.
    pose proof (Hall _ Hin) as Hfit. apply list_elem_of_In, select_for_update_spec in Hin as (Hg' & _); [|apply Hs].
    simpl in *. congruence.
Qed.

(** Whatever is done to the store, keys stay unique and every row keeps to its columns
    and its status: a pending event has no attempts and a processing one at least one, a
    completed one its time, a failed one its message, a dead-lettered one the flag, and a
    flagged one a reason. *)
Theorem store_sound l : sound (snd (perform_all l (empty_table ProcessedEvent))).
Proof.
  assert (forall t, sound t -> sound (snd (perform_all l t))) as H; [|apply H, sound_empty].
  induction l as [|o l IH]; intros t Hs; [done |]. cbn [perform_all]. pose proof (sound_perform o t Hs) as Hp.
  destruct (perform o t) as [c t1]. specialize (IH t1 Hp). by destruct (perform_all l t1).
Qed.

(** *** Claims *)

(** No longer pending. *)
Definition taken (t : events) (i : Z) : Prop := exists e, get i t = Some e /\ event_status e <> pending.

Lemma taken_update f i t j : change_ok f -> taken t j -> taken (update i f t) j.
Proof.
  intros Hf (e & Hg & Hs). unfold taken. rewrite get_update, Hg. destruct (i =? j); [|by exists e].
  exists (f e). split; [done | apply Hf].
Qed.

Lemma taken_update_all f keys t j : change_ok f -> taken t j -> taken (update_all keys f t) j.
Proof.
  intros Hf. revert t. induction keys as [|i keys IH]; intros t Ht; [done |].
  change (update_all (i :: keys) f t) with (update_all keys f (update i f t)). by apply IH, taken_update.
Qed.

Lemma taken_insert e t j : wf_table t -> taken t j -> taken (snd (insert e t)) j.
Proof.
  intros Hwf (r & Hg & Hs). exists r. split; [|done]. rewrite get_insert by done.
  pose proof (get_lt _ _ _ Hwf Hg). by rewrite (proj2 (Z.eqb_neq _ _)) by lia.
Qed.

Lemma taken_insert_all now l t t' es j : sound t -> insert_all now l t = Ok (es, t') -> taken t j -> taken t' j.
Proof.
  revert t es. induction l as [|d l IH]; intros t es Hs; cbn [insert_all]; [by intros [= _ <-] |]. cbv zeta.
  destruct (columns_fit (new_event now d)) eqn:Ef; [|done]. cbn [negb]. destruct (scalar _ t) eqn:En; [done |]. cbn [insert].
  destruct (insert_all now l _) as [[es' t'']|] eqn:Er; [|done]. cbn [bind_result]. intros [= _ <-] Ht.
  eapply IH; [|exact Er|].
  - apply (sound_insert (new_event now d)); [done | by apply new_event_ok | done].
  - apply (taken_insert (new_event now d)); [apply Hs | done].
Qed.

Lemma taken_mark f i t j : change_ok f -> taken t j -> taken (table_of t (mark f i t)) j.
Proof.
  intros Hf Ht. destruct (mark f i t) as [[e t']|] eqn:E; [|done]. cbn [table_of].
  destruct (mark_ok _ _ _ _ _ Hf E) as [->|[-> _]]; [done | by apply taken_update].
Qed.

Lemma taken_perform o t j : sound t -> taken t j -> taken (snd (perform o t)) j.
Proof.
  intros Hs Ht. destruct o as [now d|now l|i|now i|i m d|i r|locked n]; cbn [perform snd]; try by apply taken_mark.
  - unfold create_processed_event. cbv zeta. destruct (negb _); [done |].
    destruct (scalar (has_key (data_key d)) t) as [[i e]|]; cbn [snd]; [done |].
    apply (taken_insert (new_event now d)); [apply Hs | done].
  - unfold batch_create_processed_events. destruct l as [|d l]; [done |].
    destruct (insert_all now (d :: l) t) as [[es t']|] eqn:E; [|done]. by eapply taken_insert_all.
  - destruct (claim_pending_events locked n t) as [[l t']|] eqn:E; [|done]. cbn [snd].
    destruct (claimed_fit _ _ _ _ _ E) as (_ & -> & _). by apply taken_update_all.
Qed.

Lemma claims_of_perform o t :
  sound t -> NoDup (fst (perform o t)) /\ forall i, i ∈ fst (perform o t) -> ~ taken t i /\ taken (snd (perform o t)) i.
Proof.
  intros Hs. destruct o as [now d|now l|i|now i|i m d|i r|locked n]; cbn [perform fst];
    try (split; [constructor | by intros ? ?%not_elem_of_nil]).
  - destruct (create_processed_event now d t) as [[[[? ?] ?] ?]|]; (split; [constructor | by intros ? ?%not_elem_of_nil]).
  - destruct (claim_pending_events locked n t) as [[l t']|] eqn:E; [|split; [constructor | by intros ? ?%not_elem_of_nil]].
    cbn [fst snd]. destruct (claimed_fit _ _ _ _ _ E) as (-> & -> & _).
    pose proof (select_for_update_NoDup locked (in_status pending) n t (sound_wf t Hs)) as Hnd. split; [done |].
    intros i Hi. pose proof Hi as Hi'. apply list_elem_of_In, in_map_iff in Hi as ([j e] & <- & Hin%list_elem_of_In).
    apply select_for_update_spec in Hin as (Hg & Hp & _); [|apply Hs]. apply bool_decide_eq_true in Hp. simpl in *. split.
    + intros (e' & Hg' & Hne). congruence.
    + exists (take_up e). split; [|done]. rewrite get_update_all, decide_True, Hg by done. done.
Qed.

(** An event is handed out by a claim at most once, whatever else happens to it in
    between, since nothing makes an event pending again; this holds of claims that run
    one after the other and of those that skip each other's locked rows. *)
Theorem claimed_at_most_once l t :
  sound t -> NoDup (fst (perform_all l t)) /\
  forall i, i ∈ fst (perform_all l t) -> ~ taken t i /\ taken (snd (perform_all l t)) i.
Proof.
  revert t. induction l as [|o l IH]; intros t Hs; [split; [constructor | by intros ? ?%not_elem_of_nil] |].
  cbn [perform_all]. destruct (claims_of_perform o t Hs) as [Hnd Hc]. pose proof (sound_perform o t Hs) as Hs1.
  pose proof (fun j => taken_perform o t j Hs) as Hmono. destruct (perform o t) as [c t1]. cbn [fst snd] in *.
  destruct (IH t1 Hs1) as [Hnd' Hc'].
  assert (forall j, taken t1 j -> taken (snd (perform_all l t1)) j) as Hmono'.
  { clear -Hs1. revert t1 Hs1. induction l as [|o l IH]; intros t1 Hs1 j Hj; [done |]. cbn [perform_all].
    pose proof (sound_perform o t1 Hs1) as Hs2. pose proof (taken_perform o t1 j Hs1 Hj) as Hj2.
    destruct (perform o t1) as [c t2]. specialize (IH t2 Hs2 j Hj2). by destruct (perform_all l t2). }
  destruct (perform_all l t1) as [cs t2]. cbn [fst snd] in *. split.
  - apply NoDup_app. split; [done |]. split; [|done]. intros i Hi Hi'. apply Hc' in Hi' as [Hn _]. apply Hn. by apply Hc.
  - intros i [Hi|Hi]%elem_of_app; [split; [by apply Hc | by apply Hmono', Hc] |]. split; [|by apply Hc'].
    intros Ht. apply Hc' in Hi as [Hn _]. by apply Hn, Hmono.
Qed.

(** *** Creation *)

(** Creating an event is idempotent in its key: the event returned is in the store
    under that key; a repeated creation, whatever its other data, returns the stored event,
    says it was not created, and changes no row.  It raises exactly where a column does not
    fit, as a Kafka offset from 2^31 on does not. *)
Theorem creation_idempotent now d t :
  sound t ->
  (create_processed_event now d t = Raise DataError <-> columns_fit (new_event now d) = false) /\
  forall i e b t', create_processed_event now d t = Ok (i, e, b, t') ->
    get i t' = Some e /\ idempotency_key e = data_key d /\
    (b = true -> e = new_event now d /\ rows t' = rows t ++ [(i, e)] /\ every (fun _ r => idempotency_key r <> data_key d) t) /\
    (b = false -> rows t' = rows t) /\
    forall now' d', data_key d' = data_key d -> columns_fit (new_event now' d') = true ->
      exists t'', create_processed_event now' d' t' = Ok (i, e, false, t'') /\ rows t'' = rows t'.
Proof.
  intros [Hwf Hu He]. unfold create_processed_event at 1 2. cbv zeta. destruct (columns_fit (new_event now d)) eqn:Ef; cbn [negb]; [|done].
  destruct (scalar (has_key (data_key d)) t) as [[i e]|] eqn:En; (split; [done |]).
  - intros ? ? ? ? [= <- <- <- <-]. pose proof En as Hsc. apply scalar_Some in En as [Hg Hk]; [|done]. apply bool_decide_eq_true in Hk.
    split; [exact Hg |]. split; [done |]. split; [done |]. split; [done |]. intros now' d' Hd Hf'.
    unfold create_processed_event. cbv zeta. rewrite Hf'. cbn [negb]. rewrite Hd.
    change (scalar (has_key (data_key d)) (Table (rows t) (next_id t + 1))) with (scalar (has_key (data_key d)) t). rewrite Hsc.
    by eexists.
  - cbn [insert]. intros ? ? ? ? [= <- <- <- <-].
    assert (every (fun _ r => idempotency_key r <> data_key d) t) as Hfree.
    { intros j r Hj. rewrite scalar_None in En by done. specialize (En j r Hj). cbv beta in En. by apply bool_decide_eq_false in En. }
    set (t' := Table _ _). assert (t' = snd (insert (new_event now d) t)) as Et by done.
    assert (get (next_id t) t' = Some (new_event now d)) as Hg by (rewrite Et, get_insert, Z.eqb_refl by done; done).
    split; [done |]. split; [done |]. split; [by intros _ |]. split; [done |]. intros now' d' Hd Hf'.
    unfold create_processed_event. cbv zeta. rewrite Hf'. cbn [negb]. rewrite Hd.
    assert (scalar (has_key (data_key d)) t' = Some (next_id t, new_event now d)) as ->; [|by eexists].
    destruct (scalar (has_key (data_key d)) t') as [[j r]|] eqn:Ej.
    + apply scalar_Some in Ej as [Hj Hk]; [|rewrite Et; by apply wf_insert]. apply bool_decide_eq_true in Hk.
      rewrite Et, get_insert in Hj by done. destruct (Z.eqb_spec j (next_id t)) as [->|]; [by injection Hj as <- |].
      by apply Hfree in Hj.
    + rewrite scalar_None in Ej by (rewrite Et; by apply wf_insert). specialize (Ej _ _ Hg). cbv beta in Ej.
      by apply bool_decide_eq_false in Ej.
Qed.

(** A batch is created as a whole or not at all: it succeeds exactly when every row
    fits, no key occurs twice in it and none is in the store, and then adds its events in
    order; a single duplicate fails all of it. *)
Theorem batch_all_or_nothing now l t :
  sound t ->
  (is_ok (batch_create_processed_events now l t) = true <->
     Forall (fun d => columns_fit (new_event now d) = true) l /\ NoDup (map data_key l) /\
     every (fun _ r => idempotency_key r ∉ map data_key l) t) /\
  forall es t', batch_create_processed_events now l t = Ok (es, t') ->
    rows t' = rows t ++ es /\ map snd es = map (new_event now) l.
Proof.
  intros Hs. assert (batch_create_processed_events now l t = insert_all now l t) as -> by (by destruct l). revert t Hs.
  induction l as [|d l IH]; intros t Hs.
  { split; [|intros es t' [= <- <-]; by rewrite app_nil_r]. split; [|done]. intros _. split; [constructor |]. split; [constructor |].
    intros i r _. apply not_elem_of_nil. }
  cbn [insert_all]. cbv zeta. destruct (columns_fit (new_event now d)) eqn:Ef; cbn [negb].
  2: { split; [|done]. split; [done |]. intros (Hf & _). inversion Hf; congruence. }
  destruct (scalar (has_key (data_key d)) t) as [[i e]|] eqn:En.
  { split; [|done]. split; [done |]. intros (_ & _ & He). apply scalar_Some in En as [Hg Hk]; [|apply Hs].
    apply bool_decide_eq_true in Hk. exfalso. apply (He i e Hg). cbn [map]. set_solver. }
  cbn [insert]. set (t1 := Table _ _). assert (t1 = snd (insert (new_event now d) t)) as Et by done.
  assert (sound t1) as Hs1 by (rewrite Et; apply sound_insert; [done | by apply new_event_ok | done]).
  destruct (IH t1 Hs1) as [Hiff Hrows]. split.
  - assert (is_ok (bind_result (insert_all now l t1) (fun '(es, t') => Ok ((next_id t, new_event now d) :: es, t'))) =
            is_ok (insert_all now l t1)) as -> by (by destruct (insert_all now l t1) as [[? ?]|]).
    rewrite Hiff. cbn [map]. rewrite List.Forall_cons_iff, NoDup_cons. split.
    + intros (Hf & Hnd & He). split; [done |]. split.
      * split; [|done]. apply (He (next_id t) (new_event now d)). rewrite Et, get_insert, Z.eqb_refl by apply Hs. done.
      * intros j r Hj Hin. apply elem_of_cons in Hin as [Hk|Hin].
        -- rewrite scalar_None in En by apply Hs. specialize (En j r Hj). cbv beta in En. by apply bool_decide_eq_false in En.
        -- apply (He j r); [|done]. rewrite Et, get_insert by apply Hs. pose proof (get_lt _ _ _ (sound_wf _ Hs) Hj).
           by rewrite (proj2 (Z.eqb_neq _ _)) by lia.
    + intros ((_ & Hf) & (Hd & Hnd) & He). split; [done |]. split; [done |]. intros j r. rewrite Et, get_insert by apply Hs.
      destruct (Z.eqb_spec j (next_id t)); [by intros [= <-] |]. intros Hj Hin. apply (He j r Hj). set_solver.
  - intros es t' H. destruct (insert_all now l t1) as [[es' t'']|] eqn:El; [|done]. injection H as <- <-.
    destruct (Hrows _ _ eq_refl) as [Hr Hm]. split; [|cbn [map]; by rewrite Hm]. rewrite Hr. cbn [rows t1]. by rewrite <- app_assoc.
Qed.

End EventStoreTheorems.

(** ** Witnesses *)

Module EventStoreWitnesses.
Import EventStore EventStoreTheorems.

Definition arrival (key : string) (offset : Z) : event_data := Data "observations.events" 0 offset key "observation.created" [].

Definition busy : list operation :=
  [create_op 10 (arrival "a" 1); create_op 11 (arrival "a" 7); batch_op 12 [arrival "b" 2; arrival "c" 3];
   claim_op (fun i => i =? 3) 1; claim_op (fun _ => false) 10; completed_op 20 1; dlq_op 3 "poison"].

Example busy_store :
  let '(claims, t) := perform_all busy (empty_table ProcessedEvent) in
  claims = [1; 3; 4] /\ map (fun x => (x.1, event_status x.2, processing_attempts x.2)) (rows t) =
    [(1, completed, 1); (3, dead_letter, 1); (4, processing, 1)].
Proof. vm_compute. split; reflexivity. Qed.

(** A completed event can be taken up again, and a dead letter that is keeps its flag. *)
Example marks_ignore_status :
  let '(_, t) := perform_all (busy ++ [processing_op 1; processing_op 3]) (empty_table ProcessedEvent) in
  map (fun x => (x.1, event_status x.2, processing_attempts x.2)) (rows t) =
    [(1, processing, 2); (3, processing, 2); (4, processing, 1)] /\
  map fst (get_dlq_events 10 t) = [3] /\ map fst (get_events_by_status dead_letter 10 t) = [].
Proof. vm_compute. repeat split. Qed.

Lemma claimed_at_most_once_witness :
  let t := snd (perform_all [create_op 10 (arrival "a" 1)] (empty_table ProcessedEvent)) in
  let l := [claim_op (fun _ => false) 5; processing_op 1; failed_op 1 "timeout" None; claim_op (fun _ => false) 5] in
  fst (perform_all l t) = [1] /\ NoDup (fst (perform_all l t)).
Proof.
  cbv zeta. split; [vm_compute; reflexivity |].
  exact (proj1 (claimed_at_most_once _ _ (sound_perform (create_op 10 (arrival "a" 1)) _ sound_empty))).
Defined.

Lemma creation_idempotent_witness :
  create_processed_event 10 (arrival "a" (2 ^ 31)) (empty_table ProcessedEvent) = Raise DataError /\
  exists t'', create_processed_event 20 (arrival "a" 9) (snd (perform (create_op 10 (arrival "a" 1)) (empty_table ProcessedEvent))) =
    Ok (1, new_event 10 (arrival "a" 1), false, t'').
Proof.
  split.
  - apply (creation_idempotent 10 (arrival "a" (2 ^ 31)) _ sound_empty). vm_compute. reflexivity.
  - destruct (proj2 (creation_idempotent 10 (arrival "a" 1) _ sound_empty) 1 (new_event 10 (arrival "a" 1)) true
      (snd (perform (create_op 10 (arrival "a" 1)) (empty_table ProcessedEvent))) eq_refl) as (_ & _ & _ & _ & H).
    destruct (H 20 (arrival "a" 9) eq_refl eq_refl) as (t'' & E & _). exists t''. exact E.
Defined.

Lemma batch_all_or_nothing_witness :
  is_ok (batch_create_processed_events 12 [arrival "b" 2; arrival "c" 3; arrival "b" 4] (empty_table ProcessedEvent)) = false /\
  is_ok (batch_create_processed_events 12 [arrival "b" 2; arrival "c" 3] (empty_table ProcessedEvent)) = true.
Proof.
  split; [vm_compute; reflexivity |].
  apply (batch_all_or_nothing 12 [arrival "b" 2; arrival "c" 3] _ sound_empty).
  split; [repeat constructor |]. split; [|intros i r H; discriminate H].
  apply NoDup_ListNoDup. repeat constructor; simpl; intuition discriminate.
Defined.

End EventStoreWitnesses.
