(* ===== verification/ObjectStore.v ===== *)
(** * Object storage and watermarks (storage/minios3.py, storage/watermark.py)

    The MinIO wrapper on an interface of the object store, a third-party client, with the
    laws of a store that the wrapper relies on; and the watermark of a source. *)

From S2P Require Import Prelude Transformations AuditTrail.

(** ** The client of the store *)

(** [S3Error] with its text, or any other exception of the client. *)
Inductive store_error := S3Error (message : string) | StoreError (message : string).

Class MinioOps (S : Type) := {
  bucket_exists : string -> S -> result store_error bool;
  make_bucket : string -> S -> result store_error S;
  put_object : string -> string -> string -> S -> result store_error S;
  get_object : string -> string -> S -> result store_error string
}.

(** An object that was put is what a get returns, and nothing else changes it. *)
Class MinioLaws (S : Type) `{MinioOps S} := {
  get_put b n v s s' : put_object b n v s = Ok s' -> get_object b n s' = Ok v;
  get_put_other b n b' n' v s s' :
    put_object b n v s = Ok s' -> (b', n') <> (b, n) -> get_object b' n' s' = get_object b' n' s;
  get_make b b' n s s' : make_bucket b s = Ok s' -> get_object b' n s' = get_object b' n s
}.

Module ObjectStore.

Section Client.
Context {S : Type} `{MinioOps S} (endpoint : string).

(** Only [S3Error] is wrapped. *)
Definition wrapped {A} (bucket : string) (r : result store_error A) : result store_error A :=
  match r with
  | Raise (S3Error m) => Raise (S3Error ("Failed to ensure bucket " +:+ bucket +:+ ": " +:+ m))
  | r => r
  end.

Definition _ensure_bucket (bucket : string) (s : S) : result store_error S :=
  wrapped bucket (bind_result (bucket_exists bucket s) (fun there => if there then Ok s else make_bucket bucket s)).

Definition path_of (bucket object_name : string) : string := "s3://" +:+ endpoint +:+ "/" +:+ bucket +:+ "/" +:+ object_name.

Definition backup_raw_payload (source_id : Z) (batch_id payload : string) (s : S) : result store_error (string * S) :=
  let bucket := "raw-backups-" +:+ str_of_Z source_id in
  let object_name := batch_id +:+ "/payload.bin" in
  bind_result (_ensure_bucket bucket s) (fun s =>
  bind_result (put_object bucket object_name payload s) (fun s => Ok (path_of bucket object_name, s))).

(** [json.dumps(event)], without sorted keys. *)
Fixpoint event_text (float_repr : Q -> string) (j : json) : string :=
  match j with
  | JNull => "null"
  | JBool true => "true"
  | JBool false => "false"
  | JInt z => str_of_Z z
  | JFloat q => float_repr q
  | JStr s => AuditTrail.quoted s
  | JList l => "[" +:+ String.concat ", " (map (event_text float_repr) l) +:+ "]"
  | JObj l => "{" +:+ String.concat ", " (map (fun x => AuditTrail.quoted x.1 +:+ ": " +:+ event_text float_repr x.2) l) +:+ "}"
  end.

Definition newline : string := String (ascii_of_nat 10) EmptyString.

Definition store_audit_log (float_repr : Q -> string) (source_id : Z) (batch_id : string)
    (audit_events : list (list (string * json))) (s : S) : result store_error (string * S) :=
  let bucket := "audit-logs-" +:+ str_of_Z source_id in
  let object_name := batch_id +:+ "/events.jsonl" in
  bind_result (_ensure_bucket bucket s) (fun s =>
  let content := String.concat newline (map (fun e => event_text float_repr (JObj e)) audit_events) in
  bind_result (put_object bucket object_name content s) (fun s => Ok (path_of bucket object_name, s))).

(** [path.replace("s3://", "")]: every occurrence goes. *)
Fixpoint without_scheme (s : string) : string :=
  match s with
  | String "s" (String "3" (String ":" (String "/" (String "/" s)))) => without_scheme s
  | String c s => String c (without_scheme s)
  | EmptyString => EmptyString
  end.

(** [s.split("/", n)]. *)
Fixpoint split_at_most (n : nat) (s : string) : list string :=
  match n with
  | O => [s]
  | Datatypes.S n' =>
      (fix walk (acc : string) (s : string) : list string :=
         match s with
         | EmptyString => [acc]
         | String c s => if Ascii.eqb c "/"%char then acc :: split_at_most n' s else walk (acc +:+ String c EmptyString) s
         end) EmptyString s
  end.

(** [IndexError] where the path has no bucket. *)
Inductive retrieval_error := PathIndexError | ClientError (e : store_error).

Definition retrieve_backup (backup_path : string) (s : S) : result retrieval_error string :=
  match split_at_most 2 (without_scheme backup_path) with
  | _ :: bucket :: rest =>
      match get_object bucket (String.concat "/" rest) s with
      | Ok v => Ok v
      | Raise e => Raise (ClientError e)
      end
  | _ => Raise PathIndexError
  end.

End Client.
End ObjectStore.

(** ** Watermarks *)

Module Watermark.

(** A source object: [_last_synced_at] is an attribute of the object and no column, so what
    is loaded again has none. *)
Record source := Source { source_id : Z; last_synced_at : option datetime }.

Definition loaded (i : Z) : source := Source i None.

Definition get_watermark (x : source) : option datetime := last_synced_at x.

Definition update_watermark (now : datetime) (sync_time : option datetime) (x : source) : source :=
  Source (source_id x) (Some (or_else sync_time now)).

Definition should_full_sync (x : source) : bool := match get_watermark x with None => true | Some _ => false end.

End Watermark.

(** ** Theorems *)

Module ObjectStoreTheorems.
Import ObjectStore.

Lemma walk_free n a s acc :
  free_of "/" a = true ->
  (fix walk (acc : string) (s : string) : list string :=
     match s with
     | EmptyString => [acc]
     | String c s => if Ascii.eqb c "/"%char then acc :: split_at_most n s else walk (acc +:+ String c EmptyString) s
     end) acc (a +:+ "/" +:+ s) = (acc +:+ a) :: split_at_most n s.
Proof.
  revert acc. induction a as [|c a IH]; intros acc Ha.
  - rewrite append_nil_r. reflexivity.
  - cbn [free_of] in Ha. apply andb_true_iff in Ha as [Hc Ha]. apply negb_true_iff in Hc.
    rewrite append_cons, Hc, IH by done.
    by rewrite append_assoc.
Qed.

Lemma pretty_N_go_no_slash x s : free_of "/" s = true -> free_of "/" (pretty_N_go x s) = true.
Proof.
  revert s. induction (N.lt_wf_0 x) as [x _ IH]; intros s Hs.
  assert (x = 0 \/ 0 < x)%N as [->|Hx] by lia; [done |].
  rewrite pretty_N_go_step by done. apply IH; [by apply N.div_lt |].
  simpl. rewrite Hs. unfold pretty_N_char. by repeat case_match.
Qed.

Lemma number_no_slash z : free_of "/" (str_of_Z z) = true.
Proof.
  assert (forall p, free_of "/" (pretty (Npos p)) = true) as Hp.
  { intros p. unfold pretty, pretty_N. case_decide; [done |]. by apply pretty_N_go_no_slash. }
  destruct z; [done | apply Hp | apply Hp].
Qed.

Lemma free_of_app sep a b : free_of sep a = true -> free_of sep b = true -> free_of sep (a +:+ b) = true.
Proof.
  intros Ha Hb. induction a as [|c a IH]; [done |]. cbn [free_of] in Ha. apply andb_true_iff in Ha as [Hc Ha].
  rewrite append_cons. cbn [free_of]. by rewrite Hc, IH.
Qed.

Lemma split_path endpoint bucket object :
  free_of "/" endpoint = true -> free_of "/" bucket = true ->
  split_at_most 2 (endpoint +:+ "/" +:+ bucket +:+ "/" +:+ object) = [endpoint; bucket; object].
Proof.
  intros He Hb. cbn [split_at_most]. rewrite (walk_free 1) by done. cbn [split_at_most]. rewrite (walk_free 0) by done. done.
Qed.

Section RoundTrip.
Context {S : Type} `{MinioLaws S} (endpoint : string).

Lemma backup_stored i batch_id payload (s : S) path s' :
  backup_raw_payload endpoint i batch_id payload s = Ok (path, s') ->
  path = path_of endpoint ("raw-backups-" +:+ str_of_Z i) (batch_id +:+ "/payload.bin") /\
  get_object ("raw-backups-" +:+ str_of_Z i) (batch_id +:+ "/payload.bin") s' = Ok payload.
Proof.
  unfold backup_raw_payload. cbv zeta. destruct (_ensure_bucket _ s) as [s1|]; [|done]. cbn [bind_result].
  destruct (put_object _ _ payload s1) as [s2|] eqn:Ep; [|done]. cbn [bind_result]. intros [= <- <-].
  split; [done | by eapply get_put].
Qed.

(** C36: A backup is read back: the path a backup returns retrieves its payload, as long as
    the endpoint has no slash and the rest of the path does not contain the scheme, which
    is cut out wherever it stands. *)
Theorem backup_round_trip i batch_id payload (s : S) path s' :
  free_of "/" endpoint = true ->
  let tail := endpoint +:+ "/" +:+ ("raw-backups-" +:+ str_of_Z i) +:+ "/" +:+ batch_id +:+ "/payload.bin" in
  without_scheme tail = tail ->
  backup_raw_payload endpoint i batch_id payload s = Ok (path, s') -> retrieve_backup path s' = Ok payload.
Proof.
  intros He. cbv zeta. intros Ht Hb. apply backup_stored in Hb as [-> Hg]. unfold retrieve_backup, path_of.
  change (without_scheme ("s3://" +:+ ?x)) with (without_scheme x). rewrite Ht.
  rewrite split_path by (done || (apply free_of_app; [done | apply number_no_slash])).
  cbn [String.concat]. by rewrite Hg.
Qed.

(** A later backup of another source or batch leaves an earlier one as it was. *)
Theorem backups_are_separate i batch_id payload j batch_id' payload' (s s1 s2 : S) path path' :
  (str_of_Z i, batch_id) <> (str_of_Z j, batch_id') ->
  backup_raw_payload endpoint i batch_id payload s = Ok (path, s1) ->
  backup_raw_payload endpoint j batch_id' payload' s1 = Ok (path', s2) ->
  get_object ("raw-backups-" +:+ str_of_Z i) (batch_id +:+ "/payload.bin") s2 = Ok payload.
Proof.
  intros Hne H1 H2. apply backup_stored in H1 as [_ Hg]. unfold backup_raw_payload in H2. cbv zeta in H2.
  destruct (_ensure_bucket ("raw-backups-" +:+ str_of_Z j) s1) as [s3|] eqn:Ee; [|done]. cbn [bind_result] in H2.
  destruct (put_object _ _ payload' s3) as [s4|] eqn:Ep; [|done]. cbn [bind_result] in H2. injection H2 as _ <-.
  rewrite (get_put_other _ _ _ _ _ _ _ Ep).
  - unfold _ensure_bucket in Ee. destruct (bucket_exists _ s1) as [[]|]; cbn in Ee; [congruence | | by destruct e].
    destruct (make_bucket _ s1) as [s5|e] eqn:Em; cbn in Ee; [|by destruct e]. injection Ee as <-. by rewrite (get_make _ _ _ _ _ Em).
  - intros [= Hb Hn]. apply Hne. f_equal; [done |]. by apply TransformationTheorems.append_inj_l in Hn.
Qed.

End RoundTrip.

(** A watermark is a property of the object: on the object that was updated the next
    synchronisation is incremental from the time given, or the present; on the same source
    loaded again it is a full one. *)
Theorem watermark_is_not_stored now sync_time i :
  let x := Watermark.update_watermark now sync_time (Watermark.loaded i) in
  Watermark.should_full_sync x = false /\ Watermark.get_watermark x = Some (or_else sync_time now) /\
  Watermark.should_full_sync (Watermark.loaded (Watermark.source_id x)) = true.
Proof. by split_and!. Qed.

End ObjectStoreTheorems.

(** ** Witnesses *)

Module ObjectStoreWitnesses.
Import ObjectStore ObjectStoreTheorems.

(** A store of buckets that are created on demand. *)
Definition shelf : Type := list ((string * string) * string).

Fixpoint find_object (k : string * string) (s : shelf) : result store_error string :=
  match s with
  | [] => Raise (S3Error "NoSuchKey")
  | (k', v) :: s => if decide (k' = k) then Ok v else find_object k s
  end.

#[local] Instance shelf_ops : MinioOps shelf := {|
  bucket_exists b s := Ok false;
  make_bucket b s := Ok s;
  put_object b n v s := Ok (((b, n), v) :: s);
  get_object b n s := find_object (b, n) s
|}.

#[local] Instance shelf_laws : MinioLaws shelf.
Proof.
  split.
  - intros b n v s s' [= <-]. cbn. by rewrite decide_True.
  - intros b n b' n' v s s' [= <-] Hne. cbn. by rewrite decide_False by congruence.
  - intros b b' n s s' [= <-]. done.
Qed.

Lemma backup_round_trip_witness :
  match backup_raw_payload "localhost:9000" 7 "2024/01" "bytes" ([] : shelf) with
  | Ok (path, s) => path = "s3://localhost:9000/raw-backups-7/2024/01/payload.bin" /\ retrieve_backup path s = Ok "bytes"
  | Raise _ => False
  end.
Proof.
  split; [reflexivity |].
  exact (backup_round_trip "localhost:9000" 7 "2024/01" "bytes" ([] : shelf)
    "s3://localhost:9000/raw-backups-7/2024/01/payload.bin" [(("raw-backups-7", "2024/01/payload.bin"), "bytes")]
    eq_refl eq_refl eq_refl).
Defined.

(** Where a batch ends as the scheme begins its backup is not found again. *)
Example scheme_in_batch :
  match backup_raw_payload "localhost:9000" 7 "s3:/" "bytes" ([] : shelf) with
  | Ok (path, s) => retrieve_backup path s = Raise (ClientError (S3Error "NoSuchKey"))
  | Raise _ => False
  end.
Proof. vm_compute. reflexivity. Qed.

Lemma backups_are_separate_witness :
  match backup_raw_payload "h" 1 "b" "x" ([] : shelf) with
  | Ok (_, s1) =>
      match backup_raw_payload "h" 2 "b" "y" s1 with
      | Ok (_, s2) => get_object "raw-backups-1" "b/payload.bin" s2 = Ok "x"
      | Raise _ => False
      end
  | Raise _ => False
  end.
Proof.
  exact (backups_are_separate "h" 1 "b" "x" 2 "b" "y" ([] : shelf)
    [(("raw-backups-1", "b/payload.bin"), "x")]
    [(("raw-backups-2", "b/payload.bin"), "y"); (("raw-backups-1", "b/payload.bin"), "x")]
    "s3://h/raw-backups-1/b/payload.bin" "s3://h/raw-backups-2/b/payload.bin" ltac:(vm_compute; congruence) eq_refl eq_refl).
Defined.

End ObjectStoreWitnesses.
