(* ===== verification/Analytics.v ===== *)
(** * Analytics over the observations (api/routes/analytics.py)

    The hourly summary, the percentile ranks, the top observations of each source, the
    daily series and the tenant's count.  The statistics of the materialized view and the
    series that the database computes from the SQL text are an argument, with [None] for a
    query that raises; [isoformat], [strftime] of a day and [float] of a string are
    parameters. *)

From S2P Require Import Prelude Db SourceRegistry Observations ObservationQueries ReadModels Transformations.

(** ** Grouping: [groups[key(x)].append(x)] on a [defaultdict(list)] *)

Module Grouping.

Section Group.
Context {K A : Type} `{EqDecision K}.

Fixpoint group_add (k : K) (x : A) (g : list (K * list A)) : list (K * list A) :=
  match g with
  | [] => [(k, [x])]
  | (k', xs) :: g => if decide (k' = k) then (k', xs ++ [x]) :: g else (k', xs) :: group_add k x g
  end.

Definition group_by (key : A -> K) (l : list A) : list (K * list A) :=
  foldl (fun g x => group_add (key x) x g) [] l.

End Group.
End Grouping.

(** ** Python floats *)

Module PyFloat.
Import Transformations.

Definition add (x y : pyfloat) : pyfloat :=
  match x, y with
  | NaN, _ | _, NaN => NaN
  | Number a, Number b => Number (a + b)
  | Infinity s, Infinity s' => if Bool.eqb s s' then x else NaN
  | Infinity _, Number _ => x
  | Number _, Infinity _ => y
  end.

(** [x < y]: nothing is less, or greater, than NaN. *)
Definition lt (x y : pyfloat) : bool :=
  match x, y with
  | Number a, Number b => Qltb a b
  | Infinity true, Number _ | Number _, Infinity false | Infinity true, Infinity false => true
  | _, _ => false
  end.

Definition sum (l : list pyfloat) : pyfloat := foldl add (Number 0) l.

(** [min(l)] and [max(l)] keep the first of what does not compare. *)
Definition min (x : pyfloat) (l : list pyfloat) : pyfloat := foldl (fun m y => if lt y m then y else m) x l.
Definition max (x : pyfloat) (l : list pyfloat) : pyfloat := foldl (fun m y => if lt m y then y else m) x l.

Definition map_number (f : Q -> Q) (x : pyfloat) : pyfloat :=
  match x with Number q => Number (f q) | x => x end.

End PyFloat.

Module Analytics.
Import SourceRegistry Observations ReadModels Grouping Transformations.

Definition HOUR : timedelta := seconds 3600.
Definition hours (n : Z) : timedelta := n * HOUR.

(** [timestamp.replace(minute=0, second=0, microsecond=0)]. *)
Definition hour_of (t : datetime) : datetime := t - t mod HOUR.

Abbreviation observation_row := (Z * Observation)%type (only parsing).

(** ** The value of an observation *)

(** [raw_data.get("value")] of a dict, [None] of anything else. *)
Definition value_of (o : Observation) : json :=
  match raw_data o with JObj d => ObservationQueries.json_get "value" d | _ => JNull end.

Inductive float_error := TypeError | ValueError | OverflowError.

Section Summary.
Context (float_of : string -> option pyfloat).

(** [float(v)]. *)
Definition to_float (v : json) : result float_error pyfloat :=
  match v with
  | JBool b => Ok (Number (if b then 1 else 0))
  | JInt z => if FLOAT_OVERFLOW <=? Z.abs z then Raise OverflowError else Ok (Number (inject_Z z))
  | JFloat q => Ok (Number q)
  | JStr s => match float_of s with Some x => Ok x | None => Raise ValueError end
  | _ => Raise TypeError
  end.

(** The values of a list of observations that have one. *)
Fixpoint values_of (l : list observation_row) : result float_error (list pyfloat) :=
  match l with
  | [] => Ok []
  | x :: l =>
      match value_of x.2 with
      | JNull => values_of l
      | v => bind_result (to_float v) (fun f => bind_result (values_of l) (fun fs => Ok (f :: fs)))
      end
  end.

(** ** Hourly statistics *)

Record hour_stats := HourStats {
  hour : datetime;
  observation_count : Z;
  processed_count : Z;
  processed_pct : option Q;
  avg_value : option pyfloat;
  min_value : option pyfloat;
  max_value : option pyfloat;
  source_set : gset string
}.

Definition average (l : list pyfloat) : pyfloat :=
  PyFloat.map_number (fun q => py_round 4 (q / qlen l)) (PyFloat.sum l).

Definition stats_of (w : world) (h : datetime) (l : list observation_row) : result float_error hour_stats :=
  let observation_count := zlen l in
  let processed_count := tally (fun x => processed x.2) l in
  bind_result (values_of l) (fun values =>
  Ok (HourStats h observation_count processed_count
    (if observation_count =? 0 then None
     else Some (py_round 2 (inject_Z processed_count / inject_Z observation_count * 100)))
    (match values with [] => None | _ => Some (average values) end)
    (match values with [] => None | v :: vs => Some (PyFloat.min v vs) end)
    (match values with [] => None | v :: vs => Some (PyFloat.max v vs) end)
    (list_to_set (map (fun x => resolve_source_name (obs_source_id x.2) (sources w)) l)))).

(** [sorted(hourly.items(), reverse=True)]. *)
Definition newest_hour (x y : datetime * list observation_row) : bool := x.1 >=? y.1.

Definition by_timestamp (x y : observation_row) : bool := timestamp x.2 <=? timestamp y.2.

Definition hourly (l : list observation_row) : list (datetime * list observation_row) :=
  order_by newest_hour (group_by (fun x => hour_of (timestamp x.2)) l).

Fixpoint all_stats (w : world) (l : list (datetime * list observation_row)) : result float_error (list hour_stats) :=
  match l with
  | [] => Ok []
  | x :: l => bind_result (stats_of w x.1 x.2) (fun s => bind_result (all_stats w l) (fun ss => Ok (s :: ss)))
  end.

(** The observations that are not deleted, from [since] on. *)
Definition since_filter (since : datetime) (o : Observation) : bool := active o && (since <=? timestamp o).

Definition get_summary (now : datetime) (hours_back : Z) (w : world) : result float_error (list hour_stats) :=
  let since := now - hours hours_back in
  let observations := order_by by_timestamp (select (since_filter since) (observations w)) in
  all_stats w (hourly observations).

Definition _compute_stats_from_base (limit : nat) (w : world) : result float_error (list hour_stats) :=
  let observations := order_by by_timestamp (select active (observations w)) in
  all_stats w (take limit (hourly observations)).

(** The rows of the view, or the fallback where the query raises. *)
Definition get_materialized_view_stats (view : option (list hour_stats)) (limit : nat) (w : world)
    : result float_error (list hour_stats) :=
  match view with Some rows => Ok rows | None => _compute_stats_from_base limit w end.

End Summary.

(** ** Percentile ranks *)

Record ranked_observation := Ranked {
  ranked_id : Z;
  ranked_timestamp : datetime;
  ranked_value : json;
  percentile_rank : Q
}.

Definition newest_first (x y : observation_row) : bool := timestamp x.2 >=? timestamp y.2.

(** [enumerate(observations, start=1)]. *)
Definition rank_from (total : Z) (i : nat) (x : observation_row) : ranked_observation :=
  Ranked x.1 (timestamp x.2) (value_of x.2)
    (if total <=? 1 then 0 else py_round 4 (inject_Z (Z.of_nat i) / inject_Z (total - 1))).

Definition get_percentile (source : string) (w : world) : Z * list ranked_observation :=
  let source_id := resolve_source_id_by_name source (sources w) in
  let wanted o := active o && match source_id with Some i => obs_source_id o =? i | None => true end in
  let observations := take 100 (order_by newest_first (select wanted (observations w))) in
  let total := zlen observations in
  (total, imap (rank_from total) observations).

(** ** The top observations of each source *)

Record top_row := TopRow { top_id : Z; top_timestamp : datetime; top_value : json; rank : nat }.

(** [r.get("value") or 0]. *)
Definition value_or_0 (v : json) : json := if ObservationQueries.json_truthy v then v else JInt 0.

(** A number, and a bool as one. *)
Definition as_number (v : json) : option Q :=
  match v with
  | JBool b => Some (if b then 1%Q else 0%Q)
  | JInt z => Some (inject_Z z)
  | JFloat q => Some q
  | _ => None
  end.

(** [a == b]. *)
Fixpoint py_eq (a b : json) : bool :=
  match a, b with
  | JNull, JNull => true
  | JStr s, JStr t => String.eqb s t
  | JList l, JList m =>
      (fix go (l m : list json) : bool :=
         match l, m with
         | [], [] => true
         | x :: l, y :: m => py_eq x y && go l m
         | _, _ => false
         end) l m
  | JObj l, JObj m =>
      (length l =? length m)%nat &&
      (fix go (l : list (string * json)) : bool :=
         match l with
         | [] => true
         | (k, v) :: l => List.existsb (fun y => String.eqb k y.1 && py_eq v y.2) m && go l
         end) l
  | _, _ => match as_number a, as_number b with Some p, Some q => Qeq_bool p q | _, _ => false end
  end.

(** [a < b], [None] for a [TypeError]. *)
Fixpoint py_lt (a b : json) : option bool :=
  match a, b with
  | JStr s, JStr t => Some (String.ltb s t)
  | JList l, JList m =>
      (fix go (l m : list json) : option bool :=
         match l, m with
         | _, [] => Some false
         | [], _ => Some true
         | x :: l, y :: m => if py_eq x y then go l m else py_lt x y
         end) l m
  | _, _ => match as_number a, as_number b with Some p, Some q => Some (Qltb p q) | _, _ => None end
  end.

Definition sort_key : Type := bool * json.

Definition key_of (r : top_row) : sort_key :=
  (match top_value r with JNull => false | _ => true end, value_or_0 (top_value r)).

(** The order of pairs. *)
Definition key_lt (x y : sort_key) : option bool :=
  if Bool.eqb x.1 y.1 then if py_eq x.2 y.2 then Some false else py_lt x.2 y.2
  else Some (negb x.1 && y.1).

(** [reverse=True] keeps the order of what is equal. *)
Definition not_below (x y : top_row) : bool := match key_lt (key_of x) (key_of y) with Some b => negb b | None => true end.

Definition comparable (x y : top_row) : bool := match key_lt (key_of x) (key_of y) with Some _ => true | None => false end.

(** [sorted] raises where keys that it compares are not ordered; it is taken to compare all
    of them, which can differ only for values that are lists. *)
Definition sorted_rows (l : list top_row) : result float_error (list top_row) :=
  if forallb (fun x => forallb (comparable x) l) l then Ok (order_by not_below l) else Raise TypeError.

Definition row_of (x : observation_row) : top_row := TopRow x.1 (timestamp x.2) (value_of x.2) 0.

Definition with_rank (i : nat) (r : top_row) : top_row := TopRow (top_id r) (top_timestamp r) (top_value r) (i + 1).

Fixpoint top_of_each (limit : nat) (grouped : list (string * list observation_row))
    : result float_error (list (string * list top_row)) :=
  match grouped with
  | [] => Ok []
  | (source, l) :: grouped =>
      bind_result (sorted_rows (map row_of l)) (fun s =>
      bind_result (top_of_each limit grouped) (fun rest => Ok ((source, imap with_rank (take limit s)) :: rest)))
  end.

Definition get_top_by_source (now : datetime) (limit : nat) (hours_back : Z) (w : world)
    : result float_error (list (string * list top_row)) :=
  let since := now - hours hours_back in
  let observations := order_by newest_first (select (since_filter since) (observations w)) in
  let grouped := group_by (fun x => resolve_source_name (obs_source_id x.2) (sources w)) observations in
  top_of_each limit grouped.

(** ** The daily series *)

Record source_count := SourceCount { count_source : string; source_total : Z; source_rank : nat }.

Record day_row := DayRow {
  day : string;
  daily_count : Z;
  rolling_7d : Z;
  prev_day_count : option Z;
  day_over_day_pct : option Q;
  p95_latency_secs : option Q;
  top_sources : list source_count
}.

(** The day as text, in the order of text. *)
Definition newest_day (x y : string * list observation_row) : bool := String.leb y.1 x.1.

Definition more_observations (x y : string * list observation_row) : bool := zlen x.2 >=? zlen y.2.

Definition top_sources_of (w : world) (l : list observation_row) : list source_count :=
  let counts := group_by (fun x => resolve_source_name (obs_source_id x.2) (sources w)) l in
  imap (fun i x => SourceCount x.1 (zlen x.2) (i + 1)) (take 5 (order_by more_observations counts)).

(** The running window: at most seven counts. *)
Definition push (window : list Z) (c : Z) : list Z :=
  let window := window ++ [c] in
  if 7 <? zlen window then tail window else window.

Fixpoint walk_days (w : world) (window : list Z) (l : list (string * list observation_row)) : list day_row :=
  match l with
  | [] => []
  | x :: l =>
      let window := push window (zlen x.2) in
      DayRow x.1 (zlen x.2) (zsum window) None None None (top_sources_of w x.2) :: walk_days w window l
  end.

Inductive database := sqlite | postgresql.

Inductive database_error := DataError.

(** [strftime] is the date of a timestamp.  PostgreSQL does not compare a column without a
    time zone to a cutoff with one. *)
Definition _compute_timeseries_fallback (strftime : datetime -> string) (db : database) (now : datetime) (days_back : Z) (w : world)
    : result database_error (list day_row) :=
  match db with
  | postgresql => Raise DataError
  | sqlite =>
      let observations := select (since_filter (now - days days_back)) (observations w) in
      let sorted_days := order_by newest_day (group_by (fun x => strftime (timestamp x.2)) observations) in
      Ok (rev (walk_days w [] (rev sorted_days)))
  end.

(** The rows of the SQL text, or the fallback where it raises. *)
Definition get_timeseries (sql : option (list day_row)) (strftime : datetime -> string) (db : database) (now : datetime)
    (days_back : Z) (w : world) : result database_error (list day_row) :=
  match sql with Some rows => Ok rows | None => _compute_timeseries_fallback strftime db now days_back w end.

(** ** The tenant's count *)

Record tenant_status := TenantStatus { active_tenant_id : option Z; tenant_observation_count : Z; isolation_enforced : bool }.

Definition get_tenant_status (ctx : context) (w : world) : tenant_status :=
  let visible o :=
    match get_user_role ctx with
    | Some "admin" => true
    | _ =>
        match get_tenant_id ctx with
        | Some t => bool_decide (obs_tenant_id o = Some t) || bool_decide (obs_tenant_id o = None)
        | None => bool_decide (obs_tenant_id o = None)
        end
    end in
  TenantStatus (get_tenant_id ctx) (zlen (select visible (observations w))) true.

End Analytics.

(** ** Theorems *)

Module GroupingFacts.
Import Grouping ReadModels.

Section Group.
Context {K A : Type} `{EqDecision K}.
Implicit Types (g : list (K * list A)) (l : list A).

Definition of_key (key : A -> K) (k : K) (x : A) : bool := bool_decide (key x = k).

(** What a grouping is: each key once, with its elements in their order. *)
Record groups (key : A -> K) l g : Prop := {
  groups_keys : NoDup (map fst g);
  groups_elems : forall k xs, (k, xs) ∈ g <-> xs <> [] /\ xs = List.filter (of_key key k) l
}.

Lemma group_add_fst k x g k' : k' ∈ map fst (group_add k x g) <-> k' = k \/ k' ∈ map fst g.
Proof.
  induction g as [|[k0 xs] g IH]; cbn [group_add map]; [set_solver |].
  destruct (decide (k0 = k)) as [->|]; cbn [map fst]; set_solver.
Qed.

Lemma group_add_elem k x g k' xs' :
  NoDup (map fst g) ->
  (k', xs') ∈ group_add k x g <->
  (k' <> k /\ (k', xs') ∈ g) \/
  (k' = k /\ ((exists xs, (k, xs) ∈ g /\ xs' = xs ++ [x]) \/ (k ∉ map fst g /\ xs' = [x]))).
Proof.
  induction g as [|[k0 xs] g IH]; cbn [group_add map fst]; intros Hnd; [set_solver |].
  apply NoDup_cons in Hnd as [Hk Hnd]. specialize (IH Hnd). destruct (decide (k0 = k)) as [->|Hne].
  - assert (forall ys, (k, ys) ∉ g) as Hg.
    { intros ys Hys. apply Hk, list_elem_of_fmap. by exists (k, ys). }
    set_solver.
  - rewrite !elem_of_cons, IH. set_solver.
Qed.

Lemma group_add_ok key l g x : groups key l g -> groups key (l ++ [x]) (group_add (key x) x g).
Proof.
  intros [Hnd He]. split.
  - clear He. induction g as [|[k0 xs] g IH]; cbn [group_add map fst] in *; [by apply NoDup_singleton |].
    apply NoDup_cons in Hnd as [Hk Hnd]. destruct (decide (k0 = key x)); cbn [map fst]; apply NoDup_cons; split; auto.
    rewrite group_add_fst. naive_solver.
  - intros k xs. rewrite group_add_elem by done. rewrite List.filter_app. cbn [List.filter]. unfold of_key at 2.
    destruct (decide (key x = k)) as [->|Hne].
    + rewrite bool_decide_eq_true_2 by done. split.
      * intros [[? _]|[_ [(ys & Hys & ->)|[Hk ->]]]]; [done | |].
        -- apply He in Hys as [_ ->]. split; [by destruct (List.filter _ l) | done].
        -- split; [done |]. destruct (List.filter (of_key key k) l) as [|y ys] eqn:E; [done |].
           exfalso. apply Hk, list_elem_of_fmap. exists (k, y :: ys). split; [done |]. apply He. by rewrite E.
      * intros [_ ->]. right. split; [done |]. destruct (List.filter (of_key key k) l) as [|y ys] eqn:E.
        -- right. split; [|done]. intros ([k' zs] & -> & Hz)%list_elem_of_fmap. apply He in Hz as [Hz ->]. cbn in E. by rewrite E in Hz.
        -- left. exists (y :: ys). split; [|done]. apply He. by rewrite E.
    + rewrite bool_decide_eq_false_2, app_nil_r by done. rewrite He. naive_solver.
Qed.

Theorem group_by_ok key l : groups key l (group_by key l).
Proof.
  induction l as [|x l IH] using rev_ind.
  - split; [constructor |]. intros k xs. split; [by intros ?%not_elem_of_nil | by intros [? ->]].
  - unfold group_by. rewrite foldl_snoc. by apply group_add_ok.
Qed.

(** Sums over the groups are sums over the list. *)
Lemma group_by_sum (f : list A -> Z) (key : A -> K) l :
  f [] = 0 -> (forall xs ys, f (xs ++ ys) = f xs + f ys) ->
  zsum (map (fun x => f x.2) (group_by key l)) = f l.
Proof.
  intros H0 Hf. assert (forall (k : K) x g, zsum (map (fun x => f x.2) (group_add k x g)) = zsum (map (fun x => f x.2) g) + f [x]) as Ha.
  { intros k x g. induction g as [|[k0 xs] g IH]; cbn [group_add map snd]; [unfold zsum; simpl; lia |].
    destruct (decide (k0 = k)); unfold zsum in *; cbn [map snd foldr]; [rewrite Hf; lia | rewrite IH; lia]. }
  induction l as [|x l IH] using rev_ind; [done |]. unfold group_by in *. rewrite foldl_snoc, Ha, IH, Hf. done.
Qed.

End Group.
End GroupingFacts.

Module AnalyticsTheorems.
Import SourceRegistry Observations ReadModels ReadModelFacts Grouping GroupingFacts Transformations Analytics.

Abbreviation rows_of := (list (Z * Observation)) (only parsing).

(** *** Hours *)

Lemma hour_of_spec t h : hour_of t = h <-> h mod HOUR = 0 /\ h <= t < h + HOUR.
Proof.
  assert (0 < HOUR) as Hp by (vm_compute; reflexivity). unfold hour_of.
  pose proof (Z.mod_pos_bound t HOUR Hp) as Hm. split.
  - intros <-. split; [|lia]. rewrite Zminus_mod_idemp_r, Z.sub_diag. apply Zmod_0_l.
  - intros [Hz Hh]. pose proof (Z.div_mod h HOUR ltac:(lia)) as Hd. rewrite Hz in Hd.
    rewrite <- (Z.mod_unique t HOUR (h / HOUR) (t - h)); lia.
Qed.

Lemma hourly_sorted (l : rows_of) : StronglySorted (fun x y => y.1 < x.1) (hourly l).
Proof.
  assert (NoDup (map fst (hourly l))) as Hnd.
  { unfold hourly. rewrite order_by_perm. apply (groups_keys _ _ _ (group_by_ok (fun x => hour_of (timestamp x.2)) l)). }
  assert (StronglySorted (fun x y => newest_hour x y = true) (hourly l)) as Hs.
  { apply order_by_sorted; unfold newest_hour; intros; lia. }
  induction Hs as [|x l' Hs IH Hx]; [constructor |]. cbn [map] in Hnd. apply NoDup_cons in Hnd as [Hk Hnd].
  constructor; [by apply IH |]. rewrite Forall_forall in *. intros y Hy. specialize (Hx y Hy). unfold newest_hour in Hx.
  assert (x.1 <> y.1); [|lia]. intros E. apply Hk. rewrite E. apply list_elem_of_fmap. by exists y.
Qed.

Lemma hourly_elem (l : rows_of) h xs :
  (h, xs) ∈ hourly l <-> xs <> [] /\ xs = List.filter (fun x => bool_decide (hour_of (timestamp x.2) = h)) l.
Proof. unfold hourly. rewrite order_by_perm. apply (groups_elems _ _ _ (group_by_ok (fun x => hour_of (timestamp x.2)) l)). Qed.

Lemma hourly_sum (f : rows_of -> Z) l :
  f [] = 0 -> (forall xs ys, f (xs ++ ys) = f xs + f ys) -> zsum (map (fun x => f x.2) (hourly l)) = f l.
Proof.
  intros H0 Hf. rewrite <- (group_by_sum f (fun x => hour_of (timestamp x.2)) l) by done.
  unfold hourly. generalize (group_by (fun x => hour_of (timestamp x.2)) l). intros g.
  assert (forall a b : list (datetime * rows_of), a ≡ₚ b -> zsum (map (fun x => f x.2) a) = zsum (map (fun x => f x.2) b)) as Hz.
  { induction 1; unfold zsum in *; simpl; lia. }
  apply Hz, order_by_perm.
Qed.

(** *** Statistics *)

Section Stats.
Context (float_of : string -> option pyfloat).

Definition has_number (x : Z * Observation) : bool :=
  match value_of x.2 with JNull => true | v => is_ok (to_float float_of v) end.

Lemma values_ok l : is_ok (values_of float_of l) = forallb has_number l.
Proof.
  induction l as [|x l IH]; cbn [values_of forallb]; [done |]. rewrite <- IH. unfold has_number.
  destruct (value_of x.2); [done | ..]; destruct (to_float float_of _); cbn [bind_result is_ok]; try done; by destruct (values_of float_of l).
Qed.

Lemma stats_ok w h l : is_ok (stats_of float_of w h l) = is_ok (values_of float_of l).
Proof. unfold stats_of. cbv zeta. by destruct (values_of float_of l). Qed.

Lemma all_stats_ok w l : is_ok (all_stats float_of w l) = forallb (fun x => forallb has_number x.2) l.
Proof.
  induction l as [|x l IH]; cbn [all_stats forallb]; [done |]. rewrite <- IH, <- values_ok, <- (stats_ok w x.1).
  destruct (stats_of float_of w x.1 x.2); cbn; [|done]. by destruct (all_stats float_of w l).
Qed.

Lemma hourly_forallb (p : Z * Observation -> bool) l : forallb (fun x => forallb p x.2) (hourly l) = forallb p l.
Proof.
  apply eq_true_iff_eq. rewrite !forallb_forall. split.
  - intros H x Hx. set (xs := List.filter (fun y => bool_decide (hour_of (timestamp y.2) = hour_of (timestamp x.2))) l).
    assert (In x xs) as Hxs by (apply List.filter_In; split; [done | by apply bool_decide_eq_true]).
    specialize (H (hour_of (timestamp x.2), xs)). cbn [snd] in H. rewrite forallb_forall in H. apply H; [|done].
    apply list_elem_of_In, hourly_elem. split; [by destruct xs | done].
  - intros H [h xs] Hx. apply list_elem_of_In, hourly_elem in Hx as [_ ->]. cbn [snd]. apply forallb_forall.
    intros x [Hx _]%List.filter_In. by apply H.
Qed.

Lemma forallb_perm (p : Z * Observation -> bool) l l' : l ≡ₚ l' -> forallb p l = forallb p l'.
Proof. induction 1; cbn [forallb]; [done | by f_equal | by rewrite !andb_assoc, (andb_comm (p y)) | congruence]. Qed.

Lemma all_stats_rows w l ss :
  all_stats float_of w l = Ok ss -> Forall2 (fun x s => stats_of float_of w x.1 x.2 = Ok s) l ss.
Proof.
  revert ss. induction l as [|x l IH]; intros ss; cbn [all_stats]; [intros [= <-]; constructor |].
  destruct (stats_of float_of w x.1 x.2) as [s|] eqn:E; [|done]. cbn [bind_result].
  destruct (all_stats float_of w l) as [ss'|]; [|done]. intros [= <-]. constructor; [done | by apply IH].
Qed.

(** The observations the summary is about. *)
Definition in_window (now : datetime) (n : Z) (w : world) : rows_of := select (since_filter (now - hours n)) (observations w).

Definition in_hour (h : datetime) (x : Z * Observation) : bool := (h <=? timestamp x.2) && (timestamp x.2 <? h + HOUR).

Lemma in_hour_of h x : h mod HOUR = 0 -> bool_decide (hour_of (timestamp x.2) = h) = in_hour h x.
Proof.
  intros Hh. unfold in_hour. destruct (bool_decide_reflect (hour_of (timestamp x.2) = h)) as [E|E]; rewrite hour_of_spec in E; lia.
Qed.

Lemma size_names (f : Z * Observation -> string) (l : rows_of) :
  l <> [] -> (1 <= size (list_to_set (map f l) : gset string) <= length l)%nat.
Proof.
  intros Hl. split.
  - destruct l as [|x l]; [done |]. assert (f x ∈ (list_to_set (map f (x :: l)) : gset string)) as Hx by set_solver.
    destruct (decide (size (list_to_set (map f (x :: l)) : gset string) = 0%nat)) as [E|]; [|lia].
    apply size_empty_inv in E. set_solver.
  - rewrite <- (length_map f l). clear Hl. generalize (map f l). intros k. induction k as [|a k IH]; [done |].
    cbn [list_to_set length]. rewrite size_union_alt, size_singleton.
    pose proof (subseteq_size (list_to_set k ∖ {[a]}) (list_to_set k : gset string) ltac:(set_solver)). lia.
Qed.

(** What a row says of the observations it is about. *)
Lemma stats_of_spec w h l s :
  stats_of float_of w h l = Ok s ->
  hour s = h /\ observation_count s = zlen l /\ processed_count s = tally (fun x => processed x.2) l /\
  processed_pct s = (if zlen l =? 0 then None
    else Some (py_round 2 (inject_Z (tally (fun x => processed x.2) l) / inject_Z (zlen l) * 100))) /\
  source_set s = list_to_set (map (fun x => resolve_source_name (obs_source_id x.2) (sources w)) l).
Proof. unfold stats_of. cbv zeta. destruct (values_of float_of l); [|done]. by intros [= <-]. Qed.

Lemma percent_bounds {A} (p : A -> bool) l :
  l <> [] -> (0 <= py_round 2 (inject_Z (tally p l) / inject_Z (zlen l) * 100) <= 100)%Q.
Proof.
  intros Hl. apply (py_round_bounds 2 0 100). pose proof (tally_bounds p l) as [H0 H1].
  assert (0 < zlen l) as Hz by (destruct l; [done | unfold zlen; simpl; lia]).
  rewrite Zle_Qle in H0, H1. rewrite Zlt_Qlt in Hz. change (inject_Z 0) with 0%Q in *. change (inject_Z 100) with 100%Q.
  set (a := inject_Z (tally _ _)) in *. set (b := inject_Z (zlen _)) in *.
  assert (0 <= a / b <= 1)%Q as Hab by (split; [apply Qle_shift_div_l | apply Qle_shift_div_r]; lra). lra.
Qed.

Section Rows.
Context (w : world) (l : rows_of) (ss : list hour_stats).
Context (rows_are : all_stats float_of w (hourly l) = Ok ss).

Lemma rows_sorted : StronglySorted (fun a b => hour b < hour a) ss.
Proof.
  apply all_stats_rows in rows_are. pose proof (hourly_sorted l) as Hs. clear -rows_are Hs. revert ss rows_are.
  induction Hs as [|x hs Hs IH Hx]; intros ss Hh; inversion Hh as [|? s ? ss' Hs1 Hss]; subst; [constructor |].
  constructor; [by apply IH |]. clear IH Hh. induction Hss as [|y s' hs ss' Hy Hss IH]; [constructor |].
  inversion Hx; inversion Hs; subst. constructor; [|by apply IH].
  by rewrite (proj1 (stats_of_spec _ _ _ _ Hs1)), (proj1 (stats_of_spec _ _ _ _ Hy)).
Qed.

Lemma rows_sum (f : hour_stats -> Z) (g : rows_of -> Z) :
  (forall h xs s, stats_of float_of w h xs = Ok s -> f s = g xs) -> g [] = 0 -> (forall xs ys, g (xs ++ ys) = g xs + g ys) ->
  zsum (map f ss) = g l.
Proof.
  intros Hfg H0 Hg. rewrite <- (hourly_sum g l) by done. f_equal. apply all_stats_rows in rows_are.
  induction rows_are as [|x s hs ss' Hx Hs IH]; [done |]. cbn [map]. rewrite IH. f_equal. by eapply Hfg.
Qed.

(** A row is about the observations of its hour, which are some. *)
Lemma row_elem s :
  s ∈ ss -> exists xs, stats_of float_of w (hour s) xs = Ok s /\ xs <> [] /\ hour s mod HOUR = 0 /\ xs = List.filter (in_hour (hour s)) l.
Proof.
  intros [i Hs]%list_elem_of_lookup. apply all_stats_rows in rows_are.
  destruct (Forall2_lookup_r _ _ _ _ _ rows_are Hs) as ([h xs] & Hx & Hso). apply list_elem_of_lookup_2, hourly_elem in Hx as [Hne Exs].
  cbn [fst snd] in Hso. rewrite (proj1 (stats_of_spec _ _ _ _ Hso)). exists xs. split; [done |]. split; [done |].
  assert (h mod HOUR = 0) as Hh.
  { destruct xs as [|x xs]; [done |]. assert (In x (x :: xs)) as Hin by (by left). rewrite Exs in Hin.
    apply List.filter_In in Hin as [_ Hin%bool_decide_eq_true]. by apply hour_of_spec in Hin as [? _]. }
  split; [done |]. rewrite Exs. apply List.filter_ext. intros x. by apply in_hour_of.
Qed.

End Rows.

(** The hourly summary partitions its window: the hours come newest first, each at
    most once and none empty; a row counts the live observations of its hour that lie in the
    window, so that the counts of all rows add up to those of the window, the processed ones
    likewise; the share processed is between 0 and 100; and the sources are at least one and
    at most the observations.  The endpoint fails as a whole exactly when one observation of
    the window has a value that is not a number. *)
Theorem summary_partitions now n w :
  (is_ok (get_summary float_of now n w) = false <->
     exists x, x ∈ in_window now n w /\ value_of x.2 <> JNull /\ is_ok (to_float float_of (value_of x.2)) = false) /\
  forall ss, get_summary float_of now n w = Ok ss ->
    StronglySorted (fun a b => hour b < hour a) ss /\
    zsum (map observation_count ss) = zlen (in_window now n w) /\
    zsum (map processed_count ss) = tally (fun x => processed x.2) (in_window now n w) /\
    Forall (fun s => hour s mod HOUR = 0 /\ now - hours n - HOUR < hour s /\
      observation_count s = tally (in_hour (hour s)) (in_window now n w) /\ 1 <= observation_count s /\
      (exists p, processed_pct s = Some p /\ (0 <= p <= 100)%Q) /\
      1 <= Z.of_nat (size (source_set s)) <= observation_count s) ss.
Proof.
  unfold get_summary. cbv zeta. change (select (since_filter (now - hours n)) (observations w)) with (in_window now n w).
  pose proof (order_by_perm by_timestamp (in_window now n w)) as Hp. set (l := order_by by_timestamp (in_window now n w)) in *.
  split.
  - rewrite all_stats_ok, hourly_forallb, (forallb_perm _ _ _ Hp). rewrite <- not_true_iff_false, forallb_forall. split.
    + intros H. destruct (List.existsb (fun x => negb (has_number x)) (in_window now n w)) eqn:E.
      * apply existsb_exists in E as (x & Hx & Hn). exists x. split; [by apply list_elem_of_In |].
        unfold has_number in Hn. destruct (value_of x.2); try done; (split; [done |]; by apply negb_true_iff in Hn).
      * exfalso. apply H. intros x Hx. destruct (has_number x) eqn:Ex; [done |].
        rewrite <- not_true_iff_false, existsb_exists in E. exfalso. apply E. exists x. by rewrite Ex.
    + intros (x & Hx & Hv & Hf) Ha. specialize (Ha x (proj1 (list_elem_of_In _ _) Hx)). unfold has_number in Ha.
      destruct (value_of x.2); congruence.
  - intros ss Hss. split; [by eapply rows_sorted |]. split; [|split].
    + rewrite (rows_sum w l ss Hss _ zlen); [unfold zlen; by rewrite Hp | | done | unfold zlen; intros; rewrite length_app; lia].
      intros h xs s Hs. exact (proj1 (proj2 (stats_of_spec _ _ _ _ Hs))).
    + rewrite (rows_sum w l ss Hss _ (tally (fun x => processed x.2))); [by apply tally_perm | | done | unfold tally; intros; rewrite count_app; lia].
      intros h xs s Hs. exact (proj1 (proj2 (proj2 (stats_of_spec _ _ _ _ Hs)))).
    + apply Forall_forall. intros s Hs. destruct (row_elem w l ss Hss s Hs) as (xs & Hso & Hne & Hh & Exs).
      apply stats_of_spec in Hso as (_ & -> & _ & -> & ->). split; [done |]. split; [|split; [|split; [|split]]].
      * destruct xs as [|x xs]; [done |]. assert (In x (x :: xs)) as Hin by (by left). rewrite Exs in Hin.
        apply List.filter_In in Hin as [Hin Ht]. apply list_elem_of_In in Hin. rewrite Hp in Hin. apply list_elem_of_In, List.filter_In in Hin as [_ Hw].
        unfold since_filter, in_hour in *. lia.
      * rewrite <- (tally_perm _ _ _ Hp). by rewrite Exs.
      * destruct xs; [done | unfold zlen; simpl; lia].
      * exists (py_round 2 (inject_Z (tally (fun x => processed x.2) xs) / inject_Z (zlen xs) * 100)).
        split; [by destruct xs | by apply percent_bounds].
      * pose proof (size_names (fun x => resolve_source_name (obs_source_id x.2) (sources w)) xs Hne). unfold zlen. lia.
Qed.

End Stats.

(** *** Values *)

Lemma sum_numbers qs a : foldl PyFloat.add (Number a) (map Number qs) = Number (foldl Qplus a qs).
Proof. revert a. induction qs as [|q qs IH]; intros a; [done |]. apply IH. Qed.

Lemma foldl_qsum qs a : (foldl Qplus a qs == a + qsum qs)%Q.
Proof. revert a. induction qs as [|q qs IH]; intros a; cbn [foldl]; [unfold qsum; simpl; lra |]. rewrite IH. unfold qsum. simpl. lra. Qed.

Lemma min_numbers q qs :
  exists m, PyFloat.min (Number q) (map Number qs) = Number m /\ m ∈ q :: qs /\ Forall (fun x => m <= x)%Q (q :: qs).
Proof.
  unfold PyFloat.min. revert q. induction qs as [|x qs IH]; intros q; cbn [map foldl].
  - exists q. split; [done |]. split; [set_solver |]. repeat constructor. lra.
  - cbn [PyFloat.lt]. destruct (Qltb x q) eqn:E; bool_to_prop.
    + destruct (IH x) as (m & Em & Hm & Hall). exists m. split; [done |]. split; [set_solver |].
      constructor; [|done]. apply Forall_cons in Hall as [Hx _]. lra.
    + destruct (IH q) as (m & Em & Hm & Hall). exists m. split; [done |]. split; [set_solver |].
      apply Forall_cons in Hall as [Hq Hall]. constructor; [done |]. constructor; [lra | done].
Qed.

Lemma max_numbers q qs :
  exists m, PyFloat.max (Number q) (map Number qs) = Number m /\ m ∈ q :: qs /\ Forall (fun x => x <= m)%Q (q :: qs).
Proof.
  unfold PyFloat.max. revert q. induction qs as [|x qs IH]; intros q; cbn [map foldl].
  - exists q. split; [done |]. split; [set_solver |]. repeat constructor. lra.
  - cbn [PyFloat.lt]. destruct (Qltb q x) eqn:E; bool_to_prop.
    + destruct (IH x) as (m & Em & Hm & Hall). exists m. split; [done |]. split; [set_solver |].
      constructor; [|done]. apply Forall_cons in Hall as [Hx _]. lra.
    + destruct (IH q) as (m & Em & Hm & Hall). exists m. split; [done |]. split; [set_solver |].
      apply Forall_cons in Hall as [Hq Hall]. constructor; [done |]. constructor; [lra | done].
Qed.

Lemma py_round_near n q : (py_round n q - (1 # 2) / inject_Z (10 ^ Z.of_nat n) <= q <= py_round n q + (1 # 2) / inject_Z (10 ^ Z.of_nat n))%Q.
Proof.
  unfold py_round. cbv zeta. set (scale := 10 ^ Z.of_nat n). assert (0 < scale) as Hs by (apply Z.pow_pos_nonneg; lia).
  pose proof (round_half_even_near (q * inject_Z scale)) as [H1 H2]. set (z := round_half_even (q * inject_Z scale)) in *.
  assert (0 < inject_Z scale)%Q as Hq by (change 0%Q with (inject_Z 0); rewrite <- Zlt_Qlt; lia).
  assert ((z # Z.to_pos scale) == inject_Z z / inject_Z scale)%Q as ->.
  { unfold Qeq, Qdiv, Qmult, Qinv, inject_Z. destruct scale as [|p|p]; simpl; lia. }
  set (s := inject_Z scale) in *. set (y := inject_Z z) in *.
  assert (y / s - (1 # 2) / s == (y - (1 # 2)) / s)%Q as -> by (field; lra).
  assert (y / s + (1 # 2) / s == (y + (1 # 2)) / s)%Q as -> by (field; lra).
  split; [apply Qle_shift_div_r | apply Qle_shift_div_l]; lra.
Qed.

(** Where the values of an hour are numbers its minimum and maximum are two of them that
    enclose them all, and the average, the mean to four digits, lies between them but for
    at most half a unit of its last digit; without a value all three are absent. *)
Theorem hour_statistics float_of w h l s qs :
  values_of float_of l = Ok (map Number qs) -> stats_of float_of w h l = Ok s ->
  match qs with
  | [] => avg_value s = None /\ min_value s = None /\ max_value s = None
  | _ => exists lo hi avg, min_value s = Some (Number lo) /\ max_value s = Some (Number hi) /\ avg_value s = Some (Number avg) /\
      lo ∈ qs /\ hi ∈ qs /\ Forall (fun q => lo <= q <= hi)%Q qs /\ (lo - (1 # 20000) <= avg <= hi + (1 # 20000))%Q /\
      (avg - (1 # 20000) <= qsum qs / qlen qs <= avg + (1 # 20000))%Q
  end.
Proof.
  intros Hv. unfold stats_of. cbv zeta. rewrite Hv. cbn [bind_result]. intros [= <-]. destruct qs as [|q qs]; [done |].
  cbn [min_value max_value avg_value map]. destruct (min_numbers q qs) as (lo & -> & Hlo & Hl). destruct (max_numbers q qs) as (hi & -> & Hhi & Hh).
  assert (Forall (fun x => lo <= x <= hi)%Q (q :: qs)) as Hall by (rewrite Forall_forall in *; auto).
  eexists lo, hi, _. split; [done |]. split; [done |]. split.
  { unfold average, PyFloat.sum. change (Number q :: map Number qs) with (map Number (q :: qs)). by rewrite sum_numbers. }
  split; [done |]. split; [done |]. split; [done |].
  set (mean := (foldl Qplus 0 (q :: qs) / qlen (map Number (q :: qs)))%Q).
  assert (mean == qsum (q :: qs) / qlen (q :: qs))%Q as Em.
  { unfold mean. rewrite foldl_qsum. unfold qlen. rewrite length_map. apply Qdiv_comp; [lra | done]. }
  pose proof (mean_bounds lo hi (q :: qs) ltac:(done) Hall) as Hm. rewrite <- Em in Hm. rewrite <- Em.
  pose proof (py_round_near 4 mean) as Hn. change ((1 # 2) / inject_Z (10 ^ Z.of_nat 4))%Q with ((1 # 2) / 10000)%Q in Hn.
  assert ((1 # 2) / 10000 == 1 # 20000)%Q as E by reflexivity. rewrite E in Hn. split; lra.
Qed.

(** *** Percentile ranks *)

Lemma sorted_lookup {A} (R : A -> A -> Prop) l i j x y :
  StronglySorted R l -> (i < j)%nat -> l !! i = Some x -> l !! j = Some y -> R x y.
Proof.
  intros Hs. revert i j. induction Hs as [|a l Hs IH Ha]; intros [|i] [|j] Hij Hi Hj; try done; try lia.
  - injection Hi as <-. rewrite Forall_forall in Ha. eapply Ha, list_elem_of_lookup_2, Hj.
  - apply (IH i j); [lia | done | done].
Qed.

Lemma sorted_imap {A B} (R : B -> B -> Prop) (f : nat -> A -> B) l :
  (forall i j x y, (i < j)%nat -> l !! i = Some x -> l !! j = Some y -> R (f i x) (f j y)) -> StronglySorted R (imap f l).
Proof.
  revert f. induction l as [|a l IH]; intros f H; cbn [imap]; constructor.
  - apply IH. intros i j x y Hij Hi Hj. apply (H (S i) (S j)); [lia | done | done].
  - apply Forall_lookup. intros i b Hb. rewrite list_lookup_imap in Hb. destruct (l !! i) as [x|] eqn:E; [|done]. injection Hb as <-.
    apply (H 0%nat (S i)); [lia | done | done].
Qed.

Lemma newest_first_sorted l : StronglySorted (fun x y => timestamp y.2 <= timestamp x.2) (order_by newest_first l).
Proof.
  assert (StronglySorted (fun x y => newest_first x y = true) (order_by newest_first l)) as H
    by (apply order_by_sorted; unfold newest_first; intros; lia).
  induction H as [|x k Hs IH Hx]; constructor; [done |]. eapply Forall_impl; [exact Hx |]. unfold newest_first. intros; simpl in *; lia.
Qed.

Lemma rank_bounds n i : (i < n)%nat -> (0 <= inject_Z (Z.of_nat i) / inject_Z (Z.of_nat n - 1) <= 1)%Q \/ n = 1%nat.
Proof.
  intros Hi. destruct (decide (n = 1%nat)) as [->|]; [by right |]. left.
  assert (0 < inject_Z (Z.of_nat n - 1))%Q by (change 0%Q with (inject_Z 0); rewrite <- Zlt_Qlt; lia).
  assert (0 <= inject_Z (Z.of_nat i))%Q by (change 0%Q with (inject_Z 0); rewrite <- Zle_Qle; lia).
  assert (inject_Z (Z.of_nat i) <= inject_Z (Z.of_nat n - 1))%Q by (rewrite <- Zle_Qle; lia).
  split; [apply Qle_shift_div_l | apply Qle_shift_div_r]; lra.
Qed.

(** The percentile rank of an observation is how recent it is, whatever its value: the
    hundred newest live observations of the source come newest first, the first with the
    rank 0, the last of several with the rank 1, and the ranks between ascend.  For a name
    that no source has the observations of all sources are ranked. *)
Theorem percentile_ranks_recency source w :
  let '(total, rs) := get_percentile source w in
  total = zlen rs /\ total <= 100 /\
  StronglySorted (fun a b => ranked_timestamp b <= ranked_timestamp a /\ (percentile_rank a <= percentile_rank b)%Q) rs /\
  Forall (fun r => 0 <= percentile_rank r <= 1)%Q rs /\
  (forall r, head rs = Some r -> (percentile_rank r == 0)%Q) /\
  (1 < total -> forall r, last rs = Some r -> (percentile_rank r == 1)%Q) /\
  (forall r, r ∈ rs -> exists o, (ranked_id r, o) ∈ rows (observations w) /\ active o = true /\ timestamp o = ranked_timestamp r /\
     value_of o = ranked_value r /\
     match resolve_source_id_by_name source (sources w) with Some i => obs_source_id o = i | None => True end).
Proof.
  unfold get_percentile. cbv zeta. set (wanted := fun o => _). set (l := take 100 (order_by newest_first (select wanted (observations w)))).
  assert (zlen (imap (rank_from (zlen l)) l) = zlen l) as Hlen by (unfold zlen; by rewrite length_imap).
  assert (forall i x, l !! i = Some x -> (i < length l)%nat) as Hlt by (intros i x Hi; by apply lookup_lt_Some in Hi).
  assert (forall i x, l !! i = Some x -> (0 <= percentile_rank (rank_from (zlen l) i x) <= 1)%Q) as Hb.
  { intros i x Hi. unfold rank_from. cbn [percentile_rank]. destruct (Z.leb_spec (zlen l) 1); [lra |].
    apply (py_round_bounds 4 0 1). destruct (rank_bounds (length l) i (Hlt i x Hi)) as [?|E]; [done | unfold zlen in *; lia]. }
  split; [by rewrite Hlen |]. split; [unfold zlen, l; rewrite length_take; lia |].
  split; [|split; [|split; [|split]]].
  - assert (StronglySorted (fun x y => timestamp y.2 <= timestamp x.2) l) as Hs by (apply StronglySorted_take, newest_first_sorted).
    apply sorted_imap. intros i j x y Hij Hi Hj. split; [by apply (sorted_lookup _ _ i j x y Hs) |]. unfold rank_from. cbn [percentile_rank].
    destruct (Z.leb_spec (zlen l) 1); [lra |]. apply py_round_mono. unfold Qdiv. apply Qmult_le_compat_r.
    + rewrite <- Zle_Qle. lia.
    + apply Qinv_le_0_compat. change 0%Q with (inject_Z 0). rewrite <- Zle_Qle. lia.
  - apply Forall_lookup. intros i r Hi. rewrite list_lookup_imap in Hi. destruct (l !! i) as [x|] eqn:Ei; [|done]. injection Hi as <-. by apply Hb.
  - intros r. rewrite head_lookup, list_lookup_imap. destruct (l !! 0%nat) as [x|]; [|done]. intros [= <-]. unfold rank_from. cbn [percentile_rank].
    destruct (zlen l <=? 1); [done |]. change (inject_Z (Z.of_nat 0)) with 0%Q. apply Qle_antisym.
    + apply (py_round_bounds 4 0 0). change (inject_Z 0) with 0%Q. unfold Qdiv. rewrite Qmult_0_l. lra.
    + apply (py_round_bounds 4 0 0). change (inject_Z 0) with 0%Q. unfold Qdiv. rewrite Qmult_0_l. lra.
  - rewrite last_lookup, length_imap. intros Ht r Hr. rewrite list_lookup_imap in Hr. destruct (l !! Nat.pred (length l)) as [x|]; [|done].
    injection Hr as <-. unfold rank_from. cbn [percentile_rank]. rewrite (proj2 (Z.leb_gt _ _)) by lia.
    replace (Z.of_nat (Nat.pred (length l))) with (zlen l - 1) by (unfold zlen in *; lia).
    assert (inject_Z (zlen l - 1) / inject_Z (zlen l - 1) == 1)%Q as E.
    { unfold Qdiv. apply Qmult_inv_r. change 0%Q with (inject_Z 0). rewrite inject_Z_injective. lia. }
    pose proof (py_round_bounds 4 1 1 (inject_Z (zlen l - 1) / inject_Z (zlen l - 1))) as H. rewrite E in H at 1 2.
    change (inject_Z 1) with 1%Q in H. specialize (H ltac:(lra)). lra.
  - intros r [i Hi]%list_elem_of_lookup. rewrite list_lookup_imap in Hi. destruct (l !! i) as [x|] eqn:Ei; [|done]. injection Hi as <-.
    apply list_elem_of_lookup_2, elem_of_take_1 in Ei. rewrite order_by_perm in Ei. apply list_elem_of_In, List.filter_In in Ei as [Hin Hw].
    unfold wanted in Hw. apply andb_true_iff in Hw as [Ha Hw]. exists x.2. cbn [ranked_id ranked_timestamp ranked_value rank_from].
    split; [by destruct x; apply list_elem_of_In |]. split; [done |]. split; [done |]. split; [done |]. by destruct (resolve_source_id_by_name _ _); [apply Z.eqb_eq |].
Qed.

(** *** The top of each source *)

Lemma insert_by_ext {A} (le le' : A -> A -> bool) x l :
  (forall y, y ∈ l -> le x y = le' x y) -> insert_by le x l = insert_by le' x l.
Proof.
  induction l as [|y l IH]; intros H; cbn [insert_by]; [done |]. rewrite (H y) by set_solver.
  destruct (le' x y); [done |]. f_equal. apply IH. intros z Hz. apply H. set_solver.
Qed.

Lemma order_by_ext {A} (le le' : A -> A -> bool) l :
  (forall x y, x ∈ l -> y ∈ l -> le x y = le' x y) -> order_by le l = order_by le' l.
Proof.
  induction l as [|x l IH]; intros H; cbn [order_by foldr]; [done |].
  fold (order_by le l). fold (order_by le' l). rewrite IH by (intros; apply H; set_solver).
  apply insert_by_ext. intros y Hy. rewrite order_by_perm in Hy. apply H; set_solver.
Qed.

(** A value that is a number or is not there. *)
Definition numeric (v : json) : Prop := v = JNull \/ exists q, as_number v = Some q.

(** Greater or equal, and what is there before what is not. *)
Definition above (x y : top_row) : Prop :=
  top_value y = JNull \/ exists p q, as_number (top_value x) = Some p /\ as_number (top_value y) = Some q /\ (q <= p)%Q.

Definition is_there (v : json) : bool := match v with JNull => false | _ => true end.
Definition number (v : json) : Q := or_else (as_number v) 0%Q.

(** The comparison of numeric rows, as a total order. *)
Definition not_below_number (x y : top_row) : bool :=
  if is_there (top_value y) then is_there (top_value x) && Qle_bool (number (top_value y)) (number (top_value x)) else true.

Lemma value_or_0_number v : numeric v -> exists q, as_number (value_or_0 v) = Some q /\ (q == number v)%Q.
Proof.
  intros [->|[q Hq]]; [by exists 0%Q |]. unfold value_or_0, number. rewrite Hq. cbn [or_else].
  destruct v as [|b|z|r|s|l|l]; try done; cbn [ObservationQueries.json_truthy].
  - injection Hq as <-. destruct b; cbn; eexists; split; done.
  - injection Hq as <-. destruct (Z.eqb_spec z 0) as [->|]; cbn; eexists; split; done.
  - injection Hq as <-. destruct (Qeq_bool r 0) eqn:E; cbn; eexists; (split; [done |]); [|done].
    apply Qeq_bool_iff in E. by rewrite E.
Qed.

Lemma number_compare a b p q :
  as_number a = Some p -> as_number b = Some q -> py_eq a b = Qeq_bool p q /\ py_lt a b = Some (Qltb p q).
Proof. destruct a, b; try done; cbn [as_number]; intros [= <-] [= <-]; done. Qed.

Lemma Qltb_comp a b c d : (a == b)%Q -> (c == d)%Q -> Qltb a c = Qltb b d.
Proof.
  intros Hab Hcd. apply eq_true_iff_eq. rewrite !Qltb_lt. by rewrite Hab, Hcd.
Qed.

Lemma key_lt_number x y :
  numeric (top_value x) -> numeric (top_value y) ->
  key_lt (key_of x) (key_of y) = Some (negb (not_below_number x y)).
Proof.
  intros Hx Hy. destruct (value_or_0_number _ Hx) as (p & Ep & Hp). destruct (value_or_0_number _ Hy) as (q & Eq & Hq).
  destruct (number_compare _ _ p q Ep Eq) as [E L]. unfold key_lt, key_of, not_below_number.
  change (match top_value x with JNull => false | _ => true end) with (is_there (top_value x)).
  change (match top_value y with JNull => false | _ => true end) with (is_there (top_value y)). cbn [fst snd]. rewrite E, L.
  assert (is_there (top_value x) = false -> (p == 0)%Q) as Hx0 by (intros H0; rewrite Hp; by destruct (top_value x)).
  assert (is_there (top_value y) = false -> (q == 0)%Q) as Hy0 by (intros H0; rewrite Hq; by destruct (top_value y)).
  assert (Qle_bool (number (top_value y)) (number (top_value x)) = negb (Qltb p q)) as Hle.
  { rewrite (Qltb_comp p (number (top_value x)) q (number (top_value y))) by done. unfold Qltb. by rewrite negb_involutive. }
  rewrite Hle. destruct (is_there (top_value x)), (is_there (top_value y)); cbn [Bool.eqb negb andb]; try done.
  - destruct (Qeq_bool p q) eqn:Epq; [|by rewrite negb_involutive]. rewrite negb_involutive. apply Qeq_bool_iff in Epq.
    f_equal. symmetry. apply Qltb_ge. lra.
  - rewrite (proj2 (Qeq_bool_iff p q)); [done |]. rewrite Hx0, Hy0 by done. done.
Qed.

Lemma not_below_numeric l :
  Forall (fun r => numeric (top_value r)) l -> order_by not_below l = order_by not_below_number l.
Proof.
  rewrite Forall_forall. intros H. apply order_by_ext. intros x y Hx Hy. unfold not_below. rewrite key_lt_number by auto.
  apply negb_involutive.
Qed.

Lemma numeric_sorted l :
  Forall (fun r => numeric (top_value r)) l -> StronglySorted above (order_by not_below l).
Proof.
  intros Hl. rewrite not_below_numeric by done.
  assert (StronglySorted (fun x y => not_below_number x y = true) (order_by not_below_number l)) as Hs.
  { apply order_by_sorted; unfold not_below_number.
    - intros x y. destruct (is_there (top_value x)), (is_there (top_value y)); cbn; auto. rewrite !Qle_bool_iff.
      destruct (Qlt_le_dec (number (top_value x)) (number (top_value y))); [right | left]; lra.
    - intros x y z. destruct (is_there (top_value x)), (is_there (top_value y)), (is_there (top_value z)); cbn; try done.
      rewrite !Qle_bool_iff. lra. }
  assert (Forall (fun r => numeric (top_value r)) (order_by not_below_number l)) as Hn by (by rewrite order_by_perm).
  induction Hs as [|x k Hs IH Hx]; [constructor |]. apply Forall_cons in Hn as [Hxn Hn]. constructor; [by apply IH |].
  rewrite Forall_forall in *. intros y Hy. specialize (Hx y Hy). specialize (Hn y Hy). unfold above, not_below_number in *.
  destruct Hn as [->|[q Hq]]; [by left |]. right. destruct (top_value y) eqn:Ey; try done; cbn [is_there] in Hx;
    apply andb_true_iff in Hx as [Ht Hx]; (destruct Hxn as [E|[p Hp]]; [by rewrite E in Ht |]);
    exists p, q; (split; [done |]); (split; [done |]); apply Qle_bool_iff in Hx; unfold number in Hx; by rewrite Hp, Hq in Hx.
Qed.

Lemma top_of_each_spec limit g out :
  top_of_each limit g = Ok out ->
  Forall2 (fun x y => y.1 = x.1 /\ y.2 = imap with_rank (take limit (order_by not_below (map row_of x.2)))) g out.
Proof.
  revert out. induction g as [|[k l] g IH]; intros out; cbn [top_of_each]; [intros [= <-]; constructor |].
  unfold sorted_rows at 1. destruct (forallb _ _); [|done]. cbn [bind_result]. destruct (top_of_each limit g) as [rest|]; [|done].
  cbn [bind_result]. intros [= <-]. constructor; [done | by apply IH].
Qed.

(** The top of each source: every source with an observation in the window is listed
    once, with the first of its observations in some order, numbered from 1; where their
    values are numbers or absent that order is by value, the greatest first and the absent
    last. *)
Theorem top_rows_are_greatest now limit n w out :
  get_top_by_source now limit n w = Ok out ->
  let of_source k x := bool_decide (resolve_source_name (obs_source_id x.2) (sources w) = k) in
  NoDup (map fst out) /\
  (forall k, k ∈ map fst out <-> exists x, x ∈ in_window now n w /\ of_source k x = true) /\
  forall k rs, (k, rs) ∈ out ->
    exists s, s ≡ₚ map row_of (List.filter (of_source k) (in_window now n w)) /\ rs = imap with_rank (take limit s) /\
      (Forall (fun r => numeric (top_value r)) s -> StronglySorted above s).
Proof.
  unfold get_top_by_source. cbv zeta. change (select (since_filter (now - hours n)) (observations w)) with (in_window now n w).
  pose proof (order_by_perm newest_first (in_window now n w)) as Hp. set (l := order_by newest_first (in_window now n w)) in *.
  pose proof (group_by_ok (fun x => resolve_source_name (obs_source_id x.2) (sources w)) l) as [Hnd He].
  intros Ho%top_of_each_spec. set (g := group_by _ l) in *.
  assert (map fst out = map fst g) as Ek by (clear -Ho; induction Ho as [|x y g out [Hx _] _ IH]; [done |]; cbn [map]; by rewrite IH, Hx).
  split; [by rewrite Ek |]. split.
  - intros k. rewrite Ek, list_elem_of_fmap. split.
    + intros ([k' xs] & -> & Hx). apply He in Hx as [Hne ->]. destruct (List.filter _ l) as [|x xs] eqn:E; [done |].
      assert (In x (x :: xs)) as Hx by (by left). rewrite <- E in Hx. apply List.filter_In in Hx as [Hin Hk].
      exists x. split; [by rewrite <- Hp; apply list_elem_of_In | exact Hk].
    + intros (x & Hx & Hk). exists (k, List.filter (of_key (fun x => resolve_source_name (obs_source_id x.2) (sources w)) k) l).
      split; [done |]. apply He. split; [|done]. rewrite <- Hp in Hx. intros E.
      assert (In x []) as []. rewrite <- E. apply List.filter_In. split; [by apply list_elem_of_In | exact Hk].
  - intros k rs [i Hi]%list_elem_of_lookup. destruct (Forall2_lookup_r _ _ _ _ _ Ho Hi) as ([k' xs] & Hg & Hk & Hr). cbn [fst snd] in *. subst k'.
    apply list_elem_of_lookup_2, He in Hg as [_ ->]. eexists. split; [|split; [exact Hr |]].
    + rewrite order_by_perm. apply Permutation_map. by apply filter_perm.
    + intros Hs. apply numeric_sorted. by rewrite order_by_perm in Hs.
Qed.

(** *** The daily series *)

Lemma sorted_map {A B} (f : A -> B) (R : B -> B -> Prop) l :
  StronglySorted (fun x y => R (f x) (f y)) l <-> StronglySorted R (map f l).
Proof.
  induction l as [|x l IH]; cbn [map]; [split; constructor |]. split; intros [Hs Hx]%StronglySorted_inv; constructor;
    (by apply IH) || (by apply Forall_map).
Qed.

Definition last7 (l : list Z) : list Z := drop (length l - 7) l.

Lemma push_last7 p c : push (last7 p) c = last7 (p ++ [c]).
Proof.
  unfold push, last7, zlen. rewrite !length_app, length_drop. cbn [length].
  destruct (Z.ltb_spec 7 (Z.of_nat (length p - (length p - 7) + 1))) as [H|H].
  - replace (length p + 1 - 7)%nat with (S (length p - 7)) by lia.
    destruct (drop (length p - 7) p) as [|a q] eqn:E; [apply (f_equal length) in E; rewrite length_drop in E; simpl in E; lia |].
    cbn [app tail]. assert (drop (S (length p - 7)) p = q) as Hq by (by rewrite <- Nat.add_1_r, <- drop_drop, E).
    rewrite drop_app_le by lia. by rewrite Hq.
  - replace (length p + 1 - 7)%nat with 0%nat by lia. replace (length p - 7)%nat with 0%nat by lia. done.
Qed.

Lemma walk_rows w p l k r :
  walk_days w (last7 p) l !! k = Some r ->
  rolling_7d r = zsum (last7 (p ++ take (S k) (map (fun x => zlen x.2) l))).
Proof.
  revert p k. induction l as [|x l IH]; intros p k; cbn [walk_days map]; [done |]. rewrite push_last7. destruct k as [|k].
  - intros [= <-]. done.
  - intros Hk. rewrite (IH _ _ Hk). cbn [take]. by rewrite <- app_assoc.
Qed.

Lemma walk_counts w win l : map daily_count (walk_days w win l) = map (fun x => zlen x.2) l.
Proof. revert win. induction l as [|x l IH]; intros win; cbn [walk_days map]; [done |]. by rewrite IH. Qed.

Lemma walk_day_names w win l : map day (walk_days w win l) = map fst l.
Proof. revert win. induction l as [|x l IH]; intros win; cbn [walk_days map]; [done |]. by rewrite IH. Qed.

Lemma zsum_rev l : zsum (rev l) = zsum l.
Proof. induction l as [|z l IH]; [done |]. cbn [rev]. rewrite zsum_app, IH. unfold zsum. simpl. lia. Qed.

Lemma last7_take (l : list Z) k : (k < length l)%nat ->
  zsum (last7 (take (S k) l)) = zsum (take 7 (drop (length l - S k) (rev l))).
Proof.
  intros Hk. rewrite <- (zsum_rev (take 7 _)). f_equal. unfold last7. rewrite length_take_le by lia.
  rewrite <- (take_drop (S k) l) at 2 3. rewrite rev_app_distr, length_app, length_take_le by lia.
  rewrite drop_app_length' by (rewrite length_rev, !length_drop; lia).
  rewrite <- (rev_involutive (take (S k) l)) at 1. generalize (take (S k) l) (length_take_le l (S k) ltac:(lia)). intros q Hq.
  rewrite rev_involutive. rewrite <- (rev_involutive q) at 1. rewrite <- skipn_rev || idtac.
  rewrite <- (take_drop 7 (rev q)) at 1. rewrite rev_app_distr. apply drop_app_length'.
  rewrite length_rev, length_drop, length_rev. lia.
Qed.

(** The daily series on the fallback: the days come newest first, each once, and their
    counts add up to the live observations of the period; the rolling total of a day is the
    sum over it and the six days before it that have observations, however far apart they
    are; the comparison to the previous day is absent throughout.  On PostgreSQL the
    fallback itself fails. *)
Theorem series_rolls_over_listed_days strftime now n w :
  _compute_timeseries_fallback strftime postgresql now n w = Raise DataError /\
  exists rs, _compute_timeseries_fallback strftime sqlite now n w = Ok rs /\
    NoDup (map day rs) /\ StronglySorted (fun a b => String.leb (day b) (day a) = true) rs /\
    zsum (map daily_count rs) = zlen (select (since_filter (now - days n)) (observations w)) /\
    forall i r, rs !! i = Some r ->
      rolling_7d r = zsum (take 7 (drop i (map daily_count rs))) /\ prev_day_count r = None /\ day_over_day_pct r = None.
Proof.
  split; [done |]. unfold _compute_timeseries_fallback. cbv zeta. set (l := select _ _).
  set (key := fun x : Z * Observation => strftime (timestamp x.2)). set (D := order_by newest_day (group_by key l)).
  eexists. split; [done |].
  assert (map day (rev (walk_days w [] (rev D))) = map fst D) as Hd by (rewrite map_rev, walk_day_names, <- map_rev, rev_involutive; done).
  assert (map daily_count (rev (walk_days w [] (rev D))) = map (fun x => zlen x.2) D) as Hc
    by (rewrite map_rev, walk_counts, <- map_rev, rev_involutive; done).
  split; [|split; [|split]].
  - rewrite Hd. unfold D. rewrite order_by_perm. apply (groups_keys _ _ _ (group_by_ok key l)).
  - apply (sorted_map day (fun a b => String.leb b a = true)). rewrite Hd. apply sorted_map.
    apply (order_by_sorted newest_day); unfold newest_day; [intros x y; destruct (String.leb_total x.1 y.1); auto |].
    intros x y z H1 H2. by apply (string_leb_trans _ y.1).
  - rewrite Hc, <- (group_by_sum zlen key l); [|done | unfold zlen; intros; rewrite length_app; lia].
    assert (forall a b : list (string * rows_of), a ≡ₚ b -> zsum (map (fun x => zlen x.2) a) = zsum (map (fun x => zlen x.2) b)) as Hz.
    { induction 1; unfold zsum in *; simpl; lia. }
    apply Hz, order_by_perm.
  - intros i r Hi. rewrite Hc.
    assert (length (walk_days w [] (rev D)) = length D) as Hlen by (rewrite <- (length_map daily_count), walk_counts, length_map; apply length_rev).
    assert (i < length D)%nat as Hlt by (apply lookup_lt_Some in Hi; by rewrite length_rev, Hlen in Hi).
    rewrite rev_alt in Hi; fold (reverse (walk_days w [] (rev D))) in Hi; rewrite reverse_lookup in Hi by lia. rewrite Hlen in Hi. split.
    + rewrite (walk_rows w [] (rev D) _ r Hi). cbn [app]. rewrite last7_take by (rewrite length_map, length_rev; lia).
      rewrite map_rev, rev_involutive, length_rev, length_map. do 3 f_equal. lia.
    + apply list_elem_of_lookup_2 in Hi. clear -Hi. revert Hi. generalize ([] : list Z). induction (rev D) as [|x k IH]; intros win; cbn [walk_days]; [by intros ?%not_elem_of_nil |].
      intros [->|Hr]%elem_of_cons; [done | by eapply IH].
Qed.

(** The tenant's count is of what the tenant may see, deleted observations included. *)
Theorem tenant_count_includes_deleted ctx w :
  let count p := zlen (select (fun o => _apply_tenant_filter ctx o && p o) (observations w)) in
  tenant_observation_count (get_tenant_status ctx w) = count active + count (fun o => negb (active o)).
Proof.
  cbv zeta. unfold get_tenant_status. cbn [tenant_observation_count]. unfold select. induction (rows (observations w)) as [|x l IH]; [done |].
  cbn [List.filter]. set (v := match get_user_role ctx with Some _ => _ | None => _ end). 
  assert (v = _apply_tenant_filter ctx x.2) as <-.
  { unfold v, _apply_tenant_filter. destruct (get_user_role ctx) as [r|]; [|done]. case_decide as E; [by subst r |]. clear -E. by repeat case_match. }
  destruct v; cbn [andb]; [|exact IH]. unfold zlen in *. destruct (active x.2); cbn [negb length]; lia.
Qed.

End AnalyticsTheorems.

(** ** Witnesses *)

Module AnalyticsWitnesses.
Import SourceRegistry Observations ReadModels Transformations Analytics AnalyticsTheorems.

Definition source_named (n : string) : SourceProfile :=
  Profile n "https://api.example.com" "/health" 60 true None None 3 60 "none" None "X-API-Key" None 0 None None.

Definition seen_at (i : Z) (t : datetime) (v : json) (p : bool) : Observation :=
  Obs i t (JObj [("value", v)]) [] p None None 0 None None.

Definition minute : Z := seconds 60.

(** Two sources; observations of two hours, one with its value as text. *)
Definition busy_day : world :=
  World (Table [(1, source_named "weather"); (2, source_named "rates")] 3)
    (Table [(1, seen_at 1 (10 * minute) (JInt 4) true); (2, seen_at 1 (20 * minute) (JFloat (5 # 2)) false);
            (3, seen_at 2 (30 * minute) (JStr "7") true); (4, seen_at 2 (90 * minute) JNull false)] 5).

Definition digits (s : string) : option pyfloat := if String.eqb s "7" then Some (Number 7) else None.

Example busy_summary :
  match get_summary digits (100 * minute) 2 busy_day with
  | Ok ss => map (fun s => (hour s, observation_count s, processed_count s, avg_value s)) ss =
      [(60 * minute, 1, 0, None); (0, 3, 2, Some (Number (45000 # 10000)))]
  | Raise _ => False
  end.
Proof. vm_compute. reflexivity. Qed.

Lemma summary_partitions_witness :
  exists ss, get_summary digits (100 * minute) 2 busy_day = Ok ss /\ zsum (map observation_count ss) = 4.
Proof.
  assert (is_ok (get_summary digits (100 * minute) 2 busy_day) = true) as H by (vm_compute; reflexivity).
  revert H. generalize (proj2 (summary_partitions digits (100 * minute) 2 busy_day)).
  generalize (get_summary digits (100 * minute) 2 busy_day). intros [ss|] Hs H; [|discriminate H].
  exists ss. split; [reflexivity |]. destruct (Hs ss eq_refl) as (_ & Hc & _). rewrite Hc. vm_compute. reflexivity.
Defined.

(** One value that is no number fails the summary of all sources. *)
Example one_bad_value :
  get_summary digits (100 * minute) 2
    (with_observations busy_day (snd (insert (seen_at 2 (95 * minute) (JStr "n/a") false) (observations busy_day)))) = Raise ValueError.
Proof. vm_compute. reflexivity. Qed.

Lemma hour_statistics_witness :
  exists s lo hi, stats_of digits busy_day 0 (take 3 (rows (observations busy_day))) = Ok s /\
    min_value s = Some (Number lo) /\ max_value s = Some (Number hi) /\ (lo <= 4 <= hi)%Q.
Proof.
  assert (is_ok (stats_of digits busy_day 0 (take 3 (rows (observations busy_day)))) = true) as H by (vm_compute; reflexivity).
  revert H. generalize (fun s => hour_statistics digits busy_day 0 (take 3 (rows (observations busy_day))) s [4; 5 # 2; 7]%Q eq_refl).
  generalize (stats_of digits busy_day 0 (take 3 (rows (observations busy_day)))). intros [s|] Hs H; [|discriminate H].
  destruct (Hs s eq_refl) as (lo & hi & avg & Hl & Hh & _ & _ & _ & Hall & _). exists s, lo, hi.
  split; [reflexivity |]. split; [exact Hl |]. split; [exact Hh |]. apply Forall_cons in Hall as [Hq _]. exact Hq.
Defined.

(** A name that no source has ranks the observations of all. *)
Example unknown_source_ranks_all :
  fst (get_percentile "weather" busy_day) = 2 /\ fst (get_percentile "wether" busy_day) = 4.
Proof. vm_compute. split; reflexivity. Qed.

Example busy_top :
  match get_top_by_source (100 * minute) 1 2 busy_day with
  | Ok out => map (fun x => (x.1, map top_id x.2)) out = [("rates", [3]); ("weather", [1])]
  | Raise _ => False
  end.
Proof. vm_compute. reflexivity. Qed.

Lemma top_rows_are_greatest_witness :
  exists out, get_top_by_source (100 * minute) 1 2 busy_day = Ok out /\ NoDup (map fst out).
Proof.
  assert (is_ok (get_top_by_source (100 * minute) 1 2 busy_day) = true) as H by (vm_compute; reflexivity).
  revert H. generalize (top_rows_are_greatest (100 * minute) 1 2 busy_day).
  generalize (get_top_by_source (100 * minute) 1 2 busy_day). intros [out|] Hs H; [|discriminate H].
  exists out. split; [reflexivity |]. exact (proj1 (Hs out eq_refl)).
Defined.

End AnalyticsWitnesses.
