(* ===== verification/Application.v ===== *)
(** * The application (main.py, core/config.py, services_lifecycle.py, api/main.py,
    libs/version.py, libs/platform/http_timeout.py)

    The settings and their checks, the versions, the probes, the middleware stack, the
    routers with their guards, the documented authentication and the order in which the
    parts of the process start and stop.

    Calls to other components and to third-party code in the life cycle are steps that
    succeed or raise as a parameter says; the check of the Host header is Starlette's and a
    parameter. *)

From S2P Require Import Prelude.

(** ** Settings *)

Module Config.

Inductive delivery_mode := direct | broker.

(** The settings that are constrained or that the start of the process looks at. *)
Record Settings := SettingsOf {
  environment : string;
  jwt_secret : string;
  database_url : string;
  superadmin_password : option string;
  request_timeout_seconds : Z;
  retention_days : Z;
  retention_batch_size : Z;
  sentry_traces_sample_rate : Q;
  sentry_profiles_sample_rate : Q;
  background_worker_count : Z;
  background_worker_queue_size : Z;
  background_max_tracked_tasks : Z;
  notification_http_timeout_seconds : Z;
  vector_search_http_timeout_seconds : Z;
  cache_enabled : bool;
  websocket_enabled : bool;
  broker_enabled : bool;
  background_workers_enabled : bool;
  auth_demo_routes_enabled : bool;
  anthropic_enabled : bool;
  anthropic_api_key : option string
}.

Definition RETENTION_BATCH_SIZE_MAX : Z := 10000.

Definition between (lo hi z : Z) : bool := (lo <=? z) && (z <=? hi).
Definition rate (q : Q) : bool := Qle_bool 0 q && Qle_bool q 1.

(** The constraints of the fields. *)
Definition fields_valid (s : Settings) : bool :=
  between 1 300 (request_timeout_seconds s) && (1 <=? retention_days s) &&
  between 1 RETENTION_BATCH_SIZE_MAX (retention_batch_size s) &&
  rate (sentry_traces_sample_rate s) && rate (sentry_profiles_sample_rate s) &&
  between 1 32 (background_worker_count s) && between 1 10000 (background_worker_queue_size s) &&
  between 10 50000 (background_max_tracked_tasks s) &&
  between 1 60 (notification_http_timeout_seconds s) && between 1 60 (vector_search_http_timeout_seconds s).

Definition PLACEHOLDERS : list string := ["changethis"; "CHANGETHIS"; "changeme"; "CHANGEME"].
Definition LOCAL_DATABASES : list string := ["localhost"; "127.0.0.1"; "postgres"].

Definition is_production (s : Settings) : bool := bool_decide (lower (environment s) ∈ ["production"; "prod"]).

Inductive config_error := FieldError | WeakJwtSecret | LocalDatabase | WeakSuperadminPassword.

Definition _check_default_secret (s : Settings) : result config_error Settings :=
  if is_production s then
    if negb (str_truthy (jwt_secret s)) || bool_decide (jwt_secret s ∈ PLACEHOLDERS) then Raise WeakJwtSecret
    else if str_truthy (database_url s) && existsb (fun p => contains p (database_url s)) LOCAL_DATABASES then Raise LocalDatabase
    else if match superadmin_password s with
            | Some p => str_truthy p && bool_decide (p ∈ PLACEHOLDERS)
            | None => false
            end then Raise WeakSuperadminPassword
    else Ok s
  else Ok s.

(** The validator runs on settings whose fields are valid. *)
Definition load (s : Settings) : result config_error Settings :=
  if fields_valid s then _check_default_secret s else Raise FieldError.

(** The check at the start of the process, with the variable JWT_SECRET. *)
Definition _validate_production_security_settings (jwt_secret_variable : option string) (s : Settings) : result string unit :=
  if is_production s then
    if (Z.of_nat (String.length (jwt_secret s)) <? 32) || negb (opt_str_truthy jwt_secret_variable)
    then Raise "Weak default secrets detected in production environment." else Ok tt
  else Ok tt.

End Config.

(** ** Versions *)

Module Versions.

Inductive version_error := MissingFile | EmptyFile | NotSet.

(** [contents] are those of the file where it exists. *)
Definition get_contracts_version (contents : option string) : result version_error string :=
  match contents with
  | None => Raise MissingFile
  | Some t => if str_truthy (strip t) then Ok (strip t) else Raise EmptyFile
  end.

Definition get_service_version (variable contents : option string) : result version_error string :=
  match variable with
  | Some sv => if str_truthy sv then Ok (strip sv) else
      match contents with Some t => if str_truthy (strip t) then Ok (strip t) else Raise EmptyFile | None => Raise NotSet end
  | None =>
      match contents with Some t => if str_truthy (strip t) then Ok (strip t) else Raise EmptyFile | None => Raise NotSet end
  end.

(** [lru_cache(maxsize=1)] of a function without arguments: what it returned once it
    returns from then on, what it raised it tries again. *)
Definition cached (c : option string) (call : result version_error string) : result version_error string * option string :=
  match c with
  | Some v => (Ok v, c)
  | None => match call with Ok v => (Ok v, Some v) | Raise e => (Raise e, None) end
  end.

Record payload := Payload { contracts : string; service : string }.

Definition get_version_payload (c s : result version_error string) : result version_error payload :=
  bind_result c (fun c => bind_result s (fun s => Ok (Payload c s))).

End Versions.

(** ** Probes *)

Module Readyz.
Import Config Versions.

Inductive cache_check := cache_ok | cache_unreachable | not_configured.

Record readiness := Readiness { db_ok : bool; cache : cache_check; websocket : bool; versions : payload }.

(** The answers of the three probes; an exception that is not an [HTTPException] is a 500. *)
Inductive answer := Ready (r : readiness) | Degraded (r : readiness) | Version (p : payload) | ServerError.

(** [client] is the client of the cache where there is one, as its ping answers. *)
Definition check_cache (s : Settings) (client : option (result string unit)) : cache_check * bool :=
  if negb (cache_enabled s) then (not_configured, false)
  else
    match client with
    | Some (Ok _) => (cache_ok, false)
    | Some (Raise _) => (cache_unreachable, true)
    | None => (cache_unreachable, false)
    end.

Definition readyz (s : Settings) (db : result string unit) (client : option (result string unit))
    (service_version contracts_version : result version_error string) : answer :=
  let '(cache, cache_failed) := check_cache s client in
  match service_version with
  | Raise _ => ServerError
  | Ok svc =>
      let c := match contracts_version with Ok c => c | Raise _ => "unknown" end in
      let r := Readiness (is_ok db) cache (websocket_enabled s) (Payload c svc) in
      if negb (is_ok db) || cache_failed then Degraded r else Ready r
  end.

Definition version_probe (service_version contracts_version : result version_error string) : answer :=
  match get_version_payload contracts_version service_version with
  | Ok p => Version p
  | Raise _ => ServerError
  end.

Definition status_of (a : answer) : Z :=
  match a with Ready _ | Version _ => 200 | Degraded _ => 503 | ServerError => 500 end.

End Readyz.

(** ** The middleware stack *)

Module Middleware.

(** Header names in lower case. *)
Record request := Request { scheme : string; path : string; is_http : bool; headers : gmap string string }.
Record response := Response { status_code : Z; response_headers : gmap string string }.

Inductive exception := TimeoutError | Exception (message : string).

(** What the application does with a request: its outcome, and after how long the response
    starts and the handling ends. *)
Record run := Run { outcome : result exception response; started_after : timedelta; finished_after : timedelta }.

Abbreviation app := (request -> run) (only parsing).

Definition on_response (f : response -> response) (r : run) : run :=
  Run (match outcome r with Ok a => Ok (f a) | Raise e => Raise e end) (started_after r) (finished_after r).

Definition set_header (name value : string) (r : response) : response :=
  Response (status_code r) (<[name := value]> (response_headers r)).

Definition BASELINE : list (string * string) :=
  [("x-content-type-options", "nosniff"); ("x-frame-options", "DENY"); ("referrer-policy", "no-referrer");
   ("permissions-policy", "geolocation=(), camera=(), microphone=()")].

Definition HSTS : string * string := ("strict-transport-security", "max-age=31536000; includeSubDomains").

Definition secured (q : request) (r : response) : response :=
  let r := foldl (fun r x => set_header x.1 x.2 r) r BASELINE in
  if decide (scheme q = "https") then set_header HSTS.1 HSTS.2 r else r.

Definition SecurityHeadersMiddleware (inner : app) : app := fun q => on_response (secured q) (inner q).

(** [headers.get("X-Correlation-ID") or str(uuid.uuid4())]. *)
Definition cid_of (uuid4 : string) (q : request) : string :=
  match headers q !! "x-correlation-id" with Some s => if str_truthy s then s else uuid4 | None => uuid4 end.

Definition CorrelationIdMiddleware (uuid4 : string) (inner : app) : app :=
  fun q => on_response (set_header "x-correlation-id" (cid_of uuid4 q)) (inner q).

(** Starlette's check of the Host header: a response of its own for a host that it refuses. *)
Definition TrustedHostMiddleware (refused : request -> option response) (inner : app) : app :=
  fun q => match refused q with Some r => Run (Ok r) 0 0 | None => inner q end.

Definition GATEWAY_TIMEOUT : response := Response 504 ∅.

Definition RequestTimeoutMiddleware (timeout : timedelta) (inner : app) : app :=
  fun q =>
    let r := inner q in
    if negb (is_http q) || bool_decide (path q = "/metrics") || (finished_after r <=? timeout) then r
    else if started_after r <=? timeout then Run (Raise TimeoutError) (started_after r) timeout
    else Run (Ok GATEWAY_TIMEOUT) timeout timeout.

(** The stack as main.py builds it: what is added last is outermost.  The tenant middleware
    changes nothing of the response. *)
Definition stack (timeout : timedelta) (uuid4 : string) (refused : request -> option response) (routes : app) : app :=
  RequestTimeoutMiddleware timeout (CorrelationIdMiddleware uuid4 (TrustedHostMiddleware refused (SecurityHeadersMiddleware routes))).

End Middleware.

(** ** Routers *)

Module Routers.
Import Config.

Definition _ROUTER_MODULES : list string :=
  ["auth"; "agent"; "observations"; "analytics"; "background_processing"; "notifications"; "vector_search";
   "health_ingestion_jobs"; "source_registry"; "contract_drift"; "insights"; "incidents"; "subscriptions"; "reporting";
   "scorecards"; "etl"; "abuse_detection"].

Definition _ADMIN_PROTECTED_ROUTERS : list string := ["background_processing"; "health_ingestion_jobs"; "notifications"; "etl"].

Inductive dependency := enforce_v1_token_bucket | admin_guard.

#[global] Instance dependency_eq_dec : EqDecision dependency.
Proof. solve_decision. Defined.

Definition dependencies_of (name : string) : list dependency :=
  (if decide (name = "auth") then [] else [enforce_v1_token_bucket]) ++
  (if decide (name ∈ _ADMIN_PROTECTED_ROUTERS) then [admin_guard] else []).

(** [importable] are the modules whose own imports are there. *)
Definition api_router (s : Settings) (importable : string -> bool) : list (string * list dependency) :=
  map (fun name => (name, dependencies_of name)) (List.filter importable _ROUTER_MODULES) ++
  (if websocket_enabled s then [("ws", [])] else []) ++
  (if auth_demo_routes_enabled s then [("demo", [])] else []).

End Routers.

(** ** The documented authentication *)

Module OpenApi.

Definition _PUBLIC_V1_AUTH_PATHS : list string :=
  ["/api/v1/auth/register"; "/api/v1/auth/token"; "/api/v1/auth/refresh"; "/api/v1/auth/logout"].

Definition _is_protected_v1_path (path : string) : bool :=
  String.prefix "/api/v1/" path && negb (bool_decide (path ∈ _PUBLIC_V1_AUTH_PATHS)).

Inductive security_scheme := BearerAuth | OAuth2Password.
Inductive documented := Unauthorized | Forbidden | Other (description : json).

Record operation := Operation { security : list security_scheme; responses : gmap string documented; rest : json }.

(** A value of a path item: an operation, or what is no dict. *)
Inductive item := Op (o : operation) | NoDict (j : json).

Definition guard_operation (o : operation) : operation :=
  Operation [BearerAuth; OAuth2Password] (<["403" := Forbidden]> (<["401" := Unauthorized]> (responses o))) (rest o).

Definition guard_item (x : string * item) : string * item :=
  match x.2 with Op o => (x.1, Op (guard_operation o)) | NoDict j => x end.

Definition guard_path (x : string * list (string * item)) : string * list (string * item) :=
  if _is_protected_v1_path x.1 then (x.1, map guard_item x.2) else x.

Abbreviation paths := (list (string * list (string * item))) (only parsing).

(** The schema that is kept on the application, once it is made. *)
Definition _openapi_with_auth_contract (get_openapi : paths) (kept : option paths) : paths * option paths :=
  match kept with
  | Some p => (p, kept)
  | None => let p := map guard_path get_openapi in (p, Some p)
  end.

End OpenApi.

(** ** The life cycle *)

Module Lifespan.
Import Config.

(** How a call that builds something ends: done, raised before there was anything to hold,
    or raised with it in place (a client whose first ping fails stays assigned). *)
Inductive attempt := Done | FailsEarly | FailsLate.

Definition holds (a : attempt) : bool := match a with FailsEarly => false | _ => true end.

(** What the process holds: connections, tasks and pools that a shutdown has to release. *)
Record process := Process {
  audit_emitter : bool;
  cache_client : bool;
  pubsub_client : bool;
  producer : bool;
  outbox_publisher : bool;
  scheduler : bool;
  background_workers : bool;
  agent_pool : bool;
  http_client : bool;
  engine : bool
}.

(** The process before it starts: the engine is made on import, the HTTP client on use. *)
Definition imported : process := Process false false false false false false false false true true.

(** What the calls of the start do. *)
Record startup_calls := StartupCalls {
  setup_sentry : bool;
  connect_cache : attempt;
  connect_pubsub : attempt;
  connect_producer : attempt;
  register_jobs : bool;
  start_background_workers : attempt;
  start_agent_checkpointer : attempt
}.

(** Each service on its own; no failure goes further. *)
Definition initialize_external_services (s : Settings) (c : startup_calls) (p : process) : process :=
  Process (audit_emitter p)
    (if cache_enabled s then holds (connect_cache c) else cache_client p)
    (if cache_enabled s then holds (connect_pubsub c) else pubsub_client p)
    (if broker_enabled s then holds (connect_producer c) else producer p)
    (outbox_publisher p) (scheduler p) (background_workers p) (agent_pool p) (http_client p) (engine p).

Definition set_emitter (b : bool) (p : process) : process :=
  Process b (cache_client p) (pubsub_client p) (producer p) (outbox_publisher p) (scheduler p) (background_workers p)
    (agent_pool p) (http_client p) (engine p).

Definition set_publisher (b : bool) (p : process) : process :=
  Process (audit_emitter p) (cache_client p) (pubsub_client p) (producer p) b (scheduler p) (background_workers p)
    (agent_pool p) (http_client p) (engine p).

Definition set_scheduler (b : bool) (p : process) : process :=
  Process (audit_emitter p) (cache_client p) (pubsub_client p) (producer p) (outbox_publisher p) b (background_workers p)
    (agent_pool p) (http_client p) (engine p).

Definition set_workers (b : bool) (p : process) : process :=
  Process (audit_emitter p) (cache_client p) (pubsub_client p) (producer p) (outbox_publisher p) (scheduler p) b
    (agent_pool p) (http_client p) (engine p).

Definition set_agent (b : bool) (p : process) : process :=
  Process (audit_emitter p) (cache_client p) (pubsub_client p) (producer p) (outbox_publisher p) (scheduler p)
    (background_workers p) b (http_client p) (engine p).

(** Up to the yield: whether the application starts, and the process then.  Registering the
    probe jobs and starting the scheduler raise no further and hold nothing more. *)
Definition startup (s : Settings) (jwt_secret_variable : option string) (publisher_enabled : bool) (c : startup_calls)
    (p : process) : bool * process :=
  if negb (setup_sentry c) then (false, p)
  else if negb (is_ok (_validate_production_security_settings jwt_secret_variable s)) then (false, p)
  else
    let p := initialize_external_services s c (set_emitter true p) in
    let p := if publisher_enabled then set_publisher true p else p in
    let p := set_scheduler true p in
    if negb (register_jobs c) then (false, p)
    else
      let p := if background_workers_enabled s then set_workers (holds (start_background_workers c)) p else p in
      let p := if anthropic_enabled s && opt_str_truthy (anthropic_api_key s) then set_agent (holds (start_agent_checkpointer c)) p else p in
      (true, p).

(** What the calls of the shutdown do: a stop that raises leaves its part as it is. *)
Record shutdown_calls := ShutdownCalls {
  stop_scheduler : bool;
  publisher_raises : bool;  (** other than with [CancelledError] *)
  stop_background_workers : bool;
  stop_agent_checkpointer : bool;
  disconnect_producer : bool;
  disconnect_cache : bool;
  disconnect_pubsub : bool;
  close_http_client : bool;
  dispose_engine : bool
}.

Definition cleanup_external_services (c : shutdown_calls) (p : process) : process :=
  Process (audit_emitter p) (cache_client p && negb (disconnect_cache c)) (pubsub_client p && negb (disconnect_pubsub c))
    (producer p && negb (disconnect_producer c)) (outbox_publisher p) (scheduler p) (background_workers p) (agent_pool p)
    (http_client p) (engine p).

Definition close_rest (c : shutdown_calls) (p : process) : bool * process :=
  let close b b' := Process (audit_emitter p) (cache_client p) (pubsub_client p) (producer p) (outbox_publisher p) (scheduler p)
    (background_workers p) (agent_pool p) b b' in
  if negb (close_http_client c) then (false, p)
  else if negb (dispose_engine c) then (false, close false (engine p))
  else (true, close false false).

(** After the yield: whether it runs to its end, and the process then. *)
Definition shutdown (c : shutdown_calls) (p : process) : bool * process :=
  let p := set_scheduler (scheduler p && negb (stop_scheduler c)) p in
  if outbox_publisher p && publisher_raises c then (false, set_publisher false p)
  else
    let p := set_publisher false p in
    let p := set_workers (background_workers p && negb (stop_background_workers c)) p in
    let p := set_agent (agent_pool p && negb (stop_agent_checkpointer c)) p in
    let p := set_emitter false p in
    close_rest c (cleanup_external_services c p).

(** The parts in the order in which they are acquired and released. *)
Inductive part := Cache | PubSub | Producer | Publisher | Scheduler | Workers | Agent.

Definition acquired : list part := [Cache; PubSub; Producer; Publisher; Scheduler; Workers; Agent].
Definition released : list part := [Scheduler; Publisher; Workers; Agent; Producer; Cache; PubSub].

End Lifespan.

(** ** Theorems *)

Module ApplicationTheorems.
Import Config Versions Readyz Middleware Routers OpenApi Lifespan.

(** *** Settings *)

Lemma prefix_append p s : String.prefix p (p +:+ s) = true.
Proof.
  induction p as [|c p IH]; [by destruct s |]. change (String c p +:+ s) with (String c (p +:+ s)). cbn [String.prefix].
  by destruct (ascii_dec c c).
Qed.

(** What the settings of a production process must be: they load exactly when every
    field is in its range and, in production, the JWT secret is there and no placeholder, the
    database URL contains neither of the local hosts nor the word postgres, and the
    superadmin's password is no placeholder.  As the URL of every PostgreSQL database begins
    with that word, no production settings with one load. *)
Theorem production_refuses_postgres s :
  (is_ok (load s) = true <->
     fields_valid s = true /\
     (is_production s = true ->
        jwt_secret s <> "" /\ jwt_secret s ∉ PLACEHOLDERS /\
        (forall p, p ∈ LOCAL_DATABASES -> contains p (database_url s) = false) /\
        forall p, superadmin_password s = Some p -> p ∉ PLACEHOLDERS)) /\
  forall rest, database_url s = "postgresql" +:+ rest -> is_production s = true -> is_ok (load s) = false.
Proof.
  assert (is_ok (load s) = true <-> fields_valid s = true /\
     (is_production s = true ->
        jwt_secret s <> "" /\ jwt_secret s ∉ PLACEHOLDERS /\
        (forall p, p ∈ LOCAL_DATABASES -> contains p (database_url s) = false) /\
        forall p, superadmin_password s = Some p -> p ∉ PLACEHOLDERS)) as Hx.
  { unfold load, _check_default_secret. destruct (fields_valid s); [|split; [done | by intros []]].
    destruct (is_production s); [|by split].
    assert (str_truthy (jwt_secret s) = true <-> jwt_secret s <> "") as Hj by (by destruct (jwt_secret s)).
    assert (str_truthy (database_url s) && existsb (fun p => contains p (database_url s)) LOCAL_DATABASES = false <->
      forall p, p ∈ LOCAL_DATABASES -> contains p (database_url s) = false) as Hd.
    { unfold LOCAL_DATABASES. destruct (database_url s) as [|c u]; [split; [intros _ p Hp | done]; set_solver |].
      cbn [str_truthy andb existsb]. rewrite !orb_false_iff. split; [intros (? & ? & ? & _) p Hp; set_solver |].
      intros H. split_and!; try done; apply H; set_solver. }
    assert (match superadmin_password s with Some p => str_truthy p && bool_decide (p ∈ PLACEHOLDERS) | None => false end = false <->
      forall p, superadmin_password s = Some p -> p ∉ PLACEHOLDERS) as Hp.
    { destruct (superadmin_password s) as [p|]; [|by split]. split.
      - intros H q [= <-] Hq. rewrite bool_decide_eq_true_2, andb_true_r in H by done. destruct p; [unfold PLACEHOLDERS in Hq; set_solver | done].
      - intros H. rewrite bool_decide_eq_false_2, andb_false_r by (by apply H). done. }
    destruct (str_truthy (jwt_secret s)); cbn [negb orb]; [|split; [done | intros [_ H]; by destruct (proj2 Hj (proj1 (H eq_refl)))]].
    destruct (bool_decide_reflect (jwt_secret s ∈ PLACEHOLDERS)) as [Hw|Hw]; [split; [done | intros [_ H]; naive_solver] |].
    destruct (_ && existsb _ _); [split; [done | intros [_ H]; destruct (H eq_refl) as (_ & _ & Hl & _); by apply Hd in Hl] |].
    destruct (match superadmin_password s with Some _ => _ | None => _ end);
      [split; [done | intros [_ H]; destruct (H eq_refl) as (_ & _ & _ & Hs); by apply Hp in Hs] |].
    split; [|done]. intros _. split; [done |]. intros _. split; [by apply Hj |]. split; [done |]. split; [by apply Hd | by apply Hp]. }
  split; [exact Hx |]. intros rest Hu Hp. apply not_true_iff_false. intros H. apply Hx in H as [_ H].
  destruct (H Hp) as (_ & _ & Hl & _). specialize (Hl "postgres" ltac:(set_solver)). rewrite Hu in Hl.
  rewrite (contains_prefix "postgres") in Hl; [done |]. change ("postgresql" +:+ rest) with ("postgres" +:+ ("ql" +:+ rest)). apply prefix_append.
Qed.

(** *** Probes *)

(** What the readiness probe answers: an error of the server exactly when the service's
    own version cannot be told; else 503 exactly when the database fails or the ping of the
    cache does, and 200 otherwise, a cache that is enabled and was never connected included;
    the version of the contracts never matters. *)
Theorem readyz_exact s db client svc contracts :
  let a := readyz s db client svc contracts in
  (status_of a = 500 <-> is_ok svc = false) /\
  (status_of a = 503 <-> is_ok svc = true /\
     (is_ok db = false \/ cache_enabled s = true /\ exists e, client = Some (Raise e))) /\
  (status_of a = 200 <-> is_ok svc = true /\ is_ok db = true /\
     (cache_enabled s = true -> client = None \/ exists u, client = Some (Ok u))) /\
  (cache_enabled s = true -> client = None -> is_ok svc = true -> is_ok db = true ->
     exists r, a = Ready r /\ cache r = cache_unreachable).
Proof.
  cbv zeta. unfold readyz, check_cache.
  destruct svc as [v|e], db as [u|e'], (cache_enabled s), client as [[w|x]|]; cbn [is_ok negb orb];
    repeat split; cbn; intros; repeat match goal with H : _ /\ _ |- _ => destruct H end; try discriminate; try done;
    try (by left); try (by right; eexists); try (right; split; [done | by eexists]);
    try (by eexists); try (intros; by left); try (intros; right; by eexists); try (by eexists; split);
    try match goal with H : _ \/ _ |- _ => destruct H as [?|[? [? ?]]]; discriminate end;
    try match goal with H : ?x = ?x -> _ |- _ => destruct (H eq_refl) as [?|[? ?]]; discriminate end.
Qed.

(** *** Middleware *)

Lemma set_baseline r : forall k v, (k, v) ∈ BASELINE -> response_headers (foldl (fun r x => set_header x.1 x.2 r) r BASELINE) !! k = Some v.
Proof.
  intros k v H. unfold BASELINE in *. cbn [foldl fst snd]. unfold set_header. cbn [response_headers].
  repeat (apply elem_of_cons in H as [[= -> ->]|H]; [by rewrite ?lookup_insert_ne, lookup_insert_eq by done |]). by apply not_elem_of_nil in H.
Qed.

Lemma header_set k v r : response_headers (set_header k v r) = <[k := v]> (response_headers r).
Proof. done. Qed.

Lemma secured_headers q r k v :
  (k, v) ∈ BASELINE \/ scheme q = "https" /\ (k, v) = HSTS -> response_headers (secured q r) !! k = Some v.
Proof.
  unfold secured. cbv zeta. set (r' := foldl _ r BASELINE). intros [H|[-> [= -> ->]]].
  - pose proof (set_baseline r k v H) as E. fold r' in E. destruct (decide (scheme q = "https")); [|done].
    unfold set_header. cbn [response_headers]. rewrite lookup_insert_ne; [done |].
    intros <-. unfold BASELINE in H. set_solver.
  - rewrite decide_True by done. unfold set_header. cbn [response_headers]. apply lookup_insert_eq.
Qed.

(** Which responses carry which headers.  A response of the routes that ends in time, or
    that the deadline does not apply to, carries the baseline headers, HSTS exactly on https
    among what the middleware adds, and the request's correlation id; the refusal of a host
    carries the correlation id and no header of the baseline; and the 504 of the deadline
    carries neither. *)
Theorem headers_by_layer timeout uuid4 refused routes q :
  0 <= timeout ->
  let whole := stack timeout uuid4 refused routes q in
  let exempt := negb (is_http q) || bool_decide (path q = "/metrics") in
  (refused q = None -> exempt = true \/ finished_after (routes q) <= timeout -> forall r, outcome (routes q) = Ok r ->
     exists r', outcome whole = Ok r' /\ status_code r' = status_code r /\
       (forall k v, (k, v) ∈ BASELINE -> response_headers r' !! k = Some v) /\
       (scheme q = "https" -> response_headers r' !! HSTS.1 = Some HSTS.2) /\
       response_headers r' !! "x-correlation-id" = Some (cid_of uuid4 q)) /\
  (forall r, refused q = Some r -> exists r', outcome whole = Ok r' /\ status_code r' = status_code r /\
     response_headers r' = <["x-correlation-id" := cid_of uuid4 q]> (response_headers r)) /\
  (refused q = None -> exempt = false -> timeout < finished_after (routes q) ->
     outcome whole = if started_after (routes q) <=? timeout then Raise TimeoutError else Ok (Response 504 ∅)).
Proof.
  intros Ht. cbv zeta. unfold stack, RequestTimeoutMiddleware, CorrelationIdMiddleware, TrustedHostMiddleware, SecurityHeadersMiddleware, on_response.
  split; [|split].
  - intros Hn Hf r Hr. rewrite Hn. cbn [finished_after started_after outcome].
    replace (negb (is_http q) || bool_decide (path q = "/metrics") || (finished_after (routes q) <=? timeout)) with true
      by (destruct Hf as [->|Hf]; [done | symmetry; rewrite (proj2 (Z.leb_le _ _) Hf); apply orb_true_r]).
    cbn [outcome]. rewrite Hr. eexists. split; [done |].
    split; [unfold secured; cbv zeta; by destruct (decide _) |]. rewrite header_set. split; [|split].
    + intros k v Hk. rewrite lookup_insert_ne by (intros <-; unfold BASELINE in Hk; set_solver). apply secured_headers. by left.
    + intros Hs. rewrite lookup_insert_ne by done. apply secured_headers. right. by destruct HSTS.
    + apply lookup_insert_eq.
  - intros r Hr. rewrite Hr. cbn [finished_after started_after outcome]. rewrite (proj2 (Z.leb_le 0 timeout) Ht), orb_true_r.
    cbn [outcome]. by eexists.
  - intros Hn He Hf. rewrite Hn. cbn [finished_after started_after outcome]. rewrite He, (proj2 (Z.leb_gt _ _) Hf). cbn [orb].
    by destruct (started_after (routes q) <=? timeout).
Qed.

(** *** Routers *)

(** The guards of the routers: each of them but that of authentication is under the token
    bucket, which verifies the caller's token, the four administrative ones also under the
    guard of the administrator; only the WebSocket and the demonstration routes, where the
    settings enable them, are mounted without a guard of the application's. *)
Theorem routers_guarded s importable name deps :
  (name, deps) ∈ api_router s importable ->
  (name = "auth" /\ deps = []) \/
  (name = "ws" /\ websocket_enabled s = true /\ deps = []) \/ (name = "demo" /\ auth_demo_routes_enabled s = true /\ deps = []) \/
  (name ∈ _ROUTER_MODULES /\ enforce_v1_token_bucket ∈ deps /\ (admin_guard ∈ deps <-> name ∈ _ADMIN_PROTECTED_ROUTERS)).
Proof.
  unfold api_router. rewrite !elem_of_app. intros [H|[H|H]].
  - apply list_elem_of_fmap in H as (n & [= -> ->] & Hn). apply list_elem_of_In, List.filter_In in Hn as [Hn _]. apply list_elem_of_In in Hn.
    unfold dependencies_of. destruct (decide (n = "auth")) as [->|]; [left; split; [done |]; by rewrite decide_False by (unfold _ADMIN_PROTECTED_ROUTERS; set_solver) |].
    right. right. right. split; [done |]. split; [set_solver |]. destruct (decide (n ∈ _ADMIN_PROTECTED_ROUTERS)); set_solver.
  - destruct (websocket_enabled s); [|by apply not_elem_of_nil in H]. apply list_elem_of_singleton in H as [= -> ->]. right. by left.
  - destruct (auth_demo_routes_enabled s); [|by apply not_elem_of_nil in H]. apply list_elem_of_singleton in H as [= -> ->]. right. right. by left.
Qed.

(** *** The documented authentication *)

(** The schema documents the boundary as it is: every operation under a protected path
    asks for a token and lists the answers 401 and 403, the other answers being kept; every
    other path stays as it is; and asking again gives the schema that was kept. *)
Theorem schema_documents_boundary ps ps' :
  let '(p, kept) := _openapi_with_auth_contract ps None in
  fst (_openapi_with_auth_contract ps' kept) = p /\ length p = length ps /\
  forall i path items, ps !! i = Some (path, items) ->
    exists items', p !! i = Some (path, items') /\
      (_is_protected_v1_path path = false -> items' = items) /\
      (_is_protected_v1_path path = true -> forall j m o, items !! j = Some (m, Op o) ->
         exists o', items' !! j = Some (m, Op o') /\ security o' = [BearerAuth; OAuth2Password] /\
           responses o' !! "401" = Some Unauthorized /\ responses o' !! "403" = Some Forbidden /\
           forall code, code <> "401" -> code <> "403" -> responses o' !! code = responses o !! code).
Proof.
  cbn [_openapi_with_auth_contract]. split; [done |]. split; [apply length_map |].
  intros i path items Hi. exists (if _is_protected_v1_path path then map guard_item items else items). rewrite list_lookup_fmap, Hi. cbn [fmap option_fmap option_map]. unfold guard_path. cbn [fst snd].
  destruct (_is_protected_v1_path path); (split; [done |]); (split; [done |]); [|done].
  intros _ j m o Hj. eexists. rewrite list_lookup_fmap, Hj. cbn [fmap option_fmap option_map guard_item fst snd]. split; [done |].
  split; [done |]. cbn [guard_operation responses]. split; [by rewrite lookup_insert_ne, lookup_insert_eq by done |].
  split; [apply lookup_insert_eq |]. intros code H1 H3. by rewrite !lookup_insert_ne by congruence.
Qed.

(** *** The life cycle *)

(** The start fails open and the shutdown releases what is held.  The application starts
    exactly when error tracking, the security check and the registration of the jobs succeed,
    whatever cache, broker, workers and agent do.  A shutdown that runs to its end leaves
    nothing but the parts whose own stop failed; it stops short of the rest only where the
    publisher task ends with an error of its own or closing the HTTP client or the engine
    raises. *)
Theorem start_and_stop s v b c d p :
  (fst (startup s v b c p) = true <->
     setup_sentry c = true /\ is_ok (_validate_production_security_settings v s) = true /\ register_jobs c = true) /\
  (fst (shutdown d p) = true <->
     outbox_publisher p && publisher_raises d = false /\ close_http_client d = true /\ dispose_engine d = true) /\
  (fst (shutdown d p) = true ->
     snd (shutdown d p) = Process false (cache_client p && negb (disconnect_cache d)) (pubsub_client p && negb (disconnect_pubsub d))
       (producer p && negb (disconnect_producer d)) false (scheduler p && negb (stop_scheduler d))
       (background_workers p && negb (stop_background_workers d)) (agent_pool p && negb (stop_agent_checkpointer d)) false false).
Proof.
  split; [|split].
  - unfold startup. destruct (setup_sentry c); cbn [negb]; [|by split; [| intros []]].
    destruct (is_ok _); cbn [negb]; [|by split; [| intros (? & ? & ?)]]. cbv zeta. destruct (register_jobs c); cbn [negb fst]; [done |].
    by split; [| intros (? & ? & ?)].
  - unfold shutdown, close_rest. cbv zeta. cbn [outbox_publisher set_scheduler].
    destruct (outbox_publisher p && publisher_raises d); [by split; [| intros []] |].
    destruct (close_http_client d), (dispose_engine d); cbn [negb fst]; split; try done; by intros (? & ? & ?).
  - unfold shutdown, close_rest. cbv zeta. cbn [outbox_publisher set_scheduler].
    destruct (outbox_publisher p && publisher_raises d); [done |].
    destruct (close_http_client d), (dispose_engine d); cbn [negb fst snd]; try done.
Qed.

End ApplicationTheorems.

(** ** Witnesses *)

Module ApplicationWitnesses.
Import Config Versions Readyz Middleware Routers OpenApi Lifespan ApplicationTheorems.

Definition deployed : Settings :=
  SettingsOf "Production" "a-long-random-secret-of-48-bytes" "postgresql+asyncpg://db.internal:5432/obs" None 30 30 1000 (1 # 10) 0
    2 100 1000 5 10 true false true true false false None.

Lemma production_refuses_postgres_witness : load deployed = Raise LocalDatabase /\ is_ok (load deployed) = false.
Proof.
  split; [vm_compute; reflexivity |].
  exact (proj2 (production_refuses_postgres deployed) "+asyncpg://db.internal:5432/obs" eq_refl eq_refl).
Defined.

(** The same settings load outside production. *)
Example staging_loads : is_ok (load (SettingsOf "staging" "" "postgresql+asyncpg://localhost/obs" None 30 30 1000 (1 # 10) 0
    2 100 1000 5 10 true false true true false false None)) = true.
Proof. vm_compute. reflexivity. Qed.

Definition get_root : request := Request "https" "/api/v1/observations" true {["x-correlation-id" := "abc"]}.

Lemma headers_by_layer_witness :
  (exists r', outcome (stack (seconds 30) "uuid" (fun _ => None) (fun _ => Run (Ok (Response 200 ∅)) 1 2) get_root) = Ok r' /\
     response_headers r' !! "x-frame-options" = Some "DENY" /\ response_headers r' !! "x-correlation-id" = Some "abc") /\
  outcome (stack (seconds 30) "uuid" (fun _ => None) (fun _ => Run (Ok (Response 200 ∅)) (seconds 31) (seconds 32)) get_root) =
    Ok (Response 504 ∅).
Proof.
  split.
  - destruct (headers_by_layer (seconds 30) "uuid" (fun _ => None) (fun _ => Run (Ok (Response 200 ∅)) 1 2) get_root ltac:(done)) as (H & _).
    destruct (H eq_refl (or_intror (Zle_bool_imp_le 2 (seconds 30) eq_refl)) _ eq_refl) as (r' & E & _ & Hb & _ & Hc). exists r'.
    split; [exact E |]. split; [apply Hb; unfold BASELINE; set_solver | exact Hc].
  - destruct (headers_by_layer (seconds 30) "uuid" (fun _ => None) (fun _ => Run (Ok (Response 200 ∅)) (seconds 31) (seconds 32)) get_root ltac:(done)) as (_ & _ & H).
    exact (H eq_refl eq_refl ltac:(vm_compute; reflexivity)).
Defined.

Lemma routers_guarded_witness : enforce_v1_token_bucket ∈ dependencies_of "etl" /\ admin_guard ∈ dependencies_of "etl".
Proof.
  assert (("etl", dependencies_of "etl") ∈ api_router deployed (fun _ => true)) as H by (vm_compute; set_solver).
  destruct (routers_guarded deployed (fun _ => true) "etl" (dependencies_of "etl") H)
    as [[H1 _]|[[H1 _]|[[H1 _]|(_ & Ht & Ha)]]]; try discriminate H1.
  split; [exact Ht |]. apply Ha. unfold _ADMIN_PROTECTED_ROUTERS. set_solver.
Defined.

(** A version variable of blanks gives an empty version. *)
Example blank_version : get_service_version (Some "  ") (Some "1.2.3") = Ok "".
Proof. vm_compute. reflexivity. Qed.

(** A start that fails at the jobs leaves the services connected and the publisher running. *)
Example failed_start_keeps_connections :
  let c := StartupCalls true Done FailsLate Done false Done Done in
  startup (SettingsOf "staging" "" "" None 30 30 1000 0 0 2 100 1000 5 10 true false true true false false None) None true c imported =
    (false, Process true true true true true true false false true true).
Proof. vm_compute. reflexivity. Qed.

(** The parts are not released in the reverse order. *)
Example release_order : released <> rev acquired.
Proof. vm_compute. congruence. Qed.

End ApplicationWitnesses.
