(* ===== verification/TriageAgent.v ===== *)
(** * The incident-triage agent (agent/nodes.py, graph.py, runner.py, schemas.py,
    api/routes/agent.py)

    The nodes of the graph, the run up to the review and the resumption, and the row that
    records a run.

    LangGraph is an interface: an engine that keeps a checkpoint for every thread, with
    the laws of its documented execution, which [drive] states: the nodes in the order of
    the edges, each result merged into the state, a pause where a node interrupts, and
    resumption at the node that paused.  The language model, the vector search, the
    notification channels, Casbin's guard and the text of a JSON value are parameters.

    Nothing is locked while the graph runs, which waits for model calls: tasks and
    reviews are in flight next to each other.  [Runner.step] has the parts of each
    between two awaits as steps of their own; [run_agent_for_observation] and
    [resume_agent_run_endpoint] are the parts of one with nothing in between.  The
    process is not stopped while something is in flight. *)

From S2P Require Import Prelude Db SourceRegistry Observations.

Module Triage.
Import SourceRegistry Observations.

(** ** State *)

(** The state without [raw_data], which no node reads. *)
Record AgentState := StateOf {
  agent_run_id : Z;
  observation_id : Z;
  source : string;
  incident_summary : string;
  rule_based_severity : json;
  event_type : json;
  llm_severity : option string;
  llm_severity_reasoning : option string;
  llm_agrees_with_rule : option bool;
  retrieved_context : list string;
  root_cause_hypothesis : option string;
  recommended_action : option string;
  confidence_score : option Q;
  review_decision : option bool;
  reviewer_user_id : option Z
}.

Record SeverityClassification := Severity { severity : string; reasoning : string; agrees_with_rule_based : bool }.
Record DraftAnalysis := Draft { draft_cause : string; draft_action : string; draft_confidence : Q }.

(** What a structured model answers: [include_raw=True]. *)
Record structured (A : Type) := Structured { parsing_error : option string; parsed : option A }.
Arguments Structured {A}.
Arguments parsing_error {A}.
Arguments parsed {A}.

(** The system and the user message. *)
Record messages := Messages { system_message : string; user_message : string }.

(** A notification the agent dispatches. *)
Record notice := Notice { notice_run_id : Z; notice_observation_id : Z; notice_message : string; notice_confidence : option Q }.

(** What the services answer: [None] of the dispatch is a success. *)
Record services := Services {
  classify_model : messages -> result string (structured SeverityClassification);
  draft_model : messages -> result string (structured DraftAnalysis);
  search_documents : string -> result string (list string);
  index_document : Z -> result string unit;
  dispatch : notice -> result string unit
}.

Record decision := Decision { approve : bool; decided_by : option Z }.

Section Agent.
Context (text_of : json -> string) (number_text : Q -> string).

(** [f"{x}"] of an optional value. *)
Definition shown (o : option string) : string := or_else o "None".

Definition newline : string := String (ascii_of_nat 10) EmptyString.

(** ** Nodes *)

Definition _invoke_structured_model {A} (answer : result string (structured A)) : result string A :=
  bind_result answer (fun response =>
  match parsing_error response with
  | Some e => Raise e
  | None => match parsed response with Some a => Ok a | None => Raise "LLM structured output was empty." end
  end).

Definition classify_messages (st : AgentState) : messages :=
  Messages ("You are an SRE triaging an API contract-drift incident. " +:+
            "Assess its severity independently, then note whether you " +:+
            "agree with the rule-based classifier's severity.")
    ("Incident: " +:+ incident_summary st +:+ newline +:+ "Rule-based severity: " +:+ text_of (rule_based_severity st) +:+ newline +:+
     "Event type: " +:+ text_of (event_type st)).

Definition classify_severity (s : services) (st : AgentState) : result string AgentState :=
  bind_result (_invoke_structured_model (classify_model s (classify_messages st))) (fun r =>
  Ok (StateOf (agent_run_id st) (observation_id st) (source st) (incident_summary st) (rule_based_severity st) (event_type st)
        (Some (severity r)) (Some (reasoning r)) (Some (agrees_with_rule_based r)) (retrieved_context st)
        (root_cause_hypothesis st) (recommended_action st) (confidence_score st) (review_decision st) (reviewer_user_id st))).

(** The failures of search and indexing go no further; indexing changes nothing here. *)
Definition retrieve_similar_incidents (s : services) (st : AgentState) : AgentState :=
  let retrieved := match search_documents s (incident_summary st) with Ok l => l | Raise _ => [] end in
  StateOf (agent_run_id st) (observation_id st) (source st) (incident_summary st) (rule_based_severity st) (event_type st)
    (llm_severity st) (llm_severity_reasoning st) (llm_agrees_with_rule st) retrieved
    (root_cause_hypothesis st) (recommended_action st) (confidence_score st) (review_decision st) (reviewer_user_id st).

Definition context_text (st : AgentState) : string :=
  let t := String.concat (newline +:+ "---" +:+ newline) (retrieved_context st) in
  if str_truthy t then t else "No similar prior incidents found.".

Definition draft_messages (st : AgentState) : messages :=
  Messages ("You are a senior SRE writing an incident analysis for a " +:+
            "human reviewer. Use the LLM severity read and similar " +:+
            "prior incidents if relevant. Be concrete and actionable.")
    ("Incident: " +:+ incident_summary st +:+ newline +:+ "LLM severity: " +:+ shown (llm_severity st) +:+ " (" +:+
     shown (llm_severity_reasoning st) +:+ ")" +:+ newline +:+ "Similar prior incidents:" +:+ newline +:+ context_text st).

Definition draft_analysis (s : services) (st : AgentState) : result string AgentState :=
  bind_result (_invoke_structured_model (draft_model s (draft_messages st))) (fun r =>
  Ok (StateOf (agent_run_id st) (observation_id st) (source st) (incident_summary st) (rule_based_severity st) (event_type st)
        (llm_severity st) (llm_severity_reasoning st) (llm_agrees_with_rule st) (retrieved_context st)
        (Some (draft_cause r)) (Some (draft_action r)) (Some (draft_confidence r)) (review_decision st) (reviewer_user_id st))).

(** [interrupt] pauses where there is no decision and returns the decision where there is. *)
Definition human_review (d : option decision) (st : AgentState) : option AgentState :=
  match d with
  | None => None
  | Some d =>
      Some (StateOf (agent_run_id st) (observation_id st) (source st) (incident_summary st) (rule_based_severity st) (event_type st)
        (llm_severity st) (llm_severity_reasoning st) (llm_agrees_with_rule st) (retrieved_context st)
        (root_cause_hypothesis st) (recommended_action st) (confidence_score st) (Some (approve d)) (decided_by d))
  end.

Definition approval_notice (st : AgentState) : notice :=
  Notice (agent_run_id st) (observation_id st)
    ("Incident on " +:+ source st +:+ ": " +:+ shown (root_cause_hypothesis st) +:+ newline +:+
     "Recommended action: " +:+ shown (recommended_action st)) (confidence_score st).

Definition notify (s : services) (st : AgentState) : result string (list notice) :=
  match review_decision st with
  | Some true => bind_result (dispatch s (approval_notice st)) (fun _ => Ok [approval_notice st])
  | _ => Ok []
  end.

(** ** The graph *)

Inductive node := n_classify_severity | n_retrieve_similar_incidents | n_draft_analysis | n_human_review | n_notify.

Definition build_graph : list node :=
  [n_classify_severity; n_retrieve_similar_incidents; n_draft_analysis; n_human_review; n_notify].

Inductive node_outcome := Continues (st : AgentState) (ns : list notice) | Pauses | Fails (e : string).

Definition of_result (r : result string AgentState) : node_outcome :=
  match r with Ok st => Continues st [] | Raise e => Fails e end.

Definition run_node (s : services) (d : option decision) (n : node) (st : AgentState) : node_outcome :=
  match n with
  | n_classify_severity => of_result (classify_severity s st)
  | n_retrieve_similar_incidents => Continues (retrieve_similar_incidents s st) []
  | n_draft_analysis => of_result (draft_analysis s st)
  | n_human_review => match human_review d st with Some st => Continues st [] | None => Pauses end
  | n_notify => match notify s st with Ok ns => Continues st ns | Raise e => Fails e end
  end.

(** How an execution ends: the graph's state, with whether it is paused, or an exception;
    what was dispatched on the way; and the checkpoint, the nodes that remain. *)
Record progress := Progress {
  ended : result string (AgentState * bool);
  sent : list notice;
  remaining : list node;
  reached : AgentState
}.

Fixpoint drive (s : services) (d : option decision) (path : list node) (st : AgentState) : progress :=
  match path with
  | [] => Progress (Ok (st, false)) [] [] st
  | n :: rest =>
      match run_node s d n st with
      | Continues st' ns =>
          let p := drive s d rest st' in
          Progress (ended p) (ns ++ sent p) (remaining p) (reached p)
      | Pauses => Progress (Ok (st, true)) [] path st
      | Fails e => Progress (Raise e) [] path st
      end
  end.

End Agent.

Inductive input := Start (st : AgentState) | Resume (d : decision).

(** LangGraph with its checkpointer. *)
Class GraphOps (E : Type) := {
  ainvoke : services -> Z -> input -> E -> result string (AgentState * bool) * list notice * E;
  checkpoint : Z -> E -> option (list node * AgentState);
  adopt : Z -> E -> E -> E
}.

(** A run of a thread is the drive of its nodes, from the start or from the checkpoint that
    it paused at; its checkpoint is where the drive ended, that of other threads stays.
    What a run that began on another store leaves in the present one is the checkpoint of
    its thread. *)
Class GraphLaws (text_of : json -> string) (E : Type) `{GraphOps E} := {
  ainvoke_start s t st e :
    let p := drive text_of s None build_graph st in
    let '(r, ns, e') := ainvoke s t (Start st) e in
    r = ended p /\ ns = sent p /\ checkpoint t e' = Some (remaining p, reached p) /\
    forall t', t' <> t -> checkpoint t' e' = checkpoint t' e;
  ainvoke_resume s t d n path st e :
    checkpoint t e = Some (n :: path, st) ->
    let p := drive text_of s (Some d) (n :: path) st in
    let '(r, ns, e') := ainvoke s t (Resume d) e in
    r = ended p /\ ns = sent p /\ checkpoint t e' = Some (remaining p, reached p) /\
    forall t', t' <> t -> checkpoint t' e' = checkpoint t' e;
  adopt_checkpoint t t' e' e : checkpoint t' (adopt t e' e) = if t' =? t then checkpoint t e' else checkpoint t' e
}.

End Triage.

(** ** The runner *)

Module Runner.
Import SourceRegistry Observations Triage.

Inductive run_status := pending | running | awaiting_review | approved | rejected | failed.

#[global] Instance run_status_eq_dec : EqDecision run_status.
Proof. solve_decision. Defined.

Record AgentRun := Run {
  run_observation_id : Z;
  status : run_status;
  run_cause : option string;
  severity_assessment : option string;
  run_action : option string;
  run_confidence : option Q;
  run_reviewer : option Z;
  reviewed_at : option datetime
}.

Definition new_run (observation_id : Z) : AgentRun := Run observation_id pending None None None None None None.

Section Runner.
Context (text_of : json -> string) {E : Type} `{GraphOps E}.

Record world := World {
  records : Observations.world;
  agent_runs : table AgentRun;
  engine : E;
  notices : list notice
}.

Definition with_runs (w : world) (t : table AgentRun) : world := World (records w) t (engine w) (notices w).

(** [raw_data.get(key)], and with a default for a missing key. *)
Fixpoint field_of (key : string) (default : json) (d : list (string * json)) : json :=
  match d with
  | [] => default
  | (k, v) :: d => if decide (k = key) then v else field_of key default d
  end.

(** [observation.raw_data or {}], which must be a dict. *)
Definition raw_dict (j : json) : result string (list (string * json)) :=
  match j with
  | JObj d => Ok d
  | JNull | JBool false | JList [] => Ok []
  | JInt z => if z =? 0 then Ok [] else Raise "AttributeError"
  | JFloat q => if Qeq_bool q 0 then Ok [] else Raise "AttributeError"
  | JStr s => if str_truthy s then Raise "AttributeError" else Ok []
  | _ => Raise "AttributeError"
  end.

Definition _build_initial_state (i : Z) (w : world) : result string (option AgentState) :=
  match get i (agent_runs w) with
  | None => Ok None
  | Some run =>
      match get_observation (run_observation_id run) (records w) with
      | None => Ok None
      | Some o =>
          bind_result (raw_dict (raw_data o)) (fun d =>
          let source_name := resolve_source_name (obs_source_id o) (sources (records w)) in
          let summary := "source=" +:+ source_name +:+ ", event_type=" +:+ text_of (field_of "event_type" JNull d) +:+
            ", severity=" +:+ text_of (field_of "severity" JNull d) +:+ ", summary=" +:+ text_of (field_of "summary" JNull d) in
          Ok (Some (StateOf i (run_observation_id run) source_name summary (field_of "severity" (JStr "unknown") d)
            (field_of "event_type" (JStr "unknown") d) None None None [] None None None None None)))
      end
  end.

Definition set_run_status (s : run_status) (r : AgentRun) : AgentRun :=
  Run (run_observation_id r) s (run_cause r) (severity_assessment r) (run_action r) (run_confidence r) (run_reviewer r) (reviewed_at r).

Definition _set_status (i : Z) (s : run_status) (w : world) : world := with_runs w (update i (set_run_status s) (agent_runs w)).

(** The new value where there is one. *)
Definition kept {A} (new old : option A) : option A := match new with Some _ => new | None => old end.

Definition synced (now : datetime) (st : AgentState) (paused resumed : bool) (r : AgentRun) : AgentRun :=
  let r := Run (run_observation_id r) (status r) (kept (root_cause_hypothesis st) (run_cause r))
    (kept (llm_severity st) (severity_assessment r)) (kept (recommended_action st) (run_action r))
    (kept (confidence_score st) (run_confidence r)) (run_reviewer r) (reviewed_at r) in
  if paused then set_run_status awaiting_review r
  else if resumed then
    Run (run_observation_id r) (match review_decision st with Some true => approved | _ => rejected end) (run_cause r)
      (severity_assessment r) (run_action r) (run_confidence r) (reviewer_user_id st) (Some now)
  else r.

Definition fits (n : Z) (o : option string) : bool :=
  match o with Some s => Z.of_nat (String.length s) <=? n | None => true end.

Definition row_fits (r : AgentRun) : bool := fits 2048 (run_cause r) && fits 32 (severity_assessment r) && fits 2048 (run_action r).

(** A text that does not fit its column raises. *)
Definition _sync_agent_run (now : datetime) (i : Z) (result_state : AgentState * bool) (resumed : bool) (w : world)
    : result string (option AgentRun * world) :=
  match get i (agent_runs w) with
  | None => Ok (None, w)
  | Some r =>
      let f := synced now result_state.1 result_state.2 resumed in
      if row_fits (f r) then Ok (Some (f r), with_runs w (update i f (agent_runs w))) else Raise "DataError"
  end.

(** The graph's thread is the run's id. *)
Definition invoke (s : services) (i : Z) (x : input) (w : world) : result string (AgentState * bool) * world :=
  let '(r, ns, e) := ainvoke s i x (engine w) in (r, World (records w) (agent_runs w) e (notices w ++ ns)).

(** The task of a run up to the graph's invocation, with the state that it starts from.
    [enabled]: the graph was compiled at the start of the process. *)
Definition begin_run (enabled : bool) (i : Z) (w : world) : option AgentState * world :=
  if negb enabled then (None, w)
  else
    match _build_initial_state i w with
    | Raise _ => (None, _set_status i failed w)
    | Ok None => (None, w)
    | Ok (Some st) => (Some st, _set_status i running w)
    end.

(** The rest of the task, on the result of the invocation. *)
Definition end_run (now : datetime) (i : Z) (r : result string (AgentState * bool)) (w : world) : world :=
  match r with
  | Raise _ => _set_status i failed w
  | Ok res => match _sync_agent_run now i res false w with Ok (_, w) => w | Raise _ => _set_status i failed w end
  end.

Definition run_agent_for_observation (enabled : bool) (now : datetime) (s : services) (i : Z) (w : world) : world :=
  match begin_run enabled i w with
  | (None, w) => w
  | (Some st, w) => let '(r, w) := invoke s i (Start st) w in end_run now i r w
  end.

Inductive runner_error := RuntimeError | DataError.

Definition end_resume (now : datetime) (i : Z) (r : result string (AgentState * bool)) (w : world)
    : result runner_error (option AgentRun) * world :=
  match r with
  | Raise _ => (Ok None, _set_status i failed w)
  | Ok res => match _sync_agent_run now i res true w with Ok (r, w) => (Ok r, w) | Raise _ => (Raise DataError, w) end
  end.

Definition resume_agent_run (enabled : bool) (now : datetime) (s : services) (i : Z) (d : decision) (w : world)
    : result runner_error (option AgentRun) * world :=
  if negb enabled then (Raise RuntimeError, w)
  else let '(r, w) := invoke s i (Resume d) w in end_resume now i r w.

(** ** The endpoint *)

Inductive http_answer := Found (r : AgentRun) | NotFound | Conflict (s : run_status) | NotImplemented | BadGateway | ServerError.

Definition get_agent_run (i : Z) (w : world) : http_answer :=
  match get i (agent_runs w) with Some r => Found r | None => NotFound end.

(** The endpoint's check of the run, before it looks the reviewer up. *)
Definition check_review (i : Z) (w : world) : result http_answer unit :=
  match get i (agent_runs w) with
  | None => Raise NotFound
  | Some r => if decide (status r = awaiting_review) then Ok tt else Raise (Conflict (status r))
  end.

Definition answer_of (a : result runner_error (option AgentRun)) : http_answer :=
  match a with
  | Raise RuntimeError => NotImplemented
  | Raise DataError => ServerError
  | Ok None => BadGateway
  | Ok (Some r) => Found r
  end.

(** [reviewer] is the id of the user the caller's token names, where there is one. *)
Definition resume_agent_run_endpoint (enabled : bool) (now : datetime) (s : services) (reviewer : option Z) (approve : bool)
    (i : Z) (w : world) : http_answer * world :=
  match check_review i w with
  | Raise a => (a, w)
  | Ok _ => let '(a, w) := resume_agent_run enabled now s i (Decision approve reviewer) w in (answer_of a, w)
  end.

(** ** Steps: a drift asks for a run, the task of a pending run runs, a reviewer decides;
    the records change under it.

    What is in flight: a review that passed its check; an invocation of the graph, on the
    store as it was when it began, with what it will bring; and one that has notified and
    saved its checkpoint, with the result that is not yet on the row. *)
Inductive flight :=
| Checked (i : Z) (d : decision)
| Launched (i : Z) (d : option decision) (out : result string (AgentState * bool) * list notice * E)
| Landed (i : Z) (d : option decision) (r : result string (AgentState * bool)).

Definition flight_run (f : flight) : Z := match f with Checked i _ | Launched i _ _ | Landed i _ _ => i end.

(** Whether a review of a run is let in, next to what is in flight. *)
Context (lets_in : Z -> list flight -> Prop).

Inductive step : world * list flight -> world * list flight -> Prop :=
| step_request observation_id w fl :
    step (w, fl) (with_runs w (snd (insert (new_run observation_id) (agent_runs w))), fl)
| step_records records' w fl : step (w, fl) (World records' (agent_runs w) (engine w) (notices w), fl)
| step_skip enabled i r w w' fl :
    get i (agent_runs w) = Some r -> status r = pending -> begin_run enabled i w = (None, w') -> step (w, fl) (w', fl)
| step_begin enabled s i r st w w' fl :
    get i (agent_runs w) = Some r -> status r = pending -> begin_run enabled i w = (Some st, w') ->
    step (w, fl) (w', Launched i None (ainvoke s i (Start st) (engine w')) :: fl)
| step_check i d w fl :
    lets_in i fl -> check_review i w = Ok tt -> step (w, fl) (w, Checked i d :: fl)
| step_launch s i d w before after :
    step (w, before ++ Checked i d :: after)
         (w, before ++ Launched i (Some d) (ainvoke s i (Resume d) (engine w)) :: after)
| step_land i d r ns e w before after :
    step (w, before ++ Launched i d (r, ns, e) :: after)
         (World (records w) (agent_runs w) (adopt i e (engine w)) (notices w ++ ns), before ++ Landed i d r :: after)
| step_end_run now i r w before after :
    step (w, before ++ Landed i None r :: after) (end_run now i r w, before ++ after)
| step_end_review now i d r w before after :
    step (w, before ++ Landed i (Some d) r :: after) ((end_resume now i r w).2, before ++ after).

End Runner.
End Runner.

(** ** Theorems *)

Module TriageTheorems.
Import SourceRegistry Observations Triage Runner.

Section Lifecycle.
Context (text_of : json -> string) {E : Type} `{GraphLaws text_of E}.

Abbreviation world := (@world E) (only parsing).
Implicit Types (w : @Runner.world E) (fl before after : list (@flight E)).

(** *** Drives *)

(** The state with a decision taken. *)
Definition decided (d : decision) (st : AgentState) : AgentState := or_else (human_review (Some d) st) st.

(** From the start the graph fails without a notice, or pauses at the review with the
    analysis made. *)
Lemma start_drive s st :
  let p := drive text_of s None build_graph st in
  sent p = [] /\
  ((exists e, ended p = Raise e) \/
   exists st', ended p = Ok (st', true) /\ remaining p = [n_human_review; n_notify] /\ reached p = st' /\
     agent_run_id st' = agent_run_id st /\ review_decision st' = review_decision st /\
     exists a b c q, llm_severity st' = Some a /\ root_cause_hypothesis st' = Some b /\ recommended_action st' = Some c /\
       confidence_score st' = Some q).
Proof.
  cbv zeta. unfold build_graph. cbn [drive run_node]. unfold classify_severity.
  destruct (_invoke_structured_model (classify_model s _)) as [c|e]; cbn [bind_result of_result]; [|split; [done | left; by eexists]].
  cbn [ended sent]. unfold draft_analysis.
  destruct (_invoke_structured_model (draft_model s _)) as [a|e]; cbn [bind_result of_result]; [|split; [done | left; by eexists]].
  cbn [human_review ended sent remaining reached]. split; [done |]. right. eexists. split; [done |]. split; [done |]. split; [done |].
  cbn. split; [done |]. split; [done |]. by eexists _, _, _, _.
Qed.

Lemma resume_drive s d st :
  drive text_of s (Some d) [n_human_review; n_notify] st =
    if approve d then
      match dispatch s (approval_notice (decided d st)) with
      | Ok _ => Progress (Ok (decided d st, false)) [approval_notice (decided d st)] [] (decided d st)
      | Raise e => Progress (Raise e) [] [n_notify] (decided d st)
      end
    else Progress (Ok (decided d st, false)) [] [] (decided d st).
Proof.
  cbn [drive run_node human_review]. unfold notify, decided. cbn [human_review or_else review_decision].
  destruct (approve d); [|done]. by destruct (dispatch s _).
Qed.

(** *** The invariant *)

Definition notices_of (i : Z) (l : list notice) : nat := count (fun n => notice_run_id n =? i) l.

(** The row of run [i] shows the analysis of the state [st]. *)
Definition shows (i : Z) (r : AgentRun) (st : AgentState) : Prop :=
  agent_run_id st = i /\
  run_cause r = root_cause_hypothesis st /\ severity_assessment r = llm_severity st /\
  run_action r = recommended_action st /\ run_confidence r = confidence_score st /\
  run_cause r <> None /\ run_action r <> None /\ run_confidence r <> None /\ row_fits r = true.

(** A run that waits is checkpointed at the review with the analysis its row shows. *)
Definition waits (i : Z) (r : AgentRun) (e : E) : Prop :=
  exists st, checkpoint i e = Some ([n_human_review; n_notify], st) /\ shows i r st.

(** A run of which nothing is in flight. *)
Record run_ok (w : world) (i : Z) (r : AgentRun) : Prop := {
  run_pending : status r = pending -> r = new_run (run_observation_id r);
  run_waits : status r = awaiting_review -> waits i r (engine w);
  run_decided : status r = approved \/ status r = rejected -> reviewed_at r <> None /\ run_cause r <> None;
  run_notified : notices_of i (notices w) = if decide (status r = approved) then 1%nat else 0%nat
}.

Definition underway (i : Z) (r : AgentRun) : Prop := r = set_run_status running (new_run (run_observation_id r)).

(** What is in flight of run [i], with its row. *)
Definition flight_ok (w : world) (i : Z) (r : AgentRun) (f : @flight E) : Prop :=
  match f with
  | Checked _ _ => status r = awaiting_review /\ waits i r (engine w) /\ notices_of i (notices w) = 0%nat
  | Launched _ None (a, ns, e) =>
      underway i r /\ notices_of i (notices w) = 0%nat /\
      exists s st, let p := drive text_of s None build_graph st in
        agent_run_id st = i /\ a = ended p /\ ns = sent p /\ checkpoint i e = Some (remaining p, reached p)
  | Launched _ (Some d) (a, ns, e) =>
      status r = awaiting_review /\ notices_of i (notices w) = 0%nat /\
      exists s st, let p := drive text_of s (Some d) [n_human_review; n_notify] st in
        shows i r st /\ a = ended p /\ ns = sent p
  | Landed _ None a =>
      underway i r /\ notices_of i (notices w) = 0%nat /\
      exists s st, let p := drive text_of s None build_graph st in
        agent_run_id st = i /\ a = ended p /\ checkpoint i (engine w) = Some (remaining p, reached p)
  | Landed _ (Some d) a =>
      status r = awaiting_review /\
      exists s st, let p := drive text_of s (Some d) [n_human_review; n_notify] st in
        shows i r st /\ a = ended p /\ notices_of i (notices w) = length (sent p)
  end.

Definition flying (i : Z) (fl : list (@flight E)) : Prop := i ∈ map flight_run fl.

(** A review is let in when nothing of its run is in flight. *)
Definition alone (i : Z) (fl : list (@flight E)) : Prop := ~ flying i fl.

Record consistent (c : world * list (@flight E)) : Prop := {
  runs_wf : wf_table (agent_runs c.1);
  flights_distinct : NoDup (map flight_run c.2);
  flights_ok : forall f, f ∈ c.2 -> exists r, get (flight_run f) (agent_runs c.1) = Some r /\ flight_ok c.1 (flight_run f) r f;
  runs_ok : every (fun i r => ~ flying i c.2 -> run_ok c.1 i r) (agent_runs c.1);
  notices_known : forall n, n ∈ notices c.1 -> notice_run_id n < next_id (agent_runs c.1)
}.

Definition initial (c : world * list (@flight E)) : Prop :=
  agent_runs c.1 = empty_table AgentRun /\ notices c.1 = [] /\ c.2 = [].

Lemma initial_consistent c : initial c -> consistent c.
Proof.
  intros (Hr & Hn & Hf). split; rewrite ?Hr, ?Hn, ?Hf; [apply wf_empty | constructor | by intros f ?%not_elem_of_nil | by intros i r Hg |].
  intros n Hin. by apply not_elem_of_nil in Hin.
Qed.

Lemma notices_of_app i l l' : notices_of i (l ++ l') = (notices_of i l + notices_of i l')%nat.
Proof. apply count_app. Qed.

Lemma notices_of_own i l : (forall n, n ∈ l -> notice_run_id n = i) -> notices_of i l = length l.
Proof.
  induction l as [|n l IH]; intros Hl; [done |]. unfold notices_of, count in *. cbn [List.filter].
  rewrite (Hl n ltac:(left)), Z.eqb_refl. cbn [length]. f_equal. apply IH. intros m Hm. apply Hl. by right.
Qed.

Lemma notices_of_others i j l : (forall n, n ∈ l -> notice_run_id n = i) -> j <> i -> notices_of j l = 0%nat.
Proof.
  intros Hl Hne. induction l as [|n l IH]; [done |]. unfold notices_of, count in *. cbn [List.filter].
  rewrite (Hl n ltac:(left)), (proj2 (Z.eqb_neq _ _)) by congruence. apply IH. intros m Hm. apply Hl. by right.
Qed.

Lemma notices_of_unknown i l : (forall n, n ∈ l -> notice_run_id n < i) -> notices_of i l = 0%nat.
Proof.
  induction l as [|n l IH]; intros Hl; [done |]. unfold notices_of, count in *. cbn [List.filter].
  rewrite (proj2 (Z.eqb_neq _ _)) by (specialize (Hl n ltac:(set_solver)); lia). apply IH. intros m Hm. apply Hl. set_solver.
Qed.

(** What a change leaves as it was of run [j]. *)
Definition untouched (j : Z) (w w' : world) : Prop :=
  get j (agent_runs w') = get j (agent_runs w) /\ checkpoint j (engine w') = checkpoint j (engine w) /\
  notices_of j (notices w') = notices_of j (notices w).

Lemma run_ok_untouched j r w w' : untouched j w w' -> run_ok w j r -> run_ok w' j r.
Proof.
  intros (_ & Hc & Hn) [H1 H2 H3 H4]. split; [done | | done | by rewrite Hn]. intros Hs.
  destruct (H2 Hs) as (st & Hst & Hsh). exists st. by rewrite Hc.
Qed.

Lemma flight_ok_untouched j r w w' f : untouched j w w' -> flight_ok w j r f -> flight_ok w' j r f.
Proof.
  intros (_ & Hc & Hn). destruct f as [i d|i [d|] [[a ns] e]|i [d|] a]; cbn [flight_ok]; rewrite ?Hn, ?Hc; [|done..].
  intros (Hs & (st & Hst & Hsh) & Hz). split; [done |]. split; [|done]. exists st. by rewrite Hc.
Qed.

(** A change of run [i] alone: of its row, its thread, its notices and what is in flight
    of it, which was [old] and becomes [new]. *)
Lemma consistent_change w w' i before old new after :
  consistent (w, before ++ old ++ after) ->
  (forall j, j <> i -> untouched j w w') ->
  wf_table (agent_runs w') -> next_id (agent_runs w) <= next_id (agent_runs w') ->
  (forall n, n ∈ notices w' -> n ∈ notices w \/ notice_run_id n = i) ->
  (forall f, f ∈ old \/ f ∈ new -> flight_run f = i) ->
  (length new <= 1)%nat -> ~ flying i (before ++ after) ->
  (exists r, get i (agent_runs w') = Some r /\ (new = [] -> run_ok w' i r) /\ forall f, f ∈ new -> flight_ok w' i r f) ->
  consistent (w', before ++ new ++ after).
Proof.
  intros [Hwf Hd Hf Hr Hk] Hun Hwf' Hnext Hin Hrun Hlen Hfree (r & Hg & Hrok & Hfok). cbn [fst snd] in *.
  assert (forall f, f ∈ before ++ after -> flight_run f <> i) as Hother.
  { intros f Hfi Efi. apply Hfree. apply list_elem_of_fmap. by exists f. }
  split; cbn [fst snd].
  - done.
  - rewrite !map_app in *. rewrite (Permutation_app_comm (map flight_run new)), app_assoc.
    rewrite (Permutation_app_comm (map flight_run old)), app_assoc in Hd. apply NoDup_app in Hd as (Hd & _ & _).
    apply NoDup_app. split; [done |]. split.
    + intros x Hx (f & -> & Hfn)%list_elem_of_fmap. apply Hfree. unfold flying. rewrite map_app.
      rewrite (Hrun f) in Hx by by right. done.
    + destruct new as [|f [|g new]]; [constructor | by apply NoDup_singleton | cbn in Hlen; lia].
  - intros f Hfi. rewrite !elem_of_app in Hfi. destruct Hfi as [Hfi|[Hfi|Hfi]].
    2: { rewrite (Hrun f) by by right. exists r. split; [done | by apply Hfok]. }
    all: assert (flight_run f <> i) as Hne by (apply Hother; rewrite elem_of_app; auto);
      destruct (Hf f) as (r0 & Hg0 & Hok0); [rewrite !elem_of_app; auto |];
      exists r0; pose proof (Hun _ Hne) as Hu; (split; [by rewrite (proj1 Hu) | by eapply flight_ok_untouched]).
  - intros j r0 Hj Hnf. destruct (decide (j = i)) as [->|Hne].
    + assert (r0 = r) as -> by congruence. apply Hrok. destruct new as [|f new]; [done |]. exfalso. apply Hnf.
      unfold flying. rewrite !map_app. rewrite !elem_of_app. right. left. rewrite <- (Hrun f) by (right; left). by left.
    + pose proof (Hun j Hne) as Hu. rewrite (proj1 Hu) in Hj. eapply run_ok_untouched; [exact Hu |]. apply Hr; [done |].
      unfold flying in *. rewrite !map_app in *. rewrite !elem_of_app in *. intros [H1|[H1|H1]]; [by apply Hnf; auto | | by apply Hnf; auto].
      apply list_elem_of_fmap in H1 as (f & -> & Hfo). apply Hne. apply Hrun. by left.
  - intros n [Hn|En]%Hin; [specialize (Hk n Hn); lia |]. rewrite En. by eapply get_lt.
Qed.

Lemma row_change i f (w w' : world) :
  agent_runs w' = update i f (agent_runs w) -> (forall j, j <> i -> checkpoint j (engine w') = checkpoint j (engine w)) ->
  (forall j, j <> i -> notices_of j (notices w') = notices_of j (notices w)) -> forall j, j <> i -> untouched j w w'.
Proof.
  intros Hr Hc Hn j Hj. split; [|split; auto]. rewrite Hr, get_update. destruct (Z.eqb_spec i j); [congruence | done].
Qed.

Lemma distinct_free (before after : list (@flight E)) f :
  NoDup (map flight_run (before ++ f :: after)) -> ~ flying (flight_run f) (before ++ after).
Proof.
  rewrite map_app. cbn [map]. intros Hd%NoDup_app. destruct Hd as (_ & Hba & Hd). apply NoDup_cons in Hd as [Ha _].
  unfold flying. rewrite map_app, elem_of_app. intros [Hb|Hb]; [|done]. apply (Hba _ Hb). by left.
Qed.

(** A run of which something is in flight is under way or waits. *)
Lemma flying_status w fl i r :
  consistent (w, fl) -> get i (agent_runs w) = Some r -> flying i fl -> status r = running \/ status r = awaiting_review.
Proof.
  intros Hc Hg (f & Ei & Hf)%list_elem_of_fmap. destruct (flights_ok _ Hc f Hf) as (r0 & Hg0 & Hok). cbn [fst] in *.
  rewrite <- Ei in *. assert (r0 = r) as -> by congruence. destruct f as [j d|j [d|] [[a ns] e]|j [d|] a]; cbn in Hok.
  - right. apply Hok.
  - right. apply Hok.
  - left. destruct Hok as [-> _]. done.
  - right. apply Hok.
  - left. destruct Hok as [-> _]. done.
Qed.

Lemma begin_run_cases enabled i w o w' r :
  get i (agent_runs w) = Some r -> begin_run text_of enabled i w = (o, w') ->
  match o with
  | None => w' = w \/ w' = _set_status i failed w
  | Some st => w' = _set_status i running w /\ agent_run_id st = i
  end.
Proof.
  intros Hg. unfold begin_run. destruct enabled; cbn [negb]; [|intros [= <- <-]; by left].
  destruct (_build_initial_state text_of i w) as [[st|]|e] eqn:Eb; intros [= <- <-]; [|by left | by right].
  split; [done |]. unfold _build_initial_state in Eb. rewrite Hg in Eb. destruct (get_observation _ _); [|done].
  destruct (raw_dict _); [|done]. cbn [bind_result] in Eb. by injection Eb as <-.
Qed.

Lemma begin_consistent enabled s i r o w w' fl :
  consistent (w, fl) -> get i (agent_runs w) = Some r -> status r = pending -> begin_run text_of enabled i w = (o, w') ->
  consistent (w', match o with Some st => Launched i None (ainvoke s i (Start st) (engine w')) :: fl | None => fl end).
Proof.
  intros Hc Hg Hp Hb. assert (~ flying i fl) as Hfree.
  { intros Hfl. destruct (flying_status w fl i r Hc Hg Hfl); congruence. }
  pose proof (runs_ok _ Hc i r Hg Hfree) as [Hnew _ _ Hn]. rewrite decide_False in Hn by congruence. specialize (Hnew Hp).
  assert (forall st, wf_table (agent_runs (_set_status i st w))) as Hwf by (intros; apply wf_update, Hc).
  pose proof (begin_run_cases enabled i w o w' r Hg Hb) as Hcase. destruct o as [st|].
  - destruct Hcase as [-> Hid]. pose proof (ainvoke_start s i st (engine w)) as Hl. cbv zeta in Hl. cbn [_set_status with_runs engine].
    destruct (ainvoke s i (Start st) (engine w)) as [[a ns] e']. destruct Hl as (-> & -> & Hck & _).
    apply (consistent_change w _ i [] [] [Launched i None (_, _, e')] fl); try done.
    + by apply (row_change i (set_run_status running)).
    + by left.
    + intros f [Hf%not_elem_of_nil|Hf%list_elem_of_singleton]; [done | by subst f].
    + exists (set_run_status running r). cbn [_set_status with_runs agent_runs]. rewrite get_update, Z.eqb_refl, Hg.
      split; [done |]. split; [done |]. intros f ->%list_elem_of_singleton. cbn [flight_ok notices]. rewrite Hnew.
      split; [done |]. split; [done |]. by exists s, st.
  - destruct Hcase as [->| ->]; [done |]. apply (consistent_change w _ i [] [] [] fl); try done.
    + by apply (row_change i (set_run_status failed)).
    + by left.
    + intros f [Hf%not_elem_of_nil|Hf%not_elem_of_nil]; done.
    + cbn. lia.
    + exists (set_run_status failed r). cbn [_set_status with_runs agent_runs]. rewrite get_update, Z.eqb_refl, Hg.
      split; [done |]. split; [|by intros f ?%not_elem_of_nil]. intros _. split; cbn; try done; by intros [?|?].
Qed.

Lemma check_consistent i d w fl :
  consistent (w, fl) -> alone i fl -> check_review i w = Ok tt -> consistent (w, Checked i d :: fl).
Proof.
  intros Hc Hfree Hck. unfold check_review in Hck. destruct (get i (agent_runs w)) as [r|] eqn:Hg; [|done].
  destruct (decide (status r = awaiting_review)) as [Hs|]; [|done].
  pose proof (runs_ok _ Hc i r Hg Hfree) as [_ Hw _ Hn]. rewrite decide_False in Hn by congruence.
  apply (consistent_change w _ i [] [] [Checked i d] fl); try done; [apply Hc | by left | |].
  - intros f [Hf%not_elem_of_nil|Hf%list_elem_of_singleton]; [done | by subst f].
  - exists r. split; [done |]. split; [done |]. intros f ->%list_elem_of_singleton. cbn [flight_ok]. auto.
Qed.

Lemma launch_consistent s i d w before after :
  consistent (w, before ++ Checked i d :: after) ->
  consistent (w, before ++ Launched i (Some d) (ainvoke s i (Resume d) (engine w)) :: after).
Proof.
  intros Hc. pose proof (distinct_free _ _ _ (flights_distinct _ Hc)) as Hfree.
  destruct (flights_ok _ Hc (Checked i d)) as (r & Hg & Hs & (st & Hck & Hsh) & Hn); [cbn; set_solver |]. cbn [fst flight_run] in *.
  pose proof (ainvoke_resume s i d _ _ st (engine w) Hck) as Hl. cbv zeta in Hl.
  destruct (ainvoke s i (Resume d) (engine w)) as [[a ns] e']. destruct Hl as (Ea & En & _).
  apply (consistent_change w _ i before [Checked i d] [Launched i (Some d) (a, ns, e')] after); try done; [apply Hc | by left | |].
  - intros f [Hf%list_elem_of_singleton|Hf%list_elem_of_singleton]; by subst f.
  - exists r. split; [done |]. split; [done |]. intros f ->%list_elem_of_singleton. cbn [flight_ok].
    split; [done |]. split; [done |]. by exists s, st.
Qed.

Lemma sent_own s d st : forall n, n ∈ sent (drive text_of s (Some d) [n_human_review; n_notify] st) -> notice_run_id n = agent_run_id st.
Proof.
  intros n. rewrite resume_drive. destruct (approve d); [|by intros ?%not_elem_of_nil].
  destruct (dispatch s _); [|by intros ?%not_elem_of_nil]. cbn [sent]. by intros ->%list_elem_of_singleton.
Qed.

Lemma land_consistent i d r ns e w before after :
  consistent (w, before ++ Launched i d (r, ns, e) :: after) ->
  consistent (World (records w) (agent_runs w) (adopt i e (engine w)) (notices w ++ ns), before ++ Landed i d r :: after).
Proof.
  intros Hc. pose proof (distinct_free _ _ _ (flights_distinct _ Hc)) as Hfree.
  destruct (flights_ok _ Hc (Launched i d (r, ns, e))) as (row & Hg & Hok); [cbn; set_solver |]. cbn [fst flight_run] in *.
  assert (forall n, n ∈ ns -> notice_run_id n = i) as Hns.
  { destruct d as [d|]; cbn [flight_ok] in Hok.
    - destruct Hok as (_ & _ & s & st & [Hid _] & _ & ->). rewrite <- Hid. apply sent_own.
    - destruct Hok as (_ & _ & s & st & _ & _ & -> & _). by rewrite (proj1 (start_drive s st)); intros n ?%not_elem_of_nil. }
  apply (consistent_change w _ i before [Launched i d (r, ns, e)] [Landed i d r] after); try done.
  - intros j Hj. split; [done |]. cbn [engine notices]. rewrite adopt_checkpoint, notices_of_app, (notices_of_others i j ns) by done.
    split; [by destruct (Z.eqb_spec j i) | lia].
  - apply Hc.
  - intros n [Hn|Hn]%elem_of_app; [by left | right; by apply Hns].
  - intros f [Hf%list_elem_of_singleton|Hf%list_elem_of_singleton]; by subst f.
  - exists row. split; [done |]. split; [done |]. intros f ->%list_elem_of_singleton. destruct d as [d|]; cbn [flight_ok notices engine] in *.
    + destruct Hok as (Hs & Hn & s & st & Hsh & Ea & En). split; [done |]. exists s, st. split; [done |]. split; [done |].
      rewrite notices_of_app, Hn, (notices_of_own i ns Hns), En. done.
    + destruct Hok as (Hr & Hn & s & st & Hid & Ea & En & Hck). split; [done |].
      rewrite notices_of_app, Hn, (notices_of_own i ns Hns), En, (proj1 (start_drive s st)). split; [done |].
      exists s, st. rewrite adopt_checkpoint, Z.eqb_refl. done.
Qed.

(** The last part of a task or a review: only the row changes, to one in order. *)
Lemma end_consistent i f f0 w w' before after r :
  consistent (w, before ++ f0 :: after) -> flight_run f0 = i -> get i (agent_runs w) = Some r ->
  agent_runs w' = update i f (agent_runs w) -> engine w' = engine w -> notices w' = notices w ->
  run_ok w' i (f r) -> consistent (w', before ++ after).
Proof.
  intros Hc Hi Hg Hr He Hn Hok. apply (consistent_change w w' i before [f0] [] after); try done.
  - apply (row_change i f); [done | by intros; rewrite He | by intros; rewrite Hn].
  - rewrite Hr. apply wf_update, Hc.
  - by rewrite Hr.
  - intros n. rewrite Hn. by left.
  - intros g [Hf%list_elem_of_singleton|Hf%not_elem_of_nil]; [by subst g | done].
  - cbn. lia.
  - rewrite <- Hi. exact (distinct_free _ _ _ (flights_distinct _ Hc)).
  - exists (f r). rewrite Hr, get_update, Z.eqb_refl, Hg. split; [done |]. split; [done | by intros g ?%not_elem_of_nil].
Qed.

Lemma failed_ok (w : world) i r : notices_of i (notices w) = 0%nat -> run_ok w i (set_run_status failed r).
Proof. intros Hn. split; cbn; try done; by intros [?|?]. Qed.

Lemma end_run_consistent now i a w before after :
  consistent (w, before ++ Landed i None a :: after) -> consistent (end_run now i a w, before ++ after).
Proof.
  intros Hc. destruct (flights_ok _ Hc (Landed i None a)) as (r & Hg & Hr & Hn & s & st & Hid & Ea & Hck); [cbn; set_solver |].
  cbn [fst flight_run] in *. destruct (start_drive s st) as [_ Hd].
  assert (consistent (_set_status i failed w, before ++ after)) as Hfail.
  { eapply (end_consistent i (set_run_status failed)); try done. by apply failed_ok. }
  unfold end_run. destruct Hd as [[e He]|(st' & He & Hrem & Hreach & Hid' & _ & x & b & c & q & Hx & Hb & Hcc & Hq)];
    rewrite He in Ea; subst a; [exact Hfail |].
  unfold _sync_agent_run. rewrite Hg. cbn [fst snd]. set (f := synced now st' true false).
  destruct (row_fits (f r)) eqn:Ef; [|exact Hfail].
  eapply (end_consistent i f); try done. unfold underway in Hr. rewrite Hr in *. split.
  - done.
  - intros _. exists st'. cbn [with_runs engine]. rewrite Hck, Hrem, Hreach. split; [done |]. split; [congruence |].
    unfold f, synced, new_run. cbn. rewrite Hx, Hb, Hcc, Hq. cbn. split_and!; try done.
    unfold f, synced, new_run, row_fits in Ef. cbn in Ef. rewrite Hx, Hb, Hcc in Ef. exact Ef.
  - by intros [?|?].
  - cbn [with_runs notices]. rewrite Hn. by rewrite decide_False.
Qed.

(** What a review does to a run that waits. *)
Definition reviewed (now : datetime) (d : decision) (r : AgentRun) : AgentRun :=
  Run (run_observation_id r) (if approve d then approved else rejected) (run_cause r) (severity_assessment r) (run_action r)
    (run_confidence r) (decided_by d) (Some now).

Lemma synced_decided now d st r i : shows i r st -> synced now (decided d st) false true r = reviewed now d r.
Proof.
  intros (_ & E1 & E2 & E3 & E4 & _). unfold synced, reviewed, decided. cbn. rewrite <- E1, <- E2, <- E3, <- E4. destruct r; cbn.
  assert (forall A (o : option A), kept o o = o) as Hk by (intros A [?|]; done). rewrite !Hk. by destruct (approve d).
Qed.

(** The end of a review on the result of its drive. *)
Lemma end_resume_drive now i d s st r w :
  get i (agent_runs w) = Some r -> shows i r st -> wf_table (agent_runs w) ->
  end_resume now i (ended (drive text_of s (Some d) [n_human_review; n_notify] st)) w =
    if approve d && negb (is_ok (dispatch s (approval_notice (decided d st))))
    then (Ok None, with_runs w (update i (set_run_status failed) (agent_runs w)))
    else (Ok (Some (reviewed now d r)), with_runs w (update i (reviewed now d) (agent_runs w))).
Proof.
  intros Hg Hsh Hwf. rewrite resume_drive.
  assert (_sync_agent_run now i (decided d st, false) true w =
    Ok (Some (reviewed now d r), with_runs w (update i (reviewed now d) (agent_runs w)))) as Hsync.
  { unfold _sync_agent_run. rewrite Hg. cbn [fst snd]. rewrite (synced_decided now d st r i Hsh).
    assert (row_fits (reviewed now d r) = true) as -> by apply Hsh. do 3 f_equal.
    unfold update. f_equal. apply map_ext_in. intros [j r'] Hin. cbn [fst snd]. destruct (Z.eqb_spec i j) as [->|]; [|done]. f_equal.
    assert (get j (agent_runs w) = Some r') as Hg' by (apply lookup_row_In; [apply Hwf | done]). rewrite Hg in Hg'. injection Hg' as <-.
    by eapply synced_decided. }
  destruct (approve d); [destruct (dispatch s _)|]; cbn [ended is_ok negb andb end_resume]; by rewrite ?Hsync.
Qed.

Lemma end_review_consistent now i d a w before after :
  consistent (w, before ++ Landed i (Some d) a :: after) -> consistent ((end_resume now i a w).2, before ++ after).
Proof.
  intros Hc. destruct (flights_ok _ Hc (Landed i (Some d) a)) as (r & Hg & Hs & s & st & Hsh & Ea & Hn); [cbn; set_solver |].
  cbn [fst flight_run] in *. subst a. rewrite (end_resume_drive now i d s st r w Hg Hsh (runs_wf _ Hc)).
  rewrite resume_drive in Hn. pose proof Hsh as (_ & _ & _ & _ & _ & Hcause & _).
  destruct (approve d && negb (is_ok (dispatch s (approval_notice (decided d st))))) eqn:Ef; cbn [snd].
  - eapply (end_consistent i (set_run_status failed)); try done. apply failed_ok. cbn [with_runs notices]. rewrite Hn.
    apply andb_true_iff in Ef as [-> Ed]. by destruct (dispatch s _).
  - eapply (end_consistent i (reviewed now d)); try done. unfold reviewed. split; cbn [status reviewed_at run_cause with_runs notices].
    + by destruct (approve d).
    + by destruct (approve d).
    + done.
    + rewrite Hn. destruct (approve d); [|done]. by destruct (dispatch s _).
Qed.

Lemma step_consistent c c' : step text_of alone c c' -> consistent c -> consistent c'.
Proof.
  intros Hstep Hc. destruct Hstep as [o w fl|recs w fl|en i r w w' fl Hj Hp Hb|en s i r st w w' fl Hj Hp Hb|i d w fl Hal Hck
    |s i d w before after|i d x ns e w before after|now i x w before after|now i d x w before after].
  - destruct Hc as [Hwf Hd Hf Hok Hk]. cbn [fst snd] in *.
    assert (forall j, is_Some (get j (agent_runs w)) -> get j (insert (new_run o) (agent_runs w)).2 = get j (agent_runs w)) as Hold.
    { intros j [r Hr]. rewrite get_insert by done. pose proof (get_lt j r _ Hwf Hr). by rewrite (proj2 (Z.eqb_neq _ _)) by lia. }
    split; cbn [fst snd with_runs agent_runs notices]; [by apply wf_insert | done | | |].
    + intros f Hfi. destruct (Hf f Hfi) as (r & Hr & Hrok). exists r. rewrite Hold by by eexists. split; [done |].
      eapply flight_ok_untouched; [|exact Hrok]. split; [|done]. cbn [with_runs agent_runs]. apply Hold. by eexists.
    + intros j r Hj Hnf. rewrite get_insert in Hj by done. destruct (Z.eqb_spec j (next_id (agent_runs w))) as [->|].
      * injection Hj as <-. split; cbn; try done; [by intros [?|?] |]. rewrite decide_False by done. by apply notices_of_unknown.
      * eapply run_ok_untouched; [|by apply Hok]. split; [|done]. cbn [with_runs agent_runs]. apply Hold. by eexists.
    + intros n Hin. cbn [insert snd next_id]. specialize (Hk n Hin). lia.
  - destruct Hc as [Hwf Hd Hf Hok Hk]. split; cbn [fst snd agent_runs] in *; try done.
    intros i r Hi Hnf. by eapply run_ok_untouched; [|apply Hok].
  - exact (begin_consistent en (Services (fun _ => Raise "") (fun _ => Raise "") (fun _ => Raise "") (fun _ => Raise "") (fun _ => Raise ""))
      i r None w w' fl Hc Hj Hp Hb).
  - exact (begin_consistent en s i r (Some st) w w' fl Hc Hj Hp Hb).
  - by apply check_consistent.
  - by apply launch_consistent.
  - by apply land_consistent.
  - by apply end_run_consistent.
  - by eapply end_review_consistent.
Qed.

Lemma reachable_consistent c0 c : initial c0 -> rtc (step text_of alone) c0 c -> consistent c.
Proof. intros Hinit Hs. apply initial_consistent in Hinit. induction Hs as [|c0 c1 c Hs _ IH]; [done |]. apply IH. by eapply step_consistent. Qed.

(** C34: The life of the agent's runs, over any requests, tasks and reviews, whose parts
    interleave between their awaits, as long as a review of a run is let in only when
    nothing of that run is in flight: a run with nothing in flight has dispatched one
    notification where it is approved and none otherwise; a decided run has its reviewed
    time and its analysis; a run that waits for review is paused there with the analysis
    that its row shows; and no two tasks or reviews of one run are ever in flight. *)
Theorem triage_lifecycle c0 c :
  initial c0 -> rtc (step text_of alone) c0 c ->
  NoDup (map flight_run c.2) /\
  every (fun i r => ~ flying i c.2 ->
    notices_of i (notices c.1) = (if decide (status r = approved) then 1%nat else 0%nat) /\
    (status r = approved \/ status r = rejected -> reviewed_at r <> None /\ run_cause r <> None) /\
    (status r = awaiting_review -> waits i r (engine c.1))) (agent_runs c.1).
Proof.
  intros Hinit Hs. pose proof (reachable_consistent c0 c Hinit Hs) as Hc. split; [apply Hc |].
  intros i r Hg Hf. by destruct (runs_ok c Hc i r Hg Hf) as [_ H1 H2 H3].
Qed.

(** What the review endpoint does, when nothing of the run is in flight and nothing
    intervenes: an unknown run is not found, one that does not wait is a conflict, a
    disabled agent is not implemented, none of which changes anything; a run that waits is
    approved with one notification, rejected with none, with the caller the token names as
    its reviewer, or, where the dispatch of the notification fails, failed.  The analysis
    always fits its columns. *)
Theorem review_endpoint_exact c0 w fl enabled now s reviewer approve i :
  initial c0 -> rtc (step text_of alone) c0 (w, fl) -> ~ flying i fl ->
  let '(a, w') := resume_agent_run_endpoint enabled now s reviewer approve i w in
  match get i (agent_runs w) with
  | None => a = NotFound /\ w' = w
  | Some r =>
      if decide (status r = awaiting_review) then
        if enabled then
          exists n, notice_run_id n = i /\
          if approve && negb (is_ok (dispatch s n))
          then a = BadGateway /\ agent_runs w' = update i (set_run_status failed) (agent_runs w) /\ notices w' = notices w
          else a = Found (reviewed now (Decision approve reviewer) r) /\
               agent_runs w' = update i (reviewed now (Decision approve reviewer)) (agent_runs w) /\
               notices w' = notices w ++ if approve then [n] else []
        else a = NotImplemented /\ w' = w
      else a = Conflict (status r) /\ w' = w
  end.
Proof.
  intros Hinit Hs Hfree. pose proof (reachable_consistent c0 _ Hinit Hs) as Hc. unfold resume_agent_run_endpoint, check_review.
  destruct (get i (agent_runs w)) as [r|] eqn:Hg; [|done]. destruct (decide (status r = awaiting_review)) as [Hst|]; [|done].
  unfold resume_agent_run. destruct enabled; [|done]. cbn [negb]. unfold invoke.
  destruct (run_waits w i r (runs_ok _ Hc i r Hg Hfree) Hst) as (st & Hck & Hsh).
  set (d := Decision approve reviewer).
  pose proof (ainvoke_resume s i d _ _ st (engine w) Hck) as Hl. cbv zeta in Hl.
  destruct (ainvoke s i (Resume d) (engine w)) as [[a ns] e']. destruct Hl as (-> & -> & _ & _).
  match goal with |- context [end_resume now i _ ?x] =>
    rewrite (end_resume_drive now i d s st r x Hg Hsh (runs_wf _ Hc)) end.
  rewrite resume_drive. cbn [Triage.approve d].
  assert (notice_run_id (approval_notice (decided d st)) = i) as Hi by apply Hsh.
  destruct approve; cbn [andb].
  - destruct (dispatch s (approval_notice (decided d st))) eqn:Ed; cbn; exists (approval_notice (decided d st));
      rewrite Ed; cbn; by rewrite ?app_nil_r.
  - cbn. exists (approval_notice (decided d st)). by rewrite ?app_nil_r.
Qed.

(** While no two reviews of a run overlap, a run that is approved, rejected or failed
    stays exactly as it is: there is no retry of a failed run. *)
Theorem decided_is_final c c' i r :
  consistent c -> step text_of alone c c' -> get i (agent_runs c.1) = Some r ->
  status r = approved \/ status r = rejected \/ status r = failed -> get i (agent_runs c'.1) = Some r.
Proof.
  intros Hc Hstep Hg Hf.
  assert (~ flying i c.2) as Hfree.
  { intros Hfl. destruct c as [w fl]. destruct (flying_status w fl i r Hc Hg Hfl); destruct Hf as [?|[?|?]]; congruence. }
  assert (forall j f, j <> i -> get i (update j f (agent_runs c.1)) = Some r) as Hu.
  { intros j f Hj. rewrite get_update. destruct (Z.eqb_spec j i); [done | exact Hg]. }
  assert (forall j r0, get j (agent_runs c.1) = Some r0 -> status r0 = pending -> j <> i) as Hpend.
  { intros j r0 Hj Hp ->. destruct Hf as [?|[?|?]]; congruence. }
  assert (forall before f after, c.2 = before ++ f :: after -> flight_run f <> i) as Hne.
  { intros before f after Ec Ef. apply Hfree. rewrite Ec. unfold flying. rewrite map_app, elem_of_app. right. rewrite <- Ef. by left. }
  destruct Hstep as [o w fl|recs w fl|en j r0 w w' fl Hj Hp Hb|en s j r0 st w w' fl Hj Hp Hb|j d w fl _ _|s j d w b a|j d x ns e w b a
    |now j x w b a|now j d x w b a]; cbn [fst snd] in *; try done.
  - cbn [with_runs agent_runs]. rewrite get_insert by apply Hc. pose proof (get_lt _ _ _ (runs_wf _ Hc) Hg). cbn [fst] in *.
    by rewrite (proj2 (Z.eqb_neq _ _)) by lia.
  - pose proof (Hpend j r0 Hj Hp). destruct (begin_run_cases en j w None w' r0 Hj Hb) as [->| ->]; [done | by apply Hu].
  - pose proof (Hpend j r0 Hj Hp). destruct (begin_run_cases en j w (Some st) w' r0 Hj Hb) as [-> _]. by apply Hu.
  - pose proof (Hne b _ a eq_refl) as Hj. cbn in Hj. unfold end_run, _sync_agent_run, _set_status. destruct x as [x|]; [|by apply Hu].
    destruct (get j (agent_runs w)); [|done]. destruct (row_fits _); by apply Hu.
  - pose proof (Hne b _ a eq_refl) as Hj. cbn in Hj. unfold end_resume, _sync_agent_run, _set_status. destruct x as [x|]; [|by apply Hu].
    destruct (get j (agent_runs w)); [|done]. destruct (row_fits _); [by apply Hu | done].
Qed.

End Lifecycle.
End TriageTheorems.

(** ** Witnesses *)

Module TriageWitnesses.
Import SourceRegistry Observations Triage Runner TriageTheorems.

Definition plain_text (j : json) : string := match j with JStr s => s | _ => "None" end.

(** An engine that keeps its checkpoints in a map. *)
Definition threads : Type := gmap Z (list node * AgentState).

Definition run_thread (s : services) (t : Z) (x : input) (e : threads) : result string (AgentState * bool) * list notice * threads :=
  let kept p := (ended p, sent p, <[t := (remaining p, reached p)]> e) in
  match x with
  | Start st => kept (drive plain_text s None build_graph st)
  | Resume d => match e !! t with Some (path, st) => kept (drive plain_text s (Some d) path st) | None => (Raise "no checkpoint", [], e) end
  end.

#[local] Instance threads_ops : GraphOps threads := {|
  ainvoke := run_thread;
  checkpoint t e := e !! t;
  adopt t e' e := match e' !! t with Some c => <[t := c]> e | None => delete t e end
|}.

#[local] Instance threads_laws : GraphLaws plain_text threads.
Proof.
  split.
  - intros s t st e. cbn. split; [done |]. split; [done |]. split; [apply lookup_insert_eq |]. intros t' Ht. by apply lookup_insert_ne.
  - intros s t d n path st e Hc. cbv zeta. cbn in Hc. cbn [ainvoke threads_ops run_thread checkpoint]. rewrite Hc.
    split; [done |]. split; [done |]. split; [apply lookup_insert_eq |]. intros t' Ht. by apply lookup_insert_ne.
  - intros t t' e' e. cbn. destruct (Z.eqb_spec t' t) as [->|Hne].
    + destruct (e' !! t) as [c|]; [apply lookup_insert_eq | apply lookup_delete_eq].
    + destruct (e' !! t) as [c|]; [by apply lookup_insert_ne | by apply lookup_delete_ne].
Qed.

Definition services_up (dispatched : result string unit) : services :=
  Services (fun _ => Ok (Structured None (Some (Severity "high" "fields removed" true))))
    (fun _ => Ok (Structured None (Some (Draft "field dropped upstream" "pin the version" (9 # 10)))))
    (fun _ => Raise "search down") (fun _ => Ok tt) (fun _ => dispatched).

Definition drifted : Observation :=
  Obs 1 40 (JObj [("event_type", JStr "breaking"); ("severity", JStr "critical"); ("summary", JStr "removed=1")]) ["incident"] false None None 40
    None None.

Definition before : @world threads := World (Observations.World (empty_table _) (Table [(1, drifted)] 2)) (empty_table _) ∅ [].
Definition asked : @world threads := with_runs before (snd (insert (new_run 1) (empty_table _))).
Definition waiting : @world threads := run_agent_for_observation plain_text true 50 (services_up (Ok tt)) 1 asked.

Abbreviation idle w := (w, @nil (@flight threads)).

Lemma adopt_own t c (e : threads) : adopt t (<[t := c]> e) e = <[t := c]> e.
Proof. cbn. assert ((<[t := c]> e) !! t = Some c) as -> by apply lookup_insert_eq. done. Qed.

(** The parts of a task with nothing in between. *)
Lemma task_steps enabled now s i r w :
  get i (agent_runs w) = Some r -> status r = pending ->
  rtc (step plain_text alone) (idle w) (idle (run_agent_for_observation plain_text enabled now s i w)).
Proof.
  intros Hg Hp. unfold run_agent_for_observation. destruct (begin_run plain_text enabled i w) as [[st|] w'] eqn:Eb.
  - eapply rtc_l; [by eapply (step_begin plain_text alone enabled s) |]. unfold invoke.
    destruct (ainvoke s i (Start st) (engine w')) as [[a ns] e'] eqn:Ea.
    eapply rtc_l; [apply (step_land plain_text alone i None a ns e' w' [] []) |].
    replace (adopt i e' (engine w')) with e'; [apply rtc_once, (step_end_run plain_text alone now i a _ [] []) |].
    cbn [ainvoke threads_ops run_thread] in Ea. injection Ea as _ _ <-. symmetry. apply adopt_own.
  - apply rtc_once. by eapply step_skip.
Qed.

(** The parts of a review with nothing in between. *)
Lemma review_steps now s d i w :
  check_review i w = Ok tt -> is_Some (engine w !! i) ->
  rtc (step plain_text alone) (idle w) (idle (resume_agent_run true now s i d w).2).
Proof.
  intros Hc [[path st] He]. eapply rtc_l; [apply (step_check plain_text alone i d w []); [by intros ?%not_elem_of_nil | done] |].
  eapply rtc_l; [apply (step_launch plain_text alone s i d w [] []) |]. unfold resume_agent_run, invoke. cbn [negb].
  destruct (ainvoke s i (Resume d) (engine w)) as [[a ns] e'] eqn:Ea.
  eapply rtc_l; [apply (step_land plain_text alone i (Some d) a ns e' w [] []) |].
  replace (adopt i e' (engine w)) with e'; [apply rtc_once, (step_end_review plain_text alone now i d a _ [] []) |].
  cbn [ainvoke threads_ops run_thread] in Ea. rewrite He in Ea. injection Ea as _ _ <-. symmetry. apply adopt_own.
Qed.

Lemma waiting_reachable : rtc (step plain_text alone) (idle before) (idle waiting).
Proof.
  eapply rtc_l; [apply (step_request plain_text alone 1 before []) |].
  exact (task_steps true 50 (services_up (Ok tt)) 1 (new_run 1) asked eq_refl eq_refl).
Qed.

Example waiting_row :
  match get 1 (agent_runs waiting) with
  | Some r => status r = awaiting_review /\ run_cause r = Some "field dropped upstream" /\ severity_assessment r = Some "high"
  | None => False
  end.
Proof. vm_compute. repeat split. Qed.

Definition verdict (b : bool) (reviewer : option Z) : @world threads :=
  snd (resume_agent_run true 60 (services_up (Ok tt)) 1 (Decision b reviewer) waiting).

Lemma verdict_reachable b reviewer : rtc (step plain_text alone) (idle before) (idle (verdict b reviewer)).
Proof.
  etransitivity; [exact waiting_reachable |]. apply review_steps; [by vm_compute |].
  eexists. vm_compute. reflexivity.
Qed.

Lemma triage_lifecycle_witness :
  exists r, get 1 (agent_runs (verdict true (Some 7))) = Some r /\ status r = approved /\
    notices_of 1 (notices (verdict true (Some 7))) = 1%nat.
Proof.
  assert (exists r, get 1 (agent_runs (verdict true (Some 7))) = Some r /\ status r = approved) as (r & Hg & Hs)
    by (eexists; split; vm_compute; reflexivity).
  exists r. split; [exact Hg |]. split; [exact Hs |].
  destruct (triage_lifecycle plain_text (idle before) (idle (verdict true (Some 7))) (conj eq_refl (conj eq_refl eq_refl))
    (verdict_reachable true (Some 7))) as [_ H].
  destruct (H 1 r Hg ltac:(by intros ?%not_elem_of_nil)) as (Hn & _). cbn [fst] in Hn. rewrite Hn, decide_True by exact Hs. reflexivity.
Defined.

(** Two approvals that overlap both pass the check, both resume the graph from the
    checkpoint at the review, and both notify. *)
Lemma overlapping_approvals_notify_twice :
  exists w, rtc (step plain_text (fun _ _ => True)) (idle waiting) (idle w) /\
    notices_of 1 (notices w) = 2%nat /\ exists r, get 1 (agent_runs w) = Some r /\ status r = approved /\ run_reviewer r = Some 8.
Proof.
  set (s := services_up (Ok tt)). set (d k := Decision true (Some k)). eexists. split.
  - eapply rtc_l; [apply (step_check plain_text (fun _ _ => True) 1 (d 7) waiting []); [done | by vm_compute] |].
    eapply rtc_l; [apply (step_check plain_text (fun _ _ => True) 1 (d 8)); [done | by vm_compute] |].
    eapply rtc_l; [apply (step_launch plain_text (fun _ _ => True) s 1 (d 8) waiting []) |].
    eapply rtc_l; [eapply (step_launch plain_text (fun _ _ => True) s 1 (d 7) waiting [_]) |].
    destruct (ainvoke s 1 (Resume (d 7)) (engine waiting)) as [[a7 n7] e7] eqn:E7.
    destruct (ainvoke s 1 (Resume (d 8)) (engine waiting)) as [[a8 n8] e8] eqn:E8. cbn [app].
    eapply rtc_l; [apply (step_land plain_text (fun _ _ => True) 1 (Some (d 7)) a7 n7 e7 _ [_] []) |]. cbn [app].
    eapply rtc_l; [apply (step_end_review plain_text (fun _ _ => True) 60 1 (d 7) a7 _ [_] []) |]. cbn [app].
    eapply rtc_l; [apply (step_land plain_text (fun _ _ => True) 1 (Some (d 8)) a8 n8 e8 _ [] []) |]. cbn [app].
    eapply rtc_l; [apply (step_end_review plain_text (fun _ _ => True) 61 1 (d 8) a8 _ [] []) |]. cbn [app].
    vm_compute in E7, E8. injection E7 as <- <- <-. injection E8 as <- <- <-. apply rtc_refl.
  - split; [vm_compute; reflexivity |]. eexists. split; [vm_compute; reflexivity | by vm_compute].
Qed.

Lemma review_endpoint_exact_witness :
  fst (resume_agent_run_endpoint true 60 (services_up (Raise "slack down")) (Some 7) true 1 waiting) = BadGateway /\
  fst (resume_agent_run_endpoint true 60 (services_up (Ok tt)) (Some 7) true 2 waiting) = NotFound.
Proof.
  split; [vm_compute; reflexivity |].
  pose proof (review_endpoint_exact plain_text (idle before) waiting [] true 60 (services_up (Ok tt)) (Some 7) true 2
    (conj eq_refl (conj eq_refl eq_refl)) waiting_reachable ltac:(by intros ?%not_elem_of_nil)) as H.
  exact (proj1 H).
Defined.

Lemma decided_is_final_witness :
  exists r, get 1 (agent_runs (World (Observations.World (empty_table _) (empty_table _)) (agent_runs (verdict false None))
      (engine (verdict false None)) (notices (verdict false None)))) = Some r /\ status r = rejected.
Proof.
  assert (consistent plain_text (idle (verdict false None))) as Hc
    by (eapply (reachable_consistent plain_text (idle before)); [by split_and! | apply verdict_reachable]).
  assert (exists r, get 1 (agent_runs (verdict false None)) = Some r /\ status r = rejected) as (r & Hg & Hs)
    by (eexists; split; vm_compute; reflexivity).
  exists r. split; [|exact Hs].
  exact (decided_is_final plain_text (idle (verdict false None)) (idle _) 1 r Hc
    (step_records plain_text alone (Observations.World (empty_table _) (empty_table _)) (verdict false None) [])
    Hg (or_intror (or_introl Hs))).
Defined.

(** A disabled agent leaves the run pending. *)
Example disabled_leaves_pending : agent_runs (run_agent_for_observation plain_text false 50 (services_up (Ok tt)) 1 asked) = agent_runs asked.
Proof. reflexivity. Qed.

End TriageWitnesses.
