(* ===== verification/Streaming.v ===== *)
(** * The live stream of events (events.py, pubsub.py, api/routes/ws.py)

    Publishing to the broker and to the Redis channel, the generator that a subscriber
    reads, and the WebSocket endpoint that forwards it.

    The producer and the Redis client are parameters by whether they are there and what a
    call to them does, as are the text of JSON, the clock's text and the check of a token.
    What a client is sent depends on how the reader and the pinger interleave: that is a
    list of occurrences.  A subscription that fails under the reader is left out. *)

From S2P Require Import Prelude Jwt.

Module Streaming.
Import Dict.

(** ** Publishing to Redis *)

Definition PUBSUB_CHANNEL : string := "ingestor:events".

(** A module's client and what a publication does on it. *)
Record redis := Redis { pubsub_connected : bool; publish_works : bool }.

(** What is published: the channel with the message. *)
Abbreviation published := (list (string * dict)) (only parsing).

Definition envelope_of (event_type ts : string) (payload : dict) : dict :=
  dict_update [("type", JStr event_type); ("ts", JStr ts)] payload.

(** Fail-open: it never raises. *)
Definition publish_event (r : redis) (ts event_type : string) (payload : dict) : published :=
  if pubsub_connected r then
    if publish_works r then [(PUBSUB_CHANNEL, envelope_of event_type ts payload)] else []
  else [].

Definition publish_observation_created (r : redis) (ts : string) (observation_id : Z) (source : json) : published :=
  publish_event r ts "observation.created" [("observation_id", JInt observation_id); ("source", source)].

Definition publish_job_progress (r : redis) (ts job_id status : string) (progress : Q) (message : string) : published :=
  publish_event r ts "job.progress"
    [("job_id", JStr job_id); ("status", JStr status); ("progress", JFloat (py_round 4 progress)); ("message", JStr message)].

Definition publish_drift_event (r : redis) (ts : string) (source_id drift_event_id : Z) (event_type severity : string)
    (compatibility_score : Q) : published :=
  publish_event r ts "drift.detected"
    [("source_id", JInt source_id); ("drift_event_id", JInt drift_event_id); ("event_type", JStr event_type);
     ("severity", JStr severity); ("compatibility_score", JFloat (py_round 4 compatibility_score))].

(** ** Publishing to the broker *)

(** How a send through the circuit breaker ends: [KafkaError] and [CircuitOpenError] are
    logged, anything else goes on to the caller. *)
Inductive send_outcome := Sent | Refused | Broken (e : string).

(** The producer, where it is connected. *)
Record broker := Broker { producer_connected : bool; send : string -> dict -> send_outcome }.

Definition TOPIC_OBSERVATION_CREATED : string := "observations.events".
Definition TOPIC_SCRAPED : string := "scraped.events".

Definition event_dict (event_type : string) (payload : dict) : dict :=
  [("event_type", JStr event_type); ("payload", JObj payload)].

(** The event reaches the broker, and then the channel. *)
Definition events_publish_observation_created (b : broker) (r : redis) (ts : string) (observation_id : Z) (payload : dict)
    : result string (list dict * published) :=
  if negb (producer_connected b) then Ok ([], [])
  else
    let event := event_dict "observation.created" (dict_update [("observation_id", JInt observation_id)] payload) in
    let stream := publish_observation_created r ts observation_id (or_else (dict_get "source" payload) (JStr "")) in
    match send b TOPIC_OBSERVATION_CREATED event with
    | Sent => Ok ([event], stream)
    | Refused => Ok ([], stream)
    | Broken e => Raise e
    end.

Definition publish_doc_scraped (b : broker) (source : string) (count : Z) : result string (list dict) :=
  if negb (producer_connected b) then Ok []
  else
    let event := event_dict "doc.scraped" [("source", JStr source); ("count", JInt count)] in
    match send b TOPIC_SCRAPED event with
    | Sent => Ok [event]
    | Refused => Ok []
    | Broken e => Raise e
    end.

(** One value of the outbox: it raises where it was not sent. *)
Definition publish_event_bytes (connected : bool) (sent : send_outcome) : result string unit :=
  if negb connected then Raise "Kafka producer is not connected."
  else match sent with Sent => Ok tt | Refused => Raise "KafkaError" | Broken e => Raise e end.

(** ** Subscribing *)

(** What the subscription of a client yields: the confirmation, or a message with its data. *)
Inductive raw := Confirmation | Message (data : string).

Section Subscribe.
Context (loads : string -> option json).

(** Data that is no JSON is logged and skipped. *)
Definition decode (x : raw) : option json :=
  match x with Confirmation => None | Message data => loads data end.

Definition subscribe_events (cache_enabled : bool) (listened : list raw) : list json :=
  if cache_enabled then omap decode listened else [].

(** ** The WebSocket *)

Inductive frame := Event (j : json) | Ping | Info (message : string).

(** What happens while a client is served: its subscription yields, thirty seconds of the
    pinger pass, or the client goes, which only a send notices. *)
Inductive occurrence := Yields (x : raw) | Tick | Leaves.

(** The frames that reach the client, with whether the handler has ended.  Either task
    ending ends both. *)
Fixpoint _stream_events (present : bool) (l : list occurrence) : list frame * bool :=
  match l with
  | [] => ([], false)
  | Leaves :: l => _stream_events false l
  | Tick :: l => if present then let '(fs, b) := _stream_events present l in (Ping :: fs, b) else ([], true)
  | Yields x :: l =>
      match decode x with
      | None => _stream_events present l
      | Some j => if present then let '(fs, b) := _stream_events present l in (Event j :: fs, b) else ([], true)
      end
  end.

(** Without a cache: pings alone, and nothing is subscribed to. *)
Fixpoint _idle_until_disconnect (present : bool) (l : list occurrence) : list frame * bool :=
  match l with
  | [] => ([], false)
  | Leaves :: l => _idle_until_disconnect false l
  | Tick :: l => if present then let '(fs, b) := _idle_until_disconnect present l in (Ping :: fs, b) else ([], true)
  | Yields _ :: l => _idle_until_disconnect present l
  end.

(** The registry of the connections. *)
Abbreviation connections := (gset Z) (only parsing).

Definition connect (ws : Z) (m : connections) : connections := {[ws]} ∪ m.
Definition disconnect (ws : Z) (m : connections) : connections := m ∖ {[ws]}.

Inductive served := Closed (code : Z) (reason : string) | Served (frames : list frame) (ended : bool).

Definition UNAVAILABLE : frame := Info "stream unavailable: Cache not enabled".

(** [verified] is the check of the token; the registry is as it is when the handler has come
    to the end of the occurrences. *)
Definition observations_stream (jwt_secret : string) (verified : string -> bool) (cache_enabled : bool) (ws : Z)
    (token : option string) (l : list occurrence) (m : connections) : served * connections :=
  let serve :=
    let '(fs, b) := if cache_enabled then _stream_events true l
                    else let '(fs, b) := _idle_until_disconnect true l in (UNAVAILABLE :: fs, b) in
    (Served fs b, if b then disconnect ws (connect ws m) else connect ws m) in
  if str_truthy jwt_secret then
    match token with
    | Some t => if str_truthy t then if verified t then serve else (Closed 4003 "invalid token", m)
                else (Closed 4001 "missing token", m)
    | None => (Closed 4001 "missing token", m)
    end
  else serve.

End Subscribe.
End Streaming.

(** ** Theorems *)

Module StreamingTheorems.
Import Dict Streaming.

(** What the publishers put on the channel: an envelope with the event's own type, and
    the time and the fields of the event, where there is a client that works, nothing else
    ever; no field of the three publishers overrides the type. *)
Theorem envelopes_keep_type r ts :
  (forall i s m, m ∈ publish_observation_created r ts i s ->
     m.1 = PUBSUB_CHANNEL /\ dict_get "type" m.2 = Some (JStr "observation.created") /\ dict_get "ts" m.2 = Some (JStr ts) /\
     dict_get "observation_id" m.2 = Some (JInt i)) /\
  (forall j st p msg m, m ∈ publish_job_progress r ts j st p msg ->
     m.1 = PUBSUB_CHANNEL /\ dict_get "type" m.2 = Some (JStr "job.progress") /\ dict_get "ts" m.2 = Some (JStr ts) /\
     dict_get "job_id" m.2 = Some (JStr j)) /\
  (forall i d et sev q m, m ∈ publish_drift_event r ts i d et sev q ->
     m.1 = PUBSUB_CHANNEL /\ dict_get "type" m.2 = Some (JStr "drift.detected") /\ dict_get "ts" m.2 = Some (JStr ts) /\
     dict_get "drift_event_id" m.2 = Some (JInt d)).
Proof.
  split; [|split]; intros;
    match goal with H : _ ∈ _ |- _ =>
      unfold publish_observation_created, publish_job_progress, publish_drift_event, publish_event in H;
      destruct (pubsub_connected r), (publish_works r); try (by apply not_elem_of_nil in H);
      apply list_elem_of_singleton in H as -> end; by repeat split.
Qed.

(** The stream depends on the broker: an observation is announced on the channel exactly
    where the producer is connected and no unexpected error came of the send, refused sends
    included; without a producer nothing is announced, however well Redis works. *)
Theorem stream_needs_broker b r ts i payload :
  pubsub_connected r = true -> publish_works r = true ->
  ((exists es m, events_publish_observation_created b r ts i payload = Ok (es, [m])) <->
   producer_connected b = true /\
   forall e, send b TOPIC_OBSERVATION_CREATED
     (event_dict "observation.created" (dict_update [("observation_id", JInt i)] payload)) <> Broken e) /\
  (producer_connected b = false -> events_publish_observation_created b r ts i payload = Ok ([], [])).
Proof.
  intros Hc Hp. unfold events_publish_observation_created, publish_observation_created, publish_event. rewrite Hc, Hp. cbv zeta.
  destruct (producer_connected b); cbn [negb].
  - split; [|done]. destruct (send b _ _) as [| |e]; (split; [|intros [_ H]]).
    + intros _. by split.
    + by eexists _, _.
    + intros _. by split.
    + by eexists _, _.
    + by intros (es & m & ?).
    + by destruct (H e).
  - split; [|done]. split; [by intros (es & m & ?) | by intros [? _]].
Qed.

Section Stream.
Context (loads : string -> option json).

(** What the subscription yields up to where the client goes, with the pings between. *)
Definition frame_of (o : occurrence) : option frame :=
  match o with Yields x => Event <$> decode loads x | Tick => Some Ping | Leaves => None end.

Fixpoint until_gone (l : list occurrence) : list occurrence :=
  match l with [] => [] | Leaves :: _ => [] | o :: l => o :: until_gone l end.

Fixpoint after_gone (l : list occurrence) : list occurrence :=
  match l with [] => [] | Leaves :: l => l | _ :: l => after_gone l end.

Lemma stream_absent l : _stream_events loads false l = ([], bool_decide (omap frame_of l <> [])).
Proof.
  induction l as [|o l IH]; [done |]. destruct o as [x| |]; cbn [_stream_events omap list_omap frame_of].
  - destruct (decode loads x); [done | exact IH].
  - done.
  - exact IH.
Qed.

(** What a client of the stream receives: the events that decode, each once and in their
    order, with the pings between them, up to the moment it goes; what does not decode is
    skipped.  The handler ends exactly at the first event or ping after that moment: the
    departure of a client is noticed at the next ping at the latest. *)
Theorem stream_forwards l :
  _stream_events loads true l = (omap frame_of (until_gone l), bool_decide (omap frame_of (after_gone l) <> [])).
Proof.
  induction l as [|o l IH]; [done |]. destruct o as [x| |]; cbn [_stream_events until_gone after_gone omap list_omap frame_of].
  - destruct (decode loads x) as [j|]; cbn [fmap option_fmap option_map]; [|exact IH]. by rewrite IH.
  - by rewrite IH.
  - apply stream_absent.
Qed.

(** Who is served: a connection is accepted exactly with a token that is verified, where a
    secret is configured, and otherwise always; a refused one is sent nothing and is not
    registered; one that has ended is no longer registered. *)
Theorem stream_admits jwt_secret verified cache_enabled ws token l m :
  ws ∉ m ->
  let '(a, m') := observations_stream loads jwt_secret verified cache_enabled ws token l m in
  ((exists fs b, a = Served fs b) <-> jwt_secret = "" \/ exists t, token = Some t /\ t <> "" /\ verified t = true) /\
  ((exists c reason, a = Closed c reason) -> m' = m) /\
  (forall fs, a = Served fs true -> m' = m) /\ (forall fs, a = Served fs false -> ws ∈ m').
Proof.
  intros Hws. unfold observations_stream.
  assert (disconnect ws (connect ws m) = m) as Hd by (unfold disconnect, connect; set_solver).
  set (p := if cache_enabled then _ else _). assert (exists fs b, p = (fs, b)) as (fs & b & ->) by (destruct p; by eexists _, _).
  assert (forall P Q : Prop, Q -> ((exists fs' b', Served fs b = Served fs' b') <-> Q) /\
    ((exists c reason, Served fs b = Closed c reason) -> (if b then disconnect ws (connect ws m) else connect ws m) = m) /\
    (forall fs', Served fs b = Served fs' true -> (if b then disconnect ws (connect ws m) else connect ws m) = m) /\
    (forall fs', Served fs b = Served fs' false -> ws ∈ (if b then disconnect ws (connect ws m) else connect ws m))) as Hserve.
  { intros _ Q HQ. split; [split; [done | by eexists _, _] |]. split; [by intros (? & ? & ?) |]. split.
    - by intros fs' [= _ ->].
    - intros fs' [= _ ->]. unfold connect. set_solver. }
  destruct jwt_secret as [|c sec]; cbn [str_truthy]; [apply (Hserve True); by left |].
  destruct token as [[|c' t]|]; cbn [str_truthy].
  - split; [split; [by intros (? & ? & ?) | intros [?|(t & [= <-] & ? & _)]; done] |]. by repeat split.
  - destruct (verified (String c' t)) eqn:E; [apply (Hserve True); right; by eexists |].
    split; [split; [by intros (? & ? & ?) | intros [?|(t' & [= <-] & _ & ?)]; congruence] |]. by repeat split.
  - split; [split; [by intros (? & ? & ?) | intros [?|(t & ? & _)]; done] |]. by repeat split.
Qed.

End Stream.
End StreamingTheorems.

(** ** Witnesses *)

Module StreamingWitnesses.
Import Dict Streaming StreamingTheorems.

Lemma stream_needs_broker_witness :
  events_publish_observation_created (Broker false (fun _ _ => Sent)) (Redis true true) "t" 1 [("source", JStr "weather")] = Ok ([], []) /\
  exists es m, events_publish_observation_created (Broker true (fun _ _ => Refused)) (Redis true true) "t" 1 [("source", JStr "weather")] = Ok (es, [m]).
Proof.
  split.
  - exact (proj2 (stream_needs_broker (Broker false (fun _ _ => Sent)) (Redis true true) "t" 1 [("source", JStr "weather")] eq_refl eq_refl) eq_refl).
  - apply (proj1 (stream_needs_broker (Broker true (fun _ _ => Refused)) (Redis true true) "t" 1 [("source", JStr "weather")] eq_refl eq_refl)).
    split; [reflexivity |]. intros e. discriminate.
Defined.

Definition numbers (s : string) : option json := if String.eqb s "1" then Some (JInt 1) else None.

Example a_client :
  _stream_events numbers true [Yields Confirmation; Yields (Message "1"); Tick; Yields (Message "x"); Leaves; Yields (Message "x"); Tick; Tick] =
    ([Event (JInt 1); Ping], true).
Proof. vm_compute. reflexivity. Qed.

Lemma stream_admits_witness :
  fst (observations_stream numbers "secret" (fun t => String.eqb t "good") true 5 (Some "bad") [Tick] ∅) = Closed 4003 "invalid token" /\
  exists fs b, fst (observations_stream numbers "secret" (fun t => String.eqb t "good") true 5 (Some "good") [Tick] ∅) = Served fs b.
Proof.
  split; [reflexivity |].
  pose proof (stream_admits numbers "secret" (fun t => String.eqb t "good") true 5 (Some "good") [Tick] ∅ ltac:(set_solver)) as H.
  apply (proj1 H). right. exists "good". split; [reflexivity |]. split; [discriminate | reflexivity].
Defined.

End StreamingWitnesses.
