(* ===== verification/LimitedRoutes.v ===== *)
(** * The rate-limited observation endpoints (api/routes/observations_v2.py)

    The two limiters of [RateLimiting.v] in front of the repository of [Observations.v],
    the cursor listing and the enrichment.

    The fixed window is slowapi's and left out, as is the demonstration that measures two
    queries.  The readings of the clock, the jitter's draw and whether the two limiters
    are the module's own are arguments. *)

From S2P Require Import Prelude Db Encodings SourceRegistry Observations ObservationRoutes ObservationQueries RateLimiting.

Module LimitedRoutes.
Import SourceRegistry Observations.
Import ObservationRoutes(route_error, Http, Unhandled, Invalid, missing, lift, respond, respond_all, attributes).

Definition TOKEN_BUCKET_CAPACITY : Z := 20.
Definition TOKEN_BUCKET_REFILL_PER_SEC : Q := 10 # 60.
Definition SLIDING_WINDOW_LIMIT : Z := 10.
Definition SLIDING_WINDOW_SECONDS : Z := 60.
Definition JITTER_MIN_SECONDS : Q := 5.
Definition JITTER_MAX_SECONDS : Q := 10.

(** A request: the header of a proxy, and the peer's address where there is one. *)
Record request := Request { x_forwarded_for : option string; client_host : option string }.

Definition _client_ip (r : request) : string :=
  let direct := or_else (client_host r) "unknown" in
  match x_forwarded_for r with
  | Some forwarded => if str_truthy forwarded then strip (or_else (head (split_on "," forwarded)) "") else direct
  | None => direct
  end.

Abbreviation response_headers := (list (string * string)) (only parsing).

(** [int(q)] of what is not below 0. *)
Definition int_of (q : Q) : Z := Qfloor q.

Definition _rl_headers (strategy : string) (limit : Z) (remaining : Z) : response_headers :=
  [("X-RateLimit-Strategy", strategy); ("X-RateLimit-Limit", str_of_Z limit); ("X-RateLimit-Remaining", str_of_Z remaining)].

Definition retry_header (retry_after : Q) : string * string := ("Retry-After", str_of_Z (int_of retry_after + 1)).

Inductive limited_error :=
| TooManyRequests (detail : string) (headers : response_headers)
| DivisionByZero
| Query (e : ObservationQueries.query_error)
| Route (e : route_error).

Definition route {A} (r : result route_error A) : result limited_error A :=
  match r with Ok a => Ok a | Raise e => Raise (Route e) end.

(** The module's limiters and the tables. *)
Record state := State {
  _token_bucket : TokenBucket.TokenBucketLimiter;
  _sliding_window : SlidingWindow.SlidingWindowLimiter;
  db : world
}.

(** The limiters as the module makes them. *)
Definition imported (w : world) : state :=
  State (TokenBucket.new TOKEN_BUCKET_CAPACITY TOKEN_BUCKET_REFILL_PER_SEC)
    (SlidingWindow.Limiter SLIDING_WINDOW_LIMIT SLIDING_WINDOW_SECONDS ∅) w.

(** The readings of a request: the factory of a new bucket, the request's, and the later
    one for the header. *)
Record readings := Readings { t_default : Q; t_request : Q; t_retry : Q; utcnow : datetime }.

Section Routes.
Context (uniform : Q -> Q -> Q).

(** What follows the limiter. *)
Definition create_and_respond (c : readings) (ctx : context) (body : ObservationRequest) (headers : response_headers) (s : state)
    : result limited_error (ObservationRoutes.ObservationResponse * response_headers) * state :=
  match create_observation (utcnow c) ctx body (db s) with
  | Raise e => (Raise (Route (Unhandled e)), s)
  | Ok (i, o, w) =>
      (bind_result (route (respond (attributes (i, o)))) (fun r => Ok (r, headers)), State (_token_bucket s) (_sliding_window s) w)
  end.

Definition create_observation_token_bucket (c : readings) (ctx : context) (q : request) (body : ObservationRequest) (s : state)
    : result limited_error (ObservationRoutes.ObservationResponse * response_headers) * state :=
  let ip := _client_ip q in
  let '((allowed, remaining), bucket) := TokenBucket.consume ip 1 (t_default c) (t_request c) (_token_bucket s) in
  let s := State bucket (_sliding_window s) (db s) in
  let headers := _rl_headers "token-bucket" (TokenBucket.capacity bucket) (int_of remaining) in
  if allowed then create_and_respond c ctx body headers s
  else
    match TokenBucket.seconds_until_token uniform ip (- JITTER_MIN_SECONDS) JITTER_MAX_SECONDS (t_default c) (t_retry c) bucket with
    | Raise _ => (Raise DivisionByZero, s)
    | Ok retry_after =>
        (Raise (TooManyRequests "Rate limit exceeded (token bucket drained)" (headers ++ [retry_header retry_after])), s)
    end.

Definition create_observation_sliding_window (c : readings) (ctx : context) (q : request) (body : ObservationRequest) (s : state)
    : result limited_error (ObservationRoutes.ObservationResponse * response_headers) * state :=
  let ip := _client_ip q in
  let '((allowed, remaining), window) := SlidingWindow.is_allowed ip (t_request c) (_sliding_window s) in
  let s := State (_token_bucket s) window (db s) in
  let headers := _rl_headers "sliding-window" (SlidingWindow.limit window) remaining in
  if allowed then create_and_respond c ctx body headers s
  else
    let retry_after := SlidingWindow.reset_in uniform ip (- JITTER_MIN_SECONDS) JITTER_MAX_SECONDS (t_retry c) window in
    (Raise (TooManyRequests "Rate limit exceeded (sliding window full)" (headers ++ [retry_header retry_after])), s).

End Routes.

(** ** Listing and enrichment *)

Record page := Page {
  page_observations : list ObservationRoutes.ObservationResponse;
  next_cursor : option string;
  has_more : bool;
  page_limit : nat
}.

Definition list_observations_cursor {text : JsonText} {iso : IsoText} (cursor : option string) (limit : nat) (source : option string) (w : world)
    : result limited_error page :=
  match ObservationQueries.get_observations_cursor_paginated cursor limit source w with
  | Raise e => Raise (Query e)
  | Ok (observations, next, more) =>
      bind_result (route (respond_all observations)) (fun rs => Ok (Page rs next more limit))
  end.

(** Without the duration measured. *)
Record enrich_response := EnrichResponse {
  enriched_count : Z;
  failed_count : Z;
  enrich_results : list ObservationQueries.EnrichedObservation
}.

Definition enrich_observations (fetch_with_retry : string -> result string json) (observation_ids : list Z) (w : world) : enrich_response :=
  let results := ObservationQueries.enrich_observations_concurrent fetch_with_retry observation_ids w in
  let '(enriched, failed) := ObservationQueries.enrich_counts results in
  EnrichResponse enriched failed results.

End LimitedRoutes.

(** ** Theorems *)

Module LimitedRouteTheorems.
Import SourceRegistry Observations LimitedRoutes.
Import ObservationRoutes(Invalid, Unhandled, missing).

Inductive endpoint := by_bucket | by_window.

(** One request to one of the two endpoints. *)
Record call := Call { at_ : readings; who : context; asked : request; with_body : ObservationRequest; to : endpoint }.

Section Calls.
Context (uniform : Q -> Q -> Q).

Definition serve (c : call) (s : state) :=
  match to c with
  | by_bucket => create_observation_token_bucket uniform (at_ c) (who c) (asked c) (with_body c) s
  | by_window => create_observation_sliding_window uniform (at_ c) (who c) (asked c) (with_body c) s
  end.

(** Whether the limiter in front lets the request through. *)
Definition admits (c : call) (s : state) : bool :=
  match to c with
  | by_bucket => fst (fst (TokenBucket.consume (_client_ip (asked c)) 1 (t_default (at_ c)) (t_request (at_ c)) (_token_bucket s)))
  | by_window => fst (fst (SlidingWindow.is_allowed (_client_ip (asked c)) (t_request (at_ c)) (_sliding_window s)))
  end.

Definition too_many {A} (r : result limited_error A) : bool :=
  match r with Raise (TooManyRequests _ _) => true | _ => false end.

Fixpoint serve_all (cs : list call) (s : state) : state :=
  match cs with [] => s | c :: cs => serve_all cs (snd (serve c s)) end.

(** What the limiters leave of a request. *)
Lemma serve_outcome c s :
  (admits c s = true /\
   match create_observation (utcnow (at_ c)) (who c) (with_body c) (db s) with
   | Raise e => fst (serve c s) = Raise (Route (Unhandled e)) /\ db (snd (serve c s)) = db s
   | Ok (_, _, w) => fst (serve c s) = Raise (Route (Invalid (missing "source"))) /\ db (snd (serve c s)) = w
   end) \/
  (admits c s = false /\ db (snd (serve c s)) = db s /\
   ((exists d h, fst (serve c s) = Raise (TooManyRequests d h)) \/ fst (serve c s) = Raise DivisionByZero)).
Proof.
  destruct c as [t ctx q body []]; unfold admits, serve, create_observation_token_bucket, create_observation_sliding_window;
    cbn [to at_ who asked with_body].
  - destruct (TokenBucket.consume _ _ _ _ _) as [[[] remaining] bucket]; cbn [fst snd].
    + left. split; [done |]. unfold create_and_respond. cbn [db _token_bucket _sliding_window].
      destruct (create_observation _ _ _ _) as [[[i o] w]|e]; [|done].
      by rewrite ObservationRouteTheorems.respond_row.
    + right. split; [done |]. destruct (TokenBucket.seconds_until_token _ _ _ _ _ _ _); cbn; (split; [done |]); [left; by eexists _, _ | by right].
  - destruct (SlidingWindow.is_allowed _ _ _) as [[[] remaining] window]; cbn [fst snd].
    + left. split; [done |]. unfold create_and_respond. cbn [db _token_bucket _sliding_window].
      destruct (create_observation _ _ _ _) as [[[i o] w]|e]; [|done].
      by rewrite ObservationRouteTheorems.respond_row.
    + right. cbn. split; [done |]. split; [done |]. left. by eexists _, _.
Qed.

(** No request to the two limited endpoints is answered with a created observation.  One
    the limiter refuses leaves the tables alone; one it admits commits the row when the
    repository takes it, and then fails, because the response is validated from a row that
    has no [source]. *)
Theorem limited_creation_never_answers (c : call) (s : state) :
  is_ok (fst (serve c s)) = false /\
  (admits c s = false -> db (snd (serve c s)) = db s) /\
  (admits c s = true -> forall i o w,
     create_observation (utcnow (at_ c)) (who c) (with_body c) (db s) = Ok (i, o, w) ->
     fst (serve c s) = Raise (Route (Invalid (missing "source"))) /\ db (snd (serve c s)) = w).
Proof.
  destruct (serve_outcome c s) as [[Ha Hr] | (Ha & Hd & Hf)].
  - destruct (create_observation _ _ _ _) as [[[i o] w]|e] eqn:Hc; destruct Hr as [-> Hdb]; (split; [done | split; [congruence |]]);
      intros _ i' o' w' Hc'; by simplify_eq.
  - split; [destruct Hf as [(? & ? & ->) | ->]; done |]. split; [done |]. by rewrite Ha.
Qed.

(** *** The interval in the header *)

(** The limiters at [t], as the requests up to then leave them. *)
Record regular (t : Q) (s : state) : Prop := {
  regular_bucket : forall ip, TokenBucketTheorems.sane ip t (_token_bucket s);
  regular_refill : TokenBucket.refill_per_second (_token_bucket s) = TOKEN_BUCKET_REFILL_PER_SEC;
  regular_span : SlidingWindow.window_seconds (_sliding_window s) = SLIDING_WINDOW_SECONDS;
  regular_limit : SlidingWindow.limit (_sliding_window s) = SLIDING_WINDOW_LIMIT;
  regular_log : forall ip log, SlidingWindow._windows (_sliding_window s) !! ip = Some log -> Forall (fun x => (x <= t)%Q) log
}.

(** The clock of a run of requests does not go back. *)
Fixpoint clocked (t : Q) (cs : list call) : Prop :=
  match cs with
  | [] => True
  | c :: cs => (t <= t_request (at_ c))%Q /\ (t_default (at_ c) <= t_request (at_ c))%Q /\
      (t_request (at_ c) <= t_retry (at_ c))%Q /\ clocked (t_request (at_ c)) cs
  end.

Lemma imported_regular t w : regular t (imported w).
Proof. by split. Qed.

Lemma regular_later t t' s : (t <= t')%Q -> regular t s -> regular t' s.
Proof.
  intros Ht [Hb Hr Hs Hl Hw]. split; try done.
  - intros ip. by eapply TokenBucketTheorems.sane_later.
  - intros ip log Hlog. eapply List.Forall_impl; [|by eapply Hw]. simpl. intros x Hx. lra.
Qed.

(** The limiters after a request, whatever follows them. *)
Lemma serve_limiters c s :
  let t := at_ c in
  let ip := _client_ip (asked c) in
  _token_bucket (snd (serve c s)) =
    match to c with by_bucket => snd (TokenBucket.consume ip 1 (t_default t) (t_request t) (_token_bucket s)) | by_window => _token_bucket s end /\
  _sliding_window (snd (serve c s)) =
    match to c with by_bucket => _sliding_window s | by_window => snd (SlidingWindow.is_allowed ip (t_request t) (_sliding_window s)) end.
Proof.
  destruct c as [t ctx q body []]; unfold serve, create_observation_token_bucket, create_observation_sliding_window, create_and_respond;
    cbn [to at_ who asked with_body].
  - destruct (TokenBucket.consume _ _ _ _ _) as [[[] remaining] bucket].
    + destruct (create_observation _ _ _ _) as [[[i o] w]|e]; done.
    + destruct (TokenBucket.seconds_until_token _ _ _ _ _ _ _); done.
  - destruct (SlidingWindow.is_allowed _ _ _) as [[[] remaining] window]; [|done].
    destruct (create_observation _ _ _ _) as [[[i o] w]|e]; done.
Qed.

Lemma drop_while_forall {A} (p : A -> bool) (P : A -> Prop) l : Forall P l -> Forall P (drop_while p l).
Proof. induction 1 as [|x l Hx Hl IH]; simpl; [done |]. destruct (p x); [done | by constructor]. Qed.

Lemma window_regular ip t l :
  (forall k log, SlidingWindow._windows l !! k = Some log -> Forall (fun x => (x <= t)%Q) log) ->
  let l' := snd (SlidingWindow.is_allowed ip t l) in
  SlidingWindow.limit l' = SlidingWindow.limit l /\ SlidingWindow.window_seconds l' = SlidingWindow.window_seconds l /\
  (forall k log, SlidingWindow._windows l' !! k = Some log -> Forall (fun x => (x <= t)%Q) log).
Proof.
  intros Hl l'. unfold l', SlidingWindow.is_allowed.
  assert (Forall (fun x => (x <= t)%Q) (default [] (SlidingWindow._windows l !! ip))) as Hd.
  { destruct (SlidingWindow._windows l !! ip) as [log|] eqn:Hk; simpl; [by eapply Hl | constructor]. }
  destruct (_ <? _); cbn; (split; [done | split; [done |]]); intros k log; destruct (decide (k = ip)) as [->|Hne];
    rewrite ?lookup_insert_eq, ?lookup_insert_ne by done; try apply Hl; intros [= <-].
  - apply Forall_app; split; [by apply drop_while_forall | repeat constructor; lra].
  - by apply drop_while_forall.
Qed.

Lemma serve_regular c s t :
  (t <= t_request (at_ c))%Q -> (t_default (at_ c) <= t_request (at_ c))%Q -> regular t s -> regular (t_request (at_ c)) (snd (serve c s)).
Proof.
  intros Ht Hd Hs. apply (regular_later _ _ _ Ht) in Hs. destruct Hs as [Hb Hr Hsp Hl Hw].
  destruct (serve_limiters c s) as [Hbk Hwn]. destruct (to c).
  - split; rewrite ?Hbk, ?Hwn; try done.
    + intros ip. by apply TokenBucketTheorems.consume_sane.
    + rewrite <- Hr. apply (TokenBucketTheorems.consume_sane "" _ _ _ _ (Hb _)). done.
  - destruct (window_regular (_client_ip (asked c)) (t_request (at_ c)) (_sliding_window s)) as (H1 & H2 & H3); [done |].
    split; rewrite ?Hbk, ?Hwn, ?H1, ?H2; done.
Qed.

Lemma run_regular cs : forall t s, clocked t cs -> regular t s ->
  exists t', regular t' (serve_all cs s) /\ forall c, clocked t (cs ++ [c]) -> (t' <= t_request (at_ c))%Q.
Proof.
  induction cs as [|c cs IH]; intros t s Hc Hs; simpl in *.
  { exists t. split; [done |]. by intros c (Hc' & _). }
  destruct Hc as (Ht & Hd & Hr & Hc).
  destruct (IH _ (snd (serve c s)) Hc) as (t' & Ht' & Hl); [by apply (serve_regular _ _ t) |].
  exists t'. split; [done |]. intros d (_ & _ & _ & Hd'). by apply Hl.
Qed.

Lemma clocked_split cs : forall t c, clocked t (cs ++ [c]) ->
  clocked t cs /\ (t_default (at_ c) <= t_request (at_ c))%Q /\ (t_request (at_ c) <= t_retry (at_ c))%Q.
Proof.
  induction cs as [|d cs IH]; intros t c; simpl; [by intros (_ & ? & ? & _) |].
  intros (? & ? & ? & Hc). apply IH in Hc as (? & ? & ?). done.
Qed.

(** [random.uniform] draws between its two bounds. *)
Hypothesis uniform_between : forall lo hi, (lo <= hi)%Q -> (lo <= uniform lo hi <= hi)%Q.

Lemma jitter_bounds base m : (0 <= base <= inject_Z m)%Q -> 0 <= m ->
  1 <= int_of (apply_jitter uniform base (- JITTER_MIN_SECONDS) JITTER_MAX_SECONDS) + 1 <= m + 11.
Proof.
  intros Hb Hm. unfold apply_jitter, int_of.
  destruct (uniform_between (- JITTER_MIN_SECONDS) JITTER_MAX_SECONDS) as [_ Hu]; [by vm_compute |].
  set (u := uniform _ _) in *. clearbody u.
  assert (0 <= Qfloor (Qmax 0 (base + u))).
  { change 0 with (Qfloor 0). apply Qfloor_resp_le. apply Q.le_max_l. }
  assert (Qfloor (Qmax 0 (base + u)) <= m + 10); [|lia].
  rewrite <- (Qfloor_Z (m + 10)). apply Qfloor_resp_le. apply Q.max_lub.
  - change 0%Q with (inject_Z 0). rewrite <- Zle_Qle. lia.
  - rewrite inject_Z_plus. change JITTER_MAX_SECONDS with 10%Q in Hu. change (inject_Z 10) with 10%Q. lra.
Qed.

Lemma bucket_wait c s h :
  regular (t_request (at_ c)) s -> (t_default (at_ c) <= t_request (at_ c))%Q -> (t_request (at_ c) <= t_retry (at_ c))%Q ->
  to c = by_bucket -> fst (serve c s) = Raise h -> admits c s = false ->
  exists d hs z, h = TooManyRequests d hs /\ List.last hs ("", "") = ("Retry-After", str_of_Z z) /\ 1 <= z <= 17.
Proof.
  intros Hs Hd Hr Hto. destruct c as [t ctx q body []]; [|done].
  unfold admits, serve, create_observation_token_bucket. cbn [to at_ who asked with_body] in *.
  set (ip := _client_ip q).
  destruct (TokenBucket.consume ip 1 (t_default t) (t_request t) (_token_bucket s)) as [[ok remaining] bucket] eqn:Hc.
  intros Hh Hok. cbn [fst] in Hok. subst ok.
  destruct (TokenBucketTheorems.consume_level ip ip _ _ _ _ _ _ (regular_bucket _ _ Hs ip) eq_refl Hd Hc)
    as (Hlv & _ & Hno & Hsane & _ & Href).
  rewrite (regular_refill _ _ Hs) in Href.
  pose proof (TokenBucketTheorems.sane_later _ _ _ _ Hsane Hr) as Hsane'.
  pose proof (TokenBucketTheorems.level_nonneg _ _ _ Hsane') as Hnn.
  revert Hh. unfold TokenBucket.seconds_until_token.
  assert (exists filled, TokenBucket._buckets bucket !! ip = Some (remaining, filled)) as (filled & Hlook).
  { revert Hc. unfold TokenBucket.consume. destruct (default _ _) as [c0 t0]. intros Hc. repeat case_match; simplify_eq/=.
    eexists. apply lookup_insert_eq. }
  unfold TokenBucketTheorems.level in Hnn. rewrite Hlook in *. cbn [default id].
  set (cur := TokenBucket.refilled _ _ _ _) in *. clearbody cur.
  rewrite Href. destruct (Qle_bool (1 - cur) 0) eqn:Hle; cbn [fst].
  - intros [= <-]. eexists _, _, _. split; [done |]. split; [done |]. by vm_compute.
  - change (Qeq_bool TOKEN_BUCKET_REFILL_PER_SEC 0) with false. cbn [fst]. intros [= <-]. eexists _, _, _. split; [done |]. split; [done |].
    bool_to_prop.
    apply (jitter_bounds _ 6); [|lia].
    assert ((1 - cur) / TOKEN_BUCKET_REFILL_PER_SEC == (1 - cur) * 6)%Q as -> by (unfold TOKEN_BUCKET_REFILL_PER_SEC; field).
    change (inject_Z 6) with 6%Q. lra.
Qed.

Lemma window_wait c s h :
  regular (t_request (at_ c)) s -> (t_request (at_ c) <= t_retry (at_ c))%Q ->
  to c = by_window -> fst (serve c s) = Raise h -> admits c s = false ->
  exists d hs z, h = TooManyRequests d hs /\ List.last hs ("", "") = ("Retry-After", str_of_Z z) /\ 1 <= z <= 71.
Proof.
  intros Hs Hr Hto. destruct c as [t ctx q body []]; [done |].
  unfold admits, serve, create_observation_sliding_window. cbn [to at_ who asked with_body] in *.
  set (ip := _client_ip q).
  destruct (window_regular ip (t_request t) (_sliding_window s) (regular_log _ _ Hs)) as (_ & Hsp & Hlog).
  destruct (SlidingWindow.is_allowed ip (t_request t) (_sliding_window s)) as [[ok remaining] window] eqn:Hc.
  intros Hh Hok. cbn [fst snd] in *. subst ok. revert Hh. cbn [fst]. intros [= <-]. eexists _, _, _. split; [done |]. split; [done |].
  rewrite (regular_span _ _ Hs) in Hsp. unfold SlidingWindow.reset_in. rewrite Hsp.
  destruct (SlidingWindow._windows window !! ip) as [[|oldest log]|] eqn:Hw; cbn [default id]; try (by vm_compute).
  apply (jitter_bounds _ 60); [|lia].
  apply Hlog in Hw. inversion Hw as [|? ? Hold _]; subst.
  change (inject_Z SLIDING_WINDOW_SECONDS) with 60%Q. change (inject_Z 60) with 60%Q.
  split; [apply Q.le_max_l | apply Q.max_lub; lra].
Qed.

(** After any earlier traffic on either endpoint, with a clock that does not go back, a
    request the limiter refuses is answered 429 - never with a failed division - and the
    interval its last header names is between 1 and 17 seconds for the bucket and between
    1 and 71 for the window, the jitter included. *)
Theorem retry_after_in_range (w : world) (t : Q) (cs : list call) (c : call) :
  clocked t (cs ++ [c]) -> admits c (serve_all cs (imported w)) = false ->
  exists d hs z, fst (serve c (serve_all cs (imported w))) = Raise (TooManyRequests d hs) /\
    List.last hs ("", "") = ("Retry-After", str_of_Z z) /\
    1 <= z <= match to c with by_bucket => 17 | by_window => 71 end.
Proof.
  intros Hc Hno. destruct (clocked_split _ _ _ Hc) as (Hcs & Hd & Hr).
  destruct (run_regular cs t (imported w) Hcs (imported_regular t w)) as (t' & Hs & Hle).
  apply (regular_later _ _ _ (Hle c Hc)) in Hs. set (s := serve_all cs (imported w)) in *.
  destruct (serve_outcome c s) as [[Ha _] | (_ & _ & Hf)]; [congruence |].
  assert (exists h, fst (serve c s) = Raise h) as [h Hh] by (destruct Hf as [(? & ? & ->) | ->]; eauto).
  rewrite Hh. destruct (to c) eqn:Hto.
  - destruct (bucket_wait c s h) as (d & hs & z & -> & ? & ?); try done. by exists d, hs, z.
  - destruct (window_wait c s h) as (d & hs & z & -> & ? & ?); try done. by exists d, hs, z.
Qed.

End Calls.

End LimitedRouteTheorems.

(** ** Who is limited *)

Module ForwardedFor.
Import Observations LimitedRoutes LimitedRouteTheorems.

Section Evasion.
Context (uniform : Q -> Q -> Q).

(** Every request of a run is let through. *)
Fixpoint all_admitted (cs : list call) (s : state) : bool :=
  match cs with [] => true | c :: cs => admits c s && all_admitted cs (snd (serve uniform c s)) end.

(** The limiters have the module's figures and know nothing of [ip]. *)
Definition stranger (s : state) (ip : string) : Prop :=
  TokenBucket._buckets (_token_bucket s) !! ip = None /\ SlidingWindow._windows (_sliding_window s) !! ip = None /\
  TokenBucket.capacity (_token_bucket s) = TOKEN_BUCKET_CAPACITY /\ TokenBucket.refill_per_second (_token_bucket s) = TOKEN_BUCKET_REFILL_PER_SEC /\
  SlidingWindow.limit (_sliding_window s) = SLIDING_WINDOW_LIMIT.

Lemma stranger_admitted c s :
  (t_default (at_ c) <= t_request (at_ c))%Q -> stranger s (_client_ip (asked c)) -> admits c s = true.
Proof.
  intros Ht (Hb & Hw & Hcap & Href & Hlim). unfold admits. destruct (to c).
  - unfold TokenBucket.consume. rewrite Hb, Hcap, Href. cbn [default].
    set (e := (t_request (at_ c) - t_default (at_ c))%Q) in *.
    assert (Qle_bool (inject_Z 1) (TokenBucket.refilled TOKEN_BUCKET_CAPACITY TOKEN_BUCKET_REFILL_PER_SEC (inject_Z TOKEN_BUCKET_CAPACITY) e) = true) as ->; [|done].
    apply Qle_bool_iff. unfold TokenBucket.refilled. apply Q.min_glb; [by vm_compute |].
    assert (0 <= e * TOKEN_BUCKET_REFILL_PER_SEC)%Q by (apply Qmult_le_0_compat; [unfold e; lra | by vm_compute]).
    change (inject_Z 1) with 1%Q. change (inject_Z TOKEN_BUCKET_CAPACITY) with 20%Q. lra.
  - unfold SlidingWindow.is_allowed. by rewrite Hw, Hlim.
Qed.

Lemma serve_stranger c s ip :
  ip <> _client_ip (asked c) -> stranger s ip -> stranger (snd (serve uniform c s)) ip.
Proof.
  intros Hne (Hb & Hw & Hcap & Href & Hlim). destruct (serve_limiters uniform c s) as [Hbk Hwn].
  unfold stranger. rewrite Hbk, Hwn. destruct (to c).
  - unfold TokenBucket.consume. destruct (default _ _) as [c0 t0]. destruct (Qle_bool _ _); cbn; by rewrite lookup_insert_ne.
  - unfold SlidingWindow.is_allowed. destruct (_ <? _); cbn; by rewrite lookup_insert_ne.
Qed.

Lemma strangers_admitted cs : forall s,
  NoDup (map (fun c => _client_ip (asked c)) cs) -> Forall (fun c => (t_default (at_ c) <= t_request (at_ c))%Q) cs ->
  Forall (fun c => stranger s (_client_ip (asked c))) cs -> all_admitted cs s = true.
Proof.
  induction cs as [|c cs IH]; intros s Hnd Ht Hs; cbn [all_admitted]; [done |].
  apply Forall_cons in Ht as [Ht Hts]. apply Forall_cons in Hs as [Hs Hss]. apply NoDup_cons in Hnd as [Hnot Hnd].
  rewrite stranger_admitted by done. apply IH; [done | done |].
  apply List.Forall_forall. intros d Hd. rewrite List.Forall_forall in Hss. apply serve_stranger; [|by apply Hss].
  intros Heq. apply Hnot. rewrite <- Heq. apply list_elem_of_In, in_map_iff. by exists d.
Qed.

End Evasion.

(** A header of one address. *)
Definition one_address (h : string) : bool := str_truthy h && free_of "," h && bool_decide (strip h = h).

Lemma header_names_client h peer : one_address h = true -> _client_ip (Request (Some h) peer) = h.
Proof.
  unfold one_address. intros [[Ht Hf]%andb_true_iff Hs%bool_decide_eq_true]%andb_true_iff.
  unfold _client_ip. cbn. by rewrite Ht, split_on_free.
Qed.

Lemma burst_counts uniform n t ctx q body s :
  all_admitted uniform (replicate n (Call (Readings t t t 0) ctx q body by_bucket)) s = true ->
  TokenBucket.admitted (_client_ip q) (replicate n (_client_ip q, t, t)) (_token_bucket s) = Z.of_nat n.
Proof.
  revert s. induction n as [|n IH]; intros s; [done |].
  cbn [replicate all_admitted TokenBucket.admitted]. set (c := Call _ _ _ _ _). intros [Ha Hall]%andb_true_iff.
  destruct (serve_limiters uniform c s) as [Hb _]. apply IH in Hall. rewrite Hb in Hall.
  unfold admits in Ha. cbn [c to at_ asked t_default t_request] in *.
  destruct (TokenBucket.consume (_client_ip q) 1 t t (_token_bucket s)) as [[ok remaining] bucket]. cbn [fst snd] in *. subst ok.
  rewrite Hall, bool_decide_eq_true_2 by done. cbn [andb]. lia.
Qed.

Lemma fresh_level ip t : Qfloor (TokenBucketTheorems.level ip t (TokenBucket.new TOKEN_BUCKET_CAPACITY TOKEN_BUCKET_REFILL_PER_SEC)) = 20.
Proof. unfold TokenBucketTheorems.level. cbn. by rewrite lookup_empty. Qed.

(** The limiters key a request by its first [X-Forwarded-For] address, which the client
    writes: one peer that names another address in each request is let through every time,
    whatever their number and however fast they come, on both endpoints; without the header
    the twenty-first of a burst on the bucket is refused. *)
Theorem forwarded_header_evades_limits (uniform : Q -> Q -> Q) (w : world) (peer : option string) (cs : list call) (hs : list string) :
  map asked cs = map (fun h => Request (Some h) peer) hs -> NoDup hs -> forallb one_address hs = true ->
  Forall (fun c => (t_default (at_ c) <= t_request (at_ c))%Q) cs ->
  all_admitted uniform cs (imported w) = true /\
  forall t ctx body, all_admitted uniform (replicate 21 (Call (Readings t t t 0) ctx (Request None peer) body by_bucket)) (imported w) = false.
Proof.
  intros Hq Hnd Hone Ht. split.
  - assert (map (fun c => _client_ip (asked c)) cs = hs) as Hips.
    { rewrite <- (map_map asked _client_ip), Hq, map_map.
      clear -Hone. induction hs as [|h hs IH]; [done |]. cbn [forallb map] in Hone |- *. apply andb_true_iff in Hone as [Hh Hhs].
      rewrite header_names_client by done. f_equal. by apply IH. }
    apply strangers_admitted; [by rewrite Hips | done |].
    apply List.Forall_forall. intros c _. unfold stranger. cbn. by rewrite !lookup_empty.
  - intros t ctx body. set (c := Call _ _ _ _ _).
    destruct (all_admitted uniform (replicate 21 c) (imported w)) eqn:Ha; [exfalso | done].
    pose proof (TokenBucketTheorems.burst_admitted (_client_ip (asked c)) t 21 (TokenBucket.new TOKEN_BUCKET_CAPACITY TOKEN_BUCKET_REFILL_PER_SEC)) as Hb.
    rewrite fresh_level in Hb.
    specialize (Hb (TokenBucketTheorems.new_sane _ t TOKEN_BUCKET_CAPACITY TOKEN_BUCKET_REFILL_PER_SEC ltac:(done) ltac:(vm_compute; discriminate))).
    pose proof (burst_counts uniform 21 t ctx (Request None peer) body (imported w) Ha) as Hn.
    assert (Z.of_nat 21 = Z.min (Z.of_nat 21) 20) as Habs by (rewrite <- Hb; symmetry; exact Hn). discriminate Habs.
Qed.

End ForwardedFor.

(** ** Listing and enrichment *)

Module ListingTheorems.
Import Observations LimitedRoutes.

(** The cursor listing answers only an empty page: one with a row on it is collected and
    then fails on the row's missing [source]. *)
Theorem cursor_page_fails_on_rows {text : JsonText} {iso : IsoText} (cursor : option string) (limit : nat) (source : option string)
    (w : world) (rows : list (Z * Observation)) (next : option string) (more : bool) :
  ObservationQueries.get_observations_cursor_paginated cursor limit source w = Ok (rows, next, more) ->
  list_observations_cursor cursor limit source w =
    match rows with [] => Ok (Page [] next more limit) | _ => Raise (Route (ObservationRoutes.Invalid (ObservationRoutes.missing "source"))) end.
Proof.
  intros Hq. unfold list_observations_cursor. rewrite Hq. destruct rows as [|x xs]; [done |].
  cbn [ObservationRoutes.respond_all]. by rewrite ObservationRouteTheorems.respond_row.
Qed.

(** An enrichment answers for every id asked, in its order, and its two counts, each at
    least 0, add up to that number, whatever the fetches do. *)
Theorem enrichment_accounts (fetch_with_retry : string -> result string json) (ids : list Z) (w : world) :
  let r := enrich_observations fetch_with_retry ids w in
  map ObservationQueries.enr_id (enrich_results r) = ids /\
  enriched_count r = Z.of_nat (count ObservationQueries.enriched (enrich_results r)) /\
  failed_count r = Z.of_nat (count (fun e => negb (ObservationQueries.enriched e)) (enrich_results r)) /\
  enriched_count r + failed_count r = Z.of_nat (length ids).
Proof.
  unfold enrich_observations, ObservationQueries.enrich_observations_concurrent, ObservationQueries.enrich_counts.
  cbn [enrich_results enriched_count failed_count]. rewrite map_map, length_map. split; [|split; [done | split; [|lia]]].
  - rewrite <- (map_id ids) at 2. apply map_ext. intros i. unfold ObservationQueries.enrich_one. by repeat case_match.
  - set (f := ObservationQueries.enrich_one _ _ _). clearbody f.
    induction ids as [|i ids IH]; [done |]. unfold count in *. cbn. destruct (ObservationQueries.enriched (f i)); cbn; lia.
Qed.

End ListingTheorems.

(** ** Witnesses *)

Module LimitedRouteWitnesses.
Import SourceRegistry Observations LimitedRoutes LimitedRouteTheorems ForwardedFor ListingTheorems.

Definition body : ObservationRequest := ObservationWitnesses.reading 40.
Definition peer : option string := Some "203.0.113.7".
Definition low (lo hi : Q) : Q := lo.
Definition knock (t : Q) (h : option string) (e : endpoint) : call :=
  Call (Readings t t t 60) ObservationWitnesses.seven (Request h peer) body e.
Definition start : state := imported ObservationWitnesses.no_observations.

Lemma limited_creation_never_answers_witness :
  fst (serve low (knock 0 None by_bucket) start) = Raise (Route (ObservationRoutes.Invalid (ObservationRoutes.missing "source"))) /\
  db (snd (serve low (knock 0 None by_bucket) start)) <> db start.
Proof.
  destruct (limited_creation_never_answers low (knock 0 None by_bucket) start) as (_ & _ & Ha).
  edestruct Ha as [Hf Hd]; [by vm_compute | by vm_compute |]. split; [exact Hf |]. rewrite Hd. discriminate.
Defined.

Definition eleven : list call := replicate 10 (knock 5 None by_window).

Lemma retry_after_in_range_witness :
  exists d hs z, fst (serve low (knock 6 None by_window) (serve_all low eleven start)) = Raise (TooManyRequests d hs) /\
    List.last hs ("", "") = ("Retry-After", str_of_Z z) /\ 1 <= z <= 71.
Proof.
  apply (retry_after_in_range low ltac:(intros lo hi Hlh; unfold low; split; lra)
           ObservationWitnesses.no_observations 0 eleven (knock 6 None by_window)).
  - cbn. repeat split; vm_compute; discriminate.
  - by vm_compute.
Defined.

Definition disguises : list string := map (fun n => "10.0.0." +:+ str_of_Z (Z.of_nat n)) (seq 1 40).

Lemma forwarded_header_evades_limits_witness :
  all_admitted low (map (fun h => knock 0 (Some h) by_window) disguises) start = true.
Proof.
  edestruct (forwarded_header_evades_limits low ObservationWitnesses.no_observations peer
    (map (fun h => knock 0 (Some h) by_window) disguises) disguises) as [Ha _]; [| | | | exact Ha].
  - by rewrite map_map.
  - apply (bool_decide_eq_true_1 _). by vm_compute.
  - by vm_compute.
  - apply List.Forall_forall. intros c [h [<- _]]%in_map_iff. cbn. lra.
Defined.

Import SampleJson SampleIso.

Lemma cursor_page_fails_on_rows_witness :
  list_observations_cursor None 10 None ObservationWitnesses.one_observation
  = Raise (Route (ObservationRoutes.Invalid (ObservationRoutes.missing "source"))).
Proof. erewrite cursor_page_fails_on_rows; [|by vm_compute]. reflexivity. Defined.

End LimitedRouteWitnesses.
