(* ===== verification/ContractVersions.v ===== *)
(** * The version of the contracts package (scripts/bump_contracts_version.py)

    Semantic versions and their steps, the changelog, the check of a commit and of a
    branch, and the bump.  git is a parameter: the arguments of a command give its output,
    or none where it exits with an error.  The two files hold what [write_text] put there;
    the date is an argument; what is printed is left out. *)

From S2P Require Import Prelude Network.

Module ContractVersions.
Import Url.

Definition newline : ascii := "010".

Inductive exn := SystemExit (message : string) | ValueError | CalledProcessError.

(** ** Numbers and versions *)

(** [int] and [str] refuse more than 4300 digits. *)
Definition max_digits : nat := 4300.

Definition py_int (digits : string) : result exn Z :=
  if (max_digits <? String.length digits)%nat then Raise ValueError else Ok (digits_value digits).

Definition py_str (z : Z) : result exn string :=
  if (max_digits <? String.length (str_of_Z z))%nat then Raise ValueError else Ok (str_of_Z z).

Definition digits (s : string) : bool := str_truthy s && all_chars is_digit s.

(** [SEMVER_RE.match(s)] and the groups of the match, for a string without newlines at its
    end. *)
Definition SEMVER_RE (s : string) : option (string * string * string) :=
  match split_on "." s with
  | [a; b; c] => if digits a && digits b && digits c then Some (a, b, c) else None
  | _ => None
  end.

Record semver := Semver { major : Z; minor : Z; patch : Z }.

Definition groups (m : string * string * string) : result exn semver :=
  let '(a, b, c) := m in
  bind_result (py_int a) (fun ma => bind_result (py_int b) (fun mi => bind_result (py_int c) (fun pa => Ok (Semver ma mi pa)))).

Definition render (v : semver) : result exn string :=
  bind_result (py_str (major v)) (fun a => bind_result (py_str (minor v)) (fun b => bind_result (py_str (patch v)) (fun c =>
    Ok (a +:+ "." +:+ b +:+ "." +:+ c)))).

(** The bump of each strategy; [None] for an unknown one. *)
Definition stepped (strategy : string) (v : semver) : option semver :=
  if String.eqb strategy "patch" then Some (Semver (major v) (minor v) (patch v + 1))
  else if String.eqb strategy "minor" then Some (Semver (major v) (minor v + 1) 0)
  else if String.eqb strategy "major" then Some (Semver (major v + 1) 0 0)
  else None.

Definition bump_semver (current strategy : string) : result exn string :=
  match SEMVER_RE (strip current) with
  | None => Raise (SystemExit "Unrecognized semver in VERSION")
  | Some m =>
      bind_result (groups m) (fun v =>
      match stepped strategy v with
      | None => Raise (SystemExit "Unknown bump strategy")
      | Some v' => render v'
      end)
  end.

Definition single_step (o n : semver) : bool :=
  if (major n =? major o) && (minor n =? minor o) && (patch n =? patch o + 1) then true
  else if (major n =? major o) && (minor n =? minor o + 1) && (patch n =? 0) then true
  else (major n =? major o + 1) && (minor n =? 0) && (patch n =? 0).

Definition _is_single_step_bump (old new : string) : result exn bool :=
  if negb (str_truthy old) || negb (str_truthy new) then Ok false
  else
    match SEMVER_RE (strip old), SEMVER_RE (strip new) with
    | Some mo, Some mn => bind_result (groups mo) (fun o => bind_result (groups mn) (fun n => Ok (single_step o n)))
    | _, _ => Ok false
    end.

(** ** The files *)

Record files := Files { VERSION_FILE : option string; CHANGELOG_FILE : option string }.

(** [read_text] reads every end of line as a newline. *)
Fixpoint read_text (s : string) : string :=
  match s with
  | String c r =>
      if Ascii.eqb c "013" then
        match r with
        | String d r' => if Ascii.eqb d newline then String newline (read_text r') else String newline (read_text r)
        | EmptyString => String newline EmptyString
        end
      else String c (read_text r)
  | EmptyString => EmptyString
  end.

Definition read_version (f : files) : result exn string :=
  match VERSION_FILE f with
  | None => Raise (SystemExit "Missing VERSION file")
  | Some text => Ok (strip (read_text text))
  end.

Definition write_version (new : string) (f : files) : files := Files (Some (new +:+ String newline EmptyString)) (CHANGELOG_FILE f).

(** ** The changelog *)

Definition nl : string := String newline EmptyString.
Definition H1_BLOCK : string := "# Contracts Changelog" +:+ nl +:+ nl.

Definition release_line (version today : string) : string := "## [" +:+ version +:+ "] - " +:+ today.

Definition header_of (version today entry_text : string) : string :=
  release_line version today +:+ nl +:+ nl +:+ "### Changed" +:+ nl +:+ nl +:+ "- " +:+ entry_text +:+ nl +:+ nl.

Definition lines_of (s : string) : list string := split_on newline s.
Definition join_lines (l : list string) : string := String.concat nl l.

(** [re.search] for the line of a release. *)
Definition has_release (version text : string) : bool :=
  existsb (String.prefix ("## [" +:+ version +:+ "]")) (lines_of text).

Definition ends_with_newline (s : string) : bool :=
  match String.get (String.length s - 1) s with Some c => Ascii.eqb c newline | None => false end.

Definition blank (line : string) : bool := String.eqb (strip line) "".

(** A hash followed by white space. *)
Definition is_h1 (line : string) : bool :=
  match line with String c (String d _) => Ascii.eqb c "#" && is_space d | _ => false end.

(** Two hashes, white space, a bracket. *)
Definition is_release (line : string) : bool :=
  match line with
  | String c (String d (String e _ as r)) =>
      Ascii.eqb c "#" && Ascii.eqb d "#" && is_space e && String.prefix "[" (lstrip r)
  | _ => false
  end.

(** The first index from [i] whose line satisfies [p]. *)
Fixpoint index_from (p : string -> bool) (i : nat) (l : list string) : option nat :=
  match l with
  | [] => None
  | x :: l => if p x then Some i else index_from p (S i) l
  end.

Fixpoint rstrip_newlines (s : string) : string :=
  match s with
  | EmptyString => EmptyString
  | String c r =>
      match rstrip_newlines r with
      | EmptyString => if Ascii.eqb c newline then EmptyString else String c EmptyString
      | t => String c t
      end
  end.

(** The text has no carriage return left to replace, [read_text] saw to that.
    This is it with the new release between the top block and the releases. *)
Definition rebuilt (lines : list string) (h1_index : nat) (header : string) : string :=
  let first_release := or_else (index_from is_release (S h1_index) (drop (S h1_index) lines)) (length lines) in
  let top_block := drop h1_index (take first_release lines) in
  let releases_above := take h1_index lines in
  let releases_below := drop first_release lines in
  let gap := match last top_block with Some l => if blank l then [] else [""] | None => [""] end in
  let text := join_lines (top_block ++ gap ++ lines_of (rstrip_newlines header) ++ [""] ++ releases_above ++ releases_below) in
  if ends_with_newline text then text else text +:+ nl.

Definition prepend_changelog (today new_version entry_text : string) (f : files) : files :=
  let header := header_of new_version today entry_text in
  let old := match CHANGELOG_FILE f with Some text => read_text text | None => H1_BLOCK end in
  if has_release new_version old then f
  else
    let old := if ends_with_newline old then old else old +:+ nl in
    let lines := lines_of old in
    let first_non_blank := or_else (index_from (fun l => negb (blank l)) 0 lines) (length lines) in
    match index_from is_h1 first_non_blank (drop first_non_blank lines) with
    | None => Files (VERSION_FILE f) (Some (H1_BLOCK +:+ header +:+ old))
    | Some h1_index => Files (VERSION_FILE f) (Some (rebuilt lines h1_index header))
    end.

(** ** git *)

Section Git.
(** [_git_check_output], decoded; [None] is a [CalledProcessError]. *)
Context (_git_check_output : list string -> option string).

Definition git (args : list string) : result exn string :=
  match _git_check_output args with Some out => Ok out | None => Raise CalledProcessError end.

(** [str.splitlines]. *)
Definition is_line_end (c : ascii) : bool :=
  let n := nat_of_ascii c in ((10 <=? n) && (n <=? 13) || (28 <=? n) && (n <=? 30))%nat || (n =? 133)%nat.

Fixpoint splitlines (s : string) : list string :=
  match s with
  | EmptyString => []
  | String c r =>
      if is_line_end c then
        EmptyString ::
        match r with
        | String d r' => if Ascii.eqb c "013" && Ascii.eqb d newline then splitlines r' else splitlines r
        | EmptyString => []
        end
      else
        match splitlines r with
        | [] => [String c EmptyString]
        | line :: lines => String c line :: lines
        end
  end.

Definition named_files (out : string) : list string := List.filter (fun line => str_truthy (strip line)) (splitlines out).

Definition git_has_origin_main : bool := is_ok (git ["rev-parse"; "--verify"; "--quiet"; "origin/main"]).

Definition get_changed_contract_files_via_merge_base : result exn (list string * string) :=
  bind_result (git ["merge-base"; "HEAD"; "origin/main"]) (fun out =>
  let merge_base := strip out in
  bind_result (git ["diff"; "--name-only"; merge_base +:+ "...HEAD"; "--"; "libs/contracts"]) (fun out =>
  Ok (named_files out, merge_base))).

Definition get_staged_changed_contract_files : result exn (list string) :=
  bind_result (git ["diff"; "--name-only"; "--cached"; "--"; "libs/contracts"]) (fun out => Ok (named_files out)).

(** [f.endswith(suffix)]. *)
Definition ends_with (suffix f : string) : bool :=
  (String.length suffix <=? String.length f)%nat &&
  String.eqb (String.substring (String.length f - String.length suffix) (String.length suffix) f) suffix.

Definition contracts_python (files : list string) : bool := existsb (ends_with ".py") files.

(** A version as a tree or the index has it. *)
Definition shown (where_ : string) : option string :=
  option_map strip (_git_check_output ["show"; where_ +:+ ":libs/contracts/VERSION"]).

(** The last condition of both branches: two versions that are there and not one step apart. *)
Definition not_one_step (old new : option string) : result exn bool :=
  match old, new with
  | Some o, Some n =>
      if str_truthy o && str_truthy n then bind_result (_is_single_step_bump o n) (fun ok => Ok (negb ok)) else Ok false
  | _, _ => Ok false
  end.

(** A list of changed files and the name of the range: the verdict of a branch. *)
Definition judge (changed : list string) (range : string) (before_ after_ : string) : result exn Z :=
  if negb (contracts_python changed) then Ok 0
  else
    bind_result (git ["diff"; "--name-only"; range; "--"; "libs/contracts/VERSION"; "libs/contracts/CHANGELOG.md"]) (fun out =>
    if negb (str_truthy (strip out)) then Ok 2
    else bind_result (not_one_step (shown before_) (shown after_)) (fun bad => Ok (if bad : bool then 2 else 0))).

Definition check_mode : result exn Z :=
  let verdict :=
    bind_result get_staged_changed_contract_files (fun staged =>
    match staged with
    | _ :: _ => judge staged "--cached" "HEAD" ""
    | [] =>
        if git_has_origin_main then
          bind_result get_changed_contract_files_via_merge_base (fun '(files, merge_base) =>
          judge files (merge_base +:+ "...HEAD") merge_base "HEAD")
        else Ok 0
    end) in
  match verdict with Raise CalledProcessError => Ok 3 | r => r end.

(** Whether python files changed among the commits. *)
Definition committed_changed : bool :=
  if git_has_origin_main then
    match get_changed_contract_files_via_merge_base with Ok (files, _) => contracts_python files | Raise _ => false end
  else
    match git ["diff"; "--name-only"; "HEAD^"; "HEAD"; "--"; "libs/contracts"] with
    | Ok out => contracts_python (named_files out)
    | Raise _ => false
    end.

Definition staged_changed : bool :=
  match get_staged_changed_contract_files with Ok staged => contracts_python staged | Raise _ => false end.

Definition default_entry : string := "Automated bump from scripts/bump_contracts_version.py".

(** An entry that is [None] or empty is the default one. *)
Definition entry_of (changelog_entry : option string) : string :=
  match changelog_entry with Some e => if str_truthy e then e else default_entry | None => default_entry end.

Definition apply_bump (today strategy : string) (changelog_entry : option string) (force : bool) (f : files)
    : result exn Z * files :=
  if negb (staged_changed && committed_changed) && negb force then (Ok 2, f)
  else
    match bind_result (read_version f) (fun current => bind_result (bump_semver current strategy) (fun new => Ok (current, new))) with
    | Raise e => (Raise e, f)
    | Ok (current, new) =>
        if String.eqb new current then (Ok 0, f)
        else (Ok 0, prepend_changelog today new (entry_of changelog_entry) (write_version new f))
    end.

(** [main], with the arguments parsed. *)
Definition main (today strategy : string) (check apply force : bool) (changelog_entry : option string) (f : files)
    : result exn Z * files :=
  if check then (check_mode, f)
  else if apply then apply_bump today strategy changelog_entry force f
  else (Ok 1, f).

End Git.

End ContractVersions.

(** ** Lemmas *)

Module VersionFacts.
Import Url ContractVersions.

Lemma pretty_char_digit n : (n < 10)%N -> is_digit (pretty_N_char n) = true /\ Z.of_nat (nat_of_ascii (pretty_N_char n)) - 48 = Z.of_N n.
Proof.
  intros Hn.
  assert (forallb (fun n => is_digit (pretty_N_char n) && (Z.of_nat (nat_of_ascii (pretty_N_char n)) - 48 =? Z.of_N n))
    (map N.of_nat (seq 0 10)) = true) as Hall by reflexivity.
  rewrite forallb_forall in Hall. specialize (Hall n). rewrite andb_true_iff, Z.eqb_eq in Hall. apply Hall.
  apply in_map_iff. exists (N.to_nat n). split; [lia | apply in_seq; lia].
Qed.

Definition read_from (n : Z) (s : string) : Z :=
  foldl (fun n c => n * 10 + (Z.of_nat (nat_of_ascii c) - 48)) n (String.list_ascii_of_string s).

(** What is written of a number is read back, digit by digit. *)
Lemma pretty_N_go_read x : forall s,
  all_chars is_digit s = true ->
  all_chars is_digit (pretty_N_go x s) = true /\ read_from 0 (pretty_N_go x s) = read_from (Z.of_N x) s.
Proof.
  induction (N.lt_wf_0 x) as [x _ IH]; intros s Hs.
  assert (x = 0 \/ 0 < x)%N as [->|Hx] by lia; [done |].
  rewrite pretty_N_go_step by done.
  destruct (pretty_char_digit (x mod 10)) as [Hd Hv]; [by apply N.mod_lt |].
  destruct (IH (x `div` 10)%N) with (s := String (pretty_N_char (x mod 10)) s) as [Ha Hr]; [by apply N.div_lt | |].
  { unfold all_chars in *. cbn. by rewrite Hd, Hs. }
  split; [exact Ha |]. rewrite Hr. unfold read_from. cbn [String.list_ascii_of_string foldl]. rewrite Hv. f_equal.
  pose proof (N.div_mod x 10 ltac:(done)) as Hdm. lia.
Qed.

Lemma pretty_N_go_nonempty x s : s <> "" -> pretty_N_go x s <> "".
Proof.
  revert s. induction (N.lt_wf_0 x) as [x _ IH]; intros s Hs.
  assert (x = 0 \/ 0 < x)%N as [->|Hx] by lia; [done |].
  rewrite pretty_N_go_step by done. apply IH; [by apply N.div_lt | done].
Qed.

Lemma number_written z : 0 <= z -> digits (str_of_Z z) = true /\ digits_value (str_of_Z z) = z.
Proof.
  intros Hz. destruct z as [|p|p]; [done | |lia].
  unfold str_of_Z, pretty, pretty_Z, pretty, pretty_positive, pretty, pretty_N. case_decide; [lia |].
  destruct (pretty_N_go_read (N.pos p) "" eq_refl) as [Ha Hr]. split.
  - unfold digits. rewrite Ha, andb_true_r. rewrite pretty_N_go_step by lia.
    pose proof (pretty_N_go_nonempty (N.pos p `div` 10) (String (pretty_N_char (N.pos p mod 10)) "") ltac:(done)) as Hne.
    revert Hne. generalize (pretty_N_go (N.pos p `div` 10) (String (pretty_N_char (N.pos p mod 10)) "")). by intros [|? ?].
  - unfold digits_value. unfold read_from in Hr. rewrite Hr. done.
Qed.

Lemma all_chars_impl (p q : ascii -> bool) s : (forall c, p c = true -> q c = true) -> all_chars p s = true -> all_chars q s = true.
Proof.
  intros Hpq. unfold all_chars. induction s as [|c s IH]; [done |]. cbn. intros [Hc Hs]%andb_true_iff.
  by rewrite (Hpq c Hc), IH.
Qed.

Lemma all_chars_app p a b : all_chars p (a +:+ b) = all_chars p a && all_chars p b.
Proof. unfold all_chars. induction a as [|c a IH]; [done |]. change (String c a +:+ b) with (String c (a +:+ b)).
  cbn. by rewrite IH, andb_assoc. Qed.

Lemma is_digit_range c : is_digit c = true -> (48 <= nat_of_ascii c <= 57)%nat.
Proof. unfold is_digit. intros [H1 H2]%andb_true_iff. apply Nat.leb_le in H1, H2. lia. Qed.

Lemma free_of_chars sep s : all_chars (fun c => negb (Ascii.eqb c sep)) s = true -> free_of sep s = true.
Proof. induction s as [|c s IH]; [done |]. unfold all_chars in *. cbn. intros [Hc Hs]%andb_true_iff. by rewrite Hc, IH. Qed.

Lemma digits_free s : digits s = true -> free_of "." s = true.
Proof.
  intros [_ Hd]%andb_true_iff. apply free_of_chars. eapply all_chars_impl; [|exact Hd].
  intros c Hc%is_digit_range. apply negb_true_iff, Ascii.eqb_neq. intros ->. change (nat_of_ascii ".") with 46%nat in Hc. lia.
Qed.

Lemma lstrip_solid s : all_chars (fun c => negb (is_space c)) s = true -> lstrip s = s.
Proof. destruct s as [|c s]; [done |]. unfold all_chars. cbn. intros [Hc _]%andb_true_iff. apply negb_true_iff in Hc. by rewrite Hc. Qed.

Lemma rstrip_solid s : all_chars (fun c => negb (is_space c)) s = true -> rstrip s = s.
Proof.
  induction s as [|c s IH]; [done |]. unfold all_chars in *. cbn. intros [Hc Hs]%andb_true_iff. rewrite IH by done.
  apply negb_true_iff in Hc. destruct s; [by rewrite Hc | done].
Qed.

Lemma strip_solid s : all_chars (fun c => negb (is_space c)) s = true -> strip s = s.
Proof. intros Hs. unfold strip. by rewrite lstrip_solid, rstrip_solid. Qed.

Lemma digits_solid s : digits s = true -> all_chars (fun c => negb (is_space c)) s = true.
Proof.
  intros [_ Hd]%andb_true_iff. eapply all_chars_impl; [|exact Hd]. intros c Hc%is_digit_range. apply negb_true_iff.
  unfold is_space. set (n := nat_of_ascii c) in *.
  apply orb_false_iff; split; [apply orb_false_iff; split; [apply orb_false_iff; split; apply andb_false_iff |] |];
    rewrite ?Nat.leb_gt, ?Nat.eqb_neq; lia.
Qed.

(** ** Versions that can be written *)

Definition writable (v : semver) : Prop :=
  forall n, n ∈ [major v; minor v; patch v] -> 0 <= n /\ (String.length (str_of_Z n) <= max_digits)%nat.

Definition text_of (v : semver) : string := str_of_Z (major v) +:+ "." +:+ str_of_Z (minor v) +:+ "." +:+ str_of_Z (patch v).

Lemma py_str_small n : (String.length (str_of_Z n) <= max_digits)%nat -> py_str n = Ok (str_of_Z n).
Proof. intros Hn. unfold py_str. by destruct (Nat.ltb_spec max_digits (String.length (str_of_Z n))); [lia |]. Qed.

Lemma py_int_small n : 0 <= n -> (String.length (str_of_Z n) <= max_digits)%nat -> py_int (str_of_Z n) = Ok n.
Proof.
  intros H0n Hn. unfold py_int. destruct (Nat.ltb_spec max_digits (String.length (str_of_Z n))); [lia |].
  by rewrite (proj2 (number_written n H0n)).
Qed.

Lemma writable_parts v : writable v ->
  (0 <= major v /\ 0 <= minor v /\ 0 <= patch v) /\
  py_str (major v) = Ok (str_of_Z (major v)) /\ py_str (minor v) = Ok (str_of_Z (minor v)) /\ py_str (patch v) = Ok (str_of_Z (patch v)) /\
  py_int (str_of_Z (major v)) = Ok (major v) /\ py_int (str_of_Z (minor v)) = Ok (minor v) /\ py_int (str_of_Z (patch v)) = Ok (patch v).
Proof.
  intros Hv. unfold writable in Hv.
  destruct (Hv (major v)) as [Ha1 Ha2]; [set_solver |]. destruct (Hv (minor v)) as [Hb1 Hb2]; [set_solver |].
  destruct (Hv (patch v)) as [Hc1 Hc2]; [set_solver |].
  split; [done |]. rewrite !py_str_small, !py_int_small by done. done.
Qed.

Lemma render_writable v : writable v -> render v = Ok (text_of v).
Proof. intros Hv. destruct (writable_parts v Hv) as (_ & Ha & Hb & Hc & _). unfold render. by rewrite Ha, Hb, Hc. Qed.

Lemma render_ok v t : 0 <= major v -> 0 <= minor v -> 0 <= patch v -> render v = Ok t -> writable v /\ t = text_of v.
Proof.
  intros H0a H0b H0c. unfold render, py_str.
  destruct (Nat.ltb_spec max_digits (String.length (str_of_Z (major v)))); [done |].
  destruct (Nat.ltb_spec max_digits (String.length (str_of_Z (minor v)))); [done |].
  destruct (Nat.ltb_spec max_digits (String.length (str_of_Z (patch v)))); [done |].
  intros [= <-]. split; [|done]. intros n Hn. rewrite !elem_of_cons in Hn.
  destruct Hn as [-> | [-> | [-> | Hn]]]; [done.. | by apply not_elem_of_nil in Hn].
Qed.

Lemma text_solid v : 0 <= major v -> 0 <= minor v -> 0 <= patch v -> all_chars (fun c => negb (is_space c)) (text_of v) = true.
Proof.
  intros Ha Hb Hc. unfold text_of. rewrite !all_chars_app.
  by rewrite (digits_solid (str_of_Z (major v))), (digits_solid (str_of_Z (minor v))), (digits_solid (str_of_Z (patch v))) by (by apply number_written).
Qed.

Lemma semver_of_text v : 0 <= major v -> 0 <= minor v -> 0 <= patch v ->
  SEMVER_RE (strip (text_of v)) = Some (str_of_Z (major v), str_of_Z (minor v), str_of_Z (patch v)).
Proof.
  intros Ha Hb Hc. rewrite strip_solid by (by apply text_solid). unfold SEMVER_RE, text_of.
  change ("." +:+ str_of_Z (minor v) +:+ "." +:+ str_of_Z (patch v)) with (String "." (str_of_Z (minor v) +:+ String "." (str_of_Z (patch v)))).
  rewrite !split_on_app, !split_on_free by (by apply digits_free, number_written). cbn [app].
  by rewrite (proj1 (number_written _ Ha)), (proj1 (number_written _ Hb)), (proj1 (number_written _ Hc)).
Qed.

Lemma parse_text v : writable v -> exists m, SEMVER_RE (strip (text_of v)) = Some m /\ groups m = Ok v.
Proof.
  intros Hv. destruct (writable_parts v Hv) as ((Ha & Hb & Hc) & _ & _ & _ & Hia & Hib & Hic).
  eexists. split; [by apply semver_of_text |]. cbn. rewrite Hia, Hib, Hic. by destruct v.
Qed.

Lemma text_truthy v : str_truthy (text_of v) = true.
Proof. unfold text_of. by destruct (str_of_Z (major v)). Qed.

(** *** The three strategies *)

Definition strategies : list string := ["patch"; "minor"; "major"].

(** The steps in the order of what they raise. *)
Definition rank (strategy : string) : nat :=
  if String.eqb strategy "patch" then 0%nat else if String.eqb strategy "minor" then 1%nat else 2%nat.

Lemma stepped_known strategy v : strategy ∈ strategies <-> is_Some (stepped strategy v).
Proof.
  unfold strategies, stepped. rewrite !elem_of_cons, elem_of_nil. split.
  - intros [-> | [-> | [-> | []]]]; cbn; eauto.
  - repeat case_match; rewrite ?String.eqb_eq in *; try tauto. by intros [? ?].
Qed.

Lemma single_step_stepped o n : single_step o n = true <-> exists strategy, stepped strategy o = Some n.
Proof.
  destruct o as [a b c], n as [a' b' c']. unfold single_step. cbn. split.
  - intros Hs.
    destruct ((a' =? a) && (b' =? b) && (c' =? c + 1)) eqn:Hp.
    { exists "patch". cbn. do 2 f_equal; lia. }
    destruct ((a' =? a) && (b' =? b + 1) && (c' =? 0)) eqn:Hm.
    { exists "minor". cbn. do 2 f_equal; lia. }
    exists "major". cbn. do 2 f_equal; lia.
  - intros [strategy Hst]. unfold stepped in Hst. cbn in Hst.
    repeat case_match; simplify_eq; rewrite ?andb_true_iff, ?andb_false_iff, ?Z.eqb_eq, ?Z.eqb_neq in *; lia.
Qed.

(** One step after another is one step exactly where the second is of a higher kind. *)
Lemma two_steps v s1 s2 v1 v2 :
  0 <= minor v -> 0 <= patch v ->
  stepped s1 v = Some v1 -> stepped s2 v1 = Some v2 -> single_step v v2 = (rank s1 <? rank s2)%nat.
Proof.
  destruct v as [a b c]. unfold stepped, rank, single_step. cbn. intros Hb Hc.
  destruct (String.eqb s1 "patch"), (String.eqb s1 "minor"), (String.eqb s1 "major"); intros [= <-];
    destruct (String.eqb s2 "patch"), (String.eqb s2 "minor"), (String.eqb s2 "major"); intros [= <-]; cbn;
    repeat match goal with |- context [?x =? ?y] => destruct (Z.eqb_spec x y); cbn end; try done; lia.
Qed.

End VersionFacts.

Module ChangelogFacts.
Import ContractVersions.

Lemma prefix_of_append (p s : string) : String.prefix p (p +:+ s) = true.
Proof.
  induction p as [|c p IH]; [by destruct s |]. change (String.prefix (String c p) (String c (p +:+ s)) = true). cbn.
  destruct (ascii_dec c c); [done | congruence].
Qed.

Lemma lines_free s : Forall (fun l => free_of newline l = true) (lines_of s).
Proof.
  unfold lines_of. induction s as [|c s IH]; cbn; [by repeat constructor |].
  destruct (split_on_cons newline s) as (l & ls & Hs). rewrite Hs in *.
  inversion IH as [|? ? Hl Hls]; subst. destruct (Ascii.eqb c newline) eqn:Hc; [by constructor |].
  constructor; [|done]. cbn. by rewrite Hc, Hl.
Qed.

Lemma lines_nonempty s : lines_of s <> [].
Proof. unfold lines_of. destruct (split_on_cons newline s) as (w & ws & ->). done. Qed.

Lemma lines_newline a b : lines_of (a +:+ nl +:+ b) = lines_of a ++ lines_of b.
Proof. apply split_on_app. Qed.

Lemma lines_end a : lines_of (a +:+ nl) = lines_of a ++ [""].
Proof. apply (lines_newline a ""). Qed.

Lemma lines_join l : l <> [] -> Forall (fun a => free_of newline a = true) l -> lines_of (join_lines l) = l.
Proof. apply split_on_concat. Qed.

Definition content (l : list string) : list string := List.filter (fun x => negb (blank x)) l.

Lemma content_app a b : content (a ++ b) = content a ++ content b.
Proof. apply List.filter_app. Qed.

Lemma lines_ended s : exists k, lines_of (if ends_with_newline s then s else s +:+ nl) = lines_of s ++ replicate k "".
Proof. destruct (ends_with_newline s); [exists 0%nat; by rewrite app_nil_r | exists 1%nat; apply lines_end]. Qed.

Lemma blanks_content k : content (replicate k "") = [].
Proof. by induction k. Qed.

(** *** Carriage returns *)

Lemma free_of_both sep a b : free_of sep (a +:+ b) = free_of sep a && free_of sep b.
Proof.
  induction a as [|c a IH]; [done |]. change (String c a +:+ b) with (String c (a +:+ b)). cbn. by rewrite IH, andb_assoc.
Qed.

Lemma free_of_append sep a b : free_of sep a = true -> free_of sep b = true -> free_of sep (a +:+ b) = true.
Proof. intros Ha Hb. by rewrite free_of_both, Ha. Qed.

(** A text without carriage returns is read as it was written. *)
Lemma read_text_clean s : free_of "013" s = true -> read_text s = s.
Proof. induction s as [|c s IH]; [done |]. cbn. intros [Hc Hs]%andb_true_iff. apply negb_true_iff in Hc. by rewrite Hc, IH. Qed.

Lemma read_text_free s : free_of "013" (read_text s) = true.
Proof.
  enough (forall n s, (String.length s <= n)%nat -> free_of "013" (read_text s) = true) as Hn by by apply (Hn (String.length s)).
  induction n as [|n IH]; intros [|c r] Hl; cbn in *; try done; [lia |].
  destruct (Ascii.eqb_spec c "013") as [->|Hc].
  - destruct r as [|d r']; [done |]. destruct (Ascii.eqb d newline); [apply (IH r') | apply (IH (String d r'))]; cbn in *; lia.
  - cbn. rewrite IH by lia. rewrite andb_true_r. by apply negb_true_iff, Ascii.eqb_neq.
Qed.

Lemma lines_clean s : free_of "013" s = true -> Forall (fun l => free_of "013" l = true) (lines_of s).
Proof.
  unfold lines_of. induction s as [|c s IH]; cbn; [by repeat constructor |]. intros [Hc Hs]%andb_true_iff.
  destruct (split_on_cons newline s) as (l & ls & Hl). rewrite Hl in *. specialize (IH Hs).
  inversion IH as [|? ? Hl1 Hls]; subst. destruct (Ascii.eqb c newline); constructor; try done. cbn. by rewrite Hc.
Qed.

Lemma join_clean l : Forall (fun l => free_of "013" l = true) l -> free_of "013" (join_lines l) = true.
Proof.
  induction 1 as [|x l Hx Hl IH]; [done |]. destruct l as [|y l]; [done |].
  change (join_lines (x :: y :: l)) with (x +:+ nl +:+ join_lines (y :: l)). by rewrite free_of_both, Hx.
Qed.

Lemma end_clean s : free_of "013" s = true -> free_of "013" (if ends_with_newline s then s else s +:+ nl) = true.
Proof. intros Hs. destruct (ends_with_newline s); [done |]. by rewrite free_of_both, Hs. Qed.

(** *** The header *)

Fixpoint newlines (k : nat) : string := match k with O => EmptyString | S k => String newline (newlines k) end.

Lemma rstrip_split s : exists k, s = rstrip_newlines s +:+ newlines k.
Proof.
  induction s as [|c s [k IH]]; [by exists 0%nat |]. cbn [rstrip_newlines].
  destruct (rstrip_newlines s) as [|d t].
  - destruct (Ascii.eqb_spec c newline) as [->|Hc].
    + exists (S k). cbn. by rewrite IH at 1.
    + exists k. rewrite IH at 1. done.
  - exists k. rewrite IH at 1. done.
Qed.

Lemma lines_newlines a k : lines_of (a +:+ newlines k) = lines_of a ++ replicate k "".
Proof.
  revert a. induction k as [|k IH]; intros a; cbn [newlines replicate].
  - rewrite app_nil_r. f_equal. induction a as [|c a IH]; [done |]. change (String c (a +:+ "") = String c a). by rewrite IH.
  - change (String newline (newlines k)) with (nl +:+ newlines k). rewrite lines_newline. f_equal.
    specialize (IH ""). change ("" +:+ newlines k) with (newlines k) in IH. rewrite IH. done.
Qed.

Lemma release_line_first version today rest :
  free_of newline version = true -> free_of newline today = true ->
  lines_of (release_line version today +:+ nl +:+ rest) = release_line version today :: lines_of rest.
Proof.
  intros Hv Ht. rewrite lines_newline. unfold lines_of at 1. rewrite split_on_free; [done |].
  unfold release_line. by repeat apply free_of_append.
Qed.

Lemma header_lines version today entry :
  free_of newline version = true -> free_of newline today = true ->
  exists rest, lines_of (rstrip_newlines (header_of version today entry)) = release_line version today :: rest /\
    content (lines_of (rstrip_newlines (header_of version today entry))) = content (lines_of (header_of version today entry)).
Proof.
  intros Hv Ht. set (h := header_of version today entry).
  assert (exists r, lines_of h = release_line version today :: r) as [r Hr] by (eexists; by apply release_line_first).
  destruct (rstrip_split h) as [k Hk].
  pose proof (lines_newlines (rstrip_newlines h) k) as Hl. rewrite <- Hk in Hl.
  destruct (lines_of (rstrip_newlines h)) as [|x rest] eqn:Hrest; [by destruct (lines_nonempty (rstrip_newlines h)) |].
  exists rest. rewrite Hl in Hr. cbn in Hr. injection Hr as -> _. split; [done |].
  by rewrite Hl, content_app, blanks_content, app_nil_r.
Qed.

(** *** Where the new release goes *)

Lemma index_from_spec p l : forall i,
  match index_from p i l with
  | Some j => exists k x, j = (i + k)%nat /\ l !! k = Some x /\ p x = true /\ Forall (fun y => p y = false) (take k l)
  | None => Forall (fun y => p y = false) l
  end.
Proof.
  induction l as [|y l IH]; intros i; cbn; [done |]. destruct (p y) eqn:Hy.
  - exists 0%nat, y. split; [lia |]. done.
  - specialize (IH (S i)). destruct (index_from p (S i) l) as [j|]; [|by constructor].
    destruct IH as (k & x & -> & Hx & Hp & Hb). exists (S k), x. split; [lia |]. cbn. split; [done |]. split; [done |]. by constructor.
Qed.

Lemma h1_no_release l : is_h1 l = true -> is_release l = false.
Proof.
  destruct l as [|c [|d [|e r]]]; try done. cbn. intros [_ Hd]%andb_true_iff.
  destruct (Ascii.eqb_spec d "#") as [->|_]; [done |]. by rewrite andb_false_r.
Qed.

Lemma release_line_is_release version today : is_release (release_line version today) = true.
Proof.
  change (release_line version today) with (String "#" (String "#" (String " " (String "[" (version +:+ "] - " +:+ today))))).
  generalize (version +:+ "] - " +:+ today). cbn. by intros [].
Qed.

Lemma find_skip {A} (p : A -> bool) a b : Forall (fun x => p x = false) a -> List.find p (a ++ b) = List.find p b.
Proof. induction 1 as [|x a Hx Ha IH]; [done |]. cbn. by rewrite Hx. Qed.

Lemma top_block_plain lines h fr l :
  lines !! h = Some l -> is_h1 l = true ->
  fr = or_else (index_from is_release (S h) (drop (S h) lines)) (length lines) ->
  Forall (fun l => is_release l = false) (drop h (take fr lines)) /\ (h <= fr)%nat.
Proof.
  intros Hl Hh Hfr. pose proof (lookup_lt_Some _ _ _ Hl) as Hlt.
  pose proof (index_from_spec is_release (drop (S h) lines) (S h)) as Hi.
  rewrite skipn_firstn_comm, (drop_S _ _ _ Hl).
  destruct (index_from is_release (S h) (drop (S h) lines)) as [j|]; cbn [or_else] in Hfr; subst fr.
  - destruct Hi as (k & x & -> & _ & _ & Hb). split; [|lia]. replace (S h + k - h)%nat with (S k) by lia.
    cbn [take firstn]. constructor; [by apply h1_no_release | done].
  - split; [|lia]. replace (length lines - h)%nat with (S (length lines - S h)) by lia.
    cbn [take firstn]. constructor; [by apply h1_no_release |]. by apply Forall_take.
Qed.

Lemma in_order lines h fr : (h <= fr)%nat ->
  content (drop h (take fr lines)) ++ content (take h lines) ++ content (drop fr lines) ≡ₚ content lines.
Proof.
  intros Hle. rewrite app_assoc, (Permutation_app_comm (content (drop h (take fr lines)))).
  rewrite <- !content_app. rewrite <- (take_drop fr lines) at 4.
  assert (take h lines = take h (take fr lines)) as -> by (by rewrite take_take, Nat.min_l).
  by rewrite take_drop.
Qed.

Lemma find_h1 lines h : let f := or_else (index_from (fun l => negb (blank l)) 0 lines) (length lines) in
  index_from is_h1 f (drop f lines) = Some h -> exists l, lines !! h = Some l /\ is_h1 l = true.
Proof.
  intros f Hi. pose proof (index_from_spec is_h1 (drop f lines) f) as Hs. rewrite Hi in Hs.
  destruct Hs as (k & x & -> & Hx & Hp & _). exists x. rewrite lookup_drop in Hx. done.
Qed.

Lemma hash_solid t : String.eqb (strip (String "#" t)) "" = false.
Proof.
  change (strip (String "#" t)) with (match rstrip t with EmptyString => String "#" "" | u => String "#" u end).
  by destruct (rstrip t).
Qed.

(** Above the first line that is not blank there is no heading either. *)
Lemma no_h1 lines : let f := or_else (index_from (fun l => negb (blank l)) 0 lines) (length lines) in
  index_from is_h1 f (drop f lines) = None -> Forall (fun l => is_h1 l = false) lines.
Proof.
  intros f Hi. pose proof (index_from_spec is_h1 (drop f lines) f) as Hs. rewrite Hi in Hs.
  rewrite <- (take_drop f lines). apply Forall_app; split; [|done].
  pose proof (index_from_spec (fun l => negb (blank l)) lines 0) as Hb. unfold f.
  assert (forall l, negb (blank l) = false -> is_h1 l = false) as Hno.
  { intros [|c [|d r]] Hl; try done. cbn. destruct (Ascii.eqb_spec c "#") as [->|]; [|done].
    apply negb_false_iff in Hl. unfold blank in Hl. by rewrite hash_solid in Hl. }
  destruct (index_from _ 0 lines) as [j|]; cbn [or_else].
  - destruct Hb as (k & x & -> & _ & _ & Hb). cbn. eapply List.Forall_impl; [|exact Hb]. apply Hno.
  - apply Forall_take. eapply List.Forall_impl; [|exact Hb]. apply Hno.
Qed.


(** *** The text written *)

Definition text_before (f : files) : string := match CHANGELOG_FILE f with Some text => read_text text | None => H1_BLOCK end.

(** The lines of the rebuilt text and what they hold. *)
Lemma rebuilt_lines lines h l version today entry :
  lines !! h = Some l -> is_h1 l = true -> Forall (fun a => free_of newline a = true) lines ->
  free_of newline version = true -> free_of newline today = true ->
  let text := rebuilt lines h (header_of version today entry) in
  content (lines_of text) ≡ₚ content lines ++ content (lines_of (header_of version today entry)) /\
  List.find is_release (lines_of text) = Some (release_line version today).
Proof.
  intros Hl Hh Hfree Hv Ht. unfold rebuilt.
  set (fr := or_else _ (length lines)).
  destruct (top_block_plain lines h fr l Hl Hh eq_refl) as [Htop Hle].
  destruct (header_lines version today entry Hv Ht) as (rest & Hhead & Hcont).
  set (top := drop h (take fr lines)) in *.
  set (gap := match last top with Some l => if blank l then [] else [""] | None => [""] end).
  assert (gap = [] \/ gap = [""]) as Hgap by (unfold gap; repeat case_match; auto).
  set (text := join_lines _).
  assert (lines_of text = top ++ gap ++ lines_of (rstrip_newlines (header_of version today entry)) ++ [""] ++ take h lines ++ drop fr lines) as Hlines.
  { apply lines_join; [intros (_ & (_ & Hn%app_eq_nil)%app_eq_nil)%app_eq_nil; by destruct Hn |].
    rewrite !Forall_app. repeat split; try by (repeat first [apply Forall_drop | apply Forall_take]).
    - by destruct Hgap as [-> | ->]; repeat constructor.
    - apply lines_free.
    - by repeat constructor. }
  destruct (lines_ended text) as [k Hk]. cbn zeta in *. rewrite Hk, Hlines. split.
  - rewrite !content_app, blanks_content, app_nil_r, Hcont.
    assert (content gap = []) as -> by (by destruct Hgap as [-> | ->]). change (content [""]) with (@nil string). cbn [app].
    rewrite <- (in_order lines h fr Hle). fold top. solve_Permutation.
  - rewrite <- !app_assoc, (find_skip _ top) by done.
    assert (Forall (fun l => is_release l = false) gap) as Hng by (destruct Hgap as [-> | ->]; repeat constructor).
    rewrite (find_skip _ gap _ Hng), Hhead. cbn [app List.find]. by rewrite release_line_is_release.
Qed.

End ChangelogFacts.

(** ** Theorems *)

Module VersionTheorems.
Import ContractVersions VersionFacts ChangelogFacts.

Definition text_after (f : files) : string := from_option id "" (CHANGELOG_FILE f).

Lemma changelog_kept (today version entry : string) (f : files) :
  has_release version (text_before f) = false -> free_of newline version = true -> free_of newline today = true ->
  let text := text_after (prepend_changelog today version entry f) in
  content (lines_of text) ≡ₚ
    (if existsb is_h1 (lines_of (text_before f)) then [] else ["# Contracts Changelog"]) ++
    content (lines_of (text_before f)) ++ content (lines_of (header_of version today entry)) /\
  List.find is_release (lines_of text) = Some (release_line version today).
Proof.
  intros Hno Hv Ht. unfold prepend_changelog. fold (text_before f). rewrite Hno.
  destruct (lines_ended (text_before f)) as [k Hk]. set (old := if ends_with_newline (text_before f) then _ else _) in *.
  destruct (index_from is_h1 _ _) as [h|] eqn:Hi.
  - apply find_h1 in Hi as (l & Hl & Hh). unfold text_after. cbn [CHANGELOG_FILE from_option].
    destruct (rebuilt_lines (lines_of old) h l version today entry Hl Hh (lines_free old) Hv Ht) as [Hp Hf].
    split; [|exact Hf]. unfold id. rewrite Hp, Hk, content_app, blanks_content, app_nil_r.
    assert (existsb is_h1 (lines_of (text_before f)) = true) as ->; [|done].
    apply existsb_exists. exists l. split; [|done]. rewrite Hk in Hl. apply lookup_app_Some in Hl as [Hl|[_ Hl]].
    + apply list_elem_of_In. by eapply list_elem_of_lookup_2.
    + apply list_elem_of_lookup_2, elem_of_replicate_inv in Hl. subst l. done.
  - apply no_h1 in Hi. unfold text_after. cbn [CHANGELOG_FILE from_option id].
    assert (existsb is_h1 (lines_of (text_before f)) = false) as ->.
    { apply not_true_is_false. intros (l & Hl & Hh)%existsb_exists. rewrite Hk, Forall_app in Hi. destruct Hi as [Hi _].
      rewrite List.Forall_forall in Hi. by rewrite Hi in Hh. }
    change (H1_BLOCK +:+ header_of version today entry +:+ old)
      with ("# Contracts Changelog" +:+ nl +:+ ("" +:+ nl +:+ (header_of version today entry +:+ old))).
    rewrite !lines_newline.
    set (body := release_line version today +:+ nl +:+ nl +:+ "### Changed" +:+ nl +:+ nl +:+ "- " +:+ entry +:+ nl).
    assert (header_of version today entry = body +:+ nl) as Hr by (unfold body, header_of; by rewrite !append_assoc).
    rewrite Hr, append_assoc, lines_newline, lines_end, Hk. split.
    + rewrite !content_app, blanks_content. cbn. rewrite !app_nil_r. solve_Permutation.
    + rewrite (find_skip is_release (lines_of "# Contracts Changelog")) by (by repeat constructor).
      rewrite (find_skip is_release (lines_of "")) by (by repeat constructor).
      unfold body. rewrite release_line_first by done. cbn [app List.find]. by rewrite release_line_is_release.
Qed.

(** A new release enters the changelog without loss: the lines of the new text that are
    not blank are, up to their order, those of the old text and of the release (with a
    heading where the old text has none), and the first release a reader meets is the new
    one. *)
Theorem changelog_gains_one_release (today version entry : string) (f : files) :
  has_release version (text_before f) = false -> free_of newline version = true -> free_of newline today = true ->
  let text := text_after (prepend_changelog today version entry f) in
  content (lines_of text) ≡ₚ
    (if existsb is_h1 (lines_of (text_before f)) then [] else ["# Contracts Changelog"]) ++
    content (lines_of (text_before f)) ++ content (lines_of (header_of version today entry)) /\
  List.find is_release (lines_of text) = Some (release_line version today).
Proof. apply changelog_kept. Qed.

Lemma has_release_line version today l : release_line version today ∈ l -> existsb (String.prefix ("## [" +:+ version +:+ "]")) l = true.
Proof.
  intros Hl. apply existsb_exists. exists (release_line version today). split; [by apply list_elem_of_In |].
  assert (release_line version today = ("## [" +:+ version +:+ "]") +:+ (" - " +:+ today)) as ->
    by (unfold release_line; by rewrite !append_assoc).
  apply prefix_of_append.
Qed.

Lemma rstrip_newlines_clean s : free_of "013" s = true -> free_of "013" (rstrip_newlines s) = true.
Proof. intros Hs. destruct (rstrip_split s) as [k Hk]. rewrite Hk, free_of_both in Hs. by apply andb_true_iff in Hs as [? _]. Qed.

Lemma header_clean version today entry :
  free_of "013" (version +:+ today +:+ entry) = true -> free_of "013" (header_of version today entry) = true.
Proof.
  rewrite !free_of_both. intros [Hv [Ht He]%andb_true_iff]%andb_true_iff. unfold header_of, release_line.
  by rewrite !free_of_both, Hv, Ht, He.
Qed.

Lemma prepend_clean today version entry f :
  free_of "013" (version +:+ today +:+ entry) = true -> has_release version (text_before f) = false ->
  exists text, CHANGELOG_FILE (prepend_changelog today version entry f) = Some text /\ free_of "013" text = true.
Proof.
  intros Hcr%header_clean Hno. unfold prepend_changelog. fold (text_before f). rewrite Hno.
  assert (free_of "013" (text_before f) = true) as Hold%end_clean.
  { unfold text_before. destruct (CHANGELOG_FILE f); [apply read_text_free | done]. }
  destruct (index_from is_h1 _ _) as [h|]; eexists; (split; [reflexivity |]).
  - unfold rebuilt. apply end_clean, join_clean. rewrite !Forall_app. apply lines_clean in Hold.
    repeat split; try by (repeat first [apply Forall_drop | apply Forall_take]).
    + repeat case_match; by repeat constructor.
    + by apply lines_clean, rstrip_newlines_clean.
    + by repeat constructor.
  - by rewrite !free_of_both, Hcr, Hold.
Qed.

(** A second run for the same release, whatever its date and its entry, leaves the
    changelog as it is. *)
Theorem changelog_prepend_once (today today' version entry entry' : string) (f : files) :
  free_of "013" (version +:+ today +:+ entry) = true -> free_of newline version = true -> free_of newline today = true ->
  has_release version (text_before f) = false ->
  let f' := prepend_changelog today version entry f in
  f' <> f /\ prepend_changelog today' version entry' f' = f'.
Proof.
  intros Hcr Hv Ht Hno f'.
  destruct (changelog_kept today version entry f Hno Hv Ht) as [_ Hf]. fold f' in Hf.
  assert (has_release version (text_after f') = true) as Hin.
  { apply (has_release_line version today). apply find_some in Hf as [Hin _]. by apply list_elem_of_In. }
  destruct (prepend_clean today version entry f Hcr Hno) as (text & Htext & Hclean). fold f' in Htext.
  assert (text_before f' = text) as Hb by (unfold text_before; rewrite Htext; by apply read_text_clean).
  assert (text_after f' = text) as Ha by (unfold text_after; by rewrite Htext).
  split.
  - intros Heq. rewrite <- Heq in Hno. rewrite Hb, <- Ha, Hin in Hno. done.
  - unfold prepend_changelog at 1. fold (text_before f'). by rewrite Hb, <- Ha, Hin.
Qed.

(** *** Steps *)

Lemma single_step_bumps o n :
  writable o -> writable n ->
  single_step o n = true <-> exists strategy, strategy ∈ strategies /\ bump_semver (text_of o) strategy = Ok (text_of n).
Proof.
  intros Ho Hn. destruct (parse_text o Ho) as (mo & Hmo & Hgo). destruct (parse_text n Hn) as (mn & Hmn & Hgn).
  unfold bump_semver. rewrite Hmo, Hgo. cbn [bind_result].
  destruct (writable_parts o Ho) as ((Ha & Hb & Hc) & _). rewrite single_step_stepped.
  split.
  - intros [strategy Hs]. exists strategy. rewrite Hs. split; [by apply (stepped_known strategy o) |].
    by apply render_writable.
  - intros (strategy & Hk & Hr). apply (stepped_known _ o) in Hk as [v Hv]. rewrite Hv in Hr.
    exists strategy. rewrite Hv. f_equal.
    apply render_ok in Hr as [Hw Heq]; [| by (unfold stepped in Hv; repeat case_match; simplify_eq; cbn; lia)..].
    destruct (parse_text v Hw) as (mv & Hmv & Hgv). rewrite <- Heq, Hmn in Hmv. congruence.
Qed.

Lemma single_step_ok o n : writable o -> writable n -> _is_single_step_bump (text_of o) (text_of n) = Ok (single_step o n).
Proof.
  intros Ho Hn. destruct (parse_text o Ho) as (mo & Hmo & Hgo). destruct (parse_text n Hn) as (mn & Hmn & Hgn).
  unfold _is_single_step_bump. by rewrite !text_truthy, Hmo, Hmn, Hgo, Hgn.
Qed.

(** For versions that can be written, one is a single step after another exactly where
    it is what the bump of some strategy makes of it. *)
Theorem single_step_iff_bump (o n : semver) :
  writable o -> writable n ->
  _is_single_step_bump (text_of o) (text_of n) = Ok true <->
  exists strategy, strategy ∈ strategies /\ bump_semver (text_of o) strategy = Ok (text_of n).
Proof.
  intros Ho Hn. rewrite single_step_ok, <- single_step_bumps by done. split; [by intros [=] | by intros ->].
Qed.

End VersionTheorems.

(** ** The gate *)

Module GateTheorems.
Import Url ContractVersions VersionFacts ChangelogFacts VersionTheorems.

Section Gate.
Context (git : list string -> option string).

Definition versions_diff (range : string) : option string :=
  git ["diff"; "--name-only"; range; "--"; "libs/contracts/VERSION"; "libs/contracts/CHANGELOG.md"].

(** The verdict where python files changed and a version is on both sides. *)
Lemma judge_versions changed range b a out o n :
  contracts_python changed = true -> versions_diff range = Some out -> writable o -> writable n ->
  shown git b = Some (text_of o) -> shown git a = Some (text_of n) ->
  judge git changed range b a = Ok (if str_truthy (strip out) && single_step o n then 0 else 2).
Proof.
  intros Hp Hd Ho Hn Hb Ha. unfold judge. rewrite Hp. unfold ContractVersions.git. unfold versions_diff in Hd. rewrite Hd. cbn [negb bind_result].
  destruct (str_truthy (strip out)); [|done]. cbn [negb andb]. unfold not_one_step. rewrite Hb, Ha, !text_truthy. cbn [andb].
  rewrite single_step_ok by done. cbn [bind_result]. by destruct (single_step o n).
Qed.

(** The check of a commit that stages python files of the contracts, with a version at
    HEAD and in the index, passes exactly where VERSION or CHANGELOG.md is staged and the
    version in the index is a bump of the one at HEAD, and gives 2 otherwise: an entry in
    the changelog alone is refused, a version alone accepted.  An index without the file
    passes. *)
Theorem commit_gate (staged : list string) (out : string) (o n : semver) :
  get_staged_changed_contract_files git = Ok staged -> contracts_python staged = true ->
  versions_diff "--cached" = Some out -> writable o -> writable n ->
  shown git "HEAD" = Some (text_of o) ->
  (shown git "" = Some (text_of n) ->
   (check_mode git = Ok 0 <->
      str_truthy (strip out) = true /\ exists strategy, strategy ∈ strategies /\ bump_semver (text_of o) strategy = Ok (text_of n)) /\
   (check_mode git = Ok 0 \/ check_mode git = Ok 2)) /\
  (shown git "" = None -> str_truthy (strip out) = true -> check_mode git = Ok 0).
Proof.
  intros Hs Hp Hd Ho Hn Hh.
  assert (check_mode git = match judge git staged "--cached" "HEAD" "" with Raise CalledProcessError => Ok 3 | r => r end) as Hc.
  { unfold check_mode. rewrite Hs. cbn [bind_result]. destruct staged; [discriminate Hp |]. by destruct (judge _ _ _ _ _) as [?|[]]. }
  split.
  - intros Hi. rewrite Hc, (judge_versions staged "--cached" "HEAD" "" out o n) by done. split.
    + rewrite <- single_step_bumps by done.
      destruct (str_truthy (strip out)), (single_step o n); cbn; split; intros Hx; try done; try (by destruct Hx).
    + destruct (_ && _); auto.
  - intros Hi Ht. rewrite Hc. unfold judge. rewrite Hp. unfold ContractVersions.git. unfold versions_diff in Hd. rewrite Hd.
    cbn [negb bind_result]. rewrite Ht. unfold not_one_step. rewrite Hh, Hi. done.
Qed.

(** Two commits that each bump the version, as the check of each demands, do not make a
    branch that passes: the check of the branch accepts them exactly where the second is of
    a higher kind, patch below minor below major, and gives 2 otherwise. *)
Theorem branch_gate_against_commits (s1 s2 : string) (v v1 v2 : semver) (merge_base out : string) (files : list string) :
  writable v -> writable v1 -> writable v2 ->
  stepped s1 v = Some v1 -> stepped s2 v1 = Some v2 ->
  get_staged_changed_contract_files git = Ok [] -> git_has_origin_main git = true ->
  get_changed_contract_files_via_merge_base git = Ok (files, merge_base) -> contracts_python files = true ->
  versions_diff (merge_base +:+ "...HEAD") = Some out -> str_truthy (strip out) = true ->
  shown git merge_base = Some (text_of v) -> shown git "HEAD" = Some (text_of v2) ->
  _is_single_step_bump (text_of v) (text_of v1) = Ok true /\ _is_single_step_bump (text_of v1) (text_of v2) = Ok true /\
  check_mode git = Ok (if (rank s1 <? rank s2)%nat then 0 else 2).
Proof.
  intros Hv Hv1 Hv2 Hs1 Hs2 Hst Hm Hf Hp Hd Ht Hb Ha. rewrite !single_step_ok by done.
  split; [f_equal; apply single_step_stepped; by exists s1 |]. split; [f_equal; apply single_step_stepped; by exists s2 |].
  unfold check_mode. rewrite Hst, Hm, Hf. cbn [bind_result].
  rewrite (judge_versions files _ _ _ out v v2) by done. rewrite Ht. cbn [andb].
  destruct (writable_parts v Hv) as ((_ & ? & ?) & _). by rewrite (two_steps v s1 s2 v1 v2).
Qed.

End Gate.

(** *** The bump *)

Lemma stepped_differs strategy v v' : writable v -> writable v' -> stepped strategy v = Some v' -> text_of v' <> text_of v.
Proof.
  intros Hv Hv' Hs Heq. destruct (parse_text v Hv) as (m & Hm & Hg). destruct (parse_text v' Hv') as (m' & Hm' & Hg').
  rewrite Heq in Hm'. assert (v' = v) as -> by congruence. clear - Hs. destruct v as [a b c]. unfold stepped in Hs. cbn in Hs.
  repeat case_match; simplify_eq/=; lia.
Qed.

Lemma rstrip_newline s : all_chars (fun c => negb (is_space c)) s = true -> rstrip (s +:+ nl) = s.
Proof.
  induction s as [|c s IH]; [done |]. change (String c s +:+ nl) with (String c (s +:+ nl)). unfold all_chars in *. cbn.
  intros [Hc Hs]%andb_true_iff. rewrite IH by done. apply negb_true_iff in Hc. destruct s; [by rewrite Hc | done].
Qed.

Lemma text_free v sep : 0 <= major v -> 0 <= minor v -> 0 <= patch v -> is_space sep = true -> free_of sep (text_of v) = true.
Proof.
  intros Ha Hb Hc Hsep. apply free_of_chars. eapply all_chars_impl; [|by apply text_solid].
  intros c Hs. apply negb_true_iff, Ascii.eqb_neq. intros ->. by rewrite Hsep in Hs.
Qed.

Lemma version_read_back v f : writable v -> read_version (write_version (text_of v) f) = Ok (text_of v).
Proof.
  intros Hv. destruct (writable_parts v Hv) as ((Ha & Hb & Hc) & _).
  unfold read_version, write_version. cbn [VERSION_FILE]. change (String newline EmptyString) with nl. f_equal.
  rewrite read_text_clean by (by rewrite free_of_both, text_free).
  unfold strip. assert (lstrip (text_of v +:+ nl) = text_of v +:+ nl) as ->.
  { pose proof (text_solid v Ha Hb Hc) as Hs. pose proof (text_truthy v) as Ht. destruct (text_of v) as [|c s]; [done |].
    change (String c s +:+ nl) with (String c (s +:+ nl)). unfold all_chars in Hs. cbn in Hs |- *.
    apply andb_true_iff in Hs as [Hs%negb_true_iff _]. by rewrite Hs. }
  by apply rstrip_newline, text_solid.
Qed.

Lemma prepend_version today version entry f : VERSION_FILE (prepend_changelog today version entry f) = VERSION_FILE f.
Proof. unfold prepend_changelog. by repeat case_match. Qed.

Lemma prepend_has_release today version entry f :
  free_of "013" (version +:+ today +:+ entry) = true -> free_of newline version = true -> free_of newline today = true ->
  has_release version (text_before (prepend_changelog today version entry f)) = true.
Proof.
  intros Hcr Hv Ht. destruct (has_release version (text_before f)) eqn:Hh.
  { unfold prepend_changelog. fold (text_before f). by rewrite !Hh. }
  destruct (changelog_kept today version entry f Hh Hv Ht) as [_ Hf].
  destruct (prepend_clean today version entry f Hcr Hh) as (text & Htext & Hclean).
  unfold text_after in Hf. unfold text_before. rewrite Htext in *. rewrite read_text_clean by done.
  apply (has_release_line version today). apply find_some in Hf as [Hin _]. by apply list_elem_of_In.
Qed.

(** A bump is applied exactly when asked by force or where python files are both staged
    and committed.  Applied to a version that can be written it leaves the stepped version,
    which the check accepts as one step, and its release in the changelog; where there is
    no version to read, it raises and leaves both files. *)
Theorem bump_applies (git : list string -> option string) (today strategy : string) (entry : option string) (force : bool) (f : files) (v v' : semver) :
  writable v -> writable v' -> stepped strategy v = Some v' -> free_of "013" (today +:+ entry_of entry) = true ->
  free_of newline today = true ->
  let '(r, f') := apply_bump git today strategy entry force f in
  (staged_changed git && committed_changed git || force = false -> r = Ok 2 /\ f' = f) /\
  (staged_changed git && committed_changed git || force = true ->
   (read_version f = Ok (text_of v) ->
      r = Ok 0 /\ read_version f' = Ok (text_of v') /\ _is_single_step_bump (text_of v) (text_of v') = Ok true /\
      has_release (text_of v') (text_before f') = true) /\
   (VERSION_FILE f = None -> is_ok r = false /\ f' = f)).
Proof.
  intros Hv Hv' Hst Hcr Ht. unfold apply_bump.
  assert (negb (staged_changed git && committed_changed git) && negb force = negb (staged_changed git && committed_changed git || force)) as ->
    by (by rewrite negb_orb).
  destruct (staged_changed git && committed_changed git || force) eqn:Hb; cbn [negb]; [|done].
  assert (bump_semver (text_of v) strategy = Ok (text_of v')) as Hbump.
  { destruct (parse_text v Hv) as (m & Hm & Hg). unfold bump_semver. rewrite Hm, Hg. cbn [bind_result]. rewrite Hst. by apply render_writable. }
  destruct (bind_result (read_version f) _) as [[current new]|e] eqn:Hr.
  - destruct (read_version f) as [cur|e] eqn:Hread; [|done]. cbn [bind_result] in Hr.
    destruct (String.eqb new current) eqn:Hsame; (split; [done |]; intros _; split; [intros [= ->] | intros Hnone; unfold read_version in Hread; by rewrite Hnone in Hread]).
    + rewrite Hbump in Hr. cbn in Hr. injection Hr as <- <-. apply String.eqb_eq in Hsame. by destruct (stepped_differs strategy v v').
    + rewrite Hbump in Hr. cbn in Hr. injection Hr as <- <-. destruct (writable_parts v' Hv') as ((Ha & Hb' & Hc) & _).
      split; [done |]. split; [|split].
      * rewrite <- (version_read_back v' f Hv'). unfold read_version. by rewrite prepend_version.
      * rewrite single_step_ok by done. f_equal. apply single_step_stepped. by exists strategy.
      * apply prepend_has_release; [|by apply text_free..|done]. by rewrite free_of_both, text_free.
  - split; [done |]. intros _. split; [|done]. intros Hread. rewrite Hread in Hr. cbn in Hr. by rewrite Hbump in Hr.
Qed.



End GateTheorems.

(** ** Witnesses *)

Module VersionWitnesses.
Import ContractVersions VersionFacts ChangelogFacts VersionTheorems GateTheorems.

Lemma small_writable a b c :
  forallb (fun n => (0 <=? n) && (String.length (str_of_Z n) <=? max_digits)%nat) [a; b; c] = true -> writable (Semver a b c).
Proof.
  intros Hb n Hn. rewrite forallb_forall in Hb. apply list_elem_of_In, Hb, andb_true_iff in Hn as [H1 H2].
  apply Z.leb_le in H1. apply Nat.leb_le in H2. done.
Qed.

Definition v010 : semver := Semver 0 1 0.
Definition v011 : semver := Semver 0 1 1.
Definition v012 : semver := Semver 0 1 2.
Definition written : string := "# Contracts Changelog" +:+ nl +:+ nl +:+ "## [0.1.0] - 2026-04-24" +:+ nl +:+ nl +:+ "- Initial" +:+ nl.
Definition tree : files := Files (Some ("0.1.0" +:+ nl)) (Some written).
Definition after_bump : string :=
  "# Contracts Changelog" +:+ nl +:+ nl +:+ "## [0.1.1] - 2026-05-01" +:+ nl +:+ nl +:+ "### Changed" +:+ nl +:+ nl +:+ "- Fix" +:+ nl +:+ nl
  +:+ "## [0.1.0] - 2026-04-24" +:+ nl +:+ nl +:+ "- Initial" +:+ nl.

Example prepends_above : text_after (prepend_changelog "2026-05-01" "0.1.1" "Fix" tree) = after_bump.
Proof. by vm_compute. Qed.

Lemma changelog_gains_one_release_witness :
  List.find is_release (lines_of (text_after (prepend_changelog "2026-05-01" "0.1.1" "Fix" tree))) = Some "## [0.1.1] - 2026-05-01".
Proof. apply (changelog_gains_one_release "2026-05-01" "0.1.1" "Fix" tree); by vm_compute. Defined.

Lemma changelog_prepend_once_witness :
  let f' := prepend_changelog "2026-05-01" "0.1.1" "Fix" tree in
  f' <> tree /\ prepend_changelog "2026-05-02" "0.1.1" "Again" f' = f'.
Proof. apply (changelog_prepend_once "2026-05-01" "2026-05-02" "0.1.1" "Fix" "Again" tree); by vm_compute. Defined.

Lemma single_step_iff_bump_witness :
  _is_single_step_bump "0.1.0" "0.1.1" = Ok true /\ _is_single_step_bump "0.1.0" "0.1.2" <> Ok true.
Proof.
  split.
  - apply (single_step_iff_bump v010 v011); [by apply small_writable.. |]. exists "patch". split; [set_solver | by vm_compute].
  - intros Hs. apply (single_step_iff_bump v010 v012) in Hs as (s & Hk & Hb); [|by apply small_writable..].
    unfold strategies in Hk. rewrite !elem_of_cons, elem_of_nil in Hk. destruct Hk as [-> | [-> | [-> | []]]]; by vm_compute in Hb.
Defined.

(** What git answers in a work tree where a schema and its version are staged. *)
Definition staged_tree (index_version : option string) (args : list string) : option string :=
  match args with
  | ["diff"; "--name-only"; "--cached"; "--"; "libs/contracts"] => Some ("libs/contracts/events.py" +:+ nl +:+ "libs/contracts/CHANGELOG.md" +:+ nl)
  | ["diff"; "--name-only"; "--cached"; "--"; _; _] => Some ("libs/contracts/CHANGELOG.md" +:+ nl)
  | ["show"; "HEAD:libs/contracts/VERSION"] => Some ("0.1.0" +:+ nl)
  | ["show"; ":libs/contracts/VERSION"] => index_version
  | _ => None
  end.

Lemma commit_gate_witness :
  check_mode (staged_tree (Some "0.1.1")) = Ok 0 /\ check_mode (staged_tree None) = Ok 0.
Proof.
  split.
  - destruct (commit_gate (staged_tree (Some "0.1.1")) ["libs/contracts/events.py"; "libs/contracts/CHANGELOG.md"] ("libs/contracts/CHANGELOG.md" +:+ nl) v010 v011)
      as [Ha _]; [by vm_compute | by vm_compute | by vm_compute | by apply small_writable | by apply small_writable | by vm_compute |].
    destruct Ha as [Hi _]; [by vm_compute |]. apply Hi. split; [by vm_compute |]. exists "patch". split; [set_solver | by vm_compute].
  - destruct (commit_gate (staged_tree None) ["libs/contracts/events.py"; "libs/contracts/CHANGELOG.md"] ("libs/contracts/CHANGELOG.md" +:+ nl) v010 v011)
      as [_ Hb]; [by vm_compute | by vm_compute | by vm_compute | by apply small_writable | by apply small_writable | by vm_compute |]. by apply Hb; vm_compute.
Defined.

Definition branch_tree (args : list string) : option string :=
  match args with
  | ["diff"; "--name-only"; "--cached"; "--"; _] => Some ""
  | "rev-parse" :: _ => Some ""
  | ["merge-base"; _; _] => Some ("abc" +:+ nl)
  | "diff" :: _ => Some ("libs/contracts/events.py" +:+ nl)
  | ["show"; "abc:libs/contracts/VERSION"] => Some ("0.1.0" +:+ nl)
  | ["show"; "HEAD:libs/contracts/VERSION"] => Some ("0.1.2" +:+ nl)
  | _ => None
  end.

Lemma branch_gate_against_commits_witness : check_mode branch_tree = Ok 2.
Proof.
  apply (branch_gate_against_commits branch_tree "patch" "patch" v010 v011 v012 "abc" ("libs/contracts/events.py" +:+ nl) ["libs/contracts/events.py"]);
    try (by vm_compute); by apply small_writable.
Defined.

Lemma bump_applies_witness : has_release "0.1.1" (text_before (snd (apply_bump (fun _ => None) "2026-05-01" "patch" None true tree))) = true.
Proof.
  generalize (bump_applies (fun _ => None) "2026-05-01" "patch" None true tree v010 v011).
  destruct (apply_bump _ _ _ _ _ _) as [r f']. intros Hb. apply Hb; try (by vm_compute); by apply small_writable.
Defined.

End VersionWitnesses.
