(* ===== verification/McpClient.v ===== *)
(** * The MCP server's client of the ingestor (services/mcp/auth_client.py,
      ingestor_client.py and http.py)

    The token of the service account, its lock with the tasks that wait for it, and the
    authenticated request.  The dictionaries of the modules are keyed by the running event
    loop: this is the state of one loop.  What happens between two awaits is one step, and
    a step is an event: a call, the lock passed to a waiter, the answer of the login, a
    cancellation.  [asyncio.Lock] is the standard library's: it is free for a newcomer only
    when nobody waits, and goes to the oldest waiter.  The readings of [time.monotonic] are
    arguments; an answer is the two tokens or the text of what is raised. *)

From S2P Require Import Prelude.

Module McpClient.

Record Settings := Setting {
  ingestor_url : string;
  jwt_expiry_minutes : Z;
  token_refresh_skew_seconds : Z
}.

Record _TokenState := TokenState {
  access_token : string;
  refresh_token : string;
  expires_at : Q
}.

(** [get_valid_token] and [force_relogin]. *)
Inductive kind := Get | Force.

#[export] Instance kind_eq_dec : EqDecision kind.
Proof. solve_decision. Defined.

(** The cached token, the task that holds the lock, which awaits its login, the waiters
    from the oldest, the calls that returned with their result, and the logins sent. *)
Record state := State {
  _token_state : option _TokenState;
  holder : option (nat * kind);
  waiters : list (nat * kind);
  returned : list (nat * kind * result string string);
  logins : nat
}.

Definition fresh_loop : state := State None None [] [] 0.

Section Client.
Context (settings : Settings).

(** [deadline] of a token answered at [now]. *)
Definition deadline (now : Q) : Q :=
  (now + inject_Z (jwt_expiry_minutes settings * 60) - inject_Z (token_refresh_skew_seconds settings))%Q.

(** [state is not None and time.monotonic() < state.expires_at]. *)
Definition cached (now : Q) (s : state) : option string :=
  match _token_state s with
  | Some st => if Qltb now (expires_at st) then Some (access_token st) else None
  | None => None
  end.

Definition finish (t : nat) (k : kind) (r : result string string) (s : state) : state :=
  State (_token_state s) (holder s) (waiters s) (returned s ++ [(t, k, r)]) (logins s).

(** The lock is taken: the check again, for a call that may reuse a token, or the login is
    sent. *)
Definition locked (t : nat) (k : kind) (now : Q) (s : state) : state :=
  match k, cached now s with
  | Get, Some token => finish t k (Ok token) s
  | _, _ => State (_token_state s) (Some (t, k)) (waiters s) (returned s) (S (logins s))
  end.

(** A call from its start to its first await; [now] and [now'] are the readings before
    and under the lock. *)
Definition acquire (t : nat) (k : kind) (now' : Q) (s : state) : state :=
  match holder s, waiters s with
  | None, [] => locked t k now' s
  | _, _ => State (_token_state s) (holder s) (waiters s ++ [(t, k)]) (returned s) (logins s)
  end.

Definition get_valid_token (t : nat) (now now' : Q) (s : state) : state :=
  match cached now s with
  | Some token => finish t Get (Ok token) s
  | None => acquire t Get now' s
  end.

Definition force_relogin (t : nat) (now' : Q) (s : state) : state :=
  acquire t Force now' (State None (holder s) (waiters s) (returned s) (logins s)).

(** The free lock goes to the oldest waiter. *)
Definition granted (now : Q) (s : state) : option state :=
  match holder s, waiters s with
  | None, (t, k) :: ws => Some (locked t k now (State (_token_state s) None ws (returned s) (logins s)))
  | _, _ => None
  end.

(** The login is answered, or raises; [async with] releases the lock in both cases. *)
Definition answered (r : result string (string * string)) (now : Q) (s : state) : option state :=
  match holder s with
  | None => None
  | Some (t, k) =>
      match r with
      | Ok (access, refresh) =>
          Some (finish t k (Ok access)
            (State (Some (TokenState access refresh (deadline now))) None (waiters s) (returned s) (logins s)))
      | Raise e => Some (finish t k (Raise e) (State (_token_state s) None (waiters s) (returned s) (logins s)))
      end
  end.

(** A waiting task, or the one that holds the lock, is cancelled. *)
Definition cancelled (t : nat) (s : state) : option state :=
  if existsb (fun w => (w.1 =? t)%nat) (waiters s) then
    Some (State (_token_state s) (holder s) (List.filter (fun w => negb (w.1 =? t)%nat) (waiters s)) (returned s) (logins s))
  else
    match holder s with
    | Some (t', _) => if (t' =? t)%nat then Some (State (_token_state s) None (waiters s) (returned s) (logins s)) else None
    | None => None
    end.

(** A task has one call at a time. *)
Definition busy (t : nat) (s : state) : bool :=
  existsb (fun w => (w.1 =? t)%nat) (waiters s) || match holder s with Some (t', _) => (t' =? t)%nat | None => false end.

Inductive event :=
| Call (t : nat) (k : kind) (now now' : Q)
| Granted (now : Q)
| Answered (r : result string (string * string)) (now : Q)
| Cancelled (t : nat).

Definition step (e : event) (s : state) : option state :=
  match e with
  | Call t k now now' =>
      if busy t s then None
      else Some (match k with Get => get_valid_token t now now' s | Force => force_relogin t now' s end)
  | Granted now => granted now s
  | Answered r now => answered r now s
  | Cancelled t => cancelled t s
  end.

Fixpoint run (es : list event) (s : state) : option state :=
  match es with
  | [] => Some s
  | e :: es => match step e s with Some s' => run es s' | None => None end
  end.

End Client.

(** ** The request *)

(** The body, where it is JSON. *)
Record response := Response { status_code : Z; body : option json }.

Inductive request_error :=
| Login (message : string)
| Transport (message : string)
| HTTPStatusError (status : Z)
| JSONDecodeError.

(** The arguments of [_request]. *)
Record request := Request {
  method : string;
  path : string;
  params : option (list (string * json));
  json_body : option (list (string * json))
}.

(** [raise_for_status], where whatever is no success raises, and [json]. *)
Definition raise_for_status (r : response) : result request_error json :=
  if (200 <=? status_code r) && (status_code r <? 300) then
    match body r with Some j => Ok j | None => Raise JSONDecodeError end
  else Raise (HTTPStatusError (status_code r)).

Section Request.
(** The world of a request: the two ways to a token, and the exchange with a token. *)
Context {W : Type}.
Context (valid_token relogin : W -> result string string * W).
Context (send : request -> string -> W -> result string response * W).

Definition _request (q : request) (w : W) : result request_error json * W :=
  match valid_token w with
  | (Raise e, w) => (Raise (Login e), w)
  | (Ok token, w) =>
      match send q token w with
      | (Raise e, w) => (Raise (Transport e), w)
      | (Ok r, w) =>
          if status_code r =? 401 then
            match relogin w with
            | (Raise e, w) => (Raise (Login e), w)
            | (Ok token, w) =>
                match send q token w with
                | (Raise e, w) => (Raise (Transport e), w)
                | (Ok r, w) => (raise_for_status r, w)
                end
            end
          else (raise_for_status r, w)
      end
  end.

End Request.

(** ** The tools *)

Definition opt_param (name : string) (v : option json) : list (string * json) :=
  match v with Some j => [(name, j)] | None => [] end.

Definition get (path : string) : request := Request "GET" path None None.
Definition get_with (path : string) (params : list (string * json)) : request := Request "GET" path (Some params) None.

Definition list_sources (is_active : option bool) (offset limit : Z) : request :=
  get_with "/api/v1/sources" ([("offset", JInt offset); ("limit", JInt limit)] ++ opt_param "is_active" (option_map JBool is_active)).
Definition get_source (source_id : Z) : request := get ("/api/v1/sources/" +:+ str_of_Z source_id).
Definition get_source_summary : request := get "/api/v1/sources/summary".
Definition probe_source_health (source_id : Z) : request := get ("/api/v1/sources/" +:+ str_of_Z source_id +:+ "/health").
Definition list_scorecards (days source_id limit : option Z) : request :=
  get_with "/api/v1/scorecards"
    (opt_param "days" (option_map JInt days) ++ opt_param "source_id" (option_map JInt source_id) ++ opt_param "limit" (option_map JInt limit)).
Definition get_scorecard (source_id : Z) (days : option Z) : request :=
  get_with ("/api/v1/scorecards/" +:+ str_of_Z source_id) (opt_param "days" (option_map JInt days)).
Definition list_contract_snapshots (source_id offset limit : Z) : request :=
  get_with ("/api/v1/contracts/sources/" +:+ str_of_Z source_id +:+ "/snapshots") [("offset", JInt offset); ("limit", JInt limit)].
Definition list_drift_events (source_id offset limit : Z) : request :=
  get_with ("/api/v1/contracts/sources/" +:+ str_of_Z source_id +:+ "/drift-events") [("offset", JInt offset); ("limit", JInt limit)].
Definition get_compatibility_report (source_id : Z) : request :=
  get ("/api/v1/contracts/sources/" +:+ str_of_Z source_id +:+ "/compatibility").
Definition get_agent_run (run_id : Z) : request := get ("/api/v1/agent/runs/" +:+ str_of_Z run_id).
Definition resume_agent_run (run_id : Z) (approve : bool) : request :=
  Request "POST" ("/api/v1/agent/runs/" +:+ str_of_Z run_id +:+ "/resume") None (Some [("approve", JBool approve)]).

End McpClient.

(** ** Theorems *)

Module McpTheorems.
Import McpClient.

Section facts.
Context (settings : Settings).
Abbreviation stepped := (step settings) (only parsing).
Abbreviation ran := (run settings) (only parsing).

Definition lifetime : Q := (inject_Z (jwt_expiry_minutes settings * 60) - inject_Z (token_refresh_skew_seconds settings))%Q.

Definition readings (e : event) : list Q :=
  match e with Call _ _ now now' => [now; now'] | Granted now | Answered _ now => [now] | Cancelled _ => [] end.

Definition is_get (e : event) : bool := match e with Call _ Force _ _ => false | _ => true end.

(** A login that raises, or a task that is cancelled. *)
Definition failure (e : event) : bool :=
  match e with Answered (Raise _) _ | Cancelled _ => true | _ => false end.

Definition got (token : string) (x : nat * kind * result string string) : Prop :=
  match x.2 with Ok token' => token' = token | Raise _ => True end.

(** The calls so far, all of them for a valid token, after [f] failures: no token and at
    most one login under way, or a token that is good for the period and nobody logging in. *)
Definition quiet (b : Q) (f : nat) (s : state) : Prop :=
  Forall (fun w => w.2 = Get) (waiters s) /\
  match _token_state s with
  | None =>
      (logins s <= f + (if holder s then 1 else 0))%nat /\ (forall t k, holder s = Some (t, k) -> k = Get) /\
      Forall (fun x => is_ok x.2 = false) (returned s)
  | Some st => (logins s <= f + 1)%nat /\ holder s = None /\ (b < expires_at st)%Q /\ Forall (got (access_token st)) (returned s)
  end.

Lemma not_ok_got token (l : list (nat * kind * result string string)) : Forall (fun x => is_ok x.2 = false) l -> Forall (got token) l.
Proof. apply List.Forall_impl. intros [[t k] [a|e]]; done. Qed.

Lemma quiet_locked b f s t now : (now <= b)%Q -> holder s = None -> quiet b f s -> quiet b f (locked t Get now s).
Proof.
  intros Hnow Hh [Hw Hq]. unfold locked, cached. destruct s as [[st|] h ws rs n]; cbn in *; subst h.
  - destruct Hq as (Hn & _ & Hb & Hr). destruct (Qltb now (expires_at st)) eqn:Hlt.
    + split; [done |]. cbn. split; [done |]. split; [done |]. split; [done |]. apply Forall_app; split; [done |]. by repeat constructor.
    + apply Qltb_ge in Hlt. exfalso. lra.
  - destruct Hq as (Hn & _ & Hr). split; [done |]. cbn. split; [lia |]. split; [by intros ? ? [= <- <-] | done].
Qed.

Lemma quiet_step b f e s s' :
  Forall (fun t => (t <= b)%Q) (readings e) -> is_get e = true ->
  (forall r now, e = Answered (Ok r) now -> (b < deadline settings now)%Q) ->
  stepped e s = Some s' -> quiet b f s -> quiet b (if failure e then S f else f) s'.
Proof.
  intros Hb Hg Hd Hs Hq. destruct e as [t k now now' | now | r now | t]; cbn in *.
  - destruct (busy t s); [done |]. destruct k; [|done]. injection Hs as <-.
    apply Forall_cons in Hb as [Hb1 Hb2]. apply Forall_cons in Hb2 as [Hb2 _].
    unfold get_valid_token. destruct (cached now s) as [token|] eqn:Hc.
    + destruct Hq as [Hw Hq]. split; [done |]. unfold cached in Hc. cbn. destruct (_token_state s) as [st|]; [|done].
      destruct Hq as (? & ? & ? & Hr). split; [done |]. split; [done |]. split; [done |]. apply Forall_app; split; [done |].
      repeat constructor. unfold got. cbn. by destruct (Qltb now (expires_at st)); simplify_eq.
    + unfold acquire. destruct (holder s) as [h|] eqn:Hh; [|destruct (waiters s) eqn:Hws].
      * destruct Hq as [Hw Hq]. split; [cbn; apply Forall_app; split; [done | by repeat constructor] |]. cbn. by rewrite Hh in Hq.
      * by apply quiet_locked.
      * destruct Hq as [Hw Hq]. rewrite Hws in Hw. split; [cbn; apply (Forall_app _ (_ :: _)); split; [done | by repeat constructor] |]. cbn. by rewrite Hh in Hq.
  - unfold granted in Hs. destruct (holder s) eqn:Hh; [done |]. destruct (waiters s) as [|[t k] ws] eqn:Hws; [done |]. injection Hs as <-.
    destruct Hq as [Hw Hq]. rewrite Hws in Hw. apply Forall_cons in Hw as [Hk Hw]. cbn in Hk. subst k.
    apply Forall_cons in Hb as [Hb _]. apply quiet_locked; [done | done |]. split; [done |]. cbn. by rewrite Hh in Hq.
  - unfold answered in Hs. destruct (holder s) as [[t k]|] eqn:Hh; [|done]. destruct Hq as [Hw Hq].
    destruct (_token_state s) as [st|] eqn:Hst; [destruct Hq as (_ & Hnone & _); congruence |]. destruct Hq as (Hn & _ & Hr). rewrite Hh in Hn.
    destruct r as [[access refresh]|e]; injection Hs as <-; (split; [done |]); cbn; rewrite ?Hst.
    + split; [lia |]. split; [done |]. split; [by eapply Hd |]. apply Forall_app; split; [by apply not_ok_got | by repeat constructor].
    + split; [lia |]. split; [done |]. apply Forall_app; split; [done | by repeat constructor].
  - unfold cancelled in Hs. destruct Hq as [Hw Hq]. destruct (existsb _ (waiters s)).
    + injection Hs as <-. split.
      * cbn. apply List.Forall_forall. intros x [Hx _]%List.filter_In. rewrite List.Forall_forall in Hw. by apply Hw.
      * cbn. destruct (_token_state s); (split; [|apply Hq]); lia.
    + destruct (holder s) as [[t' k]|] eqn:Hh; [|done]. destruct (t' =? t)%nat; [|done]. injection Hs as <-. split; [done |]. cbn.
      destruct (_token_state s); [destruct Hq as (_ & Hnone & _); congruence |]. destruct Hq as (Hn & _ & Hr). split; [lia | done].
Qed.

Lemma quiet_run b es : forall f s s',
  Forall (fun e => Forall (fun t => (t <= b)%Q) (readings e)) es -> forallb is_get es = true ->
  (forall r now, Answered (Ok r) now ∈ es -> (b < deadline settings now)%Q) ->
  ran es s = Some s' -> quiet b f s -> quiet b (f + count failure es) s'.
Proof.
  induction es as [|e es IH]; intros f s s' Hb Hg Hd Hr Hq; cbn in Hr.
  { injection Hr as <-. by rewrite Nat.add_0_r. }
  apply Forall_cons in Hb as [Hb Hbs]. cbn in Hg. apply andb_true_iff in Hg as [Hg Hgs].
  destruct (step settings e s) as [s1|] eqn:Hs; [|done].
  assert (quiet b (if failure e then S f else f) s1) as Hq1.
  { eapply quiet_step; try done. intros r now ->. apply (Hd r now). left. }
  specialize (IH _ _ _ Hbs Hgs (fun r now Hin => Hd r now (list_elem_of_further _ _ _ Hin)) Hr Hq1).
  replace (f + count failure (e :: es))%nat with ((if failure e then S f else f) + count failure es)%nat; [done |].
  unfold count. cbn. destruct (failure e); cbn; lia.
Qed.

(** C29: However the calls for a valid token interleave, over a period shorter than the life
    of a token from its first answer on, the service account logs in once, and once more
    for every login that fails or is cancelled; all the calls that succeed get one and the
    same token. *)
Theorem one_login_serves_all (a b : Q) (es : list event) (s : state) :
  (b - a < lifetime)%Q -> Forall (fun e => Forall (fun t => (a <= t <= b)%Q) (readings e)) es -> forallb is_get es = true ->
  ran es fresh_loop = Some s ->
  (logins s <= 1 + count failure es)%nat /\
  exists token, forall t k token', (t, k, Ok token') ∈ returned s -> token' = token.
Proof.
  intros Hab Hes Hg Hr.
  assert (quiet b (0 + count failure es) s) as [_ Hq].
  { eapply quiet_run; [| done | | exact Hr |].
    - eapply List.Forall_impl; [|exact Hes]. intros e. apply List.Forall_impl. by intros t [_ Ht].
    - intros r now Hin. rewrite List.Forall_forall in Hes. apply list_elem_of_In, Hes in Hin. cbn in Hin.
      apply Forall_cons in Hin as [[Hlo _] _]. unfold deadline. unfold lifetime in Hab. lra.
    - split; [by constructor |]. cbn. split; [lia |]. split; [done | constructor]. }
  destruct (_token_state s) as [st|].
  - destruct Hq as (Hn & _ & _ & Hall). split; [lia |]. exists (access_token st). intros t k token' Hin.
    rewrite List.Forall_forall in Hall. apply list_elem_of_In in Hin. by apply (Hall _ Hin).
  - destruct Hq as (Hn & _ & Hall). split; [destruct (holder s); lia |]. exists "". intros t k token' Hin.
    rewrite List.Forall_forall in Hall. apply list_elem_of_In in Hin. by specialize (Hall _ Hin).
Qed.

(** *** Forced logins *)

Definition forced (x : nat * kind * result string string) : bool := match x.1.2 with Force => true | Get => false end.

Definition logging_in (s : state) : nat := match holder s with Some (_, Force) => 1 | _ => 0 end.

Definition paid (s : state) : Prop := (count forced (returned s) + logging_in s <= logins s)%nat.

Lemma count_snoc {A} (p : A -> bool) l x : count p (l ++ [x]) = (count p l + if p x then 1 else 0)%nat.
Proof. rewrite count_app. unfold count. cbn. by destruct (p x). Qed.

Lemma paid_locked t k now s : paid s -> holder s = None -> paid (locked t k now s).
Proof.
  unfold paid, logging_in, locked. intros Hp Hh. rewrite Hh in Hp.
  destruct k; [destruct (cached now s) |]; cbn -[count]; rewrite ?Hh, ?count_snoc; cbn -[count]; lia.
Qed.

Lemma paid_acquire t k now s : paid s -> paid (acquire t k now s).
Proof.
  intros Hp. unfold acquire. destruct (holder s) eqn:Hh; [|destruct (waiters s)]; try by apply paid_locked.
  - unfold paid, logging_in in *. cbn -[count]. by rewrite Hh in Hp.
  - unfold paid, logging_in in *. cbn -[count]. by rewrite Hh in Hp.
Qed.

Lemma paid_step e s s' : stepped e s = Some s' -> paid s -> paid s'.
Proof.
  intros Hs Hp. destruct e as [t k now now' | now | r now | t]; cbn in Hs.
  - destruct (busy t s); [done |]. destruct k; injection Hs as <-; [|by apply paid_acquire].
    unfold get_valid_token. destruct (cached now s); [|by apply paid_acquire].
    unfold paid, logging_in in *. cbn -[count]. rewrite count_snoc. cbn -[count]. lia.
  - unfold granted in Hs. destruct (holder s) eqn:Hh; [done |]. destruct (waiters s) as [|[t k] ws]; [done |]. injection Hs as <-.
    apply paid_locked; [|done]. unfold paid, logging_in in *. cbn -[count]. by rewrite Hh in Hp.
  - unfold answered in Hs. destruct (holder s) as [[t k]|] eqn:Hh; [|done]. unfold paid, logging_in in Hp. rewrite Hh in Hp.
    destruct r as [[access refresh]|e]; injection Hs as <-; unfold paid, logging_in; cbn -[count]; rewrite count_snoc; destruct k; cbn -[count] in *; lia.
  - unfold cancelled in Hs. destruct (existsb _ _); [by injection Hs as <- |].
    destruct (holder s) as [[t' k]|] eqn:Hh; [|done]. destruct (_ =? _)%nat; [|done]. injection Hs as <-.
    unfold paid, logging_in in *. cbn -[count]. lia.
Qed.

(** A forced login is never shared: in every reachable state there have been at least as
    many logins as forced calls that returned, so that n requests answered 401 at one time
    log in n times, one after another, each for a token that the next discards. *)
Theorem forced_logins_not_shared (es : list event) (s : state) :
  ran es fresh_loop = Some s ->
  (count forced (returned s) <= logins s)%nat.
Proof.
  enough (forall s0, paid s0 -> ran es s0 = Some s -> paid s) as Hall.
  { intros Hr. apply Hall in Hr; [unfold paid in Hr; lia | by unfold paid]. }
  induction es as [|e es IH]; intros s0 Hp Hr; cbn in Hr; [by injection Hr as <- |].
  destruct (step settings e s0) as [s1|] eqn:Hs; [|done]. apply (IH s1); [by eapply paid_step | done].
Qed.

(** *** The age of a token *)

Definition from_answer (es : list event) (st : _TokenState) : Prop :=
  exists ta, Answered (Ok (access_token st, refresh_token st)) ta ∈ es /\ expires_at st = deadline settings ta.

Lemma locked_token t k now s : _token_state (locked t k now s) = _token_state s.
Proof. unfold locked. destruct k; [destruct (cached now s) |]; done. Qed.

Lemma acquire_token t k now s : _token_state (acquire t k now s) = _token_state s.
Proof. unfold acquire. destruct (holder s); [done |]. destruct (waiters s); [apply locked_token | done]. Qed.

Lemma step_token e s s' st :
  stepped e s = Some s' -> _token_state s' = Some st -> _token_state s = Some st \/ from_answer [e] st.
Proof.
  intros Hs Ht. destruct e as [t k now now' | now | r now | t]; cbn in Hs.
  - destruct (busy t s); [done |]. destruct k; injection Hs as <-.
    + unfold get_valid_token in Ht. destruct (cached now s); [by left |]. rewrite acquire_token in Ht. by left.
    + unfold force_relogin in Ht. by rewrite acquire_token in Ht.
  - unfold granted in Hs. destruct (holder s); [done |]. destruct (waiters s) as [|[t k] ws]; [done |]. injection Hs as <-.
    rewrite locked_token in Ht. by left.
  - unfold answered in Hs. destruct (holder s) as [[t k]|]; [|done]. destruct r as [[access refresh]|e]; injection Hs as <-; cbn in Ht.
    + injection Ht as <-. right. exists now. split; [left | done].
    + by left.
  - unfold cancelled in Hs. destruct (existsb _ _); [by injection Hs as <-; left |].
    destruct (holder s) as [[t' k]|]; [|done]. destruct (_ =? _)%nat; [|done]. injection Hs as <-. by left.
Qed.

Lemma run_token es : forall s s' st,
  ran es s = Some s' -> _token_state s' = Some st -> _token_state s = Some st \/ from_answer es st.
Proof.
  induction es as [|e es IH]; intros s s' st Hr Ht; cbn in Hr; [injection Hr as <-; by left |].
  destruct (step settings e s) as [s1|] eqn:Hs; [|done].
  destruct (IH _ _ _ Hr Ht) as [H1 | (ta & Hin & He)]; [|right; exists ta; split; [by right | done]].
  destruct (step_token _ _ _ _ Hs H1) as [? | (ta & Hin & He)]; [by left | right].
  exists ta. split; [|done]. apply list_elem_of_singleton in Hin. subst e. left.
Qed.

(** A token handed out from the cache came with the answer of a login, less than its life
    and the skew short of the server's expiry ago: at a server that expires its tokens
    [jwt_expiry_minutes] after it issued them it is still good, if the answer was on its way
    for no longer than the skew. *)
Theorem cached_token_in_date (es : list event) (s : state) (now : Q) (token : string) :
  ran es fresh_loop = Some s -> cached now s = Some token ->
  exists refresh ta, Answered (Ok (token, refresh)) ta ∈ es /\ (now < ta + lifetime)%Q /\
    forall issued, (ta - issued <= inject_Z (token_refresh_skew_seconds settings))%Q ->
      (now < issued + inject_Z (jwt_expiry_minutes settings * 60))%Q.
Proof.
  intros Hr Hc. unfold cached in Hc. destruct (_token_state s) as [st|] eqn:Hst; [|done].
  destruct (Qltb now (expires_at st)) eqn:Hlt; [|done]. injection Hc as <-.
  destruct (run_token _ _ _ _ Hr Hst) as [? | (ta & Hin & He)]; [done |]. apply Qltb_lt in Hlt. rewrite He in Hlt. unfold deadline in Hlt.
  exists (refresh_token st), ta. split; [done |]. unfold lifetime. split; [lra |]. intros issued Hi. lra.
Qed.

End facts.

End McpTheorems.

(** ** The request *)

Module RequestTheorems.
Import McpClient.

Section facts.
Context {W : Type}.
Context (valid_token relogin : W -> result string string * W).
Context (send : request -> string -> W -> result string response * W).

(** A world that records the exchanges and counts the forced logins. *)
Record watched := Watched { inner : W; exchanges : list (string * result string response); relogins : nat }.

Definition lift_token (f : W -> result string string * W) (n : nat) (w : watched) : result string string * watched :=
  let '(r, w') := f (inner w) in (r, Watched w' (exchanges w) (relogins w + n)).

Definition lift_send (q : request) (token : string) (w : watched) : result string response * watched :=
  let '(r, w') := send q token (inner w) in (r, Watched w' (exchanges w ++ [(token, r)]) (relogins w)).

(** A request exchanges with the ingestor at most twice, the second time only after a 401
    and a forced login, of which there is one exactly then; it answers only with the body of
    a success, the one of its last exchange. *)
Theorem request_retries_once (q : request) (w : W) :
  let '(r, w') := _request (lift_token valid_token 0) (lift_token relogin 1) lift_send q (Watched w [] 0) in
  (length (exchanges w') <= 2)%nat /\
  (relogins w' = 1%nat <-> exists token b rest, exchanges w' = (token, Ok (Response 401 b)) :: rest) /\
  (relogins w' <= 1)%nat /\
  (length (exchanges w') = 2%nat -> relogins w' = 1%nat) /\
  (forall j, r = Ok j -> exists token status, last (exchanges w') = Some (token, Ok (Response status (Some j))) /\ 200 <= status < 300).
Proof.
  assert (forall r j, raise_for_status r = Ok j -> body r = Some j /\ 200 <= status_code r < 300) as Hraise.
  { intros [st b] j. unfold raise_for_status. cbn. destruct (Z.leb_spec 200 st), (Z.ltb_spec st 300); cbn; try done.
    destruct b; [|done]. by intros [= ->]. }
  unfold _request, lift_token. cbn. destruct (valid_token w) as [[token|e] w1]; cbn.
  2:{ split; [lia |]. split; [split; [done | by intros (? & ? & ? & ?)] |]. split; [lia |]. split; [lia | done]. }
  unfold lift_send at 1. cbn. destruct (send q token w1) as [[[st b]|e] w2]; cbn.
  2:{ split; [lia |]. split; [split; [done | by intros (? & ? & ? & ?)] |]. split; [lia |]. split; [lia | done]. }
  destruct (Z.eqb_spec st 401) as [->|Hst]; cbn.
  2:{ split; [lia |]. split; [split; [done | intros (? & ? & ? & ?); by simplify_eq] |]. split; [lia |]. split; [done |].
      intros j Hj. apply Hraise in Hj as [Hb Hr]. cbn in Hb, Hr. subst b. by eexists _, _. }
  destruct (relogin w2) as [[token'|e] w3]; cbn.
  2:{ split; [lia |]. split; [split; [intros _; by eexists _, _, _ | done] |]. split; [lia |]. split; [lia | done]. }
  unfold lift_send. cbn. destruct (send q token' w3) as [[[st' b']|e] w4]; cbn;
    (split; [lia |]; split; [split; [intros _; by eexists _, _, _ | done] |]; split; [lia |]; split; [done |]); [|done].
  intros j Hj. apply Hraise in Hj as [Hb Hr]. cbn in Hb, Hr. subst b'. by eexists _, _.
Qed.

End facts.

End RequestTheorems.

(** ** Witnesses *)

Module McpWitnesses.
Import McpClient McpTheorems.

Definition half_hour : Settings := Setting "http://localhost:8000" 30 60.

(** Three calls at once on a fresh loop, the first login refused. *)
Definition rush : list event :=
  [Call 1 Get 0 0; Call 2 Get 1 1; Call 3 Get 1 1; Answered (Raise "503") 2; Granted 2; Answered (Ok ("jwt", "r")) 3; Granted 3].

Lemma one_login_serves_all_witness :
  exists s, run half_hour rush fresh_loop = Some s /\ (logins s <= 2)%nat.
Proof.
  destruct (run half_hour rush fresh_loop) as [s|] eqn:Hs; [|by vm_compute in Hs]. exists s. split; [done |].
  apply (one_login_serves_all half_hour 0 3 rush s) in Hs as [Hn _]; [exact Hn | by vm_compute | | by vm_compute].
  repeat constructor; vm_compute; discriminate.
Defined.

(** Three requests that were answered 401. *)
Definition storm : list event :=
  [Call 1 Force 0 0; Call 2 Force 0 0; Call 3 Force 0 0; Answered (Ok ("a", "r")) 1; Granted 1; Answered (Ok ("b", "r")) 2; Granted 2;
   Answered (Ok ("c", "r")) 3].

Lemma forced_logins_not_shared_witness :
  exists s, run half_hour storm fresh_loop = Some s /\ (3 <= logins s)%nat.
Proof.
  destruct (run half_hour storm fresh_loop) as [s|] eqn:Hs; [|by vm_compute in Hs]. exists s. split; [done |].
  pose proof (forced_logins_not_shared half_hour storm s Hs) as Hn. vm_compute in Hs. injection Hs as <-. exact Hn.
Defined.

Lemma cached_token_in_date_witness :
  exists s refresh ta, run half_hour storm fresh_loop = Some s /\ Answered (Ok ("c", refresh)) ta ∈ storm /\ (1000 < ta + lifetime half_hour)%Q.
Proof.
  destruct (run half_hour storm fresh_loop) as [s|] eqn:Hs; [|by vm_compute in Hs].
  assert (cached 1000 s = Some "c") as Hc by (vm_compute in Hs; by injection Hs as <-).
  destruct (cached_token_in_date half_hour storm s 1000 "c" Hs Hc) as (refresh & ta & Hin & Hlt & _). by exists s, refresh, ta.
Defined.

(** A server that refuses the first token. *)
Example retried :
  fst (_request (fun w : nat => (Ok "old", w)) (fun w => (Ok "new", w))
    (fun _ token w => (Ok (if String.eqb token "new" then Response 200 (Some (JInt 1)) else Response 401 None), S w)) get_source_summary 0%nat)
  = Ok (JInt 1).
Proof. by vm_compute. Qed.

End McpWitnesses.
