(* ===== verification/Dashboard.v ===== *)
(** * The dashboard's session and its client of the ingestor (services/dashboard/core and the
      entry point ui/streamlit/app.py)

    The authentication state of a user's session with its operations and the run of a page,
    the HTTP client, the resource classes with the flat functions on them, and the parser
    of the metrics.  What an exchange brings back is an argument: a response, or the text of
    the exception of the transport.  Whether pydantic accepts an object for a model is an
    argument too. *)

From S2P Require Import Prelude Db SourceRegistry Observations Application.

(** ** The authentication state (core/auth.py) *)

Module DashboardAuth.

Record AuthState := State {
  access_token : string;
  refresh_token : string;
  username : string;
  logged_in : bool;
  token_expires_at : option Q
}.

Definition no_session : AuthState := State "" "" "" false None.

(** [is_valid], with the reading of [time.time]. *)
Definition is_valid (now : Q) (s : AuthState) : bool :=
  if negb (logged_in s) || negb (str_truthy (access_token s)) then false
  else match token_expires_at s with Some t => Qltb now (t - 30) | None => true end.

Definition auth_headers (s : AuthState) : list (string * string) :=
  if str_truthy (access_token s) then [("Authorization", "Bearer " +:+ access_token s)] else [].

(** [time.time() + expires_in] where there is one. *)
Definition expiry (now : Q) (expires_in : option Z) (s : AuthState) : option Q :=
  match expires_in with Some n => Some (now + inject_Z n)%Q | None => token_expires_at s end.

Definition login (now : Q) (access refresh user : string) (expires_in : option Z) (s : AuthState) : AuthState :=
  State access refresh user (str_truthy access) (expiry now expires_in s).

Definition set_tokens (access refresh : string) (s : AuthState) : AuthState :=
  State access refresh (username s) (logged_in s) (token_expires_at s).

Definition logout (s : AuthState) : AuthState := no_session.

Definition refresh (now : Q) (access refresh : string) (expires_in : option Z) (s : AuthState) : AuthState :=
  State access refresh (username s) (str_truthy access) (expiry now expires_in s).

(** The tokens of an answer; they are strings where they are there. *)
Record token_body := Tokens { body_access : option string; body_refresh : option string }.

Definition rotate_from_dict (body : token_body) (s : AuthState) : bool * AuthState :=
  match body_access body with
  | Some access =>
      if str_truthy access then (true, set_tokens access (or_else (body_refresh body) (refresh_token s)) s) else (false, logout s)
  | None => (false, logout s)
  end.

(** An answer of the authentication endpoints: its status, its tokens where the body is an
    object, and there the detail of an error, which is the text where there is none. *)
Record answer := Answer { status_code : Z; tokens : option token_body; detail : option json }.

Inductive failure :=
| Failed (status : Z) (detail : json)
| ConnectionError (message : string).

(** [do_register]; a body that is no object has no [get]. *)
Definition do_register (post : result string answer) : option failure :=
  match post with
  | Raise e => Some (ConnectionError e)
  | Ok r =>
      if status_code r =? 201 then None
      else match detail r with Some d => Some (Failed (status_code r) d) | None => Some (ConnectionError "not an object") end
  end.

Definition do_login (now : Q) (user : string) (post : result string answer) (s : AuthState) : option failure * AuthState :=
  match post with
  | Raise e => (Some (ConnectionError e), s)
  | Ok r =>
      if status_code r =? 200 then
        match tokens r with
        | Some (Tokens (Some access) refresh) => (None, login now access (or_else refresh "") user None s)
        | _ => (Some (ConnectionError "access_token"), s)
        end
      else (Some (Failed (status_code r) JNull), s)
  end.

Definition do_refresh (post : result string answer) (s : AuthState) : bool * AuthState :=
  if negb (str_truthy (refresh_token s)) then (false, s)
  else
    match post with
    | Raise e => (false, logout s)
    | Ok r =>
        if status_code r =? 200 then
          match tokens r with
          | Some (Tokens (Some access) refresh) => (true, set_tokens access (or_else refresh "") s)
          | _ => (false, logout s)
          end
        else (false, logout s)
    end.

(** *** A page run (ui/streamlit/app.py, components/auth_sidebar.py)

    What the user did before it: a login or a logout restarts the run, which then comes to
    the check of the session with nothing done. *)

Inductive action :=
| Nothing
| SubmitLogin (user : string) (post : result string answer)
| PressLogout.

(** The condition under which [main] refreshes. *)
Definition refresh_due (now : Q) (s : AuthState) : bool :=
  logged_in s && str_truthy (refresh_token s) && negb (is_valid now s).

(** The state after the sidebar; the buttons are those of the state. *)
Definition render_auth_sidebar (now : Q) (a : action) (s : AuthState) : AuthState :=
  match a with
  | Nothing => s
  | SubmitLogin user post => if logged_in s then s else snd (do_login now user post s)
  | PressLogout => if logged_in s then logout s else s
  end.

(** A run: whether it refreshed, and the state it leaves to the panels. *)
Definition main (now : Q) (a : action) (refreshed : result string answer) (s : AuthState) : bool * AuthState :=
  let s := render_auth_sidebar now a s in
  if refresh_due now s then (true, snd (do_refresh refreshed s)) else (false, s).

(** The runs of a session: how many times it refreshed, and its state. *)
Fixpoint session (runs : list (Q * action * result string answer)) (s : AuthState) : nat * AuthState :=
  match runs with
  | [] => (0%nat, s)
  | (now, a, r) :: runs =>
      let '(refreshed, s) := main now a r s in
      let '(n, s) := session runs s in
      ((if refreshed : bool then S n else n), s)
  end.

End DashboardAuth.

(** ** The client (core/http_client.py, core/api_client.py) *)

Module DashboardApi.

Record http_response := HttpResponse { status : Z; decoded : option json; text : string }.

Record call := Call {
  method : string;
  path : string;
  headers : list (string * string);
  params : list (string * json);
  payload : option (list (string * json))
}.

(** The messages are reduced to the context they name. *)
Inductive client_error :=
| DashboardApiError (context : string) (code : option Z)
| HTTPStatusError (code : Z)
| TransportError (message : string)
| JSONDecodeError
| TypeError
| ValidationError (model : string).

(** [API_REQUEST_ERRORS]: what the panels catch; [httpx.HTTPError] has the status errors and
    those of the transport below it. *)
Definition api_request_error (e : client_error) : bool :=
  match e with DashboardApiError _ _ | HTTPStatusError _ | TransportError _ => true | _ => false end.

Section Client.
Context (exchange : call -> result string http_response).

(** Whether a model accepts an object. *)
Context (accepts : string -> list (string * json) -> bool).

Definition bearer (token : string) : list (string * string) :=
  if str_truthy token then [("Authorization", "Bearer " +:+ token)] else [].

Definition request_raw (method path token : string) (params : list (string * json)) (payload : option (list (string * json)))
    : result client_error http_response :=
  match exchange (Call method path (bearer token) params payload) with
  | Ok r => Ok r
  | Raise e => Raise (TransportError e)
  end.

(** [raise_for_status]: whatever is no success raises. *)
Definition raise_for_status (r : http_response) : result client_error http_response :=
  if (200 <=? status r) && (status r <? 300) then Ok r else Raise (HTTPStatusError (status r)).

Definition request (method path token : string) (params : list (string * json)) (payload : option (list (string * json)))
    : result client_error json :=
  bind_result (request_raw method path token params payload) (fun r =>
  bind_result (raise_for_status r) (fun r =>
  match decoded r with Some j => Ok j | None => Raise JSONDecodeError end)).

Definition _raise_on_error (r : http_response) (context : string) : result client_error () :=
  if status r =? 401 then Raise (DashboardApiError context (Some 401))
  else if 400 <=? status r then Raise (DashboardApiError context (Some (status r)))
  else Ok ().

Definition _expect_mapping (data : json) (context : string) : result client_error (list (string * json)) :=
  match data with
  | JObj d => Ok d
  | _ => Raise (DashboardApiError context None)
  end.

(** [Model( **item )]. *)
Definition construct (model : string) (item : json) : result client_error (list (string * json)) :=
  match item with
  | JObj d => if accepts model d then Ok d else Raise (ValidationError model)
  | _ => Raise TypeError
  end.

Definition one (model context : string) (data : result client_error json) : result client_error (list (string * json)) :=
  bind_result data (fun data => bind_result (_expect_mapping data context) (fun d => construct model (JObj d))).

Fixpoint each (model : string) (items : list json) : result client_error (list (list (string * json))) :=
  match items with
  | [] => Ok []
  | i :: items => bind_result (construct model i) (fun x => bind_result (each model items) (fun xs => Ok (x :: xs)))
  end.

(** The items of a page, or the answer itself; the keys of an object are no mappings, a
    number is no collection. *)
Definition items_of (data : json) : result client_error (list json) :=
  match data with
  | JObj d =>
      match json_member "items" d with
      | None => Ok []
      | Some (JList l) => Ok l
      | Some (JObj []) => Ok []
      | Some (JStr s) => if str_truthy s then Raise TypeError else Ok []
      | Some _ => Raise TypeError
      end
  | JList l => Ok l
  | JStr s => if str_truthy s then Raise TypeError else Ok []
  | _ => Raise TypeError
  end.

Definition listed (model : string) (data : result client_error json) : result client_error (list (list (string * json))) :=
  bind_result data (fun data => bind_result (items_of data) (each model)).

Definition opt_field {A} (name : string) (f : A -> json) (v : option A) : list (string * json) :=
  match v with Some a => [(name, f a)] | None => [] end.

(** *** The resources *)

Definition sources_list (token : string) (limit : Z) :=
  listed "SourceProfileResponse" (request "GET" "/api/v1/sources" token [("limit", JInt limit)] None).

Definition sources_get (source_id : Z) (token : string) :=
  one "SourceProfileResponse" "source" (request "GET" ("/api/v1/sources/" +:+ str_of_Z source_id) token [] None).

Definition sources_create (token name base_url health_check_path : string) (probe_interval_seconds : Z) (is_active : bool) :=
  let payload := [("name", JStr name); ("base_url", JStr base_url); ("health_check_path", JStr health_check_path);
                  ("probe_interval_seconds", JInt probe_interval_seconds); ("is_active", JBool is_active)] in
  match one "SourceProfileResponse" "create source" (request "POST" "/api/v1/sources" token [] (Some payload)) with
  | Raise (HTTPStatusError code) =>
      if code =? 409 then Raise (DashboardApiError "Source name already registered." (Some 409))
      else Raise (DashboardApiError "Create source" (Some code))
  | r => r
  end.

Definition sources_update (source_id : Z) (token : string) (base_url health_check_path : option string) (probe_interval_seconds : option Z)
    (is_active : option bool) :=
  let payload := opt_field "base_url" JStr base_url ++ opt_field "health_check_path" JStr health_check_path ++
                 opt_field "probe_interval_seconds" JInt probe_interval_seconds ++ opt_field "is_active" JBool is_active in
  one "SourceProfileResponse" "update source" (request "PATCH" ("/api/v1/sources/" +:+ str_of_Z source_id) token [] (Some payload)).

Definition sources_delete (source_id : Z) (token : string) : result client_error () :=
  bind_result (request_raw "DELETE" ("/api/v1/sources/" +:+ str_of_Z source_id) token [] None) (fun resp =>
  if negb (status resp =? 204) then _raise_on_error resp "delete_source" else Ok ()).

Definition sources_probe (source_id : Z) (token : string) :=
  one "SourceHealthResponse" "source health" (request "GET" ("/api/v1/sources/" +:+ str_of_Z source_id +:+ "/health") token [] None).

(** The position of a page. *)
Definition page_params (page page_size : Z) : list (string * json) :=
  [("skip", JInt ((page - 1) * page_size)); ("limit", JInt page_size)].

Definition observations_list (token : string) (page page_size : Z) (source_filter : option string) :=
  let params := page_params page page_size ++
    match source_filter with Some s => if str_truthy s then [("source", JStr s)] else [] | None => [] end in
  one "ObservationListResponse" "observations" (request "GET" "/api/v1/observations" token params None).

Definition observations_get (observation_id : Z) (token : string) :=
  one "ObservationResponse" "observation" (request "GET" ("/api/v1/observations/" +:+ str_of_Z observation_id) token [] None).

Definition scorecards_list (token : string) (limit : Z) :=
  one "ScorecardListResponse" "scorecards" (request "GET" "/api/v1/scorecards" token [("limit", JInt limit)] None).

Definition drift_list (source_id : Z) (token : string) (limit : Z) :=
  listed "DriftEventResponse"
    (request "GET" ("/api/v1/contracts/sources/" +:+ str_of_Z source_id +:+ "/drift-events") token [("limit", JInt limit)] None).

Definition incidents_list (token : string) (status : option string) (limit : Z) :=
  one "DependencyIncidentListResponse" "incidents"
    (request "GET" "/api/v1/incidents" token (("limit", JInt limit) :: opt_field "status" JStr status) None).

Definition incidents_acknowledge (incident_id : Z) (token : string) :=
  one "DependencyIncidentResponse" "acknowledge incident"
    (request "POST" ("/api/v1/incidents/" +:+ str_of_Z incident_id +:+ "/acknowledge") token [] None).

Definition incidents_resolve (incident_id : Z) (token : string) :=
  one "DependencyIncidentResponse" "resolve incident"
    (request "POST" ("/api/v1/incidents/" +:+ str_of_Z incident_id +:+ "/resolve") token [] None).

(** A probe never raises: an exception is its result. *)
Inductive probe_result := Answered (status : Z) (body : json) | Errored (e : client_error).

Definition probe (url_part : string) : probe_result :=
  match request_raw "GET" url_part "" [] None with
  | Raise e => Errored e
  | Ok r => match decoded r with Some j => Answered (status r) j | None => Errored JSONDecodeError end
  end.

Definition health_probes : list (string * probe_result) :=
  [("liveness (/health)", probe "/health"); ("readiness (/readyz)", probe "/readyz")].

Definition health_scheduler_jobs (token : string) :=
  bind_result (request "GET" "/health/jobs-metrics" token [] None) (fun d => _expect_mapping d "scheduler jobs").

Definition metrics_raw (token : string) : result client_error string :=
  bind_result (request_raw "GET" "/metrics" token [] None) (fun r =>
  bind_result (raise_for_status r) (fun r => Ok (text r))).

Definition auth_register (username email password : string) :=
  bind_result (request "POST" "/api/v1/auth/register" "" []
    (Some [("username", JStr username); ("email", JStr email); ("password", JStr password)])) (fun d => _expect_mapping d "register").

Definition auth_login (username password : string) :=
  bind_result (request "POST" "/api/v1/auth/token" "" [] (Some [("username", JStr username); ("password", JStr password)])) (fun d =>
  _expect_mapping d "login").

Definition auth_refresh (refresh_token : string) :=
  bind_result (request "POST" "/api/v1/auth/refresh" "" [] (Some [("refresh_token", JStr refresh_token)])) (fun d =>
  _expect_mapping d "refresh").

(** *** The flat functions: the resources with the token of a manager *)

Definition _extract_token (auth : option DashboardAuth.AuthState) : string :=
  match auth with Some s => DashboardAuth.access_token s | None => "" end.

Definition fetch_sources auth limit := sources_list (_extract_token (Some auth)) limit.
Definition create_source auth name base_url health_check_path probe_interval_seconds is_active :=
  sources_create (_extract_token (Some auth)) name base_url health_check_path probe_interval_seconds is_active.
Definition update_source auth source_id base_url health_check_path probe_interval_seconds is_active :=
  sources_update source_id (_extract_token (Some auth)) base_url health_check_path probe_interval_seconds is_active.
Definition delete_source auth source_id := sources_delete source_id (_extract_token (Some auth)).
Definition fetch_scorecards auth limit := scorecards_list (_extract_token auth) limit.
Definition fetch_drift_events source_id auth limit := drift_list source_id (_extract_token (Some auth)) limit.
Definition fetch_health_status := health_probes.
Definition fetch_scheduler_jobs auth := health_scheduler_jobs (_extract_token (Some auth)).
Definition fetch_prometheus_metrics := metrics_raw "".
Definition fetch_observations auth page page_size source_filter := observations_list (_extract_token (Some auth)) page page_size source_filter.
Definition fetch_observation observation_id auth := observations_get observation_id (_extract_token (Some auth)).
Definition probe_source source_id auth := sources_probe source_id (_extract_token (Some auth)).

End Client.

End DashboardApi.

(** ** Theorems on the session *)

Module SessionTheorems.
Import DashboardAuth.

(** What [main] keeps of a state that began without a session: no expiry is known. *)
Definition timeless (s : AuthState) : Prop :=
  token_expires_at s = None /\ (logged_in s = true -> str_truthy (access_token s) = true).

Lemma timeless_valid s now : timeless s -> is_valid now s = logged_in s.
Proof. intros [He Ha]. unfold is_valid. rewrite He. destruct (logged_in s); [by rewrite Ha | done]. Qed.

Lemma timeless_sidebar now a s : timeless s -> timeless (render_auth_sidebar now a s).
Proof.
  intros Hs. destruct a as [| user post |]; cbn; [done | |].
  - destruct (logged_in s); [done |]. unfold do_login. destruct post as [r|e]; [|done].
    destruct (_ =? _); [|done]. destruct (tokens r) as [[[access|] r']|]; [|done..]. split; [apply Hs | done].
  - destruct (logged_in s); [by split | done].
Qed.

Lemma timeless_main now a r s : timeless s -> main now a r s = (false, render_auth_sidebar now a s).
Proof.
  intros Hs. unfold main, refresh_due. rewrite timeless_valid by (by apply timeless_sidebar).
  by destruct (logged_in _), (str_truthy _).
Qed.

(** Whatever the user does and the ingestor answers, a session of the dashboard never
    refreshes its tokens: the login records no expiry, so that the state counts as valid for
    as long as it is logged in.  From a login on the panels send the same access token until
    the logout, however long it has expired. *)
Theorem session_never_refreshes (runs : list (Q * action * result string answer)) :
  let '(n, s) := session runs no_session in
  n = 0%nat /\ token_expires_at s = None /\ (forall now, is_valid now s = logged_in s) /\
  forall later, Forall (fun r => r.1.2 <> PressLogout) later -> logged_in s = true ->
    session later s = (0%nat, s).
Proof.
  assert (forall runs s, timeless s -> fst (session runs s) = 0%nat /\ timeless (snd (session runs s))) as Hall.
  { induction runs0 as [|[[now a] r] runs0 IH]; intros s Hs; [done |]. cbn [session]. rewrite timeless_main by done.
    destruct (session runs0 _) as [n s'] eqn:Hrun. destruct (IH (render_auth_sidebar now a s)) as [Hn Hs']; [by apply timeless_sidebar |].
    rewrite Hrun in Hn, Hs'. done. }
  destruct (session runs no_session) as [n s] eqn:Hs. destruct (Hall runs no_session) as [Hn Ht]; [by split |].
  rewrite Hs in Hn, Ht. cbn in Hn, Ht. split; [done |]. split; [apply Ht |]. split; [intros now; by apply timeless_valid |].
  intros later Hno Hin. induction Hno as [|[[now a] r] later Ha Hno IH]; [done |]. cbn [session]. rewrite timeless_main by done.
  assert (render_auth_sidebar now a s = s) as ->; [|by rewrite IH].
  cbn in Ha. destruct a; [done | cbn; by rewrite Hin | done].
Qed.

(** Where an expiry is known and near, a refresh that succeeds leaves it as it was: the new
    tokens count as expired at once, and every later run refreshes again. *)
Theorem refresh_keeps_expiry (s : AuthState) (t now : Q) (access r : string) (d : option json) :
  logged_in s = true -> token_expires_at s = Some t -> (t - 30 <= now)%Q -> str_truthy (refresh_token s) = true -> str_truthy r = true ->
  let '(refreshed, s') := main now Nothing (Ok (Answer 200 (Some (Tokens (Some access) (Some r))) d)) s in
  refreshed = true /\ access_token s' = access /\ refresh_token s' = r /\
  forall now', (now <= now')%Q -> is_valid now' s' = false /\ refresh_due now' s' = true.
Proof.
  intros Hl He Hn Hrt Hr.
  assert (forall now', (now <= now')%Q -> is_valid now' s = false) as Hinv.
  { intros now' Hle. unfold is_valid. rewrite Hl, He. destruct (str_truthy (access_token s)); [|done]. cbn. apply Qltb_ge. lra. }
  unfold main. cbn [render_auth_sidebar]. unfold refresh_due at 1. rewrite Hl, Hrt, (Hinv now) by lra. cbn.
  unfold do_refresh. rewrite Hrt. cbn. split; [done |]. split; [done |]. split; [done |].
  intros now' Hle. unfold refresh_due, is_valid. cbn. rewrite Hl, He, Hr. cbn.
  assert (Qltb now' (t - 30) = false) as Hf by (apply Qltb_ge; lra). rewrite Hf. by destruct (str_truthy access).
Qed.

(** A refresh answers true exactly where the ingestor gave it new tokens, which it then
    keeps; otherwise the session is over, unless it has no refresh token: then nothing is
    sent and the session stays as it was, logged in. *)
Theorem refresh_exact (post : result string answer) (s : AuthState) :
  let '(ok, s') := do_refresh post s in
  (ok = true <-> str_truthy (refresh_token s) = true /\
     exists r access refresh, post = Ok r /\ status_code r = 200 /\ tokens r = Some (Tokens (Some access) refresh) /\
       s' = set_tokens access (or_else refresh "") s) /\
  (ok = false -> s' = if str_truthy (refresh_token s) then no_session else s).
Proof.
  unfold do_refresh. destruct (str_truthy (refresh_token s)) eqn:Hr; cbn [negb].
  2:{ split; [|done]. split; [done |]. by intros [? _]. }
  destruct post as [r|e].
  2:{ split; [|done]. split; [done |]. by intros (_ & ? & ? & ? & ? & _). }
  destruct (Z.eqb_spec (status_code r) 200) as [Hst|Hst].
  2:{ split; [|done]. split; [done |]. intros (_ & r' & ? & ? & Heq & ? & _). by simplify_eq. }
  destruct (tokens r) as [[[access|] refresh]|] eqn:Ht.
  - split; [|done]. split; [|done]. intros _. split; [done |]. by exists r, access, refresh.
  - split; [|done]. split; [done |]. intros (_ & r' & ? & ? & Heq & _ & Ht' & _). simplify_eq.
  - split; [|done]. split; [done |]. intros (_ & r' & ? & ? & Heq & _ & Ht' & _). simplify_eq.
Qed.

End SessionTheorems.

(** ** Theorems on the client *)

Module ClientTheorems.
Import DashboardAuth DashboardApi.

(** The calls of the flat functions. *)
Inductive flat :=
| FetchSources (limit : Z)
| CreateSource (name base_url health_check_path : string) (probe_interval_seconds : Z) (is_active : bool)
| UpdateSource (source_id : Z) (base_url health_check_path : option string) (probe_interval_seconds : option Z) (is_active : option bool)
| DeleteSource (source_id : Z)
| FetchScorecards (limit : Z)
| FetchDriftEvents (source_id limit : Z)
| FetchHealthStatus
| FetchSchedulerJobs
| FetchPrometheusMetrics
| FetchObservations (page page_size : Z) (source_filter : option string)
| FetchObservation (observation_id : Z)
| ProbeSource (source_id : Z).

Inductive outcome :=
| OneObject (r : result client_error (list (string * json)))
| Objects (r : result client_error (list (list (string * json))))
| Done (r : result client_error ())
| Probes (l : list (string * probe_result))
| Text (r : result client_error string).

Section facts.
Context (accepts : string -> list (string * json) -> bool).

Definition run_flat (exchange : call -> result string http_response) (auth : AuthState) (f : flat) : outcome :=
  match f with
  | FetchSources limit => Objects (fetch_sources exchange accepts auth limit)
  | CreateSource n b h p a => OneObject (create_source exchange accepts auth n b h p a)
  | UpdateSource i b h p a => OneObject (update_source exchange accepts auth i b h p a)
  | DeleteSource i => Done (delete_source exchange auth i)
  | FetchScorecards limit => OneObject (fetch_scorecards exchange accepts (Some auth) limit)
  | FetchDriftEvents i limit => Objects (fetch_drift_events exchange accepts i auth limit)
  | FetchHealthStatus => Probes (fetch_health_status exchange)
  | FetchSchedulerJobs => OneObject (fetch_scheduler_jobs exchange auth)
  | FetchPrometheusMetrics => Text (fetch_prometheus_metrics exchange)
  | FetchObservations p k s => OneObject (fetch_observations exchange accepts auth p k s)
  | FetchObservation i => OneObject (fetch_observation exchange accepts i auth)
  | ProbeSource i => OneObject (probe_source exchange accepts i auth)
  end.

(** Two exchanges that differ at most on what is protected and lacks the token. *)
Definition agree (auth : AuthState) (e1 e2 : call -> result string http_response) : Prop :=
  forall c, headers c = auth_headers auth \/ OpenApi._is_protected_v1_path (path c) = false -> e1 c = e2 c.

Lemma request_raw_agree auth e1 e2 m p token ps pl :
  agree auth e1 e2 -> token = access_token auth \/ OpenApi._is_protected_v1_path p = false ->
  request_raw e1 m p token ps pl = request_raw e2 m p token ps pl.
Proof.
  intros Ha Hp. unfold request_raw. rewrite Ha; [done |]. cbn. by destruct Hp as [-> | ?]; [left | right].
Qed.

Lemma request_agree auth e1 e2 m p token ps pl :
  agree auth e1 e2 -> token = access_token auth \/ OpenApi._is_protected_v1_path p = false ->
  request e1 m p token ps pl = request e2 m p token ps pl.
Proof. intros Ha Hp. unfold request. by rewrite (request_raw_agree auth e1 e2). Qed.

(** No flat function asks for a protected path without the token of its manager: what it
    returns depends only on the exchanges that carry the manager's header, and on those
    with the public paths. *)
Theorem protected_paths_carry_token (auth : AuthState) (e1 e2 : call -> result string http_response) (f : flat) :
  agree auth e1 e2 -> run_flat e1 auth f = run_flat e2 auth f.
Proof.
  intros Ha. destruct f; cbn [run_flat];
    unfold fetch_sources, create_source, update_source, delete_source, fetch_scorecards, fetch_drift_events, fetch_health_status,
      fetch_scheduler_jobs, fetch_prometheus_metrics, fetch_observations, fetch_observation, probe_source,
      sources_list, sources_create, sources_update, sources_delete, scorecards_list, drift_list, health_probes, probe,
      health_scheduler_jobs, metrics_raw, observations_list, observations_get, sources_probe;
    rewrite ?(request_agree auth e1 e2), ?(request_raw_agree auth e1 e2) by first [exact Ha | left; reflexivity | right; reflexivity]; done.
Qed.

(** *** Errors *)

(** The creation of a source tells every refusal of the ingestor as an error of the
    dashboard with its status, a conflict by its name; a success that is no profile is
    told as such; only the transport, a body that is no JSON and a profile the model
    refuses come through as they are. *)
Theorem creation_errors_exact (exchange : call -> result string http_response) (token name base_url path : string) (interval : Z) (active : bool) (r : http_response) :
  exchange (Call "POST" "/api/v1/sources" (bearer token) []
    (Some [("name", JStr name); ("base_url", JStr base_url); ("health_check_path", JStr path);
           ("probe_interval_seconds", JInt interval); ("is_active", JBool active)])) = Ok r ->
  let out := sources_create exchange accepts token name base_url path interval active in
  ((status r < 200 \/ 300 <= status r) ->
     out = Raise (DashboardApiError (if status r =? 409 then "Source name already registered." else "Create source") (Some (status r)))) /\
  (200 <= status r < 300 -> forall d, out = Ok d <-> decoded r = Some (JObj d) /\ accepts "SourceProfileResponse" d = true) /\
  (forall code, out <> Raise (HTTPStatusError code)).
Proof.
  intros Hx out. unfold out, sources_create, one, request, request_raw. rewrite Hx. cbn [bind_result]. unfold raise_for_status.
  destruct (Z.leb_spec 200 (status r)), (Z.ltb_spec (status r) 300); cbn [andb bind_result].
  2-4: split; [intros _; destruct (Z.eqb_spec (status r) 409) as [-> | ?]; done | split; [lia | by destruct (status r =? 409)]].
  split; [lia |]. destruct (decoded r) as [j|]; [|by split; [intros _ d; split; [done | by intros [? _]] | done]].
  cbn [bind_result]. destruct j as [| | | | | |d0]; cbn [_expect_mapping bind_result construct]; try (split; [|done]; intros _ d; split; [done | by intros [? _]]).
  destruct (accepts "SourceProfileResponse" d0) eqn:Hacc; (split; [|done]); intros _ d.
  - split; [by intros [= ->] | by intros [[= ->] _]].
  - split; [done |]. intros [[= ->] ?]. congruence.
Qed.

(** A deletion that the ingestor answers with anything below 400 counts as done, a
    redirection included; 401 and every other refusal are told with their status. *)
Theorem deletion_outcome (exchange : call -> result string http_response) (source_id : Z) (token : string) (r : http_response) :
  exchange (Call "DELETE" ("/api/v1/sources/" +:+ str_of_Z source_id) (bearer token) [] None) = Ok r ->
  sources_delete exchange source_id token =
    if status r <? 400 then Ok () else Raise (DashboardApiError "delete_source" (Some (status r))).
Proof.
  intros Hx. unfold sources_delete, request_raw. rewrite Hx. cbn [bind_result]. unfold _raise_on_error.
  destruct (Z.eqb_spec (status r) 204) as [->|H204]; [done |]. cbn [negb].
  destruct (Z.eqb_spec (status r) 401) as [->|H401]; [done |].
  destruct (Z.leb_spec 400 (status r)), (Z.ltb_spec (status r) 400); try done; lia.
Qed.

End facts.

(** *** Pages *)

Import Observations.

(** The rows the ingestor answers for the parameters of a page. *)
Definition page_of (ctx : context) (source : option string) (w : world) (page page_size : Z) : result error (list (Z * Observation) * nat) :=
  match page_params page page_size with
  | [(_, JInt skip); (_, JInt limit)] => get_observations ctx (Z.to_nat skip) (Z.to_nat limit) source w
  | _ => get_observations ctx 0 0 source w
  end.

(** The last page the panel goes on to. *)
Definition total_pages (total : nat) (page_size : Z) : Z := Z.max 1 ((Z.of_nat total + page_size - 1) / page_size).

Lemma pages_prefix {A} (l : list A) (k n : nat) :
  concat (map (fun p => take k (drop (p * k) l)) (seq 0 n)) = take (n * k) l.
Proof.
  induction n as [|n IH]; [done |]. rewrite seq_S, map_app, concat_app, IH. cbn. rewrite app_nil_r.
  rewrite Nat.add_comm. by rewrite take_take_drop.
Qed.

(** The pages from the first to the last the panel offers, each asked for by its skip
    and limit, are together all the observations that the caller sees, once each and in
    their order. *)
Theorem pages_tile_listing (ctx : context) (source : option string) (w : world) (page_size : Z) (total : nat) (first : list (Z * Observation)) :
  0 < page_size -> page_of ctx source w 1 page_size = Ok (first, total) ->
  exists all, get_observations ctx 0 total source w = Ok (all, total) /\ length all = total /\
    concat (map (fun p => match page_of ctx source w (Z.of_nat p) page_size with Ok (rows, _) => rows | Raise _ => [] end)
      (seq 1 (Z.to_nat (total_pages total page_size)))) = all.
Proof.
  intros Hk Hfirst. unfold page_of, page_params in *. revert Hfirst. unfold get_observations.
  destruct (source_filter source w) as [p|e]; [|done]. cbn [bind_result]. set (l := select _ _). intros [= _ Htotal].
  exists l. rewrite drop_0, <- Htotal, firstn_all. split; [done |]. split; [done |].
  set (n := Z.to_nat (total_pages (length l) page_size)).
  rewrite <- (seq_shift n 0), map_map.
  rewrite (map_ext _ (fun i => take (Z.to_nat page_size) (drop (i * Z.to_nat page_size) l))).
  - rewrite pages_prefix. apply take_ge. unfold n, total_pages.
    pose proof (Z.div_mod (Z.of_nat (length l) + page_size - 1) page_size ltac:(lia)) as Hdm.
    pose proof (Z.mod_pos_bound (Z.of_nat (length l) + page_size - 1) page_size ltac:(lia)).
    set (q := (Z.of_nat (length l) + page_size - 1) / page_size) in *. nia.
  - intros i. do 2 f_equal. rewrite <- (Z2Nat.id page_size) at 1 by lia. rewrite Nat2Z.inj_succ.
    replace (Z.succ (Z.of_nat i) - 1) with (Z.of_nat i) by lia. by rewrite <- Nat2Z.inj_mul, Nat2Z.id.
Qed.

End ClientTheorems.

(** ** Witnesses *)

Module DashboardWitnesses.
Import DashboardAuth DashboardApi SessionTheorems ClientTheorems.

Definition granted : result string answer := Ok (Answer 200 (Some (Tokens (Some "jwt") (Some "opaque"))) None).

(** A login, and runs an hour and a day later. *)
Definition long_session : list (Q * action * result string answer) :=
  [(0, SubmitLogin "ana" granted, Raise ""); (3600, Nothing, granted); (86400, Nothing, granted)]%Q.

Lemma session_never_refreshes_witness :
  fst (session long_session no_session) = 0%nat /\ access_token (snd (session long_session no_session)) = "jwt".
Proof.
  generalize (session_never_refreshes long_session). destruct (session long_session no_session) as [n s] eqn:Hs.
  intros (-> & _). split; [done |]. vm_compute in Hs. by injection Hs as <-.
Defined.

Definition short_lived : AuthState := login 0 "jwt" "opaque" "ana" (Some 1800) no_session.

Lemma refresh_keeps_expiry_witness :
  is_valid 2000 (snd (main 2000 Nothing granted short_lived)) = false.
Proof.
  generalize (refresh_keeps_expiry short_lived (0 + inject_Z 1800) 2000 "jwt" "opaque" None eq_refl eq_refl ltac:(vm_compute; discriminate) eq_refl eq_refl).
  change (Ok (Answer 200 (Some (Tokens (Some "jwt") (Some "opaque"))) None)) with granted.
  destruct (main 2000 Nothing granted short_lived) as [b s]. intros (_ & _ & _ & Hv). apply (Hv 2000%Q). lra.
Defined.

Definition lenient (model : string) (d : list (string * json)) : bool := true.
Definition nothing_there (c : call) : result string http_response := Ok (HttpResponse 404 None "").

(** The exchange that refuses what is protected and has no token. *)
Definition guarded (auth : AuthState) (c : call) : result string http_response :=
  if OpenApi._is_protected_v1_path (path c) && negb (bool_decide (headers c = auth_headers auth)) then Raise "refused" else nothing_there c.

Lemma protected_paths_carry_token_witness :
  run_flat lenient (guarded short_lived) short_lived (ProbeSource 3) = OneObject (Raise (HTTPStatusError 404)).
Proof.
  rewrite (protected_paths_carry_token lenient short_lived (guarded short_lived) nothing_there); [by vm_compute |].
  intros c Hc. unfold guarded. destruct (OpenApi._is_protected_v1_path (path c)) eqn:Hp; [|done].
  destruct Hc as [-> | ?]; [|done]. by rewrite bool_decide_eq_true_2.
Defined.

Lemma creation_errors_exact_witness :
  sources_create (fun _ => Ok (HttpResponse 409 None "")) lenient "jwt" "weather" "https://example.org" "/health" 60 true
  = Raise (DashboardApiError "Source name already registered." (Some 409)).
Proof.
  edestruct (creation_errors_exact lenient (fun _ => Ok (HttpResponse 409 None "")) "jwt" "weather" "https://example.org" "/health" 60 true)
    as [Ha _]; [reflexivity |]. apply Ha. right. by vm_compute.
Defined.

Lemma deletion_outcome_witness :
  sources_delete (fun _ => Ok (HttpResponse 307 None "")) 3 "jwt" = Ok ().
Proof. erewrite deletion_outcome; [|reflexivity]. reflexivity. Defined.

Lemma pages_tile_listing_witness :
  exists all, Observations.get_observations ObservationWitnesses.seven 0 1 None ObservationWitnesses.one_observation = Ok (all, 1%nat) /\ length all = 1%nat.
Proof.
  edestruct (pages_tile_listing ObservationWitnesses.seven None ObservationWitnesses.one_observation 25 1) as (all & Hall & Hl & _);
    [lia | by vm_compute |]. by exists all.
Defined.

End DashboardWitnesses.
