(* ===== verification/ReadRoutes.v ===== *)
(** * The reading endpoints (api/routes/reporting.py, scorecards.py, abuse_detection.py and
    the listing and the summary of source_registry.py)

    The declared bounds and defaults of the parameters, the guards, and the calls of the
    read models.  A guard is resolved before the parameters are validated, and a parameter
    out of its bounds is answered 422 before anything is read.  What a guard says of the
    caller is an argument. *)

From S2P Require Import Prelude Db SourceRegistry ContractDrift ReadModels Scorecards Reporting Executive AbuseDetection.

Module ReadRoutes.
Import ReadModels.

Inductive http (F A : Type) :=
| Answer (status : Z) (a : A)
| NotFound (detail : string)
| Unprocessable (parameter : string)
| Refused (f : F).
Arguments Answer {F A}.
Arguments NotFound {F A}.
Arguments Unprocessable {F A}.
Arguments Refused {F A}.

Definition MAX_PAGE_SIZE : Z := 1000.
Definition DEFAULT_PAGE_SIZE : Z := 100.
Definition REPORTING_DEFAULT_DAYS : Z := 7.
Definition REPORTING_MAX_DAYS : Z := 90.
Definition REPORTING_DEFAULT_COHORT_LIMIT : Z := 10.
Definition REPORTING_DEFAULT_HEATMAP_LIMIT : Z := 20.
Definition REPORTING_DEFAULT_COST_LIMIT : Z := 20.
Definition REPORTING_DEFAULT_FRESHNESS_LIMIT : Z := 20.
Definition REPORTING_DEFAULT_SLA_THRESHOLD_HOURS : Z := 24.
Definition REPORTING_MAX_SLA_THRESHOLD_HOURS : Z := 168.
Definition REPORTING_EXEC_SUMMARY_DEFAULT_SOURCE_LIMIT : Z := 50.
Definition SCORECARD_DEFAULT_DAYS : Z := 7.
Definition SCORECARD_MAX_DAYS : Z := 90.
Definition SCORECARD_DEFAULT_LIMIT : Z := 20.
Definition SCORECARD_DEFAULT_SLO_TARGET_PCT : Q := 999 # 10.
Definition SCORECARD_SLO_MIN_PCT : Q := 90.
Definition SCORECARD_SLO_MAX_PCT : Q := 100.

(** A parameter with its bounds: what follows sees its value, or the default's. *)
Definition query {F A} (name : string) (lo : Z) (hi : option Z) (given : option Z) (d : Z) (k : Z -> http F A) : http F A :=
  let v := or_else given d in
  if (lo <=? v) && match hi with Some h => v <=? h | None => true end then k v else Unprocessable name.

Definition opt_query {F A} (name : string) (lo : Z) (hi : option Z) (given : option Z) (k : option Z -> http F A) : http F A :=
  match given with
  | None => k None
  | Some v => if (lo <=? v) && match hi with Some h => v <=? h | None => true end then k (Some v) else Unprocessable name
  end.

Definition query_q {F A} (name : string) (lo hi : Q) (given : option Q) (d : Q) (k : Q -> http F A) : http F A :=
  let v := or_else given d in
  if Qle_bool lo v && Qle_bool v hi then k v else Unprocessable name.

Section Routes.
Context {F : Type}.

(** What [casbin_guard] of these roles says of the caller: a refusal, or nothing. *)
Context (casbin_guard : list string -> option F).
Context (verify_jwt_token : option F).

Definition guarded {A} (refusal : option F) (k : http F A) : http F A :=
  match refusal with Some f => Refused f | None => k end.

(** *** Reporting *)

Definition get_kpi_rollups (now : datetime) (days source_id limit : option Z) (sources : profiles) (t : events)
    : http F (list Metrics.MetricSeries * Z) :=
  query "days" 1 (Some REPORTING_MAX_DAYS) days REPORTING_DEFAULT_DAYS (fun n =>
  opt_query "source_id" 1 None source_id (fun only =>
  query "limit" 1 (Some MAX_PAGE_SIZE) limit REPORTING_DEFAULT_COHORT_LIMIT (fun lim =>
  let items := Metrics.list_metric_series now n only (Z.to_nat lim) sources t in
  Answer 200 (items, zlen items)))).

Definition get_cohort_comparison (now : datetime) (days limit : option Z) (sources : profiles) (t : events)
    : http F (list Metrics.CohortReport * Z) :=
  query "days" 1 (Some REPORTING_MAX_DAYS) days REPORTING_DEFAULT_DAYS (fun n =>
  query "limit" 1 (Some MAX_PAGE_SIZE) limit REPORTING_DEFAULT_COHORT_LIMIT (fun lim =>
  let items := Metrics.list_cohort_reports now n (Z.to_nat lim) sources t in
  Answer 200 (items, zlen items))).

Definition get_dashboard_presets : http F (list Presets.DashboardPreset * Z) :=
  Answer 200 (Presets.list_dashboard_presets, zlen Presets.list_dashboard_presets).

Definition create_reporting_export (timestamp : datetime -> Q) (now : datetime) (preset_id export_format : string)
    : http F Presets.ExportJob :=
  guarded (casbin_guard ["user"; "admin"]) (Answer 201 (Presets.create_export_job timestamp now preset_id export_format)).

Definition get_reporting_drift_heatmap (now : datetime) (days : option Z) (source_ids : option (list Z)) (limit : option Z)
    (sources : profiles) (t : events) : http F Heatmap.DriftHeatmapResponse :=
  query "days" 1 (Some REPORTING_MAX_DAYS) days REPORTING_DEFAULT_DAYS (fun n =>
  query "limit" 1 (Some MAX_PAGE_SIZE) limit REPORTING_DEFAULT_HEATMAP_LIMIT (fun lim =>
  Answer 200 (Heatmap.get_drift_heatmap now n source_ids (Z.to_nat lim) sources t))).

Definition get_reporting_cost_value (now : datetime) (days : option Z) (source_ids : option (list Z)) (limit : option Z)
    (sources : profiles) (t : CostValue.snapshots) (evs : events) : http F CostValue.CostValueResponse :=
  query "days" 1 (Some REPORTING_MAX_DAYS) days REPORTING_DEFAULT_DAYS (fun n =>
  query "limit" 1 (Some MAX_PAGE_SIZE) limit REPORTING_DEFAULT_COST_LIMIT (fun lim =>
  Answer 200 (CostValue.get_cost_value_chart now n source_ids (Z.to_nat lim) sources t evs))).

Definition get_reporting_freshness_sla (name_le : string -> string -> bool) (now : datetime) (days : option Z)
    (source_ids : option (list Z)) (limit sla_threshold_hours : option Z) (sources : profiles) (t : Freshness.snapshots)
    : http F Freshness.FreshnessSLAResponse :=
  query "days" 1 (Some REPORTING_MAX_DAYS) days REPORTING_DEFAULT_DAYS (fun n =>
  query "limit" 1 (Some MAX_PAGE_SIZE) limit REPORTING_DEFAULT_FRESHNESS_LIMIT (fun lim =>
  query "sla_threshold_hours" 1 (Some REPORTING_MAX_SLA_THRESHOLD_HOURS) sla_threshold_hours REPORTING_DEFAULT_SLA_THRESHOLD_HOURS (fun hours =>
  Answer 200 (Freshness.get_freshness_sla name_le now n source_ids (Z.to_nat lim) hours sources t)))).

Definition get_reporting_executive_summary (name_le : string -> string -> bool) (at_ : Executive.clocks) (days limit sla_threshold_hours : option Z)
    (sources : profiles) (t : CostValue.snapshots) (evs : events) : http F Executive.ExecutiveSummaryResponse :=
  query "days" 1 (Some REPORTING_MAX_DAYS) days REPORTING_DEFAULT_DAYS (fun n =>
  query "limit" 1 (Some MAX_PAGE_SIZE) limit REPORTING_EXEC_SUMMARY_DEFAULT_SOURCE_LIMIT (fun lim =>
  query "sla_threshold_hours" 1 (Some REPORTING_MAX_SLA_THRESHOLD_HOURS) sla_threshold_hours REPORTING_DEFAULT_SLA_THRESHOLD_HOURS (fun hours =>
  Answer 200 (Executive.get_executive_summary name_le at_ n (Z.to_nat lim) hours Executive.REPORTING_EXEC_SUMMARY_MAX_ACTIONS sources t evs)))).

(** *** Scorecards *)

Definition get_scorecards (now : datetime) (made : Z -> datetime) (days source_id : option Z) (slo_target_pct : option Q) (limit : option Z)
    (sources : profiles) (t : Scorecards.samples) : http F (list Scorecards.ProviderScorecard * Z) :=
  guarded verify_jwt_token (
  query "days" 1 (Some SCORECARD_MAX_DAYS) days SCORECARD_DEFAULT_DAYS (fun n =>
  opt_query "source_id" 1 None source_id (fun only =>
  query_q "slo_target_pct" SCORECARD_SLO_MIN_PCT SCORECARD_SLO_MAX_PCT slo_target_pct SCORECARD_DEFAULT_SLO_TARGET_PCT (fun slo =>
  query "limit" 1 (Some MAX_PAGE_SIZE) limit SCORECARD_DEFAULT_LIMIT (fun lim =>
  let items := Scorecards.list_scorecards now made n only slo (Z.to_nat lim) sources t in
  Answer 200 (items, zlen items)))))).

Definition get_provider_scorecard (now made : datetime) (source_id : Z) (days : option Z) (slo_target_pct : option Q)
    (sources : profiles) (t : Scorecards.samples) : http F Scorecards.ProviderScorecard :=
  guarded verify_jwt_token (
  query "days" 1 (Some SCORECARD_MAX_DAYS) days SCORECARD_DEFAULT_DAYS (fun n =>
  query_q "slo_target_pct" SCORECARD_SLO_MIN_PCT SCORECARD_SLO_MAX_PCT slo_target_pct SCORECARD_DEFAULT_SLO_TARGET_PCT (fun slo =>
  match Scorecards.get_scorecard now made source_id n slo sources t with
  | Some scorecard => Answer 200 scorecard
  | None => NotFound ("Source " +:+ str_of_Z source_id +:+ " not found.")
  end))).

(** *** Abuse signals *)

Import Abuse.

Record signal_page := Page {
  items : list (Z * SecurityEvent);
  total : nat;
  page_number : Z;
  page_size_used : Z
}.

Definition list_signals_endpoint (tenant_id : option Z) (signal_type severity actor_type : option string) (resolved : option bool)
    (page page_size limit offset : option Z) (t : Abuse.events) : http F signal_page :=
  guarded (casbin_guard ["user"; "admin"]) (
  opt_query "tenant_id" 1 None tenant_id (fun tenant =>
  query "page" 1 None page 1 (fun page =>
  query "page_size" 1 (Some MAX_PAGE_SIZE) page_size DEFAULT_PAGE_SIZE (fun page_size =>
  opt_query "limit" 1 (Some MAX_PAGE_SIZE) limit (fun limit =>
  opt_query "offset" 0 None offset (fun offset =>
  let effective_page_size := or_else limit page_size in
  let effective_page := match offset with Some o => o / effective_page_size + 1 | None => page end in
  let '(rows, n) := list_signals tenant signal_type severity actor_type resolved (Z.to_nat page) (Z.to_nat page_size)
                      (option_map Z.to_nat offset) (option_map Z.to_nat limit) t in
  Answer 200 (Page rows n effective_page effective_page_size))))))).

(** The answer is the row with this id. *)
Definition create_signal_endpoint (now : datetime) (payload : AbuseSignalCreate) (t : Abuse.events) : http F Z * Abuse.events :=
  match casbin_guard ["user"; "admin"] with
  | Some f => (Refused f, t)
  | None =>
      if valid_signal payload then
        let '(i, t') := create_signal now payload t in
        (Answer 201 i, t')
      else (Unprocessable "payload", t)
  end.

Definition get_signal_endpoint (signal_id : Z) (tenant_id : option Z) (t : Abuse.events) : http F SecurityEvent :=
  guarded (casbin_guard ["user"; "admin"]) (
  opt_query "tenant_id" 1 None tenant_id (fun tenant =>
  match get_signal signal_id tenant t with
  | Some e => Answer 200 e
  | None => NotFound "Signal not found"
  end)).

Definition valid_resolution (resolved_by : string) (notes : option string) : bool :=
  length_between 1 128 resolved_by && optional (length_between 0 ABUSE_NOTES_MAX_LEN) notes.

Definition resolve_signal_endpoint (now : datetime) (signal_id : Z) (resolved_by : string) (notes : option string) (t : Abuse.events)
    : http F SecurityEvent * Abuse.events :=
  match casbin_guard ["user"; "admin"] with
  | Some f => (Refused f, t)
  | None =>
      if valid_resolution resolved_by notes then
        match resolve_signal now signal_id resolved_by notes t with
        | (Some e, t') => (Answer 200 e, t')
        | (None, t') => (NotFound "Signal not found or already resolved", t)
        end
      else (Unprocessable "payload", t)
  end.

Definition get_summary_endpoint (tenant_id : option Z) (t : Abuse.events) : http F AbuseSummaryResponse :=
  guarded (casbin_guard ["user"; "admin"]) (
  opt_query "tenant_id" 1 None tenant_id (fun tenant => Answer 200 (get_summary tenant t))).

(** *** Sources *)

Record SourceProfileListResponse := SourceList {
  source_items : list (Z * SourceRegistry.SourceProfile);
  source_total : nat;
  source_offset : Z;
  source_limit : Z
}.

Definition list_sources (active : option bool) (offset limit : option Z) (sources : profiles) : http F SourceProfileListResponse :=
  guarded verify_jwt_token (
  query "offset" 0 None offset 0 (fun off =>
  query "limit" 1 (Some MAX_PAGE_SIZE) limit 20 (fun lim =>
  let '(found, total) := SourceRegistry.get_source_profiles active (Z.to_nat off) (Z.to_nat lim) sources in
  Answer 200 (SourceList found total off lim)))).

Definition source_summary (sources : profiles) : http F SourceRegistry.SourceSummaryResponse :=
  guarded verify_jwt_token (Answer 200 (SourceRegistry.get_source_summary sources)).

End Routes.

End ReadRoutes.

(** ** Theorems *)

Module ReadRouteTheorems.
Import ReadRoutes ReadModels ReadModelFacts Abuse.

Section facts.
Context {F : Type} (casbin_guard : list string -> option F) (verify_jwt_token : option F).

Lemma query_answer {A} name lo hi given d (k : Z -> http F A) status a :
  query name lo hi given d k = Answer status a ->
  lo <= or_else given d /\ (forall h, hi = Some h -> or_else given d <= h) /\ k (or_else given d) = Answer status a.
Proof.
  unfold query. destruct (Z.leb_spec lo (or_else given d)); [|done]. cbn. destruct hi as [h|].
  - destruct (Z.leb_spec (or_else given d) h); [|done]. intros Hk. split; [done |]. split; [|done]. by intros ? [= <-].
  - intros Hk. done.
Qed.

Lemma opt_query_answer {A} name lo hi given (k : option Z -> http F A) status a :
  opt_query name lo hi given k = Answer status a ->
  (forall v, given = Some v -> lo <= v /\ (forall h, hi = Some h -> v <= h)) /\ k given = Answer status a.
Proof.
  unfold opt_query. destruct given as [v|]; [|by intros Hk; split].
  destruct (Z.leb_spec lo v); [|done]. cbn. destruct hi as [h|].
  - destruct (Z.leb_spec v h); [|done]. intros Hk. split; [|done]. intros ? [= <-]. split; [done |]. by intros ? [= <-].
  - intros Hk. split; [|done]. by intros ? [= <-].
Qed.

(** An answer of the reports on series and cohorts was asked for within the declared
    bounds and holds no more rows than its limit; its total is the number of the rows it
    shows, not of those there are. *)
Theorem reports_within_bounds (now : datetime) (days source_id limit : option Z) (sources : profiles) (t : ReadModels.events) :
  (forall status series n, get_kpi_rollups (F := F) now days source_id limit sources t = Answer status (series, n) ->
     status = 200 /\ 1 <= or_else days 7 <= 90 /\ 1 <= or_else limit 10 <= 1000 /\ n = zlen series /\ n <= or_else limit 10) /\
  (forall status cohorts n, get_cohort_comparison (F := F) now days limit sources t = Answer status (cohorts, n) ->
     status = 200 /\ 1 <= or_else days 7 <= 90 /\ 1 <= or_else limit 10 <= 1000 /\ n = zlen cohorts /\ n <= or_else limit 10).
Proof.
  split; intros status rows n.
  - unfold get_kpi_rollups. intros (Hd & Hd' & Ha)%query_answer. apply opt_query_answer in Ha as [_ Ha].
    apply query_answer in Ha as (Hl & Hl' & Ha). injection Ha as <- <- <-.
    specialize (Hd' _ eq_refl). specialize (Hl' _ eq_refl).
    unfold REPORTING_DEFAULT_DAYS, REPORTING_MAX_DAYS, REPORTING_DEFAULT_COHORT_LIMIT, MAX_PAGE_SIZE in *.
    do 4 (split; [done |]). set (lim := or_else limit 10) in *.
    assert (length (Metrics.list_metric_series now (or_else days 7%Z) source_id (Z.to_nat lim) sources t) <= Z.to_nat lim)%nat as Hlen; [|unfold zlen; lia].
    unfold Metrics.list_metric_series. pose proof (recent_sources_length (one_of source_id) (Z.to_nat lim) sources) as Hr.
    destruct (recent_sources (one_of source_id) (Z.to_nat lim) sources) as [|x l]; [cbn; lia |].
    etrans; [apply MetricTheorems.series_length | exact Hr].
  - unfold get_cohort_comparison. intros (Hd & Hd' & Ha)%query_answer.
    apply query_answer in Ha as (Hl & Hl' & Ha). injection Ha as <- <- <-.
    specialize (Hd' _ eq_refl). specialize (Hl' _ eq_refl).
    unfold REPORTING_DEFAULT_DAYS, REPORTING_MAX_DAYS, REPORTING_DEFAULT_COHORT_LIMIT, MAX_PAGE_SIZE in *.
    do 4 (split; [done |]). set (lim := or_else limit 10) in *.
    assert (length (Metrics.list_cohort_reports now (or_else days 7%Z) (Z.to_nat lim) sources t) <= Z.to_nat lim)%nat as Hlen; [|unfold zlen; lia].
    rewrite MetricTheorems.cohort_reports_unfold. cbn zeta. rewrite MetricTheorems.ranked_length, order_by_length, length_map.
    apply recent_sources_length.
Qed.

(** The signals that match the filters, from the newest. *)
Definition matching (tenant : option Z) (typ sev actor : option string) (resolved : option bool) (t : Abuse.events) : list (Z * SecurityEvent) :=
  order_by newest (select (fun e => is_abuse e && in_tenant tenant e && column_is signal_type typ e &&
      column_is severity sev e && column_is actor_type actor e && resolution_is resolved e) t).

(** A page of signals holds, of all the matching ones from the newest, those from its
    offset on, at most its size; the page number it names is the page with these rows
    exactly where the offset is a multiple of the size. *)
Theorem signal_page_number (tenant : option Z) (typ sev actor : option string) (resolved : option bool) (page page_size limit offset : option Z)
    (t : Abuse.events) (status : Z) (p : signal_page) :
  list_signals_endpoint casbin_guard tenant typ sev actor resolved page page_size limit offset t = Answer status p ->
  let size := page_size_used p in
  let start := match offset with Some o => o | None => (or_else page 1 - 1) * size end in
  1 <= size <= 1000 /\ size = or_else limit (or_else page_size 100) /\ total p = length (matching tenant typ sev actor resolved t) /\
  items p = take (Z.to_nat size) (drop (Z.to_nat start) (matching tenant typ sev actor resolved t)) /\
  ((page_number p - 1) * size = start <-> start mod size = 0).
Proof.
  unfold list_signals_endpoint, guarded. destruct (casbin_guard _) as [f|]; [done |].
  intros [_ Ha]%opt_query_answer. apply query_answer in Ha as (Hp & _ & Ha). apply query_answer in Ha as (Hs & Hs' & Ha).
  apply opt_query_answer in Ha as [Hl Ha]. apply opt_query_answer in Ha as [Ho Ha].
  specialize (Hs' _ eq_refl). unfold DEFAULT_PAGE_SIZE, MAX_PAGE_SIZE in *. set (sz := or_else page_size 100) in *.
  assert (1 <= or_else limit sz <= 1000) as Hsize.
  { destruct limit as [l|]; [|done]. destruct (Hl l eq_refl) as [? Hh]. specialize (Hh _ eq_refl). done. }
  unfold list_signals in Ha. injection Ha as <- <-. cbn [page_size_used total page_number items].
  split; [done |]. split; [done |]. split; [unfold matching; by rewrite order_by_length |]. split.
  - f_equal; [by destruct limit |]. unfold matching. f_equal. destruct offset as [o|]; cbn; [done |].
    rewrite Z2Nat.inj_mul by lia. f_equal; [lia | by destruct limit].
  - destruct offset as [o|].
    + replace (o / or_else limit sz + 1 - 1) with (o / or_else limit sz) by lia.
      pose proof (Z.div_mod o (or_else limit sz) ltac:(lia)). split; nia.
    + split; [intros _; by rewrite Z.mod_mul by lia | done].
Qed.

(** The signals are no one tenant's: an admitted caller is answered the same whoever it
    is, the signals of every tenant where it names none; it may raise a signal, which the
    description keeps for administrators, and resolve any tenant's, and a second resolution
    is a 404 that changes nothing. *)
Theorem signals_unscoped (guard' : list string -> option F) (t : Abuse.events) :
  casbin_guard ["user"; "admin"] = None -> guard' ["user"; "admin"] = None ->
  (forall tenant typ sev actor resolved page page_size limit offset,
     list_signals_endpoint casbin_guard tenant typ sev actor resolved page page_size limit offset t =
     list_signals_endpoint guard' tenant typ sev actor resolved page page_size limit offset t) /\
  (forall now p i t', create_signal now p t = (i, t') -> valid_signal p = true -> create_signal_endpoint casbin_guard now p t = (Answer 201 i, t')) /\
  (forall now i by_ note e t', valid_resolution by_ note = true -> resolve_signal now i by_ note t = (Some e, t') ->
     resolve_signal_endpoint casbin_guard now i by_ note t = (Answer 200 e, t') /\
     forall later other n, valid_resolution other n = true ->
       resolve_signal_endpoint guard' later i other n t' = (NotFound "Signal not found or already resolved", t')).
Proof.
  intros Hg Hg'. split; [|split].
  - intros. unfold list_signals_endpoint. by rewrite Hg, Hg'.
  - intros now p i t' Hc Hv. unfold create_signal_endpoint. by rewrite Hg, Hv, Hc.
  - intros now i by_ note e t' Hv Hr. unfold resolve_signal_endpoint. rewrite Hg, Hv, Hr. split; [done |].
    intros later other n Hv'. rewrite Hg', Hv'.
    unfold resolve_signal, find_event in Hr. destruct (get i t) as [e0|] eqn:Hget; [|done]. rewrite andb_true_r in Hr.
    destruct (is_abuse e0) eqn:Ha; [|done]. destruct (is_open e0); [|done]. injection Hr as <- <-.
    unfold resolve_signal, find_event. rewrite get_update, Z.eqb_refl, Hget.
    assert (is_abuse (set_resolved now by_ note e0) = true) as Ha' by exact Ha.
    cbn [fmap option_fmap option_map]. by rewrite Ha'.
Qed.

(** What a listing of sources shows: the profiles that are not deleted, those in the asked
    state only, from the newest. *)
Definition listed (active : option bool) (sources : profiles) : list (Z * SourceRegistry.SourceProfile) :=
  order_by (fun x y => SourceRegistry.created_at y.2 <=? SourceRegistry.created_at x.2)
    (select (fun p => SourceRegistry.present p && match active with
                                                  | Some b => Bool.eqb (SourceRegistry.is_active p) b
                                                  | None => true
                                                  end) sources).

Lemma listed_length active sources :
  length (listed active sources) =
    count (fun p => match active with Some b => Bool.eqb (SourceRegistry.is_active p) b | None => true end)
      (map snd (select SourceRegistry.present sources)).
Proof.
  unfold listed, count. rewrite order_by_length. unfold select. induction (rows sources) as [|x l IH]; [done |]. cbn.
  destruct (SourceRegistry.present x.2); cbn; [|done]. destruct (match active with Some _ => _ | None => _ end); cbn; by rewrite IH.
Qed.

(** A page of sources is within its bounds and holds the profiles from its offset on; its
    total is that of the listing, whatever the page, and agrees with the summary: all
    sources without a state, the active and the inactive ones with it. *)
Theorem source_pages_agree active offset limit sources status p :
  list_sources verify_jwt_token active offset limit sources = Answer status p ->
  status = 200 /\ 0 <= source_offset p /\ 1 <= source_limit p <= 1000 /\
  source_items p = take (Z.to_nat (source_limit p)) (drop (Z.to_nat (source_offset p)) (listed active sources)) /\
  source_total p = length (listed active sources) /\
  exists summary, source_summary verify_jwt_token sources = Answer 200 summary /\
    Z.of_nat (source_total p) = match active with
                                | None => SourceRegistry.total_sources summary
                                | Some true => SourceRegistry.active_sources summary
                                | Some false => SourceRegistry.inactive_sources summary
                                end.
Proof.
  unfold list_sources, source_summary, guarded. destruct verify_jwt_token; [done |].
  intros (Ho & _ & Hl)%query_answer. apply query_answer in Hl as (Hl & Hl' & Ha). specialize (Hl' _ eq_refl).
  unfold MAX_PAGE_SIZE in Hl'. injection Ha as <- <-. cbn [source_offset source_limit source_items source_total].
  do 4 (split; [done |]). assert (length (select (fun p => SourceRegistry.present p && match active with
        | Some b => Bool.eqb (SourceRegistry.is_active p) b | None => true end) sources) = length (listed active sources)) as ->
    by (symmetry; apply order_by_length).
  split; [done |]. eexists. split; [reflexivity |]. rewrite listed_length. unfold SourceRegistry.get_source_summary.
  cbn [SourceRegistry.total_sources SourceRegistry.active_sources SourceRegistry.inactive_sources].
  set (ps := map snd (select SourceRegistry.present sources)). unfold count. clear. destruct active as [[]|].
  - f_equal. induction ps as [|q ps IH]; [done |]. cbn. destruct (SourceRegistry.is_active q); cbn; by rewrite IH.
  - induction ps as [|q ps IH]; [done |]. cbn [List.filter length] in *. destruct (SourceRegistry.is_active q); cbn [Bool.eqb length] in *; lia.
  - f_equal. induction ps as [|q ps IH]; [done |]. cbn. by rewrite IH.
Qed.

End facts.

End ReadRouteTheorems.

(** ** Witnesses *)

Module ReadRouteWitnesses.
Import ReadRoutes ReadRouteTheorems Abuse AbuseTheorems.

Definition anyone (roles : list string) : option () := None.

Lemma reports_within_bounds_witness :
  exists cohorts n, get_cohort_comparison (F := ()) 0 None (Some 5) (empty_table _) (empty_table _) = Answer 200 (cohorts, n) /\ n <= 5.
Proof.
  destruct (get_cohort_comparison (F := ()) 0 None (Some 5) (empty_table _) (empty_table _)) as [status [cohorts n] | | |] eqn:Ha;
    try (by vm_compute in Ha).
  destruct (reports_within_bounds (F := ()) 0 None None (Some 5) (empty_table _) (empty_table _)) as [_ Hc].
  destruct (Hc status cohorts n Ha) as (-> & _ & _ & _ & Hn). by exists cohorts, n.
Defined.

(** An offset of 1 with a size of 2 is called the first page. *)
Lemma signal_page_number_witness :
  exists p, list_signals_endpoint anyone None None None None None None (Some 2) None (Some 1) two_signals = Answer 200 p /\
    page_number p = 1 /\ (page_number p - 1) * page_size_used p <> 1.
Proof.
  destruct (list_signals_endpoint anyone None None None None None None (Some 2) None (Some 1) two_signals) as [status p | | |] eqn:Ha;
    try (by vm_compute in Ha).
  pose proof (signal_page_number anyone None None None None None None (Some 2) None (Some 1) two_signals status p Ha) as (_ & Hsz & _ & _ & Hp).
  exists p. assert (status = 200 /\ page_number p = 1) as [-> Hn] by (vm_compute in Ha; by injection Ha as <- <-).
  split; [done |]. split; [done |]. intros Heq. cbn in Hp. apply Hp in Heq. rewrite Hsz in Heq. by vm_compute in Heq.
Defined.

Lemma signals_unscoped_witness :
  list_signals_endpoint anyone None None None None None None None None None two_signals =
  list_signals_endpoint (fun roles => if decide (roles = ["user"; "admin"]) then None else Some ()) None None None None None None None None None two_signals.
Proof. by apply (signals_unscoped anyone (fun roles => if decide (roles = ["user"; "admin"]) then None else Some ()) two_signals). Defined.

(** The second page of one of two sources, of which none is inactive. *)
Lemma source_pages_agree_witness :
  exists p, list_sources (F := ()) None (Some true) (Some 1) (Some 1) ReportingWitnesses.sources = Answer 200 p /\
    map fst (source_items p) = [1] /\ source_total p = 2%nat.
Proof.
  destruct (list_sources (F := ()) None (Some true) (Some 1) (Some 1) ReportingWitnesses.sources) as [status p | | |] eqn:Ha;
    try (by vm_compute in Ha).
  destruct (source_pages_agree (F := ()) None (Some true) (Some 1) (Some 1) ReportingWitnesses.sources status p Ha)
    as (-> & _ & _ & _ & Ht & _).
  exists p. split; [done |]. rewrite Ht. vm_compute in Ha. injection Ha as <-. by split.
Defined.

End ReadRouteWitnesses.
