(* ===== verification/VectorSearch.v ===== *)
(** * Semantic search

    [services/inference/] (document store, [/index], [/search], [/health]) and the
    ingestor's side of it: [vector_search.py] and [api/routes/vector_search.py].

    Both ends are here with the wire between them: the JSON that one builds is what the
    other parses, a request or its answer can be lost, and the composed resilience of
    [Resilience.v] decides whether a request is sent again.

    The embedding model, pgvector's cosine distance, JSONB containment, what PostgreSQL
    refuses to store in a text or JSON column, pydantic's conversions of values that do
    not have the field's type, ISO timestamps and the text of floats and containers are
    parameters.  Errors of the HTTP client other than transport errors and error statuses
    (a reply that cannot be decompressed) are left out. *)

From S2P Require Import Prelude Db CircuitBreaker Retry Bulkhead Resilience SourceRegistry Observations AuditTrail.

(** ** The inference service *)

Module InferenceService.

Abbreviation vector := (list Q).
Abbreviation dict := (list (string * json)).

Record DocumentIn := DocIn { doc_id : Z; doc_text : string; doc_metadata : dict }.
Record IndexRequest := IndexReq { index_collection : string; documents : list DocumentIn }.
Record SearchRequest := SearchReq { query : string; top_k : Z; search_collection : string; filters : option dict }.
Record SearchResultItem := Item { item_id : Z; item_text : string; score : Q; item_metadata : dict }.

Record IndexedDocument := Indexed {
  collection : string;
  external_id : Z;
  text : string;
  metadata_json : dict;
  embedding : vector;
  created_at : datetime;
  updated_at : datetime
}.

Abbreviation store := (table IndexedDocument).

Inductive service_error :=
| EmbeddingError
| IndexError
| ValueError
| DataError
| CardinalityViolation.

Record response := Response { status : Z; body : option json }.

Section Service.
(** [model.embed(texts)], [None] when it raises. *)
Context (model_embed : list string -> option (list vector)).
Context (embedding_dim : nat) (storable : DocumentIn -> bool).
Context (cosine_distance : vector -> vector -> Q) (contains : dict -> dict -> bool).
Context (utcnow : nat -> datetime).
(** What pydantic makes of a value that is no number. *)
Context (lax_int : json -> option Z).

Definition embed_texts (texts : list string) : result service_error (list vector) :=
  match texts with
  | [] => Ok []
  | _ => match model_embed texts with Some vs => Ok vs | None => Raise EmbeddingError end
  end.

Definition embed_query (text : string) : result service_error vector :=
  bind_result (embed_texts [text]) (fun vs => match vs with v :: _ => Ok v | [] => Raise IndexError end).

(** [zip(documents, vectors, strict=True)]. *)
Fixpoint zip_strict {A B} (l : list A) (m : list B) : result service_error (list (A * B)) :=
  match l, m with
  | [], [] => Ok []
  | a :: l, b :: m => bind_result (zip_strict l m) (fun r => Ok ((a, b) :: r))
  | _, _ => Raise ValueError
  end.

Definition same_key (r s : IndexedDocument) : bool :=
  String.eqb (collection r) (collection s) && (external_id r =? external_id s).

(** The row of a document; each of its two time columns has its own default. *)
Definition new_row (collection : string) (k : nat) (x : DocumentIn * vector) : IndexedDocument :=
  Indexed collection (doc_id x.1) (doc_text x.1) (doc_metadata x.1) x.2 (utcnow (2 * k)) (utcnow (2 * k + 1)).

(** What the columns take: a name of 128 characters, a 32-bit integer, a vector of the
    declared dimension. *)
Definition row_fits (r : IndexedDocument) : bool :=
  (String.length (collection r) <=? 128)%nat &&
  (- 2 ^ 31 <=? external_id r) && (external_id r <? 2 ^ 31) &&
  (length (embedding r) =? embedding_dim)%nat &&
  storable (DocIn (external_id r) (text r) (metadata_json r)).

(** [set_={text, metadata_json, embedding}]. *)
Definition set_excluded (excluded r : IndexedDocument) : IndexedDocument :=
  Indexed (collection r) (external_id r) (text excluded) (metadata_json excluded) (embedding excluded)
    (created_at r) (updated_at r).

(** A conflict consumes a sequence value too. *)
Definition upsert (r : IndexedDocument) (t : store) : store :=
  match scalar (same_key r) t with
  | Some (i, _) => let t := update i (set_excluded r) t in Table (rows t) (next_id t + 1)
  | None => snd (insert r t)
  end.

Fixpoint distinct_keys (rs : list IndexedDocument) : bool :=
  match rs with
  | [] => true
  | r :: rs => negb (existsb (same_key r) rs) && distinct_keys rs
  end.

(** [INSERT ... VALUES ... ON CONFLICT DO UPDATE]: no row may be affected twice. *)
Definition insert_on_conflict (rs : list IndexedDocument) (t : store) : result service_error store :=
  if negb (forallb row_fits rs) then Raise DataError
  else if negb (distinct_keys rs) then Raise CardinalityViolation
  else Ok (foldl (fun t r => upsert r t) t rs).

Definition index_documents (collection : string) (documents : list DocumentIn) (t : store)
    : result service_error (Z * store) :=
  match documents with
  | [] => Ok (0, t)
  | _ =>
      bind_result (embed_texts (map doc_text documents)) (fun vectors =>
      bind_result (zip_strict documents vectors) (fun pairs =>
      bind_result (insert_on_conflict (imap (new_row collection) pairs) t) (fun t =>
      Ok (Z.of_nat (length documents), t))))
  end.

(** The rows of a search with their distances, before the order. *)
Definition candidates (coll : string) (fs : option dict) (v : vector) (t : store) : list (IndexedDocument * Q) :=
  map (fun x => (x.2, cosine_distance (embedding x.2) v))
    (select (fun d => String.eqb (collection d) coll &&
                      match fs with None | Some [] => true | Some f => contains (metadata_json d) f end) t).

Definition closer (x y : IndexedDocument * Q) : bool := Qle_bool x.2 y.2.

Definition to_item (x : IndexedDocument * Q) : SearchResultItem :=
  Item (external_id x.1) (text x.1) (1 - x.2)%Q (metadata_json x.1).

Definition search_documents (coll query : string) (top_k : Z) (fs : option dict) (t : store)
    : result service_error (list SearchResultItem) :=
  bind_result (embed_query query) (fun v =>
  let found := candidates coll fs v t in
  if existsb (fun x => negb (length (embedding x.1) =? length v)%nat) found then Raise DataError
  else Ok (map to_item (take (Z.to_nat top_k) (order_by closer found)))).

(** *** Request and response models *)

Definition as_int (j : json) : option Z := match j with JInt z => Some z | _ => lax_int j end.

Definition as_str (j : json) : option string := match j with JStr s => Some s | _ => None end.

Definition as_dict (j : json) : option dict := match j with JObj d => Some d | _ => None end.

(** A field with its default where the key is absent. *)
Definition read_field {A} (k : string) (d : dict) (default : option A) (read : json -> option A) : option A :=
  match json_member k d with Some j => read j | None => default end.

Definition parse_document (j : json) : option DocumentIn :=
  d ← as_dict j;
  i ← read_field "id" d None as_int;
  s ← read_field "text" d None as_str;
  m ← read_field "metadata" d (Some []) as_dict;
  Some (DocIn i s m).

Definition parse_index (j : json) : option IndexRequest :=
  d ← as_dict j;
  c ← read_field "collection" d None as_str;
  ds ← read_field "documents" d None (fun j => match j with JList l => mapM parse_document l | _ => None end);
  Some (IndexReq c ds).

Definition parse_search (j : json) : option SearchRequest :=
  d ← as_dict j;
  q ← read_field "query" d None as_str;
  k ← read_field "top_k" d (Some 5) (fun j => k ← as_int j; if (1 <=? k) && (k <=? 50) then Some k else None);
  c ← read_field "collection" d None as_str;
  f ← read_field "filters" d (Some None) (fun j => match j with JNull => Some None | _ => Some <$> as_dict j end);
  Some (SearchReq q k c f).

Definition item_json (x : SearchResultItem) : json :=
  JObj [("id", JInt (item_id x)); ("text", JStr (item_text x)); ("score", JFloat (score x));
        ("metadata", JObj (item_metadata x))].

(** *** Endpoints *)

Definition internal_error : response := Response 500 None.
Definition unprocessable : response := Response 422 (Some (JObj [])).

Definition index_endpoint (payload : json) (t : store) : response * store :=
  match parse_index payload with
  | None => (unprocessable, t)
  | Some p =>
      match index_documents (index_collection p) (documents p) t with
      | Raise _ => (internal_error, t)
      | Ok (indexed, t) =>
          (Response 201 (Some (JObj [("collection", JStr (index_collection p)); ("indexed", JInt indexed)])), t)
      end
  end.

Definition search_endpoint (payload : json) (t : store) : response * store :=
  match parse_search payload with
  | None => (unprocessable, t)
  | Some p =>
      (match search_documents (search_collection p) (query p) (top_k p) (filters p) t with
       | Raise _ => internal_error
       | Ok results =>
           Response 200 (Some (JObj [("collection", JStr (search_collection p)); ("results", JList (map item_json results))]))
       end, t)
  end.

Definition health : response := Response 200 (Some (JObj [("status", JStr "ok")])).

Inductive request := PostIndex (payload : json) | PostSearch (payload : json) | GetHealth.

Definition serve (r : request) (t : store) : response * store :=
  match r with
  | PostIndex j => index_endpoint j t
  | PostSearch j => search_endpoint j t
  | GetHealth => (health, t)
  end.

End Service.

(** The store: its rows' keys are unique. *)
Definition key (r : IndexedDocument) : option (string * Z) := Some (collection r, external_id r).
Definition wf_store (t : store) : Prop := wf_table t /\ unique key t.

(** The document of a collection under an external id. *)
Definition document (c : string) (i : Z) (t : store) : option IndexedDocument :=
  snd <$> scalar (fun r => bool_decide (key r = Some (c, i))) t.

End InferenceService.

(** ** The ingestor's bridge *)

Module Bridge.
Import InferenceService Observations.

(** What one attempt meets: [None] for a body that is no JSON. *)
Inductive exchange := Answered (r : response) | TransportError | Cancelled.

Definition _request_inference (x : exchange) : result Resilience.error response :=
  match x with
  | Answered r =>
      if (200 <=? status r) && (status r <=? 299) then Ok r
      else Raise (Error false None (Some (PyInt (status r))) true)
  | TransportError => Raise (Error true None None true)
  | Cancelled => Raise (Error false None None false)
  end.

(** [isinstance(exc, httpx.HTTPError)]. *)
Definition is_http_error (e : Resilience.error) : bool :=
  is_transport e || bool_decide (is_Some (response_status_code e)).

(** [json.dumps(v, sort_keys=True, default=str)]. *)
Fixpoint dumps_sorted (float_repr : Q -> string) (j : json) : string :=
  match j with
  | JNull => "null"
  | JBool true => "true"
  | JBool false => "false"
  | JInt z => str_of_Z z
  | JFloat q => float_repr q
  | JStr s => AuditTrail.quoted s
  | JList l => "[" +:+ String.concat ", " (map (dumps_sorted float_repr) l) +:+ "]"
  | JObj l =>
      let items := order_by (fun x y : string * string => String.leb x.1 y.1)
                     (map (fun x => (x.1, dumps_sorted float_repr x.2)) l) in
      "{" +:+ String.concat ", " (map (fun x => AuditTrail.quoted x.1 +:+ ": " +:+ x.2) items) +:+ "}"
  end.

Definition newline : string := String (ascii_of_nat 10) EmptyString.

Section Documents.
Context (isoformat : datetime -> string) (float_repr : Q -> string).

Definition observation_text (o : Observation) : string :=
  String.concat newline
    ["source_id: " +:+ str_of_Z (obs_source_id o);
     "timestamp: " +:+ isoformat (timestamp o);
     "tags: " +:+ (match tags o with [] => "" | l => String.concat ", " l end);
     "data: " +:+ dumps_sorted float_repr (raw_data o)].

Definition observation_metadata (o : Observation) : dict :=
  [("source_id", JInt (obs_source_id o)); ("timestamp", JStr (isoformat (timestamp o)));
   ("tags", JList (map JStr (tags o))); ("processed", JBool (processed o))].

Definition build_observation_search_document (x : Z * Observation) : json :=
  JObj [("id", JInt x.1); ("text", JStr (observation_text x.2)); ("metadata", JObj (observation_metadata x.2))].

(** [collection or settings.vector_search_collection]. *)
Definition collection_name (default : string) (collection : option string) : string :=
  match collection with Some c => if str_truthy c then c else default | None => default end.

Definition index_payload (collection : string) (os : list (Z * Observation)) : json :=
  JObj [("collection", JStr collection); ("documents", JList (map build_observation_search_document os))].

Definition search_payload (query : string) (top_k : Z) (collection : string) (filters : option dict) : json :=
  JObj [("query", JStr query); ("top_k", JInt top_k); ("collection", JStr collection);
        ("filters", json_opt JObj filters)].
End Documents.

(** What surrounds a call: clocks, jitter, other users of the breaker, the budget and
    the bulkhead. *)
Record surroundings := Around {
  task : nat;
  t_enter : nat -> Q;
  t_end : nat -> Q;
  t_budget : nat -> Q;
  uniform : nat -> Q -> Q -> Q;
  others_breaker : nat -> Breaker.breaker -> Breaker.breaker;
  others_budget : nat -> Budget.RetryBudget -> Budget.RetryBudget;
  wait : AsyncBulkhead.bulkhead -> AsyncBulkhead.bulkhead
}.

Inductive bridge_error :=
| Failed (e : Resilience.call_error)
| NotJson
| NotObject.

Section Calls.
Context (s : surroundings).

Definition resilient_call (op : nat -> result Resilience.error response) (d : DependencyResilience)
    : result Resilience.call_error response * DependencyResilience :=
  Resilience.call op (t_enter s) (t_end s) (t_budget s) (uniform s) (others_breaker s) (others_budget s)
    (task s) (wait s) d.

(** How many of a call's attempts reached the client. *)
Definition attempts (op : nat -> result Resilience.error response) (d : DependencyResilience) : nat :=
  match AsyncBulkhead.run_enter (bulkhead_config d) (task s) (bulkhead d) with
  | None => 0
  | Some _ =>
      let '(_, tr, _, _) :=
        _call_with_breaker op (t_enter s) (t_end s) (t_budget s) (uniform s) (others_breaker s)
          (others_budget s) (breaker d) (_retry_budget d) in
      length (operations_run op (t_enter s) (t_end s) (others_breaker s) (breaker d) tr)
  end.

(** [body = response.json()] and its check. *)
Definition object_of (r : result Resilience.call_error response) : result bridge_error dict :=
  match r with
  | Raise e => Raise (Failed e)
  | Ok r => match body r with
            | None => Raise NotJson
            | Some (JObj d) => Ok d
            | Some _ => Raise NotObject
            end
  end.

(** The ingestor's own dependency: ten calls at once, ten waiting, ten retries a minute. *)
Definition inference_resilience : DependencyResilience :=
  Dependency "inference" Breaker.init (AsyncBulkhead.Config "inference" 10 10) AsyncBulkhead.init
    (Some (Budget.Budget 10 60 [])) (Metrics 0 0 0 0).

(** *** Against a service with state

    [net n] is what becomes of attempt [n]: a lost answer is an attempt the service has
    carried out. *)

Inductive fate := Delivered | RequestLost | AnswerLost | CallerCancelled (reached : bool).

Section Remote.
Context {St : Type} (serve : nat -> St -> response * St) (net : nat -> fate).

(** What the service makes of attempt [n] may depend on when it arrives. *)
Definition exchange_with (n : nat) (t : St) : exchange * St :=
  match net n with
  | Delivered => (Answered (fst (serve n t)), snd (serve n t))
  | RequestLost => (TransportError, t)
  | AnswerLost => (TransportError, snd (serve n t))
  | CallerCancelled reached => (Cancelled, if reached then snd (serve n t) else t)
  end.

(** The service's state before attempt [n]. *)
Fixpoint state_at (n : nat) (t : St) : St :=
  match n with O => t | S n => snd (exchange_with n (state_at n t)) end.

Definition operation (t : St) (n : nat) : result Resilience.error response :=
  _request_inference (fst (exchange_with n (state_at n t))).

Definition remote_call (t : St) (d : DependencyResilience) : result bridge_error dict * St * DependencyResilience :=
  let '(r, d') := resilient_call (operation t) d in
  (object_of r, state_at (attempts (operation t) d) t, d').
End Remote.
End Calls.
End Bridge.

(** ** The ingestor's routes *)

Module VectorRoutes.
Import InferenceService SourceRegistry Observations Bridge.

Inductive answer (A : Type) :=
| Responded (a : A)
| HTTPException (status : Z) (detail : string)
| Unprocessable
| ServerError.
Arguments Responded {A}.
Arguments HTTPException {A}.
Arguments Unprocessable {A}.
Arguments ServerError {A}.

(** Digits with single underscores between them; the language refuses more than 4300. *)
Fixpoint digits_from (acc : Z) (n : nat) (after_digit : bool) (s : string) : option Z :=
  match s with
  | EmptyString => if after_digit && (n <=? 4300)%nat then Some acc else None
  | String c s =>
      let d := Z.of_nat (nat_of_ascii c) - 48 in
      if (0 <=? d) && (d <=? 9) then digits_from (10 * acc + d) (S n) true s
      else if Ascii.eqb c "_"%char && after_digit then digits_from acc n false s
      else None
  end.

Definition int_of_text (s : string) : option Z :=
  match strip s with
  | String "-"%char s => Z.opp <$> digits_from 0 0 false s
  | String "+"%char s => digits_from 0 0 false s
  | s => digits_from 0 0 false s
  end.

(** [int(v)], [None] when it raises. *)
Definition py_int (j : json) : option Z :=
  match j with
  | JInt z => Some z
  | JBool b => Some (if b then 1 else 0)
  | JFloat q => Some (Z.quot (Qnum q) (Zpos (Qden q)))
  | JStr s => int_of_text s
  | _ => None
  end.

(** [bool(v)]. *)
Definition py_bool (j : json) : bool :=
  match j with
  | JNull => false
  | JBool b => b
  | JInt z => negb (z =? 0)
  | JFloat q => negb (Qeq_bool q 0)
  | JStr s => str_truthy s
  | JList l => match l with [] => false | _ => true end
  | JObj l => match l with [] => false | _ => true end
  end.

Record VectorSearchIndexResponse := IndexResp {
  requested_count : Z;
  indexed_count : Z;
  missing_observation_ids : list Z;
  resp_collection : string
}.

Record VectorSearchResult := Match { match_id : Z; match_score : Q; match_metadata : dict }.

Record VectorSearchQueryResponse := QueryResp {
  results : list VectorSearchResult;
  match_count : Z;
  resp_query : string;
  query_collection : string
}.

Record VectorSearchHealthResponse := HealthResp {
  health_status : string;
  inference_connected : bool;
  health_collection : string
}.

(** An error of the bridge, [gateway] being what the route makes of HTTP and value
    errors; what it does not catch is an internal error. *)
Definition translate {A} (gateway : answer A) (e : bridge_error) : answer A :=
  let busy := HTTPException 503 "AI gateway temporarily unavailable" in
  match e with
  | Failed BulkheadRejectedError => busy
  | Failed (Downstream (Backoff.Inner Breaker.CircuitOpenError)) => busy
  | Failed (Downstream (Backoff.Inner (Breaker.Inner e))) => if is_http_error e then gateway else ServerError
  | Failed _ => ServerError
  | NotJson | NotObject => gateway
  end.

Section Routes.
Context (settings_collection : string).
Context (isoformat : datetime -> string) (float_repr : Q -> string) (py_repr : json -> string).
Context (lax_int : json -> option Z) (lax_float : json -> option Q).
Context (s : surroundings) (net : nat -> fate).
Context {St : Type} (serve : request -> nat -> St -> response * St).

(** [str(v)]. *)
Definition py_str (j : json) : string :=
  match j with
  | JNull => "None"
  | JBool true => "True"
  | JBool false => "False"
  | JInt z => str_of_Z z
  | JFloat q => float_repr q
  | JStr s => s
  | _ => py_repr j
  end.

Definition get_or (k : string) (d : dict) (default : json) : json := or_else (json_member k d) default.

Definition bridge_call (r : request) (t : St) (d : DependencyResilience) :=
  remote_call s (serve r) net t d.

Definition index_observation_documents (os : list (Z * Observation)) (collection : option string)
    (t : St) (d : DependencyResilience) : result bridge_error dict * St * DependencyResilience :=
  bridge_call (PostIndex (index_payload isoformat float_repr (collection_name settings_collection collection) os)) t d.

Definition search_observation_documents (query : string) (top_k : Z) (collection : option string)
    (filters : option dict) (t : St) (d : DependencyResilience) : result bridge_error dict * St * DependencyResilience :=
  bridge_call (PostSearch (search_payload query top_k (collection_name settings_collection collection) filters)) t d.

Definition vector_search_health (t : St) (d : DependencyResilience)
    : answer VectorSearchHealthResponse * St * DependencyResilience :=
  let '(r, t, d) := bridge_call GetHealth t d in
  (match r with
   | Raise e => translate (HTTPException 503 "AI gateway unavailable") e
   | Ok raw => Responded (HealthResp (py_str (get_or "status" raw (JStr "ok")))
                 (py_bool (get_or "qdrant_connected" raw (JBool true))) settings_collection)
   end, t, d).

(** The answer that the two indexing routes build. *)
Definition index_answer (requested n : Z) (missing : list Z) (collection : option string)
    (r : result bridge_error dict) (detail : string) : answer VectorSearchIndexResponse :=
  match r with
  | Raise e => translate (HTTPException 502 detail) e
  | Ok raw =>
      match py_int (get_or "indexed_count" raw (JInt n)) with
      | None => ServerError
      | Some indexed =>
          Responded (IndexResp requested indexed missing
            (py_str (get_or "collection" raw (JStr (collection_name settings_collection collection)))))
      end
  end.

(** [list(dict.fromkeys(l))]. *)
Fixpoint from_keys (seen l : list Z) : list Z :=
  match l with
  | [] => []
  | i :: l => if bool_decide (i ∈ seen) then from_keys seen l else i :: from_keys (i :: seen) l
  end.

Definition is_active (o : Observation) : bool := bool_decide (obs_deleted_at o = None).

Definition active_among (ids : list Z) (w : world) : list (Z * Observation) :=
  List.filter (fun x => bool_decide (x.1 ∈ ids) && is_active x.2) (rows (observations w)).

Definition index_observations_for_vector_search (observation_ids : list Z) (collection : option string)
    (w : world) (t : St) (d : DependencyResilience) : answer VectorSearchIndexResponse * St * DependencyResilience :=
  if negb ((1 <=? Z.of_nat (length observation_ids)) && (Z.of_nat (length observation_ids) <=? 100))
  then (Unprocessable, t, d)
  else
    let ids := from_keys [] observation_ids in
    let os := active_among ids w in
    match os with
    | [] => (HTTPException 404 "No active observations found for indexing", t, d)
    | _ =>
        let missing := List.filter (fun i => negb (bool_decide (i ∈ map fst os))) ids in
        let '(r, t, d) := index_observation_documents os collection t d in
        (index_answer (Z.of_nat (length ids)) (Z.of_nat (length os)) missing collection r
           "AI gateway indexing failed", t, d)
    end.

(** The newest first. *)
Definition newer (x y : Z * Observation) : bool := timestamp y.2 <=? timestamp x.2.

Definition recent (source : option string) (limit : Z) (w : world) : list (Z * Observation) :=
  let source_id := match source with
                   | None => None
                   | Some name => resolve_source_id_by_name name (sources w)
                   end in
  take (Z.to_nat limit)
    (order_by newer (select (fun o => is_active o && match source_id with
                                                     | Some i => obs_source_id o =? i
                                                     | None => true
                                                     end) (observations w))).

Definition index_recent_observations_for_vector_search (source : option string) (limit : Z)
    (collection : option string) (w : world) (t : St) (d : DependencyResilience)
    : answer VectorSearchIndexResponse * St * DependencyResilience :=
  if negb ((1 <=? limit) && (limit <=? 100) &&
           match source with
           | Some n => (1 <=? Z.of_nat (String.length n)) && (Z.of_nat (String.length n) <=? 255)
           | None => true
           end)
  then (Unprocessable, t, d)
  else
    let os := recent source limit w in
    match os with
    | [] => (HTTPException 404 "No active observations found for recent indexing", t, d)
    | _ =>
        let '(r, t, d) := index_observation_documents os collection t d in
        (index_answer (Z.of_nat (length os)) (Z.of_nat (length os)) [] collection r
           "AI gateway recent indexing failed", t, d)
    end.

(** What the response model makes of one result, and of them all. *)
Definition read_match (j : json) : option VectorSearchResult :=
  d ← as_dict j;
  i ← read_field "id" d None (as_int lax_int);
  x ← read_field "score" d None
        (fun j => match j with JFloat q => Some q | JInt z => Some (inject_Z z) | _ => lax_float j end);
  m ← read_field "metadata" d None as_dict;
  Some (Match i x m).

Definition read_matches (j : json) : option (list VectorSearchResult) :=
  match j with JList l => mapM read_match l | _ => None end.

Definition query_vector_search (query : string) (top_k : Z) (collection : option string) (filters : option dict)
    (t : St) (d : DependencyResilience) : answer VectorSearchQueryResponse * St * DependencyResilience :=
  if negb ((1 <=? Z.of_nat (String.length query)) && (1 <=? top_k) && (top_k <=? 25)) then (Unprocessable, t, d)
  else
    let '(r, t, d) := search_observation_documents query top_k collection filters t d in
    (match r with
     | Raise e => translate (HTTPException 502 "AI gateway search failed") e
     | Ok raw =>
         match py_int (get_or "count" raw (JInt 0)), read_matches (get_or "results" raw (JList [])) with
         | Some n, Some ms =>
             Responded (QueryResp ms n (py_str (get_or "query" raw (JStr query)))
               (collection_name settings_collection collection))
         | _, _ => ServerError
         end
     end, t, d).

End Routes.
End VectorRoutes.

(** ** Theorems: the document store *)

Module StoreTheorems.
Import InferenceService.

Ltac keys := exfalso; unfold key in *; simplify_eq/=; congruence.

Lemma select_where_ext {R} (p q : R -> bool) (t : table R) : (forall r, p r = q r) -> select p t = select q t.
Proof. intros Hpq. apply List.filter_ext. intros x. apply Hpq. Qed.

Lemma scalar_same_key r t : scalar (same_key r) t = scalar (fun s => bool_decide (key s = key r)) t.
Proof.
  unfold scalar. f_equal. apply select_where_ext. intros s. unfold same_key, key.
  destruct (String.eqb_spec (collection r) (collection s)) as [Hc|Hc], (Z.eqb_spec (external_id r) (external_id s)) as [Hi|Hi];
    simpl; symmetry; first [apply bool_decide_eq_true_2 | apply bool_decide_eq_false_2]; congruence.
Qed.

Lemma document_Some c i t r :
  wf_store t -> document c i t = Some r <-> exists j, get j t = Some r /\ key r = Some (c, i).
Proof.
  intros [Hwf Hu]. unfold document. split.
  - destruct (scalar _ t) as [[j s]|] eqn:Hs; simpl; [|done]. intros [= ->].
    apply scalar_Some in Hs as [Hg Hk]; [|done]. bool_to_prop. by exists j.
  - intros (j & Hg & Hk). by rewrite (scalar_unique key (c, i) t j r).
Qed.

Lemma document_None c i t :
  wf_store t -> document c i t = None <-> every (fun _ r => key r <> Some (c, i)) t.
Proof.
  intros [Hwf Hu]. unfold document. rewrite fmap_None, scalar_None by done.
  split; intros Hev j r Hg; specialize (Hev j r Hg); simpl in *; bool_to_prop; [done | by apply bool_decide_eq_false_2].
Qed.

Lemma key_excluded x r : key (set_excluded x r) = key r.
Proof. done. Qed.

Lemma wf_burned t : wf_store t -> wf_store (Table (rows t) (next_id t + 1)).
Proof. intros [Hwf Hu]. split; [by apply wf_burn | exact Hu]. Qed.

Lemma document_burned c i t : document c i (Table (rows t) (next_id t + 1)) = document c i t.
Proof. done. Qed.

(** An upsert keeps the store well-formed, sets the document of its key and no other. *)
Lemma upsert_spec r t :
  wf_store t -> wf_store (upsert r t) /\
  forall c i, document c i (upsert r t) =
    if decide (key r = Some (c, i)) then
      Some (match document c i t with Some old => set_excluded r old | None => r end)
    else document c i t.
Proof.
  intros [Hwf Hu]. unfold upsert. rewrite scalar_same_key.
  destruct (scalar _ t) as [[j s]|] eqn:Hs.
  - apply scalar_Some in Hs as [Hg Hk]; [|done]. bool_to_prop.
    assert (wf_store (update j (set_excluded r) t)) as Hw.
    { split; [by apply wf_update | apply unique_update; [done | by left]]. }
    split; [by apply wf_burned |]. intros c i. rewrite document_burned.
    apply option_eq. intros d. rewrite document_Some by done.
    setoid_rewrite get_update.
    case_decide as Hr.
    + assert (document c i t = Some s) as -> by (apply document_Some; [done |]; exists j; split; [done | congruence]).
      split.
      * intros (a & Ha & Hka). destruct (Z.eqb_spec j a) as [->|Hne]; [rewrite Hg in Ha; simpl in Ha; by simplify_eq |].
        exfalso. apply Hne. eapply Hu; [exact Hg | exact Ha | |exact Hka]. congruence.
      * intros [= <-]. exists j. rewrite Z.eqb_refl, Hg. split; [done |]. rewrite key_excluded. congruence.
    + rewrite document_Some by done. split; intros (a & Ha & Hka); exists a; split; try done.
      * destruct (Z.eqb_spec j a) as [->|Hne]; [|done]. rewrite Hg in Ha. keys.
      * destruct (Z.eqb_spec j a) as [->|Hne]; [|done]. rewrite Hg in Ha. keys.
  - rewrite scalar_None in Hs by done.
    assert (wf_store (snd (insert r t))) as Hw.
    { split; [by apply wf_insert | apply unique_insert; [done..|]]. intros k Hk j s Hg. specialize (Hs j s Hg). simpl in Hs. bool_to_prop. congruence. }
    split; [done |]. intros c i. apply option_eq. intros d. rewrite document_Some by done.
    setoid_rewrite get_insert; [|done].
    case_decide as Hr.
    + assert (document c i t = None) as ->.
      { apply document_None; [done |]. intros j s Hg. specialize (Hs j s Hg). simpl in Hs. bool_to_prop. congruence. }
      split.
      * intros (a & Ha & Hka). destruct (Z.eqb_spec a (next_id t)); [done |].
        specialize (Hs a d Ha). simpl in Hs. bool_to_prop. congruence.
      * intros [= <-]. exists (next_id t). by rewrite Z.eqb_refl.
    + rewrite document_Some by done. split; intros (a & Ha & Hka); exists a; split; try done.
      * destruct (Z.eqb_spec a (next_id t)); [keys | done].
      * destruct (Z.eqb_spec a (next_id t)) as [->|]; [|done]. apply get_lt in Ha; [lia | done].
Qed.

Abbreviation upserts := (foldl (fun t r => upsert r t)).

(** The row that a list of rows with distinct keys has for a key. *)
Definition row_for (c : string) (i : Z) (rs : list IndexedDocument) : option IndexedDocument :=
  List.find (fun r => bool_decide (key r = Some (c, i))) rs.

Lemma row_for_Some c i rs r : row_for c i rs = Some r -> In r rs /\ key r = Some (c, i).
Proof. unfold row_for. intros [Hin Hk]%List.find_some. by bool_to_prop. Qed.

Lemma row_for_None c i rs r : row_for c i rs = None -> In r rs -> key r <> Some (c, i).
Proof. intros Hf Hin Hk. apply (List.find_none _ _ Hf) in Hin. by bool_to_prop. Qed.

Lemma same_key_spec r s : same_key r s = true <-> key r = key s.
Proof.
  unfold same_key, key. rewrite andb_true_iff, String.eqb_eq, Z.eqb_eq. split; [by intros [-> ->] | by intros [= -> ->]].
Qed.

Lemma distinct_head r rs s : distinct_keys (r :: rs) = true -> In s rs -> key s <> key r.
Proof.
  simpl. intros [Hn _]%andb_true_iff Hin Hk. apply negb_true_iff in Hn.
  enough (existsb (same_key r) rs = true) by congruence.
  apply existsb_exists. exists s. split; [done |]. by apply same_key_spec.
Qed.

Lemma rows_by_key rs r s :
  distinct_keys rs = true -> In r rs -> In s rs -> key r = key s -> r = s.
Proof.
  induction rs as [|x rs IH]; [done |]. intros Hd. pose proof (fun s => distinct_head x rs s Hd) as Hne.
  simpl in Hd. apply andb_true_iff in Hd as [_ Hd].
  intros [->|Hr] [->|Hs] Hk; [done | | | by apply IH]; exfalso; by eapply Hne.
Qed.

Lemma upserts_spec rs t :
  wf_store t -> distinct_keys rs = true -> wf_store (upserts t rs) /\
  forall c i, document c i (upserts t rs) =
    match row_for c i rs with
    | Some r => Some (match document c i t with Some old => set_excluded r old | None => r end)
    | None => document c i t
    end.
Proof.
  revert t. induction rs as [|r rs IH]; intros t Hwf Hd; [done |].
  pose proof (fun s => distinct_head r rs s Hd) as Hne. simpl in Hd. apply andb_true_iff in Hd as [_ Hd].
  destruct (upsert_spec r t Hwf) as [Hw Hdoc]. destruct (IH (upsert r t) Hw Hd) as [Hw' Hrest].
  split; [done |]. intros c i. simpl. rewrite Hrest, Hdoc. unfold row_for at 2. simpl. fold (row_for c i rs).
  case_decide as Hk.
  - rewrite bool_decide_eq_true_2 by done.
    destruct (row_for c i rs) as [s|] eqn:Hf; [|done].
    apply row_for_Some in Hf as [Hin Hs]. exfalso. apply (Hne s Hin). congruence.
  - by rewrite bool_decide_eq_false_2.
Qed.

(** A row that is already there with what would be set. *)
Definition settled (t : store) (r : IndexedDocument) : Prop :=
  exists c i old, key r = Some (c, i) /\ document c i t = Some old /\ set_excluded r old = old.

Lemma update_same {R} j (f : R -> R) (t : table R) r :
  wf_table t -> get j t = Some r -> f r = r -> rows (update j f t) = rows t.
Proof.
  intros [Hs _] Hg Hf. unfold update, get in *. simpl. rewrite <- map_id. apply map_ext_in.
  intros [a x] Hin. simpl. destruct (Z.eqb_spec j a) as [->|]; [|done].
  apply lookup_row_In in Hin; [|done]. congruence.
Qed.

Lemma upsert_settled r t : wf_store t -> settled t r -> rows (upsert r t) = rows t.
Proof.
  intros Hw (c & i & old & Hk & Hd & Hsame). apply document_Some in Hd as (j & Hg & Hko); [|done].
  destruct Hw as [Hwf Hu]. unfold upsert. rewrite scalar_same_key, Hk.
  rewrite (scalar_unique key (c, i) t j old) by done. simpl. by eapply update_same.
Qed.

Lemma document_rows c i t t' : rows t' = rows t -> document c i t' = document c i t.
Proof. unfold document, scalar, select. by intros ->. Qed.

Lemma upserts_settled rs t :
  wf_store t -> Forall (settled t) rs -> rows (upserts t rs) = rows t.
Proof.
  revert t. induction rs as [|r rs IH]; intros t Hw Hs; [done |]. apply Forall_cons in Hs as [Hr Hs].
  pose proof (upsert_settled r t Hw Hr) as Hrows. simpl. rewrite IH.
  - done.
  - by apply upsert_spec.
  - eapply Forall_impl; [exact Hs |]. intros s (c & i & old & Hk & Hd & He). exists c, i, old.
    split; [done |]. split; [|done]. by rewrite (document_rows c i t).
Qed.

Section Service.
Context (model_embed : list string -> option (list vector)) (embedding_dim : nat) (storable : DocumentIn -> bool).
Implicit Types (utcnow : nat -> datetime) (t : store) (ds : list DocumentIn).
#[local] Abbreviation index utcnow := (index_documents model_embed embedding_dim storable utcnow).

Lemma zip_strict_Ok {A B} (l : list A) (m : list B) ps :
  zip_strict l m = Ok ps -> length l = length m /\ ps = zip l m.
Proof.
  revert m ps. induction l as [|a l IH]; intros [|b m] ps; simpl; try done; [by intros [= <-] |].
  destruct (zip_strict l m) as [qs|] eqn:Hz; simpl; [|done]. intros [= <-].
  apply IH in Hz as [-> ->]. done.
Qed.

(** What an accepted request ran: the vectors the model gave, one per document, and the
    rows built of them. *)
Lemma index_inv utcnow c ds t n t' :
  index utcnow c ds t = Ok (n, t') ->
  exists vs, length vs = length ds /\ (ds <> [] -> model_embed (map doc_text ds) = Some vs) /\
    let rs := imap (new_row utcnow c) (zip ds vs) in
    n = Z.of_nat (length ds) /\ forallb (row_fits embedding_dim storable) rs = true /\
    distinct_keys rs = true /\ t' = upserts t rs.
Proof.
  unfold index_documents. destruct ds as [|d ds']; [intros [= <- <-]; by exists [] |].
  set (ds := d :: ds'). unfold embed_texts. change (map doc_text ds) with (doc_text d :: map doc_text ds').
  destruct (model_embed _) as [vs|] eqn:Hm; cbn [bind_result]; [|done].
  destruct (zip_strict ds vs) as [ps|] eqn:Hz; cbn [bind_result]; [|done].
  apply zip_strict_Ok in Hz as [Hlen ->]. unfold insert_on_conflict.
  destruct (forallb _ _) eqn:Hf; [|done]. destruct (distinct_keys _) eqn:Hd; [|done].
  cbn [negb bind_result]. intros [= <- <-]. exists vs. repeat split; try done.
Qed.

Lemma in_rows utcnow c ds vs r :
  In r (imap (new_row utcnow c) (zip ds vs)) <->
  exists k d v, ds !! k = Some d /\ vs !! k = Some v /\ r = new_row utcnow c k (d, v).
Proof.
  rewrite <- list_elem_of_In, list_elem_of_lookup. setoid_rewrite list_lookup_imap. split.
  - intros (k & Hk). apply fmap_Some in Hk as ([d v] & Hz & ->).
    apply lookup_zip_Some in Hz as [Hd Hv]. by exists k, d, v.
  - intros (k & d & v & Hd & Hv & ->). exists k.
    enough (zip ds vs !! k = Some (d, v)) as -> by done. by apply lookup_zip_Some.
Qed.

(** [index_documents]: an accepted request returns the number of its documents, keeps the
    store well-formed and sets, under each document's key, its text, its metadata and the
    vector the model gave for its text; a row that was there keeps both its times, although
    the model declares [updated_at] to follow every change; no other key changes. *)
Theorem indexing_exact utcnow c ds t n t' :
  wf_store t -> index utcnow c ds t = Ok (n, t') ->
  n = Z.of_nat (length ds) /\ wf_store t' /\
  exists vs, length vs = length ds /\ (ds <> [] -> model_embed (map doc_text ds) = Some vs) /\
  (forall k d v, ds !! k = Some d -> vs !! k = Some v -> exists r,
     document c (doc_id d) t' = Some r /\ text r = doc_text d /\ metadata_json r = doc_metadata d /\ embedding r = v /\
     match document c (doc_id d) t with
     | Some old => created_at r = created_at old /\ updated_at r = updated_at old
     | None => created_at r = utcnow (2 * k)%nat /\ updated_at r = utcnow (2 * k + 1)%nat
     end) /\
  (forall c' i, (c' <> c \/ ~ In i (map doc_id ds)) -> document c' i t' = document c' i t).
Proof.
  intros Hw (vs & Hlen & Hm & -> & _ & Hd & ->)%index_inv.
  destruct (upserts_spec _ t Hw Hd) as [Hw' Hdoc]. split; [done |]. split; [done |].
  exists vs. split; [done |]. split; [done |]. split.
  - intros k d v Hk Hv. rewrite Hdoc.
    destruct (row_for _ _ _) as [r|] eqn:Hf.
    + apply row_for_Some in Hf as [Hin Hkey].
      assert (r = new_row utcnow c k (d, v)) as ->.
      { apply (rows_by_key (imap (new_row utcnow c) (zip ds vs))); [done.. | | by rewrite Hkey].
        apply in_rows. by exists k, d, v. }
      eexists. split; [reflexivity |]. by destruct (document c (doc_id d) t).
    + exfalso. eapply (row_for_None c (doc_id d)); [exact Hf | apply in_rows; by exists k, d, v | done].
  - intros c' i Hother. rewrite Hdoc. destruct (row_for c' i _) as [r|] eqn:Hf; [|done].
    exfalso. apply row_for_Some in Hf as [(k & d & v & Hk & Hv & ->)%in_rows Hkey].
    unfold key, new_row in Hkey. simplify_eq/=. destruct Hother as [?|Hni]; [done |]. apply Hni.
    apply list_elem_of_In, list_elem_of_fmap. exists d. split; [done |]. by eapply list_elem_of_lookup_2.
Qed.

Lemma forallb_imap {A B} (p : B -> bool) (f : nat -> A -> B) (g : A -> bool) l :
  (forall k x, p (f k x) = g x) -> forallb p (imap f l) = forallb g l.
Proof.
  revert f. induction l as [|x l IH]; intros f Hg; [done |]. rewrite imap_cons. simpl. rewrite Hg.
  f_equal. apply IH. intros k y. apply Hg.
Qed.

Lemma rows_fit_clock utcnow utcnow' c ps :
  forallb (row_fits embedding_dim storable) (imap (new_row utcnow c) ps) =
  forallb (row_fits embedding_dim storable) (imap (new_row utcnow' c) ps).
Proof.
  set (g := fun x => row_fits embedding_dim storable (new_row utcnow c 0 x)).
  by rewrite (forallb_imap _ (new_row utcnow c) g), (forallb_imap _ (new_row utcnow' c) g).
Qed.

Lemma distinct_keys_NoDup rs : distinct_keys rs = true <-> NoDup (map key rs).
Proof.
  induction rs as [|r rs IH]; simpl; [split; [constructor | done] |].
  rewrite andb_true_iff, negb_true_iff, IH, NoDup_cons.
  enough (existsb (same_key r) rs = false <-> key r ∉ map key rs) as -> by done.
  rewrite <- not_true_iff_false, existsb_exists. setoid_rewrite same_key_spec.
  rewrite list_elem_of_fmap. setoid_rewrite list_elem_of_In. split.
  - intros Hn (x & Hk & Hx). apply Hn. by exists x.
  - intros Hn (x & Hx & Hk). apply Hn. by exists x.
Qed.

Lemma keys_of_rows utcnow c ds vs :
  length vs = length ds -> map key (imap (new_row utcnow c) (zip ds vs)) = map (fun i => Some (c, i)) (map doc_id ds).
Proof.
  intros Hlen. apply list_eq. intros k.
  change (@map IndexedDocument (option (string * Z))) with (@fmap list _ IndexedDocument (option (string * Z))).
  rewrite list_lookup_fmap, list_lookup_imap, map_map.
  change (@map DocumentIn (option (string * Z))) with (@fmap list _ DocumentIn (option (string * Z))).
  rewrite list_lookup_fmap.
  destruct (ds !! k) as [d|] eqn:Hd.
  - destruct (lookup_lt_is_Some_2 vs k) as [v Hv]; [apply lookup_lt_Some in Hd; lia |].
    assert (zip ds vs !! k = Some (d, v)) as -> by (by apply lookup_zip_Some). done.
  - enough (zip ds vs !! k = None) as -> by done. apply lookup_ge_None. rewrite length_zip.
    apply lookup_ge_None in Hd. lia.
Qed.

Lemma distinct_documents utcnow c ds vs :
  length vs = length ds ->
  distinct_keys (imap (new_row utcnow c) (zip ds vs)) = true <-> NoDup (map doc_id ds).
Proof.
  intros Hlen. rewrite distinct_keys_NoDup, keys_of_rows by done.
  split; [apply NoDup_fmap_1 | apply NoDup_fmap_2; by intros ? ? [=]].
Qed.

Lemma zip_strict_zip {A B} (l : list A) (m : list B) : length l = length m -> zip_strict l m = Ok (zip l m).
Proof.
  revert m. induction l as [|a l IH]; intros [|b m] Hlen; simplify_eq/=; [done |]. by rewrite IH.
Qed.

(** A request is accepted exactly when the model answers with one vector per document,
    the rows fit their columns and no external id occurs twice. *)
Lemma index_accepts utcnow c ds vs t :
  ds <> [] -> model_embed (map doc_text ds) = Some vs -> length vs = length ds ->
  forallb (row_fits embedding_dim storable) (imap (new_row utcnow c) (zip ds vs)) = true ->
  NoDup (map doc_id ds) ->
  index utcnow c ds t = Ok (Z.of_nat (length ds), upserts t (imap (new_row utcnow c) (zip ds vs))).
Proof.
  intros Hne Hm Hlen Hf Hnd. unfold index_documents. destruct ds as [|d ds']; [done |].
  set (ds := d :: ds') in *. unfold embed_texts. rewrite Hm.
  change (map doc_text ds) with (doc_text d :: map doc_text ds'). cbn [bind_result].
  rewrite zip_strict_zip by done. cbn [bind_result]. unfold insert_on_conflict.
  rewrite Hf, (proj2 (distinct_documents utcnow c ds vs Hlen)) by done. done.
Qed.

(** Once a request's documents are there, indexing them again leaves every row as it is. *)
Lemma reindexing_settled utcnow utcnow' c ds t n t' u :
  wf_store t -> index utcnow c ds t = Ok (n, t') -> wf_store u -> rows u = rows t' ->
  exists u', index utcnow' c ds u = Ok (n, u') /\ rows u' = rows u /\ wf_store u'.
Proof.
  intros Hw Hi Hu Hrows. pose proof Hi as Hi'. apply index_inv in Hi as (vs & Hlen & Hm & -> & Hf & Hd & ->).
  destruct (upserts_spec _ t Hw Hd) as [Hw' Hdoc].
  destruct (decide (ds = [])) as [->|Hne]; [by exists u |].
  rewrite (index_accepts utcnow' c ds vs);
    [|done | by apply Hm | done | by rewrite (rows_fit_clock utcnow' utcnow) | by apply (distinct_documents utcnow c ds vs)].
  eexists. split; [reflexivity |].
  assert (distinct_keys (imap (new_row utcnow' c) (zip ds vs)) = true) as Hd'.
  { apply distinct_documents; [done |]. by apply (distinct_documents utcnow c ds vs). }
  split; [|by apply upserts_spec].
  apply upserts_settled; [done |]. rewrite Forall_forall. intros r Hr%list_elem_of_In.
  apply in_rows in Hr as (k & d & v & Hk & Hv & ->).
  destruct (row_for c (doc_id d) (imap (new_row utcnow c) (zip ds vs))) as [r|] eqn:Hrow.
  - exists c, (doc_id d). eexists. split; [done |]. rewrite (document_rows _ _ _ _ Hrows), Hdoc, Hrow. split; [reflexivity |].
    apply row_for_Some in Hrow as [Hin Hkey].
    assert (r = new_row utcnow c k (d, v)) as ->.
    { apply (rows_by_key _ _ _ Hd); [done | apply in_rows; by exists k, d, v | by rewrite Hkey]. }
    by destruct (document c (doc_id d) t).
  - exfalso. eapply (row_for_None c (doc_id d)); [exact Hrow | apply in_rows; by exists k, d, v | done].
Qed.

(** Sending a request a second time is accepted and leaves every row as it is, whatever
    the clock reads by then: a retry after a lost answer is harmless. *)
Theorem reindexing_changes_nothing utcnow utcnow' c ds t n t' :
  wf_store t -> index utcnow c ds t = Ok (n, t') ->
  exists t'', index utcnow' c ds t' = Ok (n, t'') /\ rows t'' = rows t' /\ wf_store t''.
Proof.
  intros Hw Hi. eapply reindexing_settled; [exact Hw | exact Hi | | done]. by eapply indexing_exact.
Qed.

(** A request in which an external id occurs twice fails and stores nothing. *)
Theorem duplicate_documents_fail utcnow c ds t :
  ~ NoDup (map doc_id ds) -> is_ok (index utcnow c ds t) = false.
Proof.
  intros Hd. destruct (index utcnow c ds t) as [[n t']|] eqn:Hi; [|done].
  apply index_inv in Hi as (vs & Hlen & _ & _ & _ & Hk & _).
  exfalso. apply Hd. by apply (distinct_documents utcnow c ds vs).
Qed.

(** *** Search *)

Lemma sorted_parts {A} (R : A -> A -> Prop) (l m : list A) :
  StronglySorted R (l ++ m) -> StronglySorted R l /\ forall x y, In x l -> In y m -> R x y.
Proof.
  induction l as [|z l IH]; simpl; [by split; [constructor |] |].
  intros [[Hl Hb]%IH Hz]%StronglySorted_inv. rewrite Forall_forall in Hz. split.
  - constructor; [done |]. apply Forall_forall. intros x Hx. apply Hz, elem_of_app. by left.
  - intros x y [->|Hx] Hy; [|by apply Hb]. apply Hz, elem_of_app. right. by apply list_elem_of_In.
Qed.

Lemma sorted_candidates (l : list (IndexedDocument * Q)) :
  StronglySorted (fun x y : IndexedDocument * Q => (x.2 <= y.2)%Q) (order_by closer l).
Proof.
  assert (StronglySorted (fun x y => closer x y = true) (order_by closer l)) as Hs.
  { apply order_by_sorted; unfold closer.
    - intros x y. rewrite !Qle_bool_iff. lra.
    - intros x y z. rewrite !Qle_bool_iff. lra. }
  induction Hs as [|x l' Hs IH Hx]; constructor; [done |]. eapply Forall_impl; [exact Hx |].
  intros y Hy. by apply Qle_bool_iff.
Qed.

Context (cosine_distance : vector -> vector -> Q) (contains : dict -> dict -> bool).

Definition admits (fs : option dict) (r : IndexedDocument) : Prop :=
  match fs with None | Some [] => True | Some f => contains (metadata_json r) f = true end.

(** [search_documents]: the items come from documents of the collection that the filters
    admit, closest first, [top_k] of them or all there are, and none left out is closer
    than one returned; the score is one minus the distance. *)
Theorem search_returns_nearest c q k fs t items :
  wf_store t -> search_documents model_embed cosine_distance contains c q k fs t = Ok items ->
  exists v found left_out,
    embed_query model_embed q = Ok v /\
    (forall x, In x (found ++ left_out) <->
      exists i, document c i t = Some x.1 /\ admits fs x.1 /\ x.2 = cosine_distance (embedding x.1) v) /\
    items = map to_item found /\
    length found = Nat.min (Z.to_nat k) (length (found ++ left_out)) /\
    StronglySorted (fun x y : IndexedDocument * Q => (x.2 <= y.2)%Q) found /\
    (forall x y, In x found -> In y left_out -> (x.2 <= y.2)%Q).
Proof.
  intros Hw Hs. unfold search_documents in Hs.
  destruct (embed_query model_embed q) as [v|] eqn:Hv; simpl in Hs; [|done].
  destruct (existsb _ _); [done |]. simplify_eq.
  set (l := order_by closer (candidates cosine_distance contains c fs v t)).
  assert (StronglySorted (fun x y : IndexedDocument * Q => (x.2 <= y.2)%Q) l) as Hsort by apply sorted_candidates.
  exists v, (take (Z.to_nat k) l), (drop (Z.to_nat k) l). rewrite take_drop.
  split; [done |]. split; [|split; [done |]]; [|split; [by rewrite length_take |]].
  - intros x. assert (l ≡ₚ candidates cosine_distance contains c fs v t) as Hp by apply order_by_perm.
    rewrite <- list_elem_of_In, Hp, list_elem_of_In. unfold candidates. rewrite in_map_iff.
    setoid_rewrite (document_Some c); [|done]. split.
    + intros ([j r] & <- & Hin). apply select_spec in Hin as [Hg Hp2]; [|apply Hw].
      apply andb_true_iff in Hp2 as [Hc Hfs]. apply String.eqb_eq in Hc. simpl.
      exists (external_id r). split; [exists j; split; [done |]; unfold key; by rewrite Hc |].
      split; [|done]. unfold admits. destruct fs as [[|? ?]|]; [exact I | exact Hfs | exact I].
    + intros (i & (j & Hg & Hk) & Had & Hx). exists (j, x.1). split; [destruct x; simpl in *; by rewrite Hx |].
      apply select_spec; [apply Hw |]. split; [done |]. unfold key in Hk. injection Hk as Hc Hi.
      rewrite Hc, String.eqb_refl. unfold admits in Had. destruct fs as [[|? ?]|]; [done | exact Had | done].
  - rewrite <- (take_drop (Z.to_nat k) l) in Hsort. by apply sorted_parts.
Qed.

End Service.
End StoreTheorems.

(** ** Theorems: the wire and the calls *)

Module BridgeTheorems.
Import InferenceService Observations Bridge.

Section Wire.
Context (isoformat : datetime -> string) (float_repr : Q -> string) (lax_int : json -> option Z).

(** The document that the service reads off the wire. *)
Definition document_of (x : Z * Observation) : DocumentIn :=
  DocIn x.1 (observation_text isoformat float_repr x.2) (observation_metadata isoformat x.2).

Lemma parse_documents (os : list (Z * Observation)) :
  mapM (parse_document lax_int) (map (build_observation_search_document isoformat float_repr) os) =
  Some (map document_of os).
Proof. induction os as [|x os IH]; [done |]. cbn [map mapM]. by rewrite IH. Qed.

Lemma parse_index_payload c os :
  parse_index lax_int (index_payload isoformat float_repr c os) = Some (IndexReq c (map document_of os)).
Proof. unfold parse_index, index_payload, read_field. simpl. by rewrite parse_documents. Qed.

Lemma parse_search_payload q k c fs :
  parse_search lax_int (search_payload q k c fs) =
  if (1 <=? k) && (k <=? 50) then Some (SearchReq q k c fs) else None.
Proof.
  unfold parse_search, search_payload, read_field. simpl. destruct (_ && _); [|done]. by destruct fs.
Qed.

(** What the ingestor sends is what the service reads: an index request with the
    collection and one document per observation, a search with the same query, number of
    results, collection and filters, as long as that number is one the service allows. *)
Theorem wire_round_trip c os q k fs :
  parse_index lax_int (index_payload isoformat float_repr c os) = Some (IndexReq c (map document_of os)) /\
  parse_search lax_int (search_payload q k c fs) =
    (if (1 <=? k) && (k <=? 50) then Some (SearchReq q k c fs) else None).
Proof. split; [apply parse_index_payload | apply parse_search_payload]. Qed.
End Wire.

Section Calls.
Context (s : surroundings).

(** A call that succeeds made some number of attempts, the last of which succeeded and
    is its result. *)
Lemma call_succeeds op d a d' :
  resilient_call s op d = (Ok a, d') -> exists k, op k = Ok a /\ attempts s op d = S k.
Proof.
  unfold resilient_call, Resilience.call, attempts. intros Hcall.
  destruct (AsyncBulkhead.run_enter _ _ _) as [bh|].
  2: { destruct (_observe _); simplify_eq. }
  destruct (_call_with_breaker _ _ _ _ _ _ _ _ _) as [[[r tr] b] budget] eqn:Hcb.
  assert (r = Ok a) as ->.
  { destruct (_observe _) in Hcall; destruct r; by simplify_eq. }
  clear Hcall. unfold _call_with_breaker in Hcb.
  destruct (Backoff.wrapper _ _ _ _ _ _ _ _ _ _ _) as [[r0 tr0] bu] eqn:Hw. simplify_eq.
  unfold Backoff.wrapper in Hw. change (Z.to_nat (1 + 1)) with 2%nat in Hw.
  apply BackoffTheorems.loop_shape in Hw; [|done]. simpl in Hw.
  destruct Hw as (Hcalls & _ & _ & Hex & Hall). set (k := length (Backoff.sleeps_of tr)) in *.
  unfold BackoffTheorems.explains in Hex.
  assert (forall i, (i <= k)%nat -> is_Some (Breaker.aenter breaker_config (t_enter s i)
    (breaker_at op (t_enter s) (t_end s) (others_breaker s) i (breaker d)))) as Hin.
  { intros i Hi. destruct (decide (i = k)) as [->|Hne].
    - unfold attempt, Breaker.call in Hex. destruct (Breaker.aenter _ _ _); [by eexists |].
      simpl in Hex. destruct Hex as [[? _]|[? _]]; done.
    - destruct (Hall i) as (e & He & _ & Hm); [lia |].
      unfold attempt, Breaker.call in He. destruct (Breaker.aenter _ _ _); [by eexists |].
      simpl in He. simplify_eq. unfold Backoff.may_retry in Hm. simpl in Hm. by rewrite andb_false_r in Hm. }
  exists k. split.
  - unfold attempt, Breaker.call in Hex. destruct (Breaker.aenter _ _ _).
    + destruct (op k); simpl in Hex; [by simplify_eq |]. destruct Hex as [[? _]|[? _]]; done.
    + simpl in Hex. destruct Hex as [[? _]|[? _]]; done.
  - unfold operations_run. rewrite Hcalls.
    rewrite (forallb_filter_id _ (seq 0 (S k))); [by rewrite length_seq |].
    apply forallb_forall. intros i Hi. apply in_seq in Hi. apply bool_decide_eq_true_2, Hin. lia.
Qed.

(** A remote call that succeeds ends with an attempt that the service answered, in the
    state of that time, with a status of success and an object. *)
Lemma remote_succeeds {St} (serve : nat -> St -> response * St) net t d raw t' d' :
  remote_call s serve net t d = (Ok raw, t', d') ->
  exists k, t' = state_at serve net (S k) t /\ net k = Delivered /\
    200 <= status (fst (serve k (state_at serve net k t))) <= 299 /\
    body (fst (serve k (state_at serve net k t))) = Some (JObj raw).
Proof.
  unfold remote_call. destruct (resilient_call _ _ _) as [[r|e] d0] eqn:Hc; [|done].
  apply call_succeeds in Hc as (k & Hop & ->). unfold object_of.
  destruct (body r) as [j|] eqn:Hb; [|done]. destruct j; try done. intros [= <- <- <-].
  exists k. split; [done |]. unfold operation, exchange_with in Hop.
  destruct (net k); simpl in Hop; try done. destruct (_ && _) eqn:Hst; [|done]. simplify_eq.
  apply andb_true_iff in Hst as [? ?]. bool_to_prop. done.
Qed.
End Calls.
End BridgeTheorems.

(** ** Theorems: the routes on the service *)

Module RouteTheorems.
Import InferenceService SourceRegistry Observations Bridge VectorRoutes StoreTheorems BridgeTheorems.

Section Routes.
Context (settings_collection : string).
Context (isoformat : datetime -> string) (float_repr : Q -> string) (py_repr : json -> string).
Context (lax_int : json -> option Z) (lax_float : json -> option Q).
Context (s : surroundings) (net : nat -> fate).
Context (model_embed : list string -> option (list vector)) (embedding_dim : nat) (storable : DocumentIn -> bool).
Context (cosine_distance : vector -> vector -> Q) (contains : dict -> dict -> bool).
Context (utcnow : nat -> nat -> datetime).

(** The service, its clock at attempt [n] being [utcnow n]. *)
#[local] Abbreviation service r := (fun n => serve model_embed embedding_dim storable cosine_distance contains (utcnow n) lax_int r).
#[local] Abbreviation index n := (index_documents model_embed embedding_dim storable (utcnow n)).
#[local] Abbreviation search := (search_documents model_embed cosine_distance contains).
#[local] Abbreviation document_of' := (document_of isoformat float_repr).

(** One round of the service on an index request. *)
Lemma service_index c os n t :
  service (PostIndex (index_payload isoformat float_repr c os)) n t =
  match index n c (map document_of' os) t with
  | Ok (k, t') => (Response 201 (Some (JObj [("collection", JStr c); ("indexed", JInt k)])), t')
  | Raise _ => (internal_error, t)
  end.
Proof.
  unfold serve, index_endpoint. rewrite parse_index_payload. simpl.
  by destruct (index n c _ t) as [[]|].
Qed.

(** Earlier attempts either left the store alone or had indexed the documents. *)
Lemma earlier_attempts c os t k :
  wf_store t ->
  let u := state_at (service (PostIndex (index_payload isoformat float_repr c os))) net k t in
  u = t \/ exists n m u', index n c (map document_of' os) t = Ok (m, u') /\ rows u = rows u' /\ wf_store u.
Proof.
  intros Hw. induction k as [|k IH]; [by left |]. cbv zeta in *. simpl. unfold exchange_with.
  set (u := state_at _ net k t) in *. rewrite service_index.
  assert (let u' := snd match index k c (map document_of' os) u with
                        | Ok (k, t') => (Response 201 (Some (JObj [("collection", JStr c); ("indexed", JInt k)])), t')
                        | Raise _ => (internal_error, u)
                        end in
          u' = t \/ exists n m u0, index n c (map document_of' os) t = Ok (m, u0) /\ rows u' = rows u0 /\ wf_store u') as Hserved.
  { destruct (index k c _ u) as [[m u']|] eqn:Hi; simpl; [|exact IH]. right.
    destruct IH as [-> | (n & m0 & u0 & Hi0 & Hrows & Hwu)].
    - exists k, m, u'. split; [done |]. split; [done |]. by eapply indexing_exact.
    - destruct (reindexing_settled _ _ _ _ (utcnow k) _ _ _ _ _ _ Hw Hi0 Hwu Hrows) as (u1 & Hi1 & Hrows1 & Hw1).
      rewrite Hi1 in Hi. simplify_eq. exists n, m, u0. split; [done |]. by split; [congruence |]. }
  destruct (net k) as [| | |[]]; simpl; [exact Hserved | exact IH | exact Hserved | exact Hserved | exact IH].
Qed.

Lemma from_keys_spec l seen i : In i (from_keys seen l) <-> In i l /\ i ∉ seen.
Proof.
  revert seen. induction l as [|j l IH]; intros seen; simpl; [tauto |].
  case_bool_decide as Hj; simpl; rewrite IH.
  - split; [tauto |]. intros [[->|?] ?]; [done | tauto].
  - rewrite not_elem_of_cons. destruct (decide (j = i)) as [->|Hne]; [tauto |].
    split; [intros [?|(? & _ & ?)]; [done | tauto] |].
    intros [[?|?] ?]; [done |]. right. split; [done |]. by split; [congruence |].
Qed.

Lemma active_among_spec ids w i o :
  wf_table (observations w) ->
  In (i, o) (active_among ids w) <-> In i ids /\ get i (observations w) = Some o /\ obs_deleted_at o = None.
Proof.
  intros [Hs _]. unfold active_among. rewrite List.filter_In, lookup_row_In by done. simpl.
  rewrite andb_true_iff, bool_decide_eq_true, list_elem_of_In. unfold is_active, get. rewrite bool_decide_eq_true. tauto.
Qed.

Lemma active_among_nodup ids w : wf_table (observations w) -> NoDup (map fst (active_among ids w)).
Proof.
  intros [Hs _]. apply StronglySorted_lt_NoDup. unfold active_among. apply sorted_filter. exact Hs.
Qed.

Lemma from_keys_nodup l seen : NoDup (from_keys seen l).
Proof.
  revert seen. induction l as [|j l IH]; intros seen; cbn [from_keys]; [constructor |].
  case_bool_decide as Hj; [apply IH |]. constructor; [|apply IH]. rewrite list_elem_of_In, from_keys_spec. set_solver.
Qed.

(** The documents of an accepted indexing call are in the store the service is left with. *)
Lemma indexed_by_call os collection t d raw t' d' :
  wf_store t ->
  index_observation_documents settings_collection isoformat float_repr s net
    (fun r => service r) os collection t d = (Ok raw, t', d') ->
  let c := collection_name settings_collection collection in
  wf_store t' /\ raw = [("collection", JStr c); ("indexed", JInt (Z.of_nat (length os)))] /\
  (forall i o, In (i, o) os -> exists r, document c i t' = Some r /\
     text r = observation_text isoformat float_repr o /\ metadata_json r = observation_metadata isoformat o) /\
  (forall c' i, (c' <> c \/ ~ In i (map fst os)) -> document c' i t' = document c' i t).
Proof.
  intros Hw Hcall c. unfold index_observation_documents, bridge_call in Hcall. fold c in Hcall.
  apply remote_succeeds in Hcall as (k & -> & Hnet & Hst & Hbody).
  pose proof (earlier_attempts c os t k Hw) as Hearlier. cbv zeta in Hearlier.
  cbn [state_at]. unfold exchange_with. rewrite Hnet. cbn [snd].
  set (u := state_at _ net k t) in *. rewrite service_index in Hst, Hbody |- *.
  assert (wf_store u) as Hwu by (by destruct Hearlier as [-> | (? & ? & ? & ? & ? & ?)]).
  destruct (index k c (map document_of' os) u) as [[m u']|] eqn:Hi; simpl in Hst, Hbody |- *; [|lia].
  assert (exists n t0, index n c (map document_of' os) t = Ok (m, t0) /\ rows u' = rows t0 /\ wf_store u')
    as (n & t0 & Hi0 & Hrows & Hw').
  { destruct Hearlier as [-> | (n & m0 & u0 & Hi0 & Hr0 & _)].
    - exists k, u'. split; [done |]. split; [done |]. by eapply indexing_exact.
    - destruct (reindexing_settled _ _ _ _ (utcnow k) _ _ _ _ _ _ Hw Hi0 Hwu Hr0) as (u1 & Hi1 & Hr1 & Hw1).
      rewrite Hi1 in Hi. simplify_eq. exists n, u0. by split; [|split; [congruence |]]. }
  destruct (indexing_exact _ _ _ _ _ _ _ _ _ Hw Hi0) as (-> & Hw0 & vs & Hlen & _ & Hset & Hother).
  split; [done |]. split; [injection Hbody as <-; by rewrite length_map |]. split.
  - intros i o Hin. apply list_elem_of_In, list_elem_of_lookup in Hin as (j & Hj).
    destruct (lookup_lt_is_Some_2 vs j) as [v Hv]; [rewrite Hlen, length_map; by eapply lookup_lt_Some |].
    destruct (Hset j (document_of' (i, o)) v) as (r & Hd & Ht & Hm & _).
    + change (map document_of' os) with (document_of' <$> os). by rewrite list_lookup_fmap, Hj.
    + done.
    + exists r. rewrite (document_rows _ _ _ _ Hrows). by repeat split.
  - intros c' i Hci. rewrite (document_rows _ _ _ _ Hrows). apply Hother.
    destruct Hci as [?|Hni]; [by left |]. right. by rewrite map_map.
Qed.

(** C17: [POST /index/observations] on the service, over a network that may lose requests and
    answers: a response means that every requested observation that exists and is not
    archived is in the store, under its id, with its text and metadata, whichever attempt
    put it there; no document of another id or collection changed.  The response counts
    the requested ids without repetition, and those indexed ([indexed_count] because the
    service reports its count under another name and the route falls back on what it
    sent), and lists the missing ones, each once. *)
Theorem indexing_through_service ids collection w t d r t' d' :
  wf_table (observations w) -> wf_store t ->
  index_observations_for_vector_search settings_collection isoformat float_repr py_repr s net
    (fun r => service r) ids collection w t d = (Responded r, t', d') ->
  let c := collection_name settings_collection collection in
  let indexed i o := In i ids /\ get i (observations w) = Some o /\ obs_deleted_at o = None in
  wf_store t' /\
  (forall i o, indexed i o -> exists x, document c i t' = Some x /\
     text x = observation_text isoformat float_repr o /\ metadata_json x = observation_metadata isoformat o) /\
  (forall c' i, (c' <> c \/ forall o, ~ indexed i o) -> document c' i t' = document c' i t) /\
  indexed_count r = Z.of_nat (length (active_among ids w)) /\ resp_collection r = c /\
  (exists asked, NoDup asked /\ (forall i, In i asked <-> In i ids) /\ requested_count r = Z.of_nat (length asked)) /\
  (exists found, NoDup found /\ (forall i, In i found <-> exists o, indexed i o) /\ indexed_count r = Z.of_nat (length found)) /\
  NoDup (missing_observation_ids r) /\
  (forall i, In i (missing_observation_ids r) <-> In i ids /\ forall o, ~ indexed i o).
Proof.
  intros Hwo Hw Hr c indexed. unfold index_observations_for_vector_search in Hr.
  destruct (negb _); [done |].
  assert (active_among (from_keys [] ids) w = active_among ids w) as Hsame.
  { unfold active_among. apply List.filter_ext. intros x. f_equal. apply bool_decide_ext.
    rewrite !list_elem_of_In, from_keys_spec. set_solver. }
  rewrite Hsame in Hr.
  assert (forall i, In i (map fst (active_among ids w)) <-> exists o, indexed i o) as Hact.
  { intros i. rewrite in_map_iff. unfold indexed. setoid_rewrite <- (active_among_spec ids w); [|done].
    split; [intros ([? o] & <- & ?); by exists o | intros (o & ?); by exists (i, o)]. }
  assert (forall i o, indexed i o <-> In (i, o) (active_among ids w)) as Hidx.
  { intros i o. symmetry. by apply active_among_spec. }
  destruct (active_among ids w) as [|x os'] eqn:Hos; [done |]. set (os := x :: os') in *.
  destruct (index_observation_documents _ _ _ _ _ _ os collection t d) as [[[raw|e] t0] d0] eqn:Hcall.
  2: { unfold index_answer, translate in Hr. destruct e as [[|[[|e]| |]|]| |]; try done. by destruct (is_http_error e). }
  apply indexed_by_call in Hcall as (Hw' & -> & Hset & Hother); [|done]. fold c in Hset, Hother.
  unfold index_answer, get_or in Hr. simpl in Hr. simplify_eq. simpl. fold c.
  split; [done |]. split; [intros i o Hi; apply Hset; by apply Hidx |].
  split; [|split; [done | split; [done | split; [|split; [|split]]]]].
  - intros c' i [Hc|Hi]; apply Hother; [by left |]. right. rewrite Hact. intros (o & Ho). by apply (Hi o).
  - exists (from_keys [] ids). split; [apply from_keys_nodup |]. split; [|done].
    intros i. rewrite from_keys_spec. set_solver.
  - exists (map fst (x :: os')). split; [|split; [exact Hact | by rewrite length_map]].
    rewrite <- Hos. by apply active_among_nodup.
  - apply NoDup_ListNoDup, List.NoDup_filter, NoDup_ListNoDup, from_keys_nodup.
  - intros i. change (x.1 :: map fst os') with (map fst (x :: os')).
    rewrite List.filter_In, from_keys_spec, negb_true_iff, bool_decide_eq_false.
    specialize (Hact i). rewrite <- list_elem_of_In in Hact. rewrite Hact. split.
    + intros [[Hi _] Hn]. split; [done |]. intros o Ho. apply Hn. by exists o.
    + intros [Hi Hn]. split; [by split; [|set_solver] |]. intros (o & Ho). by apply (Hn o).
Qed.

Lemma search_length c q k fs t items :
  search c q k fs t = Ok items -> (length items <= Z.to_nat k)%nat.
Proof.
  unfold search_documents. destruct (embed_query _ _); simpl; [|done]. destruct (existsb _ _); [done |].
  intros [= <-]. rewrite length_map. apply firstn_le_length.
Qed.

Lemma read_items (items : list SearchResultItem) :
  mapM (read_match lax_int lax_float) (map item_json items) =
  Some (map (fun x => Match (item_id x) (score x) (item_metadata x)) items).
Proof. induction items as [|x items IH]; [done |]. cbn [map mapM]. by rewrite IH. Qed.

Lemma searching_keeps_state p t n : state_at (service (PostSearch p)) net n t = t.
Proof.
  induction n as [|n IH]; [done |]. simpl. rewrite IH. unfold exchange_with, serve, search_endpoint.
  destruct (net n) as [| | |[]]; simpl; by destruct (parse_search lax_int p).
Qed.

(** [POST /query] on the service: a response holds what the search over the store finds,
    at most [top_k] matches with their ids, scores and metadata, and echoes the query; but
    its [count] is zero however many matches it holds, since the service's answer has no
    such key. *)
Theorem query_through_service q k collection fs t d r t' d' :
  query_vector_search settings_collection float_repr py_repr lax_int lax_float s net
    (fun r => service r) q k collection fs t d = (Responded r, t', d') ->
  exists items, search (collection_name settings_collection collection) q k fs t = Ok items /\
    results r = map (fun x => Match (item_id x) (score x) (item_metadata x)) items /\
    Z.of_nat (length (results r)) <= k <= 25 /\
    resp_query r = q /\ match_count r = 0 /\ t' = t.
Proof.
  unfold query_vector_search. destruct (negb _) eqn:Hguard; [done |]. apply negb_false_iff in Hguard.
  bool_to_prop. unfold search_observation_documents, bridge_call.
  destruct (remote_call _ _ _ _ _) as [[[raw|e] t0] d0] eqn:Hcall.
  2: { destruct e as [[|[[|e]| |]|]| |]; simpl; try done. by destruct (is_http_error e). }
  apply remote_succeeds in Hcall as (n & -> & Hnet & Hst & Hbody). rewrite searching_keeps_state in *.
  unfold serve, search_endpoint in Hst, Hbody.
  rewrite parse_search_payload in Hst, Hbody.
  assert ((1 <=? k) && (k <=? 50) = true) as Hk by (apply andb_true_iff; split; apply Z.leb_le; lia).
  rewrite Hk in Hst, Hbody. simpl in Hst, Hbody.
  destruct (search _ q k fs t) as [items|] eqn:Hs; simpl in Hst, Hbody; [|lia].
  injection Hbody as <-. unfold get_or. cbn [json_member or_else String.eqb Ascii.eqb Bool.eqb]. simpl.
  rewrite read_items. intros [= <- <- <-]. exists items. simpl. repeat split; try done; try lia.
  rewrite length_map. apply search_length in Hs. lia.
Qed.

(** A call whose first attempt finds no service and whose retry budget is spent ends in an
    internal error: unlike an open circuit or a full bulkhead, [RetryBudgetExceededError]
    is not translated. *)
Theorem spent_budget_is_internal_error r n missing collection detail t d b bh :
  AsyncBulkhead.run_enter (bulkhead_config d) (task s) (bulkhead d) = Some bh ->
  is_Some (Breaker.aenter breaker_config (t_enter s 0) (breaker d)) ->
  (net 0%nat = RequestLost \/ net 0%nat = AnswerLost) ->
  _retry_budget d = Some b -> fst (Budget.consume_retry (t_budget s 0%nat) (others_budget s 0%nat b)) = false ->
  index_answer settings_collection float_repr py_repr n n missing collection
    (fst (fst (remote_call s (service r) net t d))) detail = ServerError.
Proof.
  intros Hb Hc Hn Hbu Hspent.
  enough (fst (fst (remote_call s (service r) net t d)) = Raise (Failed (Downstream Backoff.RetryBudgetExceededError))) as -> by done.
  assert (operation (service r) net t 0 = Raise (Error true None None true)) as Hop.
  { unfold operation, exchange_with. by destruct Hn as [-> | ->]. }
  unfold remote_call, resilient_call, Resilience.call. rewrite Hb.
  assert (exists tr b' budget, _call_with_breaker (operation (service r) net t) (t_enter s) (t_end s) (t_budget s)
    (uniform s) (others_breaker s) (others_budget s) (breaker d) (_retry_budget d) =
    (Raise Backoff.RetryBudgetExceededError, tr, b', budget)) as (tr & b' & budget & ->).
  { unfold _call_with_breaker, Backoff.wrapper. change (Z.to_nat (1 + 1)) with 2%nat.
    rewrite BackoffTheorems.loop_S. unfold attempt at 1. cbn [breaker_at]. unfold Breaker.call. rewrite Hop.
    destruct Hc as [b1 ->]. cbn [fst]. rewrite Hbu. simpl.
    destruct (Budget.consume_retry _ _) as [ok b2]. simpl in Hspent. subst ok. by do 3 eexists. }
  simpl. unfold _observe. simpl. by destruct (ResilienceTheorems.state_value_total b') as [v ->].
Qed.
End Routes.
End RouteTheorems.

(** ** Witnesses *)

Module VectorWitnesses.
Import SourceRegistry Observations InferenceService Bridge VectorRoutes.

(** A model of one dimension, the length of the text. *)
Definition by_length (texts : list string) : option (list vector) :=
  Some (map (fun x => [inject_Z (Z.of_nat (String.length x))]) texts).

Definition apart (u v : vector) : Q :=
  match u, v with [a], [b] => Qmax (a - b) (b - a) | _, _ => 0%Q end.

Definition quiet : surroundings :=
  Around 7 (fun n => inject_Z (Z.of_nat n)) (fun n => inject_Z (Z.of_nat n)) (fun _ => 0%Q) (fun _ lo _ => lo)
    (fun _ b => b) (fun _ b => b) (fun b => b).

(** The first answer is lost, the second arrives. *)
Definition flaky (n : nat) : fate := match n with O => AnswerLost | _ => Delivered end.

Definition clock (attempt k : nat) : datetime := Z.of_nat (100 * attempt + k).

Definition iso (t : datetime) : string := str_of_Z t.
Definition no_text (q : Q) : string := "0".

Definition observed (t : datetime) (deleted : option datetime) : Observation :=
  Obs 1 t (JObj [("price", JInt t)]) ["a"; "b"] false None None t (Some t) deleted.

Definition three : world :=
  World (empty_table SourceProfile) (Table [(1, observed 5 None); (2, observed 60 (Some 70)); (4, observed 900 None)] 5).

Lemma three_observations_wf : wf_table (observations three).
Proof. split; simpl; repeat constructor; lia. Qed.

Definition service_of (r : request) (n : nat) : store -> response * store :=
  serve by_length 1 (fun _ => true) apart (fun _ _ => true) (clock n) (fun _ => None) r.

Definition indexed_three :=
  index_observations_for_vector_search "observations" iso no_text (fun _ => "") quiet flaky service_of
    [4; 2; 4; 1; 3] None three (empty_table IndexedDocument) inference_resilience.

Definition no_rows : store := empty_table IndexedDocument.

Lemma no_rows_wf : wf_store no_rows.
Proof. split; [apply wf_empty |]. intros i j r s k Hg. done. Qed.

Lemma indexing_through_service_witness :
  match indexed_three with
  | (Responded r, t, _) =>
      indexed_count r = 2 /\ missing_observation_ids r = [2; 3] /\
      (exists x, document "observations" 4 t = Some x /\ metadata_json x = observation_metadata iso (observed 900 None)) /\
      created_at <$> document "observations" 4 t = Some 2
  | _ => False
  end.
Proof.
  destruct indexed_three as [[[r| | |] t] d] eqn:Hrun; [| by vm_compute in Hrun..].
  pose proof (RouteTheorems.indexing_through_service "observations" iso no_text (fun _ => "") (fun _ => None)
    quiet flaky by_length 1 (fun _ => true) apart (fun _ _ => true) clock
    [4; 2; 4; 1; 3] None three no_rows inference_resilience r t d three_observations_wf no_rows_wf Hrun) as (_ & Hset & _ & Hn & _).
  split; [rewrite Hn; by vm_compute |]. split; [by vm_compute in Hrun; simplify_eq |].
  split; [|by vm_compute in Hrun; simplify_eq].
  destruct (Hset 4 (observed 900 None)) as (x & Hx & _ & Hm); [by split; [left | split] |].
  by exists x.
Defined.

Lemma reindexing_changes_nothing_witness :
  let ds := [DocIn 1 "first" []; DocIn 2 "second" []] in
  match index_documents by_length 1 (fun _ => true) (clock 0) "c" ds no_rows with
  | Ok (n, t) => exists t', index_documents by_length 1 (fun _ => true) (clock 5) "c" ds t = Ok (n, t') /\
                   rows t' = rows t /\ next_id t' = next_id t + 2
  | Raise _ => False
  end.
Proof.
  intros ds. destruct (index_documents _ _ _ (clock 0) "c" ds no_rows) as [[n t]|] eqn:Hi; [|by vm_compute in Hi].
  destruct (StoreTheorems.reindexing_changes_nothing by_length 1 (fun _ => true) (clock 0) (clock 5) "c" ds no_rows n t
    no_rows_wf Hi) as (t' & Hi' & Hrows & _).
  exists t'. split; [done |]. split; [done |]. vm_compute in Hi. simplify_eq. vm_compute in Hi'. by simplify_eq.
Defined.

Lemma duplicate_documents_fail_witness :
  is_ok (index_documents by_length 1 (fun _ => true) (clock 0) "c" [DocIn 1 "a" []; DocIn 1 "b" []] no_rows) = false.
Proof.
  apply (StoreTheorems.duplicate_documents_fail by_length 1 (fun _ => true)).
  simpl. intros [Hn _]%NoDup_cons. apply Hn. by left.
Defined.

Definition stored : store :=
  Table [(1, Indexed "c" 1 "aaaa" [] [4%Q] 0 0); (2, Indexed "c" 2 "aa" [] [2%Q] 0 0); (3, Indexed "d" 3 "a" [] [1%Q] 0 0)] 4.

Lemma stored_wf : wf_store stored.
Proof.
  split; [split; simpl; repeat constructor; lia |]. intros i j r s k Hi Hj.
  unfold get in *. simpl in *.
  destruct (Z.eqb_spec i 1); [|destruct (Z.eqb_spec i 2); [|destruct (Z.eqb_spec i 3); [|done]]];
    (destruct (Z.eqb_spec j 1); [|destruct (Z.eqb_spec j 2); [|destruct (Z.eqb_spec j 3); [|done]]]);
    simplify_eq/=; intros Hr Hs; unfold key in *; simpl in *; congruence.
Qed.

Lemma search_returns_nearest_witness :
  match search_documents by_length apart (fun _ _ => true) "c" "xyz" 1 None stored with
  | Ok items => map item_id items = [1] /\ exists found, items = map to_item found
  | Raise _ => False
  end.
Proof.
  destruct (search_documents _ _ _ "c" "xyz" 1 None stored) as [items|] eqn:Hs; [|by vm_compute in Hs].
  destruct (StoreTheorems.search_returns_nearest by_length apart (fun _ _ => true) "c" "xyz" 1 None stored items
    stored_wf Hs) as (_ & found & _ & _ & _ & Hi & _).
  split; [|by exists found]. clear Hi. vm_compute in Hs. injection Hs as <-. reflexivity.
Defined.

Lemma query_through_service_witness :
  match query_vector_search "c" no_text (fun _ => "") (fun _ => None) (fun _ => None) quiet flaky service_of
          "xyz" 5 None None stored inference_resilience with
  | (Responded r, _, _) => length (results r) = 2%nat /\ match_count r = 0
  | _ => False
  end.
Proof.
  destruct (query_vector_search _ _ _ _ _ _ _ _ _ _ _ _ _ _) as [[[r| | |] t] d] eqn:Hq; [| by vm_compute in Hq..].
  destruct (RouteTheorems.query_through_service "c" no_text (fun _ => "") (fun _ => None) (fun _ => None) quiet flaky
    by_length 1 (fun _ => true) apart (fun _ _ => true) clock "xyz" 5 None None stored inference_resilience r t d Hq)
    as (items & _ & _ & _ & _ & Hn & _).
  split; [by vm_compute in Hq; simplify_eq | exact Hn].
Defined.

(** A dependency whose budget of one retry is spent. *)
Definition spent : DependencyResilience :=
  Dependency "inference" Breaker.init (AsyncBulkhead.Config "inference" 10 10) AsyncBulkhead.init
    (Some (Budget.Budget 1 60 [0%Q])) (Metrics 0 0 0 0).

Lemma spent_budget_is_internal_error_witness :
  index_answer "c" no_text (fun _ => "") 1 1 [] None
    (fst (fst (remote_call quiet (fun n => service_of GetHealth n) (fun _ => RequestLost) stored spent))) "failed" = ServerError.
Proof.
  refine (RouteTheorems.spent_budget_is_internal_error "c" no_text (fun _ => "") (fun _ => None) quiet (fun _ => RequestLost)
    by_length 1 (fun _ => true) apart (fun _ _ => true) clock GetHealth 1 [] None "failed" stored spent
    (Budget.Budget 1 60 [0%Q]) _ eq_refl _ (or_introl eq_refl) eq_refl eq_refl).
  by eexists.
Defined.
End VectorWitnesses.
