(* ===== verification/Scrapers.v ===== *)
(** * Scrapers

    [services/ingestor/scrapers/]: the Bloom filter that deduplicates URLs, the factory,
    and the three scrapers with their retry loops.

    The filter is another implementation of the interface of [Fetch.v] for what remembers
    URLs, and the scrapers are proved against that interface.  SHA-256, the logarithm,
    string hashing, HTML parsing, the HTTP exchanges and the browser are parameters; an
    exchange comes with the seconds it takes.  The semaphore of a scraper is left out:
    every call of the factory makes a scraper with a semaphore of its own. *)

From S2P Require Import Prelude Db AuditTrail Fetch.

Module ScraperBloom.
Import UrlSeen.

Record BloomFilter := Filter { _size : Z; _hash_count : Z; _bits : list Z }.

Section Bloom.
(** [math.log], the truncation [int] being exact on it, and the SHA-256 digest of a text
    as a number. *)
Context (log : Q -> Q) (sha256 : string -> Z).

(** [int(q)]. *)
Definition truncate (q : Q) : Z := Z.quot (Qnum q) (Zpos (Qden q)).

Definition _compute_size (n : Z) (p : Q) : Z :=
  Z.max 1 (truncate (- inject_Z n * log p / (log 2 * log 2))%Q).

Definition _compute_hash_count (m n : Z) : Z := Z.max 1 (truncate (inject_Z m / inject_Z n * log 2)%Q).

(** For a positive capacity and error rate; the scrapers use 1000 or 500, and 1%. *)
Definition init (capacity : Z) (error_rate : Q) : BloomFilter :=
  let size := _compute_size capacity error_rate in
  Filter size (_compute_hash_count size capacity) (replicate (Z.to_nat (size / 8 + 1)) 0).

Definition _positions (item : string) (f : BloomFilter) : list Z :=
  map (fun seed => sha256 (str_of_Z (Z.of_nat seed) +:+ ":" +:+ item) mod _size f) (seq 0 (Z.to_nat (_hash_count f))).

Definition add (item : string) (f : BloomFilter) : result strategy_error BloomFilter :=
  bind_result (Bloom.set_bits (_bits f) (_positions item f)) (fun bits =>
  Ok (Filter (_size f) (_hash_count f) bits)).

Definition contains (item : string) (f : BloomFilter) : result strategy_error bool :=
  Bloom.all_bits (_bits f) (_positions item f).

(** A filter is never emptied by the code. *)
Definition emptied (f : BloomFilter) : BloomFilter :=
  Filter (_size f) (_hash_count f) (replicate (length (_bits f)) 0).

Definition scraper_bloom : UrlSeenStrategy BloomFilter := {|
  is_seen := contains;
  mark_seen := add;
  reset := emptied;
  strategy_name := "scraper_bloom"
|}.
End Bloom.
End ScraperBloom.

(** ** The scrapers *)

Module Scraper.
Import UrlSeen.

Record ScrapedItem := Item { url : string; title : json; content : json; source : string }.

Inductive exn :=
| ScraperTimeoutError (message : string)
| HTTPError
| JSONDecodeError
| KeyError
| TypeError
| AttributeError
| BrowserError
| FilterError (e : strategy_error).

Definition _MAX_RETRIES : nat := 3.
Definition _RETRY_BASE_DELAY : Z := 1.

(** An attempt: what it returns or raises, and the seconds it takes. *)
Definition attempt (A : Type) : Type := result exn A * Q.

(** [except httpx.HTTPError]: what the loop retries. *)
Definition is_http_error (e : exn) : bool := match e with HTTPError => true | _ => false end.

Section Backoff.
Context {A : Type} (retried : exn -> bool).

(** The delay after a failed attempt that is not the last. *)
Definition delay_after (n : nat) : Q :=
  if (n <? _MAX_RETRIES - 1)%nat then inject_Z (_RETRY_BASE_DELAY * 2 ^ Z.of_nat n) else 0%Q.

(** The loop: result, attempts made and seconds elapsed. *)
Fixpoint backoff_loop (attempts : nat -> attempt A) (fuel n : nat) (elapsed : Q) : result exn (option A) * nat * Q :=
  match fuel with
  | O => (Ok None, n, elapsed)
  | S fuel =>
      match attempts n with
      | (Ok a, dt) => (Ok (Some a), S n, (elapsed + dt)%Q)
      | (Raise e, dt) =>
          if retried e then backoff_loop attempts fuel (S n) (elapsed + dt + delay_after n)%Q
          else (Raise e, S n, (elapsed + dt)%Q)
      end
  end.

Definition _fetch_with_backoff (attempts : nat -> attempt A) : result exn (option A) * nat * Q :=
  backoff_loop attempts _MAX_RETRIES 0 0.
End Backoff.

Section Scrapers.
Context {S : Type} `{UrlSeenStrategy S}.

(** [if u in seen: continue], then mark and collect, over what each entry gives: its item
    or what reading it raises.  The filter keeps its marks when an entry raises. *)
Fixpoint collect (entries : list (result exn ScrapedItem)) (seen : S) : result exn (list ScrapedItem) * S :=
  match entries with
  | [] => (Ok [], seen)
  | Raise e :: _ => (Raise e, seen)
  | Ok x :: entries =>
      match is_seen (url x) seen with
      | Raise e => (Raise (FilterError e), seen)
      | Ok true => collect entries seen
      | Ok false =>
          match mark_seen (url x) seen with
          | Raise e => (Raise (FilterError e), seen)
          | Ok seen =>
              let '(r, seen) := collect entries seen in
              (bind_result r (fun xs => Ok (x :: xs)), seen)
          end
      end
  end.

(** *** JSONPlaceholder *)

Definition posts_url : string := "https://jsonplaceholder.typicode.com/posts".

(** [str] of a number, a text or another value inside an f-string. *)
Context (py_str : json -> string).

(** [post['id']] and the two [get]s, which cannot fail on what has an id. *)
Definition read_post (post : json) : result exn ScrapedItem :=
  match post with
  | JObj d =>
      match json_member "id" d with
      | None => Raise KeyError
      | Some i => Ok (Item (posts_url +:+ "/" +:+ py_str i) (or_else (json_member "title" d) (JStr ""))
                    (or_else (json_member "body" d) (JStr "")) "jsonplaceholder")
      end
  | _ => Raise TypeError
  end.

(** [for post in posts]: the keys of an object, the characters of a text. *)
Definition iterate (posts : json) : result exn (list json) :=
  match posts with
  | JList l => Ok l
  | JObj d => Ok (map (fun x => JStr x.1) d)
  | JStr s => Ok (map (fun c => JStr (String c EmptyString)) (String.list_ascii_of_string s))
  | _ => Raise TypeError
  end.

(** An attempt that takes the call past [timeout] is cut off by [asyncio.wait_for]; one that
    ends just then is in time. *)
Definition http_scrape (timeout : Q) (attempts : nat -> attempt json) (seen : S) : result exn (list ScrapedItem) * S :=
  let '(r, _, elapsed) := _fetch_with_backoff is_http_error attempts in
  if Qltb timeout elapsed then (Raise (ScraperTimeoutError ("Timeout fetching " +:+ posts_url)), seen)
  else match r with
       | Raise e => (Raise e, seen)
       | Ok None | Ok (Some JNull) => (Ok [], seen)
       | Ok (Some posts) =>
           match iterate posts with
           | Raise e => (Raise e, seen)
           | Ok posts => collect (map read_post posts) seen
           end
       end.

(** *** Hacker News *)

Definition _HN_URL : string := "https://news.ycombinator.com".

(** [l[:limit]]: a negative limit counts from the end. *)
Definition slice {A} (limit : Z) (l : list A) : list A :=
  if limit <? 0 then take (length l - Z.to_nat (- limit)) l else take (Z.to_nat limit) l.

(** A row of the page: its title cell, when it has one, as text and link. *)
Definition read_row (row : option (string * string)) : list (result exn ScrapedItem) :=
  match row with
  | None => []
  | Some (title, href) =>
      let u := if String.prefix "http" href then href else _HN_URL +:+ "/" +:+ href in
      [Ok (Item u (JStr title) (JStr "") "hn")]
  end.

Definition html_scrape (select_rows : string -> list (option (string * string))) (limit : Z)
    (attempts : nat -> attempt string) (seen : S) : result exn (list ScrapedItem) * S :=
  let '(r, _, _) := _fetch_with_backoff is_http_error attempts in
  match r with
  | Raise e => (Raise e, seen)
  | Ok None => (Ok [], seen)
  | Ok (Some html) => collect (flat_map read_row (slice limit (select_rows html))) seen
  end.

(** *** The browser *)

Definition _TARGET_URL : string := "https://quotes.toscrape.com/js/".

(** [f"{n:06x}"] of 24 bits. *)
Fixpoint hex_digits (k : nat) (n : Z) (acc : string) : string :=
  match k with
  | O => acc
  | Datatypes.S k => hex_digits k (n / 16) (String (AuditTrail.hex_digit (Z.to_nat (n mod 16))) acc)
  end.

(** [hash] of a text, which differs from process to process. *)
Context (py_hash : string -> Z).

Definition quote_item (quote : string * string) : ScrapedItem :=
  let '(text, author) := quote in
  Item (_TARGET_URL +:+ "#" +:+ hex_digits 6 (Z.land (py_hash text) 16777215) EmptyString)
    (JStr author) (JStr text) "playwright".

(** One visit: the elements of the page, [None] where the browser raises on the way, and
    whether it closes. *)
Record visit := Visit { opens : bool; quotes : list (option (string * string)); closes : bool }.

Definition read_quote (q : option (string * string)) : result exn ScrapedItem :=
  match q with Some q => Ok (quote_item q) | None => Raise BrowserError end.

Definition run_visit (v : visit) (seen : S) : result exn (list ScrapedItem) * S :=
  if negb (opens v) then (Raise BrowserError, seen)
  else
    let '(r, seen) := collect (map read_quote (quotes v)) seen in
    match r with
    | Raise e => (Raise e, seen)
    | Ok items => (if closes v then Ok items else Raise BrowserError, seen)
    end.

(** Every exception is retried; the filter is shared by the attempts. *)
Fixpoint browser_loop (visits : nat -> visit) (fuel n : nat) (seen : S) : option (list ScrapedItem) * S :=
  match fuel with
  | O => (None, seen)
  | Datatypes.S fuel =>
      let '(r, seen) := run_visit (visits n) seen in
      match r with
      | Ok items => (Some items, seen)
      | Raise _ => browser_loop visits fuel (Datatypes.S n) seen
      end
  end.

Definition browser_scrape (installed : bool) (limit : Z) (visits : nat -> visit) (seen : S) : list ScrapedItem * S :=
  if negb installed then ([], seen)
  else
    let '(r, seen) := browser_loop visits _MAX_RETRIES 0 seen in
    (match r with None => [] | Some items => slice limit items end, seen).

End Scrapers.
End Scraper.

(** ** The factory *)

Module ScraperFactory.

Inductive scraper_class := HtmlScraper | BrowserScraper | HttpScraper.

Inductive ValueError := value_error (message : string).

Abbreviation registry := (gmap string scraper_class).

Definition register (name : string) (k : scraper_class) (r : registry) : registry := <[name := k]> r.

(** [sorted(cls._registry)]. *)
Definition available_sources (r : registry) : list string := order_by String.leb (map fst (map_to_list r)).

Section Factory.
(** [repr] of a text and of a list of texts. *)
Context (py_repr : string -> string) (py_repr_list : list string -> string).

Definition create (source : string) (r : registry) : result ValueError scraper_class :=
  match r !! source with
  | Some k => Ok k
  | None => Raise (value_error ("Unknown scraper source: " +:+ py_repr source +:+ ". Available: " +:+
                     py_repr_list (available_sources r)))
  end.
End Factory.

(** The modules that need a package which may be missing. *)
Definition _register_scrapers (bs4_installed : bool) (r : registry) : registry :=
  let r := if bs4_installed then register "hn" HtmlScraper r else r in
  register "jsonplaceholder" HttpScraper (register "playwright" BrowserScraper r).

End ScraperFactory.

(** ** Theorems: the filter *)

Module ScraperBloomTheorems.
Import UrlSeen ScraperBloom.
Import BloomTheorems (bit, in_range, set_bits_in_range, all_bits_in_range, zero_bytes_clear).

Definition valid (f : BloomFilter) : Prop :=
  0 < _size f /\ 0 < _hash_count f /\ length (_bits f) = Z.to_nat (_size f / 8 + 1) /\
  Forall (fun b => 0 <= b < 256) (_bits f).

Lemma new_filter_valid log capacity error_rate : valid (init log capacity error_rate).
Proof.
  unfold valid, init, _compute_size, _compute_hash_count. cbn. split; [lia |]. split; [lia |].
  rewrite length_replicate. split; [done |]. by apply Forall_replicate.
Qed.

Section Filter.
Context (sha256 : string -> Z).

Lemma positions_in_range u f : valid f -> Forall (in_range (_bits f)) (_positions sha256 u f).
Proof.
  intros (Hm & _ & Hl & _). apply Forall_forall. intros p (i & <- & _)%list_elem_of_In%in_map_iff.
  unfold in_range. rewrite Hl.
  pose proof (Z.mod_pos_bound (sha256 (str_of_Z (Z.of_nat i) +:+ ":" +:+ u)) (_size f) Hm).
  pose proof (Z.div_mod (_size f) 8 ltac:(lia)). pose proof (Z.mod_pos_bound (_size f) 8 ltac:(lia)).
  rewrite Z2Nat.id by lia. lia.
Qed.

Lemma contains_valid u f : valid f -> contains sha256 u f = Ok (forallb (bit (_bits f)) (_positions sha256 u f)).
Proof. intros Hf. unfold contains. by apply all_bits_in_range, positions_in_range. Qed.

Lemma add_valid u f :
  valid f -> exists f', add sha256 u f = Ok f' /\ valid f' /\
    (forall v, _positions sha256 v f' = _positions sha256 v f) /\
    forall q, 0 <= q -> bit (_bits f') q = bit (_bits f) q || bool_decide (q ∈ _positions sha256 u f).
Proof.
  intros Hf. unfold add.
  destruct (set_bits_in_range (_positions sha256 u f) (_bits f)) as (bits & Hs & Hl & Hb & Hv);
    [by apply positions_in_range | apply Hf |].
  rewrite Hs. eexists. split; [done |]. unfold valid in *. cbn. rewrite Hl. naive_solver.
Qed.

Lemma position_nonneg u f p : valid f -> p ∈ _positions sha256 u f -> 0 <= p.
Proof. intros Hf Hp. pose proof (positions_in_range u f Hf) as Hr. rewrite Forall_forall in Hr. by destruct (Hr p Hp). Qed.

#[local] Existing Instance scraper_bloom.

(** The scrapers' filter keeps the promises of a filter of URLs: no false negatives, and
    neither operation fails. *)
#[export] Instance scraper_bloom_remembers : @RemembersUrls BloomFilter (scraper_bloom sha256) valid.
Proof.
  split; cbn.
  - intros u f Hf. eexists. by apply contains_valid.
  - intros u f Hf. destruct (add_valid u f Hf) as (f' & Ha & Hf' & Hp & Hv).
    exists f'. split; [done |]. split; [done |]. rewrite contains_valid, Hp by done. f_equal.
    apply forallb_forall. intros p Hq%list_elem_of_In. rewrite Hv by (apply (position_nonneg u f p Hf Hq)).
    by rewrite bool_decide_true, orb_true_r.
  - intros u v f f' Hf. destruct (add_valid v f Hf) as (f1 & Ha & Hf1 & Hp & Hv).
    rewrite contains_valid, Ha by done. intros [= Hu] [= <-]. rewrite contains_valid, Hp by done. f_equal.
    rewrite forallb_forall in *. intros p Hq. rewrite Hv by (eapply position_nonneg; [apply Hf | by apply list_elem_of_In]).
    by rewrite Hu.
Qed.
End Filter.
End ScraperBloomTheorems.

(** ** Theorems: the scrapers *)

Module ScraperTheorems.
Import UrlSeen Scraper.

Section Backoff.
Context {A : Type} (retried : exn -> bool) (attempts : nat -> attempt A).

(** Whether attempt [i] fails in a way that is retried, and what it settles otherwise. *)
Definition retry_at (i : nat) : bool :=
  match fst (attempts i) with Ok _ => false | Raise e => retried e end.

Definition settled (i : nat) : result exn (option A) :=
  match fst (attempts i) with Ok a => Ok (Some a) | Raise e => Raise e end.

(** The sum of [f] over [m] attempts from [n]. *)
Definition total (f : nat -> Q) (n m : nat) : Q := foldr (fun i t => (f i + t)%Q) 0%Q (seq n m).

Lemma loop_exact fuel n t0 :
  exists k, (k <= fuel)%nat /\ (forall i, (i < k)%nat -> retry_at (n + i) = true) /\
    match backoff_loop retried attempts fuel n t0 with
    | (r, m, t) =>
        (k = fuel /\ r = Ok None /\ m = (n + k)%nat \/
         (k < fuel)%nat /\ retry_at (n + k) = false /\ r = settled (n + k) /\ m = S (n + k)) /\
        (t == t0 + total (fun i => snd (attempts i)) n (m - n) + total delay_after n k)%Q
    end.
Proof.
  revert n t0. induction fuel as [|fuel IH]; intros n t0.
  { exists 0%nat. cbn. split; [done |]. split; [lia |]. rewrite Nat.sub_diag, Nat.add_0_r. split; [by left |]. cbn. ring. }
  cbn [backoff_loop]. unfold retry_at, settled in *. destruct (attempts n) as [[a|e] dt] eqn:Hn.
  - exists 0%nat. split; [lia |]. split; [lia |]. rewrite Nat.add_0_r, Hn. split; [right; repeat split; lia |].
    replace (S n - n)%nat with 1%nat by lia. cbn. rewrite Hn. cbn. ring.
  - destruct (retried e) eqn:He.
    + destruct (IH (S n) (t0 + dt + delay_after n)%Q) as (k & Hk & Hall & Hres).
      exists (S k). split; [lia |]. split.
      { intros [|i] Hi; [by rewrite Nat.add_0_r, Hn |]. rewrite <- Nat.add_succ_comm. apply Hall. lia. }
      rewrite <- Nat.add_succ_comm.
      destruct (backoff_loop retried attempts fuel (S n) _) as [[r m] t]. destruct Hres as [Hr Ht]. split.
      { destruct Hr as [(-> & Hr & Hm) | (Hlt & Hr & Hm & Hs)]; [left | right]; repeat split; try done; lia. }
      rewrite Ht. assert (exists d, (m - n = S d)%nat /\ (m - S n = d)%nat) as (d & -> & ->) by (exists (m - S n)%nat; lia).
      unfold total. cbn [seq foldr]. rewrite Hn. cbn [snd]. ring.
    + exists 0%nat. split; [lia |]. split; [lia |]. rewrite Nat.add_0_r, Hn. split; [right; repeat split; try done; lia |].
      replace (S n - n)%nat with 1%nat by lia. cbn. rewrite Hn. cbn. ring.
Qed.

(** The loop of the scrapers ends after at most three attempts: at the first that returns
    or raises what is not retried, with its outcome, or with nothing once all three were
    retried; it sleeps one second after the first, two after the second and, unlike its
    comment says, none after the last. *)
Theorem backoff_exact :
  match _fetch_with_backoff retried attempts with
  | (r, n, t) =>
      (1 <= n <= 3)%nat /\ (forall i, (i < n - 1)%nat -> retry_at i = true) /\
      r = (if retry_at (n - 1) then Ok None else settled (n - 1)) /\ (retry_at (n - 1) = true -> n = 3%nat) /\
      (t == total (fun i => snd (attempts i)) 0 n + inject_Z (if (n <=? 1)%nat then 0 else if (n <=? 2)%nat then 1 else 3))%Q
  end.
Proof.
  unfold _fetch_with_backoff, _MAX_RETRIES. destruct (loop_exact 3 0 0) as (k & Hk & Hall & Hres). cbn [Nat.add] in *.
  destruct (backoff_loop retried attempts 3 0 0) as [[r n] t]. destruct Hres as [Hr Ht]. rewrite Nat.sub_0_r in Ht.
  destruct Hr as [(-> & -> & ->) | (Hlt & Hs & -> & ->)].
  - cbn [Nat.sub]. split; [lia |]. split; [intros i Hi; apply Hall; lia |]. rewrite (Hall 2%nat) by lia.
    split; [done |]. split; [done |]. rewrite Ht.
    assert (total delay_after 0 3 == 3)%Q as -> by reflexivity. cbn. ring.
  - replace (S k - 1)%nat with k by lia. rewrite Hs. split; [lia |]. split; [done |]. split; [done |]. split; [done |].
    rewrite Ht. assert (total delay_after 0 0 == 0)%Q as H0 by reflexivity.
    assert (total delay_after 0 1 == 1)%Q as H1 by reflexivity. assert (total delay_after 0 2 == 3)%Q as H2 by reflexivity.
    destruct k as [|[|[|k]]]; [rewrite H0 | rewrite H1 | rewrite H2 | lia]; cbn -[total]; ring.
Qed.
End Backoff.

(** *** What a scraper collects

    Against the interface of what remembers URLs. *)

Section Collect.
Context {S : Type} `{!UrlSeenStrategy S} (usable : S -> Prop) `{!RemembersUrls S usable}.
Context (py_str : json -> string) (py_hash : string -> Z).

Abbreviation sees u s := (is_seen u s = Ok true).

(** From one filter to the next: usable, and nothing forgotten. *)
Definition grows (s s' : S) : Prop := usable s' /\ forall u, sees u s -> sees u s'.

Lemma grows_refl s : usable s -> grows s s.
Proof. by split. Qed.

Lemma grows_trans s1 s2 s3 : grows s1 s2 -> grows s2 s3 -> grows s1 s3.
Proof. intros [? H1] [? H2]. split; [done |]. auto. Qed.

(** Items that were new to the filter, once each, and are not any more. *)
Definition fresh (items : list ScrapedItem) (s s' : S) : Prop :=
  NoDup (map url items) /\ forall x, x ∈ items -> ~ sees (url x) s /\ sees (url x) s'.

Definition deduplicates (f : S -> result exn (list ScrapedItem) * S) : Prop :=
  forall s r s', usable s -> f s = (r, s') -> grows s s' /\ forall items, r = Ok items -> fresh items s s'.

Lemma fresh_nil s s' : fresh [] s s'.
Proof. split; [constructor |]. intros x Hx. by apply not_elem_of_nil in Hx. Qed.

Lemma collect_deduplicates entries : deduplicates (collect entries).
Proof.
  induction entries as [|[x|e] entries IH]; intros s r s' Hs Hc; cbn in Hc.
  - simplify_eq. split; [by apply grows_refl |]. intros items [= <-]. apply fresh_nil.
  - destruct (seen_answers (url x) s Hs) as [b Hb]. rewrite Hb in Hc. destruct b; [by apply IH in Hc |].
    destruct (mark_succeeds (url x) s Hs) as (s1 & Hm & Hs1 & Hx). rewrite Hm in Hc.
    destruct (collect entries s1) as [r1 s2] eqn:Hrest. simplify_eq.
    destruct (IH _ _ _ Hs1 Hrest) as [Hg Hf].
    assert (grows s s1) as Hg1 by (split; [done |]; intros u Hu; exact (seen_persists u (url x) s s1 Hs Hu Hm)).
    split; [by eapply grows_trans |]. intros items Hr. destruct r1 as [xs|]; cbn in Hr; simplify_eq.
    destruct (Hf xs eq_refl) as [Hnd Hnew]. split.
    + cbn. constructor; [|done]. intros (y & Hy & Hin)%list_elem_of_fmap. destruct (Hnew y Hin) as [Hn _]. by rewrite <- Hy in Hn.
    + intros y [->|Hy]%elem_of_cons; [split; [congruence | by apply Hg] |].
      destruct (Hnew y Hy) as [Hn Hn']. split; [|done]. intros Hsy. apply Hn. by apply Hg1.
  - simplify_eq. split; [by apply grows_refl | done].
Qed.

Lemma http_deduplicates timeout attempts : deduplicates (http_scrape py_str timeout attempts).
Proof.
  intros s r s' Hs Hr. unfold http_scrape in Hr.
  destruct (_fetch_with_backoff _ _) as [[[[posts|]|e] n] t]; destruct (Qltb _ _).
  all: try (simplify_eq; split; [by apply grows_refl |]; intros items [= <-]; apply fresh_nil).
  all: try (simplify_eq; split; [by apply grows_refl | done]).
  destruct posts; try (simplify_eq; split; [by apply grows_refl |]; first [done | intros items [= <-]; apply fresh_nil]).
  all: cbn [iterate] in Hr; try (simplify_eq; split; [by apply grows_refl | done]).
  all: by eapply collect_deduplicates.
Qed.

Lemma html_deduplicates select_rows limit attempts : deduplicates (html_scrape select_rows limit attempts).
Proof.
  intros s r s' Hs Hr. unfold html_scrape in Hr. destruct (_fetch_with_backoff _ _) as [[[[html|]|e] n] t].
  - by eapply collect_deduplicates.
  - simplify_eq. split; [by apply grows_refl |]. intros items [= <-]. apply fresh_nil.
  - simplify_eq. by split; [apply grows_refl |].
Qed.

Lemma visit_deduplicates v : deduplicates (run_visit py_hash v).
Proof.
  intros s r s' Hs Hr. unfold run_visit in Hr. destruct (opens v); cbn in Hr.
  2: { simplify_eq. by split; [apply grows_refl |]. }
  destruct (collect _ s) as [r1 s1] eqn:Hc. apply collect_deduplicates in Hc as [Hg Hf]; [|done].
  destruct r1 as [xs|]; [|by simplify_eq]. destruct (closes v); simplify_eq; [|done].
  split; [done |]. intros items [= <-]. by apply Hf.
Qed.

(** Items fresh for a later filter are fresh for an earlier one. *)
Lemma fresh_earlier items s s1 s' : grows s s1 -> fresh items s1 s' -> fresh items s s'.
Proof. intros [_ Hg] [Hnd Hn]. split; [done |]. intros x Hx. destruct (Hn x Hx) as [Ho ?]. split; [|done]. intros Hsx. by apply Ho, Hg. Qed.

Lemma browser_loop_deduplicates visits fuel n s r s' :
  usable s -> browser_loop py_hash visits fuel n s = (r, s') ->
  grows s s' /\ forall items, r = Some items -> fresh items s s'.
Proof.
  revert n s. induction fuel as [|fuel IH]; intros n s Hs Hr; cbn in Hr.
  { simplify_eq. by split; [apply grows_refl |]. }
  destruct (run_visit py_hash (visits n) s) as [r1 s1] eqn:Hv.
  apply visit_deduplicates in Hv as [Hg Hf]; [|done]. destruct r1 as [items|e].
  - simplify_eq. split; [done |]. intros xs [= <-]. by apply Hf.
  - apply IH in Hr as [Hg' Hf']; [|apply Hg]. split; [by eapply grows_trans |].
    intros items ->. eapply fresh_earlier; [exact Hg | by apply Hf'].
Qed.

Lemma slice_sublist {A} limit (l : list A) : sublist (slice limit l) l.
Proof. unfold slice. destruct (limit <? 0); apply sublist_take. Qed.

Lemma fresh_sublist items xs s s' : sublist xs items -> fresh items s s' -> fresh xs s s'.
Proof.
  intros Hsub [Hnd Hn]. split.
  - eapply sublist_NoDup; [exact Hnd |]. by apply (fmap_sublist url).
  - intros x Hx. apply Hn. by eapply elem_of_sublist.
Qed.

Lemma browser_deduplicates installed limit visits :
  deduplicates (fun s => let '(xs, s') := browser_scrape py_hash installed limit visits s in (Ok xs, s')).
Proof.
  intros s r s' Hs Hr. unfold browser_scrape in Hr. destruct installed; cbn [negb] in Hr.
  2: { simplify_eq. split; [by apply grows_refl |]. intros items [= <-]. apply fresh_nil. }
  destruct (browser_loop py_hash visits _MAX_RETRIES 0 s) as [o s1] eqn:Hl. apply browser_loop_deduplicates in Hl as [Hg Hf]; [|done].
  destruct o as [xs|]; simplify_eq; (split; [done |]); intros items [= <-]; [|apply fresh_nil].
  eapply fresh_sublist; [apply slice_sublist | by apply Hf].
Qed.

(** A call of [scrape] on one of the scrapers. *)
Inductive call :=
| Http (timeout : Q) (attempts : nat -> attempt json)
| Html (select_rows : string -> list (option (string * string))) (limit : Z) (attempts : nat -> attempt string)
| Browser (installed : bool) (limit : Z) (visits : nat -> visit).

Definition run_call (c : call) (s : S) : result exn (list ScrapedItem) * S :=
  match c with
  | Http timeout attempts => http_scrape py_str timeout attempts s
  | Html select_rows limit attempts => html_scrape select_rows limit attempts s
  | Browser installed limit visits =>
      let '(xs, s) := browser_scrape py_hash installed limit visits s in (Ok xs, s)
  end.

(** What a sequence of calls returns, errors left out. *)
Fixpoint run_calls (cs : list call) (s : S) : list ScrapedItem :=
  match cs with
  | [] => []
  | c :: cs =>
      let '(r, s) := run_call c s in
      (match r with Ok items => items | Raise _ => [] end) ++ run_calls cs s
  end.

Lemma run_call_deduplicates c : deduplicates (run_call c).
Proof.
  destruct c; intros s r s' Hs Hr.
  - by eapply http_deduplicates.
  - by eapply html_deduplicates.
  - by eapply browser_deduplicates.
Qed.

(** C27: However many times it is called, whatever fails meanwhile, a scraper returns no URL
    twice, and none that its filter had seen before. *)
Theorem scrapes_never_repeat cs s :
  usable s -> NoDup (map url (run_calls cs s)) /\ forall x, x ∈ run_calls cs s -> ~ sees (url x) s.
Proof.
  revert s. induction cs as [|c cs IH]; intros s Hs; cbn.
  { split; [constructor |]. intros x Hx. by apply not_elem_of_nil in Hx. }
  destruct (run_call c s) as [r s1] eqn:Hc. apply run_call_deduplicates in Hc as [[Hs1 Hg] Hf]; [|done].
  destruct (IH s1 Hs1) as [Hnd Hn].
  assert (fresh (match r with Ok items => items | Raise _ => [] end) s s1) as [Hnd1 Hn1].
  { destruct r; [by apply Hf | apply fresh_nil]. }
  split.
  - rewrite map_app. apply NoDup_app. split; [done |]. split; [|done].
    intros u (x & -> & Hx)%list_elem_of_fmap (y & Hu & Hy)%list_elem_of_fmap.
    apply (Hn y Hy). rewrite <- Hu. by apply Hn1.
  - intros x [Hx|Hx]%elem_of_app; [by apply Hn1 |]. intros Hsx. by apply (Hn x Hx), Hg.
Qed.

(** A page of quotes leaves every one of them in the filter. *)
Lemma collect_all qs s :
  usable s -> exists xs s', collect (map (fun q => Ok (quote_item py_hash q)) qs) s = (Ok xs, s') /\ usable s' /\
    forall q, q ∈ qs -> sees (url (quote_item py_hash q)) s'.
Proof.
  revert s. induction qs as [|q qs IH]; intros s Hs; cbn [map collect].
  { exists [], s. split; [done |]. split; [done |]. intros q Hq. by apply not_elem_of_nil in Hq. }
  set (x := quote_item py_hash q).
  destruct (seen_answers (url x) s Hs) as [b Hb]. rewrite Hb. destruct b.
  - destruct (IH s Hs) as (xs & s' & Hc & Hs' & Hall). exists xs, s'. split; [done |]. split; [done |].
    intros q' [->|Hq]%elem_of_cons; [|by apply Hall].
    apply (collect_deduplicates _ s) in Hc; [|done]. by apply Hc.
  - destruct (mark_succeeds (url x) s Hs) as (s1 & Hm & Hs1 & Hx). rewrite Hm.
    destruct (IH s1 Hs1) as (xs & s' & Hc & Hs' & Hall). rewrite Hc. eexists _, s'. split; [reflexivity |]. split; [done |].
    intros q' [->|Hq]%elem_of_cons; [|by apply Hall].
    apply (collect_deduplicates _ s1) in Hc; [|done]. by apply Hc.
Qed.

Lemma collect_none qs s :
  (forall q, q ∈ qs -> sees (url (quote_item py_hash q)) s) ->
  collect (map (fun q => Ok (quote_item py_hash q)) qs) s = (Ok [], s).
Proof.
  induction qs as [|q qs IH]; intros Hall; [done |]. cbn [map collect]. rewrite Hall by apply list_elem_of_here.
  apply IH. intros q' Hq. apply Hall. by apply list_elem_of_further.
Qed.

Lemma collect_app l1 l2 s xs s1 :
  collect l1 s = (Ok xs, s1) ->
  collect (l1 ++ l2) s = let '(r, s2) := collect l2 s1 in (bind_result r (fun ys => Ok (xs ++ ys)), s2).
Proof.
  revert s xs. induction l1 as [|[x|e] l1 IH]; intros s xs Hc; cbn in *.
  - simplify_eq. destruct (collect l2 s1) as [[]]; done.
  - destruct (is_seen (url x) s) as [[]|]; [by apply IH | | done].
    destruct (mark_seen (url x) s) as [s0|]; [|done].
    destruct (collect l1 s0) as [[ys|] s2] eqn:Hrest; cbn in Hc; [|done]. simplify_eq.
    rewrite (IH _ _ Hrest). by destruct (collect l2 s1) as [[]].
  - done.
Qed.

(** A browser that fails after the quotes of a page were read, or only on closing, loses
    them: the filter keeps the marks, so the retry on the same page returns nothing.  The
    same happens to the quotes beyond the limit: they are marked and never returned. *)
Theorem browser_loses_quotes qs visits (fails_on_close : bool) limit first_limit later s :
  usable s ->
  visits 0%nat = (if fails_on_close then Visit true (map Some qs) false else Visit true (map Some qs ++ [None]) true) ->
  visits 1%nat = Visit true (map Some qs) true ->
  later 0%nat = Visit true (map Some qs) true ->
  fst (browser_scrape py_hash true limit visits s) = [] /\
  fst (browser_scrape py_hash true limit later (snd (browser_scrape py_hash true first_limit later s))) = [].
Proof.
  intros Hs H0 H1 Hl.
  destruct (collect_all qs s Hs) as (xs & s1 & Hc & Hs1 & Hall).
  assert (map (read_quote py_hash) (map Some qs) = map (fun q => Ok (quote_item py_hash q)) qs) as Hmap by (by rewrite map_map).
  assert (forall r, run_visit py_hash (Visit true (map Some qs) true) s1 = r -> r = (Ok [], s1)) as Hagain.
  { intros r <-. unfold run_visit. cbn [quotes opens closes negb]. by rewrite Hmap, (collect_none qs s1 Hall). }
  assert (forall b, slice b (@nil ScrapedItem) = []) as Hnil by (intros b; unfold slice; destruct (b <? 0); apply take_nil).
  assert (exists e, run_visit py_hash (visits 0%nat) s = (Raise e, s1)) as [e Hfirst].
  { rewrite H0. exists BrowserError. destruct fails_on_close; unfold run_visit; cbn [quotes opens closes negb].
    - by rewrite Hmap, Hc.
    - by rewrite map_app, Hmap, (collect_app _ _ _ _ _ Hc). }
  assert (run_visit py_hash (later 0%nat) s = (Ok xs, s1)) as Hlater.
  { rewrite Hl. unfold run_visit. cbn [quotes opens closes negb]. by rewrite Hmap, Hc. }
  unfold browser_scrape, _MAX_RETRIES. cbn [negb browser_loop]. rewrite Hfirst, H1, Hlater, (Hagain _ eq_refl). cbn [fst snd].
  rewrite Hl, (Hagain _ eq_refl). cbn [fst]. by rewrite !Hnil.
Qed.
End Collect.
End ScraperTheorems.

(** ** Theorems: the factory *)

Module FactoryTheorems.
Import ScraperFactory.

Ltac listed := repeat first [apply list_elem_of_here | apply list_elem_of_further].
Ltac unlisted := rewrite !not_elem_of_cons; repeat split; first [assumption | apply not_elem_of_nil].

(** After registration the factory knows exactly its names, sorted in the error that any
    other name gets; Hacker News only with its parser installed. *)
Theorem factory_exact py_repr py_repr_list (bs4 : bool) source :
  let known := if bs4 then ["hn"; "jsonplaceholder"; "playwright"] else ["jsonplaceholder"; "playwright"] in
  let r : registry := _register_scrapers bs4 ∅ in
  available_sources r = known /\
  match create py_repr py_repr_list source r with
  | Ok k => source ∈ known /\ (source, k) ∈ [("hn", HtmlScraper); ("jsonplaceholder", HttpScraper); ("playwright", BrowserScraper)]
  | Raise e => source ∉ known /\
      e = value_error ("Unknown scraper source: " +:+ py_repr source +:+ ". Available: " +:+ py_repr_list known)
  end.
Proof.
  cbv zeta. assert (available_sources (_register_scrapers bs4 (∅ : registry)) =
    if bs4 then ["hn"; "jsonplaceholder"; "playwright"] else ["jsonplaceholder"; "playwright"]) as Hav by (by destruct bs4; vm_compute).
  split; [done |]. unfold create. rewrite Hav. unfold _register_scrapers, register.
  destruct (decide (source = "jsonplaceholder")) as [->|H1].
  { rewrite lookup_insert_eq. destruct bs4; split; listed. }
  rewrite lookup_insert_ne by done. destruct (decide (source = "playwright")) as [->|H2].
  { rewrite lookup_insert_eq. destruct bs4; split; listed. }
  rewrite lookup_insert_ne by done. destruct bs4; [|rewrite lookup_empty; split; [unlisted | reflexivity]].
  destruct (decide (source = "hn")) as [->|H3]; [rewrite lookup_insert_eq; split; listed |].
  rewrite lookup_insert_ne by done. rewrite lookup_empty. split; [unlisted | reflexivity].
Qed.
End FactoryTheorems.

(** ** Witnesses *)

Module ScraperWitnesses.
Import UrlSeen ScraperBloom Scraper ScraperTheorems.

Definition rough_log (q : Q) : Q := if Qeq_bool q 2 then 693 # 1000 else (-4605) # 1000.

Definition sum_digest (s : string) : Z :=
  foldr (fun c n => (Z.of_nat (nat_of_ascii c) + 31 * n)%Z) 7%Z (String.list_ascii_of_string s).

Definition ten : BloomFilter := init rough_log 10 (1 # 100).

Definition post (i : Z) : json := JObj [("id", JInt i); ("title", JStr "t")].
Definition number_text (j : json) : string := match j with JInt z => str_of_Z z | _ => "" end.

(** Two posts after a failure, then three of which one is new. *)
Definition two_calls : list call :=
  [Http 10 (fun n => match n with O => (Raise HTTPError, 1%Q) | _ => (Ok (JList [post 1; post 2]), 1%Q) end);
   Http 10 (fun _ => (Ok (JList [post 2; post 3; post 1]), 1%Q))].

Lemma scrapes_never_repeat_witness :
  let items := @run_calls _ (scraper_bloom sum_digest) number_text sum_digest two_calls ten in
  length items = 3%nat /\ NoDup (map url items).
Proof.
  split; [by vm_compute |].
  apply (@scrapes_never_repeat _ (scraper_bloom sum_digest) ScraperBloomTheorems.valid
           (ScraperBloomTheorems.scraper_bloom_remembers sum_digest) number_text sum_digest two_calls ten).
  apply ScraperBloomTheorems.new_filter_valid.
Defined.

Lemma browser_loses_quotes_witness :
  let qs := [("a", "x"); ("b", "y")] in
  let visits n := match n with O => Visit true (map Some qs ++ [None]) true | _ => Visit true (map Some qs) true end in
  let good (n : nat) := Visit true (map Some qs) true in
  fst (@browser_scrape _ (scraper_bloom sum_digest) sum_digest true 20 visits ten) = [] /\
  length (fst (@browser_scrape _ (scraper_bloom sum_digest) sum_digest true 1 good ten)) = 1%nat /\
  fst (@browser_scrape _ (scraper_bloom sum_digest) sum_digest true 20 good
         (snd (@browser_scrape _ (scraper_bloom sum_digest) sum_digest true 1 good ten))) = [].
Proof.
  intros qs visits good.
  destruct (@browser_loses_quotes _ (scraper_bloom sum_digest) ScraperBloomTheorems.valid
              (ScraperBloomTheorems.scraper_bloom_remembers sum_digest) sum_digest qs visits false 20 1 good ten)
    as [Ha Hb]; [apply ScraperBloomTheorems.new_filter_valid | reflexivity.. |].
  split; [exact Ha |]. split; [by vm_compute |]. exact Hb.
Defined.
End ScraperWitnesses.
