(* ===== verification/ServiceBoundaries.v ===== *)
(** * Service boundaries

    [scripts/ci/check_service_boundaries.py], the check that no service imports another
    one and no shared library imports a service.

    A path is its parts.  The files of the repository come with what parsing them gives: a
    syntax tree, of which the import statements and the children matter, or a syntax
    error.  The workspace members of [pyproject.toml] are a parameter. *)

From S2P Require Import Prelude Db.

Module Boundaries.

Abbreviation path := (list string).

(** ** Syntax trees *)

Inductive node :=
| Import (lineno : Z) (names : list string)
| ImportFrom (lineno : Z) (level : Z) (module : option string)
| Other (body : list node).

Definition iter_child_nodes (n : node) : list node := match n with Other l => l | _ => [] end.

(** [ast.walk]: a queue, the children of a node behind what is waiting. *)
Fixpoint walk_queue (fuel : nat) (todo : list node) : list node :=
  match fuel, todo with
  | S fuel, n :: todo => n :: walk_queue fuel (todo ++ iter_child_nodes n)
  | _, _ => []
  end.

Fixpoint size (n : node) : nat :=
  match n with Other l => S (foldr (fun n k => size n + k)%nat 0%nat l) | _ => 1 end.

Definition walk (n : node) : list node := walk_queue (size n) [n].

Definition extract_import_modules (n : node) : list (Z * string) :=
  match n with
  | Import lineno names => map (fun m => (lineno, m)) names
  | ImportFrom lineno level module =>
      if 0 <? level then []
      else match module with
           | Some m => if str_truthy m then [(lineno, m)] else []
           | None => []
           end
  | Other _ => []
  end.

(** A file's source as [ast.parse] sees it: a syntax error has a line, maybe, and a message. *)
Inductive source := Parsed (tree : node) | SyntaxError (lineno : option Z) (message : string).

Record Violation := Violates { file : path; line : Z; code : string; message : string }.

Section Check.
Context (REPO_ROOT : path) (members : list path).

Definition EXCLUDED_DIRS : list string :=
  [".git"; ".venv"; "__pycache__"; ".mypy_cache"; ".pytest_cache"; "build"; "dist"].

(** The last part of a path and the part before it. *)
Definition name_of (p : path) : option string := last p.
Definition parent_name (p : path) : option string := last (removelast p).

(** The roots in the order of the members; a later member of the same name takes the
    earlier one's place. *)
Fixpoint set_root (s : string) (p : path) (roots : list (string * path)) : list (string * path) :=
  match roots with
  | [] => [(s, p)]
  | (s', p') :: roots => if String.eqb s s' then (s, p) :: roots else (s', p') :: set_root s p roots
  end.

Definition workspace_service_roots : list (string * path) :=
  foldl (fun roots member =>
    let p := REPO_ROOT ++ member in
    match parent_name p, name_of p with
    | Some "services", Some s => set_root s p roots
    | _, _ => roots
    end) [] members.

(** [p.relative_to(root)] does not raise. *)
Fixpoint is_under (root p : path) : bool :=
  match root, p with
  | [], _ => true
  | a :: root, b :: p => String.eqb a b && is_under root p
  | _, _ => false
  end.

Definition detect_service_owner (p : path) : option string :=
  fst <$> List.find (fun x => is_under x.2 p) workspace_service_roots.

Definition is_service (s : string) : bool := existsb (fun x => String.eqb x.1 s) workspace_service_roots.

Definition module_to_service (module : string) : option string :=
  if String.eqb module "libs" || String.prefix "libs." module then None
  else if String.eqb module "services" then None
  else
    match (if String.prefix "services." module then nth_error (split_on "."%char module) 1 else None) with
    | Some part => if is_service part then Some part else
        fst <$> List.find (fun x => String.eqb module x.1 || String.prefix (x.1 +:+ ".") module) workspace_service_roots
    | None =>
        fst <$> List.find (fun x => String.eqb module x.1 || String.prefix (x.1 +:+ ".") module) workspace_service_roots
    end.

Definition syntax_violation (p : path) (lineno : option Z) (msg : string) : Violation :=
  Violates p (match lineno with Some l => if l =? 0 then 1 else l | None => 1 end) "SVC000"
    ("Python syntax error: " +:+ msg).

Definition quote1 (s : string) : string := "'" +:+ s +:+ "'".

Definition scan_file (p : path) (src : source) : list Violation :=
  match detect_service_owner p with
  | None => []
  | Some owner =>
      match src with
      | SyntaxError l m => [syntax_violation p l m]
      | Parsed tree =>
          flat_map (fun n => flat_map (fun '(l, m) =>
            match module_to_service m with
            | None => []
            | Some target =>
                if negb (str_truthy target) || String.eqb target owner then []
                else [Violates p l "SVC001" ("Cross-service import is forbidden: " +:+ quote1 m +:+
                        " from service " +:+ quote1 owner +:+ " to " +:+ quote1 target +:+ ".")]
            end) (extract_import_modules n)) (walk tree)
      end
  end.

Definition scan_libs_file (p : path) (src : source) : list Violation :=
  match src with
  | SyntaxError l m => [syntax_violation p l m]
  | Parsed tree =>
      flat_map (fun n => flat_map (fun '(l, m) =>
        match module_to_service m with
        | None => []
        | Some target => [Violates p l "SVC002" ("libs must not import from services: " +:+ quote1 m +:+
                            " (target: " +:+ quote1 target +:+ ").")]
        end) (extract_import_modules n)) (walk tree)
  end.

(** *** The files *)

Definition is_python (p : path) : bool :=
  match name_of p with
  | Some n => String.eqb (String.substring (String.length n - 3) 3 n) ".py" && (3 <=? String.length n)%nat
  | None => false
  end.

(** [EXCLUDED_DIRS.intersection(p.parts)] for an absolute path. *)
Definition excluded (p : path) : bool := existsb (fun part => bool_decide (part ∈ EXCLUDED_DIRS)) p.

Fixpoint path_leb (p q : path) : bool :=
  match p, q with
  | [], _ => true
  | _, [] => false
  | a :: p, b :: q => if String.eqb a b then path_leb p q else String.leb a b
  end.

Context (files : list (path * source)).

(** [root.rglob("*.py")], less the excluded. *)
Definition python_files (root : path) : list (path * source) :=
  List.filter (fun x => is_under root x.1 && is_python x.1 && negb (excluded x.1)) files.

Definition by_path (x y : path * source) : bool := path_leb x.1 y.1.

Definition collect_service_python_files : list (path * source) :=
  order_by by_path (flat_map (fun r => python_files r.2) workspace_service_roots).

Definition collect_libs_python_files : list (path * source) :=
  order_by by_path (python_files (REPO_ROOT ++ ["libs"])).

Definition violations : list Violation :=
  flat_map (fun x => scan_file x.1 x.2) collect_service_python_files ++
  flat_map (fun x => scan_libs_file x.1 x.2) collect_libs_python_files.

(** The exit status. *)
Definition main : Z := match violations with [] => 0 | _ => 1 end.

End Check.
End Boundaries.

(** ** Theorems *)

Module BoundaryTheorems.
Import Boundaries.

(** The statements of a tree, each before what it contains. *)
Fixpoint nodes (n : node) : list node :=
  n :: match n with Other l => flat_map nodes l | _ => [] end.

Definition sizes (l : list node) : nat := foldr (fun n k => size n + k)%nat 0%nat l.

Lemma sizes_app l1 l2 : sizes (l1 ++ l2) = (sizes l1 + sizes l2)%nat.
Proof. unfold sizes. induction l1 as [|n l1 IH]; cbn; [done | rewrite IH; lia]. Qed.

Lemma size_children n : size n = S (sizes (iter_child_nodes n)).
Proof. by destruct n. Qed.

Lemma nodes_children n : nodes n = n :: flat_map nodes (iter_child_nodes n).
Proof. by destruct n. Qed.

Lemma queue_visits k todo : sizes todo = k -> walk_queue k todo ≡ₚ flat_map nodes todo.
Proof.
  revert todo. induction k as [|k IH]; intros [|n todo] Hk; try done.
  - cbn in Hk. rewrite size_children in Hk. lia.
  - change (sizes (n :: todo)) with (size n + sizes todo)%nat in Hk. rewrite size_children in Hk.
    cbn [walk_queue flat_map]. rewrite IH by (rewrite sizes_app; lia).
    rewrite nodes_children, flat_map_app. cbn. constructor. by rewrite Permutation_app_comm.
Qed.

(** The walk ends, having visited every statement of the tree once. *)
Theorem walk_visits n : walk n ≡ₚ nodes n.
Proof.
  unfold walk. rewrite queue_visits; [cbn [flat_map]; by rewrite app_nil_r | unfold sizes; cbn; lia].
Qed.

Lemma walk_In n x : In x (walk n) <-> In x (nodes n).
Proof.
  unfold walk. rewrite <- !list_elem_of_In, queue_visits; [cbn [flat_map]; by rewrite app_nil_r |].
  unfold sizes; cbn; lia.
Qed.

Lemma flat_map_nil {A B} (f : A -> list B) l : flat_map f l = [] <-> forall x, In x l -> f x = [].
Proof.
  induction l as [|x l IH]; cbn; [split; [done | done] |]. rewrite app_nil, IH. split.
  - intros [Hx Hl] y [<-|Hy]; [done | by apply Hl].
  - intros Hall. split; [apply Hall; by left | intros y Hy; apply Hall; by right].
Qed.

Section Check.
Context (REPO_ROOT : path) (members : list path).
#[local] Abbreviation roots := (workspace_service_roots REPO_ROOT members).
#[local] Abbreviation owner_of := (detect_service_owner REPO_ROOT members).
#[local] Abbreviation service_of := (module_to_service REPO_ROOT members).

(** A module that an import statement of the tree names absolutely. *)
Definition imports (tree : node) (m : string) : Prop :=
  exists n l, In n (nodes tree) /\ In (l, m) (extract_import_modules n).

(** What the check asks of a file of a service, and of a shared library. *)
Definition service_clean (owner : string) (src : source) : Prop :=
  exists tree, src = Parsed tree /\ forall m s, imports tree m -> service_of m = Some s -> str_truthy s = true -> s = owner.

Definition library_clean (src : source) : Prop :=
  exists tree, src = Parsed tree /\ forall m, imports tree m -> service_of m = None.

Lemma scan_file_clean p src :
  scan_file REPO_ROOT members p src = [] <-> match owner_of p with Some o => service_clean o src | None => True end.
Proof.
  unfold scan_file. destruct (owner_of p) as [o|]; [|done]. unfold service_clean, imports.
  destruct src as [tree|l m]; [|split; [done | by intros (? & ? & _)]].
  rewrite flat_map_nil. setoid_rewrite flat_map_nil. split.
  - intros Hall. exists tree. split; [done |]. intros m s (n & l & Hn & Hm) Hs Ht.
    specialize (Hall n (proj2 (walk_In tree n) Hn) (l, m) Hm). cbn in Hall. rewrite Hs, Ht in Hall. cbn in Hall.
    by destruct (String.eqb_spec s o).
  - intros (tree' & [= <-] & Hall) n Hn%walk_In [l m] Hm. destruct (service_of m) as [s|] eqn:Hs; [|done].
    destruct (str_truthy s) eqn:Ht; [|done]. cbn.
    rewrite (Hall m s); [by rewrite String.eqb_refl | by exists n, l | done | done].
Qed.

Lemma scan_libs_file_clean p src : scan_libs_file REPO_ROOT members p src = [] <-> library_clean src.
Proof.
  unfold scan_libs_file, library_clean, imports.
  destruct src as [tree|l m]; [|split; [done | by intros (? & ? & _)]].
  rewrite flat_map_nil. setoid_rewrite flat_map_nil. split.
  - intros Hall. exists tree. split; [done |]. intros m (n & l & Hn & Hm).
    specialize (Hall n (proj2 (walk_In tree n) Hn) (l, m) Hm). cbn in Hall. by destruct (service_of m).
  - intros (tree' & [= <-] & Hall) n Hn%walk_In [l m] Hm. rewrite (Hall m); [done | by exists n, l].
Qed.

Context (files : list (path * source)).

(** A file that the check reads below a directory. *)
Definition checked (root : path) (p : path) : Prop :=
  is_under root p = true /\ is_python p = true /\ excluded p = false.

Lemma python_files_In root x : In x (python_files files root) <-> In x files /\ checked root x.1.
Proof. unfold python_files, checked. rewrite List.filter_In, !andb_true_iff, negb_true_iff. tauto. Qed.

Lemma by_path_In (l : list (path * source)) x : In x (order_by by_path l) <-> In x l.
Proof. by rewrite <- !list_elem_of_In, order_by_perm. Qed.

(** The check passes exactly when every Python file of a service that no directory
    excludes parses and imports, absolutely, modules of no service but its own, and every
    one of the libraries parses and imports modules of no service. *)
Theorem check_exact :
  main REPO_ROOT members files = 0 <->
  forall p src, In (p, src) files ->
    ((exists s root, In (s, root) roots /\ checked root p) ->
       match owner_of p with Some o => service_clean o src | None => True end) /\
    (checked (REPO_ROOT ++ ["libs"]) p -> library_clean src).
Proof.
  assert (main REPO_ROOT members files = 0 <-> violations REPO_ROOT members files = []) as ->.
  { unfold main. by destruct (violations _ _ _). }
  unfold violations. rewrite app_nil, !flat_map_nil. unfold collect_service_python_files, collect_libs_python_files.
  setoid_rewrite by_path_In. setoid_rewrite in_flat_map. setoid_rewrite python_files_In. split.
  - intros [Hs Hl] p src Hin. split.
    + intros (s & root & Hr & Hc). apply (scan_file_clean p src), (Hs (p, src)). by exists (s, root).
    + intros Hc. apply (scan_libs_file_clean p src), (Hl (p, src)). done.
  - intros Hall. split.
    + intros [p src] ([s root] & Hr & Hin & Hc). apply scan_file_clean. apply (Hall p src Hin). by exists s, root.
    + intros [p src] [Hin Hc]. apply (scan_libs_file_clean p). by apply (Hall p src Hin).
Qed.

Lemma excluded_below part root l :
  In part REPO_ROOT -> In part EXCLUDED_DIRS -> python_files l (REPO_ROOT ++ root) = [].
Proof.
  intros Hr He. unfold python_files. induction l as [|[p src] l IH]; [done |]. cbn [List.filter fst].
  destruct (is_under (REPO_ROOT ++ root) p) eqn:Hu; [|exact IH].
  enough (excluded p = true) as -> by (by rewrite andb_false_r).
  apply existsb_exists. exists part. split; [|by apply bool_decide_eq_true_2, list_elem_of_In].
  clear -Hu Hr. revert p Hu. induction REPO_ROOT as [|a rs IH]; [done |]. intros [|b p]; cbn; [done |].
  intros [Hab Hu]%andb_true_iff. apply String.eqb_eq in Hab as <-. destruct Hr as [->|Hr]; [by left |]. right. by apply IH.
Qed.

Lemma set_root_In s p rs x : In x (set_root s p rs) -> x = (s, p) \/ In x rs.
Proof.
  induction rs as [|[s' p'] rs IH]; cbn; [by intros [<-|[]]; left |].
  destruct (String.eqb s s'); cbn; intros [<-|Hx]; [by left | by right; right | by right; left |].
  destruct (IH Hx); [by left | by right; right].
Qed.

Lemma root_below x : In x roots -> exists m, x.2 = REPO_ROOT ++ m.
Proof.
  unfold workspace_service_roots.
  assert (forall acc, (forall x : string * path, In x acc -> exists m, x.2 = REPO_ROOT ++ m) ->
    forall x, In x (foldl (fun rs member =>
      match parent_name (REPO_ROOT ++ member), name_of (REPO_ROOT ++ member) with
      | Some "services", Some s => set_root s (REPO_ROOT ++ member) rs
      | _, _ => rs
      end) acc members) -> exists m, x.2 = REPO_ROOT ++ m) as Hgen; [|by apply Hgen].
  induction members as [|m ms IH]; intros acc Hacc y Hy; [by apply Hacc |]. cbn [foldl] in Hy.
  eapply IH; [|exact Hy]. intros z Hz. repeat (case_match; try by apply Hacc).
  apply set_root_In in Hz as [->|Hz]; [by exists m | by apply Hacc].
Qed.

(** Where the check is blind: a checkout below a directory of an excluded name passes
    whatever it holds, since it is the parts of the whole path that are looked at. *)
Theorem excluded_checkout_passes part :
  In part REPO_ROOT -> In part EXCLUDED_DIRS -> main REPO_ROOT members files = 0.
Proof.
  intros Hr He. unfold main, violations, collect_service_python_files, collect_libs_python_files.
  rewrite (excluded_below part) by done.
  assert (flat_map (fun r => python_files files r.2) roots = []) as ->; [|done].
  apply flat_map_nil. intros x Hx. apply root_below in Hx as (m & ->). by apply (excluded_below part).
Qed.

(** Where it is blind too: [from services import other] and relative imports name no
    service, so a file with no other import statements is clean wherever it lies. *)
Theorem indirect_imports_pass p tree :
  (forall n, In n (nodes tree) ->
     match n with
     | Import _ names => names = []
     | ImportFrom _ level m => 0 < level \/ m = Some "services"
     | Other _ => True
     end) ->
  scan_file REPO_ROOT members p (Parsed tree) = [].
Proof.
  intros Hall. apply scan_file_clean. destruct (owner_of p) as [o|]; [|done]. exists tree. split; [done |].
  intros m s (n & l & Hn & Hm) Hs _. specialize (Hall n Hn). destruct n as [l' names|l' level mo|]; cbn in Hm; [by subst names | | done].
  destruct (0 <? level) eqn:Hlev; [done |]. destruct Hall as [Hl|Hl]; [bool_to_prop; lia | subst mo]. cbn in Hm.
  destruct Hm as [[= -> <-]|[]]. done.
Qed.
End Check.
End BoundaryTheorems.

(** ** Witnesses *)

Module BoundaryWitnesses.
Import Boundaries.

Definition members : list path := [["services"; "ingestor"]; ["services"; "dashboard"]; ["services"; "inference"]; ["services"; "mcp"]].
Definition root : path := ["/"; "repo"].

Definition file_at (p : path) (stmts : list node) : path * source := (root ++ p, Parsed (Other stmts)).

(** A service importing a library, itself, and, in a function, another service. *)
Definition offending : list (path * source) :=
  [file_at ["services"; "mcp"; "server.py"]
     [Import 1 ["libs.platform.retry"; "json"]; ImportFrom 2 0 (Some "services.mcp.auth");
      Other [Other [ImportFrom 9 0 (Some "services.ingestor.cache")]]];
   file_at ["libs"; "a.py"] [Import 1 ["os"]]].

Example offending_found :
  violations root members offending =
  [Violates (root ++ ["services"; "mcp"; "server.py"]) 9 "SVC001"
     "Cross-service import is forbidden: 'services.ingestor.cache' from service 'mcp' to 'ingestor'."].
Proof. by vm_compute. Qed.

Lemma excluded_checkout_passes_witness :
  main ["/"; "build"; "repo"] members (map (fun x => (["/"; "build"; "repo"] ++ drop 2 x.1, x.2)) offending) = 0 /\ main root members offending = 1.
Proof.
  split; [|by vm_compute].
  apply (BoundaryTheorems.excluded_checkout_passes ["/"; "build"; "repo"] members _ "build"); cbn; tauto.
Defined.

Lemma indirect_imports_pass_witness :
  scan_file root members (root ++ ["services"; "mcp"; "server.py"])
    (Parsed (Other [ImportFrom 1 0 (Some "services"); Other [ImportFrom 2 2 (Some "ingestor.cache")]])) = [].
Proof.
  apply BoundaryTheorems.indirect_imports_pass. cbn. intros n [<-|[<-|[<-|[<-|[]]]]]; [done | by right | done | by left].
Defined.
End BoundaryWitnesses.
