(* ===== verification/Telemetry.v ===== *)
(** * Telemetry

    [libs/platform/llm_metrics.py], the processors and levels of
    [services/ingestor/core/logging.py], and the guards of [core/sentry.py] and
    [libs/platform/tracing.py].

    Counters are finite maps from their labels; a log record is the dictionary of its
    attributes.  The trace identifier, and what the OpenTelemetry and Sentry packages do
    when called, are parameters. *)

From S2P Require Import Prelude.

(** ** Usage of language models *)

Module LlmMetrics.

Definition _TOKENS_PER_MILLION : Q := 1000000.

Record ModelPricing := Pricing { input_per_million : Q; output_per_million : Q }.

Definition MODEL_PRICING_USD : gmap string ModelPricing :=
  {["claude-haiku-4-5" := Pricing 1 5; "claude-sonnet-4-5" := Pricing 3 15]}.

(** The two counters, by model and token type and by model. *)
Record counters := Counters {
  llm_tokens_total : gmap (string * string) Z;
  llm_estimated_cost_usd_total : gmap string Q
}.

(** [counter.labels(...).inc(n)]: a label that was not there starts at zero. *)
Definition inc_tokens (k : string * string) (n : Z) (c : counters) : counters :=
  Counters (<[k := or_else (llm_tokens_total c !! k) 0 + n]> (llm_tokens_total c)) (llm_estimated_cost_usd_total c).

Definition inc_cost (k : string) (q : Q) (c : counters) : counters :=
  Counters (llm_tokens_total c)
    (<[k := (or_else (llm_estimated_cost_usd_total c !! k) 0 + q)%Q]> (llm_estimated_cost_usd_total c)).

Definition estimate_cost_usd (model : string) (prompt_tokens completion_tokens : Z) : Q :=
  match MODEL_PRICING_USD !! model with
  | None => 0%Q
  | Some p => ((inject_Z prompt_tokens * input_per_million p + inject_Z completion_tokens * output_per_million p)
                / _TOKENS_PER_MILLION)%Q
  end.

(** A [bool] is an [int]. *)
Definition _non_negative_int (v : json) : option Z :=
  match v with
  | JInt z => if 0 <=? z then Some z else None
  | JBool b => Some (if b then 1 else 0)
  | _ => None
  end.

(** [usage_metadata] is the attribute of the response, when it is there. *)
Definition record_llm_usage (model : string) (usage_metadata : option json) (c : counters) : counters :=
  match usage_metadata with
  | Some (JObj d) =>
      let input_tokens := _non_negative_int (or_else (json_member "input_tokens" d) JNull) in
      let output_tokens := _non_negative_int (or_else (json_member "output_tokens" d) JNull) in
      match input_tokens, output_tokens with
      | None, None => c
      | _, _ =>
          let prompt := or_else input_tokens 0 in
          let completion := or_else output_tokens 0 in
          inc_cost model (estimate_cost_usd model prompt completion)
            (inc_tokens (model, "completion") completion (inc_tokens (model, "prompt") prompt c))
      end
  | _ => c
  end.

End LlmMetrics.

(** ** Log records *)

Module LogRecords.

Abbreviation dict := (gmap string json).

Definition _STDLIB_ATTRS : list string :=
  ["args"; "created"; "exc_info"; "exc_text"; "filename"; "funcName"; "levelname"; "levelno"; "lineno"; "message";
   "module"; "msecs"; "msg"; "name"; "pathname"; "process"; "processName"; "relativeCreated"; "stack_info"; "taskName";
   "thread"; "threadName"].

Definition forwarded (k : string) : bool := negb (bool_decide (k ∈ _STDLIB_ATTRS)) && negb (String.prefix "_" k).

(** [_extract_extra]: what the event has already is kept. *)
Definition _extract_extra (record : option dict) (event : dict) : dict :=
  match record with
  | None => event
  | Some attrs => event ∪ filter (fun x => forwarded x.1 = true) attrs
  end.

(** [_inject_context], a missing or empty identifier adding nothing. *)
Definition _inject_context (cid trace_id : option string) (event : dict) : dict :=
  let put k v (event : dict) := match v with Some s => if str_truthy s then <[k := JStr s]> event else event | None => event end in
  put "trace_id" trace_id (put "cid" cid event).

(** The two in the order of [shared_processors]. *)
Definition process (cid trace_id : option string) (record : option dict) (event : dict) : dict :=
  _extract_extra record (_inject_context cid trace_id event).

(** [getattr(logging, name.upper(), default)] on the names of levels; another attribute of
    the module of that name is left out. *)
Definition level_of (name : string) (default : Z) : Z :=
  match upper name with
  | "CRITICAL" | "FATAL" => 50
  | "ERROR" => 40
  | "WARNING" | "WARN" => 30
  | "INFO" => 20
  | "DEBUG" => 10
  | "NOTSET" => 0
  | _ => default
  end.

Record log_settings := LogSettings {
  log_level : string;
  log_format : string;
  environment : string;
  log_sqlalchemy_level : option string;
  log_httpx_level : option string;
  log_asyncio_level : option string
}.

Inductive handler := Console | RotatingFile (max_bytes : Z) (backup_count : Z).

(** A logger's level, handlers, propagation and whether it is off. *)
Record logger := Logger { level : Z; handlers : list handler; propagate : bool; disabled : bool }.

Abbreviation loggers := (gmap string logger).

Definition get_logger (name : string) (ls : loggers) : logger := or_else (ls !! name) (Logger 0 [] true false).

(** A change of one logger. *)
Abbreviation change := (string * (logger -> logger))%type.

Definition apply_change (ls : loggers) (c : change) : loggers := <[c.1 := c.2 (get_logger c.1 ls)]> ls.

Definition set_level (name : string) (lv : option string) : list change :=
  match lv with
  | Some n => if str_truthy n then [(name, fun l => Logger (level_of n 30) (handlers l) (propagate l) (disabled l))] else []
  | None => []
  end.

Definition use_json (s : log_settings) : bool :=
  String.eqb (log_format s) "json" || String.eqb (environment s) "production".

(** [setup_logging], as the changes that it makes one after the other; the root logger has
    the empty name. *)
Definition logging_changes (s : log_settings) : list change :=
  let root_level := level_of (if str_truthy (log_level s) then log_level s else "INFO") 20 in
  let uvicorn l := Logger root_level [Console] false (disabled l) in
  [("", fun l => Logger root_level [Console] (propagate l) (disabled l)); ("uvicorn", uvicorn); ("uvicorn.error", uvicorn);
   ("uvicorn.access", fun l => Logger (level l) [] false true)] ++
  (if use_json s then []
   else [("", fun l => Logger (level l) (handlers l ++ [RotatingFile (10 * 1024 * 1024) 5]) (propagate l) (disabled l))]) ++
  set_level "sqlalchemy" (log_sqlalchemy_level s) ++ set_level "sqlalchemy.engine" (log_sqlalchemy_level s) ++
  set_level "httpx" (log_httpx_level s) ++ set_level "asyncio" (log_asyncio_level s).

Definition setup_logging (s : log_settings) (ls : loggers) : loggers := foldl apply_change ls (logging_changes s).

End LogRecords.


(** ** Tracing and error reporting *)

Module Tracing.

(** The module's flag and, outside, how often each thing was set up. *)
Record tracing := Traced { _initialized : bool; providers : nat; apps_instrumented : nat; engines_instrumented : nat }.

(** Where [setup_tracing] stops: a missing package, the exporter, an instrumentation. *)
Inductive outcome := Succeeds | PackageMissing | ExporterFails | AppFails | EngineFails.

Definition setup_tracing (o : outcome) (t : tracing) : tracing :=
  if _initialized t then t
  else match o with
  | PackageMissing | ExporterFails => t
  | AppFails => Traced false (S (providers t)) (apps_instrumented t) (engines_instrumented t)
  | EngineFails => Traced false (S (providers t)) (S (apps_instrumented t)) (engines_instrumented t)
  | Succeeds => Traced true (S (providers t)) (S (apps_instrumented t)) (S (engines_instrumented t))
  end.

(** [setup_sentry]: whether it initialized, the packages coming together or not at all. *)
Definition setup_sentry (sentry_enabled sdk_available : bool) (sentry_dsn : option string) : bool :=
  sentry_enabled && sdk_available && opt_str_truthy sentry_dsn.

End Tracing.

(** ** Theorems *)

Module TelemetryTheorems.
Import LlmMetrics LogRecords Tracing.

(** What a response adds: prompt and completion tokens. *)
Definition usage (metadata : option json) : option (Z * Z) :=
  match metadata with
  | Some (JObj d) =>
      match _non_negative_int (or_else (json_member "input_tokens" d) JNull),
            _non_negative_int (or_else (json_member "output_tokens" d) JNull) with
      | None, None => None
      | p, c => Some (or_else p 0, or_else c 0)
      end
  | _ => None
  end.

Definition tokens (m ty : string) (c : counters) : Z := or_else (llm_tokens_total c !! (m, ty)) 0.
Definition cost (m : string) (c : counters) : Q := or_else (llm_estimated_cost_usd_total c !! m) 0%Q.

Lemma record_usage m md c :
  record_llm_usage m md c =
  match usage md with
  | None => c
  | Some (p, q) => inc_cost m (estimate_cost_usd m p q) (inc_tokens (m, "completion") q (inc_tokens (m, "prompt") p c))
  end.
Proof.
  unfold record_llm_usage, usage. destruct md as [[]|]; try done.
  by destruct (_non_negative_int _), (_non_negative_int _).
Qed.

Lemma non_negative v z : _non_negative_int v = Some z -> 0 <= z.
Proof. destruct v as [|[]| | | | |]; cbn; intros; simplify_eq; try lia. by case_match; simplify_eq; bool_to_prop. Qed.

Lemma usage_nonneg md p q : usage md = Some (p, q) -> 0 <= p /\ 0 <= q.
Proof.
  unfold usage. destruct md as [[]|]; try done.
  destruct (_non_negative_int _) as [a|] eqn:Ha, (_non_negative_int (or_else (json_member "output_tokens" l) JNull)) as [b|] eqn:Hb;
    cbn; intros; simplify_eq; repeat match goal with Hx : _non_negative_int _ = Some _ |- _ => apply non_negative in Hx end; lia.
Qed.

Lemma tokens_inc m ty k n c : tokens m ty (inc_tokens k n c) = tokens m ty c + (if decide (k = (m, ty)) then n else 0).
Proof.
  unfold tokens, inc_tokens. cbn. case_decide as Hk; [subst k; by rewrite lookup_insert_eq |].
  rewrite lookup_insert_ne by done. lia.
Qed.

Lemma cost_inc m k q c : (cost m (inc_cost k q c) == cost m c + if decide (k = m) then q else 0)%Q.
Proof.
  unfold cost, inc_cost. cbn. case_decide as Hk; [subst k; by rewrite lookup_insert_eq |].
  rewrite lookup_insert_ne by done. ring.
Qed.

Lemma estimate_add m p1 p2 c1 c2 :
  (estimate_cost_usd m (p1 + p2) (c1 + c2) == estimate_cost_usd m p1 c1 + estimate_cost_usd m p2 c2)%Q.
Proof.
  unfold estimate_cost_usd. destruct (MODEL_PRICING_USD !! m); [|reflexivity]. rewrite !inject_Z_plus.
  unfold _TOKENS_PER_MILLION. field.
Qed.

Lemma estimate_zero m : (estimate_cost_usd m 0 0 == 0)%Q.
Proof. unfold estimate_cost_usd. destruct (MODEL_PRICING_USD !! m); [|reflexivity]. unfold _TOKENS_PER_MILLION. field. Qed.

Definition record_all (responses : list (string * option json)) (c : counters) : counters :=
  foldl (fun c r => record_llm_usage r.1 r.2 c) c responses.

Definition used (f : Z * Z -> Z) (m : string) (responses : list (string * option json)) : Z :=
  foldr (fun r n => (if decide (r.1 = m) then match usage r.2 with Some u => f u | None => 0 end else 0) + n) 0 responses.

Lemma record_all_from responses c m :
  tokens m "prompt" (record_all responses c) = tokens m "prompt" c + used fst m responses /\
  tokens m "completion" (record_all responses c) = tokens m "completion" c + used snd m responses /\
  (cost m (record_all responses c) == cost m c + estimate_cost_usd m (used fst m responses) (used snd m responses))%Q.
Proof.
  revert c. induction responses as [|[k md] rs IH]; intros c.
  { cbn. split; [lia |]. split; [lia |]. rewrite estimate_zero. ring. }
  cbn [record_all foldl used foldr fst snd]. fold (record_all rs (record_llm_usage k md c)).
  fold (used fst m rs) (used snd m rs). destruct (IH (record_llm_usage k md c)) as (Hp & Hc & Hq).
  rewrite Hp, Hc, Hq, !estimate_add, record_usage. clear. destruct (usage md) as [[p q]|].
  - rewrite cost_inc. unfold inc_cost at 1 2. unfold tokens at 1 3. cbn [llm_tokens_total].
    fold (tokens m "prompt" (inc_tokens (k, "completion") q (inc_tokens (k, "prompt") p c))).
    fold (tokens m "completion" (inc_tokens (k, "completion") q (inc_tokens (k, "prompt") p c))).
    rewrite !tokens_inc. cbn [fst snd].
    change (cost m (inc_tokens _ q _)) with (cost m c).
    destruct (decide (k = m)) as [->|Hne]; repeat case_decide; try congruence;
      (split; [lia |]; split; [lia |]); rewrite ?estimate_zero; ring.
  - repeat case_decide; (split; [lia |]; split; [lia |]); rewrite ?estimate_zero; ring.
Qed.

(** The counters say exactly what was used: for every model, the prompt and completion
    tokens are the sums over its responses, what is malformed counting nothing, and the
    estimated cost is the price of these totals. *)
Theorem usage_accounts responses m :
  let c := record_all responses (Counters ∅ ∅) in
  tokens m "prompt" c = used fst m responses /\ tokens m "completion" c = used snd m responses /\
  0 <= tokens m "prompt" c /\ 0 <= tokens m "completion" c /\
  (cost m c == estimate_cost_usd m (tokens m "prompt" c) (tokens m "completion" c))%Q.
Proof.
  destruct (record_all_from responses (Counters ∅ ∅) m) as (Hp & Hc & Hq). cbv zeta. rewrite Hp, Hc, Hq.
  assert (forall f, (forall p q, 0 <= p -> 0 <= q -> 0 <= f (p, q)) -> 0 <= used f m responses) as Hpos.
  { intros f Hf. clear Hp Hc Hq. unfold used. induction responses as [|[k md] rs IH]; cbn; [lia |].
    assert (0 <= if decide (k = m) then match usage md with Some u => f u | None => 0 end else 0); [|lia].
    case_decide; [|lia]. destruct (usage md) as [[p q]|] eqn:Hu; [|lia]. apply usage_nonneg in Hu as [Hu1 Hu2]. by apply Hf. }
  assert (forall ty, tokens m ty (Counters ∅ ∅) = 0) as Ht by (intros ty; unfold tokens; cbn; by rewrite lookup_empty).
  assert (cost m (Counters ∅ ∅) = 0%Q) as -> by (unfold cost; cbn; by rewrite lookup_empty). rewrite !Ht, !Z.add_0_l.
  split; [done |]. split; [done |]. split; [apply Hpos; by intros |]. split; [apply Hpos; by intros |]. ring.
Qed.


(** *** Log records *)

(** The identifiers of a log line are those of the request: no attribute of the record
    replaces them, nor anything that the event already says; of the record come exactly the
    attributes that are neither standard nor private. *)
Theorem identifiers_not_forged cid trace_id attrs event k :
  let out := process cid trace_id (Some attrs) event in
  let put v := match v with Some s => str_truthy s | None => false end in
  out !! k =
    if decide (k = "trace_id" /\ put trace_id = true) then JStr <$> trace_id
    else if decide (k = "cid" /\ put cid = true) then JStr <$> cid
    else match event !! k with
         | Some v => Some v
         | None => if forwarded k then attrs !! k else None
         end.
Proof.
  cbv zeta. unfold process, _extract_extra. rewrite lookup_union, map_lookup_filter.
  assert (forall (o1 o2 : option json), o1 ∪ o2 = match o1 with Some v => Some v | None => o2 end) as Hu by (by intros [] []).
  assert ((attrs !! k ≫= (fun v => guard (forwarded (k, v).1 = true) ;; Some v)) = (if forwarded k then attrs !! k else None)) as ->.
  { cbn. destruct (attrs !! k) as [v|]; cbn; [|by destruct (forwarded k)]. destruct (forwarded k) eqn:Hf; by case_guard. }
  rewrite Hu. unfold _inject_context.
  destruct trace_id as [t|]; [destruct (str_truthy t) eqn:Ht|]; (destruct cid as [c|]; [destruct (str_truthy c) eqn:Hc|]);
    destruct (decide (k = "trace_id")) as [->|Hk1]; try (destruct (decide (k = "cid")) as [->|Hk2]);
    repeat first [rewrite lookup_insert_eq | rewrite lookup_insert_ne by done];
    repeat case_decide; try done; try (exfalso; naive_solver).
Qed.

(** What a list of changes makes of the logger [n]. *)
Definition changed (n : string) (cs : list change) (l : logger) : logger :=
  foldl (fun l c => if decide (c.1 = n) then c.2 l else l) l cs.

Lemma get_changed cs ls n : get_logger n (foldl apply_change ls cs) = changed n cs (get_logger n ls).
Proof.
  revert ls. induction cs as [|[m f] cs IH]; intros ls; [done |]. cbn [foldl changed]. rewrite IH. unfold changed. cbn. f_equal.
  unfold apply_change, get_logger. cbn. case_decide as Hn; [subst m; by rewrite lookup_insert_eq |].
  by rewrite lookup_insert_ne.
Qed.

Lemma changed_other n cs l : n ∉ map fst cs -> changed n cs l = l.
Proof.
  revert l. induction cs as [|[m f] cs IH]; intros l Hn; [done |]. cbn in Hn. apply not_elem_of_cons in Hn as [Hm Hn].
  unfold changed. cbn. rewrite decide_False by done. by apply IH.
Qed.

Lemma lookup_changed cs ls n :
  foldl apply_change ls cs !! n =
  if decide (n ∈ map fst cs) then Some (changed n cs (get_logger n ls)) else ls !! n.
Proof.
  revert ls. induction cs as [|[m f] cs IH]; intros ls; [done |]. cbn [foldl map fst]. rewrite IH.
  destruct (decide (n ∈ map fst cs)) as [Hin|Hin].
  - rewrite decide_True by (by apply list_elem_of_further). f_equal. unfold changed. cbn. f_equal.
    unfold apply_change, get_logger. cbn. case_decide as Hn; [subst m; by rewrite lookup_insert_eq |].
    by rewrite lookup_insert_ne.
  - unfold apply_change. cbn [fst snd]. destruct (decide (m = n)) as [->|Hn].
    + rewrite lookup_insert_eq, decide_True by apply list_elem_of_here. f_equal. unfold changed. cbn.
      rewrite decide_True by done. symmetry. by apply changed_other.
    + rewrite lookup_insert_ne, decide_False by (done || (by apply not_elem_of_cons)). done.
Qed.

Ltac by_settings s :=
  destruct (use_json s); destruct (log_sqlalchemy_level s) as [?|], (log_httpx_level s) as [?|], (log_asyncio_level s) as [?|];
  repeat match goal with |- context [str_truthy ?x] => destruct (str_truthy x) end.

Definition configured : list string :=
  [""; "uvicorn"; "uvicorn.error"; "uvicorn.access"; "sqlalchemy"; "sqlalchemy.engine"; "httpx"; "asyncio"].

Lemma only_configured s n : n ∈ map fst (logging_changes s) -> n ∈ configured.
Proof.
  assert (forallb (fun n => bool_decide (n ∈ configured)) (map fst (logging_changes s)) = true) as Hall.
  { unfold logging_changes, set_level. by_settings s; reflexivity. }
  rewrite forallb_forall in Hall. intros Hn%list_elem_of_In%Hall. by apply bool_decide_eq_true in Hn.
Qed.

(** No change of the set-up does more the second time, for any logger. *)
Lemma changes_settle s n l : changed n (logging_changes s) (changed n (logging_changes s) l) = changed n (logging_changes s) l.
Proof.
  destruct (decide (n ∈ configured)) as [Hn|Hn].
  2: { by rewrite !(changed_other n (logging_changes s)) by (intros Hin%only_configured; done). }
  unfold logging_changes, set_level.
  generalize (level_of (if str_truthy (log_level s) then log_level s else "INFO") 20). intros lv.
  unfold configured in Hn. rewrite !elem_of_cons in Hn. destruct Hn as [->|[->|[->|[->|[->|[->|[->|[->|Hn]]]]]]]];
    [by_settings s; reflexivity.. | by apply not_elem_of_nil in Hn].
Qed.

(** Setting the logging up again, as on a reload, changes nothing: no handler doubles, and
    the access log stays off. *)
Theorem logging_setup_idempotent s ls :
  setup_logging s (setup_logging s ls) = setup_logging s ls /\
  disabled (get_logger "uvicorn.access" (setup_logging s ls)) = true /\
  handlers (get_logger "" (setup_logging s ls)) = Console :: (if use_json s then [] else [RotatingFile 10485760 5]).
Proof.
  unfold setup_logging. split; [|rewrite !get_changed; unfold logging_changes, set_level; split; by_settings s; reflexivity].
  apply map_eq. intros n. rewrite (lookup_changed _ (foldl _ _ _)), get_changed, changes_settle, lookup_changed.
  by case_decide.
Qed.

(** *** Tracing *)

(** The engines are instrumented once, by the first call that gets that far; but a call
    that fails after it instrumented the application leaves the flag down, and the next
    one instruments the application again. *)
Theorem tracing_once os :
  let t := foldl (fun t o => setup_tracing o t) (Traced false 0 0 0) os in
  engines_instrumented t = (if existsb (fun o => match o with Succeeds => true | _ => false end) os then 1 else 0)%nat /\
  _initialized t = existsb (fun o => match o with Succeeds => true | _ => false end) os /\
  apps_instrumented (foldl (fun t o => setup_tracing o t) (Traced false 0 0 0) [EngineFails; Succeeds]) = 2%nat.
Proof.
  cbv zeta.
  assert (forall p a, let t := foldl (fun t o => setup_tracing o t) (Traced false p a 0) os in
    engines_instrumented t = (if existsb (fun o => match o with Succeeds => true | _ => false end) os then 1 else 0)%nat /\
    _initialized t = existsb (fun o => match o with Succeeds => true | _ => false end) os) as Hgen.
  { induction os as [|o os IH]; intros p a; [done |]. destruct o; cbn; try apply IH.
    assert (forall t, _initialized t = true -> foldl (fun t o => setup_tracing o t) t os = t) as ->; [|done | done].
    clear. induction os as [|o os IH]; intros t Ht; [done |]. cbn. unfold setup_tracing at 2. rewrite Ht. by apply IH. }
  destruct (Hgen 0%nat 0%nat) as [He Hi]. done.
Qed.
End TelemetryTheorems.

(** ** Witnesses *)

Module TelemetryWitnesses.
Import LlmMetrics.

Example haiku_cost :
  let md := Some (JObj [("input_tokens", JInt 2000); ("output_tokens", JInt (-1))]) in
  llm_tokens_total (record_llm_usage "claude-haiku-4-5" md (Counters ∅ ∅)) !! ("claude-haiku-4-5", "prompt") = Some 2000.
Proof. by vm_compute. Qed.
End TelemetryWitnesses.
