(* ===== verification/Catalogue.v ===== *)
(** * Schema changes and a database catalogue

    What a migration says to the database ([op], the calls on alembic's [op] object and
    the SQL statements that the revisions execute), and what it relies on: the class
    [Catalogue] runs one operation on a database, or refuses it, and its laws
    [CatalogueLaws] say that a creating operation is undone by the dropping one on a
    database that satisfies its own invariant.

    Neither alembic nor PostgreSQL is part of the repository: the class is the parameter
    that stands for them.  Module [Pg] is a database that has what the revisions use
    (tables with columns, constraints and rows, indexes in a name space shared with the
    tables, row level security, extensions), an instance that satisfies the laws.  It
    follows PostgreSQL's documentation; the indexes that back primary keys and unique
    constraints, sequences and roles are not in it. *)

From S2P Require Import Prelude.

(** ** Operations *)

Module Ddl.

Inductive type_ :=
| Integer | String_ (length : Z) | Text | JSON | JSONB | DateTime | Float | Boolean | VECTOR (dim : Z).

#[export] Instance type_eq_dec : EqDecision type_.
Proof. solve_decision. Defined.

(** [sa.Column(name, type, nullable=..., server_default=...)]. *)
Record column := Column {
  column_name : string;
  column_type : type_;
  column_nullable : bool;
  server_default : option string
}.

#[export] Instance column_eq_dec : EqDecision column.
Proof. solve_decision. Defined.

Definition Column_ (name : string) (type : type_) (nullable : bool) : column :=
  Column name type nullable None.
Definition Column_default (name : string) (type : type_) (default : string) (nullable : bool) : column :=
  Column name type nullable (Some default).

(** The conditions of the check constraints: [c IN (...)] and [c >= lo AND c <= hi]. *)
Inductive condition := In_ (c : string) (values : list string) | Between_ (c : string) (lo hi : Z).

#[export] Instance condition_eq_dec : EqDecision condition.
Proof. solve_decision. Defined.

Definition condition_column (c : condition) : string :=
  match c with In_ c _ | Between_ c _ _ => c end.

Inductive constraint_ :=
| PrimaryKeyConstraint (columns : list string)
| UniqueConstraint (columns : list string) (name : string)
| CheckConstraint (sqltext : condition) (name : string)
| ForeignKeyConstraint (columns : list string) (refers_to : string * string) (ondelete : string).

#[export] Instance constraint_eq_dec : EqDecision constraint_.
Proof. solve_decision. Defined.

(** The columns that a constraint involves, its name, and the column it refers to. *)
Definition constraint_columns (c : constraint_) : list string :=
  match c with
  | PrimaryKeyConstraint cols | UniqueConstraint cols _ | ForeignKeyConstraint cols _ _ => cols
  | CheckConstraint cond _ => [condition_column cond]
  end.

Definition constraint_name (c : constraint_) : option string :=
  match c with UniqueConstraint _ n | CheckConstraint _ n => Some n | _ => None end.

Definition constraint_refers (c : constraint_) : option (string * string) :=
  match c with ForeignKeyConstraint _ r _ => Some r | _ => None end.

(** The SQL statements that the revisions execute as text. *)
Inductive statement :=
| ENABLE_ROW_LEVEL_SECURITY (table : string)
| FORCE_ROW_LEVEL_SECURITY (table : string)
| NO_FORCE_ROW_LEVEL_SECURITY (table : string)
| DISABLE_ROW_LEVEL_SECURITY (table : string)
| CREATE_POLICY (name table using_ with_check : string)
| DROP_POLICY (name table : string)
| UPDATE_WHERE_NULL (table column value : string)
| DROP_INDEX_IF_EXISTS (name : string)
| DROP_COLUMN_IF_EXISTS (table column : string)
| ADD_COLUMN_IF_NOT_EXISTS (table : string) (c : column)
| CREATE_INDEX_IF_NOT_EXISTS (name table : string) (columns : list string)
| INSERT_ON_CONFLICT_DO_NOTHING (table : string) (columns : list string) (values : list (list (option string)))
| DELETE_WHERE_IN (table column : string) (values : list string)
| CREATE_EXTENSION_IF_NOT_EXISTS (name : string).

Inductive op :=
| create_table (name : string) (columns : list column) (constraints : list constraint_)
| drop_table (name : string)
| create_index (name table : string) (columns : list string) (unique : bool) (postgresql_where : option string)
| drop_index (name table_name : string)
| add_column (table : string) (c : column)
| drop_column (table column : string)
| alter_column (table column : string) (nullable : bool)
| create_check_constraint (name table : string) (sqltext : condition)
| drop_constraint (name table : string)
| execute (sql : statement).

#[export] Instance statement_eq_dec : EqDecision statement.
Proof. solve_decision. Defined.

#[export] Instance op_eq_dec : EqDecision op.
Proof. solve_decision. Defined.

(** The operation that takes back another one, where there is one that does so
    whatever the database was before. *)
Definition undo (o : op) : option op :=
  match o with
  | create_table n _ _ => Some (drop_table n)
  | create_index n t _ _ _ => Some (drop_index n t)
  | add_column t c => Some (drop_column t (column_name c))
  | create_check_constraint n t _ => Some (drop_constraint n t)
  | _ => None
  end.

End Ddl.
Import Ddl.

(** ** The interface *)

(** [run o s] is [None] where the database raises: the transaction is rolled back. *)
Class Catalogue (S : Type) := {
  run : op -> S -> option S;
  well_formed : S -> Prop
}.

Class CatalogueLaws (S : Type) `{Catalogue S} := {
  run_well_formed : forall o s s', well_formed s -> run o s = Some s' -> well_formed s';
  run_undo : forall o o' s s', well_formed s -> undo o = Some o' -> run o s = Some s' -> run o' s' = Some s
}.

(** The operations of one [upgrade] or [downgrade], in one transaction. *)
Fixpoint run_all {S} `{Catalogue S} (os : list op) (s : S) : option S :=
  match os with [] => Some s | o :: os => s ← run o s; run_all os s end.

(** [downs] takes back [ups] step by step, from the last to the first. *)
Definition mirrors (ups downs : list op) : Prop := undo <$> ups = Some <$> reverse downs.

#[export] Instance mirrors_dec (ups downs : list op) : Decision (mirrors ups downs).
Proof. unfold mirrors. apply _. Defined.

Section Laws.
Context {S : Type} `{CatalogueLaws S}.

Lemma run_all_app (os1 os2 : list op) (s : S) :
  run_all (os1 ++ os2) s = s' ← run_all os1 s; run_all os2 s'.
Proof.
  revert s. induction os1 as [|o os1 IH]; intros s; simpl; [done |].
  destruct (run o s); simpl; [apply IH | done].
Qed.

Lemma run_all_well_formed (os : list op) (s s' : S) :
  well_formed s -> run_all os s = Some s' -> well_formed s'.
Proof.
  revert s. induction os as [|o os IH]; intros s Hwf Hr; simpl in Hr; [by simplify_eq |].
  apply bind_Some in Hr as (s1 & H1 & Hr). eapply IH; [|done]. by eapply run_well_formed.
Qed.

Lemma mirrors_cons (o : op) (ups downs : list op) :
  mirrors (o :: ups) downs ->
  exists o' downs', undo o = Some o' /\ mirrors ups downs' /\ downs = downs' ++ [o'].
Proof.
  unfold mirrors. intros Hm. destruct (reverse downs) as [|o' ds] eqn:Hd; simpl in Hm; [done |].
  injection Hm as Hu Hm. exists o', (reverse ds). rewrite reverse_involutive.
  repeat split; [done | done |]. rewrite <- (reverse_involutive downs), Hd. by rewrite reverse_cons.
Qed.

Lemma run_all_mirrors (ups downs : list op) (s s' : S) :
  well_formed s -> mirrors ups downs -> run_all ups s = Some s' -> run_all downs s' = Some s.
Proof.
  revert downs s. induction ups as [|o ups IH]; intros downs s Hwf Hm Hr.
  - unfold mirrors in Hm. simpl in *. simplify_eq. symmetry in Hm.
    apply fmap_nil_inv in Hm. apply (f_equal reverse) in Hm. rewrite reverse_involutive in Hm.
    by subst downs.
  - apply mirrors_cons in Hm as (o' & downs' & Hu & Hm & ->).
    simpl in Hr. apply bind_Some in Hr as (s1 & H1 & Hr).
    rewrite run_all_app, (IH downs' s1); [|by eapply run_well_formed|done|done].
    simpl. by rewrite (run_undo o o' s s1 Hwf Hu H1).
Qed.
End Laws.

(** ** A PostgreSQL database *)

Module Pg.

Inductive value := VText (s : string) | VInt (z : Z).

#[export] Instance value_eq_dec : EqDecision value.
Proof. solve_decision. Defined.

(** A row maps its columns to values; an absent key is [NULL]. *)
Abbreviation row := (gmap string value).

Record table := Table {
  columns : list column;
  constraints : list constraint_;
  row_security : bool;
  force_row_security : bool;
  policies : gmap string (string * string);
  rows : list row
}.

#[export] Instance table_eq_dec : EqDecision table.
Proof. solve_decision. Defined.

Record index := Index {
  index_table : string;
  index_columns : list string;
  index_unique : bool;
  index_where : option string
}.

#[export] Instance index_eq_dec : EqDecision index.
Proof. solve_decision. Defined.

Record db := Db {
  tables : gmap string table;
  indexes : gmap string index;
  extensions : gset string
}.

#[export] Instance db_eq_dec : EqDecision db.
Proof. solve_decision. Defined.

Definition empty : db := Db ∅ ∅ ∅.

Definition names (T : table) : list string := column_name <$> columns T.

(** *** Reading *)

Definition has_column (d : db) (r : string * string) : bool :=
  match tables d !! r.1 with Some T => bool_decide (r.2 ∈ names T) | None => false end.

(** A constraint of some table other than [t] refers to [t]. *)
Definition table_referenced (d : db) (t : string) : bool :=
  existsb (fun '(t', T) => negb (String.eqb t' t) &&
             existsb (fun c => match constraint_refers c with Some (r, _) => String.eqb r t | None => false end)
               (constraints T)) (map_to_list (tables d)).

Definition column_referenced (d : db) (r : string * string) : bool :=
  existsb (fun '(_, T) => existsb (fun c => bool_decide (constraint_refers c = Some r)) (constraints T))
    (map_to_list (tables d)).

Definition type_known (d : db) (t : type_) : bool :=
  match t with VECTOR _ => bool_decide ("vector"%string ∈ extensions d) | _ => true end.

(** The key of a row in a unique index: no two rows have the same, [NULL]s apart. *)
Definition keys (cols : list string) (rs : list row) : list (list value) :=
  omap (fun r => mapM (fun c => r !! c) cols) rs.

Definition digit (c : ascii) : Z := Z.of_nat (nat_of_ascii c) - 48.

(** A default is a literal of the column's type. *)
Definition literal (t : type_) (s : string) : value :=
  match t with
  | Integer => VInt (fold_left (fun n c => 10 * n + digit c) (String.list_ascii_of_string s) 0)
  | _ => VText s
  end.

Definition text_in (r : row) (c : string) (vs : list string) : bool :=
  match r !! c with Some (VText v) => bool_decide (v ∈ vs) | _ => false end.

Definition holds (cond : condition) (r : row) : bool :=
  match cond with
  | In_ c vs => match r !! c with Some _ => text_in r c vs | None => true end
  | Between_ c lo hi =>
      match r !! c with Some (VInt z) => (lo <=? z) && (z <=? hi) | Some (VText _) => false | None => true end
  end.

(** *** Writing *)

Definition with_tables (f : gmap string table -> gmap string table) (d : db) : db :=
  Db (f (tables d)) (indexes d) (extensions d).
Definition with_indexes (f : gmap string index -> gmap string index) (d : db) : db :=
  Db (tables d) (f (indexes d)) (extensions d).
Definition set_table (t : string) (T : table) : db -> db := with_tables (insert t T).

Definition with_columns (f : list column -> list column) (T : table) : table :=
  Table (f (columns T)) (constraints T) (row_security T) (force_row_security T) (policies T) (rows T).
Definition with_constraints (f : list constraint_ -> list constraint_) (T : table) : table :=
  Table (columns T) (f (constraints T)) (row_security T) (force_row_security T) (policies T) (rows T).
Definition with_security (on forced : bool) (T : table) : table :=
  Table (columns T) (constraints T) on forced (policies T) (rows T).
Definition with_policies (f : gmap string (string * string) -> gmap string (string * string)) (T : table) : table :=
  Table (columns T) (constraints T) (row_security T) (force_row_security T) (f (policies T)) (rows T).
Definition with_rows (f : list row -> list row) (T : table) : table :=
  Table (columns T) (constraints T) (row_security T) (force_row_security T) (policies T) (f (rows T)).

Definition guard_ (b : bool) (d : db) : option db := if b then Some d else None.

Definition relation_exists (d : db) (n : string) : bool :=
  bool_decide (is_Some (tables d !! n)) || bool_decide (is_Some (indexes d !! n)).

(** A constraint of a new table [n] with the columns [cols] makes sense. *)
Definition constraint_ok (d : db) (n : string) (cols : list string) (c : constraint_) : bool :=
  bool_decide (constraint_columns c ⊆ cols) &&
  match constraint_refers c with
  | Some (t, r) => if String.eqb t n then bool_decide (r ∈ cols) else has_column d (t, r)
  | None => true
  end.

Definition run_create_table (n : string) (cs : list column) (ks : list constraint_) (d : db) : option db :=
  let cols := column_name <$> cs in
  if negb (relation_exists d n) && bool_decide (NoDup cols) && forallb (fun c => type_known d (column_type c)) cs &&
     forallb (constraint_ok d n cols) ks
  then Some (set_table n (Table cs ks false false ∅ []) d) else None.

Definition run_drop_table (n : string) (d : db) : option db :=
  if bool_decide (is_Some (tables d !! n)) && negb (table_referenced d n)
  then Some (Db (delete n (tables d)) (filter (fun i => index_table i.2 ≠ n) (indexes d)) (extensions d))
  else None.

Definition run_create_index (n t : string) (cs : list string) (u : bool) (w : option string) (d : db) : option db :=
  T ← tables d !! t;
  if negb (relation_exists d n) && bool_decide (cs ⊆ names T) && (negb u || bool_decide (NoDup (keys cs (rows T))))
  then Some (with_indexes (insert n (Index t cs u w)) d) else None.

Definition run_drop_index (n : string) (d : db) : option db :=
  if bool_decide (is_Some (indexes d !! n)) then Some (with_indexes (delete n) d) else None.

Definition run_add_column (t : string) (c : column) (d : db) : option db :=
  T ← tables d !! t;
  let n := column_name c in
  if bool_decide (n ∉ names T) && type_known d (column_type c) then
    match server_default c with
    | Some v => Some (set_table t (with_rows (fmap (insert n (literal (column_type c) v))) (with_columns (fun cs => cs ++ [c]) T)) d)
    | None =>
        if column_nullable c || bool_decide (rows T = [])
        then Some (set_table t (with_columns (fun cs => cs ++ [c]) T) d) else None
    end
  else None.

Definition run_drop_column (t c : string) (d : db) : option db :=
  T ← tables d !! t;
  if bool_decide (c ∈ names T) && negb (column_referenced d (t, c)) then
    let T' := Table (filter (fun k => column_name k ≠ c) (columns T))
                    (filter (fun k => c ∉ constraint_columns k) (constraints T))
                    (row_security T) (force_row_security T) (policies T) (delete c <$> rows T) in
    Some (Db (<[t := T']> (tables d)) (filter (fun i => ~ (index_table i.2 = t /\ c ∈ index_columns i.2)) (indexes d))
             (extensions d))
  else None.

Definition set_nullable (c : string) (nl : bool) (k : column) : column :=
  if String.eqb (column_name k) c then Column (column_name k) (column_type k) nl (server_default k) else k.

Definition run_alter_column (t c : string) (nl : bool) (d : db) : option db :=
  T ← tables d !! t;
  if bool_decide (c ∈ names T) && (nl || forallb (fun r : row => bool_decide (is_Some (r !! c))) (rows T))
  then Some (set_table t (with_columns (fmap (set_nullable c nl)) T) d) else None.

Definition run_create_check (n t : string) (cond : condition) (d : db) : option db :=
  T ← tables d !! t;
  if bool_decide (condition_column cond ∈ names T) && forallb (fun k => negb (bool_decide (constraint_name k = Some n))) (constraints T) &&
     forallb (holds cond) (rows T)
  then Some (set_table t (with_constraints (fun ks => ks ++ [CheckConstraint cond n]) T) d) else None.

Definition run_drop_constraint (n t : string) (d : db) : option db :=
  T ← tables d !! t;
  if existsb (fun k => bool_decide (constraint_name k = Some n)) (constraints T)
  then Some (set_table t (with_constraints (filter (fun k => constraint_name k ≠ Some n)) T) d) else None.

(** The rows of an [INSERT]; a [NULL] is an absent key, and the [id] is the next one. *)
Definition next_id (rs : list row) : Z :=
  1 + fold_right (fun (r : row) m => match r !! "id"%string with Some (VInt z) => Z.max z m | _ => m end) 0 rs.

Fixpoint insert_rows (cols : list string) (vss : list (list (option string))) (rs : list row) : list row :=
  match vss with
  | [] => rs
  | vs :: vss =>
      let r : row := foldr (fun '(c, v) (r : row) => match v with Some v => <[c := VText v]> r | None => r end) ∅ (zip cols vs) in
      insert_rows cols vss (rs ++ [<["id"%string := VInt (next_id rs)]> r])
  end.

Definition update_table (t : string) (f : table -> option table) (d : db) : option db :=
  T ← tables d !! t; T' ← f T; Some (set_table t T' d).

Definition run_statement (s : statement) (d : db) : option db :=
  match s with
  | ENABLE_ROW_LEVEL_SECURITY t => update_table t (fun T => Some (with_security true (force_row_security T) T)) d
  | DISABLE_ROW_LEVEL_SECURITY t => update_table t (fun T => Some (with_security false (force_row_security T) T)) d
  | FORCE_ROW_LEVEL_SECURITY t => update_table t (fun T => Some (with_security (row_security T) true T)) d
  | NO_FORCE_ROW_LEVEL_SECURITY t => update_table t (fun T => Some (with_security (row_security T) false T)) d
  | CREATE_POLICY p t using_ check =>
      update_table t (fun T =>
        match policies T !! p with Some _ => None | None => Some (with_policies (insert p (using_, check)) T) end) d
  | DROP_POLICY p t =>
      update_table t (fun T =>
        match policies T !! p with Some _ => Some (with_policies (delete p) T) | None => None end) d
  | UPDATE_WHERE_NULL t c v =>
      update_table t (fun T =>
        if bool_decide (c ∈ names T)
        then Some (with_rows (fmap (fun r : row => match r !! c with Some _ => r | None => <[c := VText v]> r end)) T)
        else None) d
  | DROP_INDEX_IF_EXISTS i => if bool_decide (is_Some (indexes d !! i)) then run_drop_index i d else Some d
  | DROP_COLUMN_IF_EXISTS t c => if has_column d (t, c) then run_drop_column t c d else update_table t Some d
  | ADD_COLUMN_IF_NOT_EXISTS t c => if has_column d (t, column_name c) then Some d else run_add_column t c d
  | CREATE_INDEX_IF_NOT_EXISTS i t cs => if relation_exists d i then Some d else run_create_index i t cs false None d
  | INSERT_ON_CONFLICT_DO_NOTHING t cols vss =>
      update_table t (fun T =>
        if bool_decide ("id"%string :: cols ⊆ names T) && forallb (fun vs => Nat.eqb (length vs) (length cols)) vss
        then Some (with_rows (insert_rows cols vss) T) else None) d
  | DELETE_WHERE_IN t c vs =>
      update_table t (fun T =>
        if bool_decide (c ∈ names T)
        then Some (with_rows (List.filter (fun r : row => negb (text_in r c vs))) T) else None) d
  | CREATE_EXTENSION_IF_NOT_EXISTS e => Some (Db (tables d) (indexes d) ({[e]} ∪ extensions d))
  end.

Definition run_op (o : op) (d : db) : option db :=
  match o with
  | create_table n cs ks => run_create_table n cs ks d
  | drop_table n => run_drop_table n d
  | create_index n t cs u w => run_create_index n t cs u w d
  | drop_index n _ => run_drop_index n d
  | add_column t c => run_add_column t c d
  | drop_column t c => run_drop_column t c d
  | alter_column t c nl => run_alter_column t c nl d
  | create_check_constraint n t cond => run_create_check n t cond d
  | drop_constraint n t => run_drop_constraint n t d
  | execute s => run_statement s d
  end.

End Pg.

(** ** The reference database satisfies the laws *)

Module PgLaws.
Import Pg.

(** What holds of every database that the operations build from the empty one. *)
Record wf (d : db) : Prop := {
  wf_columns : forall t T, tables d !! t = Some T -> NoDup (names T);
  wf_constraints : forall t T k, tables d !! t = Some T -> k ∈ constraints T -> constraint_columns k ⊆ names T;
  wf_references : forall t T k r, tables d !! t = Some T -> k ∈ constraints T -> constraint_refers k = Some r ->
    has_column d r = true;
  wf_rows : forall t T r c, tables d !! t = Some T -> r ∈ rows T -> is_Some (r !! c) -> c ∈ names T;
  wf_indexes : forall i I, indexes d !! i = Some I ->
    exists T, tables d !! index_table I = Some T /\ index_columns I ⊆ names T;
  wf_name_space : forall n T, tables d !! n = Some T -> indexes d !! n = None
}.

Lemma pg_wf_empty : wf empty.
Proof. split; intros *; simpl; rewrite ?lookup_empty; try done; by intros ?%lookup_empty_Some. Qed.

Lemma has_column_spec (d : db) (t c : string) :
  has_column d (t, c) = true <-> exists T, tables d !! t = Some T /\ c ∈ names T.
Proof.
  unfold has_column; simpl. destruct (tables d !! t) as [T|]; [|naive_solver].
  rewrite bool_decide_eq_true. naive_solver.
Qed.

Lemma relation_exists_false (d : db) (n : string) :
  relation_exists d n = false <-> tables d !! n = None /\ indexes d !! n = None.
Proof.
  unfold relation_exists. rewrite orb_false_iff, !bool_decide_eq_false, !eq_None_not_Some. done.
Qed.

Lemma set_table_lookup (d : db) (t t' : string) (T T' : table) :
  tables (set_table t T d) !! t' = Some T' <-> (t = t' /\ T = T') \/ (t <> t' /\ tables d !! t' = Some T').
Proof. simpl. apply lookup_insert_Some. Qed.

(** A column that was there is there after a table has been replaced by one with at
    least its columns. *)
Lemma set_table_has_column (d : db) (t : string) (T T' : table) (r : string * string) :
  tables d !! t = Some T -> names T ⊆ names T' -> has_column d r = true ->
  has_column (set_table t T' d) r = true.
Proof.
  destruct r as [t' c]. intros HT Hsub (T1 & H1 & Hc)%has_column_spec. apply has_column_spec.
  destruct (decide (t = t')) as [->|Hne].
  - exists T'. split; [by apply set_table_lookup; left |]. simplify_eq. by apply Hsub.
  - exists T1. split; [by apply set_table_lookup; right | done].
Qed.

(** What a table must satisfy to be one of a well-formed database. *)
Record table_wf (d : db) (T : table) : Prop := {
  table_columns : NoDup (names T);
  table_constraints : forall k, k ∈ constraints T -> constraint_columns k ⊆ names T;
  table_references : forall k r, k ∈ constraints T -> constraint_refers k = Some r -> has_column d r = true;
  table_rows : forall r c, r ∈ rows T -> is_Some (r !! c) -> c ∈ names T
}.

Lemma wf_table (d : db) (t : string) (T : table) : wf d -> tables d !! t = Some T -> table_wf d T.
Proof.
  intros Hwf HT. split; intros.
  - by eapply wf_columns.
  - by eapply wf_constraints.
  - by eapply wf_references.
  - by eapply wf_rows.
Qed.

Lemma wf_set_table (d : db) (t : string) (T T' : table) :
  wf d -> tables d !! t = Some T -> names T ⊆ names T' -> table_wf (set_table t T' d) T' ->
  wf (set_table t T' d).
Proof.
  intros Hwf HT Hsub [H1 H2 H3 H4]. split.
  - intros t1 T1 [[<- <-]|[_ Ht]]%set_table_lookup; [done | by eapply wf_columns].
  - intros t1 T1 k [[<- <-]|[_ Ht]]%set_table_lookup Hk; [by apply H2 | by eapply wf_constraints].
  - intros t1 T1 k r [[<- <-]|[_ Ht]]%set_table_lookup Hk Hr; [by eapply H3 |].
    eapply set_table_has_column; [done | done |]. by eapply wf_references.
  - intros t1 T1 r c [[<- <-]|[_ Ht]]%set_table_lookup Hr Hc; [by eapply H4 | by eapply wf_rows].
  - intros i I Hi. destruct (wf_indexes d Hwf i I Hi) as (T1 & HT1 & Hc).
    destruct (decide (t = index_table I)) as [->|Hne].
    + exists T'. split; [by apply set_table_lookup; left |]. simplify_eq. by etrans.
    + exists T1. split; [by apply set_table_lookup; right | done].
  - intros n T1 [[<- <-]|[_ Ht]]%set_table_lookup; simpl; by eapply wf_name_space.
Qed.

(** Replacing a table by one that has the same columns, the same constraints and rows
    with no new column. *)
Lemma wf_update_rows (d : db) (t : string) (T T' : table) :
  wf d -> tables d !! t = Some T -> names T' = names T ->
  (forall k, k ∈ constraints T' -> k ∈ constraints T \/
     (constraint_columns k ⊆ names T /\ constraint_refers k = None)) ->
  (forall r c, r ∈ rows T' -> is_Some (r !! c) -> c ∈ names T) ->
  wf (set_table t T' d).
Proof.
  intros Hwf HT Hn Hk Hr. destruct (wf_table d t T Hwf HT) as [T1 T2 T3 T4].
  eapply wf_set_table; [done | done | by rewrite Hn |]. split; rewrite ?Hn.
  - done.
  - intros k [Hk1|[Hk1 _]]%Hk; [by apply T2 | done].
  - intros k r [Hk1|[_ Hk1]]%Hk Href; [|congruence].
    eapply set_table_has_column; [done | by rewrite Hn | by eapply T3].
  - done.
Qed.

Lemma wf_update_table (f : table -> option table) (t : string) (d d' : db) :
  wf d -> update_table t f d = Some d' ->
  (forall T T', tables d !! t = Some T -> f T = Some T' ->
     columns T' = columns T /\ constraints T' = constraints T /\
     forall r c, r ∈ rows T' -> is_Some (r !! c) -> c ∈ names T) ->
  wf d'.
Proof.
  intros Hwf Hu Hf. unfold update_table in Hu.
  apply bind_Some in Hu as (T & HT & Hu). apply bind_Some in Hu as (T' & HT' & Hu). simplify_eq.
  destruct (Hf T T' HT HT') as (Hc & Hk & Hr).
  eapply wf_update_rows; [done | done | unfold names; by rewrite Hc | rewrite Hk; by left | done].
Qed.

End PgLaws.

(** ** Every operation keeps the invariant *)

Module PgInvariant.
Import Pg PgLaws.

Lemma wf_create_table (n : string) (cs : list column) (ks : list constraint_) (d d' : db) :
  wf d -> run_create_table n cs ks d = Some d' -> wf d'.
Proof.
  intros Hwf Hr. unfold run_create_table in Hr. case_match eqn:Hg; [|done]. simplify_eq.
  rewrite !andb_true_iff, negb_true_iff, relation_exists_false, bool_decide_eq_true in Hg.
  destruct Hg as [[[[Ht Hi] Hnd] _] Hks]. rewrite forallb_forall in Hks.
  assert (forall k, k ∈ ks -> constraint_ok d n (column_name <$> cs) k = true) as Hk.
  { intros k Hk. apply Hks. by apply list_elem_of_In. }
  assert (forall r, has_column d r = true -> has_column (set_table n (Table cs ks false false ∅ []) d) r = true) as Hmono.
  { intros [t c] (T & HT & Hc)%has_column_spec. apply has_column_spec. exists T. split; [|done].
    apply set_table_lookup. right. split; [congruence | done]. }
  split.
  - intros t T [[<- <-]|[_ HT]]%set_table_lookup; [done | by eapply wf_columns].
  - intros t T k [[<- <-]|[_ HT]]%set_table_lookup Hin; [|by eapply wf_constraints].
    specialize (Hk k Hin). unfold constraint_ok in Hk. apply andb_true_iff in Hk as [Hk _].
    by apply bool_decide_eq_true in Hk.
  - intros t T k [rt rc] [[<- <-]|[_ HT]]%set_table_lookup Hin Href; [|by eapply Hmono, wf_references].
    specialize (Hk k Hin). unfold constraint_ok in Hk. apply andb_true_iff in Hk as [_ Hk].
    rewrite Href in Hk. destruct (String.eqb_spec rt n) as [->|]; [|by apply Hmono].
    apply bool_decide_eq_true in Hk. apply has_column_spec. eexists. split; [by apply set_table_lookup; left | done].
  - intros t T r c [[<- <-]|[_ HT]]%set_table_lookup Hin; [by apply not_elem_of_nil in Hin | by eapply wf_rows].
  - intros i I Hi'. destruct (wf_indexes d Hwf i I Hi') as (T & HT & Hc). exists T. split; [|done].
    apply set_table_lookup. right. split; [congruence | done].
  - intros t T [[<- <-]|[_ HT]]%set_table_lookup; simpl; [done | by eapply wf_name_space].
Qed.

Lemma table_referenced_false (d : db) (n t : string) (T : table) (k : constraint_) (r : string * string) :
  table_referenced d n = false -> tables d !! t = Some T -> t <> n -> k ∈ constraints T ->
  constraint_refers k = Some r -> r.1 <> n.
Proof.
  intros Hf HT Hne Hk Hr Hn. destruct r as [t' c]. simpl in Hn. subst t'.
  apply not_true_iff_false in Hf. apply Hf. clear Hf. unfold table_referenced. apply existsb_exists. exists (t, T). split.
  { apply list_elem_of_In, elem_of_map_to_list. done. }
  apply andb_true_iff. split; [by apply negb_true_iff, String.eqb_neq |].
  apply existsb_exists. exists k. split; [by apply list_elem_of_In |]. rewrite Hr.
  apply String.eqb_refl.
Qed.

Lemma column_referenced_false (d : db) (r : string * string) (t : string) (T : table) (k : constraint_) :
  column_referenced d r = false -> tables d !! t = Some T -> k ∈ constraints T -> constraint_refers k <> Some r.
Proof.
  intros Hf HT Hk Hr. apply not_true_iff_false in Hf. apply Hf. clear Hf.
  unfold column_referenced. apply existsb_exists. exists (t, T). split.
  { apply list_elem_of_In, elem_of_map_to_list. done. }
  apply existsb_exists. exists k. split; [by apply list_elem_of_In | by apply bool_decide_eq_true].
Qed.

Lemma wf_drop_table (n : string) (d d' : db) : wf d -> run_drop_table n d = Some d' -> wf d'.
Proof.
  intros Hwf Hr. unfold run_drop_table in Hr. case_match eqn:Hg; [|done]. simplify_eq.
  apply andb_true_iff in Hg as [_ Hg%negb_true_iff]. split; simpl.
  - intros t T [_ HT]%lookup_delete_Some. by eapply wf_columns.
  - intros t T k [_ HT]%lookup_delete_Some. by eapply wf_constraints.
  - intros t T k [rt rc] [Hne HT]%lookup_delete_Some Hk Href.
    pose proof (wf_references d Hwf t T k _ HT Hk Href) as (T1 & H1 & Hc)%has_column_spec.
    apply has_column_spec. exists T1. split; [|done]. apply lookup_delete_Some. split; [|done].
    intros ->. by eapply (table_referenced_false d rt t T k (rt, rc)).
  - intros t T r c [_ HT]%lookup_delete_Some. by eapply wf_rows.
  - intros i I [Hi Hne]%map_lookup_filter_Some. simpl in Hne.
    destruct (wf_indexes d Hwf i I Hi) as (T & HT & Hc). exists T. split; [|done].
    by apply lookup_delete_Some.
  - intros t T [_ HT]%lookup_delete_Some. apply map_lookup_filter_None. left. by eapply wf_name_space.
Qed.

Lemma wf_create_index (n t : string) (cs : list string) (u : bool) (w : option string) (d d' : db) :
  wf d -> run_create_index n t cs u w d = Some d' -> wf d'.
Proof.
  intros Hwf Hr. unfold run_create_index in Hr. apply bind_Some in Hr as (T & HT & Hr).
  case_match eqn:Hg; [|done]. simplify_eq.
  rewrite !andb_true_iff, negb_true_iff, relation_exists_false, bool_decide_eq_true in Hg.
  destruct Hg as [[[Hn _] Hcs] _]. destruct Hwf. split; simpl; try done.
  - intros i I [[<- <-]|[_ Hi]]%lookup_insert_Some; [by exists T | eauto].
  - intros m T1 H1. apply lookup_insert_None. split; [eauto | congruence].
Qed.

Lemma wf_drop_index (n : string) (d d' : db) : wf d -> run_drop_index n d = Some d' -> wf d'.
Proof.
  intros Hwf Hr. unfold run_drop_index in Hr. case_match; [|done]. simplify_eq.
  destruct Hwf. split; simpl; try done.
  - intros i I [_ Hi]%lookup_delete_Some. eauto.
  - intros m T1 H1. apply lookup_delete_None. eauto.
Qed.

Lemma names_snoc (T : table) (c : column) :
  names (with_columns (fun cs => cs ++ [c]) T) = names T ++ [column_name c].
Proof. unfold names. simpl. by rewrite fmap_app. Qed.

Lemma wf_append_column (d : db) (t : string) (T : table) (c : column) (f : list row -> list row) :
  wf d -> tables d !! t = Some T -> column_name c ∉ names T ->
  (forall r k, r ∈ f (rows T) -> is_Some (r !! k) -> k ∈ names T \/ k = column_name c) ->
  wf (set_table t (with_rows f (with_columns (fun cs => cs ++ [c]) T)) d).
Proof.
  intros Hwf HT Hc Hf. destruct (wf_table d t T Hwf HT) as [T1 T2 T3 T4].
  set (T' := with_rows f _). assert (names T' = names T ++ [column_name c]) as Hn by apply names_snoc.
  assert (names T ⊆ names T') as Hsub by (rewrite Hn; intros x Hx; apply elem_of_app; by left).
  eapply wf_set_table; [done | done | done |]. split.
  - rewrite Hn. apply NoDup_app. repeat split; [done | | by apply NoDup_singleton].
    intros x Hx ->%list_elem_of_singleton. done.
  - intros k Hk. etrans; [by apply T2 | done].
  - intros k r Hk Hr. eapply set_table_has_column; [done | done | by eapply T3].
  - intros r k Hr Hk. rewrite Hn, elem_of_app, list_elem_of_singleton. by eapply Hf.
Qed.

Lemma with_rows_id (T : table) : with_rows (fun rs => rs) T = T.
Proof. by destruct T. Qed.

Lemma wf_add_column (t : string) (c : column) (d d' : db) :
  wf d -> run_add_column t c d = Some d' -> wf d'.
Proof.
  intros Hwf Hr. unfold run_add_column in Hr. apply bind_Some in Hr as (T & HT & Hr).
  case_match eqn:Hg; [|done]. apply andb_true_iff in Hg as [Hg%bool_decide_eq_true _].
  pose proof (wf_rows d Hwf t T) as Hrows.
  destruct (server_default c) as [v|].
  - simplify_eq. apply wf_append_column; [done.. |].
    intros r k (r0 & -> & Hr0)%list_elem_of_fmap [x [[<- _]|[_ Hx]]%lookup_insert_Some]; [by right |].
    left. by eapply Hrows.
  - case_match; [|done]. simplify_eq. rewrite <- (with_rows_id (with_columns _ T)).
    apply wf_append_column; [done.. |]. intros r k Hin Hk. left. by eapply Hrows.
Qed.

Lemma wf_drop_column (t c : string) (d d' : db) :
  wf d -> run_drop_column t c d = Some d' -> wf d'.
Proof.
  intros Hwf Hr. unfold run_drop_column in Hr. apply bind_Some in Hr as (T & HT & Hr).
  case_match eqn:Hg; [|done]. apply andb_true_iff in Hg as [_ Hg%negb_true_iff]. simplify_eq.
  destruct (wf_table d t T Hwf HT) as [T1 T2 T3 T4].
  set (T' := Table _ _ _ _ _ _).
  assert (forall x, x ∈ names T' <-> x ∈ names T /\ x <> c) as Hn.
  { intros x. unfold names, T'; simpl. rewrite !list_elem_of_fmap. split.
    - intros (k & -> & [Hk Hin]%list_elem_of_filter). split; [by exists k | done].
    - intros [(k & -> & Hin) Hne]. exists k. split; [done |]. by apply list_elem_of_filter. }
  assert (forall r, has_column d r = true -> r <> (t, c) ->
            has_column (Db (<[t := T']> (tables d)) (filter (fun i => ~ (index_table i.2 = t /\ c ∈ index_columns i.2)) (indexes d)) (extensions d)) r = true) as Hcol.
  { intros [t1 c1] (T0 & H0 & Hc)%has_column_spec Hne. apply has_column_spec. simpl.
    destruct (decide (t = t1)) as [->|Hdt].
    - exists T'. rewrite lookup_insert_eq. split; [done |]. simplify_eq. apply Hn. split; [done | congruence].
    - exists T0. by rewrite lookup_insert_ne. }
  split; simpl.
  - intros t1 T0 [[<- <-]|[_ Ht]]%lookup_insert_Some; [|by eapply wf_columns].
    unfold names, T'; simpl. clear -T1. unfold names in T1.
    induction (columns T) as [|k l IH]; [constructor |]. simpl in *.
    apply NoDup_cons in T1 as [Hk Hl]. rewrite filter_cons. case_decide; simpl; [|by apply IH].
    apply NoDup_cons. split; [|by apply IH]. intros (k' & Hkk & [_ Hin]%list_elem_of_filter)%list_elem_of_fmap.
    apply Hk. apply list_elem_of_fmap. by exists k'.
  - intros t1 T0 k [[<- <-]|[_ Ht]]%lookup_insert_Some Hk; [|by eapply wf_constraints].
    apply list_elem_of_filter in Hk as [Hc Hk]. intros x Hx. apply Hn. split; [by eapply T2 | congruence].
  - intros t1 T0 k r [[<- <-]|[_ Ht]]%lookup_insert_Some Hk Href; apply Hcol.
    + apply list_elem_of_filter in Hk as [_ Hk]. by eapply T3.
    + apply list_elem_of_filter in Hk as [_ Hk]. intros ->. by eapply (column_referenced_false d (t, c) t T k).
    + by eapply wf_references.
    + intros ->. by eapply (column_referenced_false d (t, c) t1 T0 k).
  - intros t1 T0 r k [[<- <-]|[_ Ht]]%lookup_insert_Some Hr Hk; [|by eapply wf_rows].
    apply list_elem_of_fmap in Hr as (r0 & -> & Hr0). destruct Hk as [v [Hne Hv]%lookup_delete_Some].
    apply Hn. split; [by eapply T4 | congruence].
  - intros i I [Hi Hne]%map_lookup_filter_Some. simpl in Hne.
    destruct (wf_indexes d Hwf i I Hi) as (T0 & H0 & Hsub).
    destruct (decide (t = index_table I)) as [Ht|Hdt].
    + exists T'. rewrite Ht, lookup_insert_eq. split; [done |]. intros x Hx. apply Hn.
      assert (T0 = T) as -> by congruence. split; [by apply Hsub |]. intros ->. naive_solver.
    + exists T0. by rewrite lookup_insert_ne.
  - intros m T0 Hm. apply map_lookup_filter_None. left.
    apply lookup_insert_Some in Hm as [[<- _]|[_ Hm]]; by eapply wf_name_space.
Qed.

End PgInvariant.

(** ** The instance *)

Module PgInstance.
Import Pg PgLaws PgInvariant.

Lemma wf_alter_column (t c : string) (nl : bool) (d d' : db) :
  wf d -> run_alter_column t c nl d = Some d' -> wf d'.
Proof.
  intros Hwf Hr. unfold run_alter_column in Hr. apply bind_Some in Hr as (T & HT & Hr).
  case_match; [|done]. simplify_eq. eapply wf_update_rows; [done | done | | | ].
  - unfold names. simpl. rewrite <- list_fmap_compose. apply list_fmap_ext. intros _ k _. simpl.
    unfold set_nullable. by case_match.
  - simpl. by left.
  - simpl. intros r k. by eapply wf_rows.
Qed.

Lemma wf_create_check (n t : string) (cond : condition) (d d' : db) :
  wf d -> run_create_check n t cond d = Some d' -> wf d'.
Proof.
  intros Hwf Hr. unfold run_create_check in Hr. apply bind_Some in Hr as (T & HT & Hr).
  case_match eqn:Hg; [|done]. simplify_eq. rewrite !andb_true_iff, bool_decide_eq_true in Hg.
  destruct Hg as [[Hg _] _]. eapply wf_update_rows; [done | done | done | | ]; simpl.
  - intros k [Hk| ->%list_elem_of_singleton]%elem_of_app; [by left | right].
    split; [|done]. simpl. intros x ->%list_elem_of_singleton. done.
  - intros r k. by eapply wf_rows.
Qed.

Lemma wf_drop_constraint (n t : string) (d d' : db) :
  wf d -> run_drop_constraint n t d = Some d' -> wf d'.
Proof.
  intros Hwf Hr. unfold run_drop_constraint in Hr. apply bind_Some in Hr as (T & HT & Hr).
  case_match; [|done]. simplify_eq. eapply wf_update_rows; [done | done | done | | ]; simpl.
  - intros k [_ Hk]%list_elem_of_filter. by left.
  - intros r k. by eapply wf_rows.
Qed.

Lemma insert_rows_keys (cols : list string) (vss : list (list (option string))) (rs : list row) (ns : list string) :
  "id"%string ∈ ns -> cols ⊆ ns ->
  (forall r c, r ∈ rs -> is_Some (r !! c) -> c ∈ ns) ->
  forall r c, r ∈ insert_rows cols vss rs -> is_Some (r !! c) -> c ∈ ns.
Proof.
  intros Hid Hcols. revert rs. induction vss as [|vs vss IH]; intros rs Hrs; simpl; [done |].
  apply IH. intros r c [Hr| ->%list_elem_of_singleton]%elem_of_app; [by apply Hrs |].
  intros [x [[<- _]|[_ Hx]]%lookup_insert_Some]; [done |]. apply Hcols.
  clear -Hx. revert vs Hx. induction cols as [|k cols IH]; intros vs Hx; simpl in Hx; [by rewrite lookup_empty in Hx |].
  destruct vs as [|[v|] vs]; simpl in Hx; [by rewrite lookup_empty in Hx | |].
  - apply lookup_insert_Some in Hx as [[<- _]|[_ Hx]]; [by left | right; by eapply IH].
  - right. by eapply IH.
Qed.

Lemma wf_statement (s : statement) (d d' : db) : wf d -> run_statement s d = Some d' -> wf d'.
Proof.
  intros Hwf Hr.
  assert (forall t T, tables d !! t = Some T -> forall r c, r ∈ rows T -> is_Some (r !! c) -> c ∈ names T) as Hrows.
  { intros t T HT r c. by eapply wf_rows. }
  destruct s as [t|t|t|t|p t u w|p t|t c v|i|t c|t c|i t cs|t cs vss|t c vs|e]; simpl in Hr.
  1-4, 6: eapply wf_update_table; [done | done |]; intros T T' HT Hf; simpl in Hf; repeat case_match; simplify_eq; eauto.
  - eapply wf_update_table; [done | done |]. intros T T' HT Hf. simpl in Hf. case_match; simplify_eq. eauto.
  - eapply wf_update_table; [done | done |]. intros T T' HT Hf. simpl in Hf. case_match eqn:Hc; [|done].
    apply bool_decide_eq_true in Hc. simplify_eq. split; [done | split; [done |]].
    simpl. intros r k (r0 & -> & Hr0)%list_elem_of_fmap Hk. destruct (r0 !! c) eqn:Hcol; [by eauto |].
    destruct Hk as [x [[<- _]|[_ Hx]]%lookup_insert_Some]; [done | eauto].
  - case_match; [by eapply wf_drop_index | by simplify_eq].
  - case_match; [by eapply wf_drop_column |].
    eapply wf_update_table; [done | done |]. intros T T' HT Hf. simplify_eq. eauto.
  - case_match; [by simplify_eq | by eapply wf_add_column].
  - case_match; [by simplify_eq | by eapply wf_create_index].
  - eapply wf_update_table; [done | done |]. intros T T' HT Hf. simpl in Hf. case_match eqn:Hc; [|done].
    apply andb_true_iff in Hc as [Hc%bool_decide_eq_true _]. simplify_eq. split; [done | split; [done |]].
    simpl. apply insert_rows_keys; [apply Hc; by left | intros x Hx; apply Hc; by right | by eauto].
  - eapply wf_update_table; [done | done |]. intros T T' HT Hf. simpl in Hf. case_match; [|done].
    simplify_eq. split; [done | split; [done |]]. simpl. intros r k Hin%list_elem_of_In.
    apply List.filter_In in Hin as [Hin%list_elem_of_In _]. by eauto.
  - simplify_eq. destruct Hwf. by split.
Qed.

Lemma pg_wf_run (o : op) (d d' : db) : wf d -> run_op o d = Some d' -> wf d'.
Proof.
  destruct o; simpl; eauto using wf_create_table, wf_drop_table, wf_create_index, wf_drop_index, wf_add_column,
    wf_drop_column, wf_alter_column, wf_create_check, wf_drop_constraint, wf_statement.
Qed.

(** *** Undoing *)

Lemma not_table_referenced (d : db) (n : string) :
  wf d -> tables d !! n = None -> table_referenced d n = false.
Proof.
  intros Hwf Hn. apply not_true_iff_false. unfold table_referenced. rewrite existsb_exists.
  intros ([t T] & HT%list_elem_of_In%elem_of_map_to_list & [_ Hk]%andb_true_iff).
  apply existsb_exists in Hk as (k & Hk%list_elem_of_In & Href).
  destruct (constraint_refers k) as [[rt rc]|] eqn:Hr; [|done]. apply String.eqb_eq in Href as ->.
  pose proof (wf_references d Hwf t T k _ HT Hk Hr) as (T0 & H0 & _)%has_column_spec. congruence.
Qed.

Lemma not_column_referenced (d : db) (r : string * string) :
  wf d -> has_column d r = false -> column_referenced d r = false.
Proof.
  intros Hwf Hn. apply not_true_iff_false. unfold column_referenced. rewrite existsb_exists.
  intros ([t T] & HT%list_elem_of_In%elem_of_map_to_list & Hk).
  apply existsb_exists in Hk as (k & Hk%list_elem_of_In & Href%bool_decide_eq_true).
  pose proof (wf_references d Hwf t T k _ HT Hk Href). congruence.
Qed.

Lemma undo_create_table (n : string) (cs : list column) (ks : list constraint_) (d d' : db) :
  wf d -> run_create_table n cs ks d = Some d' -> run_drop_table n d' = Some d.
Proof.
  intros Hwf Hr. unfold run_create_table in Hr. case_match eqn:Hg; [|done]. simplify_eq.
  rewrite !andb_true_iff, negb_true_iff, relation_exists_false in Hg. destruct Hg as [[[[Ht Hi] _] _] _].
  unfold run_drop_table. simpl. rewrite lookup_insert_eq.
  assert (table_referenced (set_table n (Table cs ks false false ∅ []) d) n = false) as ->.
  { apply not_true_iff_false. unfold table_referenced. rewrite existsb_exists.
    intros ([t T] & HT%list_elem_of_In%elem_of_map_to_list & [Hne%negb_true_iff%String.eqb_neq Hk]%andb_true_iff).
    apply set_table_lookup in HT as [[? _]|[_ HT]]; [congruence |].
    pose proof (not_table_referenced d n Hwf Ht) as Hf. apply not_true_iff_false in Hf. apply Hf.
    apply existsb_exists. exists (t, T). split; [by apply list_elem_of_In, elem_of_map_to_list |].
    apply andb_true_iff. split; [by apply negb_true_iff, String.eqb_neq | done]. }
  rewrite bool_decide_eq_true_2 by eauto. simpl. f_equal. destruct d as [ts ixs es]; simpl in *. f_equal.
  - by rewrite delete_insert_id.
  - apply map_filter_id. intros i I HI. simpl.
    destruct (wf_indexes _ Hwf i I HI) as (T & HT & _). simpl in HT. congruence.
Qed.

Lemma undo_create_index (n t : string) (cs : list string) (u : bool) (w : option string) (d d' : db) :
  run_create_index n t cs u w d = Some d' -> run_drop_index n d' = Some d.
Proof.
  intros Hr. unfold run_create_index in Hr. apply bind_Some in Hr as (T & HT & Hr).
  case_match eqn:Hg; [|done]. simplify_eq.
  rewrite !andb_true_iff, negb_true_iff, relation_exists_false in Hg. destruct Hg as [[[_ Hi] _] _].
  unfold run_drop_index. simpl. rewrite lookup_insert_eq, bool_decide_eq_true_2 by eauto.
  f_equal. destruct d; unfold with_indexes; simpl in *. by rewrite delete_insert_id.
Qed.

Lemma filter_all {A} (P : A -> Prop) `{forall x, Decision (P x)} (l : list A) :
  (forall x, x ∈ l -> P x) -> filter P l = l.
Proof.
  induction l as [|x l IH]; intros Hl; [done |]. rewrite filter_cons_True by (apply Hl; by left).
  f_equal. apply IH. intros y Hy. apply Hl. by right.
Qed.

Lemma delete_rows_id (c : string) (f : row -> row) (T : table) :
  (forall r, r ∈ rows T -> r !! c = None) -> (forall r, r !! c = None -> delete c (f r) = r) ->
  delete c <$> (f <$> rows T) = rows T.
Proof.
  intros Hn Hf. rewrite <- list_fmap_compose. rewrite <- (list_fmap_id (rows T)) at 2.
  apply list_fmap_ext. intros i r Hr. simpl. apply Hf, Hn. by eapply list_elem_of_lookup_2.
Qed.

Lemma undo_append_column (t : string) (c : column) (f : row -> row) (T : table) (d : db) :
  wf d -> tables d !! t = Some T -> column_name c ∉ names T ->
  (forall r, r !! column_name c = None -> delete (column_name c) (f r) = r) ->
  run_drop_column t (column_name c)
    (set_table t (with_rows (fmap f) (with_columns (fun cs => cs ++ [c]) T)) d) = Some d.
Proof.
  intros Hwf HT Hc Hf. destruct (wf_table d t T Hwf HT) as [T1 T2 T3 T4].
  unfold run_drop_column. simpl. rewrite lookup_insert_eq. simpl.
  rewrite bool_decide_eq_true_2; [| unfold names; simpl; rewrite fmap_app; apply elem_of_app; right; by left].
  assert (has_column d (t, column_name c) = false) as Hno.
  { apply not_true_iff_false. intros (T0 & H0 & Hin)%has_column_spec. by simplify_eq. }
  assert (column_referenced (set_table t (with_rows (fmap f) (with_columns (fun cs => cs ++ [c]) T)) d) (t, column_name c) = false) as ->.
  { apply not_true_iff_false. unfold column_referenced. rewrite existsb_exists.
    intros ([t' T'] & HT'%list_elem_of_In%elem_of_map_to_list & Hk).
    pose proof (not_column_referenced d _ Hwf Hno) as Hno'. apply not_true_iff_false in Hno'. apply Hno'.
    apply existsb_exists. apply set_table_lookup in HT' as [[<- <-]|[_ HT']].
    - exists (t, T). split; [by apply list_elem_of_In, elem_of_map_to_list | done].
    - exists (t', T'). split; [by apply list_elem_of_In, elem_of_map_to_list | done]. }
  simpl. f_equal. destruct d as [ts ixs es]; simpl in *. f_equal.
  - rewrite insert_insert_eq. apply insert_id. rewrite HT. f_equal. destruct T as [cs ks on fo ps rs]. simpl in *. f_equal.
    + rewrite filter_app, (filter_all _ cs).
      * rewrite filter_cons_False by (intros Hn; by apply Hn). by rewrite app_nil_r.
      * intros k Hk Heq. apply Hc. rewrite <- Heq. by apply list_elem_of_fmap_2.
    + symmetry. apply filter_all. intros k Hk Hin. apply Hc. by eapply T2.
    + symmetry. apply (delete_rows_id _ f (Table cs ks on fo ps rs)); [|done].
      simpl. intros r Hr. apply eq_None_not_Some. intros Hs. apply Hc. by eapply T4.
  - apply map_filter_id. intros i I HI [Ht Hin]. simpl in *.
    destruct (wf_indexes _ Hwf i I HI) as (T0 & H0 & Hsub). simpl in H0. simplify_eq. apply Hc. by apply Hsub.
Qed.

Lemma undo_add_column (t : string) (c : column) (d d' : db) :
  wf d -> run_add_column t c d = Some d' -> run_drop_column t (column_name c) d' = Some d.
Proof.
  intros Hwf Hr. unfold run_add_column in Hr. apply bind_Some in Hr as (T & HT & Hr).
  case_match eqn:Hg; [|done]. apply andb_true_iff in Hg as [Hg%bool_decide_eq_true _].
  destruct (server_default c) as [v|].
  - simplify_eq. apply undo_append_column; [done.. |]. intros r Hr. by apply delete_insert_id.
  - case_match; [|done]. simplify_eq. rewrite <- (with_rows_id (with_columns _ T)).
    pose proof (undo_append_column t c (fun r => r) T d Hwf HT Hg) as Hu.
    unfold with_rows in *. simpl in *. rewrite list_fmap_id in Hu. apply Hu. intros r Hr. by apply delete_id.
Qed.

Lemma undo_create_check (n t : string) (cond : condition) (d d' : db) :
  run_create_check n t cond d = Some d' -> run_drop_constraint n t d' = Some d.
Proof.
  intros Hr. unfold run_create_check in Hr. apply bind_Some in Hr as (T & HT & Hr).
  case_match eqn:Hg; [|done]. simplify_eq. rewrite !andb_true_iff, forallb_forall in Hg. destruct Hg as [[_ Hn] _].
  unfold run_drop_constraint. simpl. rewrite lookup_insert_eq. simpl. rewrite existsb_app. simpl.
  rewrite bool_decide_eq_true_2 by done. rewrite orb_true_r. f_equal.
  destruct d as [ts ixs es]; unfold set_table, with_tables; simpl in *. f_equal.
  rewrite insert_insert_eq. apply insert_id. rewrite HT. f_equal. destruct T as [cs ks on fo ps rs].
  unfold with_constraints. simpl in *. f_equal. rewrite filter_app, (filter_all _ ks).
  - rewrite filter_cons_False by (intros Hne; by apply Hne). by rewrite app_nil_r.
  - intros k Hk%list_elem_of_In. specialize (Hn k Hk). by apply negb_true_iff, bool_decide_eq_false in Hn.
Qed.

#[export] Instance pg : Catalogue db := {| run := run_op; well_formed := wf |}.

#[export] Instance pg_laws : CatalogueLaws db.
Proof.
  split; [exact pg_wf_run |].
  intros o o' d d' Hwf Hu Hr. simpl in *. destruct o; simpl in *; simplify_eq; simpl;
    eauto using undo_create_table, undo_create_index, undo_add_column, undo_create_check.
Qed.

End PgInstance.
