(* ===== verification/Migrations.v ===== *)
(** * The database migrations

    [alembic/versions/]: the sixteen revisions of the ingestor's database and, at the
    end, the one of the inference service's ([services/inference/alembic/versions/]).
    Each has a Module with its identifiers and the operations of its [upgrade] and
    [downgrade], in order; SQL text is a [statement] of [Catalogue.v].

    Module [History] follows [down_revision] from the head to the base, as alembic does
    when it plans a command, and runs the operations.  What alembic does besides (the
    version table, its command line) is in [SchemaDrift.v] as far as the repository
    relies on it. *)

From S2P Require Import Prelude Catalogue.
Import Ddl.

(** alembic/versions/c64a98702ec4_initial_schema.py: initial_schema. *)
Module Rev_c64a98702ec4.

Definition revision : string := "c64a98702ec4".
Definition down_revision : option string := None.

Definition upgrade_abuse_signals : list op :=
  [create_table "abuse_signals"
      [Column_ "id" Integer false;
       Column_ "signal_type" (String_ 64) false;
       Column_ "actor_type" (String_ 32) false;
       Column_ "actor_id" (String_ 255) false;
       Column_ "severity" (String_ 16) false;
       Column_ "detection_rule" (String_ 64) false;
       Column_ "evidence" JSON false;
       Column_ "action_taken" (String_ 32) false;
       Column_ "tenant_id" Integer true;
       Column_ "ip_address" (String_ 64) true;
       Column_ "resolved_at" DateTime true;
       Column_ "resolved_by" (String_ 128) true;
       Column_ "notes" (String_ 1024) true;
       Column_ "created_at" DateTime false;
       Column_ "updated_at" DateTime true;
       Column_ "deleted_at" DateTime true]
      [PrimaryKeyConstraint ["id"]];
   create_index "ix_abuse_signals_actor" "abuse_signals" ["actor_type"; "actor_id"] false None;
   create_index "ix_abuse_signals_resolved_at" "abuse_signals" ["resolved_at"] false None;
   create_index "ix_abuse_signals_severity" "abuse_signals" ["severity"] false None;
   create_index "ix_abuse_signals_signal_type" "abuse_signals" ["signal_type"] false None;
   create_index "ix_abuse_signals_tenant_id" "abuse_signals" ["tenant_id"] false None].

Definition upgrade_api_keys : list op :=
  [create_table "api_keys"
      [Column_ "id" Integer false;
       Column_ "name" (String_ 255) false;
       Column_ "key_prefix" (String_ 16) false;
       Column_ "key_hash" (String_ 64) false;
       Column_ "tenant_id" Integer true;
       Column_ "scopes" JSON false;
       Column_ "is_active" Boolean false;
       Column_ "expires_at" DateTime true;
       Column_ "last_used_at" DateTime true;
       Column_ "created_at" DateTime false;
       Column_ "updated_at" DateTime true;
       Column_ "deleted_at" DateTime true]
      [PrimaryKeyConstraint ["id"]];
   create_index "ix_api_keys_is_active" "api_keys" ["is_active"] false None;
   create_index "ix_api_keys_prefix" "api_keys" ["key_prefix"] false None;
   create_index "ix_api_keys_tenant_id" "api_keys" ["tenant_id"] false None].

Definition upgrade_contract_snapshots : list op :=
  [create_table "contract_snapshots"
      [Column_ "id" Integer false;
       Column_ "source_id" Integer false;
       Column_ "schema_version" (String_ 64) true;
       Column_ "payload_schema" JSON false;
       Column_ "schema_fingerprint" (String_ 64) false;
       Column_ "compatibility_score" Float false;
       Column_ "snapshot_note" (String_ 512) true;
       Column_ "created_at" DateTime false;
       Column_ "updated_at" DateTime true;
       Column_ "deleted_at" DateTime true]
      [PrimaryKeyConstraint ["id"]];
   create_index "ix_contract_snapshots_fingerprint" "contract_snapshots" ["schema_fingerprint"] false None;
   create_index "ix_contract_snapshots_source_id" "contract_snapshots" ["source_id"] false None].

Definition upgrade_drift_events : list op :=
  [create_table "drift_events"
      [Column_ "id" Integer false;
       Column_ "source_id" Integer false;
       Column_ "previous_snapshot_id" Integer false;
       Column_ "current_snapshot_id" Integer false;
       Column_ "event_type" (String_ 32) false;
       Column_ "severity" (String_ 32) false;
       Column_ "added_fields" JSON false;
       Column_ "removed_fields" JSON false;
       Column_ "type_changed_fields" JSON false;
       Column_ "compatibility_score" Float false;
       Column_ "summary" (String_ 1024) true;
       Column_ "created_at" DateTime false;
       Column_ "updated_at" DateTime true;
       Column_ "deleted_at" DateTime true]
      [PrimaryKeyConstraint ["id"]];
   create_index "ix_drift_events_current_snapshot_id" "drift_events" ["current_snapshot_id"] false None;
   create_index "ix_drift_events_event_type" "drift_events" ["event_type"] false None;
   create_index "ix_drift_events_severity" "drift_events" ["severity"] false None;
   create_index "ix_drift_events_source_id" "drift_events" ["source_id"] false None].

Definition upgrade_inbox_consumptions : list op :=
  [create_table "inbox_consumptions"
      [Column_ "id" Integer false;
       Column_ "consumer_name" (String_ 128) false;
       Column_ "message_id" (String_ 255) false;
       Column_ "event_type" (String_ 128) false;
       Column_ "payload" JSON false;
       Column_ "processed_at" DateTime false;
       Column_ "created_at" DateTime false;
       Column_ "updated_at" DateTime true;
       Column_ "deleted_at" DateTime true]
      [PrimaryKeyConstraint ["id"];
       UniqueConstraint ["consumer_name"; "message_id"] "uq_inbox_consumptions_consumer_message"];
   create_index "ix_inbox_consumptions_consumer_name" "inbox_consumptions" ["consumer_name"] false None;
   create_index "ix_inbox_consumptions_processed_at" "inbox_consumptions" ["processed_at"] false None].

Definition upgrade_observations : list op :=
  [create_table "observations"
      [Column_ "id" Integer false;
       Column_ "source" (String_ 255) false;
       Column_ "timestamp" DateTime false;
       Column_ "raw_data" JSON false;
       Column_ "tags" JSON false;
       Column_ "processed" Boolean false;
       Column_ "processed_at" DateTime true;
       Column_ "tenant_id" Integer true;
       Column_ "created_at" DateTime false;
       Column_ "updated_at" DateTime true;
       Column_ "deleted_at" DateTime true]
      [PrimaryKeyConstraint ["id"];
       UniqueConstraint ["source"; "timestamp"] "uq_observations_source_timestamp"];
   create_index "ix_observations_active_source" "observations" ["source"] false (Some "deleted_at IS NULL");
   create_index "ix_observations_processed" "observations" ["processed"] false None;
   create_index "ix_observations_timestamp" "observations" ["timestamp"] false None].

Definition upgrade_outbox_events : list op :=
  [create_table "outbox_events"
      [Column_ "id" Integer false;
       Column_ "aggregate_type" (String_ 64) false;
       Column_ "aggregate_id" (String_ 128) false;
       Column_ "event_type" (String_ 128) false;
       Column_ "payload" JSON false;
       Column_ "idempotency_key" (String_ 255) false;
       Column_ "tenant_id" Integer true;
       Column_ "published_at" DateTime true;
       Column_ "publish_attempts" Integer false;
       Column_ "last_error" (String_ 512) true;
       Column_ "created_at" DateTime false;
       Column_ "updated_at" DateTime true;
       Column_ "deleted_at" DateTime true]
      [PrimaryKeyConstraint ["id"]];
   create_index "ix_outbox_events_aggregate" "outbox_events" ["aggregate_type"; "aggregate_id"] false None;
   create_index "ix_outbox_events_idempotency_key" "outbox_events" ["idempotency_key"] true None;
   create_index "ix_outbox_events_published_at" "outbox_events" ["published_at"] false None;
   create_index "ix_outbox_events_tenant_id" "outbox_events" ["tenant_id"] false None].

Definition upgrade_processed_events : list op :=
  [create_table "processed_events"
      [Column_ "id" Integer false;
       Column_ "kafka_topic" (String_ 255) false;
       Column_ "kafka_partition" Integer false;
       Column_ "kafka_offset" Integer false;
       Column_ "idempotency_key" (String_ 255) false;
       Column_ "event_type" (String_ 100) false;
       Column_ "payload" JSON false;
       Column_ "status" (String_ 50) false;
       Column_ "processing_attempts" Integer false;
       Column_ "error_message" (String_ 500) true;
       Column_ "error_details" JSON true;
       Column_ "dead_letter_queue" Boolean false;
       Column_ "dlq_reason" (String_ 500) true;
       Column_ "processed_at" DateTime true;
       Column_ "created_at" DateTime false;
       Column_ "updated_at" DateTime true;
       Column_ "deleted_at" DateTime true]
      [PrimaryKeyConstraint ["id"]];
   create_index "ix_events_dead_letter_queue" "processed_events" ["dead_letter_queue"] false None;
   create_index "ix_events_idempotency_key" "processed_events" ["idempotency_key"] true None;
   create_index "ix_events_kafka_offset" "processed_events" ["kafka_offset"] false None;
   create_index "ix_events_status" "processed_events" ["status"] false None].

Definition upgrade_provider_health_samples : list op :=
  [create_table "provider_health_samples"
      [Column_ "id" Integer false;
       Column_ "source_id" Integer false;
       Column_ "sampled_at" DateTime false;
       Column_ "latency_ms" Float false;
       Column_ "is_success" Boolean false;
       Column_ "http_status" Integer true;
       Column_ "response_body_hash" (String_ 64) true;
       Column_ "error_message" (String_ 512) true;
       Column_ "region" (String_ 64) true;
       Column_ "tenant_id" Integer true;
       Column_ "created_at" DateTime false;
       Column_ "updated_at" DateTime true;
       Column_ "deleted_at" DateTime true]
      [PrimaryKeyConstraint ["id"]];
   create_index "ix_phs_sampled_at" "provider_health_samples" ["sampled_at"] false None;
   create_index "ix_phs_source_id" "provider_health_samples" ["source_id"] false None;
   create_index "ix_phs_source_sampled" "provider_health_samples" ["source_id"; "sampled_at"] false None;
   create_index "ix_phs_tenant_id" "provider_health_samples" ["tenant_id"] false None].

Definition upgrade_security_audit_events : list op :=
  [create_table "security_audit_events"
      [Column_ "id" Integer false;
       Column_ "event_type" (String_ 100) false;
       Column_ "action" (String_ 100) false;
       Column_ "decision" (String_ 32) false;
       Column_ "reason" (String_ 512) true;
       Column_ "actor_type" (String_ 64) false;
       Column_ "actor_id" (String_ 128) true;
       Column_ "tenant_id" Integer true;
       Column_ "resource_type" (String_ 64) true;
       Column_ "resource_id" (String_ 128) true;
       Column_ "correlation_id" (String_ 128) true;
       Column_ "ip_address" (String_ 64) true;
       Column_ "user_agent" (String_ 256) true;
       Column_ "metadata_json" JSON false;
       Column_ "prev_event_hash" (String_ 64) true;
       Column_ "event_hash" (String_ 64) false;
       Column_ "created_at" DateTime false]
      [PrimaryKeyConstraint ["id"]];
   create_index "ix_security_audit_events_actor_id" "security_audit_events" ["actor_id"] false None;
   create_index "ix_security_audit_events_actor_type" "security_audit_events" ["actor_type"] false None;
   create_index "ix_security_audit_events_created_at" "security_audit_events" ["created_at"] false None;
   create_index "ix_security_audit_events_event_type" "security_audit_events" ["event_type"] false None;
   create_index "ix_security_audit_events_tenant_id" "security_audit_events" ["tenant_id"] false None].

Definition upgrade_source_profiles : list op :=
  [create_table "source_profiles"
      [Column_ "id" Integer false;
       Column_ "name" (String_ 255) false;
       Column_ "base_url" (String_ 2048) false;
       Column_ "health_check_path" (String_ 255) false;
       Column_ "probe_interval_seconds" Integer false;
       Column_ "is_active" Boolean false;
       Column_ "created_at" DateTime false;
       Column_ "updated_at" DateTime true;
       Column_ "deleted_at" DateTime true]
      [PrimaryKeyConstraint ["id"]];
   create_index "ix_source_profiles_active" "source_profiles" ["is_active"] false (Some "is_active = true");
   create_index "ix_source_profiles_name" "source_profiles" ["name"] true None].

Definition upgrade_user_tenants : list op :=
  [create_table "user_tenants"
      [Column_ "id" Integer false;
       Column_ "user_id" Integer false;
       Column_ "tenant_id" Integer false;
       Column_ "created_at" DateTime false;
       Column_ "updated_at" DateTime true;
       Column_ "deleted_at" DateTime true]
      [PrimaryKeyConstraint ["id"];
       UniqueConstraint ["user_id"; "tenant_id"] "uq_user_tenant"];
   create_index "ix_user_tenants_tenant_id" "user_tenants" ["tenant_id"] false None;
   create_index "ix_user_tenants_user_id" "user_tenants" ["user_id"] false None].

Definition upgrade_users : list op :=
  [create_table "users"
      [Column_ "id" Integer false;
       Column_ "username" (String_ 64) false;
       Column_ "email" (String_ 255) false;
       Column_ "password_hash" (String_ 255) false;
       Column_ "role" (String_ 32) false;
       Column_ "is_active" Boolean false;
       Column_ "tenant_id" Integer true;
       Column_ "created_at" DateTime false;
       Column_ "updated_at" DateTime true;
       Column_ "deleted_at" DateTime true]
      [PrimaryKeyConstraint ["id"]];
   create_index "ix_users_email" "users" ["email"] true None;
   create_index "ix_users_role" "users" ["role"] false None;
   create_index "ix_users_username" "users" ["username"] true None].

Definition upgrade : list op :=
  upgrade_abuse_signals ++ upgrade_api_keys ++ upgrade_contract_snapshots ++ upgrade_drift_events ++ upgrade_inbox_consumptions ++ upgrade_observations ++ upgrade_outbox_events ++ upgrade_processed_events ++ upgrade_provider_health_samples ++ upgrade_security_audit_events ++ upgrade_source_profiles ++ upgrade_user_tenants ++ upgrade_users.

Definition downgrade : list op :=
  [drop_index "ix_users_username" "users";
   drop_index "ix_users_role" "users";
   drop_index "ix_users_email" "users";
   drop_table "users";
   drop_index "ix_user_tenants_user_id" "user_tenants";
   drop_index "ix_user_tenants_tenant_id" "user_tenants";
   drop_table "user_tenants";
   drop_index "ix_source_profiles_name" "source_profiles";
   drop_index "ix_source_profiles_active" "source_profiles";
   drop_table "source_profiles";
   drop_index "ix_security_audit_events_tenant_id" "security_audit_events";
   drop_index "ix_security_audit_events_event_type" "security_audit_events";
   drop_index "ix_security_audit_events_created_at" "security_audit_events";
   drop_index "ix_security_audit_events_actor_type" "security_audit_events";
   drop_index "ix_security_audit_events_actor_id" "security_audit_events";
   drop_table "security_audit_events";
   drop_index "ix_phs_tenant_id" "provider_health_samples";
   drop_index "ix_phs_source_sampled" "provider_health_samples";
   drop_index "ix_phs_source_id" "provider_health_samples";
   drop_index "ix_phs_sampled_at" "provider_health_samples";
   drop_table "provider_health_samples";
   drop_index "ix_events_status" "processed_events";
   drop_index "ix_events_kafka_offset" "processed_events";
   drop_index "ix_events_idempotency_key" "processed_events";
   drop_index "ix_events_dead_letter_queue" "processed_events";
   drop_table "processed_events";
   drop_index "ix_outbox_events_tenant_id" "outbox_events";
   drop_index "ix_outbox_events_published_at" "outbox_events";
   drop_index "ix_outbox_events_idempotency_key" "outbox_events";
   drop_index "ix_outbox_events_aggregate" "outbox_events";
   drop_table "outbox_events";
   drop_index "ix_observations_timestamp" "observations";
   drop_index "ix_observations_processed" "observations";
   drop_index "ix_observations_active_source" "observations";
   drop_table "observations";
   drop_index "ix_inbox_consumptions_processed_at" "inbox_consumptions";
   drop_index "ix_inbox_consumptions_consumer_name" "inbox_consumptions";
   drop_table "inbox_consumptions";
   drop_index "ix_drift_events_source_id" "drift_events";
   drop_index "ix_drift_events_severity" "drift_events";
   drop_index "ix_drift_events_event_type" "drift_events";
   drop_index "ix_drift_events_current_snapshot_id" "drift_events";
   drop_table "drift_events";
   drop_index "ix_contract_snapshots_source_id" "contract_snapshots";
   drop_index "ix_contract_snapshots_fingerprint" "contract_snapshots";
   drop_table "contract_snapshots";
   drop_index "ix_api_keys_tenant_id" "api_keys";
   drop_index "ix_api_keys_prefix" "api_keys";
   drop_index "ix_api_keys_is_active" "api_keys";
   drop_table "api_keys";
   drop_index "ix_abuse_signals_tenant_id" "abuse_signals";
   drop_index "ix_abuse_signals_signal_type" "abuse_signals";
   drop_index "ix_abuse_signals_severity" "abuse_signals";
   drop_index "ix_abuse_signals_resolved_at" "abuse_signals";
   drop_index "ix_abuse_signals_actor" "abuse_signals";
   drop_table "abuse_signals"].

End Rev_c64a98702ec4.

(** alembic/versions/1088e092eac2_add_agent_run_table.py: add_agent_run_table. *)
Module Rev_1088e092eac2.

Definition revision : string := "1088e092eac2".
Definition down_revision : option string := Some "c64a98702ec4".

Definition upgrade : list op :=
  [create_table "agent_runs"
      [Column_ "id" Integer false;
       Column_ "observation_id" Integer false;
       Column_ "status" (String_ 32) false;
       Column_ "root_cause_hypothesis" (String_ 2048) true;
       Column_ "severity_assessment" (String_ 32) true;
       Column_ "recommended_action" (String_ 2048) true;
       Column_ "confidence_score" Float true;
       Column_ "reviewer_user_id" Integer true;
       Column_ "reviewed_at" DateTime true;
       Column_ "created_at" DateTime false;
       Column_ "updated_at" DateTime true;
       Column_ "deleted_at" DateTime true]
      [PrimaryKeyConstraint ["id"]];
   create_index "ix_agent_runs_observation_id" "agent_runs" ["observation_id"] false None;
   create_index "ix_agent_runs_status" "agent_runs" ["status"] false None].

Definition downgrade : list op :=
  [drop_index "ix_agent_runs_status" "agent_runs";
   drop_index "ix_agent_runs_observation_id" "agent_runs";
   drop_table "agent_runs"].

End Rev_1088e092eac2.

(** alembic/versions/a3c67d58f9fa_add_observations_archive.py: add_observations_archive. *)
Module Rev_a3c67d58f9fa.

Definition revision : string := "a3c67d58f9fa".
Definition down_revision : option string := Some "1088e092eac2".

Definition upgrade : list op :=
  [create_table "observations_archive"
      [Column_ "id" Integer false;
       Column_ "source" (String_ 255) false;
       Column_ "timestamp" DateTime false;
       Column_ "raw_data" JSON false;
       Column_ "tags" JSON false;
       Column_ "processed" Boolean false;
       Column_ "processed_at" DateTime true;
       Column_ "tenant_id" Integer true;
       Column_ "created_at" DateTime false;
       Column_ "updated_at" DateTime true;
       Column_ "deleted_at" DateTime true;
       Column_ "archived_at" DateTime false]
      [PrimaryKeyConstraint ["id"]];
   create_index "ix_observations_archive_timestamp" "observations_archive" ["timestamp"] false None;
   create_index "ix_observations_archive_archived_at" "observations_archive" ["archived_at"] false None;
   create_index "ix_observations_archive_tenant_id" "observations_archive" ["tenant_id"] false None].

Definition downgrade : list op :=
  [drop_index "ix_observations_archive_tenant_id" "observations_archive";
   drop_index "ix_observations_archive_archived_at" "observations_archive";
   drop_index "ix_observations_archive_timestamp" "observations_archive";
   drop_table "observations_archive"].

End Rev_a3c67d58f9fa.

(** alembic/versions/e60d14dbfebd_enable_observations_rls.py: Add opt-in tenant RLS policy for observations. *)
Module Rev_e60d14dbfebd.

Definition TENANT_POLICY : string := "
  current_setting('app.rls_enabled', true) IS DISTINCT FROM 'true'
  OR tenant_id IS NULL
  OR tenant_id = NULLIF(current_setting('app.tenant_id', true), '')::integer
".

Definition revision : string := "e60d14dbfebd".
Definition down_revision : option string := Some "a3c67d58f9fa".

Definition upgrade : list op :=
  [execute (ENABLE_ROW_LEVEL_SECURITY "observations");
   execute (FORCE_ROW_LEVEL_SECURITY "observations");
   execute (CREATE_POLICY "observations_tenant_isolation" "observations" TENANT_POLICY TENANT_POLICY)].

Definition downgrade : list op :=
  [execute (DROP_POLICY "observations_tenant_isolation" "observations");
   execute (NO_FORCE_ROW_LEVEL_SECURITY "observations");
   execute (DISABLE_ROW_LEVEL_SECURITY "observations")].

End Rev_e60d14dbfebd.

(** alembic/versions/c61518e0a57e_add_dependency_incidents.py: add dependency incident lifecycle. *)
Module Rev_c61518e0a57e.

Definition revision : string := "c61518e0a57e".
Definition down_revision : option string := Some "e60d14dbfebd".

Definition upgrade : list op :=
  [add_column "source_profiles" (Column_ "tenant_id" Integer true);
   add_column "source_profiles" (Column_ "latency_threshold_ms" Float true);
   add_column "source_profiles" (Column_default "incident_failure_threshold" Integer "2" false);
   add_column "source_profiles" (Column_default "incident_cooldown_seconds" Integer "900" false);
   create_index "ix_source_profiles_tenant_id" "source_profiles" ["tenant_id"] false None;
   create_table "dependency_incidents"
      [Column_ "id" Integer false;
       Column_ "source_id" Integer false;
       Column_ "tenant_id" Integer true;
       Column_ "trigger_type" (String_ 32) false;
       Column_ "fingerprint" (String_ 255) false;
       Column_ "active_key" (String_ 255) true;
       Column_ "status" (String_ 32) false;
       Column_ "severity" (String_ 32) false;
       Column_ "summary" (String_ 1024) false;
       Column_ "guidance" (String_ 2048) false;
       Column_ "trigger_details" JSON false;
       Column_ "occurrence_count" Integer false;
       Column_ "first_seen_at" DateTime false;
       Column_ "last_seen_at" DateTime false;
       Column_ "acknowledged_at" DateTime true;
       Column_ "acknowledged_by" (String_ 128) true;
       Column_ "resolved_at" DateTime true;
       Column_ "resolved_by" (String_ 128) true;
       Column_ "last_notification_at" DateTime true;
       Column_ "created_at" DateTime false;
       Column_ "updated_at" DateTime true;
       Column_ "deleted_at" DateTime true]
      [CheckConstraint (In_ "status" ["open"; "acknowledged"; "resolved"]) "ck_dependency_incidents_status";
       CheckConstraint (In_ "trigger_type" ["availability"; "latency"; "drift"]) "ck_dependency_incidents_trigger_type";
       PrimaryKeyConstraint ["id"]];
   create_index "ix_dependency_incidents_active_key" "dependency_incidents" ["active_key"] true None;
   create_index "ix_dependency_incidents_last_seen_at" "dependency_incidents" ["last_seen_at"] false None;
   create_index "ix_dependency_incidents_source_status" "dependency_incidents" ["source_id"; "status"] false None;
   create_index "ix_dependency_incidents_tenant_status" "dependency_incidents" ["tenant_id"; "status"] false None].

Definition downgrade : list op :=
  [drop_index "ix_dependency_incidents_tenant_status" "dependency_incidents";
   drop_index "ix_dependency_incidents_source_status" "dependency_incidents";
   drop_index "ix_dependency_incidents_last_seen_at" "dependency_incidents";
   drop_index "ix_dependency_incidents_active_key" "dependency_incidents";
   drop_table "dependency_incidents";
   drop_index "ix_source_profiles_tenant_id" "source_profiles";
   drop_column "source_profiles" "incident_cooldown_seconds";
   drop_column "source_profiles" "incident_failure_threshold";
   drop_column "source_profiles" "latency_threshold_ms";
   drop_column "source_profiles" "tenant_id"].

End Rev_c61518e0a57e.

(** alembic/versions/b771ac41bc8f_add_contract_baselines.py: add versioned accepted contract baselines. *)
Module Rev_b771ac41bc8f.

Definition revision : string := "b771ac41bc8f".
Definition down_revision : option string := Some "c61518e0a57e".

Definition upgrade : list op :=
  [create_table "contract_baselines"
      [Column_ "id" Integer false;
       Column_ "source_id" Integer false;
       Column_ "tenant_id" Integer true;
       Column_ "baseline_snapshot_id" Integer false;
       Column_ "promoted_from_baseline_id" Integer true;
       Column_ "version" Integer false;
       Column_ "status" (String_ 32) false;
       Column_ "active_key" (String_ 128) true;
       Column_ "accepted_by" (String_ 128) false;
       Column_ "accepted_at" DateTime false;
       Column_ "acceptance_note" (String_ 512) true;
       Column_ "superseded_at" DateTime true;
       Column_ "candidate_snapshot_id" Integer true;
       Column_ "candidate_schema_fingerprint" (String_ 64) true;
       Column_default "candidate_observation_count" Integer "0" false;
       Column_ "candidate_drift_event_id" Integer true;
       Column_ "candidate_first_seen_at" DateTime true;
       Column_ "candidate_last_seen_at" DateTime true;
       Column_ "created_at" DateTime false;
       Column_ "updated_at" DateTime true;
       Column_ "deleted_at" DateTime true]
      [CheckConstraint (In_ "status" ["active"; "superseded"]) "ck_contract_baselines_status";
       PrimaryKeyConstraint ["id"];
       UniqueConstraint ["source_id"; "version"] "uq_contract_baselines_source_version"];
   create_index "ix_contract_baselines_active_key" "contract_baselines" ["active_key"] true None;
   create_index "ix_contract_baselines_baseline_snapshot" "contract_baselines" ["baseline_snapshot_id"] false None;
   create_index "ix_contract_baselines_source_status" "contract_baselines" ["source_id"; "status"] false None;
   create_index "ix_contract_baselines_tenant_status" "contract_baselines" ["tenant_id"; "status"] false None].

Definition downgrade : list op :=
  [drop_index "ix_contract_baselines_tenant_status" "contract_baselines";
   drop_index "ix_contract_baselines_source_status" "contract_baselines";
   drop_index "ix_contract_baselines_baseline_snapshot" "contract_baselines";
   drop_index "ix_contract_baselines_active_key" "contract_baselines";
   drop_table "contract_baselines"].

End Rev_b771ac41bc8f.

(** alembic/versions/cced5946142f_add_notification_delivery_foundation.py: add durable notification delivery foundation. *)
Module Rev_cced5946142f.

Definition revision : string := "cced5946142f".
Definition down_revision : option string := Some "b771ac41bc8f".

Definition upgrade : list op :=
  [add_column "outbox_events" (Column_ "next_attempt_at" DateTime true);
   add_column "outbox_events" (Column_ "lease_expires_at" DateTime true);
   add_column "outbox_events" (Column_ "claim_token" (String_ 36) true);
   create_index "ix_outbox_events_publish_due" "outbox_events" ["published_at"; "next_attempt_at"; "lease_expires_at"] false None;
   add_column "inbox_consumptions" (Column_default "status" (String_ 32) "completed" false);
   add_column "inbox_consumptions" (Column_ "lease_expires_at" DateTime true);
   add_column "inbox_consumptions" (Column_ "last_error_category" (String_ 32) true);
   add_column "inbox_consumptions" (Column_ "last_error_code" (String_ 64) true);
   add_column "inbox_consumptions" (Column_ "last_error_detail" (String_ 512) true);
   alter_column "inbox_consumptions" "processed_at" true;
   create_check_constraint "ck_inbox_consumptions_status" "inbox_consumptions"
      (In_ "status" ["processing"; "completed"; "completed_with_dead_letters"; "dead_letter"]);
   create_index "ix_inbox_consumptions_claim" "inbox_consumptions" ["status"; "lease_expires_at"] false None;
   create_table "notification_deliveries"
      [Column_ "id" Integer false;
       Column_ "inbox_consumption_id" Integer false;
       Column_ "message_id" (String_ 255) false;
       Column_ "incident_id" Integer false;
       Column_ "source_id" Integer false;
       Column_ "tenant_id" Integer true;
       Column_ "event_type" (String_ 128) false;
       Column_ "severity" (String_ 32) false;
       Column_ "channel" (String_ 32) false;
       Column_default "status" (String_ 32) "pending" false;
       Column_default "attempt_count" Integer "0" false;
       Column_ "next_attempt_at" DateTime true;
       Column_ "lease_expires_at" DateTime true;
       Column_ "claim_token" (String_ 36) true;
       Column_ "first_attempt_at" DateTime true;
       Column_ "last_attempt_at" DateTime true;
       Column_ "delivered_at" DateTime true;
       Column_ "dead_lettered_at" DateTime true;
       Column_ "provider_reference" (String_ 255) true;
       Column_ "last_error_category" (String_ 32) true;
       Column_ "last_error_code" (String_ 64) true;
       Column_ "last_error_detail" (String_ 512) true;
       Column_ "created_at" DateTime false;
       Column_ "updated_at" DateTime true;
       Column_ "deleted_at" DateTime true]
      [CheckConstraint (In_ "status" ["pending"; "processing"; "retry_scheduled"; "delivered"; "dead_letter"]) "ck_notification_deliveries_status";
       CheckConstraint (Between_ "attempt_count" 0 3) "ck_notification_deliveries_attempt_count";
       PrimaryKeyConstraint ["id"];
       UniqueConstraint ["message_id"; "channel"] "uq_notification_deliveries_message_channel"];
   create_index "ix_notification_deliveries_incident_id" "notification_deliveries" ["incident_id"] false None;
   create_index "ix_notification_deliveries_retry_due" "notification_deliveries" ["status"; "next_attempt_at"; "lease_expires_at"] false None;
   create_index "ix_notification_deliveries_source_created" "notification_deliveries" ["source_id"; "created_at"] false None;
   create_index "ix_notification_deliveries_tenant_created" "notification_deliveries" ["tenant_id"; "created_at"] false None].

Definition downgrade : list op :=
  [drop_index "ix_notification_deliveries_tenant_created" "notification_deliveries";
   drop_index "ix_notification_deliveries_source_created" "notification_deliveries";
   drop_index "ix_notification_deliveries_retry_due" "notification_deliveries";
   drop_index "ix_notification_deliveries_incident_id" "notification_deliveries";
   drop_table "notification_deliveries";
   drop_index "ix_inbox_consumptions_claim" "inbox_consumptions";
   drop_constraint "ck_inbox_consumptions_status" "inbox_consumptions";
   execute (UPDATE_WHERE_NULL "inbox_consumptions" "processed_at" "now()");
   alter_column "inbox_consumptions" "processed_at" false;
   drop_column "inbox_consumptions" "last_error_detail";
   drop_column "inbox_consumptions" "last_error_code";
   drop_column "inbox_consumptions" "last_error_category";
   drop_column "inbox_consumptions" "lease_expires_at";
   drop_column "inbox_consumptions" "status";
   drop_index "ix_outbox_events_publish_due" "outbox_events";
   drop_column "outbox_events" "claim_token";
   drop_column "outbox_events" "lease_expires_at";
   drop_column "outbox_events" "next_attempt_at"].

End Rev_cced5946142f.

(** alembic/versions/bab88abe6c35_enable_dependency_incidents_rls.py: Add opt-in tenant RLS policy for dependency incidents. *)
Module Rev_bab88abe6c35.

Definition TENANT_POLICY : string := "
  current_setting('app.rls_enabled', true) IS DISTINCT FROM 'true'
  OR current_setting('app.user_role', true) = 'admin'
  OR tenant_id IS NULL
  OR tenant_id = NULLIF(current_setting('app.tenant_id', true), '')::integer
".

Definition revision : string := "bab88abe6c35".
Definition down_revision : option string := Some "cced5946142f".

Definition upgrade : list op :=
  [execute (ENABLE_ROW_LEVEL_SECURITY "dependency_incidents");
   execute (FORCE_ROW_LEVEL_SECURITY "dependency_incidents");
   execute (CREATE_POLICY "dependency_incidents_tenant_isolation" "dependency_incidents" TENANT_POLICY TENANT_POLICY)].

Definition downgrade : list op :=
  [execute (DROP_POLICY "dependency_incidents_tenant_isolation" "dependency_incidents");
   execute (NO_FORCE_ROW_LEVEL_SECURITY "dependency_incidents");
   execute (DISABLE_ROW_LEVEL_SECURITY "dependency_incidents")].

End Rev_bab88abe6c35.

(** alembic/versions/a1b2c3d4e5f6_add_tenants_table.py: add tenants table for auto-provisioned personal tenants. *)
Module Rev_a1b2c3d4e5f6.

Definition revision : string := "a1b2c3d4e5f6".
Definition down_revision : option string := Some "bab88abe6c35".

Definition upgrade : list op :=
  [create_table "tenants"
      [Column_ "id" Integer false;
       Column_ "name" (String_ 128) false;
       Column_ "created_at" DateTime false;
       Column_ "updated_at" DateTime true;
       Column_ "deleted_at" DateTime true]
      [PrimaryKeyConstraint ["id"]];
   create_index "ix_tenants_name" "tenants" ["name"] true None].

Definition downgrade : list op :=
  [drop_index "ix_tenants_name" "tenants";
   drop_table "tenants"].

End Rev_a1b2c3d4e5f6.

(** alembic/versions/d1e2f3a4b5c6_casbin_rbac.py: create casbin_rule table for pycasbin SQLAlchemy adapter. *)
Module Rev_d1e2f3a4b5c6.

Definition revision : string := "d1e2f3a4b5c6".
Definition down_revision : option string := Some "a1b2c3d4e5f6".

Definition upgrade : list op :=
  [create_table "casbin_rule"
      [Column_ "id" Integer false;
       Column_ "ptype" (String_ 255) true;
       Column_ "v0" (String_ 255) true;
       Column_ "v1" (String_ 255) true;
       Column_ "v2" (String_ 255) true;
       Column_ "v3" (String_ 255) true;
       Column_ "v4" (String_ 255) true;
       Column_ "v5" (String_ 255) true]
      [PrimaryKeyConstraint ["id"]]].

Definition downgrade : list op :=
  [drop_table "casbin_rule"].

End Rev_d1e2f3a4b5c6.

(** alembic/versions/e239a5cdd6fc_remove_user_role_column_and_seed_casbin_.py: remove_user_role_column_and_seed_casbin_policies. *)
Module Rev_e239a5cdd6fc.

Definition revision : string := "e239a5cdd6fc".
Definition down_revision : option string := Some "d1e2f3a4b5c6".

Definition upgrade : list op :=
  [execute (DROP_INDEX_IF_EXISTS "ix_users_role");
   execute (DROP_COLUMN_IF_EXISTS "users" "role");
   execute (INSERT_ON_CONFLICT_DO_NOTHING "casbin_rule" ["ptype"; "v0"; "v1"; "v2"; "v3"]
      [[(Some "g"); (Some "admin"); (Some "manager"); (Some "*"); None];
       [(Some "g"); (Some "manager"); (Some "user"); (Some "*"); None];
       [(Some "p"); (Some "user"); (Some "*"); (Some "*"); (Some "access")];
       [(Some "p"); (Some "manager"); (Some "*"); (Some "*"); (Some "access")];
       [(Some "p"); (Some "admin"); (Some "*"); (Some "*"); (Some "access")]])].

Definition downgrade : list op :=
  [execute (DELETE_WHERE_IN "casbin_rule" "ptype" ["g"; "p"]);
   execute (ADD_COLUMN_IF_NOT_EXISTS "users" (Column_default "role" (String_ 32) "user" false));
   execute (CREATE_INDEX_IF_NOT_EXISTS "ix_users_role" "users" ["role"])].

End Rev_e239a5cdd6fc.

(** alembic/versions/f1a2b3c4d5e6_merge_abuse_signals_security_audit_events_.py: Merge abuse_signals + security_audit_events into security_events. *)
Module Rev_f1a2b3c4d5e6.

Definition revision : string := "f1a2b3c4d5e6".
Definition down_revision : option string := Some "e239a5cdd6fc".

Definition upgrade : list op :=
  [create_table "security_events"
      [Column_ "id" Integer false;
       Column_ "category" (String_ 32) false;
       Column_ "event_type" (String_ 100) true;
       Column_ "action" (String_ 100) true;
       Column_ "decision" (String_ 32) true;
       Column_ "reason" (String_ 512) true;
       Column_ "actor_type" (String_ 64) false;
       Column_ "actor_id" (String_ 255) true;
       Column_ "tenant_id" Integer true;
       Column_ "resource_type" (String_ 64) true;
       Column_ "resource_id" (String_ 255) true;
       Column_ "correlation_id" (String_ 128) true;
       Column_ "ip_address" (String_ 64) true;
       Column_ "user_agent" (String_ 512) true;
       Column_ "event_metadata" JSON true;
       Column_ "prev_event_hash" (String_ 64) true;
       Column_ "event_hash" (String_ 64) true;
       Column_ "signal_type" (String_ 64) true;
       Column_ "detection_rule" (String_ 128) true;
       Column_ "evidence" JSON true;
       Column_ "action_taken" (String_ 128) true;
       Column_ "severity" (String_ 32) true;
       Column_ "resolved_at" DateTime true;
       Column_ "resolved_by" (String_ 255) true;
       Column_ "notes" (String_ 1024) true;
       Column_ "created_at" DateTime false;
       Column_ "updated_at" DateTime true;
       Column_ "deleted_at" DateTime true]
      [CheckConstraint (In_ "category" ["abuse"; "audit"]) "ck_security_events_category";
       PrimaryKeyConstraint ["id"]];
   create_index "ix_security_events_actor_id" "security_events" ["actor_id"] false None;
   create_index "ix_security_events_actor_type" "security_events" ["actor_type"] false None;
   create_index "ix_security_events_created_at" "security_events" ["created_at"] false None;
   create_index "ix_security_events_event_type" "security_events" ["event_type"] false None;
   create_index "ix_security_events_resolved_at" "security_events" ["resolved_at"] false None;
   create_index "ix_security_events_signal_type" "security_events" ["signal_type"] false None;
   create_index "ix_security_events_tenant_id" "security_events" ["tenant_id"] false None;
   drop_table "abuse_signals";
   drop_table "security_audit_events"].

Definition downgrade : list op :=
  [drop_index "ix_security_events_tenant_id" "security_events";
   drop_index "ix_security_events_signal_type" "security_events";
   drop_index "ix_security_events_resolved_at" "security_events";
   drop_index "ix_security_events_event_type" "security_events";
   drop_index "ix_security_events_created_at" "security_events";
   drop_index "ix_security_events_actor_type" "security_events";
   drop_index "ix_security_events_actor_id" "security_events";
   drop_table "security_events";
   create_table "security_audit_events"
      [Column_ "id" Integer false;
       Column_ "action" (String_ 100) true;
       Column_ "decision" (String_ 32) true;
       Column_ "reason" (String_ 512) true;
       Column_ "actor_type" (String_ 64) false;
       Column_ "actor_id" (String_ 255) true;
       Column_ "tenant_id" Integer true;
       Column_ "resource_type" (String_ 64) true;
       Column_ "resource_id" (String_ 255) true;
       Column_ "correlation_id" (String_ 128) true;
       Column_ "ip_address" (String_ 64) true;
       Column_ "user_agent" (String_ 512) true;
       Column_ "event_metadata" JSON true;
       Column_ "prev_event_hash" (String_ 64) true;
       Column_ "event_hash" (String_ 64) true;
       Column_ "created_at" DateTime false;
       Column_ "updated_at" DateTime true;
       Column_ "deleted_at" DateTime true]
      [PrimaryKeyConstraint ["id"]];
   create_table "abuse_signals"
      [Column_ "id" Integer false;
       Column_ "signal_type" (String_ 64) true;
       Column_ "detection_rule" (String_ 128) true;
       Column_ "evidence" JSON true;
       Column_ "action_taken" (String_ 128) true;
       Column_ "severity" (String_ 32) true;
       Column_ "resolved_at" DateTime true;
       Column_ "resolved_by" (String_ 255) true;
       Column_ "notes" (String_ 1024) true;
       Column_ "created_at" DateTime false;
       Column_ "updated_at" DateTime true;
       Column_ "deleted_at" DateTime true]
      [PrimaryKeyConstraint ["id"]]].

End Rev_f1a2b3c4d5e6.

(** alembic/versions/f2b3c4d5e6f7_add_event_table_mixin_columns.py: Add tenant_id and error-tracking columns to event tables. *)
Module Rev_f2b3c4d5e6f7.

Definition revision : string := "f2b3c4d5e6f7".
Definition down_revision : option string := Some "f1a2b3c4d5e6".

Definition upgrade : list op :=
  [add_column "processed_events" (Column_ "tenant_id" Integer true);
   add_column "outbox_events" (Column_ "processed_at" DateTime true);
   add_column "inbox_consumptions" (Column_ "tenant_id" Integer true);
   add_column "notification_deliveries" (Column_ "processed_at" DateTime true)].

Definition downgrade : list op :=
  [drop_column "notification_deliveries" "processed_at";
   drop_column "inbox_consumptions" "tenant_id";
   drop_column "outbox_events" "processed_at";
   drop_column "processed_events" "tenant_id"].

End Rev_f2b3c4d5e6f7.

(** alembic/versions/f3c4d5e6f7a1_add_tenant_configs_and_notification_channels.py: Add tenant_configs and notification_channels tables. *)
Module Rev_f3c4d5e6f7a1.

Definition revision : string := "f3c4d5e6f7a1".
Definition down_revision : option string := Some "f2b3c4d5e6f7".

Definition upgrade : list op :=
  [create_table "tenant_configs"
      [Column_ "id" Integer false;
       Column_ "tenant_id" Integer true;
       Column_ "retention_days" Integer false;
       Column_ "latency_alert_threshold_ms" Integer false;
       Column_ "max_incident_occurrences" Integer false;
       Column_ "feature_flags" JSON true;
       Column_ "created_at" DateTime false;
       Column_ "updated_at" DateTime true;
       Column_ "deleted_at" DateTime true]
      [ForeignKeyConstraint ["tenant_id"] ("tenants", "id") "SET NULL";
       PrimaryKeyConstraint ["id"]];
   create_table "notification_channels"
      [Column_ "id" Integer false;
       Column_ "tenant_id" Integer true;
       Column_ "channel_type" (String_ 32) false;
       Column_ "destination" (String_ 512) false;
       Column_ "is_enabled" Boolean false;
       Column_ "config" JSON false;
       Column_ "created_at" DateTime false;
       Column_ "updated_at" DateTime true;
       Column_ "deleted_at" DateTime true]
      [ForeignKeyConstraint ["tenant_id"] ("tenants", "id") "SET NULL";
       PrimaryKeyConstraint ["id"]]].

Definition downgrade : list op :=
  [drop_table "notification_channels";
   drop_table "tenant_configs"].

End Rev_f3c4d5e6f7a1.

(** alembic/versions/f4d5e6f7a1b2_add_source_profiles_outbound_auth.py: Add outbound auth columns to source_profiles. *)
Module Rev_f4d5e6f7a1b2.

Definition revision : string := "f4d5e6f7a1b2".
Definition down_revision : option string := Some "f3c4d5e6f7a1".

Definition upgrade : list op :=
  [add_column "source_profiles" (Column_ "auth_type" (String_ 32) true);
   add_column "source_profiles" (Column_ "api_key" (String_ 512) true);
   add_column "source_profiles" (Column_ "auth_header_name" (String_ 128) true);
   add_column "source_profiles" (Column_ "auth_username" (String_ 255) true)].

Definition downgrade : list op :=
  [drop_column "source_profiles" "auth_username";
   drop_column "source_profiles" "auth_header_name";
   drop_column "source_profiles" "api_key";
   drop_column "source_profiles" "auth_type"].

End Rev_f4d5e6f7a1b2.

(** alembic/versions/f5e6f7a1b2c3_drop_observations_archive.py: Drop observations_archive (retention moved to labs/). *)
Module Rev_f5e6f7a1b2c3.

Definition revision : string := "f5e6f7a1b2c3".
Definition down_revision : option string := Some "f4d5e6f7a1b2".

Definition upgrade : list op :=
  [drop_index "ix_observations_archive_tenant_id" "observations_archive";
   drop_index "ix_observations_archive_archived_at" "observations_archive";
   drop_index "ix_observations_archive_timestamp" "observations_archive";
   drop_table "observations_archive"].

Definition downgrade : list op :=
  [create_table "observations_archive"
      [Column_ "id" Integer false;
       Column_ "source" (String_ 255) false;
       Column_ "timestamp" DateTime false;
       Column_ "raw_data" JSON false;
       Column_ "tags" JSON false;
       Column_ "processed" Boolean false;
       Column_ "processed_at" DateTime true;
       Column_ "tenant_id" Integer true;
       Column_ "created_at" DateTime false;
       Column_ "updated_at" DateTime true;
       Column_ "deleted_at" DateTime true;
       Column_ "archived_at" DateTime false]
      [PrimaryKeyConstraint ["id"]];
   create_index "ix_observations_archive_timestamp" "observations_archive" ["timestamp"] false None;
   create_index "ix_observations_archive_archived_at" "observations_archive" ["archived_at"] false None;
   create_index "ix_observations_archive_tenant_id" "observations_archive" ["tenant_id"] false None].

End Rev_f5e6f7a1b2c3.

(** services/inference/alembic/versions/1252358c354c_create_indexed_documents.py: create_indexed_documents. *)
Module Rev_1252358c354c.

Definition revision : string := "1252358c354c".
Definition down_revision : option string := None.

Definition upgrade : list op :=
  [execute (CREATE_EXTENSION_IF_NOT_EXISTS "vector");
   create_table "indexed_documents"
      [Column_ "id" Integer false;
       Column_ "collection" (String_ 128) false;
       Column_ "external_id" Integer false;
       Column_ "text" Text false;
       Column_ "metadata_json" JSONB false;
       Column_ "embedding" (VECTOR 384) false;
       Column_ "created_at" DateTime false;
       Column_ "updated_at" DateTime false]
      [PrimaryKeyConstraint ["id"];
       UniqueConstraint ["collection"; "external_id"] "uq_indexed_documents_collection_external_id"];
   create_index "ix_indexed_documents_collection" "indexed_documents" ["collection"] false None].

Definition downgrade : list op :=
  [drop_index "ix_indexed_documents_collection" "indexed_documents";
   drop_table "indexed_documents"].

End Rev_1252358c354c.

(** ** The history *)

Module History.

Record Revision := Rev {
  revision : string;
  down_revision : option string;
  upgrade : list op;
  downgrade : list op
}.

(** The files of [alembic/versions/], in the order of the directory. *)
Definition versions : list Revision :=
  [Rev Rev_1088e092eac2.revision Rev_1088e092eac2.down_revision Rev_1088e092eac2.upgrade Rev_1088e092eac2.downgrade;
   Rev Rev_a1b2c3d4e5f6.revision Rev_a1b2c3d4e5f6.down_revision Rev_a1b2c3d4e5f6.upgrade Rev_a1b2c3d4e5f6.downgrade;
   Rev Rev_a3c67d58f9fa.revision Rev_a3c67d58f9fa.down_revision Rev_a3c67d58f9fa.upgrade Rev_a3c67d58f9fa.downgrade;
   Rev Rev_b771ac41bc8f.revision Rev_b771ac41bc8f.down_revision Rev_b771ac41bc8f.upgrade Rev_b771ac41bc8f.downgrade;
   Rev Rev_bab88abe6c35.revision Rev_bab88abe6c35.down_revision Rev_bab88abe6c35.upgrade Rev_bab88abe6c35.downgrade;
   Rev Rev_c61518e0a57e.revision Rev_c61518e0a57e.down_revision Rev_c61518e0a57e.upgrade Rev_c61518e0a57e.downgrade;
   Rev Rev_c64a98702ec4.revision Rev_c64a98702ec4.down_revision Rev_c64a98702ec4.upgrade Rev_c64a98702ec4.downgrade;
   Rev Rev_cced5946142f.revision Rev_cced5946142f.down_revision Rev_cced5946142f.upgrade Rev_cced5946142f.downgrade;
   Rev Rev_d1e2f3a4b5c6.revision Rev_d1e2f3a4b5c6.down_revision Rev_d1e2f3a4b5c6.upgrade Rev_d1e2f3a4b5c6.downgrade;
   Rev Rev_e239a5cdd6fc.revision Rev_e239a5cdd6fc.down_revision Rev_e239a5cdd6fc.upgrade Rev_e239a5cdd6fc.downgrade;
   Rev Rev_e60d14dbfebd.revision Rev_e60d14dbfebd.down_revision Rev_e60d14dbfebd.upgrade Rev_e60d14dbfebd.downgrade;
   Rev Rev_f1a2b3c4d5e6.revision Rev_f1a2b3c4d5e6.down_revision Rev_f1a2b3c4d5e6.upgrade Rev_f1a2b3c4d5e6.downgrade;
   Rev Rev_f2b3c4d5e6f7.revision Rev_f2b3c4d5e6f7.down_revision Rev_f2b3c4d5e6f7.upgrade Rev_f2b3c4d5e6f7.downgrade;
   Rev Rev_f3c4d5e6f7a1.revision Rev_f3c4d5e6f7a1.down_revision Rev_f3c4d5e6f7a1.upgrade Rev_f3c4d5e6f7a1.downgrade;
   Rev Rev_f4d5e6f7a1b2.revision Rev_f4d5e6f7a1b2.down_revision Rev_f4d5e6f7a1b2.upgrade Rev_f4d5e6f7a1b2.downgrade;
   Rev Rev_f5e6f7a1b2c3.revision Rev_f5e6f7a1b2c3.down_revision Rev_f5e6f7a1b2c3.upgrade Rev_f5e6f7a1b2c3.downgrade].

Definition find_revision (vs : list Revision) (r : string) : option Revision :=
  List.find (fun v => String.eqb (revision v) r) vs.

(** The revisions from [r] down to the base, by [down_revision]; the fuel is the number
    of files. *)
Fixpoint lineage (fuel : nat) (vs : list Revision) (r : option string) : list Revision :=
  match fuel, r with
  | S fuel, Some r =>
      match find_revision vs r with Some v => v :: lineage fuel vs (down_revision v) | None => [] end
  | _, _ => []
  end.

(** The revisions that no other one follows. *)
Definition heads (vs : list Revision) : list string :=
  List.filter (fun r => negb (existsb (fun v => bool_decide (down_revision v = Some r)) vs)) (revision <$> vs).

Definition bases (vs : list Revision) : list string :=
  revision <$> List.filter (fun v => bool_decide (down_revision v = None)) vs.

(** The history from the base to the head. *)
Definition history (vs : list Revision) : list Revision :=
  match heads vs with [h] => reverse (lineage (length vs) vs (Some h)) | _ => [] end.

(** [alembic upgrade head] from the base and [alembic downgrade base] from the head, each
    in one transaction ([context.begin_transaction] of [alembic/env.py]). *)
Definition upgrade_head {S} `{Catalogue S} (vs : list Revision) : S -> option S :=
  run_all (concat (upgrade <$> history vs)).
Definition downgrade_base {S} `{Catalogue S} (vs : list Revision) : S -> option S :=
  run_all (concat (downgrade <$> reverse (history vs))).

(** The first [n] revisions, and the last of them with its reversal. *)
Definition upgrade_to {S} `{Catalogue S} (vs : list Revision) (n : nat) : S -> option S :=
  run_all (concat (upgrade <$> take n (history vs))).

End History.

(** ** What the migrations do *)

Module MigrationTheorems.
Import History.

(** The revisions whose [downgrade] takes back their [upgrade] call by call. *)
Definition mirrored (v : Revision) : bool := bool_decide (mirrors (upgrade v) (downgrade v)).

(** The revisions form one line: one base, one head, and each of the sixteen files once
    on the way from the one to the other, a revision right after the one it names. *)
Theorem revisions_form_one_line :
  bases versions = ["c64a98702ec4"%string] /\ heads versions = ["f5e6f7a1b2c3"%string] /\
  revision <$> history versions ≡ₚ revision <$> versions /\ NoDup (revision <$> versions) /\
  down_revision <$> history versions = None :: removelast (Some ∘ revision <$> history versions).
Proof.
  repeat split.
  - apply (bool_decide_unpack _). by vm_compute.
  - apply (bool_decide_unpack _). by vm_compute.
Qed.

(** C9: On any database that satisfies its invariant, whatever other tables, indexes and rows
    it has, the [downgrade] of a revision restores exactly what was there before its
    [upgrade], for every revision but the six named here. *)
Theorem downgrade_undoes_upgrade {S} `{CatalogueLaws S} (v : Revision) (s s' : S) :
  v ∈ versions ->
  revision v ∉ ["e60d14dbfebd"; "bab88abe6c35"; "cced5946142f"; "e239a5cdd6fc"; "f1a2b3c4d5e6"; "f5e6f7a1b2c3"]%string ->
  well_formed s -> run_all (upgrade v) s = Some s' -> run_all (downgrade v) s' = Some s.
Proof.
  intros Hv Hn Hwf. apply run_all_mirrors; [done |].
  assert (forallb (fun v => bool_decide (revision v ∈ ["e60d14dbfebd"; "bab88abe6c35"; "cced5946142f"; "e239a5cdd6fc"; "f1a2b3c4d5e6"; "f5e6f7a1b2c3"]%string) || mirrored v) versions = true) as Hall
    by (by vm_compute).
  rewrite forallb_forall in Hall. specialize (Hall v). rewrite orb_true_iff, bool_decide_eq_true in Hall.
  destruct Hall as [?|Hm]; [by apply list_elem_of_In | done |]. by apply bool_decide_eq_true in Hm.
Qed.

(** The inference service: the [downgrade] restores everything but the extension, which
    stays installed. *)
Theorem inference_downgrade_keeps_extension {S} `{CatalogueLaws S} (s s' : S) :
  well_formed s -> run_all Rev_1252358c354c.upgrade s = Some s' ->
  exists s1, run (execute (CREATE_EXTENSION_IF_NOT_EXISTS "vector")) s = Some s1 /\
    run_all Rev_1252358c354c.downgrade s' = Some s1.
Proof.
  intros Hwf Hr. simpl in Hr. apply bind_Some in Hr as (s1 & H1 & Hr). exists s1. split; [done |].
  eapply (run_all_mirrors (tail Rev_1252358c354c.upgrade)); [by eapply run_well_formed | by vm_compute | exact Hr].
Qed.

End MigrationTheorems.

(** *** On the reference database *)

Module MigrationRuns.
Import History MigrationTheorems Pg PgLaws PgInvariant PgInstance.

Definition head : option db := upgrade_head versions empty.

(** From an empty database every operation up to the head succeeds, and what it leaves
    satisfies the invariant. *)
Theorem upgrade_head_succeeds : exists d, upgrade_head versions empty = Some d /\ wf d.
Proof.
  assert (is_Some (upgrade_head versions empty)) as [d Hd].
  { apply (bool_decide_unpack _). by vm_compute. }
  exists d. split; [done |]. exact (run_all_well_formed (S := db) _ empty d pg_wf_empty Hd).
Qed.

(** Where the history has brought the database, the [downgrade] of a revision restores
    what was there before its [upgrade], except for the two revisions named here; this
    includes the policies and the nullability that the previous theorem leaves out. *)
Definition restores (n : nat) : bool :=
  match upgrade_to versions n empty, history versions !! n with
  | Some d, Some v => bool_decide ((d' ← run_all (upgrade v) d; run_all (downgrade v) d') = Some d)
  | _, _ => false
  end.

Theorem downgrade_one_restores (n : nat) :
  (n < length versions)%nat -> (restores n = true <-> (n <> 10 /\ n <> 11)%nat).
Proof.
  intros Hn. assert (forallb (fun n => Bool.eqb (restores n) (negb (Nat.eqb n 10 || Nat.eqb n 11))) (seq 0 (length versions)) = true) as Hall
    by (by vm_compute).
  rewrite forallb_forall in Hall. specialize (Hall n). rewrite Bool.eqb_true_iff in Hall.
  rewrite Hall by (apply in_seq; lia). rewrite negb_true_iff, orb_false_iff, !Nat.eqb_neq. done.
Qed.

(** [alembic downgrade base] does not get back to the base: after fifteen revisions have
    been taken back the last one drops an index that the reversal of the merge of the
    security tables has not created again. *)
Theorem downgrade_base_fails :
  exists d d15, head = Some d /\ downgrade_base versions d = None /\
    run_all (concat (downgrade <$> take 15 (reverse (history versions)))) d = Some d15 /\
    indexes d15 !! "ix_security_audit_events_tenant_id"%string = None /\
    is_Some (tables d15 !! "security_audit_events"%string).
Proof.
  assert (match head with
          | Some d => bool_decide (downgrade_base versions d = None) &&
              match run_all (concat (downgrade <$> take 15 (reverse (history versions)))) d with
              | Some d15 => bool_decide (indexes d15 !! "ix_security_audit_events_tenant_id"%string = None) &&
                            bool_decide (is_Some (tables d15 !! "security_audit_events"%string))
              | None => false end
          | None => false end = true) as Hb by (by vm_compute).
  destruct head as [d|]; [|done]. apply andb_true_iff in Hb as [H1%bool_decide_eq_true H2].
  destruct (run_all _ d) as [d15|] eqn:H15; [|done].
  apply andb_true_iff in H2 as [H2%bool_decide_eq_true H3%bool_decide_eq_true]. by exists d, d15.
Qed.

(** *** What becomes of the rows *)

Definition is_create_index (o : op) : bool := match o with create_index _ _ _ _ _ => true | _ => false end.

Lemma create_indexes_tables (os : list op) (d d' : db) :
  forallb is_create_index os = true -> run_all os d = Some d' -> tables d' = tables d.
Proof.
  revert d. induction os as [|o os IH]; intros d Hos Hr; simpl in *; [by simplify_eq |].
  apply andb_true_iff in Hos as [Ho Hos]. apply bind_Some in Hr as (d1 & H1 & Hr).
  rewrite (IH d1 Hos Hr). destruct o; try done. simpl in H1. unfold run_create_index in H1.
  apply bind_Some in H1 as (T & _ & H1). case_match; [|done]. by simplify_eq.
Qed.

Lemma drop_table_tables (n : string) (d d' : db) :
  run_drop_table n d = Some d' -> tables d' = delete n (tables d).
Proof. unfold run_drop_table. case_match; [|done]. intros ?. by simplify_eq. Qed.

Lemma create_table_tables (n : string) (cs : list column) (ks : list constraint_) (d d' : db) :
  run_create_table n cs ks d = Some d' -> tables d' = <[n := Table cs ks false false ∅ []]> (tables d).
Proof. unfold run_create_table. case_match; [|done]. intros ?. by simplify_eq. Qed.

(** The rows of a table; none where there is no table. *)
Definition rows_of (d : db) (t : string) : list row := match tables d !! t with Some T => rows T | None => [] end.

(** The revision that merges [abuse_signals] and [security_audit_events] into
    [security_events] moves no row: whatever the two tables held, after the [upgrade] they
    are gone and the new table is empty. *)
Theorem merge_of_security_tables_discards_rows (d d' : db) :
  run_all Rev_f1a2b3c4d5e6.upgrade d = Some d' ->
  tables d' !! "abuse_signals"%string = None /\ tables d' !! "security_audit_events"%string = None /\
  is_Some (tables d' !! "security_events"%string) /\ rows_of d' "security_events" = [].
Proof.
  intros Hr.
  assert (exists o ixs, Rev_f1a2b3c4d5e6.upgrade = o :: ixs ++ [drop_table "abuse_signals"; drop_table "security_audit_events"] /\
            forallb is_create_index ixs = true /\
            exists cs ks, o = create_table "security_events" cs ks) as (o & ixs & Hup & Hixs & cs & ks & ->).
  { eexists _, (take 7 (tail Rev_f1a2b3c4d5e6.upgrade)). split; [by vm_compute |]. split; [by vm_compute |].
    eexists _, _. reflexivity. }
  rewrite Hup in Hr. simpl in Hr. apply bind_Some in Hr as (d1 & H1 & Hr).
  rewrite run_all_app in Hr. apply bind_Some in Hr as (d2 & H2 & Hr). simpl in Hr.
  apply bind_Some in Hr as (d3 & H3 & Hr). apply bind_Some in Hr as (d4 & H4 & Hr). simplify_eq.
  apply create_table_tables in H1. apply create_indexes_tables in H2; [|done].
  apply drop_table_tables in H3, H4. unfold rows_of. rewrite H4, H3, H2, H1.
  rewrite lookup_delete_eq, (lookup_delete_ne _ "security_audit_events"%string "abuse_signals"%string), lookup_delete_eq by done.
  rewrite !lookup_delete_ne, lookup_insert_eq by done. by eauto.
Qed.

Lemma update_table_lookup (t : string) (f : table -> option table) (d d' : db) :
  update_table t f d = Some d' ->
  exists T T', tables d !! t = Some T /\ f T = Some T' /\ tables d' = <[t := T']> (tables d).
Proof.
  unfold update_table. intros (T & HT & (T' & HT' & ?)%bind_Some)%bind_Some. simplify_eq.
  by exists T, T'.
Qed.

Lemma drop_column_rows (t c : string) (d d' : db) :
  run_drop_column t c d = Some d' -> has_column d' (t, c) = false /\ is_Some (tables d' !! t).
Proof.
  unfold run_drop_column. intros (T & HT & Hr)%bind_Some. case_match; [|done]. simplify_eq. simpl.
  unfold has_column. simpl. rewrite lookup_insert_eq. split; [|by eauto]. simpl.
  apply bool_decide_eq_false. unfold names. simpl.
  intros (k & -> & [Hne _]%list_elem_of_filter)%list_elem_of_fmap. by apply Hne.
Qed.

Lemma drop_column_if_exists (t c : string) (d d' : db) :
  run_statement (DROP_COLUMN_IF_EXISTS t c) d = Some d' -> has_column d' (t, c) = false.
Proof.
  simpl. destruct (has_column d (t, c)) eqn:Hc; intros Hr; [by eapply (drop_column_rows t c d d') |].
  apply update_table_lookup in Hr as (T & T' & HT & HT' & Hd). simplify_eq.
  unfold has_column in *. simpl in *. rewrite Hd, lookup_insert_eq. by rewrite HT in Hc.
Qed.

Lemma has_column_tables (d d' : db) (r : string * string) :
  tables d' !! r.1 = tables d !! r.1 -> has_column d' r = has_column d r.
Proof. unfold has_column. by intros ->. Qed.

(** Taking the column [role] out of [users] loses what it held: the casbin policies that
    the [upgrade] inserts are the same for every database, and after the [downgrade] each
    user is a plain one. *)
Theorem roles_do_not_survive (d d1 d2 : db) :
  run_all Rev_e239a5cdd6fc.upgrade d = Some d1 -> run_all Rev_e239a5cdd6fc.downgrade d1 = Some d2 ->
  has_column d1 ("users", "role")%string = false /\
  Forall (fun r : row => r !! "role"%string = Some (VText "user")) (rows_of d2 "users").
Proof.
  intros Hup Hdown.
  assert (has_column d1 ("users", "role")%string = false) as Hno.
  { simpl in Hup. apply bind_Some in Hup as (da & _ & Hup). apply bind_Some in Hup as (db' & Hdrop & Hup).
    apply bind_Some in Hup as (dc & Hins & Hup). simplify_eq.
    apply drop_column_if_exists in Hdrop. apply update_table_lookup in Hins as (T & T' & _ & _ & Hd).
    etrans; [|exact Hdrop]. apply has_column_tables. simpl. rewrite Hd. by rewrite lookup_insert_ne. }
  split; [done |]. simpl in Hdown. apply bind_Some in Hdown as (da & Hdel & Hdown).
  apply bind_Some in Hdown as (db' & Hadd & Hdown). apply bind_Some in Hdown as (dc & Hix & Hdown). simplify_eq.
  apply update_table_lookup in Hdel as (T & T' & _ & _ & Hd).
  assert (has_column da ("users", "role")%string = false) as Hno'.
  { etrans; [|exact Hno]. apply has_column_tables. simpl. rewrite Hd. by rewrite lookup_insert_ne. }
  simpl in Hadd. rewrite Hno' in Hadd.
  assert (tables d2 = tables db') as Ht.
  { simpl in Hix. case_match; [by simplify_eq |].
    eapply (create_indexes_tables [create_index "ix_users_role" "users" ["role"%string] false None]); [done |].
    simpl. simpl in Hix. by rewrite Hix. }
  unfold rows_of. rewrite Ht. unfold run_add_column in Hadd. apply bind_Some in Hadd as (T0 & H0 & Hadd).
  cbv zeta in Hadd. destruct (bool_decide _ && _); [|done]. simpl in Hadd. simplify_eq. simpl. rewrite lookup_insert_eq. simpl.
  apply Forall_fmap, Forall_forall. intros r _. unfold compose. cbv beta. apply lookup_insert_eq.
Qed.

End MigrationRuns.

(** ** Witnesses *)

Module MigrationWitnesses.
Import History MigrationTheorems Pg PgLaws PgInvariant PgInstance MigrationRuns.

Lemma empty_well_formed : well_formed empty.
Proof. exact pg_wf_empty. Qed.

Definition tenants_revision : Revision :=
  Rev Rev_a1b2c3d4e5f6.revision Rev_a1b2c3d4e5f6.down_revision Rev_a1b2c3d4e5f6.upgrade Rev_a1b2c3d4e5f6.downgrade.

Lemma downgrade_undoes_upgrade_witness :
  match run_all (upgrade tenants_revision) empty with
  | Some d => has_column d ("tenants", "name")%string = true /\ run_all (downgrade tenants_revision) d = Some empty
  | None => False
  end.
Proof.
  destruct (run_all (upgrade tenants_revision) empty) as [d|] eqn:Hd; [|by vm_compute in Hd].
  split; [by vm_compute in Hd; simplify_eq |].
  apply (downgrade_undoes_upgrade (S := db) tenants_revision empty d); [| |exact pg_wf_empty|exact Hd].
  - right. left.
  - apply (bool_decide_unpack _). by vm_compute.
Defined.

Lemma downgrade_one_restores_witness : restores 6 = true /\ restores 11 = false.
Proof.
  split.
  - apply (downgrade_one_restores 6); [simpl; lia | lia].
  - destruct (restores 11) eqn:Hr; [|done]. exfalso.
    apply (downgrade_one_restores 11) in Hr as [_ Hr]; [lia | simpl; lia].
Defined.

(** A database at the eleventh revision whose abuse table and users have a row each. *)
Definition populated (n : nat) : db :=
  match upgrade_to versions n empty with
  | Some d =>
      with_tables (fun ts =>
        alter (with_rows (fun _ => [{["id"%string := VInt 1; "severity"%string := VText "high"]}])) "abuse_signals"
          (alter (with_rows (fun _ => [{["id"%string := VInt 1; "username"%string := VText "root"; "role"%string := VText "admin"]}])) "users" ts)) d
  | None => empty
  end.

Lemma merge_of_security_tables_discards_rows_witness :
  rows_of (populated 11) "abuse_signals" <> [] /\
  match run_all Rev_f1a2b3c4d5e6.upgrade (populated 11) with
  | Some d => rows_of d "security_events" = []
  | None => False
  end.
Proof.
  split; [by vm_compute |].
  destruct (run_all Rev_f1a2b3c4d5e6.upgrade (populated 11)) as [d|] eqn:Hd; [|by vm_compute in Hd].
  by apply (merge_of_security_tables_discards_rows (populated 11) d Hd).
Defined.

Definition there_and_back (d : db) : option (db * db) :=
  d1 ← run_all Rev_e239a5cdd6fc.upgrade d; d2 ← run_all Rev_e239a5cdd6fc.downgrade d1; Some (d1, d2).

Lemma roles_do_not_survive_witness :
  rows_of (populated 10) "users" = [{["id"%string := VInt 1; "username"%string := VText "root"; "role"%string := VText "admin"]}] /\
  exists d1 d2, there_and_back (populated 10) = Some (d1, d2) /\
    Forall (fun r : row => r !! "role"%string = Some (VText "user")) (rows_of d2 "users").
Proof.
  split; [by vm_compute |].
  assert (is_Some (there_and_back (populated 10))) as [[d1 d2] Hd].
  { apply (bool_decide_unpack _). by vm_compute. }
  exists d1, d2. split; [done |]. unfold there_and_back in Hd.
  apply bind_Some in Hd as (d1' & H1 & Hd). apply bind_Some in Hd as (d2' & H2 & Hd). injection Hd as <- <-.
  exact (proj2 (roles_do_not_survive (populated 10) _ _ H1 H2)).
Defined.

Lemma inference_downgrade_keeps_extension_witness :
  match run_all Rev_1252358c354c.upgrade empty with
  | Some d => run_all Rev_1252358c354c.downgrade d = Some (Db ∅ ∅ {["vector"%string]})
  | None => False
  end.
Proof.
  destruct (run_all Rev_1252358c354c.upgrade empty) as [d|] eqn:Hd; [|by vm_compute in Hd].
  destruct (inference_downgrade_keeps_extension (S := db) empty d empty_well_formed Hd) as (s1 & H1 & H2).
  rewrite H2. etrans; [symmetry; exact H1 |]. by vm_compute.
Defined.

End MigrationWitnesses.
