(* ===== verification/SchemaDrift.v ===== *)
(** * The declared and the migrated schema

    Module [Orm] has the tables that [models/] declares: what the program reads and writes
    ([Base.metadata]).  Module [Drift] compares them with a database column by column, as
    [alembic check] does when it looks for new operations ([alembic/env.py]: types are
    compared, server defaults are not, tables without a model are ignored).  Module
    [Validation] is [scripts/ci/validate_migrations.py], with the alembic process as a
    parameter.  The theorems say in what the database at the head of the history differs
    from the models, and what follows: some statements of the program fail there, and
    so does the validation. *)

From S2P Require Import Prelude Catalogue Migrations.
Import Ddl.

(** ** The models *)

Module Orm.

Record meta_index := MetaIndex {
  meta_name : string;
  meta_columns : list string;
  meta_unique : bool;
  meta_where : option string
}.

(** A mapped class: [__tablename__], its columns with those of its mixins, its primary
    key with the constraints and the foreign keys, its indexes. *)
Record model := Model {
  tablename : string;
  model_columns : list column;
  model_constraints : list constraint_;
  model_indexes : list meta_index
}.

Definition TimestampMixin : list column :=
  [Column_ "created_at" DateTime false; Column_ "updated_at" DateTime true; Column_ "deleted_at" DateTime true].

Definition EventRecordMixin : list column :=
  [Column_ "processed_at" DateTime true; Column_ "tenant_id" Integer true].

Definition Observation : model :=
  Model "observations"
    ([Column_ "id" Integer false;
     Column_ "source_id" Integer false;
     Column_ "timestamp" DateTime false;
     Column_ "raw_data" JSON false;
     Column_ "tags" JSON false;
     Column_ "processed" Boolean false;
     Column_ "processed_at" DateTime true;
     Column_ "tenant_id" Integer true] ++ TimestampMixin)
    [PrimaryKeyConstraint ["id"];
     UniqueConstraint ["source_id"; "timestamp"] "uq_observations_source_timestamp";
     ForeignKeyConstraint ["source_id"] ("source_profiles", "id") "RESTRICT";
     ForeignKeyConstraint ["tenant_id"] ("tenants", "id") "SET NULL"]
    [MetaIndex "ix_observations_active_source" ["source_id"] false (Some "deleted_at IS NULL");
     MetaIndex "ix_observations_timestamp" ["timestamp"] false None;
     MetaIndex "ix_observations_processed" ["processed"] false None].

Definition ProcessedEvent : model :=
  Model "processed_events"
    ([Column_ "id" Integer false;
     Column_ "kafka_topic" (String_ 255) false;
     Column_ "kafka_partition" Integer false;
     Column_ "kafka_offset" Integer false;
     Column_ "idempotency_key" (String_ 255) false;
     Column_ "event_type" (String_ 100) false;
     Column_ "payload" JSON false;
     Column_ "status" (String_ 50) false;
     Column_ "processing_attempts" Integer false;
     Column_ "error_message" (String_ 500) true;
     Column_ "error_details" JSON true;
     Column_ "dead_letter_queue" Boolean false;
     Column_ "dlq_reason" (String_ 500) true] ++ TimestampMixin ++ EventRecordMixin)
    [PrimaryKeyConstraint ["id"]]
    [MetaIndex "ix_events_idempotency_key" ["idempotency_key"] true None;
     MetaIndex "ix_events_status" ["status"] false None;
     MetaIndex "ix_events_kafka_offset" ["kafka_offset"] false None;
     MetaIndex "ix_events_dead_letter_queue" ["dead_letter_queue"] false None].

Definition OutboxEvent : model :=
  Model "outbox_events"
    ([Column_ "id" Integer false;
     Column_ "aggregate_type" (String_ 64) false;
     Column_ "aggregate_id" (String_ 128) false;
     Column_ "event_type" (String_ 128) false;
     Column_ "payload" JSON false;
     Column_ "idempotency_key" (String_ 255) false;
     Column_ "published_at" DateTime true;
     Column_ "publish_attempts" Integer false;
     Column_ "last_error" (String_ 512) true;
     Column_ "next_attempt_at" DateTime true;
     Column_ "lease_expires_at" DateTime true;
     Column_ "claim_token" (String_ 36) true] ++ TimestampMixin ++ EventRecordMixin)
    [PrimaryKeyConstraint ["id"]]
    [MetaIndex "ix_outbox_events_published_at" ["published_at"] false None;
     MetaIndex "ix_outbox_events_aggregate" ["aggregate_type"; "aggregate_id"] false None;
     MetaIndex "ix_outbox_events_tenant_id" ["tenant_id"] false None;
     MetaIndex "ix_outbox_events_idempotency_key" ["idempotency_key"] true None;
     MetaIndex "ix_outbox_events_publish_due" ["published_at"; "next_attempt_at"; "lease_expires_at"] false None].

Definition InboxConsumption : model :=
  Model "inbox_consumptions"
    ([Column_ "id" Integer false;
     Column_ "consumer_name" (String_ 128) false;
     Column_ "message_id" (String_ 255) false;
     Column_ "event_type" (String_ 128) false;
     Column_ "payload" JSON false;
     Column_ "status" (String_ 32) false;
     Column_ "lease_expires_at" DateTime true;
     Column_ "last_error_category" (String_ 32) true;
     Column_ "last_error_code" (String_ 64) true;
     Column_ "last_error_detail" (String_ 512) true] ++ TimestampMixin ++ EventRecordMixin)
    [PrimaryKeyConstraint ["id"];
     UniqueConstraint ["consumer_name"; "message_id"] "uq_inbox_consumptions_consumer_message";
     CheckConstraint (In_ "status" ["processing"; "completed"; "completed_with_dead_letters"; "dead_letter"]) "ck_inbox_consumptions_status"]
    [MetaIndex "ix_inbox_consumptions_consumer_name" ["consumer_name"] false None;
     MetaIndex "ix_inbox_consumptions_processed_at" ["processed_at"] false None;
     MetaIndex "ix_inbox_consumptions_claim" ["status"; "lease_expires_at"] false None].

Definition NotificationDelivery : model :=
  Model "notification_deliveries"
    ([Column_ "id" Integer false;
     Column_ "inbox_consumption_id" Integer false;
     Column_ "message_id" (String_ 255) false;
     Column_ "incident_id" Integer false;
     Column_ "source_id" Integer false;
     Column_ "event_type" (String_ 128) false;
     Column_ "severity" (String_ 32) false;
     Column_ "channel" (String_ 32) false;
     Column_ "status" (String_ 32) false;
     Column_ "attempt_count" Integer false;
     Column_ "next_attempt_at" DateTime true;
     Column_ "lease_expires_at" DateTime true;
     Column_ "claim_token" (String_ 36) true;
     Column_ "first_attempt_at" DateTime true;
     Column_ "last_attempt_at" DateTime true;
     Column_ "delivered_at" DateTime true;
     Column_ "dead_lettered_at" DateTime true;
     Column_ "provider_reference" (String_ 255) true;
     Column_ "last_error_category" (String_ 32) true;
     Column_ "last_error_code" (String_ 64) true;
     Column_ "last_error_detail" (String_ 512) true] ++ TimestampMixin ++ EventRecordMixin)
    [PrimaryKeyConstraint ["id"];
     UniqueConstraint ["message_id"; "channel"] "uq_notification_deliveries_message_channel";
     CheckConstraint (In_ "status" ["pending"; "processing"; "retry_scheduled"; "delivered"; "dead_letter"]) "ck_notification_deliveries_status";
     CheckConstraint (Between_ "attempt_count" 0 3) "ck_notification_deliveries_attempt_count";
     ForeignKeyConstraint ["inbox_consumption_id"] ("inbox_consumptions", "id") "RESTRICT";
     ForeignKeyConstraint ["incident_id"] ("dependency_incidents", "id") "RESTRICT";
     ForeignKeyConstraint ["source_id"] ("source_profiles", "id") "RESTRICT"]
    [MetaIndex "ix_notification_deliveries_retry_due" ["status"; "next_attempt_at"; "lease_expires_at"] false None;
     MetaIndex "ix_notification_deliveries_tenant_created" ["tenant_id"; "created_at"] false None;
     MetaIndex "ix_notification_deliveries_source_created" ["source_id"; "created_at"] false None;
     MetaIndex "ix_notification_deliveries_incident_id" ["incident_id"] false None].

Definition DependencyIncident : model :=
  Model "dependency_incidents"
    ([Column_ "id" Integer false;
     Column_ "source_id" Integer false;
     Column_ "tenant_id" Integer true;
     Column_ "trigger_type" (String_ 32) false;
     Column_ "fingerprint" (String_ 255) false;
     Column_ "active_key" (String_ 255) true;
     Column_ "status" (String_ 32) false;
     Column_ "severity" (String_ 32) false;
     Column_ "summary" (String_ 1024) false;
     Column_ "guidance" (String_ 2048) false;
     Column_ "trigger_details" JSON false;
     Column_ "occurrence_count" Integer false;
     Column_ "first_seen_at" DateTime false;
     Column_ "last_seen_at" DateTime false;
     Column_ "acknowledged_at" DateTime true;
     Column_ "acknowledged_by" (String_ 128) true;
     Column_ "resolved_at" DateTime true;
     Column_ "resolved_by" (String_ 128) true;
     Column_ "last_notification_at" DateTime true] ++ TimestampMixin)
    [PrimaryKeyConstraint ["id"];
     CheckConstraint (In_ "status" ["open"; "acknowledged"; "resolved"]) "ck_dependency_incidents_status";
     CheckConstraint (In_ "trigger_type" ["availability"; "latency"; "drift"]) "ck_dependency_incidents_trigger_type";
     ForeignKeyConstraint ["source_id"] ("source_profiles", "id") "RESTRICT"]
    [MetaIndex "ix_dependency_incidents_tenant_status" ["tenant_id"; "status"] false None;
     MetaIndex "ix_dependency_incidents_source_status" ["source_id"; "status"] false None;
     MetaIndex "ix_dependency_incidents_last_seen_at" ["last_seen_at"] false None;
     MetaIndex "ix_dependency_incidents_active_key" ["active_key"] true None].

Definition ContractSnapshot : model :=
  Model "contract_snapshots"
    ([Column_ "id" Integer false;
     Column_ "source_id" Integer false;
     Column_ "schema_version" (String_ 64) true;
     Column_ "payload_schema" JSON false;
     Column_ "schema_fingerprint" (String_ 64) false;
     Column_ "compatibility_score" Float false;
     Column_ "snapshot_note" (String_ 512) true] ++ TimestampMixin)
    [PrimaryKeyConstraint ["id"];
     ForeignKeyConstraint ["source_id"] ("source_profiles", "id") "RESTRICT"]
    [MetaIndex "ix_contract_snapshots_source_id" ["source_id"] false None;
     MetaIndex "ix_contract_snapshots_fingerprint" ["schema_fingerprint"] false None].

Definition ContractBaseline : model :=
  Model "contract_baselines"
    ([Column_ "id" Integer false;
     Column_ "source_id" Integer false;
     Column_ "tenant_id" Integer true;
     Column_ "baseline_snapshot_id" Integer false;
     Column_ "promoted_from_baseline_id" Integer true;
     Column_ "version" Integer false;
     Column_ "status" (String_ 32) false;
     Column_ "active_key" (String_ 128) true;
     Column_ "accepted_by" (String_ 128) false;
     Column_ "accepted_at" DateTime false;
     Column_ "acceptance_note" (String_ 512) true;
     Column_ "superseded_at" DateTime true;
     Column_ "candidate_snapshot_id" Integer true;
     Column_ "candidate_schema_fingerprint" (String_ 64) true;
     Column_ "candidate_observation_count" Integer false;
     Column_ "candidate_drift_event_id" Integer true;
     Column_ "candidate_first_seen_at" DateTime true;
     Column_ "candidate_last_seen_at" DateTime true] ++ TimestampMixin)
    [PrimaryKeyConstraint ["id"];
     UniqueConstraint ["source_id"; "version"] "uq_contract_baselines_source_version";
     CheckConstraint (In_ "status" ["active"; "superseded"]) "ck_contract_baselines_status";
     ForeignKeyConstraint ["source_id"] ("source_profiles", "id") "RESTRICT";
     ForeignKeyConstraint ["tenant_id"] ("tenants", "id") "SET NULL";
     ForeignKeyConstraint ["baseline_snapshot_id"] ("contract_snapshots", "id") "RESTRICT";
     ForeignKeyConstraint ["promoted_from_baseline_id"] ("contract_baselines", "id") "SET NULL";
     ForeignKeyConstraint ["candidate_snapshot_id"] ("contract_snapshots", "id") "RESTRICT";
     ForeignKeyConstraint ["candidate_drift_event_id"] ("drift_events", "id") "RESTRICT"]
    [MetaIndex "ix_contract_baselines_source_status" ["source_id"; "status"] false None;
     MetaIndex "ix_contract_baselines_tenant_status" ["tenant_id"; "status"] false None;
     MetaIndex "ix_contract_baselines_baseline_snapshot" ["baseline_snapshot_id"] false None;
     MetaIndex "ix_contract_baselines_active_key" ["active_key"] true None].

Definition DriftEvent : model :=
  Model "drift_events"
    ([Column_ "id" Integer false;
     Column_ "source_id" Integer false;
     Column_ "previous_snapshot_id" Integer false;
     Column_ "current_snapshot_id" Integer false;
     Column_ "event_type" (String_ 32) false;
     Column_ "severity" (String_ 32) false;
     Column_ "added_fields" JSON false;
     Column_ "removed_fields" JSON false;
     Column_ "type_changed_fields" JSON false;
     Column_ "compatibility_score" Float false;
     Column_ "summary" (String_ 1024) true] ++ TimestampMixin)
    [PrimaryKeyConstraint ["id"];
     ForeignKeyConstraint ["source_id"] ("source_profiles", "id") "RESTRICT";
     ForeignKeyConstraint ["previous_snapshot_id"] ("contract_snapshots", "id") "RESTRICT";
     ForeignKeyConstraint ["current_snapshot_id"] ("contract_snapshots", "id") "RESTRICT"]
    [MetaIndex "ix_drift_events_source_id" ["source_id"] false None;
     MetaIndex "ix_drift_events_event_type" ["event_type"] false None;
     MetaIndex "ix_drift_events_severity" ["severity"] false None;
     MetaIndex "ix_drift_events_current_snapshot_id" ["current_snapshot_id"] false None].

Definition NotificationChannel : model :=
  Model "notification_channels"
    ([Column_ "id" Integer false;
     Column_ "tenant_id" Integer true;
     Column_ "channel_type" (String_ 32) false;
     Column_ "destination" (String_ 512) false;
     Column_ "is_enabled" Boolean false;
     Column_ "config" JSON false] ++ TimestampMixin)
    [PrimaryKeyConstraint ["id"];
     ForeignKeyConstraint ["tenant_id"] ("tenants", "id") "SET NULL"]
    [MetaIndex "ix_notification_channels_tenant_id" ["tenant_id"] false None].

Definition SecurityEvent : model :=
  Model "security_events"
    ([Column_ "id" Integer false;
     Column_ "category" (String_ 32) false;
     Column_ "event_type" (String_ 100) true;
     Column_ "action" (String_ 100) true;
     Column_ "decision" (String_ 32) true;
     Column_ "reason" (String_ 512) true;
     Column_ "actor_type" (String_ 64) false;
     Column_ "actor_id" (String_ 255) true;
     Column_ "tenant_id" Integer true;
     Column_ "resource_type" (String_ 64) true;
     Column_ "resource_id" (String_ 255) true;
     Column_ "correlation_id" (String_ 128) true;
     Column_ "ip_address" (String_ 64) true;
     Column_ "user_agent" (String_ 512) true;
     Column_ "event_metadata" JSON true;
     Column_ "prev_event_hash" (String_ 64) true;
     Column_ "event_hash" (String_ 64) true;
     Column_ "signal_type" (String_ 64) true;
     Column_ "detection_rule" (String_ 128) true;
     Column_ "evidence" JSON true;
     Column_ "action_taken" (String_ 128) true;
     Column_ "severity" (String_ 32) true;
     Column_ "resolved_at" DateTime true;
     Column_ "resolved_by" (String_ 255) true;
     Column_ "notes" (String_ 1024) true] ++ TimestampMixin)
    [PrimaryKeyConstraint ["id"];
     CheckConstraint (In_ "category" ["abuse"; "audit"]) "ck_security_events_category";
     ForeignKeyConstraint ["tenant_id"] ("tenants", "id") "SET NULL"]
    [MetaIndex "ix_security_events_created_at" ["created_at"] false None;
     MetaIndex "ix_security_events_event_type" ["event_type"] false None;
     MetaIndex "ix_security_events_tenant_id" ["tenant_id"] false None;
     MetaIndex "ix_security_events_actor_type" ["actor_type"] false None;
     MetaIndex "ix_security_events_actor_id" ["actor_id"] false None;
     MetaIndex "ix_security_events_signal_type" ["signal_type"] false None;
     MetaIndex "ix_security_events_resolved_at" ["resolved_at"] false None].

Definition SourceProfile : model :=
  Model "source_profiles"
    ([Column_ "id" Integer false;
     Column_ "name" (String_ 255) false;
     Column_ "base_url" (String_ 2048) false;
     Column_ "health_check_path" (String_ 255) false;
     Column_ "probe_interval_seconds" Integer false;
     Column_ "is_active" Boolean false;
     Column_ "tenant_id" Integer true;
     Column_ "latency_threshold_ms" Float true;
     Column_ "incident_failure_threshold" Integer false;
     Column_ "incident_cooldown_seconds" Integer false;
     Column_ "auth_type" (String_ 16) false;
     Column_ "api_key" (String_ 2048) true;
     Column_ "auth_header_name" (String_ 128) false;
     Column_ "auth_username" (String_ 255) true] ++ TimestampMixin)
    [PrimaryKeyConstraint ["id"];
     ForeignKeyConstraint ["tenant_id"] ("tenants", "id") "SET NULL"]
    [MetaIndex "ix_source_profiles_name" ["name"] true None;
     MetaIndex "ix_source_profiles_active" ["is_active"] false (Some "is_active = true");
     MetaIndex "ix_source_profiles_tenant_id" ["tenant_id"] false None].

Definition ProviderHealthSample : model :=
  Model "provider_health_samples"
    ([Column_ "id" Integer false;
     Column_ "source_id" Integer false;
     Column_ "sampled_at" DateTime false;
     Column_ "latency_ms" Float false;
     Column_ "is_success" Boolean false;
     Column_ "http_status" Integer true;
     Column_ "response_body_hash" (String_ 64) true;
     Column_ "error_message" (String_ 512) true;
     Column_ "region" (String_ 64) true;
     Column_ "tenant_id" Integer true] ++ TimestampMixin)
    [PrimaryKeyConstraint ["id"];
     ForeignKeyConstraint ["source_id"] ("source_profiles", "id") "RESTRICT";
     ForeignKeyConstraint ["tenant_id"] ("tenants", "id") "SET NULL"]
    [MetaIndex "ix_phs_source_id" ["source_id"] false None;
     MetaIndex "ix_phs_sampled_at" ["sampled_at"] false None;
     MetaIndex "ix_phs_source_sampled" ["source_id"; "sampled_at"] false None;
     MetaIndex "ix_phs_tenant_id" ["tenant_id"] false None].

Definition Tenant : model :=
  Model "tenants"
    ([Column_ "id" Integer false;
     Column_ "name" (String_ 128) false] ++ TimestampMixin)
    [PrimaryKeyConstraint ["id"]]
    [MetaIndex "ix_tenants_name" ["name"] true None].

Definition User : model :=
  Model "users"
    ([Column_ "id" Integer false;
     Column_ "username" (String_ 64) false;
     Column_ "email" (String_ 255) false;
     Column_ "password_hash" (String_ 255) false;
     Column_ "is_active" Boolean false;
     Column_ "tenant_id" Integer true] ++ TimestampMixin)
    [PrimaryKeyConstraint ["id"];
     ForeignKeyConstraint ["tenant_id"] ("tenants", "id") "SET NULL"]
    [MetaIndex "ix_users_username" ["username"] true None;
     MetaIndex "ix_users_email" ["email"] true None].

Definition UserTenant : model :=
  Model "user_tenants"
    ([Column_ "id" Integer false;
     Column_ "user_id" Integer false;
     Column_ "tenant_id" Integer false] ++ TimestampMixin)
    [PrimaryKeyConstraint ["id"];
     UniqueConstraint ["user_id"; "tenant_id"] "uq_user_tenant";
     ForeignKeyConstraint ["user_id"] ("users", "id") "RESTRICT";
     ForeignKeyConstraint ["tenant_id"] ("tenants", "id") "RESTRICT"]
    [MetaIndex "ix_user_tenants_user_id" ["user_id"] false None;
     MetaIndex "ix_user_tenants_tenant_id" ["tenant_id"] false None].

Definition TenantConfig : model :=
  Model "tenant_configs"
    ([Column_ "id" Integer false;
     Column_ "tenant_id" Integer false;
     Column_ "retention_days" (String_ 32) false;
     Column_ "latency_alert_threshold_ms" Float true;
     Column_ "max_incident_occurrences" Integer true;
     Column_ "feature_flags" JSON false] ++ TimestampMixin)
    [PrimaryKeyConstraint ["id"];
     UniqueConstraint ["tenant_id"] "uq_tenant_configs_tenant_id";
     ForeignKeyConstraint ["tenant_id"] ("tenants", "id") "RESTRICT"]
    [].

Definition AgentRun : model :=
  Model "agent_runs"
    ([Column_ "id" Integer false;
     Column_ "observation_id" Integer false;
     Column_ "status" (String_ 32) false;
     Column_ "root_cause_hypothesis" (String_ 2048) true;
     Column_ "severity_assessment" (String_ 32) true;
     Column_ "recommended_action" (String_ 2048) true;
     Column_ "confidence_score" Float true;
     Column_ "reviewer_user_id" Integer true;
     Column_ "reviewed_at" DateTime true] ++ TimestampMixin)
    [PrimaryKeyConstraint ["id"];
     ForeignKeyConstraint ["observation_id"] ("observations", "id") "RESTRICT"]
    [MetaIndex "ix_agent_runs_observation_id" ["observation_id"] false None;
     MetaIndex "ix_agent_runs_status" ["status"] false None].

Definition models : list model :=
  [Observation; ProcessedEvent; OutboxEvent; InboxConsumption; NotificationDelivery; DependencyIncident; ContractSnapshot; ContractBaseline; DriftEvent; NotificationChannel; SecurityEvent; SourceProfile; ProviderHealthSample; Tenant; User; UserTenant; TenantConfig; AgentRun].

End Orm.
Import Orm.

(** ** The comparison *)

Module Drift.
Import Pg.

(** What the database lacks or has otherwise, seen from the models. *)
Inductive difference :=
| MissingTable (t : string)
| MissingColumn (t c : string)
| ExtraColumn (t c : string)
| TypeDiffers (t c : string) (declared migrated : type_)
| NullableDiffers (t c : string) (declared : bool)
| MissingIndex (t : string) (i : string)
| IndexDiffers (t : string) (i : string)
| MissingConstraint (t : string) (k : constraint_)
| ExtraConstraint (t : string) (k : constraint_).

#[export] Instance difference_eq_dec : EqDecision difference.
Proof. solve_decision. Defined.

Definition find_column (cs : list column) (n : string) : option column :=
  List.find (fun c => String.eqb (column_name c) n) cs.

Definition column_differences (t : string) (declared migrated : list column) : list difference :=
  flat_map (fun c =>
    match find_column migrated (column_name c) with
    | None => [MissingColumn t (column_name c)]
    | Some c' =>
        (if bool_decide (column_type c = column_type c') then [] else [TypeDiffers t (column_name c) (column_type c) (column_type c')]) ++
        (if Bool.eqb (column_nullable c) (column_nullable c') then [] else [NullableDiffers t (column_name c) (column_nullable c)])
    end) declared ++
  flat_map (fun c' => match find_column declared (column_name c') with None => [ExtraColumn t (column_name c')] | Some _ => [] end) migrated.

Definition index_differences (d : db) (m : model) : list difference :=
  flat_map (fun i =>
    match indexes d !! meta_name i with
    | None => [MissingIndex (tablename m) (meta_name i)]
    | Some j =>
        if bool_decide (j = Index (tablename m) (meta_columns i) (meta_unique i) (meta_where i)) then []
        else [IndexDiffers (tablename m) (meta_name i)]
    end) (model_indexes m).

Definition constraint_differences (m : model) (ks : list constraint_) : list difference :=
  (MissingConstraint (tablename m) <$> filter (fun k => k ∉ ks) (model_constraints m)) ++
  (ExtraConstraint (tablename m) <$> filter (fun k => k ∉ model_constraints m) ks).

Definition differences (d : db) (m : model) : list difference :=
  match tables d !! tablename m with
  | None => [MissingTable (tablename m)]
  | Some T =>
      column_differences (tablename m) (model_columns m) (columns T) ++
      index_differences d m ++ constraint_differences m (constraints T)
  end.

Definition schema_differences (d : db) : list difference := flat_map (differences d) models.

(** The [INSERT] that the unit of work sends for new objects of a mapped class names the
    columns of the class, the generated primary key apart. *)
Definition insert_columns (m : model) : list string :=
  List.filter (fun n => negb (String.eqb n "id")) (column_name <$> model_columns m).

Definition insert (m : model) (values : list (list (option string))) : op :=
  execute (INSERT_ON_CONFLICT_DO_NOTHING (tablename m) (insert_columns m) values).

End Drift.

(** ** Which objects are compared *)

Module Filters.
Import Orm.

(** [include_object] of [alembic/env.py]; [compare_to] says whether the metadata has a
    counterpart. *)
Definition include_object (name : option string) (type_ : string) (reflected compare_to : bool) : bool :=
  if negb (String.eqb type_ "table") || negb reflected then true
  else if negb compare_to then false
  else negb (match name with
             | Some n => String.eqb n "observations_archive" || String.prefix "observations_archive_" n
             | None => false
             end).

(** [include_object] of the inference service's [env.py]. *)
Definition inference_include_object (name : option string) (type_ : string) (reflected compare_to : bool) : bool :=
  if negb (String.eqb type_ "table") || negb reflected then true else compare_to.

Definition declared (t : string) : bool := bool_decide (t ∈ tablename <$> models).

(** The guard against archive partitions decides nothing: with the declared tables, the
    two filters are the same function. *)
Theorem archive_guard_is_redundant (t type_ : string) (reflected : bool) :
  include_object (Some t) type_ reflected (declared t) = inference_include_object (Some t) type_ reflected (declared t).
Proof.
  unfold include_object, inference_include_object. case_match; [done |].
  destruct (declared t) eqn:Ht; simpl; [|done]. unfold declared in Ht. apply bool_decide_eq_true in Ht.
  assert (forallb (fun t => negb (String.eqb t "observations_archive" || String.prefix "observations_archive_" t)) (tablename <$> models) = true) as Hb
    by (by vm_compute).
  rewrite forallb_forall in Hb. apply Hb. by apply list_elem_of_In.
Qed.

End Filters.

(** ** scripts/ci/validate_migrations.py *)

Module Validation.

Definition REQUIRED_MIGRATIONS : list string :=
  ["upgrade head"; "current --check-heads"; "downgrade -1"; "upgrade head"; "current --check-heads"; "check"]%string.

Record completed := Completed { returncode : Z; stdout : string; stderr : string }.

Section Validate.
(** [python -m alembic args], run in a directory with only [DATABASE_URL] and
    [PYTHONPATH] in its environment; [W] is what it reads and writes. *)
Context {W : Type} (alembic : option string -> string -> list string -> W -> completed * W).

Definition error_message (args : list string) (code : Z) : string :=
  "alembic " +:+ String.concat " " args +:+ " failed with exit code " +:+ str_of_Z code.

(** The printed lines are the third component: what is printed on success and,
    before the error, on the error stream. *)
Definition _run_alembic (cwd : option string) (database_url : string) (args : list string) (w : W)
  : result string unit * W * list string :=
  let '(r, w') := alembic cwd database_url args w in
  if Z.eqb (returncode r) 0 then (Ok tt, w', [strip (stdout r)])
  else (Raise (error_message args (returncode r)), w', [stderr r]).

(** The directory and the name of an [alembic.ini] that was given. *)
Definition command_args (alembic_config : option (string * string)) (command : string) : list string :=
  match alembic_config with
  | Some (_, name) => "-c"%string :: name :: split_on " " command
  | None => split_on " " command
  end.

Fixpoint validate_loop (commands : list string) (alembic_config : option (string * string)) (database_url : string) (w : W)
  : result string unit * W * list string :=
  match commands with
  | [] => (Ok tt, w, [])
  | command :: commands =>
      match _run_alembic (fst <$> alembic_config) database_url (command_args alembic_config command) w with
      | (Ok _, w, out) =>
          let '(r, w, out') := validate_loop commands alembic_config database_url w in (r, w, out ++ out')
      | (Raise e, w, out) => (Raise e, w, out)
      end
  end.

Definition validate (database_url : string) (alembic_config : option (string * string)) : W -> result string unit * W * list string :=
  validate_loop REQUIRED_MIGRATIONS alembic_config database_url.

(** The exit status and the printed lines. *)
Definition main (database_url : string) (alembic_config : option (string * string)) (w : W) : Z * list string :=
  match validate database_url alembic_config w with
  | (Ok _, _, out) => (0, out ++ ["Migration validation passed."%string])
  | (Raise e, _, out) => (1, out ++ [e])
  end.

(** The status is zero exactly if every command returned zero, each run in the world
    that the one before it left. *)
Fixpoint all_succeed (commands : list string) (alembic_config : option (string * string)) (database_url : string) (w : W) : Prop :=
  match commands with
  | [] => True
  | command :: commands =>
      let '(r, w') := alembic (fst <$> alembic_config) database_url (command_args alembic_config command) w in
      returncode r = 0 /\ all_succeed commands alembic_config database_url w'
  end.

Lemma validate_loop_ok (commands : list string) (c : option (string * string)) (u : string) (w : W) :
  is_ok (validate_loop commands c u w).1.1 = true <-> all_succeed commands c u w.
Proof.
  revert w. induction commands as [|command commands IH]; intros w; simpl; [done |].
  unfold _run_alembic. destruct (alembic _ _ _ w) as [r w']. destruct (Z.eqb_spec (returncode r) 0) as [Hr|Hr].
  - specialize (IH w'). destruct (validate_loop commands c u w') as [[o w''] out]. simpl in *. rewrite IH. naive_solver.
  - simpl. naive_solver.
Qed.

Theorem main_succeeds (c : option (string * string)) (u : string) (w : W) :
  (main u c w).1 = 0 <-> all_succeed REQUIRED_MIGRATIONS c u w.
Proof.
  rewrite <- validate_loop_ok. unfold main, validate.
  destruct (validate_loop _ c u w) as [[[|] w'] out]; simpl; naive_solver.
Qed.
End Validate.

End Validation.

(** ** What differs, and what follows *)

Module DriftTheorems.
Import History Pg PgLaws PgInstance MigrationRuns Drift Validation.

(** Tactics need not evaluate the history. *)
#[local] Opaque head.

Definition is_foreign_key (k : constraint_) : bool :=
  match k with ForeignKeyConstraint _ _ _ => true | _ => false end.

Definition about_foreign_key (x : difference) : bool :=
  match x with MissingConstraint _ k | ExtraConstraint _ k => is_foreign_key k | _ => false end.

(** The differences at the head, foreign keys apart. *)
Definition known_differences : list difference :=
    [MissingColumn "observations" "source_id";
     ExtraColumn "observations" "source";
     IndexDiffers "observations" "ix_observations_active_source";
     MissingConstraint "observations" (UniqueConstraint ["source_id"; "timestamp"] "uq_observations_source_timestamp");
     ExtraConstraint "observations" (UniqueConstraint ["source"; "timestamp"] "uq_observations_source_timestamp");
     MissingIndex "notification_channels" "ix_notification_channels_tenant_id";
     TypeDiffers "source_profiles" "auth_type" (String_ 16) (String_ 32);
     NullableDiffers "source_profiles" "auth_type" false;
     TypeDiffers "source_profiles" "api_key" (String_ 2048) (String_ 512);
     NullableDiffers "source_profiles" "auth_header_name" false;
     NullableDiffers "tenant_configs" "tenant_id" false;
     TypeDiffers "tenant_configs" "retention_days" (String_ 32) Integer;
     TypeDiffers "tenant_configs" "latency_alert_threshold_ms" Float Integer;
     NullableDiffers "tenant_configs" "latency_alert_threshold_ms" true;
     NullableDiffers "tenant_configs" "max_incident_occurrences" true;
     NullableDiffers "tenant_configs" "feature_flags" false;
     MissingConstraint "tenant_configs" (UniqueConstraint ["tenant_id"] "uq_tenant_configs_tenant_id")]%string.

(** Everything but foreign keys in which the database at the head differs from the
    models: the reference of an observation to its source, the columns of the outbound
    authentication, and the configuration of tenants. *)
Theorem head_differs_from_models :
  exists d, head = Some d /\
    List.filter (fun x => negb (about_foreign_key x)) (schema_differences d) = known_differences.
Proof.
  assert (match head with
          | Some d => bool_decide (List.filter (fun x => negb (about_foreign_key x)) (schema_differences d) = known_differences)
          | None => false end = true) as Hb by (by vm_compute).
  destruct head as [d|]; [|done]. exists d. split; [done |]. by apply bool_decide_eq_true in Hb.
Qed.

(** Of the foreign keys that the models declare the migrations create one, that of the
    notification channels. *)
Theorem foreign_keys_at_head (d : db) (m : model) (k : constraint_) (T : table) :
  head = Some d -> m ∈ models -> k ∈ model_constraints m -> is_foreign_key k = true ->
  tables d !! tablename m = Some T -> (k ∈ constraints T <-> tablename m = "notification_channels"%string).
Proof.
  intros Hd Hm Hk Hf HT.
  assert (match head with
          | Some d => forallb (fun m => match tables d !! tablename m with
              | Some T => forallb (fun k => negb (is_foreign_key k) ||
                  Bool.eqb (bool_decide (k ∈ constraints T)) (String.eqb (tablename m) "notification_channels")) (model_constraints m)
              | None => true end) models
          | None => false end = true) as Hb by (by vm_compute).
  rewrite Hd, forallb_forall in Hb. specialize (Hb m). rewrite HT, forallb_forall in Hb.
  specialize (Hb ltac:(by apply list_elem_of_In) k ltac:(by apply list_elem_of_In)). rewrite Hf in Hb. simpl in Hb.
  apply Bool.eqb_prop in Hb. destruct (String.eqb_spec (tablename m) "notification_channels").
  - apply bool_decide_eq_true in Hb. split; intros _; assumption.
  - apply bool_decide_eq_false in Hb. split; intros ?; contradiction.
Qed.

(** C26: No revision gives [observations] a column [source_id]: wherever the history has
    brought the database, an [INSERT] that names the column fails, and the ones for
    [Observation] do, whatever they are to insert. *)
Theorem observation_insert_fails (n : nat) (d : db) (values : list (list (option string))) :
  upgrade_to versions n empty = Some d -> run (insert Observation values) d = None.
Proof.
  intros Hd.
  assert (forall n, (n <= 16)%nat ->
    match upgrade_to versions n empty with Some d => has_column d ("observations", "source_id")%string | None => false end = false) as Hall.
  { intros k Hk. assert (forallb (fun n => negb (match upgrade_to versions n empty with Some d => has_column d ("observations", "source_id")%string | None => false end)) (seq 0 17) = true) as Hb by (by vm_compute).
    rewrite forallb_forall in Hb. apply negb_true_iff, Hb, in_seq. lia. }
  assert (has_column d ("observations", "source_id")%string = false) as Hno.
  { destruct (decide (n <= 16)%nat) as [Hn|Hn].
    - specialize (Hall n Hn). by rewrite Hd in Hall.
    - specialize (Hall 16%nat (le_n 16)). unfold upgrade_to in Hall, Hd.
      rewrite take_ge in Hd by (transitivity 16%nat; [apply Nat.eq_le_incl; by vm_compute | lia]).
      rewrite take_ge in Hall by (apply Nat.eq_le_incl; by vm_compute). by rewrite Hd in Hall. }
  unfold has_column in Hno. simpl in Hno. simpl. unfold update_table.
  destruct (tables d !! "observations"%string) as [T|]; [|done]. simpl.
  apply bool_decide_eq_false in Hno. rewrite bool_decide_eq_false_2; [done |].
  intros Hsub. apply Hno, Hsub. right. left.
Qed.

(** For every other class the statement names columns that are there. *)
Theorem other_inserts_name_columns (d : db) (m : model) (T : table) :
  head = Some d -> m ∈ models -> tablename m <> "observations"%string -> tables d !! tablename m = Some T ->
  "id"%string :: insert_columns m ⊆ names T.
Proof.
  intros Hd Hm Hne HT.
  assert (match head with
          | Some d => forallb (fun m => String.eqb (tablename m) "observations" ||
              match tables d !! tablename m with Some T => bool_decide ("id"%string :: insert_columns m ⊆ names T) | None => false end) models
          | None => false end = true) as Hb by (by vm_compute).
  rewrite Hd, forallb_forall in Hb. specialize (Hb m ltac:(by apply list_elem_of_In)).
  destruct (String.eqb_spec (tablename m) "observations"); [contradiction |]. rewrite HT in Hb. simpl in Hb.
  apply bool_decide_eq_true in Hb. exact Hb.
Qed.

(** *** The models by themselves *)

(** [Base.metadata.create_all]: the tables, those that others refer to first, each
    followed by its indexes. *)
Definition create_all : list op :=
  flat_map (fun m => create_table (tablename m) (model_columns m) (model_constraints m) ::
      ((fun i => create_index (meta_name i) (tablename m) (meta_columns i) (meta_unique i) (meta_where i)) <$> model_indexes m))
    [Tenant; User; UserTenant; TenantConfig; NotificationChannel; SecurityEvent; SourceProfile; Observation; AgentRun;
     ProviderHealthSample; ProcessedEvent; OutboxEvent; InboxConsumption; DependencyIncident; NotificationDelivery;
     ContractSnapshot; DriftEvent; ContractBaseline].

(** The declarations are consistent: they can be created on an empty database, which then
    differs from them in nothing (the test suite runs on a database made that way). *)
Theorem models_are_consistent :
  exists d, run_all create_all empty = Some d /\ schema_differences d = [] /\ wf d.
Proof.
  assert (match run_all create_all empty with Some d => bool_decide (schema_differences d = []) | None => false end = true) as Hb
    by (by vm_compute).
  destruct (run_all create_all empty) as [d|] eqn:Hd; [|done]. exists d. split; [done |].
  split; [by apply bool_decide_eq_true in Hb | exact (run_all_well_formed (S := db) _ empty d pg_wf_empty Hd)].
Qed.

(** *** The validation *)

Section ValidateHead.
Context {W : Type} (alembic : option string -> string -> list string -> W -> completed * W).
Context (database : W -> db).

(** What the script relies on.  A command that returns zero has done what it is for:
    [upgrade head] leaves the database at the head if it was on the way there, and
    [downgrade -1] one revision earlier; [current] changes nothing; [check] finds a
    column that a model declares and the database does not have. *)
Hypothesis upgrade_head_ok : forall cwd u w r w' n d,
  alembic cwd u ["upgrade"; "head"]%string w = (r, w') -> returncode r = 0 ->
  upgrade_to versions n empty = Some d -> database w = d -> Some (database w') = head.
Hypothesis current_ok : forall cwd u w r w',
  alembic cwd u ["current"; "--check-heads"]%string w = (r, w') -> database w' = database w.
Hypothesis downgrade_ok : forall cwd u w r w',
  alembic cwd u ["downgrade"; "-1"]%string w = (r, w') -> returncode r = 0 ->
  Some (database w) = head -> Some (database w') = upgrade_to versions 15 empty.
Hypothesis check_ok : forall cwd u w r w' t c,
  alembic cwd u ["check"]%string w = (r, w') -> MissingColumn t c ∈ schema_differences (database w) -> returncode r <> 0.

(** On a database anywhere on the way to the head the validation does not pass. *)
Theorem validation_rejects_the_migrations (u : string) (w : W) (n : nat) :
  upgrade_to versions n empty = Some (database w) -> (main alembic u None w).1 = 1.
Proof.
  intros Hw.
  assert ((main alembic u None w).1 <> 0) as Hne.
  { rewrite main_succeeds. cbn. intros Hall.
    destruct (alembic None u ["upgrade"; "head"]%string w) as [r1 w1] eqn:H1. destruct Hall as [R1 Hall].
    destruct (alembic None u ["current"; "--check-heads"]%string w1) as [r2 w2] eqn:H2. destruct Hall as [R2 Hall].
    destruct (alembic None u ["downgrade"; "-1"]%string w2) as [r3 w3] eqn:H3. destruct Hall as [R3 Hall].
    destruct (alembic None u ["upgrade"; "head"]%string w3) as [r4 w4] eqn:H4. destruct Hall as [R4 Hall].
    destruct (alembic None u ["current"; "--check-heads"]%string w4) as [r5 w5] eqn:H5. destruct Hall as [R5 Hall].
    destruct (alembic None u ["check"]%string w5) as [r6 w6] eqn:H6. destruct Hall as [R6 _].
    pose proof (upgrade_head_ok _ _ _ _ _ _ _ H1 R1 Hw eq_refl) as D1.
    pose proof (current_ok _ _ _ _ _ H2) as D2.
    pose proof (downgrade_ok _ _ _ _ _ H3 R3 ltac:(by rewrite D2)) as D3.
    pose proof (upgrade_head_ok _ _ _ _ _ _ _ H4 R4 (eq_sym D3) eq_refl) as D4.
    pose proof (current_ok _ _ _ _ _ H5) as D5.
    apply (check_ok _ _ _ _ _ "observations" "source_id" H6); [|done].
    assert (match head with Some d => bool_decide (MissingColumn "observations" "source_id" ∈ schema_differences d) | None => false end = true)
      as Hb by (by vm_compute).
    rewrite D5. rewrite <- D4 in Hb. by apply bool_decide_eq_true in Hb. }
  unfold main in *. destruct (validate alembic u None w) as [[[|] ?] ?]; simpl in *; done.
Qed.
End ValidateHead.

End DriftTheorems.

(** ** Witnesses *)

Module DriftWitnesses.
Import History Pg PgLaws PgInstance MigrationRuns Drift Validation DriftTheorems.

#[local] Opaque head upgrade_to.

Definition channel_key : constraint_ := ForeignKeyConstraint ["tenant_id"] ("tenants", "id") "SET NULL".

(** The table of [m] at the head. *)
Definition head_table (m : model) : option table := d ← head; tables d !! tablename m.

Lemma head_table_spec (m : model) :
  bool_decide (is_Some (head_table m)) = true ->
  exists d T, head = Some d /\ tables d !! tablename m = Some T /\ head_table m = Some T.
Proof.
  intros [T HT]%bool_decide_eq_true. pose proof HT as HT'. unfold head_table in HT.
  apply bind_Some in HT as (d & Hd & HT). exists d, T. repeat split; assumption.
Qed.

Lemma foreign_keys_at_head_witness :
  exists T, head_table NotificationChannel = Some T /\ channel_key ∈ constraints T.
Proof.
  destruct (head_table_spec NotificationChannel ltac:(by vm_compute)) as (d & T & Hd & HT & Hh).
  exists T. split; [exact Hh |].
  apply (foreign_keys_at_head d NotificationChannel channel_key T Hd); [| | reflexivity | exact HT | reflexivity].
  - do 9 right. left.
  - right. left.
Defined.

Lemma other_inserts_name_columns_witness :
  exists T, head_table User = Some T /\ "username"%string ∈ names T.
Proof.
  destruct (head_table_spec User ltac:(by vm_compute)) as (d & T & Hd & HT & Hh).
  exists T. split; [exact Hh |].
  apply (other_inserts_name_columns d User T Hd); [do 14 right; left | discriminate | exact HT | right; left].
Defined.

Definition one_row : list (list (option string)) :=
  [[Some "1"; Some "2026-08-22"; Some "{}"; Some "[]"; Some "false"; None; None; Some "2026-08-22"; None; None]]%string.

Lemma observation_insert_fails_witness :
  exists d, upgrade_to versions 16 empty = Some d /\ run (insert Observation one_row) d = None.
Proof.
  assert (is_Some (upgrade_to versions 16 empty)) as [d Hd] by (apply (bool_decide_unpack _); by vm_compute).
  exists d. split; [exact Hd |]. exact (observation_insert_fails 16 d one_row Hd).
Defined.

(** An alembic that runs the history: the world is the database. *)
Definition is_missing_column (x : difference) : bool := match x with MissingColumn _ _ => true | _ => false end.

Definition sample_alembic (_ : option string) (_ : string) (args : list string) (d : db) : completed * db :=
  let ok := Completed 0 "" "" in
  let failed := Completed 1 "" "FAILED" in
  if bool_decide (args = ["upgrade"; "head"]%string) then
    match head with Some d' => (ok, d') | None => (failed, d) end
  else if bool_decide (args = ["downgrade"; "-1"]%string) then
    match upgrade_to versions 15 empty with Some d' => (ok, d') | None => (failed, d) end
  else if bool_decide (args = ["check"]%string) then
    (if existsb is_missing_column (schema_differences d) then failed else ok, d)
  else (ok, d).

Lemma validation_rejects_the_migrations_witness : (main sample_alembic "postgresql://ci" None empty).1 = 1.
Proof.
  apply (validation_rejects_the_migrations sample_alembic (fun d => d)) with (n := 0%nat).
  - intros cwd u w r w' n d Hr H0 _ _. unfold sample_alembic in Hr.
    rewrite bool_decide_eq_true_2 in Hr by reflexivity. destruct head; injection Hr as <- <-; [reflexivity | discriminate].
  - intros cwd u w r w' Hr. unfold sample_alembic in Hr.
    rewrite !bool_decide_eq_false_2 in Hr by discriminate. injection Hr as _ <-. reflexivity.
  - intros cwd u w r w' Hr H0 _. unfold sample_alembic in Hr.
    rewrite bool_decide_eq_false_2, bool_decide_eq_true_2 in Hr by (reflexivity || discriminate).
    destruct (upgrade_to versions 15 empty); injection Hr as <- <-; [reflexivity | discriminate].
  - intros cwd u w r w' t c Hr Hin. unfold sample_alembic in Hr.
    rewrite !bool_decide_eq_false_2, bool_decide_eq_true_2 in Hr by (reflexivity || discriminate).
    assert (existsb is_missing_column (schema_differences w) = true) as Hx.
    { apply existsb_exists. exists (MissingColumn t c). split; [by apply list_elem_of_In | reflexivity]. }
    rewrite Hx in Hr. injection Hr as <- <-. discriminate.
  - vm_compute. reflexivity.
Defined.

End DriftWitnesses.
