(* ===== verification/Analysis.v ===== *)
(** * Analysis of an observation and the session examples

    The rest of [api/routes/observations.py]: Module [Analyze] has the two endpoints that
    ask a language model about a stored observation (one answer with a structured result,
    one stream of server-sent events), Module [SessionRoutes] the session-authenticated
    copies of the endpoints on the guards of [UserAuth.v].

    The search for context ([vector_search.py], modelled in [VectorSearch.v]), the OpenAI
    client, the text of JSON and of a timestamp are parameters.  Authorisation by token has
    happened before an analysis runs. *)

From S2P Require Import Prelude Db Incidents SourceRegistry Cache Observations ObservationRoutes Jwt InternalAuth UserAuth.

(** ** Analysis *)

Module Analyze.
Import SourceRegistry Observations.
Import ObservationRoutes(route_error(..), not_found).

Record Settings := SettingsOf {
  openai_enabled : bool;
  openai_api_key : option string;
  openai_model : string
}.

(** [ObservationClassification]. *)
Record Classification := Class_ {
  category : string;
  priority : Z;
  summary : string;
  sentiment : string
}.

Definition valid_classification (c : Classification) : bool := (1 <=? priority c) && (priority c <=? 5).

Record message := Message { role : string; content : string }.

(** A completion: the usage, if the service reports one, and for each choice the parsed
    object or nothing, where the model has refused. *)
Record completion := Completion { usage : option Z; choices : list (option Classification) }.

(** [response.get("results", [])] and [for r in ...]: the items of what is iterated;
    [None] where Python raises. *)
Definition items (j : json) : option (list json) :=
  match j with
  | JList l => Some l
  | JObj l => Some (map (fun kv => JStr kv.1) l)
  | JStr s => Some (map (fun c => JStr (String c EmptyString)) (String.list_ascii_of_string s))
  | _ => None
  end.

(** [r.get("text", "")] as an element of a [join], which takes strings only. *)
Definition text_of (r : json) : option string :=
  match r with
  | JObj d => match json_member "text" d with Some (JStr s) => Some s | None => Some EmptyString | Some _ => None end
  | _ => None
  end.

Definition separator : string := String "010" ("---" +:+ String "010" EmptyString).

(** The text of the documents found; [None] where reading the answer raises. *)
Definition context_text_of (answer : list (string * json)) : option string :=
  match items (or_else (json_member "results" answer) (JList [])) with
  | Some rs => match mapM text_of rs with Some docs => Some (String.concat separator docs) | None => None end
  | None => None
  end.

Definition fallback_context : string := "No additional context available.".

Definition newline : string := String "010" EmptyString.

Definition system_prompt : string :=
  "You are a senior data analyst. Analyze the following observation. Use the provided context from similar observations if relevant. Return the analysis as a structured JSON object matching the requested schema.".

Definition stream_system_prompt : string := "Analyze this observation and provide insights.".

(** What an endpoint answers: a value, an error answer, an exception that nothing
    catches. *)
Inductive answer (A : Type) :=
| Answered (a : A)
| Refused (e : Incidents.HTTPException)
| ServerError.
Arguments Answered {A} a.
Arguments Refused {A} e.
Arguments ServerError {A}.

Definition disabled : Incidents.HTTPException :=
  Incidents.HTTP 501 "LLM analysis is disabled or OPENAI_API_KEY is missing".

Definition configured (s : Settings) : bool := openai_enabled s && opt_str_truthy (openai_api_key s).

(** [llm_prompt_tokens_total], by model and endpoint. *)
Abbreviation counter := (gmap (string * string) Z).

Definition inc (k : string * string) (n : Z) (c : counter) : counter := <[k := or_else (c !! k) 0 + n]> c.

Section Analyze.
(** [search] is [vs_bridge.search_observation_documents], [parse] and [create] the two
    calls of the client; an error is the text of the exception. *)
Context (json_dumps : json -> string) (str_datetime : datetime -> string).
Context (search : string -> Z -> result string (list (string * json))).
Context (parse : string -> list message -> result string completion).

Definition query_text (source_name : string) (o : Observation) : string :=
  "Source: " +:+ source_name +:+ ", Data: " +:+ json_dumps (raw_data o).

Definition context_text (source_name : string) (o : Observation) : string :=
  match search (query_text source_name o) 3 with
  | Raise _ => fallback_context
  | Ok context_results => or_else (context_text_of context_results) fallback_context
  end.

Definition user_prompt (context source_name : string) (o : Observation) : string :=
  "Context from similar observations:" +:+ newline +:+ context +:+ newline +:+ newline +:+
  "Observation to analyze:" +:+ newline +:+
  "Source: " +:+ source_name +:+ newline +:+
  "Timestamp: " +:+ str_datetime (timestamp o) +:+ newline +:+
  "Data: " +:+ json_dumps (raw_data o) +:+ newline +:+
  "Tags: " +:+ String.concat ", " (tags o).

Definition analysis_messages (source_name : string) (o : Observation) : list message :=
  [Message "system" system_prompt; Message "user" (user_prompt (context_text source_name o) source_name o)].

(** The answer is validated against the response model, which takes no [None]. *)
Definition analyze_observation (s : Settings) (i : Z) (w : world) (c : counter) : answer Classification * counter :=
  match get_observation i w with
  | None => (Refused (Incidents.HTTP 404 "Observation not found"), c)
  | Some o =>
      if negb (configured s) then (Refused disabled, c)
      else
        let source_name := resolve_source_name (obs_source_id o) (sources w) in
        match parse (openai_model s) (analysis_messages source_name o) with
        | Raise exc => (Refused (Incidents.HTTP 502 ("LLM analysis failed: " +:+ exc)), c)
        | Ok completion =>
            let c := match usage completion with
                     | Some prompt_tokens => inc (openai_model s, "analyze"%string) prompt_tokens c
                     | None => c
                     end in
            (match choices completion with
             | Some parsed :: _ => if valid_classification parsed then Answered parsed else ServerError
             | None :: _ | [] => ServerError
             end, c)
        end
  end.

(** ** The stream *)

(** A streamed completion: its chunks, each with the deltas of its choices, and the
    exception that ends it early, if one does. *)
Record stream := Stream { chunks : list (list (option string)); interrupted : bool }.

Context (create : string -> list message -> result string stream).

Definition frame (content : string) : string := "data: " +:+ content +:+ newline +:+ newline.

Definition error_frame : string := frame "[ERROR] LLM analysis failed — see server logs".

Fixpoint frames (cs : list (list (option string))) (interrupted : bool) : list string :=
  match cs with
  | [] => if interrupted then [error_frame] else []
  | [] :: _ => [error_frame]
  | (Some content :: _) :: cs =>
      if str_truthy content then frame content :: frames cs interrupted else frames cs interrupted
  | (None :: _) :: cs => frames cs interrupted
  end.

Definition stream_messages (source_name : string) (o : Observation) : list message :=
  [Message "system" stream_system_prompt;
   Message "user" ("Source: " +:+ source_name +:+ ", Data: " +:+ json_dumps (raw_data o))].

Definition event_gen (s : Settings) (source_name : string) (o : Observation) : list string :=
  match create (openai_model s) (stream_messages source_name o) with
  | Raise _ => [error_frame]
  | Ok st => frames (chunks st) (interrupted st)
  end.

(** The body of the response, in the pieces in which it is sent. *)
Definition analyze_observation_stream (s : Settings) (i : Z) (w : world) : answer (list string) :=
  match get_observation i w with
  | None => Refused (Incidents.HTTP 404 "Observation not found")
  | Some o =>
      if negb (configured s) then Refused disabled
      else Answered (event_gen s (resolve_source_name (obs_source_id o) (sources w)) o)
  end.

End Analyze.

(** ** Reading an event stream

    The other end is not in the repository.  For reference, the messages that the
    processing model for event streams dispatches: the lines up to an empty one make an
    event, of which the [data] fields are joined by newlines; other lines have no part in
    it.  [events] takes the lines and the data of the event under way. *)

Fixpoint lines (s : string) : list string :=
  match s with
  | EmptyString => [EmptyString]
  | String c s =>
      match lines s with
      | l :: ls =>
          if Ascii.eqb c "010" then EmptyString :: l :: ls
          else if Ascii.eqb c "013"
          then match s with String d _ => if Ascii.eqb d "010" then l :: ls else EmptyString :: l :: ls | EmptyString => EmptyString :: l :: ls end
          else String c l :: ls
      | [] => []
      end
  end.

Definition data_field (line : string) : option string :=
  if String.prefix "data:" line then
    let v := String.substring 5 (String.length line - 5) line in
    Some (match v with String " " v => v | _ => v end)
  else None.

Fixpoint events (ls : list string) (data : list string) : list string :=
  match ls with
  | [] => []
  | l :: ls =>
      if str_truthy l then events ls (match data_field l with Some v => data ++ [v] | None => data end)
      else match data with [] => events ls [] | _ => String.concat newline data :: events ls [] end
  end.

Definition dispatched (body : string) : list string := events (lines body) [].

End Analyze.

(** ** The session examples *)

Module SessionRoutes.
Import SourceRegistry Observations ObservationRoutes.
Import Roles.

Inductive session_error :=
| Guard (e : Tokens.failure)
| Route (e : route_error).

Definition lift_route {A} (r : result route_error A) : result session_error A :=
  match r with Ok a => Ok a | Raise e => Raise (Route e) end.

(** [login_session]: the identifier of the session, and the role that is logged. *)
Definition login_session (session_id user_id role : string) : string * string :=
  let normalized_role := if str_truthy (strip role) then lower (strip role) else DEFAULT_ROLE in
  (fst (Tokens.create_session session_id), normalized_role).

Section Sessions.
Context {R : Type} `{RedisOps R}.
Context (str_of : json -> string).

Definition get_observation_secured (cookie : option string) (i : Z) (a : app R) : result session_error (list (string * value)) :=
  match Tokens.verify_session cookie with
  | Raise e => Raise (Guard e)
  | Ok _ =>
      match get_observation i (db a) with
      | None => Raise (Route not_found)
      | Some o => lift_route (respond (attributes (i, o)))
      end
  end.

Definition archive_observation_secured (now : datetime) (cookie : option string) (i : Z) (a : app R)
    : result session_error (list (string * value)) * app R :=
  match session_endpoint str_of ["user"; "admin"]%string cookie with
  | Raise e => (Raise (Guard e), a)
  | Ok _ => let '(r, a) := archive_observation now i a in (lift_route r, a)
  end.

Definition delete_observation_secured (now : datetime) (cookie : option string) (i : Z) (a : app R)
    : result session_error unit * app R :=
  match session_endpoint str_of ["admin"]%string cookie with
  | Raise e => (Raise (Guard e), a)
  | Ok _ => let '(r, a) := delete_observation_endpoint now i a in (lift_route r, a)
  end.

End Sessions.
End SessionRoutes.

(** ** Theorems *)

Module AnalysisTheorems.
Import SourceRegistry Observations Analyze.
Import ObservationRoutes(route_error(..), not_found).

(** *** The stream as events *)

(** What the frames of a stream carry. *)
Definition error_text : string := "[ERROR] LLM analysis failed — see server logs".

Fixpoint payloads (cs : list (list (option string))) (interrupted : bool) : list string :=
  match cs with
  | [] => if interrupted then [error_text] else []
  | [] :: _ => [error_text]
  | (o :: _) :: cs => (if opt_str_truthy o then [or_else o EmptyString] else []) ++ payloads cs interrupted
  end.

Lemma frames_payloads (cs : list (list (option string))) (b : bool) : frames cs b = frame <$> payloads cs b.
Proof.
  induction cs as [|[|[c|] os] cs IH]; simpl; [by destruct b | done | | done].
  unfold opt_str_truthy. destruct (str_truthy c); simpl; by rewrite IH.
Qed.

Fixpoint one_line (s : string) : bool :=
  match s with
  | EmptyString => true
  | String c s => negb (Ascii.eqb c "010") && negb (Ascii.eqb c "013") && one_line s
  end.

Lemma one_line_app (s t : string) : one_line (s +:+ t) = one_line s && one_line t.
Proof. induction s as [|c s IH]; [done |]. rewrite append_cons. simpl. by rewrite IH, andb_assoc. Qed.

Lemma concat_cons (x : string) (xs : list string) : String.concat "" (x :: xs) = x +:+ String.concat "" xs.
Proof. destruct xs; [by rewrite append_nil_r | done]. Qed.

Lemma event_lines_nonempty (s : string) : lines s <> [].
Proof.
  induction s as [|c s IH]; [done |]. simpl. destruct (lines s) as [|l ls]; [done |]. repeat case_match; done.
Qed.

Lemma lines_line (s t : string) : one_line s = true -> lines (s +:+ String "010" t) = s :: lines t.
Proof.
  induction s as [|c s IH]; intros Hs; simpl in Hs.
  - rewrite append_nil. simpl. pose proof (event_lines_nonempty t). by destruct (lines t).
  - rewrite !andb_true_iff, !negb_true_iff in Hs. destruct Hs as [[H1 H2] Hs].
    rewrite append_cons. simpl. rewrite IH by done. by rewrite H1, H2.
Qed.

Lemma data_field_frame (v : string) : data_field ("data: " +:+ v) = Some v.
Proof.
  unfold data_field. rewrite !append_cons, append_nil. simpl.
  by rewrite substring_all.
Qed.

(** A frame with one line is one event, whatever follows it. *)
Lemma dispatched_frame (v rest : string) :
  one_line v = true -> dispatched (frame v +:+ rest) = v :: dispatched rest.
Proof.
  intros Hv. unfold dispatched, frame, newline. rewrite !append_assoc.
  rewrite <- (append_assoc "data: " v), !(append_cons "010"), !append_nil.
  rewrite lines_line by (rewrite one_line_app; by rewrite Hv).
  change (String "010" rest) with (EmptyString +:+ String "010" rest). rewrite lines_line by done.
  cbn [events]. rewrite data_field_frame. rewrite !append_cons. done.
Qed.

(** C24: The stream can be read back: if no piece of the answer has a line break, the events
    that a reader dispatches are the pieces in order, empty ones left out, with the error
    text at the end of an interrupted stream. *)
Theorem stream_reads_back (cs : list (list (option string))) (b : bool) :
  Forall (fun p => one_line p = true) (payloads cs b) ->
  dispatched (String.concat "" (frames cs b)) = payloads cs b.
Proof.
  rewrite frames_payloads. induction 1 as [|p ps Hp Hps IH]; [done |].
  rewrite fmap_cons, concat_cons, dispatched_frame by done. by rewrite IH.
Qed.

(** A line break in a piece ends the field: a reader gets what comes before it, and the
    rest of the piece is lost. *)
Theorem line_break_truncates (a b rest : string) :
  one_line a = true -> one_line b = true -> b <> EmptyString -> String.prefix "data:" b = false ->
  dispatched (frame (a +:+ newline +:+ b) +:+ rest) = a :: dispatched rest.
Proof.
  intros Ha Hb Hne Hpre. unfold dispatched, frame, newline. rewrite !append_assoc.
  rewrite <- (append_assoc "data: " a), !(append_cons "010"), !append_nil.
  rewrite lines_line by (rewrite one_line_app; by rewrite Ha).
  rewrite lines_line by done.
  change (String "010" rest) with (EmptyString +:+ String "010" rest). rewrite lines_line by done.
  cbn [events]. rewrite data_field_frame, !append_cons. cbn [str_truthy].
  destruct b as [|c b]; [done |]. cbn [str_truthy]. unfold data_field. by rewrite Hpre.
Qed.

(** *** The answers *)

Section Answers.
Context (json_dumps : json -> string) (str_datetime : datetime -> string).
Context (search : string -> Z -> result string (list (string * json))).
Context (parse : string -> list message -> result string completion).

Let analyze := analyze_observation json_dumps str_datetime search parse.

(** An analysis that is answered is one of a stored observation by a configured service,
    with a priority from one to five, and it is what the service said for the prompt. *)
Theorem answered_analysis (s : Settings) (i : Z) (w : world) (c c' : counter) (r : Classification) :
  analyze s i w c = (Answered r, c') ->
  1 <= priority r <= 5 /\ configured s = true /\
  exists o k rest, get_observation i w = Some o /\
    parse (openai_model s) (analysis_messages json_dumps str_datetime search (resolve_source_name (obs_source_id o) (sources w)) o) = Ok k /\
    choices k = Some r :: rest.
Proof.
  unfold analyze, analyze_observation. destruct (get_observation i w) as [o|]; [|done].
  destruct (configured s); simpl; [|done].
  destruct (parse _ _) as [k|] eqn:Hk; [|done]. destruct (choices k) as [|[p|] rest] eqn:Hc; [done | | done].
  destruct (valid_classification p) eqn:Hv; [|done]. intros [= <- <-].
  unfold valid_classification in Hv. apply andb_true_iff in Hv as [H1%Z.leb_le H2%Z.leb_le].
  split; [done |]. split; [done |]. by exists o, k, rest.
Qed.

(** A missing observation is answered before the configuration is looked at, and neither
    refusal asks the model or counts anything. *)
Theorem refusals_in_order (s : Settings) (i : Z) (w : world) (c : counter) :
  (get_observation i w = None -> analyze s i w c = (Refused (Incidents.HTTP 404 "Observation not found"), c)) /\
  (forall o, get_observation i w = Some o -> configured s = false -> analyze s i w c = (Refused disabled, c)).
Proof.
  unfold analyze, analyze_observation. split; [by intros -> | by intros o -> ->].
Qed.

(** The counter holds the reported prompt tokens of this model and endpoint: it changes by
    the usage of a completion, whether or not the answer is usable, and by nothing else. *)
Theorem prompt_tokens_counted (s : Settings) (i : Z) (w : world) (c : counter) (k : string * string) :
  let added := match get_observation i w with
               | Some o =>
                   if configured s then
                     match parse (openai_model s) (analysis_messages json_dumps str_datetime search (resolve_source_name (obs_source_id o) (sources w)) o) with
                     | Ok m => or_else (usage m) 0 | Raise _ => 0 end
                   else 0
               | None => 0 end in
  or_else (snd (analyze s i w c) !! k) 0 =
    or_else (c !! k) 0 + if decide (k = (openai_model s, "analyze"%string)) then added else 0.
Proof.
  intros added. unfold analyze, analyze_observation, added. clear added.
  destruct (get_observation i w) as [o|]; [|case_decide; simpl; lia].
  destruct (configured s); simpl; [|case_decide; simpl; lia].
  destruct (parse _ _) as [m|]; [|case_decide; simpl; lia].
  destruct (usage m) as [n|]; simpl; [|case_decide; lia].
  unfold inc. case_decide as Hk.
  - subst k. by rewrite lookup_insert_eq.
  - rewrite lookup_insert_ne by done. lia.
Qed.

(** A model that refuses leaves the parsed object empty; the endpoint, whose response
    model takes no [None], then fails. *)
Theorem refusal_of_the_model_fails (s : Settings) (i : Z) (w : world) (c : counter) (o : Observation) (k : completion)
    (rest : list (option Classification)) :
  get_observation i w = Some o -> configured s = true ->
  parse (openai_model s) (analysis_messages json_dumps str_datetime search (resolve_source_name (obs_source_id o) (sources w)) o) = Ok k ->
  choices k = None :: rest -> fst (analyze s i w c) = ServerError.
Proof.
  intros Ho Hs Hp Hc. unfold analyze, analyze_observation. rewrite Ho, Hs. simpl. by rewrite Hp, Hc.
Qed.

End Answers.

(** The search for context cannot make an analysis fail: if it raises, or answers what
    cannot be read, the analysis is the one with the fallback text as its context. *)
Theorem failed_search_is_no_context (json_dumps : json -> string) (str_datetime : datetime -> string)
    (search : string -> Z -> result string (list (string * json)))
    (parse : string -> list message -> result string completion) (s : Settings) (i : Z) (w : world) (c : counter) :
  (forall q k a, search q k = Ok a -> context_text_of a = None) ->
  analyze_observation json_dumps str_datetime search parse s i w c =
  analyze_observation json_dumps str_datetime
    (fun _ _ => Ok [("results"%string, JList [JObj [("text"%string, JStr fallback_context)]])]) parse s i w c.
Proof.
  intros Hs. unfold analyze_observation, analysis_messages, context_text.
  destruct (get_observation i w) as [o|]; [|done]. destruct (configured s); simpl; [|done].
  assert (match search (query_text json_dumps (resolve_source_name (obs_source_id o) (sources w)) o) 3 with
          | Ok a => or_else (context_text_of a) fallback_context | Raise _ => fallback_context end = fallback_context) as ->; [|done].
  destruct (search _ 3) as [a|] eqn:Ha; [|done]. by rewrite (Hs _ _ _ Ha).
Qed.

End AnalysisTheorems.

(** *** Sessions *)

Module SessionTheorems.
Import SourceRegistry Observations ObservationRoutes ObservationRouteTheorems Roles SessionRoutes.

Section Sessions.
Context {R : Type} `{RedisOps R}.
Context (str_of : json -> string).

Lemma session_never_admitted (required : list string) (cookie : option string) :
  is_ok (session_endpoint str_of required cookie) = false.
Proof.
  unfold session_endpoint, Tokens.verify_session. destruct (opt_str_truthy cookie); [|done]. cbn [negb bind_result].
  unfold session_role_guard. cbn. by induction (map lower required).
Qed.

(** Whatever session a request shows, archiving and deleting under it change nothing. *)
Theorem secured_writes_never_happen (now : datetime) (cookie : option string) (i : Z) (a : app R) :
  (exists e, archive_observation_secured str_of now cookie i a = (Raise (Guard e), a)) /\
  (exists e, delete_observation_secured str_of now cookie i a = (Raise (Guard e), a)).
Proof.
  unfold archive_observation_secured, delete_observation_secured. split.
  - pose proof (session_never_admitted ["user"; "admin"] cookie). destruct (session_endpoint _ _ _); [done | by eexists].
  - pose proof (session_never_admitted ["admin"] cookie). destruct (session_endpoint _ _ _); [done | by eexists].
Qed.

(** Reading asks for no more than some cookie: every non-empty value, issued or not, gets
    as far as the row, and fails there like every response made from a row. *)
Theorem any_cookie_reads (cookie : string) (i : Z) (a : app R) :
  cookie <> EmptyString ->
  get_observation_secured (Some cookie) i a =
    match get_observation i (db a) with
    | Some _ => Raise (Route (Invalid (missing "source")))
    | None => Raise (Route not_found)
    end.
Proof.
  intros Hc. unfold get_observation_secured, Tokens.verify_session. destruct cookie; [done |]. cbn [negb opt_str_truthy str_truthy].
  destruct (get_observation i (db a)); [|done]. by rewrite respond_row.
Qed.

End Sessions.
End SessionTheorems.

(** ** Witnesses *)

Module AnalysisWitnesses.
Import SourceRegistry Observations ObservationRoutes Analyze AnalysisTheorems SessionTheorems SessionRoutes.
Import (hints, coercions) MemRedis.

Definition answer_in_pieces : list (list (option string)) := [[Some "Temp"]; [None]; [Some " is"]; [Some ""]; [Some " low."]].

Lemma stream_reads_back_witness :
  dispatched (String.concat "" (frames answer_in_pieces true)) = ["Temp"; " is"; " low."; error_text]%string.
Proof. apply stream_reads_back. repeat constructor. Defined.

Lemma line_break_truncates_witness :
  dispatched (frame ("First" +:+ newline +:+ "Second") +:+ "data: more") = "First"%string :: dispatched "data: more".
Proof. apply line_break_truncates; [reflexivity | reflexivity | discriminate | reflexivity]. Defined.

Definition enabled : Settings := SettingsOf true (Some "sk-test") "gpt-4o-mini".
Definition calm : Classification := Class_ "weather" 2 "A calm day" "neutral".
Definition no_search (_ : string) (_ : Z) : result string (list (string * json)) := Raise "connection refused"%string.
Definition agreeable (_ : string) (_ : list message) : result string completion := Ok (Completion (Some 120) [Some calm]).
Definition refusing (_ : string) (_ : list message) : result string completion := Ok (Completion (Some 80) [None]).
Definition one : world := ObservationWitnesses.one_observation.

Lemma calm_answer :
  analyze_observation (fun _ => "{}"%string) str_of_Z no_search agreeable enabled 1 one ∅ =
  (Answered calm, {[("gpt-4o-mini", "analyze")%string := 120]}).
Proof. vm_compute. reflexivity. Qed.

Lemma answered_analysis_witness : 1 <= priority calm <= 5 /\ configured enabled = true.
Proof.
  destruct (answered_analysis _ _ _ _ enabled 1 one ∅ _ calm calm_answer) as (H1 & H2 & _). by split.
Defined.

Lemma refusal_of_the_model_fails_witness :
  fst (analyze_observation (fun _ => "{}"%string) str_of_Z no_search refusing enabled 1 one ∅) = ServerError.
Proof.
  apply (refusal_of_the_model_fails _ _ _ _ enabled 1 one ∅ (ObservationWitnesses.stored (Some 7) 40)
           (Completion (Some 80) [None]) []); reflexivity.
Defined.

Lemma failed_search_is_no_context_witness :
  analyze_observation (fun _ => "{}"%string) str_of_Z no_search agreeable enabled 1 one ∅ =
  analyze_observation (fun _ => "{}"%string) str_of_Z
    (fun _ _ => Ok [("results"%string, JList [JObj [("text"%string, JStr fallback_context)]])]) agreeable enabled 1 one ∅.
Proof. apply failed_search_is_no_context. intros q k a Ha. unfold no_search in Ha. discriminate. Defined.

Lemma any_cookie_reads_witness :
  get_observation_secured (Some "anything"%string) 1 ObservationRouteTheorems.small_app = Raise (Route (Invalid (missing "source"))).
Proof. by rewrite any_cookie_reads. Defined.

End AnalysisWitnesses.
