(* ===== verification/Releases.v ===== *)
(** * The release pipeline

    [scripts/ci/publish_release.py], [promote_lock.py] and [deploy_ssm.py], in the order
    in which a release goes through them: images are built and pushed and their digests
    recorded as metadata, the metadata is merged into the image lock, the lock is rendered
    into the environment of the deployment.  The theorems follow an image from the registry
    to the deployed environment, through two Base64 texts and a file that is replaced
    atomically.

    External commands (docker, aws) are a parameter that changes a world, the text of JSON
    is the class [JsonText] of [Encodings] with its laws.  A file has its content and its mode; the
    scripts' command lines are the arguments of [main]. *)

From S2P Require Import Prelude Network Encodings.

Import Base64Decode.

(** ** Dictionaries *)

Abbreviation dict := (list (string * json)).

(** [d[k] = v]: in place where the key is, at the end otherwise. *)
Fixpoint set_key (k : string) (v : json) (d : dict) : dict :=
  match d with
  | [] => [(k, v)]
  | (k', v') :: d => if String.eqb k k' then (k', v) :: d else (k', v') :: set_key k v d
  end.

(** What the scripts raise. *)
Inductive exn :=
| CalledProcessError (cmd : list string)
| RuntimeError (msg : string)
| KeyError (k : string)
| TypeError
| JSONDecodeError
| UnicodeOrPaddingError
| FileNotFound (path : string).

Definition getitem (k : string) (d : dict) : result exn json :=
  match json_member k d with Some v => Ok v | None => Raise (KeyError k) end.

(** ** publish_release.py *)

Module Publish.

Record service := Service { name : string; dockerfile : string; build_context : string }.

Record metadata := Metadata {
  source_repository : string;
  source_commit_sha : string;
  source_tree_sha : string;
  contracts_version : string;
  images : list (string * (string * string))
}.

Open Scope py_scope.

Section Publish.
(** [subprocess.run(cmd, check=True)] and the stripped output; [None] for a status other
    than zero. *)
Context {W : Type} (run : list string -> W -> option string * W).

Definition _run (cmd : list string) (w : W) : result exn string * W :=
  match run cmd w with
  | (Some out, w) => (Ok (strip out), w)
  | (None, w) => (Raise (CalledProcessError cmd), w)
  end.

Definition repository_of (name : string) : string := "api-observatory/" +:+ name.

Definition image_of (registry tree_sha name : string) : string :=
  registry +:+ "/" +:+ repository_of name +:+ ":tree-" +:+ tree_sha.

Definition build_args (s : service) (registry tree_sha contracts_version : string) : list string :=
  ["docker"; "build"; "--pull"; "--file"; dockerfile s; "--tag"; image_of registry tree_sha (name s);
   "--build-arg"; "CONTRACTS_VERSION=" +:+ contracts_version; build_context s]%string.

Definition push_args (s : service) (registry tree_sha : string) : list string :=
  ["docker"; "push"; image_of registry tree_sha (name s)]%string.

Definition digest_args (s : service) (tree_sha : string) : list string :=
  ["aws"; "ecr"; "describe-images"; "--repository-name"; repository_of (name s);
   "--image-ids"; "imageTag=tree-" +:+ tree_sha; "--query"; "imageDetails[0].imageDigest"; "--output"; "text"]%string.

Definition _build_push_and_digest (s : service) (registry tree_sha contracts_version : string) (w : W)
    : result exn (string * string) * W :=
  match _run (build_args s registry tree_sha contracts_version) w with
  | (Raise e, w) => (Raise e, w)
  | (Ok _, w) =>
      match _run (push_args s registry tree_sha) w with
      | (Raise e, w) => (Raise e, w)
      | (Ok _, w) =>
          match _run (digest_args s tree_sha) w with
          | (Raise e, w) => (Raise e, w)
          | (Ok digest, w) =>
              if negb (str_truthy digest) || String.eqb digest "None"
              then (Raise (RuntimeError ("Failed to resolve ECR digest for " +:+ image_of registry tree_sha (name s))), w)
              else (Ok (repository_of (name s), digest), w)
          end
      end
  end.

(** [metadata["images"][name] = ...]. *)
Fixpoint set_image (k : string) (v : string * string) (d : list (string * (string * string))) : list (string * (string * string)) :=
  match d with
  | [] => [(k, v)]
  | (k', v') :: d => if String.eqb k k' then (k', v) :: d else (k', v') :: set_image k v d
  end.

(** The loop: the images so far, the lines of the summary. *)
Fixpoint publish_all (ss : list service) (registry tree_sha contracts_version : string)
    (images : list (string * (string * string))) (summary : list string) (w : W)
    : result exn (list (string * (string * string)) * list string) * W :=
  match ss with
  | [] => (Ok (images, summary), w)
  | s :: ss =>
      match _build_push_and_digest s registry tree_sha contracts_version w with
      | (Raise e, w) => (Raise e, w)
      | (Ok (repository, digest), w) =>
          publish_all ss registry tree_sha contracts_version (set_image (name s) (repository, digest) images)
            (summary ++ [name s +:+ "=" +:+ registry +:+ "/" +:+ repository +:+ "@" +:+ digest]) w
      end
  end.

Definition metadata_json (m : metadata) : dict :=
  [("schema_version", JInt 1); ("source_repository", JStr (source_repository m));
   ("source_commit_sha", JStr (source_commit_sha m)); ("source_tree_sha", JStr (source_tree_sha m));
   ("contracts_version", JStr (contracts_version m));
   ("images", JObj (map (fun '(n, (r, d)) => (n, JObj [("repository", JStr r); ("digest", JStr d)])) (images m)))]%string.

Context `{JsonText}.

(** The three lines that are printed hold the tree, the path and the metadata; the file
    has the metadata as text. *)
Definition main (services : list service) (registry commit_sha tree_sha github_repository version : string) (w : W)
    : result exn (metadata * string * list string) * W :=
  match publish_all services registry tree_sha version [] [] w with
  | (Raise e, w) => (Raise e, w)
  | (Ok (imgs, summary), w) =>
      let expected := length services in
      let actual := length imgs in
      if negb (Nat.eqb actual expected) then
        (Raise (RuntimeError ("Expected " +:+ str_of_Z (Z.of_nat expected) +:+ " images but produced " +:+ str_of_Z (Z.of_nat actual))), w)
      else
        let m := Metadata github_repository commit_sha tree_sha version imgs in
        let encoded := Base64.b64encode (dumps (JObj (metadata_json m)) +:+ newline) in
        (Ok (m, encoded, summary), w)
  end.

End Publish.
End Publish.

(** ** promote_lock.py *)

Module Promote.

(** A file with its permission bits. *)
Record file := File { content : string; mode : Z }.
Abbreviation fs := (gmap string file).

Section Promote.
Context `{JsonText}.

Definition _load_metadata (raw : string) : result exn dict :=
  let decoded := if has_char "{" raw then Some raw else bs ← b64decode raw; utf8_decode bs in
  match decoded with
  | None => Raise UnicodeOrPaddingError
  | Some t =>
      match loads t with
      | Some (JObj d) => Ok d
      | Some _ => Raise TypeError
      | None => Raise JSONDecodeError
      end
  end.

(** [_atomic_write] as the steps that change the file system: the temporary file is made
    (readable by its owner only), filled piece by piece, given the mode of the old one and
    moved over it.  [pieces] is how the text is cut into writes. *)
Inductive step :=
| Create (tmp : string)
| Append (tmp piece : string)
| Chmod (tmp : string) (m : Z)
| Replace (tmp path : string).

Definition run_step (s : step) (f : fs) : fs :=
  match s with
  | Create tmp => <[tmp := File EmptyString 384]> f
  | Append tmp piece => alter (fun x => File (content x +:+ piece) (mode x)) tmp f
  | Chmod tmp m => alter (fun x => File (content x) m) tmp f
  | Replace tmp path => match f !! tmp with Some x => <[path := x]> (delete tmp f) | None => f end
  end.

Definition run_steps (ss : list step) (f : fs) : fs := fold_left (fun f s => run_step s f) ss f.

Definition atomic_write_steps (path tmp : string) (pieces : list string) (m : Z) : list step :=
  Create tmp :: map (Append tmp) pieces ++ [Chmod tmp m; Replace tmp path].

Definition _atomic_write (path tmp : string) (pieces : list string) (f : fs) : result exn fs :=
  match f !! path with
  | None => Raise (FileNotFound path)
  | Some old => Ok (run_steps (atomic_write_steps path tmp pieces (mode old)) f)
  end.

(** The lock with the release merged into it. *)
Definition merge (metadata current : dict) : result exn dict :=
  let merged := set_key "schema_version" (JInt 1) current in
  bind_result (getitem "source_commit_sha" metadata) (fun commit =>
  let merged := set_key "source_commit_sha" commit merged in
  bind_result (getitem "source_tree_sha" metadata) (fun tree =>
  let merged := set_key "source_tree_sha" tree merged in
  bind_result (getitem "contracts_version" metadata) (fun version =>
  let merged := set_key "contracts_version" version merged in
  Ok (set_key "images" (or_else (json_member "images" metadata) (JObj [])) merged)))).

(** [cut] is how [json.dump] cuts its text into writes. *)
Definition promote (cut : string -> list string) (tmp : string) (metadata : dict) (lock_path : string) (f : fs) : result exn fs :=
  match f !! lock_path with
  | None => Raise (FileNotFound lock_path)
  | Some lock =>
      match loads (content lock) with
      | Some (JObj current) =>
          bind_result (merge metadata current) (fun merged =>
          _atomic_write lock_path tmp (cut (dumps (JObj merged)) ++ [newline]) f)
      | Some _ => Raise TypeError
      | None => Raise JSONDecodeError
      end
  end.

(** The exit status, or what is raised, and the files.  [raw] comes from the option or
    the environment; a metadata file takes precedence. *)
Definition main (cut : string -> list string) (tmp : string) (metadata_base64 : option string) (RELEASE_METADATA : string)
    (metadata_file : option string) (lock : string) (f : fs) : result exn Z * fs :=
  let raw := match metadata_base64 with Some r => if str_truthy r then r else RELEASE_METADATA | None => RELEASE_METADATA end in
  let raw := match metadata_file with
             | Some p => match f !! p with Some x => Ok (content x) | None => Raise (FileNotFound p) end
             | None => Ok raw
             end in
  match raw with
  | Raise e => (Raise e, f)
  | Ok raw =>
      if negb (str_truthy raw) then (Ok 1, f)
      else
        match bind_result (_load_metadata raw) (fun metadata => promote cut tmp metadata lock f) with
        | Ok f => (Ok 0, f)
        | Raise e => (Raise e, f)
        end
  end.

End Promote.
End Promote.

(** ** deploy_ssm.py *)

Module Deploy.

Section Deploy.
(** [str(j)] of a value that is no string. *)
Context (py_str : json -> string).

Definition text (j : json) : string := match j with JStr s => s | j => py_str j end.

Definition image_line (registry name : string) (image : json) : list string :=
  match image with
  | JObj d =>
      [upper name +:+ "_IMAGE=" +:+ registry +:+ "/" +:+ text (or_else (json_member "repository" d) (JStr "")) +:+ "@" +:+
       text (or_else (json_member "digest" d) (JStr ""))]
  | _ => []
  end.

(** [sorted(names)]. *)
Fixpoint insert_sorted (x : string) (l : list string) : list string :=
  match l with [] => [x] | y :: l => if String.leb x y then x :: y :: l else y :: insert_sorted x l end.
Definition sorted (l : list string) : list string := fold_right insert_sorted [] l.

Definition strings (l : list json) : option (list string) :=
  mapM (fun j => match j with JStr s => Some s | _ => None end) l.

(** [for name in sorted(lock.get("images", {}))], with the lookups of its body. *)
Definition image_lines (registry : string) (images : json) : result exn (list string) :=
  match images with
  | JObj images =>
      Ok (flat_map (fun name => image_line registry name (or_else (json_member name images) JNull)) (sorted (map fst images)))
  | JList [] | JStr EmptyString => Ok []
  | _ => Raise TypeError
  end.

(** The lines of the environment file. *)
Definition env_lines (lock : dict) (registry : string) : result exn (list string) :=
  bind_result (image_lines registry (or_else (json_member "images" lock) (JObj []))) (fun lines =>
  bind_result (getitem "source_tree_sha" lock) (fun tree =>
  let lines := lines ++ ["SERVICE_VERSION=tree-" +:+ text tree] in
  match or_else (json_member "enabled_profiles" lock) (JList []) with
  | JList profiles =>
      match strings profiles with
      | Some ps => Ok (lines ++ ["ENABLED_PROFILES=" +:+ String.concat "," ps])
      | None => Raise TypeError
      end
  | _ => Ok lines
  end)).

Definition quote : string := String "034" EmptyString.

Definition version_check (contract_version : string) : string :=
  "test " +:+ quote +:+ "$(head -n 1 /opt/api-observatory-mvp/.platform-contract-version)" +:+ quote +:+ " = " +:+
  quote +:+ contract_version +:+ quote.

Definition commands (deployment_env compose rollout contract_version : string) : list string :=
  [version_check contract_version;
   "install -d -m 0700 /opt/api-observatory-mvp/.runtime";
   "cd /opt/api-observatory-mvp";
   "test ! -f .runtime/deployment.env || cp .runtime/deployment.env .runtime/deployment.env.previous";
   "echo " +:+ deployment_env +:+ " | base64 -d > .runtime/deployment.env";
   "chmod 0600 .runtime/deployment.env";
   "echo " +:+ compose +:+ " | base64 -d > docker-compose.yml";
   "echo " +:+ rollout +:+ " | base64 -d > rollout.sh";
   "chmod 0700 rollout.sh";
   "/usr/local/sbin/api-observatory-mvp-render-env ingestor-db ingestor cache";
   "./rollout.sh"]%string.

(** The commands and the instance they are sent to. *)
Definition build_ssm_payload (lock : dict) (registry instance_id contract_version compose rollout : string)
    : result exn (list string * list string) :=
  bind_result (env_lines lock registry) (fun lines =>
  Ok (commands (Base64.b64encode (String.concat newline lines)) (Base64.b64encode compose) (Base64.b64encode rollout) contract_version,
      [instance_id])).

End Deploy.
End Deploy.

(** ** Theorems: the lock *)

Module LockTheorems.
Import Promote Base64Theorems.

Lemma member_set_key (k k' : string) (v : json) (d : dict) :
  json_member k (set_key k' v d) = if String.eqb k k' then Some v else json_member k d.
Proof.
  induction d as [|[k1 v1] d IH]; simpl; [done |].
  destruct (String.eqb_spec k' k1) as [->|Hne]; simpl.
  - by destruct (String.eqb k k1).
  - rewrite IH. destruct (String.eqb_spec k k1), (String.eqb_spec k k'); congruence.
Qed.

(** The merged lock: the five release keys are the release's, every other key keeps its
    value (the enabled profiles above all). *)
Theorem merge_keeps_the_rest (metadata current merged : dict) (k : string) :
  merge metadata current = Ok merged ->
  json_member k merged =
    (if String.eqb k "schema_version" then Some (JInt 1)
     else if bool_decide (k ∈ ["source_commit_sha"; "source_tree_sha"; "contracts_version"]%string) then json_member k metadata
     else if String.eqb k "images" then Some (or_else (json_member "images" metadata) (JObj []))
     else json_member k current).
Proof.
  unfold merge, getitem.
  destruct (json_member "source_commit_sha" metadata) as [c|] eqn:Hc; [|done]. cbn [bind_result].
  destruct (json_member "source_tree_sha" metadata) as [t|] eqn:Ht; [|done]. cbn [bind_result].
  destruct (json_member "contracts_version" metadata) as [v|] eqn:Hv; [|done]. cbn [bind_result].
  intros [= <-]. rewrite !member_set_key.
  destruct (String.eqb_spec k "images") as [->|H1]; [done |].
  destruct (String.eqb_spec k "contracts_version") as [->|H2]; [rewrite Hv; done |].
  destruct (String.eqb_spec k "source_tree_sha") as [->|H3]; [rewrite Ht; done |].
  destruct (String.eqb_spec k "source_commit_sha") as [->|H4]; [rewrite Hc; done |].
  rewrite bool_decide_eq_false_2; [done |].
  rewrite !not_elem_of_cons. split_and!; [done | done | done | apply not_elem_of_nil].
Qed.

Lemma set_key_keys (k : string) (v : json) (d : dict) (x : string) :
  x ∈ (set_key k v d).*1 -> x = k \/ x ∈ d.*1.
Proof.
  induction d as [|[k' v'] d IH]; simpl.
  - intros ->%list_elem_of_singleton. by left.
  - destruct (String.eqb k k'); simpl; rewrite !elem_of_cons; [naive_solver |].
    intros [?|?]; [naive_solver |]. destruct IH; naive_solver.
Qed.

Lemma set_key_python (k : string) (v : json) (d : dict) :
  python_value (JObj d) = true -> python_value v = true -> python_value (JObj (set_key k v d)) = true.
Proof.
  cbn [python_value]. rewrite !andb_true_iff, !bool_decide_eq_true. intros [Hnd Hall] Hv.
  induction d as [|[k' v'] d IH]; cbn in *.
  - split; [by apply NoDup_singleton | by rewrite Hv].
  - apply NoDup_cons in Hnd as [Hk Hnd]. apply andb_true_iff in Hall as [Hv' Hall].
    destruct (IH Hnd Hall) as [IH1 IH2]. destruct (String.eqb_spec k k') as [->|Hne]; cbn.
    + split; [by apply NoDup_cons | by rewrite Hv, Hall].
    + split; [|by rewrite Hv', IH2]. apply NoDup_cons. split; [|done].
      intros [?|?]%set_key_keys; [congruence | done].
Qed.

Lemma member_python (k : string) (v : json) (d : dict) :
  python_value (JObj d) = true -> json_member k d = Some v -> python_value v = true.
Proof.
  cbn [python_value]. rewrite andb_true_iff. intros [_ Hall] Hm. induction d as [|[k' v'] d IH]; [done |].
  cbn in *. apply andb_true_iff in Hall as [Hv Hall]. destruct (String.eqb k k'); [by simplify_eq | by apply IH].
Qed.

(** Merging values gives a value. *)
Lemma merge_python (metadata current merged : dict) :
  python_value (JObj metadata) = true -> python_value (JObj current) = true ->
  merge metadata current = Ok merged -> python_value (JObj merged) = true.
Proof.
  intros Hm Hc. unfold merge, getitem.
  destruct (json_member "source_commit_sha" metadata) as [c|] eqn:H1; [|done]. cbn [bind_result].
  destruct (json_member "source_tree_sha" metadata) as [t|] eqn:H2; [|done]. cbn [bind_result].
  destruct (json_member "contracts_version" metadata) as [v|] eqn:H3; [|done]. cbn [bind_result].
  intros [= <-].
  assert (python_value (or_else (json_member "images" metadata) (JObj [])) = true) as Hi.
  { destruct (json_member "images" metadata) as [i|] eqn:H4; [exact (member_python _ _ _ Hm H4) | done]. }
  pose proof (member_python _ _ _ Hm H1). pose proof (member_python _ _ _ Hm H2). pose proof (member_python _ _ _ Hm H3).
  by apply set_key_python; [do 4 (apply set_key_python; [|done]) |].
Qed.

(** *** The file *)

Lemma run_steps_app (s1 s2 : list step) (f : fs) : run_steps (s1 ++ s2) f = run_steps s2 (run_steps s1 f).
Proof. apply fold_left_app. Qed.

Lemma run_appends (tmp c : string) (m : Z) (pieces : list string) (f : fs) :
  f !! tmp = Some (File c m) ->
  run_steps (map (Append tmp) pieces) f = <[tmp := File (c +:+ String.concat "" pieces) m]> f.
Proof.
  revert c f. induction pieces as [|p ps IH]; intros c f Hf.
  - cbn. rewrite append_nil_r. by rewrite insert_id.
  - unfold run_steps in *. cbn [map fold_left run_step]. rewrite (IH (c +:+ p)) by (by rewrite lookup_alter_eq, Hf).
    assert (String.concat "" (p :: ps) = p +:+ String.concat "" ps) as ->
      by (destruct ps; [by rewrite append_nil_r | done]).
    rewrite append_assoc. apply map_eq. intros i. destruct (decide (tmp = i)) as [->|Hi].
    + by rewrite !lookup_insert_eq.
    + by rewrite !lookup_insert_ne, lookup_alter_ne.
Qed.

(** Only the last step touches the lock. *)
Lemma not_replaced (ss : list step) (path tmp : string) (f : fs) :
  tmp <> path ->
  Forall (fun s => match s with Create t | Append t _ | Chmod t _ => t = tmp | Replace _ _ => False end) ss ->
  run_steps ss f !! path = f !! path.
Proof.
  intros Hne Hss. revert f. induction Hss as [|s ss Hs Hss IH]; intros f; [done |].
  unfold run_steps in *. cbn [fold_left]. rewrite IH. destruct s; simpl; subst; try done;
    by rewrite ?lookup_insert_ne, ?lookup_alter_ne.
Qed.

(** What happens before the temporary file takes the lock's place. *)
Definition preparation (tmp : string) (pieces : list string) (m : Z) : list step :=
  Create tmp :: map (Append tmp) pieces ++ [Chmod tmp m].

Lemma preparation_first (path tmp : string) (pieces : list string) (m : Z) :
  atomic_write_steps path tmp pieces m = preparation tmp pieces m ++ [Replace tmp path].
Proof. unfold atomic_write_steps, preparation. cbn. by rewrite <- app_assoc. Qed.

Lemma preparation_keeps (tmp : string) (pieces : list string) (m : Z) (f : fs) (n : nat) (other : string) :
  other <> tmp -> run_steps (take n (preparation tmp pieces m)) f !! other = f !! other.
Proof.
  intros Hne. apply not_replaced with (tmp := tmp); [done |]. apply Forall_take.
  unfold preparation. constructor; [done |]. apply Forall_app. split; [|by repeat constructor].
  by apply List.Forall_map, List.Forall_forall.
Qed.

Lemma prepared (tmp : string) (pieces : list string) (m : Z) (f : fs) :
  run_steps (preparation tmp pieces m) f !! tmp = Some (File (String.concat "" pieces) m).
Proof.
  unfold preparation. change (Create tmp :: map (Append tmp) pieces ++ [Chmod tmp m])
    with ([Create tmp] ++ map (Append tmp) pieces ++ [Chmod tmp m]).
  rewrite !run_steps_app. cbn. rewrite (run_appends tmp EmptyString 384) by (by rewrite lookup_insert_eq).
  by rewrite lookup_alter_eq, lookup_insert_eq.
Qed.

Lemma run_all_steps (path tmp : string) (pieces : list string) (m : Z) (f : fs) :
  let f' := run_steps (atomic_write_steps path tmp pieces m) f in
  f' !! path = Some (File (String.concat "" pieces) m) /\
  forall other, other <> path -> other <> tmp -> f' !! other = f !! other.
Proof.
  cbn zeta. rewrite preparation_first, run_steps_app. pose proof (prepared tmp pieces m f) as Hp.
  unfold run_steps at 1 3. cbn [fold_left run_step]. rewrite Hp. split; [by rewrite lookup_insert_eq |].
  intros other H1 H2. rewrite lookup_insert_ne, lookup_delete_ne by done.
  rewrite <- (firstn_all (preparation tmp pieces m)). by apply preparation_keeps.
Qed.

(** C22: The lock is replaced at once: stopped after any number of steps, the script leaves
    either the old file or the complete new text with the old mode, and the new text only
    when all steps are done.  Other files than the temporary one are untouched. *)
Theorem atomic_write_all_or_nothing (path tmp : string) (pieces : list string) (old : file) (f : fs) (n : nat) (other : string) :
  tmp <> path -> f !! path = Some old ->
  let steps := atomic_write_steps path tmp pieces (mode old) in
  let f' := run_steps (take n steps) f in
  f' !! path = Some (if decide (length steps <= n)%nat then File (String.concat "" pieces) (mode old) else old) /\
  (other <> path -> other <> tmp -> f' !! other = f !! other).
Proof.
  intros Hne Hf steps f'. unfold f'. case_decide as Hn.
  - rewrite take_ge by done. destruct (run_all_steps path tmp pieces (mode old) f) as [Hp Ho]. by split; [|apply Ho].
  - assert (length steps = S (length (preparation tmp pieces (mode old)))) as Hlen
      by (unfold steps; rewrite preparation_first, length_app; cbn [length]; lia).
    unfold steps. rewrite preparation_first, take_app_le by lia.
    split; [by rewrite preparation_keeps | intros _ Ho; by apply preparation_keeps].
Qed.

Section Metadata.
Context `{JsonTextLaws}.

(** The metadata are the same whether they come as text or encoded. *)
Theorem metadata_in_either_form (d : dict) :
  python_value (JObj d) = true ->
  let t := dumps (JObj d) +:+ newline in
  _load_metadata t = Ok d /\ _load_metadata (Base64.b64encode t) = Ok d.
Proof.
  intros Hd t.
  assert (has_char "{" t = true) as Hb.
  { unfold t. pose proof (dumps_brace d) as Hbrace. induction (dumps (JObj d)) as [|c s IH]; [done |].
    rewrite append_cons. simpl in *. destruct (Ascii.eqb c "{"); [done | by apply IH]. }
  unfold _load_metadata. rewrite Hb, b64_no_brace. split.
  - unfold t. by rewrite (loads_dumps_line _ Hd).
  - rewrite b64_round_trip. unfold t. by rewrite (loads_dumps_line _ Hd).
Qed.
End Metadata.

End LockTheorems.

(** ** Theorems: publishing *)

Module PublishTheorems.
Import Publish Base64Theorems LockTheorems.

Definition image_entry (s : service) (digest : string) : string * (string * string) :=
  (name s, (repository_of (name s), digest)).

Definition usable (digest : string) : Prop := digest <> EmptyString /\ digest <> "None"%string.

Section Publish.
Context {W : Type} (run : list string -> W -> option string * W).

(** A run that builds and pushes the image of each service, tagged with the tree, and in
    which the registry, asked for the image of that repository and tag, reports [ds]. *)
Fixpoint reported (ss : list service) (registry tree version : string) (ds : list string) (w w' : W) : Prop :=
  match ss, ds with
  | [], [] => w' = w
  | s :: ss, d :: ds => exists w1 w2 w3 built pushed answer,
      run (build_args s registry tree version) w = (Some built, w1) /\
      run ["docker"; "push"; registry +:+ "/api-observatory/" +:+ name s +:+ ":tree-" +:+ tree]%string w1 = (Some pushed, w2) /\
      run ["aws"; "ecr"; "describe-images"; "--repository-name"; "api-observatory/" +:+ name s; "--image-ids";
           "imageTag=tree-" +:+ tree; "--query"; "imageDetails[0].imageDigest"; "--output"; "text"]%string w2 = (Some answer, w3) /\
      d = strip answer /\ usable d /\ reported ss registry tree version ds w3 w'
  | _, _ => False
  end.

Lemma reported_length ss registry tree version ds w w' : reported ss registry tree version ds w w' -> length ds = length ss.
Proof.
  revert ds w. induction ss as [|s ss IH]; intros [|d ds] w; try done. cbn [reported].
  intros (w1 & w2 & w3 & b & p & a & _ & _ & _ & _ & _ & H). cbn. f_equal. by eapply IH.
Qed.

(** A loop that succeeds has the digest that the registry reported for each service, in order. *)
Lemma publish_all_ok (ss : list service) (registry tree version : string) (imgs imgs' : list (string * (string * string)))
    (summary summary' : list string) (w w' : W) :
  publish_all run ss registry tree version imgs summary w = (Ok (imgs', summary'), w') ->
  exists ds, reported ss registry tree version ds w w' /\
    imgs' = fold_left (fun d e => set_image e.1 e.2 d) (zip_with image_entry ss ds) imgs /\
    summary' = summary ++ zip_with (fun s d => name s +:+ "=" +:+ registry +:+ "/" +:+ repository_of (name s) +:+ "@" +:+ d) ss ds.
Proof.
  revert imgs summary w. induction ss as [|s ss IH]; intros imgs summary w Hp; cbn [publish_all] in Hp.
  - injection Hp as <- <- <-. exists []. repeat split. by rewrite app_nil_r.
  - destruct (_build_push_and_digest run s registry tree version w) as [[[r d]|e] w3] eqn:Hb; [|done].
    unfold _build_push_and_digest, _run in Hb.
    destruct (run (build_args _ _ _ _) w) as [[built|] w1] eqn:E1; [|done].
    destruct (run (push_args _ _ _) w1) as [[pushed|] w2] eqn:E2; [|done].
    destruct (run (digest_args _ _) w2) as [[answer|] w2'] eqn:E3; [|done].
    destruct (negb (str_truthy (strip answer)) || String.eqb (strip answer) "None") eqn:Hd; [done |].
    apply orb_false_iff in Hd as [H1%negb_false_iff H2%String.eqb_neq]. injection Hb as <- <- <-.
    apply IH in Hp as (ds & Hrep & -> & ->). exists (strip answer :: ds). split.
    + cbn [reported]. exists w1, w2, w2', built, pushed, answer. split; [exact E1 |]. split; [exact E2 |]. split; [exact E3 |].
      split; [done |]. split; [|done]. split; [intros He; by rewrite He in H1 | done].
    + split; [done |]. cbn [zip_with]. by rewrite <- app_assoc.
Qed.
End Publish.

Lemma set_image_fresh (k : string) (v : string * string) (d : list (string * (string * string))) :
  k ∉ d.*1 -> set_image k v d = d ++ [(k, v)].
Proof.
  induction d as [|[k' v'] d IH]; intros Hk; simpl; [done |]. cbn in Hk. apply not_elem_of_cons in Hk as [H1 H2].
  destruct (String.eqb_spec k k'); [done |]. by rewrite IH.
Qed.

Lemma set_image_known (k : string) (v : string * string) (d : list (string * (string * string))) :
  k ∈ d.*1 -> (set_image k v d).*1 = d.*1.
Proof.
  induction d as [|[k' v'] d IH]; intros Hk; simpl; [by apply not_elem_of_nil in Hk |].
  destruct (String.eqb_spec k k') as [->|Hne]; [done |]. simpl. f_equal. apply IH.
  cbn in Hk. apply elem_of_cons in Hk as [?|?]; done.
Qed.

Definition add_all (es : list (string * (string * string))) (d : list (string * (string * string))) : list (string * (string * string)) :=
  fold_left (fun d e => set_image e.1 e.2 d) es d.

Lemma add_all_length (es d : list (string * (string * string))) :
  (length (add_all es d) <= length d + length es)%nat.
Proof.
  revert d. induction es as [|[k v] es IH]; intros d; cbn; [lia |]. etrans; [apply IH |]. cbn.
  assert (length (set_image k v d) <= S (length d))%nat; [|lia].
  destruct (decide (k ∈ d.*1)) as [Hk|Hk].
  - rewrite <- (length_fmap fst), set_image_known, length_fmap by done. lia.
  - rewrite set_image_fresh, length_app by done. cbn. lia.
Qed.

(** All entries are kept exactly if their names are distinct and new. *)
Lemma add_all_exact (es d : list (string * (string * string))) :
  length (add_all es d) = (length d + length es)%nat <-> NoDup es.*1 /\ (forall k, k ∈ es.*1 -> k ∉ d.*1).
Proof.
  revert d. induction es as [|[k v] es IH]; intros d; cbn.
  - split; [|intros; lia]. intros _. split; [constructor |]. by intros k ?%not_elem_of_nil.
  - destruct (decide (k ∈ d.*1)) as [Hk|Hk].
    + split; [|intros [_ Hn]; by destruct (Hn k (list_elem_of_here _ _))]. intros Hl. exfalso.
      pose proof (add_all_length es (set_image k v d)) as Hle. unfold add_all in Hle. rewrite Hl in Hle.
      rewrite <- (length_fmap fst (set_image k v d)), set_image_known, length_fmap in Hle by done. lia.
    + change (fold_left (fun d e => set_image e.1 e.2 d) es (set_image k v d)) with (add_all es (set_image k v d)).
      rewrite set_image_fresh by done. specialize (IH (d ++ [(k, v)])). rewrite length_app in IH. cbn in IH.
      replace (length d + S (length es))%nat with (length d + 1 + length es)%nat by lia. rewrite IH.
      rewrite NoDup_cons. setoid_rewrite fmap_app. setoid_rewrite not_elem_of_app. cbn.
      setoid_rewrite list_elem_of_singleton. split.
      * intros [Hnd Hn]. split; [split; [|done] |].
        -- intros Hin. by destruct (Hn k Hin).
        -- intros x [->|Hx]%elem_of_cons; [done | by destruct (Hn x Hx)].
      * intros [[Hk' Hnd] Hn]. split; [done |]. intros x Hx. split; [apply Hn; by right |]. by intros ->.
Qed.

Lemma add_all_fresh (es d : list (string * (string * string))) :
  NoDup es.*1 -> (forall k, k ∈ es.*1 -> k ∉ d.*1) -> add_all es d = d ++ es.
Proof.
  revert d. induction es as [|[k v] es IH]; intros d Hnd Hn; cbn; [by rewrite app_nil_r |].
  cbn in Hnd. apply NoDup_cons in Hnd as [Hk Hnd]. rewrite set_image_fresh by (apply Hn; left).
  unfold add_all in IH. rewrite IH; [by rewrite <- app_assoc | done |].
  intros x Hx. rewrite fmap_app, not_elem_of_app. split; [apply Hn; by right |].
  cbn. rewrite list_elem_of_singleton. by intros ->.
Qed.

Lemma entries_names (ss : list service) (ds : list string) :
  length ds = length ss -> (zip_with image_entry ss ds).*1 = name <$> ss.
Proof. revert ds. induction ss as [|s ss IH]; intros [|d ds] Hl; try done. cbn. f_equal. apply IH. cbn in Hl. lia. Qed.

(** The metadata are a Python value if no image is named twice. *)
Lemma metadata_python (m : metadata) : NoDup (images m).*1 -> python_value (JObj (metadata_json m)) = true.
Proof.
  intros Hnd.
  assert (forallb (fun '(_, v) => python_value v) (map (fun '(n, (r, d)) => (n, JObj [("repository", JStr r); ("digest", JStr d)]%string)) (images m)) = true) as Hall.
  { clear. induction (images m) as [|[n [r d]] es IH]; [done |]. cbn. exact IH. }
  assert ((map (fun '(n, (r, d)) => (n, JObj [("repository", JStr r); ("digest", JStr d)]%string)) (images m)).*1 = (images m).*1) as Hn.
  { clear. induction (images m) as [|[n [r d]] es IH]; [done |]. cbn. by f_equal. }
  unfold metadata_json. cbn [python_value forallb andb].
  rewrite Hall, Hn, (bool_decide_eq_true_2 (NoDup (images m).*1)) by done.
  rewrite bool_decide_eq_true_2; [done |]. cbn. apply (bool_decide_unpack _). by vm_compute.
Qed.

Section PublishMain.
Context {W : Type} (run : list string -> W -> option string * W).
Context `{JsonTextLaws}.

(** A release that is published names each service once; its metadata have, for each
    service in order, the repository and the digest that the registry reported, and the
    encoded metadata are read back as such. *)
Theorem published_release (services : list service) (registry commit tree github version encoded : string) (w w' : W)
    (m : metadata) (summary : list string) :
  main run services registry commit tree github version w = (Ok (m, encoded, summary), w') ->
  NoDup (name <$> services) /\
  (exists ds, reported run services registry tree version ds w w' /\ images m = zip_with image_entry services ds) /\
  source_tree_sha m = tree /\
  encoded = Base64.b64encode (dumps (JObj (metadata_json m)) +:+ newline) /\
  python_value (JObj (metadata_json m)) = true /\
  Promote._load_metadata encoded = Ok (metadata_json m).
Proof.
  unfold main. destruct (publish_all run services registry tree version [] [] w) as [[[imgs sm]|e] w1] eqn:Hp; [|done].
  destruct (Nat.eqb_spec (length imgs) (length services)) as [Hlen|]; cbn [negb]; [|done].
  intros [= <- <- <- <-].
  apply publish_all_ok in Hp as (ds & Hrep & Himgs & _). pose proof (reported_length _ _ _ _ _ _ _ _ Hrep) as Hds.
  change (imgs = add_all (zip_with image_entry services ds) []) in Himgs.
  assert (length (zip_with image_entry services ds) = length services) as Hz by (rewrite length_zip_with; lia).
  assert (NoDup (name <$> services)) as Hnd.
  { rewrite <- (entries_names services ds Hds). apply (add_all_exact _ []). cbn. by rewrite <- Himgs, Hz. }
  assert (imgs = zip_with image_entry services ds) as Hexact.
  { rewrite Himgs. apply (add_all_fresh _ []); [by rewrite entries_names |]. intros k _. apply not_elem_of_nil. }
  assert (python_value (JObj (metadata_json (Metadata github commit tree version imgs))) = true) as Hpy.
  { apply metadata_python. cbn [images]. rewrite Hexact. by rewrite (entries_names services ds Hds). }
  split; [done |]. split; [by exists ds |]. split; [done |]. split; [done |]. split; [done |].
  apply (metadata_in_either_form (metadata_json _) Hpy).
Qed.

(** A name that occurs twice is found only after all the work: every image has been built
    and pushed by then. *)
Theorem duplicate_service_fails_late (services : list service) (registry commit tree github version : string) (w w' : W)
    (r : list (string * (string * string)) * list string) :
  publish_all run services registry tree version [] [] w = (Ok r, w') -> ~ NoDup (name <$> services) ->
  exists msg, main run services registry commit tree github version w = (Raise (RuntimeError msg), w').
Proof.
  intros Hp Hnd. unfold main. rewrite Hp. destruct r as [imgs sm].
  destruct (Nat.eqb_spec (length imgs) (length services)) as [Hlen|]; cbn [negb]; [|by eexists].
  exfalso. apply Hnd. apply publish_all_ok in Hp as (ds & Hds%reported_length & Himgs & _).
  change (imgs = add_all (zip_with image_entry services ds) []) in Himgs.
  rewrite <- (entries_names services ds Hds). apply (add_all_exact _ []). cbn. rewrite <- Himgs, length_zip_with. lia.
Qed.
End PublishMain.

End PublishTheorems.

(** ** Theorems: from the registry to the deployment *)

Module ReleaseTheorems.
Import Publish Promote Deploy Base64Theorems LockTheorems PublishTheorems.

Lemma insert_sorted_permutation (x : string) (l : list string) : insert_sorted x l ≡ₚ x :: l.
Proof.
  induction l as [|y l IH]; simpl; [done |]. destruct (String.leb x y); [done |]. rewrite IH. apply Permutation_swap.
Qed.

Lemma sorted_permutation (l : list string) : sorted l ≡ₚ l.
Proof. induction l as [|x l IH]; simpl; [done |]. by rewrite insert_sorted_permutation, IH. Qed.

Definition images_json (es : list (string * (string * string))) : dict :=
  map (fun '(n, (r, d)) => (n, JObj [("repository", JStr r); ("digest", JStr d)]%string)) es.

Lemma images_json_names (es : list (string * (string * string))) : map fst (images_json es) = es.*1.
Proof. induction es as [|[n [r d]] es IH]; simpl; [done | by rewrite IH]. Qed.

Lemma images_json_member (es : list (string * (string * string))) (n r d : string) :
  NoDup es.*1 -> (n, (r, d)) ∈ es ->
  json_member n (images_json es) = Some (JObj [("repository", JStr r); ("digest", JStr d)]%string).
Proof.
  induction es as [|[n' [r' d']] es IH]; intros Hnd Hin; [by apply not_elem_of_nil in Hin |].
  cbn in Hnd. apply NoDup_cons in Hnd as [Hn Hnd]. simpl. apply elem_of_cons in Hin as [Heq|Hin].
  - injection Heq as <- <- <-. by rewrite String.eqb_refl.
  - destruct (String.eqb_spec n n') as [->|]; [|by apply IH]. exfalso. apply Hn.
    apply list_elem_of_fmap. by exists (n', (r, d)).
Qed.

Definition deployed_line (registry n r d : string) : string :=
  upper n +:+ "_IMAGE=" +:+ registry +:+ "/" +:+ r +:+ "@" +:+ d.

Section Lines.
Context (py_str : json -> string).

(** Each image of the lock has its one line. *)
Lemma image_lines_exact (registry : string) (es : list (string * (string * string))) :
  NoDup es.*1 ->
  exists ls, image_lines py_str registry (JObj (images_json es)) = Ok ls /\
    ls ≡ₚ (fun '(n, (r, d)) => deployed_line registry n r d) <$> es.
Proof.
  intros Hnd. eexists. split; [reflexivity |]. rewrite images_json_names.
  etrans; [apply Permutation.Permutation_flat_map, (sorted_permutation es.*1) |].
  assert (forall l, (forall e, e ∈ l -> e ∈ es) ->
    flat_map (fun name => image_line py_str registry name (or_else (json_member name (images_json es)) JNull)) l.*1 =
    (fun '(n, (r, d)) => deployed_line registry n r d) <$> l) as Hl; [|by rewrite Hl].
  induction l as [|[n [r d]] l IH]; intros Hl; [done |]. cbn [fmap list_fmap flat_map fst].
  rewrite (images_json_member es n r d Hnd) by (apply Hl; left). cbn [or_else].
  change (image_line py_str registry n (JObj [("repository", JStr r); ("digest", JStr d)]%string)) with [deployed_line registry n r d]. cbn [app]. f_equal.
  apply IH. intros e He. apply Hl. by right.
Qed.

Lemma strings_map (ps : list string) : strings (map JStr ps) = Some ps.
Proof. unfold strings. induction ps as [|p ps IH]; simpl; [done | by rewrite IH]. Qed.
End Lines.

Section Release.
Context {W : Type} (run : list string -> W -> option string * W) (py_str : json -> string).
Context `{JsonTextLaws}.

(** C18: What was published is what is deployed.  From a release that the publishing script
    completes, through its encoded output, the promotion and the lock file, to the
    environment of the deployment: the promotion succeeds and keeps the mode of the lock;
    the environment has one line for each service, with the repository and the digest
    that the registry reported for it right after the image was pushed, which are those of
    the encoded metadata and of the lock, then the version and the profiles that were
    enabled before. *)
Theorem release_reaches_deployment (services : list service) (registry commit tree github version encoded env : string)
    (w w' : W) (m : metadata) (summary profiles : list string) (cut : string -> list string) (tmp lock : string) (f : fs)
    (current : dict) (md : Z) :
  Publish.main run services registry commit tree github version w = (Ok (m, encoded, summary), w') ->
  tmp <> lock -> (forall t, String.concat "" (cut t) = t) ->
  f !! lock = Some (File (dumps (JObj current) +:+ newline) md) ->
  python_value (JObj current) = true ->
  json_member "enabled_profiles" current = Some (JList (map JStr profiles)) ->
  exists f' merged ds lines,
    Promote.main cut tmp (Some encoded) env None lock f = (Ok 0, f') /\
    f' !! lock = Some (File (dumps (JObj merged) +:+ newline) md) /\
    reported run services registry tree version ds w w' /\
    Promote._load_metadata encoded = Ok (metadata_json m) /\ images m = zip_with image_entry services ds /\
    json_member "images" merged = Some (JObj (images_json (zip_with image_entry services ds))) /\
    env_lines py_str merged registry =
      Ok (lines ++ ["SERVICE_VERSION=tree-" +:+ tree; "ENABLED_PROFILES=" +:+ String.concat "," profiles]) /\
    lines ≡ₚ zip_with (fun s d => deployed_line registry (name s) (repository_of (name s)) d) services ds.
Proof.
  intros Hmain Htmp Hcut Hlock Hpy Hprof.
  destruct (published_release run services registry commit tree github version encoded w w' m summary Hmain)
    as (Hnd & (ds & Hrep & Himgs) & Htree & Henc & Hmpy & Hload).
  pose proof (reported_length _ _ _ _ _ _ _ _ Hrep) as Hlen.
  assert (exists merged, merge (metadata_json m) current = Ok merged) as [merged Hmerge] by (by eexists).
  assert (Himages : json_member "images" merged = Some (JObj (images_json (images m)))).
  { rewrite (merge_keeps_the_rest _ _ _ _ Hmerge). done. }
  assert (Hsha : json_member "source_tree_sha" merged = Some (JStr tree)).
  { rewrite (merge_keeps_the_rest _ _ _ _ Hmerge). cbn. by rewrite Htree. }
  assert (Hp : json_member "enabled_profiles" merged = Some (JList (map JStr profiles))).
  { rewrite (merge_keeps_the_rest _ _ _ _ Hmerge). exact Hprof. }
  set (f' := run_steps (atomic_write_steps lock tmp (cut (dumps (JObj merged)) ++ [newline]) md) f).
  destruct (image_lines_exact py_str registry (images m)) as (lines & Hlines & Hperm).
  { rewrite Himgs, entries_names by done. done. }
  exists f', merged, ds, lines. split_and!; [| |done|done|done|by rewrite Himages, Himgs| |].
  - unfold Promote.main. assert (str_truthy encoded = true) as Htruthy.
    { destruct encoded; [|done]. pose proof (b64_round_trip (dumps (JObj (metadata_json m)) +:+ newline)) as Hr.
      rewrite <- Henc in Hr. cbn in Hr. injection Hr as Hr.
      apply (f_equal String.length) in Hr. rewrite String_length_append in Hr. cbn [newline String.length] in Hr. lia. }
    rewrite !Htruthy. cbn [negb]. rewrite Hload. cbn [bind_result]. unfold promote.
    rewrite Hlock. cbn [content]. rewrite (loads_dumps_line _ Hpy), Hmerge. cbn [bind_result]. unfold _atomic_write. by rewrite Hlock.
  - unfold f'. rewrite (proj1 (run_all_steps lock tmp _ md f)). do 3 f_equal.
    assert (forall l, String.concat "" (l ++ [newline]) = String.concat "" l +:+ newline) as Happ; [|by rewrite Happ, Hcut].
    intros l. induction l as [|x l IH]; [done |]. destruct l as [|y l].
    + done.
    + change ((x :: y :: l) ++ [newline]) with (x :: y :: (l ++ [newline])). cbn [String.concat] in *.
      rewrite append_nil, append_assoc. f_equal. rewrite append_nil. exact IH.
  - unfold env_lines, getitem. rewrite Himages. cbn [or_else]. rewrite Hlines. cbn [bind_result]. rewrite Hsha. cbn [bind_result].
    rewrite Hp. cbn [or_else]. rewrite strings_map, <- app_assoc. done.
  - rewrite Hperm, Himgs. clear. revert ds. induction services as [|s ss IH]; intros [|d ds]; cbn; [done.. |]. by rewrite IH.
Qed.

End Release.
End ReleaseTheorems.

(** ** Witnesses *)

Module ReleaseWitnesses.
Import Publish Promote Deploy PublishTheorems LockTheorems ReleaseTheorems SampleJson.

Definition shop : list service :=
  [Service "ingestor" "services/ingestor/Dockerfile" "."; Service "cache" "cache/Dockerfile" "cache"]%string.

(** Commands that succeed; the registry reports a digest. *)
Definition docker (cmd : list string) (n : nat) : option string * nat :=
  (Some (match cmd with "aws"%string :: _ => "sha256:abc" | _ => "" end)%string, S n).

Definition before : dict := [("schema_version", JInt 1); ("enabled_profiles", JList [JStr "cache"])]%string.
Definition the_lock : string := "environments/aws-dev/images.lock.json".
Definition disk : fs := {[the_lock := File (dumps (JObj before) +:+ newline) 420]}.

Lemma merge_keeps_the_rest_witness :
  exists merged, merge [("source_commit_sha", JStr "c"); ("source_tree_sha", JStr "t"); ("contracts_version", JStr "1")]%string before = Ok merged /\
    json_member "enabled_profiles" merged = Some (JList [JStr "cache"%string]).
Proof.
  eexists. split; [reflexivity |].
  exact (merge_keeps_the_rest [("source_commit_sha", JStr "c"); ("source_tree_sha", JStr "t"); ("contracts_version", JStr "1")]%string
           before _ "enabled_profiles" eq_refl).
Defined.

Lemma atomic_write_all_or_nothing_witness :
  run_steps (take 3 (atomic_write_steps the_lock "tmp1" ["{"; "}"]%string 420)) disk !! the_lock = disk !! the_lock /\
  run_steps (take 5 (atomic_write_steps the_lock "tmp1" ["{"; "}"]%string 420)) disk !! the_lock = Some (File "{}" 420).
Proof.
  assert ("tmp1" <> the_lock)%string as Hne by done.
  assert (disk !! the_lock = Some (File (dumps (JObj before) +:+ newline) 420)) as Hd by apply lookup_insert_eq.
  split.
  - rewrite Hd. exact (proj1 (atomic_write_all_or_nothing the_lock "tmp1" ["{"; "}"]%string _ disk 3 "x" Hne Hd)).
  - exact (proj1 (atomic_write_all_or_nothing the_lock "tmp1" ["{"; "}"]%string _ disk 5 "x" Hne Hd)).
Defined.

Lemma metadata_in_either_form_witness :
  _load_metadata (Base64.b64encode (dumps (JObj before) +:+ newline)) = Ok before.
Proof. by apply (metadata_in_either_form before). Defined.

Lemma release_reaches_deployment_witness :
  exists r, Publish.main docker shop "reg" "c0ffee" "beef" "org/repo" "0.2.0" 0%nat = (Ok r, 6%nat) /\
  exists f', Promote.main (fun t => [t]) "tmp1" (Some r.1.2) "" None the_lock disk = (Ok 0, f') /\ is_Some (f' !! the_lock).
Proof.
  eexists. split; [reflexivity |].
  destruct (release_reaches_deployment docker (fun _ => ""%string) shop "reg" "c0ffee" "beef" "org/repo" "0.2.0" _ "" 0%nat 6%nat _ _ ["cache"%string]
              (fun t => [t]) "tmp1" the_lock disk before 420 eq_refl) as (f' & merged & ds & ls & H1 & H2 & _).
  - done.
  - done.
  - apply lookup_insert_eq.
  - reflexivity.
  - reflexivity.
  - exists f'. split; [exact H1 | by rewrite H2].
Defined.

Lemma duplicate_service_fails_late_witness :
  exists msg, Publish.main docker (shop ++ shop) "reg" "c0ffee" "beef" "org/repo" "0.2.0" 0%nat = (Raise (RuntimeError msg), 12%nat).
Proof.
  eapply (duplicate_service_fails_late docker (shop ++ shop)); [reflexivity |].
  intros Hnd. apply (bool_decide_eq_true_2 _) in Hnd. vm_compute in Hnd. discriminate.
Defined.

Lemma decode_encode_witness : Base64Decode.scan 0 0 0 (Base64.encode [77; 97; 110; 33]) = Some [77; 97; 110; 33].
Proof. apply Base64Theorems.decode_encode. repeat constructor; lia. Defined.

End ReleaseWitnesses.
