(* ===== verification/AgentEvals.v ===== *)
(** * Evaluation of recorded agent outputs

    [agent/evals/schemas.py], [agent/evals/evaluator.py] and
    [scripts/eval/run-agent-eval.py]: a dataset of incidents with expectations and
    recorded outputs of the agent ([TriageAgent.v]), the seven checks of a case, the
    report and the status of the script.

    Reading the file and the text of the report are left out: the dataset is an argument,
    as the JSON that is validated. *)

From S2P Require Import Prelude TriageAgent.

Module AgentEvals.
Import Triage(SeverityClassification(..), severity, reasoning, DraftAnalysis(..), draft_cause, draft_action, draft_confidence).

(** ** Datasets *)

Record AgentEvalExpected := Expected {
  expected_severity : string;
  minimum_confidence : Q;
  required_hypothesis_terms : list string;
  required_action_terms : list string
}.

Record AgentEvalActual := Actual { actual_severity : SeverityClassification; analysis : DraftAnalysis }.

Record AgentEvalCase := Case {
  id : string;
  incident_summary : string;
  expected : AgentEvalExpected;
  actual : AgentEvalActual
}.

Record AgentEvalDataset := Dataset { version : Z; cases : list AgentEvalCase }.

(** The constraints of the schemas. *)
Definition severities : list string := ["low"; "medium"; "high"; "critical"]%string.

Definition unit_interval (q : Q) : bool := Qle_bool 0 q && Qle_bool q 1.

Definition id_char (c : ascii) : bool :=
  let n := nat_of_ascii c in
  ((97 <=? n) && (n <=? 122) || (48 <=? n) && (n <=? 57) || (n =? 45))%nat.

Fixpoint all_chars (p : ascii -> bool) (s : string) : bool :=
  match s with EmptyString => true | String c s => p c && all_chars p s end.

Definition valid_expected (e : AgentEvalExpected) : bool :=
  bool_decide (expected_severity e ∈ severities) && unit_interval (minimum_confidence e) &&
  negb (bool_decide (required_hypothesis_terms e = [])) && negb (bool_decide (required_action_terms e = [])).

Definition valid_actual (a : AgentEvalActual) : bool :=
  bool_decide (severity (actual_severity a) ∈ severities) && unit_interval (draft_confidence (analysis a)).

Definition valid_case (c : AgentEvalCase) : bool :=
  str_truthy (id c) && all_chars id_char (id c) && str_truthy (incident_summary c) &&
  valid_expected (expected c) && valid_actual (actual c).

Definition valid_dataset (d : AgentEvalDataset) : bool :=
  (1 <=? version d) && negb (Nat.eqb (length (cases d)) 0) && forallb valid_case (cases d).

(** ** Checks *)

Definition _MIN_REASONING_LENGTH : nat := 20.
Definition _MIN_HYPOTHESIS_LENGTH : nat := 20.
Definition _MIN_ACTION_LENGTH : nat := 20.

(** [str.casefold] below 256: the lower case, and the sharp s as two letters. The micro
    sign, which folds to a letter outside this range that nothing else here folds to, is
    left as it is: no term is found differently for it. *)
Fixpoint casefold (s : string) : string :=
  match s with
  | EmptyString => EmptyString
  | String c s =>
      if Ascii.eqb c "223" then String "s" (String "s" (casefold s))
      else lower (String c EmptyString) +:+ casefold s
  end.

Definition _contains_all_terms (text : string) (terms : list string) : bool :=
  let normalized := casefold text in forallb (fun term => contains (casefold term) normalized) terms.

(** The checks by name, in order. *)
Definition checks (c : AgentEvalCase) : list (string * bool) :=
  let e := expected c in
  let s := actual_severity (actual c) in
  let a := analysis (actual c) in
  [("severity_matches", bool_decide (severity s = expected_severity e));
   ("severity_reasoning_present", (_MIN_REASONING_LENGTH <=? String.length (strip (reasoning s)))%nat);
   ("confidence_meets_minimum", Qle_bool (minimum_confidence e) (draft_confidence a));
   ("hypothesis_is_substantive", (_MIN_HYPOTHESIS_LENGTH <=? String.length (strip (draft_cause a)))%nat);
   ("hypothesis_terms_present", _contains_all_terms (draft_cause a) (required_hypothesis_terms e));
   ("action_is_substantive", (_MIN_ACTION_LENGTH <=? String.length (strip (draft_action a)))%nat);
   ("action_terms_present", _contains_all_terms (draft_action a) (required_action_terms e))]%string.

Record AgentEvalCaseResult := CaseResult {
  case_id : string;
  case_passed : bool;
  score : Q;
  case_checks : list (string * bool);
  failures : list string
}.

Definition evaluate_case (c : AgentEvalCase) : AgentEvalCaseResult :=
  let cs := checks c in
  let fs := map fst (List.filter (fun x => negb x.2) cs) in
  CaseResult (id c) (bool_decide (fs = [])) (inject_Z (Z.of_nat (count snd cs)) / inject_Z (Z.of_nat (length cs))) cs fs.

(** ** Reports *)

Record AgentEvalReport := Report {
  dataset_version : Z;
  total_cases : nat;
  passed_cases : nat;
  pass_rate : Q;
  report_passed : bool;
  report_cases : list AgentEvalCaseResult
}.

Inductive eval_error := ValidationError | ZeroDivisionError.

Definition evaluate_cases (d : AgentEvalDataset) : result eval_error AgentEvalReport :=
  let results := map evaluate_case (cases d) in
  let passed := count case_passed results in
  if Nat.eqb (length results) 0 then Raise ZeroDivisionError
  else Ok (Report (version d) (length results) passed (inject_Z (Z.of_nat passed) / inject_Z (Z.of_nat (length results)))
             (Nat.eqb passed (length results)) results).

(** [load_cases] on what was read. *)
Definition load_cases (d : AgentEvalDataset) : result eval_error AgentEvalDataset :=
  if valid_dataset d then Ok d else Raise ValidationError.

(** The status of the script. *)
Definition main (d : AgentEvalDataset) : result eval_error Z :=
  bind_result (load_cases d) (fun d => bind_result (evaluate_cases d) (fun r => Ok (if report_passed r then 0 else 1))).

End AgentEvals.

(** ** Theorems *)

Module AgentEvalTheorems.
Import Triage(SeverityClassification(..), severity, reasoning, DraftAnalysis(..), draft_cause, draft_action, draft_confidence).
Import AgentEvals.

Lemma terms_present (text : string) (terms : list string) :
  _contains_all_terms text terms = true <->
  forall term, term ∈ terms -> exists a b, casefold text = a +:+ casefold term +:+ b.
Proof.
  unfold _contains_all_terms. rewrite forallb_forall. setoid_rewrite list_elem_of_In. by setoid_rewrite contains_spec.
Qed.

(** What a case must satisfy to pass. *)
Definition acceptable (c : AgentEvalCase) : Prop :=
  let e := expected c in
  let s := actual_severity (actual c) in
  let a := analysis (actual c) in
  severity s = expected_severity e /\ (minimum_confidence e <= draft_confidence a)%Q /\
  (20 <= String.length (strip (reasoning s)))%nat /\ (20 <= String.length (strip (draft_cause a)))%nat /\
  (20 <= String.length (strip (draft_action a)))%nat /\
  (forall t, t ∈ required_hypothesis_terms e -> exists x y, casefold (draft_cause a) = x +:+ casefold t +:+ y) /\
  (forall t, t ∈ required_action_terms e -> exists x y, casefold (draft_action a) = x +:+ casefold t +:+ y).

Lemma passed_all (c : AgentEvalCase) : case_passed (evaluate_case c) = forallb snd (checks c).
Proof.
  unfold evaluate_case. cbn [case_passed]. induction (checks c) as [|[n b] cs IH]; [done |]. simpl.
  destruct b; simpl; [exact IH | reflexivity].
Qed.

(** A case passes exactly if it is acceptable: right severity, enough confidence, three
    texts of substance, and every reviewed term in the two it was written for. *)
Theorem case_passes_iff (c : AgentEvalCase) : case_passed (evaluate_case c) = true <-> acceptable c.
Proof.
  rewrite passed_all. unfold checks, acceptable. cbn [forallb snd].
  rewrite !andb_true_iff, !terms_present, !Nat.leb_le, Qle_bool_iff, bool_decide_eq_true.
  unfold _MIN_REASONING_LENGTH, _MIN_HYPOTHESIS_LENGTH, _MIN_ACTION_LENGTH. tauto.
Qed.

Lemma count_all {A} (p : A -> bool) (l : list A) : count p l = length l <-> forallb p l = true.
Proof.
  unfold count. induction l as [|x l IH]; simpl; [done |]. destruct (p x); simpl.
  - rewrite <- IH. split; [intros [= H] | intros ->]; done.
  - split; [|done]. intros H. pose proof (List.filter_length_le p l). lia.
Qed.

Lemma pass_rate_bounds (n m : nat) : (n <= m)%nat -> (0 < m)%nat ->
  (0 <= inject_Z (Z.of_nat n) / inject_Z (Z.of_nat m) <= 1)%Q /\
  ((inject_Z (Z.of_nat n) / inject_Z (Z.of_nat m) == 1)%Q <-> n = m).
Proof.
  intros Hle Hm. assert (0 < inject_Z (Z.of_nat m))%Q as Hpos by (unfold Qlt; simpl; lia).
  split; [split|].
  - apply Qle_shift_div_l; [done |]. unfold Qle; simpl; lia.
  - apply Qle_shift_div_r; [done |]. unfold Qle; simpl; lia.
  - split.
    + intros Heq. assert (inject_Z (Z.of_nat n) == inject_Z (Z.of_nat m))%Q as Hi.
      { rewrite <- (Qmult_1_l (inject_Z (Z.of_nat m))), <- Heq. field. intros H0. rewrite H0 in Hpos. by apply Qlt_irrefl in Hpos. }
      unfold Qeq in Hi. simpl in Hi. lia.
    + intros ->. field. intros H0. rewrite H0 in Hpos. by apply Qlt_irrefl in Hpos.
Qed.

(** The score is in the unit interval, is one exactly for a case that passes, and the
    failures are the names of the checks that did not hold. *)
Theorem case_score (c : AgentEvalCase) :
  let r := evaluate_case c in
  (0 <= score r <= 1)%Q /\ ((score r == 1)%Q <-> case_passed r = true) /\
  (forall n, n ∈ failures r <-> (n, false) ∈ checks c).
Proof.
  intros r. assert (count snd (checks c) <= length (checks c))%nat as Hle by apply List.filter_length_le.
  destruct (pass_rate_bounds (count snd (checks c)) (length (checks c)) Hle) as [Hb Hone]; [simpl; lia |].
  split; [exact Hb |]. split.
  - etrans; [exact Hone |]. unfold r. by rewrite passed_all, count_all.
  - intros n. unfold r, evaluate_case. cbn [failures]. rewrite list_elem_of_In, in_map_iff. split.
    + intros ([m b] & <- & [Hin Hb']%List.filter_In). simpl in *. destruct b; [done |]. by apply list_elem_of_In.
    + intros Hin%list_elem_of_In. exists (n, false). split; [done |]. by apply List.filter_In.
Qed.

(** The report of a valid dataset exists, its rate is in the unit interval, and it passes
    exactly if every case is acceptable, which is when the rate is one. *)
Theorem report_of_valid_dataset (d : AgentEvalDataset) :
  valid_dataset d = true ->
  exists r, evaluate_cases d = Ok r /\ (0 <= pass_rate r <= 1)%Q /\
    (report_passed r = true <-> Forall acceptable (cases d)) /\
    ((pass_rate r == 1)%Q <-> report_passed r = true) /\
    case_id <$> report_cases r = id <$> cases d.
Proof.
  unfold valid_dataset. intros Hv. rewrite !andb_true_iff, negb_true_iff in Hv. destruct Hv as [[_ Hne%Nat.eqb_neq] _].
  unfold evaluate_cases. rewrite length_map. destruct (Nat.eqb_spec (length (cases d)) 0); [done |].
  eexists. split; [reflexivity |]. cbn [pass_rate report_passed report_cases].
  set (p := count case_passed (map evaluate_case (cases d))).
  assert (p <= length (cases d))%nat as Hp by (unfold p; rewrite <- (length_map evaluate_case); apply List.filter_length_le).
  destruct (pass_rate_bounds p (length (cases d)) Hp) as [Hb Hone]; [lia |].
  assert (p = length (cases d) <-> Forall acceptable (cases d)) as Hall.
  { unfold p. rewrite <- (length_map evaluate_case (cases d)), count_all, forallb_forall, List.Forall_forall.
    setoid_rewrite in_map_iff. split.
    - intros H c Hc. apply case_passes_iff, H. by exists c.
    - intros H r (c & <- & Hc). apply case_passes_iff, H. done. }
  split; [exact Hb |]. split; [|split].
  - by rewrite Nat.eqb_eq.
  - by rewrite Nat.eqb_eq.
  - rewrite <- list_fmap_compose. by apply list_fmap_ext.
Qed.

(** Asking for less cannot turn a pass into a failure: with fewer terms and a lower
    minimum, whatever passed passes. *)
Theorem weaker_expectations_pass (c : AgentEvalCase) (e : AgentEvalExpected) :
  expected_severity e = expected_severity (expected c) ->
  (minimum_confidence e <= minimum_confidence (expected c))%Q ->
  required_hypothesis_terms e ⊆ required_hypothesis_terms (expected c) ->
  required_action_terms e ⊆ required_action_terms (expected c) ->
  case_passed (evaluate_case c) = true ->
  case_passed (evaluate_case (Case (id c) (incident_summary c) e (actual c))) = true.
Proof.
  intros Hs Hm Hh Ha. rewrite !case_passes_iff. unfold acceptable. cbn.
  intros (H1 & H2 & H3 & H4 & H5 & H6 & H7). split_and!; [congruence | by eapply Qle_trans | done | done | done | |].
  - intros t Ht. apply H6. by apply Hh.
  - intros t Ht. apply H7. by apply Ha.
Qed.

(** An empty term is present in every text: the schema, which asks for at least one term,
    does not ask for one that says something. *)
Theorem empty_terms_ask_nothing (text : string) (terms : list string) :
  Forall (fun t => t = EmptyString) terms -> _contains_all_terms text terms = true.
Proof.
  intros Ht. apply terms_present. intros t Hin. rewrite Forall_forall in Ht. rewrite (Ht t Hin).
  by exists EmptyString, (casefold text).
Qed.

(** The script's status is zero exactly for a valid dataset of which every case is
    acceptable. *)
Theorem script_status (d : AgentEvalDataset) :
  main d = Ok 0 <-> valid_dataset d = true /\ Forall acceptable (cases d).
Proof.
  unfold main, load_cases. destruct (valid_dataset d) eqn:Hv; simpl; [|naive_solver].
  destruct (report_of_valid_dataset d Hv) as (r & Hr & _ & Hp & _). rewrite Hr. simpl. rewrite <- Hp.
  destruct (report_passed r); naive_solver.
Qed.

End AgentEvalTheorems.

(** ** Witnesses *)

Module AgentEvalWitnesses.
Import Triage(SeverityClassification(..), severity, reasoning, DraftAnalysis(..), draft_cause, draft_action, draft_confidence).
Import AgentEvals AgentEvalTheorems.

Definition drift_case : AgentEvalCase :=
  Case "price-removed" "A required field disappeared"
    (Expected "high" (7 # 10) ["PRICE"; "removed"] ["contact"])
    (Actual (Severity "high" "A required field was removed" true)
            (Draft "The provider removed the price field." "Contact the provider and pin the version." (8 # 10))).

Definition one_case : AgentEvalDataset := Dataset 1 [drift_case].

Lemma report_of_valid_dataset_witness :
  exists r, evaluate_cases one_case = Ok r /\ report_passed r = true.
Proof.
  destruct (report_of_valid_dataset one_case eq_refl) as (r & Hr & _ & _ & _ & _).
  exists r. split; [exact Hr |]. vm_compute in Hr. injection Hr as <-. reflexivity.
Defined.

Lemma weaker_expectations_pass_witness :
  case_passed (evaluate_case (Case "price-removed" "A required field disappeared" (Expected "high" (1 # 2) ["price"%string] ["contact"%string]) (actual drift_case))) = true.
Proof.
  apply (weaker_expectations_pass (Case "price-removed" "A required field disappeared" (Expected "high" (7 # 10) ["price"; "removed"]%string ["contact"%string]) (actual drift_case))).
  - reflexivity.
  - discriminate.
  - intros t Ht. apply list_elem_of_singleton in Ht as ->. left.
  - intros t Ht. exact Ht.
  - vm_compute. reflexivity.
Defined.

Lemma empty_terms_ask_nothing_witness : _contains_all_terms "anything" [EmptyString] = true.
Proof. apply empty_terms_ask_nothing. by repeat constructor. Defined.

End AgentEvalWitnesses.
