(* ===== verification/AccountScripts.v ===== *)
(** * Account scripts

    [scripts/seed_admin.py], [scripts/create_admin.py] and
    [scripts/register_mcp_service_user.py]: the seeding of the first accounts, on the tables
    of [Users.v], and the two command-line clients of the registration and promotion
    endpoints.  The clients are written against any server; the ingestor is the server that
    answers with the handlers of [Users.v] behind the guards of [UserAuth.v], and signs what
    the scripts sign with [InternalAuth.v].

    What is printed is left out, and so is the text of an answer, which is only printed.
    [argparse] is the record of what was given: flags that must be given end the script with
    status 2.  The routing of paths, the decision of the token bucket and the role manager
    are parameters. *)

From S2P Require Import Prelude Db Incidents Jwt InternalAuth UserAuth Users.

(** ** Seeding *)

Module Seeding.
Import Jwt.Dict Tokens Roles Users.

Inductive log_event := seed_admin_skipped | seed_superadmin_failed | seed_admin_failed | seed_admin_complete.

Inductive query_error := UndefinedTable.

(** A helper that queries raises when the migrations have not been applied. *)
Definition query {A} (schema queries : bool) (x : A) : result query_error A :=
  if queries && negb schema then Raise UndefinedTable else Ok x.

Section Seed.
Context {D : Database} (hash : string -> string).

Definition admin_configured (b : BootstrapSettings) : bool :=
  opt_str_truthy (init_admin_username b) && opt_str_truthy (init_admin_password b).

Definition seed (schema : bool) (now : datetime) (s : Settings) (b : BootstrapSettings) (w : world)
    : result query_error (list log_event * world) :=
  bind_result (query schema (opt_str_truthy (superadmin_password b)) (ensure_superadmin hash now s b w)) (fun '(superadmin, w) =>
  let log := match superadmin with
             | None => if opt_str_truthy (superadmin_password b) then [seed_superadmin_failed] else []
             | Some _ => []
             end in
  bind_result (query schema (admin_configured b) (bootstrap_initial_admin hash now b w)) (fun w => Ok (log, w))).

(** The status, the events and the tables. *)
Definition main (schema : bool) (now : datetime) (s : Settings) (b : BootstrapSettings) (w : world)
    : Z * list log_event * world :=
  if negb (opt_str_truthy (init_admin_username b)) && negb (opt_str_truthy (superadmin_password b))
  then (0, [seed_admin_skipped], w)
  else match seed schema now s b w with
       | Raise _ => (1, [seed_admin_failed], w)
       | Ok (log, w) => (0, log ++ [seed_admin_complete], w)
       end.

End Seed.
End Seeding.

(** ** Command-line clients *)

Module Clients.
Import Jwt.Dict Users.

Definition DEFAULT_INGESTOR_URL : string := "http://localhost:8000".
Definition DEFAULT_EMAIL_DOMAIN : string := "example.com".
Definition DEFAULT_USERNAME : string := "mcp-service".
Definition DEFAULT_ROLE : string := "user".

Record shell := Shell {
  INGESTOR_URL : option string;
  MCP_SERVICE_PASSWORD : option string;
  auth_env : InternalAuth.environ
}.

(** What was given on the command line. *)
Record options := Options {
  opt_ingestor_url : option string;
  opt_username : option string;
  opt_password : option string;
  opt_email : option string;
  opt_role : option string;
  opt_promote_only : bool;
  opt_internal_jwt_secret : option string
}.

Fixpoint rstrip_slashes (s : string) : string :=
  match s with
  | EmptyString => EmptyString
  | String c s => match rstrip_slashes s with
                  | EmptyString => if Ascii.eqb c "/" then EmptyString else String c EmptyString
                  | r => String c r
                  end
  end.

Definition body := list (string * string).

(** Leaving the script early: [sys.exit], or an exception that nothing catches. *)
Inductive stop :=
| SystemExit (code : Z)
| Uncaught (e : InternalAuth.auth_error).

Definition exit_status (r : result stop Z) : Z :=
  match r with
  | Ok code => code
  | Raise (SystemExit code) => code
  | Raise (Uncaught _) => 1
  end.

Section Clients.
Context {J : Jwt} {St : Type}.
(** One request: the address, the JSON body and the [Authorization] header; the status
    of the answer, or nothing when the server is not reached. *)
Context (post : string -> body -> option string -> St -> option Z * St).

Definition script A := St -> result stop A * St.

Definition ret {A} (a : A) : script A := fun st => (Ok a, st).
Definition halt {A} (e : stop) : script A := fun st => (Raise e, st).
Definition andThen {A B} (m : script A) (k : A -> script B) : script B := fun st =>
  match m st with
  | (Ok a, st) => k a st
  | (Raise e, st) => (Raise e, st)
  end.

Definition _post (url : string) (json : body) (authorization : option string) : script Z := fun st =>
  match post url json authorization st with
  | (Some status, st) => (Ok status, st)
  | (None, st) => (Raise (SystemExit 1), st)
  end.

Definition register_url (ingestor_url : string) : string := rstrip_slashes ingestor_url +:+ "/api/v1/auth/register".
Definition role_url (ingestor_url username : string) : string :=
  rstrip_slashes ingestor_url +:+ "/api/v1/auth/users/" +:+ username +:+ "/role".

Definition register_body (username email password role : string) : body :=
  [("username", username); ("email", email); ("password", password); ("role", role)]%string.

Definition register_user (ingestor_url username email password role : string) : script unit :=
  andThen (_post (register_url ingestor_url) (register_body username email password role) None) (fun status =>
  if (status =? 201) || (status =? 409) then ret tt else halt (SystemExit 1)).

(** The secret given decides whether to go on; the token is signed with the one of the
    environment. *)
Definition promote_user (env : shell) (now : datetime) (ingestor_url username role : string)
    (internal_jwt_secret : option string) : script unit :=
  if opt_str_truthy internal_jwt_secret then
    match InternalAuth.generate_internal_token (auth_env env) now "bootstrap-script" with
    | Raise e => halt (Uncaught e)
    | Ok token =>
        andThen (_post (role_url ingestor_url username) [("role", role)]%string (Some ("Bearer " +:+ token))) (fun status =>
        if status =? 200 then ret tt else halt (SystemExit 1))
    end
  else halt (SystemExit 2).

(** [scripts/create_admin.py] *)
Definition create_admin_main (env : shell) (now : datetime) (args : options) : script Z :=
  let ingestor_url := or_else (opt_ingestor_url args) (or_else (INGESTOR_URL env) DEFAULT_INGESTOR_URL) in
  match opt_username args, opt_password args with
  | Some username, Some password =>
      let role := or_else (opt_role args) "user" in
      let internal_jwt_secret := match opt_internal_jwt_secret args with
                                 | Some s => Some s
                                 | None => InternalAuth.INTERNAL_JWT_SECRET (auth_env env)
                                 end in
      let email := str_or (opt_email args) (username +:+ "@" +:+ DEFAULT_EMAIL_DOMAIN) in
      andThen (if opt_promote_only args then ret tt else register_user ingestor_url username email password "user") (fun _ =>
      andThen (if bool_decide (role = "user") then ret tt
               else promote_user env now ingestor_url username role internal_jwt_secret) (fun _ =>
      ret 0))
  | _, _ => halt (SystemExit 2)
  end.

(** [scripts/register_mcp_service_user.py] *)
Definition register (ingestor_url username email password role : string) (st : St) : Z * St :=
  match post (register_url ingestor_url) (register_body username email password role) None st with
  | (None, st) => (1, st)
  | (Some status, st) => (if status =? 201 then 0 else if status =? 409 then 0 else 1, st)
  end.

Definition register_main (env : shell) (args : options) (st : St) : Z * St :=
  let ingestor_url := or_else (opt_ingestor_url args) (or_else (INGESTOR_URL env) DEFAULT_INGESTOR_URL) in
  let username := or_else (opt_username args) DEFAULT_USERNAME in
  let role := or_else (opt_role args) DEFAULT_ROLE in
  let password := match opt_password args with Some p => Some p | None => MCP_SERVICE_PASSWORD env end in
  if negb (opt_str_truthy password) then (2, st)
  else register ingestor_url username (str_or (opt_email args) (username +:+ "@" +:+ DEFAULT_EMAIL_DOMAIN))
         (or_else password "") role st.

End Clients.
End Clients.

(** ** The ingestor as the server *)

Module Ingestor.
Import Jwt.Dict Tokens Roles Users.
Import Clients(body).

Inductive endpoint := RegisterEndpoint | RoleEndpoint (username : string).

Section Ingestor.
Context {J : Jwt} {D : Database} (str_of : json -> string) (emitter : bool).
Context (hash : string -> string) (valid_email : string -> bool).
Context (get_roles : list (string * string * string) -> string -> string -> list string).
(** The role manager's links, from the rules. *)
Context (links : list (string * string * string) -> string -> string -> string -> bool).
(** The routes by address, and whether the router's token bucket is empty. *)
Context (route : string -> option endpoint) (limited : bool).
Context (s : Settings) (now : datetime).

Definition ROLES : list string := ["user"; "manager"; "admin"].

Definition field (k : string) (b : body) : option string :=
  option_map snd (List.find (fun x => bool_decide (x.1 = k)) b).

(** The body as [UserCreate]; its role must be one of the known ones and is then ignored. *)
Definition user_create (b : body) : option UserCreate :=
  match field "username" b, field "email" b, field "password" b with
  | Some username, Some email, Some password =>
      let c := Create username email password None in
      if valid_create valid_email c && bool_decide (or_else (field "role" b) "user" ∈ ROLES) then Some c else None
  | _, _, _ => None
  end.

Definition role_assignment (b : body) : option string :=
  match field "role" b with Some role => if bool_decide (role ∈ ROLES) then Some role else None | None => None end.

Definition status_of {A} (created : Z) (r : result failure A) : Z :=
  match r with
  | Ok _ => created
  | Raise (Http (Incidents.HTTP code _)) => code
  | Raise Unhandled => 500
  end.

(** The bucket first, then the guards, then the body, then the handler. *)
Definition post (url : string) (b : body) (authorization : option string) (w : world) : option Z * world :=
  match route url with
  | None => (Some 404, w)
  | Some e =>
      if limited then (Some 429, w)
      else match e with
           | RegisterEndpoint =>
               match user_create b with
               | None => (Some 422, w)
               | Some c => let '(r, w) := register hash now c w in (Some (status_of 201 r), w)
               end
           | RoleEndpoint name =>
               let guard := bind_result (verify_jwt_token str_of emitter s now authorization None).1.1 (fun claims =>
                              (casbin_guard str_of (links (rules (authz w))) emitter s ["admin"] claims).1) in
               match guard with
               | Raise _ => (Some (status_of 200 guard), w)
               | Ok _ =>
                   match role_assignment b with
                   | None => (Some 422, w)
                   | Some role => let '(r, w) := assign_role get_roles name role w in (Some (status_of 200 r), w)
                   end
               end
           end
  end.

End Ingestor.
End Ingestor.

(** ** Theorems *)

Module AccountScriptFacts.
Import Jwt.Dict Tokens Roles Users UserFacts.

Section creation.
Context {D : Database}.

(** A taken name or address is refused. *)
Lemma create_taken now name mail h role w i v :
  wf w -> get i (users w) = Some v -> username v = name \/ email v = mail ->
  is_ok (create_user now name mail h role None w) = false.
Proof.
  intros Hw Hg Hv. destruct (create_user now name mail h role None w) as [[j w']|] eqn:Ec; [|done]. exfalso.
  apply create_user_ok in Ec as (Hw' & -> & t & Hu & Hj & _); [|done].
  assert (i < next_id (users w)) as Hlt by (eapply get_lt; [apply Hw | exact Hg]).
  assert (get i (users w') = Some v) as Hg'.
  { rewrite Hu, get_insert by apply Hw. destruct (Z.eqb_spec i (next_id (users w))); [lia | done]. }
  destruct Hv as [Hv|Hv].
  - assert (i = next_id (users w)) as He; [|lia].
    by apply (unique_username _ Hw' i _ v _ name Hg' Hj); cbn; congruence.
  - assert (i = next_id (users w)) as He; [|lia].
    by apply (unique_email _ Hw' i _ v _ mail Hg' Hj); cbn; congruence.
Qed.

(** Whether a creation succeeds does not depend on when, nor on the password. *)
Lemma create_any_time now now' name mail h h' role role' w :
  is_ok (create_user now name mail h role None w) = is_ok (create_user now' name mail h' role' None w).
Proof.
  unfold create_user. destruct (insert_tenant _ _) as [[t ts]|]; [|done]. cbn [bind_result].
  unfold insert_user. cbn [user_tenant_id]. destruct (tenant_known _ _); [|done].
  change (same_account (UserRow name mail h true (Some t) now (Some now) None))
    with (same_account (UserRow name mail h' true (Some t) now' (Some now') None)).
  unfold insert_unique. cbn [users]. destruct (Db.scalar _ (users w)); [done |]. cbn [bind_result insert].
  by destruct (Db.scalar (same_membership _ t) _).
Qed.

Lemma create_keeps now name mail h role w i w' :
  wf w -> create_user now name mail h role None w = Ok (i, w') ->
  forall j v, get j (users w) = Some v -> get j (users w') = Some v.
Proof.
  intros Hw (_ & _ & t & Hu & _)%create_user_ok j v Hj; [|done]. rewrite Hu, get_insert by apply Hw.
  destruct (Z.eqb_spec j (next_id (users w))) as [->|]; [|done]. exfalso. assert (next_id (users w) < next_id (users w)); [|lia].
  eapply get_lt; [apply Hw | exact Hj].
Qed.

End creation.

Section facts.
Context {D : Database} (hash : string -> string).

Lemma bootstrap_wf now b w : wf w -> wf (bootstrap_initial_admin hash now b w).
Proof.
  intros Hw. unfold bootstrap_initial_admin. repeat (case_match; try done).
  - match goal with H : create_user _ _ _ _ _ _ _ = Ok _ |- _ => apply create_user_ok in H as [? _]; done end.
  - by apply wf_authz.
Qed.

Lemma bootstrap_keeps now b w :
  wf w -> forall j v, get j (users w) = Some v -> get j (users (bootstrap_initial_admin hash now b w)) = Some v.
Proof.
  intros Hw j v Hj. unfold bootstrap_initial_admin. repeat (case_match; try done).
  eapply create_keeps; [exact Hw | eassumption | exact Hj].
Qed.

Lemma bootstrap_again now now' b w :
  wf w -> bootstrap_initial_admin hash now' b (bootstrap_initial_admin hash now b w) = bootstrap_initial_admin hash now b w.
Proof.
  intros Hw. unfold bootstrap_initial_admin. destruct (_ || _); [done |].
  destruct (0 <? count_active_admins None w)%nat eqn:Ec; [by rewrite Ec |].
  set (name := or_else (init_admin_username b) ""). set (mail := str_or _ _). set (h := hash _).
  destruct (create_user now name mail h "admin" None w) as [[i w']|e] eqn:Eu.
  - destruct (0 <? count_active_admins None w')%nat; [done |].
    destruct (create_user_ok _ _ _ _ _ _ _ _ _ Hw Eu) as (Hw' & _ & t & _ & Hg & _).
    pose proof (create_taken now' name mail h "admin" w' i _ Hw' Hg (or_introl eq_refl)) as Ht.
    destruct (create_user now' _ _ _ _ _ w') as [[]|c] eqn:Eu'; [done |].
    by rewrite (create_user_raise _ _ _ _ _ _ _ _ Hw' Eu').
  - rewrite (create_user_raise _ _ _ _ _ _ _ _ Hw Eu), Ec.
    pose proof (create_any_time now now' name mail h h "admin" "admin" w) as Ht. rewrite Eu in Ht.
    destruct (create_user now' _ _ _ _ _ w) as [[]|c] eqn:Eu'; [done |]. by rewrite (create_user_raise _ _ _ _ _ _ _ _ Hw Eu').
Qed.

(** The outcome of [ensure_superadmin] by cases: not asked for, there already, added, or
    the name or the address taken. *)
Lemma ensure_cases now s b w :
  wf w ->
  let '(r, w') := ensure_superadmin hash now s b w in
  wf w' /\ (forall j v, get j (users w) = Some v -> get j (users w') = Some v) /\
  (opt_str_truthy (superadmin_password b) = false /\ r = None /\ w' = w \/
   opt_str_truthy (superadmin_password b) = true /\
   ((exists x, r = Some x /\ get_user_by_username (superadmin_subject s) w' = Some x /\
       (w' = w \/ get (next_id (users w)) (users w') = Some x.2 /\ user_tenant_id x.2 = None)) \/
    r = None /\ w' = w /\ get_user_by_username (superadmin_subject s) w = None /\
      exists j v, get j (users w) = Some v /\
        (username v = superadmin_subject s \/ email v = str_or (superadmin_email b) (superadmin_subject s +:+ "@example.com")))).
Proof.
  intros Hw. unfold ensure_superadmin. destruct (opt_str_truthy (superadmin_password b)); cbn [negb]; [|split; [done |]; split; [done | by left]].
  destruct (get_user_by_username (superadmin_subject s) w) as [x|] eqn:Eg.
  { split; [done |]. split; [done |]. right. split; [done |]. left. exists x. split_and!; [done | exact Eg | by left]. }
  set (u := UserRow _ _ _ _ _ _ _ _). destruct (insert_user u w) as [[i w']|[]] eqn:Ei.
  - apply insert_user_ok in Ei as (Ht & Hn & -> & ->); [|done].
    assert (wf (with_users w (snd (insert u (users w))))) as Hw' by by apply wf_add_user.
    assert (get (next_id (users w)) (users (with_users w (snd (insert u (users w))))) = Some u) as Hg.
    { cbn [users with_users]. rewrite get_insert by apply Hw. by rewrite Z.eqb_refl. }
    split; [done |]. split.
    { intros j v Hj. cbn [users with_users]. rewrite get_insert by apply Hw. destruct (Z.eqb_spec j (next_id (users w))) as [->|]; [|done].
      exfalso. assert (next_id (users w) < next_id (users w)); [|lia]. eapply get_lt; [apply Hw | exact Hj]. }
    right. split; [done |]. left. exists (next_id (users w), u). split; [done |]. split; [|by right].
    unfold get_user_by_username. destruct (Db.scalar _ (users (with_users w _))) as [[j v]|] eqn:Es.
    + apply scalar_Some in Es as [Hj Hb]; [|apply Hw']. apply andb_true_iff in Hb as [Hb%bool_decide_eq_true _].
      assert (j = next_id (users w)) as -> by
        (apply (unique_username _ Hw' j _ v u (superadmin_subject s) Hj Hg); cbn; congruence).
      congruence.
    + rewrite scalar_None in Es by apply Hw'. specialize (Es _ _ Hg). cbn in Es. by rewrite bool_decide_true in Es.
  - split; [done |]. split; [done |]. right. split; [done |]. right. split_and!; [done .. |].
    unfold insert_user in Ei. cbn [user_tenant_id u] in Ei. unfold insert_unique in Ei.
    destruct (Db.scalar (same_account u) (users w)) as [[j v]|] eqn:Es; [|done].
    apply scalar_Some in Es as [Hj Hs]; [|apply Hw]. exists j, v. split; [exact Hj |].
    unfold same_account in Hs. cbn in Hs. apply orb_true_iff in Hs as [Hs%bool_decide_eq_true|Hs%bool_decide_eq_true]; [by left | by right].
Qed.

(** With the name or the address taken, nothing is added. *)
Lemma ensure_taken now s b w j v :
  wf w -> get j (users w) = Some v ->
  username v = superadmin_subject s \/ email v = str_or (superadmin_email b) (superadmin_subject s +:+ "@example.com") ->
  (ensure_superadmin hash now s b w).2 = w.
Proof.
  intros Hw Hj Hv. unfold ensure_superadmin. destruct (negb _); [done |]. destruct (get_user_by_username _ w); [done |].
  destruct (insert_user _ w) as [[i w']|] eqn:Ei; [|done]. exfalso.
  apply insert_user_ok in Ei as (_ & Hn & _); [|done]. destruct (Hn j v Hj). cbn in *. naive_solver.
Qed.

Lemma found_by_name name w i u :
  wf w -> get_user_by_username name w = Some (i, u) -> get i (users w) = Some u /\ username u = name.
Proof.
  intros Hw [Hg Hb]%scalar_Some; [|apply Hw]. by apply andb_true_iff in Hb as [Hb%bool_decide_eq_true _].
Qed.

End facts.
End AccountScriptFacts.

Module AccountScriptTheorems.
Import Jwt.Dict Tokens Roles Users UserFacts AccountScriptFacts.

Section seeding.
Context {D : Database} (hash : string -> string).
Import Seeding.

#[local] Abbreviation seed_main := (main hash) (only parsing).

Lemma seeded now s b w :
  opt_str_truthy (init_admin_username b) || opt_str_truthy (superadmin_password b) = true ->
  (seed_main true now s b w).2 = bootstrap_initial_admin hash now b (ensure_superadmin hash now s b w).2.
Proof.
  intros Hc. unfold main. rewrite <- negb_orb, Hc. cbn [negb]. unfold seed, query. rewrite !andb_false_r. cbn [bind_result].
  by destruct (ensure_superadmin hash now s b w).
Qed.

(** Seeding again, whenever that is, changes nothing: not after a success, and not after
    a creation that failed. *)
Theorem seeding_is_idempotent now now' s b w :
  wf w -> let w' := (seed_main true now s b w).2 in (seed_main true now' s b w').2 = w'.
Proof.
  intros Hw. cbn zeta. destruct (opt_str_truthy (init_admin_username b) || opt_str_truthy (superadmin_password b)) eqn:Hc.
  2: { unfold main. rewrite <- negb_orb, Hc. done. }
  rewrite !seeded by done. pose proof (ensure_cases hash now s b w Hw) as He.
  destruct (ensure_superadmin hash now s b w) as [r w1]. cbn [snd]. destruct He as (Hw1 & Hk1 & He).
  set (w2 := bootstrap_initial_admin hash now b w1).
  assert (wf w2) as Hw2 by by apply bootstrap_wf.
  assert (forall j v, get j (users w1) = Some v -> get j (users w2) = Some v) as Hk2 by by apply bootstrap_keeps.
  assert ((ensure_superadmin hash now' s b w2).2 = w2) as ->; [|by apply bootstrap_again].
  destruct He as [(Hp & _)|(_ & [([i u] & -> & Hx & _)|(_ & -> & _ & j & v & Hj & Hv)])].
  - unfold ensure_superadmin. by rewrite Hp.
  - destruct (found_by_name _ _ _ _ Hw1 Hx) as [Hg Hn]. eapply ensure_taken; [exact Hw2 | by apply Hk2 | by left].
  - eapply ensure_taken; [exact Hw2 | by apply Hk2 | exact Hv].
Qed.

(** The status: one exactly when the tables are missing and something is to be looked up
    in them, and then nothing has changed; zero otherwise, whether or not the accounts
    could be made. *)
Theorem seeding_status schema now s b w :
  let '(status, _, w') := seed_main schema now s b w in
  (status = 1 /\ schema = false /\ (opt_str_truthy (superadmin_password b) || admin_configured b) = true /\ w' = w) \/
  (status = 0 /\ (schema = true \/ (opt_str_truthy (superadmin_password b) || admin_configured b) = false)).
Proof.
  unfold main, seed, query. destruct (negb _ && negb _) eqn:Hc.
  - right. split; [done |]. right. apply andb_true_iff in Hc as [H1%negb_true_iff H2%negb_true_iff].
    unfold admin_configured. by rewrite H1, H2.
  - destruct schema; cbn [negb].
    + rewrite !andb_false_r. cbn [bind_result]. destruct (ensure_superadmin _ _ _ _ _). cbn [bind_result]. right. by split; [|left].
    + destruct (opt_str_truthy (superadmin_password b)) eqn:Hs; cbn [andb bind_result orb]; [by left |].
      unfold ensure_superadmin. rewrite Hs. cbn [negb].
      destruct (admin_configured b); cbn [andb bind_result]; [by left | by right; split; [|right]].
Qed.

(** On empty tables the superadmin is the first account. *)
Theorem superadmin_is_first now s b w :
  wf w -> rows (users w) = [] -> next_id (users w) = 1 -> opt_str_truthy (superadmin_password b) = true ->
  exists u, get 1 (users (seed_main true now s b w).2) = Some u /\ username u = superadmin_subject s /\
    is_active u = true /\ user_tenant_id u = None.
Proof.
  intros Hw Hr Hn Hp. rewrite seeded by (by rewrite Hp, orb_true_r).
  pose proof (ensure_cases hash now s b w Hw) as He. destruct (ensure_superadmin hash now s b w) as [r w1].
  destruct He as (Hw1 & _ & [(Hf & _)|(_ & [([i u] & -> & Hx & Hor)|(_ & _ & _ & j & v & Hj & _)])]).
  - congruence.
  - destruct (found_by_name _ _ _ _ Hw1 Hx) as [Hg Hname]. destruct Hor as [->|[Hg1 Ht]].
    + unfold get in Hg. by rewrite Hr in Hg.
    + rewrite Hn in Hg1. exists u. split_and!; [by apply bootstrap_keeps | done | | done].
      apply scalar_Some in Hx as [_ Hb]; [|apply Hw1]. by apply andb_true_iff in Hb as [_ Hb].
  - unfold get in Hj. by rewrite Hr in Hj.
Qed.

End seeding.

Section clients.
Context `{L : JwtLaws} {D : Database} (str_of : json -> string) (emitter : bool).
Context (hash : string -> string) (valid_email : string -> bool).
Context (get_roles : list (string * string * string) -> string -> string -> list string).
Context (links : list (string * string * string) -> string -> string -> string -> bool).
Context (route : string -> option Ingestor.endpoint).
Import Clients.

#[local] Abbreviation ingestor := (Ingestor.post str_of emitter hash valid_email get_roles links route) (only parsing).

(** A token signed with a secret that is none of the verifier's. *)
Lemma foreign_token payload key s t source secrets saw ctx :
  flat payload -> key ∉ secrets ->
  exists detail, verify_loop str_of emitter source s t (jwt_encode payload key (jwt_algorithm s)) secrets saw ctx =
    (unauthorized detail, ctx, []).
Proof.
  intros Hf. revert saw. induction secrets as [|k secrets IH]; intros saw Hk; [by eexists |]. cbn [verify_loop].
  rewrite decode_other_key by set_solver. apply IH. set_solver.
Qed.

Lemma user_create_body u mail p role :
  Ingestor.user_create valid_email (register_body u mail p role) =
    if valid_create valid_email (Create u mail p None) && bool_decide (role ∈ Ingestor.ROLES) then Some (Create u mail p None) else None.
Proof. reflexivity. Qed.

(** A registration is the creation of an account. *)
Lemma register_outcome now c w :
  wf w ->
  let '(r, w') := Users.register hash now c w in
  if is_ok (create_user now (new_username c) (new_email c) (hash (new_password c)) "user" None w)
  then exists x, r = Ok x else r = http 409 "Username or email already registered." /\ w' = w.
Proof.
  intros Hw. unfold Users.register. destruct (create_user _ _ _ _ _ _ w) as [[i w']|c'] eqn:Ec;
    [|by apply create_user_raise in Ec]. cbn [is_ok].
  apply create_user_ok in Ec as (_ & _ & t & _ & Hg & _); [|done]. rewrite Hg. by eexists.
Qed.

(** What a request to register can do, wherever it is routed. *)
Lemma register_request limited s now url u mail p role w :
  wf w ->
  let '(status, w') := ingestor limited s now url (register_body u mail p role) None w in
  (status <> Some 201 /\ w' = w) \/
  (status = Some 201 /\ wf w' /\ route url = Some Ingestor.RegisterEndpoint /\ limited = false /\
   (exists i v, get i (users w') = Some v /\ username v = u) /\
   exists t, authz w' = add_role_for_user_in_domain u "user" (str_of_Z t) (authz w)).
Proof.
  intros Hw. unfold Ingestor.post. destruct (route url) as [[|name]|]; [| |by left].
  - destruct limited; [by left |]. destruct (Ingestor.user_create _ _) as [c|] eqn:Ec; [|by left].
    rewrite user_create_body in Ec. destruct (_ && _); [|done]. injection Ec as <-.
    destruct (Users.register hash now _ w) as [[r|e] w'] eqn:Er.
    + destruct (UserTheorems.register_ok hash now _ w r w' Hw Er) as (Hw' & i & t & _ & Hg & Ha).
      right. split_and!; [done .. | by eexists _, _ | by exists t].
    + left. pose proof (register_outcome now (Create u mail p None) w Hw) as Ho. rewrite Er in Ho.
      destruct (is_ok _); [by destruct Ho | by destruct Ho as [[= ->] ->]].
  - destruct limited; by left.
Qed.

(** What a request for a role can do that carries a token which does not verify. *)
Lemma role_request limited s now url role payload key w :
  flat payload -> key ∉ _jwt_verification_secrets s -> jwt_algorithm s = InternalAuth._ALGORITHM ->
  let '(status, w') := ingestor limited s now url [("role", role)]%string
      (Some ("Bearer " +:+ jwt_encode payload key InternalAuth._ALGORITHM)) w in
  status <> Some 200 /\ w' = w.
Proof.
  intros Hf Hk Halg. unfold Ingestor.post. destruct (route url) as [[|name]|]; [| |done].
  - by destruct limited.
  - destruct limited; [done |]. rewrite TokenTheorems.check_bearer, <- Halg.
    destruct (foreign_token payload key s now "http_header" _ false None Hf Hk) as [detail ->]. done.
Qed.

Lemma promote_refused limited s env now t base u role secret w :
  (forall key, InternalAuth._get_secret (auth_env env) = Ok key -> key ∉ _jwt_verification_secrets s) ->
  jwt_algorithm s = InternalAuth._ALGORITHM ->
  let '(r, w') := promote_user (ingestor limited s t) env now base u role secret w in
  (exists e, r = Raise e /\ exit_status (Raise e) <> 0) /\ w' = w.
Proof.
  intros Hkeys Halg. unfold promote_user, halt. destruct (opt_str_truthy secret); [|by split; [eexists |]].
  unfold InternalAuth.generate_internal_token.
  destruct (InternalAuth._get_secret (auth_env env)) as [key|e]; cbn [bind_result]; [|by split; [eexists |]].
  unfold andThen, _post.
  pose proof (role_request limited s t (role_url base u) role
    (InternalAuth.token_payload now (InternalAuth._token_ttl_seconds (auth_env env)) "bootstrap-script") key w
    (proj1 (InternalAuthTheorems.token_payload_ok now _ _)) (Hkeys key eq_refl) Halg) as Hr.
  destruct (ingestor limited s t _ _ _ w) as [[status|] w2]; destruct Hr as [Hs ->]; [|by split; [eexists |]].
  destruct (Z.eqb_spec status 200) as [->|]; [done |]. by split; [eexists |].
Qed.

(** C13: The script never promotes anybody when the two kinds of tokens have different secrets:
    asked for a role other than the default one it ends with a status other than zero,
    and all it may have done is to register an ordinary user. *)
Theorem promotion_is_refused limited s env now t args role w :
  wf w -> opt_role args = Some role -> role <> "user" ->
  (forall key, InternalAuth._get_secret (auth_env env) = Ok key -> key ∉ _jwt_verification_secrets s) ->
  jwt_algorithm s = InternalAuth._ALGORITHM ->
  let '(r, w') := create_admin_main (ingestor limited s t) env now args w in
  exit_status r <> 0 /\
  (authz w' = authz w \/
   exists u tenant, opt_username args = Some u /\ authz w' = add_role_for_user_in_domain u "user" (str_of_Z tenant) (authz w)).
Proof.
  intros Hw Hrole Hne Hkeys Halg. unfold create_admin_main. rewrite Hrole. cbn [or_else].
  destruct (opt_username args) as [u|]; [|by split; [|left]]. destruct (opt_password args) as [p|]; [|by split; [|left]].
  rewrite (bool_decide_false (role = "user"%string)) by done.
  set (base := or_else (opt_ingestor_url args) _). set (mail := str_or _ _).
  pose proof (fun secret w => promote_refused limited s env now t base u role secret w Hkeys Halg) as Hpromote.
  unfold andThen at 1. destruct (opt_promote_only args).
  - unfold ret, andThen. match goal with |- context [promote_user _ _ _ _ _ _ ?x w] => specialize (Hpromote x w) end. destruct (promote_user _ _ _ _ _ _ _ w) as [r w1].
    destruct Hpromote as [(e & -> & He) ->]. split; [exact He | by left].
  - unfold register_user, andThen at 1, _post.
    pose proof (register_request limited s t (register_url base) u mail p "user" w Hw) as Hr.
    destruct (ingestor limited s t _ _ None w) as [[status|] w1].
    2: { destruct Hr as [[_ ->]|(Hf & _)]; [by split; [|left] | done]. }
    assert (authz w1 = authz w \/ exists u0 tenant, Some u = Some u0 /\
              authz w1 = add_role_for_user_in_domain u0 "user" (str_of_Z tenant) (authz w)) as Ha.
    { destruct Hr as [[_ ->]|(_ & _ & _ & _ & _ & tn & Ha)]; [by left | right; by exists u, tn]. }
    destruct (_ || _); [|by split].
    unfold ret, andThen. match goal with |- context [promote_user _ _ _ _ _ _ ?x w1] => specialize (Hpromote x w1) end. destruct (promote_user _ _ _ _ _ _ _ w1) as [r w2].
    destruct Hpromote as [(e & -> & He) ->]. split; [exact He | exact Ha].
Qed.

(** A secret given on the command line only is not what the token is signed with: nothing
    is sent. *)
Theorem flag_secret_is_not_used {St} (post : string -> body -> option string -> St -> option Z * St) env now url u role secret st :
  InternalAuth._get_secret (auth_env env) = Raise InternalAuth.RuntimeError -> str_truthy secret = true ->
  promote_user post env now url u role (Some secret) st = (Raise (Uncaught InternalAuth.RuntimeError), st).
Proof. intros Hs Ht. unfold promote_user, InternalAuth.generate_internal_token. cbn [opt_str_truthy]. by rewrite Ht, Hs. Qed.

(** When a registration is made does not matter to its answer. *)
Lemma register_request_any_time limited s now now' url u mail p role w :
  wf w ->
  (ingestor limited s now url (register_body u mail p role) None w).1 =
  (ingestor limited s now' url (register_body u mail p role) None w).1.
Proof.
  intros Hw. unfold Ingestor.post. destruct (route url) as [[|name]|]; [| |done]; destruct limited; try done.
  rewrite user_create_body. destruct (_ && _); [|done].
  pose proof (register_outcome now (Create u mail p None) w Hw) as H1. pose proof (register_outcome now' (Create u mail p None) w Hw) as H2.
  cbn [new_username new_email new_password] in H1, H2.
  rewrite (create_any_time now now' u mail (hash p) (hash p) "user" "user" w) in H1.
  destruct (Users.register hash now _ w), (Users.register hash now' _ w), (is_ok _).
  - by destruct H1 as [? ->], H2 as [? ->].
  - by destruct H1 as [-> _], H2 as [-> _].
Qed.

(** A name that is taken is answered with a conflict, or as any such request is. *)
Lemma register_request_taken s now url u mail p role w i v :
  wf w -> get i (users w) = Some v -> username v = u -> route url = Some Ingestor.RegisterEndpoint ->
  Ingestor.user_create valid_email (register_body u mail p role) <> None ->
  ingestor false s now url (register_body u mail p role) None w = (Some 409, w).
Proof.
  intros Hw Hg Hu Hr Hv. unfold Ingestor.post. rewrite Hr. rewrite user_create_body in *. destruct (_ && _); [|done].
  pose proof (register_outcome now (Create u mail p None) w Hw) as Ho. cbn [new_username new_email new_password] in Ho.
  rewrite (create_taken now u mail (hash p) "user" w i v Hw Hg (or_introl Hu)) in Ho.
  destruct (Users.register hash now _ w). by destruct Ho as [-> ->].
Qed.

(** Registering the service's account again, whenever that is, succeeds and changes
    nothing. *)
Theorem registration_is_idempotent limited s now now' env args w :
  wf w ->
  let '(status, w') := register_main (ingestor limited s now) env args w in
  status = 0 -> register_main (ingestor limited s now') env args w' = (0, w').
Proof.
  intros Hw. unfold register_main. destruct (opt_str_truthy _); [|done]. cbn [negb].
  set (base := or_else (opt_ingestor_url args) _). set (u := or_else (opt_username args) _). set (mail := str_or _ _).
  set (p := or_else _ ""). set (role := or_else (opt_role args) _). unfold Clients.register.
  pose proof (register_request limited s now (register_url base) u mail p role w Hw) as Hr.
  pose proof (register_request limited s now' (register_url base) u mail p role w Hw) as Hr'.
  pose proof (register_request_any_time limited s now now' (register_url base) u mail p role w Hw) as Ht.
  destruct (ingestor limited s now _ _ None w) as [[status|] w1] eqn:E1; [|done]. intros H0.
  destruct Hr as [[Hs ->]|([= ->] & Hw1 & Hroute & -> & (i & v & Hg & Hv) & _)].
  - destruct (ingestor limited s now' _ _ None w) as [status' w2]. cbn in Ht. subst status'.
    destruct Hr' as [[_ ->]|(? & _)]; [|done]. by rewrite H0.
  - rewrite (register_request_taken s now' (register_url base) u mail p role w1 i v); try done.
    intros Hc. unfold Ingestor.post in E1. by rewrite Hroute, Hc in E1.
Qed.

(** Whatever role the service's registration asks for, the account is an ordinary user. *)
Theorem requested_role_is_ignored limited s now env args w :
  wf w ->
  let '(_, w') := register_main (ingestor limited s now) env args w in
  authz w' = authz w \/
  exists t, authz w' = add_role_for_user_in_domain (or_else (opt_username args) DEFAULT_USERNAME) "user" (str_of_Z t) (authz w).
Proof.
  intros Hw. unfold register_main. destruct (opt_str_truthy _); [|by left]. cbn [negb]. unfold Clients.register.
  set (url := register_url _). set (mail := str_or _ _). set (p := or_else _ ""). set (role := or_else (opt_role args) _).
  pose proof (register_request limited s now url (or_else (opt_username args) DEFAULT_USERNAME) mail p role w Hw) as Hr.
  destruct (ingestor limited s now _ _ None w) as [[status|] w1];
    (destruct Hr as [[_ ->]|(_ & _ & _ & _ & _ & Hr)]; [by left | by right]).
Qed.

End clients.
End AccountScriptTheorems.

(** ** Witnesses and examples *)

Module AccountScriptWitnesses.
#[local] Instance declared : Users.Database := true.
Import Jwt.Dict Tokens Roles Users UserFacts Seeding Clients AccountScriptTheorems.
Import UserWitnesses(plain_hash, direct_roles).
Import UserAuthWitnesses(settings, no_text).
#[local] Existing Instance PlainJwt.plain.
#[local] Existing Instance PlainJwt.laws.

Definition configured : BootstrapSettings := Bootstrap (Some "boss") (Some "password") None (Some "password") None.

Lemma seeding_is_idempotent_witness :
  let w' := (main plain_hash true 1 settings configured empty_world).2 in
  length (rows (users w')) = 2%nat /\ (main plain_hash true 2 settings configured w').2 = w'.
Proof. split; [by vm_compute |]. apply (seeding_is_idempotent plain_hash 1 2). exact UserTheorems.wf_empty_world. Defined.

Lemma superadmin_is_first_witness :
  exists u, get 1 (users (main plain_hash true 1 settings configured empty_world).2) = Some u /\ username u = "root".
Proof.
  destruct (superadmin_is_first plain_hash 1 settings configured empty_world) as (u & Hg & Hn & _);
    [exact UserTheorems.wf_empty_world | reflexivity .. |].
  by exists u.
Defined.

(** A superadmin that was switched off is neither found nor created; the failure is logged,
    the administrator is created all the same and the status is zero. *)
Example failed_superadmin_does_not_stop_the_admin :
  let w := snd (delete_user 2 1 (ensure_superadmin plain_hash 1 settings configured empty_world).2) in
  let '(status, log, w') := main plain_hash true 3 settings configured w in
  status = 0 /\ log = [seed_superadmin_failed; seed_admin_complete] /\
  count_active_admins None w = 0%nat /\ count_active_admins None w' = 1%nat.
Proof. by vm_compute. Qed.

(** An administrator without a password is not looked up, so that missing tables go
    unnoticed. *)
Example missing_tables_unnoticed :
  let b := Bootstrap (Some "boss") None None None None in
  (main plain_hash false 1 settings b empty_world).1 = (0, [seed_admin_complete]).
Proof. by vm_compute. Qed.

(** *** The clients against the ingestor *)

Definition at_sign (m : string) : bool := existsb (Ascii.eqb "@") (String.list_ascii_of_string m).

Definition routes (url : string) : option Ingestor.endpoint :=
  if bool_decide (url = "http://localhost:8000/api/v1/auth/register") then Some Ingestor.RegisterEndpoint
  else if bool_decide (url = "http://localhost:8000/api/v1/auth/users/alice/role") then Some (Ingestor.RoleEndpoint "alice")
  else None.

Definition direct_links (rs : list (string * string * string)) (u r d : string) : bool := bool_decide (r ∈ direct_roles rs u d).

#[local] Abbreviation server s := (Ingestor.post no_text false plain_hash at_sign direct_roles direct_links routes false s) (only parsing).

Definition env : shell :=
  Shell None (Some "password") (InternalAuth.Environ (Some "internal") None None None None).

Definition admin_alice : options := Options None (Some "alice") (Some "password") None (Some "admin") false None.

Lemma promotion_is_refused_witness :
  let '(r, w') := create_admin_main (server settings 2) env 1 admin_alice empty_world in
  r = Raise (SystemExit 1) /\ length (rows (users w')) = 1%nat /\ exit_status r <> 0.
Proof.
  pose proof (promotion_is_refused no_text false plain_hash at_sign direct_roles direct_links routes false settings env 1 2
                admin_alice "admin" empty_world UserTheorems.wf_empty_world eq_refl) as Hp.
  destruct (create_admin_main _ env 1 admin_alice empty_world) as [r w'] eqn:Er.
  destruct Hp as [Hs _]; [done | | done |].
  - intros key [= <-]. apply (bool_decide_unpack _). by vm_compute.
  - split_and!; [vm_compute in Er; by injection Er | vm_compute in Er; by injection Er as _ <- | exact Hs].
Defined.

(** With one secret for both kinds of tokens the endpoint still refuses the script's,
    unless a rule gives the script's name a role. *)
Example shared_secret_is_not_enough :
  let s := SettingsOf "internal" "" "HS256" 30 7 "api-observatory" None "root" in
  (create_admin_main (server s 2) env 1 admin_alice empty_world).1 = Raise (SystemExit 1) /\
  let scripts := with_authz empty_world (assign_user_role "bootstrap-script" "admin" None (authz empty_world)) in
  let '(r, w') := create_admin_main (server s 2) env 1 admin_alice scripts in
  r = Ok 0 /\ ("alice", "admin", "*")%string ∈ rules (authz w').
Proof. split; [by vm_compute |]. split; [by vm_compute |]. apply (bool_decide_unpack _). by vm_compute. Qed.

(** The third call of the script's description, which gives no password. *)
Example promote_only_needs_a_password w :
  create_admin_main (server settings 2) env 1 (Options None (Some "bob") None None (Some "manager") true None) w =
    (Raise (SystemExit 2), w).
Proof. done. Qed.

Lemma flag_secret_is_not_used_witness :
  (promote_user (server settings 2) (Shell None None (InternalAuth.Environ None None None None None)) 1
     "http://localhost:8000" "alice" "admin" (Some "internal") empty_world).1 = Raise (Uncaught InternalAuth.RuntimeError).
Proof. by rewrite flag_secret_is_not_used. Defined.

Definition mcp : options := Options None None None None (Some "admin") false None.

Lemma registration_is_idempotent_witness :
  let w' := (register_main (server settings 1) env mcp empty_world).2 in
  length (rows (users w')) = 1%nat /\ register_main (server settings 5) env mcp w' = (0, w').
Proof.
  pose proof (registration_is_idempotent no_text false plain_hash at_sign direct_roles direct_links routes false settings 1 5
                env mcp empty_world UserTheorems.wf_empty_world) as Hi.
  destruct (register_main _ env mcp empty_world) as [status w'] eqn:Er. cbn [snd].
  assert (status = 0) as Hs by (vm_compute in Er; by injection Er).
  split; [vm_compute in Er; by injection Er as _ <- | exact (Hi Hs)].
Defined.

Lemma requested_role_is_ignored_witness :
  ("mcp-service", "admin", "1")%string ∉ rules (authz (register_main (server settings 1) env mcp empty_world).2).
Proof.
  pose proof (requested_role_is_ignored no_text false plain_hash at_sign direct_roles direct_links routes false settings 1
                env mcp empty_world UserTheorems.wf_empty_world) as Hr.
  destruct (register_main _ env mcp empty_world) as [status w']. cbn [snd]. destruct Hr as [->|[t ->]].
  - by intros ?%elem_of_nil.
  - cbn. intros Hin. apply list_elem_of_singleton in Hin. discriminate.
Defined.

End AccountScriptWitnesses.
