(* ===== verification/CiChecks.v ===== *)
(** * Checks of the repository in continuous integration

    [scripts/ci/check_workspace_manifests.py], [check_test_markers.py],
    [preflight_checks.py] and [pip_audit_wrapper.py]: the manifests of the services against
    the workspace, the lock file and the images, the markers of the service tests, the
    pre-commit check that runs the first of these and that of [ServiceBoundaries.v], and the
    audit of the dependencies with its fallback.

    What the scripts read is an argument: TOML comes decoded, as the tables it stands for,
    and a file that is read is there and well formed, where the script does not look first.
    The [uv] and [pip-audit] commands are parameters.  What is printed is left out; errors
    are values. *)

From S2P Require Import Prelude Db Jwt ServiceBoundaries.

(** ** Manifests *)

Module Manifests.
Import Jwt.Dict.

Record service := Service {
  service_name : string;
  project : dict;
  dockerfile : option string
}.

Record package := Package { lock_name : option string; virtual : bool }.

(** The services are in the order of their manifests' paths. *)
Record repository := Repo {
  python_version : string;
  members : list string;
  root_dockerfile : option string;
  services : list service;
  lockfile : option (list package)
}.

Definition is_digit (c : ascii) : bool := let n := nat_of_ascii c in ((48 <=? n) && (n <=? 57))%nat.

(** The longest prefix of such characters, and what follows. *)
Fixpoint span (p : ascii -> bool) (s : string) : string * string :=
  match s with
  | String c r => if p c then let '(a, b) := span p r in (String c a, b) else (EmptyString, s)
  | EmptyString => (EmptyString, EmptyString)
  end.

(** [\d+\.\d+] at the start, and what follows. *)
Definition major_minor (s : string) : option (string * string) :=
  let '(a, r) := span is_digit s in
  match r with
  | String "." r =>
      let '(b, r) := span is_digit r in
      if str_truthy a && str_truthy b then Some (a +:+ "." +:+ b, r) else None
  | _ => None
  end.

Definition PYTHON_MINOR (s : string) : bool :=
  match major_minor s with Some (_, EmptyString) => true | _ => false end.

(** [^FROM python:(\d+\.\d+)-] on a line. *)
Definition image_version (line : string) : option string :=
  if String.prefix "FROM python:" line then
    match major_minor (drop_chars 12 line) with
    | Some (v, String "-" _) => Some v
    | _ => None
    end
  else None.

Definition newline : ascii := "010".

Definition image_versions (text : string) : list string := omap image_version (split_on newline text).

Inductive error :=
| BadSelector
| WrongImage (file : string) (found : list string)
| MembersDiffer
| LockMissing
| WrongName (service : string)
| MissingMetadata (service field : string)
| NotAMember (service : string)
| NotLocked (service : string)
| NotReferenced (service : string).

Definition REQUIRED_METADATA : list string := ["authors"; "maintainers"; "license"].

Definition expected_name (service_name : string) : string :=
  if bool_decide (service_name = "mcp") then "mcp-server" else service_name.

Definition relative_service (s : service) : string := "services/" +:+ service_name s.
Definition relative_manifest (s : service) : string := relative_service s +:+ "/pyproject.toml".

(** A name in a manifest is a string when there is one. *)
Definition package_name (s : service) : option string :=
  match dict_get "name" (project s) with Some (JStr n) => Some n | _ => None end.

Definition image_errors (python_minor file : string) (text : option string) : list error :=
  match text with
  | None => []
  | Some text =>
      let found := image_versions text in
      match found with
      | [] => []
      | _ => if forallb (fun v => bool_decide (v = python_minor)) found then [] else [WrongImage file found]
      end
  end.

Definition lock_packages (r : repository) : list (option string) :=
  match lockfile r with
  | Some packages => map lock_name (List.filter virtual packages)
  | None => []
  end.

Definition service_errors (r : repository) (s : service) : list error :=
  (if bool_decide (package_name s = Some (expected_name (service_name s))) then [] else [WrongName (service_name s)]) ++
  flat_map (fun field => if truthy (get_or_none field (project s)) then [] else [MissingMetadata (service_name s) field])
    REQUIRED_METADATA ++
  (if bool_decide (relative_service s ∈ members r) then [] else [NotAMember (service_name s)]) ++
  (if bool_decide (package_name s ∈ lock_packages r) then [] else [NotLocked (service_name s)]) ++
  match dockerfile s with
  | Some text => if contains (relative_manifest s) text then [] else [NotReferenced (service_name s)]
  | None => []
  end.

Definition errors (r : repository) : list error :=
  let python_minor := strip (python_version r) in
  (if PYTHON_MINOR python_minor then [] else [BadSelector]) ++
  image_errors python_minor "Dockerfile" (root_dockerfile r) ++
  flat_map (fun s => image_errors python_minor (relative_service s +:+ "/Dockerfile") (dockerfile s)) (services r) ++
  (if decide ((list_to_set (members r) : gset string) = list_to_set (map relative_service (services r))) then [] else [MembersDiffer]) ++
  (match lockfile r with None => [LockMissing] | Some _ => [] end) ++
  flat_map (service_errors r) (services r).

Definition main (r : repository) : Z := match errors r with [] => 0 | _ => 1 end.

End Manifests.

(** ** Test markers *)

Module Markers.

Definition CAPABILITY_MARKERS : list string := ["core"; "capability_rls"; "capability_broker"; "capability_ai"; "full_optional"].

Definition _has_any_marker (source : string) (markers : list string) : bool :=
  existsb (fun marker => contains ("pytest.mark." +:+ marker) source) markers.

Definition _capability_markers (source : string) : list string :=
  List.filter (fun marker => contains ("pytest.mark." +:+ marker) source) CAPABILITY_MARKERS.

Inductive failure := NoLane (path : string) | ManyProfiles (path : string) (profiles : list string).

Definition lane_markers : list (string * list string) :=
  [("unit", ["unit"; "integration"]); ("integration", ["integration"; "e2e"; "demo"])]%string.

Definition check (accepted_markers : list string) (x : string * string) : list failure :=
  let '(path, source) := x in
  if negb (_has_any_marker source accepted_markers) then [NoLane path]
  else let profiles := _capability_markers source in
       if (1 <? length profiles)%nat then [ManyProfiles path profiles] else [].

(** The test files of a lane by path, with their text. *)
Definition failures (files : string -> list (string * string)) : list failure :=
  flat_map (fun '(lane, accepted_markers) => flat_map (check accepted_markers) (files lane)) lane_markers.

(** [SystemExit] with a message is status 1. *)
Definition main (files : string -> list (string * string)) : Z := match failures files with [] => 0 | _ => 1 end.

End Markers.

(** ** The pre-commit check *)

Module Preflight.

Definition run (checks : list (string * Z)) : Z :=
  let failures := count (fun x => negb (x.2 =? 0)) checks in if (0 <? failures)%nat then 1 else 0.

(** The two checks, on one repository: the boundaries read the members as paths. *)
Definition main (r : Manifests.repository) (REPO_ROOT : list string) (files : list (list string * Boundaries.source)) : Z :=
  run [("workspace manifests", Manifests.main r);
       ("service boundaries", Boundaries.main REPO_ROOT (map (split_on "/") (Manifests.members r)) files)]%string.

End Preflight.

(** ** The audit of the dependencies *)

Module PipAudit.
Import Jwt.Dict Manifests.

Definition REQUIREMENTS : string := "requirements-audit.txt".

Definition name_char (c : ascii) : bool :=
  let n := nat_of_ascii c in
  ((65 <=? n) && (n <=? 90) || (97 <=? n) && (n <=? 122) || (48 <=? n) && (n <=? 57))%nat
  || existsb (Ascii.eqb c) ["_"; "."; "+"; "-"]%char.

(** [^\s*([A-Za-z0-9_.+\-]+)], and what follows. *)
Definition leading_name (s : string) : option (string * string) :=
  let '(name, r) := span name_char (lstrip s) in if str_truthy name then Some (name, r) else None.

(** The names that [pyproject.toml] declares, in lower case: those of the project's list
    and those of Poetry's table. *)
Definition project_dependencies (data : dict) : list string :=
  match dict_get "project" data with
  | Some (JObj proj) =>
      match get_or_none "dependencies" proj with
      | JList deps => omap (fun item => match item with
                                        | JStr s => match leading_name s with Some (name, _) => Some (lower name) | None => None end
                                        | _ => None
                                        end) deps
      | _ => []
      end
  | _ => []
  end.

Definition poetry_dependencies (data : dict) : list string :=
  match dict_get "tool" data with
  | Some (JObj tool) =>
      match dict_get "poetry" tool with
      | Some (JObj poetry) =>
          match get_or_none "dependencies" poetry with
          | JObj deps => map lower (List.filter (fun k => negb (bool_decide (k = "python"%string))) (map fst deps))
          | _ => []
          end
      | _ => []
      end
  | _ => []
  end.

(** Nothing without the file, and nothing when it cannot be read. *)
Definition get_top_level_packages (pyproject : option dict) : list string :=
  match pyproject with
  | Some data => project_dependencies data ++ poetry_dependencies data
  | None => []
  end.

(** A line that pins a version: its name. *)
Definition pinned (line : string) : option string :=
  match leading_name line with
  | Some (name, String "=" (String "=" (String c _))) => if is_space c || Ascii.eqb c ";" then None else Some name
  | _ => None
  end.

Definition selected (top_names : list string) (line : string) : bool :=
  match pinned line with Some name => bool_decide (lower name ∈ top_names) | None => false end.

Definition out_lines (text : string) (top_names : list string) : list string :=
  List.filter (selected top_names) (split_on newline text).

Definition join_lines (l : list string) : string :=
  String.concat (String newline EmptyString) l +:+ String newline EmptyString.

Section Audit.
(** [uv export], which may fail; [pip-audit] on a requirements file's text; the fresh name
    of a temporary file. *)
Context (uv_export : option string) (pip_audit : string -> Z * string) (tmp_path : string).
Context (pyproject : option dict).

Abbreviation files := (gmap string string).

Definition generate_requirements (fs : files) : result Z (string * files) :=
  match fs !! REQUIREMENTS with
  | Some text => Ok (text, fs)
  | None => match uv_export with
            | Some out => Ok (out, <[REQUIREMENTS := out]> fs)
            | None => Raise 2
            end
  end.

Definition unresolved (out : string) : bool := contains "ResolutionImpossible" out || contains "Cannot install" out.

(** The audit of the top-level dependencies only, of which the file goes in any case. *)
Definition fallback (text : string) (fs : files) : Z * files * list string :=
  match get_top_level_packages pyproject with
  | [] => (2, fs, [])
  | top =>
      match out_lines text top with
      | [] => (2, fs, [])
      | lines =>
          let filtered := join_lines lines in
          let fs := <[tmp_path := filtered]> fs in
          let '(rc2, _) := pip_audit filtered in
          (rc2, delete tmp_path fs, [filtered])
      end
  end.

(** The status, the files, and the texts that were audited. *)
Definition main (fs : files) : Z * files * list string :=
  match generate_requirements fs with
  | Raise code => (code, fs, [])
  | Ok (text, fs) =>
      let '(rc, out) := pip_audit text in
      if rc =? 0 then (0, fs, [text])
      else if unresolved out then
        let '(rc, fs, audited) := fallback text fs in (rc, fs, text :: audited)
      else (rc, fs, [text])
  end.

End Audit.
End PipAudit.

(** ** Theorems *)

Module CiTheorems.
Import Jwt.Dict.

Lemma if_nil {A} (b : bool) (x : A) : (if b then [] else [x]) = [] <-> b = true.
Proof. by destruct b. Qed.

Lemma flat_map_empty {A B} (f : A -> list B) l : flat_map f l = [] <-> forall x, x ∈ l -> f x = [].
Proof. setoid_rewrite list_elem_of_In. apply BoundaryTheorems.flat_map_nil. Qed.

(** *** Manifests *)

Section manifests.
Import Manifests.

Lemma image_errors_nil minor file text :
  image_errors minor file text = [] <-> forall t v, text = Some t -> v ∈ image_versions t -> v = minor.
Proof.
  unfold image_errors. destruct text as [t|]; [|by split].
  assert (forallb (fun v => bool_decide (v = minor)) (image_versions t) = true <-> forall v, v ∈ image_versions t -> v = minor) as Hall.
  { rewrite forallb_forall. setoid_rewrite list_elem_of_In. by setoid_rewrite bool_decide_eq_true. }
  destruct (image_versions t) as [|v vs] eqn:Ev.
  - split; [|done]. intros _ t' v [= <-]. rewrite Ev. by intros ?%elem_of_nil.
  - rewrite if_nil, Hall. split; [intros Hx t' v' [= <-]; rewrite Ev; apply Hx | intros Hx v' Hv; apply (Hx t v'); [done | by rewrite Ev]].
Qed.

(** What a service has to have. *)
Definition service_ok (r : repository) (s : service) : Prop :=
  package_name s = Some (expected_name (service_name s)) /\
  (forall field, field ∈ REQUIRED_METADATA -> truthy (get_or_none field (project s)) = true) /\
  (exists packages p, lockfile r = Some packages /\ p ∈ packages /\ virtual p = true /\ lock_name p = package_name s) /\
  (forall text, dockerfile s = Some text -> contains (relative_manifest s) text = true).

Lemma locked r s : package_name s ∈ lock_packages r <->
  exists packages p, lockfile r = Some packages /\ p ∈ packages /\ virtual p = true /\ lock_name p = package_name s.
Proof.
  unfold lock_packages. destruct (lockfile r) as [packages|]; [|rewrite elem_of_nil; naive_solver].
  rewrite list_elem_of_In, in_map_iff. setoid_rewrite List.filter_In. setoid_rewrite <- list_elem_of_In. naive_solver.
Qed.

Lemma service_errors_nil r s :
  service_errors r s = [] <-> service_ok r s /\ relative_service s ∈ members r.
Proof.
  unfold service_errors, service_ok. rewrite !app_nil, !if_nil, !bool_decide_eq_true, flat_map_empty, locked.
  setoid_rewrite if_nil.
  assert (match dockerfile s with Some text => if contains (relative_manifest s) text then [] else [NotReferenced (service_name s)] | None => [] end = [] <->
          forall text, dockerfile s = Some text -> contains (relative_manifest s) text = true) as ->; [|tauto].
  destruct (dockerfile s) as [t|]; [rewrite if_nil; naive_solver | naive_solver].
Qed.

(** The check passes exactly for a repository that pins one minor version of Python in
    every image, whose workspace members are its services and nothing else, that has a
    lock file, and each of whose services is named after its directory, has its metadata,
    is locked as a package of the workspace, and is built from its own manifest. *)
Theorem manifests_pass_iff r :
  main r = 0 <->
  let minor := strip (python_version r) in
  PYTHON_MINOR minor = true /\
  (forall text v, text ∈ omap id (root_dockerfile r :: map dockerfile (services r)) -> v ∈ image_versions text -> v = minor) /\
  (forall m, m ∈ members r <-> exists s, s ∈ services r /\ m = relative_service s) /\
  is_Some (lockfile r) /\
  (forall s, s ∈ services r -> service_ok r s).
Proof.
  cbn zeta. assert (main r = 0 <-> errors r = []) as -> by (unfold main; by destruct (errors r)).
  unfold errors. rewrite !app_nil, if_nil, !flat_map_empty. setoid_rewrite image_errors_nil. setoid_rewrite service_errors_nil.
  assert ((if decide ((list_to_set (members r) : gset string) = list_to_set (map relative_service (services r))) then [] else [MembersDiffer]) = [] <->
          forall m, m ∈ members r <-> exists s, s ∈ services r /\ m = relative_service s) as Hm.
  { transitivity ((list_to_set (members r) : gset string) = list_to_set (map relative_service (services r))); [by destruct (decide _) |].
    rewrite set_eq. setoid_rewrite elem_of_list_to_set. setoid_rewrite list_elem_of_fmap. split; intros Hx m; rewrite Hx; naive_solver. }
  assert (match lockfile r with None => [LockMissing] | Some _ => [] end = [] <-> is_Some (lockfile r)) as Hl.
  { destruct (lockfile r); split; try done; by intros []. }
  rewrite Hm, Hl. setoid_rewrite list_elem_of_omap.
  split.
  - intros (Hp & Hroot & Hs & Hmem & Hlock & Hok). split_and!; [done | | done | done |].
    + intros text v (x & Hx & Hid) Hv. cbn in Hid. subst x. apply elem_of_cons in Hx as [Hx|Hx]; [by apply (Hroot text) |].
      apply list_elem_of_fmap in Hx as (s & Hx & Hin). by apply (Hs s Hin text).
    + intros s Hin. by apply Hok.
  - intros (Hp & Himg & Hmem & Hlock & Hok). split_and!; [done | | | done | done |].
    + intros t v Ht Hv. apply (Himg t v); [|done]. exists (Some t). split; [rewrite <- Ht; apply elem_of_cons; by left | done].
    + intros s Hin t v Ht Hv. apply (Himg t v); [|done]. exists (Some t). split; [|done]. apply elem_of_cons. right.
      apply list_elem_of_fmap. by exists s.
    + intros s Hin. split; [by apply Hok |]. apply Hmem. by exists s.
Qed.

Lemma span_free p a c r :
  (forall x, In x (String.list_ascii_of_string a) -> p x = true) -> p c = false -> span p (a +:+ String c r) = (a, String c r).
Proof.
  intros Ha Hc. induction a as [|x a IH].
  - rewrite append_nil. cbn [span]. by rewrite Hc.
  - rewrite append_cons. cbn [span]. rewrite (Ha x) by (by left). rewrite IH; [done |]. intros y Hy. apply Ha. by right.
Qed.

Lemma in_append x a b :
  In x (String.list_ascii_of_string (a +:+ b)) <-> In x (String.list_ascii_of_string a) \/ In x (String.list_ascii_of_string b).
Proof.
  induction a as [|c a IH]; [rewrite append_nil; cbn; tauto |]. rewrite append_cons. cbn. rewrite IH. tauto.
Qed.

(** The version that an image line names is read back from it. *)
Theorem image_line_names_version a b rest :
  str_truthy a = true -> str_truthy b = true ->
  (forall x, In x (String.list_ascii_of_string (a +:+ b)) -> is_digit x = true) ->
  image_version ("FROM python:" +:+ (a +:+ "." +:+ (b +:+ "-" +:+ rest))) = Some (a +:+ "." +:+ b).
Proof.
  intros Ha Hb Hd. setoid_rewrite in_append in Hd. unfold image_version. rewrite prefix_app_true.
  change 12%nat with (String.length "FROM python:"). rewrite drop_chars_app. unfold major_minor.
  change ("." +:+ (b +:+ "-" +:+ rest)) with (String "." (b +:+ String "-" rest)).
  rewrite span_free by (try done; intros x Hx; apply Hd; by left).
  rewrite span_free by (try done; intros x Hx; apply Hd; by right). by rewrite Ha, Hb.
Qed.

End manifests.
(** *** Markers *)

Section markers.
Import Markers.

Lemma at_most_one (p : string -> bool) (l : list string) :
  NoDup l -> (length (List.filter p l) <= 1)%nat <-> forall m m', m ∈ l -> m' ∈ l -> p m = true -> p m' = true -> m = m'.
Proof.
  intros Hnd. assert (forall m, m ∈ List.filter p l <-> m ∈ l /\ p m = true) as Hin.
  { intros m. rewrite !list_elem_of_In. apply List.filter_In. }
  assert (NoDup (List.filter p l)) as Hf by (apply NoDup_ListNoDup, List.NoDup_filter, NoDup_ListNoDup, Hnd).
  destruct (List.filter p l) as [|x [|y r]].
  - split; [|cbn; lia]. intros _ m m' Hm Hm' Hp Hp'. exfalso. by apply (not_elem_of_nil m), Hin.
  - split; [|cbn; lia]. intros _ m m' Hm Hm' Hp Hp'.
    assert (m ∈ [x]) as ->%list_elem_of_singleton by by apply Hin. symmetry. by apply list_elem_of_singleton, Hin.
  - split; [cbn; lia |]. intros Hu. exfalso.
    assert (x ∈ l /\ p x = true) as [Hx Hpx] by (apply Hin; set_solver).
    assert (y ∈ l /\ p y = true) as [Hy Hpy] by (apply Hin; set_solver).
    rewrite (Hu x y Hx Hy Hpx Hpy) in Hf. apply NoDup_cons in Hf as [Hn _]. apply Hn. left.
Qed.

(** Every test file of a lane mentions a marker of the lane, and no two capability markers;
    a mention anywhere in the text counts, and so does that of a longer name. *)
Theorem markers_pass_iff files :
  main files = 0 <->
  forall lane accepted path source, (lane, accepted) ∈ lane_markers -> (path, source) ∈ files lane ->
    (exists m a b, m ∈ accepted /\ source = a +:+ ("pytest.mark." +:+ m) +:+ b) /\
    (forall m m' a b a' b', m ∈ CAPABILITY_MARKERS -> m' ∈ CAPABILITY_MARKERS ->
       source = a +:+ ("pytest.mark." +:+ m) +:+ b -> source = a' +:+ ("pytest.mark." +:+ m') +:+ b' -> m = m').
Proof.
  assert (main files = 0 <-> failures files = []) as -> by (unfold main; by destruct (failures files)).
  assert (forall accepted path source, check accepted (path, source) = [] <->
    (exists m a b, m ∈ accepted /\ source = a +:+ ("pytest.mark." +:+ m) +:+ b) /\
    (forall m m' a b a' b', m ∈ CAPABILITY_MARKERS -> m' ∈ CAPABILITY_MARKERS ->
       source = a +:+ ("pytest.mark." +:+ m) +:+ b -> source = a' +:+ ("pytest.mark." +:+ m') +:+ b' -> m = m')) as Hcheck.
  { intros accepted path source.
    assert (_has_any_marker source accepted = true <-> exists m a b, m ∈ accepted /\ source = a +:+ ("pytest.mark." +:+ m) +:+ b) as Hany.
    { unfold _has_any_marker. rewrite existsb_exists. setoid_rewrite contains_spec. setoid_rewrite list_elem_of_In. naive_solver. }
    assert (NoDup CAPABILITY_MARKERS) as Hnd by (apply (bool_decide_unpack _); by vm_compute).
    pose proof (at_most_one (fun marker => contains ("pytest.mark." +:+ marker) source) CAPABILITY_MARKERS Hnd) as Hone.
    fold (_capability_markers source) in Hone. rewrite <- Hany. unfold check.
    destruct (_has_any_marker source accepted); cbn [negb]; [|by split; [|intros [[=] _]]].
    destruct (Nat.ltb_spec 1 (length (_capability_markers source))) as [Hlt|Hle].
    - split; [done |]. intros [_ Hu]. exfalso.
      assert (length (_capability_markers source) <= 1)%nat; [|lia]. apply Hone.
      intros m m' Hm Hm' (a & b & Ha)%contains_spec (a' & b' & Hb)%contains_spec. by apply (Hu m m' a b a' b').
    - split; [|done]. intros _. split; [done |]. intros m m' a b a' b' Hm Hm' Ha Hb.
      apply (proj1 Hone Hle); [done | done | apply contains_spec; by eexists _, _ | apply contains_spec; by eexists _, _]. }
  unfold failures. rewrite flat_map_empty. split.
  - intros Hf lane accepted path source Hl Hp. specialize (Hf _ Hl). cbn in Hf. rewrite flat_map_empty in Hf.
    by apply (Hcheck accepted path source), (Hf (path, source)).
  - intros Hf [lane accepted] Hl. apply flat_map_empty. intros [path source] Hp. apply Hcheck. by apply (Hf lane accepted path source).
Qed.

End markers.

(** *** The pre-commit check *)

(** It passes exactly when both of its checks do. *)
Theorem preflight_passes_iff r root files :
  Preflight.main r root files = 0 <->
  Manifests.main r = 0 /\ Boundaries.violations root (map (split_on "/") (Manifests.members r)) files = [].
Proof.
  unfold Preflight.main, Preflight.run, count. cbn [List.filter snd].
  unfold Boundaries.main. destruct (Boundaries.violations _ _ _), (Z.eqb_spec (Manifests.main r) 0); cbn; naive_solver.
Qed.

(** *** The audit *)

Section audit.
Import PipAudit.
Context (uv_export : option string) (pip_audit : string -> Z * string) (tmp_path : string) (pyproject : option dict).

#[local] Abbreviation audit := (main uv_export pip_audit tmp_path pyproject) (only parsing).

(** Whatever the audits say, the temporary file is gone, and no file has changed, except
    that the requirements are exported when they were not there. *)
Theorem temporary_file_removed fs :
  fs !! tmp_path = None -> tmp_path <> REQUIREMENTS ->
  let '(_, fs', _) := audit fs in
  fs' = fs \/ exists out, fs !! REQUIREMENTS = None /\ uv_export = Some out /\ fs' = <[REQUIREMENTS := out]> fs.
Proof.
  intros Ht Hne.
  assert (forall text fs0, fs0 !! tmp_path = None -> (fallback pip_audit tmp_path pyproject text fs0).1.2 = fs0) as Hf.
  { intros text fs0 H0. unfold fallback. destruct (get_top_level_packages pyproject) as [|t ts] eqn:Et; [done |]. rewrite <- Et.
    destruct (out_lines text _); [done |]. destruct (pip_audit _). by apply delete_insert_id. }
  assert (forall text fs0, fs0 !! tmp_path = None -> forall x, 
    x = (let '(rc, out) := pip_audit text in
         if rc =? 0 then (0, fs0, [text])
         else if unresolved out then let '(rc, fs, audited) := fallback pip_audit tmp_path pyproject text fs0 in (rc, fs, text :: audited)
         else (rc, fs0, [text])) -> x.1.2 = fs0) as Hrest.
  { intros text fs0 H0 x ->. destruct (pip_audit text) as [rc out]. destruct (rc =? 0); [done |]. destruct (unresolved out); [|done].
    specialize (Hf text fs0 H0). by destruct (fallback _ _ _ _ _) as [[rc2 fs2] l]. }
  unfold main, generate_requirements. destruct (fs !! REQUIREMENTS) as [text|] eqn:Er.
  - specialize (Hrest text fs Ht _ eq_refl). destruct (let '(rc, out) := pip_audit text in _) as [[rc fs'] audited]. by left.
  - destruct uv_export as [out|]; [|by left].
    specialize (Hrest out (<[REQUIREMENTS := out]> fs)). rewrite lookup_insert_ne in Hrest by congruence.
    specialize (Hrest Ht _ eq_refl). destruct (let '(rc, o) := pip_audit out in _) as [[rc fs'] audited]. right. by exists out.
Qed.

(** Status zero is an audit without findings: of all the requirements, or, where those
    could not be resolved, of the lines among them that pin a declared dependency. *)
Theorem audit_passes fs fs' audited :
  audit fs = (0, fs', audited) ->
  exists text, last audited = Some text /\ (pip_audit text).1 = 0 /\
    (audited = [text] \/
     exists whole lines, audited = [whole; text] /\ (pip_audit whole).1 <> 0 /\ unresolved (pip_audit whole).2 = true /\
       text = join_lines lines /\ lines <> [] /\
       forall line, line ∈ lines <-> line ∈ split_on Manifests.newline whole /\
         exists name, pinned line = Some name /\ lower name ∈ get_top_level_packages pyproject).
Proof.
  unfold main. destruct (generate_requirements _ fs) as [[text fs0]|code] eqn:Eg.
  2: { unfold generate_requirements in Eg. destruct (fs !! REQUIREMENTS); [done |]. destruct uv_export; [done |]. by injection Eg as <-. }
  destruct (pip_audit text) as [rc out] eqn:Ep. destruct (Z.eqb_spec rc 0) as [->|Hrc].
  { intros [= _ <-]. exists text. rewrite Ep. split_and!; [done | done | by left]. }
  destruct (unresolved out) eqn:Eu; [|by intros [= -> _ _]].
  unfold fallback. set (top := get_top_level_packages pyproject). destruct top as [|t0 ts] eqn:Et; [done |]. rewrite <- Et.
  destruct (out_lines text top) as [|l ls] eqn:El; [done |]. rewrite <- El.
  destruct (pip_audit (join_lines (out_lines text top))) as [rc2 out2] eqn:Ep2. intros [= -> _ <-].
  eexists. split; [done |]. rewrite Ep2. split; [done |]. right. exists text, (out_lines text top). rewrite Ep.
  split_and!; [done | done | done | done | by rewrite El |]. intros line. unfold out_lines, selected.
  rewrite list_elem_of_In, List.filter_In, <- list_elem_of_In. subst top.
  destruct (pinned line) as [name|]; [rewrite bool_decide_eq_true; naive_solver | naive_solver].
Qed.

End audit.
End CiTheorems.

(** ** Witnesses and examples *)

Module CiWitnesses.
Import Jwt.Dict CiTheorems.

Definition mcp_service : Manifests.service :=
  Manifests.Service "mcp"
    [("name", JStr "mcp-server"); ("authors", JList [JStr "A"]); ("maintainers", JList [JStr "A"]); ("license", JStr "MIT")]%string
    (Some "FROM python:3.14-slim AS base
COPY services/mcp/pyproject.toml ."%string).

Definition good : Manifests.repository :=
  Manifests.Repo "3.14
" ["services/mcp"%string] None [mcp_service] (Some [Manifests.Package (Some "mcp-server"%string) true]).

Example good_repository : Manifests.main good = 0.
Proof. by vm_compute. Qed.

Example another_minor :
  Manifests.errors (Manifests.Repo "3.13" (Manifests.members good) None (Manifests.services good) (Manifests.lockfile good)) =
    [Manifests.WrongImage "services/mcp/Dockerfile" ["3.14"%string]].
Proof. by vm_compute. Qed.

Lemma image_line_names_version_witness :
  Manifests.image_version "FROM python:3.14-slim" = Some "3.14"%string.
Proof.
  apply (image_line_names_version "3" "14" "slim"); [done | done |].
  intros x Hx. cbn in Hx. destruct Hx as [<-|[<-|[<-|[]]]]; reflexivity.
Defined.

(** A marker that only begins like one of the lane counts, in a comment as well. *)
Example longer_marker_counts :
  Markers.main (fun lane => if bool_decide (lane = "unit"%string) then [("test_a.py", "# pytest.mark.unittest_style")]%string else []) = 0.
Proof. by vm_compute. Qed.

(** *** Audits *)

Definition requirements : string := "foo-bar==1.0
requests==2.0
six==1.0
".

(** The whole cannot be installed; what pins nothing but these two is fine. *)
Definition audit_command (text : string) : Z * string :=
  if contains "six" text then (1, "ERROR: ResolutionImpossible"%string) else (0, EmptyString).

Definition declared : option dict :=
  Some [("project", JObj [("dependencies", JList [JStr "foo_bar>=1"; JStr " Requests"])])]%string.

Lemma temporary_file_removed_witness :
  (PipAudit.main (Some requirements) audit_command "reqs-top-1.txt" declared ∅).1.2 = {[PipAudit.REQUIREMENTS := requirements]}.
Proof.
  pose proof (temporary_file_removed (Some requirements) audit_command "reqs-top-1.txt" declared ∅) as Ht.
  destruct (PipAudit.main _ _ _ _ _) as [[rc fs'] audited] eqn:Em. cbn [fst snd].
  destruct Ht as [->|(out & _ & [= <-] & ->)]; [by apply lookup_empty | by apply (bool_decide_unpack _) | | done].
  exfalso. vm_compute in Em. discriminate.
Defined.

Lemma audit_passes_witness :
  exists text, (audit_command text).1 = 0 /\
    last (PipAudit.main (Some requirements) audit_command "reqs-top-1.txt" declared ∅).2 = Some text.
Proof.
  destruct (PipAudit.main (Some requirements) audit_command "reqs-top-1.txt" declared ∅) as [[rc fs'] audited] eqn:Em.
  assert (rc = 0) as -> by (vm_compute in Em; by injection Em).
  destruct (audit_passes _ _ _ _ _ _ _ Em) as (text & Hl & H0 & _). by exists text.
Defined.

(** A declared name is compared letter by letter: written with the other separator, the
    dependency is left out of the fallback, and the audit passes without it. *)
Example other_separator_is_not_audited :
  (PipAudit.main (Some requirements) audit_command "reqs-top-1.txt" declared ∅).2 = [requirements; "requests==2.0
"%string] /\
  "foo_bar" ∈ PipAudit.get_top_level_packages declared.
Proof. split; [by vm_compute |]. apply (bool_decide_unpack _). by vm_compute. Qed.

(** Requirements that are there already are audited, whatever the lock file says now. *)
Example existing_requirements_are_audited :
  (PipAudit.main (Some requirements) audit_command "reqs-top-1.txt" declared {[PipAudit.REQUIREMENTS := "old==1.0"%string]}).2 = ["old==1.0"%string].
Proof. by vm_compute. Qed.

End CiWitnesses.
