(* ===== verification/DocsQuality.v ===== *)
(** * Quality checks of the documentation

    [scripts/ci/docs_quality_check.py]: which Markdown files a profile checks and how
    strictly, and the checks of a file: headings in bold, links to files that do not exist,
    code fences that are not closed.

    A path is its parts below the root of the repository.  The files are those that are
    there, without links between them; the ones that are staged are an argument, as is
    which paths exist. *)

From S2P Require Import Prelude Db Jwt ServiceBoundaries.

Module DocsQuality.
Import Boundaries(path, path_leb).

(** ** Patterns *)

Definition STRICT_MD_GLOBS : list (list string) :=
  [["README.md"]; ["docs"; "**"; "*.md"]; [".github"; "pull_request_template.md"]]%string.

Definition RELAXED_MD_GLOBS : list (list string) :=
  [[".github"; "prompts"; "**"; "*.md"]; ["learning_docs"; "**"; "*.md"]; ["_archive"; "**"; "*.md"]; ["CV.md"]]%string.

(** A pattern without slashes, with [*] for any characters. *)
Fixpoint fnmatch (pattern : string) : string -> bool :=
  match pattern with
  | EmptyString => fun s => match s with EmptyString => true | _ => false end
  | String c pattern =>
      if Ascii.eqb c "*" then
        fix suffixes (s : string) : bool :=
          fnmatch pattern s || match s with EmptyString => false | String _ s => suffixes s end
      else fun s => match s with String d s => Ascii.eqb c d && fnmatch pattern s | EmptyString => false end
  end.

(** [PurePath.match]: a relative pattern is matched from the right, and two stars are one. *)
Definition matches (p pattern : list string) : bool :=
  (length pattern <=? length p)%nat &&
  forallb (fun x => fnmatch x.1 x.2) (zip pattern (drop (length p - length pattern) p)).

(** [Path.glob]: two stars are any number of directories. *)
Fixpoint globs (pattern : list string) : list string -> bool :=
  match pattern with
  | [] => fun p => match p with [] => true | _ => false end
  | part :: pattern =>
      if bool_decide (part = "**"%string) then
        fix below (p : list string) : bool := globs pattern p || match p with [] => false | _ :: p => below p end
      else fun p => match p with name :: p => fnmatch part name && globs pattern p | [] => false end
  end.

(** ** Which files *)

Inductive level := CHECK_STRICT | CHECK_RELAXED.
Inductive profile := ci | precommit | all.

#[global] Instance level_eq_dec : EqDecision level.
Proof. solve_decision. Defined.
#[global] Instance profile_eq_dec : EqDecision profile.
Proof. solve_decision. Defined.

Definition path_matches_any (p : path) (patterns : list (list string)) : bool := existsb (matches p) patterns.

Definition classify_check_level (p : path) : option level :=
  if path_matches_any p STRICT_MD_GLOBS then Some CHECK_STRICT
  else if path_matches_any p RELAXED_MD_GLOBS then Some CHECK_RELAXED
  else None.

(** [path.suffix.lower() == ".md"]: the dot has to come after something else than dots. *)
Definition suffix_md (p : path) : bool :=
  match last p with
  | Some name =>
      let n := lower name in
      fnmatch "*.md" n &&
      existsb (fun c => negb (Ascii.eqb c ".")) (String.list_ascii_of_string (str_take (String.length n - 3) n))
  | None => false
  end.

Section Files.
Context (files : list path) (staged : list path).

Definition patterns_of (pr : profile) : list (list string) :=
  if decide (pr = ci) then STRICT_MD_GLOBS else STRICT_MD_GLOBS ++ RELAXED_MD_GLOBS.

Definition markdown_files (pr : profile) (file_args : list path) : list path :=
  let candidates := if decide (pr = precommit) then match file_args with [] => staged | _ => file_args end else file_args in
  match candidates with
  | [] => order_by path_leb (List.filter (fun p => existsb (fun g => globs g p) (patterns_of pr)) files)
  | _ => order_by path_leb (List.filter (fun p => bool_decide (p ∈ candidates) && suffix_md p) files)
  end.

End Files.

(** ** Links *)

Definition is_external_link (target : string) : bool :=
  existsb (fun p => String.prefix p target) ["http://"; "https://"; "mailto:"; "#"]%string.

(** What comes before the first such character, and after it. *)
Fixpoint take_until (sep : ascii) (s : string) : option (string * string) :=
  match s with
  | EmptyString => None
  | String c s =>
      if Ascii.eqb c sep then Some (EmptyString, s)
      else match take_until sep s with Some (a, b) => Some (String c a, b) | None => None end
  end.

(** What comes after this character, when it is the first. *)
Definition after (c : ascii) (s : string) : option string :=
  match s with String d r => if Ascii.eqb d c then Some r else None | EmptyString => None end.

(** [\[[^\]]+\]\(([^)]+)\)] here: the target and the length of the whole. *)
Definition link_at (s : string) : option (string * nat) :=
  match after "[" s with
  | None => None
  | Some r =>
      match take_until "]" r with
      | None => None
      | Some (text, r) =>
          match after "(" r with
          | None => None
          | Some r =>
              match take_until ")" r with
              | None => None
              | Some (target, _) =>
                  if str_truthy text && str_truthy target
                  then Some (target, (String.length text + String.length target + 4)%nat)
                  else None
              end
          end
      end
  end.

(** [LINK_RE.finditer]: from the left, a match begins after the one before it. *)
Fixpoint links (skip : nat) (s : string) : list string :=
  match s with
  | EmptyString => []
  | String _ r =>
      match skip with
      | S skip => links skip r
      | O => match link_at s with
             | Some (target, n) => target :: links (n - 1) r
             | None => links 0 r
             end
      end
  end.

(** [resolve] of a path below the root, or of an absolute one: the parts, or outside. *)
Inductive location := Inside (p : path) | Outside (parts : list string).

Definition step (l : option path) (part : string) : option path :=
  match l with
  | None => None
  | Some p =>
      if bool_decide (part ∈ ["."; ""]%string) then Some p
      else if bool_decide (part = ".."%string) then match p with [] => None | _ => Some (removelast p) end
      else Some (p ++ [part])
  end.

Definition resolve (base : path) (target : string) : location :=
  let parts := split_on "/" target in
  if String.prefix "/" target then Outside parts
  else match fold_left step parts (Some base) with Some p => Inside p | None => Outside parts end.

Definition before_anchor (target : string) : string :=
  match take_until "#" target with Some (a, _) => a | None => target end.

Definition normalize_target (base : path) (target : string) : location :=
  let no_anchor := before_anchor target in
  if String.prefix ".github/" no_anchor then resolve [] no_anchor else resolve base no_anchor.

(** ** The checks of a file *)

Inductive error :=
| BoldHeading (p : path) (line_no : nat)
| BrokenLink (p : path) (line_no : nat) (target : string)
| UnclosedFence (p : path).

(** [^\*\*[^*].*\*\*\s*$]: two stars, another character, anything, two stars. *)
Definition bold_heading (line : string) : bool :=
  match line with
  | String "*" (String "*" (String c r)) =>
      let t := rstrip r in
      negb (Ascii.eqb c "*") && String.eqb (drop_chars (String.length t - 2) t) "**"
  | _ => false
  end.

Definition fence (line : string) : bool := String.prefix "```" line.

Section Check.
(** Which paths exist, and the lines of a file. *)
Context (exists_ : location -> bool) (read_lines : path -> list string).

Definition link_errors (p : path) (line_no : nat) (target : string) : list error :=
  let target := strip target in
  if negb (str_truthy target) || is_external_link target then []
  else if String.prefix "`" target then []
  else if exists_ (normalize_target (removelast p) target) then [] else [BrokenLink p line_no target].

Definition line_errors (check_level : level) (p : path) (line_no : nat) (line : string) : list error :=
  if decide (check_level = CHECK_STRICT) then
    (if bold_heading line then [BoldHeading p line_no] else []) ++
    flat_map (link_errors p line_no) (links 0 line)
  else [].

Definition in_fence (lines : list string) : bool := fold_left (fun b line => if fence line then negb b else b) lines false.

Definition check_file (p : path) (check_level : level) : list error :=
  let lines := read_lines p in
  concat (imap (fun k line => line_errors check_level p (S k) line) lines) ++
  (if in_fence lines then [UnclosedFence p] else []).

(** ** The script *)

Context (files : list path) (staged : list path).

Definition errors_of (pr : profile) (p : path) : list error :=
  match classify_check_level p with
  | Some check_level => check_file p check_level
  | None => if decide (pr = ci) then [] else check_file p CHECK_RELAXED
  end.

Definition all_errors (pr : profile) (file_args : list path) : list error :=
  flat_map (errors_of pr) (markdown_files files staged pr file_args).

Definition main (pr : profile) (file_args : list path) : Z :=
  match all_errors pr file_args with [] => 0 | _ => 1 end.

End Check.
End DocsQuality.
