(* ===== verification/GeneratedSecrets.v ===== *)
(** * Generated secrets

    [scripts/tools/generate-secrets.py]: which credentials are generated, from which
    alphabets and how long, and the file they are written to.

    Random numbers are a parameter: the [k]-th draw below a bound.  A generator takes the
    number of draws made so far and returns the one after it. *)

From S2P Require Import Prelude.

Module Secrets.

(** ** Alphabets *)

Definition ascii_letters : string := "abcdefghijklmnopqrstuvwxyzABCDEFGHIJKLMNOPQRSTUVWXYZ".
Definition digits : string := "0123456789".
Definition ambiguous : string := "0O1lI5S2Z".

Fixpoint mem (c : ascii) (s : string) : bool :=
  match s with EmptyString => false | String d s => Ascii.eqb c d || mem c s end.

Fixpoint filter_chars (p : ascii -> bool) (s : string) : string :=
  match s with
  | EmptyString => EmptyString
  | String c s => if p c then String c (filter_chars p s) else filter_chars p s
  end.

Definition _SAFE_NO_AMBIG : string := filter_chars (fun c => negb (mem c ambiguous)) (ascii_letters +:+ digits).

Definition hexdigits : string := "0123456789abcdef".

(** ** Generators *)

Section Generators.
Context (draw : nat -> nat -> nat).

Definition nth_char (n : nat) (s : string) : ascii := match String.get n s with Some c => c | None => "000"%char end.

(** [secrets.choice]. *)
Definition choice (alphabet : string) (k : nat) : ascii * nat := (nth_char (draw k (String.length alphabet)) alphabet, S k).

Fixpoint _password (alphabet : string) (length : nat) (k : nat) : string * nat :=
  match length with
  | O => (EmptyString, k)
  | S length =>
      let '(c, k) := choice alphabet k in
      let '(s, k) := _password alphabet length k in
      (String c s, k)
  end.

(** [secrets.token_hex]: two digits for each random byte. *)
Fixpoint token_hex (nbytes : nat) (k : nat) : string * nat :=
  match nbytes with
  | O => (EmptyString, k)
  | S nbytes =>
      let b := draw k 256 in
      let '(s, k) := token_hex nbytes (S k) in
      (String (nth_char (b / 16) hexdigits) (String (nth_char (b mod 16) hexdigits) s), k)
  end.

Definition db_password : nat -> string * nat := _password _SAFE_NO_AMBIG 30.
Definition redis_password : nat -> string * nat := _password _SAFE_NO_AMBIG 32.
Definition jwt_secret (bits : nat) : nat -> string * nat := token_hex (bits / 8).
Definition grafana_password : nat -> string * nat := db_password.
Definition mailpit_password : nat -> string * nat := db_password.
Definition api_token : nat -> string * nat := _password (_SAFE_NO_AMBIG +:+ "_-") 48.

Definition _SECRET_GENERATORS : list (string * (nat -> string * nat)) :=
  [("INGESTOR_DB_PASSWORD", db_password); ("INFERENCE_DB_PASSWORD", db_password); ("CACHE_PASSWORD", redis_password);
   ("JWT_SECRET", jwt_secret 512); ("API_V1_BEARER_TOKEN", api_token); ("INTERNAL_JWT_SECRET", jwt_secret 384);
   ("GRAFANA_ADMIN_PASSWORD", grafana_password); ("MAILPIT_PASSWORD", mailpit_password)]%string.

(** ** Selection *)

(** The flags given; [--all] is one of them. *)
Record Namespace := Args { all : bool; flags : list string }.

Definition flag_keys : list (string * string) :=
  [("postgres", "INGESTOR_DB_PASSWORD"); ("inference_db", "INFERENCE_DB_PASSWORD"); ("redis", "CACHE_PASSWORD");
   ("jwt", "JWT_SECRET"); ("api_token", "API_V1_BEARER_TOKEN"); ("internal_jwt", "INTERNAL_JWT_SECRET");
   ("grafana", "GRAFANA_ADMIN_PASSWORD"); ("mailpit", "MAILPIT_PASSWORD")]%string.

Definition _selected_keys (args : Namespace) : list string :=
  let selected := map snd (List.filter (fun x => bool_decide (x.1 ∈ flags args)) flag_keys) in
  match selected with [] => map fst _SECRET_GENERATORS | _ => selected end.

Fixpoint generate (keys : list string) (k : nat) : list (string * string) :=
  match keys with
  | [] => []
  | key :: keys =>
      match List.find (fun x => String.eqb x.1 key) _SECRET_GENERATORS with
      | Some (_, g) => let '(v, k) := g k in (key, v) :: generate keys k
      | None => generate keys k
      end
  end.

End Generators.

(** ** The file *)

Definition newline : string := String "010" EmptyString.

Definition _generation_comment (generated_at : string) : string :=
  "# Generated at " +:+ generated_at +:+ " UTC by scripts/tools/generate-secrets.py" +:+ newline.

Definition lines_of (values : list (string * string)) (generated_at : string) : list string :=
  (* The dash of the first line is three bytes of UTF-8. *)
  ["# Generated secrets " +:+ String "226" (String "128" (String "148" " copy the values you want into .env manually.")) +:+ newline;
   "# Do not commit this file." +:+ newline;
   _generation_comment generated_at;
   newline] ++
  map (fun x => x.1 +:+ "=" +:+ x.2 +:+ newline) values.

Definition text_of (values : list (string * string)) (generated_at : string) : string :=
  String.concat EmptyString (lines_of values generated_at).

Record file := File { text : string; mode : Z }.

(** The file after each call: a new one has the mode that the process gives to new files. *)
Definition _write_generated (new_mode : Z) (old : option file) (values : list (string * string)) (generated_at : string)
    : list file :=
  let t := text_of values generated_at in
  [File t (match old with Some f => mode f | None => new_mode end); File t 384].

Definition main (draw : nat -> nat -> nat) (args : Namespace) (new_mode : Z) (old : option file) (generated_at : string)
    : list file :=
  _write_generated new_mode old (generate draw (_selected_keys draw args) 0) generated_at.

End Secrets.

(** ** Theorems *)

Module SecretTheorems.
Import Secrets.

(** How an environment file is read: a line that is no comment sets what is before its
    first equals sign to what is after it. *)
Fixpoint assignment (line : string) : option (string * string) :=
  match line with
  | EmptyString => None
  | String c r =>
      if Ascii.eqb c "=" then Some (EmptyString, r)
      else match assignment r with Some (k, v) => Some (String c k, v) | None => None end
  end.

Definition setting (line : string) : option (string * string) :=
  match line with
  | EmptyString => None
  | String c _ => if Ascii.eqb c "#" then None else assignment line
  end.

Definition settings (t : string) : list (string * string) := omap setting (split_on "010" t).

Section facts.
Context (draw : nat -> nat -> nat).
Context (draw_below : forall k n, (0 < n)%nat -> (draw k n < n)%nat).

Fixpoint over (alphabet s : string) : bool :=
  match s with EmptyString => true | String c s => mem c alphabet && over alphabet s end.

Lemma nth_char_mem n s : (n < String.length s)%nat -> mem (nth_char n s) s = true.
Proof.
  revert n. induction s as [|c s IH]; intros n Hn; [cbn in Hn; lia |]. destruct n as [|n]; cbn [nth_char String.get mem].
  - unfold nth_char. cbn. by rewrite Ascii.eqb_refl.
  - unfold nth_char in *. cbn in *. rewrite IH by lia. apply orb_true_r.
Qed.

Lemma password_shape alphabet n k :
  (0 < String.length alphabet)%nat ->
  let '(s, k') := _password draw alphabet n k in
  String.length s = n /\ over alphabet s = true /\ k' = (k + n)%nat.
Proof.
  intros Ha. revert k. induction n as [|n IH]; intros k; cbn [_password]; [by split_and!; [| |lia] |]. unfold choice.
  specialize (IH (S k)). destruct (_password draw alphabet n (S k)) as [s k']. destruct IH as (Hl & Ho & ->). cbn [String.length over].
  rewrite Ho, nth_char_mem by by apply draw_below. split_and!; [by rewrite Hl | done | lia].
Qed.

Lemma token_shape n k :
  let '(s, k') := token_hex draw n k in
  String.length s = (2 * n)%nat /\ over hexdigits s = true /\ k' = (k + n)%nat.
Proof.
  revert k. induction n as [|n IH]; intros k; cbn [token_hex]; [by split_and!; [| |lia] |].
  specialize (IH (S k)). destruct (token_hex draw n (S k)) as [s k']. destruct IH as (Hl & Ho & ->). cbn [String.length over].
  assert (draw k 256 < 256)%nat as Hb by (apply draw_below; lia). rewrite Ho, !nth_char_mem.
  - split_and!; [rewrite Hl; lia | done | lia].
  - change (String.length hexdigits) with 16%nat. apply Nat.mod_upper_bound. lia.
  - change (String.length hexdigits) with 16%nat. apply Nat.Div0.div_lt_upper_bound. lia.
Qed.

(** What each credential is made of. *)
Definition shape (key : string) : option (string * nat) :=
  if bool_decide (key ∈ ["INGESTOR_DB_PASSWORD"; "INFERENCE_DB_PASSWORD"; "GRAFANA_ADMIN_PASSWORD"; "MAILPIT_PASSWORD"]%string)
  then Some (_SAFE_NO_AMBIG, 30%nat)
  else if bool_decide (key = "CACHE_PASSWORD"%string) then Some (_SAFE_NO_AMBIG, 32%nat)
  else if bool_decide (key = "API_V1_BEARER_TOKEN"%string) then Some (_SAFE_NO_AMBIG +:+ "_-", 48%nat)
  else if bool_decide (key = "JWT_SECRET"%string) then Some (hexdigits, 128%nat)
  else if bool_decide (key = "INTERNAL_JWT_SECRET"%string) then Some (hexdigits, 96%nat)
  else None.

Definition has_shape (key v : string) : Prop :=
  exists alphabet n, shape key = Some (alphabet, n) /\ String.length v = n /\ over alphabet v = true.

Lemma generator_shape key g k : (key, g) ∈ _SECRET_GENERATORS draw -> has_shape key (g k).1.
Proof.
  intros Hin.
  assert (forall alphabet n, (0 < String.length alphabet)%nat -> String.length (_password draw alphabet n k).1 = n /\ over alphabet (_password draw alphabet n k).1 = true) as Hp.
  { intros a n Ha. pose proof (password_shape a n k Ha) as H. destruct (_password draw a n k). by destruct H as (? & ? & _). }
  assert (forall n, String.length (token_hex draw n k).1 = (2 * n)%nat /\ over hexdigits (token_hex draw n k).1 = true) as Ht.
  { intros n. pose proof (token_shape n k) as H. destruct (token_hex draw n k). by destruct H as (? & ? & _). }
  unfold has_shape. repeat (apply elem_of_cons in Hin as [[= -> ->]|Hin]); [.. | by apply elem_of_nil in Hin];
    (eexists _, _; split; [reflexivity |]; first [by apply (Ht 64%nat) | by apply (Ht 48%nat) | apply Hp; vm_compute; lia]).
Qed.

(** The credentials that are generated are those selected, in order, each of the length
    and from the alphabet it should have. *)
Lemma generate_spec keys k :
  Forall (fun key => key ∈ map fst (_SECRET_GENERATORS draw)) keys ->
  map fst (generate draw keys k) = keys /\ Forall (fun x => has_shape x.1 x.2) (generate draw keys k).
Proof.
  intros Hk. revert k. induction Hk as [|key keys Hin Hk IH]; intros k; [by split |]. cbn [generate].
  apply list_elem_of_In, in_map_iff in Hin as ([key' g0] & Hkey & Hin). cbn in Hkey. subst key'.
  destruct (List.find _ _) as [[key' g]|] eqn:Ef.
  - apply List.find_some in Ef as [Hg He]. apply String.eqb_eq in He. cbn in He. subst key'.
    pose proof (generator_shape key g k (proj2 (list_elem_of_In _ _) Hg)) as Hs.
    destruct (g k) as [v k']. destruct (IH k') as [Hm Hf]. cbn. rewrite Hm. by split; [|constructor].
  - by pose proof (List.find_none _ _ Ef _ Hin) as Hn; cbn in Hn; rewrite String.eqb_refl in Hn.
Qed.

Lemma selected_known args : Forall (fun key => key ∈ map fst (_SECRET_GENERATORS draw)) (_selected_keys draw args).
Proof.
  unfold _selected_keys. destruct (map snd _) as [|x l] eqn:El; [by apply Forall_forall |]. rewrite <- El.
  assert (Forall (fun key => key ∈ map fst (_SECRET_GENERATORS draw)) (map snd flag_keys)) as Hall
    by (apply (bool_decide_unpack _); by vm_compute).
  rewrite Forall_forall in *. intros key Hk. apply Hall. rewrite list_elem_of_In, in_map_iff in *.
  destruct Hk as (y & Hy & Hin%List.filter_In). exists y. by split; [|apply Hin].
Qed.

(** The flags select, in the table's order, what they name; without one of them, whether
    or not everything is asked for, all eight are selected. *)
Theorem selection args key :
  key ∈ _selected_keys draw args <->
  key ∈ map fst (_SECRET_GENERATORS draw) /\
  ((exists flag, flag ∈ flags args /\ (flag, key) ∈ flag_keys) \/ forall flag, flag ∈ flags args -> flag ∉ map fst flag_keys).
Proof.
  pose proof (selected_known args) as Hall. rewrite Forall_forall in Hall.
  assert (key ∈ map snd (List.filter (fun x => bool_decide (x.1 ∈ flags args)) flag_keys) <->
          exists flag, flag ∈ flags args /\ (flag, key) ∈ flag_keys) as Hsel.
  { rewrite list_elem_of_In, in_map_iff. setoid_rewrite List.filter_In. setoid_rewrite <- list_elem_of_In. split.
    - intros ([f k] & <- & Hin & Hb%bool_decide_eq_true). by exists f.
    - intros (f & Hf & Hin). exists (f, key). by rewrite bool_decide_true. }
  split.
  - intros Hin. split; [by apply Hall |]. unfold _selected_keys in Hin. destruct (map snd _) as [|x l] eqn:El.
    + right. intros flag Hf ([f k] & Hx & Hfk)%list_elem_of_In%in_map_iff. cbn in Hx. subst f.
      assert (k ∈ map snd (List.filter (fun x => bool_decide (x.1 ∈ flags args)) flag_keys)) as Hc; [|rewrite El in Hc; by apply elem_of_nil in Hc].
      rewrite list_elem_of_In, in_map_iff. exists (flag, k). split; [done |]. apply List.filter_In. by rewrite bool_decide_true.
    + left. apply Hsel. exact Hin.
  - intros [Hk Hor]. unfold _selected_keys. destruct (map snd _) as [|x l] eqn:El; [done |].
    destruct Hor as [Hx|Hno]; [by apply Hsel |]. exfalso.
    assert (x ∈ map snd (List.filter (fun x => bool_decide (x.1 ∈ flags args)) flag_keys)) as Hx by (rewrite El; left).
    rewrite list_elem_of_In, in_map_iff in Hx. destruct Hx as ([f k] & _ & [Hin Hb%bool_decide_eq_true]%List.filter_In).
    apply (Hno f Hb). apply list_elem_of_In, in_map_iff. by exists (f, k).
Qed.

(** *** The file *)

Lemma over_free alphabet c s : mem c alphabet = false -> over alphabet s = true -> free_of c s = true.
Proof.
  intros Hc. induction s as [|d s IH]; [done |]. cbn. intros [Hd Hs]%andb_true_iff. rewrite IH by done.
  destruct (Ascii.eqb_spec d c) as [->|]; [congruence | done].
Qed.

Lemma split_lines (l : list string) :
  Forall (fun a => free_of "010" a = true) l ->
  split_on "010" (String.concat EmptyString (map (fun a => a +:+ newline) l)) = l ++ [EmptyString].
Proof.
  intros Hl. induction Hl as [|a l Ha Hl IH]; [done |]. cbn [map].
  assert (String.concat EmptyString ((a +:+ newline) :: map (fun a => a +:+ newline) l) =
          a +:+ String "010" (String.concat EmptyString (map (fun a => a +:+ newline) l))) as ->.
  { destruct l as [|b l]; cbn [map String.concat]; [done |]. by rewrite append_nil, append_assoc. }
  by rewrite split_on_app, IH, split_on_free.
Qed.

Lemma assignment_of key v : free_of "=" key = true -> assignment (key +:+ "=" +:+ v) = Some (key, v).
Proof.
  induction key as [|c key IH]; [done |]. rewrite append_cons. cbn [assignment free_of]. intros [Hc Hk]%andb_true_iff.
  apply negb_true_iff in Hc. by rewrite Hc, IH.
Qed.

(** Whatever is selected, the file that is written reads back as these credentials and
    nothing else, and only its owner may read or write it in the end. *)
Theorem file_reads_back args new_mode old generated_at :
  free_of "010" generated_at = true ->
  exists f, last (main draw args new_mode old generated_at) = Some f /\ mode f = 384 /\
    settings (text f) = generate draw (_selected_keys draw args) 0 /\
    map fst (settings (text f)) = _selected_keys draw args /\
    Forall (fun x => has_shape x.1 x.2) (settings (text f)).
Proof.
  intros Hat. destruct (generate_spec (_selected_keys draw args) 0 (selected_known args)) as [Hkeys Hshape].
  eexists. split; [reflexivity |]. split; [done |]. cbn [text]. set (values := generate _ _ 0) in *.
  assert (settings (text_of values generated_at) = values) as Hs; [|by rewrite Hs].
  assert (Forall (fun x => free_of "=" x.1 = true /\ free_of "#" x.1 = true /\ free_of "010" x.1 = true /\ str_truthy x.1 = true /\ free_of "010" x.2 = true) values) as Hplain.
  { pose proof (selected_known args) as Hall. rewrite <- Hkeys in Hall.
    apply Forall_forall. intros [key v] Hin. pose proof (proj1 (Forall_forall _ _) Hall) as Hall'.
    assert (key ∈ map fst (_SECRET_GENERATORS draw)) as Hk.
    { apply Hall'. apply list_elem_of_In, in_map_iff. exists (key, v). by split; [|apply list_elem_of_In]. }
    destruct (proj1 (Forall_forall _ _) Hshape _ Hin) as (a & n & Hsh & _ & Ho). cbn [fst snd] in *.
    assert (free_of "=" key && free_of "#" key && free_of "010" key && str_truthy key &&
            match shape key with Some (a, _) => negb (mem "010" a) | None => true end = true) as Hb.
    { assert (Forall (fun key => (free_of "=" key && free_of "#" key && free_of "010" key && str_truthy key &&
        match shape key with Some (a, _) => negb (mem "010" a) | None => true end = true)) (map fst (_SECRET_GENERATORS draw))) as Hb
        by (apply (bool_decide_unpack _); by vm_compute).
      rewrite Forall_forall in Hb. by apply Hb. }
    rewrite Hsh, !andb_true_iff in Hb. destruct Hb as ((((H1 & H2) & H3) & H4) & H5%negb_true_iff).
    split_and!; try done. by apply (over_free a). }
  set (header := ["# Generated secrets " +:+ String "226" (String "128" (String "148" " copy the values you want into .env manually."));
    "# Do not commit this file."%string; "# Generated at " +:+ generated_at +:+ " UTC by scripts/tools/generate-secrets.py"; EmptyString]).
  assert (lines_of values generated_at = map (fun a => a +:+ newline) (header ++ map (fun x => x.1 +:+ "=" +:+ x.2) values)) as Hlines.
  { unfold lines_of, _generation_comment, header. rewrite map_app, map_map. f_equal.
    - cbn [map]. by rewrite !append_assoc.
    - apply map_ext. intros x. by rewrite !append_assoc. }
  unfold settings, text_of. rewrite Hlines, split_lines.
  - assert (forall a l, omap setting (a :: l) = match setting a with Some y => y :: omap setting l | None => omap setting l end) as omap_cons by done.
    rewrite !omap_app. change (omap setting header) with (@nil (string * string)). change (omap setting [EmptyString]) with (@nil (string * string)).
    cbn [app]. rewrite app_nil_r. clear -Hplain omap_cons. induction Hplain as [|[key v] l (H1 & H2 & H3 & H4 & H5) Hl IH]; [done |].
    cbn [map fst snd] in *. rewrite omap_cons. destruct key as [|c key]; [done |]. rewrite append_cons. cbn [setting].
    cbn in H2. apply andb_true_iff in H2 as [Hc _]. apply negb_true_iff in Hc. rewrite Hc, <- append_cons, assignment_of by done.
    by rewrite IH.
  - apply Forall_app. split.
    + assert (forall a b, free_of "010" a = true -> free_of "010" b = true -> free_of "010" (a +:+ b) = true) as Happ.
      { intros a b Ha Hb. induction a as [|c a IH]; [by rewrite append_nil |]. rewrite append_cons. cbn in *.
        apply andb_true_iff in Ha as [-> Ha]. by apply IH. }
      repeat constructor; try reflexivity. apply Happ; [done |]. by apply Happ.
    + apply Forall_forall. intros a Ha. apply list_elem_of_In, in_map_iff in Ha as ([key v] & <- & Hin).
      rewrite Forall_forall in Hplain. destruct (Hplain (key, v)) as (_ & _ & Hk & _ & Hv); [by apply list_elem_of_In |].
      cbn [fst snd] in *. clear -Hk Hv. induction key as [|c key IH]; [done |]. rewrite append_cons. cbn in *.
      apply andb_true_iff in Hk as [-> Hk]. by apply IH.
Qed.

End facts.
End SecretTheorems.

(** ** Witnesses and examples *)

Module SecretWitnesses.
Import Secrets SecretTheorems.

Definition counting (k n : nat) : nat := k mod n.

Lemma counting_below k n : (0 < n)%nat -> (counting k n < n)%nat.
Proof. intros Hn. apply Nat.mod_upper_bound. lia. Qed.

(** What is left of the letters and digits. *)
Example safe_alphabet :
  String.length _SAFE_NO_AMBIG = 53%nat /\ filter_chars (fun c => mem c ambiguous) _SAFE_NO_AMBIG = EmptyString.
Proof. by vm_compute. Qed.

Lemma file_reads_back_witness :
  exists f, last (main counting (Args false ["redis"%string]) 420 None "2026-01-01T00:00:00") = Some f /\
    settings (text f) = [("CACHE_PASSWORD", "abcdefghijkmnopqrstuvwxyzABCDEFG")]%string.
Proof.
  destruct (file_reads_back counting counting_below (Args false ["redis"%string]) 420 None "2026-01-01T00:00:00" eq_refl)
    as (f & Hl & _ & Hs & _ & _).
  exists f. split; [exact Hl |]. rewrite Hs. by vm_compute.
Defined.

(** Asking for everything and for one credential gives the one. *)
Example all_is_not_all : _selected_keys counting (Args true ["jwt"%string]) = ["JWT_SECRET"%string].
Proof. by vm_compute. Qed.

(** The secrets are in a new file before the file is made private. *)
Example readable_for_a_while :
  map mode (main counting (Args false []) 420 None "2026-01-01T00:00:00") = [420; 384] /\
  map text (main counting (Args false ["redis"%string]) 420 None "now") =
    repeat (text_of [("CACHE_PASSWORD", "abcdefghijkmnopqrstuvwxyzABCDEFG")]%string "now") 2.
Proof. by vm_compute. Qed.

End SecretWitnesses.
