(* ===== verification/DatabaseSession.v ===== *)
(** * Database sessions and row-level security

    [services/ingestor/core/database.py]: the session of a request carries the tenant and
    the role that [core/tenant.py] found ([get_db]), and each of its transactions hands
    them to the database as settings ([_apply_request_database_context]).  The policies of
    the revisions [e60d14dbfebd] and [bab88abe6c35] read the settings.

    A connection keeps what [current_setting] answers between the transactions of
    whatever sessions the pool lends it to, and a table is that of [Db.v].  What the
    database does is written from its documentation: settings that are local to a
    transaction, three-valued conditions evaluated from the left, and for a table with a
    policy the rows that a statement sees and the check of the rows it writes; a unique
    index is over all rows, those included that a statement does not see.  The cast
    from text to [integer] is an interface ([PgCast]), and what [current_setting] answers
    for a setting that was only ever local is a variable with two possible values.

    [permitted] is the policy; [entitled] says what it comes to for a session, and
    [sees_own_rows] that under it a session runs as on a table of the permitted rows
    alone. *)

From S2P Require Import Prelude Db Network Jwt UserAuth Incidents SourceRegistry Observations ContractVersions Migrations.

(** ** Settings of a connection *)

Module Guc.

Record connection := Conn { lasting : gmap string string; in_transaction : gmap string string }.

Definition fresh_connection : connection := Conn ∅ ∅.

(** [current_setting(name, true)]. *)
Definition current_setting (name : string) (c : connection) : option string :=
  match in_transaction c !! name with Some v => Some v | None => lasting c !! name end.

(** [set_config(name, value, true)]. *)
Definition set_config (name value : string) (c : connection) : connection :=
  Conn (lasting c) (<[name := value]> (in_transaction c)).

(** COMMIT and ROLLBACK.  [reverted] is what is left of a setting without a lasting value. *)
Definition end_transaction (reverted : option string) (c : connection) : connection :=
  Conn (match reverted with
        | Some v => lasting c ∪ ((fun _ => v) <$> in_transaction c)
        | None => lasting c
        end) ∅.

End Guc.

(** ** Sessions *)

Module DbSession.
Import Guc.

(** [session.info]; that of a session outside requests is empty. *)
Record info := Info { tenant_id : option Z; user_role : option string; rls_enabled : bool }.

Definition no_info : info := Info None None false.

Definition _apply_request_database_context (i : info) (c : connection) : connection :=
  let c := if rls_enabled i then set_config "app.rls_enabled" "true" c else c in
  let c := match tenant_id i with
           | Some t => set_config "app.tenant_id" (str_of_Z t) c
           | None => c
           end in
  match user_role i with
  | Some role => set_config "app.user_role" role c
  | None => c
  end.

Definition get_db (rls : bool) (ctx : Tenant.context) : info :=
  Info (Tenant.tenant_context ctx) (Tenant.role_context ctx) rls.

(** A transaction of a session on a connection, as far as the settings go: [run] is what
    it does in between. *)
Definition with_transaction {A} (reverted : option string) (i : info) (run : connection -> A) (c : connection)
    : A * connection :=
  let c := _apply_request_database_context i c in (run c, end_transaction reverted c).

(** Connections of the pool: new ones, and those that sessions have used. *)
Inductive used (reverted : option string) : connection -> connection -> Prop :=
| used_by i c : used reverted c (with_transaction reverted i (fun _ => ()) c).2.

Definition pooled (reverted : option string) : connection -> Prop := rtc (used reverted) fresh_connection.

End DbSession.

(** ** Policies *)

Module RowPolicy.
Import Guc.

(** The disjuncts of the two policies. *)
Inductive condition :=
| setting_is_distinct (name value : string)
| setting_equals (name value : string)
| tenant_is_null
| tenant_equals_setting (name : string).

Definition observations_policy : list condition :=
  [setting_is_distinct "app.rls_enabled" "true"; tenant_is_null; tenant_equals_setting "app.tenant_id"].

Definition dependency_incidents_policy : list condition :=
  [setting_is_distinct "app.rls_enabled" "true"; setting_equals "app.user_role" "admin"; tenant_is_null;
   tenant_equals_setting "app.tenant_id"].

(** The text of a policy. *)
Definition condition_sql (d : condition) : string :=
  match d with
  | setting_is_distinct name value => "current_setting('" +:+ name +:+ "', true) IS DISTINCT FROM '" +:+ value +:+ "'"
  | setting_equals name value => "current_setting('" +:+ name +:+ "', true) = '" +:+ value +:+ "'"
  | tenant_is_null => "tenant_id IS NULL"
  | tenant_equals_setting name => "tenant_id = NULLIF(current_setting('" +:+ name +:+ "', true), '')::integer"
  end.

Definition newline : string := String "010" EmptyString.

Definition policy_sql (p : list condition) : string :=
  newline +:+ "  " +:+ String.concat (newline +:+ "  OR ") (map condition_sql p) +:+ newline.

Inductive sql_error := CastError | RowViolatesPolicy | UniqueViolation.

(** The range of [integer]. *)
Definition in_integer (z : Z) : bool := (-2147483648 <=? z) && (z <=? 2147483647).

(** The cast of a text to [integer]: what the code relies on is that it reads back the
    numbers that [str] writes and refuses those out of range. *)
Class PgCast := { to_integer : string -> option Z }.

Class PgCastLaws `{PgCast} := {
  cast_written z : to_integer (str_of_Z z) = if in_integer z then Some z else None
}.

Section Policy.
Context `{PgCast}.

Definition nullif (a : option string) (b : string) : option string :=
  match a with Some s => if decide (s = b) then None else Some s | None => None end.

(** A condition on a row with the given tenant; [None] is the third truth value. *)
Definition holds (c : connection) (tenant : option Z) (d : condition) : result sql_error (option bool) :=
  match d with
  | setting_is_distinct name value => Ok (Some (negb (bool_decide (current_setting name c = Some value))))
  | setting_equals name value => Ok ((fun s => bool_decide (s = value)) <$> current_setting name c)
  | tenant_is_null => Ok (Some (bool_decide (tenant = None)))
  | tenant_equals_setting name =>
      match nullif (current_setting name c) EmptyString with
      | None => Ok None
      | Some s =>
          match to_integer s with
          | None => Raise CastError
          | Some u => Ok ((fun t => t =? u) <$> tenant)
          end
      end
  end.

Definition or3 (a b : option bool) : option bool :=
  match a, b with
  | Some true, _ | _, Some true => Some true
  | Some false, Some false => Some false
  | _, _ => None
  end.

Fixpoint any_holds (c : connection) (tenant : option Z) (p : list condition) : result sql_error (option bool) :=
  match p with
  | [] => Ok (Some false)
  | d :: p =>
      bind_result (holds c tenant d) (fun b =>
      if decide (b = Some true) then Ok b
      else bind_result (any_holds c tenant p) (fun b' => Ok (or3 b b')))
  end.

(** A policy lets a row through where its condition is true, not where it is null. *)
Definition permitted (p : list condition) (c : connection) (tenant : option Z) : result sql_error bool :=
  bind_result (any_holds c tenant p) (fun b => Ok (bool_decide (b = Some true))).

End Policy.
End RowPolicy.

(** ** Statements on a table with a policy *)

Module RowSecurity.
Import Guc DbSession RowPolicy.

Inductive statement (R : Type) :=
| Select (p : R -> bool)
| Insert (r : R)
| Update (p : R -> bool) (f : R -> R)
| Delete (p : R -> bool).
Arguments Select {R}. Arguments Insert {R}. Arguments Update {R}. Arguments Delete {R}.

(** What a transaction does: statements, each of which may depend on the rows that the
    earlier ones returned, and a result. *)
Inductive program (R A : Type) :=
| Return (a : A)
| Execute (st : statement R) (k : list (Z * R) -> program R A).
Arguments Return {R A}. Arguments Execute {R A}.

Section Table.
Context {R : Type}.
(** The columns of the unique index, [None] where one of them is null. *)
Context {K : Type} `{EqDecision K} (key : R -> option K).
(** What the policy says of a row, for the connection at hand. *)
Context (admits : R -> result sql_error bool).

(** Whether a row to be written has the key of another. *)
Definition conflicts (r : R) (others : list (Z * R)) : bool :=
  match key r with
  | Some k => existsb (fun y => bool_decide (key y.2 = Some k)) others
  | None => false
  end.

(** What a statement makes of a row next to the others: the row it returns and the row
    that stays. *)
Definition on_row (st : statement R) (others : list (Z * R)) (x : Z * R)
    : result sql_error (option (Z * R) * option (Z * R)) :=
  match st with
  | Insert _ => Ok (None, Some x)
  | Select p => bind_result (admits x.2) (fun b => Ok (if b && p x.2 then Some x else None, Some x))
  | Delete p => bind_result (admits x.2) (fun b => Ok (if b && p x.2 then (Some x, None) else (None, Some x)))
  | Update p f =>
      bind_result (admits x.2) (fun b =>
      if b && p x.2 then
        bind_result (admits (f x.2)) (fun b' =>
        if negb b' then Raise RowViolatesPolicy
        else if conflicts (f x.2) others then Raise UniqueViolation
        else Ok (Some (x.1, f x.2), Some (x.1, f x.2)))
      else Ok (None, Some x))
  end.

(** The rows one after another; [past] is what became of those before. *)
Fixpoint on_rows (st : statement R) (past l : list (Z * R)) : result sql_error (list (Z * R) * list (Z * R)) :=
  match l with
  | [] => Ok ([], [])
  | x :: l =>
      bind_result (on_row st (past ++ l) x) (fun '(ret, kept) =>
      bind_result (on_rows st (past ++ option_list kept) l) (fun '(rets, rest) =>
        Ok (option_list ret ++ rets, option_list kept ++ rest)))
  end.

Definition run_statement (st : statement R) (t : table R) : result sql_error (list (Z * R) * table R) :=
  match st with
  | Insert r =>
      bind_result (admits r) (fun b =>
      if negb b then Raise RowViolatesPolicy
      else if conflicts r (rows t) then Raise UniqueViolation
      else let '(i, t') := insert r t in Ok ([(i, r)], t'))
  | _ => bind_result (on_rows st [] (rows t)) (fun '(ret, kept) => Ok (ret, Table kept (next_id t)))
  end.

Fixpoint run_program {A} (m : program R A) (t : table R) : result sql_error (A * table R) :=
  match m with
  | Return a => Ok (a, t)
  | Execute st k => bind_result (run_statement st t) (fun '(ret, t') => run_program (k ret) t')
  end.

End Table.

Section Transaction.
Context `{PgCast} {R : Type} {K : Type} `{EqDecision K} (key : R -> option K).
Context (tenant_of : R -> option Z) (policy : list condition).

Definition admitted (c : connection) (r : R) : result sql_error bool := permitted policy c (tenant_of r).

(** A transaction of a session: an error rolls it back.  The role of the database is
    neither a superuser nor one with BYPASSRLS; FORCE includes the owner of the table. *)
Definition transaction {A} (reverted : option string) (i : info) (m : program R A) (w : connection * table R)
    : result sql_error A * (connection * table R) :=
  let '(answer, c) := with_transaction reverted i (fun c => run_program key (admitted c) m w.2) w.1 in
  match answer with
  | Ok (a, t) => (Ok a, (c, t))
  | Raise e => (Raise e, (c, w.2))
  end.

End Transaction.
End RowSecurity.

(** ** Theorems *)

Module RowSecurityTheorems.
Import Guc DbSession RowPolicy RowSecurity.

(** What a policy comes to for a session; [admins]: it exempts administrators. *)
Definition entitled (admins : bool) (i : info) (tenant : option Z) : result sql_error bool :=
  if negb (rls_enabled i) || (admins && bool_decide (user_role i = Some "admin")) then Ok true
  else match tenant, tenant_id i with
       | None, _ => Ok true
       | Some _, None => Ok false
       | Some t, Some u => if in_integer u then Ok (t =? u) else Raise CastError
       end.

(** Between transactions, every setting is unset or empty. *)
Definition idle (c : connection) : Prop :=
  in_transaction c = ∅ /\ forall name v, lasting c !! name = Some v -> v = EmptyString.

Lemma idle_fresh : idle fresh_connection.
Proof. by split. Qed.

Lemma idle_end reverted c :
  reverted = None \/ reverted = Some EmptyString -> (forall name v, lasting c !! name = Some v -> v = EmptyString) ->
  idle (end_transaction reverted c).
Proof.
  intros Hr Hc. split; [done |]. intros name v. destruct Hr as [->| ->]; cbn; [apply Hc |].
  rewrite lookup_union_Some_raw, lookup_fmap. intros [Hl|[_ Hl]]; [by eapply Hc |].
  destruct (in_transaction c !! name); by simplify_eq/=.
Qed.

Lemma context_lasting i c : lasting (_apply_request_database_context i c) = lasting c.
Proof. unfold _apply_request_database_context. by destruct (rls_enabled i), (tenant_id i), (user_role i). Qed.

Lemma pooled_idle reverted c : reverted = None \/ reverted = Some EmptyString -> pooled reverted c -> idle c.
Proof.
  intros Hr. unfold pooled. revert c. apply rtc_ind_r; [apply idle_fresh |].
  intros _ _ _ [i c] IH. cbn. apply idle_end; [done |]. rewrite context_lasting. apply IH.
Qed.

(** What a transaction of a session finds in a setting. *)
Definition written (i : info) (name : string) : option string :=
  if decide (name = "app.user_role") then user_role i
  else if decide (name = "app.tenant_id") then str_of_Z <$> tenant_id i
  else if decide (name = "app.rls_enabled") then (if rls_enabled i then Some "true" else None)
  else None.

Lemma setting_written i c name : idle c ->
  let v := current_setting name (_apply_request_database_context i c) in
  v = written i name \/ written i name = None /\ v = Some EmptyString.
Proof.
  intros [Hin Hl]. cbn zeta. unfold current_setting. rewrite context_lasting.
  assert (in_transaction (_apply_request_database_context i c) !! name = written i name) as ->.
  { unfold _apply_request_database_context, written, set_config.
    destruct (rls_enabled i), (tenant_id i), (user_role i); cbn; rewrite Hin; rewrite ?lookup_insert, ?lookup_empty;
      repeat case_decide; naive_solver. }
  destruct (written i name); [by left |]. destruct (lasting c !! name) as [v|] eqn:E; [|by left].
  right. split; [done |]. f_equal. by eapply Hl.
Qed.

Lemma str_of_Z_nonempty z : str_of_Z z <> EmptyString.
Proof.
  assert (forall n a s, pretty_N_go n (String a s) <> EmptyString) as Hgo.
  { intros n. induction (N.lt_wf_0 n) as [n _ IH]. intros a s.
    destruct (decide (n = 0%N)) as [->|Hn]; [by rewrite pretty_N_go_0 |].
    rewrite pretty_N_go_step by lia. apply IH, N.div_lt; lia. }
  unfold str_of_Z, pretty, pretty_Z. destruct z as [|p|p]; [done | |done].
  unfold pretty, pretty_positive, pretty, pretty_N. case_decide; [done |].
  rewrite pretty_N_go_step by lia. apply Hgo.
Qed.

Section policies.
Context `{PgCastLaws}.

Lemma holds_distinct i c tenant : idle c ->
  holds (_apply_request_database_context i c) tenant (setting_is_distinct "app.rls_enabled" "true") =
    Ok (Some (negb (rls_enabled i))).
Proof.
  intros Hc. cbn [holds]. do 3 f_equal.
  destruct (setting_written i c "app.rls_enabled" Hc) as [->|[Hw ->]]; change (written i "app.rls_enabled") with (if rls_enabled i then Some "true" else None) in *;
    by destruct (rls_enabled i).
Qed.

Lemma holds_admin i c tenant : idle c ->
  exists b, holds (_apply_request_database_context i c) tenant (setting_equals "app.user_role" "admin") = Ok b /\
    bool_decide (b = Some true) = bool_decide (user_role i = Some "admin").
Proof.
  intros Hc. eexists. split; [reflexivity |]. apply bool_decide_ext.
  destruct (setting_written i c "app.user_role" Hc) as [->|[Hw ->]]; change (written i "app.user_role") with (user_role i) in *.
  - destruct (user_role i) as [r|]; cbn; [|done]. split; [intros [= Hb%bool_decide_eq_true]; by subst | intros [= ->]; done].
  - by rewrite Hw.
Qed.

Lemma holds_tenant i c tenant : idle c ->
  holds (_apply_request_database_context i c) tenant (tenant_equals_setting "app.tenant_id") =
    match tenant_id i with
    | None => Ok None
    | Some u => if in_integer u then Ok ((fun t => t =? u) <$> tenant) else Raise CastError
    end.
Proof.
  intros Hc. cbn [holds].
  destruct (setting_written i c "app.tenant_id" Hc) as [->|[Hw ->]]; change (written i "app.tenant_id") with (str_of_Z <$> tenant_id i) in *.
  - destruct (tenant_id i) as [u|]; [|done]. cbn. rewrite decide_False by apply str_of_Z_nonempty.
    rewrite cast_written. by destruct (in_integer u).
  - by destruct (tenant_id i).
Qed.

(** The policies come to what a session is entitled to, whoever used the connection. *)
Lemma permitted_entitled i c tenant : idle c ->
  permitted observations_policy (_apply_request_database_context i c) tenant = entitled false i tenant /\
  permitted dependency_incidents_policy (_apply_request_database_context i c) tenant = entitled true i tenant.
Proof.
  intros Hc. unfold permitted, observations_policy, dependency_incidents_policy, entitled. cbn [any_holds].
  rewrite holds_distinct, holds_tenant by done. destruct (holds_admin i c tenant Hc) as (b & -> & Hb). rewrite <- Hb.
  cbn [bind_result holds]. destruct (rls_enabled i); [|done]. cbn.
  destruct b as [[]|], tenant as [t|], (tenant_id i) as [u|]; cbn; try done; destruct (in_integer u); cbn; try done;
    by destruct (t =? u).
Qed.

End policies.

(** *** Statements on the permitted rows alone *)

Section rows.
Context {R : Type} {K : Type} `{EqDecision K} (key : R -> option K) (g : R -> bool).

Definition own (t : table R) : table R := Table (select g t) (next_id t).
Definition foreign (t : table R) : list (Z * R) := select (fun r => negb (g r)) t.

Abbreviation admits := (fun r => Ok (g r)).
Abbreviation seen l := (List.filter (fun x => g x.2) l).
Abbreviation hidden l := (List.filter (fun x => negb (g x.2)) l).

(** A row that may be written has the key of one that is not seen. *)
Definition collision (others : list (Z * R)) : Prop :=
  exists x r, In x others /\ g r = true /\ key r = key x.2 /\ is_Some (key r).

Lemma conflicts_seen r l : g r = true ->
  conflicts key r l = conflicts key r (seen l) \/ (conflicts key r l = true /\ collision (hidden l)).
Proof.
  intros Hr. unfold conflicts. destruct (key r) as [k|] eqn:Ek; [|by left].
  induction l as [|x l IH]; [by left |]. cbn [existsb List.filter].
  assert (forall l', collision l' -> collision (x :: l')) as Hcons by (intros l' (y & r' & Hy & Hrest); exists y, r'; split; [by right | done]).
  destruct (g x.2) eqn:Hx; cbn [negb existsb]; destruct (bool_decide (key x.2 = Some k)) eqn:Ex; cbn [orb];
    [by left | by (destruct IH as [->|[-> ?]]; auto) | |].
  - right. split; [done |]. apply bool_decide_eq_true in Ex. exists x, r. split; [by left |]. rewrite Ex, Ek. by eauto.
  - destruct IH as [->|[-> ?]]; auto.
Qed.

Lemma on_row_hidden st others x : g x.2 = false -> on_row key admits st others x = Ok (None, Some x).
Proof. intros Hx. destruct st; cbn; by rewrite ?Hx. Qed.

Lemma on_row_seen st others x ret y : g x.2 = true -> on_row key admits st others x = Ok (ret, Some y) -> g y.2 = true.
Proof.
  intros Hx. destruct st as [p|r|p f|p]; cbn; rewrite ?Hx; cbn; try (intros; by simplify_eq).
  - destruct (p x.2); [|intros; by simplify_eq]. destruct (g (f x.2)) eqn:Hf; cbn; [|done].
    destruct (conflicts _ _ _); intros; by simplify_eq.
  - destruct (p x.2); intros; by simplify_eq.
Qed.

Lemma on_row_own st others x : g x.2 = true ->
  on_row key admits st others x = on_row key admits st (seen others) x \/
  (on_row key admits st others x = Raise UniqueViolation /\ collision (hidden others)).
Proof.
  intros Hx. destruct st as [p|r|p f|p]; try by left. cbn. rewrite Hx. cbn. destruct (p x.2); [|by left]. cbn.
  destruct (g (f x.2)) eqn:Hf; cbn; [|by left].
  destruct (conflicts_seen (f x.2) others Hf) as [->|[-> Hc]]; auto.
Qed.

Lemma on_rows_own st l : forall past,
  (on_rows key admits st past l = Raise UniqueViolation /\ collision (hidden (past ++ l))) \/
  match on_rows key admits st (seen past) (seen l) with
  | Ok (ret, kept) =>
      exists all, on_rows key admits st past l = Ok (ret, all) /\ seen all = kept /\ hidden all = hidden l
  | Raise e => on_rows key admits st past l = Raise e
  end.
Proof.
  induction l as [|x l IH]; intros past; [right; by exists [] |]. rewrite List.filter_app. cbn [List.filter].
  destruct (g x.2) eqn:Hx; cbn [on_rows negb].
  - destruct (on_row_own st (past ++ l) x Hx) as [Er|[-> Hc]]; [|left; by rewrite List.filter_app in Hc].
    rewrite Er, List.filter_app. destruct (on_row key admits st (seen past ++ seen l) x) as [[ret kept]|e] eqn:Es; [|by right].
    cbn [bind_result]. assert (seen (option_list kept) = option_list kept /\ hidden (option_list kept) = []) as [Hk1 Hk2].
    { destruct kept as [y|]; [|done]. cbn. by rewrite (on_row_seen _ _ _ _ _ Hx Es). }
    specialize (IH (past ++ option_list kept)). rewrite !List.filter_app, Hk1, Hk2, app_nil_r in IH.
    destruct IH as [[-> Hc]|IH]; [left; by split |]. right.
    destruct (on_rows key admits st (seen past ++ option_list kept) (seen l)) as [[rets rest]|e]; [|by rewrite IH].
    destruct IH as (all & -> & <- & Hf). cbn [bind_result]. eexists. split; [reflexivity |].
    rewrite !List.filter_app, Hk1, Hk2. by rewrite Hf.
  - rewrite on_row_hidden by done. cbn [bind_result].
    change (option_list (Some x)) with [x]. specialize (IH (past ++ [x])).
    rewrite <- app_assoc in IH. rewrite !List.filter_app in IH. cbn [app List.filter] in IH. rewrite Hx in IH. cbn [negb] in IH.
    rewrite app_nil_r in IH. destruct IH as [[-> Hc]|IH]; [left; by split |]. right.
    destruct (on_rows key admits st (seen past) (seen l)) as [[ret kept]|e]; [|by rewrite IH].
    destruct IH as (all & -> & <- & Hf). cbn [bind_result]. eexists. split; [reflexivity |]. cbn. by rewrite Hx, Hf.
Qed.

Lemma run_statement_own st t :
  (run_statement key admits st t = Raise UniqueViolation /\ collision (foreign t)) \/
  match run_statement key admits st (own t) with
  | Ok (ret, t') => exists all, run_statement key admits st t = Ok (ret, all) /\ own all = t' /\ foreign all = foreign t
  | Raise e => run_statement key admits st t = Raise e
  end.
Proof.
  assert (forall st, let run l := bind_result (on_rows key admits st [] l) (fun '(ret, kept) => Ok (ret, Table kept (next_id t))) in
    (run (rows t) = Raise UniqueViolation /\ collision (foreign t)) \/
    match run (rows (own t)) with
    | Ok (ret, t') => exists all, run (rows t) = Ok (ret, all) /\ own all = t' /\ foreign all = foreign t
    | Raise e => run (rows t) = Raise e
    end) as Hscan.
  { intros s. cbv zeta. destruct (on_rows_own s (rows t) []) as [[-> Hc]|Hl]; [left; by split |]. right.
    cbn [rows own]. unfold select at 1. cbn [List.filter] in Hl.
    destruct (on_rows key admits s [] (seen (rows t))) as [[ret kept]|e]; cbn [bind_result]; [|by rewrite Hl].
    destruct Hl as (all & -> & <- & Hf). by exists (Table all (next_id t)). }
  destruct st as [p|r|p f|p]; cbn [run_statement]; try apply Hscan. cbn [bind_result].
  destruct (g r) eqn:Hr; cbn [negb]; [|by right].
  destruct (conflicts_seen r (rows t) Hr) as [->|[-> Hc]]; [|left; by split]. right. cbn [rows own]. unfold select at 1.
  destruct (conflicts key r (seen (rows t))); [done |]. eexists. split; [reflexivity |]. unfold own, foreign, select. cbn.
  rewrite !List.filter_app. cbn. by rewrite Hr, app_nil_r.
Qed.

(** A program runs on a table as it does on the permitted rows alone, and leaves the
    other rows as they are, unless it writes the key of one of them. *)
Lemma run_program_own {A} (m : program R A) t :
  (run_program key admits m t = Raise UniqueViolation /\ collision (foreign t)) \/
  match run_program key admits m (own t) with
  | Ok (a, t') => exists all, run_program key admits m t = Ok (a, all) /\ own all = t' /\ foreign all = foreign t
  | Raise e => run_program key admits m t = Raise e
  end.
Proof.
  revert t. induction m as [a|st k IH]; intros t; [right; by exists t |]. cbn [run_program].
  destruct (run_statement_own st t) as [[-> Hc]|Hs]; [left; by split |].
  destruct (run_statement key admits st (own t)) as [[ret t']|e]; cbn [bind_result]; [|right; by rewrite Hs].
  destruct Hs as (all & -> & <- & Hf). cbn [bind_result]. specialize (IH ret all). rewrite Hf in IH. exact IH.
Qed.

End rows.

Lemma run_program_ext {R K A} `{EqDecision K} (key : R -> option K) (f g : R -> result sql_error bool) (m : program R A) t :
  (forall r, f r = g r) -> run_program key f m t = run_program key g m t.
Proof.
  intros Hfg. assert (forall st o x, on_row key f st o x = on_row key g st o x) as Hrow by (by intros [] o x; cbn; rewrite ?Hfg).
  assert (forall st l past, on_rows key f st past l = on_rows key g st past l) as Hrows.
  { intros st l. induction l as [|x l IH]; intros past; cbn; [done |]. rewrite Hrow.
    destruct (on_row key g st _ x) as [[ret kept]|]; [|done]. cbn. by rewrite IH. }
  revert t. induction m as [a|st k IH]; intros t; [done |]. cbn [run_program].
  assert (run_statement key f st t = run_statement key g st t) as -> by (destruct st; cbn; by rewrite ?Hrows, ?Hfg).
  destruct (run_statement key g st t) as [[ret t']|e]; [apply IH | done].
Qed.

(** *** Sessions *)

(** The policies, and whether they exempt administrators. *)
Definition governs (policy : list condition) (admins : bool) : Prop :=
  policy = observations_policy /\ admins = false \/ policy = dependency_incidents_policy /\ admins = true.

(** The rows that a session sees. *)
Definition sees (admins : bool) (i : info) (tenant : option Z) : bool :=
  negb (rls_enabled i) || admins && bool_decide (user_role i = Some "admin") ||
  bool_decide (tenant = None \/ tenant = tenant_id i).

Definition proper_tenant (i : info) : Prop := forall u, tenant_id i = Some u -> in_integer u = true.

Lemma entitled_sees admins i tenant : proper_tenant i -> entitled admins i tenant = Ok (sees admins i tenant).
Proof.
  intros Hp. unfold entitled, sees. destruct (negb (rls_enabled i) || _); [done |]. cbn [orb].
  destruct tenant as [t|], (tenant_id i) as [u|] eqn:Hu; try (by rewrite bool_decide_true by auto).
  - rewrite (Hp u Hu). f_equal. symmetry. destruct (Z.eqb_spec t u); [rewrite bool_decide_true | rewrite bool_decide_false]; naive_solver.
  - by rewrite bool_decide_false by naive_solver.
Qed.

Section sessions.
Context `{PgCastLaws} (reverted : option string).
Hypothesis reverts : reverted = None \/ reverted = Some EmptyString.

(** What a session may see and write is a matter of its own tenant and role: whatever
    sessions have used the connection before leave nothing behind.  The conditions are
    those of the policies' text in the migrations. *)
Theorem pooled_settings_do_not_leak i c tenant :
  pooled reverted c ->
  permitted observations_policy (_apply_request_database_context i c) tenant = entitled false i tenant /\
  permitted dependency_incidents_policy (_apply_request_database_context i c) tenant = entitled true i tenant /\
  policy_sql observations_policy = Rev_e60d14dbfebd.TENANT_POLICY /\
  policy_sql dependency_incidents_policy = Rev_bab88abe6c35.TENANT_POLICY.
Proof.
  intros Hc%pooled_idle; [|done]. destruct (permitted_entitled i c tenant Hc) as [-> ->]. by repeat split.
Qed.

Lemma admitted_sees {R} (tenant_of : R -> option Z) policy admins i c r :
  governs policy admins -> pooled reverted c -> proper_tenant i ->
  admitted tenant_of policy (_apply_request_database_context i c) r = Ok (sees admins i (tenant_of r)).
Proof.
  intros Hg Hc%pooled_idle Hp; [|done]. rewrite <- entitled_sees by done. unfold admitted.
  destruct (permitted_entitled i c (tenant_of r) Hc). by destruct Hg as [[-> ->]|[-> ->]].
Qed.

(** C16: A transaction leaves the rows that its session does not see as they are, and
    answers, and changes the rows of its tenant, as if they were not there.  The one
    exception is a row written with the key of a row that is not seen: the unique index
    is over all rows, so the transaction fails, and changes nothing. *)
Theorem tenants_do_not_interfere {R K A} `{EqDecision K} (key : R -> option K) (tenant_of : R -> option Z)
    policy admins i c (m : program R A) t :
  governs policy admins -> pooled reverted c -> proper_tenant i ->
  let seen r := sees admins i (tenant_of r) in
  let '(answer, (c', t')) := transaction key tenant_of policy reverted i m (c, t) in
  let undisturbed := transaction key tenant_of policy reverted i m (c, own seen t) = (answer, (c', own seen t')) in
  foreign seen t' = foreign seen t /\
  (undisturbed \/ answer = Raise UniqueViolation /\ t' = t /\ collision key seen (foreign seen t)).
Proof.
  intros Hg Hc Hp seen. unfold transaction, with_transaction. cbn [fst snd].
  assert (forall r, admitted tenant_of policy (_apply_request_database_context i c) r = Ok (seen r)) as Ha
    by (intros r; by eapply admitted_sees).
  rewrite !(run_program_ext key _ (fun r => Ok (seen r)) m _ Ha).
  destruct (run_program_own key seen m t) as [[-> Hcol]|Hm]; [by auto |].
  destruct (run_program _ _ m (own seen t)) as [[a t']|e]; [|by rewrite Hm; auto].
  destruct Hm as (all & -> & <- & Hf). auto.
Qed.

(** A tenant out of the range of the column, which a header may name, fails every
    statement that meets a row of some tenant. *)
Theorem tenant_out_of_range_fails {R K} `{EqDecision K} (key : R -> option K) (tenant_of : R -> option Z) policy admins i c (t : table R) u x p :
  governs policy admins -> pooled reverted c -> rls_enabled i = true -> user_role i <> Some "admin" ->
  tenant_id i = Some u -> in_integer u = false -> In x (rows t) -> tenant_of x.2 <> None ->
  (transaction key tenant_of policy reverted i (Execute (Select p) Return) (c, t)).1 = Raise CastError.
Proof.
  intros Hg Hc%pooled_idle Hr Hn Hu Hu' Hin Hx; [|done]. unfold transaction, with_transaction. cbn [fst snd run_program run_statement].
  set (f := admitted _ _ _).
  assert (forall r, f r = match tenant_of r with None => Ok true | Some _ => Raise CastError end) as Hf.
  { intros r. unfold f, admitted. destruct (permitted_entitled i c (tenant_of r) Hc) as [Ho Hd].
    unfold entitled in Ho, Hd. rewrite Hr, Hu, Hu', (bool_decide_false (user_role i = _)) in Ho, Hd by done.
    destruct Hg as [[-> ->]|[-> ->]]; by rewrite ?Ho, ?Hd; destruct (tenant_of r). }
  assert (forall past, on_rows key f (Select p) past (rows t) = Raise CastError) as Hl; [|by rewrite Hl].
  induction (rows t) as [|y l IH]; [done |]. intros past. cbn [on_rows on_row]. rewrite Hf.
  destruct (tenant_of y.2) eqn:Hy; [done |]. cbn [bind_result]. destruct Hin as [->|Hin]; [done |]. by rewrite IH.
Qed.

End sessions.

(** *** The repositories under row-level security

    Both filter by tenant themselves.  *)

Section tables.
Context {R : Type} (g : R -> bool).

Lemma select_own p (t : table R) : (forall r, p r = true -> g r = true) -> select p (own g t) = select p t.
Proof.
  intros Hp. unfold own, select. cbn. induction (rows t) as [|x l IH]; [done |]. cbn. specialize (Hp x.2).
  destruct (g x.2); cbn; rewrite IH; [done |]. destruct (p x.2); [|done]. discriminate Hp; done.
Qed.

Lemma get_own i (t : table R) :
  wf_table t -> get i (own g t) = match get i t with Some r => if g r then Some r else None | None => None end.
Proof.
  intros Hw. assert (wf_table (own g t)) as Hw'.
  { split; [by apply select_sorted |]. rewrite Forall_forall. intros j (x & -> & Hx)%list_elem_of_fmap.
    apply list_elem_of_In, filter_In in Hx as [Hx _]. destruct Hw as [_ Hlt]. rewrite Forall_forall in Hlt. apply Hlt.
    apply list_elem_of_fmap. exists x. by rewrite list_elem_of_In. }
  apply option_eq. intros r. unfold get at 1. rewrite <- lookup_row_In by apply Hw'. cbn [rows own].
  rewrite select_spec by done. destruct (get i t) as [s|]; [|split; [by intros [] | done]].
  destruct (g s) eqn:Hs; split; [by intros [] | by intros [= <-] | intros [[= <-] Hr]; congruence | done].
Qed.

Lemma own_update i f (t : table R) : (forall r, g (f r) = g r) -> own g (update i f t) = update i f (own g t).
Proof.
  intros Hf. unfold own, update, select. cbn. f_equal. induction (rows t) as [|x l IH]; [done |]. cbn [map List.filter].
  assert (g (if i =? x.1 then f x.2 else x.2) = g x.2) as Hx by (by destruct (i =? x.1)).
  cbn [snd]. rewrite Hx. destruct (g x.2); cbn [map]; by rewrite IH.
Qed.

End tables.

Lemma in_page {A} (x : A) n k l : In x (take n (drop k l)) -> In x l.
Proof.
  intros Hx. rewrite <- (take_drop k l). apply in_or_app. right. rewrite <- (take_drop n (drop k l)). apply in_or_app. by left.
Qed.

(** Row-level security changes no listing of observations for a request without the role
    admin; an administrator's listing, which the repository does not restrict, shows the
    observations of the session's tenant and of none: to a superadmin, whose session has
    no tenant, only the latter. *)
Theorem observations_under_row_security ctx skip limit source w :
  let i := get_db true ctx in
  let octx := Observations.Ctx (Tenant.tenant_context ctx) (Tenant.role_context ctx) in
  let seen o := sees false i (Observations.obs_tenant_id o) in
  let w' := Observations.with_observations w (own seen (Observations.observations w)) in
  (Tenant.role_context ctx <> Some "admin" ->
     Observations.get_observations octx skip limit source w' = Observations.get_observations octx skip limit source w) /\
  (Tenant.role_context ctx = Some "admin" ->
     (forall o, Observations._apply_tenant_filter octx o = true) /\
     forall page total x, Observations.get_observations octx skip limit source w' = Ok (page, total) -> In x page ->
       Observations.obs_tenant_id x.2 = None \/ Observations.obs_tenant_id x.2 = Tenant.tenant_context ctx).
Proof.
  intros i octx seen w'. unfold Observations.get_observations.
  assert (Observations.source_filter source w' = Observations.source_filter source w) as -> by done. split.
  - intros Hn. destruct (Observations.source_filter source w) as [p|e]; [|done]. cbn [bind_result].
    cbn [Observations.observations Observations.with_observations w'].
    assert (forall o, Observations._apply_tenant_filter octx o = true -> seen o = true) as Hs.
    { intros o. unfold Observations._apply_tenant_filter, seen, sees. cbn.
      destruct (Tenant.role_context ctx) as [role|]; cbn; [rewrite decide_False by congruence |];
        destruct (Tenant.tenant_context ctx); rewrite ?orb_true_iff, !bool_decide_eq_true; naive_solver. }
    rewrite select_own; [done |]. intros o [_ Ho]%andb_true_iff. by apply Hs.
  - intros Ha. split; [intros o; unfold Observations._apply_tenant_filter; cbn; by rewrite Ha |].
    intros page total x Hp Hx. destruct (Observations.source_filter source w) as [p|e]; [|done]. injection Hp as <- _.
    assert (In x (rows (own seen (Observations.observations w)))) as Hin.
    { apply in_page, filter_In in Hx as [Hx _]. exact Hx. }
    apply filter_In in Hin as [_ Hs]. unfold seen, sees in Hs. cbn in Hs. by apply bool_decide_eq_true in Hs.
Qed.

(** *** The incident endpoints under row-level security *)

Section incident_endpoints.
Context {J : Jwt} (str_of : json -> string) (get_roles : string -> string -> list string).
Import Jwt.Dict Tokens Incidents DbSession.

(** With lower-case roles, the role of the context is admin for who has that role. *)
Lemma admin_is_effective roles :
  Forall (fun r => lower r = r) roles -> "admin" ∈ roles -> Roles.resolve_effective_role roles = "admin".
Proof.
  intros Hl Ha. destruct (RoleTheorems.effective_role_highest roles) as [Hin Hmax]; [by intros ->; inversion Ha |].
  rewrite Forall_forall in Hl, Hmax. specialize (Hmax _ Ha). rewrite (Hl _ Hin) in Hmax.
  change (lower "admin") with "admin" in Hmax. unfold Roles._ROLE_PRIORITY in Hmax. repeat case_decide; done || lia.
Qed.

(** The session of a request with a token that names a user and a tenant. *)
Lemma token_session rls s now scheme credentials x payload t u :
  lower scheme = "bearer" -> strip credentials = credentials ->
  decode_jwt_claims s now credentials = Ok payload ->
  get_or_none "tenant_id" payload = JInt t -> get_or_none "sub" payload = JStr u -> str_truthy u = true ->
  Forall (fun r => lower r = r) (get_roles u (str_of_Z t)) ->
  let i := get_db rls (Tenant.request_context str_of get_roles s now (Some (scheme +:+ String " " credentials)) x) in
  tenant_id i = Some t /\ ("admin" ∈ get_roles u (str_of_Z t) -> user_role i = Some "admin").
Proof.
  intros Hs Hc Hd Ht Hu Htr Hl i. unfold i. rewrite TenantTheorems.bearer_header by done.
  unfold Tenant.resolve_tenant_from_jwt. rewrite Hd, Ht, Hu. cbn [is_none option_map to_int].
  destruct (Roles.is_superuser s u); [done |]. unfold truthy. rewrite Htr. cbn. split; [done |]. intros Ha.
  rewrite <- (admin_is_effective _ Hl Ha). destruct (get_roles u (str_of_Z t)); [by inversion Ha | done].
Qed.

Definition same_answer (g : DependencyIncident -> bool) (small large : result HTTPException (option DependencyIncident * incidents)) : Prop :=
  small = match large with Ok (row, t) => Ok (row, own g t) | Raise e => Raise e end.

Lemma transition_own g apply j c t :
  wf_table t -> (forall tenant admin r, _scope get_roles c = Ok (tenant, admin) -> in_scope tenant admin r = true -> g r = true) ->
  (forall r, (exists f, (forall r, g (f r) = g r) /\ forall t, apply j r t = Ok (update j f t)) \/
     exists e, forall t, apply j r t = Raise e) ->
  same_answer g (transition_by_id get_roles apply j c (own g t)) (transition_by_id get_roles apply j c t).
Proof.
  intros Hw Hs Ha. unfold same_answer, transition_by_id, get_incident. rewrite get_own by done.
  destruct (_scope get_roles c) as [[tenant admin]|e]; [|done]. cbn [bind_result].
  destruct (get j t) as [r|] eqn:Hr; [|done]. destruct (in_scope tenant admin r) eqn:Hin; [|by destruct (g r); rewrite ?Hin].
  rewrite (Hs _ _ _ eq_refl Hin), Hin. destruct (Ha r) as [(f & Hf & Hap)|[[m] Hap]]; rewrite !Hap; [|done].
  rewrite own_update, !get_update, get_own, Z.eqb_refl, Hr by done. by rewrite (Hs _ _ _ eq_refl Hin).
Qed.

(** Row-level security changes no answer of the incident endpoints to a caller whose token
    names a tenant: what the repository shows, the policy permits, and what an endpoint
    changes stays permitted. *)
Theorem incidents_under_row_security s now scheme credentials x payload t u (table : incidents) :
  lower scheme = "bearer" -> strip credentials = credentials ->
  decode_jwt_claims s now credentials = Ok payload ->
  get_or_none "tenant_id" payload = JInt t -> get_or_none "sub" payload = JStr u -> str_truthy u = true ->
  Forall (fun r => lower r = r) (get_roles u (str_of_Z t)) -> wf_table table ->
  let i := get_db true (Tenant.request_context str_of get_roles s now (Some (scheme +:+ String " " credentials)) x) in
  let c := Claims (Some u) (Some t) in
  let seen r := sees true i (Incidents.tenant_id r) in
  (forall st src offset limit,
     get_incidents get_roles c st src offset limit (own seen table) = get_incidents get_roles c st src offset limit table) /\
  (forall j, get_incident_by_id get_roles j c (own seen table) = get_incident_by_id get_roles j c table) /\
  (forall j later,
     same_answer seen (acknowledge_incident_by_id get_roles later j c (own seen table))
       (acknowledge_incident_by_id get_roles later j c table) /\
     same_answer seen (resolve_incident_by_id get_roles later j c (own seen table))
       (resolve_incident_by_id get_roles later j c table)).
Proof.
  intros Hsc Hcr Hd Ht Hu Htr Hl Hw i c seen.
  destruct (token_session true s now scheme credentials x payload t u Hsc Hcr Hd Ht Hu Htr Hl) as [Hi Hadm].
  fold i in Hi, Hadm.
  assert (forall tenant admin r, _scope get_roles c = Ok (tenant, admin) -> in_scope tenant admin r = true -> seen r = true) as Hs.
  { intros tenant admin r. cbn. intros [= <- <-]. unfold in_scope, seen, sees. rewrite Hi.
    intros [->%bool_decide_eq_true_1%Hadm|Hr%bool_decide_eq_true]%orb_true_iff; [by rewrite orb_true_r |].
    rewrite orb_true_iff, bool_decide_eq_true. auto. }
  split; [|split].
  - intros st src offset limit. unfold get_incidents. destruct (_scope get_roles c) as [[tenant admin]|e]; [|done].
    cbn [bind_result]. unfold list_incidents. rewrite select_own; [done |].
    intros r [[Hr _]%andb_true_iff _]%andb_true_iff. by eapply Hs.
  - intros j. unfold get_incident_by_id, get_incident. rewrite get_own by done.
    destruct (_scope get_roles c) as [[tenant admin]|e]; [|done]. cbn [bind_result].
    destruct (get j table) as [r|]; [|done]. destruct (seen r) eqn:E; [done |].
    destruct (in_scope tenant admin r) eqn:Hr; [|done]. by rewrite (Hs _ _ _ eq_refl Hr) in E.
  - intros j later. split; apply transition_own; try done; intros r; unfold acknowledge_incident, resolve_incident;
      destruct (decide _); (by left; eexists; split; [|reflexivity]) || (by right; eexists).
Qed.

(** A token without a tenant leaves the context without a role, so the session of an
    administrator whose roles are not bound to a tenant is shown none of the tenants'
    incidents, which the endpoints list without the policy. *)
Theorem tenantless_administrator_is_hidden_incidents s now scheme credentials x payload u :
  lower scheme = "bearer" -> strip credentials = credentials ->
  decode_jwt_claims s now credentials = Ok payload ->
  get_or_none "tenant_id" payload = JNull -> get_or_none "sub" payload = JStr u -> get_or_none "role" payload = JNull ->
  str_truthy u = true -> Roles.is_superuser s u = false -> "admin" ∈ get_roles u "*" ->
  let i := get_db true (Tenant.request_context str_of get_roles s now (Some (scheme +:+ String " " credentials)) x) in
  i = Info None None true /\ _scope get_roles (Claims (Some u) None) = Ok (None, true) /\
  forall r, in_scope None true r = true /\ (Incidents.tenant_id r <> None -> sees true i (Incidents.tenant_id r) = false).
Proof.
  intros Hsc Hcr Hd Ht Hu Hr Htr Hsup Ha i.
  assert (i = Info None None true) as ->.
  { unfold i. rewrite TenantTheorems.bearer_header by done. unfold Tenant.resolve_tenant_from_jwt.
    rewrite Hd, Ht, Hu, Hr. cbn [is_none]. rewrite Hsup. unfold truthy. by rewrite Htr. }
  split; [done |]. split; [unfold _scope, _roles; cbn; by rewrite bool_decide_true |].
  intros r. split; [done |]. intros Hn. unfold sees. cbn. apply bool_decide_false. by intros [|].
Qed.

End incident_endpoints.
End RowSecurityTheorems.

(** ** Witnesses *)

Module RowSecurityWitnesses.
Import Guc DbSession RowPolicy RowSecurity RowSecurityTheorems.
#[local] Existing Instance PlainJwt.plain.

(** Decimal numerals. *)
Definition read_integer (s : string) : option Z :=
  let z := match s with
           | String c r => if Ascii.eqb c "-" then - Url.digits_value r else Url.digits_value s
           | EmptyString => 0
           end in
  if in_integer z then Some z else None.

#[local] Instance decimal : PgCast := {| to_integer := read_integer |}.

#[local] Instance decimal_laws : PgCastLaws.
Proof.
  split. intros z. cbn [to_integer decimal]. destruct (Z.lt_ge_cases z 0) as [Hz|Hz].
  - destruct z as [|p|p]; [lia | lia |].
    change (read_integer (str_of_Z (Z.neg p))) with
      (if in_integer (- Url.digits_value (str_of_Z (Z.pos p))) then Some (- Url.digits_value (str_of_Z (Z.pos p))) else None).
    by destruct (VersionFacts.number_written (Z.pos p)) as [_ ->].
  - destruct (VersionFacts.number_written z Hz) as [Hd Hv]. destruct (str_of_Z z) as [|c r] eqn:E; [by apply str_of_Z_nonempty in E |].
    unfold read_integer, ContractVersions.digits in *. cbn in Hd. apply andb_true_iff in Hd as [Hc _].
    destruct (Ascii.eqb_spec c "-"%char) as [->|]; [done |]. by rewrite Hv.
Qed.

Definition ends_empty : option string := Some EmptyString.

Lemma ends_empty_reverts : ends_empty = None \/ ends_empty = Some EmptyString.
Proof. by right. Qed.

Definition of_tenant (t : Z) (role : string) : info := Info (Some t) (Some role) true.

(** A connection that an administrator of tenant 8 has used. *)
Definition after_8 : connection := (with_transaction ends_empty (of_tenant 8 "admin") (fun _ => ()) fresh_connection).2.

Lemma after_8_pooled : pooled ends_empty after_8.
Proof. apply rtc_once. apply (used_by ends_empty (of_tenant 8 "admin") fresh_connection). Qed.

Lemma pooled_settings_do_not_leak_witness :
  permitted observations_policy (_apply_request_database_context (of_tenant 7 "user") after_8) (Some 8) = Ok false /\
  permitted dependency_incidents_policy (_apply_request_database_context no_info after_8) (Some 8) = Ok true.
Proof.
  destruct (pooled_settings_do_not_leak ends_empty ends_empty_reverts (of_tenant 7 "user") after_8 (Some 8) after_8_pooled) as [-> _].
  destruct (pooled_settings_do_not_leak ends_empty ends_empty_reverts no_info after_8 (Some 8) after_8_pooled) as (_ & -> & _).
  by split.
Defined.

Definition observed (tenant : option Z) : Observations.Observation := ObservationWitnesses.stored tenant 40.

(** Observations of two tenants and of none. *)
Definition three : table Observations.Observation :=
  Table [(1, observed (Some 7)); (2, observed (Some 8)); (3, observed None)] 4.

(** Deletes whatever it meets, and returns how much that was. *)
Definition delete_all : program Observations.Observation nat :=
  Execute (Delete (fun _ => true)) (fun deleted => Return (length deleted)).

(** The unique index of the observations. *)
Definition source_and_time (o : Observations.Observation) : option (Z * datetime) :=
  Some (Observations.obs_source_id o, Observations.timestamp o).

Lemma of_seven_proper : proper_tenant (of_tenant 7 "user").
Proof. by intros u [= <-]. Qed.

Lemma tenants_do_not_interfere_witness :
  let '(answer, (_, t')) := transaction source_and_time Observations.obs_tenant_id observations_policy ends_empty (of_tenant 7 "user") delete_all (after_8, three) in
  answer = Ok 2%nat /\ rows t' = [(2, observed (Some 8))].
Proof.
  pose proof (tenants_do_not_interfere ends_empty ends_empty_reverts source_and_time Observations.obs_tenant_id observations_policy false
    (of_tenant 7 "user") after_8 delete_all three (or_introl (conj eq_refl eq_refl)) after_8_pooled of_seven_proper) as H.
  cbn zeta in H. destruct (transaction _ _ _ _ _ _ (after_8, three)) as [answer [c t']] eqn:E. destruct H as [H _].
  vm_compute in E. injection E as <- <- <-. split; [reflexivity |]. exact H.
Defined.

(** Tenant 7 does not see the observation of tenant 8, but cannot store one of the same
    source and time: the answer tells that it exists. *)
Lemma hidden_row_refuses_insert :
  let hidden := Table [(2, observed (Some 8))] 3 in
  let run m := (transaction source_and_time Observations.obs_tenant_id observations_policy ends_empty (of_tenant 7 "user") m
                  (after_8, hidden)).1 in
  run (Execute (Select (fun _ => true)) Return) = Ok [] /\
  run (Execute (Insert (observed (Some 7))) Return) = Raise UniqueViolation.
Proof. by vm_compute. Qed.

(** A header without a token. *)
Definition far_tenant : info :=
  get_db true (Tenant.request_context UserAuthWitnesses.no_text (fun _ _ => []) UserAuthWitnesses.settings 0 None (Some "99999999999")).

Lemma tenant_out_of_range_fails_witness :
  (transaction source_and_time Observations.obs_tenant_id observations_policy ends_empty far_tenant (Execute (Select (fun _ => true)) Return)
     (after_8, three)).1 = Raise CastError.
Proof.
  apply (tenant_out_of_range_fails ends_empty ends_empty_reverts source_and_time Observations.obs_tenant_id observations_policy false far_tenant after_8
    three 99999999999 (1, observed (Some 7)) (fun _ => true)); try reflexivity.
  - left. by split.
  - exact after_8_pooled.
  - done.
  - by left.
  - done.
Defined.

Definition root : Tenant.context := Tenant.Ctx None (Some "admin").

(** The superadmin lists three observations, and one of them with row-level security. *)
Lemma observations_under_row_security_witness :
  let seen o := sees false (get_db true root) (Observations.obs_tenant_id o) in
  let w := Observations.World ObservationWitnesses.weather_sources three in
  let list w := Observations.get_observations (Observations.Ctx None (Some "admin")) 0 10 None w in
  list w = Ok (rows three, 3%nat) /\
  list (Observations.with_observations w (own seen three)) = Ok ([(3, observed None)], 1%nat) /\
  Observations.obs_tenant_id (observed None) = None.
Proof.
  cbn zeta. split; [reflexivity |]. split; [reflexivity |].
  destruct (observations_under_row_security root 0 10 None (Observations.World ObservationWitnesses.weather_sources three)) as [_ H].
  destruct (H eq_refl) as [_ H']. destruct (H' _ _ (3, observed None) eq_refl) as [Ht|Ht]; [by left | exact Ht | exact Ht].
Defined.

Definition bob_is (roles : list string) (_ _ : string) : list string := roles.

Lemma outage_keys : wf_table IncidentWitnesses.outage.
Proof.
  apply Incidents.wf_keys. apply IncidentTheorems.incident_reachable_wf. exact IncidentWitnesses.outage_reachable.
Qed.

(** Bob of tenant 7 and its incident. *)
Lemma incidents_under_row_security_witness :
  let i := get_db true (Tenant.request_context UserAuthWitnesses.no_text (bob_is ["user"]) UserAuthWitnesses.settings 1000000
             (Some ("Bearer" +:+ String " " UserAuthWitnesses.bobs_token)) None) in
  i = Info (Some 7) (Some "user") true /\
  exists row, Incidents.get_incident_by_id (bob_is ["user"]) 1 (Incidents.Claims (Some "bob") (Some 7))
                (own (fun r => sees true i (Incidents.tenant_id r)) IncidentWitnesses.outage) = Ok row.
Proof.
  destruct (Tokens.decode_jwt_claims UserAuthWitnesses.settings 1000000 UserAuthWitnesses.bobs_token) as [payload|] eqn:Hd;
    [|by vm_compute in Hd].
  destruct (incidents_under_row_security UserAuthWitnesses.no_text (bob_is ["user"]) UserAuthWitnesses.settings 1000000 "Bearer"
    UserAuthWitnesses.bobs_token None payload 7 "bob" IncidentWitnesses.outage) as (_ & H & _); try exact Hd; try exact outage_keys;
    try (vm_compute in Hd; injection Hd as <-); try (by vm_compute); try (by repeat constructor).
  - cbn zeta. split; [reflexivity |]. rewrite (H 1). eexists. vm_compute. reflexivity.
Defined.

(** An administrator for every tenant. *)
Definition eves_token : string := Tokens.create_jwt_token UserAuthWitnesses.settings 0 "eve" None.

Lemma tenantless_administrator_is_hidden_incidents_witness :
  sees true (get_db true (Tenant.request_context UserAuthWitnesses.no_text (bob_is ["admin"]) UserAuthWitnesses.settings 1000000
     (Some ("Bearer" +:+ String " " eves_token)) None)) (Some 7) = false.
Proof.
  destruct (Tokens.decode_jwt_claims UserAuthWitnesses.settings 1000000 eves_token) as [payload|] eqn:Hd; [|by vm_compute in Hd].
  destruct (tenantless_administrator_is_hidden_incidents UserAuthWitnesses.no_text (bob_is ["admin"]) UserAuthWitnesses.settings 1000000
    "Bearer" eves_token None payload "eve") as (-> & _ & _); try exact Hd; try (vm_compute in Hd; injection Hd as <-); try (by vm_compute).
  set_solver.
Defined.

End RowSecurityWitnesses.
